(* ===== verification/_CoqProject ===== *)
-Q . S2P
Prelude.v
Bytes.v
Pmm.v
Update.v
UpdateRecord.v
WaitQueue.v
Pipe.v
Handle.v
PipeTable.v
Ksync.v
Futex.v
Sched.v
Kheap.v
KheapSafety.v
Vma.v
VmaList.v
VmaView.v
VmaSafety.v
VmaExact.v
Compress.v
Tty.v
Channel.v
ChannelSafety.v
Vfs.v
VfsSafety.v
Block.v
PageCache.v
PageCacheInv.v
Swap.v
PageCacheFrames.v
PageCacheSteps.v
PageCacheReclaim.v
PageCacheAccess.v
PageCacheGet.v
PageCacheFile.v
PageCacheOps.v
PageCacheTruncate.v
PageCacheWhole.v
PageCacheMachine.v
PageCacheDemo.v
PageCacheSafety.v
Aes.v
Xts.v
Sha.v
Kdf.v
KeyWrap.v
Ccmp.v
Wpa2.v
Wpa2Safety.v
