(* ===== verification/Prelude.v ===== *)
(** * EmbLinkOS: a verification library of the kernel

    EmbLinkOS is an operating system in C.  This library models the parts of its
    kernel whose correctness the rest depends on -- physical memory, the heap,
    address spaces, the page cache with swapping and the block layer under it,
    waking and scheduling, inter-process communication, names and their
    authority, the update journal, file compression, the console, cryptography
    and the WPA2 link -- and proves what makes each of them correct.

    ** How the parts fit together

    [pmm.c] hands out pages; [kheap.c] grows by them and serves every other part
    with memory.  [vma.c] keeps the mappings of a process and resolves its page
    faults through page objects and page tables.  [vm_object.c] is those page
    objects and the page cache: the pages of files and of memory, in frames of
    [pmm.c], written back to files, given up under pressure, or sent to the slots
    of [swap.c], which lie on a device of [block.c].  [process.c] owns threads and
    the wait queues they sleep on; pipes, channels, semaphores, mutexes and
    futexes are built on these, all under one scheduler lock; the policies of
    [sched_rr.c] and [sched_deadline.c] choose who runs.  A process names kernel
    objects through its handle table ([handle.c]), whose entries are pipe ends
    ([pipe.c]), channel ends ([channel.c]) and surfaces, and files through its
    namespace ([namespace.c]) and the path walk ([vfs.c]).  [protocol.c] is the
    journal that firmware and kernel share to install releases safely.  [aes.c],
    [xts.c], [sha256.c], [sha1.c], [hmac.c] and [pbkdf2.c] are the ciphers and
    hashes; disk blocks are encrypted with them, and on a wireless link
    [wpa2_crypto.c] derives keys, [wpa2.c] agrees on them with the access point
    and installs them in [ccmp.c], which protects the frames.

    ** Which file models what

    - [Prelude]: machine integers with their wraps ([!8] .. [!64], [i32]),
      arrays ([rd], [wr]), counted loops ([for_range]), error numbers, tactics
      and the hint databases [embk].  [Bytes]: buffers and little-endian fields.
    - [Pmm]: [kernel/mm/pmm.c].  The record [pmm] is the bitmap, the counters,
      the scan hint and the statistics; each operation is the body between lock
      and unlock.
    - [Kheap], [KheapSafety]: [kernel/mm/kheap.c] and [kmalloc.c].  A block is
      its header, a pool its free list; pages come through the class
      [PageSource], which [Pmm] implements.
    - [Vma], [VmaList], [VmaView], [VmaSafety], [VmaExact]: [kernel/mm/vma.c] and
      the tail of the file-mapping system call.  The state [vst] is the sorted list of
      mappings, the counters, and the state of what lies below: the class
      [VmEnv] (page objects, page tables, frames), with the laws [VmLaws].
      [VmaView] has the list page by page, [VmaSafety] the threads of a process,
      and [VmaExact] one thread alone, with the page table and the references.
    - [PageCache]: [kernel/mm/vm_object.c], every function of it.  The record
      [cache] is the objects, the page records, the registry, the two
      least-recently-used lists, the record pool and the contents of frames, with
      the states of the parts below: the classes [Frames], [Files], [Slots],
      [Tables] and [Heap].  [PageCacheInv] has their laws and the invariant, which
      says of the bytes that are firm (the class [Firm]) that clean pages agree with
      the device;
      [PageCacheSteps] to [PageCacheWhole] show what each function keeps and does;
      [PageCacheMachine] has the calls, the files and memory callers see, and
      what each call promises -- a store of a process through its mapping is a
      call too, into any page in memory, dirty or clean; [PageCacheSafety] the
      reachable states and the theorems; [PageCacheDemo] small concrete parts.  [PageCacheFrames]: the
      page allocator of [Pmm] obeys the laws of the frames.
    - [Block]: [kernel/block/block.c]; drivers are the class [Drivers].  [Swap]:
      [kernel/mm/swap.c] on [Block]; it obeys the laws of the slots.
    - [WaitQueue]: the wait queues, timed sleep and cancellation of
      [kernel/process/process.c].  [Ksync]: [ksync.c].  [Futex]: [futex.c].
      [Sched]: [sched_rr.c], [sched_deadline.c] and the admission test.
    - [Pipe], [PipeTable]: [kernel/ipc/pipe.c].  [Handle]: [handle.c], generic in
      the kinds of objects (class [KindOps], instances in [PipeTable] and
      [Channel]).  [Channel], [ChannelSafety]: [channel.c] and the reference
      counts of surfaces.
    - [Vfs], [VfsSafety]: [kernel/fs/vfs.c] (mounts, walk, resolution, wrappers),
      [namespace.c] and the namespace grant of a spawn in [process.c].  A file
      system is a table of operations on a state.
    - [Update], [UpdateRecord]: [kernel/update/protocol.c]; the transitions, and
      the 512-byte record.
    - [Compress]: [kernel/fs/embkfs/embkfs_compress.c].
    - [Tty]: [kernel/tty/tty.c] on the keyboard queue it reads.
    - [Aes], [Xts]: [kernel/crypto/aes.c] and [xts.c].  A block, a key schedule and
      a buffer are lists of bytes.  [Sha]: [sha256.c] and [sha1.c], a module each.
    - [Kdf]: [hmac.c], [pbkdf2.c] and the key derivations of
      [kernel/net/wifi/wpa2_crypto.c]; both hashes are instances of the class
      [Hash] with the laws [HashLaws].  [KeyWrap]: the rest of [wpa2_crypto.c].
    - [Ccmp]: [kernel/net/wifi/ccmp.c].  [Wpa2]: [wpa2.c]; the callbacks of the
      adapter are the class [WpaOps], and [recorded] is any adapter with a record
      of its calls.  [Wpa2Safety]: the theorems about it.

    ** Conventions

    A C function becomes a Rocq function of the same name.  What it changes is
    threaded as state; an error return is a negative [Z] or a sum.  A loop is a
    structural recursion or has fuel, and theorems state that the fuel is
    enough.  A critical section is one step.  Where the C drops a lock in the
    middle of an operation, or works before taking it, the operation has an
    argument ([other], [first], [others], [later]) for what everyone else does
    there, or is split into steps of a transition relation.  Memory errors are
    outcomes of their own: [Fault] in [Compress], [Crash] in [Channel], [None]
    where [Kheap] would read a header that is not one.

    ** What the theorems show

    - Memory.  The page allocator returns exactly the free page or run its scan
      must find and changes nothing else.  In every history of allocations of
      at most 2^40 bytes and frees, without [krealloc], the heap's blocks tile its
      range and no two pointers overlap; allocation terminates.  For one thread
      alone, [mmap], [munmap] and [mprotect] change exactly the pages of their
      range, in the list and, for the last two, in the page table, their failures
      change no page, and references move with the mappings; in every
      interleaving of threads the mapping list stays sorted, no page is mapped
      with a right its mapping lacks, nothing is writable and executable, and
      objects are not freed while mapped; exit returns every reference.
    - Files in memory.  In every state the page cache can reach, its calls return
      and change the files and memory their callers see exactly as promised;
      write-back, reclaim and swapping do not show.  Excepted are unsaved bytes:
      those a process has stored into a page that counts as clean, or past the end
      of the file, which nothing writes back; only such stores make them.  Its tables and counters are
      exact, no two pages share a frame or a slot, a successful flush is on the
      device, and reclaim gives back what it says and never a wired file page.
      The swap store is a map from slots to pages and is found by its header; the
      block layer reads back what was written, bounced or not.
    - Waking and scheduling.  Pipes are streams; no wakeup is lost by pipes or
      semaphores; mutexes exclude; futexes wake exactly the sleepers of their
      word.  Round robin bounds waiting, deadlines are served earliest first.
    - Communication and authority.  A handle resolves to what it was made for.
      In every interleaving of threads the references of channels and surfaces
      are exact and no freed channel is touched, as long as messages list no
      channel ends and no thread gives up a handle another thread of its process is
      using; a message arrives behind those before it with its bytes and handles.
      A path walk ends, and at an object below its start that going down the named
      entries reaches; a write needs a writable binding; a child names nothing its parent cannot.
    - Updates.  The journal refines an abstract machine of slots; a torn write is
      survived, damage is detected, a failed trial falls back.
    - Compression restores every input within its bound, and decompression of
      any bytes touches no memory outside its buffers.  The console delivers a
      line as it was edited.
    - Cryptography.  AES decryption and encryption undo each other for every key,
      and its tables are those of the field of 256 elements.  Disk encryption is
      the standard's, unit by unit.  Hashing does not depend on how a message is
      cut and is the standard's; HMAC, PBKDF2 and key wrapping agree with their
      RFCs; the security element of a network is accepted exactly when it offers
      CCMP with a pre-shared key.
    - Wireless links.  Opening undoes sealing, packet numbers are never used or
      accepted twice.  Whatever arrives, the supplicant keeps its contract: the
      pairwise key is installed once and the port opens only after that; keys come
      only from messages coded under the session's key; with an honest access
      point the handshake completes.
    - Some theorems evaluate what the code does against its comments: expanding
      a heap block in place, stale flags in a fault, a channel end copied into a
      message, a read-only prefix reached by another spelling of its path, a frame
      freed by truncation under a mapping, a store to a mapping that is lost, a
      forged message 1 that locks the supplicant out, a message 3 sent again with
      a new counter that is not answered.

    ** Bounds and fuel

    [Pmm] scans have fuel for every page left to scan.  [kheap_alloc] re-enters
    itself at most four times ([DEPTH]), proved enough.  The walk of [Vfs] has
    fuel for the bytes of the path and of eight spliced links, proved enough.
    The compressor's loop has fuel for every input byte and the decompressor's
    for every byte of its input.  The sweep of [PageCache] over memory pages has
    fuel for every page of the list and every accessed bit that can still be set
    ([enough]), proved enough; transfers of [Block] have fuel for every block.
    The padding loop of the hashes has 64 turns and the blocks of PBKDF2 one per
    byte, both proved enough; the elements of key data have fuel for every byte.
    File offsets stay below [FILE_MAX].  The timing counters wrap as in C; sums of page
    indices do not reach 2^64 because physical addresses do not.

    ** Not modelled

    Page tables are an interface of [Vma] and of [PageCache], and so are the
    drivers under [Block] and the file systems behind the operation tables.
    [Vma] takes the page objects as the interface [VmEnv].  [vmo_invalidate],
    which nothing calls, is modelled but not among the calls of the machine.
    Endpoints, pseudo-terminals, file descriptors, partitions and the installer,
    the network stack, the wireless station and its radio drivers, loaders,
    system-call argument copying and the process table outside the parts above are
    not modelled.  Erasing secrets from local memory does not show in a
    functional model.  Drivers, architecture code, ACPI, graphics and
    boot are registers, interrupts and assembly; the shell, the user interface,
    applications, ports and third-party code are user programs or imported.
    Printing and timing statistics are left out everywhere. *)

From stdpp Require Export base list list_numbers gmap.
From Stdlib Require Export ZArith Lia Bool.

#[global] Set Default Goal Selector "!".

(** Everything of the development lives in this scope: 64-bit arithmetic is on
    [Z], and [!64] etc. mark the places where a C expression wraps. *)
Declare Scope embk_scope.
Delimit Scope embk_scope with embk.
#[global] Open Scope Z_scope.
#[global] Open Scope embk_scope.

Create HintDb embk discriminated.
Create Rewrite HintDb embk.

(** ** Machine integers *)

Definition u8 (z : Z) : Z := z mod 2 ^ 8.
Definition u16 (z : Z) : Z := z mod 2 ^ 16.
Definition u32 (z : Z) : Z := z mod 2 ^ 32.
Definition u64 (z : Z) : Z := z mod 2 ^ 64.

Definition UINT64_MAX : Z := 2 ^ 64 - 1.

(** Conversion of a 32-bit pattern to [int32_t] (two's complement). *)
Definition i32 (z : Z) : Z := (z + 2 ^ 31) mod 2 ^ 32 - 2 ^ 31.

Notation "'!8' z" := (u8 z) (at level 9, z at level 9) : embk_scope.
Notation "'!16' z" := (u16 z) (at level 9, z at level 9) : embk_scope.
Notation "'!32' z" := (u32 z) (at level 9, z at level 9) : embk_scope.
Notation "'!64' z" := (u64 z) (at level 9, z at level 9) : embk_scope.

Lemma u8_small z : 0 <= z < 2 ^ 8 -> u8 z = z.
Proof. apply Z.mod_small. Qed.
Lemma u16_small z : 0 <= z < 2 ^ 16 -> u16 z = z.
Proof. apply Z.mod_small. Qed.
Lemma u32_small z : 0 <= z < 2 ^ 32 -> u32 z = z.
Proof. apply Z.mod_small. Qed.
Lemma u64_small z : 0 <= z < 2 ^ 64 -> u64 z = z.
Proof. apply Z.mod_small. Qed.
Lemma u8_range z : 0 <= u8 z < 2 ^ 8.
Proof. apply Z.mod_pos_bound. lia. Qed.
Lemma u16_range z : 0 <= u16 z < 2 ^ 16.
Proof. apply Z.mod_pos_bound. lia. Qed.
Lemma u32_range z : 0 <= u32 z < 2 ^ 32.
Proof. apply Z.mod_pos_bound. lia. Qed.
Lemma u64_range z : 0 <= u64 z < 2 ^ 64.
Proof. apply Z.mod_pos_bound. lia. Qed.

Lemma i32_small z : - 2 ^ 31 <= z < 2 ^ 31 -> i32 z = z.
Proof. intros. unfold i32. rewrite Z.mod_small; lia. Qed.

(** Rewrite every wrap whose argument is provably in range. *)
Ltac unwrap :=
  repeat match goal with
  | |- context [u64 ?z] => rewrite (u64_small z) by lia
  | |- context [u32 ?z] => rewrite (u32_small z) by lia
  | |- context [u16 ?z] => rewrite (u16_small z) by lia
  | |- context [u8 ?z] => rewrite (u8_small z) by lia
  end.
Ltac unwrap_in H :=
  repeat match type of H with
  | context [u64 ?z] => rewrite (u64_small z) in H by lia
  | context [u32 ?z] => rewrite (u32_small z) in H by lia
  | context [u16 ?z] => rewrite (u16_small z) in H by lia
  | context [u8 ?z] => rewrite (u8_small z) in H by lia
  end.

(** ** Boolean tests *)

(** Turn every boolean comparison of the goal and the context into its
    proposition. *)
Ltac b2p :=
  repeat match goal with
  | H : _ && _ = true |- _ => apply andb_true_iff in H as [? ?]
  | H : _ || _ = false |- _ => apply orb_false_iff in H as [? ?]
  | H : negb _ = true |- _ => apply negb_true_iff in H
  | H : negb _ = false |- _ => apply negb_false_iff in H
  | H : (_ =? _) = true |- _ => apply Z.eqb_eq in H
  | H : (_ =? _) = false |- _ => apply Z.eqb_neq in H
  | H : (_ <? _) = true |- _ => apply Z.ltb_lt in H
  | H : (_ <? _) = false |- _ => apply Z.ltb_ge in H
  | H : (_ <=? _) = true |- _ => apply Z.leb_le in H
  | H : (_ <=? _) = false |- _ => apply Z.leb_gt in H
  | H : (_ =? _)%nat = true |- _ => apply Nat.eqb_eq in H
  | H : (_ =? _)%nat = false |- _ => apply Nat.eqb_neq in H
  | H : (_ <? _)%nat = true |- _ => apply Nat.ltb_lt in H
  | H : (_ <? _)%nat = false |- _ => apply Nat.ltb_ge in H
  | H : (_ <=? _)%nat = true |- _ => apply Nat.leb_le in H
  | H : (_ <=? _)%nat = false |- _ => apply Nat.leb_gt in H
  | H : bool_decide _ = true |- _ => apply bool_decide_eq_true_1 in H
  | H : bool_decide _ = false |- _ => apply bool_decide_eq_false_1 in H
  end.

(** Case analysis on the test of the innermost [if] of the goal (or of a
    hypothesis), recording the test as a proposition. *)
Ltac case_if :=
  match goal with
  | |- context [if ?b then _ else _] =>
      lazymatch b with context [if _ then _ else _] => fail | _ => idtac end;
      destruct b eqn:?; b2p
  end.
Ltac case_if_in H :=
  match type of H with
  | context [if ?b then _ else _] =>
      lazymatch b with context [if _ then _ else _] => fail | _ => idtac end;
      destruct b eqn:?; b2p
  end.

(** ** Arrays

    A C array is the list of its elements.  [rd] and [wr] read and write the
    element of a [Z] index; the operations of the kernel only use them inside
    the array (the invariants say so). *)

Definition rd (l : list Z) (i : Z) : Z := default 0 (l !! Z.to_nat i).
Definition wr {A} (l : list A) (i : Z) (v : A) : list A := <[Z.to_nat i := v]> l.

Lemma wr_length {A} (l : list A) i v : length (wr l i v) = length l.
Proof. apply length_insert. Qed.

Lemma rd_wr_eq l i v :
  0 <= i < Z.of_nat (length l) -> rd (wr l i v) i = v.
Proof. intros H. unfold rd, wr. rewrite list_lookup_insert_eq by lia. done. Qed.

Lemma rd_wr_ne (l : list Z) i j v :
  0 <= i -> 0 <= j -> i <> j -> rd (wr l i v) j = rd l j.
Proof. intros. unfold rd, wr. rewrite list_lookup_insert_ne by lia. done. Qed.

Lemma rd_app_l l k i :
  0 <= i < Z.of_nat (length l) -> rd (l ++ k) i = rd l i.
Proof. intros. unfold rd. rewrite lookup_app_l by lia. done. Qed.

Lemma rd_app_r l k i :
  Z.of_nat (length l) <= i -> rd (l ++ k) i = rd k (i - Z.of_nat (length l)).
Proof.
  intros. unfold rd. rewrite lookup_app_r by lia. do 2 f_equal. lia.
Qed.

Lemma rd_replicate n v i :
  0 <= i < Z.of_nat n -> rd (replicate n v) i = v.
Proof. intros. unfold rd. rewrite lookup_replicate_2 by lia. done. Qed.

Lemma rd_lookup (l : list Z) i :
  0 <= i < Z.of_nat (length l) -> l !! Z.to_nat i = Some (rd l i).
Proof.
  intros H. unfold rd.
  destruct (lookup_lt_is_Some_2 l (Z.to_nat i)) as [x Hx]; [lia |].
  by rewrite Hx.
Qed.

Definition is_byte (z : Z) : Prop := 0 <= z < 256.

Lemma rd_byte l i : Forall is_byte l -> is_byte (rd l i).
Proof.
  intros H. unfold rd, is_byte. destruct (l !! Z.to_nat i) eqn:E; simpl; [| lia].
  eapply Forall_lookup_1 in H; [| exact E]. exact H.
Qed.

Lemma wr_Forall {A} (P : A -> Prop) (l : list A) i v :
  Forall P l -> P v -> Forall P (wr l i v).
Proof. intros. by apply Forall_insert. Qed.

(** ** Bounded loops

    [for_range n p f s] is the loop
    [for (q = p; q < p + n; q++) s = f(q, s)]. *)

Fixpoint for_range {St} (n : nat) (p : Z) (f : Z -> St -> St) (s : St) : St :=
  match n with
  | O => s
  | S n' => for_range n' (p + 1) f (f p s)
  end.

(** Loop rule: an invariant indexed by the next index. *)
Lemma for_range_ind {St} (I : Z -> St -> Prop) (f : Z -> St -> St) n p s :
  I p s ->
  (forall q s, p <= q < p + Z.of_nat n -> I q s -> I (q + 1) (f q s)) ->
  I (p + Z.of_nat n) (for_range n p f s).
Proof.
  revert p s. induction n as [| n IH]; intros p s H0 Hs; simpl.
  - by rewrite Z.add_0_r.
  - replace (p + Z.of_nat (S n)) with (p + 1 + Z.of_nat n) by lia.
    apply IH; [apply Hs; [lia | done] |].
    intros q s' Hq Hi. apply Hs; [lia | done].
Qed.

(** [for_down n p f s] is the loop that runs [f] at [p], [p - 1], ..., [n] turns in all. *)
Fixpoint for_down {St} (n : nat) (p : Z) (f : Z -> St -> St) (s : St) : St :=
  match n with
  | O => s
  | S n' => for_down n' (p - 1) f (f p s)
  end.

Lemma for_range_snoc {St} (f : Z -> St -> St) n p s :
  for_range (S n) p f s = f (p + Z.of_nat n) (for_range n p f s).
Proof.
  revert p s. induction n as [| n IH]; intros p s; [simpl; by rewrite Z.add_0_r |].
  change (for_range (S (S n)) p f s) with (for_range (S n) (p + 1) f (f p s)).
  rewrite IH. simpl for_range. f_equal. lia.
Qed.

Lemma for_down_snoc {St} (f : Z -> St -> St) n p s :
  for_down (S n) p f s = f (p - Z.of_nat n) (for_down n p f s).
Proof.
  revert p s. induction n as [| n IH]; intros p s; [simpl; by rewrite Z.sub_0_r |].
  change (for_down (S (S n)) p f s) with (for_down (S n) (p - 1) f (f p s)).
  rewrite IH. simpl for_down. f_equal. lia.
Qed.

(** A loop whose turns undo, through a view [h] of the state, the turns of
    another in the opposite order undoes the loop. *)
Lemma for_down_undoes {St Su} (I : St -> Prop) (h : St -> Su) f g n p s :
  I s ->
  (forall q s, p <= q < p + Z.of_nat n -> I s -> I (f q s) /\ g q (h (f q s)) = h s) ->
  for_down n (p + Z.of_nat n - 1) g (h (for_range n p f s)) = h s.
Proof.
  revert p s. induction n as [| n IH]; intros p s Hs Hfg; [done |].
  rewrite for_down_snoc. simpl for_range.
  destruct (Hfg p s) as [Hi Hg]; [lia | done |].
  rewrite <- Hg. f_equal; [lia |].
  replace (p + Z.of_nat (S n) - 1) with (p + 1 + Z.of_nat n - 1) by lia.
  apply IH; [done |]. intros q s' Hq. apply Hfg. lia.
Qed.

Lemma for_range_undoes {St Su} (I : Su -> Prop) (h : Su -> St) f g n p s :
  I s ->
  (forall q s, p <= q < p + Z.of_nat n -> I s -> I (g q s) /\ f q (h (g q s)) = h s) ->
  for_range n p f (h (for_down n (p + Z.of_nat n - 1) g s)) = h s.
Proof.
  revert s. induction n as [| n IH]; intros s Hs Hfg; [done |].
  rewrite for_range_snoc. simpl for_down.
  replace (p + Z.of_nat (S n) - 1) with (p + Z.of_nat n) by lia.
  destruct (Hfg (p + Z.of_nat n) s) as [Hi Hg]; [lia | done |].
  rewrite <- Hg. f_equal. apply IH; [done |].
  intros q s' Hq. apply Hfg. lia.
Qed.

(** A loop that updates each cell of a list once, from its index and its value. *)
Lemma for_range_imap_aux (f : Z -> Z -> Z) pre l :
  for_range (length l) (Z.of_nat (length pre)) (fun i s => wr s i (f i (rd s i))) (pre ++ l)
  = pre ++ imap (fun i x => f (Z.of_nat (length pre + i)) x) l.
Proof.
  revert pre. induction l as [| x l IH]; intros pre; [done |]. simpl for_range.
  replace (wr (pre ++ x :: l) (Z.of_nat (length pre)) _)
    with (pre ++ f (Z.of_nat (length pre)) x :: l).
  2:{ unfold wr, rd. rewrite !Nat2Z.id, lookup_app_r, Nat.sub_diag by lia.
      rewrite insert_app_r_alt, Nat.sub_diag by lia. done. }
  rewrite cons_middle, app_assoc.
  replace (Z.of_nat (length pre) + 1)
    with (Z.of_nat (length (pre ++ [f (Z.of_nat (length pre)) x])))
    by (rewrite length_app; simpl; lia).
  rewrite IH, <- app_assoc. simpl. f_equal. f_equal.
  - f_equal. lia.
  - apply imap_ext. intros i y _. unfold compose. f_equal. rewrite length_app. simpl. lia.
Qed.

Lemma for_range_imap (f : Z -> Z -> Z) n l :
  length l = n ->
  for_range n 0 (fun i s => wr s i (f i (rd s i))) l = imap (fun i x => f (Z.of_nat i) x) l.
Proof. intros <-. apply (for_range_imap_aux f [] l). Qed.

(** ** Counting

    [countb f n] is the number of indices below [n] satisfying [f]. *)

Fixpoint countb (f : Z -> bool) (n : nat) : Z :=
  match n with
  | O => 0
  | S m => countb f m + (if f (Z.of_nat m) then 1 else 0)
  end.

Lemma countb_bounds f n : 0 <= countb f n <= Z.of_nat n.
Proof. induction n as [| n IH]; simpl countb; [lia |]. destruct (f _); lia. Qed.

Lemma countb_ext f g n :
  (forall i, 0 <= i < Z.of_nat n -> f i = g i) -> countb f n = countb g n.
Proof.
  induction n as [| n IH]; intros H; simpl; [done |].
  rewrite IH by (intros; apply H; lia). rewrite H by lia. done.
Qed.

(** Switching one index from [false] to [true] adds exactly one. *)
Lemma countb_flip f g n i :
  0 <= i < Z.of_nat n -> f i = false -> g i = true ->
  (forall j, 0 <= j < Z.of_nat n -> j <> i -> f j = g j) ->
  countb g n = countb f n + 1.
Proof.
  induction n as [| n IH]; intros Hi Hf Hg Ho; [lia |]. simpl.
  destruct (decide (i = Z.of_nat n)) as [-> | Hne].
  - rewrite Hf, Hg. rewrite (countb_ext f g n) by (intros; apply Ho; lia). lia.
  - rewrite IH; [| lia | done | done | intros; apply Ho; lia].
    rewrite (Ho (Z.of_nat n)) by lia. lia.
Qed.

Lemma countb_pos f n :
  0 < countb f n <-> exists i, 0 <= i < Z.of_nat n /\ f i = true.
Proof.
  split.
  - induction n as [| n IH]; simpl; [lia |]. intros H.
    destruct (f (Z.of_nat n)) eqn:E; [exists (Z.of_nat n); split; [lia | done] |].
    destruct IH as (i & ? & ?); [lia |]. exists i. split; [lia | done].
  - intros (i & Hi & Hf). induction n as [| n IH]; simpl; [lia |].
    pose proof (countb_bounds f n).
    destruct (decide (i = Z.of_nat n)) as [-> | ?]; [rewrite Hf; lia |].
    assert (0 < countb f n) by (apply IH; lia). destruct (f (Z.of_nat n)); lia.
Qed.

(** ** Alignment masks

    [x & ~(2^k - 1)] is [x] rounded down to a multiple of [2^k]. *)

Lemma land_lnot_ones x k :
  0 <= k -> Z.land x (Z.lnot (2 ^ k - 1)) = x - x mod 2 ^ k.
Proof.
  intros Hk. rewrite <- Z.ldiff_land.
  replace (2 ^ k - 1) with (Z.ones k) by (rewrite Z.ones_equiv; lia).
  rewrite Z.ldiff_ones_r by done. rewrite Z.shiftl_mul_pow2, Z.shiftr_div_pow2 by done.
  pose proof (Z.div_mod x (2 ^ k)). lia.
Qed.

Lemma land_ones_mod x k : 0 <= k -> Z.land x (2 ^ k - 1) = x mod 2 ^ k.
Proof.
  intros Hk. replace (2 ^ k - 1) with (Z.ones k) by (rewrite Z.ones_equiv; lia).
  by apply Z.land_ones.
Qed.

(** The mask is itself a 64-bit value. *)
Lemma land_mask64 x k :
  0 <= k -> 0 <= x < 2 ^ 64 -> Z.land x (u64 (Z.lnot (2 ^ k - 1))) = x - x mod 2 ^ k.
Proof.
  intros Hk Hx. unfold u64. rewrite <- Z.land_ones by lia.
  rewrite (Z.land_comm (Z.lnot _)), Z.land_assoc, Z.land_ones, (Z.mod_small x) by lia.
  by apply land_lnot_ones.
Qed.

(** A value is a power of two exactly when [a & (a - 1)] is zero. *)
Definition is_pow2 (a : Z) : Prop := exists k, 0 <= k /\ a = 2 ^ k.

Lemma land_pred_pow2 a : 0 < a -> Z.land a (a - 1) = 0 -> is_pow2 a.
Proof.
  intros Ha H. exists (Z.log2 a). split; [apply Z.log2_nonneg |].
  pose proof (Z.log2_spec a Ha) as [Hlo Hhi].
  destruct (decide (a = 2 ^ Z.log2 a)) as [? | Hne]; [done |]. exfalso.
  assert (Z.testbit (Z.land a (a - 1)) (Z.log2 a) = true) as Hb.
  { rewrite Z.land_spec, Z.bit_log2 by done. simpl.
    replace (Z.log2 a) with (Z.log2 (a - 1)); [apply Z.bit_log2 |].
    - assert (0 < 2 ^ Z.log2 a) by (apply Z.pow_pos_nonneg; [lia | apply Z.log2_nonneg]). lia.
    - apply Z.log2_unique; [apply Z.log2_nonneg | lia]. }
  rewrite H, Z.bits_0 in Hb. done.
Qed.

(** ** Errors

    [kernel/include/errno.h]: a kernel call returns [0] or a negated code. *)
Module Errno.
Definition EMBK_OK : Z := 0.
Definition EMBK_EPERM : Z := 1.
Definition EMBK_ENOENT : Z := 2.
Definition EMBK_EIO : Z := 5.
Definition EMBK_EAGAIN : Z := 11.
Definition EMBK_ENOMEM : Z := 12.
Definition EMBK_EACCES : Z := 13.
Definition EMBK_EFAULT : Z := 14.
Definition EMBK_EBUSY : Z := 16.
Definition EMBK_EEXIST : Z := 17.
Definition EMBK_ENODEV : Z := 19.
Definition EMBK_ENOTDIR : Z := 20.
Definition EMBK_EINVAL : Z := 22.
Definition EMBK_ENFILE : Z := 23.
Definition EMBK_EMFILE : Z := 24.
Definition EMBK_ENOSPC : Z := 28.
Definition EMBK_EROFS : Z := 30.
Definition EMBK_EPIPE : Z := 32.
Definition EMBK_ERANGE : Z := 34.
Definition EMBK_ENAMETOOLONG : Z := 36.
Definition EMBK_ENOSYS : Z := 38.
Definition EMBK_ELOOP : Z := 40.
Definition EMBK_EMSGSIZE : Z := 90.
Definition EMBK_ENOTSUP : Z := 95.
Definition EMBK_ECANCELED : Z := 125.
End Errno.

#[export] Hint Resolve u8_range u16_range u32_range u64_range rd_byte : embk.
#[export] Hint Rewrite @wr_length : embk.

(** ** Single bits *)

Lemma testbit_bit k j : 0 <= k -> Z.testbit (Z.shiftl 1 k) j = (k =? j).
Proof. intros. rewrite Z.shiftl_1_l. by rewrite Z.pow2_bits_eqb. Qed.

(** The C test [(b & (1 << k)) != 0] reads bit [k]. *)
Lemma land_bit_test b k :
  0 <= k -> negb (Z.land b (Z.shiftl 1 k) =? 0) = Z.testbit b k.
Proof.
  intros Hk. destruct (Z.testbit b k) eqn:Hb.
  - apply negb_true_iff, Z.eqb_neq. intros H0.
    assert (Z.testbit (Z.land b (Z.shiftl 1 k)) k = true) as Ht.
    { rewrite Z.land_spec, testbit_bit, Hb, Z.eqb_refl by done. done. }
    rewrite H0, Z.bits_0 in Ht. done.
  - apply negb_false_iff, Z.eqb_eq. apply Z.bits_inj'. intros j Hj.
    rewrite Z.land_spec, testbit_bit, Z.bits_0 by done.
    destruct (Z.eqb_spec k j) as [<- |]; [by rewrite Hb | by rewrite andb_false_r].
Qed.

Lemma testbit_u8 z j : 0 <= j < 8 -> Z.testbit (u8 z) j = Z.testbit z j.
Proof. intros. unfold u8. by rewrite Z.mod_pow2_bits_low by lia. Qed.

(** Two bytes with the same eight bits are equal. *)
Lemma byte_ext a b :
  is_byte a -> is_byte b -> (forall j, 0 <= j < 8 -> Z.testbit a j = Z.testbit b j) -> a = b.
Proof.
  unfold is_byte. intros Ha Hb H. apply Z.bits_inj'. intros j Hj.
  destruct (decide (j < 8)); [apply H; lia |].
  rewrite <- (Z.mod_small a (2 ^ 8)), <- (Z.mod_small b (2 ^ 8)) by lia.
  by rewrite !Z.mod_pow2_bits_high by lia.
Qed.

(** Indices where the predicate is false do not count. *)
Lemma countb_extend f n m :
  (n <= m)%nat -> (forall i, Z.of_nat n <= i < Z.of_nat m -> f i = false) ->
  countb f m = countb f n.
Proof.
  induction m as [| m IH]; intros Hle H; [by replace n with 0%nat by lia |].
  destruct (decide (n = S m)) as [-> |]; [done |]. simpl.
  rewrite IH by (lia || (intros; apply H; lia)). rewrite H by lia. lia.
Qed.

Lemma rd_replicate_any n v i : 0 <= i -> rd (replicate n v) i = v \/ Z.of_nat n <= i.
Proof. intros. destruct (decide (i < Z.of_nat n)); [left; apply rd_replicate; lia | lia]. Qed.

(** ** Bounded values, bit by bit *)

Lemma bounded_high n a j : 0 <= a < 2 ^ n -> 0 <= n <= j -> Z.testbit a j = false.
Proof. intros Ha Hj. rewrite <- (Z.mod_small a (2 ^ n)) by done. by apply Z.mod_pow2_bits_high. Qed.

Lemma bounded_bits n a :
  0 <= n -> (forall j, n <= j -> Z.testbit a j = false) -> 0 <= a < 2 ^ n.
Proof.
  intros Hn H. assert (a = a mod 2 ^ n) as ->; [| apply Z.mod_pos_bound, Z.pow_pos_nonneg; lia].
  apply Z.bits_inj'. intros j Hj. destruct (decide (j < n)).
  - by rewrite Z.mod_pow2_bits_low.
  - rewrite Z.mod_pow2_bits_high by lia. apply H. lia.
Qed.

Lemma lxor_bounded n a b :
  0 <= n -> 0 <= a < 2 ^ n -> 0 <= b < 2 ^ n -> 0 <= Z.lxor a b < 2 ^ n.
Proof.
  intros Hn Ha Hb. apply bounded_bits; [done |]. intros j Hj.
  by rewrite Z.lxor_spec, (bounded_high n a), (bounded_high n b) by lia.
Qed.

Lemma land_bounded n a b : 0 <= n -> 0 <= a < 2 ^ n -> 0 <= Z.land a b < 2 ^ n.
Proof.
  intros Hn Ha. apply bounded_bits; [done |]. intros j Hj.
  by rewrite Z.land_spec, (bounded_high n a) by lia.
Qed.

Lemma lor_bounded n a b :
  0 <= n -> 0 <= a < 2 ^ n -> 0 <= b < 2 ^ n -> 0 <= Z.lor a b < 2 ^ n.
Proof.
  intros Hn Ha Hb. apply bounded_bits; [done |]. intros j Hj.
  by rewrite Z.lor_spec, (bounded_high n a), (bounded_high n b) by lia.
Qed.

Lemma lxor_inj_l a x y : Z.lxor a x = Z.lxor a y -> x = y.
Proof.
  intros H. apply (f_equal (Z.lxor a)) in H.
  by rewrite <- !Z.lxor_assoc, Z.lxor_nilpotent, !Z.lxor_0_l in H.
Qed.

Lemma lxor_inj_r a x y : Z.lxor x a = Z.lxor y a -> x = y.
Proof. rewrite !(Z.lxor_comm _ a). apply lxor_inj_l. Qed.

(** ** Filters *)

Lemma filter_all {A} (P : A -> Prop) `{forall x, Decision (P x)} (l : list A) :
  Forall P l -> filter P l = l.
Proof. induction 1 as [| x l Hx _ IH]; [done |]. by rewrite filter_cons_True, IH. Qed.

Lemma filter_none {A} (P : A -> Prop) `{forall x, Decision (P x)} (l : list A) :
  Forall (fun x => ~ P x) l -> filter P l = [].
Proof. induction 1 as [| x l Hx _ IH]; [done |]. by rewrite filter_cons_False. Qed.

Lemma filter_ext {A} (P Q : A -> Prop) `{forall x, Decision (P x)} `{forall x, Decision (Q x)} (l : list A) :
  (forall x, x ∈ l -> P x <-> Q x) -> filter P l = filter Q l.
Proof.
  induction l as [| x l IH]; intros E; [done |]. rewrite !filter_cons.
  rewrite IH by (intros; apply E; by apply list_elem_of_further).
  pose proof (E x (list_elem_of_here _ _)) as Ex.
  destruct (decide (P x)), (decide (Q x)); tauto || done.
Qed.
