(* ===== verification/Bytes.v ===== *)
(** * Byte buffers

    The vocabulary the on-disk and on-wire formats share: sub-ranges and
    stores in a buffer (a list of bytes), and little-endian fields as the C
    code reads and writes them, one byte and one shift at a time. *)

From Stdlib Require String Ascii.
From S2P Require Import Prelude.

(** A string literal as its bytes. *)
Definition str (s : String.string) : list Z :=
  map (fun a => Z.of_nat (Ascii.nat_of_ascii a)) (String.list_ascii_of_string s).

(** [l[off .. off+len)] and [memcpy(l + off, b, |b|)]. *)
Definition sub (l : list Z) (off len : Z) : list Z :=
  take (Z.to_nat len) (drop (Z.to_nat off) l).
Definition blit (l : list Z) (off : Z) (b : list Z) : list Z :=
  take (Z.to_nat off) l ++ b ++ drop (Z.to_nat off + length b) l.

Definition zlen (l : list Z) : Z := Z.of_nat (length l).

Lemma blit_length l off b :
  0 <= off -> off + zlen b <= zlen l -> zlen (blit l off b) = zlen l.
Proof.
  unfold zlen, blit. intros. rewrite !length_app, length_take, length_drop. lia.
Qed.

Lemma sub_length l off len :
  0 <= off -> 0 <= len -> off + len <= zlen l -> zlen (sub l off len) = len.
Proof. unfold zlen, sub. intros. rewrite length_take, length_drop. lia. Qed.

Lemma sub_blit_eq l off b n :
  0 <= off -> off + zlen b <= zlen l -> n = zlen b -> sub (blit l off b) off n = b.
Proof.
  unfold sub, blit, zlen. intros H1 H2 ->.
  rewrite drop_app_length' by (rewrite length_take; lia).
  by rewrite Nat2Z.id, take_app_length.
Qed.

Lemma sub_lookup l o n i :
  sub l o n !! i = if (i <? Z.to_nat n)%nat then l !! (Z.to_nat o + i)%nat else None.
Proof.
  unfold sub. destruct (Nat.ltb_spec i (Z.to_nat n)).
  - rewrite lookup_take_lt by lia. apply lookup_drop.
  - rewrite lookup_take_ge by lia. done.
Qed.

Lemma blit_lookup l off b i :
  0 <= off -> off + zlen b <= zlen l ->
  blit l off b !! i =
  if (Z.to_nat off <=? i)%nat && (i <? Z.to_nat off + length b)%nat
  then b !! (i - Z.to_nat off)%nat else l !! i.
Proof.
  unfold blit, zlen. intros H1 H2.
  destruct (Nat.leb_spec (Z.to_nat off) i); simpl.
  - rewrite lookup_app_r by (rewrite length_take; lia). rewrite length_take.
    replace (i - Z.to_nat off `min` length l)%nat with (i - Z.to_nat off)%nat by lia.
    destruct (Nat.ltb_spec i (Z.to_nat off + length b)).
    + by rewrite lookup_app_l by lia.
    + rewrite lookup_app_r by lia. rewrite lookup_drop. f_equal. lia.
  - rewrite lookup_app_l by (rewrite length_take; lia). by rewrite lookup_take_lt by lia.
Qed.

Lemma sub_blit_ne l off b o n :
  0 <= off -> off + zlen b <= zlen l -> 0 <= o ->
  o + n <= off \/ off + zlen b <= o -> sub (blit l off b) o n = sub l o n.
Proof.
  intros H1 H2 H3 H4. apply list_eq. intros i. rewrite !sub_lookup.
  destruct (Nat.ltb_spec i (Z.to_nat n)); [| done].
  rewrite blit_lookup by done. unfold zlen in *.
  destruct (Nat.leb_spec (Z.to_nat off) (Z.to_nat o + i)),
    (Nat.ltb_spec (Z.to_nat o + i) (Z.to_nat off + length b)); simpl; try done; lia.
Qed.

Lemma rd_blit_eq l off b i :
  0 <= off -> off + zlen b <= zlen l -> off <= i < off + zlen b ->
  rd (blit l off b) i = rd b (i - off).
Proof.
  intros H1 H2 H3. unfold rd. rewrite blit_lookup by done. unfold zlen in *.
  destruct (Nat.leb_spec (Z.to_nat off) (Z.to_nat i)),
    (Nat.ltb_spec (Z.to_nat i) (Z.to_nat off + length b)); simpl; try lia.
  do 2 f_equal. lia.
Qed.

Lemma rd_blit_ne l off b i :
  0 <= off -> off + zlen b <= zlen l -> 0 <= i -> i < off \/ off + zlen b <= i ->
  rd (blit l off b) i = rd l i.
Proof.
  intros H1 H2 H3 H4. unfold rd. rewrite blit_lookup by done. unfold zlen in *.
  destruct (Nat.leb_spec (Z.to_nat off) (Z.to_nat i)),
    (Nat.ltb_spec (Z.to_nat i) (Z.to_nat off + length b)); simpl; try done; lia.
Qed.

Lemma sub_sub l o n o' n' :
  0 <= o -> 0 <= o' -> 0 <= n' -> o' + n' <= n -> sub (sub l o n) o' n' = sub l (o + o') n'.
Proof.
  intros. apply list_eq. intros i. rewrite !sub_lookup.
  destruct (Nat.ltb_spec i (Z.to_nat n')); [| done].
  destruct (Nat.ltb_spec (Z.to_nat o' + i) (Z.to_nat n)); [f_equal; lia | lia].
Qed.

Lemma rd_sub l o n i :
  0 <= o -> 0 <= i < n -> rd (sub l o n) i = rd l (o + i).
Proof.
  intros. unfold rd. rewrite sub_lookup.
  destruct (Nat.ltb_spec (Z.to_nat i) (Z.to_nat n)); [| lia]. do 2 f_equal. lia.
Qed.

(** ** Little-endian fields *)

(** [for (i = 0; i < n; i++) p[i] = (uint8_t)(v >> (i*8));] *)
Definition put_le (n : nat) (v : Z) : list Z :=
  (fun i => !8 (Z.shiftr v (8 * Z.of_nat i))) <$> seq 0 n.

(** [for (i = 0; i < n; i++) v |= (uintN_t)p[i] << (8*i);] *)
Definition get_le (n : nat) (p : list Z) : Z :=
  fold_left (fun v i => Z.lor v (Z.shiftl (rd p (Z.of_nat i)) (8 * Z.of_nat i))) (seq 0 n) 0.

Lemma put_le_length n v : length (put_le n v) = n.
Proof. unfold put_le. by rewrite length_fmap, length_seq. Qed.

Lemma put_le_rd n v i : 0 <= i < Z.of_nat n -> rd (put_le n v) i = !8 (Z.shiftr v (8 * i)).
Proof.
  intros Hi. unfold rd, put_le. rewrite list_lookup_fmap.
  rewrite lookup_seq_lt by lia. simpl. do 3 f_equal. lia.
Qed.

Lemma put_le_bytes n v : Forall is_byte (put_le n v).
Proof. unfold put_le. apply Forall_fmap, Forall_true. intros i. apply u8_range. Qed.

Lemma get_le_S n p :
  get_le (S n) p = Z.lor (get_le n p) (Z.shiftl (rd p (Z.of_nat n)) (8 * Z.of_nat n)).
Proof. unfold get_le. rewrite seq_S, fold_left_app. done. Qed.

Lemma byte_high b j : is_byte b -> 8 <= j -> Z.testbit b j = false.
Proof.
  intros Hb Hj. rewrite <- (Z.mod_small b (2 ^ 8)) by (unfold is_byte in Hb; lia).
  by apply Z.mod_pow2_bits_high.
Qed.

Lemma get_le_testbit n p j :
  (forall i, 0 <= i < Z.of_nat n -> is_byte (rd p i)) -> 0 <= j ->
  Z.testbit (get_le n p) j = (j <? 8 * Z.of_nat n) && Z.testbit (rd p (j / 8)) (j mod 8).
Proof.
  intros Hp Hj. induction n as [| n IH].
  - unfold get_le. simpl fold_left. rewrite Z.bits_0. destruct (Z.ltb_spec j (8 * Z.of_nat 0)); [lia | done].
  - rewrite get_le_S, Z.lor_spec, IH by (intros; apply Hp; lia).
    rewrite Z.shiftl_spec by done.
    pose proof (Z.div_mod j 8 ltac:(lia)). pose proof (Z.mod_pos_bound j 8 ltac:(lia)).
    destruct (Z.ltb_spec j (8 * Z.of_nat n)), (Z.ltb_spec j (8 * Z.of_nat (S n))); simpl; try lia.
    + rewrite (Z.testbit_neg_r _ (j - _)) by lia. by rewrite orb_false_r.
    + assert (j / 8 = Z.of_nat n) as -> by lia. f_equal. lia.
    + apply byte_high; [apply Hp; lia | lia].
Qed.

Lemma get_le_range n p :
  (forall i, 0 <= i < Z.of_nat n -> is_byte (rd p i)) -> 0 <= get_le n p < 2 ^ (8 * Z.of_nat n).
Proof.
  intros Hp. assert (get_le n p = get_le n p mod 2 ^ (8 * Z.of_nat n)) as ->.
  { apply Z.bits_inj'. intros j Hj. destruct (decide (j < 8 * Z.of_nat n)).
    - by rewrite Z.mod_pow2_bits_low.
    - rewrite Z.mod_pow2_bits_high by lia. rewrite get_le_testbit by done.
      destruct (Z.ltb_spec j (8 * Z.of_nat n)); [lia | done]. }
  apply Z.mod_pos_bound. apply Z.pow_pos_nonneg; lia.
Qed.

(** Reading back what was written gives the value at its width. *)
Lemma get_put_le n v p :
  (forall i, 0 <= i < Z.of_nat n -> rd p i = rd (put_le n v) i) ->
  get_le n p = v mod 2 ^ (8 * Z.of_nat n).
Proof.
  intros Hp. apply Z.bits_inj'. intros j Hj.
  rewrite get_le_testbit; [| intros i Hi; rewrite Hp by done; apply rd_byte, put_le_bytes | done].
  pose proof (Z.div_mod j 8 ltac:(lia)). pose proof (Z.mod_pos_bound j 8 ltac:(lia)).
  destruct (Z.ltb_spec j (8 * Z.of_nat n)); simpl.
  - assert (0 <= j / 8 < Z.of_nat n) by lia.
    rewrite Hp, put_le_rd, testbit_u8, Z.shiftr_spec, Z.mod_pow2_bits_low by lia. f_equal. lia.
  - by rewrite Z.mod_pow2_bits_high by lia.
Qed.

Lemma get_le_put_le n v : get_le n (put_le n v) = v mod 2 ^ (8 * Z.of_nat n).
Proof. by apply get_put_le. Qed.


(** ** Records laid out as a sequence of fields *)

Lemma zlen_app l k : zlen (l ++ k) = zlen l + zlen k.
Proof. unfold zlen. rewrite length_app. lia. Qed.

Lemma zlen_cons x l : zlen (x :: l) = 1 + zlen l.
Proof. unfold zlen. simpl length. lia. Qed.

Lemma zlen_nil : zlen [] = 0.
Proof. done. Qed.

Lemma zlen_nonneg l : 0 <= zlen l.
Proof. unfold zlen. lia. Qed.

Lemma zlen_replicate n v : zlen (replicate n v) = Z.of_nat n.
Proof. unfold zlen. by rewrite length_replicate. Qed.

Lemma zlen_put_le n v : zlen (put_le n v) = Z.of_nat n.
Proof. unfold zlen. by rewrite put_le_length. Qed.

(** Storing the next field of a record whose tail is still zeroed. *)
Lemma blit_next pre off n b m :
  zlen pre = off -> zlen b = m -> m <= n ->
  blit (pre ++ replicate (Z.to_nat n) 0) off b
  = (pre ++ b) ++ replicate (Z.to_nat (n - m)) 0.
Proof.
  unfold zlen, blit. intros Hp Hb Hle.
  rewrite take_app_length' by lia. rewrite drop_app_ge by lia.
  rewrite drop_replicate, <- (app_assoc pre b). do 3 f_equal. lia.
Qed.

(** Field [k] of a record is at the sum of the widths before it. *)
Lemma sub_field fs k f off n :
  fs !! k = Some f -> off = zlen (concat (take k fs)) -> n = zlen f ->
  sub (concat fs) off n = f.
Proof.
  intros Hk -> ->. rewrite <- (take_drop_middle fs k f Hk) at 1. rewrite concat_app. simpl.
  unfold sub, zlen. rewrite !Nat2Z.id, drop_app_length. apply take_app_length.
Qed.

Lemma take_field_prefix fs k n :
  zlen (concat (take k fs)) = Z.of_nat n -> take n (concat fs) = concat (take k fs).
Proof.
  intros H. rewrite <- (take_drop k fs) at 1. rewrite concat_app.
  apply take_app_length'. unfold zlen in H. lia.
Qed.

Lemma sub_0 l n : sub l 0 n = take (Z.to_nat n) l.
Proof. unfold sub. by rewrite drop_0. Qed.

Lemma sub_split l o n m :
  0 <= o -> 0 <= n -> 0 <= m -> sub l o (n + m) = sub l o n ++ sub l (o + n) m.
Proof.
  intros. unfold sub. rewrite !Z2Nat.inj_add by lia.
  rewrite <- (drop_drop l). by rewrite take_take_drop.
Qed.

Lemma sub_all l : sub l 0 (zlen l) = l.
Proof. rewrite sub_0. unfold zlen. rewrite Nat2Z.id. apply firstn_all. Qed.

(** Writing back what was read gives the bytes. *)
Lemma put_get_le n p :
  zlen p = Z.of_nat n -> Forall is_byte p -> put_le n (get_le n p) = p.
Proof.
  intros Hl Hb. apply list_eq_same_length with n; [unfold zlen in Hl; lia | by rewrite put_le_length |].
  intros i x y Hi Hx Hy.
  assert (x = rd (put_le n (get_le n p)) (Z.of_nat i)) as -> by (unfold rd; by rewrite Nat2Z.id, Hx).
  assert (y = rd p (Z.of_nat i)) as -> by (unfold rd; by rewrite Nat2Z.id, Hy).
  assert (forall j, is_byte (rd p j)) as Hr by (intros; by apply rd_byte).
  apply byte_ext; [apply rd_byte, put_le_bytes | done |].
  intros j Hj. rewrite put_le_rd by lia. rewrite testbit_u8, Z.shiftr_spec by lia.
  rewrite get_le_testbit by (done || lia).
  destruct (Z.ltb_spec (j + 8 * Z.of_nat i) (8 * Z.of_nat n)); [| lia]. simpl.
  replace (j + 8 * Z.of_nat i) with (j + Z.of_nat i * 8) by lia.
  rewrite Z.div_add, Z.mod_add, Z.div_small, Z.mod_small by lia. done.
Qed.

Lemma sub_bytes l o n : Forall is_byte l -> Forall is_byte (sub l o n).
Proof. intros. unfold sub. by apply Forall_take, Forall_drop. Qed.
