(* ===== verification/Pmm.v ===== *)
(** * The physical page allocator ([kernel/mm/pmm.c])

    One bit per 4 KiB page, one byte per eight pages.  The state is the
    bitmap, the three page counters, the rotating scan hint and the two scan
    statistics; every operation below is the body of the C function between
    its [spin_lock]/[spin_unlock] pair.  Page indices are at most
    [highest_address / 4096 < 2^52], so sums of page indices do not wrap and
    are written without the wrap; byte addresses and the counters are wrapped
    as [uint64_t]. *)

From S2P Require Import Prelude.

Definition PAGE_SIZE : Z := 4096.
Definition E820_USABLE : Z := 1.
Definition KERNEL_VIRTUAL_BASE : Z := 0xFFFFFFFF80000000.

Record pmm := mkPmm {
  bitmap : list Z;          (* pmm_bitmap, as bytes *)
  bitmap_phys : Z;          (* KV2P(pmm_bitmap) *)
  total_pages : Z;
  used_pages : Z;
  free_pages : Z;
  bitmap_size : Z;
  pmm_hint : Z;
  pmm_scan_bits : Z;
  pmm_scan_allocs : Z;
}.

(** ** Bit operations *)

Definition bitmap_set (bm : list Z) (page_index : Z) : list Z :=
  wr bm (page_index / 8)
     (!8 (Z.lor (rd bm (page_index / 8)) (Z.shiftl 1 (page_index mod 8)))).

Definition bitmap_clear (bm : list Z) (page_index : Z) : list Z :=
  wr bm (page_index / 8)
     (!8 (Z.land (rd bm (page_index / 8)) (Z.lnot (Z.shiftl 1 (page_index mod 8))))).

Definition bitmap_test (bm : list Z) (page_index : Z) : bool :=
  negb (Z.land (rd bm (page_index / 8)) (Z.shiftl 1 (page_index mod 8)) =? 0).

(** The two loop bodies the allocator repeats: take a page that is free,
    release a page that is used, with the counters. *)

Definition mark_used (p : Z) (s : pmm) : pmm :=
  if bitmap_test (bitmap s) p then s
  else mkPmm (bitmap_set (bitmap s) p) (bitmap_phys s) (total_pages s)
             (!64 (used_pages s + 1)) (!64 (free_pages s - 1))
             (bitmap_size s) (pmm_hint s) (pmm_scan_bits s) (pmm_scan_allocs s).

Definition mark_free (p : Z) (s : pmm) : pmm :=
  if bitmap_test (bitmap s) p
  then mkPmm (bitmap_clear (bitmap s) p) (bitmap_phys s) (total_pages s)
             (!64 (used_pages s - 1)) (!64 (free_pages s + 1))
             (bitmap_size s) (pmm_hint s) (pmm_scan_bits s) (pmm_scan_allocs s)
  else s.

(** ** Allocation *)

(** One pass of [pmm_alloc_page]'s [while (i < end)]: a whole used byte is
    skipped in one test.  [fuel] bounds the iterations; [end - i] is enough,
    since every iteration advances [i]. *)
Fixpoint alloc_scan (fuel : nat) (bm : list Z) (i end_ bits : Z) : option Z * Z :=
  match fuel with
  | O => (None, bits)
  | S fuel =>
      if i <? end_ then
        if (i mod 8 =? 0) && (i + 8 <=? end_) && (rd bm (i / 8) =? 255)
        then alloc_scan fuel bm (i + 8) end_ (!64 (bits + 1))
        else if negb (bitmap_test bm i) then (Some i, !64 (bits + 1))
        else alloc_scan fuel bm (i + 1) end_ (!64 (bits + 1))
      else (None, bits)
  end.

Definition scan_pass (bm : list Z) (start end_ bits : Z) : option Z * Z :=
  alloc_scan (Z.to_nat (end_ - start)) bm start end_ bits.

Definition next_hint (s : pmm) (h : Z) : Z := if total_pages s <=? h then 0 else h.

Definition set_bits (s : pmm) (bits : Z) : pmm :=
  mkPmm (bitmap s) (bitmap_phys s) (total_pages s) (used_pages s) (free_pages s)
        (bitmap_size s) (pmm_hint s) bits (pmm_scan_allocs s).

(** A page was found: set its bit, move the counters and the hint. *)
Definition take_page (s : pmm) (i bits : Z) : Z * pmm :=
  (!64 (i * PAGE_SIZE),
   mkPmm (bitmap_set (bitmap s) i) (bitmap_phys s) (total_pages s)
         (!64 (used_pages s + 1)) (!64 (free_pages s - 1))
         (bitmap_size s) (next_hint s (i + 1)) bits (!64 (pmm_scan_allocs s + 1))).

Definition pmm_alloc_page (s : pmm) : Z * pmm :=
  match scan_pass (bitmap s) (pmm_hint s) (total_pages s) (pmm_scan_bits s) with
  | (Some i, bits) => take_page s i bits
  | (None, bits) =>
      match scan_pass (bitmap s) 0 (pmm_hint s) bits with
      | (Some i, bits) => take_page s i bits
      | (None, bits) => (0, set_bits s bits)
      end
  end.

(** ** Release and reservation *)

Definition pmm_free_page (phys_addr : Z) (s : pmm) : pmm :=
  let page_index := phys_addr / PAGE_SIZE in
  if total_pages s <=? page_index then s
  else if bitmap_test (bitmap s) page_index then
    let s := mark_free page_index s in
    mkPmm (bitmap s) (bitmap_phys s) (total_pages s) (used_pages s) (free_pages s)
          (bitmap_size s)
          (if page_index <? pmm_hint s then page_index else pmm_hint s)
          (pmm_scan_bits s) (pmm_scan_allocs s)
  else s.

Definition pmm_reserve_page (phys_addr : Z) (s : pmm) : pmm :=
  let page_index := phys_addr / PAGE_SIZE in
  if total_pages s <=? page_index then s else mark_used page_index s.

(** ** Memory that arrives after boot

    [kmalloc new_size] is the caller's: [Some nb] is the new block's address
    (only [KV2P(nb)] is kept), [None] its failure. *)

Definition grow_bitmap (end_page nb : Z) (s : pmm) : pmm :=
  let new_size := (end_page + 7) / 8 in
  mkPmm (bitmap s ++ replicate (Z.to_nat (new_size - bitmap_size s)) 255)
        (!64 (nb - KERNEL_VIRTUAL_BASE)) end_page
        (!64 (used_pages s + (end_page - total_pages s))) (free_pages s)
        new_size (pmm_hint s) (pmm_scan_bits s) (pmm_scan_allocs s).

Definition free_range (start_page end_page : Z) (s : pmm) : pmm :=
  for_range (Z.to_nat (end_page - start_page)) start_page mark_free s.

(** The loop of [pmm_add_region], which also counts the pages it freed. *)
Definition free_counting (p : Z) (sa : pmm * Z) : pmm * Z :=
  if bitmap_test (bitmap (fst sa)) p then (mark_free p (fst sa), !64 (snd sa + 1)) else sa.

Definition pmm_add_region (kmalloc : Z -> option Z) (phys length : Z) (s : pmm) : bool * pmm :=
  if length =? 0 then (false, s) else
  let start_page := !64 (phys + PAGE_SIZE - 1) / PAGE_SIZE in
  let end_page := !64 (phys + length) / PAGE_SIZE in
  if end_page <=? start_page then (false, s) else
  let grown :=
    if total_pages s <? end_page then
      match kmalloc ((end_page + 7) / 8) with
      | None => None
      | Some nb => Some (grow_bitmap end_page nb s)
      end
    else Some s in
  match grown with
  | None => (false, s)
  | Some s1 =>
      let '(s2, added) :=
        for_range (Z.to_nat (end_page - start_page)) start_page free_counting (s1, 0) in
      (0 <? added, s2)
  end.

(** ** Contiguous runs *)

(** [while (i < pages) { pmm_scan_bits++; if (bitmap_test(first+i)) break; i++; }] *)
Fixpoint run_scan (fuel : nat) (bm : list Z) (first i pages bits : Z) : Z * Z :=
  match fuel with
  | O => (i, bits)
  | S fuel =>
      if i <? pages then
        if bitmap_test bm (first + i) then (i, !64 (bits + 1))
        else run_scan fuel bm first (i + 1) pages (!64 (bits + 1))
      else (i, bits)
  end.

Definition take_run (s : pmm) (first pages bits : Z) : Z * pmm :=
  (!64 (first * PAGE_SIZE),
   mkPmm (for_range (Z.to_nat pages) first (fun p bm => bitmap_set bm p) (bitmap s))
         (bitmap_phys s) (total_pages s)
         (!64 (used_pages s + pages)) (!64 (free_pages s - pages))
         (bitmap_size s) (next_hint s (first + pages)) bits
         (!64 (pmm_scan_allocs s + pages))).

Fixpoint contig_scan (fuel : nat) (s : pmm) (first limit pages alignment bits : Z) : Z * pmm :=
  match fuel with
  | O => (0, set_bits s bits)
  | S fuel =>
      if first <=? limit then
        let '(i, bits) := run_scan (Z.to_nat pages) (bitmap s) first 0 pages bits in
        if i =? pages then take_run s first pages bits
        else contig_scan fuel s (Z.land (first + i + alignment) (Z.lnot (alignment - 1)))
                         limit pages alignment bits
      else (0, set_bits s bits)
  end.

Definition pmm_alloc_contiguous (pages alignment : Z) (s : pmm) : Z * pmm :=
  if (pages =? 0) || (alignment =? 0) || negb (Z.land alignment (!64 (alignment - 1)) =? 0)
  then (0, s)
  else if (total_pages s <? pages) || (total_pages s <? alignment) || (free_pages s <? pages)
  then (0, s)
  else
    let limit := total_pages s - pages in
    contig_scan (Z.to_nat (limit - alignment + 1)) s alignment limit pages alignment
                (pmm_scan_bits s).

(** ** Initialisation from the firmware map *)

Record boot_mmap_entry := mkEntry { e_base : Z; e_length : Z; e_type : Z }.

Definition entry_end (e : boot_mmap_entry) : Z := !64 (e_base e + e_length e).

Definition highest_address (mm : list boot_mmap_entry) : Z :=
  fold_left (fun hi e =>
    if negb (e_type e =? E820_USABLE) then hi
    else if hi <? entry_end e then entry_end e else hi) mm 0.

(** [(x + PAGE_SIZE - 1) & ~((uint64_t)PAGE_SIZE - 1)] *)
Definition page_round_up (x : Z) : Z :=
  Z.land (!64 (x + PAGE_SIZE - 1)) (Z.lnot (PAGE_SIZE - 1)).

Fixpoint choose_bitmap (mm : list boot_mmap_entry) (kend size : Z) : Z :=
  match mm with
  | [] => 0
  | e :: mm =>
      if negb (e_type e =? E820_USABLE) then choose_bitmap mm kend size
      else
        let start := page_round_up (if kend <? e_base e then e_base e else kend) in
        let end_ := entry_end e in
        if end_ <=? start then choose_bitmap mm kend size
        else if end_ - start <? size then choose_bitmap mm kend size
        else if 0x40000000 <? !64 (start + size) then choose_bitmap mm kend size
        else start
  end.

(** Step 5: free the pages of one usable region. *)
Definition free_entry (s : pmm) (e : boot_mmap_entry) : pmm :=
  if negb (e_type e =? E820_USABLE) then s
  else free_range (e_base e / PAGE_SIZE)
                  (Z.min (entry_end e / PAGE_SIZE) (total_pages s)) s.

Definition reserve_range (p0 p1 : Z) (s : pmm) : pmm :=
  for_range (Z.to_nat (Z.min p1 (total_pages s) - p0)) p0 mark_used s.

(** [None] is the halt when no usable region can hold the bitmap.  [fixed] is
    the list of addresses [arch_pmm_reserve_fixed] passes to
    [pmm_reserve_page]. *)
Definition pmm_init (mm : list boot_mmap_entry) (kernel_phys_end : Z) (fixed : list Z) : option pmm :=
  let total := highest_address mm / PAGE_SIZE in
  let size := (total + 7) / 8 in
  let chosen := choose_bitmap mm (page_round_up kernel_phys_end) size in
  if chosen =? 0 then None else
  let s := mkPmm (replicate (Z.to_nat size) 255) chosen total total 0 size 0 0 0 in
  let s := fold_left free_entry mm s in
  let s := reserve_range (chosen / PAGE_SIZE)
                         (!64 (!64 (chosen + size) + PAGE_SIZE - 1) / PAGE_SIZE) s in
  let s := reserve_range 0 (!64 (kernel_phys_end + PAGE_SIZE - 1) / PAGE_SIZE + 1) s in
  Some (fold_left (fun s a => pmm_reserve_page a s) fixed s).

Definition pmm_reserved_phys_end (s : pmm) : Z :=
  page_round_up (!64 (bitmap_phys s + bitmap_size s)).

(** ** The bitmap as a set of pages *)

Lemma bitmap_test_bit bm p :
  0 <= p -> bitmap_test bm p = Z.testbit (rd bm (p / 8)) (p mod 8).
Proof. intros. unfold bitmap_test. apply land_bit_test. apply Z.mod_pos_bound. lia. Qed.

(** Writing the byte of page [p] only changes the pages of that byte. *)
Lemma bitmap_test_wr bm p b q :
  0 <= p < 8 * Z.of_nat (length bm) -> 0 <= q ->
  bitmap_test (wr bm (p / 8) b) q =
  if p / 8 =? q / 8 then Z.testbit b (q mod 8) else bitmap_test bm q.
Proof.
  intros Hp Hq. rewrite !bitmap_test_bit by done.
  destruct (Z.eqb_spec (p / 8) (q / 8)) as [<- | Hne].
  - rewrite rd_wr_eq; [done |]. split; [apply Z.div_pos; lia |].
    apply Z.div_lt_upper_bound; lia.
  - rewrite rd_wr_ne; [done | apply Z.div_pos; lia .. | done].
Qed.

Lemma same_bit p q : 0 <= p -> 0 <= q -> p / 8 = q / 8 -> (p mod 8 =? q mod 8) = (p =? q).
Proof.
  intros Hp Hq Hd. pose proof (Z.div_mod p 8 ltac:(lia)). pose proof (Z.div_mod q 8 ltac:(lia)).
  destruct (Z.eqb_spec p q) as [-> | Hne]; [apply Z.eqb_refl |].
  apply Z.eqb_neq. lia.
Qed.

Lemma bitmap_test_set bm p q :
  0 <= p < 8 * Z.of_nat (length bm) -> 0 <= q ->
  bitmap_test (bitmap_set bm p) q = (p =? q) || bitmap_test bm q.
Proof.
  intros Hp Hq. unfold bitmap_set. rewrite bitmap_test_wr by done.
  pose proof (Z.mod_pos_bound p 8 ltac:(lia)). pose proof (Z.mod_pos_bound q 8 ltac:(lia)).
  destruct (Z.eqb_spec (p / 8) (q / 8)) as [Hd | Hd].
  - rewrite testbit_u8, Z.lor_spec, testbit_bit, same_bit by lia.
    rewrite (bitmap_test_bit bm q), Hd by done. apply orb_comm.
  - destruct (Z.eqb_spec p q) as [-> |]; [congruence | done].
Qed.

Lemma bitmap_test_clear bm p q :
  0 <= p < 8 * Z.of_nat (length bm) -> 0 <= q ->
  bitmap_test (bitmap_clear bm p) q = negb (p =? q) && bitmap_test bm q.
Proof.
  intros Hp Hq. unfold bitmap_clear. rewrite bitmap_test_wr by done.
  pose proof (Z.mod_pos_bound p 8 ltac:(lia)). pose proof (Z.mod_pos_bound q 8 ltac:(lia)).
  destruct (Z.eqb_spec (p / 8) (q / 8)) as [Hd | Hd].
  - rewrite testbit_u8, Z.land_spec, Z.lnot_spec, testbit_bit, same_bit by lia.
    rewrite (bitmap_test_bit bm q), Hd by done. apply andb_comm.
  - destruct (Z.eqb_spec p q) as [-> |]; [congruence | done].
Qed.

(** A byte equal to [0xFF] stands for eight used pages. *)
Lemma full_byte bm i q :
  0 <= i -> i mod 8 = 0 -> rd bm (i / 8) = 255 -> i <= q < i + 8 -> bitmap_test bm q = true.
Proof.
  intros Hi Hm Hb Hq. rewrite bitmap_test_bit by lia.
  pose proof (Z.div_mod i 8 ltac:(lia)).
  assert (q / 8 = i / 8) as -> by (symmetry; apply Z.div_unique with (q - i); lia).
  rewrite Hb. change 255 with (Z.ones 8).
  apply Z.ones_spec_low. apply Z.mod_pos_bound. lia.
Qed.

Lemma bitmap_set_bytes bm p : Forall is_byte bm -> Forall is_byte (bitmap_set bm p).
Proof. intros. apply wr_Forall; [done | apply u8_range]. Qed.
Lemma bitmap_clear_bytes bm p : Forall is_byte bm -> Forall is_byte (bitmap_clear bm p).
Proof. intros. apply wr_Forall; [done | apply u8_range]. Qed.
Lemma bitmap_set_length bm p : length (bitmap_set bm p) = length bm.
Proof. apply wr_length. Qed.
Lemma bitmap_clear_length bm p : length (bitmap_clear bm p) = length bm.
Proof. apply wr_length. Qed.

(** ** The invariant *)

Definition page_is_free (bm : list Z) (p : Z) : bool := negb (bitmap_test bm p).

Record pmm_wf (s : pmm) : Prop := {
  wf_total : 0 <= total_pages s < 2 ^ 52;
  wf_size : bitmap_size s = (total_pages s + 7) / 8;
  wf_len : Z.of_nat (length (bitmap s)) = bitmap_size s;
  wf_bytes : Forall is_byte (bitmap s);
  (* the bits of the last byte past the last page are set *)
  wf_tail : forall p, total_pages s <= p < 8 * bitmap_size s -> bitmap_test (bitmap s) p = true;
  wf_free : free_pages s = countb (page_is_free (bitmap s)) (Z.to_nat (total_pages s));
  wf_used : used_pages s + free_pages s = total_pages s;
  wf_hint : 0 <= pmm_hint s /\ (pmm_hint s < total_pages s \/ pmm_hint s = 0);
}.

Lemma pmm_free_bounds s : pmm_wf s -> 0 <= free_pages s <= total_pages s.
Proof.
  intros W. rewrite (wf_free s W).
  pose proof (countb_bounds (page_is_free (bitmap s)) (Z.to_nat (total_pages s))).
  pose proof (wf_total s W). lia.
Qed.

(** Pages of the machine are bits of the bitmap. *)
Lemma page_in_bitmap s p :
  pmm_wf s -> 0 <= p < total_pages s -> 0 <= p < 8 * Z.of_nat (length (bitmap s)).
Proof.
  intros W Hp. rewrite (wf_len s W), (wf_size s W).
  pose proof (Z.div_mod (total_pages s + 7) 8 ltac:(lia)).
  pose proof (Z.mod_pos_bound (total_pages s + 7) 8 ltac:(lia)). lia.
Qed.

(** Two states that agree on everything the invariant reads. *)
Lemma pmm_wf_set s t p :
  pmm_wf s -> 0 <= p < total_pages s -> bitmap_test (bitmap s) p = false ->
  bitmap t = bitmap_set (bitmap s) p -> total_pages t = total_pages s ->
  bitmap_size t = bitmap_size s ->
  used_pages t = !64 (used_pages s + 1) -> free_pages t = !64 (free_pages s - 1) ->
  (0 <= pmm_hint t /\ (pmm_hint t < total_pages s \/ pmm_hint t = 0)) -> pmm_wf t.
Proof.
  intros W Hp Hf Hb Ht Hs Hu Hr Hh.
  pose proof (page_in_bitmap s p W Hp) as Hin.
  assert (free_pages s = countb (page_is_free (bitmap t)) (Z.to_nat (total_pages s)) + 1) as Hc.
  { rewrite (wf_free s W). apply countb_flip with p.
    - lia.
    - unfold page_is_free. rewrite Hb, bitmap_test_set by lia. by rewrite Z.eqb_refl.
    - unfold page_is_free. by rewrite Hf.
    - intros j Hj Hne. unfold page_is_free. rewrite Hb, bitmap_test_set by lia.
      destruct (Z.eqb_spec p j); [congruence | done]. }
  pose proof (pmm_free_bounds s W) as Hfb. pose proof (wf_total s W) as Htot.
  pose proof (wf_used s W) as Hus.
  pose proof (countb_bounds (page_is_free (bitmap t)) (Z.to_nat (total_pages s))).
  split; rewrite ?Ht, ?Hs, ?Hu, ?Hr; try rewrite !u64_small by lia.
  - done.
  - apply (wf_size s W).
  - rewrite Hb, bitmap_set_length. apply (wf_len s W).
  - rewrite Hb. apply bitmap_set_bytes, (wf_bytes s W).
  - intros q Hq. rewrite Hb, bitmap_test_set by lia.
    rewrite (wf_tail s W) by done. apply orb_true_r.
  - lia.
  - lia.
  - done.
Qed.

Lemma pmm_wf_clear s t p :
  pmm_wf s -> 0 <= p < total_pages s -> bitmap_test (bitmap s) p = true ->
  bitmap t = bitmap_clear (bitmap s) p -> total_pages t = total_pages s ->
  bitmap_size t = bitmap_size s ->
  used_pages t = !64 (used_pages s - 1) -> free_pages t = !64 (free_pages s + 1) ->
  (0 <= pmm_hint t /\ (pmm_hint t < total_pages s \/ pmm_hint t = 0)) -> pmm_wf t.
Proof.
  intros W Hp Hf Hb Ht Hs Hu Hr Hh.
  pose proof (page_in_bitmap s p W Hp) as Hin.
  assert (countb (page_is_free (bitmap t)) (Z.to_nat (total_pages s)) = free_pages s + 1) as Hc.
  { rewrite (wf_free s W). apply countb_flip with p.
    - lia.
    - unfold page_is_free. by rewrite Hf.
    - unfold page_is_free. rewrite Hb, bitmap_test_clear by lia. by rewrite Z.eqb_refl.
    - intros j Hj Hne. unfold page_is_free. rewrite Hb, bitmap_test_clear by lia.
      destruct (Z.eqb_spec p j); [congruence | done]. }
  pose proof (pmm_free_bounds s W) as Hfb. pose proof (wf_total s W) as Htot.
  pose proof (wf_used s W) as Hus.
  pose proof (countb_bounds (page_is_free (bitmap t)) (Z.to_nat (total_pages s))).
  split; rewrite ?Ht, ?Hs, ?Hu, ?Hr; try rewrite !u64_small by lia.
  - done.
  - apply (wf_size s W).
  - rewrite Hb, bitmap_clear_length. apply (wf_len s W).
  - rewrite Hb. apply bitmap_clear_bytes, (wf_bytes s W).
  - intros q Hq. rewrite Hb, bitmap_test_clear by lia.
    rewrite (wf_tail s W) by done.
    destruct (Z.eqb_spec p q); [lia | done].
  - lia.
  - lia.
  - done.
Qed.

Lemma mark_used_total p s : total_pages (mark_used p s) = total_pages s.
Proof. unfold mark_used. by case_if. Qed.
Lemma mark_free_total p s : total_pages (mark_free p s) = total_pages s.
Proof. unfold mark_free. by case_if. Qed.

Lemma mark_used_wf p s : pmm_wf s -> 0 <= p < total_pages s -> pmm_wf (mark_used p s).
Proof.
  intros W Hp. unfold mark_used. case_if; [done |].
  eapply pmm_wf_set; [exact W | exact Hp | done .. | apply (wf_hint s W)].
Qed.

Lemma mark_free_wf p s : pmm_wf s -> 0 <= p < total_pages s -> pmm_wf (mark_free p s).
Proof.
  intros W Hp. unfold mark_free. case_if; [| done].
  eapply pmm_wf_clear; [exact W | exact Hp | done .. | apply (wf_hint s W)].
Qed.

Lemma mark_used_test p s q :
  pmm_wf s -> 0 <= p < total_pages s -> 0 <= q ->
  bitmap_test (bitmap (mark_used p s)) q = (p =? q) || bitmap_test (bitmap s) q.
Proof.
  intros W Hp Hq. unfold mark_used. case_if; simpl.
  - destruct (Z.eqb_spec p q) as [-> |]; [by rewrite Heqb | done].
  - by apply bitmap_test_set; [apply page_in_bitmap |].
Qed.

Lemma mark_free_test p s q :
  pmm_wf s -> 0 <= p < total_pages s -> 0 <= q ->
  bitmap_test (bitmap (mark_free p s)) q = negb (p =? q) && bitmap_test (bitmap s) q.
Proof.
  intros W Hp Hq. unfold mark_free. case_if; simpl.
  - by apply bitmap_test_clear; [apply page_in_bitmap |].
  - destruct (Z.eqb_spec p q) as [-> |]; [by rewrite Heqb | done].
Qed.

#[export] Hint Resolve mark_used_wf mark_free_wf : embk.

(** A range of pages, used or freed one by one. *)
Lemma mark_free_range n p s :
  pmm_wf s -> 0 <= p -> p + Z.of_nat n <= total_pages s ->
  let s' := for_range n p mark_free s in
  pmm_wf s' /\ total_pages s' = total_pages s /\
  (forall q, 0 <= q -> bitmap_test (bitmap s') q =
     negb ((p <=? q) && (q <? p + Z.of_nat n)) && bitmap_test (bitmap s) q).
Proof.
  intros W Hp Hn.
  pose (I := fun (k : Z) (t : pmm) => pmm_wf t /\ total_pages t = total_pages s /\
    (forall q, 0 <= q -> bitmap_test (bitmap t) q =
       negb ((p <=? q) && (q <? k)) && bitmap_test (bitmap s) q)).
  apply (for_range_ind I).
  - split; [done | split; [done |]]. intros q Hq.
    destruct (Z.leb_spec p q), (Z.ltb_spec q p); simpl; try done; lia.
  - intros k t Hk (Wt & Ht & Hbits). split; [apply mark_free_wf; [done | lia] |].
    split; [by rewrite mark_free_total |]. intros q Hq.
    rewrite mark_free_test by (done || lia). rewrite Hbits by done.
    destruct (Z.eqb_spec k q), (Z.leb_spec p q), (Z.ltb_spec q k), (Z.ltb_spec q (k + 1));
      simpl; try done; lia.
Qed.

Lemma mark_used_range n p s :
  pmm_wf s -> 0 <= p -> p + Z.of_nat n <= total_pages s ->
  let s' := for_range n p mark_used s in
  pmm_wf s' /\ total_pages s' = total_pages s /\
  (forall q, 0 <= q -> bitmap_test (bitmap s') q =
     ((p <=? q) && (q <? p + Z.of_nat n)) || bitmap_test (bitmap s) q).
Proof.
  intros W Hp Hn.
  pose (I := fun (k : Z) (t : pmm) => pmm_wf t /\ total_pages t = total_pages s /\
    (forall q, 0 <= q -> bitmap_test (bitmap t) q =
       ((p <=? q) && (q <? k)) || bitmap_test (bitmap s) q)).
  apply (for_range_ind I).
  - split; [done | split; [done |]]. intros q Hq.
    destruct (Z.leb_spec p q), (Z.ltb_spec q p); simpl; try done; lia.
  - intros k t Hk (Wt & Ht & Hbits). split; [apply mark_used_wf; [done | lia] |].
    split; [by rewrite mark_used_total |]. intros q Hq.
    rewrite mark_used_test by (done || lia). rewrite Hbits by done.
    destruct (Z.eqb_spec k q), (Z.leb_spec p q), (Z.ltb_spec q k), (Z.ltb_spec q (k + 1));
      simpl; try done; lia.
Qed.

(** ** Single-page allocation *)

(** Reference definition: the first free page of [i, i+1, .., i+n-1]. *)
Fixpoint first_free (n : nat) (bm : list Z) (i : Z) : option Z :=
  match n with
  | O => None
  | S n => if bitmap_test bm i then first_free n bm (i + 1) else Some i
  end.

Lemma first_free_skip k n bm i :
  (forall q, i <= q < i + Z.of_nat k -> bitmap_test bm q = true) ->
  first_free (k + n) bm i = first_free n bm (i + Z.of_nat k).
Proof.
  revert i. induction k as [| k IH]; intros i H; simpl.
  - by rewrite Z.add_0_r.
  - rewrite H by lia. rewrite IH by (intros; apply H; lia). f_equal. lia.
Qed.

Lemma first_free_Some n bm i p :
  first_free n bm i = Some p ->
  i <= p < i + Z.of_nat n /\ bitmap_test bm p = false /\
  (forall q, i <= q < p -> bitmap_test bm q = true).
Proof.
  revert i. induction n as [| n IH]; intros i H; simpl in H; [done |].
  destruct (bitmap_test bm i) eqn:E.
  - apply IH in H as (? & ? & Hq). repeat split; [lia | lia | done |].
    intros q ?. destruct (decide (q = i)) as [-> |]; [done | apply Hq; lia].
  - injection H as <-. repeat split; [lia | lia | done | intros; lia].
Qed.

Lemma first_free_None n bm i :
  first_free n bm i = None -> forall q, i <= q < i + Z.of_nat n -> bitmap_test bm q = true.
Proof.
  revert i. induction n as [| n IH]; intros i H q Hq; [lia |]. simpl in H.
  destruct (bitmap_test bm i) eqn:E; [| done].
  destruct (decide (q = i)) as [-> |]; [done | apply (IH (i + 1)); [done | lia]].
Qed.

Lemma alloc_scan_first_free fuel bm i end_ bits :
  0 <= i -> (Z.to_nat (end_ - i) <= fuel)%nat ->
  fst (alloc_scan fuel bm i end_ bits) = first_free (Z.to_nat (end_ - i)) bm i.
Proof.
  revert i bits. induction fuel as [| fuel IH]; intros i bits Hi Hf; simpl.
  - by replace (Z.to_nat (end_ - i)) with 0%nat by lia.
  - destruct (Z.ltb_spec i end_) as [Hlt | Hge]; simpl;
      [| by replace (Z.to_nat (end_ - i)) with 0%nat by lia].
    destruct ((i mod 8 =? 0) && (i + 8 <=? end_) && (rd bm (i / 8) =? 255)) eqn:E; b2p.
    + rewrite IH by lia.
      replace (Z.to_nat (end_ - i)) with (8 + Z.to_nat (end_ - (i + 8)))%nat by lia.
      rewrite first_free_skip; [done |]. intros q Hq. apply (full_byte bm i); lia.
    + replace (Z.to_nat (end_ - i)) with (S (Z.to_nat (end_ - (i + 1)))) by lia. simpl.
      destruct (bitmap_test bm i); simpl; [| done]. apply IH; lia.
Qed.

(** The byte-skipping scan of [pmm_alloc_page] (a [0xFF] byte skips eight
    pages in one test) finds exactly the page a page-by-page search of the
    same interval finds: the first free one, or none. *)
Theorem scan_pass_first_free bm start end_ bits :
  0 <= start ->
  fst (scan_pass bm start end_ bits) = first_free (Z.to_nat (end_ - start)) bm start.
Proof. intros. unfold scan_pass. by apply alloc_scan_first_free. Qed.

Lemma scan_pass_first_free_witness :
  fst (scan_pass [255; 255; 7] 0 24 0) = first_free 24 [255; 255; 7] 0 /\
  fst (scan_pass [255; 255; 7] 0 24 0) = Some 19.
Proof. split; [exact (scan_pass_first_free [255; 255; 7] 0 24 0 ltac:(lia)) | reflexivity]. Defined.

Lemma take_page_wf s i bits :
  pmm_wf s -> 0 <= i < total_pages s -> bitmap_test (bitmap s) i = false ->
  pmm_wf (snd (take_page s i bits)).
Proof.
  intros W Hi Hf. eapply pmm_wf_set; [exact W | exact Hi | exact Hf | done .. |].
  simpl. unfold next_hint. case_if; lia.
Qed.

Lemma set_bits_wf s bits : pmm_wf s -> pmm_wf (set_bits s bits).
Proof. intros W. destruct W. by split. Qed.

(** The page a two-pass allocation takes, and its failure. *)
Lemma pmm_alloc_page_cases s :
  pmm_wf s ->
  (exists p bits, 0 <= p < total_pages s /\ bitmap_test (bitmap s) p = false /\
     pmm_alloc_page s = take_page s p bits) \/
  ((exists bits, pmm_alloc_page s = (0, set_bits s bits)) /\
   forall q, 0 <= q < total_pages s -> bitmap_test (bitmap s) q = true).
Proof.
  intros W. pose proof (wf_hint s W) as [Hh Hh']. pose proof (wf_total s W) as Ht.
  unfold pmm_alloc_page.
  pose proof (alloc_scan_first_free (Z.to_nat (total_pages s - pmm_hint s)) (bitmap s)
    (pmm_hint s) (total_pages s) (pmm_scan_bits s) Hh ltac:(lia)) as H1.
  unfold scan_pass. destruct (alloc_scan _ _ (pmm_hint s) _ _) as [[p |] bits]; simpl in H1; symmetry in H1.
  - apply first_free_Some in H1 as (? & ? & _). left. exists p, bits. repeat split; lia || done.
  - pose proof (first_free_None _ _ _ H1) as Hn1.
    pose proof (alloc_scan_first_free (Z.to_nat (pmm_hint s - 0)) (bitmap s) 0 (pmm_hint s) bits
      ltac:(lia) ltac:(lia)) as H2.
    destruct (alloc_scan _ _ 0 _ _) as [[p |] bits']; simpl in H2; symmetry in H2.
    + apply first_free_Some in H2 as (? & ? & _). left. exists p, bits'. repeat split; lia || done.
    + pose proof (first_free_None _ _ _ H2) as Hn2. right. split; [by exists bits' |].
      intros q Hq. destruct (decide (q < pmm_hint s)); [apply Hn2; lia | apply Hn1; lia].
Qed.

(** No free page means the counter is zero, and conversely. *)
Lemma free_pages_zero s :
  pmm_wf s ->
  (forall q, 0 <= q < total_pages s -> bitmap_test (bitmap s) q = true) -> free_pages s = 0.
Proof.
  intros W H. pose proof (pmm_free_bounds s W).
  destruct (decide (free_pages s = 0)) as [| Hne]; [done | exfalso].
  assert (0 < free_pages s) as Hp by lia. rewrite (wf_free s W) in Hp.
  apply countb_pos in Hp as (i & Hi & Hf). unfold page_is_free in Hf.
  rewrite H in Hf by (pose proof (wf_total s W); lia). done.
Qed.

(** [pmm_alloc_page] is exact.  In a well-formed state with page 0
    reserved it either returns the address of a page that was free, marks that
    page and nothing else used, and keeps the state well formed; or it returns
    0, changes no page, and the free counter was 0.  It never reports
    out-of-memory while a free page exists. *)
Theorem pmm_alloc_page_exact s :
  pmm_wf s -> bitmap_test (bitmap s) 0 = true ->
  let '(a, s') := pmm_alloc_page s in
  pmm_wf s' /\ bitmap_test (bitmap s') 0 = true /\ (a = 0 <-> free_pages s = 0) /\
  (a = 0 -> bitmap s' = bitmap s) /\
  (a <> 0 -> exists p, 0 < p < total_pages s /\ a = p * PAGE_SIZE /\
     bitmap_test (bitmap s) p = false /\ free_pages s' = free_pages s - 1 /\
     forall q, 0 <= q -> bitmap_test (bitmap s') q = (p =? q) || bitmap_test (bitmap s) q).
Proof.
  intros W H0. pose proof (wf_total s W) as Ht. pose proof (pmm_free_bounds s W) as Hb.
  destruct (pmm_alloc_page_cases s W) as [(p & bits & Hp & Hf & ->) | [(bits & ->) Hall]].
  - assert (0 < p) as Hp0 by (destruct (decide (p = 0)) as [-> |]; [congruence | lia]).
    assert (0 < free_pages s) as Hfp.
    { rewrite (wf_free s W). apply countb_pos. exists p. unfold page_is_free. rewrite Hf. split; [lia | done]. }
    pose proof (take_page_wf s p bits W Hp Hf) as Wt.
    pose proof (bitmap_test_set (bitmap s) p) as Hset. unfold take_page in *.
    assert (!64 (p * PAGE_SIZE) = p * PAGE_SIZE) as Ha by (apply u64_small; unfold PAGE_SIZE; lia).
    rewrite Ha. assert (p * PAGE_SIZE <> 0) by (unfold PAGE_SIZE; lia).
    split; [exact Wt |]. split; [|split; [|split]].
    + simpl. rewrite Hset; [| by apply page_in_bitmap | done]. rewrite H0. apply orb_true_r.
    + lia.
    + done.
    + intros _. exists p. simpl. repeat split; try done; try lia.
      * unwrap. lia.
      * intros q Hq. apply Hset; [by apply page_in_bitmap | done].
  - split; [by apply set_bits_wf |]. split; [done |]. split; [|split; [done | done]].
    split; [intros _; by apply free_pages_zero | done].
Qed.

(** ** Freeing *)

Lemma pmm_free_page_wf a s : 0 <= a -> pmm_wf s -> pmm_wf (pmm_free_page a s).
Proof.
  intros Ha W. unfold pmm_free_page. case_if; [done |]. case_if; [| done].
  assert (0 <= a / PAGE_SIZE) by (apply Z.div_pos; unfold PAGE_SIZE; lia).
  unfold mark_free. rewrite Heqb0. simpl.
  eapply pmm_wf_clear; [exact W | | exact Heqb0 | done .. |]; [lia |].
  simpl. pose proof (wf_hint s W). case_if; lia.
Qed.

Lemma bitmap_clear_set bm p :
  0 <= p < 8 * Z.of_nat (length bm) -> Forall is_byte bm -> bitmap_test bm p = false ->
  bitmap_clear (bitmap_set bm p) p = bm.
Proof.
  intros Hp Hb Hf. unfold bitmap_clear, bitmap_set, wr.
  assert (0 <= p / 8 < Z.of_nat (length bm)) as Hi.
  { split; [apply Z.div_pos; lia | apply Z.div_lt_upper_bound; lia]. }
  rewrite list_insert_insert_eq. apply list_insert_id.
  fold (wr bm (p / 8) (u8 (Z.lor (rd bm (p / 8)) (Z.shiftl 1 (p mod 8))))).
  rewrite rd_wr_eq by done. rewrite rd_lookup by done. f_equal.
  pose proof (Z.mod_pos_bound p 8 ltac:(lia)).
  apply byte_ext; [by apply rd_byte | apply u8_range |].
  intros j Hj. rewrite testbit_u8, Z.land_spec, Z.lnot_spec, testbit_u8, Z.lor_spec, !testbit_bit by lia.
  rewrite bitmap_test_bit in Hf by lia.
  destruct (Z.eqb_spec (p mod 8) j) as [<- |]; simpl; [rewrite Hf |]; by rewrite ?orb_false_r, ?andb_true_r, ?andb_false_r.
Qed.

(** Freeing the page just allocated restores the bitmap and the page
    counters exactly, and the next allocation starts at that page: it is
    returned again after a single bit test (unless it was the last page of
    the machine, where the hint had wrapped). *)
Theorem pmm_alloc_free_roundtrip s a s1 :
  pmm_wf s -> pmm_alloc_page s = (a, s1) -> a <> 0 ->
  let s2 := pmm_free_page a s1 in
  bitmap s2 = bitmap s /\ free_pages s2 = free_pages s /\ used_pages s2 = used_pages s /\
  (a / PAGE_SIZE + 1 < total_pages s ->
   fst (pmm_alloc_page s2) = a /\
   pmm_scan_bits (snd (pmm_alloc_page s2)) = !64 (pmm_scan_bits s2 + 1)).
Proof.
  intros W Ha Hne. pose proof (wf_total s W) as Ht. pose proof (pmm_free_bounds s W) as Hb.
  pose proof (wf_used s W) as Hu.
  destruct (pmm_alloc_page_cases s W) as [(p & bits & Hp & Hf & He) | [(bits & He) _]];
    rewrite Ha in He; [| congruence].
  injection He as -> ->.
  assert (0 < free_pages s) as Hfp.
  { rewrite (wf_free s W). apply countb_pos. exists p. unfold page_is_free. rewrite Hf. split; [lia | done]. }
  assert (!64 (p * PAGE_SIZE) = p * PAGE_SIZE) as Ha' by (apply u64_small; unfold PAGE_SIZE; lia).
  rewrite Ha'. rewrite !Z.div_mul by (unfold PAGE_SIZE; lia).
  pose proof (page_in_bitmap s p W Hp) as Hin.
  unfold pmm_free_page. rewrite Z.div_mul by (unfold PAGE_SIZE; lia). simpl.
  destruct (Z.leb_spec (total_pages s) p); [lia |].
  unfold mark_free. simpl. rewrite bitmap_test_set by lia. rewrite Z.eqb_refl. simpl.
  rewrite bitmap_clear_set by (done || apply (wf_bytes s W)).
  split; [done |]. split; [unwrap; lia |]. split; [unwrap; lia |]. intros Hlast.
  unfold next_hint. destruct (Z.leb_spec (total_pages s) (p + 1)); [lia |].
  destruct (Z.ltb_spec p (p + 1)); [| lia]. unfold pmm_alloc_page, scan_pass. simpl.
  replace (Z.to_nat (total_pages s - p)) with (S (Z.to_nat (total_pages s - (p + 1)))) by lia. simpl.
  destruct (Z.ltb_spec p (total_pages s)); [| lia].
  destruct ((p mod 8 =? 0) && (p + 8 <=? total_pages s) && (rd (bitmap s) (p / 8) =? 255)) eqn:E.
  - b2p. rewrite (full_byte (bitmap s) p p) in Hf by lia. done.
  - rewrite Hf. simpl. rewrite Ha'. done.
Qed.

Definition demo_pmm : pmm := mkPmm [255; 251; 255] 0 20 19 1 3 5 0 0.

Lemma demo_pmm_wf : pmm_wf demo_pmm.
Proof.
  split; simpl; try reflexivity; try lia.
  - repeat constructor; unfold is_byte; lia.
  - intros p Hp. assert (p = 20 \/ p = 21 \/ p = 22 \/ p = 23) as H by lia.
    destruct H as [-> | [-> | [-> | ->]]]; reflexivity.
Qed.

Lemma pmm_alloc_page_exact_witness :
  fst (pmm_alloc_page demo_pmm) = 10 * PAGE_SIZE /\
  pmm_wf (snd (pmm_alloc_page demo_pmm)).
Proof.
  split; [reflexivity |].
  pose proof (pmm_alloc_page_exact demo_pmm demo_pmm_wf eq_refl) as H.
  destruct (pmm_alloc_page demo_pmm) as [a s']. apply H.
Defined.

Lemma pmm_alloc_free_roundtrip_witness :
  bitmap (pmm_free_page (10 * PAGE_SIZE) (snd (pmm_alloc_page demo_pmm))) = [255; 251; 255].
Proof.
  exact (proj1 (pmm_alloc_free_roundtrip demo_pmm (10 * PAGE_SIZE) (snd (pmm_alloc_page demo_pmm))
    demo_pmm_wf eq_refl ltac:(discriminate))).
Defined.

(** ** Contiguous allocation *)

Lemma pmm_wf_same s t :
  pmm_wf s -> bitmap t = bitmap s -> total_pages t = total_pages s ->
  bitmap_size t = bitmap_size s -> used_pages t = used_pages s -> free_pages t = free_pages s ->
  (0 <= pmm_hint t /\ (pmm_hint t < total_pages s \/ pmm_hint t = 0)) -> pmm_wf t.
Proof. intros [] E1 E2 E3 E4 E5 Hh. split; rewrite ?E1, ?E2, ?E3, ?E4, ?E5; done. Qed.

Definition free_run (bm : list Z) (first pages : Z) : Prop :=
  forall q, first <= q < first + pages -> bitmap_test bm q = false.

(** Marking a free run page by page sets its bits and moves the counters by
    its length. *)
Lemma mark_used_run n p s :
  pmm_wf s -> 0 <= p -> p + Z.of_nat n <= total_pages s -> free_run (bitmap s) p (Z.of_nat n) ->
  let s' := for_range n p mark_used s in
  bitmap s' = for_range n p (fun p bm => bitmap_set bm p) (bitmap s) /\
  used_pages s' = used_pages s + Z.of_nat n /\ free_pages s' = free_pages s - Z.of_nat n /\
  bitmap_size s' = bitmap_size s /\ 0 <= free_pages s'.
Proof.
  revert p s. induction n as [| n IH]; intros p s W Hp Hn Hf; simpl.
  - pose proof (pmm_free_bounds s W). repeat split; lia.
  - pose proof (mark_used_wf p s W ltac:(lia)) as W1.
    assert (bitmap_test (bitmap s) p = false) as Hpf by (apply Hf; lia).
    assert (free_run (bitmap (mark_used p s)) (p + 1) (Z.of_nat n)) as Hf1.
    { intros q Hq. rewrite mark_used_test by (done || lia). rewrite Hf by lia.
      destruct (Z.eqb_spec p q); [lia | done]. }
    destruct (IH (p + 1) (mark_used p s) W1) as (E1 & E2 & E3 & E4 & E5);
      [lia | rewrite mark_used_total; lia | done |].
    assert (mark_used p s = mkPmm (bitmap_set (bitmap s) p) (bitmap_phys s) (total_pages s)
             (!64 (used_pages s + 1)) (!64 (free_pages s - 1))
             (bitmap_size s) (pmm_hint s) (pmm_scan_bits s) (pmm_scan_allocs s)) as Em
      by (unfold mark_used; by rewrite Hpf).
    assert (0 < free_pages s).
    { rewrite (wf_free s W). apply countb_pos. exists p. unfold page_is_free. rewrite Hpf.
      split; [lia | done]. }
    pose proof (pmm_free_bounds s W). pose proof (wf_used s W). pose proof (wf_total s W).
    rewrite Em in E1, E2, E3, E4, E5 |- *. simpl in E1, E2, E3, E4.
    rewrite E1, E2, E3, E4. split; [done |]. split; [unwrap; lia |].
    split; [unwrap; lia |]. split; [done |]. by rewrite <- E3.
Qed.

Lemma take_run_wf s first pages bits :
  pmm_wf s -> 0 <= first -> 0 <= pages -> first + pages <= total_pages s ->
  free_run (bitmap s) first pages ->
  pmm_wf (snd (take_run s first pages bits)) /\
  (forall q, 0 <= q -> bitmap_test (bitmap (snd (take_run s first pages bits))) q =
     ((first <=? q) && (q <? first + pages)) || bitmap_test (bitmap s) q).
Proof.
  intros W H1 H2 H3 Hf.
  destruct (mark_used_range (Z.to_nat pages) first s W H1 ltac:(lia)) as (W' & Ht & Hq).
  destruct (mark_used_run (Z.to_nat pages) first s W H1 ltac:(lia)) as (E1 & E2 & E3 & E4 & E5);
    [by replace (Z.of_nat (Z.to_nat pages)) with pages by lia |].
  pose proof (pmm_free_bounds s W). pose proof (wf_used s W). pose proof (wf_total s W).
  rewrite Z2Nat.id in * by lia. unfold take_run. simpl. rewrite <- E1. split; [| exact Hq].
  eapply pmm_wf_same; [exact W' | try done .. |]; simpl; rewrite ?E2, ?E3; unwrap; try done.
  rewrite Ht. unfold next_hint. case_if; lia.
Qed.

Lemma run_scan_spec fuel bm first i pages bits j b :
  (Z.to_nat (pages - i) <= fuel)%nat -> i <= pages ->
  run_scan fuel bm first i pages bits = (j, b) ->
  i <= j <= pages /\ (forall k, i <= k < j -> bitmap_test bm (first + k) = false) /\
  (j < pages -> bitmap_test bm (first + j) = true).
Proof.
  revert i bits. induction fuel as [| fuel IH]; intros i bits Hf Hi H; simpl in H.
  - injection H as <- <-. repeat split; intros; lia.
  - destruct (Z.ltb_spec i pages); [| injection H as <- <-; repeat split; intros; lia].
    destruct (bitmap_test bm (first + i)) eqn:E.
    + injection H as <- <-. repeat split; intros; lia || done.
    + apply IH in H as (? & Hk & ?); [| lia ..]. repeat split; [lia | lia | | done].
      intros k ?. destruct (decide (k = i)) as [-> |]; [done | apply Hk; lia].
Qed.

(** The next start: the least multiple of the alignment above the used page. *)
Lemma next_aligned a x :
  is_pow2 a ->
  let x' := Z.land (x + a) (Z.lnot (a - 1)) in
  (a | x') /\ x < x' /\ x' <= x + a /\ forall f, (a | f) -> x < f -> x' <= f.
Proof.
  intros (k & Hk & ->). pose proof (Z.pow_pos_nonneg 2 k ltac:(lia) Hk) as Hpos.
  simpl. rewrite land_lnot_ones by done.
  pose proof (Z.div_mod (x + 2 ^ k) (2 ^ k) ltac:(lia)) as Hd.
  pose proof (Z.mod_pos_bound (x + 2 ^ k) (2 ^ k) Hpos) as Hm.
  split; [exists ((x + 2 ^ k) / 2 ^ k); lia |]. split; [lia |]. split; [lia |].
  intros f [z ->] Hlt.
  assert ((x + 2 ^ k) / 2 ^ k <= z); [| nia].
  apply Z.lt_succ_r, Z.div_lt_upper_bound; nia.
Qed.

(** [f] is a start the allocator may return: aligned, not page 0, inside. *)
Definition good_start (s : pmm) (pages alignment f : Z) : Prop :=
  (alignment | f) /\ alignment <= f /\ f + pages <= total_pages s /\ free_run (bitmap s) f pages.

Lemma contig_scan_spec fuel s first pages alignment bits :
  is_pow2 alignment -> 0 < pages -> (alignment | first) -> alignment <= first ->
  (Z.to_nat (total_pages s - pages - first + 1) <= fuel)%nat ->
  (exists f b, good_start s pages alignment f /\ first <= f /\
     contig_scan fuel s first (total_pages s - pages) pages alignment bits = take_run s f pages b) \/
  ((exists b, contig_scan fuel s first (total_pages s - pages) pages alignment bits = (0, set_bits s b)) /\
   forall f, good_start s pages alignment f -> first <= f -> False).
Proof.
  intros Ha Hp. revert first bits. induction fuel as [| fuel IH]; intros first bits Hd Hfa Hfuel.
  - right. split; [by exists bits |]. intros f (_ & _ & ? & _) ?. lia.
  - simpl. destruct (Z.leb_spec first (total_pages s - pages)) as [Hle |];
      [| right; split; [by exists bits |]; intros f (_ & _ & ? & _) ?; lia].
    destruct (run_scan (Z.to_nat pages) (bitmap s) first 0 pages bits) as [i b] eqn:Er.
    apply run_scan_spec in Er as (Hi & Hfree & Hused); [| lia ..].
    destruct (Z.eqb_spec i pages) as [-> | Hne].
    + left. exists first, b. split; [| done]. repeat split; [done | lia | lia |].
      intros q Hq. replace q with (first + (q - first)) by lia. apply Hfree. lia.
    + destruct (next_aligned alignment (first + i) Ha) as (Hn1 & Hn2 & Hn3 & Hn4).
      set (first' := Z.land (first + i + alignment) (Z.lnot (alignment - 1))) in *.
      destruct (IH first' b) as [(f & b' & Hg & Hf & He) | (He & Hno)]; [done | lia | lia | |].
      * left. exists f, b'. repeat split; try apply Hg; try lia. done.
      * right. split; [done |]. intros f Hg Hf.
        destruct (decide (first' <= f)); [by apply (Hno f) |].
        assert (f <= first + i) as Hle'.
        { destruct (decide (first + i < f)); [| lia]. destruct Hg as (Hg1 & _).
          pose proof (Hn4 f Hg1 ltac:(lia)). lia. }
        destruct Hg as (_ & _ & _ & Hrun).
        rewrite Hrun in Hused by lia. by specialize (Hused ltac:(lia)).
Qed.

(** A free run is counted by the free counter. *)
Lemma free_run_count s f pages :
  pmm_wf s -> 0 <= f -> 0 <= pages -> f + pages <= total_pages s ->
  free_run (bitmap s) f pages -> pages <= free_pages s.
Proof.
  intros W H1 H2 H3 Hf.
  destruct (mark_used_run (Z.to_nat pages) f s W H1 ltac:(lia)) as (_ & _ & E3 & _ & E5);
    [by replace (Z.of_nat (Z.to_nat pages)) with pages by lia |].
  lia.
Qed.

(** C9. [pmm_alloc_contiguous] is exact: for a nonzero length and a
    power-of-two alignment it returns the byte address of an aligned run whose
    pages were all free (and now are exactly the pages added to the used set),
    or it returns 0 with no page changed and no such run exists. *)
Theorem pmm_alloc_contiguous_exact pages alignment s :
  pmm_wf s -> 0 < pages -> 0 < alignment < 2 ^ 64 -> Z.land alignment (alignment - 1) = 0 ->
  let '(a, s') := pmm_alloc_contiguous pages alignment s in
  pmm_wf s' /\
  ((exists f, a = f * PAGE_SIZE /\ a <> 0 /\ good_start s pages alignment f /\
      forall q, 0 <= q -> bitmap_test (bitmap s') q =
        ((f <=? q) && (q <? f + pages)) || bitmap_test (bitmap s) q) \/
   (a = 0 /\ bitmap s' = bitmap s /\ forall f, ~ good_start s pages alignment f)).
Proof.
  intros W Hp Ha Hpow. pose proof (wf_total s W) as Ht. pose proof (pmm_free_bounds s W).
  assert (is_pow2 alignment) as Hp2 by (apply land_pred_pow2; [lia | done]).
  unfold pmm_alloc_contiguous. rewrite u64_small by lia. rewrite Hpow. simpl.
  destruct (Z.eqb_spec pages 0); [lia |]. destruct (Z.eqb_spec alignment 0); [lia |]. simpl.
  destruct ((total_pages s <? pages) || (total_pages s <? alignment) || (free_pages s <? pages)) eqn:E.
  - split; [done |]. right. split; [done |]. split; [done |]. intros f (_ & Hfa & Hfi & Hrun).
    pose proof (free_run_count s f pages W ltac:(lia) ltac:(lia) Hfi Hrun).
    rewrite !orb_true_iff, !Z.ltb_lt in E. lia.
  - destruct (contig_scan_spec (Z.to_nat (total_pages s - pages - alignment + 1)) s alignment pages
      alignment (pmm_scan_bits s) Hp2 Hp (Z.divide_refl _) ltac:(lia) ltac:(lia))
      as [(f & b & Hg & Hf & ->) | ((b & ->) & Hno)].
    + destruct Hg as (Hg1 & Hg2 & Hg3 & Hg4).
      destruct (take_run_wf s f pages b W ltac:(lia) ltac:(lia) Hg3 Hg4) as (Wt & Hq).
      unfold take_run in *. split; [exact Wt |]. left. exists f.
      rewrite u64_small by (unfold PAGE_SIZE; lia).
      split; [done |]. split; [unfold PAGE_SIZE; lia |]. split; [done | exact Hq].
    + split; [by apply set_bits_wf |]. right. split; [done |]. split; [done |].
      intros f Hg. apply (Hno f Hg). apply Hg.
Qed.

Definition demo_runs : pmm := mkPmm [255; 240; 240] 0 20 12 8 3 5 0 0.

Lemma demo_runs_wf : pmm_wf demo_runs.
Proof.
  split; simpl; try reflexivity; try lia.
  - repeat constructor; unfold is_byte; lia.
  - intros p Hp. assert (p = 20 \/ p = 21 \/ p = 22 \/ p = 23) as H by lia.
    destruct H as [-> | [-> | [-> | ->]]]; reflexivity.
Qed.

Lemma pmm_alloc_contiguous_exact_witness :
  fst (pmm_alloc_contiguous 4 4 demo_runs) = 8 * PAGE_SIZE /\
  pmm_wf (snd (pmm_alloc_contiguous 4 4 demo_runs)).
Proof.
  split; [reflexivity |].
  pose proof (pmm_alloc_contiguous_exact 4 4 demo_runs demo_runs_wf ltac:(lia) ltac:(lia) eq_refl) as H.
  destruct (pmm_alloc_contiguous 4 4 demo_runs). apply H.
Defined.

(** ** Boot *)

Lemma test_all_ones n p : 0 <= p < 8 * Z.of_nat n -> bitmap_test (replicate n 255) p = true.
Proof.
  intros Hp. rewrite bitmap_test_bit by lia.
  rewrite rd_replicate by (split; [apply Z.div_pos; lia | apply Z.div_lt_upper_bound; lia]).
  change 255 with (Z.ones 8). apply Z.ones_spec_low, Z.mod_pos_bound. lia.
Qed.

Lemma pages_bytes t : 0 <= t -> t <= 8 * ((t + 7) / 8) < t + 8.
Proof.
  intros. pose proof (Z.div_mod (t + 7) 8 ltac:(lia)).
  pose proof (Z.mod_pos_bound (t + 7) 8 ltac:(lia)). lia.
Qed.

(** The state before the map is read: everything used. *)
Lemma boot_state_wf total phys :
  0 <= total < 2 ^ 52 ->
  pmm_wf (mkPmm (replicate (Z.to_nat ((total + 7) / 8)) 255) phys total total 0
                ((total + 7) / 8) 0 0 0).
Proof.
  intros Ht. pose proof (pages_bytes total ltac:(lia)).
  assert (0 <= (total + 7) / 8) by (apply Z.div_pos; lia).
  split; simpl; try lia.
  - rewrite length_replicate. lia.
  - apply Forall_replicate. unfold is_byte. lia.
  - intros p Hp. apply test_all_ones. lia.
  - rewrite (countb_ext _ (fun _ => false)).
    + induction (Z.to_nat total); simpl; lia.
    + intros i Hi. unfold page_is_free. rewrite test_all_ones by lia. done.
Qed.

Lemma free_range_spec p0 p1 s :
  pmm_wf s -> 0 <= p0 -> p1 <= total_pages s ->
  pmm_wf (free_range p0 p1 s) /\ total_pages (free_range p0 p1 s) = total_pages s /\
  (forall q, 0 <= q -> bitmap_test (bitmap (free_range p0 p1 s)) q =
     negb ((p0 <=? q) && (q <? p1)) && bitmap_test (bitmap s) q).
Proof.
  intros W H0 H1. unfold free_range. destruct (decide (p0 <= p1)) as [Hle | Hgt].
  - pose proof (mark_free_range (Z.to_nat (p1 - p0)) p0 s W H0 ltac:(lia)) as H.
    by replace (p0 + Z.of_nat (Z.to_nat (p1 - p0))) with p1 in H by lia.
  - replace (Z.to_nat (p1 - p0)) with 0%nat by lia. simpl. split_and!; try done.
    intros q Hq. destruct (Z.leb_spec p0 q), (Z.ltb_spec q p1); simpl; try done; lia.
Qed.

Lemma reserve_range_spec p0 p1 s :
  pmm_wf s -> 0 <= p0 ->
  pmm_wf (reserve_range p0 p1 s) /\ total_pages (reserve_range p0 p1 s) = total_pages s /\
  (forall q, 0 <= q < total_pages s -> bitmap_test (bitmap (reserve_range p0 p1 s)) q =
     ((p0 <=? q) && (q <? p1)) || bitmap_test (bitmap s) q).
Proof.
  intros W H0. unfold reserve_range. destruct (decide (p0 <= Z.min p1 (total_pages s))) as [Hle | Hgt].
  - destruct (mark_used_range (Z.to_nat (Z.min p1 (total_pages s) - p0)) p0 s W H0 ltac:(lia))
      as (? & ? & Hq). split_and!; try done. intros q Hqr. rewrite Hq by lia.
    destruct (Z.leb_spec p0 q), (Z.ltb_spec q p1), (Z.ltb_spec q
      (p0 + Z.of_nat (Z.to_nat (Z.min p1 (total_pages s) - p0)))); simpl; try done; lia.
  - replace (Z.to_nat _) with 0%nat by lia. simpl. split_and!; try done.
    intros q Hq. destruct (Z.leb_spec p0 q), (Z.ltb_spec q p1); simpl; try done; lia.
Qed.

(** A usable region covers page [p] (the region's start rounds down). *)
Definition covers (p : Z) (e : boot_mmap_entry) : bool :=
  (e_type e =? E820_USABLE) && (e_base e / PAGE_SIZE <=? p) && (p <? entry_end e / PAGE_SIZE).

Lemma free_entries_spec mm s :
  pmm_wf s -> Forall (fun e => 0 <= e_base e) mm ->
  let s' := fold_left free_entry mm s in
  pmm_wf s' /\ total_pages s' = total_pages s /\
  (forall q, 0 <= q < total_pages s ->
     bitmap_test (bitmap s') q = negb (existsb (covers q) mm) && bitmap_test (bitmap s) q).
Proof.
  revert s. induction mm as [| e mm IH]; intros s W Hmm; simpl; [by split_and! |].
  apply Forall_cons in Hmm as [He Hmm].
  assert (pmm_wf (free_entry s e) /\ total_pages (free_entry s e) = total_pages s /\
    (forall q, 0 <= q < total_pages s ->
       bitmap_test (bitmap (free_entry s e)) q = negb (covers q e) && bitmap_test (bitmap s) q))
    as (W1 & Ht1 & Hq1).
  { unfold free_entry, covers. destruct (e_type e =? E820_USABLE); simpl; [| by split_and!].
    destruct (free_range_spec (e_base e / PAGE_SIZE) (Z.min (entry_end e / PAGE_SIZE) (total_pages s)) s W)
      as (? & ? & Hq); [apply Z.div_pos; unfold PAGE_SIZE; lia | lia |].
    split_and!; try done. intros q Hr. rewrite Hq by lia.
    destruct (Z.ltb_spec q (Z.min (entry_end e / PAGE_SIZE) (total_pages s))),
      (Z.ltb_spec q (entry_end e / PAGE_SIZE)); try done; lia. }
  destruct (IH (free_entry s e) W1 Hmm) as (W2 & Ht2 & Hq2).
  split_and!; [done | lia |]. intros q Hr. rewrite Hq2, Hq1 by lia.
  rewrite negb_orb. rewrite andb_assoc. f_equal. apply andb_comm.
Qed.

Lemma reserve_fixed_spec fixed s :
  pmm_wf s -> Forall (fun a => 0 <= a) fixed ->
  let s' := fold_left (fun s a => pmm_reserve_page a s) fixed s in
  pmm_wf s' /\ total_pages s' = total_pages s /\
  (forall q, 0 <= q < total_pages s ->
     bitmap_test (bitmap s') q =
     existsb (fun a => a / PAGE_SIZE =? q) fixed || bitmap_test (bitmap s) q).
Proof.
  revert s. induction fixed as [| a fixed IH]; intros s W Hf; simpl; [by split_and! |].
  apply Forall_cons in Hf as [Ha Hf].
  assert (0 <= a / PAGE_SIZE) by (apply Z.div_pos; unfold PAGE_SIZE; lia).
  assert (pmm_wf (pmm_reserve_page a s) /\ total_pages (pmm_reserve_page a s) = total_pages s /\
    (forall q, 0 <= q < total_pages s -> bitmap_test (bitmap (pmm_reserve_page a s)) q =
       (a / PAGE_SIZE =? q) || bitmap_test (bitmap s) q)) as (W1 & Ht1 & Hq1).
  { unfold pmm_reserve_page. case_if.
    - split_and!; try done. intros q Hq. destruct (Z.eqb_spec (a / PAGE_SIZE) q); [lia | done].
    - split_and!; [apply mark_used_wf; lia || done | apply mark_used_total |].
      intros q Hq. apply mark_used_test; lia || done. }
  destruct (IH (pmm_reserve_page a s) W1 Hf) as (W2 & Ht2 & Hq2).
  split_and!; [done | lia |]. intros q Hr. rewrite Hq2, Hq1 by lia.
  destruct (a / PAGE_SIZE =? q), (existsb _ fixed); done.
Qed.

Lemma highest_address_range mm : 0 <= highest_address mm < 2 ^ 64.
Proof.
  unfold highest_address.
  assert (forall l hi, 0 <= hi < 2 ^ 64 -> 0 <= fold_left (fun hi e =>
    if negb (e_type e =? E820_USABLE) then hi
    else if hi <? entry_end e then entry_end e else hi) l hi < 2 ^ 64) as H.
  { induction l as [| e l IH]; intros hi Hhi; simpl; [done |]. apply IH.
    pose proof (u64_range (e_base e + e_length e)). unfold entry_end.
    repeat case_if; lia. }
  apply H. lia.
Qed.

(** The pages [pmm_init] keeps for itself: the bitmap's and everything up to
    and including the page after the kernel image. *)
Definition boot_reserved (s : pmm) (kernel_phys_end : Z) (fixed : list Z) (p : Z) : bool :=
  existsb (fun a => a / PAGE_SIZE =? p) fixed
  || (p <=? !64 (kernel_phys_end + PAGE_SIZE - 1) / PAGE_SIZE)
  || ((bitmap_phys s / PAGE_SIZE <=? p) &&
      (p <? !64 (!64 (bitmap_phys s + bitmap_size s) + PAGE_SIZE - 1) / PAGE_SIZE)).

Lemma for_range_phys n p f s :
  (forall q t, bitmap_phys (f q t) = bitmap_phys t /\ bitmap_size (f q t) = bitmap_size t) ->
  bitmap_phys (for_range n p f s) = bitmap_phys s /\ bitmap_size (for_range n p f s) = bitmap_size s.
Proof.
  intros H. revert p s. induction n as [| n IH]; intros p s; simpl; [done |].
  destruct (IH (p + 1) (f p s)) as [-> ->]. apply H.
Qed.

Lemma mark_phys q t :
  (bitmap_phys (mark_free q t) = bitmap_phys t /\ bitmap_size (mark_free q t) = bitmap_size t) /\
  (bitmap_phys (mark_used q t) = bitmap_phys t /\ bitmap_size (mark_used q t) = bitmap_size t).
Proof. unfold mark_free, mark_used. by destruct (bitmap_test (bitmap t) q). Qed.

Lemma fold_phys {A} (f : pmm -> A -> pmm) l s :
  (forall t a, bitmap_phys (f t a) = bitmap_phys t /\ bitmap_size (f t a) = bitmap_size t) ->
  bitmap_phys (fold_left f l s) = bitmap_phys s /\ bitmap_size (fold_left f l s) = bitmap_size s.
Proof.
  intros H. revert s. induction l as [| a l IH]; intros s; simpl; [done |].
  destruct (IH (f s a)) as [-> ->]. apply H.
Qed.

Lemma choose_bitmap_nonneg mm kend size : 0 <= choose_bitmap mm kend size.
Proof.
  induction mm as [| e mm IH]; simpl; [lia |].
  repeat case_if; try done; unfold page_round_up; apply Z.land_nonneg; left; apply u64_range.
Qed.

Lemma free_entry_phys t e :
  bitmap_phys (free_entry t e) = bitmap_phys t /\ bitmap_size (free_entry t e) = bitmap_size t.
Proof.
  unfold free_entry. destruct (negb _); [done |]. apply for_range_phys. intros. apply mark_phys.
Qed.

Lemma reserve_range_phys p0 p1 t :
  bitmap_phys (reserve_range p0 p1 t) = bitmap_phys t /\
  bitmap_size (reserve_range p0 p1 t) = bitmap_size t.
Proof. apply for_range_phys. intros. apply mark_phys. Qed.

Lemma reserve_page_phys t a :
  bitmap_phys (pmm_reserve_page a t) = bitmap_phys t /\
  bitmap_size (pmm_reserve_page a t) = bitmap_size t.
Proof. unfold pmm_reserve_page. destruct (_ <=? _); [done | apply mark_phys]. Qed.

(** The bitmap's place and size survive the rest of the initialisation. *)
Lemma boot_phys mm fixed a0 a1 b1 s0 :
  let s4 := fold_left (fun s a => pmm_reserve_page a s) fixed
              (reserve_range 0 b1 (reserve_range a0 a1 (fold_left free_entry mm s0))) in
  bitmap_phys s4 = bitmap_phys s0 /\ bitmap_size s4 = bitmap_size s0.
Proof.
  simpl. destruct (fold_phys (fun s a => pmm_reserve_page a s) fixed
    (reserve_range 0 b1 (reserve_range a0 a1 (fold_left free_entry mm s0))) reserve_page_phys) as [-> ->].
  destruct (reserve_range_phys 0 b1 (reserve_range a0 a1 (fold_left free_entry mm s0))) as [-> ->].
  destruct (reserve_range_phys a0 a1 (fold_left free_entry mm s0)) as [-> ->].
  apply fold_phys, free_entry_phys.
Qed.

(** [pmm_init]: the state it leaves is well formed, page 0 is reserved,
    and a page is free exactly when some usable region of the firmware map
    covers it and it is neither below the end of the kernel image, nor part of
    the bitmap, nor one of the architecture's fixed pages. *)
Theorem pmm_init_spec mm kernel_phys_end fixed s :
  Forall (fun e => 0 <= e_base e) mm -> Forall (fun a => 0 <= a) fixed ->
  pmm_init mm kernel_phys_end fixed = Some s ->
  pmm_wf s /\ (0 < total_pages s -> bitmap_test (bitmap s) 0 = true) /\
  forall p, 0 <= p < total_pages s ->
    bitmap_test (bitmap s) p =
    boot_reserved s kernel_phys_end fixed p || negb (existsb (covers p) mm).
Proof.
  intros Hmm Hfix. unfold pmm_init. case_if; [done |].
  set (total := highest_address mm / PAGE_SIZE).
  set (chosen := choose_bitmap mm _ _) in *.
  pose proof (highest_address_range mm) as Hhi.
  assert (0 <= total < 2 ^ 52) as Ht.
  { subst total. unfold PAGE_SIZE. split; [apply Z.div_pos; lia | apply Z.div_lt_upper_bound; lia]. }
  assert (0 <= chosen) as Hc by apply choose_bitmap_nonneg.
  pose proof (boot_state_wf total chosen Ht) as W0. set (s0 := mkPmm _ _ _ _ _ _ _ _ _) in *.
  destruct (free_entries_spec mm s0 W0 Hmm) as (W1 & Ht1 & Hq1).
  set (s1 := fold_left free_entry mm s0) in *.
  destruct (reserve_range_spec (chosen / PAGE_SIZE)
    (!64 (!64 (chosen + (total + 7) / 8) + PAGE_SIZE - 1) / PAGE_SIZE) s1 W1) as (W2 & Ht2 & Hq2);
    [apply Z.div_pos; unfold PAGE_SIZE; lia |].
  set (s2 := reserve_range (chosen / PAGE_SIZE) _ s1) in *.
  destruct (reserve_range_spec 0 (!64 (kernel_phys_end + PAGE_SIZE - 1) / PAGE_SIZE + 1) s2 W2 ltac:(lia))
    as (W3 & Ht3 & Hq3).
  set (s3 := reserve_range 0 _ s2) in *.
  destruct (reserve_fixed_spec fixed s3 W3 Hfix) as (W4 & Ht4 & Hq4).
  intros [= <-]. set (s4 := fold_left _ fixed s3) in *.
  pose proof (boot_phys mm fixed (chosen / PAGE_SIZE) (!64 (!64 (chosen + (total + 7) / 8) + PAGE_SIZE - 1) / PAGE_SIZE)
    (!64 (kernel_phys_end + PAGE_SIZE - 1) / PAGE_SIZE + 1) s0) as [P4 S4].
  fold s1 s2 s3 s4 in P4, S4. simpl in P4, S4.
  assert (total_pages s4 = total) as Ets by (rewrite Ht4, Ht3, Ht2, Ht1; done).
  assert (forall p, 0 <= p < total -> bitmap_test (bitmap s4) p =
    boot_reserved s4 kernel_phys_end fixed p || negb (existsb (covers p) mm)) as Hall.
  { intros p Hp. rewrite Hq4, Hq3, Hq2, Hq1 by (rewrite ?Ht3, ?Ht2, ?Ht1; simpl; lia).
    unfold boot_reserved. rewrite P4, S4.
    assert (bitmap_test (bitmap s0) p = true) as ->
      by (apply test_all_ones; pose proof (pages_bytes total); lia).
    rewrite andb_true_r. destruct (Z.leb_spec 0 p); [| lia]. simpl.
    assert ((p <? !64 (kernel_phys_end + PAGE_SIZE - 1) / PAGE_SIZE + 1) =
            (p <=? !64 (kernel_phys_end + PAGE_SIZE - 1) / PAGE_SIZE)) as ->
      by (apply eq_true_iff_eq; rewrite Z.ltb_lt, Z.leb_le; lia).
    by rewrite !orb_assoc. }
  split; [done |]. rewrite Ets. split; [| done].
  intros H0. rewrite Hall by lia. unfold boot_reserved.
  assert ((0 <=? !64 (kernel_phys_end + PAGE_SIZE - 1) / PAGE_SIZE) = true) as ->.
  { apply Z.leb_le, Z.div_pos; [apply u64_range | unfold PAGE_SIZE; lia]. }
  by rewrite orb_true_r.
Qed.

Definition demo_map : list boot_mmap_entry :=
  [mkEntry 0 0x400000 1; mkEntry 0x400000 0x800 2; mkEntry 0x400800 0x3FF800 1].

Definition demo_boot : pmm :=
  match pmm_init demo_map 0x200000 [0x8000] with Some s => s | None => demo_pmm end.

Lemma pmm_init_spec_witness :
  pmm_wf demo_boot /\ free_pages demo_boot = 1535.
Proof.
  split; [| vm_compute; reflexivity].
  apply (pmm_init_spec demo_map 0x200000 [0x8000] demo_boot).
  - repeat constructor; simpl; lia.
  - repeat constructor; simpl; lia.
  - vm_compute. reflexivity.
Defined.

(** [pmm_init] rounds the start of a usable region down, so a page whose first
    2 KiB the firmware reserved is given to the allocator. *)
Example pmm_init_partial_page :
  bitmap_test (bitmap demo_boot) (0x400000 / PAGE_SIZE) = false.
Proof. vm_compute. reflexivity. Qed.

(** ** Hot-plugged memory *)

Lemma grow_bitmap_wf end_page nb s :
  pmm_wf s -> total_pages s < end_page < 2 ^ 52 ->
  pmm_wf (grow_bitmap end_page nb s) /\
  (forall q, 0 <= q < end_page -> bitmap_test (bitmap (grow_bitmap end_page nb s)) q =
     (total_pages s <=? q) || bitmap_test (bitmap s) q).
Proof.
  intros W He. pose proof (wf_total s W) as Ht. pose proof (pmm_free_bounds s W) as Hb.
  pose proof (wf_used s W) as Hu. pose proof (wf_len s W) as Hl. pose proof (wf_size s W) as Hs.
  pose proof (pages_bytes (total_pages s) ltac:(lia)). pose proof (pages_bytes end_page ltac:(lia)).
  assert (bitmap_size s <= (end_page + 7) / 8) as Hsz
    by (rewrite Hs; apply Z.div_le_mono; lia).
  assert (forall q, 0 <= q < 8 * ((end_page + 7) / 8) ->
    bitmap_test (bitmap (grow_bitmap end_page nb s)) q =
    (total_pages s <=? q) || bitmap_test (bitmap s) q) as Hq.
  { intros q Hq. simpl. rewrite !bitmap_test_bit by lia.
    destruct (decide (q < 8 * bitmap_size s)) as [Hlt | Hge].
    - rewrite rd_app_l by (split; [apply Z.div_pos; lia | apply Z.div_lt_upper_bound; lia]).
      destruct (Z.leb_spec (total_pages s) q); [| done]. rewrite <- bitmap_test_bit by lia.
      by rewrite (wf_tail s W) by lia.
    - assert (bitmap_size s <= q / 8) by (apply Z.div_le_lower_bound; lia).
      assert (q / 8 < (end_page + 7) / 8) by (apply Z.div_lt_upper_bound; lia).
      rewrite rd_app_r by lia. rewrite rd_replicate by lia.
      destruct (Z.leb_spec (total_pages s) q); [| lia].
      change 255 with (Z.ones 8). apply Z.ones_spec_low, Z.mod_pos_bound. lia. }
  split; [| intros q Hr; apply Hq; lia].
  split; simpl; try lia; try done.
  - rewrite length_app, length_replicate. lia.
  - apply Forall_app. split; [apply (wf_bytes s W) |]. apply Forall_replicate. unfold is_byte. lia.
  - intros p Hp. simpl in Hq. rewrite Hq by lia. destruct (Z.leb_spec (total_pages s) p); [done | lia].
  - rewrite (countb_extend _ (Z.to_nat (total_pages s))).
    + rewrite (wf_free s W). apply countb_ext. intros i Hi. unfold page_is_free. simpl in Hq.
      rewrite Hq by lia. destruct (Z.leb_spec (total_pages s) i); [lia | done].
    + lia.
    + intros i Hi. unfold page_is_free. simpl in Hq. rewrite Hq by lia.
      destruct (Z.leb_spec (total_pages s) i); [done | lia].
  - unwrap. lia.
  - pose proof (wf_hint s W). lia.
Qed.

Lemma mark_free_count p s :
  pmm_wf s -> 0 <= p < total_pages s ->
  free_pages (mark_free p s) = free_pages s + (if bitmap_test (bitmap s) p then 1 else 0).
Proof.
  intros W Hp. pose proof (pmm_free_bounds s W). pose proof (wf_total s W).
  pose proof (pmm_free_bounds _ (mark_free_wf p s W Hp)) as Hb1. rewrite mark_free_total in Hb1.
  unfold mark_free in *. case_if; simpl in *; [| lia].
  destruct (decide (free_pages s = total_pages s)); [rewrite u64_small in Hb1 by lia; lia |].
  unwrap. lia.
Qed.

(** The counting loop is the plain one; its counter is the number of pages it
    freed, which is zero only if it changed nothing. *)
Lemma free_counting_spec n p s a :
  pmm_wf s -> 0 <= p -> p + Z.of_nat n <= total_pages s -> 0 <= a -> a + Z.of_nat n < 2 ^ 64 ->
  let '(s', a') := for_range n p free_counting (s, a) in
  s' = for_range n p mark_free s /\ a <= a' /\ (a' = a -> s' = s) /\
  (a' = a <-> forall q, p <= q < p + Z.of_nat n -> bitmap_test (bitmap s) q = false).
Proof.
  revert p s a. induction n as [| n IH]; intros p s a W Hp Hn Ha Hn'; simpl.
  - split_and!; try done. split; [intros; lia | done].
  - unfold free_counting at 2. simpl. destruct (bitmap_test (bitmap s) p) eqn:Ep.
    + unwrap. pose proof (IH (p + 1) (mark_free p s) (a + 1)) as H.
      destruct (for_range n (p + 1) free_counting (mark_free p s, a + 1)) as [s' a'].
      destruct H as (-> & Hle & _ & _); [by apply mark_free_wf; lia || done | lia | rewrite mark_free_total; lia | lia | lia |].
      split_and!; [done | lia | lia |]. split; [lia |]. intros Hq. by rewrite Hq in Ep by lia.
    + assert (mark_free p s = s) as -> by (unfold mark_free; by rewrite Ep).
      pose proof (IH (p + 1) s a) as H.
      destruct (for_range n (p + 1) free_counting (s, a)) as [s' a'].
      destruct H as (-> & Hle & Hs & Hiff); [done | lia .. |]. split_and!; try done.
      rewrite Hiff. split; intros Hq q Hr.
      * destruct (decide (q = p)) as [-> |]; [done | apply Hq; lia].
      * apply Hq. lia.
Qed.

(** [pmm_add_region]: the state stays well formed (so used + free = total
    also after hot-plug); a [false] answer changed nothing; after a [true]
    answer the allocator covers the region, the pages wholly inside it are
    free, pages of a grown bitmap outside it are used, and every other page is
    as it was. *)
Theorem pmm_add_region_spec kmalloc phys length s :
  pmm_wf s -> 0 <= phys -> 0 <= length ->
  let '(ok, s') := pmm_add_region kmalloc phys length s in
  let start_page := !64 (phys + PAGE_SIZE - 1) / PAGE_SIZE in
  let end_page := !64 (phys + length) / PAGE_SIZE in
  pmm_wf s' /\ used_pages s' + free_pages s' = total_pages s' /\
  (ok = false -> s' = s) /\
  (ok = true -> total_pages s' = Z.max (total_pages s) end_page /\
     forall q, 0 <= q < total_pages s' -> bitmap_test (bitmap s') q =
       negb ((start_page <=? q) && (q <? end_page)) &&
       ((total_pages s <=? q) || bitmap_test (bitmap s) q)).
Proof.
  intros W Hp Hl. pose proof (wf_used s W) as Hu. pose proof (wf_total s W) as Ht.
  unfold pmm_add_region. case_if; [done |].
  set (start_page := !64 (phys + PAGE_SIZE - 1) / PAGE_SIZE).
  set (end_page := !64 (phys + length) / PAGE_SIZE).
  assert (0 <= start_page) as Hsp by (apply Z.div_pos; [apply u64_range | unfold PAGE_SIZE; lia]).
  assert (end_page < 2 ^ 52) as Hep.
  { apply Z.div_lt_upper_bound; [unfold PAGE_SIZE; lia |].
    pose proof (u64_range (phys + length)). unfold PAGE_SIZE. lia. }
  destruct (Z.leb_spec end_page start_page) as [| Hne]; [done |].
  assert (exists grown, (if total_pages s <? end_page then
      match kmalloc ((end_page + 7) / 8) with None => None | Some nb => Some (grow_bitmap end_page nb s) end
    else Some s) = grown /\ match grown with None => True | Some s1 => pmm_wf s1 /\
      total_pages s1 = Z.max (total_pages s) end_page /\ (s1 = s \/ total_pages s < end_page) /\
      (forall q, 0 <= q < total_pages s1 -> bitmap_test (bitmap s1) q =
         (total_pages s <=? q) || bitmap_test (bitmap s) q) end) as (grown & -> & Hg).
  { eexists; split; [reflexivity |]. destruct (Z.ltb_spec (total_pages s) end_page).
    - destruct (kmalloc _) as [nb |]; [| done].
      destruct (grow_bitmap_wf end_page nb s W ltac:(lia)) as [Wg Hq].
      split_and!; [done | simpl; lia | by right | done].
    - split_and!; [done | lia | by left |]. intros q Hq. destruct (Z.leb_spec (total_pages s) q); [lia | done]. }
  destruct grown as [s1 |]; [| done]. destruct Hg as (W1 & Ht1 & Hor & Hq1).
  pose proof (free_counting_spec (Z.to_nat (end_page - start_page)) start_page s1 0 W1 Hsp
    ltac:(lia) ltac:(lia) ltac:(lia)) as H.
  destruct (mark_free_range (Z.to_nat (end_page - start_page)) start_page s1 W1 Hsp ltac:(lia)) as (W2 & Ht2 & Hq2).
  destruct (for_range _ start_page free_counting (s1, 0)) as [s2 added].
  destruct H as (-> & Hadd & Hsame & Hnone).
  split; [done |]. split; [apply (wf_used _ W2) |]. split.
  - intros Hb. b2p. assert (added = 0) as Ha by lia. rewrite (Hsame Ha).
    destruct Hor as [| Hgrew]; [done | exfalso].
    pose proof (proj1 Hnone Ha (end_page - 1) ltac:(lia)) as Hbad.
    rewrite Hq1 in Hbad by lia. apply orb_false_iff in Hbad as [Hbad _].
    assert (Z.max start_page (total_pages s) <= end_page - 1) by lia. b2p. lia.
  - intros _. split; [lia |]. intros q Hq. rewrite Hq2, Hq1 by lia.
    by replace (start_page + Z.of_nat (Z.to_nat (end_page - start_page))) with end_page by lia.
Qed.

Lemma pmm_add_region_spec_witness :
  pmm_wf (snd (pmm_add_region (fun _ => Some 0xFFFFFF8000000000) 0x18000 0x8000 demo_runs)) /\
  fst (pmm_add_region (fun _ => Some 0xFFFFFF8000000000) 0x18000 0x8000 demo_runs) = true.
Proof.
  split; [| reflexivity].
  pose proof (pmm_add_region_spec (fun _ => Some 0xFFFFFF8000000000) 0x18000 0x8000 demo_runs
    demo_runs_wf ltac:(lia) ltac:(lia)) as H.
  destruct (pmm_add_region _ _ _ demo_runs). apply H.
Defined.
