(* ===== verification/Update.v ===== *)
(** * The update boot journal ([kernel/update/protocol.c])

    The A/B state shared by firmware, kernel and publisher and its transitions:
    begin a write of the inactive slot, stage a release, boot, reject, confirm,
    roll back.  The 512-byte record that carries the state is in UpdateRecord.
    A C pointer to a caller's record is the record, so the NULL guards do not
    appear; functions that mutate the record return it with their code. *)

From S2P Require Import Prelude Bytes.

(** ** Constants and data *)

Definition UPDATE_RECORD_BYTES : Z := 512.
Definition UPDATE_VERSION_BYTES : Z := 32.
Definition UPDATE_NO_SLOT : Z := 255.
Definition UPDATE_REVERTED : Z := 1.
Definition UPDATE_WRITING : Z := 2.
Definition UPDATE_BOOT_FAILED : Z := 1.
Definition UPDATE_IMAGE_FAILED : Z := 2.
Definition UPDATE_WRITE_FAILED : Z := 3.
Definition UPDATE_MAX_EFI_BYTES : Z := Z.shiftl 16 20.
Definition UPDATE_MAX_ROOT_BYTES : Z := Z.shiftl 8 30.

Definition UPDATE_OK : Z := 0.
Definition UPDATE_INVALID : Z := -1.
Definition UPDATE_BUSY : Z := -2.
Definition UPDATE_OLDER : Z := -3.
Definition UPDATE_EXHAUSTED : Z := -4.
Definition UPDATE_NOT_TRIAL : Z := -5.

Record update_slot := mkSlot {
  root_guid : list Z;       (* 16 bytes *)
  release : Z;
  root_bytes : Z;
  efi_bytes : Z;
  version : list Z;         (* UPDATE_VERSION_BYTES *)
  efi_sha256 : list Z;      (* 32 bytes *)
  root_sha256 : list Z;     (* 32 bytes *)
}.

Record update_state := mkState {
  revision : Z;
  flags : Z;
  active : Z;
  pending : Z;
  previous : Z;
  attempts : Z;
  data_guid : list Z;
  esp_guid : list Z;
  slot_0 : update_slot;     (* slot[0] *)
  slot_1 : update_slot;     (* slot[1] *)
  last_error : Z;
}.

Definition slot_at (s : update_state) (i : Z) : update_slot :=
  if i =? 0 then slot_0 s else slot_1 s.

(** ** Byte helpers *)

Fixpoint equal (a b : list Z) (n : nat) : bool :=
  match n, a, b with
  | O, _, _ => true
  | S n, x :: a, y :: b => if negb (x =? y) then false else equal a b n
  | S _, _, _ => false
  end.

Fixpoint nonzero (a : list Z) (n : nat) : bool :=
  match n, a with
  | S n, x :: a => if negb (x =? 0) then true else nonzero a n
  | _, _ => false
  end.

(** ** Validity *)

Definition version_char (c : Z) : bool :=
  ((97 <=? c) && (c <=? 122)) || ((65 <=? c) && (c <=? 90)) || ((48 <=? c) && (c <=? 57))
  || (c =? 46) || (c =? 45) || (c =? 95).

(** The first loop over [version]: [None] is its [return 0]. *)
Fixpoint version_scan (fuel : nat) (v : list Z) (i : Z) : option Z :=
  match fuel with
  | O => Some i
  | S fuel =>
      if (i <? UPDATE_VERSION_BYTES) && negb (rd v i =? 0) then
        if negb (version_char (rd v i)) then None else version_scan fuel v (i + 1)
      else Some i
  end.

Definition version_valid (v : list Z) : bool :=
  match version_scan (Z.to_nat UPDATE_VERSION_BYTES) v 0 with
  | None => false
  | Some i =>
      if i =? UPDATE_VERSION_BYTES then false
      else negb (nonzero (drop (Z.to_nat i) v) (Z.to_nat (UPDATE_VERSION_BYTES - i)))
  end.

Definition slot_valid (s : update_slot) (required : bool) : bool :=
  if negb (nonzero (root_guid s) 16) then false
  else if release s =? 0 then
    negb required && (root_bytes s =? 0) && (efi_bytes s =? 0)
    && negb (nonzero (version s) 32) && negb (nonzero (efi_sha256 s) 32)
    && negb (nonzero (root_sha256 s) 32)
  else if (root_bytes s =? 0) || (UPDATE_MAX_ROOT_BYTES <? root_bytes s)
       || negb (Z.land (root_bytes s) 511 =? 0)
       || (efi_bytes s =? 0) || (UPDATE_MAX_EFI_BYTES <? efi_bytes s)
       || negb (nonzero (efi_sha256 s) 32) || negb (nonzero (root_sha256 s) 32)
       || (rd (version s) 0 =? 0) then false
  else version_valid (version s).

Definition slot_bad (s : update_state) (i : Z) : bool :=
  negb (slot_valid (slot_at s i) (i =? active s))
  || equal (root_guid (slot_at s i)) (data_guid s) 16
  || equal (root_guid (slot_at s i)) (esp_guid s) 16.

Definition update_state_valid (s : update_state) : bool :=
  if (revision s =? 0) || (1 <? active s)
     || negb (Z.land (flags s) (Z.lnot (Z.lor UPDATE_REVERTED UPDATE_WRITING)) =? 0)
     || (flags s =? Z.lor UPDATE_REVERTED UPDATE_WRITING)
     || negb (nonzero (data_guid s) 16) || negb (nonzero (esp_guid s) 16)
     || equal (data_guid s) (esp_guid s) 16 then false
  else if slot_bad s 0 || slot_bad s 1 then false
  else if equal (root_guid (slot_0 s)) (root_guid (slot_1 s)) 16 then false
  else if negb (pending s =? UPDATE_NO_SLOT)
       && ((1 <? pending s) || (pending s =? active s)
           || negb (slot_valid (slot_at s (pending s)) true) || (1 <? attempts s)) then false
  else if (pending s =? UPDATE_NO_SLOT) && negb (attempts s =? 0) then false
  else if negb (Z.land (flags s) UPDATE_REVERTED =? 0)
       && (negb (pending s =? UPDATE_NO_SLOT) || (last_error s =? 0)) then false
  else if (Z.land (flags s) UPDATE_REVERTED =? 0) && negb (last_error s =? 0) then false
  else if negb (Z.land (flags s) UPDATE_WRITING =? 0)
       && (negb (pending s =? UPDATE_NO_SLOT) || negb (previous s =? UPDATE_NO_SLOT)) then false
  else if negb (previous s =? UPDATE_NO_SLOT)
       && ((1 <? previous s) || (previous s =? active s)
           || negb (slot_valid (slot_at s (previous s)) true)) then false
  else last_error s <=? UPDATE_WRITE_FAILED.

(** ** Transitions *)

Definition bump (s : update_state) : Z * update_state :=
  if revision s =? UINT64_MAX then (UPDATE_EXHAUSTED, s)
  else (UPDATE_OK, mkState (!64 (revision s + 1)) (flags s) (active s) (pending s) (previous s)
          (attempts s) (data_guid s) (esp_guid s) (slot_0 s) (slot_1 s) (last_error s)).

(** The fields the transitions assign, and the slot one of them replaces. *)
Definition set_ctl (s : update_state) (fl act pend prev att err : Z) : update_state :=
  mkState (revision s) fl act pend prev att (data_guid s) (esp_guid s) (slot_0 s) (slot_1 s) err.
Definition set_slot (s : update_state) (i : Z) (c : update_slot) : update_state :=
  mkState (revision s) (flags s) (active s) (pending s) (previous s) (attempts s)
          (data_guid s) (esp_guid s)
          (if i =? 0 then c else slot_0 s) (if i =? 0 then slot_1 s else c) (last_error s).

Definition update_state_begin_write (s : update_state) (inactive : Z) : Z * update_state :=
  if negb (update_state_valid s) || (1 <? inactive) || (inactive =? active s)
  then (UPDATE_INVALID, s)
  else if negb (pending s =? UPDATE_NO_SLOT) || negb (Z.land (flags s) UPDATE_WRITING =? 0)
  then (UPDATE_BUSY, s)
  else if revision s =? UINT64_MAX then (UPDATE_EXHAUSTED, s)
  else bump (set_ctl s UPDATE_WRITING (active s) (pending s) UPDATE_NO_SLOT (attempts s) 0).

Definition update_state_stage (s : update_state) (slot : Z) (candidate : update_slot)
  : Z * update_state :=
  if negb (update_state_valid s) || (1 <? slot) || (slot =? active s)
     || negb (slot_valid candidate true)
     || negb (equal (root_guid (slot_at s slot)) (root_guid candidate) 16)
  then (UPDATE_INVALID, s)
  else if negb (pending s =? UPDATE_NO_SLOT) then (UPDATE_BUSY, s)
  else if release candidate <=? release (slot_at s (active s)) then (UPDATE_OLDER, s)
  else
    let known := slot_at s slot in
    if release candidate <? release known then (UPDATE_OLDER, s)
    else if (release candidate =? release known)
         && (negb (root_bytes candidate =? root_bytes known)
             || negb (efi_bytes candidate =? efi_bytes known)
             || negb (equal (version candidate) (version known) (Z.to_nat UPDATE_VERSION_BYTES))
             || negb (equal (efi_sha256 candidate) (efi_sha256 known) 32)
             || negb (equal (root_sha256 candidate) (root_sha256 known) 32))
    then (UPDATE_INVALID, s)
    else if revision s =? UINT64_MAX then (UPDATE_EXHAUSTED, s)
    else bump (set_ctl (set_slot s slot candidate) 0 (active s) slot UPDATE_NO_SLOT 1 0).

Definition update_state_reject (s : update_state) (reason : Z) : Z * update_state :=
  if negb (update_state_valid s) || (reason <? UPDATE_BOOT_FAILED) || (UPDATE_WRITE_FAILED <? reason)
  then (UPDATE_INVALID, s)
  else if (pending s =? UPDATE_NO_SLOT) && (Z.land (flags s) UPDATE_WRITING =? 0)
  then (UPDATE_NOT_TRIAL, s)
  else if revision s =? UINT64_MAX then (UPDATE_EXHAUSTED, s)
  else bump (set_ctl s UPDATE_REVERTED (active s) UPDATE_NO_SLOT (previous s) 0 reason).

(** [(code, *slot, *changed, state)]; slot and changed are meaningful unless
    the code is [UPDATE_INVALID]. *)
Definition update_state_boot (s : update_state) : Z * Z * bool * update_state :=
  if negb (update_state_valid s) then (UPDATE_INVALID, 0, false, s)
  else if negb (Z.land (flags s) UPDATE_WRITING =? 0) then
    let '(rc, s') := update_state_reject s UPDATE_WRITE_FAILED in (rc, active s, true, s')
  else if pending s =? UPDATE_NO_SLOT then (UPDATE_OK, active s, false, s)
  else if revision s =? UINT64_MAX then (UPDATE_EXHAUSTED, active s, false, s)
  else if negb (attempts s =? 0) then
    let '(rc, s') :=
      bump (set_ctl s (flags s) (active s) (pending s) (previous s) 0 (last_error s)) in
    (rc, pending s, true, s')
  else
    let '(rc, s') := update_state_reject s UPDATE_BOOT_FAILED in (rc, active s, true, s').

Definition update_state_confirm (s : update_state) (running : Z) : Z * update_state :=
  if negb (update_state_valid s) || (1 <? running) then (UPDATE_INVALID, s)
  else if negb (pending s =? running) || negb (attempts s =? 0) then (UPDATE_NOT_TRIAL, s)
  else if revision s =? UINT64_MAX then (UPDATE_EXHAUSTED, s)
  else bump (set_ctl s 0 running UPDATE_NO_SLOT (active s) (attempts s) 0).

Definition update_state_rollback (s : update_state) : Z * update_state :=
  if negb (update_state_valid s) || (previous s =? UPDATE_NO_SLOT) then (UPDATE_INVALID, s)
  else if negb (pending s =? UPDATE_NO_SLOT) then (UPDATE_BUSY, s)
  else if revision s =? UINT64_MAX then (UPDATE_EXHAUSTED, s)
  else bump (set_ctl s 0 (active s) (previous s) UPDATE_NO_SLOT 1 0).

(** ** The validity invariant

    [slot_typed] and [state_typed] are the widths of the C fields; on typed
    states [update_state_valid] decides [state_inv]. *)

Definition bytes_of (n : Z) (l : list Z) : Prop := zlen l = n /\ Forall is_byte l.

Record slot_typed (c : update_slot) : Prop := {
  st_guid : bytes_of 16 (root_guid c);
  st_release : 0 <= release c < 2 ^ 64;
  st_root_bytes : 0 <= root_bytes c < 2 ^ 64;
  st_efi_bytes : 0 <= efi_bytes c < 2 ^ 64;
  st_version : bytes_of 32 (version c);
  st_efi_sha : bytes_of 32 (efi_sha256 c);
  st_root_sha : bytes_of 32 (root_sha256 c);
}.

Record state_typed (s : update_state) : Prop := {
  ty_revision : 0 <= revision s < 2 ^ 64;
  ty_flags : 0 <= flags s < 2 ^ 32;
  ty_active : is_byte (active s);
  ty_pending : is_byte (pending s);
  ty_previous : is_byte (previous s);
  ty_attempts : is_byte (attempts s);
  ty_data : bytes_of 16 (data_guid s);
  ty_esp : bytes_of 16 (esp_guid s);
  ty_slot_0 : slot_typed (slot_0 s);
  ty_slot_1 : slot_typed (slot_1 s);
  ty_error : 0 <= last_error s < 2 ^ 32;
}.

(** The parts of the invariant about partition identities: the four GUIDs are
    set and pairwise different. *)
Record guids_inv (data esp r0 r1 : list Z) : Prop := {
  gi_data : nonzero data 16 = true;
  gi_esp : nonzero esp 16 = true;
  gi_data_esp : equal data esp 16 = false;
  gi_0 : equal r0 data 16 = false /\ equal r0 esp 16 = false;
  gi_1 : equal r1 data 16 = false /\ equal r1 esp 16 = false;
  gi_01 : equal r0 r1 16 = false;
}.

Definition is_slot (i : Z) : Prop := i = 0 \/ i = 1.

Record state_inv (s : update_state) : Prop := {
  inv_revision : revision s <> 0;
  inv_active : is_slot (active s);
  inv_flags : flags s = 0 \/ flags s = UPDATE_REVERTED \/ flags s = UPDATE_WRITING;
  inv_guids : guids_inv (data_guid s) (esp_guid s) (root_guid (slot_0 s)) (root_guid (slot_1 s));
  inv_slots : forall i, is_slot i -> slot_valid (slot_at s i) (i =? active s) = true;
  inv_pending : pending s = UPDATE_NO_SLOT /\ attempts s = 0
    \/ pending s = 1 - active s /\ slot_valid (slot_at s (pending s)) true = true
       /\ is_slot (attempts s) /\ flags s = 0;
  inv_reverted : flags s = UPDATE_REVERTED <-> last_error s <> 0;
  inv_writing : flags s = UPDATE_WRITING -> previous s = UPDATE_NO_SLOT;
  inv_previous : previous s = UPDATE_NO_SLOT
    \/ previous s = 1 - active s /\ slot_valid (slot_at s (previous s)) true = true;
  inv_error : last_error s <= UPDATE_WRITE_FAILED;
}.

Lemma slot_valid_weaken c b : slot_valid c true = true -> slot_valid c b = true.
Proof. unfold slot_valid. destruct b; [done |]. case_if; [done |]. by case_if. Qed.

Lemma flags_mask f :
  0 <= f -> (Z.land f (Z.lnot (Z.lor UPDATE_REVERTED UPDATE_WRITING)) =? 0) = (f <=? 3).
Proof.
  intros Hf. change (Z.lor _ _) with (2 ^ 2 - 1). rewrite land_lnot_ones by lia.
  pose proof (Z.mod_pos_bound f (2 ^ 2) ltac:(lia)).
  destruct (Z.leb_spec f 3).
  - rewrite Z.mod_small by lia. apply Z.eqb_eq. lia.
  - apply Z.eqb_neq. lia.
Qed.

Lemma valid_inv s : state_typed s -> update_state_valid s = true -> state_inv s.
Proof.
  intros T H. unfold update_state_valid, slot_bad in H.
  rewrite flags_mask in H by apply T.
  repeat (case_if_in H; [done |]). b2p.
  destruct T as [_ Tf Ta Tp Tv Tt _ _ _ _ Te]. unfold is_byte in *.
  assert (flags s = 0 \/ flags s = 1 \/ flags s = 2) as Hfl.
  { change (Z.lor _ _) with 3 in *. lia. }
  unfold is_slot, UPDATE_NO_SLOT, UPDATE_REVERTED, UPDATE_WRITING in *.
  constructor; unfold is_slot, UPDATE_NO_SLOT, UPDATE_REVERTED, UPDATE_WRITING; try assumption; try lia.
  - by constructor.
  - intros i [-> | ->]; done.
  - destruct (pending s =? 255) eqn:Ep in *; simpl in *; b2p; [by left |]. right.
    destruct Hfl as [E | [E | E]]; rewrite E in *; simpl in *; b2p; split_and!; done || lia.
  - destruct Hfl as [E | [E | E]]; rewrite E in *; simpl in *; b2p; lia.
  - intros E. rewrite E in *. simpl in *. b2p. lia.
  - destruct (previous s =? 255) eqn:Ep in *; simpl in *; b2p; [by left |]. right.
    split; [lia | done].
Qed.

Lemma slot_at_is s i : is_slot i -> slot_at s i = slot_0 s /\ i = 0 \/ slot_at s i = slot_1 s /\ i = 1.
Proof. intros [-> | ->]; auto. Qed.

Lemma inv_valid s : state_inv s -> update_state_valid s = true.
Proof.
  intros [Hr Ha Hf [G1 G2 G3 [G4 G5] [G6 G7] G8] Hs Hp Hv Hw Hpr He].
  pose proof (Hs 0 (or_introl eq_refl)) as Hs0. pose proof (Hs 1 (or_intror eq_refl)) as Hs1.
  unfold is_slot, UPDATE_NO_SLOT, UPDATE_REVERTED, UPDATE_WRITING, UPDATE_WRITE_FAILED in *.
  unfold update_state_valid, slot_bad, UPDATE_NO_SLOT, UPDATE_REVERTED, UPDATE_WRITING,
    UPDATE_WRITE_FAILED. rewrite flags_mask by lia.
  change (slot_at s 0) with (slot_0 s) in *. change (slot_at s 1) with (slot_1 s) in *.
  rewrite G1, G2, G3, G4, G5, G6, G7, G8, Hs0, Hs1. simpl.
  destruct (Z.eqb_spec (revision s) 0); [done |].
  destruct (Z.ltb_spec 1 (active s)); [lia |]. simpl.
  assert ((last_error s <=? 3) = true) as Hle by (apply Z.leb_le; lia). rewrite Hle.
  destruct Hp as [[Ep Et] | (Ep & Esv & Et & Ef)], Hpr as [Eq | (Eq & Eqv)].
  - rewrite Ep, Et, Eq. simpl. destruct Hf as [E | [E | E]]; rewrite E in *; simpl;
      destruct (Z.eqb_spec (last_error s) 0); simpl; try done; lia.
  - rewrite Eqv. destruct (Z.ltb_spec 1 (previous s)), (Z.eqb_spec (previous s) (active s)),
      (Z.eqb_spec (previous s) 255); try lia. rewrite Ep, Et. simpl.
    destruct Hf as [E | [E | E]]; rewrite E in *; simpl;
      destruct (Z.eqb_spec (last_error s) 0); simpl; try done; lia.
  - rewrite Esv, Ef, Eq in *. destruct (Z.ltb_spec 1 (pending s)), (Z.eqb_spec (pending s) (active s)),
      (Z.eqb_spec (pending s) 255), (Z.ltb_spec 1 (attempts s)),
      (Z.eqb_spec (last_error s) 0); simpl; try done; lia.
  - rewrite Esv, Eqv, Ef in *. destruct (Z.ltb_spec 1 (pending s)), (Z.eqb_spec (pending s) (active s)),
      (Z.eqb_spec (pending s) 255), (Z.ltb_spec 1 (attempts s)), (Z.eqb_spec (last_error s) 0),
      (Z.ltb_spec 1 (previous s)), (Z.eqb_spec (previous s) (active s)), (Z.eqb_spec (previous s) 255);
      simpl; try done; lia.
Qed.

(** ** Transitions preserve the invariant *)

(** The update calls as one labelled operation; [Boot] forgets its two result
    parameters. *)
Inductive update_op :=
  | BeginWrite (inactive : Z)
  | Stage (slot : Z) (candidate : update_slot)
  | Boot
  | Reject (reason : Z)
  | Confirm (running : Z)
  | Rollback.

Definition run_op (o : update_op) (s : update_state) : Z * update_state :=
  match o with
  | BeginWrite i => update_state_begin_write s i
  | Stage i c => update_state_stage s i c
  | Boot => let '(rc, _, _, s') := update_state_boot s in (rc, s')
  | Reject r => update_state_reject s r
  | Confirm i => update_state_confirm s i
  | Rollback => update_state_rollback s
  end.

(** The argument fits its C type ([unsigned], [uint32_t], [struct update_slot]). *)
Definition op_typed (o : update_op) : Prop :=
  match o with
  | BeginWrite i | Confirm i | Reject i => 0 <= i < 2 ^ 32
  | Stage i c => 0 <= i < 2 ^ 32 /\ slot_typed c
  | Boot | Rollback => True
  end.

(** What a transition must establish about the control fields it writes. *)
Record ctl_ok (s : update_state) (fl act pend prev att err : Z) : Prop := {
  ctl_active : is_slot act /\ slot_valid (slot_at s act) true = true;
  ctl_pending : pend = UPDATE_NO_SLOT /\ att = 0
    \/ pend = 1 - act /\ slot_valid (slot_at s pend) true = true /\ is_slot att /\ fl = 0;
  ctl_flags : fl = 0 /\ err = 0 \/ fl = UPDATE_WRITING /\ err = 0 /\ prev = UPDATE_NO_SLOT
    \/ fl = UPDATE_REVERTED /\ 1 <= err <= UPDATE_WRITE_FAILED;
  ctl_previous : prev = UPDATE_NO_SLOT
    \/ prev = 1 - act /\ slot_valid (slot_at s prev) true = true;
}.

(** The result of a transition that commits. *)
Definition committed (s s' : update_state) : Prop :=
  state_inv s' /\ state_typed s' /\ revision s' = revision s + 1.

Lemma ctl_commit s fl act pend prev att err :
  state_inv s -> state_typed s -> revision s <> UINT64_MAX ->
  ctl_ok s fl act pend prev att err ->
  let s1 := set_ctl s fl act pend prev att err in
  let s' := mkState (revision s + 1) fl act pend prev att (data_guid s) (esp_guid s)
                    (slot_0 s) (slot_1 s) err in
  bump s1 = (UPDATE_OK, s') /\ committed s s'.
Proof.
  intros I T Hrev [[Ha Hav] Hp Hf Hpr]. simpl. unfold bump, set_ctl. simpl.
  destruct T as [Tr Tf Ta Tp Tv Tt Td Te T0 T1 Tl].
  destruct (Z.eqb_spec (revision s) UINT64_MAX); [done |].
  unfold UINT64_MAX in *. unwrap. split; [done |].
  unfold is_slot, is_byte, UPDATE_NO_SLOT, UPDATE_REVERTED, UPDATE_WRITING, UPDATE_WRITE_FAILED in *.
  split; [| split; [constructor; simpl; unfold is_byte; try assumption; lia | done]].
  constructor; simpl; unfold is_slot, UPDATE_NO_SLOT, UPDATE_REVERTED, UPDATE_WRITING,
    UPDATE_WRITE_FAILED; try assumption; try lia.
  - apply I.
  - intros i Hi. destruct (Z.eqb_spec i act) as [-> |]; [done |].
    pose proof (inv_slots _ I i Hi) as Hv. unfold slot_at in *. simpl.
    destruct (i =? active s); [by apply slot_valid_weaken | done].
Qed.

Lemma active_valid s : state_inv s -> slot_valid (slot_at s (active s)) true = true.
Proof.
  intros I. pose proof (inv_slots _ I _ (inv_active _ I)) as H. by rewrite Z.eqb_refl in H.
Qed.

Lemma land_flags s b :
  state_inv s -> b = UPDATE_REVERTED \/ b = UPDATE_WRITING ->
  (Z.land (flags s) b =? 0) = negb (flags s =? b).
Proof.
  intros I [-> | ->]; destruct (inv_flags _ I) as [-> | [-> | ->]]; done.
Qed.

(** Replacing the inactive slot by a valid release of the same partition. *)
Lemma set_slot_inv s i c :
  state_inv s -> state_typed s -> is_slot i -> i <> active s -> pending s = UPDATE_NO_SLOT ->
  slot_typed c -> slot_valid c true = true ->
  root_guid (slot_at s i) = root_guid c ->
  state_inv (set_slot s i c) /\ state_typed (set_slot s i c)
  /\ slot_at (set_slot s i c) i = c
  /\ slot_at (set_slot s i c) (active s) = slot_at s (active s).
Proof.
  intros I T Hi Hne Hp Tc Vc Hg.
  assert (forall j, is_slot j -> slot_at (set_slot s i c) j = if j =? i then c else slot_at s j) as Hat.
  { intros j [-> | ->]; destruct Hi as [-> | ->]; done. }
  pose proof (inv_active _ I) as Ha.
  rewrite !Hat by done. rewrite Z.eqb_refl.
  destruct (Z.eqb_spec (active s) i); [congruence |].
  split_and!; try done.
  - constructor; try apply I.
    + simpl. destruct Hi as [-> | ->]; simpl in *; rewrite <- Hg; apply I.
    + intros j Hj. rewrite Hat by done. case_if; [by apply slot_valid_weaken | by apply I].
    + left. split; [done |]. simpl. destruct (inv_pending _ I) as [[? ?] | [E _]]; [done |].
      rewrite Hp in E. unfold is_slot, UPDATE_NO_SLOT in *. lia.
    + destruct (inv_previous _ I) as [? | [E V]]; [by left | right; split; [done |]].
      rewrite Hat by (simpl; rewrite E; unfold is_slot in *; lia). simpl.
      by case_if.
  - destruct T. constructor; try done; simpl; destruct Hi as [-> | ->]; done.
Qed.

(** ** The abstract update machine

    One confirmed release, one other slot, and the phase of an update.  Every
    call of the journal is a step of this machine. *)

Inductive phase := Idle | Writing | Staged | Trying.

#[export] Instance phase_eq_dec : EqDecision phase.
Proof. solve_decision. Defined.

Record machine := mkMachine {
  m_phase : phase;
  m_active : Z;             (* slot of the confirmed release *)
  m_run : update_slot;      (* the confirmed release *)
  m_other : update_slot;    (* what the other slot holds *)
  m_back : bool;            (* a previous release can be restored *)
}.

Inductive mstep : machine -> update_op -> machine -> Prop :=
  | m_begin a r o b :
      mstep (mkMachine Idle a r o b) (BeginWrite (1 - a)) (mkMachine Writing a r o false)
  | m_stage ph a r o b c :
      ph = Idle \/ ph = Writing -> slot_valid c true = true -> root_guid c = root_guid o ->
      release r < release c -> release o <= release c -> (release c = release o -> c = o) ->
      mstep (mkMachine ph a r o b) (Stage (1 - a) c) (mkMachine Staged a r c false)
  | m_boot_idle a r o b : mstep (mkMachine Idle a r o b) Boot (mkMachine Idle a r o b)
  | m_boot_torn a r o b : mstep (mkMachine Writing a r o b) Boot (mkMachine Idle a r o b)
  | m_boot_trial a r o b : mstep (mkMachine Staged a r o b) Boot (mkMachine Trying a r o b)
  | m_boot_failed a r o b : mstep (mkMachine Trying a r o b) Boot (mkMachine Idle a r o b)
  | m_reject ph a r o b reason :
      ph <> Idle -> UPDATE_BOOT_FAILED <= reason <= UPDATE_WRITE_FAILED ->
      mstep (mkMachine ph a r o b) (Reject reason) (mkMachine Idle a r o b)
  | m_confirm a r o b :
      mstep (mkMachine Trying a r o b) (Confirm (1 - a)) (mkMachine Idle (1 - a) o r true)
  | m_rollback a r o :
      mstep (mkMachine Idle a r o true) Rollback (mkMachine Staged a r o false).

Definition phase_of (s : update_state) : phase :=
  if flags s =? UPDATE_WRITING then Writing
  else if pending s =? UPDATE_NO_SLOT then Idle
  else if attempts s =? 0 then Trying else Staged.

Definition abs (s : update_state) : machine :=
  mkMachine (phase_of s) (active s) (slot_at s (active s)) (slot_at s (1 - active s))
            (negb (previous s =? UPDATE_NO_SLOT)).

Lemma equal_iff a b n :
  zlen a = Z.of_nat n -> zlen b = Z.of_nat n -> equal a b n = true <-> a = b.
Proof.
  unfold zlen. intros Ha Hb. assert (length a = n) as Ha' by lia.
  assert (length b = n) as Hb' by lia. clear Ha Hb. revert b n Ha' Hb'.
  induction a as [| x a IH]; intros [| y b] n <- Hb; simpl in *; try done.
  destruct (Z.eqb_spec x y) as [-> |]; simpl.
  - rewrite IH by lia. split; [by intros -> | by intros [= ->]].
  - split; [done | congruence].
Qed.

(** A candidate with the release number of the slot it replaces must be that
    very release. *)
Lemma same_release_iff c k :
  slot_typed c -> slot_typed k -> root_guid k = root_guid c ->
  (release c =? release k)
    && (negb (root_bytes c =? root_bytes k) || negb (efi_bytes c =? efi_bytes k)
        || negb (equal (version c) (version k) (Z.to_nat UPDATE_VERSION_BYTES))
        || negb (equal (efi_sha256 c) (efi_sha256 k) 32)
        || negb (equal (root_sha256 c) (root_sha256 k) 32)) = false
  <-> (release c = release k -> c = k).
Proof.
  intros [_ _ _ _ [Lv _] [Le _] [Lr _]] [_ _ _ _ [Kv _] [Ke _] [Kr _]] Hg.
  change (Z.to_nat UPDATE_VERSION_BYTES) with 32%nat.
  pose proof (equal_iff _ _ 32 Lv Kv) as E1. pose proof (equal_iff _ _ 32 Le Ke) as E2.
  pose proof (equal_iff _ _ 32 Lr Kr) as E3.
  destruct c as [cg cr cb ce cv cs ct], k as [kg kr kb ke kv ks kt]. simpl in *.
  destruct (Z.eqb_spec cr kr); simpl; [| split; [congruence | done]]. split.
  - intros H _. b2p. f_equal; tauto || congruence.
  - intros H. specialize (H ltac:(done)). injection H as -> -> -> -> -> -> ->.
    rewrite !Z.eqb_refl. by rewrite (proj2 E1), (proj2 E2), (proj2 E3).
Qed.

Lemma slot_at_typed s i : state_typed s -> slot_typed (slot_at s i).
Proof. intros T. unfold slot_at. case_if; apply T. Qed.

Lemma slot_at_ext s s' i :
  slot_0 s' = slot_0 s -> slot_1 s' = slot_1 s -> slot_at s' i = slot_at s i.
Proof. unfold slot_at. by intros -> ->. Qed.

(** The control fields of a valid state, phase by phase. *)
Lemma phase_cases s :
  state_inv s ->
  match phase_of s with
  | Idle => flags s <> UPDATE_WRITING /\ pending s = UPDATE_NO_SLOT
  | Writing => flags s = UPDATE_WRITING /\ pending s = UPDATE_NO_SLOT
               /\ previous s = UPDATE_NO_SLOT
  | Staged => flags s = 0 /\ pending s = 1 - active s /\ attempts s = 1
              /\ (pending s =? UPDATE_NO_SLOT) = false
  | Trying => flags s = 0 /\ pending s = 1 - active s /\ attempts s = 0
              /\ (pending s =? UPDATE_NO_SLOT) = false
  end.
Proof.
  intros I. unfold phase_of. pose proof (inv_pending _ I) as P. pose proof (inv_active _ I) as A.
  pose proof (inv_writing _ I) as W.
  unfold is_slot, UPDATE_NO_SLOT, UPDATE_WRITING, UPDATE_REVERTED in *.
  destruct (Z.eqb_spec (flags s) 2); [split_and!; tauto || lia |].
  destruct (Z.eqb_spec (pending s) 255); [done |].
  destruct (Z.eqb_spec (attempts s) 0); split_and!; done || tauto || lia.
Qed.

Lemma valid_iff s : state_typed s -> update_state_valid s = true <-> state_inv s.
Proof. intros T. split; [by apply valid_inv | by apply inv_valid]. Qed.

(** What every call does on a valid journal with a revision left: it is a
    step of the machine and commits the next revision, or the machine has no
    such step and the journal is untouched. *)
Definition outcome (o : update_op) (s : update_state) : Prop :=
  (exists s', run_op o s = (UPDATE_OK, s') /\ mstep (abs s) o (abs s')
              /\ (committed s s' \/ o = Boot /\ s' = s))
  \/ (exists rc, rc <> UPDATE_OK /\ run_op o s = (rc, s) /\ forall m, ~ mstep (abs s) o m).

(** Evaluate the guards of a call in a known phase. *)
Ltac eval_guards I :=
  rewrite ?(inv_valid _ I), ?(land_flags _ UPDATE_WRITING I) by auto; simpl negb; simpl orb.

(** The call is refused: no constructor of [mstep] applies in this phase. *)
Ltac refuse rc :=
  right; exists rc; split; [done | split; [reflexivity |]];
  let m := fresh "m" in let Hm := fresh "Hm" in
  intros m Hm; inversion Hm; subst; unfold UPDATE_BOOT_FAILED in *;
  simplify_eq; try tauto; try congruence; try lia.

(** The call commits: the new control fields satisfy [ctl_ok]. *)
Ltac commit s :=
  left; edestruct (ctl_commit s) as [Hbump Hcommit];
  [done | done | done | | rewrite Hbump; eexists; split; [reflexivity |]; split; [| by left]].

Section Outcomes.
Context (s : update_state).
Context (I : state_inv s) (T : state_typed s) (R : revision s <> UINT64_MAX).

Lemma other_slot i : 0 <= i -> (1 <? i) || (i =? active s) = false <-> i = 1 - active s.
Proof using I.
  intros Hi. pose proof (inv_active _ I) as A. unfold is_slot in A.
  destruct (Z.ltb_spec 1 i), (Z.eqb_spec i (active s)); simpl; split; intros; done || lia.
Qed.

Lemma idle_attempts : pending s = UPDATE_NO_SLOT -> attempts s = 0.
Proof using I.
  intros H. destruct (inv_pending _ I) as [[? ?] | [E _]]; [done |].
  pose proof (inv_active _ I). unfold is_slot, UPDATE_NO_SLOT in *. lia.
Qed.

Lemma begin_write_outcome i : 0 <= i -> outcome (BeginWrite i) s.
Proof using I T R.
  intros Hi. unfold outcome. simpl. unfold update_state_begin_write. eval_guards I.
  pose proof (phase_cases s I) as P. pose proof (other_slot i Hi) as O.
  assert (pending s = UPDATE_NO_SLOT -> attempts s = 0) as Hatt by apply idle_attempts.
  unfold abs at 1 3. destruct ((1 <? i) || (i =? active s)) eqn:E.
  { assert (i <> 1 - active s) by (intros F; by apply O in F). refuse UPDATE_INVALID. }
  rewrite (proj1 O eq_refl). destruct (Z.eqb_spec (revision s) UINT64_MAX); [done |].
  destruct (phase_of s); destruct P as [P1 P2].
  - rewrite P2, (proj2 (Z.eqb_neq _ _) P1). simpl. commit s.
    + constructor; [split; [apply I | by apply active_valid] | left; auto | auto | by left].
    + apply m_begin.
  - rewrite P1. destruct P2 as [-> _]. refuse UPDATE_BUSY.
  - destruct P2 as (_ & _ & ->). refuse UPDATE_BUSY.
  - destruct P2 as (_ & _ & ->). refuse UPDATE_BUSY.
Qed.

Lemma stage_outcome i c : 0 <= i -> slot_typed c -> outcome (Stage i c) s.
Proof using I T R.
  intros Hi Tc. unfold outcome. simpl. unfold update_state_stage. eval_guards I.
  pose proof (phase_cases s I) as P. pose proof (other_slot i Hi) as O.
  pose proof (slot_at_typed s i T) as Tk. pose proof (inv_active _ I) as A.
  pose proof (equal_iff (root_guid (slot_at s i)) (root_guid c) 16
                (proj1 (st_guid _ Tk)) (proj1 (st_guid _ Tc))) as G.
  unfold abs at 1 3. destruct ((1 <? i) || (i =? active s)) eqn:E.
  { assert (i <> 1 - active s) by (intros F; by apply O in F). refuse UPDATE_INVALID. }
  rewrite (proj1 O eq_refl) in *. simpl.
  destruct (slot_valid c true) eqn:V; simpl; [| refuse UPDATE_INVALID].
  destruct (equal _ _ 16); simpl;
    [| assert (root_guid c <> root_guid (slot_at s (1 - active s)))
         by (intros F; by symmetry in F; apply G in F); refuse UPDATE_INVALID].
  assert (root_guid (slot_at s (1 - active s)) = root_guid c) as Hg by (by apply G).
  destruct (Z.eqb_spec (pending s) UPDATE_NO_SLOT) as [Hp | Hp]; simpl;
    [| destruct (phase_of s); destruct P as (P1 & P2); try done;
       [by destruct P2 | refuse UPDATE_BUSY; destruct_or!; done ..]].
  destruct (Z.leb_spec (release c) (release (slot_at s (active s)))); [refuse UPDATE_OLDER |].
  destruct (Z.ltb_spec (release c) (release (slot_at s (1 - active s)))); [refuse UPDATE_OLDER |].
  pose proof (same_release_iff c _ Tc Tk Hg) as Hs.
  destruct (_ && _) eqn:B.
  { right. exists UPDATE_INVALID. split_and!; [done.. |]. intros m Hm. inversion Hm; subst.
    enough (true = false) by done. by apply Hs. }
  destruct (Z.eqb_spec (revision s) UINT64_MAX); [done |]. clear B.
  assert (1 - active s <> active s /\ is_slot (1 - active s)) as [Hne Hio]
    by (unfold is_slot in *; lia).
  destruct (set_slot_inv s (1 - active s) c) as (I' & T' & Hc & Ha); try done.
  commit (set_slot s (1 - active s) c).
  - constructor; rewrite ?Hc, ?Ha; [split; [done | by apply active_valid] | | by left | by left].
    right. unfold is_slot. auto.
  - match goal with |- mstep _ _ ?m =>
      replace m with (mkMachine Staged (active s) (slot_at s (active s)) c false)
        by (unfold abs, phase_of; simpl; f_equal;
            [by destruct A as [-> | ->] | exact (eq_sym Ha) | exact (eq_sym Hc)])
    end.
    apply m_stage; try done; [| by apply Hs].
    destruct (phase_of s); [by left | by right | |]; destruct P as (_ & P2 & _);
      rewrite P2 in Hp; unfold is_slot, UPDATE_NO_SLOT in *; lia.
Qed.

(** Rejecting drops back to the confirmed release from any other phase. *)
Lemma reject_commits reason :
  phase_of s <> Idle -> UPDATE_BOOT_FAILED <= reason <= UPDATE_WRITE_FAILED ->
  exists s', update_state_reject s reason = (UPDATE_OK, s') /\ committed s s'
    /\ abs s' = mkMachine Idle (active s) (slot_at s (active s)) (slot_at s (1 - active s))
                          (negb (previous s =? UPDATE_NO_SLOT))
    /\ last_error s' = reason.
Proof using I T R.
  intros Hph Hr. unfold update_state_reject. eval_guards I.
  pose proof (phase_cases s I) as P.
  destruct (Z.ltb_spec reason UPDATE_BOOT_FAILED), (Z.ltb_spec UPDATE_WRITE_FAILED reason);
    try lia. simpl.
  assert ((pending s =? UPDATE_NO_SLOT) && negb (flags s =? UPDATE_WRITING) = false) as ->.
  { destruct (phase_of s); [done | destruct P as (-> & -> & _); done | |];
      destruct P as (_ & _ & _ & ->); done. }
  destruct (Z.eqb_spec (revision s) UINT64_MAX); [done |].
  edestruct (ctl_commit s) as [Hb Hc]; [done | done | done | | rewrite Hb; eexists; split_and!; done].
  constructor; [split; [apply I | by apply active_valid] | by left | right; right; split; [done |] | apply I].
  unfold UPDATE_BOOT_FAILED in *. lia.
Qed.

Lemma reject_outcome reason : outcome (Reject reason) s.
Proof using I T R.
  pose proof (phase_cases s I) as P. unfold outcome, abs at 1 3. simpl.
  destruct (decide (UPDATE_BOOT_FAILED <= reason <= UPDATE_WRITE_FAILED)) as [Hr | Hr].
  - destruct (phase_of s) eqn:Eph; cycle 1.
    1-3: left; destruct (reject_commits reason) as (s' & -> & Hc & Ha & _);
      [congruence | done | eexists; split; [done |]; rewrite Ha; split; [by apply m_reject | by left]].
    unfold update_state_reject. eval_guards I. destruct P as [P1 P2].
    rewrite P2, (proj2 (Z.eqb_neq _ _) P1), Z.eqb_refl. simpl.
    destruct (Z.ltb_spec reason UPDATE_BOOT_FAILED), (Z.ltb_spec UPDATE_WRITE_FAILED reason);
      try lia. refuse UPDATE_NOT_TRIAL.
  - unfold update_state_reject. eval_guards I.
    assert ((reason <? UPDATE_BOOT_FAILED) || (UPDATE_WRITE_FAILED <? reason) = true) as ->
      by (apply orb_true_iff; rewrite !Z.ltb_lt; lia).
    right. exists UPDATE_INVALID. split_and!; [done.. |]. intros m Hm. by inversion Hm.
Qed.

(** Boot: the slot to start, whether the journal changed, and the step. *)
Lemma boot_result :
  exists s' ch, update_state_boot s
    = (UPDATE_OK, if decide (phase_of s = Staged) then 1 - active s else active s, ch, s')
    /\ mstep (abs s) Boot (abs s') /\ (committed s s' /\ ch = true \/ s' = s /\ ch = false)
    /\ (phase_of s = Trying -> last_error s' = UPDATE_BOOT_FAILED)
    /\ (ch = false <-> phase_of s = Idle).
Proof using I T R.
  pose proof (phase_cases s I) as P. unfold update_state_boot, abs at 1. eval_guards I.
  destruct (Z.eqb_spec (revision s) UINT64_MAX); [done |].
  destruct (phase_of s) eqn:Eph; simpl.
  - destruct P as [P1 P2]. rewrite (proj2 (Z.eqb_neq _ _) P1), P2. simpl.
    do 2 eexists. split; [done |]. split_and!; [| by right | done..].
    unfold abs. rewrite Eph. apply m_boot_idle.
  - destruct P as (P1 & P2 & P3). rewrite P1. simpl.
    destruct (reject_commits UPDATE_WRITE_FAILED) as (s' & -> & Hc & Ha & _); [congruence | done |].
    do 2 eexists. split; [done |]. rewrite Ha. split_and!; [apply m_boot_torn | by left | done..].
  - destruct P as (P1 & P2 & P3 & P4). rewrite P1, P4, P3, P2. simpl.
    edestruct (ctl_commit s) as [Hb Hc]; [done | done | done | |
      rewrite Hb; do 2 eexists; split; [done |]; split_and!; [| by left | done..]].
    + pose proof (inv_reverted _ I) as V. rewrite P1 in V. unfold UPDATE_REVERTED in V.
      constructor; [split; [apply I | by apply active_valid] | right; unfold is_slot | left; lia | apply I].
      destruct (inv_pending _ I) as [[E _] | (_ & ? & _)]; [by rewrite E in P4 |].
      rewrite <- P2. auto.
    + unfold abs, phase_of at 1. simpl. rewrite <- P2, P4. rewrite P2. apply m_boot_trial.
  - destruct P as (P1 & P2 & P3 & P4). rewrite P1, P4, P3. simpl.
    destruct (reject_commits UPDATE_BOOT_FAILED) as (s' & -> & Hc & Ha & He); [congruence | done |].
    do 2 eexists. split; [done |]. rewrite Ha. split_and!; [apply m_boot_failed | by left | done..].
Qed.

Lemma confirm_outcome i : 0 <= i -> outcome (Confirm i) s.
Proof using I T R.
  intros Hi. pose proof (phase_cases s I) as P. pose proof (inv_active _ I) as A.
  unfold outcome, abs at 1 3. simpl. unfold update_state_confirm. eval_guards I.
  destruct (Z.eqb_spec (revision s) UINT64_MAX); [done |].
  destruct (Z.ltb_spec 1 i).
  { assert (i <> 1 - active s) by (unfold is_slot in A; lia). refuse UPDATE_INVALID. }
  destruct (Z.eqb_spec (pending s) i) as [Hp | Hp]; simpl; cycle 1.
  { right. exists UPDATE_NOT_TRIAL. split_and!; [done.. |]. intros m Hm.
    inversion Hm as [| | | | | | | a r o b Eph |]; subst. rewrite <- Eph in P. tauto. }
  destruct (phase_of s) eqn:Eph.
  - destruct P as [_ P2]. unfold UPDATE_NO_SLOT in *. lia.
  - destruct P as (_ & P2 & _). unfold UPDATE_NO_SLOT in *. lia.
  - destruct P as (_ & _ & -> & _). refuse UPDATE_NOT_TRIAL.
  - destruct P as (P1 & P2 & P3 & P4). rewrite P3. simpl.
    assert (i = 1 - active s) as -> by congruence. commit s.
    + destruct (inv_pending _ I) as [[E _] | (_ & V & _)]; [by rewrite E in P4 |].
      rewrite Hp in V.
      constructor; [split; [unfold is_slot in *; lia | done] | by left | by left | right].
      split; [lia | by apply active_valid].
    + match goal with |- mstep _ _ ?m =>
        replace m with (mkMachine Idle (1 - active s) (slot_at s (1 - active s))
                          (slot_at s (active s)) true); [apply m_confirm |]
      end.
      unfold abs. simpl. by destruct A as [-> | ->].
Qed.

Lemma rollback_outcome : outcome Rollback s.
Proof using I T R.
  pose proof (phase_cases s I) as P. pose proof (inv_active _ I) as A.
  unfold outcome, abs at 1 3. simpl. unfold update_state_rollback. eval_guards I.
  destruct (Z.eqb_spec (revision s) UINT64_MAX); [done |].
  destruct (Z.eqb_spec (previous s) UPDATE_NO_SLOT) as [Hv | Hv]; simpl;
    [refuse UPDATE_INVALID |].
  destruct (phase_of s) eqn:Eph.
  - destruct P as [P1 P2]. rewrite P2. simpl. commit s.
    + constructor; [split; [done | by apply active_valid] | right | by left | by left].
      destruct (inv_previous _ I) as [? | [-> ?]]; [done |]. unfold is_slot. auto.
    + match goal with |- mstep _ _ ?m =>
        replace m with (mkMachine Staged (active s) (slot_at s (active s))
                          (slot_at s (1 - active s)) false); [apply m_rollback |]
      end.
      destruct (inv_previous _ I) as [? | [Ev _]]; [done |].
      unfold abs, phase_of. simpl. rewrite Ev. by destruct A as [-> | ->].
  - destruct P as (P1 & P2 & P3). done.
  - destruct P as (_ & _ & _ & ->). refuse UPDATE_BUSY.
  - destruct P as (_ & _ & _ & ->). refuse UPDATE_BUSY.
Qed.

Lemma run_op_outcome o : op_typed o -> outcome o s.
Proof using I T R.
  destruct o as [i | i c | | r | i |]; simpl; intros Ho.
  - apply begin_write_outcome. lia.
  - apply stage_outcome; [lia | tauto].
  - destruct boot_result as (s' & ch & E & Hm & Hc & _). left. exists s'. simpl. rewrite E.
    split_and!; [done.. | tauto].
  - apply reject_outcome.
  - apply confirm_outcome. lia.
  - apply rollback_outcome.
Qed.
End Outcomes.

Lemma mstep_det m o m1 m2 : mstep m o m1 -> mstep m o m2 -> m1 = m2.
Proof. intros H1 H2. destruct H1; inversion H2; subst; try done; destruct_or?; done. Qed.

(** With the revision counter at its end every call that would commit is
    refused, and no call changes the journal. *)
Lemma run_op_exhausted o s :
  update_state_valid s = true -> revision s = UINT64_MAX -> snd (run_op o s) = s.
Proof.
  intros V E. destruct o; simpl; unfold update_state_begin_write, update_state_stage,
    update_state_boot, update_state_confirm, update_state_rollback, update_state_reject;
    rewrite V, E; simpl; repeat case_if; done.
Qed.

(** ** Histories of calls *)

Fixpoint run_ops (os : list update_op) (s : update_state) : update_state :=
  match os with
  | [] => s
  | o :: os => run_ops os (snd (run_op o s))
  end.

Definition good (s : update_state) : Prop := update_state_valid s = true /\ state_typed s.

(** One call keeps a good journal good, moves the revision by at most one and
    only together with the state, and is a machine step or no change. *)
Lemma run_op_step o s :
  good s -> op_typed o ->
  let s' := snd (run_op o s) in
  good s' /\ (s' = s \/ revision s' = revision s + 1 /\ mstep (abs s) o (abs s')).
Proof.
  intros [V T] Ho. simpl. pose proof (valid_inv s T V) as I.
  destruct (decide (revision s = UINT64_MAX)) as [E | E].
  { rewrite run_op_exhausted by done. split; [done | by left]. }
  destruct (run_op_outcome s I T E o Ho) as [(s' & -> & Hm & Hc) | (rc & _ & -> & _)]; simpl.
  - destruct Hc as [(I' & T' & Hr) | [_ ->]]; [| split; [done | by left]].
    split; [split; [by apply inv_valid | done] | by right].
  - split; [done | by left].
Qed.

Lemma run_ops_step os s :
  good s -> Forall op_typed os ->
  let s' := run_ops os s in
  good s' /\ revision s <= revision s' <= revision s + Z.of_nat (length os)
  /\ (revision s' = revision s -> s' = s).
Proof.
  revert s. induction os as [| o os IH]; intros s G Ho; simpl.
  { split_and!; [done | lia | lia | done]. }
  apply Forall_cons in Ho as [Ho Hos].
  destruct (run_op_step o s G Ho) as [G1 H1]. simpl in *.
  destruct (IH _ G1 Hos) as (G2 & Hr & He). split; [done |].
  destruct H1 as [E | [E _]]; [rewrite E in *; split; [lia | done] |].
  split; [lia |]. intros. lia.
Qed.

(** Machine steps other than a confirmation keep the confirmed release. *)
Lemma mstep_confirmed m o m' :
  mstep m o m' -> (forall i, o <> Confirm i) -> m_active m' = m_active m /\ m_run m' = m_run m.
Proof. intros H Hn. destruct H; simpl; try done. by destruct (Hn (1 - a)). Qed.

(** While an update is staged or on trial the other slot holds a newer
    release. *)
Definition forward (m : machine) : Prop :=
  m_phase m = Staged \/ m_phase m = Trying -> release (m_run m) < release (m_other m).

Lemma mstep_forward m o m' :
  mstep m o m' -> o <> Rollback -> forward m ->
  forward m' /\ release (m_run m) <= release (m_run m').
Proof.
  unfold forward. intros H Hn F. destruct H; simpl in *; try done;
    split; try lia; intuition (done || lia).
Qed.

Section Demo.
(** A journal with release 1 confirmed in slot 0 and an empty slot 1. *)
Definition demo_bytes (n : nat) (b : Z) : list Z := replicate n b.
Definition demo_slot (g r : Z) : update_slot :=
  mkSlot (demo_bytes 16 g) r 512 4096 ([49; 46; r + 48] ++ demo_bytes 29 0)
         (demo_bytes 32 r) (demo_bytes 32 r).
Definition empty_slot (g : Z) : update_slot :=
  mkSlot (demo_bytes 16 g) 0 0 0 (demo_bytes 32 0) (demo_bytes 32 0) (demo_bytes 32 0).
Definition demo_state : update_state :=
  mkState 1 0 0 UPDATE_NO_SLOT UPDATE_NO_SLOT 0 (demo_bytes 16 1) (demo_bytes 16 2)
          (demo_slot 3 1) (empty_slot 4) 0.
Definition demo_candidate : update_slot := demo_slot 4 2.
End Demo.

Lemma demo_slot_typed g r : is_byte g -> 0 <= r < 100 -> slot_typed (demo_slot g r).
Proof.
  intros Hg Hr. constructor; simpl; try lia;
    split; try done; repeat constructor; unfold is_byte in *; lia.
Qed.

Lemma demo_good : good demo_state.
Proof.
  split; [vm_compute; reflexivity |]. constructor; simpl; unfold is_byte, UPDATE_NO_SLOT; try lia.
  - split; [done |]. repeat constructor; unfold is_byte; lia.
  - split; [done |]. repeat constructor; unfold is_byte; lia.
  - apply demo_slot_typed; unfold is_byte; lia.
  - constructor; simpl; try lia; split; try done; repeat constructor; unfold is_byte; lia.
Qed.

Lemma demo_ops_typed :
  Forall op_typed [BeginWrite 1; Stage 1 demo_candidate; Boot; Confirm 1; Boot].
Proof.
  repeat constructor; simpl; try lia; apply demo_slot_typed; unfold is_byte; lia.
Qed.

(** ** Theorems about the transitions *)

(** C6. The journal calls refine the abstract A/B update machine: on a valid
    journal with a revision left, a call succeeds exactly when the machine has
    the corresponding step, and then leads to the abstraction of the machine's
    next state. *)
Theorem update_refines_machine s o :
  update_state_valid s = true -> state_typed s -> op_typed o -> revision s <> UINT64_MAX ->
  (forall s', run_op o s = (UPDATE_OK, s') -> mstep (abs s) o (abs s'))
  /\ (forall m, mstep (abs s) o m -> exists s', run_op o s = (UPDATE_OK, s') /\ abs s' = m).
Proof.
  intros V T Ho R. pose proof (valid_inv s T V) as I.
  destruct (run_op_outcome s I T R o Ho) as [(s' & E & Hm & _) | (rc & Hrc & E & Hn)]; rewrite E.
  - split; [by intros ? [= ->] |]. intros m Hm'. exists s'. split; [done |].
    by eapply mstep_det.
  - split; [by intros ? [= -> _] |]. intros m Hm. by destruct (Hn m).
Qed.

Lemma update_refines_machine_witness :
  exists s', run_op (Stage 1 demo_candidate) demo_state = (UPDATE_OK, s')
             /\ m_phase (abs s') = Staged /\ m_other (abs s') = demo_candidate.
Proof.
  destruct (update_refines_machine demo_state (Stage 1 demo_candidate)) as [_ H].
  - apply demo_good.
  - apply demo_good.
  - split; [lia | apply demo_slot_typed; unfold is_byte; lia].
  - done.
  - edestruct H as (s' & E & Ha).
    + change 1 with (1 - 0) at 1. apply m_stage; try done. by left.
    + exists s'. rewrite Ha. done.
Defined.

(** Every history of calls keeps the journal valid and well typed, never
    moves the revision backwards or by more than one per call, and never gives
    one revision to two different states. *)
Theorem update_history_valid s os os' :
  update_state_valid s = true -> state_typed s -> Forall op_typed os -> Forall op_typed os' ->
  let s1 := run_ops os s in
  let s2 := run_ops os' s1 in
  update_state_valid s2 = true /\ state_typed s2
  /\ revision s1 <= revision s2 <= revision s1 + Z.of_nat (length os')
  /\ (revision s2 = revision s1 -> s2 = s1).
Proof.
  intros V T H1 H2. simpl. destruct (run_ops_step os s) as (G1 & _ & _); [done | done |].
  destruct (run_ops_step os' _ G1 H2) as ([V2 T2] & Hr & He). done.
Qed.

Lemma update_history_valid_witness :
  update_state_valid (run_ops [Boot; Confirm 1; Boot] (run_ops [BeginWrite 1; Stage 1 demo_candidate] demo_state))
  = true /\ active (run_ops [Boot; Confirm 1; Boot] (run_ops [BeginWrite 1; Stage 1 demo_candidate] demo_state)) = 1.
Proof.
  split; [| vm_compute; reflexivity].
  apply (update_history_valid demo_state [BeginWrite 1; Stage 1 demo_candidate]
           [Boot; Confirm 1; Boot]).
  - apply demo_good.
  - apply demo_good.
  - exact (Forall_take _ 2 _ demo_ops_typed).
  - exact (Forall_drop _ 2 _ demo_ops_typed).
Defined.

(** Until a confirmation, no history of calls changes which release is the
    confirmed one nor a byte of its slot description: beginning, staging,
    booting, rejecting and rolling back only ever touch the other slot. *)
Theorem confirmed_release_untouched s os :
  update_state_valid s = true -> state_typed s -> Forall op_typed os ->
  Forall (fun o => forall i, o <> Confirm i) os ->
  active (run_ops os s) = active s
  /\ slot_at (run_ops os s) (active s) = slot_at s (active s).
Proof.
  intros V T Ho Hn. assert (good s) as G by done. clear V T. revert s G.
  induction os as [| o os IH]; intros s G; [done |]. simpl.
  apply Forall_cons in Ho as [Ho Hos]. apply Forall_cons in Hn as [Hn Hns].
  destruct (run_op_step o s G Ho) as [G1 H1]. simpl in *.
  destruct (IH Hos Hns _ G1) as [E1 E2].
  destruct H1 as [E | [_ Hm]]; [by rewrite E in * |].
  apply mstep_confirmed in Hm as [Ea Er]; [| done]. simpl in *.
  rewrite Ea in *. split; [congruence |]. by rewrite E2.
Qed.

Lemma confirmed_release_untouched_witness :
  slot_at (run_ops [BeginWrite 1; Boot] demo_state) 0 = demo_slot 3 1.
Proof.
  apply (confirmed_release_untouched demo_state [BeginWrite 1; Boot]).
  - apply demo_good.
  - apply demo_good.
  - repeat constructor; simpl; lia.
  - repeat constructor; done.
Defined.

(** No downgrade: starting from a journal with no update in flight, a
    history without a deliberate rollback never lowers the release number of
    the confirmed release. *)
Theorem update_never_downgrades s os :
  update_state_valid s = true -> state_typed s -> phase_of s = Idle ->
  Forall op_typed os -> Forall (fun o => o <> Rollback) os ->
  release (slot_at s (active s)) <= release (slot_at (run_ops os s) (active (run_ops os s))).
Proof.
  intros V T Hph Ho Hn. assert (good s) as G by done. clear V T.
  assert (forward (abs s)) as F by (unfold forward; simpl; rewrite Hph; intros [? | ?]; done).
  clear Hph. revert s G F.
  induction os as [| o os IH]; intros s G F; [simpl; lia |]. simpl.
  apply Forall_cons in Ho as [Ho Hos]. apply Forall_cons in Hn as [Hn Hns].
  destruct (run_op_step o s G Ho) as [G1 H1]. simpl in *.
  destruct H1 as [E | [_ Hm]]; [rewrite E in *; by apply IH |].
  destruct (mstep_forward _ _ _ Hm Hn F) as [F' Hle]. simpl in Hle.
  specialize (IH Hos Hns _ G1 F'). lia.
Qed.

Lemma update_never_downgrades_witness :
  1 <= release (slot_at (run_ops [BeginWrite 1; Stage 1 demo_candidate; Boot; Confirm 1; Boot] demo_state) 1).
Proof.
  apply (update_never_downgrades demo_state
    [BeginWrite 1; Stage 1 demo_candidate; Boot; Confirm 1; Boot]).
  - apply demo_good.
  - apply demo_good.
  - done.
  - apply demo_ops_typed.
  - repeat constructor; done.
Defined.

(** The step the machine takes at a boot is determined by its phase. *)
Lemma boot_machine m m' :
  mstep m Boot m' ->
  m' = mkMachine (if decide (m_phase m = Staged) then Trying else Idle)
                 (m_active m) (m_run m) (m_other m) (m_back m).
Proof. intros H. inversion H; done. Qed.

Lemma boot_idle s :
  state_inv s -> phase_of s = Idle -> update_state_boot s = (UPDATE_OK, active s, false, s).
Proof.
  intros I P. pose proof (phase_cases s I) as H. rewrite P in H. destruct H as [H1 H2].
  unfold update_state_boot. eval_guards I. by rewrite (proj2 (Z.eqb_neq _ _) H1), H2.
Qed.

(** A staged release boots exactly once on trial.  The first boot starts
    the other slot; unless that boot is confirmed, the second returns to the
    confirmed release, records the failure, and later boots stay there without
    touching the journal.  If the trial is confirmed, it becomes the release
    every later boot starts. *)
Theorem update_trial_falls_back s :
  update_state_valid s = true -> state_typed s -> phase_of s = Staged ->
  revision s + 2 <= UINT64_MAX ->
  exists s1 s2 s3,
    update_state_boot s = (UPDATE_OK, 1 - active s, true, s1)
    /\ update_state_boot s1 = (UPDATE_OK, active s, true, s2)
    /\ last_error s2 = UPDATE_BOOT_FAILED
    /\ update_state_boot s2 = (UPDATE_OK, active s, false, s2)
    /\ update_state_confirm s1 (1 - active s) = (UPDATE_OK, s3)
    /\ update_state_boot s3 = (UPDATE_OK, 1 - active s, false, s3).
Proof.
  intros V T Hph Hrev. pose proof (valid_inv s T V) as I. pose proof (inv_active _ I) as A.
  destruct (boot_result s I T) as (s1 & ch1 & E1 & M1 & C1 & _ & K1); [lia |].
  rewrite Hph in E1, K1. destruct C1 as [[(I1 & T1 & R1) ->] | [-> ->]]; [| discriminate (proj1 K1 eq_refl)].
  apply boot_machine in M1. simpl in M1. rewrite Hph in M1. injection M1 as P1 A1 _ _ _.
  destruct (boot_result s1 I1 T1) as (s2 & ch2 & E2 & M2 & C2 & L2 & K2); [lia |].
  rewrite P1 in E2, K2, L2. destruct C2 as [[(I2 & T2 & R2) ->] | [-> ->]]; [| discriminate (proj1 K2 eq_refl)].
  apply boot_machine in M2. simpl in M2. rewrite P1 in M2. injection M2 as P2 A2 _ _ _.
  destruct (confirm_outcome s1 I1 T1 ltac:(lia) (1 - active s)) as [(s3 & E3 & M3 & C3) | (? & _ & _ & N)];
    [unfold is_slot in A; lia | |].
  2: { destruct (N (mkMachine Idle (1 - active s) (slot_at s1 (1 - active s1)) (slot_at s1 (active s1)) true)).
       unfold abs. rewrite P1, <- A1. apply m_confirm. }
  destruct C3 as [(I3 & T3 & R3) | [? _]]; [| done].
  assert (phase_of s3 = Idle /\ active s3 = 1 - active s) as [P3 A3].
  { inversion M3. split; congruence. }
  exists s1, s2, s3. simpl in E1, E2. rewrite A1 in E2. split_and!; try done.
  - by apply L2.
  - rewrite boot_idle by done. congruence.
  - rewrite boot_idle by done. congruence.
Qed.

Definition demo_staged : update_state := run_ops [Stage 1 demo_candidate] demo_state.

Lemma update_trial_falls_back_witness :
  exists s1 s2, update_state_boot demo_staged = (UPDATE_OK, 1, true, s1)
                /\ update_state_boot s1 = (UPDATE_OK, 0, true, s2).
Proof.
  destruct (run_ops_step [Stage 1 demo_candidate] demo_state demo_good) as ([V T] & _).
  { exact (Forall_take _ 1 _ (Forall_drop _ 1 _ demo_ops_typed)). }
  destruct (update_trial_falls_back demo_staged V T) as (s1 & s2 & _ & E1 & E2 & _).
  - vm_compute. reflexivity.
  - vm_compute. discriminate.
  - exists s1, s2. split; [exact E1 | exact E2].
Defined.
