(* ===== verification/UpdateRecord.v ===== *)
(** * The update journal record ([kernel/update/protocol.c])

    The 512-byte little-endian record and its checksum: encoding, decoding and
    the choice between the two copies.  Encoding and decoding are inverse, the
    CRC rejects every record with one damaged byte, and choosing survives a torn
    write. *)

From S2P Require Import Prelude Bytes Update.

(** ** The checksum and the record *)

Definition magic : list Z := [69; 77; 85; 80; 83; 84; 49; 0].   (* EMUPST1\0 *)

(** One of the eight shifts of [update_crc32]. *)
Definition crc_shift (crc : Z) : Z :=
  Z.lxor (Z.shiftr crc 1) (Z.land (!32 (0 - Z.land crc 1)) 0xedb88320).

Definition crc_byte (crc b : Z) : Z := Nat.iter 8 crc_shift (Z.lxor crc b).

Definition update_crc32 (data : list Z) (n : nat) : Z :=
  !32 (Z.lnot (fold_left crc_byte (take n data) (!32 (Z.lnot 0)))).

Definition put_slot (out : list Z) (p : Z) (slot : update_slot) : list Z :=
  let out := blit out p (root_guid slot) in
  let out := blit out (p + 16) (put_le 8 (release slot)) in
  let out := blit out (p + 24) (put_le 8 (root_bytes slot)) in
  let out := blit out (p + 32) (put_le 8 (efi_bytes slot)) in
  let out := blit out (p + 40) (version slot) in
  let out := blit out (p + 72) (efi_sha256 slot) in
  blit out (p + 104) (root_sha256 slot).

Definition encode_body (s : update_state) : list Z :=
  let out := replicate (Z.to_nat UPDATE_RECORD_BYTES) 0 in
  let out := blit out 0 magic in
  let out := blit out 8 (put_le 4 1) in
  let out := blit out 12 (put_le 4 UPDATE_RECORD_BYTES) in
  let out := blit out 16 (put_le 8 (revision s)) in
  let out := blit out 24 (put_le 4 (flags s)) in
  let out := blit out 28 [active s; pending s; previous s; attempts s] in
  let out := blit out 32 (data_guid s) in
  let out := blit out 48 (esp_guid s) in
  let out := put_slot out 64 (slot_0 s) in
  let out := put_slot out (64 + 136) (slot_1 s) in
  blit out 336 (put_le 4 (last_error s)).

(** [None] is [UPDATE_INVALID], which leaves the buffer untouched. *)
Definition update_state_encode (s : update_state) : option (list Z) :=
  if negb (update_state_valid s) then None
  else
    let out := encode_body s in
    Some (blit out 508 (put_le 4 (update_crc32 out 508))).

Definition get32 (p : list Z) (off : Z) : Z := get_le 4 (sub p off 4).
Definition get64 (p : list Z) (off : Z) : Z := get_le 8 (sub p off 8).

Definition get_slot (p : list Z) (q : Z) : update_slot :=
  mkSlot (sub p q 16) (get64 p (q + 16)) (get64 p (q + 24)) (get64 p (q + 32))
         (sub p (q + 40) 32) (sub p (q + 72) 32) (sub p (q + 104) 32).

Definition decode_body (p : list Z) : update_state :=
  mkState (get64 p 16) (get32 p 24) (rd p 28) (rd p 29) (rd p 30) (rd p 31)
          (sub p 32 16) (sub p 48 16) (get_slot p 64) (get_slot p (64 + 136)) (get32 p 336).

(** [None] is [UPDATE_INVALID], [Some s] is [UPDATE_OK] with [*out = s]. *)
Definition update_state_decode (p : list Z) : option update_state :=
  if negb (zlen p =? UPDATE_RECORD_BYTES) || negb (equal p magic 8)
     || negb (get32 p 8 =? 1) || negb (get32 p 12 =? UPDATE_RECORD_BYTES)
     || negb (get32 p 508 =? update_crc32 p 508) || nonzero (drop 340 p) 168
  then None
  else
    let s := decode_body p in
    if negb (update_state_valid s) then None else Some s.

(** The selected record (0 or 1) with its state, or [None]. *)
Definition update_state_choose (a b : list Z) : option (Z * update_state) :=
  match update_state_decode a, update_state_decode b with
  | None, None => None
  | Some x, Some y =>
      if (revision x =? revision y) && negb (equal a b (Z.to_nat UPDATE_RECORD_BYTES)) then None
      else if revision y <=? revision x then Some (0, x) else Some (1, y)
  | Some x, None => Some (0, x)
  | None, Some y => Some (1, y)
  end.

(** ** Layout *)

Definition slot_fields (c : update_slot) : list (list Z) :=
  [root_guid c; put_le 8 (release c); put_le 8 (root_bytes c); put_le 8 (efi_bytes c);
   version c; efi_sha256 c; root_sha256 c].

Definition body_fields (s : update_state) : list (list Z) :=
  [magic; put_le 4 1; put_le 4 UPDATE_RECORD_BYTES; put_le 8 (revision s); put_le 4 (flags s);
   [active s; pending s; previous s; attempts s]; data_guid s; esp_guid s]
  ++ slot_fields (slot_0 s) ++ slot_fields (slot_1 s) ++ [put_le 4 (last_error s)].

Definition record_fields (s : update_state) (crc : Z) : list (list Z) :=
  body_fields s ++ [replicate 168 0; put_le 4 crc].

Ltac zlen_solve := rewrite ?zlen_app, ?zlen_put_le, ?zlen_replicate, ?zlen_nil; try lia.

Section Layout.
Context (s : update_state) (T : state_typed s).

(** The widths of every field, as rewriting facts for [lia]. *)
Lemma field_widths :
  (zlen (data_guid s) = 16 /\ zlen (esp_guid s) = 16)
  /\ forall c, c = slot_0 s \/ c = slot_1 s ->
     zlen (root_guid c) = 16 /\ zlen (version c) = 32
     /\ zlen (efi_sha256 c) = 32 /\ zlen (root_sha256 c) = 32.
Proof using T.
  split; [split; apply T |].
  intros c [-> | ->]; [destruct (ty_slot_0 _ T) | destruct (ty_slot_1 _ T)];
    unfold bytes_of in *; tauto.
Qed.

Lemma put_slot_next pre n c p :
  slot_typed c -> zlen pre = p -> 136 <= n ->
  put_slot (pre ++ replicate (Z.to_nat n) 0) p c
  = (pre ++ concat (slot_fields c)) ++ replicate (Z.to_nat (n - 136)) 0.
Proof using.
  intros [[G _] _ _ _ [V _] [E _] [R _]] Hp Hn. unfold put_slot.
  rewrite (blit_next _ _ n _ 16) by (zlen_solve).
  rewrite (blit_next _ _ _ _ 8) by (zlen_solve).
  rewrite (blit_next _ _ _ _ 8) by (zlen_solve).
  rewrite (blit_next _ _ _ _ 8) by (zlen_solve).
  rewrite (blit_next _ _ _ _ 32) by (zlen_solve).
  rewrite (blit_next _ _ _ _ 32) by (zlen_solve).
  rewrite (blit_next _ _ _ _ 32) by (zlen_solve).
  unfold slot_fields. cbn [concat]. rewrite app_nil_r, <- !app_assoc.
  do 8 f_equal. f_equal. lia.
Qed.

Lemma slot_fields_width c : slot_typed c -> zlen (concat (slot_fields c)) = 136.
Proof using.
  intros [[G _] _ _ _ [V _] [E _] [R _]]. unfold slot_fields. cbn [concat]. zlen_solve.
Qed.

Lemma encode_body_fields :
  encode_body s = concat (body_fields s) ++ replicate 172 0.
Proof using T.
  pose proof (slot_fields_width _ (ty_slot_0 _ T)). pose proof (slot_fields_width _ (ty_slot_1 _ T)).
  destruct field_widths as [[Hd He] _]. unfold encode_body.
  assert (zlen magic = 8) as Hm by done.
  assert (forall a b c d, zlen [a; b; c; d] = 4) as H4 by done.
  pose proof (blit_next [] 0 512 magic 8) as E. rewrite !app_nil_l in E.
  change (Z.to_nat UPDATE_RECORD_BYTES) with (Z.to_nat 512). rewrite E by done. clear E.
  rewrite (blit_next _ 8 _ _ 4), (blit_next _ 12 _ _ 4), (blit_next _ 16 _ _ 8),
    (blit_next _ 24 _ _ 4), (blit_next _ 28 _ _ 4), (blit_next _ 32 _ _ 16),
    (blit_next _ 48 _ _ 16) by (zlen_solve; rewrite ?H4, ?Hm; lia || done).
  rewrite put_slot_next by (zlen_solve; rewrite ?H4, ?Hm; lia || apply T).
  rewrite put_slot_next by (zlen_solve; rewrite ?H4, ?Hm; lia || apply T).
  rewrite (blit_next _ 336 _ _ 4) by (zlen_solve; rewrite ?H4, ?Hm; lia).
  unfold body_fields. rewrite !concat_app. cbn [concat]. rewrite !app_nil_r, <- !app_assoc.
  reflexivity.
Qed.

Lemma body_fields_width : zlen (concat (body_fields s)) = 340.
Proof using T.
  pose proof (slot_fields_width _ (ty_slot_0 _ T)). pose proof (slot_fields_width _ (ty_slot_1 _ T)).
  destruct field_widths as [[Hd He] _].
  unfold body_fields. rewrite !concat_app. cbn [concat]. zlen_solve.
  change (zlen magic) with 8. change (zlen [active s; pending s; previous s; attempts s]) with 4. lia.
Qed.

Lemma record_bytes crc :
  blit (encode_body s) 508 (put_le 4 crc) = concat (record_fields s crc).
Proof using T.
  pose proof body_fields_width as W. rewrite encode_body_fields.
  change 172%nat with (168 + 4)%nat. rewrite replicate_add, app_assoc.
  change (replicate 4 0) with (replicate (Z.to_nat 4) 0).
  rewrite (blit_next _ 508 _ _ 4) by (zlen_solve; lia || done).
  unfold record_fields. rewrite concat_app. cbn [concat]. rewrite !app_nil_r, <- !app_assoc.
  reflexivity.
Qed.

Lemma encode_record :
  update_state_valid s = true ->
  update_state_encode s = Some (concat (record_fields s (update_crc32 (encode_body s) 508))).
Proof using T. intros V. unfold update_state_encode. rewrite V. simpl negb. by rewrite record_bytes. Qed.
End Layout.

(** ** Reading the fields back *)

Lemma equal_take a b n : equal a b n = equal (take n a) b n.
Proof. revert a b. induction n as [| n IH]; intros [| x a] [| y b]; simpl; try done. by rewrite IH. Qed.

Lemma nonzero_take a n : nonzero a n = nonzero (take n a) n.
Proof. revert a. induction n as [| n IH]; intros [| x a]; simpl; try done. by rewrite IH. Qed.

Lemma nonzero_false a n : zlen a = Z.of_nat n -> nonzero a n = false -> a = replicate n 0.
Proof.
  unfold zlen. intros Ha. assert (length a = n) as <- by lia. clear Ha.
  induction a as [| x a IH]; simpl; [done |]. intros H.
  destruct (Z.eqb_spec x 0) as [-> |]; simpl in H; [| done]. by rewrite <- IH.
Qed.

Lemma crc32_take a b n : take n a = take n b -> update_crc32 a n = update_crc32 b n.
Proof. unfold update_crc32. by intros ->. Qed.

Section Fields.
Context (s : update_state) (T : state_typed s) (crc : Z).
Let R := record_fields s crc.

(** The offset of field [k]: the widths before it add up. *)
Ltac offset :=
  unfold R, record_fields, body_fields, slot_fields; cbn [app take concat];
  pose proof (field_widths s T) as [[? ?] HW];
  pose proof (HW _ (or_introl eq_refl)) as (? & ? & ? & ?);
  pose proof (HW _ (or_intror eq_refl)) as (? & ? & ? & ?);
  repeat first [rewrite zlen_app | rewrite zlen_cons];
  change (zlen magic) with 8 in *;
  rewrite ?zlen_nil, ?zlen_put_le, ?zlen_replicate; lia || done.
Ltac field k := apply (sub_field _ k); [reflexivity | offset | offset].

Lemma field_magic : sub (concat R) 0 8 = magic.
Proof using T. field 0%nat. Qed.
Lemma field_ver : sub (concat R) 8 4 = put_le 4 1.
Proof using T. field 1%nat. Qed.
Lemma field_size : sub (concat R) 12 4 = put_le 4 UPDATE_RECORD_BYTES.
Proof using T. field 2%nat. Qed.
Lemma field_rev : sub (concat R) 16 8 = put_le 8 (revision s).
Proof using T. field 3%nat. Qed.
Lemma field_flags : sub (concat R) 24 4 = put_le 4 (flags s).
Proof using T. field 4%nat. Qed.
Lemma field_ctl : sub (concat R) 28 4 = [active s; pending s; previous s; attempts s].
Proof using T. field 5%nat. Qed.
Lemma field_data : sub (concat R) 32 16 = data_guid s.
Proof using T. field 6%nat. Qed.
Lemma field_esp : sub (concat R) 48 16 = esp_guid s.
Proof using T. field 7%nat. Qed.
Lemma field_error : sub (concat R) 336 4 = put_le 4 (last_error s).
Proof using T. field 22%nat. Qed.
Lemma field_zero : sub (concat R) 340 168 = replicate 168 0.
Proof using T. field 23%nat. Qed.
Lemma field_crc : sub (concat R) 508 4 = put_le 4 crc.
Proof using T. field 24%nat. Qed.

Lemma get64_field off v : sub (concat R) off 8 = put_le 8 v -> 0 <= v < 2 ^ 64 -> get64 (concat R) off = v.
Proof using. unfold get64. intros -> H. rewrite get_le_put_le. by apply Z.mod_small. Qed.
Lemma get32_field off v : sub (concat R) off 4 = put_le 4 v -> 0 <= v < 2 ^ 32 -> get32 (concat R) off = v.
Proof using. unfold get32. intros -> H. rewrite get_le_put_le. by apply Z.mod_small. Qed.

Lemma get_slot_0 : get_slot (concat R) 64 = slot_0 s.
Proof using T.
  destruct (ty_slot_0 _ T). unfold get_slot.
  rewrite (get64_field _ (release (slot_0 s))), (get64_field _ (root_bytes (slot_0 s))),
    (get64_field _ (efi_bytes (slot_0 s))); try done;
    [| field 11%nat | field 10%nat | field 9%nat].
  replace (sub _ 64 16) with (root_guid (slot_0 s)) by (symmetry; field 8%nat).
  replace (sub _ (64 + 40) 32) with (version (slot_0 s)) by (symmetry; field 12%nat).
  replace (sub _ (64 + 72) 32) with (efi_sha256 (slot_0 s)) by (symmetry; field 13%nat).
  replace (sub _ (64 + 104) 32) with (root_sha256 (slot_0 s)) by (symmetry; field 14%nat).
  by destruct (slot_0 s).
Qed.

Lemma get_slot_1 : get_slot (concat R) (64 + 136) = slot_1 s.
Proof using T.
  destruct (ty_slot_1 _ T). unfold get_slot.
  rewrite (get64_field _ (release (slot_1 s))), (get64_field _ (root_bytes (slot_1 s))),
    (get64_field _ (efi_bytes (slot_1 s))); try done;
    [| field 18%nat | field 17%nat | field 16%nat].
  replace (sub _ (64 + 136) 16) with (root_guid (slot_1 s)) by (symmetry; field 15%nat).
  replace (sub _ (64 + 136 + 40) 32) with (version (slot_1 s)) by (symmetry; field 19%nat).
  replace (sub _ (64 + 136 + 72) 32) with (efi_sha256 (slot_1 s)) by (symmetry; field 20%nat).
  replace (sub _ (64 + 136 + 104) 32) with (root_sha256 (slot_1 s)) by (symmetry; field 21%nat).
  by destruct (slot_1 s).
Qed.

Lemma decode_body_fields : decode_body (concat R) = s.
Proof using T.
  unfold decode_body. rewrite get_slot_0, get_slot_1.
  rewrite (get64_field _ _ field_rev), (get32_field _ _ field_flags),
    (get32_field _ _ field_error), field_data, field_esp by apply T.
  pose proof (fun i => rd_sub (concat R) 28 4 i ltac:(lia)) as H. rewrite field_ctl in H.
  assert (rd (concat R) 28 = active s) as -> by exact (eq_sym (H 0 ltac:(lia))).
  assert (rd (concat R) 29 = pending s) as -> by exact (eq_sym (H 1 ltac:(lia))).
  assert (rd (concat R) 30 = previous s) as -> by exact (eq_sym (H 2 ltac:(lia))).
  assert (rd (concat R) 31 = attempts s) as -> by exact (eq_sym (H 3 ltac:(lia))).
  by destruct s.
Qed.

Lemma record_width : zlen (concat R) = 512.
Proof using T.
  unfold R, record_fields. rewrite concat_app, zlen_app, body_fields_width by done.
  cbn [concat]. by zlen_solve.
Qed.

Lemma record_prefix : take 508 (concat R) = take 508 (encode_body s).
Proof using T.
  pose proof (body_fields_width s T) as W. rewrite encode_body_fields by done.
  unfold R, record_fields. rewrite concat_app. cbn [concat]. rewrite app_nil_r.
  change (replicate 172 0) with (replicate (168 + 4) 0). rewrite replicate_add, !app_assoc.
  assert (length (concat (body_fields s) ++ replicate 168 0) = 508%nat) as L.
  { rewrite length_app, length_replicate. unfold zlen in W. lia. }
  by rewrite !take_app_length'.
Qed.
End Fields.

Lemma encode_decodes s :
  update_state_valid s = true -> state_typed s ->
  exists p, update_state_encode s = Some p /\ zlen p = UPDATE_RECORD_BYTES
            /\ update_state_decode p = Some s.
Proof.
  intros V T. rewrite encode_record by done. eexists. split; [done |].
  set (crc := update_crc32 (encode_body s) 508). split; [by apply record_width |].
  unfold update_state_decode.
  rewrite record_width, (decode_body_fields s T), V by done. simpl negb at 1.
  rewrite equal_take, <- (sub_0 _ 8), field_magic by done.
  rewrite (get32_field s crc _ _ (field_ver s T crc)) by done.
  rewrite (get32_field s crc _ _ (field_size s T crc)) by done.
  rewrite (get32_field s crc _ _ (field_crc s T crc)) by apply u32_range.
  rewrite (crc32_take _ (encode_body s)) by (by apply record_prefix). fold crc.
  rewrite nonzero_take. change (take 168 (drop 340 _)) with (sub (concat (record_fields s crc)) 340 168).
  rewrite field_zero by done. by rewrite !Z.eqb_refl.
Qed.

(** Encoding then decoding gives the state back: every valid journal state
    survives its 512-byte record. *)
Theorem update_decode_encode s :
  update_state_valid s = true -> state_typed s ->
  exists p, update_state_encode s = Some p /\ zlen p = UPDATE_RECORD_BYTES
            /\ update_state_decode p = Some s.
Proof. apply encode_decodes. Qed.

Lemma update_decode_encode_witness :
  exists p, update_state_encode demo_state = Some p /\ update_state_decode p = Some demo_state.
Proof.
  destruct (update_decode_encode demo_state) as (p & E & _ & D).
  - apply demo_good.
  - apply demo_good.
  - exists p. split; [exact E | exact D].
Defined.

(** ** Accepted records are canonical *)

Section Accepted.
Context (p : list Z) (L : zlen p = 512) (B : Forall is_byte p).

Lemma put_get64 o : 0 <= o <= 504 -> put_le 8 (get64 p o) = sub p o 8.
Proof using L B. intros. apply put_get_le; [rewrite sub_length; lia | by apply sub_bytes]. Qed.
Lemma put_get32 o : 0 <= o <= 508 -> put_le 4 (get32 p o) = sub p o 4.
Proof using L B. intros. apply put_get_le; [rewrite sub_length; lia | by apply sub_bytes]. Qed.
Lemma get64_range o : 0 <= get64 p o < 2 ^ 64.
Proof using B. apply (get_le_range 8). intros. by apply rd_byte, sub_bytes. Qed.
Lemma get32_range o : 0 <= get32 p o < 2 ^ 32.
Proof using B. apply (get_le_range 4). intros. by apply rd_byte, sub_bytes. Qed.
Lemma bytes_of_sub o n : 0 <= o -> 0 <= n -> o + n <= 512 -> bytes_of n (sub p o n).
Proof using L B. intros. split; [rewrite sub_length; lia | by apply sub_bytes]. Qed.

Lemma get_slot_typed q : 0 <= q <= 376 -> slot_typed (get_slot p q).
Proof using L B. intros. constructor; simpl; (apply get64_range || apply bytes_of_sub; lia). Qed.

Lemma decode_body_typed : state_typed (decode_body p).
Proof using L B.
  constructor; cbn [revision flags active pending previous attempts data_guid esp_guid slot_0
    slot_1 last_error decode_body].
  - apply get64_range.
  - apply get32_range.
  - by apply rd_byte.
  - by apply rd_byte.
  - by apply rd_byte.
  - by apply rd_byte.
  - by apply bytes_of_sub.
  - by apply bytes_of_sub.
  - by apply get_slot_typed.
  - by apply get_slot_typed.
  - apply get32_range.
Qed.

(** Consecutive reads are one read. *)
Lemma sub_join o n m k : 0 <= o -> 0 <= n -> 0 <= m -> k = o + n ->
  sub p o n ++ sub p k m = sub p o (n + m).
Proof using. intros. subst. by rewrite sub_split. Qed.

Lemma get_slot_fields q : 0 <= q <= 376 -> concat (slot_fields (get_slot p q)) = sub p q 136.
Proof using L B.
  intros. unfold slot_fields, get_slot. cbn [concat root_guid release root_bytes
    efi_bytes version efi_sha256 root_sha256]. rewrite app_nil_r, !put_get64 by lia.
  by rewrite !sub_join by lia.
Qed.

Lemma ctl_bytes : [rd p 28; rd p 29; rd p 30; rd p 31] = sub p 28 4.
Proof using L.
  apply list_eq. intros i. rewrite sub_lookup.
  change (Z.to_nat 28) with 28%nat. change (Z.to_nat 4) with 4%nat.
  unfold zlen in L. destruct i as [| [| [| [| i]]]]; simpl; symmetry.
  - apply (rd_lookup p 28). lia.
  - apply (rd_lookup p 29). lia.
  - apply (rd_lookup p 30). lia.
  - apply (rd_lookup p 31). lia.
  - done.
Qed.

Lemma record_of_decoded :
  sub p 0 8 = magic -> get32 p 8 = 1 -> get32 p 12 = UPDATE_RECORD_BYTES ->
  sub p 340 168 = replicate 168 0 ->
  concat (record_fields (decode_body p) (get32 p 508)) = p.
Proof using L B.
  intros Hm Hv Hs Hz. unfold record_fields, body_fields. rewrite !concat_app.
  unfold decode_body. cbn [revision flags active pending previous attempts data_guid esp_guid
    slot_0 slot_1 last_error]. rewrite !get_slot_fields by lia. cbn [concat].
  rewrite ctl_bytes, <- Hm, <- Hs, <- Hz, <- Hv. rewrite !put_get32, !put_get64 by lia.
  rewrite !app_nil_r, <- !app_assoc. rewrite !sub_join by lia.
  rewrite <- (sub_all p) at 2. f_equal. by rewrite L.
Qed.
End Accepted.

(** What the decoder checked. *)
Lemma decode_some p s :
  Forall is_byte p -> update_state_decode p = Some s ->
  zlen p = 512 /\ sub p 0 8 = magic /\ get32 p 8 = 1 /\ get32 p 12 = UPDATE_RECORD_BYTES
  /\ get32 p 508 = update_crc32 p 508 /\ sub p 340 168 = replicate 168 0
  /\ s = decode_body p /\ update_state_valid s = true.
Proof.
  intros B H. unfold update_state_decode in H. case_if_in H; [done |].
  case_if_in H; [done |]. injection H as <-. unfold UPDATE_RECORD_BYTES in *.
  rewrite equal_take, <- (sub_0 _ 8) in H5. rewrite nonzero_take in H1.
  change (take 168 (drop 340 p)) with (sub p 340 168) in H1.
  split_and!; try done.
  - apply (equal_iff _ _ 8); [rewrite sub_length; lia | done | done].
  - apply nonzero_false; [rewrite sub_length; lia | done].
Qed.

(** The decoder accepts only canonical records: the bytes of an accepted
    record are exactly the encoding of the state it returns, which is valid and
    has the widths of the C structure. *)
Theorem update_encode_decode p s :
  Forall is_byte p -> update_state_decode p = Some s ->
  update_state_encode s = Some p /\ state_typed s.
Proof.
  intros B H. destruct (decode_some p s B H) as (L & Hm & Hv & Hs & Hc & Hz & -> & V).
  pose proof (decode_body_typed p L B) as T. split; [| done].
  pose proof (record_of_decoded p L B Hm Hv Hs Hz) as E.
  rewrite encode_record by done.
  rewrite (crc32_take _ p), <- Hc, E; [done |]. rewrite <- E at 2. symmetry. by apply record_prefix.
Qed.

Definition demo_record : list Z := default [] (update_state_encode demo_state).

Lemma demo_record_bytes : Forall is_byte demo_record.
Proof.
  assert (forallb (fun b => (0 <=? b) && (b <? 256)) demo_record = true) as H by (vm_compute; reflexivity).
  apply Forall_forall. intros b Hb. rewrite forallb_forall in H.
  specialize (H b ltac:(by apply list_elem_of_In)). unfold is_byte. b2p. lia.
Qed.

Lemma update_encode_decode_witness : update_state_encode demo_state = Some demo_record.
Proof.
  apply (update_encode_decode demo_record demo_state).
  - apply demo_record_bytes.
  - vm_compute. reflexivity.
Defined.

(** ** The CRC *)

Lemma crc_shift_eq c :
  crc_shift c = Z.lxor (Z.shiftr c 1) (if Z.odd c then 0xedb88320 else 0).
Proof.
  unfold crc_shift. change 1 with (2 ^ 1 - 1) at 2. rewrite land_ones_mod by lia.
  change (2 ^ 1) with 2. rewrite Zmod_odd. by destruct (Z.odd c).
Qed.

Definition word (c : Z) : Prop := 0 <= c < 2 ^ 32.

Lemma shiftr_word c : word c -> 0 <= Z.shiftr c 1 < 2 ^ 31.
Proof. unfold word. intros. rewrite Z.shiftr_div_pow2 by lia. change (2 ^ 1) with 2.
  pose proof (Z.div_mod c 2). pose proof (Z.mod_pos_bound c 2). lia. Qed.

Lemma crc_shift_word c : word c -> word (crc_shift c).
Proof.
  intros Hc. pose proof (shiftr_word c Hc). rewrite crc_shift_eq.
  apply lxor_bounded; [lia | lia | destruct (Z.odd c); lia].
Qed.

(** The bit shifted out decides bit 31 of the result, so nothing is lost. *)
Lemma crc_shift_inj a b : word a -> word b -> crc_shift a = crc_shift b -> a = b.
Proof.
  intros Ha Hb. rewrite !crc_shift_eq. intros E.
  pose proof (shiftr_word a Ha) as Ra. pose proof (shiftr_word b Hb) as Rb.
  assert (Z.odd a = Z.odd b) as Eo.
  { apply (f_equal (fun z => Z.testbit z 31)) in E. rewrite !Z.lxor_spec in E.
    rewrite (bounded_high 31 (Z.shiftr a 1)), (bounded_high 31 (Z.shiftr b 1)) in E by lia.
    destruct (Z.odd a), (Z.odd b); done || (vm_compute in E; discriminate E). }
  rewrite Eo in E. apply lxor_inj_r in E. rewrite !Z.shiftr_div_pow2 in E by lia.
  change (2 ^ 1) with 2 in E.
  rewrite (Zdiv.Z_div_mod_eq_full a 2), (Zdiv.Z_div_mod_eq_full b 2), !Zmod_odd, Eo, E. done.
Qed.

Lemma crc_shifts_word n c : word c -> word (Nat.iter n crc_shift c).
Proof. intros Hc. induction n; simpl; [done | by apply crc_shift_word]. Qed.

Lemma crc_shifts_inj n a b :
  word a -> word b -> Nat.iter n crc_shift a = Nat.iter n crc_shift b -> a = b.
Proof.
  intros Ha Hb. induction n as [| n IH]; simpl; [done |]. intros E.
  apply IH, crc_shift_inj; auto using crc_shifts_word.
Qed.

Lemma lxor_word c b : word c -> is_byte b -> word (Z.lxor c b).
Proof. intros Hc Hb. apply lxor_bounded; unfold word, is_byte in *; lia. Qed.

Lemma crc_byte_word c b : word c -> is_byte b -> word (crc_byte c b).
Proof. intros Hc Hb. exact (crc_shifts_word 8 _ (lxor_word c b Hc Hb)). Qed.

Lemma crc_byte_inj c c' b b' :
  word c -> word c' -> is_byte b -> is_byte b' ->
  crc_byte c b = crc_byte c' b' -> Z.lxor c b = Z.lxor c' b'.
Proof.
  intros Hc Hc' Hb Hb'.
  exact (crc_shifts_inj 8 _ _ (lxor_word c b Hc Hb) (lxor_word c' b' Hc' Hb')).
Qed.

Lemma fold_left_cons {A B} (f : A -> B -> A) b l a :
  fold_left f (b :: l) a = fold_left f l (f a b).
Proof. done. Qed.

Lemma crc_fold_word l c : word c -> Forall is_byte l -> word (fold_left crc_byte l c).
Proof.
  intros Hc Hl. revert c Hc. induction Hl as [| b l Hb Hl IH]; intros c Hc; [done |].
  rewrite fold_left_cons. exact (IH _ (crc_byte_word c b Hc Hb)).
Qed.

Lemma crc_fold_inj l c c' :
  word c -> word c' -> Forall is_byte l ->
  fold_left crc_byte l c = fold_left crc_byte l c' -> c = c'.
Proof.
  intros Hc Hc' Hl. revert c c' Hc Hc'. induction Hl as [| b l Hb Hl IH]; intros c c' Hc Hc' E; [done |].
  rewrite !fold_left_cons in E.
  pose proof (IH _ _ (crc_byte_word c b Hc Hb) (crc_byte_word c' b Hc' Hb) E) as E'.
  exact (lxor_inj_r b c c' (crc_byte_inj c c' b b Hc Hc' Hb Hb E')).
Qed.

Lemma lnot_word a : word a -> !32 (Z.lnot a) = 2 ^ 32 - 1 - a.
Proof.
  unfold word. intros. unfold u32. replace (Z.lnot a) with (2 ^ 32 - 1 - a + (-1) * 2 ^ 32).
  - rewrite Z.mod_add by lia. apply Z.mod_small. lia.
  - unfold Z.lnot. lia.
Qed.

(** Two buffers that differ in one byte below [n] have different CRCs. *)
Lemma crc32_differs pre post x y n :
  Forall is_byte pre -> Forall is_byte post -> is_byte x -> is_byte y -> x <> y ->
  (length pre < n)%nat ->
  update_crc32 (pre ++ x :: post) n <> update_crc32 (pre ++ y :: post) n.
Proof.
  intros Hpre Hpost Hx Hy Hne Hn E. apply Hne. unfold update_crc32 in E.
  destruct (n - length pre)%nat as [| m] eqn:Em; [lia |].
  rewrite !take_app, !Em in E. cbn [take] in E. rewrite !(take_ge pre) in E by lia.
  rewrite !fold_left_app, !fold_left_cons in E.
  set (c := fold_left crc_byte pre _) in E.
  assert (word c) as Hc by (apply crc_fold_word; [vm_compute; done | done]).
  pose proof (crc_byte_word c x Hc Hx) as Wx. pose proof (crc_byte_word c y Hc Hy) as Wy.
  pose proof (Forall_take _ m _ Hpost) as Hp.
  rewrite !lnot_word in E by (by apply crc_fold_word).
  assert (fold_left crc_byte (take m post) (crc_byte c x)
          = fold_left crc_byte (take m post) (crc_byte c y)) as E' by lia.
  pose proof (crc_fold_inj _ _ _ Wx Wy Hp E') as E''.
  exact (lxor_inj_l c x y (crc_byte_inj c c x y Hc Hc Hx Hy E'')).
Qed.

(** C32. A record with exactly one damaged byte, wherever it is, is rejected. *)
Theorem update_decode_detects_damage p s i x :
  Forall is_byte p -> update_state_decode p = Some s ->
  is_byte x -> (i < 512)%nat -> p !! i <> Some x ->
  update_state_decode (<[i := x]> p) = None.
Proof.
  intros B D Hx Hi Hne. destruct (decode_some p s B D) as (L & _ & _ & _ & Hc & _).
  set (p' := <[i := x]> p). assert (Forall is_byte p') as B' by (by apply Forall_insert).
  destruct (update_state_decode p') as [s' |] eqn:D'; [exfalso | done].
  destruct (decode_some p' s' B' D') as (L' & _ & _ & _ & Hc' & _). unfold zlen in *.
  destruct (lookup_lt_is_Some_2 p i) as [y Hy]; [lia |].
  destruct (decide (i < 508)%nat) as [Hlt | Hge].
  - assert (get32 p' 508 = get32 p 508) as E.
    { unfold get32. f_equal. apply list_eq. intros j. rewrite !sub_lookup.
      case_if; [| done]. apply list_lookup_insert_ne. change (Z.to_nat 508) with 508%nat. lia. }
    rewrite Hc, Hc' in E. revert E. unfold p'. rewrite insert_take_drop by lia.
    rewrite <- (take_drop_middle p i y Hy) at 3.
    pose proof (Forall_lookup_1 _ _ _ _ B Hy) as Hyb.
    apply crc32_differs; auto using Forall_take, Forall_drop; [congruence |].
    rewrite length_take. lia.
  - assert (get32 p' 508 = get32 p 508) as E.
    { rewrite Hc, Hc'. apply crc32_take. unfold p'. apply take_insert_ge. lia. }
    apply (f_equal (put_le 4)) in E. rewrite !put_get32 in E by (done || (unfold zlen; lia)).
    apply (f_equal (lookup (i - 508)%nat)) in E. rewrite !sub_lookup in E.
    change (Z.to_nat 508) with 508%nat in E. change (Z.to_nat 4) with 4%nat in E.
    replace (508 + (i - 508))%nat with i in E by lia.
    destruct (Nat.ltb_spec (i - 508) 4); [| lia].
    unfold p' in E. rewrite list_lookup_insert_eq in E by lia. congruence.
Qed.

Lemma update_decode_detects_damage_witness :
  update_state_decode (<[28%nat := 1]> demo_record) = None
  /\ update_state_decode (<[511%nat := 7]> demo_record) = None.
Proof.
  assert (update_state_decode demo_record = Some demo_state) as D by (vm_compute; reflexivity).
  split.
  - apply (update_decode_detects_damage demo_record demo_state 28 1 demo_record_bytes D).
    + unfold is_byte. lia.
    + lia.
    + vm_compute. discriminate.
  - apply (update_decode_detects_damage demo_record demo_state 511 7 demo_record_bytes D).
    + unfold is_byte. lia.
    + lia.
    + vm_compute. discriminate.
Defined.

(** ** Choosing between the two copies *)

Lemma equal_refl a n : (n <= length a)%nat -> equal a a n = true.
Proof.
  revert n. induction a as [| x a IH]; intros [| n] H; simpl in *; try done; [lia |].
  rewrite Z.eqb_refl. apply IH. lia.
Qed.

(** C7. Committing a call is atomic under power loss.  The state after any call
    is written to one of the two copies while the other still holds the state
    before it; whichever copy it is, the boot chooses the new state when the
    write completed and the old one when the written copy does not decode. *)
Theorem update_commit_atomic s o :
  update_state_valid s = true -> state_typed s -> op_typed o ->
  let s' := snd (run_op o s) in
  exists a b, update_state_encode s = Some a /\ update_state_encode s' = Some b
    /\ option_map snd (update_state_choose a b) = Some s'
    /\ option_map snd (update_state_choose b a) = Some s'
    /\ forall torn, update_state_decode torn = None ->
         update_state_choose a torn = Some (0, s) /\ update_state_choose torn a = Some (1, s).
Proof.
  intros V T Ho. simpl. destruct (run_op_step o s (conj V T) Ho) as [[V' T'] Hs]. simpl in *.
  destruct (encode_decodes s V T) as (a & Ea & La & Da).
  destruct (encode_decodes _ V' T') as (b & Eb & Lb & Db).
  exists a, b. split; [done |]. split; [done |].
  unfold update_state_choose. rewrite Da, Db.
  split; [| split; [| by intros torn ->]].
  - destruct Hs as [E | [E _]].
    + rewrite E in *. assert (a = b) as <- by congruence. rewrite Z.eqb_refl, equal_refl by (unfold zlen in *; lia).
      simpl. by rewrite Z.leb_refl.
    + destruct (Z.eqb_spec (revision s) (revision (snd (run_op o s)))); [lia |]. simpl.
      destruct (Z.leb_spec (revision (snd (run_op o s))) (revision s)); [lia | done].
  - destruct Hs as [E | [E _]].
    + rewrite E in *. assert (a = b) as <- by congruence. rewrite Z.eqb_refl, equal_refl by (unfold zlen in *; lia).
      simpl. by rewrite Z.leb_refl.
    + destruct (Z.eqb_spec (revision (snd (run_op o s))) (revision s)); [lia |]. simpl.
      destruct (Z.leb_spec (revision s) (revision (snd (run_op o s)))); [done | lia].
Qed.

Lemma update_commit_atomic_witness :
  exists a b, update_state_encode demo_state = Some a
    /\ option_map snd (update_state_choose a b) = Some (snd (run_op (BeginWrite 1) demo_state)).
Proof.
  destruct (update_commit_atomic demo_state (BeginWrite 1)) as (a & b & E & _ & C & _).
  - apply demo_good.
  - apply demo_good.
  - simpl. lia.
  - exists a, b. split; [exact E | exact C].
Defined.
