(* ===== verification/WaitQueue.v ===== *)
(** * Wait queues, timed sleep and cancellation ([kernel/process/process.c])

    Threads, the intrusive wait queues they block on, the timed-sleep queue and
    the cancellation of a process.  Every operation runs under the scheduler
    lock, so it is one step on the [world].  A thread is its index, a wait
    queue its address; [wait_next] is the order of the queue's list. *)

From S2P Require Import Prelude.

(** ** Data *)

Definition tid := Z.
Definition wqid := Z.

Inductive process_state :=
  | PROCESS_UNUSED | PROCESS_READY | PROCESS_RUNNING | PROCESS_BLOCKED | PROCESS_ZOMBIE.

#[export] Instance process_state_eq_dec : EqDecision process_state.
Proof. solve_decision. Defined.

Record thread := mkThread {
  t_state : process_state;
  running_cpu : Z;
  wait_queue : option wqid;
  wake_at_ms : Z;
  period_ms : Z;
  futex_key : Z;
  t_proc : Z;
}.

Record process := mkProcess {
  cancelled : bool;
  live_thread_count : Z;
  thread_list : list tid;
}.

Record world := mkWorld {
  threads : gmap tid thread;
  queues : gmap wqid (list tid);
  procs : gmap Z process;
}.

Definition unused_thread : thread := mkThread PROCESS_UNUSED (-1) None 0 0 0 0.

Definition thr (w : world) (t : tid) : thread := default unused_thread (threads w !! t).
Definition queue (w : world) (q : wqid) : list tid := default [] (queues w !! q).

Definition upd (t : tid) (f : thread -> thread) (w : world) : world :=
  mkWorld (<[t := f (thr w t)]> (threads w)) (queues w) (procs w).
Definition set_queue (q : wqid) (l : list tid) (w : world) : world :=
  mkWorld (threads w) (<[q := l]> (queues w)) (procs w).

Definition with_state (s : process_state) (th : thread) : thread :=
  mkThread s (running_cpu th) (wait_queue th) (wake_at_ms th) (period_ms th) (futex_key th) (t_proc th).
Definition with_cpu (c : Z) (th : thread) : thread :=
  mkThread (t_state th) c (wait_queue th) (wake_at_ms th) (period_ms th) (futex_key th) (t_proc th).
Definition with_wait (q : option wqid) (th : thread) : thread :=
  mkThread (t_state th) (running_cpu th) q (wake_at_ms th) (period_ms th) (futex_key th) (t_proc th).
Definition with_wake_at (ms : Z) (th : thread) : thread :=
  mkThread (t_state th) (running_cpu th) (wait_queue th) ms (period_ms th) (futex_key th) (t_proc th).
Definition with_key (k : Z) (th : thread) : thread :=
  mkThread (t_state th) (running_cpu th) (wait_queue th) (wake_at_ms th) (period_ms th) k (t_proc th).

(** ** Operations *)

(** The policy hooks these two also call are modelled with the policies. *)
Definition sched_set_ready (t : tid) (w : world) : world := upd t (with_state PROCESS_READY) w.
Definition sched_set_blocked (t : tid) (w : world) : world := upd t (with_state PROCESS_BLOCKED) w.

Definition wait_queue_block (wq : wqid) (t : tid) (w : world) : world :=
  let w := sched_set_blocked t w in
  let w := upd t (with_cpu (-1)) w in
  if decide (wait_queue (thr w t) = Some wq) then w
  else
    let w := upd t (with_wait (Some wq)) w in
    set_queue wq (t :: queue w wq) w.

(** The walk over [wait_next]; [None] when [t] is not linked. *)
Fixpoint unlink (t : tid) (l : list tid) : option (list tid) :=
  match l with
  | [] => None
  | x :: l => if x =? t then Some l else cons x <$> unlink t l
  end.

Definition wait_queue_remove (wq : wqid) (t : tid) (w : world) : world :=
  match unlink t (queue w wq) with
  | None => w
  | Some l => upd t (with_wait None) (set_queue wq l w)
  end.

Definition wait_queue_wake_one (wq : wqid) (w : world) : world :=
  match queue w wq with
  | [] => w
  | t :: _ => sched_set_ready t (wait_queue_remove wq t w)
  end.

Fixpoint wake_all_loop (fuel : nat) (wq : wqid) (w : world) : world :=
  match fuel with
  | O => w
  | S fuel =>
      match queue w wq with
      | [] => w
      | _ :: _ => wake_all_loop fuel wq (wait_queue_wake_one wq w)
      end
  end.

Definition wait_queue_wake_all (wq : wqid) (w : world) : world :=
  wake_all_loop (length (queue w wq)) wq w.

(** The body of the walk in [wake_expired_locked]: the drained queue, whether
    a thread woke, and the two cached deadlines. *)
Record drain := mkDrain { d_world : world; d_woke : bool; d_earliest : Z; d_earliest_p : Z }.

Definition drain_one (sleep_wq : wqid) (now : Z) (d : drain) (t : tid) : drain :=
  let w := d_world d in
  let th := thr w t in
  if negb (wake_at_ms th =? 0) && (wake_at_ms th <=? now) then
    let w := wait_queue_remove sleep_wq t w in
    let w := upd t (with_wake_at 0) w in
    mkDrain (sched_set_ready t w) true (d_earliest d) (d_earliest_p d)
  else if negb (wake_at_ms th =? 0) then
    mkDrain w (d_woke d)
      (if (d_earliest d =? 0) || (wake_at_ms th <? d_earliest d) then wake_at_ms th else d_earliest d)
      (if negb (period_ms th =? 0)
          && ((d_earliest_p d =? 0) || (wake_at_ms th <? d_earliest_p d))
       then wake_at_ms th else d_earliest_p d)
  else d.

Definition wake_expired_locked (sleep_wq : wqid) (now : Z) (w : world) (e ep : Z) : drain :=
  match queue w sleep_wq with
  | [] => mkDrain w false e ep
  | _ :: _ => fold_left (drain_one sleep_wq now) (queue w sleep_wq) (mkDrain w false 0 0)
  end.

Definition cancel_thread (w : world) (t : tid) : world :=
  if decide (t_state (thr w t) = PROCESS_BLOCKED) then
    match wait_queue (thr w t) with
    | Some q => sched_set_ready t (wait_queue_remove q t w)
    | None => w
    end
  else w.

Definition process_cancel_locked (pid : Z) (w : world) : Z * world :=
  match procs w !! pid with
  | None => (- Errno.EMBK_EINVAL, w)
  | Some p =>
      if live_thread_count p =? 0 then (Errno.EMBK_OK, w)
      else
        let w := mkWorld (threads w) (queues w)
                   (<[pid := mkProcess true (live_thread_count p) (thread_list p)]> (procs w)) in
        (Errno.EMBK_OK, fold_left cancel_thread (thread_list p) w)
  end.

(** ** Reading the world *)

Lemma thr_upd t f w u : thr (upd t f w) u = if decide (u = t) then f (thr w t) else thr w u.
Proof.
  unfold thr at 1. simpl. destruct (decide (u = t)) as [-> |].
  - by rewrite lookup_insert_eq.
  - by rewrite lookup_insert_ne.
Qed.
Lemma queue_upd t f w q : queue (upd t f w) q = queue w q.
Proof. done. Qed.
Lemma thr_set_queue q l w t : thr (set_queue q l w) t = thr w t.
Proof. done. Qed.
Lemma queue_set_queue q l w r : queue (set_queue q l w) r = if decide (r = q) then l else queue w r.
Proof.
  unfold queue at 1. simpl. destruct (decide (r = q)) as [-> |].
  - by rewrite lookup_insert_eq.
  - by rewrite lookup_insert_ne.
Qed.

#[export] Hint Rewrite thr_upd queue_upd thr_set_queue queue_set_queue : embk.

(** ** The invariant: a thread is on the queue it points at, once, and blocked *)

Record wq_inv (w : world) : Prop := {
  wi_nodup : forall q, NoDup (queue w q);
  wi_link : forall q t, t ∈ queue w q <-> wait_queue (thr w t) = Some q;
  wi_blocked : forall q t, t ∈ queue w q -> t_state (thr w t) = PROCESS_BLOCKED;
}.

Lemma unlink_spec t l :
  NoDup l -> t ∈ l -> unlink t l = Some (filter (fun x => x <> t) l).
Proof.
  induction l as [| x l IH]; intros Hd Hin; [by apply not_elem_of_nil in Hin |].
  apply NoDup_cons in Hd as [Hx Hd]. simpl. destruct (Z.eqb_spec x t) as [-> | Hne].
  - rewrite filter_cons_False by (intros H; by apply H). f_equal. symmetry.
    apply filter_all. apply Forall_forall. intros y Hy ->. done.
  - apply elem_of_cons in Hin as [-> | Hin]; [done |]. rewrite IH by done. simpl.
    by rewrite filter_cons_True.
Qed.

Lemma unlink_none t l : t ∉ l -> unlink t l = None.
Proof.
  induction l as [| x l IH]; intros Hn; [done |]. apply not_elem_of_cons in Hn as [Hx Hl].
  simpl. destruct (Z.eqb_spec x t); [congruence |]. by rewrite IH.
Qed.

(** A wake: [t] leaves [q] and becomes ready; nothing else moves. *)
Definition woken (q : wqid) (t : tid) (w w' : world) : Prop :=
  (forall r, queue w' r = if decide (r = q) then filter (fun x => x <> t) (queue w q) else queue w r)
  /\ (forall u, thr w' u = if decide (u = t) then with_state PROCESS_READY (with_wait None (thr w t))
                           else thr w u)
  /\ procs w' = procs w.

Lemma remove_ready q t w :
  wq_inv w -> t ∈ queue w q -> woken q t w (sched_set_ready t (wait_queue_remove q t w)).
Proof.
  intros I Hin. unfold wait_queue_remove. rewrite (unlink_spec t _ (wi_nodup _ I q) Hin).
  split_and!; [| | done].
  - intros r. unfold sched_set_ready. autorewrite with embk. done.
  - intros u. unfold sched_set_ready. autorewrite with embk.
    destruct (decide (u = t)); [| done]. by destruct (decide (t = t)).
Qed.

Lemma woken_inv q t w w' : wq_inv w -> t ∈ queue w q -> woken q t w w' -> wq_inv w'.
Proof.
  intros I Hin (Hq & Ht & _). constructor.
  - intros r. rewrite Hq. destruct (decide (r = q)); [apply NoDup_filter |]; apply I.
  - intros r u. rewrite Hq, Ht. destruct (decide (r = q)) as [-> |], (decide (u = t)) as [-> |]; simpl.
    + rewrite list_elem_of_filter. split; [by intros [? _] | done].
    + rewrite list_elem_of_filter. rewrite (wi_link _ I). tauto.
    + rewrite (wi_link _ I). pose proof (proj1 (wi_link _ I q t) Hin). split; congruence.
    + apply I.
  - intros r u. rewrite Hq, Ht. destruct (decide (r = q)) as [-> |], (decide (u = t)) as [-> |]; simpl.
    + rewrite list_elem_of_filter. by intros [? _].
    + rewrite list_elem_of_filter. intros [_ ?]. by eapply (wi_blocked _ I).
    + intros Hr. apply (wi_link _ I) in Hr, Hin. congruence.
    + apply I.
Qed.

Lemma block_spec q t w :
  wq_inv w -> wait_queue (thr w t) = None ->
  let w' := wait_queue_block q t w in
  wq_inv w' /\ queue w' q = t :: queue w q
  /\ (forall r, r <> q -> queue w' r = queue w r)
  /\ (forall u, u <> t -> thr w' u = thr w u)
  /\ t_state (thr w' t) = PROCESS_BLOCKED /\ wait_queue (thr w' t) = Some q /\ procs w' = procs w
  /\ futex_key (thr w' t) = futex_key (thr w t).
Proof.
  intros I Hn. simpl. unfold wait_queue_block, sched_set_blocked.
  rewrite (thr_upd t (with_cpu (-1))), (thr_upd t (with_state PROCESS_BLOCKED)).
  destruct (decide (t = t)); [| done]. simpl. rewrite Hn.
  destruct (decide (None = Some q)); [done |].
  assert (forall r, t ∉ queue w r) as Hno.
  { intros r Hr. apply (wi_link _ I) in Hr. congruence. }
  set (w' := set_queue q _ _).
  assert (forall r, queue w' r = if decide (r = q) then t :: queue w q else queue w r) as Hq.
  { intros r. unfold w'. autorewrite with embk. done. }
  assert (forall u, thr w' u = if decide (u = t)
            then with_wait (Some q) (with_cpu (-1) (with_state PROCESS_BLOCKED (thr w t)))
            else thr w u) as Ht.
  { intros u. unfold w'. autorewrite with embk. destruct (decide (t = t)); [| done]. by destruct (decide (u = t)). }
  split_and!.
  - constructor.
    + intros r. rewrite Hq. destruct (decide (r = q)); [| apply I].
      apply NoDup_cons. split; [apply Hno | apply I].
    + intros r u. rewrite Hq, Ht.
      destruct (decide (r = q)) as [-> |], (decide (u = t)) as [-> |]; simpl.
      * split; [done | intros _; apply list_elem_of_here].
      * rewrite elem_of_cons, (wi_link _ I). split; [intros [? | ?]; [done | tauto] | tauto].
      * split; [intros H; by apply Hno in H | congruence].
      * apply I.
    + intros r u. rewrite Hq, Ht. destruct (decide (u = t)) as [-> |]; [done |].
      destruct (decide (r = q)) as [-> |]; [| apply I].
      rewrite elem_of_cons. intros [? | ?]; [done | by eapply (wi_blocked _ I)].
  - rewrite Hq. by rewrite decide_True.
  - intros r Hr. rewrite Hq. by rewrite decide_False.
  - intros u Hu. rewrite Ht. by rewrite decide_False.
  - rewrite Ht. by rewrite decide_True.
  - rewrite Ht. by rewrite decide_True.
  - done.
  - rewrite Ht. by rewrite decide_True.
Qed.

(** ** Waking *)

Definition ready_now (th : thread) : thread := with_state PROCESS_READY (with_wait None th).

Lemma wake_one_spec q w t l :
  wq_inv w -> queue w q = t :: l ->
  woken q t w (wait_queue_wake_one q w) /\ queue (wait_queue_wake_one q w) q = l
  /\ wq_inv (wait_queue_wake_one q w).
Proof.
  intros I E. assert (t ∈ queue w q) as Hin by (rewrite E; apply list_elem_of_here).
  pose proof (wi_nodup _ I q) as Hd. rewrite E in Hd. apply NoDup_cons in Hd as [Hn _].
  unfold wait_queue_wake_one. rewrite E.
  pose proof (remove_ready q t w I Hin) as W. split_and!; [done | | by eapply woken_inv].
  rewrite (proj1 W), decide_True, E, filter_cons_False by (done || (intros H; by apply H)).
  apply filter_all, Forall_forall. intros x Hx ->. done.
Qed.

(** What [wake_all] leaves: the queue empty, its threads ready, the rest as it
    was. *)
Definition all_woken (q : wqid) (w w' : world) : Prop :=
  (forall r, queue w' r = if decide (r = q) then [] else queue w r)
  /\ (forall u, thr w' u = if decide (u ∈ queue w q) then ready_now (thr w u) else thr w u)
  /\ procs w' = procs w.

Lemma wake_all_spec q w :
  wq_inv w -> wq_inv (wait_queue_wake_all q w) /\ all_woken q w (wait_queue_wake_all q w).
Proof.
  intros I. unfold wait_queue_wake_all.
  remember (length (queue w q)) as n eqn:Hn. revert w I Hn.
  induction n as [| n IH]; intros w I Hn; simpl.
  - destruct (queue w q) as [| t l] eqn:E; [| done]. split; [done |]. unfold all_woken. split_and!; [| | done].
    + intros r. by destruct (decide (r = q)) as [-> |].
    + intros u. rewrite E. rewrite decide_False; [done | apply not_elem_of_nil].
  - destruct (queue w q) as [| t l] eqn:E; [done |]. simpl in Hn.
    destruct (wake_one_spec q w t l I E) as ((Wq & Wt & Wp) & El & I1).
    destruct (IH _ I1) as (I2 & Hq & Ht & Hp); [rewrite El; lia |].
    split; [done |]. unfold all_woken. split_and!.
    + intros r. rewrite Hq, Wq. by destruct (decide (r = q)).
    + intros u. rewrite Ht, El, Wt, E. destruct (decide (u = t)) as [-> | Hne].
      * pose proof (wi_nodup _ I q) as Hd. rewrite E in Hd. apply NoDup_cons in Hd as [Hnl _].
        by rewrite (decide_False (P := t ∈ l)), decide_True by (done || apply list_elem_of_here).
      * destruct (decide (u ∈ l)) as [Hl | Hl].
        -- by rewrite decide_True by (by apply list_elem_of_further).
        -- by rewrite decide_False by (by rewrite not_elem_of_cons).
    + congruence.
Qed.

(** Waking every thread of a list that is blocked on some queue. *)
Lemma cancel_thread_spec w t :
  wq_inv w ->
  let w' := cancel_thread w t in
  wq_inv w'
  /\ (forall r, queue w' r = filter (fun x => x <> t) (queue w r))
  /\ (forall u, thr w' u = if decide (u = t /\ wait_queue (thr w t) <> None) then ready_now (thr w t)
                           else thr w u)
  /\ procs w' = procs w.
Proof.
  intros I. simpl. unfold cancel_thread. destruct (wait_queue (thr w t)) as [q |] eqn:Eq.
  - assert (t ∈ queue w q) as Hin by (by apply (wi_link _ I)).
    rewrite decide_True by (by eapply (wi_blocked _ I)).
    pose proof (remove_ready q t w I Hin) as W. split; [by eapply woken_inv |].
    destruct W as (Wq & Wt & Wp). split_and!; [| | done].
    + intros r. rewrite Wq. destruct (decide (r = q)) as [-> | Hr]; [done |].
      symmetry. apply filter_all, Forall_forall. intros x Hx ->. apply (wi_link _ I) in Hx. congruence.
    + intros u. rewrite Wt. destruct (decide (u = t)) as [-> |].
      * by rewrite decide_True.
      * rewrite decide_False; [done | tauto].
  - assert ((if decide (t_state (thr w t) = PROCESS_BLOCKED) then w else w) = w) as -> by (by case_decide).
    split_and!; [done | | | done].
    + intros r. symmetry. apply filter_all, Forall_forall. intros x Hx ->.
      apply (wi_link _ I) in Hx. congruence.
    + intros u. rewrite decide_False; [done | tauto].
Qed.

Lemma cancel_threads_spec ts w :
  wq_inv w ->
  let w' := fold_left cancel_thread ts w in
  wq_inv w'
  /\ (forall r, queue w' r = filter (fun x => x ∉ ts) (queue w r))
  /\ (forall u, thr w' u = if decide (u ∈ ts /\ wait_queue (thr w u) <> None) then ready_now (thr w u)
                           else thr w u)
  /\ procs w' = procs w.
Proof.
  revert w. induction ts as [| t ts IH]; intros w I; cbn [fold_left].
  - split_and!; [done | | | done].
    + intros r. symmetry. apply filter_all, Forall_forall. intros x _. apply not_elem_of_nil.
    + intros u. rewrite decide_False; [done |]. intros [H _]. by apply not_elem_of_nil in H.
  - destruct (cancel_thread_spec w t I) as (I1 & Hq1 & Ht1 & Hp1).
    destruct (IH _ I1) as (I2 & Hq2 & Ht2 & Hp2). split_and!; [done | | | congruence].
    + intros r. rewrite Hq2, Hq1, list_filter_filter. apply filter_ext. intros x _.
      rewrite not_elem_of_cons. tauto.
    + intros u. rewrite Ht2. pose proof (Ht1 u) as E.
      destruct (decide (u = t /\ wait_queue (thr w t) <> None)) as [[-> Hw] | Hno].
      * rewrite (decide_True (P := t ∈ t :: ts /\ _)) by (split; [apply list_elem_of_here | done]).
        rewrite decide_False; [done |]. rewrite E. simpl. tauto.
      * rewrite E. apply (decide_ext _ _ _ _). rewrite elem_of_cons.
        split; [tauto |]. intros [[-> | ?] ?]; tauto.
Qed.

(** ** Timed sleep *)

Definition expired (now : Z) (th : thread) : Prop := wake_at_ms th <> 0 /\ wake_at_ms th <= now.
#[export] Instance expired_dec now th : Decision (expired now th).
Proof. unfold expired. apply _. Defined.

(** The cached deadline is the least of the deadlines folded in. *)
Definition least (P : thread -> Prop) (w : world) (l : list tid) (e : Z) : Prop :=
  (e = 0 /\ forall t, t ∈ l -> ~ P (thr w t))
  \/ (e <> 0 /\ (exists t, t ∈ l /\ P (thr w t) /\ wake_at_ms (thr w t) = e)
      /\ forall t, t ∈ l -> P (thr w t) -> e <= wake_at_ms (thr w t)).

Lemma least_step P (w : world) l t e e' :
  least P w l e -> 0 < wake_at_ms (thr w t) ->
  (P (thr w t) -> e' = if (e =? 0) || (wake_at_ms (thr w t) <? e) then wake_at_ms (thr w t) else e) ->
  (~ P (thr w t) -> e' = e) -> (P (thr w t) \/ ~ P (thr w t)) -> least P w (l ++ [t]) e'.
Proof.
  intros L Hp Hy Hn [HP | HP].
  - right. rewrite Hy by done. destruct L as [[-> Hno] | (He & (m & Hm & Pm & Em) & Hle)].
    + simpl. split; [lia |]. split; [exists t; split_and!; [set_solver | done | done] |].
      intros u Hu Pu. apply elem_of_app in Hu as [Hu | Hu]; [by destruct (Hno u Hu) |].
      apply list_elem_of_singleton in Hu as ->. lia.
    + destruct (Z.eqb_spec e 0); [done |]. simpl.
      destruct (Z.ltb_spec (wake_at_ms (thr w t)) e); (split; [lia |]); split.
      * exists t. split_and!; [set_solver | done | done].
      * intros u Hu Pu. apply elem_of_app in Hu as [Hu | Hu]; [specialize (Hle u Hu Pu); lia |].
        apply list_elem_of_singleton in Hu as ->. lia.
      * exists m. split_and!; [set_solver | done | done].
      * intros u Hu Pu. apply elem_of_app in Hu as [Hu | Hu]; [by apply Hle |].
        apply list_elem_of_singleton in Hu as ->. lia.
  - rewrite Hn by done. destruct L as [[-> Hno] | (He & (m & Hm & Pm & Em) & Hle)].
    + left. split; [done |]. intros u Hu. apply elem_of_app in Hu as [Hu | Hu]; [by apply Hno |].
      by apply list_elem_of_singleton in Hu as ->.
    + right. split_and!; [done | exists m; split_and!; [set_solver | done | done] |].
      intros u Hu Pu. apply elem_of_app in Hu as [Hu | Hu]; [by apply Hle |].
      by apply list_elem_of_singleton in Hu as ->.
Qed.

(** The state of the drain after the prefix [l] of the sleepers of [w0]. *)
Record drained (q : wqid) (now : Z) (w0 : world) (l : list tid) (d : drain) : Prop := {
  dr_inv : wq_inv (d_world d);
  dr_queue : forall r, queue (d_world d) r =
    if decide (r = q) then filter (fun x => ~ (x ∈ l /\ expired now (thr w0 x))) (queue w0 q) else queue w0 r;
  dr_thr : forall u, thr (d_world d) u =
    if decide (u ∈ l /\ expired now (thr w0 u)) then with_wake_at 0 (ready_now (thr w0 u)) else thr w0 u;
  dr_procs : procs (d_world d) = procs w0;
  dr_woke : d_woke d = true <-> exists t, t ∈ l /\ expired now (thr w0 t);
  dr_least : least (fun th => ~ expired now th) w0 l (d_earliest d);
  dr_least_p : least (fun th => ~ expired now th /\ period_ms th <> 0) w0 l (d_earliest_p d);
}.

Lemma drained_step q now w0 l t d :
  drained q now w0 l d -> t ∉ l -> t ∈ queue w0 q -> 0 < wake_at_ms (thr w0 t) ->
  drained q now w0 (l ++ [t]) (drain_one q now d t).
Proof.
  intros [I Hq Ht Hp Hw L Lp] Hnl Hin Hpos. unfold drain_one.
  assert (thr (d_world d) t = thr w0 t) as Et by (rewrite Ht; apply decide_False; tauto).
  rewrite Et. destruct (Z.eqb_spec (wake_at_ms (thr w0 t)) 0); [lia |]. simpl.
  assert (forall u, u ∈ l ++ [t] <-> u ∈ l \/ u = t) as Happ
    by (intros u; by rewrite elem_of_app, list_elem_of_singleton).
  destruct (Z.leb_spec (wake_at_ms (thr w0 t)) now) as [Hexp | Hexp].
  - assert (expired now (thr w0 t)) as He by (split; lia).
    assert (t ∈ queue (d_world d) q) as Hin'.
    { rewrite Hq, decide_True by done. apply list_elem_of_filter. tauto. }
    pose proof (remove_ready q t _ I Hin') as W. pose proof (woken_inv _ _ _ _ I Hin' W) as I'.
    destruct W as (Wq & Wt & Wp).
    set (w1 := wait_queue_remove q t (d_world d)) in *.
    set (w2 := sched_set_ready t (upd t (with_wake_at 0) w1)).
    assert (forall r, queue w2 r = queue (sched_set_ready t w1) r) as Eq by done.
    assert (forall u, thr w2 u = if decide (u = t) then with_wake_at 0 (ready_now (thr w0 t))
                                 else thr (d_world d) u) as Eu.
    { intros u. pose proof (Wt u) as E1. unfold w2, sched_set_ready in *.
      rewrite !thr_upd in *. destruct (decide (u = t)) as [-> |]; [| by rewrite <- E1].
      destruct (decide (t = t)); [| done]. rewrite Et in E1.
      assert (forall a b, with_state PROCESS_READY a = ready_now b ->
                with_state PROCESS_READY (with_wake_at 0 a) = with_wake_at 0 (ready_now b)) as Hc.
      { intros a b Hab. unfold ready_now, with_state, with_wake_at, with_wait in *.
        destruct a, b. simpl in *. congruence. }
      apply Hc. exact E1. }
    constructor; simpl; fold w2.
    + constructor; [apply I' | |]; intros r u Hu || intros r u.
      * rewrite Eq, Eu, (wi_link _ I'), (Wt u). by destruct (decide (u = t)) as [-> |].
      * rewrite Eq in Hu. pose proof (wi_blocked _ I' r u Hu) as Hb. revert Hb.
        rewrite Wt, Eu. by destruct (decide (u = t)).
    + intros r. rewrite Eq, Wq. destruct (decide (r = q)) as [-> | Hr]; [| by rewrite Hq, decide_False].
      rewrite Hq, decide_True, list_filter_filter by done. apply filter_ext. intros x _.
      rewrite Happ. split; [intros [Hx1 Hx2] [[Hx | ->] Hx4]; tauto |].
      intros Hx. split; first [intros ->; tauto | tauto].
    + intros u. rewrite Eu, Ht. destruct (decide (u = t)) as [-> | Hu].
      * rewrite decide_True; [done |]. rewrite Happ. tauto.
      * apply decide_ext. rewrite Happ. tauto.
    + rewrite <- Hp. by rewrite <- Wp.
    + split; [intros _; exists t; rewrite Happ; tauto | done].
    + eapply least_step; [done | done | tauto | done | tauto].
    + eapply least_step; [done | done | tauto | done | tauto].
  - assert (~ expired now (thr w0 t)) as He by (intros [_ ?]; lia).
    constructor; simpl; try done.
    + intros r. rewrite Hq. destruct (decide (r = q)); [| done]. apply filter_ext. intros x _.
      rewrite Happ. split; [| tauto]. intros Hx [[? | ->] ?]; tauto.
    + intros u. rewrite Ht. apply decide_ext. rewrite Happ. split; [tauto |]. intros [[? | ->] ?]; tauto.
    + rewrite Hw. split; intros (u & Hu & Hx); exists u; (split; [| done]); rewrite ?Happ in *; [tauto |].
      destruct Hu as [? | ->]; [done | tauto].
    + eapply least_step; [done | done | done | tauto | tauto].
    + destruct (Z.eqb_spec (period_ms (thr w0 t)) 0) as [Hper | Hper]; simpl;
        (eapply least_step; [done | done | | | ]); try tauto; done.
Qed.

Lemma drain_spec q now w l1 l2 d :
  queue w q = l1 ++ l2 -> NoDup (queue w q) ->
  (forall t, t ∈ queue w q -> 0 < wake_at_ms (thr w t)) ->
  drained q now w l1 d -> drained q now w (l1 ++ l2) (fold_left (drain_one q now) l2 d).
Proof.
  revert l1 d. induction l2 as [| t l2 IH]; intros l1 d E Hd Hpos D; cbn [fold_left].
  - by rewrite app_nil_r.
  - replace (l1 ++ t :: l2) with ((l1 ++ [t]) ++ l2) by (by rewrite <- app_assoc).
    apply IH; [by rewrite <- app_assoc | done | done |].
    assert (t ∈ queue w q) as Hin by (rewrite E, elem_of_app; right; apply list_elem_of_here).
    apply drained_step; auto. rewrite E in Hd. apply NoDup_app in Hd as (_ & Hdisj & _).
    intros Hl. apply (Hdisj t Hl), list_elem_of_here.
Qed.

(** The timer drain wakes exactly the sleepers whose deadline has passed:
    they leave the sleep queue, become ready and forget their deadline, the
    other sleepers stay, no other queue or thread changes, and the cached
    earliest deadlines are exactly the least ones still pending. *)
Theorem wake_expired_exact q now w e ep :
  wq_inv w -> queue w q <> [] -> (forall t, t ∈ queue w q -> 0 < wake_at_ms (thr w t)) ->
  let d := wake_expired_locked q now w e ep in
  drained q now w (queue w q) d.
Proof.
  intros I Hne Hpos. simpl. unfold wake_expired_locked.
  destruct (queue w q) as [| t l] eqn:E; [done |]. rewrite <- E in *.
  apply (drain_spec q now w [] (queue w q)); [done | apply I | done |].
  constructor; simpl; try done.
  - intros r. destruct (decide (r = q)) as [-> |]; [| done]. symmetry.
    apply filter_all, Forall_forall. intros x _ [Hx _]. by apply not_elem_of_nil in Hx.
  - split; [done |]. intros (x & Hx & _). by apply not_elem_of_nil in Hx.
  - left. split; [done |]. intros x Hx. by apply not_elem_of_nil in Hx.
  - left. split; [done |]. intros x Hx. by apply not_elem_of_nil in Hx.
Qed.

(** Two sleepers, one of them due, and a thread blocked on another queue. *)
Definition demo_world : world :=
  mkWorld (<[1 := mkThread PROCESS_BLOCKED (-1) (Some 100) 50 0 0 7]>
           (<[2 := mkThread PROCESS_BLOCKED (-1) (Some 100) 90 16 0 7]>
           (<[3 := mkThread PROCESS_BLOCKED (-1) (Some 200) 0 0 0 8]> ∅)))
          (<[100 := [1; 2]]> (<[200 := [3]]> ∅))
          (<[7 := mkProcess false 2 [1; 2]]> ∅).

Lemma demo_queue q :
  queue demo_world q = if q =? 100 then [1; 2] else if q =? 200 then [3] else [].
Proof.
  unfold queue, demo_world. simpl.
  destruct (Z.eqb_spec q 100) as [-> |]; [done |]. rewrite lookup_insert_ne by lia.
  destruct (Z.eqb_spec q 200) as [-> |]; [done |]. by rewrite lookup_insert_ne by lia.
Qed.

Lemma demo_thr t : t <> 1 -> t <> 2 -> t <> 3 -> wait_queue (thr demo_world t) = None.
Proof. intros. unfold thr, demo_world. simpl. by rewrite !lookup_insert_ne by lia. Qed.

Lemma demo_world_inv : wq_inv demo_world.
Proof.
  assert (forall q t, t ∈ queue demo_world q ->
            (t = 1 \/ t = 2) /\ q = 100 \/ t = 3 /\ q = 200) as Hin.
  { intros q t. rewrite demo_queue. repeat case_if; subst; rewrite ?elem_of_cons, elem_of_nil; tauto. }
  constructor.
  - intros q. rewrite demo_queue.
    repeat case_if; repeat (apply NoDup_cons; rewrite ?not_elem_of_cons, ?elem_of_nil; split_and!); try apply NoDup_nil_2; lia || tauto.
  - intros q t. split.
    + intros H. apply Hin in H as [[[-> | ->] ->] | [-> ->]]; vm_compute; done.
    + rewrite demo_queue. destruct (decide (t = 1)) as [-> | H1]; [| destruct (decide (t = 2)) as [-> | H2];
        [| destruct (decide (t = 3)) as [-> | H3]]].
      * intros H. assert (q = 100) as -> by (vm_compute in H; congruence). simpl. apply list_elem_of_here.
      * intros H. assert (q = 100) as -> by (vm_compute in H; congruence). simpl.
        apply list_elem_of_further, list_elem_of_here.
      * intros H. assert (q = 200) as -> by (vm_compute in H; congruence). simpl. apply list_elem_of_here.
      * by rewrite demo_thr.
  - intros q t H. apply Hin in H as [[[-> | ->] ->] | [-> ->]]; vm_compute; done.
Qed.

Lemma wake_expired_exact_witness :
  queue (d_world (wake_expired_locked 100 60 demo_world 0 0)) 100 = [2]
  /\ d_earliest (wake_expired_locked 100 60 demo_world 0 0) = 90.
Proof.
  assert (drained 100 60 demo_world (queue demo_world 100) (wake_expired_locked 100 60 demo_world 0 0)) as D.
  { apply (wake_expired_exact 100 60 demo_world 0 0).
    - apply demo_world_inv.
    - rewrite demo_queue. done.
    - intros t. rewrite demo_queue. simpl. intros Ht.
      apply elem_of_cons in Ht as [-> | Ht]; [vm_compute; done |].
      apply list_elem_of_singleton in Ht as ->. vm_compute; done. }
  split; [rewrite (dr_queue _ _ _ _ _ D 100); vm_compute; reflexivity | vm_compute; reflexivity].
Defined.

(** Cancelling a live process marks it cancelled and wakes every thread of
    it that is asleep on any queue, whatever the queue; every other thread
    keeps its state and its place, and the queues stay consistent. *)
Theorem process_cancel_wakes pid p w :
  wq_inv w -> procs w !! pid = Some p -> live_thread_count p <> 0 ->
  let '(rc, w') := process_cancel_locked pid w in
  rc = Errno.EMBK_OK /\ wq_inv w' /\ cancelled <$> procs w' !! pid = Some true
  /\ (forall t, t ∈ thread_list p -> wait_queue (thr w t) <> None ->
        t_state (thr w' t) = PROCESS_READY /\ wait_queue (thr w' t) = None)
  /\ (forall t, t ∉ thread_list p -> thr w' t = thr w t)
  /\ (forall q, queue w' q = filter (fun t => t ∉ thread_list p) (queue w q)).
Proof.
  intros I Hp Hl. unfold process_cancel_locked. rewrite Hp.
  destruct (Z.eqb_spec (live_thread_count p) 0); [done |].
  set (w1 := mkWorld _ _ _). assert (wq_inv w1) as I1 by (destruct I; by constructor).
  destruct (cancel_threads_spec (thread_list p) w1 I1) as (I2 & Hq & Ht & Hps).
  split_and!; try done.
  - rewrite Hps. simpl. by rewrite lookup_insert_eq.
  - intros t Hin Hw. rewrite Ht, decide_True by done. done.
  - intros t Hin. rewrite Ht, decide_False by tauto. done.
Qed.

Lemma process_cancel_wakes_witness :
  queue (snd (process_cancel_locked 7 demo_world)) 100 = []
  /\ queue (snd (process_cancel_locked 7 demo_world)) 200 = [3].
Proof.
  pose proof (process_cancel_wakes 7 (mkProcess false 2 [1; 2]) demo_world demo_world_inv
                ltac:(reflexivity) ltac:(simpl; lia)) as H.
  destruct (process_cancel_locked 7 demo_world) as [rc w']. destruct H as (_ & _ & _ & _ & _ & H).
  simpl. rewrite !H. split; vm_compute; reflexivity.
Defined.

(** No thread, no queue. *)
Definition empty_world : world := mkWorld ∅ ∅ ∅.

Lemma empty_world_inv : wq_inv empty_world.
Proof.
  assert (forall q, queue empty_world q = []) as Hq by done.
  constructor; intros q; rewrite Hq; [constructor | |]; intros t; rewrite elem_of_nil; [| done].
  split; [done |]. unfold thr. simpl. rewrite lookup_empty. done.
Qed.
