(* ===== verification/Pipe.v ===== *)
(** * Pipes ([kernel/ipc/pipe.c])

    A pipe is a 1024-byte ring with reader and writer counts and one wait queue
    per side.  Each blocking call is a loop whose every iteration runs under
    the scheduler lock: [pipe_read_try] and [pipe_write_try] are one iteration,
    which either finishes the call or blocks the thread on the pipe's queue; a
    woken thread runs the iteration again.  The user buffers are lists of
    bytes. *)

From S2P Require Import Prelude Bytes WaitQueue.

Definition PIPE_BUF_SIZE : Z := 1024.

Record pipe := mkPipe {
  buf : list Z;
  head : Z;
  tail : Z;
  count : Z;
  n_readers : Z;
  n_writers : Z;
  read_wait : wqid;
  write_wait : wqid;
  used : bool;
  pipe_id : Z;
}.

Definition set_ring (p : pipe) (b : list Z) (h t c : Z) : pipe :=
  mkPipe b h t c (n_readers p) (n_writers p) (read_wait p) (write_wait p) (used p) (pipe_id p).
Definition set_refs (p : pipe) (nr nw : Z) (u : bool) : pipe :=
  mkPipe (buf p) (head p) (tail p) (count p) nr nw (read_wait p) (write_wait p) u (pipe_id p).

(** ** The two copy loops *)

(** [while (n < len && p->count > 0)]; at most [count] iterations. *)
Fixpoint read_loop (fuel : nat) (p : pipe) (n len : Z) (out : list Z) : pipe * list Z :=
  match fuel with
  | O => (p, out)
  | S fuel =>
      if (n <? len) && (0 <? count p) then
        let out := out ++ [rd (buf p) (tail p)] in
        let p := set_ring p (buf p) (head p) ((tail p + 1) mod PIPE_BUF_SIZE) (!32 (count p - 1)) in
        read_loop fuel p (n + 1) len out
      else (p, out)
  end.

(** [while (n < len && p->count < PIPE_BUF_SIZE)]; [inp] is [in + n]. *)
Fixpoint write_loop (p : pipe) (inp : list Z) (n : Z) : pipe * Z :=
  match inp with
  | [] => (p, n)
  | b :: inp =>
      if count p <? PIPE_BUF_SIZE then
        let p := set_ring p (wr (buf p) (head p) b) ((head p + 1) mod PIPE_BUF_SIZE) (tail p)
                          (!32 (count p + 1)) in
        write_loop p inp (n + 1)
      else (p, n)
  end.

(** ** The calls, one locked iteration at a time *)

Inductive io_result :=
  | ReadDone (rc : Z) (bytes : list Z)
  | WriteDone (rc : Z) (n : Z)
  | Blocked.

Definition pipe_read_try (p : pipe) (len : Z) (nonblock : bool) (cur : tid) (canc : bool) (w : world)
  : io_result * pipe * world :=
  if len =? 0 then (ReadDone Errno.EMBK_OK [], p, w)
  else if count p =? 0 then
    if n_writers p =? 0 then (ReadDone Errno.EMBK_OK [], p, w)
    else if canc then (ReadDone (- Errno.EMBK_ECANCELED) [], p, w)
    else if nonblock then (ReadDone (- Errno.EMBK_EAGAIN) [], p, w)
    else (Blocked, p, wait_queue_block (read_wait p) cur w)
  else
    let '(p', out) := read_loop (Z.to_nat (count p)) p 0 len [] in
    (ReadDone Errno.EMBK_OK out, p', wait_queue_wake_all (write_wait p) w).

(** The loop condition of [pipe_write_flags]. *)
Definition write_must_wait (p : pipe) (len : Z) (atomic_small : bool) : bool :=
  (count p =? PIPE_BUF_SIZE)
  || (atomic_small && (len <=? PIPE_BUF_SIZE) && (PIPE_BUF_SIZE - count p <? len)).

Definition pipe_write_try (p : pipe) (inp : list Z) (nonblock atomic_small : bool) (cur : tid)
  (canc : bool) (w : world) : io_result * pipe * world :=
  if zlen inp =? 0 then (WriteDone Errno.EMBK_OK 0, p, w)
  else if write_must_wait p (zlen inp) atomic_small then
    if n_readers p =? 0 then (WriteDone (- Errno.EMBK_EPIPE) 0, p, w)
    else if canc then (WriteDone (- Errno.EMBK_ECANCELED) 0, p, w)
    else if nonblock then (WriteDone (- Errno.EMBK_EAGAIN) 0, p, w)
    else (Blocked, p, wait_queue_block (write_wait p) cur w)
  else if n_readers p =? 0 then (WriteDone (- Errno.EMBK_EPIPE) 0, p, w)
  else
    let '(p', n) := write_loop p inp 0 in
    (WriteDone Errno.EMBK_OK n, p', wait_queue_wake_all (read_wait p) w).

Definition pipe_ref_locked (p : pipe) (side : Z) : pipe :=
  if side =? 0 then set_refs p (i32 (n_readers p + 1)) (n_writers p) (used p)
  else set_refs p (n_readers p) (i32 (n_writers p + 1)) (used p).

Definition pipe_unref_locked (p : pipe) (side : Z) (w : world) : pipe * world :=
  let '(p, w) :=
    if side =? 0 then
      let p := set_refs p (i32 (n_readers p - 1)) (n_writers p) (used p) in
      (p, if n_readers p =? 0 then wait_queue_wake_all (write_wait p) w else w)
    else
      let p := set_refs p (n_readers p) (i32 (n_writers p - 1)) (used p) in
      (p, if n_writers p =? 0 then wait_queue_wake_all (read_wait p) w else w) in
  (if (n_readers p =? 0) && (n_writers p =? 0)
   then set_refs p (n_readers p) (n_writers p) false else p, w).

Definition pipe_avail (p : pipe) (side : Z) : Z :=
  if side =? 0 then count p else !32 (PIPE_BUF_SIZE - count p).

(** ** The ring holds a queue of bytes *)

(** The buffered bytes, oldest first. *)
Definition contents (p : pipe) : list Z :=
  (fun i => rd (buf p) ((tail p + Z.of_nat i) mod PIPE_BUF_SIZE)) <$> seq 0 (Z.to_nat (count p)).

Record pipe_wf (p : pipe) : Prop := {
  pw_buf : zlen (buf p) = PIPE_BUF_SIZE;
  pw_tail : 0 <= tail p < PIPE_BUF_SIZE;
  pw_count : 0 <= count p <= PIPE_BUF_SIZE;
  pw_head : head p = (tail p + count p) mod PIPE_BUF_SIZE;
  pw_readers : 0 <= n_readers p < 2 ^ 31;
  pw_writers : 0 <= n_writers p < 2 ^ 31;
  pw_used : used p = negb ((n_readers p =? 0) && (n_writers p =? 0));
  pw_queues : read_wait p <> write_wait p;
}.

Lemma contents_length p : zlen (contents p) = Z.max 0 (count p).
Proof. unfold contents, zlen. rewrite length_fmap, length_seq. lia. Qed.

(** Taking the oldest byte and adding a newest one, on the contents. *)
Lemma contents_pop p :
  pipe_wf p -> 0 < count p ->
  contents p = rd (buf p) (tail p)
    :: contents (set_ring p (buf p) (head p) ((tail p + 1) mod PIPE_BUF_SIZE) (!32 (count p - 1))).
Proof.
  intros W Hc. pose proof (pw_count _ W) as Hcnt. pose proof (pw_tail _ W) as Ht.
  unfold contents. simpl. unfold PIPE_BUF_SIZE in *. unwrap.
  replace (Z.to_nat (count p)) with (S (Z.to_nat (count p - 1))) by lia.
  cbn [seq fmap list_fmap]. f_equal; [f_equal; rewrite Z.mod_small; lia |].
  rewrite <- fmap_S_seq, <- list_fmap_compose. apply list_fmap_ext. intros i x Hx. simpl.
  f_equal. rewrite Zplus_mod_idemp_l. f_equal. lia.
Qed.

Lemma contents_push p b :
  pipe_wf p -> count p < PIPE_BUF_SIZE ->
  contents (set_ring p (wr (buf p) (head p) b) ((head p + 1) mod PIPE_BUF_SIZE) (tail p) (!32 (count p + 1)))
  = contents p ++ [b].
Proof.
  intros W Hc. pose proof (pw_count _ W) as Hcnt. pose proof (pw_tail _ W) as Ht.
  pose proof (pw_buf _ W) as Hb. pose proof (pw_head _ W) as Hh.
  unfold contents. simpl. unfold PIPE_BUF_SIZE, zlen in *. unwrap.
  replace (Z.to_nat (count p + 1)) with (S (Z.to_nat (count p))) by lia.
  rewrite seq_S, fmap_app. f_equal.
  - apply list_fmap_ext. intros i x Hx. apply lookup_seq in Hx as [-> Hi].
    pose proof (Z.mod_pos_bound (tail p + count p) 1024 ltac:(lia)).
    pose proof (Z.mod_pos_bound (tail p + Z.of_nat (0 + i)) 1024 ltac:(lia)).
    apply rd_wr_ne; [lia | lia |]. rewrite Hh. intros E.
    pose proof (Z.div_mod (tail p + count p) 1024 ltac:(lia)).
    pose proof (Z.div_mod (tail p + Z.of_nat (0 + i)) 1024 ltac:(lia)). lia.
  - simpl. f_equal. rewrite Z2Nat.id by lia. rewrite <- Hh. apply rd_wr_eq.
    rewrite Hh, Hb. apply Z.mod_pos_bound. lia.
Qed.

(** The fields the copy loops leave alone. *)
Definition same_refs (p p' : pipe) : Prop :=
  n_readers p' = n_readers p /\ n_writers p' = n_writers p /\ read_wait p' = read_wait p
  /\ write_wait p' = write_wait p /\ used p' = used p /\ pipe_id p' = pipe_id p.

Lemma pop_wf p :
  pipe_wf p -> 0 < count p ->
  pipe_wf (set_ring p (buf p) (head p) ((tail p + 1) mod PIPE_BUF_SIZE) (!32 (count p - 1))).
Proof.
  intros [] Hc. unfold PIPE_BUF_SIZE in *. constructor; simpl; try done; unfold PIPE_BUF_SIZE; unwrap; try lia.
  - apply Z.mod_pos_bound. lia.
  - rewrite Zplus_mod_idemp_l. rewrite pw_head0. f_equal. lia.
Qed.

Lemma push_wf p b :
  pipe_wf p -> count p < PIPE_BUF_SIZE ->
  pipe_wf (set_ring p (wr (buf p) (head p) b) ((head p + 1) mod PIPE_BUF_SIZE) (tail p) (!32 (count p + 1))).
Proof.
  intros [] Hc. unfold PIPE_BUF_SIZE, zlen in *.
  constructor; simpl; try done; unfold PIPE_BUF_SIZE, zlen; unwrap; try lia.
  - by rewrite wr_length.
  - rewrite pw_head0, Zplus_mod_idemp_l. f_equal. lia.
Qed.

Lemma read_loop_spec fuel p n len out :
  pipe_wf p -> count p <= Z.of_nat fuel -> n <= len ->
  let k := Z.to_nat (Z.min (len - n) (count p)) in
  exists p', read_loop fuel p n len out = (p', out ++ take k (contents p))
    /\ contents p' = drop k (contents p) /\ pipe_wf p' /\ same_refs p p'.
Proof.
  revert p n out. induction fuel as [| fuel IH]; intros p n out W Hf Hn; simpl.
  - pose proof (pw_count _ W). assert (count p = 0) as E by lia. exists p.
    rewrite E, Z.min_r by lia. simpl. rewrite app_nil_r. by repeat split; try apply W.
  - pose proof (pw_count _ W) as Hcnt.
    destruct (Z.ltb_spec n len), (Z.ltb_spec 0 (count p)); simpl.
    2-4: exists p; replace (Z.to_nat (Z.min (len - n) (count p))) with 0%nat by lia; simpl;
      rewrite app_nil_r; by repeat split; try apply W.
    pose proof (contents_pop p W ltac:(lia)) as Ec. pose proof (pop_wf p W ltac:(lia)) as W1.
    set (p1 := set_ring _ _ _ _ _) in *.
    assert (count p1 = count p - 1) as E1.
    { unfold p1. simpl. unfold PIPE_BUF_SIZE in *. by unwrap. }
    destruct (IH p1 (n + 1) (out ++ [rd (buf p) (tail p)]) W1) as (p' & Er & Ecs & W' & S'); [lia | lia |].
    exists p'. rewrite Er, Ec. rewrite E1 in *.
    replace (Z.to_nat (Z.min (len - n) (count p)))
      with (S (Z.to_nat (Z.min (len - (n + 1)) (count p - 1)))) by lia. simpl.
    rewrite <- app_assoc. simpl. split_and!; [done | done | done |].
    destruct S' as (? & ? & ? & ? & ? & ?). done.
Qed.

Lemma write_loop_spec inp p n :
  pipe_wf p ->
  let k := Z.to_nat (Z.min (zlen inp) (PIPE_BUF_SIZE - count p)) in
  exists p', write_loop p inp n = (p', n + Z.of_nat k)
    /\ contents p' = contents p ++ take k inp /\ pipe_wf p' /\ same_refs p p'
    /\ count p' = count p + Z.of_nat k.
Proof.
  revert p n. induction inp as [| b inp IH]; intros p n W; simpl.
  - pose proof (pw_count _ W). exists p. rewrite zlen_nil, Z.min_l by lia. simpl.
    rewrite app_nil_r, !Z.add_0_r. by repeat split; try apply W.
  - pose proof (pw_count _ W) as Hcnt. pose proof (zlen_nonneg inp). rewrite zlen_cons.
    destruct (Z.ltb_spec (count p) PIPE_BUF_SIZE).
    + pose proof (contents_push p b W ltac:(lia)) as Ec. pose proof (push_wf p b W ltac:(lia)) as W1.
      set (p1 := set_ring _ _ _ _ _) in *.
      assert (count p1 = count p + 1) as E1.
      { unfold p1. simpl. unfold PIPE_BUF_SIZE in *. by unwrap. }
      destruct (IH p1 (n + 1) W1) as (p' & Er & Ecs & W' & S' & Hc').
      exists p'. rewrite Er, Ecs, Ec. rewrite E1 in *.
      replace (Z.to_nat (Z.min (1 + zlen inp) (PIPE_BUF_SIZE - count p)))
        with (S (Z.to_nat (Z.min (zlen inp) (PIPE_BUF_SIZE - (count p + 1))))) by lia.
      simpl take. rewrite <- app_assoc. split_and!; [f_equal; lia | done | done | done | lia].
    + exists p. replace (Z.to_nat (Z.min (1 + zlen inp) (PIPE_BUF_SIZE - count p))) with 0%nat by lia.
      simpl. rewrite app_nil_r, !Z.add_0_r. by repeat split; try apply W.
Qed.

(** ** Functional behaviour *)

Lemma read_try_cases p len nonblock cur canc w :
  pipe_wf p -> 0 < len ->
  match contents p with
  | _ :: _ =>
      exists p', pipe_read_try p len nonblock cur canc w
        = (ReadDone Errno.EMBK_OK (take (Z.to_nat len) (contents p)), p',
           wait_queue_wake_all (write_wait p) w)
        /\ contents p' = drop (Z.to_nat len) (contents p) /\ pipe_wf p' /\ same_refs p p'
  | [] =>
      pipe_read_try p len nonblock cur canc w =
      if n_writers p =? 0 then (ReadDone Errno.EMBK_OK [], p, w)
      else if canc then (ReadDone (- Errno.EMBK_ECANCELED) [], p, w)
      else if nonblock then (ReadDone (- Errno.EMBK_EAGAIN) [], p, w)
      else (Blocked, p, wait_queue_block (read_wait p) cur w)
  end.
Proof.
  intros W Hl. pose proof (pw_count _ W) as Hcnt. pose proof (contents_length p) as Hlen.
  unfold pipe_read_try. destruct (Z.eqb_spec len 0); [lia |].
  destruct (contents p) as [| x l] eqn:E.
  - rewrite zlen_nil in Hlen. by destruct (Z.eqb_spec (count p) 0); [| lia].
  - rewrite zlen_cons in Hlen. pose proof (zlen_nonneg l).
    destruct (Z.eqb_spec (count p) 0); [lia |].
    destruct (read_loop_spec (Z.to_nat (count p)) p 0 len [] W) as (p' & -> & Ec & W' & S'); [lia | lia |].
    rewrite E in *. assert (length (x :: l) = Z.to_nat (count p)) as El.
    { simpl. unfold zlen in Hlen. lia. }
    exists p'. rewrite Ec. simpl app.
    replace (Z.to_nat (Z.min (len - 0) (count p))) with (Z.to_nat len `min` length (x :: l))%nat by lia.
    destruct (decide (Z.to_nat len <= length (x :: l))%nat).
    + by rewrite Nat.min_l.
    + rewrite Nat.min_r, !take_ge, !drop_ge by lia. done.
Qed.

(** A read is exact: with bytes buffered it returns the oldest
    [min len count] of them, leaves the rest in order, and wakes every blocked
    writer; an empty pipe without writers is end of file, and otherwise a read
    is cancelled, refused or put to sleep, in that order, without touching the
    pipe. *)
Theorem pipe_read_exact p len nonblock cur canc w :
  pipe_wf p -> 0 < len ->
  match contents p with
  | _ :: _ =>
      exists p', pipe_read_try p len nonblock cur canc w
        = (ReadDone Errno.EMBK_OK (take (Z.to_nat len) (contents p)), p',
           wait_queue_wake_all (write_wait p) w)
        /\ contents p' = drop (Z.to_nat len) (contents p) /\ pipe_wf p' /\ same_refs p p'
  | [] =>
      pipe_read_try p len nonblock cur canc w =
      if n_writers p =? 0 then (ReadDone Errno.EMBK_OK [], p, w)
      else if canc then (ReadDone (- Errno.EMBK_ECANCELED) [], p, w)
      else if nonblock then (ReadDone (- Errno.EMBK_EAGAIN) [], p, w)
      else (Blocked, p, wait_queue_block (read_wait p) cur w)
  end.
Proof. apply read_try_cases. Qed.

Lemma write_try_cases p inp nonblock atomic_small cur canc w :
  pipe_wf p -> inp <> [] ->
  let k := Z.min (zlen inp) (PIPE_BUF_SIZE - count p) in
  if write_must_wait p (zlen inp) atomic_small then
    pipe_write_try p inp nonblock atomic_small cur canc w =
    if n_readers p =? 0 then (WriteDone (- Errno.EMBK_EPIPE) 0, p, w)
    else if canc then (WriteDone (- Errno.EMBK_ECANCELED) 0, p, w)
    else if nonblock then (WriteDone (- Errno.EMBK_EAGAIN) 0, p, w)
    else (Blocked, p, wait_queue_block (write_wait p) cur w)
  else if n_readers p =? 0 then
    pipe_write_try p inp nonblock atomic_small cur canc w = (WriteDone (- Errno.EMBK_EPIPE) 0, p, w)
  else
    exists p', pipe_write_try p inp nonblock atomic_small cur canc w
      = (WriteDone Errno.EMBK_OK k, p', wait_queue_wake_all (read_wait p) w)
      /\ contents p' = contents p ++ take (Z.to_nat k) inp /\ pipe_wf p' /\ same_refs p p'
      /\ 0 < k /\ (atomic_small = true -> zlen inp <= PIPE_BUF_SIZE -> k = zlen inp).
Proof.
  intros W Hi k. pose proof (pw_count _ W) as Hcnt. unfold pipe_write_try.
  assert (0 < zlen inp) as Hz by (destruct inp; [done |]; rewrite zlen_cons; pose proof (zlen_nonneg inp); lia).
  destruct (Z.eqb_spec (zlen inp) 0); [lia |].
  destruct (write_must_wait p (zlen inp) atomic_small) eqn:M; [done |].
  destruct (n_readers p =? 0); [done |].
  destruct (write_loop_spec inp p 0 W) as (p' & -> & Ec & W' & S' & _). fold k in Ec |- *.
  unfold write_must_wait in M. b2p. exists p'.
  split_and!; [do 3 f_equal; lia | done | done | done | lia |].
  intros -> Hs. simpl in *. destruct (Z.leb_spec (zlen inp) PIPE_BUF_SIZE); [| lia]. simpl in *. b2p. lia.
Qed.

(** A write is exact: it appends the first [min len space] bytes, in order,
    and wakes every blocked reader; a write of at most [PIPE_BUF_SIZE] bytes
    that asked for atomicity is never split.  It fails with [EPIPE] when no
    reader is left, and a write that must wait is cancelled, refused or put to
    sleep without touching the pipe. *)
Theorem pipe_write_exact p inp nonblock atomic_small cur canc w :
  pipe_wf p -> inp <> [] ->
  let k := Z.min (zlen inp) (PIPE_BUF_SIZE - count p) in
  if write_must_wait p (zlen inp) atomic_small then
    pipe_write_try p inp nonblock atomic_small cur canc w =
    if n_readers p =? 0 then (WriteDone (- Errno.EMBK_EPIPE) 0, p, w)
    else if canc then (WriteDone (- Errno.EMBK_ECANCELED) 0, p, w)
    else if nonblock then (WriteDone (- Errno.EMBK_EAGAIN) 0, p, w)
    else (Blocked, p, wait_queue_block (write_wait p) cur w)
  else if n_readers p =? 0 then
    pipe_write_try p inp nonblock atomic_small cur canc w = (WriteDone (- Errno.EMBK_EPIPE) 0, p, w)
  else
    exists p', pipe_write_try p inp nonblock atomic_small cur canc w
      = (WriteDone Errno.EMBK_OK k, p', wait_queue_wake_all (read_wait p) w)
      /\ contents p' = contents p ++ take (Z.to_nat k) inp /\ pipe_wf p' /\ same_refs p p'
      /\ 0 < k /\ (atomic_small = true -> zlen inp <= PIPE_BUF_SIZE -> k = zlen inp).
Proof. apply write_try_cases. Qed.

(** ** A pipe and the threads using it

    Threads call [read] and [write], sleep and are woken; others take and drop
    references or cancel a sleeper.  [ps_in] and [ps_out] are ghost: every byte
    a write accepted and every byte a read returned, in order. *)

Inductive call := Rd (len : Z) (nonblock : bool) | Wr (bytes : list Z) (nonblock atomic : bool).

Record psys := mkPsys {
  ps_pipe : pipe;
  ps_world : world;
  ps_calls : gmap tid call;      (* calls in progress *)
  ps_in : list Z;
  ps_out : list Z;
}.

Definition try_call (c : call) (t : tid) (canc : bool) (p : pipe) (w : world)
  : io_result * pipe * world :=
  match c with
  | Rd len nb => pipe_read_try p len nb t canc w
  | Wr bytes nb atomic => pipe_write_try p bytes nb atomic t canc w
  end.

Definition accepted (c : call) (r : io_result) : list Z :=
  match c, r with Wr bytes _ _, WriteDone _ n => take (Z.to_nat n) bytes | _, _ => [] end.
Definition returned (r : io_result) : list Z :=
  match r with ReadDone _ bytes => bytes | _ => [] end.

Definition call_ok (c : call) : Prop := match c with Rd len _ => 0 <= len | Wr _ _ _ => True end.

Inductive pstep : psys -> psys -> Prop :=
  | step_try s t c canc r p' w' :
      call_ok c ->
      ps_calls s !! t = None \/ ps_calls s !! t = Some c ->
      wait_queue (thr (ps_world s) t) = None ->
      try_call c t canc (ps_pipe s) (ps_world s) = (r, p', w') ->
      pstep s (mkPsys p' w'
                 (match r with Blocked => <[t := c]> (ps_calls s) | _ => delete t (ps_calls s) end)
                 (ps_in s ++ accepted c r) (ps_out s ++ returned r))
  | step_ref s side :
      used (ps_pipe s) = true ->
      n_readers (ps_pipe s) < 2 ^ 31 - 1 -> n_writers (ps_pipe s) < 2 ^ 31 - 1 ->
      pstep s (mkPsys (pipe_ref_locked (ps_pipe s) side) (ps_world s) (ps_calls s) (ps_in s) (ps_out s))
  | step_unref s side p' w' :
      0 < (if side =? 0 then n_readers (ps_pipe s) else n_writers (ps_pipe s)) ->
      pipe_unref_locked (ps_pipe s) side (ps_world s) = (p', w') ->
      pstep s (mkPsys p' w' (ps_calls s) (ps_in s) (ps_out s))
  | step_cancel s t :
      pstep s (mkPsys (ps_pipe s) (cancel_thread (ps_world s) t) (ps_calls s) (ps_in s) (ps_out s)).

(** Who may sleep: a reader only while nothing is buffered and a writer exists,
    a writer only while its data does not fit and a reader exists. *)
Definition may_sleep_read (p : pipe) (c : call) : Prop :=
  exists len nb, c = Rd len nb /\ count p = 0 /\ 0 < n_writers p.
Definition may_sleep_write (p : pipe) (c : call) : Prop :=
  exists bytes nb atomic, c = Wr bytes nb atomic
    /\ write_must_wait p (zlen bytes) atomic = true /\ 0 < n_readers p.

Record psys_inv (s : psys) : Prop := {
  si_pipe : pipe_wf (ps_pipe s);
  si_world : wq_inv (ps_world s);
  si_stream : ps_in s = ps_out s ++ contents (ps_pipe s);
  si_readers : forall t, t ∈ queue (ps_world s) (read_wait (ps_pipe s)) ->
    exists c, ps_calls s !! t = Some c /\ may_sleep_read (ps_pipe s) c;
  si_writers : forall t, t ∈ queue (ps_world s) (write_wait (ps_pipe s)) ->
    exists c, ps_calls s !! t = Some c /\ may_sleep_write (ps_pipe s) c;
}.

Lemma count_zero p : pipe_wf p -> contents p = [] <-> count p = 0.
Proof.
  intros W. pose proof (pw_count _ W). pose proof (contents_length p) as Hl.
  split; intros E; [rewrite E, zlen_nil in Hl; lia |].
  apply length_zero_iff_nil. unfold zlen in Hl. lia.
Qed.

Lemma delete_other (s : psys) t u c :
  wq_inv (ps_world s) -> wait_queue (thr (ps_world s) t) = None ->
  forall q, u ∈ queue (ps_world s) q -> ps_calls s !! u = Some c -> delete t (ps_calls s) !! u = Some c.
Proof.
  intros I Hn q Hu Hc. rewrite lookup_delete_ne; [done |]. intros ->.
  apply (wi_link _ I) in Hu. congruence.
Qed.

(** A call that ends without touching pipe or queues. *)
Lemma inv_quiet s t :
  psys_inv s -> wait_queue (thr (ps_world s) t) = None ->
  psys_inv (mkPsys (ps_pipe s) (ps_world s) (delete t (ps_calls s)) (ps_in s ++ []) (ps_out s ++ [])).
Proof.
  intros [W I Hs Hr Hw] Hn. rewrite !app_nil_r. constructor; simpl; try done.
  - intros u Hu. destruct (Hr u Hu) as (c & Hc & M). exists c. split; [by eapply delete_other | done].
  - intros u Hu. destruct (Hw u Hu) as (c & Hc & M). exists c. split; [by eapply delete_other | done].
Qed.

(** A call that goes to sleep. *)
Lemma inv_sleep s t c q :
  psys_inv s -> wait_queue (thr (ps_world s) t) = None ->
  q = read_wait (ps_pipe s) /\ may_sleep_read (ps_pipe s) c
  \/ q = write_wait (ps_pipe s) /\ may_sleep_write (ps_pipe s) c ->
  psys_inv (mkPsys (ps_pipe s) (wait_queue_block q t (ps_world s)) (<[t := c]> (ps_calls s))
              (ps_in s ++ []) (ps_out s ++ [])).
Proof.
  intros [W I Hs Hr Hw] Hn Hq. rewrite !app_nil_r.
  destruct (block_spec q t _ I Hn) as (I' & Eq & Eo & _). pose proof (pw_queues _ W) as Hne.
  assert (forall r u, u ∈ queue (ps_world s) r -> u <> t) as Hnt.
  { intros r u Hu ->. apply (wi_link _ I) in Hu. congruence. }
  constructor; simpl; try done.
  - intros u. destruct Hq as [[-> M] | [-> M]].
    + rewrite Eq, elem_of_cons. intros [-> | Hu]; [exists c; by rewrite lookup_insert_eq |].
      rewrite lookup_insert_ne by (symmetry; by eapply Hnt). by apply Hr.
    + rewrite Eo by done. intros Hu. rewrite lookup_insert_ne by (symmetry; by eapply Hnt). by apply Hr.
  - intros u. destruct Hq as [[-> M] | [-> M]].
    + rewrite Eo by done. intros Hu. rewrite lookup_insert_ne by (symmetry; by eapply Hnt). by apply Hw.
    + rewrite Eq, elem_of_cons. intros [-> | Hu]; [exists c; by rewrite lookup_insert_eq |].
      rewrite lookup_insert_ne by (symmetry; by eapply Hnt). by apply Hw.
Qed.

Lemma inv_read s t len nb canc r p' w' :
  psys_inv s -> 0 <= len -> wait_queue (thr (ps_world s) t) = None ->
  pipe_read_try (ps_pipe s) len nb t canc (ps_world s) = (r, p', w') ->
  psys_inv (mkPsys p' w'
    (match r with Blocked => <[t := Rd len nb]> (ps_calls s) | _ => delete t (ps_calls s) end)
    (ps_in s ++ accepted (Rd len nb) r) (ps_out s ++ returned r)).
Proof.
  intros Inv Hl Hn E. destruct (decide (len = 0)) as [-> |].
  { injection E as <- <- <-. by apply inv_quiet. }
  pose proof (si_pipe _ Inv) as W. pose proof (si_world _ Inv) as I.
  pose proof (read_try_cases (ps_pipe s) len nb t canc (ps_world s) W ltac:(lia)) as C.
  pose proof (count_zero _ W) as Z0. pose proof (pw_writers _ W).
  destruct (contents (ps_pipe s)) as [| x l] eqn:Ec.
  - rewrite E in C. destruct (Z.eqb_spec (n_writers (ps_pipe s)) 0).
    { injection C as -> -> ->. by apply inv_quiet. }
    destruct canc; [injection C as -> -> ->; by apply inv_quiet |].
    destruct nb; injection C as -> -> ->; [by apply inv_quiet |].
    apply inv_sleep; [done | done |]. left. split; [done |]. exists len, false.
    split_and!; [done | by apply Z0 | lia].
  - destruct C as (q & Eq & Ecs & W' & S1 & S2 & S3 & S4 & S5 & S6). rewrite E in Eq.
    injection Eq as -> -> ->. rewrite <- Ec in *.
    destruct (wake_all_spec (write_wait (ps_pipe s)) _ I) as (I' & Wq & Wt & _).
    constructor; simpl; try done.
    + rewrite Ecs, app_nil_r, (si_stream _ Inv), <- app_assoc, take_drop. done.
    + rewrite S3. intros u. rewrite Wq, decide_False by apply W. intros Hu.
      destruct (si_readers _ Inv u Hu) as (c & _ & len' & nb' & _ & Hc0 & _).
      apply Z0 in Hc0. rewrite Ec in Hc0. done.
    + rewrite S4. intros u. rewrite Wq, decide_True by done. by rewrite elem_of_nil.
Qed.

Lemma inv_write s t bytes nb atomic canc r p' w' :
  psys_inv s -> wait_queue (thr (ps_world s) t) = None ->
  pipe_write_try (ps_pipe s) bytes nb atomic t canc (ps_world s) = (r, p', w') ->
  psys_inv (mkPsys p' w'
    (match r with Blocked => <[t := Wr bytes nb atomic]> (ps_calls s) | _ => delete t (ps_calls s) end)
    (ps_in s ++ accepted (Wr bytes nb atomic) r) (ps_out s ++ returned r)).
Proof.
  intros Inv Hn E. destruct (decide (bytes = [])) as [-> |].
  { injection E as <- <- <-. by apply inv_quiet. }
  pose proof (si_pipe _ Inv) as W. pose proof (si_world _ Inv) as I.
  pose proof (write_try_cases (ps_pipe s) bytes nb atomic t canc (ps_world s) W ltac:(done)) as C.
  pose proof (pw_readers _ W). simpl in C. rewrite E in C.
  destruct (write_must_wait _ _ _) eqn:M.
  - destruct (Z.eqb_spec (n_readers (ps_pipe s)) 0); [injection C as -> -> ->; by apply inv_quiet |].
    destruct canc; [injection C as -> -> ->; by apply inv_quiet |].
    destruct nb; injection C as -> -> ->; [by apply inv_quiet |].
    apply inv_sleep; [done | done |]. right. split; [done |]. exists bytes, false, atomic.
    split_and!; [done | done | lia].
  - destruct (Z.eqb_spec (n_readers (ps_pipe s)) 0); [injection C as -> -> ->; by apply inv_quiet |].
    destruct C as (q & Eq & Ecs & W' & (S1 & S2 & S3 & S4 & S5 & S6) & Hk & _).
    injection Eq as -> -> ->.
    destruct (wake_all_spec (read_wait (ps_pipe s)) _ I) as (I' & Wq & Wt & _).
    pose proof (contents_length (ps_pipe s)) as L1. pose proof (contents_length q) as L2.
    rewrite Ecs, zlen_app in L2. pose proof (pw_count _ W). pose proof (pw_count _ W').
    pose proof (zlen_nonneg (take (Z.to_nat (Z.min (zlen bytes) (PIPE_BUF_SIZE - count (ps_pipe s)))) bytes)).
    constructor; simpl; try done.
    + rewrite Ecs, app_nil_r, (si_stream _ Inv), <- app_assoc. done.
    + rewrite S3. intros u. rewrite Wq, decide_True by done. by rewrite elem_of_nil.
    + rewrite S4. intros u. rewrite Wq, decide_False by (symmetry; apply W). intros Hu.
      destruct (si_writers _ Inv u Hu) as (c & Hc & b' & nb' & at' & -> & M' & Hr).
      exists (Wr b' nb' at'). split; [by eapply (delete_other s) |]. exists b', nb', at'.
      rewrite S1. split_and!; [done | | done]. unfold write_must_wait in *. b2p.
      destruct (Z.eqb_spec (count (ps_pipe s)) PIPE_BUF_SIZE); [lia |]. simpl in M'. b2p.
      apply orb_true_iff. right. apply andb_true_iff. split; [by apply andb_true_iff; rewrite Z.leb_le |].
      apply Z.ltb_lt. lia.
Qed.

(** Dropping a reference: the counters, and who is woken. *)
Lemma unref_inv s side p' w' :
  psys_inv s -> 0 < (if side =? 0 then n_readers (ps_pipe s) else n_writers (ps_pipe s)) ->
  pipe_unref_locked (ps_pipe s) side (ps_world s) = (p', w') ->
  psys_inv (mkPsys p' w' (ps_calls s) (ps_in s) (ps_out s)).
Proof.
  intros [W I Hs Hr Hw] Hpos E. unfold pipe_unref_locked in E.
  pose proof (wake_all_spec (write_wait (ps_pipe s)) _ I) as (Iw & Ww & _).
  pose proof (wake_all_spec (read_wait (ps_pipe s)) _ I) as (Ir & Wrd & _).
  destruct W as [B T C H R N U Q].
  assert (forall nr nw, 0 <= nr < 2 ^ 31 -> 0 <= nw < 2 ^ 31 ->
    pipe_wf (set_refs (ps_pipe s) nr nw (negb ((nr =? 0) && (nw =? 0))))) as Wf by (by constructor).
  assert (forall p, contents (set_refs p (n_readers p) (n_writers p) false) = contents p) as Ec by done.
  destruct (side =? 0); simpl in E; rewrite i32_small in E by lia.
  - set (nr := n_readers (ps_pipe s) - 1) in *. specialize (Wf nr (n_writers (ps_pipe s)) ltac:(lia) ltac:(lia)).
    assert (p' = set_refs (ps_pipe s) nr (n_writers (ps_pipe s)) (negb ((nr =? 0) && (n_writers (ps_pipe s) =? 0)))) as ->.
    { injection E as <- _. unfold set_refs. simpl. rewrite U.
      destruct (Z.eqb_spec nr 0), (Z.eqb_spec (n_writers (ps_pipe s)) 0), (Z.eqb_spec (n_readers (ps_pipe s)) 0);
        simpl; done || lia. }
    injection E as _ <-. constructor; simpl; [done | by case_if | done | |].
    + intros u Hu. assert (u ∈ queue (ps_world s) (read_wait (ps_pipe s))) as Hu'.
      { revert Hu. case_if; [| done]. by rewrite Ww, decide_False. }
      by apply Hr.
    + intros u. case_if; [rewrite Ww, decide_True by done; by rewrite elem_of_nil |].
      intros Hu. destruct (Hw u Hu) as (c & Hc & b & nb & at' & -> & M & _). exists (Wr b nb at').
      split; [done |]. exists b, nb, at'. split_and!; [done | done | simpl; lia].
  - set (nw := n_writers (ps_pipe s) - 1) in *. specialize (Wf (n_readers (ps_pipe s)) nw ltac:(lia) ltac:(lia)).
    assert (p' = set_refs (ps_pipe s) (n_readers (ps_pipe s)) nw (negb ((n_readers (ps_pipe s) =? 0) && (nw =? 0)))) as ->.
    { injection E as <- _. unfold set_refs. simpl. rewrite U.
      destruct (Z.eqb_spec nw 0), (Z.eqb_spec (n_writers (ps_pipe s)) 0), (Z.eqb_spec (n_readers (ps_pipe s)) 0);
        simpl; done || lia. }
    injection E as _ <-. constructor; simpl; [done | by case_if | done | |].
    + intros u. case_if; [rewrite Wrd, decide_True by done; by rewrite elem_of_nil |].
      intros Hu. destruct (Hr u Hu) as (c & Hc & len & nb & -> & M & _). exists (Rd len nb).
      split; [done |]. exists len, nb. split_and!; [done | done | simpl; lia].
    + intros u Hu. assert (u ∈ queue (ps_world s) (write_wait (ps_pipe s))) as Hu'.
      { revert Hu. case_if; [| done]. rewrite Wrd, decide_False by congruence. done. }
      by apply Hw.
Qed.

Lemma ref_inv s side :
  psys_inv s -> used (ps_pipe s) = true ->
  n_readers (ps_pipe s) < 2 ^ 31 - 1 -> n_writers (ps_pipe s) < 2 ^ 31 - 1 ->
  psys_inv (mkPsys (pipe_ref_locked (ps_pipe s) side) (ps_world s) (ps_calls s) (ps_in s) (ps_out s)).
Proof.
  intros [W I Hs Hr Hw] Hu H1 H2. destruct W as [B T C H R N U Q]. unfold pipe_ref_locked.
  destruct (side =? 0); rewrite i32_small by lia.
  - constructor; simpl; try done.
    + constructor; simpl; try done; try lia. rewrite Hu. symmetry.
      apply negb_true_iff, andb_false_iff. left. apply Z.eqb_neq. lia.
    + intros u Hq. destruct (Hw u Hq) as (c & Hc & b & nb & at' & -> & M & ?). exists (Wr b nb at').
      split; [done |]. exists b, nb, at'. split_and!; [done | done | simpl; lia].
  - constructor; simpl; try done.
    + constructor; simpl; try done; try lia. rewrite Hu. symmetry.
      apply negb_true_iff, andb_false_iff. right. apply Z.eqb_neq. lia.
    + intros u Hq. destruct (Hr u Hq) as (c & Hc & len & nb & -> & M & ?). exists (Rd len nb).
      split; [done |]. exists len, nb. split_and!; [done | done | simpl; lia].
Qed.

Lemma pstep_inv s s' : psys_inv s -> pstep s s' -> psys_inv s'.
Proof.
  intros Inv H. destruct H as [s t c canc r p' w' Hok _ Hn E | s side Hu H1 H2 | s side p' w' Hp E | s t].
  - destruct c as [len nb | bytes nb atomic]; simpl in *; [by eapply inv_read | by eapply inv_write].
  - by apply ref_inv.
  - by eapply unref_inv.
  - destruct Inv as [W I Hs Hr Hw]. destruct (cancel_thread_spec _ t I) as (I' & Hq & _ & _).
    constructor; simpl; try done; intros u; rewrite Hq, list_elem_of_filter; intros [_ Hu]; auto.
Qed.

(** A pipe as [pipe_create] leaves it, with nobody using it yet. *)
Definition fresh_pipe (rq wq id : Z) : pipe :=
  mkPipe (replicate (Z.to_nat PIPE_BUF_SIZE) 0) 0 0 0 1 1 rq wq true id.

Lemma fresh_pipe_wf rq wq id : rq <> wq -> pipe_wf (fresh_pipe rq wq id).
Proof. intros. constructor; simpl; try done; unfold PIPE_BUF_SIZE; try lia. Qed.

Definition start (rq wq id : Z) (w : world) : psys := mkPsys (fresh_pipe rq wq id) w ∅ [] [].

Definition quiet_world (rq wq : Z) (w : world) : Prop :=
  wq_inv w /\ queue w rq = [] /\ queue w wq = [].

Lemma start_inv rq wq id w : rq <> wq -> quiet_world rq wq w -> psys_inv (start rq wq id w).
Proof.
  intros Hne (I & Hr & Hw). constructor; simpl.
  - by apply fresh_pipe_wf.
  - done.
  - done.
  - intros t. rewrite Hr. by rewrite elem_of_nil.
  - intros t. rewrite Hw. by rewrite elem_of_nil.
Qed.

Lemma reachable_inv rq wq id w s :
  rq <> wq -> quiet_world rq wq w -> rtc pstep (start rq wq id w) s -> psys_inv s.
Proof.
  intros Hne Hq H. apply start_inv with (id := id) in Hq; [| done]. revert Hq.
  induction H as [s | s1 s2 s3 H12 _ IH]; [done |]. intros Inv. by apply IH, (pstep_inv s1).
Qed.

(** No lost wakeup: however threads read, write, take and drop references
    and are cancelled, in any interleaving, a thread sleeps on a pipe only
    while its call cannot proceed: a sleeping reader has an empty pipe with a
    writer left, a sleeping writer has no room for its data and a reader left. *)
Theorem pipe_no_lost_wakeup rq wq id w s t :
  rq <> wq -> quiet_world rq wq w -> rtc pstep (start rq wq id w) s ->
  (t ∈ queue (ps_world s) (read_wait (ps_pipe s)) ->
   exists len nb, ps_calls s !! t = Some (Rd len nb)
     /\ contents (ps_pipe s) = [] /\ 0 < n_writers (ps_pipe s))
  /\ (t ∈ queue (ps_world s) (write_wait (ps_pipe s)) ->
      exists bytes nb atomic, ps_calls s !! t = Some (Wr bytes nb atomic)
        /\ write_must_wait (ps_pipe s) (zlen bytes) atomic = true /\ 0 < n_readers (ps_pipe s)).
Proof.
  intros Hne Hq H. pose proof (reachable_inv _ _ _ _ _ Hne Hq H) as Inv. split; intros Ht.
  - destruct (si_readers _ Inv t Ht) as (c & Hc & len & nb & -> & M & N). exists len, nb.
    split_and!; [done | | done]. by apply count_zero; [apply Inv |].
  - destruct (si_writers _ Inv t Ht) as (c & Hc & b & nb & at' & -> & M & N). by exists b, nb, at'.
Qed.

(** C35. The pipe is a byte stream: in every reachable state what the writes
    accepted is what the reads returned followed by what is buffered, so bytes
    are neither lost, duplicated nor reordered, and at most [PIPE_BUF_SIZE]
    are in flight. *)
Theorem pipe_is_a_stream rq wq id w s :
  rq <> wq -> quiet_world rq wq w -> rtc pstep (start rq wq id w) s ->
  ps_in s = ps_out s ++ contents (ps_pipe s) /\ zlen (contents (ps_pipe s)) <= PIPE_BUF_SIZE.
Proof.
  intros Hne Hq H. pose proof (reachable_inv _ _ _ _ _ Hne Hq H) as Inv.
  split; [apply Inv |]. rewrite contents_length. pose proof (pw_count _ (si_pipe _ Inv)). lia.
Qed.

(** ** Witnesses *)

(** A pipe whose reader 5 sleeps, after which writer 6 writes three bytes. *)
Definition demo_start : psys := start 1 2 1 empty_world.
Definition demo_asleep : psys :=
  mkPsys (ps_pipe demo_start) (wait_queue_block 1 5 empty_world) (<[5 := Rd 10 false]> ∅) [] [].
Definition demo_pipe : pipe := fst (write_loop (fresh_pipe 1 2 1) [7; 8; 9] 0).

Lemma quiet_empty : quiet_world 1 2 empty_world.
Proof. split; [apply empty_world_inv | done]. Qed.

Lemma demo_asleep_reachable : rtc pstep demo_start demo_asleep.
Proof.
  apply rtc_once.
  exact (step_try demo_start 5 (Rd 10 false) false Blocked _ _ ltac:(simpl; lia) (or_introl eq_refl)
           eq_refl eq_refl).
Qed.

Lemma demo_pipe_wf : pipe_wf demo_pipe.
Proof.
  unfold demo_pipe.
  destruct (write_loop_spec [7; 8; 9] (fresh_pipe 1 2 1) 0) as (p' & -> & _ & W & _); [| exact W].
  by apply fresh_pipe_wf.
Qed.

Lemma pipe_read_exact_witness :
  exists p' w', pipe_read_try demo_pipe 2 false 5 false empty_world
    = (ReadDone Errno.EMBK_OK [7; 8], p', w') /\ contents p' = [9].
Proof.
  pose proof (pipe_read_exact demo_pipe 2 false 5 false empty_world demo_pipe_wf ltac:(lia)) as H.
  assert (contents demo_pipe = [7; 8; 9]) as E by (vm_compute; reflexivity). rewrite E in H.
  destruct H as (p' & Er & Ec & _). exists p', (wait_queue_wake_all (write_wait demo_pipe) empty_world).
  split; [exact Er | exact Ec].
Defined.

Lemma pipe_write_exact_witness :
  exists p' w', pipe_write_try demo_pipe [1; 2] false true 6 false empty_world
    = (WriteDone Errno.EMBK_OK 2, p', w') /\ contents p' = [7; 8; 9; 1; 2].
Proof.
  pose proof (pipe_write_exact demo_pipe [1; 2] false true 6 false empty_world demo_pipe_wf ltac:(discriminate)) as H.
  assert (contents demo_pipe = [7; 8; 9]) as E by (vm_compute; reflexivity). rewrite E in H.
  destruct H as (p' & Er & Ec & _). exists p', (wait_queue_wake_all (read_wait demo_pipe) empty_world).
  split; [exact Er | exact Ec].
Defined.

Lemma pipe_no_lost_wakeup_witness :
  exists len nb, ps_calls demo_asleep !! 5 = Some (Rd len nb) /\ contents (ps_pipe demo_asleep) = [].
Proof.
  destruct (pipe_no_lost_wakeup 1 2 1 empty_world demo_asleep 5 ltac:(lia) quiet_empty
              demo_asleep_reachable) as [H _].
  destruct H as (len & nb & Hc & E & _).
  - change (5 ∈ [5]). apply list_elem_of_here.
  - exists len, nb. split; [exact Hc | exact E].
Defined.

Lemma pipe_is_a_stream_witness : ps_in demo_asleep = ps_out demo_asleep ++ contents (ps_pipe demo_asleep).
Proof.
  apply (pipe_is_a_stream 1 2 1 empty_world demo_asleep ltac:(lia) quiet_empty demo_asleep_reachable).
Defined.
