(* ===== verification/Handle.v ===== *)
(** * The object-handle table ([kernel/ipc/handle.c])

    The per-process table naming surfaces, channel ends, endpoints and pipe
    ends.  What releasing an object of each kind does belongs to the component
    that owns the kind: the class [KindOps] is that interface, and the table's
    theorems hold for every implementation of it. *)

From S2P Require Import Prelude.

Definition OBJ_HANDLE_MAX : Z := 32.

Inductive handle_kind :=
  | HANDLE_KIND_NONE | HANDLE_KIND_SURFACE | HANDLE_KIND_CHANNEL
  | HANDLE_KIND_ENDPOINT | HANDLE_KIND_PIPE.

#[export] Instance handle_kind_eq_dec : EqDecision handle_kind.
Proof. solve_decision. Defined.

Record obj_handle := mkHandle {
  h_kind : handle_kind;
  h_obj : Z;               (* the object's address; 0 is NULL *)
  map_base : Z;
  map_bytes : Z;
  h_used : bool;
}.

Definition null_handle : obj_handle := mkHandle HANDLE_KIND_NONE 0 0 0 false.

Definition hget (t : list obj_handle) (i : Z) : obj_handle := default null_handle (t !! Z.to_nat i).

(** ** Operations *)

(** [for (i = 0; i < OBJ_HANDLE_MAX; i++) if (!used) { ...; return i; }] *)
Fixpoint alloc_from (t : list obj_handle) (i : Z) (k : handle_kind) (obj : Z) : Z * list obj_handle :=
  match t with
  | [] => (- Errno.EMBK_EMFILE, [])
  | h :: t =>
      if negb (h_used h) then (i, mkHandle k obj 0 0 true :: t)
      else let '(r, t) := alloc_from t (i + 1) k obj in (r, h :: t)
  end.

Definition obj_handle_alloc (t : list obj_handle) (k : handle_kind) (obj : Z) : Z * list obj_handle :=
  alloc_from t 0 k obj.

Definition obj_handle_resolve (t : list obj_handle) (handle : Z) (expect : handle_kind) : Z :=
  if (handle <? 0) || (OBJ_HANDLE_MAX <=? handle) then 0
  else
    let h := hget t handle in
    if negb (h_used h) || negb (bool_decide (h_kind h = expect)) then 0 else h_obj h.

(** The kind-specific teardown the dispatch calls, on the state [St] of the
    components that own the objects.  The locked and self-locking variants do
    the same work, so there is one function per kind. *)
Class KindOps (St : Type) := {
  surface_release_for_handle : obj_handle -> St -> St;
  channel_release_for_handle : obj_handle -> St -> St;
  endpoint_release_for_handle : obj_handle -> St -> St;
  pipe_release_for_handle : Z -> St -> St;
}.

Section Dispatch.
Context {St : Type} `{KindOps St}.

Definition release_object (h : obj_handle) (st : St) : St :=
  match h_kind h with
  | HANDLE_KIND_SURFACE => surface_release_for_handle h st
  | HANDLE_KIND_CHANNEL => channel_release_for_handle h st
  | HANDLE_KIND_ENDPOINT => endpoint_release_for_handle h st
  | HANDLE_KIND_PIPE => pipe_release_for_handle (h_obj h) st
  | HANDLE_KIND_NONE => st
  end.

Definition obj_handle_free (t : list obj_handle) (handle : Z) (st : St) : list obj_handle * St :=
  if (handle <? 0) || (OBJ_HANDLE_MAX <=? handle) then (t, st)
  else
    let h := hget t handle in
    if negb (h_used h) then (t, st)
    else (wr t handle null_handle, release_object h st).

Definition obj_handles_release_all (t : list obj_handle) (st : St) : list obj_handle * St :=
  for_range (Z.to_nat OBJ_HANDLE_MAX) 0
    (fun i ts => if h_used (hget (fst ts) i) then obj_handle_free (fst ts) i (snd ts) else ts) (t, st).
End Dispatch.

(** ** Well-formed tables: full length, unused slots cleared *)

Record handles_wf (t : list obj_handle) : Prop := {
  hw_len : length t = Z.to_nat OBJ_HANDLE_MAX;
  hw_clear : Forall (fun h => h_used h = false -> h = null_handle) t;
}.

Lemma hget_wr t i j h :
  0 <= i -> 0 <= j < Z.of_nat (length t) -> hget (wr t j h) i = if i =? j then h else hget t i.
Proof.
  intros Hi Hj. unfold hget, wr. destruct (Z.eqb_spec i j) as [-> |].
  - by rewrite list_lookup_insert_eq by lia.
  - by rewrite list_lookup_insert_ne by lia.
Qed.

(** The first free slot, or none. *)
Lemma alloc_from_spec t i k obj :
  let '(r, t') := alloc_from t i k obj in
  (Forall (fun h => h_used h = true) t /\ r = - Errno.EMBK_EMFILE /\ t' = t)
  \/ (exists n, r = i + Z.of_nat n /\ (n < length t)%nat
      /\ h_used (default null_handle (t !! n)) = false
      /\ Forall (fun h => h_used h = true) (take n t)
      /\ t' = <[n := mkHandle k obj 0 0 true]> t).
Proof.
  revert i. induction t as [| h t IH]; intros i; simpl; [by left; split_and!; try constructor |].
  destruct (h_used h) eqn:E; simpl.
  - specialize (IH (i + 1)). destruct (alloc_from t (i + 1) k obj) as [r t'].
    destruct IH as [(Ha & -> & ->) | (n & -> & Hn & Hu & Hp & ->)].
    + left. split_and!; [by constructor | done | done].
    + right. exists (S n). simpl. split_and!; [lia | lia | done | by constructor | done].
  - right. exists 0%nat. simpl. split_and!; [lia | lia | done | constructor | done].
Qed.

Lemma wr_clear_wf t i h : handles_wf t -> (h_used h = false -> h = null_handle) -> handles_wf (wr t i h).
Proof. intros [L C] Hh. constructor; [by rewrite wr_length | by apply wr_Forall]. Qed.

(** What an allocation gives. *)
Lemma alloc_cases t k obj :
  handles_wf t ->
  let '(r, t') := obj_handle_alloc t k obj in
  (r = - Errno.EMBK_EMFILE /\ t' = t /\ forall i, 0 <= i < OBJ_HANDLE_MAX -> h_used (hget t i) = true)
  \/ (0 <= r < OBJ_HANDLE_MAX /\ h_used (hget t r) = false /\ hget t r = null_handle
      /\ (forall i, 0 <= i < r -> h_used (hget t i) = true)
      /\ t' = wr t r (mkHandle k obj 0 0 true) /\ handles_wf t').
Proof.
  intros W. unfold obj_handle_alloc. pose proof (alloc_from_spec t 0 k obj) as H.
  destruct (alloc_from t 0 k obj) as [r t']. pose proof (hw_len _ W) as L.
  assert (Z.of_nat (length t) = OBJ_HANDLE_MAX) as L' by (rewrite L; done).
  destruct H as [(Ha & -> & ->) | (n & -> & Hn & Hu & Hp & ->)].
  - left. split_and!; [done | done |]. intros i Hi. unfold hget.
    destruct (lookup_lt_is_Some_2 t (Z.to_nat i)) as [h Hh]; [lia |]. rewrite Hh. simpl.
    by eapply (Forall_lookup_1 _ _ _ _ Ha).
  - right. rewrite Z.add_0_l. unfold hget, wr. rewrite Nat2Z.id.
    destruct (lookup_lt_is_Some_2 t n) as [h Hh]; [lia |]. rewrite Hh in *. simpl in *.
    split_and!; [lia | lia | done | | | done | ].
    + by apply (Forall_lookup_1 _ _ _ _ (hw_clear _ W) Hh).
    + intros i Hi. destruct (lookup_lt_is_Some_2 t (Z.to_nat i)) as [h' Hh']; [lia |].
      rewrite Hh'. simpl. apply (Forall_lookup_1 _ _ (Z.to_nat i) _ Hp).
      by rewrite lookup_take_lt by lia.
    + constructor; [by rewrite length_insert | by apply Forall_insert; [apply W |]].
Qed.

Lemma resolve_unused t i e : 0 <= i -> h_used (hget t i) = false -> obj_handle_resolve t i e = 0.
Proof. intros Hi Hu. unfold obj_handle_resolve. case_if; [done |]. by rewrite Hu. Qed.

Lemma resolve_wr_eq t i k obj :
  0 <= i < OBJ_HANDLE_MAX -> Z.of_nat (length t) = OBJ_HANDLE_MAX ->
  obj_handle_resolve (wr t i (mkHandle k obj 0 0 true)) i k = obj.
Proof.
  intros Hi L. unfold obj_handle_resolve.
  assert ((i <? 0) || (OBJ_HANDLE_MAX <=? i) = false) as -> by (apply orb_false_iff; lia).
  rewrite hget_wr, Z.eqb_refl by lia. simpl. by rewrite bool_decide_eq_true_2.
Qed.

Lemma resolve_wr_ne t i j h k :
  0 <= j < OBJ_HANDLE_MAX -> Z.of_nat (length t) = OBJ_HANDLE_MAX -> i <> j ->
  obj_handle_resolve (wr t j h) i k = obj_handle_resolve t i k.
Proof.
  intros Hj L Hne. unfold obj_handle_resolve.
  destruct ((i <? 0) || (OBJ_HANDLE_MAX <=? i)) eqn:Ei; [done |]. b2p.
  rewrite hget_wr by lia. by destruct (Z.eqb_spec i j).
Qed.

(** ** Theorems *)

(** A handle is a capability: a successful allocation takes the lowest free
    slot, the new handle resolves to exactly the object and kind it was made
    for and to nothing under any other kind, no other handle changes what it
    resolves to, and a full table is refused unchanged. *)
Theorem obj_handle_alloc_resolve t k obj :
  handles_wf t ->
  let '(r, t') := obj_handle_alloc t k obj in
  (r = - Errno.EMBK_EMFILE /\ t' = t /\ (forall i, 0 <= i < OBJ_HANDLE_MAX -> h_used (hget t i) = true))
  \/ (0 <= r < OBJ_HANDLE_MAX
      /\ (forall i, 0 <= i < r -> h_used (hget t i) = true)
      /\ (forall e, obj_handle_resolve t r e = 0)
      /\ (forall e, obj_handle_resolve t' r e = if decide (e = k) then obj else 0)
      /\ (forall i e, i <> r -> obj_handle_resolve t' i e = obj_handle_resolve t i e)
      /\ handles_wf t').
Proof.
  intros W. pose proof (alloc_cases t k obj W) as H. destruct (obj_handle_alloc t k obj) as [r t'].
  destruct H as [? | (Hr & Hu & Hnull & Hlow & -> & W')]; [by left |]. right.
  assert (Z.of_nat (length t) = OBJ_HANDLE_MAX) as L by (rewrite (hw_len _ W); done).
  assert ((r <? 0) || (OBJ_HANDLE_MAX <=? r) = false) as Er by (apply orb_false_iff; lia).
  split_and!; [lia | lia | done | | | | done].
  - intros e. unfold obj_handle_resolve. by rewrite Er, Hu.
  - intros e. unfold obj_handle_resolve. rewrite Er, hget_wr, Z.eqb_refl by lia. simpl.
    destruct (decide (e = k)) as [-> | Hne].
    + by rewrite bool_decide_eq_true_2.
    + by rewrite bool_decide_eq_false_2 by congruence.
  - intros i e Hi. unfold obj_handle_resolve.
    destruct ((i <? 0) || (OBJ_HANDLE_MAX <=? i)) eqn:Ei; [done |]. b2p.
    rewrite hget_wr by lia. by destruct (Z.eqb_spec i r).
Qed.

Definition demo_handles : list obj_handle :=
  mkHandle HANDLE_KIND_SURFACE 4096 0 0 true :: replicate 31 null_handle.

Lemma demo_handles_wf : handles_wf demo_handles.
Proof. constructor; [done |]. repeat constructor; done. Qed.

Lemma obj_handle_alloc_resolve_witness :
  obj_handle_resolve (snd (obj_handle_alloc demo_handles HANDLE_KIND_PIPE 64)) 1 HANDLE_KIND_PIPE = 64
  /\ obj_handle_resolve (snd (obj_handle_alloc demo_handles HANDLE_KIND_PIPE 64)) 1 HANDLE_KIND_SURFACE = 0.
Proof.
  pose proof (obj_handle_alloc_resolve demo_handles HANDLE_KIND_PIPE 64 demo_handles_wf) as H.
  assert (fst (obj_handle_alloc demo_handles HANDLE_KIND_PIPE 64) = 1) as E by reflexivity.
  destruct (obj_handle_alloc demo_handles HANDLE_KIND_PIPE 64) as [r t']. simpl in E. subst r.
  destruct H as [(H & _) | (_ & _ & _ & H & _)]; [discriminate |].
  simpl. rewrite !H. split; reflexivity.
Defined.

Section Release.
Context {St : Type} `{KindOps St}.

(** The object is released exactly once, and the handle names nothing. *)
Lemma free_cases t i (st : St) :
  handles_wf t -> 0 <= i < OBJ_HANDLE_MAX ->
  obj_handle_free t i st =
  if h_used (hget t i) then (wr t i null_handle, release_object (hget t i) st) else (t, st).
Proof.
  intros W Hi. unfold obj_handle_free.
  assert ((i <? 0) || (OBJ_HANDLE_MAX <=? i) = false) as -> by (apply orb_false_iff; lia).
  by destruct (h_used (hget t i)).
Qed.

Lemma release_from n p t (st : St) :
  handles_wf t -> 0 <= p -> p + Z.of_nat n <= OBJ_HANDLE_MAX ->
  let f := fun i ts => if h_used (hget (fst ts) i) then obj_handle_free (fst ts) i (snd ts) else ts in
  let r := for_range n p f (t, st) in
  handles_wf (fst r)
  /\ (forall i, 0 <= i < OBJ_HANDLE_MAX ->
        hget (fst r) i = if (p <=? i) && (i <? p + Z.of_nat n) then null_handle else hget t i)
  /\ snd r = fold_left (fun st h => if h_used h then release_object h st else st)
                       (take n (drop (Z.to_nat p) t)) st.
Proof.
  revert p t st. induction n as [| n IH]; intros p t st W Hp Hn; simpl for_range.
  - split_and!; [done | | done]. intros i Hi.
    by destruct (Z.leb_spec p i), (Z.ltb_spec i (p + Z.of_nat 0)); try lia.
  - assert (Z.of_nat (length t) = OBJ_HANDLE_MAX) as L by (rewrite (hw_len _ W); done).
    destruct (lookup_lt_is_Some_2 t (Z.to_nat p)) as [h Hh]; [lia |].
    assert (hget t p = h) as Eh by (unfold hget; by rewrite Hh). rewrite (drop_S t h _ Hh). cbn [take fold_left fst snd].
    replace (S (Z.to_nat p)) with (Z.to_nat (p + 1)) by lia.
    set (t1 := if h_used h then wr t p null_handle else t).
    assert ((if h_used (hget t p) then obj_handle_free t p st else (t, st))
            = (t1, if h_used h then release_object h st else st)) as ->.
    { unfold t1. rewrite free_cases, Eh by (done || lia). by destruct (h_used h). }
    assert (handles_wf t1) as W1 by (unfold t1; case_if; [by apply wr_clear_wf | done]).
    assert (forall i, 0 <= i < OBJ_HANDLE_MAX -> hget t1 i = if i =? p then null_handle else hget t i) as Ht1.
    { intros i Hi. unfold t1. case_if; [by rewrite hget_wr by lia |].
      destruct (Z.eqb_spec i p) as [-> |]; [| done]. rewrite Eh.
      by apply (Forall_lookup_1 _ _ _ _ (hw_clear _ W) Hh). }
    destruct (IH (p + 1) t1 (if h_used h then release_object h st else st) W1 ltac:(lia) ltac:(lia))
      as (W2 & Hg & Hs). split_and!; [done | |].
    + intros i Hi. rewrite Hg, Ht1 by done.
      destruct (Z.leb_spec (p + 1) i), (Z.leb_spec p i), (Z.ltb_spec i (p + 1 + Z.of_nat n)),
        (Z.ltb_spec i (p + Z.of_nat (S n))), (Z.eqb_spec i p); simpl; try done; lia.
    + rewrite Hs. f_equal. unfold t1. case_if; [| done]. unfold wr. rewrite drop_insert_lt by lia. done.
Qed.

(** A dying process leaves nothing behind: releasing all handles tears down
    the object of every used slot exactly once, in slot order, touches no
    other, and clears the whole table. *)
Theorem obj_handles_release_all_spec t (st : St) :
  handles_wf t ->
  let '(t', st') := obj_handles_release_all t st in
  t' = replicate (Z.to_nat OBJ_HANDLE_MAX) null_handle
  /\ st' = fold_left (fun st h => release_object h st) (filter (fun h => h_used h = true) t) st.
Proof.
  intros W. unfold obj_handles_release_all.
  destruct (release_from (Z.to_nat OBJ_HANDLE_MAX) 0 t st W ltac:(lia) ltac:(done)) as (W' & Hg & Hs).
  destruct (for_range _ _ _ _) as [t' st']. cbn [fst snd] in *. split.
  - apply list_eq_same_length with (Z.to_nat OBJ_HANDLE_MAX); [by rewrite length_replicate | apply W' |].
    intros i x y Hi Hx Hy. apply lookup_replicate in Hy as [-> _].
    specialize (Hg (Z.of_nat i)). unfold hget in Hg. rewrite Nat2Z.id, Hx in Hg. simpl default in Hg.
    assert (0 <= Z.of_nat i < OBJ_HANDLE_MAX) as Hr by (unfold OBJ_HANDLE_MAX in *; lia).
    rewrite Hg by done. rewrite Z2Nat.id by done.
    destruct (Z.leb_spec 0 (Z.of_nat i)), (Z.ltb_spec (Z.of_nat i) (0 + OBJ_HANDLE_MAX)); simpl; try done; lia.
  - rewrite Hs. change (Z.to_nat 0) with 0%nat. rewrite drop_0, take_ge by (by rewrite (hw_len _ W)). clear. revert st.
    induction t as [| h t IH]; intros st; [done |]. rewrite filter_cons. simpl.
    rewrite IH. by destruct (h_used h).
Qed.
End Release.

(** An owner that records the objects it is asked to release. *)
Definition log_ops : KindOps (list Z) := {|
  surface_release_for_handle := fun h l => l ++ [h_obj h];
  channel_release_for_handle := fun h l => l ++ [h_obj h];
  endpoint_release_for_handle := fun h l => l ++ [h_obj h];
  pipe_release_for_handle := fun o l => l ++ [o];
|}.

Lemma obj_handles_release_all_spec_witness :
  snd (obj_handles_release_all (H := log_ops) demo_handles []) = [4096].
Proof.
  pose proof (obj_handles_release_all_spec (H := log_ops) demo_handles [] demo_handles_wf) as H.
  destruct (obj_handles_release_all (H := log_ops) demo_handles []) as [t' st'].
  destruct H as [_ ->]. reflexivity.
Defined.
