(* ===== verification/PipeTable.v ===== *)
(** * The pipe table and [pipe_create] ([kernel/ipc/pipe.c])

    The static tables of pipes and pipe ends, their installation as handles of
    the calling process, and the teardown the handle table dispatches to.  An
    end is named by its address, here its index plus one. *)

From S2P Require Import Prelude Bytes WaitQueue Handle Pipe.

Definition PIPE_MAX : Z := 32.

Record pipe_end := mkEnd { pe_p : nat; pe_side : Z; pe_used : bool }.

Record pipes := mkPipes {
  g_pipes : list pipe;
  g_pipe_ends : list pipe_end;
  g_next_pipe_id : Z;
  g_world : world;
}.

Definition end_addr (j : nat) : Z := Z.of_nat j + 1.
Definition addr_end (a : Z) : nat := Z.to_nat (a - 1).

(** The embedded wait queues of pipe [i]. *)
Definition read_wait_of (i : nat) : wqid := 2 * Z.of_nat i.
Definition write_wait_of (i : nat) : wqid := 2 * Z.of_nat i + 1.

Definition null_pipe : pipe := mkPipe [] 0 0 0 0 0 0 0 false 0.
Definition null_end : pipe_end := mkEnd 0 0 false.
Definition pget (s : pipes) (i : nat) : pipe := default null_pipe (g_pipes s !! i).
Definition eget (s : pipes) (j : nat) : pipe_end := default null_end (g_pipe_ends s !! j).

Definition pset (i : nat) (p : pipe) (s : pipes) : pipes :=
  mkPipes (<[i := p]> (g_pipes s)) (g_pipe_ends s) (g_next_pipe_id s) (g_world s).
Definition eset (j : nat) (e : pipe_end) (s : pipes) : pipes :=
  mkPipes (g_pipes s) (<[j := e]> (g_pipe_ends s)) (g_next_pipe_id s) (g_world s).
Definition wset (w : world) (s : pipes) : pipes :=
  mkPipes (g_pipes s) (g_pipe_ends s) (g_next_pipe_id s) w.

(** [for (i = 0; i < n; i++) if (!a[i].used) ...]: the first unused index. *)
Fixpoint first_unused (l : list bool) (i : nat) : option nat :=
  match l with
  | [] => None
  | u :: l => if negb u then Some i else first_unused l (S i)
  end.

(** The loop that picks the two ends: the first unused index and the next. *)
Definition two_unused (l : list bool) : option (nat * nat) :=
  match first_unused l 0 with
  | None => None
  | Some re =>
      match first_unused (drop (S re) l) (S re) with
      | None => None
      | Some we => Some (re, we)
      end
  end.

Definition unref_at (i : nat) (side : Z) (s : pipes) : pipes :=
  let '(p, w) := pipe_unref_locked (pget s i) side (g_world s) in wset w (pset i p s).

Definition pipe_release_for_handle_locked (obj_end : Z) (s : pipes) : pipes :=
  let e := eget s (addr_end obj_end) in
  if (obj_end =? 0) || negb (pe_used e) then s
  else
    let s := unref_at (pe_p e) (pe_side e) s in
    eset (addr_end obj_end) (mkEnd (pe_p e) (pe_side e) false) s.

Definition pipe_live_count (s : pipes) : Z :=
  countb (fun i => used (pget s (Z.to_nat i))) (Z.to_nat PIPE_MAX).

(** [memset(p, 0, sizeof *p)] and the assignments after it. *)
Definition init_pipe (i : nat) (s : pipes) : pipes :=
  let w := set_queue (read_wait_of i) [] (set_queue (write_wait_of i) [] (g_world s)) in
  mkPipes (<[i := fresh_pipe (read_wait_of i) (write_wait_of i) (g_next_pipe_id s)]> (g_pipes s))
          (g_pipe_ends s) (!32 (g_next_pipe_id s + 1)) w.

Section Create.
Context {Oth : Type} (release_other : handle_kind -> obj_handle -> Oth -> Oth).

(** The pipes' side of the handle interface; the other kinds act on the rest
    of the kernel's state. *)
#[local] Instance pipe_kind_ops : KindOps (pipes * Oth) := {|
  surface_release_for_handle := fun h st => (fst st, release_other HANDLE_KIND_SURFACE h (snd st));
  channel_release_for_handle := fun h st => (fst st, release_other HANDLE_KIND_CHANNEL h (snd st));
  endpoint_release_for_handle := fun h st => (fst st, release_other HANDLE_KIND_ENDPOINT h (snd st));
  pipe_release_for_handle := fun o st => (pipe_release_for_handle_locked o (fst st), snd st);
|}.

Definition clear_end (j : nat) (s : pipes) : pipes :=
  eset j (mkEnd (pe_p (eget s j)) (pe_side (eget s j)) false) s.

(** [(rc, read handle, write handle)] with the new table and state. *)
Definition pipe_create (t : list obj_handle) (st : pipes * Oth)
  : (Z * Z * Z) * list obj_handle * (pipes * Oth) :=
  let '(s, o) := st in
  match first_unused (used <$> g_pipes s) 0 with
  | None => ((- Errno.EMBK_ENFILE, 0, 0), t, st)
  | Some i =>
      match two_unused (pe_used <$> g_pipe_ends s) with
      | None => ((- Errno.EMBK_ENFILE, 0, 0), t, st)
      | Some (re, we) =>
          let s := init_pipe i s in
          let s := eset re (mkEnd i 0 true) s in
          let s := eset we (mkEnd i 1 true) s in
          let '(rh, t) := obj_handle_alloc t HANDLE_KIND_PIPE (end_addr re) in
          if rh <? 0 then
            let s := unref_at i 1 (unref_at i 0 s) in
            ((rh, 0, 0), t, (clear_end we (clear_end re s), o))
          else
            let '(wh, t) := obj_handle_alloc t HANDLE_KIND_PIPE (end_addr we) in
            if wh <? 0 then
              let '(t, (s, o)) := obj_handle_free t rh (s, o) in
              ((wh, 0, 0), t, (clear_end we (unref_at i 1 s), o))
            else ((Errno.EMBK_OK, rh, wh), t, (s, o))
      end
  end.
End Create.

(** ** Which slots are taken *)

Definition pipe_flags (s : pipes) : list bool := used <$> g_pipes s.
Definition end_flags (s : pipes) : list bool := pe_used <$> g_pipe_ends s.

Lemma first_unused_spec l i :
  match first_unused l i with
  | Some n => (i <= n)%nat /\ l !! (n - i)%nat = Some false
  | None => Forall (eq true) l
  end.
Proof.
  revert i. induction l as [| u l IH]; intros i; simpl; [constructor |].
  destruct u; simpl; [| split; [lia |]; by rewrite Nat.sub_diag].
  specialize (IH (S i)). destruct (first_unused l (S i)) as [n |]; [| by constructor].
  destruct IH as [Hle Hl]. split; [lia |].
  replace (n - i)%nat with (S (n - S i)) by lia. done.
Qed.

Lemma two_unused_spec l re we :
  two_unused l = Some (re, we) -> l !! re = Some false /\ l !! we = Some false /\ re <> we.
Proof.
  unfold two_unused. pose proof (first_unused_spec l 0) as H1.
  destruct (first_unused l 0) as [n |]; [| done]. destruct H1 as [_ H1]. rewrite Nat.sub_0_r in H1.
  pose proof (first_unused_spec (drop (S n) l) (S n)) as H2.
  destruct (first_unused (drop (S n) l) (S n)) as [m |]; [| done]. destruct H2 as [Hle H2].
  intros [= <- <-]. rewrite lookup_drop in H2. replace (S n + (m - S n))%nat with m in H2 by lia.
  split_and!; [done | done | lia].
Qed.

Lemma pget_pset i j p s :
  (i < length (g_pipes s))%nat -> pget (pset i p s) j = if decide (j = i) then p else pget s j.
Proof.
  intros Hi. unfold pget, pset. simpl. destruct (decide (j = i)) as [-> |].
  - by rewrite list_lookup_insert_eq.
  - by rewrite list_lookup_insert_ne.
Qed.

Lemma eget_eset i j e s :
  (i < length (g_pipe_ends s))%nat -> eget (eset i e s) j = if decide (j = i) then e else eget s j.
Proof.
  intros Hi. unfold eget, eset. simpl. destruct (decide (j = i)) as [-> |].
  - by rewrite list_lookup_insert_eq.
  - by rewrite list_lookup_insert_ne.
Qed.

Lemma unref_at_pipes i side s :
  exists p w, pipe_unref_locked (pget s i) side (g_world s) = (p, w)
    /\ unref_at i side s = wset w (pset i p s).
Proof. unfold unref_at. destruct (pipe_unref_locked _ _ _) as [p w]. by exists p, w. Qed.

(** Dropping the two references of a fresh pipe frees its slot. *)
Lemma unref_first p w rq wq id :
  p = fresh_pipe rq wq id ->
  exists w', pipe_unref_locked p 0 w = (set_refs p 0 1 true, w').
Proof. intros ->. eexists. reflexivity. Qed.

Lemma unref_second p w :
  n_readers p = 0 -> n_writers p = 1 ->
  exists w', pipe_unref_locked p 1 w = (set_refs (set_refs p 0 0 (used p)) 0 0 false, w').
Proof.
  intros Hr Hw. unfold pipe_unref_locked. simpl. rewrite Hr, Hw. simpl. eexists. reflexivity.
Qed.

Lemma fmap_insert_flags {A} (f : A -> bool) (l : list A) i x :
  f <$> <[i := x]> l = <[i := f x]> (f <$> l).
Proof. apply list_fmap_insert. Qed.

(** Setting a flag that was clear and clearing it again. *)
Lemma flag_undo (l : list bool) i : l !! i = Some false -> <[i := false]> (<[i := true]> l) = l.
Proof. intros H. rewrite list_insert_insert_eq. by apply list_insert_id. Qed.

Lemma flag_undo2 (l : list bool) i j :
  l !! i = Some false -> l !! j = Some false -> i <> j ->
  <[j := false]> (<[i := false]> (<[j := true]> (<[i := true]> l))) = l.
Proof.
  intros Hi Hj Hne. rewrite (list_insert_insert_ne _ i j) by done.
  rewrite (flag_undo l i Hi). by apply flag_undo.
Qed.

(** ** The state [pipe_create] builds and how it is undone *)

Lemma create_state s i re we :
  (i < length (g_pipes s))%nat -> (re < length (g_pipe_ends s))%nat ->
  (we < length (g_pipe_ends s))%nat -> re <> we ->
  let s1 := eset we (mkEnd i 1 true) (eset re (mkEnd i 0 true) (init_pipe i s)) in
  eget s1 re = mkEnd i 0 true /\ eget s1 we = mkEnd i 1 true
  /\ pget s1 i = fresh_pipe (read_wait_of i) (write_wait_of i) (g_next_pipe_id s)
  /\ pipe_flags s1 = <[i := true]> (pipe_flags s)
  /\ forall j, j <> i -> pget s1 j = pget s j.
Proof.
  intros Li Lr Lw Hne. simpl. split_and!.
  - rewrite !eget_eset by (simpl; rewrite ?length_insert; done). by rewrite decide_False, decide_True.
  - rewrite !eget_eset by (simpl; rewrite ?length_insert; done). by rewrite decide_True.
  - unfold pget. simpl. by rewrite list_lookup_insert_eq.
  - unfold pipe_flags. simpl. by rewrite fmap_insert_flags.
  - intros j Hj. unfold pget. simpl. by rewrite list_lookup_insert_ne.
Qed.

Lemma unref_both s i :
  (i < length (g_pipes s))%nat -> pget s i = fresh_pipe (read_wait_of i) (write_wait_of i) (pipe_id (pget s i)) ->
  pipe_flags (unref_at i 1 (unref_at i 0 s)) = <[i := false]> (pipe_flags s)
  /\ g_pipe_ends (unref_at i 1 (unref_at i 0 s)) = g_pipe_ends s.
Proof.
  intros Li Hf. unfold unref_at at 2. destruct (unref_first _ (g_world s) _ _ _ Hf) as [w1 ->].
  set (s1 := wset w1 (pset i _ s)).
  assert (pget s1 i = set_refs (pget s i) 0 1 true) as E1.
  { unfold s1. change (pget (wset w1 ?x) i) with (pget x i). by rewrite pget_pset, decide_True. }
  unfold unref_at. destruct (unref_second (pget s1 i) (g_world s1)) as [w2 ->]; [by rewrite E1 | by rewrite E1 |].
  split; [| done]. unfold pipe_flags. simpl. rewrite !fmap_insert_flags, list_insert_insert_eq. done.
Qed.

Lemma unref_eset i side j e s : unref_at i side (eset j e s) = eset j e (unref_at i side s).
Proof.
  unfold unref_at. change (pget (eset j e s) i) with (pget s i). change (g_world (eset j e s)) with (g_world s).
  by destruct (pipe_unref_locked _ _ _).
Qed.

Lemma end_flags_eset j e s : end_flags (eset j e s) = <[j := pe_used e]> (end_flags s).
Proof. unfold end_flags. simpl. apply fmap_insert_flags. Qed.

Lemma pipe_flags_eset j e s : pipe_flags (eset j e s) = pipe_flags s.
Proof. done. Qed.

Section Undo.
Context (s : pipes) (i re we : nat).
Context (Hi : pipe_flags s !! i = Some false) (Hre : end_flags s !! re = Some false)
        (Hwe : end_flags s !! we = Some false) (Hne : re <> we).
Let s1 := eset we (mkEnd i 1 true) (eset re (mkEnd i 0 true) (init_pipe i s)).

Lemma undo_lengths :
  (i < length (g_pipes s) /\ re < length (g_pipe_ends s) /\ we < length (g_pipe_ends s))%nat.
Proof using Hi Hre Hwe.
  pose proof (lookup_lt_Some _ _ _ Hi) as H1. pose proof (lookup_lt_Some _ _ _ Hre) as H2.
  pose proof (lookup_lt_Some _ _ _ Hwe) as H3.
  unfold pipe_flags in H1. unfold end_flags in H2, H3.
  rewrite length_fmap in H1. rewrite length_fmap in H2. rewrite length_fmap in H3. done.
Qed.

Lemma undo_unref :
  pipe_flags (unref_at i 1 (unref_at i 0 s1)) = pipe_flags s
  /\ g_pipe_ends (unref_at i 1 (unref_at i 0 s1)) = g_pipe_ends s1.
Proof using Hi Hre Hwe Hne.
  destruct undo_lengths as (Li & Lr & Lw).
  destruct (create_state s i re we Li Lr Lw Hne) as (_ & _ & C3 & C4 & _). fold s1 in C3, C4.
  destruct (unref_both s1 i) as [F E].
  - simpl. by rewrite length_insert.
  - by rewrite C3.
  - split; [| done]. rewrite F, C4. by apply flag_undo.
Qed.

Lemma create_undo :
  let s2 := clear_end we (clear_end re (unref_at i 1 (unref_at i 0 s1))) in
  pipe_flags s2 = pipe_flags s /\ end_flags s2 = end_flags s.
Proof using Hi Hre Hwe Hne.
  destruct undo_unref as [F E]. unfold clear_end. split; [by rewrite !pipe_flags_eset, F |].
  rewrite !end_flags_eset. unfold end_flags at 1. rewrite E. simpl.
  rewrite !fmap_insert_flags. simpl. by apply flag_undo2.
Qed.

Lemma create_release :
  let s2 := clear_end we (unref_at i 1 (pipe_release_for_handle_locked (end_addr re) s1)) in
  pipe_flags s2 = pipe_flags s /\ end_flags s2 = end_flags s.
Proof using Hi Hre Hwe Hne.
  destruct undo_lengths as (Li & Lr & Lw).
  destruct (create_state s i re we Li Lr Lw Hne) as (C1 & _). fold s1 in C1.
  destruct undo_unref as [F E].
  assert (pipe_release_for_handle_locked (end_addr re) s1 = eset re (mkEnd i 0 false) (unref_at i 0 s1)) as ->.
  { unfold pipe_release_for_handle_locked, end_addr, addr_end.
    replace (Z.to_nat (Z.of_nat re + 1 - 1)) with re by lia. rewrite C1. simpl.
    by destruct (Z.eqb_spec (Z.of_nat re + 1) 0); [lia |]. }
  rewrite unref_eset. unfold clear_end. split; [by rewrite !pipe_flags_eset, F |].
  rewrite !end_flags_eset. unfold end_flags at 1. rewrite E. simpl.
  rewrite !fmap_insert_flags. simpl. by apply flag_undo2.
Qed.
End Undo.

(** Creating a pipe is all or nothing.  On success two free slots of the
    handle table resolve to the read and the write end of one fresh empty pipe
    with one reader and one writer, and one more pipe is live.  On any failure
    (pipe table, end table or handle table full, at either allocation) the
    handle table and the set of pipes and ends in use are what they were. *)
Theorem pipe_create_all_or_nothing {Oth} (rel : handle_kind -> obj_handle -> Oth -> Oth) t s o :
  handles_wf t ->
  let '((rc, rh, wh), t', (s', o')) := pipe_create rel t (s, o) in
  o' = o
  /\ ((rc <> Errno.EMBK_OK /\ t' = t /\ pipe_flags s' = pipe_flags s /\ end_flags s' = end_flags s)
      \/ (rc = Errno.EMBK_OK /\ rh <> wh /\ handles_wf t'
          /\ (forall e, obj_handle_resolve t rh e = 0 /\ obj_handle_resolve t wh e = 0)
          /\ exists i re we,
               obj_handle_resolve t' rh HANDLE_KIND_PIPE = end_addr re
               /\ obj_handle_resolve t' wh HANDLE_KIND_PIPE = end_addr we
               /\ eget s' re = mkEnd i 0 true /\ eget s' we = mkEnd i 1 true
               /\ pget s' i = fresh_pipe (read_wait_of i) (write_wait_of i) (g_next_pipe_id s)
               /\ pipe_flags s !! i = Some false /\ pipe_flags s' = <[i := true]> (pipe_flags s)
               /\ forall j, j <> i -> pget s' j = pget s j)).
Proof.
  intros W. unfold pipe_create.
  pose proof (first_unused_spec (used <$> g_pipes s) 0) as Hi.
  destruct (first_unused _ 0) as [i |]; [| split; [done |]; by left].
  destruct Hi as [_ Hi]. rewrite Nat.sub_0_r in Hi.
  destruct (two_unused (pe_used <$> g_pipe_ends s)) as [[re we] |] eqn:E2; [| split; [done |]; by left].
  apply two_unused_spec in E2 as (Hre & Hwe & Hne).
  set (s1 := eset we (mkEnd i 1 true) (eset re (mkEnd i 0 true) (init_pipe i s))).
  assert (i < length (g_pipes s))%nat as Li.
  { apply lookup_lt_Some in Hi. by rewrite length_fmap in Hi. }
  assert (re < length (g_pipe_ends s) /\ we < length (g_pipe_ends s))%nat as [Lr Lw].
  { apply lookup_lt_Some in Hre. apply lookup_lt_Some in Hwe.
    rewrite length_fmap in Hre. by rewrite length_fmap in Hwe. }
  pose proof (create_state s i re we Li Lr Lw Hne) as C. fold s1 in C.
  pose proof (alloc_cases t HANDLE_KIND_PIPE (end_addr re) W) as A1.
  destruct (obj_handle_alloc t HANDLE_KIND_PIPE (end_addr re)) as [rh t1].
  destruct A1 as [(-> & -> & _) | (Hr & Hu & Hnull & _ & -> & W1)].
  { simpl. split; [done |]. left. split; [done |]. split; [done |].
    by apply create_undo. }
  destruct (Z.ltb_spec rh 0); [lia |].
  pose proof (alloc_cases (wr t rh (mkHandle HANDLE_KIND_PIPE (end_addr re) 0 0 true)) HANDLE_KIND_PIPE (end_addr we) W1) as A2.
  destruct (obj_handle_alloc (wr t rh _) HANDLE_KIND_PIPE (end_addr we)) as [wh t2].
  assert (Z.of_nat (length t) = OBJ_HANDLE_MAX) as L by (rewrite (hw_len _ W); done).
  destruct A2 as [(-> & -> & _) | (Hw & Hu2 & Hnull2 & _ & -> & W2)].
  - change (- Errno.EMBK_EMFILE <? 0) with true. cbv iota.
    rewrite (free_cases (H := pipe_kind_ops rel)) by (done || lia).
    rewrite hget_wr, Z.eqb_refl by lia. simpl.
    split; [done |]. left. split_and!; [done | | |].
    + unfold wr. rewrite list_insert_insert_eq. apply list_insert_id.
      unfold hget in Hnull. destruct (lookup_lt_is_Some_2 t (Z.to_nat rh)) as [h Hh]; [lia |].
      rewrite Hh in *. simpl in Hnull. by subst.
    + by apply create_release.
    + by apply create_release.
  - destruct (Z.ltb_spec wh 0); [lia |].
    assert (rh <> wh) as Hdiff.
    { intros <-. rewrite hget_wr, Z.eqb_refl in Hu2 by lia. done. }
    split; [done |]. right. split_and!; [done | done | done | |].
    + intros e. split; (apply (resolve_unused t); [lia |]); [done |].
      rewrite hget_wr in Hu2 by lia. by destruct (Z.eqb_spec wh rh).
    + exists i, re, we. destruct C as (C1 & C2 & C3 & C4 & C5).
      split_and!; try done.
      * rewrite resolve_wr_ne by (rewrite ?wr_length; lia). by rewrite resolve_wr_eq by lia.
      * by rewrite resolve_wr_eq by (rewrite ?wr_length; lia).
Qed.

Definition boot_pipes : pipes :=
  mkPipes (replicate 32 null_pipe) (replicate 64 null_end) 1 empty_world.
Definition no_other : handle_kind -> obj_handle -> unit -> unit := fun _ _ u => u.

Definition one_free : list obj_handle :=
  replicate 31 (mkHandle HANDLE_KIND_SURFACE 1 0 0 true) ++ [null_handle].

Lemma one_free_wf : handles_wf one_free.
Proof. constructor; [done |]. repeat constructor; done. Qed.

(** Creation in a fresh system succeeds; with 31 handles taken the second
    handle cannot be installed and everything is undone. *)
Lemma pipe_create_all_or_nothing_witness :
  fst (fst (fst (pipe_create no_other demo_handles (boot_pipes, tt)))) = (Errno.EMBK_OK, 1)
  /\ snd (fst (pipe_create no_other one_free (boot_pipes, tt))) = one_free
  /\ pipe_flags (fst (snd (pipe_create no_other one_free (boot_pipes, tt)))) = replicate 32 false.
Proof.
  split; [vm_compute; reflexivity |].
  pose proof (pipe_create_all_or_nothing no_other one_free boot_pipes tt one_free_wf) as H.
  assert (fst (fst (fst (fst (pipe_create no_other one_free (boot_pipes, tt))))) = - Errno.EMBK_EMFILE) as E
    by (vm_compute; reflexivity).
  destruct (pipe_create no_other one_free (boot_pipes, tt)) as [[[[rc rh] wh] t'] [s' o']].
  simpl in E. subst rc. destruct H as [_ [(_ & Ht & Hf & _) | (H & _)]]; [| discriminate H].
  split; [exact Ht |]. cbn [fst snd]. rewrite Hf. vm_compute. reflexivity.
Defined.
