(* ===== verification/Ksync.v ===== *)
(** * Sleeping locks ([kernel/process/ksync.c])

    Counting semaphores and mutexes over the wait queues.  [sem_acquire] and
    [mutex_acquire] are loops whose iterations run under the scheduler lock;
    [sem_try] and [mutex_try] are one iteration, and a thread that slept runs
    it again when woken. *)

From S2P Require Import Prelude WaitQueue.

(** ** Semaphores *)

Record semaphore := mkSem { s_count : Z; s_wq : wqid }.

Definition sem_init (wq : wqid) (initial : Z) (w : world) : semaphore * world :=
  (mkSem initial wq, set_queue wq [] w).

Inductive acquire := Acquired | Cancelled | Slept.

Definition sem_try (s : semaphore) (interruptible canc : bool) (cur : tid) (w : world)
  : acquire * semaphore * world :=
  if s_count s =? 0 then
    if interruptible && canc then (Cancelled, s, w)
    else (Slept, s, wait_queue_block (s_wq s) cur w)
  else (Acquired, mkSem (i32 (s_count s - 1)) (s_wq s), w).

Definition sem_post (s : semaphore) (w : world) : semaphore * world :=
  (mkSem (i32 (s_count s + 1)) (s_wq s), wait_queue_wake_one (s_wq s) w).

Definition sem_trywait (s : semaphore) : bool * semaphore :=
  if 0 <? s_count s then (true, mkSem (i32 (s_count s - 1)) (s_wq s)) else (false, s).

(** ** Mutexes *)

Record mutex := mkMutex { locked : bool; owner : option tid; m_wq : wqid }.

Definition mutex_init (wq : wqid) (w : world) : mutex * world :=
  (mkMutex false None wq, set_queue wq [] w).

(** The test on entry: the owner locking again halts the machine. *)
Definition self_deadlock (m : mutex) (cur : tid) : bool :=
  locked m && bool_decide (owner m = Some cur).

Definition mutex_try (m : mutex) (interruptible canc : bool) (cur : tid) (w : world)
  : acquire * mutex * world :=
  if locked m then
    if interruptible && canc then (Cancelled, m, w)
    else (Slept, m, wait_queue_block (m_wq m) cur w)
  else (Acquired, mkMutex true (Some cur) (m_wq m), w).

Definition mutex_unlock (m : mutex) (cur : tid) (w : world) : mutex * world :=
  if negb (locked m) || negb (bool_decide (owner m = Some cur)) then (m, w)
  else (mkMutex false None (m_wq m), wait_queue_wake_one (m_wq m) w).

Definition mutex_trylock (m : mutex) (cur : tid) : bool * mutex :=
  if negb (locked m) then (true, mkMutex true (Some cur) (m_wq m)) else (false, m).

(** ** Threads inside an acquire

    [inside] holds the threads that entered an acquire and have not returned;
    those not asleep on [q] are about to test the object again. *)

Definition pending (inside : gset tid) (w : world) (q : wqid) : gset tid :=
  inside ∖ list_to_set (queue w q).

Definition asleep_inside (inside : gset tid) (w : world) (q : wqid) : Prop :=
  forall t, t ∈ queue w q -> t ∈ inside.

Lemma pending_elem inside w q t :
  t ∈ pending inside w q <-> t ∈ inside /\ t ∉ queue w q.
Proof. unfold pending. rewrite elem_of_difference, elem_of_list_to_set. done. Qed.

(** Waking the head of the queue makes it pending. *)
Lemma pending_wake_one inside w q t l :
  wq_inv w -> asleep_inside inside w q -> queue w q = t :: l ->
  let w' := wait_queue_wake_one q w in
  wq_inv w' /\ asleep_inside inside w' q /\ queue w' q = l
  /\ pending inside w' q = ({[t]} ∪ pending inside w q) /\ (t ∉ pending inside w q)
  /\ forall u, thr w' u = if decide (u = t) then ready_now (thr w t) else thr w u.
Proof.
  intros I A E. simpl. destruct (wake_one_spec q w t l I E) as ((_ & Wt & _) & El & I').
  pose proof (wi_nodup _ I q) as Hd. rewrite E in Hd. apply NoDup_cons in Hd as [Hn _].
  assert (t ∈ inside) as Hin by (apply A; rewrite E; apply list_elem_of_here).
  split_and!; [done | | done | | | done].
  - intros u. rewrite El. intros Hu. apply A. rewrite E. by apply list_elem_of_further.
  - apply set_eq. intros u. rewrite elem_of_union, elem_of_singleton, !pending_elem, El, E, not_elem_of_cons.
    destruct (decide (u = t)) as [-> |]; tauto.
  - rewrite pending_elem, E, not_elem_of_cons. tauto.
Qed.

(** Going to sleep, leaving, and being cancelled. *)
Lemma pending_sleep inside w q t :
  wq_inv w -> asleep_inside inside w q -> wait_queue (thr w t) = None ->
  let w' := wait_queue_block q t w in
  wq_inv w' /\ asleep_inside ({[t]} ∪ inside) w' q.
Proof.
  intros I A Hn. destruct (block_spec q t w I Hn) as (I' & Eq & _). split; [done |].
  intros u. rewrite Eq, elem_of_cons, elem_of_union, elem_of_singleton. intros [-> | Hu]; auto.
Qed.

Lemma pending_leave inside w q t :
  wq_inv w -> asleep_inside inside w q -> wait_queue (thr w t) = None ->
  asleep_inside (inside ∖ {[t]}) w q
  /\ Z.of_nat (size (pending inside w q)) - 1 <= Z.of_nat (size (pending (inside ∖ {[t]}) w q)).
Proof.
  intros I A Hn. split.
  - intros u Hu. rewrite elem_of_difference, elem_of_singleton. split; [by apply A |].
    intros ->. apply (wi_link _ I) in Hu. congruence.
  - assert (pending inside w q ⊆ {[t]} ∪ pending (inside ∖ {[t]}) w q) as Hsub.
    { intros u. rewrite elem_of_union, elem_of_singleton, !pending_elem, elem_of_difference, elem_of_singleton.
      destruct (decide (u = t)); tauto. }
    apply subseteq_size in Hsub. pose proof (size_union_alt {[t]} (pending (inside ∖ {[t]}) w q)) as Hs.
    rewrite size_singleton in Hs.
    pose proof (subseteq_size (pending (inside ∖ {[t]}) w q ∖ {[t]}) (pending (inside ∖ {[t]}) w q) ltac:(set_solver)). lia.
Qed.

Lemma pending_cancel inside w q t :
  wq_inv w -> asleep_inside inside w q ->
  let w' := cancel_thread w t in
  wq_inv w' /\ asleep_inside inside w' q
  /\ Z.of_nat (size (pending inside w q)) <= Z.of_nat (size (pending inside w' q))
  /\ (queue w' q <> [] -> queue w q <> []).
Proof.
  intros I A. destruct (cancel_thread_spec w t I) as (I' & Hq & _). simpl.
  split_and!; [done | | |].
  - intros u. rewrite Hq, list_elem_of_filter. intros [_ Hu]. by apply A.
  - apply inj_le, subseteq_size. intros u. rewrite !pending_elem, Hq, list_elem_of_filter. tauto.
  - intros Hne E. apply Hne. by rewrite Hq, E.
Qed.

(** ** A semaphore and its threads

    [posts] and [taken] are ghost: how many permits were returned and taken. *)

Record ssys := mkSsys {
  ss_sem : semaphore;
  ss_world : world;
  ss_inside : gset tid;
  ss_posts : Z;
  ss_taken : Z;
}.

Inductive sstep : ssys -> ssys -> Prop :=
  | s_acquire s t interruptible canc r sem' w' :
      wait_queue (thr (ss_world s) t) = None ->
      sem_try (ss_sem s) interruptible canc t (ss_world s) = (r, sem', w') ->
      sstep s (mkSsys sem' w'
        (match r with Slept => {[t]} ∪ ss_inside s | _ => ss_inside s ∖ {[t]} end)
        (ss_posts s) (match r with Acquired => ss_taken s + 1 | _ => ss_taken s end))
  | s_post s sem' w' :
      s_count (ss_sem s) < 2 ^ 31 - 1 ->
      sem_post (ss_sem s) (ss_world s) = (sem', w') ->
      sstep s (mkSsys sem' w' (ss_inside s) (ss_posts s + 1) (ss_taken s))
  | s_trywait s got sem' :
      sem_trywait (ss_sem s) = (got, sem') ->
      sstep s (mkSsys sem' (ss_world s) (ss_inside s) (ss_posts s)
                 (if got then ss_taken s + 1 else ss_taken s))
  | s_cancel s t :
      sstep s (mkSsys (ss_sem s) (cancel_thread (ss_world s) t) (ss_inside s) (ss_posts s) (ss_taken s)).

Record ssys_inv (initial : Z) (s : ssys) : Prop := {
  sv_world : wq_inv (ss_world s);
  sv_count : 0 <= s_count (ss_sem s) < 2 ^ 31;
  sv_permits : s_count (ss_sem s) = initial + ss_posts s - ss_taken s;
  sv_asleep : asleep_inside (ss_inside s) (ss_world s) (s_wq (ss_sem s));
  sv_wake : queue (ss_world s) (s_wq (ss_sem s)) <> [] ->
    s_count (ss_sem s) <= Z.of_nat (size (pending (ss_inside s) (ss_world s) (s_wq (ss_sem s))));
}.

Lemma sstep_inv initial s s' : ssys_inv initial s -> sstep s s' -> ssys_inv initial s'.
Proof.
  intros [I C P A W] H. destruct H as [s t i canc r sem' w' Hn E | s sem' w' Hlt E | s got sem' E | s t].
  - unfold sem_try in E. pose proof (pending_leave _ _ _ t I A Hn) as [A1 Hs].
    destruct (Z.eqb_spec (s_count (ss_sem s)) 0) as [E0 | E0].
    + destruct (i && canc); injection E as <- <- <-; constructor; simpl; try done; try lia.
      * by apply (pending_sleep _ _ _ _ I A Hn).
      * by apply (pending_sleep _ _ _ _ I A Hn).
    + injection E as <- <- <-. constructor; simpl; rewrite ?i32_small by lia; try done; try lia.
      intros Hq. specialize (W Hq). lia.
  - unfold sem_post in E. injection E as <- <-.
    destruct (queue (ss_world s) (s_wq (ss_sem s))) as [| t l] eqn:Eq.
    + unfold wait_queue_wake_one. rewrite Eq.
      constructor; simpl; rewrite ?i32_small by lia; try done; try lia; by rewrite Eq.
    + destruct (pending_wake_one _ _ _ _ _ I A Eq) as (I' & A' & El & Ep & Hnp & _).
      constructor; simpl; rewrite ?i32_small by lia; try done; try lia.
      intros _. rewrite Ep, size_union, size_singleton by set_solver.
      specialize (W ltac:(done)). lia.
  - unfold sem_trywait in E. destruct (Z.ltb_spec 0 (s_count (ss_sem s))); injection E as <- <-;
      constructor; simpl; rewrite ?i32_small by lia; try done; try lia.
    intros Hq. specialize (W Hq). lia.
  - destruct (pending_cancel _ _ (s_wq (ss_sem s)) t I A) as (I' & A' & Hp & Hq).
    constructor; simpl; try done. intros Hne. specialize (W (Hq Hne)). lia.
Qed.

Definition sem_start (wq : wqid) (initial : Z) (w : world) : ssys :=
  let '(sem, w) := sem_init wq initial w in mkSsys sem w ∅ 0 0.

(** A semaphore never loses a permit or a wakeup: in every reachable state
    the count is the initial count plus the posts minus the permits taken and
    never negative, and as long as a thread sleeps, every available permit has
    its own awake thread inside an acquire about to take it.  In particular a
    thread stays asleep with nobody on the way only when there is no permit. *)
Theorem semaphore_no_lost_wakeup wq initial w s :
  wq_inv (set_queue wq [] w) -> 0 <= initial < 2 ^ 31 -> rtc sstep (sem_start wq initial w) s ->
  s_count (ss_sem s) = initial + ss_posts s - ss_taken s /\ 0 <= s_count (ss_sem s)
  /\ (queue (ss_world s) (s_wq (ss_sem s)) <> [] ->
      s_count (ss_sem s) <= Z.of_nat (size (pending (ss_inside s) (ss_world s) (s_wq (ss_sem s))))).
Proof.
  intros I Hi H. assert (ssys_inv initial (sem_start wq initial w)) as H0.
  { unfold sem_start, sem_init. constructor; simpl; try done; try lia.
    - intros t. rewrite queue_set_queue, decide_True by done. by rewrite elem_of_nil.
    - rewrite queue_set_queue, decide_True by done. done. }
  assert (ssys_inv initial s) as [_ C P _ W].
  { induction H as [s | s1 s2 s3 H12 _ IH]; [done |]. by apply IH, (sstep_inv initial s1). }
  split_and!; [done | lia | done].
Qed.

(** ** A mutex and its threads

    [held] is ghost: the threads between a successful acquire and the unlock
    that released it. *)

Record msys := mkMsys {
  ms_mutex : mutex;
  ms_world : world;
  ms_inside : gset tid;
  ms_held : gset tid;
}.

Inductive mxstep : msys -> msys -> Prop :=
  | mx_acquire s t interruptible canc r m' w' :
      self_deadlock (ms_mutex s) t = false ->
      wait_queue (thr (ms_world s) t) = None ->
      mutex_try (ms_mutex s) interruptible canc t (ms_world s) = (r, m', w') ->
      mxstep s (mkMsys m' w'
        (match r with Slept => {[t]} ∪ ms_inside s | _ => ms_inside s ∖ {[t]} end)
        (match r with Acquired => {[t]} ∪ ms_held s | _ => ms_held s end))
  | mx_unlock s t m' w' :
      mutex_unlock (ms_mutex s) t (ms_world s) = (m', w') ->
      mxstep s (mkMsys m' w' (ms_inside s)
                  (if locked (ms_mutex s) && negb (locked m') then ms_held s ∖ {[t]} else ms_held s))
  | mx_trylock s t got m' :
      mutex_trylock (ms_mutex s) t = (got, m') ->
      mxstep s (mkMsys m' (ms_world s) (ms_inside s) (if got : bool then {[t]} ∪ ms_held s else ms_held s))
  | mx_cancel s t :
      mxstep s (mkMsys (ms_mutex s) (cancel_thread (ms_world s) t) (ms_inside s) (ms_held s)).

Record msys_inv (s : msys) : Prop := {
  mv_world : wq_inv (ms_world s);
  mv_held : ms_held s = match owner (ms_mutex s) with Some t => {[t]} | None => ∅ end;
  mv_locked : locked (ms_mutex s) = bool_decide (owner (ms_mutex s) <> None);
  mv_asleep : asleep_inside (ms_inside s) (ms_world s) (m_wq (ms_mutex s));
  mv_wake : queue (ms_world s) (m_wq (ms_mutex s)) <> [] -> locked (ms_mutex s) = false ->
    pending (ms_inside s) (ms_world s) (m_wq (ms_mutex s)) <> ∅;
}.

Lemma mxstep_inv s s' : msys_inv s -> mxstep s s' -> msys_inv s'.
Proof.
  intros [I Hh L A W] H. destruct H as [s t i canc r m' w' _ Hn E | s t m' w' E | s t got m' E | s t].
  - unfold mutex_try in E. pose proof (pending_leave _ _ _ t I A Hn) as [A1 _].
    destruct (locked (ms_mutex s)) eqn:El.
    + destruct (i && canc); injection E as <- <- <-; constructor; simpl; rewrite ?El; try done.
      * by apply (pending_sleep _ _ _ _ I A Hn).
      * by apply (pending_sleep _ _ _ _ I A Hn).
    + injection E as <- <- <-. constructor; simpl; try done.
      destruct (owner (ms_mutex s)); [done |]. rewrite Hh. set_solver.
  - unfold mutex_unlock in E. destruct (locked (ms_mutex s)) eqn:El; simpl in E.
    2: { injection E as <- <-. constructor; simpl; rewrite ?El; done. }
    case_bool_decide as Ho; simpl in E; injection E as <- <-; simpl.
    2: { rewrite El. constructor; simpl; rewrite ?El; done. }
    assert (ms_held s ∖ {[t]} = ∅) as Hm by (rewrite Hh, Ho; set_solver).
    destruct (queue (ms_world s) (m_wq (ms_mutex s))) as [| u l] eqn:Eq.
    + unfold wait_queue_wake_one. rewrite Eq. constructor; simpl; try done; by rewrite Eq.
    + destruct (pending_wake_one _ _ _ _ _ I A Eq) as (I' & A' & _ & Ep & _).
      constructor; simpl; try done. intros _ _. rewrite Ep. set_solver.
  - unfold mutex_trylock in E. destruct (locked (ms_mutex s)) eqn:El; injection E as <- <-.
    + constructor; simpl; rewrite ?El; done.
    + constructor; simpl; try done. destruct (owner (ms_mutex s)); [done |]. rewrite Hh. set_solver.
  - destruct (pending_cancel _ _ (m_wq (ms_mutex s)) t I A) as (I' & A' & Hp & Hq).
    constructor; simpl; try done. intros Hne Hl E. specialize (W (Hq Hne) Hl). apply W.
    rewrite E, size_empty in Hp. apply leibniz_equiv, size_empty_inv. lia.
Qed.

Definition mutex_start (wq : wqid) (w : world) : msys :=
  let '(m, w) := mutex_init wq w in mkMsys m w ∅ ∅.

(** C36. A mutex excludes and never strands a sleeper: in every reachable state
    at most one thread is between its acquire and its unlock, exactly the
    recorded owner, whatever non-owners try to unlock; and if the mutex is
    free while threads sleep on it, some thread is awake inside an acquire and
    about to take it. *)
Theorem mutex_excludes wq w s :
  wq_inv (set_queue wq [] w) -> rtc mxstep (mutex_start wq w) s ->
  (forall t u, t ∈ ms_held s -> u ∈ ms_held s -> t = u)
  /\ (forall t, t ∈ ms_held s <-> owner (ms_mutex s) = Some t)
  /\ (locked (ms_mutex s) = false -> queue (ms_world s) (m_wq (ms_mutex s)) <> [] ->
      exists t, t ∈ pending (ms_inside s) (ms_world s) (m_wq (ms_mutex s))).
Proof.
  intros I H. assert (msys_inv (mutex_start wq w)) as H0.
  { unfold mutex_start, mutex_init. constructor; simpl; try done.
    - intros t. rewrite queue_set_queue, decide_True by done. by rewrite elem_of_nil.
    - rewrite queue_set_queue, decide_True by done. done. }
  assert (msys_inv s) as [_ Hh L _ W].
  { induction H as [s | s1 s2 s3 H12 _ IH]; [done |]. by apply IH, (mxstep_inv s1). }
  rewrite Hh. split_and!.
  - destruct (owner (ms_mutex s)); set_solver.
  - intros t. destruct (owner (ms_mutex s)) as [o |]; set_solver.
  - intros Hl Hq. apply set_choose_L. by apply W.
Qed.

(** ** Witnesses *)

Lemma empty_set_queue_inv q : wq_inv (set_queue q [] empty_world).
Proof.
  assert (forall r, queue (set_queue q [] empty_world) r = []) as Hq.
  { intros r. rewrite queue_set_queue. by destruct (decide (r = q)). }
  constructor; intros r; rewrite Hq; [constructor | |]; intros t; rewrite elem_of_nil; [| done].
  split; [done |]. unfold thr. simpl. rewrite lookup_empty. done.
Qed.

(** Thread 4 waits on an empty semaphore, then thread 5 posts. *)
Lemma semaphore_no_lost_wakeup_witness :
  exists s, rtc sstep (sem_start 9 0 empty_world) s /\ s_count (ss_sem s) = 1 /\ ss_posts s = 1.
Proof.
  pose (s0 := sem_start 9 0 empty_world).
  pose (s1 := mkSsys (ss_sem s0) (wait_queue_block 9 4 (ss_world s0)) ({[4]} ∪ ∅) 0 0).
  pose (s2 := mkSsys (mkSem 1 9) (wait_queue_wake_one 9 (ss_world s1)) ({[4]} ∪ ∅) 1 0).
  assert (rtc sstep s0 s2) as H.
  { apply rtc_l with s1.
    - exact (s_acquire s0 4 false false Slept _ _ eq_refl eq_refl).
    - apply rtc_once. apply (s_post s1); [simpl; lia | reflexivity]. }
  exists s2. split; [exact H |].
  destruct (semaphore_no_lost_wakeup 9 0 empty_world s2 (empty_set_queue_inv 9) ltac:(lia) H) as [E _].
  split; [exact E | reflexivity].
Defined.

(** Thread 4 holds the mutex and thread 5 sleeps behind it. *)
Lemma mutex_excludes_witness :
  exists s, rtc mxstep (mutex_start 9 empty_world) s /\ owner (ms_mutex s) = Some 4.
Proof.
  pose (s0 := mutex_start 9 empty_world).
  pose (s1 := mkMsys (mkMutex true (Some 4) 9) (ms_world s0) (∅ ∖ {[4]}) ({[4]} ∪ ∅)).
  assert (rtc mxstep s0 s1) as H.
  { apply rtc_once. exact (mx_acquire s0 4 false false Acquired _ _ eq_refl eq_refl eq_refl). }
  exists s1. split; [exact H |].
  destruct (mutex_excludes 9 empty_world s1 (empty_set_queue_inv 9) H) as (_ & E & _).
  apply E. simpl. set_solver.
Defined.
