(* ===== verification/Futex.v ===== *)
(** * Futexes ([kernel/process/futex.c])

    A futex is named by the physical address of its word; 64 buckets of
    sleepers are shared by all of them.  [access_ok] and [vmm_get_phys_in] (the
    page tables of the calling process) are parameters; the word itself is read
    through the memory [word]. *)

From S2P Require Import Prelude WaitQueue.

Definition FUTEX_BUCKETS : Z := 64.
Definition FUTEX_PAGE : Z := 4096.

Definition bucket_of (key : Z) : Z :=
  Z.lxor (Z.lxor (Z.shiftr key 12) (Z.shiftr key 4)) key mod FUTEX_BUCKETS.

Record futex_sys := mkFutex {
  f_world : world;
  g_waits : Z;
  g_wakes : Z;
  g_eagain : Z;
}.

(** The walk over the bucket, [next] read before the node is unlinked. *)
Fixpoint wake_walk (l : list tid) (wq : wqid) (key n woken : Z) (w : world) : Z * world :=
  match l with
  | [] => (woken, w)
  | t :: l =>
      if woken <? n then
        if futex_key (thr w t) =? key
        then wake_walk l wq key n (!32 (woken + 1)) (sched_set_ready t (wait_queue_remove wq t w))
        else wake_walk l wq key n woken w
      else (woken, w)
  end.

(** ** Which sleepers a wake is for *)

Definition waits_for (w : world) (key : Z) (t : tid) : Prop := futex_key (thr w t) = key.
#[export] Instance waits_for_dec w key t : Decision (waits_for w key t).
Proof. unfold waits_for. apply _. Defined.

(** A set of threads of one queue woken together. *)
Definition woken_set (q : wqid) (ts : list tid) (w w' : world) : Prop :=
  (forall r, queue w' r = if decide (r = q) then filter (fun x => x ∉ ts) (queue w q) else queue w r)
  /\ (forall u, thr w' u = if decide (u ∈ ts) then ready_now (thr w u) else thr w u).

Lemma woken_set_nil q w : woken_set q [] w w.
Proof.
  split.
  - intros r. destruct (decide (r = q)) as [-> |]; [| done]. symmetry.
    apply filter_all, Forall_forall. intros x _. apply not_elem_of_nil.
  - done.
Qed.

Lemma woken_set_snoc q ts t w w1 :
  wq_inv w1 -> t ∈ queue w1 q -> t ∉ ts -> woken_set q ts w w1 ->
  woken_set q (ts ++ [t]) w (sched_set_ready t (wait_queue_remove q t w1))
  /\ wq_inv (sched_set_ready t (wait_queue_remove q t w1)).
Proof.
  intros I Hin Hnt [Hq Ht]. pose proof (remove_ready q t w1 I Hin) as W.
  split; [| by eapply woken_inv]. destruct W as (Wq & Wt & _).
  assert (forall u, u ∈ ts ++ [t] <-> u ∈ ts \/ u = t) as Happ
    by (intros u; by rewrite elem_of_app, list_elem_of_singleton).
  split.
  - intros r. rewrite Wq. destruct (decide (r = q)) as [-> | Hr]; [| by rewrite Hq, decide_False].
    rewrite Hq, decide_True, list_filter_filter by done. apply filter_ext. intros x _. rewrite Happ. tauto.
  - intros u. rewrite Wt. destruct (decide (u = t)) as [-> | Hu].
    + rewrite Ht, (decide_False (P := t ∈ ts)) by done. by rewrite decide_True by (rewrite Happ; auto).
    + rewrite Ht. apply decide_ext. rewrite Happ. tauto.
Qed.

(** The walk wakes the first [n - woken] sleepers of the key. *)
Lemma wake_walk_spec l wq key n woken w0 ts w :
  0 <= woken <= n -> n < 2 ^ 32 ->
  NoDup (ts ++ l) -> (forall t, t ∈ l -> t ∈ queue w0 wq) ->
  wq_inv w -> woken_set wq ts w0 w ->
  let k := Z.to_nat (n - woken) in
  let more := take k (filter (waits_for w0 key) l) in
  exists w', wake_walk l wq key n woken w = (woken + Z.of_nat (length more), w')
             /\ wq_inv w' /\ woken_set wq (ts ++ more) w0 w'.
Proof.
  revert woken ts w. induction l as [| t l IH]; intros woken ts w Hw Hn Hd Hl I W.
  - cbn [wake_walk]. rewrite filter_nil, take_nil, app_nil_r. exists w. simpl. rewrite Z.add_0_r. done.
  - assert (t ∈ queue w0 wq) as Ht by (apply Hl, list_elem_of_here).
    apply NoDup_app in Hd as (Hd1 & Hd2 & Hd3). apply NoDup_cons in Hd3 as [Htl Hd3].
    assert (t ∉ ts) as Hts by (intros H; by apply (Hd2 t H), list_elem_of_here).
    assert (thr w t = thr w0 t) as Et by (rewrite (proj2 W), decide_False; done).
    cbn [wake_walk]. rewrite Et, filter_cons.
    destruct (Z.ltb_spec woken n) as [Hlt | Hge].
    2: { replace (Z.to_nat (n - woken)) with 0%nat by lia. exists w. simpl.
         rewrite app_nil_r, Z.add_0_r. done. }
    destruct (decide (waits_for w0 key t)) as [Ek | Ek].
    + rewrite (proj2 (Z.eqb_eq _ _) Ek). rewrite u32_small by lia.
      assert (t ∈ queue w wq) as Hin.
      { rewrite (proj1 W), decide_True by done. by apply list_elem_of_filter. }
      destruct (woken_set_snoc wq ts t w0 w I Hin Hts W) as [W1 I1].
      edestruct (IH (woken + 1) (ts ++ [t])) as (w' & E & I' & W'); [lia | done | | | exact I1 | exact W1 |].
      * rewrite <- app_assoc. apply NoDup_app. split_and!; [done | exact Hd2 | by apply NoDup_cons].
      * intros u Hu. apply Hl. by apply list_elem_of_further.
      * exists w'. rewrite E. replace (Z.to_nat (n - woken)) with (S (Z.to_nat (n - (woken + 1)))) by lia.
        simpl. rewrite <- app_assoc in W'. split_and!; [f_equal; lia | done | done].
    + rewrite (proj2 (Z.eqb_neq _ _) Ek). apply IH; try done.
      * apply NoDup_app. split_and!; [done | | done].
        intros x Hx Hxl. apply (Hd2 x Hx). by apply list_elem_of_further.
      * intros u Hu. apply Hl. by apply list_elem_of_further.
Qed.

(** ** The calls *)

Section Futex.
Context (access_ok : Z -> bool) (vmm_get_phys_in : Z -> Z) (word : Z -> Z) (g_buckets : wqid).

Definition futex_key_of (va : Z) : Z :=
  if negb (Z.land va 3 =? 0) then 0
  else if negb (access_ok va) then 0
  else
    let phys := vmm_get_phys_in (Z.land va (Z.lnot (FUTEX_PAGE - 1))) in
    if phys =? 0 then 0 else Z.lor phys (Z.land va (FUTEX_PAGE - 1)).

Definition bucket (key : Z) : wqid := g_buckets + bucket_of key.

(** Until the thread sleeps: [inl rc] is an immediate return, [inr] the state
    in which the thread is asleep. *)
Definition futex_wait (uaddr val : Z) (cur : tid) (s : futex_sys) : (Z * futex_sys) + futex_sys :=
  let key := futex_key_of uaddr in
  if key =? 0 then inl (- Errno.EMBK_EFAULT, s)
  else if negb (word key =? val) then
    inl (- Errno.EMBK_EAGAIN, mkFutex (f_world s) (g_waits s) (g_wakes s) (!64 (g_eagain s + 1)))
  else
    let w := upd cur (with_key key) (f_world s) in
    inr (mkFutex (wait_queue_block (bucket key) cur w) (!64 (g_waits s + 1)) (g_wakes s) (g_eagain s)).

(** After the wake. *)
Definition futex_wait_resume (cur : tid) (canc : bool) (s : futex_sys) : Z * futex_sys :=
  (if canc then - Errno.EMBK_ECANCELED else 0,
   mkFutex (upd cur (with_key 0) (f_world s)) (g_waits s) (g_wakes s) (g_eagain s)).

Definition futex_wake (uaddr n : Z) (s : futex_sys) : Z * futex_sys :=
  let key := futex_key_of uaddr in
  if key =? 0 then (- Errno.EMBK_EFAULT, s)
  else if n =? 0 then (0, s)
  else
    let wq := bucket key in
    let '(woken, w) := wake_walk (queue (f_world s) wq) wq key n 0 (f_world s) in
    (woken, mkFutex w (g_waits s) (!64 (g_wakes s + woken)) (g_eagain s)).

(** The sleepers of [key] in bucket order. *)
Definition sleepers (w : world) (key : Z) : list tid := filter (waits_for w key) (queue w (bucket key)).


(** A wake is exact: it returns and wakes the first [min n k] of the [k]
    threads sleeping on that word, in queue order; the remaining sleepers of
    the word, and every thread that merely shares the bucket, keep sleeping in
    their order. *)
Theorem futex_wake_exact uaddr n s :
  wq_inv (f_world s) -> futex_key_of uaddr <> 0 -> 0 < n < 2 ^ 32 ->
  let key := futex_key_of uaddr in
  let ts := take (Z.to_nat n) (sleepers (f_world s) key) in
  let '(rc, s') := futex_wake uaddr n s in
  rc = Z.of_nat (length ts) /\ wq_inv (f_world s')
  /\ woken_set (bucket key) ts (f_world s) (f_world s')
  /\ g_wakes s' = !64 (g_wakes s + rc).
Proof.
  intros I Hk Hn. simpl. unfold futex_wake.
  destruct (Z.eqb_spec (futex_key_of uaddr) 0); [done |]. destruct (Z.eqb_spec n 0); [lia |].
  destruct (wake_walk_spec (queue (f_world s) (bucket (futex_key_of uaddr))) (bucket (futex_key_of uaddr))
              (futex_key_of uaddr) n 0 (f_world s) [] (f_world s)) as (w' & -> & I' & W');
    [lia | lia | apply I | done | done | apply woken_set_nil |].
  rewrite Z.sub_0_r in *. split_and!; [done | done | exact W' | done].
Qed.

(** A wait sleeps only on current information: it goes to sleep exactly
    when the word still holds the expected value, joining the bucket of its
    word with its key recorded; otherwise it returns [EAGAIN] (or [EFAULT] for
    an unaligned or unmapped word) and no queue changes. *)
Theorem futex_wait_exact uaddr val cur s :
  wq_inv (f_world s) -> wait_queue (thr (f_world s) cur) = None ->
  let key := futex_key_of uaddr in
  match futex_wait uaddr val cur s with
  | inl (rc, s') =>
      f_world s' = f_world s
      /\ (key = 0 /\ rc = - Errno.EMBK_EFAULT \/ key <> 0 /\ word key <> val /\ rc = - Errno.EMBK_EAGAIN)
  | inr s' =>
      key <> 0 /\ word key = val /\ wq_inv (f_world s')
      /\ queue (f_world s') (bucket key) = cur :: queue (f_world s) (bucket key)
      /\ waits_for (f_world s') key cur
      /\ (forall t, t <> cur -> thr (f_world s') t = thr (f_world s) t)
  end.
Proof.
  intros I Hn. simpl. unfold futex_wait. destruct (Z.eqb_spec (futex_key_of uaddr) 0); [auto |].
  destruct (Z.eqb_spec (word (futex_key_of uaddr)) val); simpl; [| auto].
  set (w := upd cur (with_key (futex_key_of uaddr)) (f_world s)).
  assert (forall u, wait_queue (thr w u) = wait_queue (thr (f_world s) u)
                    /\ t_state (thr w u) = t_state (thr (f_world s) u)) as Hw.
  { intros u. unfold w. rewrite thr_upd. by destruct (decide (u = cur)) as [-> |]. }
  assert (wq_inv w) as Iw.
  { constructor; intros q; [apply I | |]; intros u.
    - rewrite (proj1 (Hw u)). apply I.
    - rewrite (proj2 (Hw u)). apply I. }
  destruct (block_spec (bucket (futex_key_of uaddr)) cur w Iw) as (I' & Eq & _ & Eo & _ & _ & _ & Ek).
  { by rewrite (proj1 (Hw cur)). }
  split_and!; try done.
  - unfold waits_for. simpl. rewrite Ek. unfold w. by rewrite thr_upd, decide_True.
  - intros t Ht. simpl. rewrite Eo by done. unfold w. by rewrite thr_upd, decide_False.
Qed.
End Futex.

(** ** Witnesses *)

(** Threads 1 and 2 sleep on the word at 0x5004 and thread 3 on another word
    of the same bucket. *)
Definition demo_key : Z := 0x5004.
Definition demo_other : Z := 0x5004 + 0x40000.
Definition demo_fworld : world :=
  let q := 1000 + bucket_of demo_key in
  let w := upd 1 (with_key demo_key) (upd 2 (with_key demo_key) (upd 3 (with_key demo_other) empty_world)) in
  wait_queue_block q 1 (wait_queue_block q 3 (wait_queue_block q 2 w)).
Definition demo_futex : futex_sys := mkFutex demo_fworld 3 0 0.

Lemma demo_fworld_inv : wq_inv demo_fworld.
Proof.
  unfold demo_fworld. set (w := upd 1 _ _).
  assert (forall u, wait_queue (thr w u) = None) as Hw.
  { intros u. unfold w. rewrite !thr_upd. repeat case_decide; unfold thr; simpl; by rewrite ?lookup_empty. }
  assert (wq_inv w) as I0.
  { assert (forall q, queue w q = []) as Hq by done.
    constructor; intros q; rewrite Hq; [constructor | |]; intros t; rewrite elem_of_nil; [| done].
    split; [done |]. by rewrite Hw. }
  clearbody w.
  destruct (block_spec (1000 + bucket_of demo_key) 2 w I0 (Hw 2)) as (I1 & _ & _ & E1 & _).
  destruct (block_spec (1000 + bucket_of demo_key) 3 _ I1) as (I2 & _ & _ & E2 & _).
  { rewrite E1 by lia. apply Hw. }
  destruct (block_spec (1000 + bucket_of demo_key) 1 _ I2) as (I3 & _); [| exact I3].
  rewrite E2, E1 by lia. apply Hw.
Qed.

Lemma futex_wake_exact_witness :
  fst (futex_wake (fun _ => true) (fun p => p) 1000 demo_key 5 demo_futex) = 2.
Proof.
  pose proof (futex_wake_exact (fun _ => true) (fun p => p) 1000 demo_key 5 demo_futex
                demo_fworld_inv ltac:(vm_compute; discriminate) ltac:(lia)) as H.
  cbv zeta in H. destruct (futex_wake _ _ _ _ _ _) as [rc s']. destruct H as [-> _].
  vm_compute. reflexivity.
Defined.

Lemma futex_wait_exact_witness :
  match futex_wait (fun _ => true) (fun p => p) (fun _ => 7) 1000 demo_key 7 9 demo_futex with
  | inl _ => False
  | inr s' => queue (f_world s') (bucket 1000 demo_key) = 9 :: queue (f_world demo_futex) (bucket 1000 demo_key)
  end.
Proof.
  pose proof (futex_wait_exact (fun _ => true) (fun p => p) (fun _ => 7) 1000 demo_key 7 9 demo_futex
                demo_fworld_inv ltac:(vm_compute; reflexivity)) as H. cbv zeta in H.
  assert (futex_key_of (fun _ => true) (fun p => p) demo_key = demo_key) as Ek by (vm_compute; reflexivity).
  rewrite Ek in H.
  destruct (futex_wait _ _ _ _ _ _ _ _) as [[rc s'] | s'].
  - destruct H as [_ [[H _] | (_ & H & _)]]; [discriminate | by apply H].
  - destruct H as (_ & _ & _ & H & _). exact H.
Defined.
