(* ===== verification/Sched.v ===== *)
(** * Scheduling policies and admission control
    ([kernel/process/sched_rr.c], [sched_deadline.c], [process.c])

    The thread table as the policies see it.  A thread is its index in the
    table; [current] is an index, or a negative number for NULL.  Every
    function runs under the scheduler lock. *)

From S2P Require Import Prelude WaitQueue.

Definition MAX_THREADS : Z := 256.
Definition SCHED_PRIORITY_BANDS : Z := 4.
Definition PRIORITY_REALTIME : Z := 0.
Definition PRIORITY_AGE_TICKS : Z := 20.
Definition SCHED_MAX_RESERVED_PERMILLE : Z := 700.
Definition SCHED_MIN_PERIOD_MS : Z := 4.
Definition SCHED_MAX_PERIOD_MS : Z := 10000.
Definition EMBK_EBUSY : Z := 16.

Record sthread := mkSthread {
  state : process_state;
  priority : Z;
  ticks_since_scheduled : Z;
  is_idle : bool;
  suspended : bool;
  pinned_cpu : Z;
  run_cpu : Z;                (* running_cpu *)
  period : Z;                 (* period_ms *)
  budget_ms : Z;
  deadline_ms : Z;
  period_cpu_ns : Z;
  cpu_ns : Z;
  dispatched_ns : Z;
}.

Definition free_slot : sthread :=
  mkSthread PROCESS_UNUSED 0 0 false false (-1) (-1) 0 0 0 0 0 0.

Definition sget (tbl : list sthread) (i : Z) : sthread := default free_slot (tbl !! Z.to_nat i).

(** ** Round robin *)

Definition with_priority (t : sthread) (p ticks : Z) : sthread :=
  mkSthread (state t) p ticks (is_idle t) (suspended t) (pinned_cpu t) (run_cpu t) (period t)
            (budget_ms t) (deadline_ms t) (period_cpu_ns t) (cpu_ns t) (dispatched_ns t).

Definition age (t : sthread) : sthread :=
  let ticks := !32 (ticks_since_scheduled t + 1) in
  if PRIORITY_AGE_TICKS <=? ticks then
    with_priority t (if PRIORITY_REALTIME <? priority t then priority t - 1 else priority t) 0
  else with_priority t (priority t) ticks.

Definition rr_tick_one (current : Z) (i : nat) (t : sthread) : sthread :=
  if (Z.of_nat i =? current) || negb (bool_decide (state t = PROCESS_READY)) then t
  else if is_idle t then t
  else if suspended t then t
  else age t.

Definition rr_tick (current : Z) (tbl : list sthread) : list sthread := imap (rr_tick_one current) tbl.

(** The tests of [rr_pick] on one candidate, before the band. *)
Definition dispatchable (cpu current i : Z) (c : sthread) : bool :=
  if (0 <=? pinned_cpu c) && negb (pinned_cpu c =? cpu) then false
  else if suspended c then false
  else if negb (i =? current) && (0 <=? run_cpu c) then false
  else bool_decide (state c = PROCESS_READY)
       || ((i =? current) && bool_decide (state c = PROCESS_RUNNING)).

(** [for (off = 1; off <= MAX_THREADS; off++)] over one band. *)
Definition rr_scan (cpu current start band : Z) (tbl : list sthread) : option Z :=
  List.find (fun i => dispatchable cpu current i (sget tbl i) && (priority (sget tbl i) =? band))
            ((fun off => (start + off) mod MAX_THREADS) <$> seqZ 1 MAX_THREADS).

Fixpoint rr_bands (bands : list Z) (cpu current start : Z) (tbl : list sthread) : option Z :=
  match bands with
  | [] => None
  | band :: bands =>
      match rr_scan cpu current start band tbl with
      | Some i => Some i
      | None => rr_bands bands cpu current start tbl
      end
  end.

Definition rr_start (current : Z) : Z :=
  if (0 <=? current) && (current <? MAX_THREADS) then current else 0.

Definition rr_pick (cpu current : Z) (tbl : list sthread) : option Z :=
  rr_bands (seqZ 0 SCHED_PRIORITY_BANDS) cpu current (rr_start current) tbl.

(** ** Earliest deadline first *)

Definition spent_ns (t : sthread) (now_ns : Z) : Z :=
  let v := cpu_ns t in
  if bool_decide (state t = PROCESS_RUNNING) && negb (dispatched_ns t =? 0) && (dispatched_ns t <? now_ns)
  then !64 (v + (now_ns - dispatched_ns t)) else v.

Definition with_period (t : sthread) (p b d c : Z) : sthread :=
  mkSthread (state t) (priority t) (ticks_since_scheduled t) (is_idle t) (suspended t) (pinned_cpu t)
            (run_cpu t) p b d c (cpu_ns t) (dispatched_ns t).

Definition roll (t : sthread) (now_ms : Z) : sthread :=
  if period t =? 0 then t
  else if now_ms <? deadline_ms t then t
  else
    let d := if period t <=? now_ms - deadline_ms t then !64 (now_ms + period t)
             else !64 (deadline_ms t + period t) in
    with_period t (period t) (budget_ms t) d (cpu_ns t).

Definition dl_enqueue (t : sthread) (now_ms : Z) : sthread :=
  if negb (period t =? 0) then roll t now_ms else t.

(** Unspent budget: the test the C writes negated. *)
Definition in_budget (t : sthread) (now_ns : Z) : bool :=
  !64 (spent_ns t now_ns - period_cpu_ns t) <? budget_ms t * 1000000.

Definition dl_step (cpu current now_ms now_ns : Z) (acc : option Z * list sthread) (i : Z)
  : option Z * list sthread :=
  let '(best, tbl) := acc in
  let t := sget tbl i in
  if period t =? 0 then acc
  else if negb (dispatchable cpu current i t) then acc
  else
    let t := roll t now_ms in
    let tbl := wr tbl i t in
    if negb (in_budget t now_ns) then (best, tbl)
    else
      (match best with
       | None => Some i
       | Some b => if deadline_ms t <? deadline_ms (sget tbl b) then Some i else best
       end, tbl).

Definition dl_pick (declared_count cpu current now_ms now_ns : Z) (tbl : list sthread)
  : option Z * list sthread :=
  if declared_count =? 0 then (rr_pick cpu current tbl, tbl)
  else
    let '(best, tbl) := fold_left (dl_step cpu current now_ms now_ns) (seqZ 0 MAX_THREADS) (None, tbl) in
    match best with
    | Some b => (Some b, tbl)
    | None => (rr_pick cpu current tbl, tbl)
    end.

(** Aging is the round-robin one. *)
Definition dl_tick (current : Z) (tbl : list sthread) : list sthread := rr_tick current tbl.

(** ** Admission control *)

Definition live (t : sthread) : bool :=
  negb (bool_decide (state t = PROCESS_UNUSED) || bool_decide (state t = PROCESS_ZOMBIE)).

Definition recount_declared (tbl : list sthread) : Z :=
  fold_left (fun n t => if live t && negb (period t =? 0) then !32 (n + 1) else n) tbl 0.

Definition permille (t : sthread) : Z := !32 (!64 (budget_ms t * 1000) / period t).

Definition reserved_permille (tbl : list sthread) (except : Z) : Z :=
  fold_left (fun sum i =>
    let t := sget tbl i in
    if i =? except then sum
    else if negb (live t) then sum
    else if period t =? 0 then sum
    else !32 (sum + permille t)) (seqZ 0 MAX_THREADS) 0.

(** No thread is excluded: the C passes NULL. *)
Definition sched_reserved_permille (tbl : list sthread) : Z := reserved_permille tbl (-1).

(** The budget a caller gets when it names none. *)
Definition default_budget (period_ms budget : Z) : Z :=
  if budget =? 0 then (if period_ms / 2 =? 0 then 1 else period_ms / 2) else budget.

Record sched_state := mkSched { table : list sthread; g_declared_count : Z }.

Definition declare (cur period_ms budget now_ms : Z) (tbl : list sthread) : list sthread :=
  let t := sget tbl cur in
  wr tbl cur (with_period t period_ms budget (!64 (now_ms + period_ms)) (cpu_ns t)).

Definition sched_declare_period (cur period_ms budget now_ms : Z) (s : sched_state) : Z * sched_state :=
  if cur <? 0 then (- Errno.EMBK_EINVAL, s)
  else if period_ms =? 0 then
    let tbl := wr (table s) cur (with_period (sget (table s) cur) 0 0 0 0) in
    (Errno.EMBK_OK, mkSched tbl (recount_declared tbl))
  else if (period_ms <? SCHED_MIN_PERIOD_MS) || (SCHED_MAX_PERIOD_MS <? period_ms)
  then (- Errno.EMBK_EINVAL, s)
  else
    let budget := default_budget period_ms budget in
    if period_ms <? budget then (- Errno.EMBK_EINVAL, s)
    else
      let want := !32 (!64 (budget * 1000) / period_ms) in
      if SCHED_MAX_RESERVED_PERMILLE <? !32 (reserved_permille (table s) cur + want)
      then (- EMBK_EBUSY, s)
      else
        let tbl := declare cur period_ms budget now_ms (table s) in
        (Errno.EMBK_OK, mkSched tbl (recount_declared tbl)).

(** ** How long a core may sleep *)

Definition TIMER_QUANTUM_MS : Z := 10.
Definition SCHED_IDLE_CAP_MS : Z := 1000.

Definition sched_next_wake_in_ms (earliest_periodic now : Z) : Z :=
  if earliest_periodic =? 0 then 0
  else if earliest_periodic <=? now then 1
  else
    let ms := earliest_periodic - now in
    if TIMER_QUANTUM_MS <=? ms then TIMER_QUANTUM_MS else !32 ms.

Definition sched_idle_next_ms (earliest now cpu_index : Z) : Z :=
  let best := !64 (now + SCHED_IDLE_CAP_MS) in
  let best := if negb (earliest =? 0) && (earliest <? best) then earliest else best in
  if best <=? now then 1
  else
    let ms := best - now in
    let ms := if SCHED_IDLE_CAP_MS <? ms then SCHED_IDLE_CAP_MS else ms in
    !32 (!64 (ms + Z.land cpu_index 3 * 2)).

(** ** Round robin: the pick *)

Lemma find_first {A} (f : A -> bool) l :
  match List.find f l with
  | Some x => exists k, l !! k = Some x /\ f x = true
                        /\ forall j y, (j < k)%nat -> l !! j = Some y -> f y = false
  | None => forall k y, l !! k = Some y -> f y = false
  end.
Proof.
  induction l as [| a l IH]; simpl; [done |]. destruct (f a) eqn:E.
  - exists 0%nat. split_and!; [done | done | lia].
  - destruct (List.find f l) as [x |].
    + destruct IH as (k & Hk & Hf & Hn). exists (S k). split_and!; [done | done |].
      intros [| j] y Hj Hy; simpl in Hy; [congruence |]. apply (Hn j); [lia | done].
    + intros [| k] y Hy; simpl in Hy; [congruence | by apply (IH k)].
Qed.

(** How many slots after [start] a thread comes, in scan order. *)
Definition rr_dist (start i : Z) : Z := (i - start - 1) mod MAX_THREADS.

Lemma scan_order start k i :
  ((fun off => (start + off) mod MAX_THREADS) <$> seqZ 1 MAX_THREADS) !! k = Some i <->
  (k < 256)%nat /\ i = (start + 1 + Z.of_nat k) mod MAX_THREADS.
Proof.
  rewrite list_lookup_fmap. destruct (seqZ 1 MAX_THREADS !! k) as [o |] eqn:E; simpl.
  - apply lookup_seqZ in E as [-> Hk]. unfold MAX_THREADS in *. split.
    + intros [= <-]. split; [lia |]. f_equal. lia.
    + intros [_ ->]. do 2 f_equal; lia.
  - split; [done |]. intros [Hk _].
    assert (is_Some (seqZ 1 MAX_THREADS !! k)) as [? ?]; [| congruence].
    eexists. apply lookup_seqZ. unfold MAX_THREADS. split; [done | lia].
Qed.

Lemma scan_position start i :
  0 <= i < MAX_THREADS ->
  ((fun off => (start + off) mod MAX_THREADS) <$> seqZ 1 MAX_THREADS)
    !! Z.to_nat (rr_dist start i) = Some i.
Proof.
  intros Hi. pose proof (Z.mod_pos_bound (i - start - 1) MAX_THREADS ltac:(done)) as Hd.
  apply scan_order. unfold rr_dist in *. unfold MAX_THREADS in *. split; [lia |].
  rewrite Z2Nat.id by lia. rewrite Zplus_mod_idemp_r.
  replace (start + 1 + (i - start - 1)) with i by lia. symmetry. apply Z.mod_small. lia.
Qed.

Lemma rr_scan_spec cpu current start band tbl :
  match rr_scan cpu current start band tbl with
  | Some i => 0 <= i < MAX_THREADS /\ dispatchable cpu current i (sget tbl i) = true
      /\ priority (sget tbl i) = band
      /\ forall j, 0 <= j < MAX_THREADS -> dispatchable cpu current j (sget tbl j) = true ->
           priority (sget tbl j) = band -> rr_dist start i <= rr_dist start j
  | None => forall j, 0 <= j < MAX_THREADS -> dispatchable cpu current j (sget tbl j) = true ->
              priority (sget tbl j) <> band
  end.
Proof.
  unfold rr_scan. set (f := fun i => dispatchable cpu current i (sget tbl i) && _).
  pose proof (find_first f ((fun off => (start + off) mod MAX_THREADS) <$> seqZ 1 MAX_THREADS)) as F.
  assert (forall j, dispatchable cpu current j (sget tbl j) = true -> priority (sget tbl j) = band ->
            f j = true) as Hf.
  { intros j Hd Hp. unfold f. rewrite Hd, Hp. apply Z.eqb_refl. }
  destruct (List.find f _) as [i |].
  - destruct F as (k & Hk & Hi & Hn). unfold f in Hi. b2p.
    assert (0 <= i < MAX_THREADS) as Hr.
    { apply scan_order in Hk as [_ ->]. apply Z.mod_pos_bound. done. }
    split_and!; [lia | lia | done | done |]. intros j Hj Hd Hp.
    pose proof (scan_position start j Hj) as Hpos. pose proof (scan_order start k i) as [Ho _].
    destruct (Ho Hk) as [Hk256 Ei].
    assert (rr_dist start i = Z.of_nat k) as Edi.
    { unfold rr_dist. rewrite Ei. unfold MAX_THREADS in *.
      rewrite <- Z.sub_add_distr, Zminus_mod_idemp_l.
      replace (start + 1 + Z.of_nat k - (start + 1)) with (Z.of_nat k) by lia. apply Z.mod_small. lia. }
    pose proof (Z.mod_pos_bound (j - start - 1) MAX_THREADS ltac:(done)) as Hdj.
    fold (rr_dist start j) in Hdj.
    destruct (decide (rr_dist start i <= rr_dist start j)) as [? | Hlt]; [done |]. exfalso.
    assert (f j = false) as Hfalse by (apply (Hn (Z.to_nat (rr_dist start j)) j ltac:(lia) Hpos)).
    rewrite Hf in Hfalse by done. done.
  - intros j Hj Hd Hp. pose proof (F _ _ (scan_position start j Hj)) as Hfalse.
    rewrite Hf in Hfalse by done. done.
Qed.

Lemma rr_bands_spec bands cpu current start tbl :
  match rr_bands bands cpu current start tbl with
  | Some i => exists k band, bands !! k = Some band /\ rr_scan cpu current start band tbl = Some i
      /\ forall j b, (j < k)%nat -> bands !! j = Some b -> rr_scan cpu current start b tbl = None
  | None => forall k b, bands !! k = Some b -> rr_scan cpu current start b tbl = None
  end.
Proof.
  induction bands as [| b bands IH]; simpl; [done |].
  destruct (rr_scan cpu current start b tbl) as [i |] eqn:E.
  - exists 0%nat, b. split_and!; [done | done | lia].
  - destruct (rr_bands bands cpu current start tbl) as [i |].
    + destruct IH as (k & band & Hk & Hs & Hn). exists (S k), band. split_and!; [done | done |].
      intros [| j] b' Hj Hb; simpl in Hb; [congruence | apply (Hn j); [lia | done]].
    + intros [| k] b' Hb; simpl in Hb; [congruence | by apply (IH k)].
Qed.

Definition bands_ok (tbl : list sthread) : Prop :=
  forall j, 0 <= j < MAX_THREADS -> 0 <= priority (sget tbl j) < SCHED_PRIORITY_BANDS.

Lemma rr_pick_spec cpu current tbl :
  bands_ok tbl ->
  match rr_pick cpu current tbl with
  | Some i => 0 <= i < MAX_THREADS /\ dispatchable cpu current i (sget tbl i) = true
      /\ forall j, 0 <= j < MAX_THREADS -> dispatchable cpu current j (sget tbl j) = true ->
           priority (sget tbl i) < priority (sget tbl j)
           \/ priority (sget tbl i) = priority (sget tbl j)
              /\ rr_dist (rr_start current) i <= rr_dist (rr_start current) j
  | None => forall j, 0 <= j < MAX_THREADS -> dispatchable cpu current j (sget tbl j) = false
  end.
Proof.
  intros Hb. unfold rr_pick.
  pose proof (rr_bands_spec (seqZ 0 SCHED_PRIORITY_BANDS) cpu current (rr_start current) tbl) as B.
  assert (forall b, 0 <= b < SCHED_PRIORITY_BANDS -> seqZ 0 SCHED_PRIORITY_BANDS !! Z.to_nat b = Some b) as Hseq.
  { intros b Hr. apply lookup_seqZ. unfold SCHED_PRIORITY_BANDS in *. split; lia. }
  destruct (rr_bands _ cpu current (rr_start current) tbl) as [i |].
  - destruct B as (k & band & Hk & Hs & Hn). apply lookup_seqZ in Hk as [-> Hk4].
    pose proof (rr_scan_spec cpu current (rr_start current) (0 + Z.of_nat k) tbl) as S. rewrite Hs in S.
    destruct S as (Hi & Hd & Hp & Hmin). split; [done |]. split; [done |]. intros j Hj Hdj.
    destruct (Z.lt_trichotomy (priority (sget tbl i)) (priority (sget tbl j))) as [? | [? | Hgt]]; [auto | |].
    + right. split; [done |]. apply Hmin; [done | done | congruence].
    + exfalso. pose proof (Hb j Hj) as Hbj.
      pose proof (Hn (Z.to_nat (priority (sget tbl j))) _ ltac:(lia) (Hseq _ Hbj)) as Hnone.
      pose proof (rr_scan_spec cpu current (rr_start current) (priority (sget tbl j)) tbl) as S.
      rewrite Hnone in S. by apply (S j).
  - intros j Hj. apply not_true_is_false. intros Hdj. pose proof (B _ _ (Hseq _ (Hb j Hj))) as Hnone.
    pose proof (rr_scan_spec cpu current (rr_start current) (priority (sget tbl j)) tbl) as S.
    rewrite Hnone in S. by apply (S j).
Qed.

(** The round-robin pick is exact: it returns nothing only when no thread
    may be dispatched on this core; otherwise it returns a dispatchable thread
    of the best non-empty priority band and, among those of the band, the first
    after the current one in cyclic table order. *)
Theorem rr_pick_exact cpu current tbl :
  bands_ok tbl ->
  match rr_pick cpu current tbl with
  | Some i => 0 <= i < MAX_THREADS /\ dispatchable cpu current i (sget tbl i) = true
      /\ forall j, 0 <= j < MAX_THREADS -> dispatchable cpu current j (sget tbl j) = true ->
           priority (sget tbl i) < priority (sget tbl j)
           \/ priority (sget tbl i) = priority (sget tbl j)
              /\ rr_dist (rr_start current) i <= rr_dist (rr_start current) j
  | None => forall j, 0 <= j < MAX_THREADS -> dispatchable cpu current j (sget tbl j) = false
  end.
Proof. apply rr_pick_spec. Qed.

(** ** Round robin: a ready thread is not starved *)

(** Ticks delivered while the thread waits: the list gives the thread running
    at each tick. *)
Definition rr_ticks (currents : list Z) (tbl : list sthread) : list sthread :=
  fold_left (fun tbl cur => rr_tick cur tbl) currents tbl.

Definition waiting (t : sthread) : Prop :=
  state t = PROCESS_READY /\ is_idle t = false /\ suspended t = false.

Lemma rr_tick_waiting cur tbl i t :
  tbl !! i = Some t -> waiting t -> Z.of_nat i <> cur -> rr_tick cur tbl !! i = Some (age t).
Proof.
  intros Hi (Hs & Hid & Hsu) Hc. unfold rr_tick. rewrite list_lookup_imap, Hi. simpl.
  unfold rr_tick_one. rewrite Hs, Hid, Hsu. rewrite bool_decide_true by done.
  rewrite (proj2 (Z.eqb_neq _ _) Hc). done.
Qed.

Definition aged (t : sthread) (n : Z) : sthread :=
  with_priority t (Z.max 0 (priority t - (ticks_since_scheduled t + n) / PRIORITY_AGE_TICKS))
                ((ticks_since_scheduled t + n) mod PRIORITY_AGE_TICKS).

Lemma age_aged t n :
  0 <= n -> 0 <= priority t -> 0 <= ticks_since_scheduled t ->
  age (aged t n) = aged t (n + 1).
Proof.
  intros Hn Hp Ht. unfold age, aged, PRIORITY_AGE_TICKS, PRIORITY_REALTIME. cbn.
  set (x := ticks_since_scheduled t + n).
  pose proof (Z.mod_pos_bound x 20 ltac:(lia)) as Hm. pose proof (Z.div_mod x 20 ltac:(lia)) as Hd.
  pose proof (Z.div_pos x 20 ltac:(lia) ltac:(lia)) as Hq.
  unfold u32. rewrite (Z.mod_small (x mod 20 + 1)) by lia.
  replace (ticks_since_scheduled t + (n + 1)) with (x + 1) by lia.
  destruct (Z.leb_spec 20 (x mod 20 + 1)).
  - assert ((x + 1) / 20 = x / 20 + 1) as ->
      by (symmetry; apply Z.div_unique with 0; lia).
    assert ((x + 1) mod 20 = 0) as -> by (symmetry; apply Z.mod_unique with (x / 20 + 1); lia).
    unfold with_priority. cbn. f_equal. destruct (Z.ltb_spec 0 (Z.max 0 (priority t - x / 20))); lia.
  - assert ((x + 1) / 20 = x / 20) as ->
      by (symmetry; apply Z.div_unique with (x mod 20 + 1); lia).
    assert ((x + 1) mod 20 = x mod 20 + 1) as -> by (symmetry; apply Z.mod_unique with (x / 20); lia).
    done.
Qed.

Lemma rr_ticks_aged currents tbl i t :
  tbl !! i = Some t -> waiting t -> Forall (fun c => Z.of_nat i <> c) currents ->
  0 <= priority t -> 0 <= ticks_since_scheduled t < PRIORITY_AGE_TICKS ->
  rr_ticks currents tbl !! i = Some (aged t (Z.of_nat (length currents))).
Proof.
  intros Hi Hw Hc Hp Ht. induction currents as [| c cs IH] using rev_ind.
  - simpl. rewrite Hi. f_equal. destruct t. unfold aged, with_priority, PRIORITY_AGE_TICKS in *. cbn in *.
    rewrite Z.add_0_r, Z.div_small, Z.mod_small by lia. f_equal. lia.
  - apply Forall_app in Hc as [Hcs Hc]. inversion Hc; subst. specialize (IH Hcs).
    unfold rr_ticks in *. rewrite fold_left_app. simpl.
    rewrite (rr_tick_waiting _ _ i (aged t (Z.of_nat (length cs)))); [| done | done | done].
    rewrite age_aged by lia. rewrite length_app. simpl. do 2 f_equal. lia.
Qed.

(** Aging is exact and bounds how long a priority can hold a thread back:
    after [n] ticks spent waiting, a ready thread has risen one band for every
    twenty ticks, never past band 0 and without wrapping, so that sixty ticks
    bring any of the four bands to the top one. *)
Theorem rr_tick_ages currents tbl i t :
  tbl !! i = Some t -> waiting t -> Forall (fun c => Z.of_nat i <> c) currents ->
  0 <= priority t < SCHED_PRIORITY_BANDS -> 0 <= ticks_since_scheduled t < PRIORITY_AGE_TICKS ->
  exists t', rr_ticks currents tbl !! i = Some t' /\ waiting t'
    /\ priority t' = Z.max 0 (priority t
                       - (ticks_since_scheduled t + Z.of_nat (length currents)) / PRIORITY_AGE_TICKS)
    /\ (PRIORITY_AGE_TICKS * (SCHED_PRIORITY_BANDS - 1) <= Z.of_nat (length currents) ->
        priority t' = PRIORITY_REALTIME).
Proof.
  intros Hi Hw Hc Hp Ht. eexists.
  split; [apply rr_ticks_aged; [done | done | done | lia | done] |].
  split; [done |]. split; [done |]. unfold aged, with_priority, PRIORITY_REALTIME. cbn. intros Hn.
  unfold PRIORITY_AGE_TICKS, SCHED_PRIORITY_BANDS in *.
  assert (3 <= (ticks_since_scheduled t + Z.of_nat (length currents)) / 20)
    by (apply Z.div_le_lower_bound; lia).
  lia.
Qed.

(** A run of picks by one core that never chooses thread [i], although [i] is
    dispatchable in the top band at every one of them.  The table may change
    in any way between the picks. *)
Inductive passed_over (cpu i : Z) : Z -> nat -> Z -> Prop :=
  | po_none cur : passed_over cpu i cur 0 cur
  | po_pick cur n mid tbl cur' :
      passed_over cpu i cur n mid ->
      bands_ok tbl -> dispatchable cpu mid i (sget tbl i) = true ->
      priority (sget tbl i) = PRIORITY_REALTIME ->
      rr_pick cpu mid tbl = Some cur' -> cur' <> i ->
      passed_over cpu i cur (S n) cur'.

Lemma rr_dist_bounds start i : 0 <= rr_dist start i < MAX_THREADS.
Proof. apply Z.mod_pos_bound. done. Qed.

(** Moving the start to a thread nearer than [i] brings [i] nearer. *)
Lemma rr_dist_closer start j i :
  0 <= j < MAX_THREADS -> 0 <= i < MAX_THREADS -> j <> i ->
  rr_dist start j <= rr_dist start i -> rr_dist j i < rr_dist start i.
Proof.
  intros Hj Hi Hne Hle. unfold rr_dist, MAX_THREADS in *.
  pose proof (Z.div_mod (j - start - 1) 256 ltac:(lia)).
  pose proof (Z.mod_pos_bound (j - start - 1) 256 ltac:(lia)).
  pose proof (Z.div_mod (i - start - 1) 256 ltac:(lia)).
  pose proof (Z.mod_pos_bound (i - start - 1) 256 ltac:(lia)).
  set (q := (j - start - 1) / 256) in *. set (r := (j - start - 1) mod 256) in *.
  set (q' := (i - start - 1) / 256) in *. set (r' := (i - start - 1) mod 256) in *.
  assert (i - j - 1 = 256 * (q' - q) + (r' - r - 1)) as E by lia.
  assert (r <> r') by (intros ?; assert (q = q') by lia; lia).
  rewrite E, Z.add_comm, Z.mul_comm, Z_mod_plus_full, Z.mod_small by lia. lia.
Qed.

Lemma passed_over_closer cpu i cur n cur' :
  0 <= i < MAX_THREADS -> 0 <= cur < MAX_THREADS -> passed_over cpu i cur n cur' ->
  0 <= cur' < MAX_THREADS /\ Z.of_nat n + rr_dist cur' i <= rr_dist cur i.
Proof.
  intros Hi Hc H. induction H as [cur | cur n mid tbl cur' _ IH Hb Hd Hp Hpick Hne]; [lia |].
  destruct (IH Hc) as [Hm Hle]. pose proof (rr_pick_spec cpu mid tbl Hb) as S. rewrite Hpick in S.
  destruct S as (Hc' & Hd' & Hbest). split; [done |].
  assert (rr_start mid = mid) as Es.
  { unfold rr_start. destruct (Z.leb_spec 0 mid), (Z.ltb_spec mid MAX_THREADS); simpl; lia. }
  rewrite Es in Hbest. destruct (Hbest i Hi Hd) as [Hlt | [_ Hdist]].
  - pose proof (Hb cur' Hc'). unfold PRIORITY_REALTIME in *. lia.
  - pose proof (rr_dist_closer mid cur' i Hc' Hi Hne Hdist). lia.
Qed.

(** C37. No starvation in the top band: a core that keeps picking while thread
    [i] stays dispatchable in band 0 can pass it over at most 255 times in a
    row, whatever happens to the rest of the table between the picks. *)
Theorem rr_bounded_wait cpu i cur n cur' :
  0 <= i < MAX_THREADS -> 0 <= cur < MAX_THREADS -> passed_over cpu i cur n cur' ->
  Z.of_nat n < MAX_THREADS.
Proof.
  intros Hi Hc H. pose proof (passed_over_closer cpu i cur n cur' Hi Hc H) as [Hc' Hle].
  pose proof (rr_dist_bounds cur i). pose proof (rr_dist_bounds cur' i). lia.
Qed.

(** ** Earliest deadline first *)

Lemma sget_wr tbl i j t :
  0 <= i < Z.of_nat (length tbl) -> 0 <= j ->
  sget (wr tbl i t) j = if i =? j then t else sget tbl j.
Proof.
  intros Hi Hj. unfold sget, wr. destruct (Z.eqb_spec i j) as [-> | Hne].
  - rewrite list_lookup_insert_eq by lia. done.
  - rewrite list_lookup_insert_ne by lia. done.
Qed.

Lemma length_wr tbl i (t : sthread) : length (wr tbl i t) = length tbl.
Proof. unfold wr. apply length_insert. Qed.

Lemma roll_period t now : period (roll t now) = period t.
Proof. unfold roll. repeat case_match; done. Qed.

Lemma roll_dispatchable cpu cur i t now : dispatchable cpu cur i (roll t now) = dispatchable cpu cur i t.
Proof. unfold roll. repeat case_match; done. Qed.

(** Rolling: a thread whose period is over gets the next deadline of its own
    phase, or a fresh period from now when it is a whole period late. *)
Lemma roll_spec t now :
  0 < period t -> 0 <= deadline_ms t -> 0 <= now -> now + period t < 2 ^ 64 ->
  deadline_ms t <= now + period t ->
  now < deadline_ms (roll t now) <= now + period t
  /\ (now < deadline_ms t -> roll t now = t)
  /\ (deadline_ms t <= now < deadline_ms t + period t -> deadline_ms (roll t now) = deadline_ms t + period t)
  /\ (deadline_ms t <= now -> period_cpu_ns (roll t now) = cpu_ns t).
Proof.
  intros Hp Hd Hn Hs Hle. unfold roll, u64.
  destruct (Z.eqb_spec (period t) 0); [lia |]. destruct (Z.ltb_spec now (deadline_ms t)).
  - split_and!; [lia | lia | done | lia | lia].
  - destruct (Z.leb_spec (period t) (now - deadline_ms t)); cbn; rewrite Z.mod_small by lia;
      split_and!; lia.
Qed.

Section Edf.
Context (cpu current now_ms now_ns : Z) (tbl0 : list sthread).
Hypothesis Hlen : Z.of_nat (length tbl0) = MAX_THREADS.

(** The threads [dl_pick] rolls forward, and those it may choose. *)
Definition candidate (i : Z) : bool :=
  negb (period (sget tbl0 i) =? 0) && dispatchable cpu current i (sget tbl0 i).

Definition rolled (i : Z) : sthread :=
  if candidate i then roll (sget tbl0 i) now_ms else sget tbl0 i.

Definition urgent (i : Z) : bool := candidate i && in_budget (rolled i) now_ns.

Definition earliest_among (n : Z) (best : option Z) : Prop :=
  match best with
  | None => forall j, 0 <= j < n -> urgent j = false
  | Some b => 0 <= b < n /\ urgent b = true
      /\ forall j, 0 <= j < n -> urgent j = true ->
           deadline_ms (rolled b) < deadline_ms (rolled j)
           \/ deadline_ms (rolled b) = deadline_ms (rolled j) /\ b <= j
  end.

Definition edf_inv (n : Z) (acc : option Z * list sthread) : Prop :=
  earliest_among n acc.1 /\ Z.of_nat (length acc.2) = MAX_THREADS
  /\ forall i, 0 <= i < MAX_THREADS -> sget acc.2 i = if i <? n then rolled i else sget tbl0 i.

Lemma earliest_skip n best : 0 <= n -> earliest_among n best -> urgent n = false -> earliest_among (n + 1) best.
Proof.
  intros Hn He Hu. unfold earliest_among in *. destruct best as [b |].
  - destruct He as (Hb & Hub & He). split_and!; [lia | lia | done |]. intros j Hj Huj.
    destruct (decide (j = n)) as [-> | ?]; [congruence |]. apply He; [lia | done].
  - intros j Hj. destruct (decide (j = n)) as [-> | ?]; [done |]. apply He. lia.
Qed.

Lemma earliest_take n best : 0 <= n -> earliest_among n best -> urgent n = true ->
  earliest_among (n + 1)
    match best with
    | None => Some n
    | Some b => if deadline_ms (rolled n) <? deadline_ms (rolled b) then Some n else best
    end.
Proof.
  intros Hn He Hu. unfold earliest_among in He. destruct best as [b |].
  - destruct He as (Hb & Hub & He).
    destruct (Z.ltb_spec (deadline_ms (rolled n)) (deadline_ms (rolled b))).
    + split_and!; [lia | lia | done |]. intros j Hj Huj.
      destruct (decide (j = n)) as [-> | ?]; [lia |]. destruct (He j ltac:(lia) Huj); lia.
    + split_and!; [lia | lia | done |]. intros j Hj Huj.
      destruct (decide (j = n)) as [-> | ?]; [lia |]. apply He; [lia | done].
  - split_and!; [lia | lia | done |]. intros j Hj Huj. destruct (decide (j = n)) as [-> | ?]; [lia |].
    rewrite He in Huj by lia. done.
Qed.

Lemma dl_step_inv n acc :
  0 <= n < MAX_THREADS -> edf_inv n acc -> edf_inv (n + 1) (dl_step cpu current now_ms now_ns acc n).
Proof.
  intros Hn (He & Hl & Ht). destruct acc as [best tbl]. simpl in *. unfold dl_step.
  pose proof (Ht n ltac:(lia)) as En. rewrite Z.ltb_irrefl in En. rewrite En.
  assert (candidate n = false -> edf_inv (n + 1) (best, tbl)) as Hskip.
  { intros Hc. split_and!; [by apply earliest_skip; [lia | | unfold urgent; rewrite Hc] | done |].
    intros i Hi. simpl. rewrite Ht by done. destruct (Z.ltb_spec i n), (Z.ltb_spec i (n + 1)); try lia; try done.
    replace i with n by lia. unfold rolled. rewrite Hc. done. }
  unfold candidate in Hskip. destruct (Z.eqb_spec (period (sget tbl0 n)) 0); [by apply Hskip |].
  destruct (dispatchable cpu current n (sget tbl0 n)) eqn:Ed; simpl; [| by apply Hskip].
  assert (roll (sget tbl0 n) now_ms = rolled n) as ->
    by (unfold rolled, candidate; rewrite Ed, (proj2 (Z.eqb_neq _ _) n0); done).
  assert (candidate n = true) as Hc by (unfold candidate; rewrite Ed, (proj2 (Z.eqb_neq _ _) n0); done).
  assert (forall i, 0 <= i < MAX_THREADS ->
            sget (wr tbl n (rolled n)) i = if i <? n + 1 then rolled i else sget tbl0 i) as Ht'.
  { intros i Hi. rewrite sget_wr by lia. destruct (Z.eqb_spec n i) as [<- | ?].
    - destruct (Z.ltb_spec n (n + 1)); [done | lia].
    - rewrite Ht by done. destruct (Z.ltb_spec i n), (Z.ltb_spec i (n + 1)); (done || lia). }
  destruct (in_budget (rolled n) now_ns) eqn:Eb; simpl.
  - split_and!; [| cbn [snd]; by rewrite length_wr | done]. simpl.
    pose proof (earliest_take n best ltac:(lia) He ltac:(unfold urgent; rewrite Hc, Eb; done)) as Hk.
    destruct best as [b |]; [| done]. destruct He as (Hb & _). rewrite Ht' by lia.
    destruct (Z.ltb_spec b (n + 1)); [done | lia].
  - split_and!; [| cbn [snd]; by rewrite length_wr | done].
    apply earliest_skip; [lia | done | unfold urgent; rewrite Hc, Eb; done].
Qed.

Lemma edf_fold k n acc :
  0 <= n -> n + Z.of_nat k <= MAX_THREADS -> edf_inv n acc ->
  edf_inv (n + Z.of_nat k) (fold_left (dl_step cpu current now_ms now_ns) (seqZ n (Z.of_nat k)) acc).
Proof.
  revert n acc. induction k as [| k IH]; intros n acc Hn Hk Hinv.
  - simpl. rewrite Z.add_0_r. done.
  - rewrite seqZ_cons by lia. simpl. replace (Z.pred (Z.of_nat (S k))) with (Z.of_nat k) by lia.
    replace (n + Z.of_nat (S k)) with (Z.succ n + Z.of_nat k) by lia.
    apply IH; [lia | lia |]. apply dl_step_inv; [lia | done].
Qed.

Lemma edf_scan :
  edf_inv MAX_THREADS (fold_left (dl_step cpu current now_ms now_ns) (seqZ 0 MAX_THREADS) (None, tbl0)).
Proof.
  apply (edf_fold 256 0); [lia | done |]. split_and!; [intros j Hj; lia | done |].
  intros i Hi. destruct (Z.ltb_spec i 0); [lia | done].
Qed.
End Edf.

Lemma rr_scan_ext cpu current start band tbl tbl' :
  (forall i, 0 <= i < MAX_THREADS -> dispatchable cpu current i (sget tbl' i) = dispatchable cpu current i (sget tbl i)
             /\ priority (sget tbl' i) = priority (sget tbl i)) ->
  rr_scan cpu current start band tbl' = rr_scan cpu current start band tbl.
Proof.
  intros H. unfold rr_scan. set (l := _ <$> _).
  assert (Forall (fun i => 0 <= i < MAX_THREADS) l) as Hl.
  { apply Forall_forall. intros i Hi. unfold l in Hi. apply list_elem_of_fmap in Hi as (o & -> & _).
    apply Z.mod_pos_bound. done. }
  induction Hl as [| i l Hi _ IH]; simpl; [done |]. destruct (H i Hi) as [-> ->]. rewrite IH. done.
Qed.

Lemma rr_pick_ext cpu current tbl tbl' :
  (forall i, 0 <= i < MAX_THREADS -> dispatchable cpu current i (sget tbl' i) = dispatchable cpu current i (sget tbl i)
             /\ priority (sget tbl' i) = priority (sget tbl i)) ->
  rr_pick cpu current tbl' = rr_pick cpu current tbl.
Proof.
  intros H. unfold rr_pick. generalize (seqZ 0 SCHED_PRIORITY_BANDS) as bands.
  induction bands as [| b bands IH]; simpl; [done |]. rewrite (rr_scan_ext _ _ _ _ tbl tbl' H), IH. done.
Qed.

(** The deadline policy is earliest deadline first: with any declared
    thread in the system, every dispatchable declared thread is rolled to its
    current period and nothing else in the table changes; the pick is the
    in-budget one with the nearest deadline (the lowest slot among equals),
    and only when no declared thread may run does the core fall back to the
    round-robin choice. *)
Theorem dl_pick_edf n cpu current now_ms now_ns tbl :
  Z.of_nat (length tbl) = MAX_THREADS -> n <> 0 ->
  let '(r, tbl') := dl_pick n cpu current now_ms now_ns tbl in
  (forall i, 0 <= i < MAX_THREADS -> sget tbl' i = rolled cpu current now_ms tbl i)
  /\ match r with
     | Some b => earliest_among cpu current now_ms now_ns tbl MAX_THREADS (Some b)
                 \/ (earliest_among cpu current now_ms now_ns tbl MAX_THREADS None
                     /\ rr_pick cpu current tbl = Some b)
     | None => earliest_among cpu current now_ms now_ns tbl MAX_THREADS None
               /\ rr_pick cpu current tbl = None
     end.
Proof.
  intros Hlen Hn. unfold dl_pick. rewrite (proj2 (Z.eqb_neq _ _) Hn).
  pose proof (edf_scan cpu current now_ms now_ns tbl Hlen) as (He & Hl & Ht).
  destruct (fold_left _ _ _) as [best tbl'] eqn:E. simpl in He, Hl, Ht.
  assert (forall i, 0 <= i < MAX_THREADS -> sget tbl' i = rolled cpu current now_ms tbl i) as Ht'.
  { intros i Hi. rewrite Ht by done. destruct (Z.ltb_spec i MAX_THREADS); [done | lia]. }
  destruct best as [b |]; [split; [done | by left] |].
  assert (rr_pick cpu current tbl' = rr_pick cpu current tbl) as ->.
  { apply rr_pick_ext. intros i Hi. rewrite Ht' by done. unfold rolled. destruct (candidate _ _ _ _); [| done].
    split; [apply roll_dispatchable |]. unfold roll. repeat case_match; done. }
  split; [done |]. destruct (rr_pick cpu current tbl); auto.
Qed.

(** ** Admission control *)

Definition slots : list Z := seqZ 0 MAX_THREADS.

Definition total (f : Z -> Z) (l : list Z) : Z := foldr (fun i s => f i + s) 0 l.

Definition declared (t : sthread) : bool := live t && negb (period t =? 0).

(** Thousandths of a core a declared thread may use, rounded down as the
    kernel counts them, and rounded up: what it can really use. *)
Definition share (t : sthread) : Z :=
  if declared t then budget_ms t * 1000 / period t else 0.

Definition share_up (t : sthread) : Z :=
  if declared t then (budget_ms t * 1000 + period t - 1) / period t else 0.

Definition ok_declaration (t : sthread) : Prop :=
  declared t = true ->
  SCHED_MIN_PERIOD_MS <= period t <= SCHED_MAX_PERIOD_MS /\ 1 <= budget_ms t <= period t.

Definition admitted (tbl : list sthread) : Prop :=
  (forall i, i ∈ slots -> ok_declaration (sget tbl i))
  /\ total (fun i => share (sget tbl i)) slots <= SCHED_MAX_RESERVED_PERMILLE.

Lemma permille_bound b p : 1 <= b <= p -> 0 <= b * 1000 / p <= 1000.
Proof.
  intros H. split; [apply Z.div_pos; lia |]. apply Z.div_le_upper_bound; [lia | nia].
Qed.

Lemma share_bound t : ok_declaration t -> 0 <= share t <= 1000.
Proof.
  intros H. unfold share. destruct (declared t) eqn:E; [| lia].
  destruct (H E) as [_ Hb]. by apply permille_bound.
Qed.

Lemma share_up_le t : ok_declaration t -> share_up t <= share t + 1.
Proof.
  intros H. unfold share_up, share. destruct (declared t) eqn:E; [| lia]. destruct (H E) as [Hp _].
  unfold SCHED_MIN_PERIOD_MS in Hp. replace (budget_ms t * 1000 + period t - 1) with
    (budget_ms t * 1000 - 1 + 1 * period t) by lia.
  rewrite Z_div_plus by lia. pose proof (Z.div_le_mono (budget_ms t * 1000 - 1) (budget_ms t * 1000) (period t)).
  lia.
Qed.

Lemma total_le f g l : (forall i, i ∈ l -> f i <= g i) -> total f l <= total g l.
Proof.
  induction l as [| a l IH]; intros H; simpl; [lia |].
  pose proof (H a ltac:(left)). specialize (IH ltac:(intros; apply H; by right)). lia.
Qed.

Lemma total_ext f g l : (forall i, i ∈ l -> f i = g i) -> total f l = total g l.
Proof.
  intros H. apply Z.le_antisymm; apply total_le; intros i Hi; rewrite (H i Hi); lia.
Qed.

Lemma total_plus1 f l : total (fun i => f i + 1) l = total f l + Z.of_nat (length l).
Proof. induction l as [| a l IH]; simpl; [done |]. rewrite IH. lia. Qed.

(** Changing the value at one slot changes the sum by the difference. *)
Lemma total_update f g c l :
  NoDup l -> c ∈ l -> (forall i, i ∈ l -> i <> c -> f i = g i) -> total f l = total g l - g c + f c.
Proof.
  intros Hnd. induction Hnd as [| a l Ha _ IH]; intros Hc H; [by apply elem_of_nil in Hc |]. simpl.
  destruct (decide (a = c)) as [-> | Hne].
  - rewrite (total_ext f g l); [lia |]. intros i Hi. apply H; [by right |]. intros ->. done.
  - apply elem_of_cons in Hc as [-> | Hc]; [done |]. rewrite (H a ltac:(left) Hne).
    rewrite IH; [lia | done |]. intros i Hi. apply H. by right.
Qed.

Lemma reserved_fold tbl except l acc :
  (forall i, i ∈ l -> ok_declaration (sget tbl i)) ->
  0 <= acc -> acc + 1000 * Z.of_nat (length l) < 2 ^ 32 ->
  fold_left (fun sum i =>
    let t := sget tbl i in
    if i =? except then sum
    else if negb (live t) then sum
    else if period t =? 0 then sum
    else !32 (sum + permille t)) l acc
  = acc + total (fun i => if i =? except then 0 else share (sget tbl i)) l.
Proof.
  revert acc. induction l as [| a l IH]; intros acc Hok Ha Hb; simpl; [lia |]. simpl in Hb.
  pose proof (share_bound _ (Hok a ltac:(left))) as Hs.
  assert (forall i, i ∈ l -> ok_declaration (sget tbl i)) as Hok' by (intros; apply Hok; by right).
  destruct (a =? except); [rewrite IH by (done || lia); lia |].
  pose proof (Hok a ltac:(left)) as Hd. unfold ok_declaration, share, declared in *.
  destruct (live (sget tbl a)); simpl in *; [| rewrite IH by (done || lia); lia].
  destruct (period (sget tbl a) =? 0); simpl in *; [rewrite IH by (done || lia); lia |].
  destruct (Hd eq_refl) as [Hp Hbud]. unfold SCHED_MIN_PERIOD_MS, SCHED_MAX_PERIOD_MS in *.
  assert (permille (sget tbl a) = budget_ms (sget tbl a) * 1000 / period (sget tbl a)) as ->.
  { unfold permille, u32, u64. rewrite (Z.mod_small (_ * 1000)) by lia. apply Z.mod_small. lia. }
  set (x := _ * 1000 / _) in *. replace (!32 (acc + x)) with (acc + x) by (symmetry; apply Z.mod_small; lia).
  rewrite IH by (done || lia). lia.
Qed.

Lemma slots_spec i : i ∈ slots <-> 0 <= i < MAX_THREADS.
Proof. unfold slots. rewrite elem_of_seqZ. lia. Qed.

Lemma reserved_permille_spec tbl except :
  (forall i, i ∈ slots -> ok_declaration (sget tbl i)) ->
  reserved_permille tbl except = total (fun i => if i =? except then 0 else share (sget tbl i)) slots.
Proof.
  intros H. unfold reserved_permille. rewrite reserved_fold; [done | done | lia | done].
Qed.

Lemma reserved_others tbl cur :
  0 <= cur < MAX_THREADS -> (forall i, i ∈ slots -> ok_declaration (sget tbl i)) ->
  total (fun i => share (sget tbl i)) slots
  = reserved_permille tbl cur + share (sget tbl cur).
Proof.
  intros Hc Hok. rewrite reserved_permille_spec by done.
  rewrite (total_update _ (fun i => if i =? cur then 0 else share (sget tbl i)) cur).
  - rewrite Z.eqb_refl. lia.
  - apply NoDup_seqZ.
  - by apply slots_spec.
  - intros i _ Hne. rewrite (proj2 (Z.eqb_neq _ _) Hne). done.
Qed.

Lemma reserved_other_tables tbl tbl' cur :
  (forall i, i ∈ slots -> ok_declaration (sget tbl i)) -> (forall i, i ∈ slots -> ok_declaration (sget tbl' i)) ->
  (forall i, i ∈ slots -> i <> cur -> sget tbl' i = sget tbl i) ->
  reserved_permille tbl' cur = reserved_permille tbl cur.
Proof.
  intros H H' E. rewrite !reserved_permille_spec by done. apply total_ext. intros i Hi.
  destruct (Z.eqb_spec i cur); [done |]. rewrite E by done. done.
Qed.

(** Writing one slot keeps the table admitted when the new thread fits. *)
Lemma admitted_wr tbl cur t :
  Z.of_nat (length tbl) = MAX_THREADS -> 0 <= cur < MAX_THREADS -> admitted tbl -> ok_declaration t ->
  reserved_permille tbl cur + share t <= SCHED_MAX_RESERVED_PERMILLE -> admitted (wr tbl cur t).
Proof.
  intros Hl Hc [Hok Hsum] Ht Hfit.
  assert (forall i, i ∈ slots -> sget (wr tbl cur t) i = if cur =? i then t else sget tbl i) as Hw.
  { intros i Hi%slots_spec. apply sget_wr; lia. }
  assert (forall i, i ∈ slots -> ok_declaration (sget (wr tbl cur t) i)) as Hok'.
  { intros i Hi. rewrite Hw by done. destruct (cur =? i); [done | by apply Hok]. }
  split; [done |]. rewrite (reserved_others _ cur) by done.
  rewrite (reserved_other_tables tbl) by
    (done || (intros i Hi Hne; rewrite Hw by done; destruct (Z.eqb_spec cur i); [congruence | done])).
  rewrite Hw by (by apply slots_spec). rewrite Z.eqb_refl. done.
Qed.

Lemma reserved_nonneg tbl cur :
  (forall i, i ∈ slots -> ok_declaration (sget tbl i)) -> 0 <= reserved_permille tbl cur <= 256000.
Proof.
  intros Hok. rewrite reserved_permille_spec by done. split.
  - transitivity (total (fun _ => 0) slots); [by vm_compute |]. apply total_le. intros i Hi.
    destruct (i =? cur); [lia |]. pose proof (share_bound _ (Hok i Hi)). lia.
  - transitivity (total (fun _ => 1000) slots); [| by vm_compute]. apply total_le. intros i Hi.
    destruct (i =? cur); [lia |]. pose proof (share_bound _ (Hok i Hi)). lia.
Qed.

Lemma admitted_share_up tbl : admitted tbl -> total (fun i => share_up (sget tbl i)) slots < 1000.
Proof.
  intros [Hok Hsum]. eapply Z.le_lt_trans.
  - apply (total_le _ (fun i => share (sget tbl i) + 1)). intros i Hi. by apply share_up_le, Hok.
  - rewrite (total_plus1 (fun i => share (sget tbl i))). unfold SCHED_MAX_RESERVED_PERMILLE in Hsum.
    change (Z.of_nat (length slots)) with 256. lia.
Qed.

(** The declaration [sched_declare_period] accepts. *)
Definition acceptable (cur period_ms budget : Z) (tbl : list sthread) : Prop :=
  SCHED_MIN_PERIOD_MS <= period_ms <= SCHED_MAX_PERIOD_MS
  /\ default_budget period_ms budget <= period_ms
  /\ reserved_permille tbl cur + default_budget period_ms budget * 1000 / period_ms
       <= SCHED_MAX_RESERVED_PERMILLE.

Lemma default_budget_pos p b : 4 <= p -> 0 <= b -> 1 <= default_budget p b.
Proof.
  intros Hp Hb. unfold default_budget. pose proof (Z.div_le_lower_bound p 2 2 ltac:(lia) ltac:(lia)).
  destruct (Z.eqb_spec b 0); [| lia]. destruct (Z.eqb_spec (p / 2) 0); lia.
Qed.

(** One call, decided by [acceptable]. *)
Lemma sched_declare_cases cur p b now s :
  0 <= cur < MAX_THREADS -> 0 < p < 2 ^ 32 -> 0 <= b < 2 ^ 32 -> admitted (table s) ->
  let '(e, s') := sched_declare_period cur p b now s in
  (e = Errno.EMBK_OK <-> acceptable cur p b (table s))
  /\ (acceptable cur p b (table s) ->
      s' = mkSched (declare cur p (default_budget p b) now (table s))
             (recount_declared (declare cur p (default_budget p b) now (table s))))
  /\ (e <> Errno.EMBK_OK -> s' = s).
Proof.
  intros Hc Hp Hb [Hok Hsum]. pose proof (reserved_nonneg _ cur Hok) as Hr. unfold sched_declare_period, acceptable.
  destruct (Z.ltb_spec cur 0); [lia |]. destruct (Z.eqb_spec p 0); [lia |].
  unfold SCHED_MIN_PERIOD_MS, SCHED_MAX_PERIOD_MS.
  destruct (Z.ltb_spec p 4); [cbn [orb]; split_and!; [| lia | done]; split; [done | lia] |].
  destruct (Z.ltb_spec 10000 p); [cbn [orb]; split_and!; [| lia | done]; split; [done | lia] |]. cbn [orb].
  pose proof (default_budget_pos p b ltac:(lia) ltac:(lia)) as Hdb.
  destruct (Z.ltb_spec p (default_budget p b)); [split_and!; [| lia | done]; split; [done | lia] |].
  pose proof (permille_bound (default_budget p b) p ltac:(lia)) as Hpm.
  unfold u32, u64. rewrite (Z.mod_small (_ * 1000)) by lia. rewrite (Z.mod_small (_ / p)) by lia.
  rewrite Z.mod_small by lia. unfold SCHED_MAX_RESERVED_PERMILLE.
  destruct (Z.ltb_spec 700 (reserved_permille (table s) cur + default_budget p b * 1000 / p)).
  - split_and!; [| lia | done]. split; [done | lia].
  - split_and!; [| done | done]. split; [| done]. intros _. split_and!; lia.
Qed.

Lemma share_declared t p b d c :
  4 <= p -> 0 <= b -> share (with_period t p b d c) <= b * 1000 / p.
Proof.
  intros Hp Hb. pose proof (Z.div_pos (b * 1000) p ltac:(lia) ltac:(lia)).
  unfold share. destruct (declared _); [done | lia].
Qed.

(** Clearing a reservation always fits. *)
Lemma admitted_clear tbl cur :
  Z.of_nat (length tbl) = MAX_THREADS -> 0 <= cur < MAX_THREADS -> admitted tbl ->
  admitted (wr tbl cur (with_period (sget tbl cur) 0 0 0 0)).
Proof.
  intros Hl Hc Hadm. destruct Hadm as [Hok Hsum]. apply admitted_wr; [done | done | done | |].
  - unfold ok_declaration, declared. simpl. rewrite andb_false_r. done.
  - pose proof (reserved_others _ cur Hc Hok) as Hro.
    pose proof (share_bound _ (Hok cur ltac:(by apply slots_spec))) as Hs.
    assert (share (with_period (sget tbl cur) 0 0 0 0) = 0) as ->
      by (unfold share, declared; simpl; rewrite andb_false_r; done).
    lia.
Qed.

(** Admission control is sound and complete.  From an admitted table a
    declaration is accepted exactly when its period is in range, its budget
    fits its period, and the budgets of the other live threads plus this one
    stay within 700 thousandths of a core as the kernel counts them; a refusal
    changes nothing, clearing never fails, the table stays admitted, and no
    other thread's slot moves.  Rounding cannot defeat the limit: even with
    every share rounded up, all declared threads together use less than one
    whole core. *)
Theorem sched_declare_admission cur p b now s :
  Z.of_nat (length (table s)) = MAX_THREADS -> 0 <= cur < MAX_THREADS ->
  0 <= p < 2 ^ 32 -> 0 <= b < 2 ^ 32 -> admitted (table s) ->
  let '(e, s') := sched_declare_period cur p b now s in
  (e = Errno.EMBK_OK <-> p = 0 \/ acceptable cur p b (table s))
  /\ (e <> Errno.EMBK_OK -> s' = s)
  /\ admitted (table s')
  /\ total (fun i => share_up (sget (table s') i)) slots < 1000
  /\ (forall i, 0 <= i < MAX_THREADS -> i <> cur -> sget (table s') i = sget (table s) i).
Proof.
  intros Hl Hc Hp Hb Hadm. assert (forall t i, 0 <= i < MAX_THREADS -> i <> cur ->
    sget (wr (table s) cur t) i = sget (table s) i) as Hother.
  { intros t i Hi Hne. rewrite sget_wr by lia. destruct (Z.eqb_spec cur i); [congruence | done]. }
  destruct (decide (p = 0)) as [-> | Hp0].
  - unfold sched_declare_period. destruct (Z.ltb_spec cur 0); [lia |]. cbn [Z.eqb table].
    pose proof (admitted_clear _ cur Hl Hc Hadm) as Ha.
    split_and!; [| done | done | by apply admitted_share_up | apply Hother]. split; [by left | done].
  - pose proof (sched_declare_cases cur p b now s Hc ltac:(lia) Hb Hadm) as H.
    destruct (sched_declare_period cur p b now s) as [e s']. destruct H as (Hiff & Hs & Herr).
    destruct (decide (e = Errno.EMBK_OK)) as [He | He].
    + pose proof (proj1 Hiff He) as Hacc. rewrite (Hs Hacc). cbn [table]. destruct Hacc as (Hr & Hbp & Hfit).
      unfold SCHED_MIN_PERIOD_MS in Hr. pose proof (default_budget_pos p b ltac:(lia) ltac:(lia)) as Hdb.
      assert (admitted (declare cur p (default_budget p b) now (table s))) as Ha.
      { apply admitted_wr; [done | done | done | |].
        - intros _. cbn. unfold SCHED_MIN_PERIOD_MS. lia.
        - pose proof (share_declared (sget (table s) cur) p (default_budget p b)
            (!64 (now + p)) (cpu_ns (sget (table s) cur)) ltac:(lia) ltac:(lia)). lia. }
      split_and!; [tauto | tauto | done | by apply admitted_share_up | apply Hother].
    + rewrite (Herr He). split_and!; [tauto | done | done | by apply admitted_share_up | done].
Qed.

(** How long the next timer shot may be, for the periodic wheel and for an
    idle core: at least one millisecond when something is due, and never past
    the cap (plus the per-core stagger, for the idle one). *)
Lemma sched_next_wake_bound e now :
  0 <= now -> 0 <= e ->
  let ms := sched_next_wake_in_ms e now in
  0 <= ms <= TIMER_QUANTUM_MS /\ (ms = 0 <-> e = 0) /\ (now < e -> now + ms <= e).
Proof.
  intros Hn He. unfold sched_next_wake_in_ms, TIMER_QUANTUM_MS, u32.
  destruct (Z.eqb_spec e 0); [lia |]. destruct (Z.leb_spec e now); [lia |].
  destruct (Z.leb_spec 10 (e - now)); [lia |]. rewrite Z.mod_small by lia. lia.
Qed.

Lemma sched_idle_next_bound e now cpu :
  0 <= now -> now + SCHED_IDLE_CAP_MS < 2 ^ 64 -> 0 <= e ->
  let ms := sched_idle_next_ms e now cpu in
  1 <= ms <= SCHED_IDLE_CAP_MS + 6.
Proof.
  intros Hn Hs He. unfold sched_idle_next_ms, SCHED_IDLE_CAP_MS in *. cbv zeta.
  assert (0 <= Z.land cpu 3 <= 3) as Hl.
  { assert (Z.land cpu 3 = cpu mod 4) as -> by (apply (Z.land_ones cpu 2); lia).
    pose proof (Z.mod_pos_bound cpu 4 ltac:(lia)). lia. }
  replace (!64 (now + 1000)) with (now + 1000) by (symmetry; apply Z.mod_small; lia).
  set (best := if negb (e =? 0) && (e <? now + 1000) then e else now + 1000). destruct (Z.leb_spec best now); [lia |].
  set (ms := if 1000 <? best - now then 1000 else best - now). assert (1 <= ms <= 1000).
  { unfold ms. destruct (Z.ltb_spec 1000 (best - now)); lia. }
  unfold u64, u32. rewrite (Z.mod_small (ms + _)) by lia. rewrite Z.mod_small by lia. lia.
Qed.

(** ** A concrete machine *)

(** Slot 0 runs, slots 3 and 7 are ready (slot 7 in a better band), slot 9 has
    declared a 16 ms period with a 4 ms budget, the rest are free. *)
Definition demo_thread (st : process_state) (prio per bud dl : Z) : sthread :=
  mkSthread st prio 0 false false (-1) (-1) per bud dl 0 0 0.

Definition demo_table : list sthread :=
  <[0%nat := mkSthread PROCESS_RUNNING 2 0 false false (-1) 0 0 0 0 0 0 0]>
  (<[3%nat := demo_thread PROCESS_READY 2 0 0 0]>
  (<[7%nat := demo_thread PROCESS_READY 1 0 0 0]>
  (<[9%nat := demo_thread PROCESS_READY 3 16 4 100]> (replicate 256 free_slot)))).

Lemma demo_table_len : Z.of_nat (length demo_table) = MAX_THREADS.
Proof. vm_compute. reflexivity. Qed.

(** A property of every slot, by evaluation. *)
Lemma slots_forall (P : Z -> bool) :
  forallb P slots = true -> forall i, 0 <= i < MAX_THREADS -> P i = true.
Proof. intros H i Hi. rewrite forallb_forall in H. apply H, list_elem_of_In, slots_spec, Hi. Qed.

Lemma demo_bands : bands_ok demo_table.
Proof.
  intros j Hj. pose proof (slots_forall
    (fun j => (0 <=? priority (sget demo_table j)) && (priority (sget demo_table j) <? SCHED_PRIORITY_BANDS))
    ltac:(vm_compute; reflexivity) j Hj) as H. cbv beta in H. b2p. lia.
Qed.

Lemma demo_admitted : admitted demo_table.
Proof.
  split; [| by vm_compute]. intros i Hi%slots_spec Hd. pose proof (slots_forall
    (fun i => negb (declared (sget demo_table i)) ||
       ((4 <=? period (sget demo_table i)) && (period (sget demo_table i) <=? 10000)
        && (1 <=? budget_ms (sget demo_table i)) && (budget_ms (sget demo_table i) <=? period (sget demo_table i))))
    ltac:(vm_compute; reflexivity) i Hi) as H. cbv beta in H. rewrite Hd in H. cbn [negb orb] in H. b2p.
  unfold SCHED_MIN_PERIOD_MS, SCHED_MAX_PERIOD_MS. lia.
Qed.

Lemma rr_pick_exact_witness :
  bands_ok demo_table /\ rr_pick 0 0 demo_table = Some 7
  /\ forall j, 0 <= j < MAX_THREADS -> dispatchable 0 0 j (sget demo_table j) = true ->
       priority (sget demo_table 7) < priority (sget demo_table j)
       \/ priority (sget demo_table 7) = priority (sget demo_table j)
          /\ rr_dist (rr_start 0) 7 <= rr_dist (rr_start 0) j.
Proof.
  split; [apply demo_bands |]. split; [vm_compute; reflexivity |].
  pose proof (rr_pick_exact 0 0 demo_table demo_bands) as H.
  assert (rr_pick 0 0 demo_table = Some 7) as E by (vm_compute; reflexivity). rewrite E in H. apply H.
Defined.

Lemma rr_tick_ages_witness :
  exists t', rr_ticks (replicate 60 0) demo_table !! 9%nat = Some t' /\ priority t' = PRIORITY_REALTIME.
Proof.
  destruct (rr_tick_ages (replicate 60 0) demo_table 9 (demo_thread PROCESS_READY 3 16 4 100))
    as (t' & Ht & _ & _ & Hp).
  - vm_compute. reflexivity.
  - done.
  - apply Forall_replicate. done.
  - done.
  - done.
  - exists t'. split; [exact Ht |]. apply Hp. rewrite length_replicate. done.
Defined.

(** Thread 3, once in the top band, against thread 7 in the same band. *)
Definition demo_top : list sthread :=
  <[3%nat := demo_thread PROCESS_READY 0 0 0 0]>
  (<[7%nat := demo_thread PROCESS_READY 0 0 0 0]> demo_table).

Lemma rr_bounded_wait_witness : passed_over 0 3 3 1 7 /\ Z.of_nat 1 < MAX_THREADS.
Proof.
  assert (passed_over 0 3 3 1 7) as H.
  { apply (po_pick 0 3 3 0 3 demo_top 7); [constructor | | | | |].
    - intros j Hj. pose proof (slots_forall
        (fun j => (0 <=? priority (sget demo_top j)) && (priority (sget demo_top j) <? SCHED_PRIORITY_BANDS))
        ltac:(vm_compute; reflexivity) j Hj) as H. cbv beta in H. b2p. lia.
    - vm_compute. reflexivity.
    - vm_compute. reflexivity.
    - vm_compute. reflexivity.
    - done. }
  split; [exact H |]. apply (rr_bounded_wait 0 3 3 1 7); [done | done | exact H].
Defined.

Lemma dl_pick_edf_witness :
  fst (dl_pick 1 0 0 105 200000000 demo_table) = Some 9
  /\ sget (snd (dl_pick 1 0 0 105 200000000 demo_table)) 9 = rolled 0 0 105 demo_table 9
  /\ deadline_ms (rolled 0 0 105 demo_table 9) = 116.
Proof.
  assert (fst (dl_pick 1 0 0 105 200000000 demo_table) = Some 9) as E by (vm_compute; reflexivity).
  split; [exact E |]. split; [| vm_compute; reflexivity].
  pose proof (dl_pick_edf 1 0 0 105 200000000 demo_table demo_table_len ltac:(done)) as H.
  destruct (dl_pick 1 0 0 105 200000000 demo_table) as [r tbl]. destruct H as [H _].
  cbn [snd]. apply (H 9). unfold MAX_THREADS. lia.
Defined.

Lemma sched_declare_admission_witness :
  let s := mkSched demo_table 1 in
  fst (sched_declare_period 3 10 4 200 s) = Errno.EMBK_OK
  /\ fst (sched_declare_period 3 10 0 200 s) = - EMBK_EBUSY
  /\ admitted (table (snd (sched_declare_period 3 10 4 200 s))).
Proof.
  cbv zeta. split_and!; [vm_compute; reflexivity .. |].
  pose proof (sched_declare_admission 3 10 4 200 (mkSched demo_table 1)
    demo_table_len ltac:(done) ltac:(done) ltac:(done) demo_admitted) as H.
  destruct (sched_declare_period 3 10 4 200 (mkSched demo_table 1)) as [e s']. apply H.
Defined.
