(* ===== verification/Kheap.v ===== *)
(** * The kernel heap ([kernel/mm/kheap.c], [kernel/mm/kmalloc.c])

    A first-fit list of blocks with canaries, and slab pools for the sizes up
    to 1024 carved out of permanent general allocations.  The doubly linked
    list of blocks is the list of its blocks in order (a block is its header:
    address, size, flag and both canaries); the free list a pool threads
    through its free objects is the list of their addresses.  The bytes of the
    allocations are not part of the model.

    Pages come from the physical allocator and are mapped by [vmm_map]: the
    interface [PageSource], which [Pmm] implements. *)

From stdpp Require Import sorting.
From S2P Require Import Prelude Pmm.

Definition KHEAP_BASE : Z := 0xFFFFFF8000000000.
Definition KHEAP_ALIGNMENT : Z := 16.
Definition KHEAP_CANARY_HEAD : Z := 0xDEADBEEFCAFEBABE.
Definition KHEAP_CANARY_TAIL : Z := 0xCAFEBABEDEADBEEF.
Definition KHEAP_SLAB_MIN_OBJS : Z := 8.
Definition SLAB_MAX_RANGES : Z := 1024.
Definition SLAB_REGION_BYTES : Z := 64 * 1024.

(** [sizeof(block_t)] and [sizeof(uint64_t)]. *)
Definition HEADER : Z := 40.
Definition WORD : Z := 8.
Definition MIN_BLOCK_SIZE : Z := HEADER + KHEAP_ALIGNMENT + WORD.

Record block := mkBlock {
  b_addr : Z;
  b_size : Z;
  b_used : bool;
  b_canary : Z;
  b_tail : Z;                 (* *block_tail_canary(block) *)
}.

Record slab_pool := mkPool { obj_size : Z; free_list : list Z; total_objs : Z; used_objs : Z }.
Record slab_range := mkRange { r_start : Z; r_end : Z; pool_idx : Z }.

Record heap := mkHeap {
  blocks : list block;        (* from heap_head along next *)
  heap_end : Z;
  total_size : Z;
  used_size : Z;
  block_count : Z;
  pools : list slab_pool;
  ranges : list slab_range;   (* g_slab_ranges[0 .. g_slab_range_count) *)
}.

Definition slab_sizes : list Z := [16; 32; 64; 128; 256; 512; 1024].

Definition align_up (size align : Z) : Z := Z.land (!64 (size + align - 1)) (!64 (Z.lnot (align - 1))).

Definition block_user_data (b : block) : Z := b_addr b + HEADER.
Definition user_size (b : block) : Z := b_size b - HEADER - WORD.

Definition set_blocks (h : heap) (bs : list block) (count : Z) : heap :=
  mkHeap bs (heap_end h) (total_size h) (used_size h) count (pools h) (ranges h).
Definition set_used (h : heap) (u : Z) : heap :=
  mkHeap (blocks h) (heap_end h) (total_size h) u (block_count h) (pools h) (ranges h).
Definition set_slabs (h : heap) (ps : list slab_pool) (rs : list slab_range) : heap :=
  mkHeap (blocks h) (heap_end h) (total_size h) (used_size h) (block_count h) ps rs.

(** ** The registry of slab regions *)

Definition null_range : slab_range := mkRange 0 0 0.
Definition rget (rs : list slab_range) (i : Z) : slab_range := default null_range (rs !! Z.to_nat i).

Fixpoint bisect (fuel : nat) (rs : list slab_range) (a lo hi : Z) : Z :=
  match fuel with
  | O => lo
  | S fuel =>
      if lo <? hi then
        let mid := lo + (hi - lo) / 2 in
        if r_start (rget rs mid) <=? a then bisect fuel rs a (mid + 1) hi else bisect fuel rs a lo mid
      else lo
  end.

(** The fuel is the number of regions, which the bisection cannot exceed. *)
Definition slab_range_lookup (ptr : Z) (rs : list slab_range) : Z :=
  let lo := bisect (length rs) rs ptr 0 (Z.of_nat (length rs)) in
  if lo =? 0 then -1
  else let r := rget rs (lo - 1) in if ptr <? r_end r then pool_idx r else -1.

(** [while (i > 0 && ranges[i - 1].start > start)], on the array with one
    more cell. *)
Fixpoint shift_up (i : nat) (start : Z) (rs : list slab_range) : nat * list slab_range :=
  match i with
  | O => (O, rs)
  | S j =>
      let r := default null_range (rs !! j) in
      if start <? r_start r then shift_up j start (<[S j := r]> rs) else (S j, rs)
  end.

Definition slab_range_insert (start end_ idx : Z) (rs : list slab_range) : list slab_range :=
  let '(i, rs) := shift_up (length rs) start (rs ++ [null_range]) in
  <[i := mkRange start end_ idx]> rs.

Fixpoint class_from (i : Z) (sizes : list Z) (size : Z) : Z :=
  match sizes with
  | [] => -1
  | s :: sizes => if size <=? s then i else class_from (i + 1) sizes size
  end.

Definition slab_class_for (size : Z) : Z := class_from 0 slab_sizes size.

Definition null_pool : slab_pool := mkPool 0 [] 0 0.
Definition pool_at (h : heap) (i : Z) : slab_pool := default null_pool (pools h !! Z.to_nat i).
Definition set_pool (h : heap) (i : Z) (p : slab_pool) : heap :=
  set_slabs h (wr (pools h) i p) (ranges h).

(** ** Where pages come from *)

(** [pmm_alloc_page] and [vmm_map] on a state of their own.  Physical memory
    is finite: every page handed out leaves fewer, and mapping creates none. *)
Class PageSource (E : Type) := {
  alloc_page : E -> Z * E;
  map_page : Z -> Z -> E -> Z * E;
  source_ok : E -> Prop;
  pages_left : E -> Z;
  pages_left_nonneg e : source_ok e -> 0 <= pages_left e;
  alloc_page_ok e : source_ok e -> source_ok (snd (alloc_page e));
  alloc_page_finite e : source_ok e -> fst (alloc_page e) <> 0 ->
    pages_left (snd (alloc_page e)) < pages_left e;
  alloc_page_fail e : source_ok e -> fst (alloc_page e) = 0 ->
    pages_left (snd (alloc_page e)) <= pages_left e;
  map_page_ok v p e : source_ok e -> source_ok (snd (map_page v p e));
  map_page_finite v p e : source_ok e -> pages_left (snd (map_page v p e)) <= pages_left e;
}.

Section Heap.
Context {E : Type} `{PageSource E}.

Definition st : Type := heap * E.

(** ** Growing *)

Definition set_end (h : heap) (e t : Z) : heap :=
  mkHeap (blocks h) e t (used_size h) (block_count h) (pools h) (ranges h).

Fixpoint grow_pages (pages : nat) (s : st) : bool * st :=
  match pages with
  | O => (true, s)
  | S pages =>
      let '(h, e) := s in
      let '(phys, e) := alloc_page e in
      if phys =? 0 then (false, (h, e))
      else
        let '(r, e) := map_page (heap_end h) phys e in
        if r <? 0 then (false, (h, e))
        else grow_pages pages (set_end h (!64 (heap_end h + PAGE_SIZE)) (total_size h), e)
  end.

Definition heap_grow (bytes : Z) (s : st) : Z * st :=
  let pages := !64 (bytes + PAGE_SIZE - 1) / PAGE_SIZE in
  let new_block_addr := heap_end (fst s) in
  let '(ok, (h, e)) := grow_pages (Z.to_nat pages) s in
  if ok then (new_block_addr, (set_end h (heap_end h) (!64 (total_size h + pages * PAGE_SIZE)), e))
  else (0, (h, e)).

(** ** The general allocator *)

(** The first free block that is large enough, split when the rest is worth
    keeping: the new list, the block handed out, and whether it was split. *)
Fixpoint first_fit (total : Z) (bs : list block) : option (list block * block * bool) :=
  match bs with
  | [] => None
  | b :: bs =>
      if negb (b_used b) && (total <=? b_size b) then
        let leftover := b_size b - total in
        if MIN_BLOCK_SIZE <=? leftover then
          let b' := mkBlock (b_addr b) total true KHEAP_CANARY_HEAD KHEAP_CANARY_TAIL in
          let new_block := mkBlock (b_addr b + total) leftover false 0 KHEAP_CANARY_TAIL in
          Some (b' :: new_block :: bs, b', true)
        else
          let b' := mkBlock (b_addr b) (b_size b) true KHEAP_CANARY_HEAD KHEAP_CANARY_TAIL in
          Some (b' :: bs, b', false)
      else
        match first_fit total bs with
        | Some (bs', b', split) => Some (b :: bs', b', split)
        | None => None
        end
  end.

Definition total_block_size (size : Z) : Z := !64 (align_up size KHEAP_ALIGNMENT + HEADER + WORD).

Definition alloc_general (again : Z -> st -> option (Z * st)) (size : Z) (s : st) : option (Z * st) :=
  let total := total_block_size size in
  match first_fit total (blocks (fst s)) with
  | Some (bs, b, split) =>
      let h := fst s in
      let h := set_blocks h bs (if split then !64 (block_count h + 1) else block_count h) in
      let h := set_used h (!64 (used_size h + user_size b)) in
      Some (block_user_data b, (h, snd s))
  | None =>
      let '(addr, (h, e)) := heap_grow total s in
      if addr =? 0 then Some (0, (h, e))
      else
        let actual_pages := !64 (total + PAGE_SIZE - 1) / PAGE_SIZE in
        let new_block := mkBlock addr (!64 (actual_pages * PAGE_SIZE)) false 0 KHEAP_CANARY_TAIL in
        again size (set_blocks h (blocks h ++ [new_block]) (!64 (block_count h + 1)), e)
  end.

(** ** Slabs *)

Definition slab_grow (again : Z -> st -> option (Z * st)) (cls : Z) (s : st) : option st :=
  if SLAB_MAX_RANGES <=? Z.of_nat (length (ranges (fst s))) then Some s
  else
    let size := obj_size (pool_at (fst s) cls) in
    let objs := SLAB_REGION_BYTES / size in
    let objs := if objs <? KHEAP_SLAB_MIN_OBJS then KHEAP_SLAB_MIN_OBJS else objs in
    match again (objs * size) s with
    | None => None
    | Some (region, (h, e)) =>
        if region =? 0 then Some (h, e)
        else
          let rs := slab_range_insert region (region + objs * size) cls (ranges h) in
          let p := pool_at h cls in
          let fl := fold_left (fun fl i => (region + i * size) :: fl) (seqZ 0 objs) (free_list p) in
          let p := mkPool (obj_size p) fl (!64 (total_objs p + objs)) (used_objs p) in
          Some (set_pool (set_slabs h (pools h) rs) cls p, e)
    end.

(** Pop the free list of a pool. *)
Definition slab_pop (cls : Z) (s : st) : Z * st :=
  let p := pool_at (fst s) cls in
  match free_list p with
  | [] => (0, s)
  | obj :: fl =>
      (obj, (set_pool (fst s) cls (mkPool (obj_size p) fl (total_objs p) (!64 (used_objs p + 1))), snd s))
  end.

Definition slab_alloc (again : Z -> st -> option (Z * st)) (cls : Z) (s : st) : option (Z * st) :=
  match free_list (pool_at (fst s) cls) with
  | [] =>
      match slab_grow again cls s with
      | None => None
      | Some s => Some (slab_pop cls s)
      end
  | _ => Some (slab_pop cls s)
  end.

Definition kheap_slab_free_locked (cls obj : Z) (h : heap) : heap :=
  let p := pool_at h cls in
  set_pool h cls (mkPool (obj_size p) (obj :: free_list p) (total_objs p) (!64 (used_objs p - 1))).

(** ** The entry points *)

(** [None] is a run that exceeds the recursion depth. *)
Fixpoint kheap_alloc_locked (depth : nat) (size : Z) (s : st) : option (Z * st) :=
  match depth with
  | O => None
  | S depth =>
      if size =? 0 then Some (0, s)
      else
        let again := kheap_alloc_locked depth in
        let cls := slab_class_for size in
        if 0 <=? cls then
          match slab_alloc again cls s with
          | None => None
          | Some (obj, s) => if obj =? 0 then alloc_general again size s else Some (obj, s)
          end
        else alloc_general again size s
  end.

(** Deep enough for every call ([kheap_alloc_depth]): a slab request may grow
    its pool and then the heap, and each of the two may grow the heap once. *)
Definition DEPTH : nat := 4.
Definition kheap_alloc (size : Z) (s : st) : option (Z * st) := kheap_alloc_locked DEPTH size s.

(** The block a header address names, with the blocks before it (nearest
    first) and after it. *)
Fixpoint split_block (a : Z) (before bs : list block) : option (list block * block * list block) :=
  match bs with
  | [] => None
  | b :: bs => if b_addr b =? a then Some (before, b, bs) else split_block a (b :: before) bs
  end.

Definition resize (b : block) (sz : Z) : block :=
  mkBlock (b_addr b) sz (b_used b) (b_canary b) KHEAP_CANARY_TAIL.

Definition coalesce_next (b : block) (after : list block) (count : Z) : block * list block * Z :=
  match after with
  | n :: after' =>
      if negb (b_used n) then (resize b (!64 (b_size b + b_size n)), after', !64 (count - 1))
      else (b, after, count)
  | [] => (b, after, count)
  end.

Definition coalesce_prev (before : list block) (b : block) (count : Z) : list block * Z :=
  match before with
  | p :: before' =>
      if negb (b_used p) then (resize p (!64 (b_size p + b_size b)) :: before', !64 (count - 1))
      else (b :: before, count)
  | [] => (b :: before, count)
  end.

(** [None] is a pointer that names no header: the C reads memory that is not a
    header there. *)
Definition kheap_free_locked (ptr : Z) (h : heap) : option heap :=
  if ptr =? 0 then Some h
  else
    let cls := slab_range_lookup ptr (ranges h) in
    if 0 <=? cls then Some (kheap_slab_free_locked cls ptr h)
    else
      match split_block (ptr - HEADER) [] (blocks h) with
      | None => None
      | Some (before, b, after) =>
          if negb (b_canary b =? KHEAP_CANARY_HEAD) then Some h
          else if negb (b_tail b =? KHEAP_CANARY_TAIL) then Some h
          else if negb (b_used b) then Some h
          else
            let b := mkBlock (b_addr b) (b_size b) false 0 (b_tail b) in
            let u := !64 (used_size h - user_size b) in
            let '(b, after, count) := coalesce_next b after (block_count h) in
            let '(before, count) := coalesce_prev before b count in
            Some (set_used (set_blocks h (rev_append before after) count) u)
      end.

Definition kheap_slab_init (h : heap) : heap :=
  set_slabs h ((fun s => mkPool s [] 0 0) <$> slab_sizes) [].

(** [None]: the kernel halts. *)
Definition kheap_init (e : E) : option st :=
  let h := kheap_slab_init (mkHeap [] KHEAP_BASE 0 0 0 [] []) in
  let '(base, (h, e)) := heap_grow PAGE_SIZE (h, e) in
  if base =? 0 then None
  else Some (set_blocks h [mkBlock base PAGE_SIZE false 0 KHEAP_CANARY_TAIL] 1, e).

(** The array is zeroed by the caller-visible loop, which changes no
    metadata. *)
Definition kheap_calloc (count size : Z) (s : st) : option (Z * st) :=
  kheap_alloc (!64 (count * size)) s.

Definition kcalloc (count size : Z) (s : st) : option (Z * st) :=
  if negb (count =? 0) && (UINT64_MAX / count <? size) then Some (0, s) else kheap_calloc count size s.

(** In-place expansion of a block whose successor is free. *)
Definition kheap_try_expand_locked (before : list block) (b : block) (after : list block)
    (new_size count : Z) : option (list block * Z) :=
  match after with
  | [] => None
  | n :: after' =>
      if b_used n then None
      else
        let new_total_size := !64 (align_up new_size KHEAP_ALIGNMENT + HEADER + WORD) in
        let combined_size := !64 (b_size b + b_size n) in
        if combined_size <? new_total_size then None
        else
          let new_block_size := !64 (combined_size - (new_total_size - b_size b)) in
          if MIN_BLOCK_SIZE <=? new_block_size then
            let leftover := mkBlock (b_addr b + new_total_size) new_block_size false 0 KHEAP_CANARY_TAIL in
            Some (rev_append before (resize b new_total_size :: leftover :: after'), count)
          else Some (rev_append before (resize b combined_size :: after'), !64 (count - 1))
  end.

(** What a reallocation returns: the pointer, and the copy it makes as
    (source, destination, length). *)
Definition realloc_result : Type := Z * option (Z * Z * Z).

Definition kheap_realloc (ptr new_size : Z) (s : st) : option (realloc_result * st) :=
  if ptr =? 0 then
    match kheap_alloc new_size s with Some (p, s) => Some ((p, None), s) | None => None end
  else if new_size =? 0 then
    match kheap_free_locked ptr (fst s) with Some h => Some ((0, None), (h, snd s)) | None => None end
  else
    let cls := slab_range_lookup ptr (ranges (fst s)) in
    if 0 <=? cls then
      let size := default 0 (slab_sizes !! Z.to_nat cls) in
      if new_size <=? size then Some ((ptr, None), s)
      else
        match kheap_alloc new_size s with
        | None => None
        | Some (p, (h, e)) =>
            if p =? 0 then Some ((0, None), (h, e))
            else Some ((p, Some (ptr, p, size)), (kheap_slab_free_locked cls ptr h, e))
        end
    else
      match split_block (ptr - HEADER) [] (blocks (fst s)) with
      | None => None
      | Some (before, b, after) =>
          let old := !64 (user_size b) in
          if new_size <=? old then Some ((ptr, None), s)
          else
            match kheap_try_expand_locked before b after new_size (block_count (fst s)) with
            | Some (bs, count) => Some ((ptr, None), (set_blocks (fst s) bs count, snd s))
            | None =>
                match kheap_alloc new_size s with
                | None => None
                | Some (p, (h, e)) =>
                    if p =? 0 then Some ((0, None), (h, e))
                    else
                      match kheap_free_locked ptr h with
                      | None => None
                      | Some h => Some ((p, Some (ptr, p, old)), (h, e))
                      end
                end
            end
      end.

(** [kheap_check] walks the list; [false] is the halt. *)
Definition kheap_check (h : heap) : bool :=
  forallb (fun b => negb (b_used b && negb (b_canary b =? KHEAP_CANARY_HEAD))
                    && (b_tail b =? KHEAP_CANARY_TAIL)) (blocks h).

(** The counts of [kheap_stats]: free blocks, used blocks, largest free. *)
Definition kheap_stats (h : heap) : Z * Z * Z :=
  fold_left (fun '(f, u, l) b =>
    if negb (b_used b) then (f + 1, u, if l <? b_size b then b_size b else l) else (f, u + 1, l))
    (blocks h) (0, 0, 0).

Definition kheap_slab_stats_get (h : heap) : Z * Z * Z :=
  let '(t, u) := fold_left (fun '(t, u) p => (!64 (t + total_objs p), !64 (u + used_objs p))) (pools h) (0, 0) in
  (t, u, Z.of_nat (length (ranges h))).
End Heap.

(** ** The registry finds exactly the region an address lies in *)

Definition range_lt (r q : slab_range) : Prop := r_start r < r_start q.

(** The regions in increasing order of their starts. *)
Definition sorted_ranges (rs : list slab_range) : Prop := StronglySorted range_lt rs.

Lemma sorted_lookup rs i j r q :
  sorted_ranges rs -> rs !! i = Some r -> rs !! j = Some q -> (i < j)%nat -> r_start r < r_start q.
Proof.
  intros Hs. revert i j. induction Hs as [| x l Hs IH Hx]; intros i j Hi Hj Hlt; [done |].
  destruct i as [| i], j as [| j]; simpl in *; [lia | | lia | eapply IH; [done | done | lia]].
  simplify_eq. rewrite Forall_lookup in Hx. by apply Hx in Hj.
Qed.

Lemma rget_lookup rs i : 0 <= i < Z.of_nat (length rs) -> rs !! Z.to_nat i = Some (rget rs i).
Proof.
  intros Hi. unfold rget. destruct (rs !! Z.to_nat i) eqn:E; [done |].
  apply lookup_ge_None in E. lia.
Qed.

Lemma bisect_spec fuel rs a lo hi :
  sorted_ranges rs -> 0 <= lo <= hi -> hi <= Z.of_nat (length rs) -> hi - lo <= Z.of_nat fuel ->
  (forall i, 0 <= i < lo -> r_start (rget rs i) <= a) ->
  (forall i, hi <= i < Z.of_nat (length rs) -> a < r_start (rget rs i)) ->
  let k := bisect fuel rs a lo hi in
  0 <= k <= Z.of_nat (length rs)
  /\ (forall i, 0 <= i < k -> r_start (rget rs i) <= a)
  /\ (forall i, k <= i < Z.of_nat (length rs) -> a < r_start (rget rs i)).
Proof.
  intros Hs. revert lo hi. induction fuel as [| fuel IH]; intros lo hi Hlo Hhi Hf Hbelow Habove; simpl.
  - assert (lo = hi) as -> by lia. split_and!; [lia | lia | done | done].
  - destruct (Z.ltb_spec lo hi); [| assert (lo = hi) as -> by lia; split_and!; [lia | lia | done | done]].
    pose proof (Z.div_lt (hi - lo) 2 ltac:(lia) ltac:(lia)).
    pose proof (Z.div_pos (hi - lo) 2 ltac:(lia) ltac:(lia)).
    set (mid := lo + (hi - lo) / 2) in *.
    assert (forall i j, 0 <= i < j -> j < Z.of_nat (length rs) -> r_start (rget rs i) < r_start (rget rs j)) as Hmono.
    { intros i j Hij Hj. eapply sorted_lookup; [done | apply rget_lookup; lia | apply rget_lookup; lia | lia]. }
    destruct (Z.leb_spec (r_start (rget rs mid)) a).
    + apply IH; [lia | lia | lia | | done]. intros i Hi. destruct (decide (i = mid)) as [-> | ?]; [done |].
      pose proof (Hmono i mid ltac:(lia) ltac:(lia)). lia.
    + apply IH; [lia | lia | lia | done |]. intros i Hi. destruct (decide (i = mid)) as [-> | ?]; [done |].
      pose proof (Hmono mid i ltac:(lia) ltac:(lia)). lia.
Qed.

(** Regions that do not overlap. *)
Definition apart (rs : list slab_range) : Prop :=
  forall r q, r ∈ rs -> q ∈ rs -> r_start r < r_start q -> r_end r <= r_start q.

Lemma lookup_hit rs r a :
  sorted_ranges rs -> apart rs -> r ∈ rs -> r_start r <= a < r_end r -> slab_range_lookup a rs = pool_idx r.
Proof.
  intros Hs Ha Hr Hin. unfold slab_range_lookup.
  pose proof (bisect_spec (length rs) rs a 0 (Z.of_nat (length rs)) Hs ltac:(lia) ltac:(lia) ltac:(lia)
    ltac:(intros; lia) ltac:(intros; lia)) as (Hk & Hlo & Hhi).
  set (k := bisect _ _ _ _ _) in *. apply list_elem_of_lookup in Hr as [i Hi].
  pose proof (lookup_lt_Some _ _ _ Hi) as Hil.
  assert (rget rs (Z.of_nat i) = r) as Er by (unfold rget; rewrite Nat2Z.id, Hi; done).
  assert (Z.of_nat i < k) as Hik.
  { destruct (Z.lt_ge_cases (Z.of_nat i) k); [done |]. pose proof (Hhi (Z.of_nat i) ltac:(lia)) as Hc.
    rewrite Er in Hc. lia. }
  destruct (Z.eqb_spec k 0); [lia |].
  assert (Z.of_nat i = k - 1) as Ek.
  { destruct (Z.eq_dec (Z.of_nat i) (k - 1)) as [? | Hne]; [done |]. exfalso.
    pose proof (rget_lookup rs (k - 1) ltac:(lia)) as Hq.
    pose proof (sorted_lookup _ _ _ _ _ Hs Hi Hq ltac:(lia)) as Hlt.
    pose proof (Ha r (rget rs (k - 1)) (list_elem_of_lookup_2 _ _ _ Hi) (list_elem_of_lookup_2 _ _ _ Hq) Hlt).
    pose proof (Hlo (k - 1) ltac:(lia)). lia. }
  rewrite <- Ek, Er. destruct (Z.ltb_spec a (r_end r)); [done | lia].
Qed.

Lemma lookup_miss rs a :
  sorted_ranges rs -> (forall r, r ∈ rs -> ~ (r_start r <= a < r_end r)) -> slab_range_lookup a rs = -1.
Proof.
  intros Hs Hno. unfold slab_range_lookup.
  pose proof (bisect_spec (length rs) rs a 0 (Z.of_nat (length rs)) Hs ltac:(lia) ltac:(lia) ltac:(lia)
    ltac:(intros; lia) ltac:(intros; lia)) as (Hk & Hlo & Hhi).
  set (k := bisect _ _ _ _ _) in *. destruct (Z.eqb_spec k 0); [done |].
  pose proof (rget_lookup rs (k - 1) ltac:(lia)) as Hq%list_elem_of_lookup_2. apply Hno in Hq.
  pose proof (Hlo (k - 1) ltac:(lia)). destruct (Z.ltb_spec a (r_end (rget rs (k - 1)))); [lia | done].
Qed.

(** ** Insertion keeps the registry sorted *)

Lemma shift_up_spec start tail r rs x :
  let '(i, rs') := shift_up (length rs) start (rs ++ x :: tail) in
  exists l1 l2, rs = l1 ++ l2 /\ <[i := r]> rs' = l1 ++ r :: l2 ++ tail
    /\ Forall (fun q => start < r_start q) l2 /\ (forall q, last l1 = Some q -> r_start q <= start).
Proof.
  revert tail x. induction rs as [| q rs IH] using rev_ind; intros tail x.
  - simpl. exists [], []. done.
  - rewrite length_app. simpl. rewrite Nat.add_1_r. simpl. rewrite <- app_assoc. simpl.
    rewrite (lookup_app_r rs) by lia. rewrite Nat.sub_diag. simpl.
    destruct (Z.ltb_spec start (r_start q)).
    + rewrite insert_app_r_alt by lia. replace (S (length rs) - length rs)%nat with 1%nat by lia. simpl.
      specialize (IH (q :: tail) q). destruct (shift_up (length rs) start (rs ++ q :: q :: tail)) as [i rs'].
      destruct IH as (l1 & l2 & -> & Heq & Hl2 & Hl1). exists l1, (l2 ++ [q]).
      split; [by rewrite app_assoc |]. split; [rewrite Heq; by rewrite <- app_assoc |].
      split; [apply Forall_app; split; [done | by constructor] | done].
    + exists (rs ++ [q]), []. split; [by rewrite app_nil_r |].
      split; [| split; [done |]].
      * rewrite insert_app_r_alt by lia. replace (S (length rs) - length rs)%nat with 1%nat by lia.
        simpl. rewrite <- app_assoc. done.
      * intros q' Hq'. rewrite last_snoc in Hq'. by simplify_eq.
Qed.

Lemma sorted_insert l1 l2 r :
  sorted_ranges (l1 ++ l2) -> Forall (fun q => r_start r < r_start q) l2 ->
  (forall q, last l1 = Some q -> r_start q < r_start r) -> sorted_ranges (l1 ++ r :: l2).
Proof.
  unfold sorted_ranges. induction l1 as [| a l1 IH]; intros Hs H2 H1.
  - constructor; done.
  - simpl in *. inversion Hs as [| ? ? Hs' Ha]; subst. apply Forall_app in Ha as [Ha1 Ha2].
    assert (range_lt a r) as Har.
    { destruct (last l1) as [q |] eqn:El.
      - assert (q ∈ l1) as Hq by (by apply last_Some_elem_of).
        rewrite Forall_forall in Ha1. specialize (Ha1 q Hq). unfold range_lt in *.
        pose proof (H1 q ltac:(rewrite last_cons, El; done)). lia.
      - apply (H1 a). rewrite last_cons, El. done. }
    constructor.
    + apply IH; [done | done |]. intros q Hq. apply H1. rewrite last_cons, Hq. done.
    + apply Forall_app. split; [done |]. constructor; done.
Qed.

Lemma slab_range_insert_spec start end_ idx rs :
  sorted_ranges rs -> (forall q, q ∈ rs -> r_start q <> start) ->
  let rs' := slab_range_insert start end_ idx rs in
  sorted_ranges rs' /\ length rs' = S (length rs)
  /\ forall q, q ∈ rs' <-> q = mkRange start end_ idx \/ q ∈ rs.
Proof.
  intros Hs Hne. unfold slab_range_insert.
  pose proof (shift_up_spec start [] (mkRange start end_ idx) rs null_range) as H.
  destruct (shift_up _ _ _) as [i rs']. destruct H as (l1 & l2 & -> & -> & Hl2 & Hl1).
  rewrite app_nil_r. split_and!.
  - apply sorted_insert; [done | done |]. intros q Hq. pose proof (Hl1 q Hq).
    assert (q ∈ l1) as Hin by (by apply last_Some_elem_of).
    pose proof (Hne q ltac:(apply elem_of_app; by left)). simpl. lia.
  - rewrite !length_app. simpl. lia.
  - intros q. rewrite !elem_of_app, elem_of_cons. tauto.
Qed.

(** ** The blocks *)

Definition b_end (b : block) : Z := b_addr b + b_size b.

(** Blocks in address order, not overlapping, between two bounds.  A failed
    growth may leave a gap between two blocks. *)
Fixpoint chain (lo : Z) (bs : list block) (hi : Z) : Prop :=
  match bs with
  | [] => lo <= hi
  | b :: bs =>
      lo <= b_addr b /\ MIN_BLOCK_SIZE <= b_size b /\ b_addr b mod 16 = 0 /\ b_size b mod 16 = 0
      /\ chain (b_end b) bs hi
  end.

Definition block_ok (b : block) : Prop :=
  b_tail b = KHEAP_CANARY_TAIL /\ (b_used b = true -> b_canary b = KHEAP_CANARY_HEAD).

Definition used_bytes (bs : list block) : Z :=
  foldr (fun b n => (if b_used b then user_size b else 0) + n) 0 bs.

Lemma chain_le lo bs hi : chain lo bs hi -> lo <= hi.
Proof.
  revert lo. induction bs as [| b bs IH]; intros lo Hc; simpl in Hc; [done |].
  destruct Hc as (? & Hm & _ & _ & Hc). apply IH in Hc. unfold b_end, MIN_BLOCK_SIZE, HEADER, KHEAP_ALIGNMENT, WORD in *. lia.
Qed.

Lemma chain_lo lo lo' bs hi : chain lo bs hi -> lo' <= lo -> chain lo' bs hi.
Proof. destruct bs; simpl; intros; [lia |]. intuition lia. Qed.

Lemma chain_elem lo bs hi b :
  chain lo bs hi -> b ∈ bs ->
  lo <= b_addr b /\ b_end b <= hi /\ MIN_BLOCK_SIZE <= b_size b /\ b_addr b mod 16 = 0 /\ b_size b mod 16 = 0.
Proof.
  revert lo. induction bs as [| a bs IH]; intros lo Hc Hb; [by apply elem_of_nil in Hb |].
  destruct Hc as (? & Hm & ? & ? & Hc). pose proof (chain_le _ _ _ Hc).
  apply elem_of_cons in Hb as [-> | Hb]; [auto |].
  destruct (IH _ Hc Hb) as (? & ? & ? & ? & ?). unfold b_end, MIN_BLOCK_SIZE, HEADER, KHEAP_ALIGNMENT, WORD in *.
  split_and!; lia.
Qed.

Lemma chain_disjoint lo bs hi b c :
  chain lo bs hi -> b ∈ bs -> c ∈ bs -> b = c \/ b_end b <= b_addr c \/ b_end c <= b_addr b.
Proof.
  revert lo. induction bs as [| a bs IH]; intros lo Hc Hb Hd; [by apply elem_of_nil in Hb |].
  destruct Hc as (? & Hm & ? & ? & Hc).
  apply elem_of_cons in Hb as [-> | Hb]; apply elem_of_cons in Hd as [-> | Hd]; [auto | | |].
  - right. left. apply (chain_elem _ _ _ _ Hc Hd).
  - right. right. apply (chain_elem _ _ _ _ Hc Hb).
  - by apply (IH _ Hc).
Qed.

Lemma chain_app lo bs hi b :
  chain lo bs hi -> hi <= b_addr b -> MIN_BLOCK_SIZE <= b_size b -> b_addr b mod 16 = 0 -> b_size b mod 16 = 0 ->
  chain lo (bs ++ [b]) (b_end b).
Proof.
  revert lo. induction bs as [| a bs IH]; intros lo Hc Hhi Hs Ha1 Ha2; simpl in *.
  - split_and!; [lia | done | done | done | lia].
  - destruct Hc as (? & ? & ? & ? & Hc). split_and!; [done | done | done | done | by apply IH].
Qed.

(** One block replaced by others that fill no more than its place. *)
Lemma chain_replace lo l1 b l2 hi new :
  chain lo (l1 ++ b :: l2) hi -> (forall x, b_addr b = x -> chain x new (b_end b)) ->
  chain lo (l1 ++ new ++ l2) hi.
Proof.
  revert lo. induction l1 as [| a l1 IH]; intros lo Hc Hnew; simpl in *.
  - destruct Hc as (? & ? & ? & ? & Hc). specialize (Hnew _ eq_refl).
    assert (forall x, x <= b_addr b -> chain x (new ++ l2) hi) as Hgo; [| by apply Hgo].
    intros x Hx. apply (chain_lo (b_addr b)); [| done]. clear -Hc Hnew.
    revert Hnew. generalize (b_addr b) as y. induction new as [| n new IH]; intros y Hnew; simpl in *.
    + by apply (chain_lo (b_end b)).
    + destruct Hnew as (? & ? & ? & ? & Hn). split_and!; [done | done | done | done | by apply IH].
  - destruct Hc as (? & ? & ? & ? & Hc). split_and!; [done | done | done | done | by apply IH].
Qed.

Lemma used_bytes_app l1 l2 : used_bytes (l1 ++ l2) = used_bytes l1 + used_bytes l2.
Proof. induction l1 as [| a l1 IH]; simpl; [done |]. rewrite IH. lia. Qed.

Lemma mod16_add a b : a mod 16 = 0 -> b mod 16 = 0 -> (a + b) mod 16 = 0.
Proof. intros Ha Hb. rewrite Z.add_mod, Ha, Hb by lia. done. Qed.
Lemma mod16_sub a b : a mod 16 = 0 -> b mod 16 = 0 -> (a - b) mod 16 = 0.
Proof. intros Ha Hb. rewrite Zminus_mod, Ha, Hb. done. Qed.

(** Where the first fit is found. *)
Lemma first_fit_split total bs bs' b' split :
  first_fit total bs = Some (bs', b', split) ->
  exists l1 b l2, bs = l1 ++ b :: l2 /\ b_used b = false /\ total <= b_size b
    /\ b' = mkBlock (b_addr b) (if split then total else b_size b) true KHEAP_CANARY_HEAD KHEAP_CANARY_TAIL
    /\ bs' = l1 ++ b' :: (if split : bool then [mkBlock (b_addr b + total) (b_size b - total) false 0 KHEAP_CANARY_TAIL]
                          else []) ++ l2
    /\ (split = true -> MIN_BLOCK_SIZE <= b_size b - total).
Proof.
  revert bs'. induction bs as [| b bs IH]; intros bs' Hf; simpl in Hf; [done |].
  destruct (negb (b_used b) && (total <=? b_size b)) eqn:E.
  - b2p. destruct (Z.leb_spec MIN_BLOCK_SIZE (b_size b - total)); simplify_eq; exists [], b, bs; done.
  - destruct (first_fit total bs) as [[[bs1 b1] sp] |]; [| done]. simplify_eq.
    destruct (IH _ eq_refl) as (l1 & c & l2 & -> & ? & ? & ? & -> & ?). exists (b :: l1), c, l2. done.
Qed.

Lemma first_fit_none total bs :
  first_fit total bs = None -> forall b, b ∈ bs -> b_used b = false -> b_size b < total.
Proof.
  induction bs as [| a bs IH]; intros Hf b Hb Hu; simpl in Hf; [by apply elem_of_nil in Hb |].
  destruct (negb (b_used a) && (total <=? b_size a)) eqn:E; [case_match; done |].
  apply elem_of_cons in Hb as [-> | Hb].
  - rewrite Hu in E. simpl in E. b2p. lia.
  - destruct (first_fit total bs) as [[[? ?] ?] |]; [done |]. by apply IH.
Qed.

Record carved (bs bs' : list block) (lo hi : Z) (b' : block) (total : Z) : Prop := {
  cv_chain : chain lo bs' hi;
  cv_ok : Forall block_ok bs -> Forall block_ok bs';
  cv_bytes : used_bytes bs' = used_bytes bs + user_size b';
  cv_used : b_used b' = true;
  cv_size : total <= b_size b';
  cv_in : b' ∈ bs';
  cv_elem : forall x, b_used x = true -> x ∈ bs' <-> x ∈ bs \/ x = b';
  cv_fresh : forall x, x ∈ bs -> b_used x = true -> b_end x <= b_addr b' \/ b_end b' <= b_addr x;
}.

Lemma first_fit_spec total bs bs' b' split lo hi :
  chain lo bs hi -> MIN_BLOCK_SIZE <= total -> total mod 16 = 0 ->
  first_fit total bs = Some (bs', b', split) ->
  carved bs bs' lo hi b' total /\ length bs' = (length bs + if split then 1 else 0)%nat.
Proof.
  intros Hc Ht Hm Hf. destruct (first_fit_split _ _ _ _ _ Hf) as (l1 & b & l2 & -> & Hu & Hle & Eb & -> & Hsp).
  assert (b ∈ l1 ++ b :: l2) as Hbin by (apply elem_of_app; right; left).
  pose proof (chain_elem _ _ _ b Hc Hbin) as (Hb1 & Hb2 & Hb3 & Hb4 & Hb5).
  assert (b_end b' <= b_end b) as Hend by (subst b'; unfold b_end; destruct split; simpl; lia).
  assert (forall x, x ∈ l1 ++ b :: l2 -> b_used x = true -> b_end x <= b_addr b' \/ b_end b' <= b_addr x) as Hfresh.
  { intros x Hx Hux. destruct (chain_disjoint _ _ _ b x Hc Hbin Hx) as [-> | ?]; [congruence |].
    subst b'. unfold b_end in *. simpl in *. lia. }
  split; [| rewrite !length_app; simpl; destruct split; simpl; lia]. split.
  - apply (chain_replace _ _ b _ _ (b' :: _)); [done |]. intros x <-. unfold MIN_BLOCK_SIZE, HEADER, KHEAP_ALIGNMENT, WORD in *.
    subst b'. destruct split; unfold b_end; simpl; [| split_and!; (done || lia)].
    specialize (Hsp eq_refl). unfold b_end. simpl.
    split_and!; first [done | lia | (by apply mod16_add) | (by apply mod16_sub)].
  - rewrite !Forall_app, !Forall_cons, Forall_app. intros (? & ? & ?). subst b'.
    split; [done |]. split; [by split |]. split; [| done].
    destruct split; [| done]. repeat constructor. discriminate.
  - rewrite !used_bytes_app. subst b'. simpl. rewrite Hu, used_bytes_app. destruct split; simpl; lia.
  - by subst b'.
  - subst b'. destruct split; simpl; lia.
  - apply elem_of_app. right. left.
  - intros x Hx. rewrite !elem_of_app, !elem_of_cons, elem_of_app.
    assert (x <> b) by congruence.
    assert (x ∉ (if split then [mkBlock (b_addr b + total) (b_size b - total) false 0 KHEAP_CANARY_TAIL] else [])).
    { destruct split; [| apply not_elem_of_nil]. intros ->%list_elem_of_singleton. done. }
    tauto.
  - done.
Qed.
