(* ===== verification/KheapSafety.v ===== *)
(** * The kernel heap: allocations never overlap

    The invariant of [Kheap] over every history of allocations and frees: the
    block list stays well formed, the slab registry describes permanent
    general allocations, and the pointers handed out name disjoint memory. *)

From stdpp Require Import sorting.
From S2P Require Import Prelude Pmm Kheap.

(** The size of a slab class. *)
Definition class_size (i : Z) : Z := default 0 (slab_sizes !! Z.to_nat i).

Lemma class_size_bounds i : 0 <= i < 7 -> 16 <= class_size i <= 1024 /\ class_size i mod 16 = 0.
Proof.
  intros Hi. assert (i = 0 \/ i = 1 \/ i = 2 \/ i = 3 \/ i = 4 \/ i = 5 \/ i = 6) as Hc by lia.
  destruct Hc as [-> | [-> | [-> | [-> | [-> | [-> | ->]]]]]]; vm_compute; split; try split; congruence.
Qed.

Lemma slab_class_spec size :
  0 < size ->
  let c := slab_class_for size in
  c = -1 /\ 1024 < size \/ 0 <= c < 7 /\ size <= class_size c.
Proof.
  intros Hs. unfold slab_class_for, slab_sizes, class_from.
  repeat match goal with |- context [?a <=? ?b] => destruct (Z.leb_spec a b) end;
    (left; split; [reflexivity | lia]) || (right; split; [lia | vm_compute; assumption || (unfold class_size; simpl; lia)]).
Qed.

(** A request the model's arithmetic does not wrap on. *)
Definition MAX_REQUEST : Z := 2 ^ 40.

(** The top of the address space the heap may reach, which the finite number
    of pages enforces. *)
Definition HEAP_LIMIT : Z := KHEAP_BASE + 2 ^ 38.

Definition used_block (h : heap) (b : block) : Prop := b ∈ blocks h /\ b_used b = true.

(** [p] is an object of class [i], in one of its regions. *)
Definition slab_object (h : heap) (i p : Z) : Prop :=
  exists r k, r ∈ ranges h /\ pool_idx r = i /\ 0 <= k
    /\ p = r_start r + k * class_size i /\ p + class_size i <= r_end r.

(** A region is the user area of a used block. *)
Definition region_ok (h : heap) (r : slab_range) : Prop :=
  0 <= pool_idx r < 7
  /\ exists b, used_block h b /\ r_start r = block_user_data b /\ r_end r <= b_end b - WORD.

(** An allocation handed out: a used block that is no region, or a slab object
    that is not free. *)
Definition live_ok (h : heap) (p size : Z) : Prop :=
  0 < size /\
  ((exists b, used_block h b /\ p = block_user_data b /\ size <= user_size b
              /\ forall r, r ∈ ranges h -> r_start r <> p)
   \/ (exists i, 0 <= i < 7 /\ slab_object h i p /\ size <= class_size i
                 /\ (p ∉ free_list (pool_at h i)))).

Record heap_inv (h : heap) (live : gmap Z Z) : Prop := {
  hi_chain : chain KHEAP_BASE (blocks h) (heap_end h);
  hi_page : heap_end h mod PAGE_SIZE = 0;
  hi_limit : heap_end h <= HEAP_LIMIT;
  hi_blocks : Forall block_ok (blocks h);
  hi_count : block_count h = !64 (Z.of_nat (length (blocks h)));
  hi_used : used_size h = !64 (used_bytes (blocks h));
  hi_pools : length (pools h) = 7%nat;
  hi_class i : 0 <= i < 7 -> obj_size (pool_at h i) = class_size i;
  hi_sorted : sorted_ranges (ranges h);
  hi_regions r : r ∈ ranges h -> region_ok h r;
  hi_free i p : 0 <= i < 7 -> p ∈ free_list (pool_at h i) -> slab_object h i p;
  hi_nodup i : 0 <= i < 7 -> NoDup (free_list (pool_at h i));
  hi_live p size : live !! p = Some size -> live_ok h p size;
}.

(** ** Consequences of the invariant *)

Lemma used_disjoint h live b c :
  heap_inv h live -> used_block h b -> used_block h c -> b = c \/ b_end b <= b_addr c \/ b_end c <= b_addr b.
Proof. intros I [Hb _] [Hc _]. exact (chain_disjoint _ _ _ _ _ (hi_chain _ _ I) Hb Hc). Qed.

Lemma used_bounds h live b :
  heap_inv h live -> used_block h b ->
  KHEAP_BASE <= b_addr b /\ b_end b <= heap_end h /\ MIN_BLOCK_SIZE <= b_size b
  /\ b_addr b mod 16 = 0 /\ b_size b mod 16 = 0.
Proof. intros I [Hb _]. exact (chain_elem _ _ _ _ (hi_chain _ _ I) Hb). Qed.

Lemma sorted_unique rs r q : sorted_ranges rs -> r ∈ rs -> q ∈ rs -> r_start r = r_start q -> r = q.
Proof.
  intros Hs Hr Hq E. apply list_elem_of_lookup in Hr as [i Hi]. apply list_elem_of_lookup in Hq as [j Hj].
  destruct (Nat.lt_trichotomy i j) as [? | [-> | ?]]; [| congruence |].
  - pose proof (sorted_lookup _ _ _ _ _ Hs Hi Hj). lia.
  - pose proof (sorted_lookup _ _ _ _ _ Hs Hj Hi). lia.
Qed.

(** The used blocks of two regions are the same block or apart. *)
Lemma regions_cases h live r q :
  heap_inv h live -> r ∈ ranges h -> q ∈ ranges h ->
  r = q \/ r_end r <= r_start q \/ r_end q <= r_start r.
Proof.
  intros I Hr Hq. destruct (hi_regions _ _ I r Hr) as (_ & b & Hb & Eb & Lb).
  destruct (hi_regions _ _ I q Hq) as (_ & c & Hc & Ec & Lc).
  destruct (used_disjoint _ _ b c I Hb Hc) as [-> | Hd].
  - left. apply (sorted_unique (ranges h)); [apply I | done | done | congruence].
  - right. unfold block_user_data, HEADER, WORD in *. lia.
Qed.

Lemma regions_apart h live : heap_inv h live -> apart (ranges h).
Proof.
  intros I r q Hr Hq Hlt. destruct (regions_cases h live r q I Hr Hq) as [-> | [? | Hc]]; [lia | done |].
  destruct (hi_regions _ _ I r Hr) as (_ & b & Hb & Eb & Lb).
  destruct (hi_regions _ _ I q Hq) as (_ & c & Hc' & Ec & Lc).
  destruct (used_disjoint _ _ b c I Hb Hc') as [-> | Hd]; [lia |].
  unfold block_user_data, HEADER, WORD, b_end in *.
  destruct (used_bounds _ _ b I Hb) as (_ & _ & ? & _). destruct (used_bounds _ _ c I Hc') as (_ & _ & ? & _).
  unfold MIN_BLOCK_SIZE, HEADER, KHEAP_ALIGNMENT, WORD in *. lia.
Qed.

(** A slab object lies in the user area of a region's block. *)
Lemma slab_object_block h live i p :
  heap_inv h live -> 0 <= i < 7 -> slab_object h i p ->
  exists r b, r ∈ ranges h /\ pool_idx r = i /\ used_block h b /\ r_start r = block_user_data b
    /\ r_start r <= p /\ p + class_size i <= r_end r /\ r_end r <= b_end b - WORD.
Proof.
  intros I Hi (r & k & Hr & Ei & Hk & -> & Hle). destruct (hi_regions _ _ I r Hr) as (_ & b & Hb & Eb & Lb).
  exists r, b. pose proof (class_size_bounds i Hi). split_and!; try done. nia.
Qed.

Lemma slab_lookup h live i p :
  heap_inv h live -> 0 <= i < 7 -> slab_object h i p -> slab_range_lookup p (ranges h) = i.
Proof.
  intros I Hi Ho. destruct (slab_object_block _ _ _ _ I Hi Ho) as (r & b & Hr & <- & _ & _ & H1 & H2 & _).
  pose proof (class_size_bounds _ Hi). apply lookup_hit; [apply I | by eapply regions_apart | done | lia].
Qed.

(** A block that is no region contains no slab address. *)
Lemma block_not_region h live b a :
  heap_inv h live -> used_block h b -> (forall r, r ∈ ranges h -> r_start r <> block_user_data b) ->
  b_addr b <= a < b_end b -> forall r, r ∈ ranges h -> ~ (r_start r <= a < r_end r).
Proof.
  intros I Hb Hno Ha r Hr Hin. destruct (hi_regions _ _ I r Hr) as (_ & c & Hc & Ec & Lc).
  destruct (used_disjoint _ _ b c I Hb Hc) as [-> | Hd]; [by apply (Hno r Hr) |].
  unfold block_user_data, HEADER, WORD in *. lia.
Qed.

(** The sizes involved, for [lia]. *)
Ltac sizes := unfold block_user_data, user_size, b_end, MIN_BLOCK_SIZE, HEADER, KHEAP_ALIGNMENT, WORD in *; simpl in *; lia.

(** Two live allocations do not overlap. *)
Lemma live_disjoint h live p q s t :
  heap_inv h live -> live !! p = Some s -> live !! q = Some t -> p <> q -> p + s <= q \/ q + t <= p.
Proof.
  intros I Hp Hq Hne. destruct (hi_live _ _ I p s Hp) as (_ & Op). destruct (hi_live _ _ I q t Hq) as (_ & Oq).
  destruct Op as [(b & Hb & -> & Sb & Nb) | (i & Hi & Oi & Si & Fi)];
  destruct Oq as [(c & Hc & -> & Sc & Nc) | (j & Hj & Oj & Sj & Fj)].
  - destruct (used_disjoint _ _ b c I Hb Hc) as [-> | Hd]; [done | sizes].
  - destruct (slab_object_block _ _ _ _ I Hj Oj) as (r & c & Hr & _ & Hc & Er & H1 & H2 & H3).
    destruct (used_disjoint _ _ b c I Hb Hc) as [-> | Hd]; [by destruct (Nb r Hr) | sizes].
  - destruct (slab_object_block _ _ _ _ I Hi Oi) as (r & b & Hr & _ & Hb & Er & H1 & H2 & H3).
    destruct (used_disjoint _ _ b c I Hb Hc) as [-> | Hd]; [by destruct (Nc r Hr) | sizes].
  - destruct Oi as (r & k & Hr & Ei & Hk & Ep & Lp). destruct Oj as (r' & k' & Hr' & Ej & Hk' & Eq & Lq).
    pose proof (class_size_bounds i Hi). pose proof (class_size_bounds j Hj).
    destruct (regions_cases h live r r' I Hr Hr') as [-> | Hd]; [| nia].
    assert (i = j) as -> by congruence. assert (k <> k') by congruence.
    destruct (Z.lt_total k k') as [? | [? | ?]]; [left; nia | lia | right; nia].
Qed.

(** Live allocations lie in the heap, after a header and before a canary of
    the block that holds them. *)
Lemma live_inside h live p s :
  heap_inv h live -> live !! p = Some s ->
  exists b, used_block h b /\ block_user_data b <= p /\ p + s <= b_end b - WORD /\ p mod 16 = 8.
Proof.
  intros I Hp. destruct (hi_live _ _ I p s Hp) as (_ & [(b & Hb & -> & Sb & _) | (i & Hi & Oi & Si & _)]).
  - exists b. split; [done |]. destruct (used_bounds _ _ b I Hb) as (_ & _ & _ & Ha & _).
    split; [lia |]. split; [sizes |]. unfold block_user_data, HEADER.
    rewrite Z.add_mod, Ha by lia. done.
  - destruct (slab_object_block _ _ _ _ I Hi Oi) as (r & b & Hr & Er & Hb & Es & H1 & H2 & H3).
    exists b. split; [done |]. split; [lia |]. split; [lia |].
    destruct Oi as (r' & k & Hr' & _ & Hk & -> & Hle). pose proof (class_size_bounds i Hi) as [Hcs Hc].
    destruct (hi_regions _ _ I r' Hr') as (_ & c & Hc' & -> & _).
    destruct (used_bounds _ _ c I Hc') as (_ & _ & _ & Ha & _). unfold block_user_data, HEADER.
    replace (b_addr c + 40 + k * class_size i) with (b_addr c + (40 + k * class_size i)) by lia.
    rewrite Z.add_mod, Ha, (Z.add_mod 40), (Z.mul_mod k), Hc by lia. rewrite Z.mul_0_r. done.
Qed.

(** ** The used blocks grow *)

Lemma slab_object_mono h h' i p : ranges h' = ranges h -> slab_object h i p -> slab_object h' i p.
Proof. intros E. unfold slab_object. rewrite E. done. Qed.

Lemma live_ok_mono h h' p s :
  ranges h' = ranges h -> pools h' = pools h -> (forall b, used_block h b -> used_block h' b) ->
  live_ok h p s -> live_ok h' p s.
Proof.
  intros Er Ep Hu [Hs Hl]. split; [done |]. destruct Hl as [(b & Hb & ? & ? & ?) | (i & Hi & Ho & ? & Hf)].
  - left. exists b. rewrite Er. auto.
  - right. exists i. unfold pool_at in *. rewrite Ep. eauto using slab_object_mono.
Qed.

Lemma region_ok_mono h h' r :
  (forall b, used_block h b -> used_block h' b) -> region_ok h r -> region_ok h' r.
Proof. intros Hu (Hi & b & Hb & ? & ?). split; [done |]. exists b. auto. Qed.

(** A block that does not overlap the used ones has no live pointer. *)
Lemma fresh_not_live h live b :
  heap_inv h live -> MIN_BLOCK_SIZE <= b_size b ->
  (forall x, used_block h x -> b_end x <= b_addr b \/ b_end b <= b_addr x) ->
  live !! block_user_data b = None /\ forall r, r ∈ ranges h -> r_start r <> block_user_data b.
Proof.
  intros I Hs Hf. split.
  - destruct (live !! block_user_data b) as [s |] eqn:E; [| done]. exfalso.
    destruct (hi_live _ _ I _ _ E) as [Hpos _].
    destruct (live_inside _ _ _ _ I E) as (c & Hc & H1 & H2 & _).
    destruct (Hf c Hc); sizes.
  - intros r Hr E. destruct (hi_regions _ _ I r Hr) as (_ & c & Hc & Ec & _).
    destruct (used_bounds _ _ c I Hc) as (_ & _ & ? & _). destruct (Hf c Hc); sizes.
Qed.

Lemma inv_carve h live bs' b' total count size :
  heap_inv h live -> carved (blocks h) bs' KHEAP_BASE (heap_end h) b' total ->
  MIN_BLOCK_SIZE <= total -> 0 < size <= user_size b' -> count = !64 (Z.of_nat (length bs')) ->
  live !! block_user_data b' = None
  /\ heap_inv (set_used (set_blocks h bs' count) (!64 (used_size h + user_size b')))
       (<[block_user_data b' := size]> live).
Proof.
  intros I C Ht Hs ->. pose proof (cv_size _ _ _ _ _ _ C).
  destruct (fresh_not_live h live b' I ltac:(lia)) as [Hnl Hnr].
  { intros x [Hx Hu]. by apply (cv_fresh _ _ _ _ _ _ C). }
  split; [done |]. set (h' := set_used _ _).
  assert (forall b, used_block h b -> used_block h' b) as Hmono.
  { intros b [Hb Hu]. split; [| done]. apply (cv_elem _ _ _ _ _ _ C); auto. }
  split; try apply I.
  - apply C.
  - by apply C, I.
  - done.
  - simpl. rewrite (hi_used _ _ I), (cv_bytes _ _ _ _ _ _ C). unfold u64. rewrite Zplus_mod_idemp_l. done.
  - intros r Hr. apply (region_ok_mono h); [done | by apply I].
  - intros p s. destruct (decide (p = block_user_data b')) as [-> | Hne].
    + rewrite lookup_insert_eq. intros [= <-]. split; [lia |]. left. exists b'.
      split; [split; [apply C | apply C] |]. split; [done |]. split; [lia | done].
    + rewrite lookup_insert_ne by done. intros Hp. apply (live_ok_mono h); [done | done | done | by apply I].
Qed.

(** ** The heap grows *)

Lemma inv_grow h live n count t :
  heap_inv h live -> 0 < n -> heap_end h + n * PAGE_SIZE <= HEAP_LIMIT ->
  count = !64 (Z.of_nat (length (blocks h)) + 1) ->
  let nb := mkBlock (heap_end h) (n * PAGE_SIZE) false 0 KHEAP_CANARY_TAIL in
  heap_inv (mkHeap (blocks h ++ [nb]) (heap_end h + n * PAGE_SIZE) t (used_size h) count (pools h) (ranges h)) live.
Proof.
  intros I Hn Hl -> nb. set (h' := mkHeap _ _ _ _ _ _ _).
  assert (heap_end h mod 16 = 0) as H16.
  { pose proof (hi_page _ _ I) as Hp. unfold PAGE_SIZE in Hp. apply Z.mod_divide in Hp as [q ->]; [| done].
    replace (q * 4096) with (q * 256 * 16) by lia. apply Z_mod_mult. }
  assert (forall b, used_block h b <-> used_block h' b) as Hu.
  { intros b. unfold used_block. simpl. rewrite elem_of_app, list_elem_of_singleton.
    split; [tauto |]. intros [[? | ->] ?]; [done |]. discriminate. }
  split; try apply I; simpl.
  - change (chain KHEAP_BASE (blocks h ++ [nb]) (b_end nb)). apply chain_app with (heap_end h).
    + apply I.
    + simpl. lia.
    + unfold PAGE_SIZE in *. sizes.
    + done.
    + simpl. unfold PAGE_SIZE. replace (n * 4096) with (n * 256 * 16) by lia. apply Z_mod_mult.
  - rewrite Z.add_mod, (hi_page _ _ I), Z_mod_mult by done. done.
  - done.
  - apply Forall_app. split; [apply I |]. repeat constructor. discriminate.
  - rewrite length_app. simpl. f_equal. lia.
  - rewrite used_bytes_app. simpl. rewrite !Z.add_0_r. apply I.
  - intros r Hr. apply (region_ok_mono h); [intros b; apply Hu | by apply I].
  - intros p s Hp. apply (live_ok_mono h); [done | done | intros b; apply Hu | by apply I].
Qed.

(** Pages mapped by a growth that failed later leave a gap, not a block. *)
Lemma inv_end h live e t :
  heap_inv h live -> heap_end h <= e <= HEAP_LIMIT -> e mod PAGE_SIZE = 0 ->
  heap_inv (set_end h e t) live.
Proof.
  intros I He Hm. split; try apply I; simpl; [| done | lia].
  pose proof (hi_chain _ _ I) as Hc. revert Hc. generalize KHEAP_BASE as lo.
  induction (blocks h) as [| b bs IH]; intros lo Hc; simpl in *; [lia |].
  destruct Hc as (? & ? & ? & ? & Hc). split_and!; auto.
Qed.

Lemma align_up_spec x : 0 < x <= MAX_REQUEST -> x <= align_up x KHEAP_ALIGNMENT <= x + 15
  /\ align_up x KHEAP_ALIGNMENT mod 16 = 0.
Proof.
  intros Hx. unfold align_up, KHEAP_ALIGNMENT, MAX_REQUEST in *. rewrite u64_small by lia.
  change (16 - 1) with (2 ^ 4 - 1). rewrite land_mask64 by lia. change (2 ^ 4) with 16.
  pose proof (Z.div_mod (x + 16 - 1) 16 ltac:(lia)). pose proof (Z.mod_pos_bound (x + 16 - 1) 16 ltac:(lia)).
  split; [lia |]. replace (x + 16 - 1 - (x + 16 - 1) mod 16) with ((x + 16 - 1) / 16 * 16) by lia. apply Z_mod_mult.
Qed.

Lemma total_spec x : 0 < x <= MAX_REQUEST ->
  x + 48 <= total_block_size x <= x + 63 /\ total_block_size x mod 16 = 0 /\ MIN_BLOCK_SIZE <= total_block_size x.
Proof.
  intros Hx. pose proof (align_up_spec x Hx) as [Ha Hm]. unfold total_block_size, HEADER, WORD.
  rewrite u64_small by (unfold MAX_REQUEST in *; lia).
  replace (align_up x KHEAP_ALIGNMENT + 40 + 8) with (align_up x KHEAP_ALIGNMENT + 48) by lia.
  split; [lia |]. split; [by apply mod16_add |].
  unfold MIN_BLOCK_SIZE, HEADER, KHEAP_ALIGNMENT, WORD. fold KHEAP_ALIGNMENT.
  pose proof (Z.div_mod (align_up x KHEAP_ALIGNMENT) 16 ltac:(lia)) as Hd.
  change (16 + 40 + 8) with 64. unfold KHEAP_ALIGNMENT in *. lia.
Qed.

(** ** The slab pools *)

Lemma pool_at_set h i j p :
  length (pools h) = 7%nat -> 0 <= i < 7 -> 0 <= j ->
  pool_at (set_pool h i p) j = if i =? j then p else pool_at h j.
Proof.
  intros Hl Hi Hj. unfold pool_at, set_pool, wr. simpl. destruct (Z.eqb_spec i j) as [-> | Hne].
  - rewrite list_lookup_insert_eq by lia. done.
  - rewrite list_lookup_insert_ne by lia. done.
Qed.

(** Two descriptions of one slab object name one class. *)
Lemma slab_object_class h live i j p :
  heap_inv h live -> 0 <= i < 7 -> 0 <= j < 7 -> slab_object h i p -> slab_object h j p -> i = j.
Proof. intros I Hi Hj Oi Oj. rewrite <- (slab_lookup _ _ _ _ I Hi Oi). by apply (slab_lookup h live). Qed.

(** A free object is not live. *)
Lemma free_not_live h live i p :
  heap_inv h live -> 0 <= i < 7 -> p ∈ free_list (pool_at h i) -> live !! p = None.
Proof.
  intros I Hi Hf. pose proof (hi_free _ _ I i p Hi Hf) as Ho.
  destruct (live !! p) as [s |] eqn:E; [| done]. exfalso.
  destruct (hi_live _ _ I p s E) as (_ & [(b & Hb & -> & Sb & Nb) | (j & Hj & Oj & _ & Nf)]).
  - destruct (slab_object_block _ _ _ _ I Hi Ho) as (r & c & Hr & _ & Hc & Er & H1 & H2 & H3).
    pose proof (class_size_bounds i Hi). destruct (used_bounds _ _ b I Hb) as (_ & _ & ? & _).
    apply (block_not_region h live b (block_user_data b) I Hb Nb ltac:(sizes) r Hr). lia.
  - rewrite (slab_object_class _ _ _ _ _ I Hi Hj Ho Oj) in Hf. done.
Qed.

(** Changing one pool's free list. *)
Lemma inv_set_pool h live live' i fl t u :
  heap_inv h live -> 0 <= i < 7 -> NoDup fl -> (forall p, p ∈ fl -> slab_object h i p) ->
  (forall p s, live' !! p = Some s -> live_ok (set_pool h i (mkPool (class_size i) fl t u)) p s) ->
  heap_inv (set_pool h i (mkPool (class_size i) fl t u)) live'.
Proof.
  intros I Hi Hnd Hfl Hlive. set (h' := set_pool _ _ _) in *.
  assert (forall j, 0 <= j -> pool_at h' j = if i =? j then mkPool (class_size i) fl t u else pool_at h j) as Hp
    by (intros; by apply pool_at_set; [apply I | |]).
  split; try apply I.
  - simpl. rewrite wr_length. apply I.
  - intros j Hj. rewrite Hp by lia. destruct (Z.eqb_spec i j) as [<- | ?]; [done | by apply I].
  - intros j p Hj Hin. rewrite Hp in Hin by lia. change (slab_object h j p).
    destruct (Z.eqb_spec i j) as [<- | ?]; [by apply Hfl | by apply I].
  - intros j Hj. rewrite Hp by lia. destruct (Z.eqb_spec i j); [done | by apply I].
  - done.
Qed.

(** Liveness of the other pointers, when only one pool changes. *)
Lemma live_ok_set_pool h live i fl t u p s :
  heap_inv h live -> 0 <= i < 7 -> live_ok h p s ->
  (slab_object h i p -> (p ∉ free_list (pool_at h i)) -> p ∉ fl) ->
  live_ok (set_pool h i (mkPool (class_size i) fl t u)) p s.
Proof.
  intros I Hi [Hs Hl] Hfl. split; [done |]. destruct Hl as [Hg | (j & Hj & Ho & Hsz & Hf)]; [by left |].
  right. exists j. split; [done |]. split; [done |]. split; [done |].
  rewrite pool_at_set by (done || apply I || lia). destruct (Z.eqb_spec i j) as [<- | ?]; [by apply Hfl | done].
Qed.

Lemma inv_pop h live i obj fl size u t :
  heap_inv h live -> 0 <= i < 7 -> free_list (pool_at h i) = obj :: fl -> 0 < size <= class_size i ->
  live !! obj = None /\ heap_inv (set_pool h i (mkPool (class_size i) fl t u)) (<[obj := size]> live).
Proof.
  intros I Hi Hfl Hs. assert (obj ∈ free_list (pool_at h i)) as Hin by (rewrite Hfl; left).
  pose proof (hi_nodup _ _ I i Hi) as Hnd. rewrite Hfl in Hnd. apply NoDup_cons in Hnd as [Hno Hnd].
  split; [by apply (free_not_live h live i) |]. apply (inv_set_pool h live); [done | done | done | |].
  - intros p Hp. apply (hi_free _ _ I); [done |]. rewrite Hfl. by right.
  - intros p s. destruct (decide (p = obj)) as [-> | Hne].
    + rewrite lookup_insert_eq. intros [= <-]. split; [lia |]. right. exists i. split; [done |].
      split; [by apply (hi_free _ _ I) |]. split; [lia |].
      rewrite pool_at_set by (done || apply I || lia). rewrite Z.eqb_refl. done.
    + rewrite lookup_insert_ne by done. intros Hp. apply (live_ok_set_pool h live); [done | done | by apply I |].
      rewrite Hfl. intros _ Hn Hp'. apply Hn. by right.
Qed.

Lemma inv_push h live i p size u t :
  heap_inv h live -> 0 <= i < 7 -> slab_object h i p -> live !! p = Some size ->
  heap_inv (set_pool h i (mkPool (class_size i) (p :: free_list (pool_at h i)) t u)) (delete p live).
Proof.
  intros I Hi Ho Hp. apply (inv_set_pool h live); [done | done | | |].
  - apply NoDup_cons. split; [| by apply I]. intros Hf. by rewrite (free_not_live _ _ _ _ I Hi Hf) in Hp.
  - intros q [-> | Hq]%elem_of_cons; [done | by apply I].
  - intros q s [Hne Hq]%lookup_delete_Some. apply (live_ok_set_pool h live); [done | done | by apply I |].
    intros _ Hn [-> | ?]%elem_of_cons; done.
Qed.

(** ** A new region *)

Lemma carve_list (f : Z -> Z) l fl :
  fold_left (fun fl i => f i :: fl) l fl = (f <$> reverse l) ++ fl.
Proof.
  revert fl. induction l as [| a l IH]; intros fl; simpl; [done |].
  rewrite IH, reverse_cons, fmap_app, <- app_assoc. done.
Qed.

Lemma region_objs i : 0 <= i < 7 ->
  let objs := SLAB_REGION_BYTES / class_size i in
  KHEAP_SLAB_MIN_OBJS <= objs <= 4096 /\ objs * class_size i = SLAB_REGION_BYTES.
Proof.
  intros Hi. assert (i = 0 \/ i = 1 \/ i = 2 \/ i = 3 \/ i = 4 \/ i = 5 \/ i = 6) as Hc by lia.
  destruct Hc as [-> | [-> | [-> | [-> | [-> | [-> | ->]]]]]]; vm_compute; split; try split; congruence.
Qed.

(** The general allocation a region is carved from. *)
Lemma region_block h live region :
  heap_inv h (<[region := SLAB_REGION_BYTES]> live) ->
  exists b, used_block h b /\ region = block_user_data b /\ SLAB_REGION_BYTES <= user_size b
    /\ forall r, r ∈ ranges h -> r_start r <> region.
Proof.
  intros I. destruct (hi_live _ _ I region SLAB_REGION_BYTES) as (_ & [(b & Hb & E1 & Hs & Hn) | (i & Hi & _ & Hs & _)]).
  - apply lookup_insert_eq.
  - by exists b.
  - pose proof (class_size_bounds i Hi). unfold SLAB_REGION_BYTES in *. lia.
Qed.

Lemma inv_region h live i region :
  let size := class_size i in
  let objs := SLAB_REGION_BYTES / size in
  heap_inv h (<[region := SLAB_REGION_BYTES]> live) -> 0 <= i < 7 -> live !! region = None ->
  let h1 := set_slabs h (pools h) (slab_range_insert region (region + objs * size) i (ranges h)) in
  heap_inv h1 live
  /\ forall k, 0 <= k < objs -> slab_object h1 i (region + k * size) /\ (region + k * size ∉ free_list (pool_at h i)).
Proof.
  intros size objs I Hi Hnone h1. destruct (region_objs i Hi) as [Hobjs Hmul]. fold size objs in Hobjs, Hmul.
  destruct (class_size_bounds i Hi) as [Hsz _]. fold size in Hsz.
  destruct (region_block h live region I) as (b & Hb & Ereg & Hbs & Hnr).
  destruct (slab_range_insert_spec region (region + objs * size) i (ranges h) (hi_sorted _ _ I) Hnr) as (Hsort & _ & Helem).
  assert (forall j q, slab_object h j q -> slab_object h1 j q) as Hmono.
  { intros j q (r & k & Hr & Hrest). exists r, k. split; [apply Helem; by right | done]. }
  assert (forall j q k, 0 <= j < 7 -> slab_object h j q -> 0 <= k < objs -> q <> region + k * size) as Hnew.
  { intros j q k Hj Ho Hk ->. destruct (slab_object_block _ _ _ _ I Hj Ho) as (r & c & Hr & _ & _ & _ & H1 & H2 & _).
    pose proof (class_size_bounds j Hj). rewrite Ereg in Hnr.
    apply (block_not_region h _ b (region + k * size) I Hb Hnr) with (r := r); [| done | lia].
    unfold SLAB_REGION_BYTES in *. assert (0 <= k * size <= objs * size - size) by nia. sizes. }
  assert (forall q s, live !! q = Some s -> live_ok h1 q s) as Hlive.
  { intros q s Hq. assert (q <> region) as Hne by congruence.
    destruct (hi_live _ _ I q s) as [Hs Hl]; [by rewrite lookup_insert_ne |]. split; [done |].
    destruct Hl as [(c & Hc & Eq & Hcs & Hcn) | (j & Hj & Ho & Hjs & Hf)].
    - left. exists c. split; [done |]. split; [done |]. split; [done |].
      intros r [-> | Hr]%Helem; [simpl; congruence | by apply Hcn].
    - right. exists j. eauto. }
  split.
  - split; try apply I; [done | | | done].
    + intros r [-> | Hr]%Helem; [| by apply (region_ok_mono h); [| apply I]].
      split; [done |]. exists b. split; [done |]. split; [done |]. unfold SLAB_REGION_BYTES in *. sizes.
    + intros j q Hj Hq. apply Hmono. by apply (hi_free _ _ I).
  - intros k Hk. split.
    + exists (mkRange region (region + objs * size) i), k. split; [apply Helem; by left |]. simpl. fold size.
      split; [done |]. split; [lia |]. split; [done | nia].
    + intros Hf. apply (hi_free _ _ I i _ Hi) in Hf. by apply (Hnew i _ k Hi Hf Hk).
Qed.

(** No object of the new region is a live pointer. *)
Lemma region_not_live h live i region k s :
  heap_inv h (<[region := SLAB_REGION_BYTES]> live) -> 0 <= i < 7 -> live !! region = None ->
  0 <= k < SLAB_REGION_BYTES / class_size i -> live !! (region + k * class_size i) = Some s -> False.
Proof.
  intros I Hi Hnone Hk Hp. destruct (region_objs i Hi) as [_ Hmul]. destruct (class_size_bounds i Hi) as [Hsz _].
  assert (0 <= k * class_size i <= SLAB_REGION_BYTES - class_size i) by nia.
  assert (region + k * class_size i <> region) by congruence.
  assert (<[region := SLAB_REGION_BYTES]> live !! (region + k * class_size i) = Some s) as Hp'
    by (by rewrite lookup_insert_ne).
  destruct (hi_live _ _ I _ _ Hp') as [Hs _].
  destruct (live_disjoint _ _ region _ _ _ I (lookup_insert_eq _ _ _) Hp'); lia.
Qed.

(** Threading the new objects onto the free list. *)
Lemma inv_carve_region h live i region t u :
  let size := class_size i in
  let objs := SLAB_REGION_BYTES / size in
  heap_inv h (<[region := SLAB_REGION_BYTES]> live) -> 0 <= i < 7 -> live !! region = None ->
  heap_inv (set_pool (set_slabs h (pools h) (slab_range_insert region (region + objs * size) i (ranges h))) i
     (mkPool size (fold_left (fun fl k => (region + k * size) :: fl) (seqZ 0 objs) (free_list (pool_at h i))) t u)) live.
Proof.
  intros size objs I Hi Hnone. destruct (inv_region h live i region I Hi Hnone) as [I1 Hnew].
  fold size objs in I1, Hnew. set (h1 := set_slabs _ _ _) in *.
  destruct (class_size_bounds i Hi) as [Hsz _]. fold size in Hsz.
  rewrite (carve_list (fun k => region + k * size)). apply (inv_set_pool h1 live); [done | done | | |].
  - apply NoDup_app. split_and!.
    + apply NoDup_fmap_2; [intros x y ?; nia |]. rewrite reverse_Permutation. apply NoDup_seqZ.
    + intros p (k & -> & Hk)%list_elem_of_fmap. rewrite reverse_Permutation in Hk. apply elem_of_seqZ in Hk.
      apply (Hnew k). lia.
    + apply (hi_nodup _ _ I1 i Hi).
  - intros p [(k & -> & Hk)%list_elem_of_fmap | Hp]%elem_of_app.
    + rewrite reverse_Permutation in Hk. apply elem_of_seqZ in Hk. apply (Hnew k). lia.
    + by apply (hi_free _ _ I1 i).
  - intros p s Hp. apply (live_ok_set_pool h1 live); [done | done | by apply I1 |].
    intros Ho Hf [(k & -> & Hk)%list_elem_of_fmap | Hp']%elem_of_app; [| done].
    rewrite reverse_Permutation in Hk. apply elem_of_seqZ in Hk.
    unfold objs in Hk. exact (region_not_live h live i region k s I Hi Hnone ltac:(fold size; lia) Hp).
Qed.

(** ** Freeing a block *)

Lemma split_block_spec a before bs bf b after :
  split_block a before bs = Some (bf, b, after) ->
  rev_append before bs = rev_append bf (b :: after) /\ b_addr b = a.
Proof.
  revert before. induction bs as [| c bs IH]; intros before Hs; simpl in Hs; [done |].
  destruct (Z.eqb_spec (b_addr c) a) as [Ha | Ha]; [by simplify_eq |]. by apply IH in Hs.
Qed.

Lemma split_block_found bs b lo hi before :
  chain lo bs hi -> b ∈ bs -> exists bf after, split_block (b_addr b) before bs = Some (bf, b, after).
Proof.
  revert lo before. induction bs as [| c bs IH]; intros lo before Hc Hb; [by apply elem_of_nil in Hb |].
  destruct Hc as (? & Hm & ? & ? & Hc). simpl. destruct (Z.eqb_spec (b_addr c) (b_addr b)) as [Ha | Ha].
  - apply elem_of_cons in Hb as [-> | Hb]; [eauto |].
    destruct (chain_elem _ _ _ _ Hc Hb) as [Hle _]. sizes.
  - apply elem_of_cons in Hb as [-> | Hb]; [done |]. by apply (IH _ _ Hc).
Qed.

(** A list that differs from [bs] in its free blocks only. *)
Record same_used (bs bs' : list block) : Prop := {
  su_chain lo hi : hi <= HEAP_LIMIT -> KHEAP_BASE <= lo -> chain lo bs hi -> chain lo bs' hi;
  su_ok : Forall block_ok bs -> Forall block_ok bs';
  su_bytes : used_bytes bs' = used_bytes bs;
  su_elem x : b_used x = true -> x ∈ bs' <-> x ∈ bs;
}.

Lemma same_used_refl bs : same_used bs bs.
Proof. by split. Qed.

Lemma same_used_trans a b c : same_used a b -> same_used b c -> same_used a c.
Proof.
  intros [c1 o1 b1 e1] [c2 o2 b2 e2]. split; [auto | auto | congruence |].
  intros x Hx. rewrite e2 by done. auto.
Qed.

Lemma chain_merge lo l1 x y l2 hi :
  chain lo (l1 ++ x :: y :: l2) hi -> chain lo (l1 ++ resize x (b_size x + b_size y) :: l2) hi.
Proof.
  revert lo. induction l1 as [| a l1 IH]; intros lo Hc; simpl in *.
  - destruct Hc as (? & ? & ? & ? & ? & ? & ? & ? & Hc).
    split_and!; [done | sizes | done | by apply mod16_add |]. eapply chain_lo; [done |]. sizes.
  - destruct Hc as (? & ? & ? & ? & Hc). split_and!; auto.
Qed.

Lemma merge_free l1 x y l2 :
  b_used x = false -> b_used y = false ->
  (forall lo hi, hi <= HEAP_LIMIT -> KHEAP_BASE <= lo -> chain lo (l1 ++ x :: y :: l2) hi ->
     !64 (b_size x + b_size y) = b_size x + b_size y) ->
  same_used (l1 ++ x :: y :: l2) (l1 ++ resize x (!64 (b_size x + b_size y)) :: l2).
Proof.
  intros Hx Hy Hs. split.
  - intros lo hi Hl Hb Hc. rewrite (Hs lo hi Hl Hb Hc). by apply chain_merge.
  - rewrite !Forall_app, !Forall_cons. intros (? & ? & ? & ?). split; [done |]. split; [| done].
    split; [done |]. simpl. congruence.
  - rewrite !used_bytes_app. simpl. rewrite Hx, Hy. done.
  - intros z Hz. rewrite !elem_of_app, !elem_of_cons. assert (z <> x) by congruence. assert (z <> y) by congruence.
    assert (z <> resize x (!64 (b_size x + b_size y))) by (intros ->; simpl in Hz; congruence). tauto.
Qed.

Lemma merge_size l1 x y l2 lo hi :
  hi <= HEAP_LIMIT -> KHEAP_BASE <= lo -> chain lo (l1 ++ x :: y :: l2) hi ->
  !64 (b_size x + b_size y) = b_size x + b_size y.
Proof.
  intros Hl Hb Hc. apply u64_small. pose proof (chain_elem _ _ _ y Hc ltac:(set_solver)).
  pose proof (chain_merge _ _ _ _ _ _ Hc) as Hm.
  pose proof (chain_elem _ _ _ (resize x (b_size x + b_size y)) Hm ltac:(set_solver)) as (H1 & H2 & H3 & _).
  change HEAP_LIMIT with (2 ^ 64 - 2 ^ 38) in Hl. unfold KHEAP_BASE in Hb. sizes.
Qed.

Lemma coalesce_next_spec l1 b after count b' after' count' :
  b_used b = false -> coalesce_next b after count = (b', after', count') ->
  same_used (l1 ++ b :: after) (l1 ++ b' :: after') /\ b_used b' = false
  /\ (count = !64 (Z.of_nat (length l1) + 1 + Z.of_nat (length after)) ->
      count' = !64 (Z.of_nat (length l1) + 1 + Z.of_nat (length after'))).
Proof.
  intros Hu Hc. destruct after as [| n after]; simpl in Hc; [by simplify_eq; split; [apply same_used_refl |] |].
  destruct (b_used n) eqn:Hn; simpl in Hc; simplify_eq; [by split; [apply same_used_refl |] |].
  split; [apply merge_free; [done | done | apply merge_size] |]. split; [done |]. intros ->.
  unfold u64. rewrite Zminus_mod_idemp_l. f_equal. simpl. lia.
Qed.

Lemma coalesce_prev_spec before b after count before' count' :
  b_used b = false -> coalesce_prev before b count = (before', count') ->
  same_used (rev_append before (b :: after)) (rev_append before' after)
  /\ (count = !64 (Z.of_nat (length before) + 1 + Z.of_nat (length after)) ->
      count' = !64 (Z.of_nat (length before') + Z.of_nat (length after))).
Proof.
  intros Hu Hc. destruct before as [| p before]; simpl in Hc; [by simplify_eq; split; [apply same_used_refl |] |].
  destruct (b_used p) eqn:Hp; simpl in Hc; simplify_eq.
  - split; [apply same_used_refl |]. intros ->. f_equal. simpl. lia.
  - split.
    + simpl. rewrite !rev_append_rev. apply merge_free; [done | done | apply merge_size].
    + intros ->. unfold u64. rewrite Zminus_mod_idemp_l. f_equal. simpl. lia.
Qed.

Lemma chain_nodup lo bs hi : chain lo bs hi -> NoDup bs.
Proof.
  revert lo. induction bs as [| b bs IH]; intros lo Hc; [constructor |].
  destruct Hc as (? & Hm & ? & ? & Hc). constructor; [| by apply (IH _ Hc)].
  intros Hin. destruct (chain_elem _ _ _ _ Hc Hin) as [Hle _]. sizes.
Qed.

Definition freed (b : block) : block := mkBlock (b_addr b) (b_size b) false 0 (b_tail b).

(** Marking one block free takes exactly it out of the used ones. *)
Lemma mark_free_spec lo hi l1 b l2 :
  chain lo (l1 ++ b :: l2) hi -> b_used b = true -> Forall block_ok (l1 ++ b :: l2) ->
  chain lo (l1 ++ freed b :: l2) hi /\ Forall block_ok (l1 ++ freed b :: l2)
  /\ used_bytes (l1 ++ freed b :: l2) = used_bytes (l1 ++ b :: l2) - user_size b
  /\ forall x, b_used x = true -> x ∈ l1 ++ freed b :: l2 <-> x ∈ l1 ++ b :: l2 /\ x <> b.
Proof.
  intros Hc Hu Hok. pose proof (chain_nodup _ _ _ Hc) as Hnd. split_and!.
  - revert lo Hc. clear -l1. induction l1 as [| a l1 IH]; intros lo Hc; simpl in *; [done |].
    destruct Hc as (? & ? & ? & ? & Hc). split_and!; auto.
  - rewrite !Forall_app, !Forall_cons in *. destruct Hok as (? & [? ?] & ?). split_and!; [done | | done].
    split; [done |]. discriminate.
  - rewrite !used_bytes_app. simpl. rewrite Hu. lia.
  - intros x Hx. apply NoDup_app in Hnd as (_ & Hd & Hnd). apply NoDup_cons in Hnd as [Hn _].
    assert (x <> freed b) by (intros ->; discriminate).
    rewrite !elem_of_app, !elem_of_cons. split.
    + intros [Hin | [? | Hin]]; [| done |].
      * split; [by left |]. intros ->. apply (Hd b Hin). left.
      * split; [by right; right |]. intros ->. done.
    + intros [[? | [? | ?]] ?]; [by left | done | by right; right].
Qed.

Lemma inv_release h live b bs' count u p s :
  heap_inv h live -> used_block h b -> p = block_user_data b -> live !! p = Some s ->
  (forall r, r ∈ ranges h -> r_start r <> p) ->
  chain KHEAP_BASE bs' (heap_end h) -> Forall block_ok bs' -> count = !64 (Z.of_nat (length bs')) ->
  u = !64 (used_bytes bs') -> (forall x, b_used x = true -> x ∈ bs' <-> x ∈ blocks h /\ x <> b) ->
  heap_inv (set_used (set_blocks h bs' count) u) (delete p live).
Proof.
  intros I Hb -> Hp Hno Hc Hok Hcount Hu Helem. set (h' := set_used _ _).
  assert (forall c, used_block h c -> c <> b -> used_block h' c) as Hmono.
  { intros c [Hin Huc] Hne. split; [| done]. by apply Helem. }
  split; try apply I; try done.
  - intros r Hr. destruct (hi_regions _ _ I r Hr) as (Hi & c & Hcu & Ec & Lc). split; [done |].
    exists c. split; [| done]. apply Hmono; [done |]. intros ->. by apply (Hno r Hr).
  - intros q t [Hne Hq]%lookup_delete_Some. destruct (hi_live _ _ I q t Hq) as [Ht Hl]. split; [done |].
    destruct Hl as [(c & Hcu & Ec & Hcs & Hcn) | Hslab]; [left | by right].
    exists c. split; [| done]. apply Hmono; [done |]. congruence.
Qed.

(** The list after a free, from the list before it. *)
Lemma coalesce_inv h live bf b after b1 after1 c1 bf2 c2 p s :
  heap_inv h live -> blocks h = rev bf ++ b :: after -> b_used b = true -> p = block_user_data b ->
  live !! p = Some s -> (forall r, r ∈ ranges h -> r_start r <> p) ->
  coalesce_next (freed b) after (block_count h) = (b1, after1, c1) -> coalesce_prev bf b1 c1 = (bf2, c2) ->
  heap_inv (set_used (set_blocks h (rev_append bf2 after1) c2) (!64 (used_size h - user_size (freed b)))) (delete p live).
Proof.
  intros I Hl Hu Ep Hp Hno Ec1 Ec2. pose proof (hi_chain _ _ I) as Hch. pose proof (hi_blocks _ _ I) as Hok.
  rewrite Hl in Hch, Hok. destruct (mark_free_spec _ _ _ _ _ Hch Hu Hok) as (Hc1 & Hok1 & Hby1 & He1).
  destruct (coalesce_next_spec (rev bf) (freed b) after _ b1 after1 c1 eq_refl Ec1) as (S1 & Hu1 & Hn1).
  destruct (coalesce_prev_spec bf b1 after1 c1 bf2 c2 Hu1 Ec2) as (S2 & Hn2).
  rewrite rev_append_rev in S2. pose proof (same_used_trans _ _ _ S1 S2) as S.
  apply (inv_release h live b _ _ _ p s); [done | | done | done | done | | | | |].
  - split; [| done]. rewrite Hl. apply elem_of_app. right. left.
  - apply (su_chain _ _ S); [apply I | done | done].
  - by apply (su_ok _ _ S).
  - rewrite Hn2, rev_append_rev, length_app, length_rev; [f_equal; lia |].
    rewrite length_rev in Hn1. apply Hn1. rewrite (hi_count _ _ I), Hl, length_app, length_rev. f_equal. simpl. lia.
  - rewrite (su_bytes _ _ S), Hby1, (hi_used _ _ I), Hl. unfold u64. rewrite Zminus_mod_idemp_l. done.
  - intros x Hx. rewrite (su_elem _ _ S) by done. rewrite He1 by done. rewrite Hl. done.
Qed.

Lemma kheap_free_inv h live p s :
  heap_inv h live -> live !! p = Some s ->
  exists h', kheap_free_locked p h = Some h' /\ heap_inv h' (delete p live) /\ heap_end h' = heap_end h.
Proof.
  intros I Hp. destruct (live_inside h live p s I Hp) as (b0 & Hb0 & Hin & _ & _).
  destruct (used_bounds _ _ b0 I Hb0) as (Hbase & _). unfold kheap_free_locked.
  destruct (Z.eqb_spec p 0) as [-> | _]; [unfold block_user_data, HEADER, KHEAP_BASE in *; lia |].
  destruct (hi_live _ _ I p s Hp) as (Hs & [(b & Hb & Ep & Hbs & Hno) | (i & Hi & Ho & His & Hf)]).
  - rewrite (lookup_miss (ranges h) p); [| apply I |].
    2: { apply (block_not_region h live b p I Hb); [by rewrite <- Ep |].
         destruct (used_bounds _ _ b I Hb) as (_ & _ & ? & _). sizes. }
    assert (p - HEADER = b_addr b) as -> by (rewrite Ep; unfold block_user_data; lia). destruct Hb as [Hbin Hbu].
    destruct (split_block_found _ _ _ _ [] (hi_chain _ _ I) Hbin) as (bf & after & Es).
    change (0 <=? -1) with false. cbv iota. rewrite Es. destruct (split_block_spec _ _ _ _ _ _ Es) as [Hl _].
    pose proof (hi_blocks _ _ I) as Hok. rewrite Forall_forall in Hok. destruct (Hok b Hbin) as [Htail Hcan].
    rewrite (Hcan Hbu), Hbu, (proj2 (Z.eqb_eq _ _) Htail), Z.eqb_refl. cbn [negb]. fold (freed b).
    destruct (coalesce_next _ _ _) as [[b1 after1] c1] eqn:Ec1.
    destruct (coalesce_prev bf b1 c1) as [bf2 c2] eqn:Ec2. eexists. split; [reflexivity |]. split; [| done].
    cbn [rev_append] in Hl. rewrite rev_append_rev in Hl. by apply (coalesce_inv h live bf b after b1 after1 c1 bf2 c2 p s).
  - rewrite (slab_lookup h live i p I Hi Ho). destruct (Z.leb_spec 0 i); [| lia]. eexists. split; [reflexivity |].
    unfold kheap_slab_free_locked. rewrite (hi_class _ _ I i Hi). split; [| done]. by apply (inv_push h live i p s).
Qed.

Section Safety.
Context {E : Type} `{PageSource E}.

(** The pages that are left fit below the limit. *)
Definition paged (s : heap * E) : Prop :=
  source_ok (snd s) /\ heap_end (fst s) + PAGE_SIZE * pages_left (snd s) <= HEAP_LIMIT.

Definition good (s : heap * E) (live : gmap Z Z) : Prop := heap_inv (fst s) live /\ paged s.

Lemma set_end_same h : set_end h (heap_end h) (total_size h) = h.
Proof. by destruct h. Qed.

Lemma HEAP_LIMIT_small : HEAP_LIMIT < 2 ^ 64 - 2 ^ 37.
Proof. done. Qed.

Lemma heap_end_base h live : heap_inv h live -> KHEAP_BASE <= heap_end h.
Proof. intros I. exact (chain_le _ _ _ (hi_chain _ _ I)). Qed.

Lemma grow_pages_spec n h e live :
  heap_inv h live -> paged (h, e) ->
  let '(ok, (h', e')) := grow_pages n (h, e) in
  paged (h', e') /\ heap_inv h' live /\ blocks h' = blocks h
  /\ exists x, h' = set_end h x (total_size h) /\ (ok = true -> x = heap_end h + Z.of_nat n * PAGE_SIZE).
Proof.
  revert h e. induction n as [| n IH]; intros h e I P; simpl.
  - split_and!; try done. exists (heap_end h). rewrite set_end_same. split; [done | lia].
  - destruct P as [Hok Hle]. simpl in *. pose proof (alloc_page_ok e Hok) as Ha.
    pose proof (alloc_page_finite e Hok) as Hf. pose proof (alloc_page_fail e Hok) as Hz.
    destruct (alloc_page e) as [phys e1]. simpl in *.
    assert (forall e2, source_ok e2 -> pages_left e2 <= pages_left e ->
      paged (h, e2) /\ heap_inv h live /\ blocks h = blocks h
      /\ exists x, h = set_end h x (total_size h) /\ (false = true -> x = heap_end h + Z.of_nat (S n) * PAGE_SIZE)) as Hfail.
    { intros e2 H2 H3. split; [split; [done | unfold PAGE_SIZE in *; simpl; lia] |].
      split; [exact I |]. split; [reflexivity |].
      exists (heap_end h). rewrite set_end_same. done. }
    destruct (Z.eqb_spec phys 0); [apply Hfail; auto |]. specialize (Hf n0).
    pose proof (map_page_ok (heap_end h) phys e1 Ha) as Hm.
    pose proof (map_page_finite (heap_end h) phys e1 Ha) as Hmf.
    destruct (map_page (heap_end h) phys e1) as [r e2]. simpl in *.
    destruct (Z.ltb_spec r 0); [apply Hfail; [done | lia] |].
    pose proof (pages_left_nonneg e2 Hm). pose proof HEAP_LIMIT_small. pose proof (heap_end_base _ _ I) as Hb.
    unfold PAGE_SIZE, KHEAP_BASE in *. rewrite u64_small by lia.
    assert (heap_inv (set_end h (heap_end h + 4096) (total_size h)) live) as I'.
    { apply inv_end; [done | lia |]. pose proof (hi_page _ _ I) as Hp. unfold PAGE_SIZE in *.
      rewrite Z.add_mod, Hp by done. done. }
    specialize (IH (set_end h (heap_end h + 4096) (total_size h)) e2 I').
    destruct (grow_pages n _) as [ok [h' e']]. destruct IH as (P' & I'' & Eb & x & -> & Hx).
    { split; [done |]. simpl. unfold PAGE_SIZE. lia. }
    split_and!; [done | done | done |]. exists x. split; [done |]. intros Ho. rewrite (Hx Ho). simpl. lia.
Qed.

(** ** Allocation *)

Definition alloc_result (s : heap * E) (live : gmap Z Z) (p size : Z) : Prop :=
  p = 0 /\ good s live \/ p <> 0 /\ live !! p = None /\ good s (<[p := size]> live).

Definition again_ok (again : Z -> heap * E -> option (Z * (heap * E))) : Prop :=
  forall size s live p s', 0 < size <= MAX_REQUEST -> good s live -> again size s = Some (p, s') ->
  alloc_result s' live p size.

(** Growing by whole pages and appending them as one free block. *)
Lemma heap_grow_spec bytes s live :
  0 < bytes <= 2 * MAX_REQUEST -> good s live ->
  let '(addr, (h, e)) := heap_grow bytes s in
  let pages := !64 (bytes + PAGE_SIZE - 1) / PAGE_SIZE in
  let nb := mkBlock addr (!64 (pages * PAGE_SIZE)) false 0 KHEAP_CANARY_TAIL in
  blocks h = blocks (fst s)
  /\ (addr = 0 -> good (h, e) live)
  /\ (addr <> 0 -> bytes <= b_size nb
       /\ good (set_blocks h (blocks h ++ [nb]) (!64 (block_count h + 1)), e) live).
Proof.
  intros Hb [I P]. destruct s as [h e]. unfold heap_grow. cbn [fst] in *.
  unfold MAX_REQUEST, PAGE_SIZE in Hb. set (pages := !64 (bytes + PAGE_SIZE - 1) / PAGE_SIZE).
  assert (0 < pages /\ bytes <= pages * PAGE_SIZE < bytes + 4096) as [Hpp Hpb].
  { unfold pages, PAGE_SIZE. rewrite u64_small by lia.
    pose proof (Z.div_mod (bytes + 4096 - 1) 4096 ltac:(lia)).
    pose proof (Z.mod_pos_bound (bytes + 4096 - 1) 4096 ltac:(lia)).
    split; [apply Z.div_str_pos; lia | lia]. }
  pose proof (grow_pages_spec (Z.to_nat pages) h e live I P) as Hg. pose proof (heap_end_base _ _ I) as Hbase.
  destruct (grow_pages _ _) as [ok [h' e']]. destruct Hg as (P' & I' & Eb & x & -> & Hx). destruct ok.
  - split; [done |]. split; [intros E0; unfold KHEAP_BASE in *; lia |]. intros _.
    specialize (Hx eq_refl). rewrite Z2Nat.id in Hx by lia. rewrite u64_small by lia. split; [cbn; lia |].
    destruct P' as [Hok' Hle']. cbn [fst snd heap_end set_end] in Hle'. pose proof (pages_left_nonneg e' Hok').
    split; [| split; [done | done]].
    unfold set_blocks, set_end in *. cbn in *. subst x.
    apply (inv_grow h live pages); [done | done | unfold PAGE_SIZE in *; lia |].
    rewrite (hi_count _ _ I). unfold u64. rewrite Zplus_mod_idemp_l. done.
  - split; [done |]. split; [| done]. intros _. split; done.
Qed.

Lemma alloc_general_ok again size s live p s' :
  again_ok again -> 0 < size <= MAX_REQUEST -> good s live ->
  alloc_general again size s = Some (p, s') -> alloc_result s' live p size.
Proof.
  intros Hagain Hs G Ha. destruct (total_spec size Hs) as (Ht & Hm & Hmin). unfold alloc_general in Ha.
  destruct (first_fit _ _) as [[[bs b] split] |] eqn:Ef.
  - destruct G as [I P]. simplify_eq.
    destruct (first_fit_spec _ _ _ _ _ _ _ (hi_chain _ _ I) Hmin Hm Ef) as [C Hlen].
    pose proof (cv_size _ _ _ _ _ _ C). destruct s as [h e]. cbn [fst snd] in *.
    edestruct (inv_carve h live bs b) as [Hnone I']; [done | exact C | done | split; [apply Hs |] | | ].
    + unfold user_size, HEADER, WORD. lia.
    + transitivity (if split then !64 (block_count h + 1) else block_count h); [reflexivity |].
      rewrite (hi_count _ _ I), Hlen. destruct split; [| f_equal; lia].
      unfold u64. rewrite Zplus_mod_idemp_l. f_equal. lia.
    + right. split; [| done].
      destruct (chain_elem _ _ _ b (cv_chain _ _ _ _ _ _ C) (cv_in _ _ _ _ _ _ C)) as [Hlo _].
      unfold block_user_data, HEADER, KHEAP_BASE in *. lia.
  - pose proof (heap_grow_spec (total_block_size size) s live) as Hg.
    destruct (heap_grow _ s) as [addr [h e]]. destruct Hg as (_ & H0 & H1); [unfold MAX_REQUEST in *; lia | done |].
    destruct (Z.eqb_spec addr 0) as [-> | Hne]; [simplify_eq; left; auto |].
    destruct (H1 Hne) as [_ G']. by apply (Hagain size _ live p s' Hs G').
Qed.

Lemma slab_grow_ok again i s live s' :
  again_ok again -> 0 <= i < 7 -> good s live -> slab_grow again i s = Some s' -> good s' live.
Proof.
  intros Hagain Hi G Hg. unfold slab_grow in Hg. destruct (_ <=? _); [by simplify_eq |].
  rewrite (hi_class _ _ (proj1 G) i Hi) in Hg. destruct (region_objs i Hi) as [Hobjs Hmul].
  destruct (Z.ltb_spec (SLAB_REGION_BYTES / class_size i) KHEAP_SLAB_MIN_OBJS); [lia |].
  rewrite Hmul in Hg. destruct (again SLAB_REGION_BYTES s) as [[region [h e]] |] eqn:Ea; [| done].
  destruct (Hagain SLAB_REGION_BYTES s live region (h, e) ltac:(done) G Ea) as [[-> G'] | (Hne & Hnone & I' & P')].
  { simpl in Hg. by simplify_eq. }
  rewrite (proj2 (Z.eqb_neq _ _) Hne) in Hg. simplify_eq. split; [| done]. cbn [fst] in *.
  rewrite (hi_class _ _ I' i Hi). rewrite <- Hmul at 1. by apply inv_carve_region.
Qed.

Lemma slab_pop_ok i s live p s' size :
  0 <= i < 7 -> good s live -> 0 < size <= class_size i -> slab_pop i s = (p, s') -> alloc_result s' live p size.
Proof.
  intros Hi [I P] Hs Hp. unfold slab_pop in Hp. destruct (free_list (pool_at (fst s) i)) as [| obj fl] eqn:Ef.
  - simplify_eq. left. done.
  - simplify_eq. rewrite (hi_class _ _ I i Hi).
    destruct (inv_pop _ _ _ _ _ size (!64 (used_objs (pool_at (fst s) i) + 1)) (total_objs (pool_at (fst s) i)) I Hi Ef Hs)
      as [Hnone I'].
    right. split; [| done]. assert (slab_object (fst s) i p) as Ho by (apply I; [done | rewrite Ef; left]).
    destruct (slab_object_block _ _ _ _ I Hi Ho) as (r & b & _ & _ & Hb & Er & H1 & _).
    destruct (used_bounds _ _ b I Hb) as [Hlo _]. unfold block_user_data, HEADER, KHEAP_BASE in *. lia.
Qed.

Lemma slab_alloc_ok again i s live p s' size :
  again_ok again -> 0 <= i < 7 -> good s live -> 0 < size <= class_size i ->
  slab_alloc again i s = Some (p, s') -> alloc_result s' live p size.
Proof.
  intros Hagain Hi G Hs Ha. unfold slab_alloc in Ha. destruct (free_list _).
  - destruct (slab_grow again i s) as [s1 |] eqn:Eg; [| done]. simplify_eq.
    pose proof (slab_grow_ok _ _ _ _ _ Hagain Hi G Eg) as G1. by apply (slab_pop_ok i s1).
  - simplify_eq. by apply (slab_pop_ok i s).
Qed.

Lemma alloc_locked_ok depth : again_ok (kheap_alloc_locked depth).
Proof.
  induction depth as [| depth IH]; intros size s live p s' Hs G Ha; [done |]. cbn [kheap_alloc_locked] in Ha.
  destruct (Z.eqb_spec size 0); [lia |]. pose proof (slab_class_spec size ltac:(lia)) as Hc. cbv zeta in Hc.
  destruct (Z.leb_spec 0 (slab_class_for size)).
  - destruct Hc as [? | [Hi Hsz]]; [lia |].
    destruct (slab_alloc _ _ s) as [[obj s1] |] eqn:Es; [| done].
    pose proof (slab_alloc_ok _ _ _ _ _ _ size IH Hi G ltac:(lia) Es) as R.
    destruct (Z.eqb_spec obj 0) as [-> | Hne]; [| by simplify_eq].
    destruct R as [[_ G1] | [? _]]; [| done]. by apply (alloc_general_ok _ _ s1 live p s' IH).
  - by apply (alloc_general_ok _ _ s live p s' IH).
Qed.

(** ** Termination *)

(** A run that returns, and changes no block when it returns 0. *)
Definition returns (s : heap * E) (r : option (Z * (heap * E))) : Prop :=
  exists p s', r = Some (p, s') /\ (p = 0 -> blocks (fst s') = blocks (fst s)).

(** A run that returns memory. *)
Definition hits (r : option (Z * (heap * E))) : Prop := exists p s', r = Some (p, s') /\ p <> 0.

Lemma hits_returns s r : hits r -> returns s r.
Proof. intros (p & s' & -> & Hp). exists p, s'. done. Qed.

Definition fits (total : Z) (s : heap * E) : Prop :=
  exists b, b ∈ blocks (fst s) /\ b_used b = false /\ total <= b_size b.

Lemma general_hits again size s live :
  0 < size <= MAX_REQUEST -> good s live -> fits (total_block_size size) s -> hits (alloc_general again size s).
Proof.
  intros Hs [I _] (b & Hb & Hu & Hle). destruct (total_spec size Hs) as (_ & Hm & Hmin). unfold alloc_general.
  destruct (first_fit _ _) as [[[bs b'] split] |] eqn:Ef.
  - destruct (first_fit_spec _ _ _ _ _ _ _ (hi_chain _ _ I) Hmin Hm Ef) as [C _]. eexists _, _. split; [done |].
    destruct (chain_elem _ _ _ b' (cv_chain _ _ _ _ _ _ C) (cv_in _ _ _ _ _ _ C)) as [Hlo _].
    unfold block_user_data, HEADER, KHEAP_BASE in *. lia.
  - pose proof (first_fit_none _ _ Ef b Hb Hu). lia.
Qed.

Lemma general_returns again size s live :
  0 < size <= MAX_REQUEST -> good s live ->
  (forall s1, good s1 live -> fits (total_block_size size) s1 -> hits (again size s1)) ->
  returns s (alloc_general again size s).
Proof.
  intros Hs G Hagain. destruct (total_spec size Hs) as (Ht & _).
  destruct (first_fit (total_block_size size) (blocks (fst s))) as [[[bs b] split] |] eqn:Ef.
  - apply hits_returns. apply (general_hits _ _ _ live Hs G).
    destruct (first_fit_split _ _ _ _ _ Ef) as (l1 & c & l2 & Ebs & Hu & Hle & _).
    exists c. split; [| done]. rewrite Ebs. apply elem_of_app. right. left.
  - pose proof (heap_grow_spec (total_block_size size) s live) as Hg. unfold alloc_general. rewrite Ef.
    destruct (heap_grow _ s) as [addr [h e]].
    destruct Hg as (Eb & H0 & H1); [unfold MAX_REQUEST in *; lia | done |].
    destruct (Z.eqb_spec addr 0) as [-> | Hne]; [by eexists _, _ |].
    destruct (H1 Hne) as [Hfit G']. apply hits_returns, Hagain; [done |]. eexists. split; [| split; [| exact Hfit]]; [| done].
    cbn. apply elem_of_app. right. left.
Qed.

Lemma slab_pop_hits i (s : heap * E) live :
  0 <= i < 7 -> good s live -> free_list (pool_at (fst s) i) <> [] -> fst (slab_pop i s) <> 0.
Proof.
  intros Hi [I _] Hf. unfold slab_pop. destruct (free_list (pool_at (fst s) i)) as [| obj fl] eqn:Ef; [done |].
  assert (slab_object (fst s) i obj) as Ho by (apply I; [done | rewrite Ef; left]).
  destruct (slab_object_block _ _ _ _ I Hi Ho) as (r & b & _ & _ & Hb & Er & H1 & _).
  destruct (used_bounds _ _ b I Hb) as [Hlo _]. cbn. unfold block_user_data, HEADER, KHEAP_BASE in *. lia.
Qed.

Lemma slab_pop_blocks i (s : heap * E) : blocks (fst (snd (slab_pop i s))) = blocks (fst s).
Proof. unfold slab_pop. by destruct (free_list _). Qed.

Lemma slab_grow_returns again i s live :
  again_ok again -> 0 <= i < 7 -> good s live -> returns s (again SLAB_REGION_BYTES s) ->
  exists s', slab_grow again i s = Some s'
    /\ (blocks (fst s') = blocks (fst s) \/ free_list (pool_at (fst s') i) <> []).
Proof.
  intros Hok Hi G (p & [h e] & Ea & Hz). unfold slab_grow. destruct (_ <=? _); [by exists s; auto |].
  rewrite (hi_class _ _ (proj1 G) i Hi). destruct (region_objs i Hi) as [Hobjs Hmul].
  destruct (Z.ltb_spec (SLAB_REGION_BYTES / class_size i) KHEAP_SLAB_MIN_OBJS); [lia |]. rewrite Hmul, Ea.
  destruct (Z.eqb_spec p 0) as [-> | Hne]; [eexists; split; [done |]; left; by apply Hz |].
  eexists. split; [done |]. right. cbn [fst].
  destruct (Hok SLAB_REGION_BYTES s live p (h, e) ltac:(done) G Ea) as [[? _] | (_ & _ & I' & _)]; [done |].
  rewrite pool_at_set by (done || apply I' || lia). rewrite Z.eqb_refl. cbn [free_list].
  rewrite (carve_list (fun k => p + k * class_size i)). intros [Hnil _]%app_nil.
  apply fmap_nil_inv in Hnil. apply (f_equal length) in Hnil. rewrite length_reverse, length_seqZ in Hnil.
  cbn in Hnil. unfold KHEAP_SLAB_MIN_OBJS in *. lia.
Qed.

Lemma slab_alloc_returns again i s live :
  again_ok again -> 0 <= i < 7 -> good s live -> returns s (again SLAB_REGION_BYTES s) ->
  returns s (slab_alloc again i s).
Proof.
  intros Hok Hi G Hr. unfold slab_alloc. destruct (free_list (pool_at (fst s) i)) eqn:Ef.
  - destruct (slab_grow_returns _ _ _ _ Hok Hi G Hr) as (s1 & Eg & Hs1). rewrite Eg.
    pose proof (slab_grow_ok _ _ _ _ _ Hok Hi G Eg) as G1. eexists _, _. split; [by rewrite (surjective_pairing (slab_pop i s1)) |].
    rewrite slab_pop_blocks. destruct Hs1 as [? | Hne]; [done |]. intros Hz. by destruct (slab_pop_hits i s1 live Hi G1 Hne).
  - eexists _, _. split; [by rewrite (surjective_pairing (slab_pop i s)) |]. by rewrite slab_pop_blocks.
Qed.

(** Depth one less with a fitting block at hand. *)
Lemma depth_fits n size s live :
  0 < size <= MAX_REQUEST -> good s live -> fits (total_block_size size) s ->
  (1024 < size \/ forall s1 live, good s1 live -> returns s1 (kheap_alloc_locked n SLAB_REGION_BYTES s1)) ->
  hits (kheap_alloc_locked (S n) size s).
Proof.
  intros Hs G Hf Hbig. cbn [kheap_alloc_locked]. destruct (Z.eqb_spec size 0); [lia |].
  pose proof (slab_class_spec size ltac:(lia)) as Hc. cbv zeta in Hc.
  destruct (Z.leb_spec 0 (slab_class_for size)); [| by apply (general_hits _ _ _ live)].
  destruct Hc as [? | [Hi Hsz]]; [lia |]. destruct Hbig as [Hbig | Hbig].
  { pose proof (class_size_bounds _ Hi). lia. }
  destruct (slab_alloc_returns _ _ s live (alloc_locked_ok n) Hi G (Hbig s live G)) as (p & s1 & Es & Hz).
  rewrite Es. destruct (Z.eqb_spec p 0) as [-> | Hne]; [| by eexists _, _].
  destruct (slab_alloc_ok _ _ _ _ _ _ size (alloc_locked_ok n) Hi G ltac:(lia) Es) as [[_ G1] | [? _]]; [| done].
  apply (general_hits _ _ _ live); [done | done |]. destruct Hf as (b & Hb). exists b. by rewrite (Hz eq_refl).
Qed.

Lemma depth_returns n size s live :
  0 < size <= MAX_REQUEST -> good s live ->
  (1024 < size \/ forall s1 live, good s1 live -> returns s1 (kheap_alloc_locked n SLAB_REGION_BYTES s1)) ->
  (forall s1, good s1 live -> fits (total_block_size size) s1 -> hits (kheap_alloc_locked n size s1)) ->
  exists p s', kheap_alloc_locked (S n) size s = Some (p, s') /\ (1024 < size -> p = 0 -> blocks (fst s') = blocks (fst s)).
Proof.
  intros Hs G Hbig Hfit. cbn [kheap_alloc_locked]. destruct (Z.eqb_spec size 0); [lia |].
  pose proof (slab_class_spec size ltac:(lia)) as Hc. cbv zeta in Hc.
  destruct (Z.leb_spec 0 (slab_class_for size)).
  - destruct Hc as [? | [Hi Hsz]]; [lia |]. pose proof (class_size_bounds _ Hi). destruct Hbig as [Hbig | Hbig]; [lia |].
    destruct (slab_alloc_returns _ _ s live (alloc_locked_ok n) Hi G (Hbig s live G)) as (p & s1 & Es & Hz).
    rewrite Es. destruct (Z.eqb_spec p 0) as [-> | Hne]; [| eexists _, _; split; [done | lia]].
    destruct (slab_alloc_ok _ _ _ _ _ _ size (alloc_locked_ok n) Hi G ltac:(lia) Es) as [[_ G1] | [? _]]; [| done].
    destruct (general_returns (kheap_alloc_locked n) size s1 live Hs G1 Hfit) as (q & s2 & Eq & _).
    exists q, s2. split; [done | lia].
  - destruct (general_returns (kheap_alloc_locked n) size s live Hs G Hfit) as (q & s2 & Eq & Hq). eauto.
Qed.

Lemma depth_two s live : good s live -> forall n, returns s (kheap_alloc_locked (S (S n)) SLAB_REGION_BYTES s).
Proof.
  intros G n. destruct (depth_returns (S n) SLAB_REGION_BYTES s live) as (p & s' & Ep & Hz); [done | done | by left | |].
  - intros s1 G1 Hf. apply (depth_fits n _ s1 live); [done | done | done | by left].
  - exists p, s'. split; [done |]. by apply Hz.
Qed.

Lemma alloc_returns size s live :
  0 < size <= MAX_REQUEST -> good s live -> exists p s', kheap_alloc size s = Some (p, s').
Proof.
  intros Hs G. destruct (depth_returns 3 size s live) as (p & s' & Ep & _); [done | done | | | by exists p, s'].
  - right. intros s1 l1 G1. apply (depth_two s1 l1 G1).
  - intros s1 G1 Hf. apply (depth_fits 2 _ s1 live); [done | done | done |].
    right. intros s2 l2 G2. apply (depth_two s2 l2 G2 0).
Qed.

(** ** Histories *)

Lemma init_good (e : E) s :
  source_ok e -> KHEAP_BASE + PAGE_SIZE * pages_left e <= HEAP_LIMIT -> kheap_init e = Some s -> good s ∅.
Proof.
  intros Hok Hle Hi. unfold kheap_init in Hi.
  set (h0 := mkHeap [] KHEAP_BASE 0 0 0 ((fun s => mkPool s [] 0 0) <$> slab_sizes) []).
  assert (heap_inv h0 ∅) as I0.
  { split; try done.
    - intros i Hi'. assert (i = 0 \/ i = 1 \/ i = 2 \/ i = 3 \/ i = 4 \/ i = 5 \/ i = 6) as Hc by lia.
      destruct Hc as [-> | [-> | [-> | [-> | [-> | [-> | ->]]]]]]; reflexivity.
    - constructor.
    - intros r Hr. by apply elem_of_nil in Hr.
    - intros i p Hi' Hp. exfalso. revert Hp. unfold pool_at, h0. cbn [pools]. rewrite list_lookup_fmap.
      destruct (slab_sizes !! Z.to_nat i); apply not_elem_of_nil.
    - intros i Hi'. unfold pool_at, h0. cbn [pools]. rewrite list_lookup_fmap.
      destruct (slab_sizes !! Z.to_nat i); constructor. }
  pose proof (heap_grow_spec PAGE_SIZE (h0, e) ∅ ltac:(done)) as Hg.
  change (kheap_slab_init _) with h0 in Hi. destruct (heap_grow PAGE_SIZE (h0, e)) as [base [h e']] eqn:Egrow.
  destruct Hg as (Eb & _ & H1); [split; [done | split; [done | exact Hle]] |].
  destruct (Z.eqb_spec base 0) as [| Hne]; [done |]. simplify_eq. destruct (H1 Hne) as [_ [I P]].
  assert (block_count h = 0) as Ec.
  { unfold heap_grow in Egrow.
    pose proof (grow_pages_spec (Z.to_nat (!64 (PAGE_SIZE + PAGE_SIZE - 1) / PAGE_SIZE)) h0 e ∅ I0 (conj Hok Hle)) as Hgp.
    destruct (grow_pages _ _) as [ok [h1 e1]]. destruct Hgp as (_ & _ & _ & x & -> & _). destruct ok; by simplify_eq. }
  cbn [fst] in Eb. rewrite Eb, Ec in I, P. split; [exact I | exact P].
Qed.

(** A running heap: its state, the state of the page source, and the pointers
    handed out and not freed yet with the sizes asked for.  Between two calls
    the rest of the kernel may take and return pages. *)
Inductive hstep : (heap * E) * gmap Z Z -> (heap * E) * gmap Z Z -> Prop :=
  | hs_alloc size s live p s' :
      0 <= size <= MAX_REQUEST -> kheap_alloc size s = Some (p, s') ->
      hstep (s, live) (s', if p =? 0 then live else <[p := size]> live)
  | hs_calloc count size s live p s' :
      0 <= count -> 0 <= size -> count * size <= MAX_REQUEST -> kcalloc count size s = Some (p, s') ->
      hstep (s, live) (s', if p =? 0 then live else <[p := count * size]> live)
  | hs_free p size h e live h' :
      live !! p = Some size -> kheap_free_locked p h = Some h' ->
      hstep ((h, e), live) ((h', e), delete p live)
  | hs_kernel h e live e' :
      source_ok e' -> heap_end h + PAGE_SIZE * pages_left e' <= HEAP_LIMIT ->
      hstep ((h, e), live) ((h, e'), live).

Lemma alloc_good size s live p s' :
  0 <= size <= MAX_REQUEST -> good s live -> kheap_alloc size s = Some (p, s') ->
  good s' (if p =? 0 then live else <[p := size]> live).
Proof.
  intros Hs G Ha. destruct (decide (size = 0)) as [-> | Hne].
  - unfold kheap_alloc, DEPTH in Ha. simpl in Ha. by simplify_eq.
  - destruct (alloc_locked_ok _ size s live p s' ltac:(lia) G Ha) as [[-> G'] | (Hp & _ & G')]; [done |].
    by rewrite (proj2 (Z.eqb_neq _ _) Hp).
Qed.

Lemma hstep_good x y : hstep x y -> good (fst x) (snd x) -> good (fst y) (snd y).
Proof.
  intros Hst G. destruct Hst as [size s live p s' Hs Ha | count size s live p s' Hc Hz Hs Ha
    | p size h e live h' Hp Hf | h e live e' Hok Hle]; cbn [fst snd] in *.
  - by apply (alloc_good size s).
  - unfold kcalloc, kheap_calloc in Ha. destruct (negb (count =? 0) && _); [by simplify_eq |].
    rewrite u64_small in Ha by (unfold MAX_REQUEST in *; nia). apply (alloc_good (count * size) s); [nia | done | done].
  - destruct G as [I [Hok Hle]]. destruct (kheap_free_inv h live p size I Hp) as (h1 & E1 & I1 & Ee).
    rewrite E1 in Hf. simplify_eq. split; [exact I1 |]. split; [done |]. cbn [fst] in *. by rewrite Ee.
  - destruct G as [I _]. split; [exact I | by split].
Qed.

Lemma history_good (e : E) s0 x :
  source_ok e -> KHEAP_BASE + PAGE_SIZE * pages_left e <= HEAP_LIMIT -> kheap_init e = Some s0 ->
  rtc hstep (s0, ∅) x -> good (fst x) (snd x).
Proof.
  intros Hok Hle Hi Hr. pose proof (init_good e s0 Hok Hle Hi) as G.
  remember (s0, ∅) as y eqn:Ey. assert (good (fst y) (snd y)) as Gy by (by subst y). clear Ey G.
  induction Hr as [| a b c Hab _ IH]; [done |]. apply IH. by apply (hstep_good a).
Qed.

Lemma good_check s live : good s live -> kheap_check (fst s) = true.
Proof.
  intros [I _]. unfold kheap_check. apply forallb_forall. intros b Hb%list_elem_of_In.
  pose proof (hi_blocks _ _ I) as Hok. rewrite Forall_forall in Hok. destruct (Hok b Hb) as [-> Hc].
  destruct (b_used b); [rewrite Hc by done |]; by rewrite ?Z.eqb_refl.
Qed.
End Safety.

(** C3. The heap never hands out the same memory twice.  After any history of
    allocations and zeroed allocations of at most 2^40 bytes and of frees of live
    pointers, but not of [krealloc], from a fresh heap and with the rest of the kernel taking and returning pages in
    between: live allocations do not overlap; each lies inside the user area
    of a used block, past its header and short of its tail canary, inside the
    mapped heap; every canary is intact; and every live pointer can be freed.
    (Every pointer is 8 modulo 16: 16-byte alignment is never delivered.) *)
Theorem kheap_no_overlap {E} `{PageSource E} (e : E) s0 s live :
  source_ok e -> KHEAP_BASE + PAGE_SIZE * pages_left e <= HEAP_LIMIT -> kheap_init e = Some s0 ->
  rtc hstep (s0, ∅) (s, live) ->
  (forall p q m n, live !! p = Some m -> live !! q = Some n -> p <> q -> p + m <= q \/ q + n <= p)
  /\ (forall p m, live !! p = Some m -> exists b, used_block (fst s) b /\ block_user_data b <= p
        /\ p + m <= b_end b - WORD /\ b_end b <= heap_end (fst s) /\ p mod KHEAP_ALIGNMENT = 8)
  /\ kheap_check (fst s) = true
  /\ (forall p m, live !! p = Some m -> is_Some (kheap_free_locked p (fst s))).
Proof.
  intros Hok Hle Hi Hr. pose proof (history_good e s0 (s, live) Hok Hle Hi Hr) as G. cbn [fst snd] in G.
  destruct G as [I P]. split_and!.
  - intros p q m n. by apply (live_disjoint (fst s)).
  - intros p m Hp. destruct (live_inside _ _ p m I Hp) as (b & Hb & H1 & H2 & H3). exists b.
    destruct (used_bounds _ _ b I Hb) as (_ & H4 & _). done.
  - by apply (good_check s live).
  - intros p m Hp. destruct (kheap_free_inv _ _ p m I Hp) as (h' & -> & _). done.
Qed.

(** C38. Allocation terminates: the recursion of [kheap_alloc_locked] (a request
    may grow its slab pool, and each of the two may grow the heap and retry) is
    at most four calls deep in every state that such a history reaches (requests
    of at most 2^40 bytes, no [krealloc]), so the call returns, and it returns memory whenever a free block is large enough. *)
Theorem kheap_alloc_terminates {E} `{PageSource E} (e : E) s0 s live size :
  source_ok e -> KHEAP_BASE + PAGE_SIZE * pages_left e <= HEAP_LIMIT -> kheap_init e = Some s0 ->
  rtc hstep (s0, ∅) (s, live) -> 0 < size <= MAX_REQUEST ->
  exists p s', kheap_alloc size s = Some (p, s') /\ (fits (total_block_size size) s -> p <> 0).
Proof.
  intros Hok Hle Hi Hr Hs. pose proof (history_good e s0 (s, live) Hok Hle Hi Hr) as G.
  destruct (alloc_returns size s live Hs G) as (p & s' & Ea). exists p, s'. split; [done |]. intros Hf.
  destruct (depth_fits 3 size s live Hs G Hf) as (q & s2 & Eq & Hq).
  - right. intros s1 l1 G1. apply (depth_two s1 l1 G1 1).
  - unfold kheap_alloc, DEPTH in Ea. rewrite Eq in Ea. by simplify_eq.
Qed.

(** In-place expansion is wrong whenever it happens: the free block it
    leaves behind always ends [b_size b] bytes (at least 64) past the end of
    the two blocks it was made from, so it covers the block that follows, or
    memory past the end of the heap.  The branch that absorbs the whole
    successor is never taken. *)
Theorem kheap_expand_overlaps bf b n after new_size count lo hi bs count' :
  chain lo (rev bf ++ b :: n :: after) hi -> KHEAP_BASE <= lo -> hi <= HEAP_LIMIT -> b_end b = b_addr n ->
  user_size b < new_size <= MAX_REQUEST ->
  kheap_try_expand_locked bf b (n :: after) new_size count = Some (bs, count') ->
  exists leftover, leftover ∈ bs /\ b_used leftover = false /\ b_end leftover = b_end n + b_size b
    /\ MIN_BLOCK_SIZE <= b_size b
    /\ (forall c, c ∈ after -> b_addr c < b_end n + b_size b -> b_addr leftover < b_end c /\ b_addr c < b_end leftover).
Proof.
  intros Hc Hlo Hhi Hadj Hn He. unfold kheap_try_expand_locked in He. destruct (b_used n); [done |].
  pose proof (chain_elem _ _ _ b Hc ltac:(apply elem_of_app; right; left)) as (Hb1 & Hb2 & Hb3 & _).
  pose proof (chain_elem _ _ _ n Hc ltac:(apply elem_of_app; right; right; left)) as (Hn1 & Hn2 & Hn3 & _).
  pose proof (merge_size _ _ _ _ _ _ Hhi Hlo Hc) as Hsum. rewrite Hsum in He.
  assert (0 < new_size) as Hpos by sizes.
  destruct (total_spec new_size ltac:(lia)) as (Ht & _ & Hmin). unfold total_block_size in Ht, Hmin.
  set (T := !64 (align_up new_size KHEAP_ALIGNMENT + HEADER + WORD)) in *.
  destruct (Z.ltb_spec (b_size b + b_size n) T); [done |].
  change HEAP_LIMIT with (2 ^ 64 - 2 ^ 38) in Hhi. unfold KHEAP_BASE in Hlo.
  rewrite (u64_small (_ - (_ - _))) in He by sizes.
  destruct (Z.leb_spec MIN_BLOCK_SIZE (b_size b + b_size n - (T - b_size b))); [| sizes].
  simplify_eq. eexists. split; [rewrite rev_append_rev; apply elem_of_app; right; right; left |].
  split; [done |]. split; [sizes |]. split; [done |]. intros c Hin Hlt.
  assert (b_end n <= b_addr c) as Hcn.
  { assert (forall l, chain lo (l ++ n :: after) hi -> b_end n <= b_addr c) as Hgo.
    { clear -Hin. intros l. revert lo. induction l as [| a l IH]; intros lo Hch; simpl in Hch.
      - destruct Hch as (_ & _ & _ & _ & Hch). exact (proj1 (chain_elem _ _ _ _ Hch Hin)).
      - destruct Hch as (_ & _ & _ & _ & Hch). by apply (IH _ Hch). }
    apply (Hgo (rev bf ++ [b])). rewrite <- app_assoc. done. }
  pose proof (chain_elem _ _ _ c Hc ltac:(apply elem_of_app; right; by right; right)) as (_ & _ & Hc3 & _).
  sizes.
Qed.

(** ** Pages from the physical allocator *)

Section Source.
(** [vmm_map] may take pages for its tables and returns none. *)
Variable vmm_map : Z -> Z -> pmm -> Z * pmm.
Hypothesis vmm_map_wf : forall v p s, pmm_wf s -> pmm_wf (snd (vmm_map v p s)).
Hypothesis vmm_map_pages : forall v p s, pmm_wf s -> free_pages (snd (vmm_map v p s)) <= free_pages s.

Lemma pmm_page_taken s : pmm_wf s ->
  pmm_wf (snd (pmm_alloc_page s)) /\
  (fst (pmm_alloc_page s) <> 0 -> free_pages (snd (pmm_alloc_page s)) < free_pages s) /\
  free_pages (snd (pmm_alloc_page s)) <= free_pages s.
Proof.
  intros W. pose proof (pmm_free_bounds s W) as Hb. pose proof (wf_total s W) as Ht.
  destruct (pmm_alloc_page_cases s W) as [(p & bits & Hp & Hf & ->) | [(bits & ->) _]].
  - assert (0 < free_pages s) as Hfp.
    { rewrite (wf_free s W). apply countb_pos. exists p. unfold page_is_free. rewrite Hf. split; [lia | done]. }
    split; [by apply take_page_wf |]. unfold take_page. cbn. rewrite (u64_small (free_pages s - 1)) by lia. lia.
  - split; [by apply set_bits_wf |]. done.
Qed.

#[local] Instance pmm_source : PageSource pmm := {
  alloc_page := pmm_alloc_page;
  map_page := vmm_map;
  source_ok := pmm_wf;
  pages_left := free_pages;
  pages_left_nonneg s W := proj1 (pmm_free_bounds s W);
  alloc_page_ok s W := proj1 (pmm_page_taken s W);
  alloc_page_finite s W := proj1 (proj2 (pmm_page_taken s W));
  alloc_page_fail s W _ := proj2 (proj2 (pmm_page_taken s W));
  map_page_ok := vmm_map_wf;
  map_page_finite := vmm_map_pages;
}.
End Source.

(** ** A concrete heap: sixty-three free pages, a mapping that never fails *)

Definition demo_source : pmm := mkPmm [1; 0; 0; 0; 0; 0; 0; 0] 0 64 1 63 8 0 0 0.

Lemma demo_source_wf : pmm_wf demo_source.
Proof.
  split; simpl; try reflexivity; try lia.
  - repeat (apply Forall_cons; split; [unfold is_byte; lia |]). done.
Qed.

Definition demo_map (v p : Z) (s : pmm) : Z * pmm := (0, s).

Definition demo_pages : PageSource pmm :=
  pmm_source demo_map (fun _ _ s W => W) (fun _ _ s _ => Z.le_refl (free_pages s)).
#[local] Existing Instance demo_pages.

(** The heap after an initialisation, a 2000-byte, a 100-byte and a 5000-byte
    allocation, and the free of the first. *)
Definition demo_init : heap * pmm := default (mkHeap [] 0 0 0 0 [] [], demo_source) (kheap_init demo_source).
Definition demo_alloc (size : Z) (s : heap * pmm) : Z * (heap * pmm) := default (0, s) (kheap_alloc size s).
Definition demo_s1 := Eval vm_compute in demo_alloc 2000 demo_init.
Definition demo_s2 := Eval vm_compute in demo_alloc 100 (snd demo_s1).
Definition demo_s3 := Eval vm_compute in demo_alloc 5000 (snd demo_s2).

Definition demo_live : gmap Z Z :=
  <[fst demo_s3 := 5000]> (<[fst demo_s2 := 100]> (<[fst demo_s1 := 2000]> ∅)).

Lemma demo_history : rtc hstep (demo_init, ∅) (snd demo_s3, demo_live).
Proof.
  assert (forall size s live p s', 0 < size <= MAX_REQUEST -> kheap_alloc size s = Some (p, s') -> (p =? 0) = false ->
            hstep (s, live) (s', <[p := size]> live)) as Hstep.
  { intros size s live p s' Hs Ha Hp. pose proof (hs_alloc size s live p s' ltac:(lia) Ha) as X. by rewrite Hp in X. }
  eapply rtc_l; [apply (Hstep 2000 _ _ (fst demo_s1) (snd demo_s1)) |].
  { done. } { vm_compute. reflexivity. } { reflexivity. }
  eapply rtc_l; [apply (Hstep 100 _ _ (fst demo_s2) (snd demo_s2)) |].
  { done. } { vm_compute. reflexivity. } { reflexivity. }
  eapply rtc_l; [apply (Hstep 5000 _ _ (fst demo_s3) (snd demo_s3)) |].
  { done. } { vm_compute. reflexivity. } { reflexivity. }
  apply rtc_refl.
Qed.

Lemma demo_init_ok : kheap_init demo_source = Some demo_init.
Proof. vm_compute. reflexivity. Qed.

Lemma demo_ok : source_ok demo_source.
Proof. exact demo_source_wf. Qed.

Lemma demo_room : KHEAP_BASE + PAGE_SIZE * pages_left demo_source <= HEAP_LIMIT.
Proof. vm_compute. discriminate. Qed.

Lemma kheap_no_overlap_witness :
  fst demo_s1 <> fst demo_s2 /\ (fst demo_s1 + 2000 <= fst demo_s2 \/ fst demo_s2 + 100 <= fst demo_s1).
Proof.
  split; [vm_compute; discriminate |].
  destruct (kheap_no_overlap demo_source demo_init (snd demo_s3) demo_live demo_ok demo_room demo_init_ok demo_history)
    as [Hd _].
  apply (Hd (fst demo_s1) (fst demo_s2) 2000 100); [vm_compute; reflexivity .. | vm_compute; discriminate].
Defined.

Lemma kheap_alloc_terminates_witness :
  exists p s', kheap_alloc 3000 (snd demo_s3) = Some (p, s') /\ (fits (total_block_size 3000) (snd demo_s3) -> p <> 0).
Proof.
  apply (kheap_alloc_terminates demo_source demo_init (snd demo_s3) demo_live 3000
    demo_ok demo_room demo_init_ok demo_history).
  unfold MAX_REQUEST. lia.
Defined.

(** A 112-byte block followed by a 256-byte free one and a used one: expanding
    the first to 200 bytes leaves a free block that runs into the third. *)
Definition demo_b (off size : Z) (u : bool) : block :=
  mkBlock (KHEAP_BASE + off) size u (if u then KHEAP_CANARY_HEAD else 0) KHEAP_CANARY_TAIL.

Lemma kheap_expand_overlaps_witness :
  kheap_try_expand_locked [] (demo_b 0 112 true) [demo_b 112 256 false; demo_b 368 112 true] 200 3
    = Some ([demo_b 0 256 true; demo_b 256 224 false; demo_b 368 112 true], 3)
  /\ exists leftover, leftover ∈ [demo_b 0 256 true; demo_b 256 224 false; demo_b 368 112 true]
       /\ b_used leftover = false /\ b_end leftover = b_end (demo_b 112 256 false) + 112.
Proof.
  assert (kheap_try_expand_locked [] (demo_b 0 112 true) [demo_b 112 256 false; demo_b 368 112 true] 200 3
    = Some ([demo_b 0 256 true; demo_b 256 224 false; demo_b 368 112 true], 3)) as He by (vm_compute; reflexivity).
  split; [exact He |].
  destruct (kheap_expand_overlaps [] (demo_b 0 112 true) (demo_b 112 256 false) [demo_b 368 112 true] 200 3
    KHEAP_BASE (KHEAP_BASE + 4096) [demo_b 0 256 true; demo_b 256 224 false; demo_b 368 112 true] 3) as (l & H1 & H2 & H3 & _).
  - vm_compute. repeat split; discriminate.
  - lia.
  - vm_compute. discriminate.
  - vm_compute. reflexivity.
  - vm_compute. split; [reflexivity | discriminate].
  - exact He.
  - exists l. done.
Defined.

(** A request within 15 bytes of the top of the 64-bit range wraps in
    [align_up] and gets the smallest block. *)
Example kheap_alloc_wraps :
  exists s', kheap_alloc (2 ^ 64 - 1) demo_init = Some (KHEAP_BASE + HEADER, s')
    /\ exists b, b ∈ blocks (fst s') /\ block_user_data b = KHEAP_BASE + HEADER /\ user_size b = 0.
Proof. eexists. split; [vm_compute; reflexivity |]. eexists. split; [left |]. vm_compute. done. Qed.
