(* ===== verification/Vma.v ===== *)
(** * Memory mappings and the page-fault handler ([kernel/mm/vma.c])

    The sorted list of a process's mappings, [mmap], [munmap], [mprotect], the
    heap and stack mappings, and the fault handler.

    What lies below -- page tables, page objects, the frame allocator, the
    allocation of list nodes -- is the interface [VmEnv] on a state [M].  A
    section of the C between taking and dropping [vma_lock] is one step; where
    the C drops the lock in the middle of an operation, the operation's
    argument [other] is what the other threads do meanwhile.  A node of the
    list is identified by its start, which never changes and is unique. *)

From S2P Require Import Prelude Pmm.

Definition VMA_DYING : Z := 0x80000000.
Definition VMA_NO_SHARED_WRITE : Z := 0x40000000.
Definition PROT_NONE : Z := 0.
Definition PROT_READ : Z := 1.
Definition PROT_WRITE : Z := 2.
Definition PROT_EXEC : Z := 4.
Definition MAP_SHARED : Z := 1.
Definition MAP_PRIVATE : Z := 2.
Definition MAP_FIXED : Z := 0x10.
Definition MAP_ANONYMOUS : Z := 0x20.
Definition VMM_WRITABLE : Z := 2.
Definition VMM_USER : Z := 4.
Definition VMM_EXEC : Z := 2 ^ 9.
Definition VMM_NX : Z := 2 ^ 63.

(** [(f & b) != 0]. *)
Definition has (f b : Z) : bool := negb (Z.land f b =? 0).

Record vm_area := mkVma {
  start : Z;
  end_ : Z;
  prot : Z;
  flags : Z;
  obj : option Z;            (* None is NULL *)
  file_off : Z;
}.

#[export] Instance vm_area_eq_dec : EqDecision vm_area.
Proof. solve_decision. Defined.

Record user_layout := mkLayout { mmap_base : Z; mmap_max : Z; heap_base : Z; heap_max : Z }.

Definition page_align_up (v : Z) : Z := Z.land (!64 (v + PAGE_SIZE - 1)) (!64 (Z.lnot (PAGE_SIZE - 1))).
Definition page_of (a : Z) : Z := Z.land a (!64 (Z.lnot (PAGE_SIZE - 1))).
Definition unaligned (a : Z) : bool := has a (PAGE_SIZE - 1).

Definition prot_to_vmm (p : Z) : Z :=
  let f := 0 in
  let f := if negb (p =? PROT_NONE) then Z.lor f VMM_USER else f in
  let f := if has p PROT_WRITE then Z.lor f VMM_WRITABLE else f in
  if has p PROT_EXEC then Z.lor f VMM_EXEC else Z.lor f VMM_NX.

(** ** The list *)

Definition dying (v : vm_area) : bool := has (flags v) VMA_DYING.

Fixpoint gap_from (l : list vm_area) (cand len : Z) : Z :=
  match l with
  | [] => cand
  | v :: l =>
      if !64 (cand + len) <=? start v then cand
      else gap_from l (if cand <? end_ v then end_ v else cand) len
  end.

Definition find_gap (lay : user_layout) (l : list vm_area) (len : Z) : Z :=
  let cand := gap_from l (mmap_base lay) len in
  if (mmap_max lay <? !64 (cand + len)) || (!64 (cand + len) <? cand) then 0 else cand.

Definition range_is_free (l : list vm_area) (s e : Z) : bool :=
  forallb (fun v => negb ((s <? end_ v) && (start v <? e))) l.

Fixpoint vma_insert (nv : vm_area) (l : list vm_area) : list vm_area :=
  match l with
  | [] => [nv]
  | v :: l' => if start v <? start nv then v :: vma_insert nv l' else nv :: l
  end.

Fixpoint vma_find (addr : Z) (l : list vm_area) : option vm_area :=
  match l with
  | [] => None
  | v :: l =>
      if addr <? start v then None
      else if addr <? end_ v then (if dying v then None else Some v)
      else vma_find addr l
  end.

Fixpoint vma_unlink (s : Z) (l : list vm_area) : list vm_area :=
  match l with
  | [] => []
  | v :: l => if start v =? s then l else v :: vma_unlink s l
  end.

Definition with_end (v : vm_area) (e : Z) : vm_area :=
  mkVma (start v) e (prot v) (flags v) (obj v) (file_off v).
Definition with_prot (v : vm_area) (p : Z) : vm_area :=
  mkVma (start v) (end_ v) p (flags v) (obj v) (file_off v).
Definition with_dying (v : vm_area) : vm_area :=
  mkVma (start v) (end_ v) (prot v) (Z.lor (flags v) VMA_DYING) (obj v) (file_off v).

(** The second half of a mapping cut at [at]. *)
Definition tail_of (v : vm_area) (at_ : Z) : vm_area :=
  mkVma at_ (end_ v) (prot v) (flags v) (obj v) (!64 (file_off v + (at_ - start v))).

(** The mapping an address cuts, and the list after the cut. *)
Fixpoint cut (at_ : Z) (l : list vm_area) : option (vm_area * list vm_area) :=
  match l with
  | [] => None
  | v :: l =>
      if (at_ <=? start v) || (end_ v <=? at_) then
        match cut at_ l with Some (w, l') => Some (w, v :: l') | None => None end
      else if dying v then None
      else Some (v, with_end v at_ :: tail_of v at_ :: l)
  end.

(** The mappings a range touches. *)
Definition touched (addr e : Z) (v : vm_area) : bool :=
  negb ((end_ v <=? addr) || (e <=? start v) || dying v).

(** The index of a page of a mapping in its object. *)
Definition page_index (v : vm_area) (page : Z) : Z := !64 (file_off v + (page - start v)) / PAGE_SIZE.

(** ** What lies below *)

(** [pte] is the page table the process runs on: the frame and the flags of a
    page.  [refs] counts the references on an object, [mapper] is the address
    of page 0 of an anonymous object.  Reclaim may take pages away at any time
    a call can block: tables only shrink ([shrinks]) there. *)
Class VmEnv (M : Type) := {
  node_alloc : M -> Z * M;
  vmo_create_anon : Z -> M -> option Z * M;
  vmo_set_mapper : Z -> Z -> M -> M;
  vmo_anon : Z -> M -> bool;
  vmo_ref : Z -> M -> M;
  vmo_put : Z -> M -> M;
  vmo_check_write : Z -> M -> Z;
  vmo_page_phys : Z -> Z -> M -> Z;
  vmo_wire_page : Z -> Z -> M -> Z * M;
  vmo_unwire_page : Z -> Z -> M -> M;
  vmo_mark_dirty : Z -> Z -> M -> M;
  vmo_discard_range : Z -> Z -> Z -> M -> M;
  vmo_detach_mapper : Z -> M -> M;
  vmm_get_phys : Z -> M -> Z;
  vmm_map : Z -> Z -> Z -> M -> Z * M;
  vmm_protect : Z -> Z -> M -> Z * M;
  vmm_unmap : Z -> M -> M;
  frame_alloc : M -> Z * M;
  frame_free : Z -> M -> M;
  copy_page : Z -> Z -> M -> M;
}.

Section Vma.
Context {M : Type} `{VmEnv M} (lay : user_layout).

Record vst := mkVst { vmas : list vm_area; mem : M; declined : Z; handled : Z; cow : Z }.

Definition set_list (s : vst) (l : list vm_area) : vst := mkVst l (mem s) (declined s) (handled s) (cow s).
Definition set_mem (s : vst) (m : M) : vst := mkVst (vmas s) m (declined s) (handled s) (cow s).
Definition decline (s : vst) : vst := mkVst (vmas s) (mem s) (!64 (declined s + 1)) (handled s) (cow s).
Definition handle (s : vst) : vst := mkVst (vmas s) (mem s) (declined s) (!64 (handled s + 1)) (cow s).
Definition count_cow (s : vst) : vst := mkVst (vmas s) (mem s) (declined s) (handled s) (!64 (cow s + 1)).
Definition on_mem (f : M -> M) (s : vst) : vst := set_mem s (f (mem s)).

(** A call into the layer below that returns a value. *)
Definition call_mem {A} (f : M -> A * M) (s : vst) : A * vst :=
  let '(a, m) := f (mem s) in (a, set_mem s m).

(** ** Installing a mapping *)

Definition install_locked (a len p f : Z) (o : option Z) (off : Z) (s : vst) : Z * vst :=
  let '(node, s) := call_mem node_alloc s in
  if node =? 0 then (- Errno.EMBK_ENOMEM, s)
  else (0, set_list s (vma_insert (mkVma a (!64 (a + len)) p f o off) (vmas s))).

Definition anon_object_for (a len : Z) (s : vst) : option Z * vst :=
  let '(r, s) := call_mem (vmo_create_anon len) s in
  match r with
  | Some o => (Some o, on_mem (vmo_set_mapper o a) s)
  | None => (None, s)
  end.

(** The address a mapping gets, or an error. *)
Definition choose_start (addr len f : Z) (s : vst) : Z + Z :=
  if has f MAP_FIXED then
    if unaligned addr then inr (- Errno.EMBK_EINVAL)
    else if (addr <? mmap_base lay) || (mmap_max lay <? !64 (addr + len)) then inr (- Errno.EMBK_EINVAL)
    else if negb (range_is_free (vmas s) addr (!64 (addr + len))) then inr (- Errno.EMBK_EEXIST)
    else inl addr
  else
    let a := find_gap lay (vmas s) len in
    if a =? 0 then inr (- Errno.EMBK_ENOMEM) else inl a.

(** Place an anonymous mapping whose object was made outside the lock. *)
Definition place_anon (a len p f : Z) (o : Z) (s : vst) : option Z * vst :=
  if range_is_free (vmas s) a (!64 (a + len)) then
    let '(rc, s) := install_locked a len p f (Some o) 0 s in
    if negb (rc =? 0) then (Some rc, on_mem (vmo_put o) s) else (Some a, s)
  else (None, on_mem (vmo_put o) s).

Fixpoint map_attempts (n : nat) (other : vst -> vst) (addr len p f : Z) (o : option Z) (off : Z) (s : vst) : Z * vst :=
  match n with
  | O => (- Errno.EMBK_ENOMEM, s)
  | S n =>
      match choose_start addr len f s with
      | inr e => (e, s)
      | inl a =>
          match o with
          | Some _ =>
              let '(rc, s) := install_locked a len p f o off s in
              (if negb (rc =? 0) then rc else a, s)
          | None =>
              let '(r, s) := anon_object_for a len s in
              match r with
              | None => (- Errno.EMBK_ENOMEM, s)
              | Some ob =>
                  let s := other s in
                  let '(placed, s) := place_anon a len p f ob s in
                  match placed with
                  | Some r => (r, s)
                  | None =>
                      if has f MAP_FIXED then (- Errno.EMBK_EEXIST, s)
                      else map_attempts n other addr len p f o off (other s)
                  end
              end
          end
      end
  end.

Definition vma_map_common (other : vst -> vst) (addr len p f : Z) (o : option Z) (off : Z) (s : vst) : Z * vst :=
  if len =? 0 then (- Errno.EMBK_EINVAL, s)
  else
    let len := page_align_up len in
    if (len =? 0) || (!64 (mmap_max lay - mmap_base lay) <? len) then (- Errno.EMBK_EINVAL, s)
    else if Bool.eqb (has f MAP_SHARED) (has f MAP_PRIVATE) then (- Errno.EMBK_EINVAL, s)
    else if has p PROT_WRITE && has p PROT_EXEC then (- Errno.EMBK_EINVAL, s)
    else if has f VMA_DYING then (- Errno.EMBK_EINVAL, s)
    else map_attempts 8 other addr len p f o off s.

Definition vma_mmap_file (other : vst -> vst) (len p f : Z) (o : option Z) (off : Z) (may_write : bool) (s : vst)
  : Z * vst :=
  if has f VMA_NO_SHARED_WRITE then (- Errno.EMBK_EINVAL, s)
  else if negb may_write && has f MAP_SHARED && has p PROT_WRITE then (- Errno.EMBK_EACCES, s)
  else
    let f := if negb may_write && has f MAP_SHARED then Z.lor f VMA_NO_SHARED_WRITE else f in
    match o with
    | None => (- Errno.EMBK_EINVAL, s)
    | Some ob =>
        let rc := if has f MAP_SHARED && has p PROT_WRITE then vmo_check_write ob (mem s) else 0 in
        if negb (rc =? 0) then (rc, s)
        else if unaligned off then (- Errno.EMBK_EINVAL, s)
        else if has f MAP_ANONYMOUS then (- Errno.EMBK_EINVAL, s)
        else vma_map_common other 0 len p f o off s
    end.

(** The tail of the system call: the mapping never took the reference. *)
Definition sys_mmap_file (other : vst -> vst) (len p f o off : Z) (may_write : bool) (s : vst) : Z * vst :=
  let '(rc, s) := vma_mmap_file other len p f (Some o) off may_write s in
  (rc, if rc <? 0 then on_mem (vmo_put o) s else s).

Definition vma_mmap (other : vst -> vst) (addr len p f : Z) (s : vst) : Z * vst :=
  if negb (has f MAP_ANONYMOUS) || negb (has f MAP_PRIVATE) then (- Errno.EMBK_EINVAL, s)
  else if has f MAP_SHARED then (- Errno.EMBK_EINVAL, s)
  else vma_map_common other addr len p f None 0 s.

(** ** Cutting and unmapping *)

Definition vma_split_at (at_ : Z) (s : vst) : bool * vst :=
  match cut at_ (vmas s) with
  | None => (true, s)
  | Some (v, l) =>
      let '(node, s) := call_mem node_alloc s in
      if node =? 0 then (false, s)
      else
        let s := match obj v with Some o => on_mem (vmo_ref o) s | None => s end in
        (true, set_list s l)
  end.

(** Both cuts of a range. *)
Definition split_both (addr e : Z) (s : vst) : bool * vst :=
  let '(ok, s) := vma_split_at addr s in
  if ok then vma_split_at e s else (false, s).

(** The pages of a file mapping, one at a time. *)
Definition unmap_page (v : vm_area) (m : M) (va : Z) : M :=
  let pa := vmm_get_phys va m in
  if pa =? 0 then m
  else
    let m := vmm_unmap va m in
    match obj v with
    | Some o =>
        let idx := page_index v va in
        if pa =? vmo_page_phys o idx m then vmo_unwire_page o idx m else frame_free pa m
    | None => frame_free pa m
    end.

(** [for (va = lo; va < hi; va += PAGE_SIZE)]. *)
Definition pages_between (lo hi : Z) : list Z :=
  (fun i => lo + i * PAGE_SIZE) <$> seqZ 0 ((hi - lo + PAGE_SIZE - 1) / PAGE_SIZE).

Definition unmap_range_pages (v : vm_area) (lo hi : Z) (m : M) : M :=
  fold_left (unmap_page v) (pages_between lo hi) m.

Definition release_pages (m : M) (d : vm_area) : M :=
  match obj d with
  | Some o =>
      if vmo_anon o m then vmo_discard_range o (file_off d / PAGE_SIZE) ((end_ d - start d) / PAGE_SIZE) m
      else unmap_range_pages d (start d) (end_ d) m
  | None => unmap_range_pages d (start d) (end_ d) m
  end.

Definition put_object (m : M) (d : vm_area) : M :=
  match obj d with Some o => vmo_put o m | None => m end.

Definition vma_munmap (other : vst -> vst) (addr len : Z) (s : vst) : Z * vst :=
  if (len =? 0) || unaligned addr then (- Errno.EMBK_EINVAL, s)
  else
    let len := page_align_up len in
    let e := !64 (addr + len) in
    if e <? addr then (- Errno.EMBK_EINVAL, s)
    else
      let '(ok, s) := split_both addr e s in
      if negb ok then (- Errno.EMBK_ENOMEM, s)
      else
        let chain := rev (with_dying <$> filter (fun v => touched addr e v = true) (vmas s)) in
        let s := set_list s ((fun v => if touched addr e v then with_dying v else v) <$> vmas s) in
        match chain with
        | [] => (- Errno.EMBK_EINVAL, s)
        | _ =>
            let s := other s in
            let s := set_mem s (fold_left release_pages chain (mem s)) in
            let s := other s in
            let s := set_list s (fold_left (fun l d => vma_unlink (start d) l) chain (vmas s)) in
            (Errno.EMBK_OK, set_mem s (fold_left put_object chain (mem s)))
        end.

(** ** Protection *)

(** The mapped prefix of a range: how far it reaches, or the error a mapping
    in it raises. *)
Fixpoint cover (l : list vm_area) (e p covered : Z) (m : M) : Z + Z :=
  match l with
  | [] => inl covered
  | v :: l =>
      if negb (covered <? e) then inl covered
      else if end_ v <=? covered then cover l e p covered m
      else if (covered <? start v) || dying v then inl covered
      else if has p PROT_WRITE && has (flags v) VMA_NO_SHARED_WRITE then inr (- Errno.EMBK_EACCES)
      else
        let rc := match obj v with
                  | Some o => if has p PROT_WRITE && has (flags v) MAP_SHARED then vmo_check_write o m else 0
                  | None => 0
                  end in
        if negb (rc =? 0) then inr rc else cover l e p (end_ v) m
  end.

(** A file mapping that is private: its pages stay read-only until copied. *)
Definition private_file (v : vm_area) (m : M) : bool :=
  match obj v with Some o => negb (vmo_anon o m) && has (flags v) MAP_PRIVATE | None => false end.

Definition protect_pages (p : Z) (m : M) (v : vm_area) : M :=
  let f := prot_to_vmm p in
  let effective := if private_file v m then Z.land f (!64 (Z.lnot VMM_WRITABLE)) else f in
  fold_left (fun m va => snd (vmm_protect va effective m)) (pages_between (start v) (end_ v)) m.

Definition vma_mprotect (other : vst -> vst) (addr len p : Z) (s : vst) : Z * vst :=
  if (len =? 0) || unaligned addr then (- Errno.EMBK_EINVAL, s)
  else
    let len := page_align_up len in
    let e := !64 (addr + len) in
    if e <? addr then (- Errno.EMBK_EINVAL, s)
    else if negb (Z.land p (!32 (Z.lnot (Z.lor (Z.lor PROT_READ PROT_WRITE) PROT_EXEC))) =? 0)
    then (- Errno.EMBK_EINVAL, s)
    else if has p PROT_WRITE && has p PROT_EXEC then (- Errno.EMBK_EINVAL, s)
    else
      match cover (vmas s) e p addr (mem s) with
      | inr err => (err, s)
      | inl covered =>
          if covered <? e then (- Errno.EMBK_ENOMEM, s)
          else
            let s := other s in
            let '(ok, s) := split_both addr e s in
            if negb ok then (- Errno.EMBK_ENOMEM, s)
            else
              let m := fold_left (protect_pages p) (filter (fun v => touched addr e v = true) (vmas s)) (mem s) in
              let l := (fun v => if touched addr e v then with_prot v p else v) <$> vmas s in
              (Errno.EMBK_OK, set_list (set_mem s m) l)
      end.

(** ** Faults *)

(** Is this still the mapping, the object and the page the fault began with? *)
Definition same_page (v : option vm_area) (o page idx : Z) : bool :=
  match v with
  | Some v => bool_decide (obj v = Some o) && (page_index v page =? idx)
  | None => false
  end.

Definition prot_of (v : option vm_area) : Z := match v with Some v => prot v | None => 0 end.

(** A write to a mapped page of a private file mapping. *)
Definition fault_copy (other : vst -> vst) (o page idx already : Z) (s : vst) : bool * vst :=
  let s := other (on_mem (vmo_ref o) s) in
  let shared := vmo_page_phys o idx (mem s) in
  let s := other s in
  let v := vma_find page (vmas s) in
  let same := same_page v o page idx && (vmm_get_phys page (mem s) =? already) in
  if same && negb (already =? shared) then
    let '(rc, s) := call_mem (vmm_protect page (prot_to_vmm (prot_of v))) s in
    (rc =? 0, on_mem (vmo_put o) s)
  else if same then
    let '(copy, s) := call_mem frame_alloc s in
    if copy =? 0 then (false, on_mem (vmo_put o) (decline s))
    else
      let s := on_mem (copy_page already copy) s in
      let '(rc, s) := call_mem (vmm_map page copy (prot_to_vmm (prot_of v))) s in
      if negb (rc =? 0) then (false, on_mem (vmo_put o) (decline (on_mem (frame_free copy) s)))
      else (true, on_mem (vmo_put o) (on_mem (vmo_unwire_page o idx) (handle (count_cow s))))
  else (true, on_mem (vmo_put o) s).

(** A page that is not mapped yet.  [fl] are the flags of the mapping as they
    were before the lock was dropped. *)
Definition fault_fill (other : vst -> vst) (o page idx fl : Z) (s : vst) : bool * vst :=
  let s := other (on_mem (vmo_ref o) s) in
  let '(phys, s) := call_mem (vmo_wire_page o idx) s in
  let s := other s in
  let v := vma_find page (vmas s) in
  let same := same_page v o page idx in
  let taken := same && negb (vmm_get_phys page (mem s) =? 0) in
  let p := prot_of v in
  let '(mapped, s) :=
    if negb (phys =? 0) && same && negb taken then
      let eff := if has fl MAP_PRIVATE && negb (vmo_anon o (mem s)) then Z.land p (!32 (Z.lnot PROT_WRITE)) else p in
      let '(rc, s) := call_mem (vmm_map page phys (prot_to_vmm eff)) s in
      if rc =? 0 then (true, handle s) else (false, s)
    else (false, s) in
  let mark_dirty := mapped && has fl MAP_SHARED && has p PROT_WRITE in
  let retry := negb same || taken in
  let s := if negb mapped && negb retry then decline s else s in
  let s := if negb (phys =? 0) && negb mapped then on_mem (vmo_unwire_page o idx) s else s in
  let s := if mark_dirty then on_mem (vmo_mark_dirty o idx) s else s in
  (mapped || retry, on_mem (vmo_put o) s).

Definition vm_fault_resolve (other : vst -> vst) (addr : Z) (write exec : bool) (s : vst) : bool * vst :=
  let page := page_of addr in
  match vma_find page (vmas s) with
  | None => (false, decline s)
  | Some v =>
      if write && negb (has (prot v) PROT_WRITE) then (false, decline s)
      else if exec && negb (has (prot v) PROT_EXEC) then (false, decline s)
      else if prot v =? PROT_NONE then (false, decline s)
      else
        let already := vmm_get_phys page (mem s) in
        let idx := page_index v page in
        match obj v with
        | Some o =>
            if negb (already =? 0) && write && private_file v (mem s) then fault_copy other o page idx already s
            else if negb (already =? 0) then (true, s)
            else fault_fill other o page idx (flags v) s
        | None => if negb (already =? 0) then (true, s) else (false, decline s)
        end
  end.

Definition vma_prefault (other : vst -> vst) (va : Z) (s : vst) : Z * vst :=
  let '(ok, s) := vm_fault_resolve other va true false s in
  (if ok then vmm_get_phys (page_of va) (mem s) else 0, s).

(** ** Teardown *)

Definition vma_detach_all (s : vst) : list vm_area * vst := (vmas s, set_list s []).

Definition detach_page (v : vm_area) (o : Z) (m : M) (va : Z) : M :=
  let pa := vmm_get_phys va m in
  if pa =? 0 then m
  else if pa =? vmo_page_phys o (page_index v va) m
  then vmo_unwire_page o (page_index v va) (vmm_unmap va m) else m.

Definition detach_area (m : M) (v : vm_area) : M :=
  match obj v with
  | Some o => if vmo_anon o m then vmo_detach_mapper o m
              else fold_left (detach_page v o) (pages_between (start v) (end_ v)) m
  | None => m
  end.

Definition vma_destroy_list (l : list vm_area) (m : M) : M :=
  fold_left put_object (rev l) (fold_left detach_area l m).

Definition vma_destroy_all (s : vst) : vst :=
  let '(l, s) := vma_detach_all s in on_mem (vma_destroy_list l) s.

Definition vma_total_bytes (s : vst) : Z := fold_left (fun t v => !64 (t + (end_ v - start v))) (vmas s) 0.

(** ** Mappings the kernel places *)

Definition vma_map_anon_at (other : vst -> vst) (a len p : Z) (s : vst) : Z * vst :=
  if (len =? 0) || unaligned a || unaligned len || (!64 (a + len) <? a) then (- Errno.EMBK_EINVAL, s)
  else
    let '(r, s) := anon_object_for a len s in
    match r with
    | None => (- Errno.EMBK_ENOMEM, s)
    | Some o =>
        let s := other s in
        if negb (range_is_free (vmas s) a (!64 (a + len))) then (- Errno.EMBK_EEXIST, on_mem (vmo_put o) s)
        else
          let '(rc, s) := install_locked a len p (Z.lor MAP_PRIVATE MAP_ANONYMOUS) (Some o) 0 s in
          (rc, if negb (rc =? 0) then on_mem (vmo_put o) s else s)
    end.

(** The mapping that ends where the heap ends, extended. *)
Fixpoint extend (old_end new_end : Z) (m : M) (l : list vm_area) : option (list vm_area) :=
  match l with
  | [] => None
  | v :: l =>
      if (end_ v =? old_end) && match obj v with Some o => vmo_anon o m | None => false end
         && (prot v =? Z.lor PROT_READ PROT_WRITE) && negb (dying v)
      then Some (with_end v new_end :: l)
      else match extend old_end new_end m l with Some l' => Some (v :: l') | None => None end
  end.

Definition vma_heap_set_end (other : vst -> vst) (old_end new_end : Z) (s : vst) : Z * vst :=
  if unaligned old_end || unaligned new_end then (- Errno.EMBK_EINVAL, s)
  else if (new_end <? heap_base lay) || (heap_max lay <? new_end) then (- Errno.EMBK_ENOMEM, s)
  else if new_end =? old_end then (0, s)
  else if new_end <? old_end then
    let '(rc, s) := vma_munmap other new_end (old_end - new_end) s in
    (if (rc =? Errno.EMBK_OK) || (rc =? - Errno.EMBK_EINVAL) then 0 else rc, s)
  else if negb (range_is_free (vmas s) old_end new_end) then (- Errno.EMBK_ENOMEM, s)
  else
    match extend old_end new_end (mem s) (vmas s) with
    | Some l => (0, set_list s l)
    | None =>
        let '(r, s) := anon_object_for old_end (new_end - old_end) s in
        match r with
        | None => (- Errno.EMBK_ENOMEM, s)
        | Some o =>
            let s := other s in
            if negb (range_is_free (vmas s) old_end new_end) then (- Errno.EMBK_ENOMEM, on_mem (vmo_put o) s)
            else
              let '(rc, s) := install_locked old_end (new_end - old_end) (Z.lor PROT_READ PROT_WRITE)
                                (Z.lor MAP_PRIVATE MAP_ANONYMOUS) (Some o) 0 s in
              (rc, if negb (rc =? 0) then on_mem (vmo_put o) s else s)
        end
    end.
End Vma.
