(* ===== verification/VmaList.v ===== *)
(** * Memory mappings: the list and the page view

    What the list of mappings says about each page, and what every edit of the
    list does to it: the C edits a sorted list of ranges, the specification is
    a map from pages to the mapping that governs them. *)

From S2P Require Import Prelude Pmm Vma.

(** ** Single flags *)

Lemma has_bit f k : 0 <= k -> has f (2 ^ k) = Z.testbit f k.
Proof. intros Hk. unfold has. rewrite <- land_bit_test, Z.shiftl_1_l by done. done. Qed.

Lemma has_lor f g b k : b = 2 ^ k -> 0 <= k -> has (Z.lor f g) b = has f b || has g b.
Proof. intros -> Hk. rewrite !has_bit by done. apply Z.lor_spec. Qed.

(** ** Well-formed lists *)

(** Page-aligned, not empty, below the top of the address space, never
    writable and executable at once. *)
Definition area_ok (v : vm_area) : Prop :=
  start v < end_ v /\ start v mod PAGE_SIZE = 0 /\ end_ v mod PAGE_SIZE = 0 /\ end_ v < 2 ^ 64
  /\ has (prot v) PROT_WRITE && has (prot v) PROT_EXEC = false.

(** Sorted and not overlapping, from an address on. *)
Fixpoint areas_ok (lo : Z) (l : list vm_area) : Prop :=
  match l with
  | [] => True
  | v :: l => lo <= start v /\ area_ok v /\ areas_ok (end_ v) l
  end.

Definition inside (v : vm_area) (p : Z) : Prop := start v <= p < end_ v.

Lemma areas_ok_lo lo lo' l : areas_ok lo l -> lo' <= lo -> areas_ok lo' l.
Proof. destruct l; simpl; [done |]. intros (? & ? & ?) ?. split_and!; [lia | done | done]. Qed.

Lemma areas_ok_elem lo l v : areas_ok lo l -> v ∈ l -> lo <= start v /\ area_ok v.
Proof.
  revert lo. induction l as [| w l IH]; intros lo Hl Hv; [by apply elem_of_nil in Hv |].
  destruct Hl as (Hlo & Hw & Hl). apply elem_of_cons in Hv as [-> | Hv]; [done |].
  destruct (IH _ Hl Hv) as [? ?]. destruct Hw as [? _]. split; [lia | done].
Qed.

Lemma areas_disjoint lo l v w p : areas_ok lo l -> v ∈ l -> w ∈ l -> inside v p -> inside w p -> v = w.
Proof.
  revert lo. induction l as [| x l IH]; intros lo Hl Hv Hw Pv Pw; [by apply elem_of_nil in Hv |].
  destruct Hl as (Hlo & Hx & Hl).
  apply elem_of_cons in Hv as [-> | Hv]; apply elem_of_cons in Hw as [-> | Hw]; [done | | | by apply (IH _ Hl)].
  - destruct (areas_ok_elem _ _ _ Hl Hw). unfold inside in *. lia.
  - destruct (areas_ok_elem _ _ _ Hl Hv). unfold inside in *. lia.
Qed.

Lemma areas_app lo l1 l2 :
  areas_ok lo (l1 ++ l2) <->
  areas_ok lo l1 /\ areas_ok (match last l1 with Some v => end_ v | None => lo end) l2.
Proof.
  revert lo. induction l1 as [| v l1 IH]; intros lo; simpl; [tauto |]. rewrite IH.
  destruct l1 as [| w l1]; simpl; [tauto |]. destruct (last (w :: l1)) eqn:E; [tauto |].
  by apply last_None in E.
Qed.

(** ** Looking up a page *)

Lemma vma_find_spec lo l p :
  areas_ok lo l ->
  match vma_find p l with
  | Some v => v ∈ l /\ inside v p /\ dying v = false
  | None => forall v, v ∈ l -> inside v p -> dying v = true
  end.
Proof.
  revert lo. induction l as [| v l IH]; intros lo Hl; simpl; [by intros ? ?%elem_of_nil |].
  destruct Hl as (Hlo & Hv & Hl). destruct (Z.ltb_spec p (start v)).
  - intros w [-> | Hw]%elem_of_cons Pw; [unfold inside in *; lia |].
    destruct (areas_ok_elem _ _ _ Hl Hw). destruct Hv. unfold inside in *. lia.
  - destruct (Z.ltb_spec p (end_ v)).
    + destruct (dying v) eqn:Ed; [| split; [left | done]].
      intros w Hw Pw. assert (w = v) as ->; [| done].
      apply (areas_disjoint lo (v :: l) w v p); [simpl; auto | done | left | done | done].
    + specialize (IH _ Hl). destruct (vma_find p l) as [w |].
      * destruct IH as (? & ? & ?). split; [by right | done].
      * intros w [-> | Hw]%elem_of_cons Pw; [unfold inside in *; lia | by apply IH].
Qed.

Lemma vma_find_in lo l p v :
  areas_ok lo l -> v ∈ l -> inside v p -> vma_find p l = if dying v then None else Some v.
Proof.
  intros Hl Hv Pv. pose proof (vma_find_spec lo l p Hl) as H. destruct (vma_find p l) as [w |].
  - destruct H as (Hw & Pw & Ed). assert (w = v) as -> by (by apply (areas_disjoint lo l w v p)). by rewrite Ed.
  - by rewrite (H v Hv Pv).
Qed.

Lemma vma_find_out lo l p : areas_ok lo l -> (forall v, v ∈ l -> ~ inside v p) -> vma_find p l = None.
Proof.
  intros Hl Hno. pose proof (vma_find_spec lo l p Hl) as H. destruct (vma_find p l) as [w |]; [| done].
  destruct H as (Hw & Pw & _). by destruct (Hno w Hw).
Qed.

(** What governs a page: protection, flags, object and page of the object. *)
Definition view (l : list vm_area) (p : Z) : option (Z * Z * option Z * Z) :=
  match vma_find p l with
  | Some v => Some (prot v, flags v, obj v, page_index v p)
  | None => None
  end.

(** Two lists with the same content page by page, dying mappings included. *)
Definition similar (v w : vm_area) (p : Z) : Prop :=
  prot v = prot w /\ flags v = flags w /\ obj v = obj w /\ page_index v p = page_index w p.

(** The mapping a page lies in, dying or not. *)
Definition holder (l : list vm_area) (p : Z) : option vm_area :=
  List.find (fun v => (start v <=? p) && (p <? end_ v)) l.

Lemma insideb v p : (start v <=? p) && (p <? end_ v) = true <-> inside v p.
Proof. unfold inside. rewrite andb_true_iff, Z.leb_le, Z.ltb_lt. done. Qed.

Lemma holder_None l p : holder l p = None <-> forall v, v ∈ l -> ~ inside v p.
Proof.
  unfold holder. split.
  - intros Hf v Hv Pv. apply list_elem_of_In in Hv. apply (List.find_none _ _ Hf) in Hv.
    apply insideb in Pv. congruence.
  - intros Hno. destruct (List.find _ l) as [v |] eqn:E; [| done]. apply List.find_some in E as [Hv Pv].
    apply list_elem_of_In in Hv. apply insideb in Pv. by destruct (Hno v Hv).
Qed.

Lemma holder_Some lo l p v : areas_ok lo l -> holder l p = Some v <-> v ∈ l /\ inside v p.
Proof.
  intros Hl. unfold holder. split.
  - intros [Hv Pv]%List.find_some. by rewrite list_elem_of_In, <- insideb.
  - intros [Hv Pv]. destruct (List.find _ l) as [w |] eqn:E.
    + apply List.find_some in E as [Hw Pw]. rewrite <- list_elem_of_In in Hw. apply insideb in Pw.
      f_equal. by apply (areas_disjoint lo l w v p).
    + exfalso. apply holder_None with (v := v) in E; done.
Qed.

Lemma vma_find_holder lo l p :
  areas_ok lo l -> vma_find p l = match holder l p with
                                  | Some v => if dying v then None else Some v
                                  | None => None
                                  end.
Proof.
  intros Hl. destruct (holder l p) as [v |] eqn:E.
  - apply (holder_Some lo) in E as [Hv Pv]; [| done]. by apply (vma_find_in lo).
  - rewrite holder_None in E. by apply (vma_find_out lo).
Qed.

(** Lists whose pages lie in similar mappings look the same. *)
Lemma view_similar lo l lo' l' p :
  areas_ok lo l -> areas_ok lo' l' ->
  match holder l p with
  | Some v => exists w, holder l' p = Some w /\ similar v w p
  | None => holder l' p = None
  end -> view l' p = view l p.
Proof.
  intros Hl Hl' H. unfold view. rewrite (vma_find_holder lo l), (vma_find_holder lo' l') by done.
  destruct (holder l p) as [v |]; [| by rewrite H].
  destruct H as (w & -> & Ep & Ef & Eo & Ei). unfold dying. rewrite Ef.
  destruct (has (flags w) VMA_DYING); [done |]. congruence.
Qed.

(** ** Cutting *)

Lemma page_index_tail v at_ p :
  page_index (tail_of v at_) p = page_index v p.
Proof.
  unfold page_index, tail_of. cbn. f_equal. unfold u64. rewrite Zplus_mod_idemp_l. f_equal. lia.
Qed.

Definition halves (v : vm_area) (at_ : Z) : list vm_area := [with_end v at_; tail_of v at_].

Lemma cut_split at_ l v l' :
  cut at_ l = Some (v, l') ->
  exists l1 l2, l = l1 ++ v :: l2 /\ l' = l1 ++ halves v at_ ++ l2 /\ dying v = false /\ start v < at_ < end_ v.
Proof.
  revert l'. induction l as [| w l IH]; intros l' Hc; simpl in Hc; [done |].
  destruct (_ || _) eqn:Eo.
  - destruct (cut at_ l) as [[x l1] |]; [| done]. simplify_eq.
    destruct (IH _ eq_refl) as (l2 & l3 & -> & -> & ? & ?). by exists (w :: l2), l3.
  - b2p. destruct (dying w) eqn:Ed; [done |]. simplify_eq. exists [], l. done.
Qed.

(** After a cut (or when none is needed) no live mapping straddles [at_]. *)
Lemma cut_none lo at_ l : areas_ok lo l -> cut at_ l = None ->
  forall v, v ∈ l -> start v < at_ < end_ v -> dying v = true.
Proof.
  revert lo. induction l as [| w l IH]; intros lo Hl Hc v Hv Hs; [by apply elem_of_nil in Hv |].
  simpl in Hc. destruct Hl as (Hlo & Hw & Hl). destruct (_ || _) eqn:Eo.
  - destruct (cut at_ l) as [[? ?] |]; [done |].
    apply elem_of_cons in Hv as [-> | Hv]; [| by apply (IH _ Hl)].
    apply orb_true_iff in Eo as [? | ?]; b2p; lia.
  - b2p. destruct (dying w) eqn:Ed; [| done]. apply elem_of_cons in Hv as [-> | Hv]; [done |].
    destruct (areas_ok_elem _ _ _ Hl Hv). lia.
Qed.

(** An edit that replaces one mapping by pieces of itself. *)
Lemma areas_replace lo l1 v l2 new :
  areas_ok lo (l1 ++ v :: l2) -> areas_ok (start v) new ->
  (forall w, last new = Some w -> end_ w <= end_ v) -> new <> [] ->
  areas_ok lo (l1 ++ new ++ l2).
Proof.
  intros Hl Hn Hlast Hne. apply areas_app in Hl as [Hl1 Hl2]. apply areas_app. split; [done |].
  set (lo' := match last l1 with Some v => end_ v | None => lo end) in *. destruct Hl2 as (Hlo & Hv & Hl2).
  apply areas_app. split; [by apply (areas_ok_lo (start v)) |].
  destruct (last new) as [w |] eqn:E; [| by apply last_None in E].
  apply (areas_ok_lo (end_ v)); [done |]. by apply Hlast.
Qed.

Lemma halves_ok v at_ : area_ok v -> at_ mod PAGE_SIZE = 0 -> start v < at_ < end_ v -> areas_ok (start v) (halves v at_).
Proof. intros (? & ? & ? & ? & ?) Ha Hs. unfold halves, area_ok. simpl. unfold area_ok. simpl. split_and!; (done || lia). Qed.

Lemma cut_areas lo at_ l v l' :
  areas_ok lo l -> at_ mod PAGE_SIZE = 0 -> cut at_ l = Some (v, l') -> areas_ok lo l'.
Proof.
  intros Hl Ha Hc. destruct (cut_split _ _ _ _ Hc) as (l1 & l2 & -> & -> & _ & Hs).
  assert (area_ok v) as Hv by (apply (areas_ok_elem lo _ v Hl); apply elem_of_app; right; left).
  apply (areas_replace lo l1 v l2); [done | by apply halves_ok | | done]. intros w [= <-]. done.
Qed.

Lemma cut_elem at_ l v l' w :
  cut at_ l = Some (v, l') -> w ∈ l' -> w ∈ l \/ w ∈ halves v at_.
Proof.
  intros Hc. destruct (cut_split _ _ _ _ Hc) as (l1 & l2 & -> & -> & _). rewrite !elem_of_app, elem_of_cons. tauto.
Qed.

(** Every page keeps its mapping, up to the cut. *)
Lemma cut_holder lo at_ l v l' p :
  areas_ok lo l -> at_ mod PAGE_SIZE = 0 -> cut at_ l = Some (v, l') ->
  match holder l p with
  | Some x => exists w, holder l' p = Some w /\ similar x w p
  | None => holder l' p = None
  end.
Proof.
  intros Hl Ha Hc. pose proof (cut_areas _ _ _ _ _ Hl Ha Hc) as Hl'.
  destruct (cut_split _ _ _ _ Hc) as (l1 & l2 & El & El' & _ & Hs).
  assert (v ∈ l) as Hv by (rewrite El; apply elem_of_app; right; left).
  assert (forall w, w ∈ halves v at_ -> w ∈ l' /\ (forall q, inside w q -> inside v q) /\ similar v w p) as Hhalf.
  { intros w Hw. split; [rewrite El'; rewrite !elem_of_app; auto |].
    apply elem_of_cons in Hw as [-> | ->%list_elem_of_singleton]; unfold inside, similar; cbn;
      (split; [lia |]); rewrite ?page_index_tail; done. }
  destruct (holder l p) as [x |] eqn:E.
  - apply (holder_Some lo) in E as [Hx Px]; [| done].
    destruct (decide (x = v)) as [-> | Hne].
    + destruct (Z.lt_ge_cases p at_).
      * exists (with_end v at_). destruct (Hhalf (with_end v at_) ltac:(left)) as (Hin & _ & Hsim).
        split; [| done]. apply (holder_Some lo); [done |]. split; [done |]. unfold inside in *. cbn. lia.
      * exists (tail_of v at_). destruct (Hhalf (tail_of v at_) ltac:(right; left)) as (Hin & _ & Hsim).
        split; [| done]. apply (holder_Some lo); [done |]. split; [done |]. unfold inside in *. cbn. lia.
    + exists x. split; [| done]. apply (holder_Some lo); [done |]. split; [| done].
      rewrite El in Hx. rewrite El'. rewrite !elem_of_app, elem_of_cons in *. tauto.
  - rewrite holder_None in *. intros w Hw Pw.
    destruct (cut_elem _ _ _ _ _ Hc Hw) as [Hin | Hh]; [by apply (E w) |].
    destruct (Hhalf w Hh) as (_ & Hsub & _). by apply (E v Hv), Hsub.
Qed.

(** ** Placing *)

Lemma range_is_free_spec l s e :
  range_is_free l s e = true <-> forall v, v ∈ l -> end_ v <= s \/ e <= start v.
Proof.
  unfold range_is_free. rewrite forallb_forall. setoid_rewrite <- list_elem_of_In.
  split; intros Hf v Hv; specialize (Hf v Hv).
  - apply negb_true_iff, andb_false_iff in Hf as [? | ?]; b2p; lia.
  - apply negb_true_iff, andb_false_iff. rewrite !Z.ltb_ge. lia.
Qed.

Lemma insert_elem nv l x : x ∈ vma_insert nv l <-> x = nv \/ x ∈ l.
Proof.
  induction l as [| v l IH]; simpl; [by rewrite list_elem_of_singleton, elem_of_nil; tauto |].
  destruct (start v <? start nv); rewrite ?elem_of_cons, ?IH; rewrite ?elem_of_cons; tauto.
Qed.

Lemma insert_areas lo nv l :
  areas_ok lo l -> area_ok nv -> lo <= start nv -> (forall v, v ∈ l -> end_ v <= start nv \/ end_ nv <= start v) ->
  areas_ok lo (vma_insert nv l).
Proof.
  revert lo. induction l as [| v l IH]; intros lo Hl Hn Hlo Hd; simpl; [done |].
  destruct Hl as (Hv0 & Hv & Hl). destruct (Hd v ltac:(left)) as [Hle | Hle].
  - destruct Hv as (Hvs & Hv'). destruct (Z.ltb_spec (start v) (start nv)); [| destruct Hn; lia].
    split_and!; [done | by split |]. apply IH; [done | done | done |]. intros w Hw. apply Hd. by right.
  - destruct Hn as (Hns & Hn'). destruct (Z.ltb_spec (start v) (start nv)); [lia |].
    split_and!; [done | by split |]. done.
Qed.

Lemma holder_insert lo nv l p :
  areas_ok lo (vma_insert nv l) ->
  holder (vma_insert nv l) p = if (start nv <=? p) && (p <? end_ nv) then Some nv else holder l p.
Proof.
  intros Hl. destruct (_ && _) eqn:E.
  - apply insideb in E. apply (holder_Some lo); [done |]. rewrite insert_elem. auto.
  - destruct (holder l p) as [v |] eqn:Eh.
    + apply (holder_Some lo); [done |]. unfold holder in Eh. apply List.find_some in Eh as [Hv Pv].
      rewrite insert_elem. rewrite <- list_elem_of_In in Hv. split; [by right | by apply insideb].
    + rewrite holder_None in *. intros v [-> | Hv]%insert_elem Pv; [| by apply (Eh v)].
      apply insideb in Pv. congruence.
Qed.

(** ** The gap search *)

Lemma gap_from_spec lo l cand len :
  areas_ok lo l -> 0 <= cand < 2 ^ 64 -> 0 < len < 2 ^ 64 ->
  let c := gap_from l cand len in
  cand <= c < 2 ^ 64 /\ (c = cand \/ exists v, v ∈ l /\ c = end_ v)
  /\ (c + len < 2 ^ 64 -> forall v, v ∈ l -> end_ v <= c \/ c + len <= start v)
  /\ (forall a, cand <= a -> a + len < 2 ^ 64 -> (forall v, v ∈ l -> end_ v <= a \/ a + len <= start v) -> c <= a).
Proof.
  revert lo cand. induction l as [| v l IH]; intros lo cand Hl Hc Hlen; simpl.
  - split_and!; [lia | lia | auto | by intros _ v Hv%elem_of_nil | auto].
  - destruct Hl as (Hlo & Hv & Hl). destruct (Z.leb_spec (!64 (cand + len)) (start v)) as [Hle | Hgt].
    + split_and!; [lia | lia | auto | | auto]. intros Hs w Hw. rewrite u64_small in Hle by lia.
      destruct Hv as [Hv _]. apply elem_of_cons in Hw as [-> | Hw]; [lia |].
      destruct (areas_ok_elem _ _ _ Hl Hw). lia.
    + assert (end_ v < 2 ^ 64) as He by apply Hv. set (cand' := if cand <? end_ v then end_ v else cand).
      assert (cand <= cand' < 2 ^ 64 /\ end_ v <= cand') as [Hc' Hve]
        by (unfold cand'; destruct (Z.ltb_spec cand (end_ v)); lia).
      destruct (IH (end_ v) cand' Hl ltac:(lia) Hlen) as (H1 & H2 & H3 & H4). split_and!; [lia | lia | | |].
      * destruct H2 as [E | (w & Hw & E)]; [| right; exists w; split; [by right | done]].
        rewrite E. unfold cand'. destruct (cand <? end_ v); [| auto]. right. exists v. split; [left | done].
      * intros Hs w [-> | Hw]%elem_of_cons; [lia | by apply H3].
      * intros a Ha Hs Hf. apply H4; [| done | intros w Hw; apply Hf; by right].
        unfold cand'. destruct (Z.ltb_spec cand (end_ v)); [| done].
        destruct (Hf v ltac:(left)); [done |]. rewrite u64_small in Hgt by lia. lia.
Qed.

(** The window of a process, as the layout code makes it. *)
Definition layout_ok (lay : user_layout) : Prop :=
  0 < mmap_base lay /\ mmap_base lay <= mmap_max lay /\ mmap_max lay < 2 ^ 63 /\ mmap_base lay mod PAGE_SIZE = 0.

Lemma find_gap_spec lay l len :
  layout_ok lay -> areas_ok 0 l -> 0 < len < 2 ^ 63 -> len mod PAGE_SIZE = 0 ->
  let a := find_gap lay l len in
  (a <> 0 -> mmap_base lay <= a /\ a + len <= mmap_max lay /\ a mod PAGE_SIZE = 0
             /\ range_is_free l a (a + len) = true)
  /\ (forall b, mmap_base lay <= b -> b + len <= mmap_max lay -> range_is_free l b (b + len) = true ->
        a <> 0 /\ a <= b).
Proof.
  intros (Hb0 & Hbm & Hm & Hba) Hl Hlen Hlp. unfold find_gap.
  destruct (gap_from_spec 0 l (mmap_base lay) len Hl ltac:(lia) ltac:(lia)) as (H1 & H2 & H3 & H4).
  set (c := gap_from l (mmap_base lay) len) in *.
  assert (forall b, mmap_base lay <= b -> b + len <= mmap_max lay -> range_is_free l b (b + len) = true -> c <= b) as Hmin.
  { intros b Hb Hbl Hf. apply H4; [done | lia |]. by apply range_is_free_spec. }
  destruct (Z.lt_ge_cases (c + len) (2 ^ 64)) as [Hs | Hs].
  - rewrite u64_small by lia. destruct (Z.ltb_spec (mmap_max lay) (c + len)).
    + simpl. split; [done |]. intros b Hb Hbl Hf. specialize (Hmin b Hb Hbl Hf). lia.
    + destruct (Z.ltb_spec (c + len) c); [lia |]. simpl. split.
      * intros _. split_and!; [lia | lia | | by apply range_is_free_spec, H3].
        destruct H2 as [-> | (v & Hv & ->)]; [done |]. apply (areas_ok_elem 0 l v Hl Hv).
      * intros b Hb Hbl Hf. specialize (Hmin b Hb Hbl Hf). lia.
  - assert (!64 (c + len) = c + len - 2 ^ 64) as ->.
    { unfold u64. symmetry. apply Z.mod_unique with 1; lia. }
    destruct (Z.ltb_spec (c + len - 2 ^ 64) c); [| lia]. rewrite orb_true_r. split; [done |].
    intros b Hb Hbl Hf. specialize (Hmin b Hb Hbl Hf). lia.
Qed.

(** ** Marking and removing *)

(** An edit that keeps every range. *)
Definition same_range (f : vm_area -> vm_area) : Prop :=
  forall v, start (f v) = start v /\ end_ (f v) = end_ v.

Lemma areas_fmap lo f l :
  same_range f -> (forall v, v ∈ l -> area_ok v -> area_ok (f v)) -> areas_ok lo l -> areas_ok lo (f <$> l).
Proof.
  intros Hr Hok. revert lo. induction l as [| v l IH]; intros lo Hl; simpl; [done |].
  destruct Hl as (Hlo & Hv & Hl). destruct (Hr v) as [Es Ee]. rewrite Es, Ee.
  split_and!; [done | apply Hok; [left | done] |]. apply IH; [| done]. intros w Hw. apply Hok. by right.
Qed.

Lemma holder_fmap f l p : same_range f -> holder (f <$> l) p = f <$> holder l p.
Proof.
  intros Hr. unfold holder. induction l as [| v l IH]; simpl; [done |]. destruct (Hr v) as [-> ->].
  destruct (_ && _); [done |]. apply IH.
Qed.

Lemma dying_with_dying v : dying (with_dying v) = true.
Proof.
  unfold dying, with_dying. cbn. change VMA_DYING with (2 ^ 31).
  rewrite has_bit, Z.lor_spec, Z.pow2_bits_true by done. apply orb_true_r.
Qed.

Lemma unlink_elem lo l s x :
  areas_ok lo l -> x ∈ vma_unlink s l <-> x ∈ l /\ start x <> s.
Proof.
  revert lo. induction l as [| v l IH]; intros lo Hl; simpl; [by rewrite elem_of_nil; tauto |].
  destruct Hl as (Hlo & Hv & Hl). destruct (Z.eqb_spec (start v) s) as [E | Hne].
  - rewrite elem_of_cons. split; [| intros [[-> | ?] ?]; done].
    intros Hx. split; [by right |]. destruct (areas_ok_elem _ _ _ Hl Hx). destruct Hv. lia.
  - rewrite !elem_of_cons, (IH _ Hl). split; [intros [-> | ?]; tauto | tauto].
Qed.

Lemma unlink_areas lo l s : areas_ok lo l -> areas_ok lo (vma_unlink s l).
Proof.
  revert lo. induction l as [| v l IH]; intros lo Hl; simpl; [done |]. destruct Hl as (Hlo & Hv & Hl).
  destruct (start v =? s); [apply (areas_ok_lo (end_ v)); [done |]; destruct Hv; lia |]. simpl. auto.
Qed.

Lemma unlink_all lo l chain :
  areas_ok lo l ->
  let l' := fold_left (fun l d => vma_unlink (start d) l) chain l in
  areas_ok lo l' /\ forall x, x ∈ l' <-> x ∈ l /\ forall d, d ∈ chain -> start x <> start d.
Proof.
  revert l. induction chain as [| d chain IH]; intros l Hl; simpl.
  - split; [done |]. intros x. split; [intros Hx; split; [done |]; by intros d Hd%elem_of_nil | tauto].
  - destruct (IH _ (unlink_areas lo l (start d) Hl)) as [H1 H2]. split; [done |]. intros x.
    rewrite H2, (unlink_elem lo) by done. split.
    + intros [[Hx Hs] Hc]. split; [done |]. intros y [-> | Hy]%elem_of_cons; [done | by apply Hc].
    + intros [Hx Hc]. split; [split; [done | apply Hc; left] |]. intros y Hy. apply Hc. by right.
Qed.

(** ** Page arithmetic *)

Lemma unaligned_spec a : unaligned a = false <-> a mod PAGE_SIZE = 0.
Proof.
  unfold unaligned, has. change (PAGE_SIZE - 1) with (2 ^ 12 - 1). rewrite land_ones_mod by done.
  change (2 ^ 12) with PAGE_SIZE. rewrite negb_false_iff. apply Z.eqb_eq.
Qed.

Lemma page_align_up_spec v :
  let r := page_align_up v in
  0 <= r < 2 ^ 64 /\ r mod PAGE_SIZE = 0 /\ (0 <= v <= 2 ^ 64 - PAGE_SIZE -> v <= r < v + PAGE_SIZE).
Proof.
  intros r. subst r. unfold page_align_up. change (PAGE_SIZE - 1) with (2 ^ 12 - 1).
  rewrite land_mask64 by (done || apply u64_range). set (x := u64 _). assert (0 <= x < 2 ^ 64) as Hx by apply u64_range.
  change (2 ^ 12) with PAGE_SIZE in *. pose proof (Z.mod_pos_bound x PAGE_SIZE ltac:(done)) as Hm.
  pose proof (Z.div_mod x PAGE_SIZE ltac:(done)) as Hd. pose proof (Z.mod_le x PAGE_SIZE ltac:(lia) ltac:(done)).
  split_and!; [lia | lia | |].
  - replace (x - _) with (x / PAGE_SIZE * PAGE_SIZE) by lia. by apply Z_mod_mult.
  - intros Hv. subst x. rewrite u64_small in * by (unfold PAGE_SIZE in *; lia). unfold PAGE_SIZE in *. lia.
Qed.

Lemma aligned_add a b : a mod PAGE_SIZE = 0 -> b mod PAGE_SIZE = 0 -> (a + b) mod PAGE_SIZE = 0.
Proof. intros Ha Hb. by rewrite Z.add_mod, Ha, Hb. Qed.

(** A page-aligned address of a 64-bit sum. *)
Lemma aligned_u64 a : a mod PAGE_SIZE = 0 -> u64 a mod PAGE_SIZE = 0.
Proof.
  intros Ha. unfold u64. change (2 ^ 64) with (PAGE_SIZE * 2 ^ 52).
  rewrite Z.mod_mod_divide; [done |]. by exists (2 ^ 52).
Qed.

(** The pages of a loop over a range. *)
Lemma pages_between_spec lo hi q :
  lo mod PAGE_SIZE = 0 -> hi mod PAGE_SIZE = 0 -> q ∈ pages_between lo hi <-> lo <= q < hi /\ q mod PAGE_SIZE = 0.
Proof.
  intros Hlo Hhi. unfold pages_between. rewrite list_elem_of_fmap. setoid_rewrite elem_of_seqZ.
  pose proof (Z.div_mod lo PAGE_SIZE ltac:(done)). pose proof (Z.div_mod hi PAGE_SIZE ltac:(done)).
  pose proof (Z.div_mod q PAGE_SIZE ltac:(done)). assert ((hi - lo + PAGE_SIZE - 1) / PAGE_SIZE = hi / PAGE_SIZE - lo / PAGE_SIZE) as ->.
  { symmetry. apply (Z.div_unique _ PAGE_SIZE (hi / PAGE_SIZE - lo / PAGE_SIZE) (PAGE_SIZE - 1)); unfold PAGE_SIZE in *; lia. }
  split.
  - intros (i & -> & Hi). split; [unfold PAGE_SIZE in *; lia |]. rewrite Z_mod_plus_full. done.
  - intros [Hq Hm]. exists (q / PAGE_SIZE - lo / PAGE_SIZE). unfold PAGE_SIZE in *. lia.
Qed.

(** ** Sublists *)

Lemma areas_filter lo (P : vm_area -> Prop) `{forall v, Decision (P v)} l : areas_ok lo l -> areas_ok lo (filter P l).
Proof.
  revert lo. induction l as [| v l IH]; intros lo Hl; [done |]. destruct Hl as (Hlo & Hv & Hl). rewrite filter_cons.
  destruct (decide (P v)); [split_and!; [done | done | by apply IH] |].
  apply IH, (areas_ok_lo (end_ v)); [done |]. destruct Hv. lia.
Qed.

Lemma areas_nodup lo l : areas_ok lo l -> NoDup l.
Proof.
  revert lo. induction l as [| v l IH]; intros lo Hl; [constructor |]. destruct Hl as (Hlo & Hv & Hl).
  constructor; [| by apply (IH _ Hl)]. intros Hin. destruct (areas_ok_elem _ _ _ Hl Hin). destruct Hv. lia.
Qed.

(** A start names one mapping. *)
Lemma areas_start lo l v w : areas_ok lo l -> v ∈ l -> w ∈ l -> start v = start w -> v = w.
Proof.
  intros Hl Hv Hw E. apply (areas_disjoint lo l v w (start v)); [done | done | done | |].
  - destruct (areas_ok_elem _ _ _ Hl Hv) as [_ [? _]]. unfold inside. lia.
  - destruct (areas_ok_elem _ _ _ Hl Hw) as [_ [? _]]. unfold inside. lia.
Qed.

Lemma unlink_perm lo l chain :
  areas_ok lo l -> NoDup chain -> (forall d, d ∈ chain -> d ∈ l) ->
  l ≡ₚ chain ++ fold_left (fun l d => vma_unlink (start d) l) chain l.
Proof.
  intros Hl Hn Hin. destruct (unlink_all lo l chain Hl) as [Ha He]. cbv zeta in *.
  apply NoDup_Permutation; [by apply (areas_nodup lo) | |].
  - apply NoDup_app. split_and!; [done | | by apply (areas_nodup lo)]. intros x Hx [_ Hs]%He. by apply (Hs x Hx).
  - intros x. rewrite elem_of_app, He. split.
    + intros Hx. destruct (decide (x ∈ chain)) as [? | Hc]; [by left | right]. split; [done |]. intros d Hd E. apply Hc.
      rewrite (areas_start lo l x d); auto.
    + intros [? | [? _]]; auto.
Qed.

Lemma areas_raise lo lo' l : areas_ok lo l -> (forall v, v ∈ l -> lo' <= start v) -> areas_ok lo' l.
Proof. destruct l as [| v l]; [done |]. intros (_ & Hv & Hl) Hlo. split_and!; [apply Hlo; left | done | done]. Qed.

Lemma extend_split {M} `{VmEnv M} a b (m : M) l l' :
  extend a b m l = Some l' ->
  exists l1 v l2 o, l = l1 ++ v :: l2 /\ l' = l1 ++ with_end v b :: l2 /\ end_ v = a /\ dying v = false
    /\ obj v = Some o /\ vmo_anon o m = true.
Proof.
  revert l'. induction l as [| w l IH]; intros l' Hx; cbn [extend] in Hx; [done |]. destruct (_ && _) eqn:Eg.
  - apply andb_true_iff in Eg as [[[He Ho]%andb_true_iff _]%andb_true_iff Hd]. simplify_eq. destruct (obj w) as [o |] eqn:Eo; [| done].
    b2p. exists [], w, l, o. by split_and!.
  - destruct (extend a b m l) as [l0 |]; [| done]. simplify_eq. destruct (IH l0 eq_refl) as (l1 & v & l2 & o & -> & -> & ?).
    by exists (w :: l1), v, l2, o.
Qed.

(** A mapping extended over a free range. *)
Lemma extend_areas l1 v l2 b :
  areas_ok 0 (l1 ++ v :: l2) -> end_ v < b -> b mod PAGE_SIZE = 0 -> b < 2 ^ 64 ->
  range_is_free (l1 ++ v :: l2) (end_ v) b = true -> areas_ok 0 (l1 ++ with_end v b :: l2).
Proof.
  intros Hl Hb Ab Hm Hf. rewrite range_is_free_spec in Hf. apply areas_app in Hl as [Hl1 (Hlo & Hv & Hl2)]. apply areas_app.
  split; [done |]. destruct Hv as (V1 & V2 & V3 & V4 & V5). split_and!; [done | | ].
  - split_and!; cbn; [lia | done | done | done | done].
  - apply (areas_raise (end_ v)); [done |]. intros w Hw. cbn. destruct (areas_ok_elem _ _ _ Hl2 Hw) as [? [? _]].
    destruct (Hf w ltac:(apply elem_of_app; right; by right)); lia.
Qed.
