(* ===== verification/VmaView.v ===== *)
(** * Memory mappings: what each call does to the address space

    Seen page by page, through [view]: which protection, flags, object and page
    of the object govern an address.  Without interference, [munmap] empties
    exactly its range, [mprotect] changes the protection of exactly its range,
    [mmap] fills exactly the range it returns; a call that fails changes
    nothing that can be seen.  What [munmap] and [mprotect] do to the page table
    and to the reference counts is added in [VmaExact]. *)

From S2P Require Import Prelude Pmm Vma VmaList.

(** No live mapping crosses an address. *)
Definition uncrossed (at_ : Z) (l : list vm_area) : Prop :=
  forall v, v ∈ l -> start v < at_ < end_ v -> dying v = true.

Lemma dying_halves v at_ w : w ∈ halves v at_ -> dying w = dying v.
Proof. unfold halves. rewrite elem_of_cons, list_elem_of_singleton. by intros [-> | ->]. Qed.

Lemma cut_uncrossed lo at_ l v l' : areas_ok lo l -> cut at_ l = Some (v, l') -> uncrossed at_ l'.
Proof.
  intros Hl Hc w Hw Hs. destruct (cut_split _ _ _ _ Hc) as (l1 & l2 & -> & -> & Hd & Hv).
  assert (v ∈ l1 ++ v :: l2) as Hin by (apply elem_of_app; right; left).
  assert (forall x, x ∈ l1 ++ v :: l2 -> x <> v -> ~ start x < at_ < end_ x) as Hx.
  { intros x Hx Hne Hxs. apply Hne. apply (areas_disjoint lo _ x v at_ Hl Hx Hin); unfold inside; lia. }
  apply elem_of_app in Hw as [Hw | [Hw | Hw]%elem_of_app].
  - destruct (decide (w = v)) as [-> | Hne]; [| by destruct (Hx w ltac:(apply elem_of_app; by left) Hne)].
    pose proof (areas_nodup lo _ Hl) as Hn. apply NoDup_app in Hn as (_ & Hn & _). by destruct (Hn v Hw ltac:(left)).
  - unfold halves in Hw. rewrite elem_of_cons, list_elem_of_singleton in Hw. destruct Hw as [-> | ->]; cbn in Hs; lia.
  - destruct (decide (w = v)) as [-> | Hne]; [| by destruct (Hx w ltac:(apply elem_of_app; right; by right) Hne)].
    pose proof (areas_nodup lo _ Hl) as Hn. apply NoDup_app in Hn as (_ & _ & Hn). apply NoDup_cons in Hn as [Hn _]. done.
Qed.

(** A cut elsewhere crosses nothing new. *)
Lemma cut_keeps_uncrossed b at_ l v l' : cut at_ l = Some (v, l') -> uncrossed b l -> uncrossed b l'.
Proof.
  intros Hc Hu w Hw Hs. destruct (cut_elem _ _ _ _ _ Hc Hw) as [Hw' | Hw']; [by apply Hu |].
  destruct (cut_split _ _ _ _ Hc) as (l1 & l2 & -> & _ & Hd & Hv). rewrite (dying_halves v at_ w Hw').
  apply Hu; [apply elem_of_app; right; left |]. unfold halves in Hw'. rewrite elem_of_cons, list_elem_of_singleton in Hw'.
  destruct Hw' as [-> | ->]; cbn in Hs; lia.
Qed.

(** What a new mapping shows at the pages it covers. *)
Lemma view_insert a n p f o off l q :
  areas_ok 0 (vma_insert (mkVma a (a + n) p f o off) l) -> areas_ok 0 l -> has f VMA_DYING = false ->
  view (vma_insert (mkVma a (a + n) p f o off) l) q =
  if (a <=? q) && (q <? a + n) then Some (p, f, o, !64 (off + (q - a)) / PAGE_SIZE) else view l q.
Proof.
  intros Hl' Hl Hd. unfold view. rewrite !(vma_find_holder 0) by done. rewrite (holder_insert 0) by done. cbn [start end_].
  destruct (_ && _); [| done]. unfold dying. cbn [flags]. by rewrite Hd.
Qed.

Section View.
Context {M : Type} `{VmEnv M} (lay : user_layout).
Abbreviation vst := (@vst M).

(** The views agree everywhere. *)
Definition same_view (l l' : list vm_area) : Prop := forall p, view l' p = view l p.

Lemma split_at_view at_ (s : vst) :
  areas_ok 0 (vmas s) -> at_ mod PAGE_SIZE = 0 ->
  let '(ok, s') := vma_split_at at_ s in
  areas_ok 0 (vmas s') /\ same_view (vmas s) (vmas s') /\ (ok = true -> uncrossed at_ (vmas s'))
  /\ (forall b, uncrossed b (vmas s) -> uncrossed b (vmas s')).
Proof.
  intros Hl Ha. unfold vma_split_at. destruct (cut at_ (vmas s)) as [[v l] |] eqn:Ec.
  - unfold call_mem. destruct (node_alloc (mem s)) as [node m]. destruct (node =? 0); [by split_and! |].
    assert (forall x : vst, vmas (set_list x l) = l) as -> by done. pose proof (cut_areas 0 at_ _ v l Hl Ha Ec) as Hl'.
    split_and!; [done | | by intros; apply (cut_uncrossed 0 at_ (vmas s) v) | by intros b; apply (cut_keeps_uncrossed b at_ _ v)].
    intros p. apply (view_similar 0 _ 0 _ p Hl Hl'). by apply (cut_holder 0 at_ _ v).
  - split_and!; [done | done | | done]. intros _ v. by apply (cut_none 0).
Qed.

Lemma split_both_view addr e (s : vst) :
  areas_ok 0 (vmas s) -> addr mod PAGE_SIZE = 0 -> e mod PAGE_SIZE = 0 ->
  let '(ok, s') := split_both addr e s in
  areas_ok 0 (vmas s') /\ same_view (vmas s) (vmas s')
  /\ (ok = true -> uncrossed addr (vmas s') /\ uncrossed e (vmas s')).
Proof.
  intros Hl Ha He. unfold split_both. pose proof (split_at_view addr s Hl Ha) as H1. destruct (vma_split_at addr s) as [ok1 s1].
  destruct H1 as (Hl1 & Hv1 & Hu1 & _). destruct ok1; [| by split_and!]. pose proof (split_at_view e s1 Hl1 He) as H2.
  destruct (vma_split_at e s1) as [ok2 s2]. destruct H2 as (Hl2 & Hv2 & Hu2 & Hk). split_and!; [done | | auto].
  intros p. by rewrite Hv2, Hv1.
Qed.

(** A live mapping the range does not cross is touched exactly when its pages
    are in the range. *)
Lemma touched_inside addr e l v p :
  uncrossed addr l -> uncrossed e l -> addr <= e -> v ∈ l -> inside v p -> dying v = false ->
  touched addr e v = true <-> addr <= p < e.
Proof.
  intros Ha He Hle Hv Pv Hd. unfold inside in Pv. unfold touched. rewrite Hd, orb_false_r, negb_true_iff, orb_false_iff, !Z.leb_gt.
  split; [| lia]. intros [H1 H2].
  assert (~ start v < addr < end_ v) by (intros Hs; pose proof (Ha v Hv Hs); congruence).
  assert (~ start v < e < end_ v) by (intros Hs; pose proof (He v Hv Hs); congruence). lia.
Qed.

(** Views through a list rewritten in place. *)
Lemma view_fmap (g : vm_area -> vm_area) l p :
  same_range g -> areas_ok 0 l -> areas_ok 0 (g <$> l) ->
  view (g <$> l) p = match holder l p with
                     | Some v => if dying (g v) then None else Some (prot (g v), flags (g v), obj (g v), page_index (g v) p)
                     | None => None
                     end.
Proof.
  intros Hr Hl Hl'. unfold view. rewrite (vma_find_holder 0) by done. rewrite holder_fmap by done.
  destruct (holder l p) as [v |]; cbn; [| done]. by destruct (dying (g v)).
Qed.

Lemma view_holder l p :
  areas_ok 0 l -> view l p = match holder l p with
                             | Some v => if dying v then None else Some (prot v, flags v, obj v, page_index v p)
                             | None => None
                             end.
Proof. intros Hl. unfold view. rewrite (vma_find_holder 0) by done. destruct (holder l p) as [v |]; [| done]. by destruct (dying v). Qed.

(** ** munmap *)

Definition alone : vst -> vst := fun s => s.

(** The chain taken out of the marked list: the touched mappings are gone, the
    others are as they were. *)
Lemma unlink_chain addr e l :
  areas_ok 0 l ->
  let g v := if touched addr e v then with_dying v else v in
  let l' := fold_left (fun l d => vma_unlink (start d) l)
              (rev (with_dying <$> filter (fun v => touched addr e v = true) l)) (g <$> l) in
  areas_ok 0 l' /\ forall x, x ∈ l' <-> x ∈ l /\ touched addr e x = false.
Proof.
  intros Hl g l'. assert (areas_ok 0 (g <$> l)) as Hg.
  { apply areas_fmap; [| | done]; intros v; unfold g; by destruct (touched _ _ _). }
  assert (forall v, start (g v) = start v) as Hs by (intros v; unfold g; by destruct (touched _ _ _)).
  destruct (unlink_all 0 (g <$> l) (rev (with_dying <$> filter (fun v => touched addr e v = true) l)) Hg) as [Ha He].
  split; [done |]. intros x. subst l'. cbv zeta in He. rewrite (He x), list_elem_of_fmap. split.
  - intros [(v & -> & Hv) Hd]. destruct (touched addr e v) eqn:Et; [| unfold g; rewrite Et; done]. exfalso.
    apply (Hd (with_dying v)); [| by rewrite Hs]. rewrite list_elem_of_In, <- in_rev, <- list_elem_of_In.
    apply list_elem_of_fmap_2. by apply list_elem_of_filter.
  - intros [Hx Et]. split; [exists x; unfold g; by rewrite Et |]. intros d Hd E. rewrite list_elem_of_In, <- in_rev, <- list_elem_of_In in Hd.
    apply list_elem_of_fmap in Hd as (v & -> & [Ht Hv]%list_elem_of_filter). cbn in E.
    rewrite (areas_start 0 l x v Hl Hx Hv E) in Et. congruence.
Qed.

Lemma view_unlinked addr e l l' p :
  areas_ok 0 l -> areas_ok 0 l' -> uncrossed addr l -> uncrossed e l -> addr <= e ->
  (forall x, x ∈ l' <-> x ∈ l /\ touched addr e x = false) ->
  view l' p = if (addr <=? p) && (p <? e) then None else view l p.
Proof.
  intros Hl Hl' Ua Ue Hle He. rewrite !view_holder by done. destruct (holder l p) as [v |] eqn:Eh.
  - apply (holder_Some 0) in Eh as [Hv Pv]; [| done]. destruct (touched addr e v) eqn:Et.
    + assert (dying v = false) as Hd. { unfold touched in Et. destruct (dying v); [| done]. by rewrite orb_true_r in Et. }
      destruct (touched_inside addr e l v p Ua Ue Hle Hv Pv Hd) as [Hin _]. specialize (Hin Et).
      assert (holder l' p = None) as ->.
      { apply holder_None. intros w Hw Pw. apply He in Hw as [Hw Ht]. rewrite (areas_disjoint 0 l w v p Hl Hw Hv Pw Pv) in Ht. congruence. }
      by destruct (Z.leb_spec addr p), (Z.ltb_spec p e); try lia.
    + assert (holder l' p = Some v) as -> by (apply (holder_Some 0); [done | split; [by apply He | done]]).
      destruct (dying v) eqn:Hd; [by destruct (_ && _) |]. destruct ((addr <=? p) && _) eqn:Ei; [| done]. b2p.
      rewrite (proj2 (touched_inside addr e l v p Ua Ue Hle Hv Pv Hd)) in Et by lia. done.
  - rewrite holder_None in Eh. assert (holder l' p = None) as ->; [| by destruct (_ && _)].
    apply holder_None. intros w Hw. apply He in Hw as [Hw _]. by apply Eh.
Qed.

Lemma holder_unlinked addr e l l' p :
  areas_ok 0 l -> uncrossed addr l -> uncrossed e l -> addr <= p < e ->
  (forall x, x ∈ l' <-> x ∈ l /\ touched addr e x = false) -> view l p <> None -> holder l' p = None.
Proof.
  intros Hl Ua Ue Hp He Hv. rewrite view_holder in Hv by done. destruct (holder l p) as [v |] eqn:Eh; [| done].
  apply (holder_Some 0) in Eh as [Hin Pv]; [| done]. destruct (dying v) eqn:Hd; [done |].
  pose proof (proj2 (touched_inside addr e l v p Ua Ue ltac:(lia) Hin Pv Hd) Hp) as Et.
  apply holder_None. intros w Hw Pw. apply He in Hw as [Hw Ht]. rewrite (areas_disjoint 0 l w v p Hl Hw Hin Pw Pv) in Ht. congruence.
Qed.

Definition empty_range (l : list vm_area) (lo hi : Z) : Prop := forall p, lo <= p < hi -> view l p = None.

(** Nothing touched is nothing mapped. *)
Lemma touched_none addr e l :
  areas_ok 0 l -> uncrossed addr l -> uncrossed e l -> addr <= e ->
  filter (fun v => touched addr e v = true) l = [] <-> empty_range l addr e.
Proof.
  intros Hl Ua Ue Hle. split.
  - intros Hf p Hp. rewrite view_holder by done. destruct (holder l p) as [v |] eqn:Eh; [| done].
    apply (holder_Some 0) in Eh as [Hv Pv]; [| done]. destruct (dying v) eqn:Hd; [done |].
    assert (v ∈ filter (fun v => touched addr e v = true) l) as Hin; [| rewrite Hf in Hin; by apply elem_of_nil in Hin].
    apply list_elem_of_filter. split; [| done]. by apply (touched_inside addr e l v p).
  - intros Hem. apply filter_none, Forall_forall. intros v Hv Ht. unfold touched in Ht. rewrite negb_true_iff in Ht.
    apply orb_false_iff in Ht as [[H1 H2]%orb_false_iff Hd]. b2p. destruct (areas_ok_elem _ _ _ Hl Hv) as [_ [? _]].
    destruct (decide (addr = e)) as [<- | Hne]; [pose proof (Ua v Hv ltac:(lia)); congruence |].
    assert (inside v (Z.max addr (start v))) as Pv by (unfold inside; lia). specialize (Hem (Z.max addr (start v)) ltac:(lia)).
    rewrite view_holder, (proj2 (holder_Some 0 l _ v Hl) (conj Hv Pv)), Hd in Hem by done. done.
Qed.

Lemma set_mem_list (s : vst) m : vmas (set_mem s m) = vmas s.
Proof. done. Qed.

(** The end of a range, when it does not wrap. *)
Lemma range_end addr len :
  0 <= addr < 2 ^ 64 ->
  let e := addr + page_align_up len in
  (u64 e <? addr) = (2 ^ 64 <=? e) /\ ((2 ^ 64 <=? e) = false -> u64 e = e /\ addr <= e).
Proof.
  intros Ha e. destruct (page_align_up_spec len) as (Hb & _). cbv zeta in Hb. subst e. set (n := page_align_up len) in *.
  destruct (Z.leb_spec (2 ^ 64) (addr + n)).
  - split; [| done]. unfold u64. rewrite <- (Z.mod_unique (addr + n) (2 ^ 64) 1 (addr + n - 2 ^ 64)) by lia.
    apply Z.ltb_lt. lia.
  - rewrite u64_small by lia. split; [apply Z.ltb_ge; lia | lia].
Qed.

(** A range that the calls refuse before they look at the list. *)
Definition malformed (addr len : Z) : Prop := len = 0 \/ unaligned addr = true \/ 2 ^ 64 <= addr + page_align_up len.

Lemma malformed_dec addr len : {malformed addr len} + {~ malformed addr len}.
Proof.
  unfold malformed. destruct (Z.eq_dec len 0); [left; auto |]. destruct (unaligned addr); [left; auto |].
  destruct (Z_le_dec (2 ^ 64) (addr + page_align_up len)); [left; auto | right; intros [? | [? | ?]]; done].
Defined.

Lemma well_formed addr len :
  0 <= addr < 2 ^ 64 -> ~ malformed addr len ->
  let e := addr + page_align_up len in
  (len =? 0) || unaligned addr = false /\ u64 e = e /\ (e <? addr) = false /\ addr <= e /\ addr mod PAGE_SIZE = 0 /\ e mod PAGE_SIZE = 0.
Proof.
  intros Ha Hm e. assert (len <> 0 /\ unaligned addr = false /\ e < 2 ^ 64) as (Hn & Hu & He).
  { split_and!; [intros E; by apply Hm; left | | apply Z.nle_gt; intros E; by apply Hm; right; right].
    destruct (unaligned addr) eqn:Eu; [destruct Hm; right; by left | done]. }
  destruct (range_end addr len Ha) as [Ew Ee]. cbv zeta in Ew, Ee. fold e in Ew, Ee. destruct (Z.leb_spec (2 ^ 64) e); [lia |].
  destruct (Ee eq_refl) as [E1 E2]. pose proof (proj1 (unaligned_spec addr) Hu) as Aa. destruct (page_align_up_spec len) as (_ & Al & _).
  cbv zeta in Al. split_and!; [by destruct (Z.eqb_spec len 0) | done | by apply Z.ltb_ge | done | done | by apply aligned_add].
Qed.

Lemma munmap_malformed addr len (s : vst) :
  0 <= addr < 2 ^ 64 -> malformed addr len -> vma_munmap alone addr len s = (- Errno.EMBK_EINVAL, s).
Proof.
  intros Ha Hm. unfold vma_munmap. destruct (Z.eqb_spec len 0); [done |]. destruct (unaligned addr) eqn:Eu; [done |]. cbn [orb].
  destruct (range_end addr len Ha) as [-> _]. destruct Hm as [? | [? | ?%Z.leb_le]]; [done | congruence |]. by rewrite H0.
Qed.

(** A cut that fails: a mapping crosses the address and there is no memory for
    the second half's node. *)
Definition cut_fails (at_ : Z) (s : vst) : Prop := cut at_ (vmas s) <> None /\ fst (node_alloc (mem s)) = 0.
Definition split_fails (addr e : Z) (s : vst) : Prop := cut_fails addr s \/ cut_fails e (snd (vma_split_at addr s)).

Lemma split_at_fails at_ (s : vst) : fst (vma_split_at at_ s) = false -> cut_fails at_ s.
Proof.
  unfold vma_split_at, cut_fails, call_mem. destruct (cut at_ (vmas s)) as [[v l] |]; [| done].
  destruct (node_alloc (mem s)) as [node m]. destruct (Z.eqb_spec node 0); [by split | done].
Qed.

Lemma split_both_fails addr e (s : vst) : fst (split_both addr e s) = false -> split_fails addr e s.
Proof.
  unfold split_both, split_fails. pose proof (split_at_fails addr s) as H1. destruct (vma_split_at addr s) as [ok s1]. cbn [fst snd] in *.
  destruct ok; [intros E; right; by apply split_at_fails | auto].
Qed.

(** What [munmap] does to the list. *)
Lemma munmap_view addr len (s : vst) :
  areas_ok 0 (vmas s) -> 0 <= addr < 2 ^ 64 -> ~ malformed addr len ->
  let e := addr + page_align_up len in
  let '(rc, s') := vma_munmap alone addr len s in
  (rc = Errno.EMBK_OK /\ ~ empty_range (vmas s) addr e
    /\ (forall p, view (vmas s') p = if (addr <=? p) && (p <? e) then None else view (vmas s) p)
    /\ (forall p, addr <= p < e -> view (vmas s) p <> None -> holder (vmas s') p = None))
  \/ (rc = - Errno.EMBK_EINVAL /\ same_view (vmas s) (vmas s') /\ empty_range (vmas s) addr e)
  \/ (rc = - Errno.EMBK_ENOMEM /\ same_view (vmas s) (vmas s') /\ split_fails addr e s).
Proof.
  intros Hl Ha Hm e. destruct (well_formed addr len Ha Hm) as (E0 & Eu & Ew & Hle & Aa & Ae). fold e in Eu, Ew, Hle, Ae.
  unfold vma_munmap. rewrite E0. fold e. rewrite Eu, Ew.
  pose proof (split_both_view addr e s Hl Aa Ae) as Hs. pose proof (split_both_fails addr e s) as Hf.
  destruct (split_both addr e s) as [ok s1]. destruct Hs as (Hl1 & Hv1 & Hu).
  destruct ok; cbn [negb]; [| right; right; split_and!; [done | done | by apply Hf]]. destruct (Hu eq_refl) as [Ua Ue]. clear Hu.
  assert (empty_range (vmas s) addr e <-> empty_range (vmas s1) addr e) as Hem.
  { unfold empty_range. split; intros Hp p Hin; [rewrite Hv1 | rewrite <- Hv1]; by apply Hp. }
  pose proof (touched_none addr e (vmas s1) Hl1 Ua Ue Hle) as Htn.
  destruct (unlink_chain addr e (vmas s1) Hl1) as [Hl3 He3]. cbv zeta in Hl3, He3. unfold alone.
  destruct (rev _) as [| d ch] eqn:Er.
  - apply (f_equal (@rev vm_area)) in Er. rewrite rev_involutive in Er. apply fmap_nil_inv in Er. cbn [fold_left] in Hl3, He3. cbn [vmas set_list].
    right; left. split_and!; [done | | by apply Hem, Htn].
    intros p. rewrite (view_unlinked addr e (vmas s1) _ p Hl1 Hl3 Ua Ue Hle He3). rewrite Hv1.
    destruct (_ && _) eqn:Ei; [| done]. b2p. symmetry. rewrite <- Hv1. apply (proj1 Htn Er). lia.
  - rewrite set_mem_list. cbn [vmas set_list set_mem mem]. left. split_and!; [done | | |].
    + rewrite Hem, <- Htn. intros E. rewrite E in Er. done.
    + intros p. rewrite (view_unlinked addr e (vmas s1) _ p Hl1 Hl3 Ua Ue Hle He3). by rewrite Hv1.
    + intros p Hp Hv. rewrite <- Hv1 in Hv. by apply (holder_unlinked addr e (vmas s1)).
Qed.

(** ** mprotect *)

(** The walk over a range finds a page with nothing mapped, or reaches the end
    of a fully mapped range. *)
Lemma cover_spec l e p covered (m : M) lo c :
  areas_ok lo l -> cover l e p covered m = inl c ->
  covered <= c /\ (forall q, covered <= q < Z.min c e -> exists v, v ∈ l /\ inside v q /\ dying v = false)
  /\ (c < e -> forall v, v ∈ l -> inside v c -> dying v = true).
Proof.
  revert lo covered. induction l as [| v l IH]; intros lo covered Hl Hc; cbn [cover] in Hc.
  { simplify_eq. split_and!; [lia | lia | by intros _ v Hv%elem_of_nil]. }
  destruct Hl as (Hlo & Hv & Hl). destruct (Z.ltb_spec covered e); cbn [negb] in Hc; [| simplify_eq; split_and!; lia].
  assert (forall w, w ∈ l -> end_ v <= start w) as Hafter by (intros w Hw; apply (areas_ok_elem _ _ _ Hl Hw)).
  destruct Hv as [Hne _]. destruct (Z.leb_spec (end_ v) covered).
  { destruct (IH _ _ Hl Hc) as (G1 & G2 & G3). split_and!; [done | |].
    - intros q Hq. destruct (G2 q Hq) as (w & Hw & ?). exists w. split; [by right | done].
    - intros Hce w [-> | Hw]%elem_of_cons Pw; [unfold inside in Pw; lia | by apply G3]. }
  destruct ((covered <? start v) || dying v) eqn:Eg.
  { simplify_eq. split_and!; [lia | lia |]. intros _ w [-> | Hw]%elem_of_cons Pw; unfold inside in Pw.
    - apply orb_true_iff in Eg as [? | ?]; [b2p; lia | done].
    - specialize (Hafter w Hw). lia. }
  apply orb_false_iff in Eg as [Hs%Z.ltb_ge Hd]. destruct (_ && has (flags v) _); [done |].
  destruct (negb _); [done |]. destruct (IH _ _ Hl Hc) as (G1 & G2 & G3). split_and!; [lia | |].
  - intros q Hq. destruct (Z.lt_ge_cases q (end_ v)); [exists v; split_and!; [left | unfold inside; lia | done] |].
    destruct (G2 q ltac:(lia)) as (w & Hw & ?). exists w. split; [by right | done].
  - intros Hce w [-> | Hw]%elem_of_cons Pw; [unfold inside in Pw; lia | by apply G3].
Qed.

(** The error a mapping raises against a protection, or 0. *)
Definition refusal (p : Z) (v : vm_area) (m : M) : Z :=
  if has p PROT_WRITE && has (flags v) VMA_NO_SHARED_WRITE then - Errno.EMBK_EACCES
  else match obj v with
       | Some o => if has p PROT_WRITE && has (flags v) MAP_SHARED then vmo_check_write o m else 0
       | None => 0
       end.

(** The walk stops at the first mapping of the range that refuses, and raises
    its error. *)
Lemma cover_refusal l e p covered (m : M) lo :
  areas_ok lo l ->
  match cover l e p covered m with
  | inr err => err <> 0 /\ exists v q, v ∈ l /\ covered <= q < e /\ inside v q /\ dying v = false /\ refusal p v m = err
  | inl c => forall v q, v ∈ l -> covered <= q < Z.min c e -> inside v q -> refusal p v m = 0
  end.
Proof.
  revert lo covered. induction l as [| v l IH]; intros lo covered Hl; cbn [cover]; [by intros ? ? ?%elem_of_nil |].
  destruct Hl as (_ & [Hne _] & Hl). destruct (Z.ltb_spec covered e); cbn [negb]; [| lia].
  assert (forall w, w ∈ l -> end_ v <= start w) as Hafter by (intros w Hw; apply (areas_ok_elem _ _ _ Hl Hw)).
  destruct (Z.leb_spec (end_ v) covered).
  { specialize (IH _ covered Hl). destruct (cover l e p covered m) as [c | err].
    - intros w q [-> | Hw]%elem_of_cons Hq Pw; [unfold inside in Pw; lia | by apply (IH w q)].
    - destruct IH as (He & w & q & Hw & ?). split; [done |]. exists w, q. split; [by right | done]. }
  destruct ((covered <? start v) || dying v) eqn:Eg; [lia |]. apply orb_false_iff in Eg as [Hs%Z.ltb_ge Hd].
  assert (forall err, err <> 0 -> refusal p v m = err ->
    err <> 0 /\ exists v0 q, v0 ∈ v :: l /\ covered <= q < e /\ inside v0 q /\ dying v0 = false /\ refusal p v0 m = err) as Hstop.
  { intros err Hn Hr. split; [done |]. exists v, covered. unfold inside. split_and!; try done; left. }
  destruct (_ && has (flags v) _) eqn:Ea; [apply Hstop; [done | unfold refusal; by rewrite Ea] |]. set (rc := match obj v with Some _ => _ | None => _ end).
  assert (refusal p v m = rc) as Er by (unfold refusal; by rewrite Ea). destruct (Z.eqb_spec rc 0) as [Ez | Hz]; cbn [negb]; [| by apply Hstop].
  specialize (IH _ (end_ v) Hl). destruct (cover l e p (end_ v) m) as [c | err].
  - intros w q [-> | Hw]%elem_of_cons Hq Pw; [congruence |]. specialize (Hafter w Hw). apply (IH w q Hw); [unfold inside in Pw; lia | done].
  - destruct IH as (He & w & q & Hw & Hq & ?). split; [done |]. exists w, q. split; [by right |]. split; [lia | done].
Qed.

Definition full_range (l : list vm_area) (lo hi : Z) : Prop := forall p, lo <= p < hi -> view l p <> None.

Lemma reprot_areas addr e p l :
  areas_ok 0 l -> has p PROT_WRITE && has p PROT_EXEC = false ->
  let g v := if touched addr e v then with_prot v p else v in same_range g /\ areas_ok 0 (g <$> l).
Proof.
  intros Hl Ewx g. assert (same_range g) as Hg by (intros v; unfold g; by destruct (touched _ _ _)). split; [done |].
  apply areas_fmap; [done | | done]. intros v _ (? & ? & ? & ? & ?). unfold g. by destruct (touched _ _ _).
Qed.

Lemma view_reprot addr e p l q :
  areas_ok 0 l -> uncrossed addr l -> uncrossed e l -> addr <= e -> has p PROT_WRITE && has p PROT_EXEC = false ->
  view ((fun v => if touched addr e v then with_prot v p else v) <$> l) q =
  if (addr <=? q) && (q <? e) then (fun '(_, fl, o, i) => (p, fl, o, i)) <$> view l q else view l q.
Proof.
  intros Hl Ua Ue Hle Ewx. destruct (reprot_areas addr e p l Hl Ewx) as [Hg Hl2]. set (g := fun v => if touched addr e v then with_prot v p else v) in *.
  rewrite (view_fmap g), view_holder by done. destruct (holder l q) as [v |] eqn:Eh; [| by destruct ((addr <=? q) && (q <? e))].
  apply (holder_Some 0) in Eh as [Hv Pv]; [| done]. assert (dying (g v) = dying v) as -> by (unfold g; by destruct (touched _ _ _)).
  destruct (dying v) eqn:Hd; [by destruct ((addr <=? q) && (q <? e)) |]. pose proof (touched_inside addr e _ v q Ua Ue Hle Hv Pv Hd) as Ht.
  unfold g. destruct (touched addr e v), ((addr <=? q) && (q <? e)) eqn:Ei; b2p; try done; exfalso.
  - destruct (proj1 Ht eq_refl). apply andb_false_iff in Ei as [?%Z.leb_gt | ?%Z.ltb_ge]; lia.
  - by assert (false = true) by (apply Ht; lia).
Qed.

(** The mapping found in the range afterwards is a touched one. *)
Lemma find_reprot addr e p l q v :
  areas_ok 0 l -> uncrossed addr l -> uncrossed e l -> addr <= e -> has p PROT_WRITE && has p PROT_EXEC = false -> addr <= q < e ->
  vma_find q ((fun v => if touched addr e v then with_prot v p else v) <$> l) = Some v ->
  exists w, v = with_prot w p /\ w ∈ l /\ inside w q /\ touched addr e w = true.
Proof.
  intros Hl Ua Ue Hle Ewx Hq Hf. destruct (reprot_areas addr e p l Hl Ewx) as [Hg Hl2].
  rewrite (vma_find_holder 0), holder_fmap in Hf by done. destruct (holder l q) as [w |] eqn:Eh; [| done].
  apply (holder_Some 0) in Eh as [Hw Pw]; [| done]. cbn [fmap option_fmap option_map] in Hf.
  destruct (dying w) eqn:Hd; [destruct (touched addr e w); unfold dying in *; cbn in Hf; by rewrite Hd in Hf |].
  pose proof (proj2 (touched_inside addr e l w q Ua Ue Hle Hw Pw Hd) Hq) as Ht. rewrite Ht in Hf.
  unfold dying in *. cbn in Hf. rewrite Hd in Hf. simplify_eq. by exists w.
Qed.

(** Protections that [mprotect] refuses: unknown bits, or both writable and
    executable. *)
Definition bad_prot (p : Z) : bool :=
  negb (Z.land p (!32 (Z.lnot (Z.lor (Z.lor PROT_READ PROT_WRITE) PROT_EXEC))) =? 0) || (has p PROT_WRITE && has p PROT_EXEC).

Lemma mprotect_malformed addr len p (s : vst) :
  0 <= addr < 2 ^ 64 -> malformed addr len \/ bad_prot p = true -> vma_mprotect alone addr len p s = (- Errno.EMBK_EINVAL, s).
Proof.
  intros Ha Hm. unfold vma_mprotect. destruct (Z.eqb_spec len 0); [done |]. destruct (unaligned addr) eqn:Eu; [done |]. cbn [orb].
  destruct (range_end addr len Ha) as [-> _]. destruct (Z.leb_spec (2 ^ 64) (addr + page_align_up len)); [done |].
  destruct Hm as [[? | [? | ?]] | Hb]; [done | congruence | lia |]. unfold bad_prot in Hb.
  destruct (negb _); [done |]. cbn [orb] in Hb. by rewrite Hb.
Qed.

(** Past the checks of its arguments. *)
Lemma mprotect_run addr len p (s : vst) :
  0 <= addr < 2 ^ 64 -> ~ malformed addr len -> bad_prot p = false ->
  let e := addr + page_align_up len in
  vma_mprotect alone addr len p s =
  match cover (vmas s) e p addr (mem s) with
  | inr err => (err, s)
  | inl covered =>
      if covered <? e then (- Errno.EMBK_ENOMEM, s)
      else let '(ok, s1) := split_both addr e s in
           if negb ok then (- Errno.EMBK_ENOMEM, s1)
           else (Errno.EMBK_OK,
                 set_list (set_mem s1 (fold_left (protect_pages p) (filter (fun v => touched addr e v = true) (vmas s1)) (mem s1)))
                   ((fun v => if touched addr e v then with_prot v p else v) <$> vmas s1))
  end.
Proof.
  intros Ha Hm Hb e. destruct (well_formed addr len Ha Hm) as (E0 & Eu & Ew & _). fold e in Eu, Ew. unfold bad_prot in Hb.
  apply orb_false_iff in Hb as [B1 B2]. unfold vma_mprotect. cbv zeta. fold e. by rewrite E0, Eu, Ew, B1, B2.
Qed.

(** What [mprotect] does to the list. *)
Lemma mprotect_view addr len p (s : vst) :
  areas_ok 0 (vmas s) -> 0 <= addr < 2 ^ 64 -> ~ malformed addr len -> bad_prot p = false ->
  let e := addr + page_align_up len in
  let '(rc, s') := vma_mprotect alone addr len p s in
  (rc = Errno.EMBK_OK /\ full_range (vmas s) addr e
    /\ (forall q v, addr <= q < e -> vma_find q (vmas s) = Some v -> refusal p v (mem s) = 0)
    /\ forall q, view (vmas s') q = if (addr <=? q) && (q <? e) then (fun '(_, fl, o, i) => (p, fl, o, i)) <$> view (vmas s) q
                                   else view (vmas s) q)
  \/ (rc = - Errno.EMBK_ENOMEM /\ same_view (vmas s) (vmas s') /\ (~ full_range (vmas s) addr e \/ split_fails addr e s))
  \/ (rc <> 0 /\ s' = s /\ exists q v, addr <= q < e /\ vma_find q (vmas s) = Some v /\ refusal p v (mem s) = rc).
Proof.
  intros Hl Ha Hm Hb e. destruct (well_formed addr len Ha Hm) as (_ & _ & _ & Hle & Aa & Ae). fold e in Hle, Ae.
  rewrite (mprotect_run addr len p s Ha Hm Hb). fold e. pose proof (cover_refusal (vmas s) e p addr (mem s) 0 Hl) as Hr.
  assert (forall v q, v ∈ vmas s -> inside v q -> dying v = false -> vma_find q (vmas s) = Some v) as Hfind.
  { intros v q Hv Pv Hd. by rewrite (vma_find_holder 0), (proj2 (holder_Some 0 _ q v Hl) (conj Hv Pv)), Hd by done. }
  destruct (cover _ _ _ _ _) as [c | err] eqn:Ec.
  2: { right; right. destruct Hr as (Hn & v & q & Hv & Hq & Pv & Hd & Er). split_and!; [done | done |]. exists q, v. auto. }
  destruct (cover_spec _ _ _ _ _ _ _ Hl Ec) as (Hc0 & Hm1 & Hm2). destruct (Z.ltb_spec c e) as [Hce | Hce].
  { right; left. split_and!; [done | done |]. left. intros Hfull. apply (Hfull c ltac:(lia)). rewrite view_holder by done.
    destruct (holder (vmas s) c) as [v |] eqn:Eh; [| done]. apply (holder_Some 0) in Eh as [Hv Pv]; [| done]. by rewrite (Hm2 Hce v Hv Pv). }
  pose proof (split_both_view addr e s Hl Aa Ae) as Hs. pose proof (split_both_fails addr e s) as Hf. destruct (split_both addr e s) as [ok s1].
  destruct Hs as (Hl1 & Hv1 & Hu). destruct ok; cbn [negb]; [| right; left; split_and!; [done | done | right; by apply Hf]].
  destruct (Hu eq_refl) as [Ua Ue]. left. split_and!; [done | | |].
  - intros q Hq. destruct (Hm1 q ltac:(lia)) as (v & Hv & Pv & Hd). unfold view. by rewrite (Hfind v q).
  - intros q v Hq Hv. pose proof (vma_find_spec 0 (vmas s) q Hl) as Hsp. rewrite Hv in Hsp. destruct Hsp as (Hin & Pv & _). apply (Hr v q); [done | lia | done].
  - intros q. rewrite <- Hv1. apply view_reprot; [done .. |]. unfold bad_prot in Hb. by apply orb_false_iff in Hb as [_ ?].
Qed.

(** ** mmap *)

Lemma install_view a n p f o off (s : vst) :
  areas_ok 0 (vmas s) -> 0 <= a -> 0 < n -> a + n < 2 ^ 64 -> a mod PAGE_SIZE = 0 -> n mod PAGE_SIZE = 0 ->
  has p PROT_WRITE && has p PROT_EXEC = false -> has f VMA_DYING = false -> range_is_free (vmas s) a (a + n) = true ->
  let '(rc, s') := install_locked a n p f o off s in
  (rc = - Errno.EMBK_ENOMEM /\ vmas s' = vmas s)
  \/ (rc = 0 /\ areas_ok 0 (vmas s')
      /\ forall q, view (vmas s') q =
           if (a <=? q) && (q <? a + n) then Some (p, f, o, !64 (off + (q - a)) / PAGE_SIZE) else view (vmas s) q).
Proof.
  intros Hl Ha Hn He Aa An Hwx Hd Hf. unfold install_locked, call_mem. destruct (node_alloc (mem s)) as [node m].
  destruct (node =? 0); [by left |]. right. split; [done |]. rewrite (u64_small (a + n)) by lia. cbn [vmas set_list set_mem].
  assert (areas_ok 0 (vma_insert (mkVma a (a + n) p f o off) (vmas s))) as Hl'.
  { apply insert_areas; [done | | done |].
    - split_and!; cbn; [lia | done | by apply aligned_add | done | done].
    - intros v Hv. rewrite range_is_free_spec in Hf. by apply Hf. }
  split; [done |]. intros q. by apply view_insert.
Qed.

Definition fits_at (l : list vm_area) (n b : Z) : Prop :=
  mmap_base lay <= b /\ b + n <= mmap_max lay /\ range_is_free l b (b + n) = true.

(** C12. An anonymous [mmap] alone on an address space either returns the lowest
    free range of the requested size between the limits of the layout and maps
    exactly those pages, from page 0 of one object on, with the requested
    protection and flags; or reports an error and leaves the list as it was. *)
Theorem vma_mmap_exact len p f (s : vst) :
  layout_ok lay -> areas_ok 0 (vmas s) ->
  let n := page_align_up len in
  let '(rc, s') := vma_mmap lay alone 0 len p f s in
  (rc < 0 /\ vmas s' = vmas s)
  \/ (0 < rc /\ areas_ok 0 (vmas s') /\ rc mod PAGE_SIZE = 0
      /\ fits_at (vmas s) n rc /\ (forall b, fits_at (vmas s) n b -> rc <= b)
      /\ exists o, forall q, view (vmas s') q =
           if (rc <=? q) && (q <? rc + n) then Some (p, f, Some o, (q - rc) / PAGE_SIZE) else view (vmas s) q).
Proof.
  intros Hlay Hl n. unfold vma_mmap. destruct (_ || _); [by left |]. destruct (has f MAP_SHARED); [by left |].
  unfold vma_map_common. destruct (len =? 0); [by left |]. cbv zeta. fold n.
  destruct (page_align_up_spec len) as (Hb & An & _). cbv zeta in *. fold n in Hb, An.
  destruct ((n =? 0) || _) eqn:E1; [by left |]. destruct (Bool.eqb _ _); [by left |].
  destruct (has p PROT_WRITE && _) eqn:Ewx; [by left |]. destruct (has f VMA_DYING) eqn:Ed; [by left |].
  destruct (Hlay) as (L1 & L2 & L3 & L4). rewrite (u64_small (_ - _)) in E1 by lia. apply orb_false_iff in E1 as [Hn0 Hn1]. b2p.
  cbn [map_attempts]. unfold choose_start. destruct (has f MAP_FIXED).
  { change (unaligned 0) with false. cbv iota. destruct (Z.ltb_spec 0 (mmap_base lay)); [| lia]. by left. }
  destruct (find_gap_spec lay (vmas s) n Hlay Hl ltac:(lia) An) as [Hg Hmin]. cbv zeta in Hg, Hmin.
  set (a := find_gap lay (vmas s) n) in *. destruct (Z.eqb_spec a 0) as [_ | Hne]; [by left |].
  destruct (Hg Hne) as (Ga & Gb & Gc & Gd). unfold anon_object_for, call_mem.
  destruct (vmo_create_anon n (mem s)) as [[o |] m]; [| by left]. unfold alone, place_anon. cbn [vmas set_mem on_mem].
  rewrite (u64_small (a + n)) by lia. rewrite Gd. set (s1 := on_mem _ _).
  pose proof (install_view a n p f (Some o) 0 s1 Hl ltac:(lia) ltac:(lia) ltac:(lia) Gc An Ewx Ed Gd) as Hi.
  destruct (install_locked a n p f (Some o) 0 s1) as [rc s2]. destruct Hi as [[-> E2] | (-> & Hl2 & Hv)]; cbn [negb Z.eqb]; [left; by split |].
  right. split_and!; [lia | done | done | done | intros b (B1 & B2 & B3); by apply Hmin | exists o].
  intros q. rewrite Hv. destruct ((a <=? q) && (q <? a + n)) eqn:Eq; [| done]. b2p. by rewrite (u64_small (0 + (q - a))), Z.add_0_l by lia.
Qed.
End View.

(** ** A small machine *)

(** An executable layer below, for evaluating examples: page tables, reference
    counts and object places as functions.  Object [o] keeps its page [i] in
    frame [(o * 256 + i + 1) * 4096]; copies come from a bump allocator far
    above. *)
Module Toy.
Record toy := mkToy {
  t_pte : Z -> option (Z * Z);
  t_refs : Z -> Z;
  t_anon : Z -> bool;
  t_mapper : Z -> Z;
  t_next : Z;
  t_frame : Z;
}.

Definition upd {A} (f : Z -> A) (k : Z) (a : A) : Z -> A := fun x => if x =? k then a else f x.
Definition set_pte (m : toy) (f : Z -> option (Z * Z)) : toy := mkToy f (t_refs m) (t_anon m) (t_mapper m) (t_next m) (t_frame m).
Definition set_refs (m : toy) (f : Z -> Z) : toy := mkToy (t_pte m) f (t_anon m) (t_mapper m) (t_next m) (t_frame m).
Definition frame_of (o i : Z) : Z := (o * 256 + i + 1) * PAGE_SIZE.

Definition create (len : Z) (m : toy) : option Z * toy :=
  let o := t_next m in
  if t_refs m o =? 0
  then (Some o, mkToy (t_pte m) (upd (t_refs m) o 1) (upd (t_anon m) o true) (t_mapper m) (o + 1) (t_frame m))
  else (None, m).

Definition in_pages (base i n p : Z) : bool :=
  let d := p - base in (d mod PAGE_SIZE =? 0) && (i <=? d / PAGE_SIZE) && (d / PAGE_SIZE <? i + n).

#[global] Instance toy_env : VmEnv toy := {|
  node_alloc m := (1, m);
  vmo_create_anon := create;
  vmo_set_mapper o a m := mkToy (t_pte m) (t_refs m) (t_anon m) (upd (t_mapper m) o a) (t_next m) (t_frame m);
  vmo_anon o m := t_anon m o;
  vmo_ref o m := set_refs m (upd (t_refs m) o (t_refs m o + 1));
  vmo_put o m := set_refs m (upd (t_refs m) o (t_refs m o - 1));
  vmo_check_write o m := 0;
  vmo_page_phys o i m := frame_of o i;
  vmo_wire_page o i m := (frame_of o i, m);
  vmo_unwire_page o i m := m;
  vmo_mark_dirty o i m := m;
  vmo_discard_range o i n m := set_pte m (fun p => if in_pages (t_mapper m o) i n p then None else t_pte m p);
  vmo_detach_mapper o m := m;
  vmm_get_phys p m := match t_pte m p with Some (f, _) => if f =? 0 then 1 else f | None => 0 end;
  vmm_map p f fl m := (0, set_pte m (upd (t_pte m) p (Some (f, fl))));
  vmm_protect p fl m :=
    match t_pte m p with Some (f, _) => (0, set_pte m (upd (t_pte m) p (Some (f, fl)))) | None => (- Errno.EMBK_ENOENT, m) end;
  vmm_unmap p m := set_pte m (upd (t_pte m) p None);
  frame_alloc m := (t_frame m, mkToy (t_pte m) (t_refs m) (t_anon m) (t_mapper m) (t_next m) (t_frame m + PAGE_SIZE));
  frame_free f m := m;
  copy_page a b m := m;
|}.

Definition lay : user_layout := mkLayout 0x100000 0x200000 0x400000 0x500000.

(** Object 5 is a file's; one shared writable mapping of three of its pages. *)
Definition file_area : vm_area := mkVma 0x100000 0x103000 (Z.lor PROT_READ PROT_WRITE) MAP_SHARED (Some 5) 0.
Definition machine : vst :=
  mkVst [file_area] (mkToy (fun _ => None) (upd (fun _ => 0) 5 2) (fun _ => false) (fun _ => 0) 6 0x40000000) 0 0 0.

Lemma machine_areas : areas_ok 0 (vmas machine).
Proof. by vm_compute; repeat split. Qed.
End Toy.

Lemma vma_mmap_exact_witness :
  let '(rc, s') := vma_mmap Toy.lay alone 0 0x1800 PROT_READ (Z.lor MAP_PRIVATE MAP_ANONYMOUS) Toy.machine in
  rc = 0x103000 /\ areas_ok 0 (vmas s').
Proof.
  pose proof (vma_mmap_exact Toy.lay 0x1800 PROT_READ (Z.lor MAP_PRIVATE MAP_ANONYMOUS) Toy.machine
    ltac:(by vm_compute) Toy.machine_areas) as Hw.
  assert (fst (vma_mmap Toy.lay alone 0 0x1800 PROT_READ (Z.lor MAP_PRIVATE MAP_ANONYMOUS) Toy.machine) = 0x103000) as E by (by vm_compute).
  destruct (vma_mmap _ _ _ _ _ _ _) as [rc s']. cbn in E. split; [done |]. destruct Hw as [[Hn _] | (_ & Ha & _)]; [lia | exact Ha].
Defined.
