(* ===== verification/VmaSafety.v ===== *)
(** * Memory mappings: rights, references and races

    Whatever the threads of a process do, in any interleaving of the locked
    sections: the list stays sorted and disjoint, no page is mapped with a
    right its mapping does not grant, nothing is writable and executable, and
    no page object is freed while a mapping still holds it. *)

From S2P Require Import Prelude Pmm Vma VmaList VmaView.

(** ** What the layers below promise *)

(** The page table, the reference counts and the address at which an anonymous
    object is mapped, as functions of the state below. *)
Class VmGhost (M : Type) := {
  pte : M -> Z -> option (Z * Z);
  refs : M -> Z -> Z;
  mapper : M -> Z -> Z;
}.

Definition none : Z -> Z := fun _ => 0.
Definition one (o : Z) : Z -> Z := fun x => if x =? o then 1 else 0.

(** A call that changes the reference counts by [d] and may take pages away:
    it maps nothing, and an object that stays referenced keeps its kind and its
    place. *)
Record mstep {M} `{VmEnv M, VmGhost M} (d : Z -> Z) (m m' : M) : Prop := {
  ms_pte p : pte m' p = pte m p \/ pte m' p = None;
  ms_refs o : refs m' o = refs m o + d o;
  ms_stable o : 0 < refs m o -> 0 < refs m' o -> vmo_anon o m' = vmo_anon o m /\ mapper m' o = mapper m o;
}.

(** Pages are only taken away. *)
Definition thinned {M} `{VmGhost M} (m m' : M) : Prop := forall p, pte m' p = pte m p \/ pte m' p = None.

Lemma thinned_trans {M} `{VmGhost M} (a b c : M) : thinned a b -> thinned b c -> thinned a c.
Proof. intros H1 H2 p. destruct (H2 p) as [-> | ->]; [apply H1 | by right]. Qed.

(** A call that changes the page table at one page only. *)
Record pstep {M} `{VmEnv M, VmGhost M} (page : Z) (m m' : M) : Prop := {
  ps_pte p : p <> page -> pte m' p = pte m p;
  ps_refs o : refs m' o = refs m o;
  ps_stable o : vmo_anon o m' = vmo_anon o m /\ mapper m' o = mapper m o;
}.

Class VmLaws (M : Type) `{VmEnv M, VmGhost M} := {
  node_alloc_law m : mstep none m (snd (node_alloc m));
  wire_law o i m : mstep none m (snd (vmo_wire_page o i m));
  unwire_law o i m : mstep none m (vmo_unwire_page o i m);
  check_write_law o m : vmo_check_write o m <= 0;
  dirty_law o i m : mstep none m (vmo_mark_dirty o i m);
  frame_alloc_law m : mstep none m (snd (frame_alloc m));
  frame_free_law f m : mstep none m (frame_free f m);
  copy_law a b m : mstep none m (copy_page a b m);
  discard_law o i n m : mstep none m (vmo_discard_range o i n m);
  discard_clears o i n m k : vmo_anon o m = true -> 0 < refs m o -> i <= k < i + n ->
    pte (vmo_discard_range o i n m) (mapper m o + k * PAGE_SIZE) = None;
  detach_law o m : mstep none m (vmo_detach_mapper o m);
  ref_law o m : 0 < refs m o -> mstep (one o) m (vmo_ref o m);
  put_law o m : 0 < refs m o -> mstep (fun x => - one o x) m (vmo_put o m);
  create_law len m : match vmo_create_anon len m with
                     | (Some o, m') => refs m o = 0 /\ mstep (one o) m m' /\ vmo_anon o m' = true
                     | (None, m') => mstep none m m'
                     end;
  set_mapper_law o a m : let m' := vmo_set_mapper o a m in
    (forall p, pte m' p = pte m p) /\ (forall x, refs m' x = refs m x) /\ (forall x, vmo_anon x m' = vmo_anon x m)
    /\ mapper m' o = a /\ forall x, x <> o -> mapper m' x = mapper m x;
  get_phys_law p m : vmm_get_phys p m = 0 <-> pte m p = None;
  map_law page f fl m : let '(rc, m') := vmm_map page f fl m in
    pstep page m m' /\ pte m' page = if rc =? 0 then Some (f, fl) else pte m page;
  protect_law page fl m : let '(rc, m') := vmm_protect page fl m in
    pstep page m m' /\ pte m' page = match pte m page with Some (f, _) => Some (f, fl) | None => None end;
  unmap_law page m : pstep page m (vmm_unmap page m) /\ pte (vmm_unmap page m) page = None;
}.

Lemma mstep_trans {M} `{VmEnv M, VmGhost M} d1 d2 (a b c : M) :
  mstep d1 a b -> mstep d2 b c -> (forall o, 0 < refs a o -> 0 < refs c o -> 0 < refs b o) ->
  mstep (fun o => d1 o + d2 o) a c.
Proof.
  intros [p1 r1 s1] [p2 r2 s2] Hmid. split.
  - intros p. destruct (p2 p) as [-> | ->]; [apply p1 | by right].
  - intros o. rewrite r2, r1. lia.
  - intros o Ha Hc. pose proof (Hmid o Ha Hc) as Hb. destruct (s1 o Ha Hb) as [E1 E2]. destruct (s2 o Hb Hc) as [E3 E4].
    by rewrite E3, E4.
Qed.

Lemma mstep_none_trans {M} `{VmEnv M, VmGhost M} (a b c : M) : mstep none a b -> mstep none b c -> mstep none a c.
Proof.
  intros Hab Hbc. pose proof (ms_refs _ _ _ Hab) as Hr. unfold none in Hr.
  apply (mstep_trans none none a b c); [done | done |]. intros o Ho _. rewrite Hr. lia.
Qed.

Lemma mstep_refl {M} `{VmEnv M, VmGhost M} (m : M) : mstep none m m.
Proof. split; [auto | intros o; unfold none; lia | done]. Qed.

Lemma unmap_step {M} `{VmLaws M} page m : mstep none m (vmm_unmap page m).
Proof.
  destruct (unmap_law page m) as [[p r s] Hn]. split.
  - intros p'. destruct (decide (p' = page)) as [-> | Hne]; [by right | left; by apply p].
  - intros o. rewrite r. unfold none. lia.
  - intros o _ _. apply s.
Qed.

(** ** Rights *)

(** The flags of a page-table entry grant no more than a protection. *)
Definition rights (fl p : Z) : Prop :=
  (has fl VMM_WRITABLE = true -> has p PROT_WRITE = true)
  /\ (has fl VMM_EXEC = true -> has p PROT_EXEC = true)
  /\ (has fl VMM_USER = true -> p <> PROT_NONE).

Lemma bits_of_prot p :
  has (prot_to_vmm p) VMM_WRITABLE = has p PROT_WRITE
  /\ has (prot_to_vmm p) VMM_EXEC = has p PROT_EXEC
  /\ has (prot_to_vmm p) VMM_USER = negb (p =? PROT_NONE).
Proof.
  unfold prot_to_vmm. destruct (p =? PROT_NONE), (has p PROT_WRITE), (has p PROT_EXEC); by vm_compute.
Qed.

Lemma prot_rights p : rights (prot_to_vmm p) p.
Proof.
  destruct (bits_of_prot p) as (E1 & E2 & E3). unfold rights. rewrite E1, E2, E3.
  split; [done |]. split; [done |]. intros Hn. b2p. done.
Qed.

(** Taking the write bit away, from the flags or from the protection. *)
Lemma rights_readonly fl p : rights fl p -> rights (Z.land fl (!64 (Z.lnot VMM_WRITABLE))) p.
Proof.
  intros (H1 & H2 & H3). unfold rights in *. change VMM_WRITABLE with (2 ^ 1) in *. change VMM_USER with (2 ^ 2) in *.
  unfold VMM_EXEC in *. rewrite !has_bit in * by done. rewrite !Z.land_spec. split_and!.
  - change (Z.testbit (!64 (Z.lnot (2 ^ 1))) 1) with false. rewrite andb_false_r. done.
  - intros [? _]%andb_true_iff. auto.
  - intros [? _]%andb_true_iff. auto.
Qed.

Lemma prot_readonly p : rights (prot_to_vmm (Z.land p (!32 (Z.lnot PROT_WRITE)))) p.
Proof.
  destruct (bits_of_prot (Z.land p (!32 (Z.lnot PROT_WRITE)))) as (E1 & E2 & E3). unfold rights. rewrite E1, E2, E3.
  change PROT_WRITE with (2 ^ 1). change PROT_EXEC with (2 ^ 2). rewrite !has_bit, !Z.land_spec by done. split_and!.
  - intros [? _]%andb_true_iff. done.
  - intros [? _]%andb_true_iff. done.
  - intros Hn%negb_true_iff%Z.eqb_neq ->. apply Hn. by vm_compute.
Qed.

(** ** The invariant *)

(** How many mappings hold an object. *)
Definition count (o : Z) (l : list vm_area) : Z :=
  Z.of_nat (length (filter (fun v => obj v = Some o) l)).

Lemma count_nonneg o l : 0 <= count o l.
Proof. unfold count. lia. Qed.

Lemma count_app o l1 l2 : count o (l1 ++ l2) = count o l1 + count o l2.
Proof. unfold count. rewrite filter_app, length_app. lia. Qed.

Lemma count_cons o v l : count o (v :: l) = (if decide (obj v = Some o) then 1 else 0) + count o l.
Proof. unfold count. rewrite filter_cons. destruct (decide _); simpl; lia. Qed.

Lemma count_perm o l1 l2 : l1 ≡ₚ l2 -> count o l1 = count o l2.
Proof. intros Hp. unfold count. by rewrite Hp. Qed.

Lemma count_elem o l v : v ∈ l -> obj v = Some o -> 1 <= count o l.
Proof.
  intros (l1 & l2 & ->)%list_elem_of_split Ho. rewrite count_app, count_cons.
  destruct (decide _); [| done]. pose proof (count_nonneg o l1). pose proof (count_nonneg o l2). lia.
Qed.

Lemma count_fmap o (f : vm_area -> vm_area) l : (forall v, obj (f v) = obj v) -> count o (f <$> l) = count o l.
Proof.
  intros Hf. induction l as [| v l IH]; [done |]. rewrite fmap_cons, !count_cons, IH. by rewrite Hf.
Qed.

Lemma insert_perm nv l : vma_insert nv l ≡ₚ nv :: l.
Proof.
  induction l as [| v l IH]; simpl; [done |]. destruct (_ <? _); [| done]. rewrite IH. constructor.
Qed.

Lemma rev_reverse {A} (l : list A) : rev l = reverse l.
Proof. apply rev_alt. Qed.

Section Safety.
Context {M : Type} `{VmLaws M} (lay : user_layout).

(** The addresses only mappings put pages at. *)
Variable managed : Z -> Prop.

(** What may be left over when the references held by mappings and by the
    operation itself are subtracted: other holders, or nothing. *)
Variable slack : Z -> Prop.
Hypothesis slack_nonneg : forall d, slack d -> 0 <= d.

Hypothesis lay_ok : layout_ok lay.
Hypothesis managed_mmap : forall p, mmap_base lay <= p < mmap_max lay -> managed p.
Hypothesis heap_ok : 0 <= heap_base lay /\ heap_max lay < 2 ^ 64.
Hypothesis managed_heap : forall p, heap_base lay <= p < heap_max lay -> managed p.

Abbreviation vst := (@vst M).

(** [own o] are the references to [o] held outside the list that the caller
    answers for. *)
Record vinv (own : Z -> Z) (s : vst) : Prop := {
  vi_own o : 0 <= own o;
  vi_areas : areas_ok 0 (vmas s);
  vi_managed v p : v ∈ vmas s -> inside v p -> managed p;
  vi_rights p f fl : managed p -> p mod PAGE_SIZE = 0 -> pte (mem s) p = Some (f, fl) ->
    exists v, v ∈ vmas s /\ inside v p /\ rights fl (prot v);
  vi_refs o : slack (refs (mem s) o - count o (vmas s) - own o);
  vi_mapper v o : v ∈ vmas s -> obj v = Some o -> vmo_anon o (mem s) = true ->
    mapper (mem s) o = start v - file_off v /\ file_off v mod PAGE_SIZE = 0 /\ 0 <= file_off v <= start v;
  vi_obj v : v ∈ vmas s -> obj v <> None;
}.

(** What an operation leaves alone: the mappings [D] another thread is taking
    down, whose pages can only go away, and the objects the caller holds. *)
Record keeps (own : Z -> Z) (D : vm_area -> Prop) (s s' : vst) : Prop := {
  kp_dying v : D v -> v ∈ vmas s -> v ∈ vmas s';
  kp_pte v p : D v -> v ∈ vmas s -> inside v p -> pte (mem s') p = pte (mem s) p \/ pte (mem s') p = None;
  kp_obj o : 0 < own o -> vmo_anon o (mem s') = vmo_anon o (mem s) /\ mapper (mem s') o = mapper (mem s) o;
}.

Definition is_dying (v : vm_area) : Prop := dying v = true.

(** Any interleaving of the other threads. *)
Definition rely (other : vst -> vst) : Prop :=
  forall own s, vinv own s -> vinv own (other s) /\ keeps own is_dying s (other s).

Lemma keeps_refl own D s : keeps own D s s.
Proof. split; auto. Qed.

Lemma keeps_trans own D a b c : keeps own D a b -> keeps own D b c -> keeps own D a c.
Proof.
  intros [d1 p1 o1] [d2 p2 o2]. split.
  - auto.
  - intros v p Hd Hv Hp. destruct (p2 v p Hd (d1 v Hd Hv) Hp) as [-> | ->]; [by apply (p1 v) | by right].
  - intros o Ho. destruct (o1 o Ho) as [<- <-]. by apply o2.
Qed.

Lemma keeps_mono own own' (D D' : vm_area -> Prop) a b :
  keeps own D a b -> (forall o, own' o <= own o) -> (forall v, D' v -> D v) -> keeps own' D' a b.
Proof. intros [d p k] Hle Hd. split; [auto | eauto |]. intros o Ho. apply k. specialize (Hle o). lia. Qed.

(** A referenced object has a positive count. *)
Lemma refs_pos own s o : vinv own s -> 0 < own o \/ (exists v, v ∈ vmas s /\ obj v = Some o) -> 0 < refs (mem s) o.
Proof.
  intros I Hor. pose proof (slack_nonneg _ (vi_refs _ _ I o)). pose proof (vi_own _ _ I o). pose proof (count_nonneg o (vmas s)).
  destruct Hor as [? | (v & Hv & Ho)]; [lia |]. pose proof (count_elem o (vmas s) v Hv Ho). lia.
Qed.

Lemma vinv_ext own own' s : vinv own s -> (forall o, own' o = own o) -> vinv own' s.
Proof.
  intros I He. split; try apply I; intros o; rewrite He; apply I.
Qed.

(** A call below that changes the references the operation owns by [d]. *)
Lemma vinv_mem own own' d s m' :
  vinv own s -> mstep d (mem s) m' -> (forall o, own' o = own o + d o) -> (forall o, 0 <= own' o) ->
  vinv own' (set_mem s m').
Proof.
  intros I [Hp Hr Hs] Ho Hn.
  assert (forall v o, v ∈ vmas s -> obj v = Some o -> vmo_anon o m' = vmo_anon o (mem s) /\ mapper m' o = mapper (mem s) o) as Hst.
  { intros v o Hv Hobj. pose proof (refs_pos own s o I ltac:(right; eauto)) as Hr0. apply Hs; [done |].
    pose proof (slack_nonneg _ (vi_refs _ _ I o)) as Hsl. pose proof (count_elem o (vmas s) v Hv Hobj).
    specialize (Hr o). specialize (Ho o). specialize (Hn o). lia. }
  split; cbn; try apply I; try done.
  - intros p f fl Hm Ha Hpte. apply (vi_rights _ _ I p f fl Hm Ha). destruct (Hp p); congruence.
  - intros o. rewrite Hr, Ho. replace (refs (mem s) o + d o - count o (vmas s) - (own o + d o))
      with (refs (mem s) o - count o (vmas s) - own o) by lia. apply I.
  - intros v o Hv Hobj Ha. destruct (Hst v o Hv Hobj) as [E1 E2]. rewrite E1 in Ha. rewrite E2. by apply (vi_mapper _ _ I).
Qed.

Lemma keeps_mem own D d s m' :
  vinv own s -> mstep d (mem s) m' -> (forall o, 0 < own o -> 0 < own o + d o) -> keeps own D s (set_mem s m').
Proof.
  intros I [Hp Hr Hs] Hpos. split; [done | by intros |]. intros o Ho. cbn. apply Hs.
  - apply (refs_pos own s o I). by left.
  - pose proof (slack_nonneg _ (vi_refs _ _ I o)). pose proof (count_nonneg o (vmas s)). specialize (Hr o). specialize (Hpos o Ho). lia.
Qed.

(** A call below that keeps every reference. *)
Lemma quiet own D s m' : vinv own s -> mstep none (mem s) m' -> vinv own (set_mem s m') /\ keeps own D s (set_mem s m').
Proof.
  intros I Hm. split.
  - apply (vinv_mem own own none s m'); [done | done | intros o; unfold none; lia | apply I].
  - apply (keeps_mem own D none s m'); [done | done |]; intros o; unfold none; lia.
Qed.

(** The counters of the fault statistics are not part of the invariant. *)
Lemma same own D s s' : vinv own s -> vmas s' = vmas s -> mem s' = mem s -> vinv own s' /\ keeps own D s s'.
Proof.
  intros I E1 E2. split.
  - destruct I. split; rewrite ?E1, ?E2; auto.
  - split; rewrite ?E1, ?E2; auto.
Qed.

(** Taking and giving back a reference of the operation's own. *)
Definition plus (own : Z -> Z) (o : Z) : Z -> Z := fun x => own x + one o x.

Lemma one_nonneg o x : 0 <= one o x.
Proof. unfold one. destruct (_ =? _); lia. Qed.

Lemma plus_ge own o x : own x <= plus own o x.
Proof. unfold plus. pose proof (one_nonneg o x). lia. Qed.

Lemma plus_pos own o : (forall x, 0 <= own x) -> 0 < plus own o o.
Proof. intros Hn. unfold plus, one. rewrite Z.eqb_refl. specialize (Hn o). lia. Qed.

Lemma take_ref own D s o :
  vinv own s -> 0 < refs (mem s) o ->
  vinv (plus own o) (on_mem (vmo_ref o) s) /\ keeps own D s (on_mem (vmo_ref o) s).
Proof.
  intros I Hr. pose proof (ref_law o (mem s) Hr) as L. split.
  - apply (vinv_mem own _ (one o)); [done | done | done |]. intros x. pose proof (plus_ge own o x). pose proof (vi_own _ _ I x). lia.
  - apply (keeps_mem own D (one o)); [done | done |]; intros x; pose proof (one_nonneg o x); lia.
Qed.

Lemma drop_ref own D s o :
  (forall x, 0 <= own x) -> vinv (plus own o) s ->
  vinv own (on_mem (vmo_put o) s) /\ keeps own D s (on_mem (vmo_put o) s).
Proof.
  intros Hn I. pose proof (plus_pos own o Hn) as Hpos.
  pose proof (put_law o (mem s) (refs_pos _ s o I (or_introl Hpos))) as L. split.
  - apply (vinv_mem (plus own o) _ (fun x => - one o x)); [done | done | | done]. intros x. unfold plus. lia.
  - split; [done | by intros; apply L |]. intros x Hx. cbn. apply L.
    + apply (refs_pos _ s x I). left. pose proof (plus_ge own o x). lia.
    + rewrite (ms_refs _ _ _ L). pose proof (slack_nonneg _ (vi_refs _ _ I x)). pose proof (count_nonneg x (vmas s)).
      unfold plus in *. lia.
Qed.

(** ** Steps of an operation *)

(** Where an operation that began at [s0], on behalf of a caller holding [own],
    stands: it holds [own'] itself. *)
Definition reach (own : Z -> Z) (D : vm_area -> Prop) (s0 : vst) (own' : Z -> Z) (s : vst) : Prop :=
  vinv own' s /\ keeps own D s0 s /\ (forall o, own o <= own' o) /\ (forall v, D v -> dying v = true).

Lemma reach_start own D s : vinv own s -> (forall v, D v -> dying v = true) -> reach own D s own s.
Proof. intros I Hd. split_and!; [done | apply keeps_refl | done | done]. Qed.

Lemma reach_next own D s0 own1 own2 s s' :
  reach own D s0 own1 s -> vinv own2 s' -> keeps own D s s' -> (forall o, own o <= own2 o) -> reach own D s0 own2 s'.
Proof. intros (I & K & Ho & Hd) I' K' Ho'. split_and!; [done | by apply (keeps_trans own D s0 s s') | done | done]. Qed.

Lemma reach_ref own D s0 own' s o :
  reach own D s0 own' s -> 0 < refs (mem s) o -> reach own D s0 (plus own' o) (on_mem (vmo_ref o) s).
Proof.
  intros R Hr. destruct (R) as (I & _ & Ho & _). destruct (take_ref own' D s o I Hr) as [I' K'].
  apply (reach_next own D s0 own' _ s); [done | done | by apply (keeps_mono own' _ D) |].
  intros x. pose proof (plus_ge own' o x). specialize (Ho x). lia.
Qed.

Lemma reach_drop own D s0 own' s o :
  reach own D s0 (plus own' o) s -> (forall x, own x <= own' x) -> (forall x, 0 <= own' x) ->
  reach own D s0 own' (on_mem (vmo_put o) s).
Proof.
  intros R Ho Hn. destruct (R) as (I & _ & _ & _). destruct (drop_ref own' D s o Hn I) as [I' K'].
  by apply (reach_next own D s0 (plus own' o) _ s); [| | apply (keeps_mono own' _ D) |].
Qed.

Lemma reach_quiet own D s0 own' s m' : reach own D s0 own' s -> mstep none (mem s) m' -> reach own D s0 own' (set_mem s m').
Proof.
  intros R Hm. destruct (R) as (I & _ & Ho & _). destruct (quiet own' D s m' I Hm) as [I' K'].
  by apply (reach_next own D s0 own' _ s); [| | apply (keeps_mono own' _ D) |].
Qed.

Lemma reach_same own D s0 own' s s' : reach own D s0 own' s -> vmas s' = vmas s -> mem s' = mem s -> reach own D s0 own' s'.
Proof.
  intros R E1 E2. destruct (R) as (I & _ & Ho & _). destruct (same own' D s s' I E1 E2) as [I' K'].
  by apply (reach_next own D s0 own' _ s); [| | apply (keeps_mono own' _ D) |].
Qed.

Lemma reach_other own D s0 own' other s : rely other -> reach own D s0 own' s -> reach own D s0 own' (other s).
Proof.
  intros Hr R. destruct (R) as (I & _ & Ho & Hd). destruct (Hr own' s I) as [I' K'].
  by apply (reach_next own D s0 own' _ s); [| | apply (keeps_mono own' _ is_dying) |].
Qed.

(** A page entered into, or changed in, the page table of a live mapping. *)
Lemma reach_page own D s0 own' s v page m' :
  reach own D s0 own' s -> v ∈ vmas s -> inside v page -> dying v = false -> pstep page (mem s) m' ->
  (forall f fl, pte m' page = Some (f, fl) -> pte (mem s) page = Some (f, fl) \/ rights fl (prot v)) ->
  reach own D s0 own' (set_mem s m').
Proof.
  intros R Hv Pv Hd [Pp Pr Ps] Hright. destruct (R) as (I & _ & Ho & HD).
  apply (reach_next own D s0 own' _ s); [done | | | done].
  - split; cbn; try apply I.
    + intros p f fl Hm Ha Hp. destruct (decide (p = page)) as [-> | Hne].
      * destruct (Hright _ _ Hp) as [Hold | Hnew]; [by apply (vi_rights _ _ I page f fl) | by exists v].
      * rewrite (Pp p Hne) in Hp. by apply (vi_rights _ _ I p f fl).
    + intros o. rewrite Pr. apply I.
    + intros w o Hw Hob Han. destruct (Ps o) as [E1 E2]. rewrite E1 in Han. rewrite E2. by apply (vi_mapper _ _ I).
  - split; cbn; [done | | by intros; apply Ps]. intros w p Dw Hw Pw. left. apply Pp. intros ->.
    rewrite (areas_disjoint 0 (vmas s) w v page (vi_areas _ _ I) Hw Hv Pw Pv) in Dw. apply HD in Dw. congruence.
Qed.

(** A mapping that is a piece of another, or that one with other rights. *)
Definition derived (w v : vm_area) : Prop :=
  obj w = obj v /\ start v <= start w
  /\ (0 <= file_off v <= start v -> start w < 2 ^ 64 -> file_off w = file_off v + (start w - start v)).

Lemma derived_refl v : derived v v.
Proof. split_and!; [done | done | lia]. Qed.

Lemma derived_mapper v w base :
  derived w v -> area_ok v -> area_ok w ->
  base = start v - file_off v /\ file_off v mod PAGE_SIZE = 0 /\ 0 <= file_off v <= start v ->
  base = start w - file_off w /\ file_off w mod PAGE_SIZE = 0 /\ 0 <= file_off w <= start w.
Proof.
  intros (_ & Hs & Hf) (_ & Av & _) (? & Aw & _ & ? & _) (-> & Am & Hr). rewrite (Hf Hr) by lia. split_and!; [lia | | lia | lia].
  rewrite (Z.div_mod (file_off v) PAGE_SIZE), (Z.div_mod (start v) PAGE_SIZE), (Z.div_mod (start w) PAGE_SIZE) by done.
  rewrite Am, Av, Aw. replace (_ + _) with ((file_off v / PAGE_SIZE + start w / PAGE_SIZE - start v / PAGE_SIZE) * PAGE_SIZE) by lia.
  by apply Z_mod_mult.
Qed.

(** The list changed, references moved between it and the operation. *)
Lemma reach_list own D s0 own1 own2 s l' :
  reach own D s0 own1 s -> areas_ok 0 l' ->
  (forall w p, w ∈ l' -> inside w p -> managed p) ->
  (forall w, w ∈ l' -> exists v, v ∈ vmas s /\ derived w v) ->
  (forall p f fl v, managed p -> p mod PAGE_SIZE = 0 -> pte (mem s) p = Some (f, fl) -> v ∈ vmas s -> inside v p ->
     rights fl (prot v) -> exists w, w ∈ l' /\ inside w p /\ rights fl (prot w)) ->
  (forall o, count o l' + own2 o = count o (vmas s) + own1 o) -> (forall o, 0 <= own2 o) -> (forall o, own o <= own2 o) ->
  (forall v, D v -> v ∈ vmas s -> v ∈ l') ->
  reach own D s0 own2 (set_list s l').
Proof.
  intros R Ha Hm Hd Hr Hc Hn Ho HD. destruct (R) as (I & _).
  apply (reach_next own D s0 own1 _ s); [done | | by split; auto | done]. split; cbn; try done.
  - intros p f fl Mp Ap Hp. destruct (vi_rights _ _ I p f fl Mp Ap Hp) as (v & Hv & Pv & Rv). by apply (Hr p f fl v).
  - intros o. replace (_ - _ - _) with (refs (mem s) o - count o (vmas s) - own1 o) by (specialize (Hc o); lia). apply I.
  - intros w o Hw Hob Han. destruct (Hd w Hw) as (v & Hv & Hdv). apply (derived_mapper v); [done | | |].
    + by apply (areas_ok_elem 0 _ _ (vi_areas _ _ I)).
    + by apply (areas_ok_elem 0 _ _ Ha).
    + apply (vi_mapper _ _ I); [done | | done]. destruct Hdv as [<- _]. done.
  - intros w Hw. destruct (Hd w Hw) as (v & Hv & [-> _]). by apply (vi_obj _ _ I).
Qed.

(** A mapping entered into a free range, with a reference of the operation's. *)
Lemma reach_insert own D s0 own' s nv o :
  reach own D s0 (plus own' o) s -> (forall x, 0 <= own' x) -> (forall x, own x <= own' x) ->
  obj nv = Some o -> area_ok nv -> 0 <= start nv -> range_is_free (vmas s) (start nv) (end_ nv) = true ->
  (forall p, inside nv p -> managed p) ->
  (vmo_anon o (mem s) = true ->
     mapper (mem s) o = start nv - file_off nv /\ file_off nv mod PAGE_SIZE = 0 /\ 0 <= file_off nv <= start nv) ->
  reach own D s0 own' (set_list s (vma_insert nv (vmas s))).
Proof.
  intros R Hn Ho Hob Hok Hlo Hfree Hm Hmap. destruct (R) as (I & _). rewrite range_is_free_spec in Hfree.
  apply (reach_next own D s0 (plus own' o) _ s); [done | | | done].
  2: split; cbn; [by intros; apply insert_elem; right | by left | done].
  split; cbn; [done | by apply insert_areas; [apply I | | |] | | | | |].
  - intros v p [-> | Hv]%insert_elem Hp; [auto | by apply (vi_managed _ _ I v)].
  - intros p f fl Mp Ap Hp. destruct (vi_rights _ _ I p f fl Mp Ap Hp) as (v & Hv & ?). exists v. by rewrite insert_elem; split; [right |].
  - intros x. rewrite (count_perm x _ _ (insert_perm nv (vmas s))), count_cons, Hob.
    replace (_ - _ - _) with (refs (mem s) x - count x (vmas s) - plus own' o x); [apply I |].
    unfold plus, one. destruct (Z.eqb_spec x o), (decide (Some o = Some x)); simplify_eq; lia.
  - intros v x [-> | Hv]%insert_elem Hx Ha; [| by apply (vi_mapper _ _ I)]. rewrite Hob in Hx. simplify_eq. auto.
  - intros v [-> | Hv]%insert_elem; [by rewrite Hob | by apply (vi_obj _ _ I)].
Qed.

(** ** Making mappings *)

(** Where the page object of a mapping believes it is. *)
Definition placed (o a off : Z) (m : M) : Prop :=
  vmo_anon o m = true -> mapper m o = a - off /\ off mod PAGE_SIZE = 0 /\ 0 <= off <= a.

Lemma placed_step o a off d m m' : mstep d m m' -> 0 < refs m o -> 0 < refs m' o -> placed o a off m -> placed o a off m'.
Proof. intros L R1 R2 Hp Ha. destruct (ms_stable _ _ _ L o R1 R2) as [E1 E2]. rewrite E2. apply Hp. congruence. Qed.

Lemma placed_other other own' s o a off :
  rely other -> vinv own' s -> 0 < own' o -> placed o a off (mem s) -> placed o a off (mem (other s)).
Proof. intros Hr I Ho Hp Ha. destruct (kp_obj _ _ _ _ (proj2 (Hr own' s I)) o Ho) as [E1 E2]. rewrite E2. apply Hp. congruence. Qed.

Lemma anon_object_ok own D s0 own' a len s :
  reach own D s0 own' s -> 0 <= a ->
  match anon_object_for a len s with
  | (Some o, s') => reach own D s0 (plus own' o) s' /\ placed o a 0 (mem s')
  | (None, s') => reach own D s0 own' s'
  end.
Proof.
  intros R Ha. unfold anon_object_for, call_mem. pose proof (create_law len (mem s)) as L.
  destruct (vmo_create_anon len (mem s)) as [[o |] m1]; [| by apply reach_quiet].
  destruct L as (Hz & L & Han). destruct (R) as (I & _ & Ho & _).
  pose proof (slack_nonneg _ (vi_refs _ _ I o)) as Hs. pose proof (count_nonneg o (vmas s)). pose proof (vi_own _ _ I o).
  assert (vinv (plus own' o) (set_mem s m1)) as I1.
  { apply (vinv_mem own' _ (one o)); [done | done | done |]. intros x. pose proof (plus_ge own' o x). pose proof (vi_own _ _ I x). lia. }
  destruct (set_mapper_law o a m1) as (E1 & E2 & E3 & E4 & E5). cbn in *.
  split; [| intros _; rewrite E4; cbn; split; [lia | split; [done | lia]]].
  apply (reach_next own D s0 own' _ s); [done | | |].
  - split; cbn; try apply I1.
    + intros p f fl. rewrite E1. apply I1.
    + intros x. rewrite E2. apply I1.
    + intros v x Hv Hx. rewrite E3. assert (x <> o) as Hne.
      { intros ->. pose proof (count_elem o (vmas s) v Hv Hx). lia. }
      rewrite (E5 x Hne). by apply (vi_mapper _ _ I1).
  - split; cbn; [done | intros; rewrite E1; apply L |]. intros x Hx. assert (x <> o) as Hne by (intros ->; specialize (Ho o); lia).
    rewrite E3, (E5 x Hne). apply L; [apply (refs_pos own' s x I); left; specialize (Ho x); lia |].
    rewrite (ms_refs _ _ _ L). pose proof (refs_pos own' s x I ltac:(left; specialize (Ho x); lia)). pose proof (one_nonneg o x). lia.
  - intros x. pose proof (plus_ge own' o x). specialize (Ho x). lia.
Qed.

(** The checks every path makes before it installs a mapping. *)
Record fits (a len p : Z) : Prop := {
  ft_len : 0 < len;
  ft_a : 0 <= a;
  ft_end : a + len < 2 ^ 64;
  ft_a_al : a mod PAGE_SIZE = 0;
  ft_len_al : len mod PAGE_SIZE = 0;
  ft_wx : has p PROT_WRITE && has p PROT_EXEC = false;
  ft_managed q : a <= q < a + len -> managed q;
}.

Lemma install_ok own D s0 own' a len p f o off s :
  reach own D s0 (plus own' o) s -> (forall x, 0 <= own' x) -> (forall x, own x <= own' x) ->
  fits a len p -> range_is_free (vmas s) a (a + len) = true -> placed o a off (mem s) ->
  let '(rc, s') := install_locked a len p f (Some o) off s in
  (rc = 0 /\ reach own D s0 own' s') \/ (rc = - Errno.EMBK_ENOMEM /\ reach own D s0 (plus own' o) s').
Proof.
  intros R Hn Ho F Hfree Hp. unfold install_locked, call_mem. pose proof (node_alloc_law (mem s)) as L.
  destruct (node_alloc (mem s)) as [node m1]. cbn in L. pose proof (reach_quiet _ _ _ _ _ _ R L) as R1.
  destruct (node =? 0); [by right |]. left. split; [done |]. destruct F as [F1 F2 F3 F4 F5 F6 F7].
  rewrite (u64_small (a + len)) by lia. apply (reach_insert own D s0 own' _ _ o); cbn; try done.
  - split_and!; [cbn; lia | done | by apply aligned_add | done | done].
  - destruct (R) as (I & _). destruct R1 as (I1 & _).
    apply (placed_step o a off none (mem s) m1); [done | | | done]; [apply (refs_pos _ _ _ I) | apply (refs_pos _ _ _ I1)]; left; by apply plus_pos.
Qed.

Lemma choose_start_ok addr len f (s : vst) :
  areas_ok 0 (vmas s) -> 0 < len < 2 ^ 63 -> len mod PAGE_SIZE = 0 -> 0 <= addr ->
  (has f MAP_FIXED = true -> addr + len < 2 ^ 64) ->
  match choose_start lay addr len f s with
  | inl a => mmap_base lay <= a /\ a + len <= mmap_max lay /\ a mod PAGE_SIZE = 0
             /\ range_is_free (vmas s) a (a + len) = true
  | inr e => e < 0
  end.
Proof.
  intros Hl Hlen Hal Ha Hfix. unfold choose_start. destruct (has f MAP_FIXED).
  - specialize (Hfix eq_refl). rewrite (u64_small (addr + len)) by lia. destruct (unaligned addr) eqn:Eu; [done |].
    apply unaligned_spec in Eu. destruct (_ || _) eqn:Eb; [done |]. destruct (range_is_free _ _ _) eqn:Ef; cbn; [| done]. b2p.
    split_and!; [lia | lia | done | done].
  - destruct (find_gap_spec lay (vmas s) len lay_ok Hl Hlen Hal) as [Hg _]. cbv zeta in Hg.
    destruct (Z.eqb_spec (find_gap lay (vmas s) len) 0) as [_ | Hne]; [done | auto].
Qed.

Lemma fits_mmap a len p :
  mmap_base lay <= a -> a + len <= mmap_max lay -> a mod PAGE_SIZE = 0 -> 0 < len -> len mod PAGE_SIZE = 0 ->
  has p PROT_WRITE && has p PROT_EXEC = false -> fits a len p.
Proof.
  intros. destruct lay_ok as (? & ? & ? & ?). split; try done; [lia | lia |]. intros q Hq. apply managed_mmap. lia.
Qed.

Lemma place_anon_ok own D s0 own' a len p f o s :
  reach own D s0 (plus own' o) s -> (forall x, 0 <= own' x) -> (forall x, own x <= own' x) ->
  fits a len p -> placed o a 0 (mem s) -> reach own D s0 own' (snd (place_anon a len p f o s)).
Proof.
  intros R Hn Ho F Hp. unfold place_anon. rewrite (u64_small (a + len)) by (destruct F; lia).
  destruct (range_is_free _ _ _) eqn:Ef; [| by apply reach_drop].
  pose proof (install_ok own D s0 own' a len p f o 0 s R Hn Ho F Ef Hp) as Hi. destruct (install_locked _ _ _ _ _ _ _) as [rc s1].
  destruct Hi as [[-> R1] | [-> R1]]; cbn; [done | by apply reach_drop].
Qed.

(** What the caller of [mmap] holds: a reference to the file's object. *)
Definition holding (own : Z -> Z) (o : option Z) : Z -> Z := match o with Some ob => plus own ob | None => own end.

(** On success the mapping has taken the reference, on an error it has not. *)
Definition outcome (own : Z -> Z) D (s0 : vst) (own' : Z -> Z) (o : option Z) (r : Z * vst) : Prop :=
  reach own D s0 (if fst r <? 0 then holding own' o else own') (snd r).

Lemma failed own D s0 own' o e s : reach own D s0 (holding own' o) s -> e < 0 -> outcome own D s0 own' o (e, s).
Proof. intros R He. unfold outcome. cbn. by destruct (Z.ltb_spec e 0); [| lia]. Qed.

Section MapCommon.
Variables (other : vst -> vst) (addr len p f : Z) (o : option Z) (off : Z).
Hypothesis other_ok : rely other.
Hypothesis addr_ok : 0 <= addr.

Lemma map_attempts_ok n own D s0 own' s :
  reach own D s0 (holding own' o) s -> (forall x, 0 <= own' x) -> (forall x, own x <= own' x) ->
  0 < len < 2 ^ 63 -> len mod PAGE_SIZE = 0 -> has p PROT_WRITE && has p PROT_EXEC = false ->
  (has f MAP_FIXED = true -> addr + len < 2 ^ 64) -> (forall ob, o = Some ob -> vmo_anon ob (mem s) = false) ->
  outcome own D s0 own' o (map_attempts lay n other addr len p f o off s).
Proof.
  intros R Hn Ho Hlen Hal Hwx Hfix Hfile. revert s R Hfile. induction n as [| n IH]; intros s R Hfile.
  { by apply failed. }
  cbn [map_attempts].
  destruct (R) as (I & _). pose proof (choose_start_ok addr len f s (vi_areas _ _ I) Hlen Hal addr_ok Hfix) as Hc.
  destruct (choose_start lay addr len f s) as [a | e]; [| by apply failed].
  destruct Hc as (Hb & Ht & Haa & Hf). assert (fits a len p) as F by (apply fits_mmap; try done; lia).
  destruct o as [ob |]; cbn [holding] in *.
  - assert (placed ob a off (mem s)) as Hp by (intros Ha; rewrite (Hfile ob eq_refl) in Ha; done).
    pose proof (install_ok own D s0 own' a len p f ob off s R Hn Ho F Hf Hp) as Hi.
    destruct (install_locked _ _ _ _ _ _ _) as [rc s1]. destruct Hi as [[-> R1] | [-> R1]]; cbn [negb Z.eqb]; [| by apply failed].
    unfold outcome. cbn. destruct lay_ok. by destruct (Z.ltb_spec a 0); [lia |].
  - pose proof (anon_object_ok own D s0 own' a len s R ltac:(apply F)) as Hob.
    destruct (anon_object_for a len s) as [[ob |] s1]; [| by apply failed]. destruct Hob as [R1 P1].
    pose proof (placed_other other _ s1 ob a 0 other_ok (proj1 R1) (plus_pos own' ob Hn) P1) as P2.
    pose proof (place_anon_ok own D s0 own' a len p f ob (other s1) (reach_other _ _ _ _ _ _ other_ok R1) Hn Ho F P2) as R3.
    destruct (place_anon a len p f ob (other s1)) as [[r |] s3]; cbn in R3; [unfold outcome; cbn; by destruct (r <? 0) |].
    destruct (has f MAP_FIXED); [by apply failed |]. exact (IH (other s3) (reach_other _ _ _ _ _ _ other_ok R3) ltac:(done)).
Qed.
End MapCommon.

Lemma map_common_ok other addr len p f o off own D s0 own' s :
  rely other -> reach own D s0 (holding own' o) s -> (forall x, 0 <= own' x) -> (forall x, own x <= own' x) ->
  0 <= addr -> (has f MAP_FIXED = true -> addr + page_align_up len < 2 ^ 64) ->
  (forall ob, o = Some ob -> vmo_anon ob (mem s) = false) ->
  outcome own D s0 own' o (vma_map_common lay other addr len p f o off s).
Proof.
  intros Hr R Hn Ho Ha Hfix Hfile. unfold vma_map_common. destruct (len =? 0); [by apply failed |]. cbv zeta.
  destruct (page_align_up_spec len) as (Hb & Hal & _). cbv zeta in *. set (plen := page_align_up len) in *.
  destruct ((plen =? 0) || _) eqn:E1; [by apply failed |]. destruct (Bool.eqb _ _); [by apply failed |].
  destruct (has p PROT_WRITE && _) eqn:Ewx; [by apply failed |].
  destruct (has f VMA_DYING); [by apply failed |]. destruct lay_ok as (? & ? & ? & ?).
  rewrite (u64_small (_ - _)) in E1 by lia. apply orb_false_iff in E1 as [? ?]. b2p.
  apply map_attempts_ok; try done. lia.
Qed.

Lemma vma_mmap_ok other addr len p f own D s0 own' s :
  rely other -> reach own D s0 own' s -> (forall x, 0 <= own' x) -> (forall x, own x <= own' x) ->
  0 <= addr -> (has f MAP_FIXED = true -> addr + page_align_up len < 2 ^ 64) ->
  reach own D s0 own' (snd (vma_mmap lay other addr len p f s)).
Proof.
  intros Hr R Hn Ho Ha Hfix. unfold vma_mmap. destruct (_ || _); [done |]. destruct (has f MAP_SHARED); [done |].
  pose proof (map_common_ok other addr len p f None 0 own D s0 own' s Hr R Hn Ho Ha Hfix ltac:(done)) as Hm.
  unfold outcome in Hm. by destruct (fst _ <? 0).
Qed.

(** The reference the caller passes in is the mapping's on success, and still
    the caller's on an error. *)
Lemma vma_mmap_file_ok other len p f o off mw own D s0 own' s :
  rely other -> reach own D s0 (plus own' o) s -> (forall x, 0 <= own' x) -> (forall x, own x <= own' x) ->
  vmo_anon o (mem s) = false ->
  outcome own D s0 own' (Some o) (vma_mmap_file lay other len p f (Some o) off mw s).
Proof.
  intros Hr R Hn Ho Han. unfold vma_mmap_file. destruct (has f VMA_NO_SHARED_WRITE); [by apply failed |].
  destruct (_ && _ && _); [by apply failed |]. set (f' := if negb mw && has f MAP_SHARED then _ else f). cbv zeta.
  destruct (negb (_ =? 0)) eqn:Erc.
  { apply failed; [done |]. apply negb_true_iff in Erc. b2p. pose proof (check_write_law o (mem s)).
    destruct (has f' MAP_SHARED && has p PROT_WRITE); lia. }
  destruct (unaligned off); [by apply failed |]. destruct (has f' MAP_ANONYMOUS); [by apply failed |].
  apply (map_common_ok other 0 len p f' (Some o) off own D s0 own' s); try done; [| by intros ? [= <-]].
  intros _. apply page_align_up_spec.
Qed.

(** The system call gives the reference back when there is no mapping. *)
Lemma sys_mmap_file_ok other len p f o off mw own D s0 own' s :
  rely other -> reach own D s0 (plus own' o) s -> (forall x, 0 <= own' x) -> (forall x, own x <= own' x) ->
  vmo_anon o (mem s) = false ->
  reach own D s0 own' (snd (sys_mmap_file lay other len p f o off mw s)).
Proof.
  intros Hr R Hn Ho Han. unfold sys_mmap_file. pose proof (vma_mmap_file_ok other len p f o off mw own D s0 own' s Hr R Hn Ho Han) as Hm.
  destruct (vma_mmap_file _ _ _ _ _ _ _ _ _) as [rc s1]. unfold outcome in Hm. cbn in *. destruct (rc <? 0); [by apply reach_drop | done].
Qed.

(** A fresh anonymous mapping placed at a given address: the kernel's own
    mappings and the heap. *)
Lemma anon_at_ok other a len p f own D s0 own' s :
  rely other -> reach own D s0 own' s -> (forall x, 0 <= own' x) -> (forall x, own x <= own' x) -> fits a len p ->
  let '(r, s1) := anon_object_for a len s in
  match r with
  | None => reach own D s0 own' s1
  | Some o =>
      reach own D s0 own' (on_mem (vmo_put o) (other s1))
      /\ (range_is_free (vmas (other s1)) a (a + len) = true ->
          let '(rc, s2) := install_locked a len p f (Some o) 0 (other s1) in
          reach own D s0 own' (if negb (rc =? 0) then on_mem (vmo_put o) s2 else s2))
  end.
Proof.
  intros Hr R Hn Ho F. pose proof (anon_object_ok own D s0 own' a len s R ltac:(apply F)) as Hob.
  destruct (anon_object_for a len s) as [[o |] s1]; [| done]. destruct Hob as [R1 P1].
  pose proof (placed_other other _ s1 o a 0 Hr (proj1 R1) (plus_pos own' o Hn) P1) as P2.
  pose proof (reach_other _ _ _ _ _ _ Hr R1) as R2. split; [by apply reach_drop |]. intros Hf.
  pose proof (install_ok own D s0 own' a len p f o 0 (other s1) R2 Hn Ho F Hf P2) as Hi.
  destruct (install_locked _ _ _ _ _ _ _) as [rc s2]. destruct Hi as [[-> R3] | [-> R3]]; cbn; [done | by apply reach_drop].
Qed.

Lemma vma_map_anon_at_ok other a len p own D s0 own' s :
  rely other -> reach own D s0 own' s -> (forall x, 0 <= own' x) -> (forall x, own x <= own' x) ->
  0 <= a < 2 ^ 64 -> 0 <= len < 2 ^ 64 -> has p PROT_WRITE && has p PROT_EXEC = false ->
  (forall q, a <= q < a + len -> managed q) ->
  reach own D s0 own' (snd (vma_map_anon_at other a len p s)).
Proof.
  intros Hr R Hn Ho Ha Hlen Hwx Hm. unfold vma_map_anon_at. destruct (_ || _) eqn:Eg; [done |].
  apply orb_false_iff in Eg as [[[? Ea]%orb_false_iff El]%orb_false_iff Ew]. apply unaligned_spec in Ea, El. b2p.
  assert (a + len < 2 ^ 64) as Hend.
  { destruct (Z.lt_ge_cases (a + len) (2 ^ 64)); [done |]. unfold u64 in Ew.
    rewrite <- (Z.mod_unique (a + len) (2 ^ 64) 1 (a + len - 2 ^ 64)) in Ew; lia. }
  rewrite (u64_small (a + len)) by lia.
  pose proof (anon_at_ok other a len p (Z.lor MAP_PRIVATE MAP_ANONYMOUS) own D s0 own' s Hr R Hn Ho ltac:(split; try done; lia)) as Hs.
  destruct (anon_object_for a len s) as [[o |] s1]; [| done]. destruct Hs as [R1 R2].
  destruct (range_is_free _ _ _); [| done]. specialize (R2 eq_refl). cbn [negb].
  by destruct (install_locked _ _ _ _ _ _ _) as [rc s2].
Qed.

(** ** Cutting *)

Lemma count_halves o v at_ l1 l2 :
  count o (l1 ++ halves v at_ ++ l2) = count o (l1 ++ v :: l2) + (if decide (obj v = Some o) then 1 else 0).
Proof. unfold halves. cbn [app]. rewrite !count_app, !count_cons. cbn. destruct (decide _); lia. Qed.

Lemma halves_derived v at_ w :
  w ∈ halves v at_ -> start v < at_ < end_ v -> derived w v /\ prot w = prot v /\ flags w = flags v
  /\ forall p, inside w p -> inside v p.
Proof.
  unfold halves. rewrite elem_of_cons, list_elem_of_singleton. intros [-> | ->] Hs; (split; [| split; [done | split; [done | unfold inside; cbn; lia]]]).
  - split_and!; cbn; [done | lia | lia].
  - split_and!; cbn; [done | lia |]. intros. rewrite u64_small by lia. lia.
Qed.

Lemma split_at_ok own D s0 own' at_ s :
  reach own D s0 own' s -> at_ mod PAGE_SIZE = 0 -> (forall x, 0 <= own' x) ->
  reach own D s0 own' (snd (vma_split_at at_ s)).
Proof.
  intros R Hat Hn. unfold vma_split_at. destruct (cut at_ (vmas s)) as [[v l] |] eqn:Ec; [| done].
  unfold call_mem. pose proof (node_alloc_law (mem s)) as L. destruct (node_alloc (mem s)) as [node m1]. cbn in L.
  pose proof (reach_quiet _ _ _ _ _ _ R L) as R1. destruct (node =? 0); [done |].
  destruct (R1) as (I1 & _ & Ho & HD). destruct (cut_split _ _ _ _ Ec) as (l1 & l2 & El & El' & Hd & Hs).
  assert (v ∈ vmas s) as Hv by (rewrite El; apply elem_of_app; right; left).
  destruct (obj v) as [o |] eqn:Eo; [| by destruct (vi_obj _ _ I1 v Hv)].
  pose proof (reach_ref own D s0 own' _ o R1 (refs_pos _ _ _ I1 (or_intror (ex_intro _ v (conj Hv Eo))))) as R2.
  apply (reach_list own D s0 (plus own' o) own'); [done | by apply (cut_areas 0 at_ (vmas s) v l (vi_areas _ _ I1)) | | | | | done | done |].
  - intros w p Hw Pw. destruct (cut_elem _ _ _ _ _ Ec Hw) as [Hw' | Hw']; [by apply (vi_managed _ _ I1 w p) |].
    apply (vi_managed _ _ I1 v p Hv). by apply (halves_derived v at_ w).
  - intros w Hw. destruct (cut_elem _ _ _ _ _ Ec Hw) as [Hw' | Hw']; [exists w; split; [done | apply derived_refl] |].
    exists v. split; [done |]. by apply (halves_derived v at_ w).
  - intros p f fl x _ _ _ Hx Px Rx. pose proof (cut_holder 0 at_ (vmas s) v l p (vi_areas _ _ I1) Hat Ec) as Hh.
    rewrite (proj2 (holder_Some 0 (vmas s) p x (vi_areas _ _ I1)) (conj Hx Px)) in Hh. destruct Hh as (w & Hw & Hsim).
    apply (holder_Some 0) in Hw; [| by apply (cut_areas 0 at_ (vmas s) v l (vi_areas _ _ I1))]. exists w. split_and!; [apply Hw | apply Hw |].
    destruct Hsim as [<- _]. done.
  - intros x. cbn. rewrite El', El, count_halves. unfold plus, one. rewrite Eo.
    destruct (Z.eqb_spec x o), (decide (Some o = Some x)); simplify_eq; lia.
  - intros x Dx Hx. cbn in Hx. rewrite El in Hx. rewrite El'. apply elem_of_app in Hx as [? | [-> | ?]%elem_of_cons].
    + apply elem_of_app. by left.
    + apply HD in Dx. congruence.
    + apply elem_of_app. right. apply elem_of_app. by right.
Qed.

Lemma split_both_ok own D s0 own' addr e s :
  reach own D s0 own' s -> addr mod PAGE_SIZE = 0 -> e mod PAGE_SIZE = 0 -> (forall x, 0 <= own' x) ->
  reach own D s0 own' (snd (split_both addr e s)).
Proof.
  intros R Ha He Hn. unfold split_both. pose proof (split_at_ok own D s0 own' addr s R Ha Hn) as R1.
  destruct (vma_split_at addr s) as [ok s1]. destruct ok; [by apply split_at_ok | done].
Qed.

(** ** Taking pages down *)

Lemma fold_quiet {A} (f : M -> A -> M) l m : (forall m x, mstep none m (f m x)) -> mstep none m (fold_left f l m).
Proof.
  intros Hf. revert m. induction l as [| x l IH]; intros m; [apply mstep_refl |]. simpl.
  by apply (mstep_none_trans m (f m x)).
Qed.

Lemma stays_none d m m' p : mstep d m m' -> pte m p = None -> pte m' p = None.
Proof. intros L Hn. destruct (ms_pte _ _ _ L p); congruence. Qed.

Lemma unmap_page_quiet v m va : mstep none m (unmap_page v m va) /\ pte (unmap_page v m va) va = None.
Proof.
  unfold unmap_page. destruct (Z.eqb_spec (vmm_get_phys va m) 0) as [Hz | _].
  { split; [apply mstep_refl | by apply get_phys_law]. }
  cbv zeta. pose proof (unmap_step va m) as Hu. destruct (unmap_law va m) as [_ Hn].
  assert (forall m2, mstep none (vmm_unmap va m) m2 -> mstep none m m2 /\ pte m2 va = None) as Hgo.
  { intros m2 L. split; [by apply (mstep_none_trans m (vmm_unmap va m)) | by apply (stays_none none (vmm_unmap va m))]. }
  destruct (obj v) as [o |]; [destruct (_ =? _) |]; apply Hgo; apply unwire_law || apply frame_free_law.
Qed.

Lemma unmap_range_quiet v lo hi m :
  lo mod PAGE_SIZE = 0 -> hi mod PAGE_SIZE = 0 ->
  mstep none m (unmap_range_pages v lo hi m)
  /\ forall p, lo <= p < hi -> p mod PAGE_SIZE = 0 -> pte (unmap_range_pages v lo hi m) p = None.
Proof.
  intros Hlo Hhi. unfold unmap_range_pages. split; [apply fold_quiet; intros; apply unmap_page_quiet |].
  intros p Hp Ha. assert (p ∈ pages_between lo hi) as Hin by (by apply pages_between_spec).
  revert Hin. generalize (pages_between lo hi). intros l. revert m. induction l as [| x l IH]; intros m Hin; [by apply elem_of_nil in Hin |].
  simpl. apply elem_of_cons in Hin as [-> | Hin]; [| by apply IH].
  apply (stays_none none (unmap_page v m x)); [apply fold_quiet; intros; apply unmap_page_quiet | apply unmap_page_quiet].
Qed.

(** Releasing a mapping's pages leaves none of them in the page table. *)
Lemma release_quiet own s d :
  vinv own s -> d ∈ vmas s ->
  mstep none (mem s) (release_pages (mem s) d)
  /\ forall p, inside d p -> p mod PAGE_SIZE = 0 -> pte (release_pages (mem s) d) p = None.
Proof.
  intros I Hd. destruct (areas_ok_elem _ _ _ (vi_areas _ _ I) Hd) as [_ (? & As & Ae & _)].
  pose proof (unmap_range_quiet d (start d) (end_ d) (mem s) As Ae) as Hu. unfold release_pages.
  destruct (obj d) as [o |] eqn:Eo; [| done]. destruct (vmo_anon o (mem s)) eqn:Ea; [| done].
  split; [apply discard_law |]. intros p Pp Ap. destruct (vi_mapper _ _ I d o Hd Eo Ea) as (Em & Af & Hf).
  pose proof (discard_clears o (file_off d / PAGE_SIZE) ((end_ d - start d) / PAGE_SIZE) (mem s)
    ((p - start d + file_off d) / PAGE_SIZE) Ea ltac:(apply (refs_pos _ _ _ I); right; eauto)) as Hc. rewrite Em in Hc.
  clear Hu I. unfold inside in Pp. pose proof (Z.div_mod (file_off d) PAGE_SIZE ltac:(done)). pose proof (Z.div_mod (start d) PAGE_SIZE ltac:(done)).
  pose proof (Z.div_mod (end_ d) PAGE_SIZE ltac:(done)). pose proof (Z.div_mod p PAGE_SIZE ltac:(done)).
  assert ((p - start d + file_off d) / PAGE_SIZE = p / PAGE_SIZE - start d / PAGE_SIZE + file_off d / PAGE_SIZE) as E1.
  { symmetry. apply (Z.div_unique _ PAGE_SIZE _ 0); unfold PAGE_SIZE in *; lia. }
  assert ((end_ d - start d) / PAGE_SIZE = end_ d / PAGE_SIZE - start d / PAGE_SIZE) as E2.
  { symmetry. apply (Z.div_unique _ PAGE_SIZE _ 0); unfold PAGE_SIZE in *; lia. }
  rewrite E1, E2 in Hc. rewrite <- Hc; [rewrite E2; f_equal |]; unfold PAGE_SIZE in *; lia.
Qed.

Lemma release_all own D s0 own' chain s :
  reach own D s0 own' s -> (forall d, d ∈ chain -> d ∈ vmas s) ->
  let m' := fold_left release_pages chain (mem s) in
  reach own D s0 own' (set_mem s m')
  /\ forall d p, d ∈ chain -> inside d p -> p mod PAGE_SIZE = 0 -> pte m' p = None.
Proof.
  intros R Hin. cbv zeta.
  enough (mstep none (mem s) (fold_left release_pages chain (mem s)) /\ forall d p, d ∈ chain -> inside d p -> p mod PAGE_SIZE = 0 -> pte (fold_left release_pages chain (mem s)) p = None) as [L Hn].
  { split; [by apply reach_quiet | done]. }
  destruct R as (I & _). revert s I Hin. induction chain as [| d chain IH]; intros s I Hin; simpl.
  { split; [apply mstep_refl | by intros d p Hd%elem_of_nil]. }
  destruct (release_quiet own' s d I (Hin d ltac:(left))) as [L Hn].
  destruct (IH (set_mem s (release_pages (mem s) d))) as [L' Hn'].
  { by apply (quiet own' (fun _ => False)). }
  { intros x Hx. apply Hin. by right. }
  cbn in L', Hn'. split; [by apply (mstep_none_trans _ (release_pages (mem s) d)) |].
  intros x p [-> | Hx]%elem_of_cons Px Ap; [| by apply (Hn' x)]. apply (stays_none none (release_pages (mem s) d)); [done | auto].
Qed.

(** The references of the mappings taken down go back. *)
Lemma put_all own D s0 own' chain s :
  reach own D s0 (fun x => own' x + count x chain) s -> (forall x, 0 <= own' x) -> (forall x, own x <= own' x) ->
  (forall d, d ∈ chain -> obj d <> None) ->
  reach own D s0 own' (set_mem s (fold_left put_object chain (mem s))).
Proof.
  revert s. induction chain as [| d chain IH]; intros s R Hn Ho Hobj; simpl.
  - destruct R as (I & K & _ & HD). apply (reach_same own D s0 own' s); [| done | done]. split_and!; [| done | done | done].
    apply (vinv_ext (fun x => own' x + count x [])); [done |]. intros x. unfold count. simpl. lia.
  - unfold put_object at 2. destruct (obj d) as [o |] eqn:Eo; [| by destruct (Hobj d ltac:(left))].
    assert (reach own D s0 (plus (fun x => own' x + count x chain) o) s) as R1.
    { destruct R as (I & K & Ho1 & HD). split_and!; [| done | | done].
      - apply (vinv_ext _ _ _ I). intros x. rewrite count_cons, Eo. unfold plus, one.
        destruct (Z.eqb_spec x o), (decide (Some o = Some x)); simplify_eq; lia.
      - intros x. unfold plus. pose proof (one_nonneg o x). pose proof (count_nonneg x chain). specialize (Ho x). lia. }
    apply reach_drop in R1; [| intros x; pose proof (count_nonneg x chain); specialize (Ho x); specialize (Hn x); lia ..].
    apply (IH _ R1 Hn Ho). intros x Hx. apply Hobj. by right.
Qed.

(** ** munmap *)

Definition mark (addr e : Z) (v : vm_area) : vm_area := if touched addr e v then with_dying v else v.

Lemma mark_range addr e : same_range (mark addr e).
Proof. intros v. unfold mark. by destruct (touched _ _ _). Qed.

Lemma mark_same addr e v : obj (mark addr e v) = obj v /\ prot (mark addr e v) = prot v /\ derived (mark addr e v) v.
Proof. unfold mark. destruct (touched _ _ _); (split; [done | split; [done |]]); split_and!; cbn; (done || lia). Qed.

(** Rewriting every mapping in place, keeping ranges and rights. *)
Lemma reach_map own D s0 own' s (g : vm_area -> vm_area) :
  reach own D s0 own' s -> same_range g -> (forall v, obj (g v) = obj v /\ derived (g v) v) ->
  (forall v, v ∈ vmas s -> area_ok v -> area_ok (g v)) ->
  (forall p f fl v, p mod PAGE_SIZE = 0 -> pte (mem s) p = Some (f, fl) -> v ∈ vmas s -> inside v p ->
     rights fl (prot v) -> rights fl (prot (g v))) ->
  (forall v, v ∈ vmas s -> dying v = true -> g v = v) ->
  reach own D s0 own' (set_list s (g <$> vmas s)).
Proof.
  intros R Hr Hg Hok Hright Hdead. destruct (R) as (I & _ & Ho & HD).
  assert (forall v p, inside (g v) p <-> inside v p) as Hin by (intros v p; unfold inside; by destruct (Hr v) as [-> ->]).
  apply (reach_list own D s0 own' own'); [done | by apply areas_fmap; [| | apply I] | | | | | apply I | done |].
  - intros w p (v & -> & Hv)%list_elem_of_fmap Hp. apply (vi_managed _ _ I v p Hv). by apply Hin.
  - intros w (v & -> & Hv)%list_elem_of_fmap. exists v. split; [done | apply Hg].
  - intros p f fl v _ Ha Hp Hv Pv Rv. exists (g v). split_and!; [by apply list_elem_of_fmap_2 | by apply Hin |]. by apply (Hright p f).
  - intros o. rewrite count_fmap; [done | intros v; apply Hg].
  - intros v Dv Hv. rewrite <- (Hdead v Hv (HD v Dv)). by apply list_elem_of_fmap_2.
Qed.

Lemma mark_ok own D s0 own' addr e s : reach own D s0 own' s -> reach own D s0 own' (set_list s (mark addr e <$> vmas s)).
Proof.
  intros R. apply reach_map; [done | apply mark_range | | | |].
  - intros v. split; apply mark_same.
  - intros v _. unfold mark. by destruct (touched _ _ _).
  - intros p f fl v _ _ _ _. by destruct (mark_same addr e v) as (_ & -> & _).
  - intros v _ Hd. unfold mark, touched. rewrite Hd, orb_true_r. done.
Qed.

Definition chain_of (addr e : Z) (l : list vm_area) : list vm_area :=
  rev (with_dying <$> filter (fun v => touched addr e v = true) l).

Lemma dead_elem addr e l d :
  d ∈ chain_of addr e l <-> exists v, v ∈ l /\ touched addr e v = true /\ d = with_dying v.
Proof.
  unfold chain_of. rewrite rev_reverse, elem_of_reverse, list_elem_of_fmap. setoid_rewrite list_elem_of_filter.
  split; intros (v & ? & ? & ?); by exists v.
Qed.

Lemma dead_nodup addr e l : areas_ok 0 l -> NoDup (chain_of addr e l).
Proof.
  intros Hl. unfold chain_of. rewrite <- Permutation_rev. apply (areas_nodup 0), areas_fmap; [done | done | by apply areas_filter].
Qed.

Lemma chain_in addr e l d : d ∈ chain_of addr e l -> d ∈ mark addr e <$> l /\ dying d = true.
Proof.
  intros (v & Hv & Ht & ->)%dead_elem. split; [| apply dying_with_dying].
  replace (with_dying v) with (mark addr e v) by (unfold mark; by rewrite Ht). by apply list_elem_of_fmap_2.
Qed.

(** A mapping that was dying before is not in the chain. *)
Lemma chain_fresh addr e l v d : areas_ok 0 l -> v ∈ l -> dying v = true -> d ∈ chain_of addr e l -> start v <> start d.
Proof.
  intros Hl Hv Hd (w & Hw & Ht & ->)%dead_elem E. cbn in E. rewrite (areas_start 0 l v w Hl Hv Hw E) in Hd.
  unfold touched in Ht. by rewrite Hd, orb_true_r in Ht.
Qed.

(** The last step: the chain, whose pages are gone, leaves the list. *)
Lemma unlink_ok own D s0 own' chain s :
  reach own D s0 own' s -> NoDup chain -> (forall d, d ∈ chain -> d ∈ vmas s) ->
  (forall d p, d ∈ chain -> inside d p -> p mod PAGE_SIZE = 0 -> pte (mem s) p = None) ->
  (forall v d, D v -> v ∈ vmas s -> d ∈ chain -> start v <> start d) ->
  reach own D s0 (fun x => own' x + count x chain) (set_list s (fold_left (fun l d => vma_unlink (start d) l) chain (vmas s))).
Proof.
  intros R Hnd Hin Hnone HD. destruct (R) as (I & _ & Ho & _).
  destruct (unlink_all 0 (vmas s) chain (vi_areas _ _ I)) as [Ha He]. cbv zeta in *.
  apply (reach_list own D s0 own'); [done | done | | | | | | |].
  - intros w p [Hw _]%He. by apply (vi_managed _ _ I).
  - intros w [Hw _]%He. exists w. split; [done | apply derived_refl].
  - intros p f fl v _ Ap Hp Hv Pv Rv. exists v. split_and!; [| done | done]. apply He. split; [done |]. intros d Hd E.
    rewrite (areas_start 0 _ v d (vi_areas _ _ I) Hv (Hin d Hd) E) in Pv. by rewrite (Hnone d p Hd Pv Ap) in Hp.
  - intros o. rewrite (count_perm o _ _ (unlink_perm 0 (vmas s) chain (vi_areas _ _ I) Hnd Hin)), count_app. lia.
  - intros o. pose proof (count_nonneg o chain). pose proof (vi_own _ _ I o). lia.
  - intros o. pose proof (count_nonneg o chain). specialize (Ho o). lia.
  - intros v Dv Hv. apply He. split; [done | by intros d; apply HD].
Qed.

(** An operation keeps the invariant and what other threads rely on. *)
Definition safe (own own' : Z -> Z) (s s' : vst) : Prop := vinv own' s' /\ keeps own is_dying s s'.

Definition old_dying (s : vst) (v : vm_area) : Prop := dying v = true /\ v ∈ vmas s.

Lemma reach_begin own s : vinv own s -> reach own (old_dying s) s own s.
Proof. intros I. apply reach_start; [done | by intros v [? _]]. Qed.

Lemma reach_end own own' s s' : reach own (old_dying s) s own' s' -> safe own own' s s'.
Proof.
  intros (I & [K1 K2 K3] & _). split; [done |]. split; [| | done].
  - intros v Hd Hv. by apply K1.
  - intros v p Hd Hv. by apply (K2 v).
Qed.

Lemma vma_munmap_ok other addr len own s :
  rely other -> vinv own s -> safe own own s (snd (vma_munmap other addr len s)).
Proof.
  intros Hr I. apply reach_end. pose proof (reach_begin own s I) as R0. unfold vma_munmap.
  destruct (_ || _) eqn:E0; [done |]. apply orb_false_iff in E0 as [_ Ea%unaligned_spec].
  destruct (_ <? addr); [done |]. destruct (page_align_up_spec len) as (_ & Hal & _). cbv zeta in Hal.
  pose proof (split_both_ok _ _ _ _ addr (u64 (addr + page_align_up len)) s R0 Ea
    ltac:(by apply aligned_u64, aligned_add) ltac:(apply I)) as R1.
  destruct (split_both _ _ s) as [ok s1]. destruct ok; [| done]. cbn [negb snd] in *. set (e := u64 _) in *.
  change (rev _) with (chain_of addr e (vmas s1)). change (_ <$> vmas s1) with (mark addr e <$> vmas s1).
  pose proof (mark_ok _ _ _ _ addr e s1 R1) as R2. set (s2 := set_list s1 _) in *.
  destruct (R1) as (I1 & K1 & _). pose proof (dead_nodup addr e (vmas s1) (vi_areas _ _ I1)) as Hnd.
  destruct (chain_of addr e (vmas s1)) as [| c0 chain0] eqn:Ech; [done |]. rewrite <- Ech in *. clear Ech c0 chain0.
  set (chain := chain_of addr e (vmas s1)) in *. set (s3 := other s2).
  assert (forall d, d ∈ chain -> d ∈ vmas s3) as In3.
  { intros d Hd. destruct (chain_in _ _ _ _ Hd). by apply (kp_dying _ _ _ _ (proj2 (Hr own s2 (proj1 R2)))). }
  pose proof (reach_other _ _ _ _ _ _ Hr R2) as R3. fold s3 in R3.
  destruct (release_all _ _ _ _ chain s3 R3 In3) as [R4 N4]. cbv zeta in R4, N4. set (s4 := set_mem s3 _) in *.
  pose proof (reach_other _ _ _ _ _ _ Hr R4) as R5. set (s5 := other s4) in *.
  pose proof (proj2 (Hr own s4 (proj1 R4))) as K5. fold s5 in K5.
  assert (forall d, d ∈ chain -> d ∈ vmas s5) as In5.
  { intros d Hd. apply (kp_dying _ _ _ _ K5); [| by apply In3]. by apply (chain_in _ _ _ _ Hd). }
  apply (put_all own _ s own chain (set_list s5 _)); [| apply I | done |].
  - apply unlink_ok; [done | done | done | |].
    + intros d p Hd Pd Ap. destruct (kp_pte _ _ _ _ K5 d p) as [-> | ->]; [| | done | | done].
      * by apply (chain_in _ _ _ _ Hd).
      * by apply In3.
      * by apply (N4 d).
    + intros v d [Dv Hv] _ Hd. apply (chain_fresh addr e (vmas s1)); [apply I1 | | done | done].
      by apply (kp_dying _ _ _ _ K1 v).
  - intros d Hd. apply (vi_obj _ _ (proj1 R5)). by apply In5.
Qed.

(** ** mprotect *)

(** A change of flags only, at pages that stay mapped. *)
Record reflag (m m' : M) : Prop := {
  rf_refs o : refs m' o = refs m o;
  rf_stable o : vmo_anon o m' = vmo_anon o m /\ mapper m' o = mapper m o;
}.

Lemma reflag_trans a b c : reflag a b -> reflag b c -> reflag a c.
Proof. intros [r1 s1] [r2 s2]. split; [intros o; congruence |]. intros o. destruct (s1 o), (s2 o). split; congruence. Qed.

Definition granted (p : Z) (e : option (Z * Z)) : Prop := forall f fl, e = Some (f, fl) -> rights fl p.

Lemma protect_loop fl p l m :
  rights fl p ->
  let m' := fold_left (fun m va => snd (vmm_protect va fl m)) l m in
  reflag m m' /\ (forall q, q ∉ l -> pte m' q = pte m q)
  /\ (forall q, q ∈ l \/ granted p (pte m q) -> granted p (pte m' q)).
Proof.
  intros Hfl. cbv zeta. revert m. induction l as [| va l IH]; intros m; simpl.
  { split_and!; [by split | done |]. intros q [Hq%elem_of_nil | Hq]; done. }
  pose proof (protect_law va fl m) as L. destruct (vmm_protect va fl m) as [rc m1]. destruct L as [[Pp Pr Ps] Hva]. cbn [snd].
  destruct (IH m1) as (F & Hout & Hin). split_and!.
  - apply (reflag_trans m m1); [by split | done].
  - intros q [Hne Hq]%not_elem_of_cons. rewrite (Hout q Hq). by apply Pp.
  - intros q Hq. apply Hin. destruct (decide (q = va)) as [-> | Hne].
    + right. rewrite Hva. intros f x. destruct (pte m va) as [[? ?] |]; [by intros [= _ <-] | done].
    + rewrite (Pp q Hne). destruct Hq as [[-> | Hq]%elem_of_cons | Hq]; [done | by left | by right].
Qed.

Lemma effective_rights p v m :
  rights (if private_file v m then Z.land (prot_to_vmm p) (u64 (Z.lnot VMM_WRITABLE)) else prot_to_vmm p) p.
Proof. destruct (private_file v m); [apply rights_readonly |]; apply prot_rights. Qed.

Lemma protect_all p vs m :
  (forall v, v ∈ vs -> area_ok v) ->
  let m' := fold_left (protect_pages p) vs m in
  reflag m m' /\ (forall q, (forall v, v ∈ vs -> ~ inside v q) -> pte m' q = pte m q)
  /\ (forall q, q mod PAGE_SIZE = 0 -> (exists v, v ∈ vs /\ inside v q) \/ granted p (pte m q) -> granted p (pte m' q)).
Proof.
  cbv zeta. revert m. induction vs as [| v vs IH]; intros m Hok; simpl.
  { split_and!; [by split | done |]. intros q _ [(v & Hv%elem_of_nil & _) | Hq]; done. }
  destruct (Hok v ltac:(left)) as (_ & As & Ae & _).
  destruct (protect_loop _ p (pages_between (start v) (end_ v)) m (effective_rights p v m)) as (F1 & O1 & G1).
  fold (protect_pages p m v) in F1, O1, G1. destruct (IH (protect_pages p m v)) as (F2 & O2 & G2); [intros w Hw; apply Hok; by right |].
  split_and!.
  - by apply (reflag_trans m (protect_pages p m v)).
  - intros q Hq. rewrite O2 by (intros w Hw; apply Hq; by right). apply O1. rewrite pages_between_spec by done.
    intros [Hp _]. by apply (Hq v ltac:(left)).
  - intros q Aq Hq. apply (G2 q Aq). destruct Hq as [(w & [-> | Hw]%elem_of_cons & Pw) | Hq].
    + right. apply G1. left. by apply pages_between_spec.
    + left. eauto.
    + right. apply G1. by right.
Qed.

Definition reprot (addr e p : Z) (v : vm_area) : vm_area := if touched addr e v then with_prot v p else v.

Lemma protect_ok own D s0 own' addr e p s :
  reach own D s0 own' s -> has p PROT_WRITE && has p PROT_EXEC = false ->
  let m' := fold_left (protect_pages p) (filter (fun v => touched addr e v = true) (vmas s)) (mem s) in
  reach own D s0 own' (set_list (set_mem s m') (reprot addr e p <$> vmas s)).
Proof.
  intros R Hwx. destruct (R) as (I & _ & Ho & HD). cbv zeta. set (vs := filter _ (vmas s)).
  assert (forall v, v ∈ vs <-> touched addr e v = true /\ v ∈ vmas s) as Hvs by (intros v; subst vs; by rewrite list_elem_of_filter).
  destruct (protect_all p vs (mem s)) as ([Fr Fs] & Hout & Hin).
  { intros v [_ Hv]%Hvs. by apply (areas_ok_elem 0 _ _ (vi_areas _ _ I)). }
  cbv zeta in *. set (m' := fold_left _ vs (mem s)) in *.
  assert (forall v, start (reprot addr e p v) = start v /\ end_ (reprot addr e p v) = end_ v /\ obj (reprot addr e p v) = obj v
    /\ file_off (reprot addr e p v) = file_off v) as Hrp by (intros v; unfold reprot; by destruct (touched _ _ _)).
  assert (forall q v, v ∈ vmas s -> inside v q -> touched addr e v = false -> pte m' q = pte (mem s) q) as Hsame.
  { intros q v Hv Pv Ht. apply Hout. intros w [Hw1 Hw]%Hvs Pw. rewrite (areas_disjoint 0 _ v w q (vi_areas _ _ I) Hv Hw Pv Pw) in Ht. congruence. }
  assert (forall v, D v -> touched addr e v = false) as HDt by (intros v Dv; unfold touched; by rewrite (HD v Dv), orb_true_r).
  apply (reach_next own D s0 own' _ s); [done | | | done]; split; cbn; try apply I.
  - apply areas_fmap; [intros v; split; apply Hrp | | apply I]. intros v _ (? & ? & ? & ? & ?). unfold reprot. by destruct (touched _ _ _).
  - intros w q (v & -> & Hv)%list_elem_of_fmap. destruct (Hrp v) as (E1 & E2 & _). unfold inside. rewrite E1, E2. by apply (vi_managed _ _ I).
  - intros q f fl Mq Aq Hq. assert (exists v, v ∈ vmas s /\ inside v q /\ rights fl (prot (reprot addr e p v))) as (v & Hv & Pv & Rv).
    { destruct (holder vs q) as [v |] eqn:Eh.
      - apply (holder_Some 0) in Eh as [[Ht Hv]%Hvs Pv]; [| by apply areas_filter, I]. exists v. split_and!; [done | done |]. unfold reprot. rewrite Ht. cbn. apply (Hin q Aq) with f; [| done]. left. exists v. by rewrite Hvs.
      - rewrite holder_None in Eh. rewrite (Hout q Eh) in Hq. destruct (vi_rights _ _ I q f fl Mq Aq Hq) as (v & Hv & Pv & Rv).
        exists v. split_and!; [done | done |]. unfold reprot. destruct (touched addr e v) eqn:Et; [| done].
        by destruct (Eh v ltac:(by rewrite Hvs)). }
    exists (reprot addr e p v). destruct (Hrp v) as (E1 & E2 & _). unfold inside. rewrite E1, E2. split_and!; [by apply list_elem_of_fmap_2 | apply Pv | apply Pv | done].
  - intros o. rewrite Fr, count_fmap; [apply I | intros v; apply Hrp].
  - intros w o (v & -> & Hv)%list_elem_of_fmap. destruct (Hrp v) as (-> & _ & -> & ->). destruct (Fs o) as [-> ->]. by apply (vi_mapper _ _ I).
  - intros w (v & -> & Hv)%list_elem_of_fmap. destruct (Hrp v) as (_ & _ & -> & _). by apply (vi_obj _ _ I).
  - intros v Dv Hv. apply list_elem_of_fmap. exists v. unfold reprot. by rewrite (HDt v Dv).
  - intros v q Dv Hv Pv. left. apply (Hsame q v); auto.
  - intros o _. apply Fs.
Qed.

Lemma vma_mprotect_ok other addr len p own s :
  rely other -> vinv own s -> safe own own s (snd (vma_mprotect other addr len p s)).
Proof.
  intros Hr I. apply reach_end. pose proof (reach_begin own s I) as R0. unfold vma_mprotect.
  destruct (_ || _) eqn:E0; [done |]. apply orb_false_iff in E0 as [_ Ea%unaligned_spec].
  destruct (_ <? addr); [done |]. destruct (negb (Z.land p _ =? 0)); [done |]. destruct (has p PROT_WRITE && _) eqn:Ewx; [done |].
  destruct (cover _ _ _ _ _) as [covered | err]; [| done]. destruct (covered <? _); [done |].
  destruct (page_align_up_spec len) as (_ & Hal & _). cbv zeta in Hal.
  pose proof (split_both_ok _ _ _ _ addr (u64 (addr + page_align_up len)) (other s) (reach_other _ _ _ _ _ _ Hr R0) Ea
    ltac:(by apply aligned_u64, aligned_add) ltac:(apply I)) as R1.
  destruct (split_both _ _ (other s)) as [ok s1]. destruct ok; [| done]. cbn [negb snd] in *. by apply protect_ok.
Qed.

(** ** Faults *)

Lemma find_live own D s0 own' s page v :
  reach own D s0 own' s -> vma_find page (vmas s) = Some v -> v ∈ vmas s /\ inside v page /\ dying v = false.
Proof. intros (I & _) Hf. pose proof (vma_find_spec 0 (vmas s) page (vi_areas _ _ I)) as Hs. by rewrite Hf in Hs. Qed.

Lemma map_page_ok own D s0 own' s page v f fl :
  reach own D s0 own' s -> vma_find page (vmas s) = Some v -> rights fl (prot v) ->
  reach own D s0 own' (snd (call_mem (vmm_map page f fl) s)).
Proof.
  intros R Hf Hr. destruct (find_live _ _ _ _ _ _ _ R Hf) as (Hv & Pv & Hd). unfold call_mem.
  pose proof (map_law page f fl (mem s)) as L. destruct (vmm_map page f fl (mem s)) as [rc m1]. destruct L as [Hp He]. cbn.
  apply (reach_page own D s0 own' s v page m1); [done | done | done | done | done |]. intros f' fl' Hpte. rewrite He in Hpte.
  destruct (rc =? 0); [| by left]. right. simplify_eq. done.
Qed.

Lemma protect_page_ok own D s0 own' s page v fl :
  reach own D s0 own' s -> vma_find page (vmas s) = Some v -> rights fl (prot v) ->
  reach own D s0 own' (snd (call_mem (vmm_protect page fl) s)).
Proof.
  intros R Hf Hr. destruct (find_live _ _ _ _ _ _ _ R Hf) as (Hv & Pv & Hd). unfold call_mem.
  pose proof (protect_law page fl (mem s)) as L. destruct (vmm_protect page fl (mem s)) as [rc m1]. destruct L as [Hp He]. cbn.
  apply (reach_page own D s0 own' s v page m1); [done | done | done | done | done |]. intros f' fl' Hpte. rewrite He in Hpte.
  right. destruct (pte (mem s) page) as [[? ?] |]; simplify_eq. done.
Qed.

Lemma reach_call {A} own D s0 own' s (f : M -> A * M) :
  reach own D s0 own' s -> (forall m, mstep none m (snd (f m))) -> reach own D s0 own' (snd (call_mem f s)).
Proof. intros R Hf. unfold call_mem. specialize (Hf (mem s)). destruct (f (mem s)) as [a m]. by apply reach_quiet. Qed.

(** What the looked-up mapping grants, when there is one. *)
Lemma same_page_find v o page idx : same_page v o page idx = true -> exists w, v = Some w /\ obj w = Some o.
Proof. unfold same_page. destruct v as [w |]; [| done]. intros [Ho%bool_decide_eq_true _]%andb_true_iff. eauto. Qed.

Lemma call_list {A} (f : M -> A * M) (s : vst) : vmas (snd (call_mem f s)) = vmas s.
Proof. unfold call_mem. by destruct (f (mem s)). Qed.

Lemma fault_copy_ok other o page idx already own D s0 own' s :
  rely other -> reach own D s0 own' s -> (forall x, 0 <= own' x) -> (forall x, own x <= own' x) -> 0 < refs (mem s) o ->
  reach own D s0 own' (snd (fault_copy other o page idx already s)).
Proof.
  intros Hr R Hn Ho Hpos. unfold fault_copy. cbv zeta.
  pose proof (reach_other _ _ _ _ _ _ Hr (reach_other _ _ _ _ _ _ Hr (reach_ref _ _ _ _ _ _ R Hpos))) as R2.
  set (s2 := other (other _)) in *. destruct (same_page _ _ _ _ && _) eqn:Es; cbn [andb]; [| by apply reach_drop].
  apply andb_true_iff in Es as [(v & Ev & _)%same_page_find _]. rewrite Ev. cbn [prot_of]. destruct (negb _).
  { pose proof (protect_page_ok _ _ _ _ s2 page v _ R2 Ev (prot_rights (prot v))) as R3.
    destruct (call_mem _ s2) as [rc s3]. by apply reach_drop. }
  pose proof (reach_call _ _ _ _ s2 frame_alloc R2 frame_alloc_law) as R3. pose proof (call_list frame_alloc s2) as E3.
  destruct (call_mem frame_alloc s2) as [copy s3]. cbn [snd] in *. destruct (copy =? 0).
  { apply reach_drop; [| done | done]. by apply (reach_same _ _ _ _ s3). }
  pose proof (reach_quiet _ _ _ _ s3 _ R3 (copy_law already copy (mem s3))) as R4. fold (on_mem (copy_page already copy) s3) in R4.
  assert (vma_find page (vmas (on_mem (copy_page already copy) s3)) = Some v) as Ev4 by (cbn; by rewrite E3).
  pose proof (map_page_ok _ _ _ _ _ page v copy _ R4 Ev4 (prot_rights (prot v))) as R5.
  destruct (call_mem (vmm_map _ _ _) _) as [rc s5]. cbn [snd] in R5. destruct (negb (rc =? 0)); cbn [snd].
  - apply reach_drop; [| done | done].
    apply (reach_same _ _ _ _ (on_mem (frame_free copy) s5)); [| done | done]. by apply reach_quiet; [| apply frame_free_law].
  - apply reach_drop; [| done | done]. apply reach_quiet; [| apply unwire_law]. by apply (reach_same _ _ _ _ s5).
Qed.

Lemma fault_fill_ok other o page idx fl own D s0 own' s :
  rely other -> reach own D s0 own' s -> (forall x, 0 <= own' x) -> (forall x, own x <= own' x) -> 0 < refs (mem s) o ->
  reach own D s0 own' (snd (fault_fill other o page idx fl s)).
Proof.
  intros Hr R Hn Ho Hpos. unfold fault_fill. cbv zeta.
  pose proof (reach_call _ _ _ _ _ _ (reach_other _ _ _ _ _ _ Hr (reach_ref _ _ _ _ _ _ R Hpos)) (wire_law o idx)) as R1.
  destruct (call_mem (vmo_wire_page o idx) _) as [phys s1]. cbn [snd] in R1. pose proof (reach_other _ _ _ _ _ _ Hr R1) as R2.
  set (s2 := other s1) in *. set (is_same := same_page _ _ _ _) in *. set (taken := is_same && _).
  match goal with |- context [let '(_, _) := ?x in _] => set (r := x) end.
  assert (reach own D s0 (plus own' o) (snd r)) as R3.
  { subst r. destruct (_ && is_same && _) eqn:Ed; [| done]. apply andb_true_iff in Ed as [[_ Es]%andb_true_iff _].
    destruct (same_page_find _ _ _ _ Es) as (v & Ev & _). rewrite Ev. cbn [prot_of].
    match goal with |- context [prot_to_vmm ?x] => set (eff := x) end. assert (rights (prot_to_vmm eff) (prot v)) as He.
    { subst eff. destruct (has fl MAP_PRIVATE && _); [apply prot_readonly | apply prot_rights]. }
    pose proof (map_page_ok _ _ _ _ s2 page v phys _ R2 Ev He) as R3. destruct (call_mem (vmm_map _ _ _) s2) as [rc s3].
    destruct (rc =? 0); [| done]. by apply (reach_same _ _ _ _ s3). }
  destruct r as [mapped s3]. cbn [snd] in *. apply reach_drop; [| done | done].
  set (s4 := if negb mapped && _ then decline s3 else s3). assert (reach own D s0 (plus own' o) s4) as R4.
  { subst s4. destruct (negb mapped && _); [by apply (reach_same _ _ _ _ s3) | done]. }
  set (s5 := if negb (phys =? 0) && _ then _ else s4). assert (reach own D s0 (plus own' o) s5) as R5.
  { subst s5. destruct (negb (phys =? 0) && negb mapped); [| done]. by apply reach_quiet; [| apply unwire_law]. }
  destruct (mapped && _ && _); [| done]. by apply reach_quiet; [| apply dirty_law].
Qed.

Lemma vm_fault_ok other addr write exec own s :
  rely other -> vinv own s -> safe own own s (snd (vm_fault_resolve other addr write exec s)).
Proof.
  intros Hr I. apply reach_end. pose proof (reach_begin own s I) as R0.
  assert (reach own (old_dying s) s own (decline s)) as Rd by (by apply (reach_same _ _ _ _ s)).
  unfold vm_fault_resolve. destruct (vma_find (page_of addr) (vmas s)) as [v |] eqn:Ef; [| done].
  destruct (write && _); [done |]. destruct (exec && _); [done |]. destruct (_ =? PROT_NONE); [done |]. cbv zeta.
  destruct (find_live _ _ _ _ _ _ _ R0 Ef) as (Hv & _). destruct (obj v) as [o |] eqn:Eo; [| by destruct (negb _)].
  assert (0 < refs (mem s) o) as Hpos by (apply (refs_pos own s o I); right; eauto).
  destruct (_ && private_file v (mem s)); [apply fault_copy_ok; done || apply I |]. destruct (negb _); [done |].
  apply fault_fill_ok; done || apply I.
Qed.

(** ** The heap *)

Lemma extend_ok own D s0 own' a b s l' :
  reach own D s0 own' s -> extend a b (mem s) (vmas s) = Some l' -> a < b -> b mod PAGE_SIZE = 0 -> b < 2 ^ 64 ->
  (forall q, a <= q < b -> managed q) -> range_is_free (vmas s) a b = true -> reach own D s0 own' (set_list s l').
Proof.
  intros R Hx Hab Ab Hb Hm Hf. destruct (R) as (I & _ & Ho & HD). destruct (extend_split _ _ _ _ _ Hx) as (l1 & v & l2 & o & El & -> & <- & Hd & Hob & Han).
  assert (v ∈ vmas s) as Hv by (rewrite El; apply elem_of_app; right; left).
  assert (forall w, w ∈ l1 ++ with_end v b :: l2 <-> w ∈ l1 \/ w = with_end v b \/ w ∈ l2) as Hin by (intros w; by rewrite elem_of_app, elem_of_cons).
  assert (forall w, w ∈ l1 \/ w ∈ l2 -> w ∈ vmas s) as Hold by (intros w Hw; rewrite El, elem_of_app, elem_of_cons; tauto).
  apply (reach_list own D s0 own' own'); [done | | | | | | apply I | done |].
  - apply extend_areas; [| done | done | done |]; rewrite <- El; [apply I | done].
  - intros w p Hw Pw. apply Hin in Hw as [Hw | [-> | Hw]]; [apply (vi_managed _ _ I w p); [apply Hold; by left | done] | | apply (vi_managed _ _ I w p); [apply Hold; by right | done]].
    unfold inside in Pw. cbn in Pw. destruct (Z.lt_ge_cases p (end_ v)); [apply (vi_managed _ _ I v p Hv); unfold inside; lia | apply Hm; lia].
  - intros w Hw. apply Hin in Hw as [Hw | [-> | Hw]]; [exists w; split; [apply Hold; by left | apply derived_refl] | | exists w; split; [apply Hold; by right | apply derived_refl]].
    exists v. split; [done |]. split_and!; cbn; [done | lia | lia].
  - intros p f fl w _ _ _ Hw Pw Rw. rewrite El, elem_of_app, elem_of_cons in Hw. destruct Hw as [Hw | [-> | Hw]].
    + exists w. rewrite Hin. auto.
    + exists (with_end v b). rewrite Hin. split_and!; [auto | | done]. unfold inside in *. cbn. lia.
    + exists w. rewrite Hin. auto.
  - intros x. rewrite El, !count_app, !count_cons. cbn. lia.
  - intros w Dw Hw. rewrite El, elem_of_app, elem_of_cons in Hw. apply Hin. destruct Hw as [? | [-> | ?]]; [tauto | | tauto].
    apply HD in Dw. congruence.
Qed.

Lemma vma_heap_ok other old_end new_end own s :
  rely other -> vinv own s -> heap_base lay <= old_end -> safe own own s (snd (vma_heap_set_end lay other old_end new_end s)).
Proof.
  intros Hr I Hold. unfold vma_heap_set_end. pose proof (reach_begin own s I) as R0. pose proof (reach_end _ _ _ _ R0) as S0.
  destruct (_ || _) eqn:Eu; [done |]. apply orb_false_iff in Eu as [Ao%unaligned_spec An%unaligned_spec].
  destruct (_ || _) eqn:Eb; [done |]. apply orb_false_iff in Eb as [? ?]. b2p. destruct (Z.eqb_spec new_end old_end); [done |].
  destruct (Z.ltb_spec new_end old_end).
  { pose proof (vma_munmap_ok other new_end (old_end - new_end) own s Hr I) as Sm. by destruct (vma_munmap _ _ _ _) as [rc s1]. }
  destruct (range_is_free _ _ _) eqn:Ef; [| done]. cbn [negb].
  assert (forall q, old_end <= q < new_end -> managed q) as Hm by (intros q Hq; apply managed_heap; lia).
  destruct (extend _ _ _ _) as [l |] eqn:Ex.
  { apply reach_end. apply (extend_ok own _ s own old_end new_end); try done; lia. }
  assert ((new_end - old_end) mod PAGE_SIZE = 0) as Al by (by rewrite Zminus_mod, Ao, An).
  pose proof (anon_at_ok other old_end (new_end - old_end) (Z.lor PROT_READ PROT_WRITE) (Z.lor MAP_PRIVATE MAP_ANONYMOUS)
    own _ s own s Hr R0 ltac:(apply I) ltac:(done)) as Hs.
  specialize (Hs ltac:(split; try done; intros; try apply Hm; lia)).
  replace (old_end + (new_end - old_end)) with new_end in Hs by lia.
  destruct (anon_object_for _ _ s) as [[o |] s1]; [| by apply reach_end]. destruct Hs as [R1 R2].
  destruct (range_is_free (vmas (other s1)) _ _); [| by apply reach_end]. specialize (R2 eq_refl). cbn [negb].
  destruct (install_locked _ _ _ _ _ _ _) as [rc s2]. by apply reach_end.
Qed.

(** ** Threads *)

(** What the threads of a process can do to its address space between two
    moments: calls and faults, one after the other, and inside each one, where
    it drops the lock, again anything. *)
Inductive threads : (vst -> vst) -> Prop :=
| th_none : threads (fun s => s)
| th_then g h : threads g -> threads h -> threads (fun s => h (g s))
| th_mmap other len p f : threads other -> threads (fun s => snd (vma_mmap lay other 0 len p f s))
| th_mmap_file other len p f o off mw : threads other ->
    threads (fun s => if (0 <? refs (mem s) o) && negb (vmo_anon o (mem s))
                      then snd (sys_mmap_file lay other len p f o off mw (on_mem (vmo_ref o) s)) else s)
| th_munmap other addr len : threads other -> threads (fun s => snd (vma_munmap other addr len s))
| th_mprotect other addr len p : threads other -> threads (fun s => snd (vma_mprotect other addr len p s))
| th_fault other addr w x : threads other -> threads (fun s => snd (vm_fault_resolve other addr w x s))
| th_heap other old_end new_end : threads other -> heap_base lay <= old_end ->
    threads (fun s => snd (vma_heap_set_end lay other old_end new_end s))
| th_stack other a len p : threads other -> 0 <= a < 2 ^ 64 -> 0 <= len < 2 ^ 64 ->
    has p PROT_WRITE && has p PROT_EXEC = false -> (forall q, a <= q < a + len -> managed q) ->
    threads (fun s => snd (vma_map_anon_at other a len p s)).

Lemma mmap_file_safe other len p f o off mw own s :
  rely other -> vinv own s -> 0 < refs (mem s) o -> vmo_anon o (mem s) = false ->
  safe own own s (snd (sys_mmap_file lay other len p f o off mw (on_mem (vmo_ref o) s))).
Proof.
  intros Hr I Hpos Han. apply reach_end. pose proof (reach_ref _ _ _ _ _ o (reach_begin own s I) Hpos) as R.
  apply sys_mmap_file_ok; [done | done | apply I | done |]. cbn. pose proof (ref_law o (mem s) Hpos) as L.
  destruct (ms_stable _ _ _ L o Hpos) as [-> _]; [| done]. rewrite (ms_refs _ _ _ L). pose proof (one_nonneg o o). lia.
Qed.

Lemma threads_rely g : threads g -> rely g.
Proof.
  induction 1 as [| g h _ IHg _ IHh | | | | | | |]; intros own s I.
  - split; [done | apply keeps_refl].
  - destruct (IHg own s I) as [I1 K1]. destruct (IHh own _ I1) as [I2 K2]. split; [done |]. by apply (keeps_trans _ _ _ (g s)).
  - apply reach_end, vma_mmap_ok; [done | by apply reach_begin | apply I | done | done |]. intros _. apply page_align_up_spec.
  - destruct (_ && _) eqn:Eg; [| split; [done | apply keeps_refl]]. apply andb_true_iff in Eg as [? ?%negb_true_iff]. b2p.
    by apply mmap_file_safe.
  - by apply vma_munmap_ok.
  - by apply vma_mprotect_ok.
  - by apply vm_fault_ok.
  - by apply vma_heap_ok.
  - apply reach_end, vma_map_anon_at_ok; try done; [by apply reach_begin | apply I].
Qed.

(** No page is ever writable and executable. *)
Lemma vinv_wx own s p f fl :
  vinv own s -> managed p -> p mod PAGE_SIZE = 0 -> pte (mem s) p = Some (f, fl) ->
  has fl VMM_WRITABLE && has fl VMM_EXEC = false.
Proof.
  intros I Hm Ha Hp. destruct (vi_rights _ _ I p f fl Hm Ha Hp) as (v & Hv & _ & Rw & Rx & _).
  destruct (areas_ok_elem _ _ _ (vi_areas _ _ I) Hv) as [_ (_ & _ & _ & _ & Hwx)].
  destruct (has fl VMM_WRITABLE), (has fl VMM_EXEC); try done. by rewrite (Rw eq_refl), (Rx eq_refl) in Hwx.
Qed.

(** ** Teardown *)

Lemma detach_page_quiet v o m va : mstep none m (detach_page v o m va).
Proof.
  unfold detach_page. cbv zeta. destruct (_ =? 0); [apply mstep_refl |]. destruct (_ =? _); [| apply mstep_refl].
  apply (mstep_none_trans _ (vmm_unmap va m)); [apply unmap_step | apply unwire_law].
Qed.

Lemma detach_area_quiet m v : mstep none m (detach_area m v).
Proof.
  unfold detach_area. destruct (obj v) as [o |]; [| apply mstep_refl]. destruct (vmo_anon o m); [apply detach_law |].
  apply fold_quiet. intros. apply detach_page_quiet.
Qed.

Lemma put_list l (m : M) o :
  (forall v, v ∈ l -> obj v <> None) -> (forall x, count x l <= refs m x) ->
  refs (fold_left put_object l m) o = refs m o - count o l /\ thinned m (fold_left put_object l m).
Proof.
  revert m. induction l as [| v l IH]; intros m Hob Hc; simpl; [split; [unfold count; simpl; lia | by left] |]. rewrite count_cons.
  destruct (obj v) as [x |] eqn:Ex; [| by destruct (Hob v ltac:(left))].
  assert (put_object m v = vmo_put x m) as -> by (unfold put_object; by rewrite Ex).
  assert (0 < refs m x) as Hpos.
  { specialize (Hc x). rewrite count_cons, Ex in Hc. destruct (decide _); [| done]. pose proof (count_nonneg x l). lia. }
  pose proof (ms_refs _ _ _ (put_law x m Hpos)) as Hr. unfold one in Hr. destruct (IH (vmo_put x m)) as [-> Ht].
  3: { split; [rewrite Hr; destruct (Z.eqb_spec o x), (decide (Some x = Some o)); simplify_eq; lia |].
       apply (thinned_trans m (vmo_put x m)); [exact (ms_pte _ _ _ (put_law x m Hpos)) | exact Ht]. }
  - intros w Hw. apply Hob. by right.
  - intros y. specialize (Hc y). rewrite count_cons, Ex in Hc. rewrite Hr.
    destruct (Z.eqb_spec y x), (decide (Some x = Some y)); simplify_eq; lia.
Qed.

Lemma destroy_refs own s o : vinv own s -> refs (mem (vma_destroy_all s)) o = refs (mem s) o - count o (vmas s).
Proof.
  intros I. unfold vma_destroy_all, vma_detach_all, vma_destroy_list. cbn [mem on_mem set_mem set_list].
  pose proof (fold_quiet detach_area (vmas s) (mem s) detach_area_quiet) as L. pose proof (ms_refs _ _ _ L) as Hr. unfold none in Hr.
  match goal with |- refs (fold_left _ ?l ?m) _ = _ => destruct (put_list l m o) as [-> _] end.
  3: { rewrite Hr, (count_perm o (rev (vmas s)) (vmas s)); [lia | symmetry; apply Permutation_rev]. }
  - intros v Hv. apply (vi_obj _ _ I). rewrite list_elem_of_In, <- in_rev, <- list_elem_of_In in Hv. done.
  - intros x. rewrite Hr, (count_perm x (rev (vmas s)) (vmas s)); [| symmetry; apply Permutation_rev].
    pose proof (slack_nonneg _ (vi_refs _ _ I x)). pose proof (vi_own _ _ I x). lia.
Qed.
End Safety.

(** ** The theorems *)

(** What the limits of an address space satisfy. *)
Record space_ok (lay : user_layout) (managed : Z -> Prop) : Prop := {
  so_layout : layout_ok lay;
  so_mmap p : mmap_base lay <= p < mmap_max lay -> managed p;
  so_heap_range : 0 <= heap_base lay /\ heap_max lay < 2 ^ 64;
  so_heap p : heap_base lay <= p < heap_max lay -> managed p;
}.

(** C1. Whatever the threads of a process do -- any calls and faults, with any
    interleaving at every point where an operation drops the lock -- the
    invariant stays: the list is sorted, page-aligned and disjoint; every
    mapped page lies in a mapping that grants every right its entry gives; no
    entry is writable and executable; and every object has at least one
    reference for each mapping that holds it, so none is freed in use. *)
Theorem vma_threads_safe {M} `{VmLaws M} lay managed (slack : Z -> Prop) own g s :
  space_ok lay managed -> (forall d, slack d -> 0 <= d) ->
  threads lay managed g -> vinv managed slack own s ->
  vinv managed slack own (g s)
  /\ (forall p f fl, managed p -> p mod PAGE_SIZE = 0 -> pte (mem (g s)) p = Some (f, fl) ->
        has fl VMM_WRITABLE && has fl VMM_EXEC = false).
Proof.
  intros [S1 S2 S3 S4] Hs Ht I.
  destruct (threads_rely lay managed slack Hs S1 S2 S3 S4 g Ht own s I) as [I' _].
  split; [done |]. intros p f fl. by apply vinv_wx with (own := own) (slack := slack).
Qed.

(** C15. When the process exits after any such history, each object is left with
    exactly the references the rest of the system holds: no mapping keeps one
    and none is given back twice. *)
Theorem vma_exit_returns_references {M} `{VmLaws M} lay managed own g s o :
  space_ok lay managed -> threads lay managed g -> vinv managed (fun d => d = 0) own s ->
  refs (mem (vma_destroy_all (g s))) o = own o.
Proof.
  intros [S1 S2 S3 S4] Ht I. assert (forall d, d = 0 -> 0 <= d) as Hs by lia.
  destruct (threads_rely lay managed _ Hs S1 S2 S3 S4 g Ht own s I) as [I' _].
  rewrite (destroy_refs managed _ Hs own) by done. pose proof (vi_refs _ _ _ _ I' o) as Hr. cbv beta in Hr. lia.
Qed.

(** ** The small machine keeps the laws *)

Module ToyLaws.
Import VmaView.Toy.

#[global] Instance toy_ghost : VmGhost toy := {| pte := t_pte; refs := t_refs; mapper := t_mapper |}.

Lemma upd_eq {A} (f : Z -> A) k a : upd f k a k = a.
Proof. unfold upd. by rewrite Z.eqb_refl. Qed.

Lemma upd_ne {A} (f : Z -> A) k a x : x <> k -> upd f k a x = f x.
Proof. intros Hne. unfold upd. by destruct (Z.eqb_spec x k). Qed.

Lemma quiet_same (m m' : toy) :
  t_pte m' = t_pte m -> t_refs m' = t_refs m -> t_anon m' = t_anon m -> t_mapper m' = t_mapper m -> mstep none m m'.
Proof. intros E1 E2 E3 E4. split; cbn; rewrite ?E1, ?E2, ?E3, ?E4; [auto | intros o; unfold none; lia | done]. Qed.

Lemma pstep_upd (m : toy) p e : pstep p m (set_pte m (upd (t_pte m) p e)).
Proof. split; cbn; [intros q Hq; by apply upd_ne | done | done]. Qed.

Lemma create_toy len (m : toy) :
  match create len m with
  | (Some o, m') => refs m o = 0 /\ mstep (one o) m m' /\ vmo_anon o m' = true
  | (None, m') => mstep none m m'
  end.
Proof.
  unfold create. destruct (Z.eqb_spec (t_refs m (t_next m)) 0) as [Hz | _]; [| by apply quiet_same].
  split; [done |]. split; [| apply upd_eq]. split; cbn; [auto | |].
  - intros o. unfold upd, one. destruct (Z.eqb_spec o (t_next m)) as [-> | _]; lia.
  - intros o Ho _. rewrite upd_ne; [done |]. intros ->. lia.
Qed.

#[global] Instance toy_laws : VmLaws toy.
Proof.
  split; try (intros; by apply quiet_same).
  - done.
  - intros o i n m. split; cbn; [intros p; destruct (in_pages _ _ _ _); auto | intros x; unfold none; lia | done].
  - intros o i n m k _ _ Hk. cbn. unfold in_pages. replace (t_mapper m o + k * PAGE_SIZE - t_mapper m o) with (k * PAGE_SIZE) by lia.
    rewrite Z_mod_mult, Z_div_mult by done. by destruct (Z.leb_spec i k), (Z.ltb_spec k (i + n)); try lia.
  - intros o m Hr. split; cbn; [auto | | done]. intros x. unfold upd, one. destruct (Z.eqb_spec x o) as [-> | _]; lia.
  - intros o m Hr. split; cbn; [auto | | done]. intros x. unfold upd, one. destruct (Z.eqb_spec x o) as [-> | _]; lia.
  - exact create_toy.
  - intros o a m. cbn. split_and!; try done; [apply upd_eq | intros x Hx; by apply upd_ne].
  - intros p m. cbn. destruct (t_pte m p) as [[f fl] |]; [| done]. destruct (Z.eqb_spec f 0); [done |]. split; done.
  - intros page f fl m. cbn. split; [apply pstep_upd | apply upd_eq].
  - intros page fl m. cbn. destruct (t_pte m page) as [[f x] |] eqn:E; cbn; [split; [apply pstep_upd | apply upd_eq] |].
    split; [by split | done].
  - intros page m. cbn. split; [apply pstep_upd | apply upd_eq].
Qed.

Definition managed (p : Z) : Prop := 0x100000 <= p < 0x500000.

Lemma toy_space : space_ok lay managed.
Proof. split; unfold managed, lay; cbn; [by vm_compute | lia | lia | lia]. Qed.

(** The open file holds the second reference. *)
Definition held : Z -> Z := one 5.

Lemma machine_inv : vinv managed (fun d => d = 0) held machine.
Proof.
  split; cbn.
  - apply one_nonneg.
  - exact machine_areas.
  - intros v p ->%list_elem_of_singleton. unfold inside, managed. cbn. lia.
  - done.
  - intros o. unfold count, held, one, upd. rewrite filter_cons. cbn.
    destruct (Z.eqb_spec o 5) as [-> | Hne]; [by vm_compute |]. destruct (decide (Some 5 = Some o)); [simplify_eq |]. done.
  - intros v o ->%list_elem_of_singleton. by intros [= <-].
  - by intros v ->%list_elem_of_singleton.
Qed.
End ToyLaws.

(** ** A race in the fault handler *)

Module Race.
Import VmaView.Toy ToyLaws.

Definition rw : Z := Z.lor PROT_READ PROT_WRITE.

(** Another thread takes the shared mapping away and maps the same file
    privately; the address is the same, the lowest free one. *)
Definition unmap_it (s : vst) : vst := snd (vma_munmap alone 0x100000 0x3000 s).
Definition map_it (s : vst) : vst :=
  if (0 <? refs (mem s) 5) && negb (vmo_anon 5 (mem s))
  then snd (sys_mmap_file lay alone 0x3000 rw MAP_PRIVATE 5 0 true (on_mem (vmo_ref 5) s)) else s.
Definition remap_private (s : vst) : vst := map_it (unmap_it s).

Lemma remap_threads : threads lay managed remap_private.
Proof.
  apply (th_then lay managed unmap_it map_it).
  - apply (th_munmap lay managed alone), th_none.
  - apply (th_mmap_file lay managed alone), th_none.
Qed.

(** Another thread replaces the mapping by one of a file it opened for reading
    only. *)
Definition map_read_only (s : vst) : vst :=
  if (0 <? refs (mem s) 5) && negb (vmo_anon 5 (mem s))
  then snd (sys_mmap_file lay alone 0x3000 PROT_READ MAP_SHARED 5 0 false (on_mem (vmo_ref 5) s)) else s.
Definition remap_read_only (s : vst) : vst := map_read_only (unmap_it s).

Lemma remap_read_only_threads : threads lay managed remap_read_only.
Proof.
  apply (th_then lay managed unmap_it map_read_only).
  - apply (th_munmap lay managed alone), th_none.
  - apply (th_mmap_file lay managed alone), th_none.
Qed.
End Race.

(** The fault handler remembers the flags of the mapping from before it
    dropped the lock.  If meanwhile another thread unmaps a shared file mapping
    and maps the same file privately at the same address, the fault enters the
    file's own cache frame writable into the private mapping: stores that must
    stay private reach the file. *)
Theorem fault_stale_flags :
  exists (g : vst -> vst) (s : vst) (v : vm_area) fl,
    threads Toy.lay ToyLaws.managed g /\ vinv ToyLaws.managed (fun d => d = 0) ToyLaws.held s
    /\ let s' := snd (vm_fault_resolve g 0x100000 true false s) in
       vma_find 0x100000 (vmas s') = Some v /\ private_file v (mem s') = true
       /\ pte (mem s') 0x100000 = Some (vmo_page_phys 5 0 (mem s'), fl) /\ has fl VMM_WRITABLE = true.
Proof.
  exists Race.remap_private, Toy.machine, (mkVma 0x100000 0x103000 Race.rw MAP_PRIVATE (Some 5) 0), (prot_to_vmm Race.rw).
  split; [exact Race.remap_threads |]. split; [exact ToyLaws.machine_inv |]. by vm_compute.
Qed.

(** [mprotect] checks before it takes the lock that no mapping of the range
    is a shared one of a file opened for reading only.  Another thread that
    puts such a mapping there in between gets it made writable: the file is
    written through a descriptor that may not. *)
Theorem mprotect_check_race :
  exists (g : vst -> vst) (s : vst) (v : vm_area),
    threads Toy.lay ToyLaws.managed g /\ vinv ToyLaws.managed (fun d => d = 0) ToyLaws.held s
    /\ let '(rc, s') := vma_mprotect g 0x100000 0x3000 Race.rw s in
       rc = Errno.EMBK_OK /\ vma_find 0x100000 (vmas s') = Some v
       /\ has (flags v) VMA_NO_SHARED_WRITE && has (flags v) MAP_SHARED && has (prot v) PROT_WRITE = true.
Proof.
  exists Race.remap_read_only, Toy.machine,
    (mkVma 0x100000 0x103000 Race.rw (Z.lor MAP_SHARED VMA_NO_SHARED_WRITE) (Some 5) 0).
  split; [exact Race.remap_read_only_threads |]. split; [exact ToyLaws.machine_inv |]. by vm_compute.
Qed.

(** The same operations, one after the other, are safe. *)
Lemma vma_threads_safe_witness :
  threads Toy.lay ToyLaws.managed Race.remap_private
  /\ vinv ToyLaws.managed (fun d => d = 0) ToyLaws.held (Race.remap_private Toy.machine).
Proof.
  split; [exact Race.remap_threads |]. assert (forall d, d = 0 -> 0 <= d) as Hs by lia.
  exact (proj1 (vma_threads_safe Toy.lay ToyLaws.managed (fun d => d = 0) ToyLaws.held Race.remap_private Toy.machine
    ToyLaws.toy_space Hs Race.remap_threads ToyLaws.machine_inv)).
Defined.

Lemma vma_exit_returns_references_witness :
  refs (mem Toy.machine) 5 = 2 /\ refs (mem (vma_destroy_all (Race.remap_private Toy.machine))) 5 = 1.
Proof.
  split; [by vm_compute |].
  exact (vma_exit_returns_references Toy.lay ToyLaws.managed ToyLaws.held Race.remap_private Toy.machine 5
    ToyLaws.toy_space Race.remap_threads ToyLaws.machine_inv).
Defined.
