(* ===== verification/VmaExact.v ===== *)
(** * Memory mappings: what [munmap] and [mprotect] do, exactly

    With no other thread of the process running, for every state that keeps the
    invariant: the list page by page, the page table entry by entry, and the
    references of every object.  The layer below may take pages away at any
    call that can block (reclaim), so an entry outside the range is as it was,
    or gone. *)

From S2P Require Import Prelude Pmm Vma VmaList VmaView VmaSafety.

Section Exact.
Context {M : Type} `{VmLaws M} (managed : Z -> Prop).
Abbreviation vst := (@vst M).

(** The invariant, whoever else holds references. *)
Definition sound (s : vst) : Prop := vinv managed (fun d => 0 <= d) none s.

(** The references that mappings do not hold. *)
Definition elsewhere (s : vst) (o : Z) : Z := refs (mem s) o - count o (vmas s).

(** Every object gains and loses a reference with the mappings that hold it. *)
Definition balanced (s s' : vst) : Prop := forall o, elsewhere s' o = elsewhere s o.

Lemma alone_rely slack : rely managed slack alone.
Proof. intros own s I. split; [done | apply keeps_refl]. Qed.

Lemma zero_slack d : d = 0 -> 0 <= d.
Proof. lia. Qed.

(** The invariant with every reference accounted for, and back. *)
Lemma sound_counted s : sound s -> vinv managed (fun d => d = 0) (elsewhere s) s.
Proof.
  intros [I1 I2 I3 I4 I5 I6 I7]. split; try done; unfold elsewhere; intros o; [specialize (I5 o); unfold none in I5 |]; lia.
Qed.

Lemma counted_sound s s' : sound s -> vinv managed (fun d => d = 0) (elsewhere s) s' -> sound s' /\ balanced s s'.
Proof.
  intros I [I1 I2 I3 I4 I5 I6 I7]. split.
  - split; try done. intros o. specialize (I1 o). specialize (I5 o). unfold none. lia.
  - intros o. specialize (I5 o). unfold elsewhere in *. lia.
Qed.

Lemma munmap_sound addr len s : sound s -> let s' := snd (vma_munmap alone addr len s) in sound s' /\ balanced s s'.
Proof.
  intros I. apply (counted_sound s); [done |].
  apply (vma_munmap_ok managed _ zero_slack alone addr len _ s (alone_rely _) (sound_counted s I)).
Qed.

Lemma mprotect_sound addr len p s : sound s -> let s' := snd (vma_mprotect alone addr len p s) in sound s' /\ balanced s s'.
Proof.
  intros I. apply (counted_sound s); [done |].
  apply (vma_mprotect_ok managed _ zero_slack alone addr len p _ s (alone_rely _) (sound_counted s I)).
Qed.

(** ** Pages only go away *)

Lemma split_at_thins at_ s : sound s -> thinned (mem s) (mem (snd (vma_split_at at_ s))).
Proof.
  intros I. unfold vma_split_at. destruct (cut at_ (vmas s)) as [[v l] |] eqn:Ec; [| by left]. unfold call_mem.
  pose proof (node_alloc_law (mem s)) as L. destruct (node_alloc (mem s)) as [node m1]. cbn in L.
  destruct (node =? 0); [intros p; apply L |]. destruct (obj v) as [o |] eqn:Eo; [| intros p; apply L]. cbn.
  apply (thinned_trans _ m1); [intros p; apply L |]. destruct (cut_split _ _ _ _ Ec) as (l1 & l2 & El & _).
  assert (0 < refs m1 o) as Hr; [| intros p; apply (ref_law o m1 Hr)]. rewrite (ms_refs _ _ _ L). unfold none. rewrite Z.add_0_r.
  apply (refs_pos managed _ ltac:(done) none s o I). right. exists v. split; [rewrite El; apply elem_of_app; right; left | done].
Qed.

Lemma split_both_sound addr e s :
  sound s -> addr mod PAGE_SIZE = 0 -> e mod PAGE_SIZE = 0 ->
  let s1 := snd (split_both addr e s) in sound s1 /\ thinned (mem s) (mem s1).
Proof.
  intros I Ha He. cbv zeta.
  assert (forall at_ x, sound x -> at_ mod PAGE_SIZE = 0 -> sound (snd (vma_split_at at_ x))) as Hs.
  { intros at_ x Ix Hat. apply (split_at_ok managed _ ltac:(done) none _ x none at_ x (reach_begin _ _ _ _ Ix) Hat ltac:(done)). }
  unfold split_both. pose proof (Hs addr s I Ha) as I1. pose proof (split_at_thins addr s I) as T1.
  destruct (vma_split_at addr s) as [ok s1]. cbn [snd] in *. destruct ok; [| done]. split; [by apply Hs |].
  apply (thinned_trans _ (mem s1)); [done | by apply split_at_thins].
Qed.

Lemma release_thins own slack (Hs : forall d, slack d -> 0 <= d) chain (s : vst) :
  vinv managed slack own s -> (forall d, d ∈ chain -> d ∈ vmas s) -> mstep none (mem s) (fold_left release_pages chain (mem s)).
Proof.
  revert s. induction chain as [| d chain IH]; intros s I Hin; simpl; [apply mstep_refl |].
  destruct (release_quiet managed slack Hs own s d I (Hin d ltac:(left))) as [L _].
  apply (mstep_none_trans _ (release_pages (mem s) d)); [done |]. apply (IH (set_mem s (release_pages (mem s) d))).
  - by apply (quiet managed slack Hs own (fun _ => False)).
  - intros x Hx. apply Hin. by right.
Qed.

Lemma count_chain o addr e l : count o (chain_of addr e l) <= count o l.
Proof.
  unfold chain_of. rewrite rev_reverse, (count_perm o _ _ (reverse_Permutation _)), count_fmap by done.
  induction l as [| v l IH]; [done |]. rewrite filter_cons, (count_cons o v l). pose proof (count_nonneg o l).
  destruct (decide (touched addr e v = true)); [rewrite count_cons |]; destruct (decide (obj v = Some o)); lia.
Qed.

Lemma munmap_thins addr len s :
  sound s -> 0 <= addr < 2 ^ 64 -> ~ malformed addr len -> thinned (mem s) (mem (snd (vma_munmap alone addr len s))).
Proof.
  intros I Ha Hm. destruct (well_formed addr len Ha Hm) as (E0 & Eu & Ew & _ & Aa & Ae). set (e := addr + page_align_up len) in *.
  unfold vma_munmap. rewrite E0. fold e. rewrite Eu, Ew. destruct (split_both_sound addr e s I Aa Ae) as [I1 T1].
  destruct (split_both addr e s) as [ok s1]. cbn [snd] in I1, T1. destruct ok; cbn [negb snd]; [| done].
  change (rev _) with (chain_of addr e (vmas s1)). change (_ <$> vmas s1) with (mark addr e <$> vmas s1).
  pose proof (mark_ok _ _ _ _ _ none addr e s1 (reach_begin _ _ _ _ I1)) as [I2 _]. set (s2 := set_list s1 _) in *.
  destruct (chain_of addr e (vmas s1)) as [| c0 chain0] eqn:Ech; [done |]. rewrite <- Ech. unfold alone. cbn [snd mem set_mem set_list].
  assert (forall d, d ∈ chain_of addr e (vmas s1) -> d ∈ vmas s2) as Hin by (intros d Hd; by apply chain_in in Hd as [? _]).
  pose proof (release_thins none (fun d => 0 <= d) ltac:(done) _ s2 I2 Hin) as L. change (mem s2) with (mem s1) in L.
  apply (thinned_trans _ (mem s1)); [done |]. eapply thinned_trans; [intros q; apply L |]. apply (put_list _ _ 0).
  - intros d Hd. apply (vi_obj _ _ _ _ I2). by apply Hin.
  - intros o. rewrite (ms_refs _ _ _ L). pose proof (count_chain o addr e (vmas s1)). pose proof (vi_refs _ _ _ _ I1 o) as Hr. unfold none in *. lia.
Qed.

(** ** Protection of pages *)

(** The flags a page of a mapping gets. *)
Definition page_flags (p : Z) (v : vm_area) (m : M) : Z :=
  if private_file v m then Z.land (prot_to_vmm p) (!64 (Z.lnot VMM_WRITABLE)) else prot_to_vmm p.

Definition reflagged (fl : Z) (x : option (Z * Z)) : option (Z * Z) := (fun '(f, _) => (f, fl)) <$> x.

Lemma private_file_same v m m' : reflag m m' -> private_file v m' = private_file v m.
Proof. intros [_ Hs]. unfold private_file. destruct (obj v) as [o |]; [| done]. by destruct (Hs o) as [-> _]. Qed.

Lemma protect_loop_exact fl l m q :
  pte (fold_left (fun m va => snd (vmm_protect va fl m)) l m) q = if decide (q ∈ l) then reflagged fl (pte m q) else pte m q.
Proof.
  revert m. induction l as [| va l IH]; intros m; cbn [fold_left]; [by rewrite decide_False by apply not_elem_of_nil |].
  rewrite IH. pose proof (protect_law va fl m) as L. destruct (vmm_protect va fl m) as [rc m1]. destruct L as [[Pp _ _] Hva]. cbn [snd].
  assert (pte m1 q = if decide (q = va) then reflagged fl (pte m q) else pte m q) as ->.
  { destruct (decide (q = va)) as [-> | Hne]; [| by apply Pp]. rewrite Hva. by destruct (pte m va) as [[? ?] |]. }
  destruct (decide (q ∈ l)), (decide (q ∈ va :: l)) as [Hc | Hc], (decide (q = va)); set_unfold; try done; try tauto.
  by destruct (pte m q) as [[? ?] |].
Qed.

Lemma protect_pages_exact p m v q :
  area_ok v -> reflag m (protect_pages p m v)
  /\ pte (protect_pages p m v) q = if decide (inside v q /\ q mod PAGE_SIZE = 0) then reflagged (page_flags p v m) (pte m q) else pte m q.
Proof.
  intros (_ & As & Ae & _). destruct (protect_loop _ p (pages_between (start v) (end_ v)) m (effective_rights p v m)) as (F & _).
  split; [exact F |]. unfold protect_pages. rewrite protect_loop_exact. pose proof (pages_between_spec (start v) (end_ v) q As Ae) as Hp.
  unfold inside. by destruct (decide (q ∈ _)), (decide (_ ∧ _)); try tauto.
Qed.

Lemma protect_all_exact p vs m q :
  (forall v, v ∈ vs -> area_ok v) -> (forall v w, v ∈ vs -> w ∈ vs -> inside v q -> inside w q -> v = w) -> NoDup vs ->
  let m' := fold_left (protect_pages p) vs m in
  (forall v, v ∈ vs -> inside v q -> q mod PAGE_SIZE = 0 -> pte m' q = reflagged (page_flags p v m) (pte m q))
  /\ ((forall v, v ∈ vs -> ~ inside v q) \/ q mod PAGE_SIZE <> 0 -> pte m' q = pte m q).
Proof.
  cbv zeta. revert m. induction vs as [| v vs IH]; intros m Hok Hd Hn; cbn [fold_left]; [split; [by intros ? ?%elem_of_nil | done] |].
  apply NoDup_cons in Hn as [Hv Hn]. destruct (protect_pages_exact p m v q (Hok v ltac:(left))) as [F E].
  destruct (IH (protect_pages p m v)) as [G1 G2]; [set_solver | set_solver | done |]. split.
  - intros w [-> | Hw]%elem_of_cons Pw Aq.
    + rewrite G2, E, decide_True by (try done; left; intros w Hw Pw'; rewrite (Hd w v) in Hw; set_solver). done.
    + rewrite (G1 w Hw Pw Aq), E, decide_False by (intros [Pv _]; rewrite (Hd w v) in Hw; set_solver).
      f_equal. unfold page_flags. by rewrite (private_file_same w m _ F).
  - intros Hq. rewrite G2, E, decide_False; [done | |]; destruct Hq as [Hq | Hq].
    + intros [Pv _]. by apply (Hq v ltac:(left)).
    + by intros [_ ?].
    + left. intros w Hw. apply Hq. by right.
    + by right.
Qed.

(** What [mprotect] does to the page table. *)
Lemma mprotect_pages addr len p s :
  sound s -> 0 <= addr < 2 ^ 64 -> ~ malformed addr len -> bad_prot p = false ->
  let e := addr + page_align_up len in
  let '(rc, s') := vma_mprotect alone addr len p s in
  forall q,
    (rc = 0 -> addr <= q < e -> q mod PAGE_SIZE = 0 -> forall v, vma_find q (vmas s') = Some v ->
       pte (mem s') q = reflagged (page_flags p v (mem s')) (pte (mem s) q) \/ pte (mem s') q = None)
    /\ (rc <> 0 \/ ~ (addr <= q < e) -> pte (mem s') q = pte (mem s) q \/ pte (mem s') q = None).
Proof.
  intros I Ha Hm Hb e. destruct (well_formed addr len Ha Hm) as (_ & _ & _ & Hle & Aa & Ae). fold e in Hle, Ae.
  rewrite (mprotect_run addr len p s Ha Hm Hb). fold e. pose proof (cover_refusal (vmas s) e p addr (mem s) 0 (vi_areas _ _ _ _ I)) as Hr.
  destruct (cover _ _ _ _ _) as [c | err]; [| intros q; split; [by destruct Hr as [? _]; intros | by left]].
  destruct (c <? e); [intros q; split; [done | by left] |].
  destruct (split_both_sound addr e s I Aa Ae) as [I1 T1]. pose proof (split_both_view addr e s (vi_areas _ _ _ _ I) Aa Ae) as Hs.
  destruct (split_both addr e s) as [ok s1]. cbn [snd] in I1, T1. destruct Hs as (Hl1 & _ & Hu).
  destruct ok; cbn [negb]; [| intros q; split; [done | by intros; apply T1]]. destruct (Hu eq_refl) as [Ua Ue].
  cbn [vmas mem set_list set_mem]. change (_ <$> vmas s1) with (reprot addr e p <$> vmas s1). set (vs := filter _ (vmas s1)).
  assert (forall v, v ∈ vs <-> touched addr e v = true /\ v ∈ vmas s1) as Hvs by (intros v; subst vs; by rewrite list_elem_of_filter).
  assert (forall v, v ∈ vs -> area_ok v) as Hok by (intros v [_ Hv]%Hvs; by apply (areas_ok_elem 0 _ _ Hl1)).
  assert (forall q v w, v ∈ vs -> w ∈ vs -> inside v q -> inside w q -> v = w) as Hd.
  { intros q v w [_ Hv]%Hvs [_ Hw]%Hvs. by apply (areas_disjoint 0 (vmas s1)). }
  assert (NoDup vs) as Hn by (apply NoDup_filter, (areas_nodup 0); done).
  destruct (protect_all p vs (mem s1) Hok) as (F & _). cbv zeta in F. intros q.
  destruct (protect_all_exact p vs (mem s1) q Hok (Hd q) Hn) as [G1 G2]. cbv zeta in G1, G2. set (m' := fold_left _ vs _) in *. split.
  - intros _ Hq Aq v Hv. destruct (find_reprot addr e p (vmas s1) q v Hl1 Ua Ue Hle ltac:(unfold bad_prot in Hb; by apply orb_false_iff in Hb as [_ ?]) Hq Hv)
      as (w & -> & Hw & Pw & Ht).
    rewrite (G1 w) by (done || by apply Hvs). change (page_flags p (with_prot w p) m') with (page_flags p w m').
    unfold page_flags. rewrite (private_file_same w _ _ F). destruct (T1 q) as [-> | ->]; [by left | by right].
  - intros [Hq | Hq]; [done |]. rewrite G2; [apply T1 |]. left. intros v [Ht Hv]%Hvs Pv. apply Hq.
    apply (touched_inside addr e (vmas s1) v q); try done. unfold touched in Ht. destruct (dying v); [by rewrite orb_true_r in Ht | done].
Qed.

(** ** The theorems *)

(** C10. [munmap] with no other thread of the process running.  A request of
    length 0, at an unaligned address or past the end of memory is refused with
    [EINVAL] and changes nothing.  Otherwise either something was mapped in the
    range, and then every page of the range is unmapped, in the list and in the
    page table, and no other page of the list changes; or nothing was mapped
    there, which is [EINVAL]; or a mapping crosses an end of the range and there
    is no memory for its second half, which is [ENOMEM].  In the last two cases
    no page changes.  In every case the invariant stays, no page-table entry
    appears or changes except by going away, and every object has gained and
    lost exactly the references of the mappings that hold it. *)
Theorem vma_munmap_exact addr len (s : vst) :
  sound s -> 0 <= addr < 2 ^ 64 ->
  let e := addr + page_align_up len in
  let '(rc, s') := vma_munmap alone addr len s in
  sound s' /\ balanced s s' /\ thinned (mem s) (mem s')
  /\ (malformed addr len -> rc = - Errno.EMBK_EINVAL /\ s' = s)
  /\ (~ malformed addr len ->
       (rc = Errno.EMBK_OK /\ ~ empty_range (vmas s) addr e
         /\ (forall p, view (vmas s') p = if (addr <=? p) && (p <? e) then None else view (vmas s) p)
         /\ (forall p, addr <= p < e -> p mod PAGE_SIZE = 0 -> view (vmas s) p <> None -> pte (mem s') p = None))
       \/ (rc = - Errno.EMBK_EINVAL /\ empty_range (vmas s) addr e /\ same_view (vmas s) (vmas s'))
       \/ (rc = - Errno.EMBK_ENOMEM /\ split_fails addr e s /\ same_view (vmas s) (vmas s'))).
Proof.
  intros I Ha e. destruct (munmap_sound addr len s I) as [I' B]. cbv zeta in I', B.
  destruct (malformed_dec addr len) as [Hm | Hm].
  { rewrite (munmap_malformed addr len s Ha Hm) in *. split_and!; [done | done | by left | done | done]. }
  pose proof (munmap_thins addr len s I Ha Hm) as T. pose proof (munmap_view addr len s (vi_areas _ _ _ _ I) Ha Hm) as V.
  destruct (vma_munmap alone addr len s) as [rc s']. cbn [snd] in I', B, T. fold e in V. split_and!; [done | done | done | done |]. intros _.
  destruct V as [(-> & Hne & Hv & Hh) | [(-> & Hv & He) | (-> & Hv & Hf)]]; [left | right; left; by split_and! | right; right; by split_and!].
  split_and!; [done | done | done |]. intros p Hp Ap Hvp. destruct (pte (mem s') p) as [[f fl] |] eqn:Ep; [| done]. exfalso.
  assert (managed p) as Mp.
  { rewrite view_holder in Hvp by apply I. destruct (holder (vmas s) p) as [v |] eqn:Eh; [| done].
    apply (holder_Some 0) in Eh as [Hin Pv]; [| apply I]. by apply (vi_managed _ _ _ _ I v). }
  destruct (vi_rights _ _ _ _ I' p f fl Mp Ap Ep) as (w & Hw & Pw & _). specialize (Hh p Hp Hvp). rewrite holder_None in Hh. by apply (Hh w).
Qed.

(** C11. [mprotect] with no other thread of the process running.  A malformed
    range, unknown bits, or memory to be both writable and executable, is
    refused with [EINVAL] and changes nothing.  Otherwise either every page of
    the range is mapped and no mapping in it refuses the protection, and then
    every page of the range has the new protection with its flags, object and
    offset kept, every page-table entry of the range keeps its frame and has
    exactly the flags of the new protection, without the write bit in a private
    file mapping, and no other page changes; or it is [ENOMEM], because a page is
    not mapped or there is no memory to cut a mapping, and no page changes; or a
    mapping of the range refuses to be written, its error is returned and nothing
    changes.  In every case the invariant stays, no entry outside the range
    appears or changes except by going away, and every object has gained exactly
    the references of the mappings that were cut. *)
Theorem vma_mprotect_exact addr len p (s : vst) :
  sound s -> 0 <= addr < 2 ^ 64 ->
  let e := addr + page_align_up len in
  let '(rc, s') := vma_mprotect alone addr len p s in
  sound s' /\ balanced s s'
  /\ (malformed addr len \/ bad_prot p = true -> rc = - Errno.EMBK_EINVAL /\ s' = s)
  /\ (~ malformed addr len -> bad_prot p = false ->
       (forall q, rc <> Errno.EMBK_OK \/ ~ (addr <= q < e) -> pte (mem s') q = pte (mem s) q \/ pte (mem s') q = None)
       /\ ((rc = Errno.EMBK_OK /\ full_range (vmas s) addr e
             /\ (forall q v, addr <= q < e -> vma_find q (vmas s) = Some v -> refusal p v (mem s) = 0)
             /\ (forall q, view (vmas s') q = if (addr <=? q) && (q <? e)
                                             then (fun '(_, fl, o, i) => (p, fl, o, i)) <$> view (vmas s) q
                                             else view (vmas s) q)
             /\ (forall q v, addr <= q < e -> q mod PAGE_SIZE = 0 -> vma_find q (vmas s') = Some v ->
                   pte (mem s') q = reflagged (page_flags p v (mem s')) (pte (mem s) q) \/ pte (mem s') q = None))
           \/ (rc = - Errno.EMBK_ENOMEM /\ same_view (vmas s) (vmas s') /\ (~ full_range (vmas s) addr e \/ split_fails addr e s))
           \/ (rc <> Errno.EMBK_OK /\ s' = s /\ exists q v, addr <= q < e /\ vma_find q (vmas s) = Some v /\ refusal p v (mem s) = rc))).
Proof.
  intros I Ha e. destruct (mprotect_sound addr len p s I) as [I' B]. cbv zeta in I', B.
  assert ((malformed addr len \/ bad_prot p = true) \/ (~ malformed addr len /\ bad_prot p = false)) as [Hbad | [Hm Hb]].
  { destruct (malformed_dec addr len), (bad_prot p); auto. }
  { rewrite (mprotect_malformed addr len p s Ha Hbad) in *. split_and!; [done | done | done |]. intros Hm Hb. exfalso. destruct Hbad; congruence. }
  pose proof (mprotect_view addr len p s (vi_areas _ _ _ _ I) Ha Hm Hb) as V. pose proof (mprotect_pages addr len p s I Ha Hm Hb) as P.
  destruct (vma_mprotect alone addr len p s) as [rc s']. cbn [snd] in I', B. cbv zeta in V, P. fold e in V, P.
  split_and!; [done | done | intros [? | ?]; [done | congruence] |]. intros _ _. split; [intros q; apply P |].
  destruct V as [(-> & V1 & V2 & V3) | V]; [left | by right]. split_and!; [done | done | done | done |]. intros q v Hq Aq. by apply (P q).
Qed.
End Exact.

(** ** An example *)

Module Mapped.
Import VmaView.Toy VmaSafety.ToyLaws.

(** The small machine with the middle page of the file in the page table. *)
Definition rw_flags : Z := prot_to_vmm (Z.lor PROT_READ PROT_WRITE).
Definition start_ : vst := set_mem machine (set_pte (mem machine) (upd (t_pte (mem machine)) 0x101000 (Some (frame_of 5 1, rw_flags)))).

Lemma start_sound : sound managed start_.
Proof.
  destruct machine_inv as [I1 I2 I3 I4 I5 I6 I7]. split; try done.
  - intros p f fl Mp Ap. cbn [mem start_ set_mem set_pte pte toy_ghost t_pte]. unfold upd at 1. destruct (Z.eqb_spec p 0x101000) as [-> | _]; [| done].
    intros [= _ <-]. exists file_area. split; [left |]. split; [by vm_compute | apply prot_rights].
  - intros o. specialize (I5 o). specialize (I1 o). cbn in *. unfold none. lia.
Qed.
End Mapped.

Lemma vma_munmap_exact_witness :
  let '(rc, s') := vma_munmap alone 0x101000 0x1000 Mapped.start_ in
  rc = 0 /\ sound ToyLaws.managed s' /\ pte (mem Mapped.start_) 0x101000 <> None /\ pte (mem s') 0x101000 = None.
Proof.
  pose proof (vma_munmap_exact ToyLaws.managed 0x101000 0x1000 Mapped.start_ Mapped.start_sound ltac:(lia)) as Hw. cbv zeta in Hw.
  assert (fst (vma_munmap alone 0x101000 0x1000 Mapped.start_) = 0) as E by (by vm_compute).
  destruct (vma_munmap alone 0x101000 0x1000 Mapped.start_) as [rc s']. cbn [fst] in E. subst rc. destruct Hw as (Hs & _ & _ & _ & Hw).
  split_and!; [done | exact Hs | by vm_compute |]. destruct Hw as [(_ & _ & _ & Hp) | [(? & _) | (? & _)]]; [| | done | done].
  - intros [? | [? | Hm]]; [done | done | by vm_compute in Hm].
  - apply Hp; [| done | by vm_compute]. replace (page_align_up 0x1000) with 0x1000 by (by vm_compute). lia.
Defined.

Lemma vma_mprotect_exact_witness :
  let '(rc, s') := vma_mprotect alone 0x101000 0x1000 PROT_READ Mapped.start_ in
  rc = 0 /\ sound ToyLaws.managed s' /\ full_range (vmas Mapped.start_) 0x101000 0x102000
  /\ view (vmas s') 0x101000 = Some (PROT_READ, MAP_SHARED, Some 5, 1).
Proof.
  pose proof (vma_mprotect_exact ToyLaws.managed 0x101000 0x1000 PROT_READ Mapped.start_ Mapped.start_sound ltac:(lia)) as Hw. cbv zeta in Hw.
  assert (fst (vma_mprotect alone 0x101000 0x1000 PROT_READ Mapped.start_) = 0) as E by (by vm_compute).
  destruct (vma_mprotect alone 0x101000 0x1000 PROT_READ Mapped.start_) as [rc s']. cbn [fst] in E. subst rc. destruct Hw as (Hs & _ & _ & Hw).
  replace (0x101000 + page_align_up 0x1000) with 0x102000 in Hw by (by vm_compute).
  destruct Hw as (_ & [(_ & Hf & _ & Hv & _) | [(? & _) | (? & _)]]); [| by vm_compute | | done | done].
  - intros [? | [? | Hm]]; [done | done | by vm_compute in Hm].
  - split_and!; [done | exact Hs | exact Hf | rewrite Hv; by vm_compute].
Defined.
