(* ===== verification/Compress.v ===== *)
(** * Extent compression ([kernel/fs/embkfs/embkfs_compress.c])

    The LZ compressor of the file system: greedy matching through a hash table,
    sequences of literals and matches, and the decompressor, which must survive
    any bytes a damaged disk hands it.

    The buffers are lists of bytes.  The destination of the compressor is the
    list written so far; a C test [dst + n > dst_end] is a test on its length.
    The decompressor works on indices, and every access to memory is checked:
    an access outside its buffer is the outcome [Fault]. *)

From S2P Require Import Prelude Bytes.

Definition EMBKZ_MINMATCH : Z := 4.
Definition EMBKZ_HASH_BITS : Z := 14.
Definition EMBKZ_HASH_SIZE : Z := Z.shiftl 1 EMBKZ_HASH_BITS.
Definition EMBKZ_MAX_OFFSET : Z := 65535.
Definition EMBKZ_MAX_MATCH : Z := 0x00FFFFFF.

Definition embk_compress_bound (src_len : Z) : Z := !32 (!32 (src_len + src_len / 255) + 16).

Definition read_u32le (p : list Z) (i : Z) : Z :=
  Z.lor (Z.lor (Z.lor (rd p i) (Z.shiftl (rd p (i + 1)) 8)) (Z.shiftl (rd p (i + 2)) 16)) (Z.shiftl (rd p (i + 3)) 24).

Definition hash4 (x : Z) : Z := Z.shiftr (!32 (x * 2654435761)) (32 - EMBKZ_HASH_BITS).

(** ** Compression *)

(** [while (len >= 255)]; [n] bounds the iterations. *)
Fixpoint emit_length_ext (n : nat) (dst : list Z) (len : Z) : list Z :=
  match n with
  | O => dst
  | S n => if 255 <=? len then emit_length_ext n (dst ++ [255]) (len - 255) else dst ++ [!8 len]
  end.

Definition emit_ext (dst : list Z) (len : Z) : list Z := emit_length_ext (S (Z.to_nat (len / 255))) dst len.

(** [match_length(src + a, src + b, max)]. *)
Fixpoint match_length (max : nat) (src : list Z) (a b : Z) : Z :=
  match max with
  | O => 0
  | S max => if rd src a =? rd src b then 1 + match_length max src (a + 1) (b + 1) else 0
  end.

Definition room (dst : list Z) (cap n : Z) : option unit := if cap <? zlen dst + n then None else Some tt.

Definition nibble (n : Z) : Z := if n <? 15 then n else 15.

(** A length that does not fit in its nibble. *)
Definition emit_extra (dst : list Z) (cap len : Z) : option (list Z) :=
  if 15 <=? len then
    room dst cap ((len - 15) / 255 + 1) ≫= fun _ => Some (emit_ext dst (len - 15))
  else Some dst.

Definition emit_literals (src dst : list Z) (cap literal_start lit_len : Z) : option (list Z) :=
  emit_extra dst cap lit_len ≫= fun dst =>
  room dst cap lit_len ≫= fun _ => Some (dst ++ sub src literal_start lit_len).

(** One sequence: token, literals, offset, match length. *)
Definition emit_match (src dst : list Z) (cap literal_start pos offset mlen : Z) : option (list Z) :=
  let lit_len := pos - literal_start in
  let match_code := mlen - EMBKZ_MINMATCH in
  room dst cap 1 ≫= fun _ =>
  let dst := dst ++ [!8 (Z.lor (Z.shiftl (nibble lit_len) 4) (nibble match_code))] in
  emit_literals src dst cap literal_start lit_len ≫= fun dst =>
  room dst cap 2 ≫= fun _ =>
  let dst := dst ++ [Z.land offset 0xFF] ++ [Z.land (Z.shiftr offset 8) 0xFF] in
  emit_extra dst cap match_code.

(** The sequence that ends the stream. *)
Definition emit_last (src dst : list Z) (cap literal_start : Z) : option (list Z) :=
  let lit_len := zlen src - literal_start in
  room dst cap 1 ≫= fun _ =>
  emit_literals src (dst ++ [!8 (Z.shiftl (nibble lit_len) 4)]) cap literal_start lit_len.

(** The match the hash table proposes for a position: offset and length. *)
Definition find_match (src : list Z) (pos cand : Z) : Z * Z :=
  let max_match := if EMBKZ_MAX_MATCH <? zlen src - pos then EMBKZ_MAX_MATCH else zlen src - pos in
  if 0 <=? cand then
    let offset := !32 (pos - cand) in
    if (1 <=? offset) && (offset <=? EMBKZ_MAX_OFFSET)
    then (offset, match_length (Z.to_nat max_match) src pos cand) else (offset, 0)
  else (0, 0).

(** The loop over the input; [None] when the destination is full. *)
Fixpoint compress_loop (n : nat) (src : list Z) (cap : Z) (table : list Z) (pos literal_start : Z) (dst : list Z)
  : option (Z * list Z) :=
  match n with
  | O => Some (literal_start, dst)
  | S n =>
      if !32 (pos + EMBKZ_MINMATCH) <=? zlen src then
        let h := hash4 (read_u32le src pos) in
        let cand := rd table h in
        let table := wr table h (i32 pos) in
        let '(offset, mlen) := find_match src pos cand in
        if EMBKZ_MINMATCH <=? mlen then
          emit_match src dst cap literal_start pos offset mlen ≫= fun dst =>
          let pos := !32 (pos + mlen) in
          let table :=
            if !32 (pos + EMBKZ_MINMATCH) <=? zlen src
            then wr table (hash4 (read_u32le src (pos - 1))) (i32 (pos - 1)) else table in
          compress_loop n src cap table pos pos dst
        else compress_loop n src cap table (!32 (pos + 1)) literal_start dst
      else Some (literal_start, dst)
  end.

Definition compress_stream (src : list Z) (cap : Z) : option (list Z) :=
  compress_loop (S (length src)) src cap (replicate (Z.to_nat EMBKZ_HASH_SIZE) (-1)) 0 0 [] ≫= fun '(literal_start, dst) =>
  emit_last src dst cap literal_start.

(** [have_table] is the allocation of the hash table. *)
Definition embk_compress (have_table : bool) (src : list Z) (dst_cap : Z) : option (list Z) :=
  if zlen src <? EMBKZ_MINMATCH + 1 then None
  else if negb have_table then None
  else
    compress_stream src dst_cap ≫= fun dst =>
    if zlen src <=? zlen dst then None else Some dst.

(** ** Decompression *)

(** What a piece of the decompressor does: goes on, returns false, or touches
    memory outside its buffers. *)
Inductive outcome (A : Type) : Type :=
| Done (a : A)
| Reject
| Fault.
Arguments Done {A} _.
Arguments Reject {A}.
Arguments Fault {A}.

Definition obind {A B} (k : A -> outcome B) (x : outcome A) : outcome B :=
  match x with Done a => k a | Reject => Reject | Fault => Fault end.
Notation "x <~ e ; k" := (obind (fun x => k) e) (at level 60, e at next level, right associativity) : embk_scope.

Definition fetch (src : list Z) (i : Z) : outcome Z :=
  match src !! Z.to_nat i with Some b => Done b | None => Fault end.

(** [memcpy(dp, sp, n)] with the bounds of both buffers. *)
Definition copy_in (src : list Z) (sp : Z) (dst : list Z) (dend n : Z) : outcome (list Z) :=
  if (zlen src <? sp + n) || (dend <? zlen dst + n) then Fault else Done (dst ++ sub src sp n).

(** [dp[i] = msrc[i]], byte by byte. *)
Fixpoint copy_match (n : nat) (dst : list Z) (dend offset : Z) : outcome (list Z) :=
  match n with
  | O => Done dst
  | S n =>
      if (zlen dst <? offset) || (dend <=? zlen dst) then Fault
      else match dst !! Z.to_nat (zlen dst - offset) with
           | Some b => copy_match n (dst ++ [b]) dend offset
           | None => Fault
           end
  end.

Fixpoint read_length_ext (n : nat) (src : list Z) (sp total : Z) : outcome (Z * Z) :=
  match n with
  | O => Fault
  | S n =>
      if zlen src <=? sp then Reject
      else
        b <~ fetch src sp;
        let total := !32 (total + b) in
        if b =? 255 then read_length_ext n src (sp + 1) total else Done (total, sp + 1)
  end.

(** [if (nib == 15) len += read_length_ext(...)]. *)
Definition read_length (src : list Z) (sp nib : Z) : outcome (Z * Z) :=
  if nib =? 15 then
    r <~ read_length_ext (S (length src)) src sp 0;
    Done (!32 (nib + fst r), snd r)
  else Done (nib, sp).

(** One iteration of the loop: the new positions, and whether it was the last
    one ([break]). *)
Definition dec_step (src : list Z) (dend sp : Z) (dst : list Z) : outcome (bool * Z * list Z) :=
  if zlen src <=? sp then Reject
  else
    token <~ fetch src sp;
    let match_nib := Z.land token 0x0F in
    l <~ read_length src (sp + 1) (Z.shiftr token 4);
    let '(lit_len, sp) := l in
    if !32 (dend - zlen dst) <? lit_len then Reject
    else if !32 (zlen src - sp) <? lit_len then Reject
    else
      dst <~ copy_in src sp dst dend lit_len;
      let sp := sp + lit_len in
      if zlen dst =? dend then Done (true, sp, dst)
      else if zlen src - sp <? 2 then Reject
      else
        b0 <~ fetch src sp;
        b1 <~ fetch src (sp + 1);
        let offset := Z.lor b0 (Z.shiftl b1 8) in
        if (offset =? 0) || (!32 (zlen dst) <? offset) then Reject
        else
          ml <~ read_length src (sp + 2) match_nib;
          let match_len := !32 (fst ml + EMBKZ_MINMATCH) in
          if !32 (dend - zlen dst) <? match_len then Reject
          else
            dst <~ copy_match (Z.to_nat match_len) dst dend offset;
            Done (false, snd ml, dst).

Fixpoint dec_loop (n : nat) (src : list Z) (dend sp : Z) (dst : list Z) : outcome (list Z) :=
  match n with
  | O => Fault
  | S n =>
      if negb (zlen dst <? dend) then Done dst
      else
        r <~ dec_step src dend sp dst;
        let '(last, sp, dst) := r in
        if last : bool then Done dst else dec_loop n src dend sp dst
  end.

Definition embk_decompress (src : list Z) (expected_len : Z) : outcome (list Z) :=
  dst <~ dec_loop (S (length src)) src expected_len 0 [];
  if zlen dst =? expected_len then Done dst else Reject.

(** ** Lengths *)

(** The extension of a length: as many 255s as fit, then the rest. *)
Definition ext_bytes (len : Z) : list Z := replicate (Z.to_nat (len / 255)) 255 ++ [len mod 255].
Definition enc_len (len : Z) : list Z := if 15 <=? len then ext_bytes (len - 15) else [].

Lemma zlen_ext len : 0 <= len -> zlen (ext_bytes len) = len / 255 + 1.
Proof.
  intros Hl. unfold ext_bytes. rewrite zlen_app, zlen_replicate. pose proof (Z.div_pos len 255 Hl ltac:(done)).
  change (zlen [len mod 255]) with 1. lia.
Qed.

Lemma ext_small len : 0 <= len < 255 -> ext_bytes len = [len].
Proof. intros Hl. unfold ext_bytes. by rewrite Z.div_small, Z.mod_small. Qed.

Lemma ext_big len : 255 <= len -> ext_bytes len = 255 :: ext_bytes (len - 255).
Proof.
  intros Hl. unfold ext_bytes. replace len with ((len - 255) + 1 * 255) at 1 2 by lia. rewrite Z_div_plus, Z_mod_plus by done.
  pose proof (Z.div_pos (len - 255) 255 ltac:(lia) ltac:(done)). by rewrite Z2Nat.inj_add, Nat.add_comm by lia.
Qed.

Lemma emit_ext_spec n dst len : 0 <= len -> len / 255 < Z.of_nat n -> emit_length_ext n dst len = dst ++ ext_bytes len.
Proof.
  revert dst len. induction n as [| n IH]; intros dst len Hl Hn; [pose proof (Z.div_pos len 255 Hl ltac:(done)); lia |]. simpl.
  destruct (Z.leb_spec 255 len).
  - rewrite IH, (ext_big len), <- app_assoc; [done | lia | lia |].
    replace len with ((len - 255) + 1 * 255) in Hn by lia. rewrite Z_div_plus in Hn by done. lia.
  - rewrite ext_small by lia. unfold u8. by rewrite Z.mod_small by lia.
Qed.

Lemma fetch_at pre b rest : fetch (pre ++ b :: rest) (zlen pre) = Done b.
Proof. unfold fetch, zlen. by rewrite Nat2Z.id, list_lookup_middle. Qed.

(** Reading back what the extension wrote. *)
Lemma read_ext_spec n pre len rest total :
  0 <= len -> 0 <= total -> total + len < 2 ^ 32 -> len / 255 < Z.of_nat n ->
  read_length_ext n (pre ++ ext_bytes len ++ rest) (zlen pre) total = Done (total + len, zlen (pre ++ ext_bytes len)).
Proof.
  revert pre len total. induction n as [| n IH]; intros pre len total Hl Ht Hs Hn;
    [pose proof (Z.div_pos len 255 Hl ltac:(done)); lia |].
  cbn [read_length_ext]. destruct (Z.leb_spec (zlen (pre ++ ext_bytes len ++ rest)) (zlen pre)) as [Hle | _].
  { rewrite !zlen_app, zlen_ext in Hle by done. pose proof (zlen_nonneg rest). pose proof (Z.div_pos len 255 Hl ltac:(done)). lia. }
  destruct (Z.lt_ge_cases len 255).
  - rewrite ext_small by lia. cbn [app]. rewrite fetch_at. cbn [obind]. rewrite u32_small by lia.
    destruct (Z.eqb_spec len 255); [lia |]. by rewrite zlen_app.
  - rewrite ext_big by lia. cbn [app]. rewrite fetch_at. cbn [obind Z.eqb]. rewrite u32_small by lia.
    rewrite cons_middle, app_assoc. change (zlen pre + 1) with (zlen pre + zlen [255]). rewrite <- zlen_app, IH; [| lia | lia | lia |].
    + by rewrite <- app_assoc, <- Z.add_assoc, Zplus_minus.
    + replace len with ((len - 255) + 1 * 255) in Hn by lia. rewrite Z_div_plus in Hn by done. lia.
Qed.

Lemma zlen_enc len : 0 <= len -> 0 <= zlen (enc_len len).
Proof. intros. apply zlen_nonneg. Qed.

Lemma nibble_range n : 0 <= n -> 0 <= nibble n <= 15.
Proof. intros. unfold nibble. destruct (Z.ltb_spec n 15); lia. Qed.

Lemma read_length_spec pre len rest :
  0 <= len < 2 ^ 32 ->
  read_length (pre ++ enc_len len ++ rest) (zlen pre) (nibble len) = Done (len, zlen (pre ++ enc_len len)).
Proof.
  intros Hl. unfold read_length, enc_len, nibble. destruct (Z.leb_spec 15 len), (Z.ltb_spec len 15); try lia.
  - cbn [Z.eqb]. change (15 =? 15) with true. cbv iota. rewrite read_ext_spec; [| lia | lia | lia |].
    + cbn [obind fst snd]. by rewrite u32_small, Z.add_0_l, Zplus_minus by lia.
    + pose proof (zlen_ext (len - 15) ltac:(lia)) as Hz. unfold zlen in Hz. rewrite !length_app. lia.
  - destruct (Z.eqb_spec len 15); [lia |]. by rewrite app_nil_r.
Qed.

(** ** What the compressor writes *)

Definition put (dst : list Z) (cap : Z) (bs : list Z) : option (list Z) :=
  if cap <? zlen dst + zlen bs then None else Some (dst ++ bs).

Lemma room_put dst cap n bs : zlen bs = n -> (room dst cap n ≫= fun _ => Some (dst ++ bs)) = put dst cap bs.
Proof. intros <-. unfold room, put. by destruct (cap <? _). Qed.

Lemma put_put dst cap a b : (put dst cap a ≫= fun d => put d cap b) = put dst cap (a ++ b).
Proof.
  unfold put. rewrite zlen_app. pose proof (zlen_nonneg b). destruct (Z.ltb_spec cap (zlen dst + zlen a)); cbn.
  - by destruct (Z.ltb_spec cap (zlen dst + (zlen a + zlen b))); [| lia].
  - rewrite zlen_app, Z.add_assoc, <- app_assoc. done.
Qed.

Lemma put_app d cap a b : put (d ++ a) cap b = if cap <? zlen d + zlen (a ++ b) then None else Some (d ++ a ++ b).
Proof. unfold put. by rewrite !zlen_app, Z.add_assoc, app_assoc. Qed.

Lemma emit_extra_put d cap len : 0 <= len -> zlen d <= cap -> emit_extra d cap len = put d cap (enc_len len).
Proof.
  intros Hl Hd. unfold emit_extra, enc_len. destruct (Z.leb_spec 15 len).
  - unfold emit_ext. pose proof (Z.div_pos (len - 15) 255 ltac:(lia) ltac:(done)). rewrite emit_ext_spec by lia.
    apply room_put, zlen_ext. lia.
  - unfold put. rewrite zlen_nil, app_nil_r. by destruct (Z.ltb_spec cap (zlen d + 0)); [lia |].
Qed.

Lemma put_room d cap bs d' : put d cap bs = Some d' -> d' = d ++ bs /\ zlen d' <= cap.
Proof. unfold put. destruct (Z.ltb_spec cap (zlen d + zlen bs)); [done |]. intros [= <-]. rewrite zlen_app. split; [done | lia]. Qed.

(** What follows a checked append starts with room. *)
Lemma put_bind d cap a b (k : list Z -> option (list Z)) :
  (forall d', zlen d' <= cap -> k d' = put d' cap b) -> (put d cap a ≫= k) = put d cap (a ++ b).
Proof.
  intros Hk. rewrite <- put_put. destruct (put d cap a) as [d' |] eqn:E; [| done]. cbn. apply Hk. apply put_room in E as [_ E]. done.
Qed.

Lemma emit_literals_put src d cap ls n :
  0 <= ls -> 0 <= n -> ls + n <= zlen src -> zlen d <= cap ->
  emit_literals src d cap ls n = put d cap (enc_len n ++ sub src ls n).
Proof.
  intros Hls Hn Hs Hd. unfold emit_literals. rewrite emit_extra_put by done. apply put_bind. intros d' _.
  apply room_put. by apply sub_length.
Qed.

Definition token (lit_len match_code : Z) : Z := Z.lor (Z.shiftl (nibble lit_len) 4) (nibble match_code).

Definition enc_seq (src : list Z) (ls pos offset mlen : Z) : list Z :=
  [!8 (token (pos - ls) (mlen - EMBKZ_MINMATCH))] ++ enc_len (pos - ls) ++ sub src ls (pos - ls)
  ++ ([Z.land offset 0xFF] ++ [Z.land (Z.shiftr offset 8) 0xFF]) ++ enc_len (mlen - EMBKZ_MINMATCH).

Lemma emit_match_put src dst cap ls pos offset mlen :
  0 <= ls <= pos -> pos <= zlen src -> EMBKZ_MINMATCH <= mlen ->
  emit_match src dst cap ls pos offset mlen = put dst cap (enc_seq src ls pos offset mlen).
Proof.
  intros Hls Hp Hm. unfold emit_match, enc_seq. cbv zeta. fold (token (pos - ls) (mlen - EMBKZ_MINMATCH)).
  set (t := !8 (token _ _)). change 1 with (zlen [t]) at 1. rewrite <- (put_bind dst cap [t] _
    (fun d => emit_literals src d cap ls (pos - ls) ≫= fun d =>
       room d cap 2 ≫= fun _ => emit_extra (d ++ [Z.land offset 255] ++ [Z.land (Z.shiftr offset 8) 255]) cap (mlen - EMBKZ_MINMATCH))).
  - unfold room, put. by destruct (cap <? zlen dst + zlen [t]).
  - intros d Hd. rewrite emit_literals_put by lia. rewrite (app_assoc (enc_len _)).
    set (offs := [Z.land offset 255] ++ _). apply put_bind. intros d' _. rewrite <- (put_bind d' cap offs (enc_len (mlen - EMBKZ_MINMATCH)) (fun d => emit_extra d cap (mlen - EMBKZ_MINMATCH))).
    + unfold room, put. change (zlen offs) with 2. by destruct (cap <? zlen d' + 2).
    + intros d2 H2. apply emit_extra_put; [lia | done].
Qed.

Definition enc_last (src : list Z) (ls : Z) : list Z :=
  [!8 (token (zlen src - ls) 0)] ++ enc_len (zlen src - ls) ++ sub src ls (zlen src - ls).

Lemma emit_last_put src dst cap ls : 0 <= ls <= zlen src -> emit_last src dst cap ls = put dst cap (enc_last src ls).
Proof.
  intros Hls. unfold emit_last, enc_last. cbv zeta. unfold token. change (nibble 0) with 0. rewrite Z.lor_0_r.
  set (t := !8 _). rewrite <- (put_bind dst cap [t] _ (fun d => emit_literals src d cap ls (zlen src - ls))).
  - unfold room, put. change (zlen [t]) with 1. by destruct (cap <? zlen dst + 1).
  - intros d Hd. apply emit_literals_put; lia.
Qed.

(** ** Reading it back *)

Lemma fetch_in full p b r : full = p ++ b :: r -> fetch full (zlen p) = Done b.
Proof. intros ->. apply fetch_at. Qed.

Lemma read_length_in full p len r :
  full = p ++ enc_len len ++ r -> 0 <= len < 2 ^ 32 -> read_length full (zlen p) (nibble len) = Done (len, zlen (p ++ enc_len len)).
Proof. intros -> Hl. by apply read_length_spec. Qed.

Lemma sub_middle p bs r : sub (p ++ bs ++ r) (zlen p) (zlen bs) = bs.
Proof. unfold sub, zlen. by rewrite !Nat2Z.id, drop_app_length, take_app_length. Qed.

Lemma copy_in_in full p bs r dst dend n :
  full = p ++ bs ++ r -> zlen bs = n -> zlen dst + n <= dend -> copy_in full (zlen p) dst dend n = Done (dst ++ bs).
Proof.
  intros -> <- Hd. unfold copy_in. rewrite sub_middle, !zlen_app. pose proof (zlen_nonneg r).
  destruct (Z.ltb_spec (zlen p + (zlen bs + zlen r)) (zlen p + zlen bs)), (Z.ltb_spec dend (zlen dst + zlen bs)); try lia. done.
Qed.

Lemma token_decode a b :
  0 <= a <= 15 -> 0 <= b <= 15 ->
  let t := !8 (Z.lor (Z.shiftl a 4) b) in Z.shiftr t 4 = a /\ Z.land t 0x0F = b.
Proof.
  intros Ha Hb. assert (forallb (fun a => forallb (fun b => let t := !8 (Z.lor (Z.shiftl a 4) b) in
    (Z.shiftr t 4 =? a) && (Z.land t 0x0F =? b)) (seqZ 0 16)) (seqZ 0 16) = true) as Hall by (by vm_compute).
  rewrite forallb_forall in Hall. specialize (Hall a ltac:(apply list_elem_of_In, elem_of_seqZ; lia)).
  rewrite forallb_forall in Hall. specialize (Hall b ltac:(apply list_elem_of_In, elem_of_seqZ; lia)). cbv zeta in *.
  apply andb_true_iff in Hall as [? ?]. b2p. done.
Qed.

Lemma offset_decode off :
  0 <= off < 2 ^ 16 -> Z.lor (Z.land off 0xFF) (Z.shiftl (Z.land (Z.shiftr off 8) 0xFF) 8) = off.
Proof.
  intros Ho. apply Z.bits_inj'. intros j Hj. change 255 with (Z.ones 8). rewrite Z.lor_spec, Z.land_spec, Z.shiftl_spec by done.
  destruct (Z.lt_ge_cases j 8).
  - rewrite Z.ones_spec_low, (Z.testbit_neg_r _ (j - 8)) by lia. by rewrite andb_true_r, orb_false_r.
  - rewrite Z.ones_spec_high by lia. rewrite andb_false_r, Z.land_spec, Z.shiftr_spec by lia. replace (j - 8 + 8) with j by lia. cbn.
    destruct (Z.lt_ge_cases j 16); [rewrite Z.ones_spec_low by lia; apply andb_true_r |].
    rewrite Z.ones_spec_high, (bounded_high 16 off j) by lia. done.
Qed.

(** Copying a match grows the output along the source. *)
Lemma copy_match_spec n src p dend offset :
  1 <= offset -> offset <= p -> p + Z.of_nat n <= zlen src -> p + Z.of_nat n <= dend ->
  (forall i, 0 <= i < Z.of_nat n -> rd src (p + i) = rd src (p + i - offset)) ->
  copy_match n (take (Z.to_nat p) src) dend offset = Done (take (Z.to_nat (p + Z.of_nat n)) src).
Proof.
  revert p. induction n as [| n IH]; intros p H1 H2 H3 H4 Hm; [by rewrite Z.add_0_r |]. cbn [copy_match].
  assert (zlen (take (Z.to_nat p) src) = p) as Hz by (unfold zlen in *; rewrite length_take; lia). rewrite Hz.
  destruct (Z.ltb_spec p offset), (Z.leb_spec dend p); try lia. cbn [orb].
  rewrite lookup_take_lt by lia. specialize (Hm 0 ltac:(lia)) as E. unfold rd in E. rewrite Z.add_0_r in E.
  destruct (lookup_lt_is_Some_2 src (Z.to_nat (p - offset)) ltac:(unfold zlen in *; lia)) as [b Eb].
  destruct (lookup_lt_is_Some_2 src (Z.to_nat p) ltac:(unfold zlen in *; lia)) as [c Ec]. rewrite Eb, Ec in E. simpl in E. subst c. rewrite Eb.
  rewrite <- (take_S_r src (Z.to_nat p) b Ec). replace (S (Z.to_nat p)) with (Z.to_nat (p + 1)) by lia. rewrite IH; [| lia | lia | lia | lia |].
  - do 2 f_equal. lia.
  - intros i Hi. specialize (Hm (i + 1) ltac:(lia)). by replace (p + (i + 1)) with (p + 1 + i) in Hm by lia.
Qed.

Lemma match_length_spec n src a b :
  let m := match_length n src a b in
  0 <= m <= Z.of_nat n /\ forall i, 0 <= i < m -> rd src (a + i) = rd src (b + i).
Proof.
  cbv zeta. revert a b. induction n as [| n IH]; intros a b; cbn [match_length]; [split; lia |].
  destruct (Z.eqb_spec (rd src a) (rd src b)) as [E | _]; [| split; lia]. destruct (IH (a + 1) (b + 1)) as [Hb Hi].
  split; [lia |]. intros i Hr. destruct (Z.eq_dec i 0) as [-> | Hne]; [by rewrite !Z.add_0_r |].
  specialize (Hi (i - 1) ltac:(lia)). by replace (a + 1 + (i - 1)) with (a + i) in Hi by lia; replace (b + 1 + (i - 1)) with (b + i) in Hi by lia.
Qed.

Lemma take_sub src ls pos :
  0 <= ls <= pos -> pos <= zlen src -> take (Z.to_nat ls) src ++ sub src ls (pos - ls) = take (Z.to_nat pos) src.
Proof.
  intros H1 H2. unfold sub. replace (Z.to_nat pos) with (Z.to_nat ls + Z.to_nat (pos - ls))%nat by lia.
  by rewrite take_take_drop.
Qed.

(** The part of a step both kinds of sequence share: token and literals. *)
Definition dec_rest (src : list Z) (dend match_nib sp : Z) (dst : list Z) : outcome (bool * Z * list Z) :=
  if zlen dst =? dend then Done (true, sp, dst)
  else if zlen src - sp <? 2 then Reject
  else
    b0 <~ fetch src sp;
    b1 <~ fetch src (sp + 1);
    let offset := Z.lor b0 (Z.shiftl b1 8) in
    if (offset =? 0) || (!32 (zlen dst) <? offset) then Reject
    else
      ml <~ read_length src (sp + 2) match_nib;
      let match_len := !32 (fst ml + EMBKZ_MINMATCH) in
      if !32 (dend - zlen dst) <? match_len then Reject
      else
        dst <~ copy_match (Z.to_nat match_len) dst dend offset;
        Done (false, snd ml, dst).

Lemma zlen_take_src src n : 0 <= n <= zlen src -> zlen (take (Z.to_nat n) src) = n.
Proof. unfold zlen. intros. rewrite length_take. lia. Qed.

Lemma take_zlen (src : list Z) : take (Z.to_nat (zlen src)) src = src.
Proof. unfold zlen. by rewrite Nat2Z.id, firstn_all. Qed.

Lemma dec_step_literals pre src ls pos mc rest full :
  full = pre ++ [!8 (token (pos - ls) mc)] ++ enc_len (pos - ls) ++ sub src ls (pos - ls) ++ rest ->
  0 <= ls <= pos -> pos <= zlen src -> zlen src < 2 ^ 32 -> zlen full < 2 ^ 32 -> 0 <= mc ->
  dec_step full (zlen src) (zlen pre) (take (Z.to_nat ls) src) =
  dec_rest full (zlen src) (nibble mc) (zlen (pre ++ [!8 (token (pos - ls) mc)] ++ enc_len (pos - ls) ++ sub src ls (pos - ls)))
    (take (Z.to_nat pos) src).
Proof.
  intros E Hls Hp Hs Hf Hmc. set (t := !8 _) in *. assert (zlen (sub src ls (pos - ls)) = pos - ls) as Hsub by (apply sub_length; lia).
  destruct (token_decode (nibble (pos - ls)) (nibble mc) (nibble_range (pos - ls) ltac:(lia)) (nibble_range mc Hmc)) as [Et1 Et2].
  fold (token (pos - ls) mc) in Et1, Et2. fold t in Et1, Et2. pose proof (zlen_nonneg rest) as Hr0.
  assert (zlen full = zlen pre + 1 + zlen (enc_len (pos - ls)) + (pos - ls) + zlen rest) as Hfull.
  { rewrite E, !zlen_app, Hsub. change (zlen [t]) with 1. lia. }
  pose proof (zlen_nonneg (enc_len (pos - ls))). pose proof (zlen_nonneg pre).
  unfold dec_step. destruct (Z.leb_spec (zlen full) (zlen pre)); [lia |].
  rewrite (fetch_in full pre t (enc_len (pos - ls) ++ sub src ls (pos - ls) ++ rest) E). cbn [obind]. cbv zeta. rewrite Et1, Et2.
  change (zlen pre + 1) with (zlen pre + zlen [t]). rewrite <- zlen_app.
  rewrite (read_length_in full (pre ++ [t]) (pos - ls) (sub src ls (pos - ls) ++ rest)); [| by rewrite E, <- app_assoc | lia].
  cbn [obind]. rewrite zlen_take_src by lia. rewrite (u32_small (zlen src - ls)) by lia.
  destruct (Z.ltb_spec (zlen src - ls) (pos - ls)); [lia |]. rewrite u32_small.
  2: { rewrite Hfull, !zlen_app. change (zlen [t]) with 1. lia. }
  destruct (Z.ltb_spec (zlen full - zlen ((pre ++ [t]) ++ enc_len (pos - ls))) (pos - ls)) as [Hlt | _].
  { rewrite Hfull, !zlen_app in Hlt. change (zlen [t]) with 1 in Hlt. lia. }
  rewrite (copy_in_in full _ (sub src ls (pos - ls)) rest); [| by rewrite E, <- !app_assoc | done | rewrite zlen_take_src; lia].
  cbn [obind]. rewrite take_sub by lia. unfold dec_rest.
  replace (zlen ((pre ++ [t]) ++ enc_len (pos - ls)) + (pos - ls))
    with (zlen (pre ++ [t] ++ enc_len (pos - ls) ++ sub src ls (pos - ls))) by (rewrite !zlen_app; lia).
  reflexivity.
Qed.

(** A match the compressor may emit at a position. *)
Record good_match (src : list Z) (pos offset mlen : Z) : Prop := {
  gm_len : EMBKZ_MINMATCH <= mlen;
  gm_end : pos + mlen <= zlen src;
  gm_off : 1 <= offset <= pos;
  gm_off16 : offset < 2 ^ 16;
  gm_eq i : 0 <= i < mlen -> rd src (pos + i) = rd src (pos + i - offset);
}.

Lemma dec_step_seq pre src ls pos offset mlen rest full :
  full = pre ++ enc_seq src ls pos offset mlen ++ rest -> good_match src pos offset mlen ->
  0 <= ls <= pos -> zlen src < 2 ^ 32 -> zlen full < 2 ^ 32 ->
  dec_step full (zlen src) (zlen pre) (take (Z.to_nat ls) src) =
  Done (false, zlen (pre ++ enc_seq src ls pos offset mlen), take (Z.to_nat (pos + mlen)) src).
Proof.
  intros E [G1 G2 G3 G4 G5] Hls Hs Hf. unfold enc_seq in *. unfold EMBKZ_MINMATCH in *.
  set (t := !8 _) in *. set (b0 := Z.land offset 255) in *. set (b1 := Z.land (Z.shiftr offset 8) 255) in *. set (mc := mlen - 4) in *.
  set (lits := sub src ls (pos - ls)) in *. set (p := pre ++ [t] ++ enc_len (pos - ls) ++ lits).
  assert (full = p ++ b0 :: b1 :: enc_len mc ++ rest) as E1 by (rewrite E; subst p; by rewrite <- !app_assoc).
  rewrite (dec_step_literals pre src ls pos mc ([b0; b1] ++ enc_len mc ++ rest)); [| rewrite E; by rewrite <- !app_assoc | done | lia | done | done | lia].
  fold t lits p. unfold dec_rest. rewrite zlen_take_src by lia. destruct (Z.eqb_spec pos (zlen src)); [lia |].
  assert (zlen full = zlen p + 2 + zlen (enc_len mc) + zlen rest) as Hfull.
  { rewrite E1, zlen_app, !zlen_cons, zlen_app. lia. }
  pose proof (zlen_nonneg (enc_len mc)). pose proof (zlen_nonneg rest). pose proof (zlen_nonneg p).
  destruct (Z.ltb_spec (zlen full - zlen p) 2); [lia |]. rewrite (fetch_in full p b0 _ E1). cbn [obind].
  change (zlen p + 1) with (zlen p + zlen [b0]). rewrite <- zlen_app.
  rewrite (fetch_in full (p ++ [b0]) b1 (enc_len mc ++ rest)) by (by rewrite E1, <- app_assoc). cbn [obind]. cbv zeta.
  assert (Z.lor b0 (Z.shiftl b1 8) = offset) as Eo by (apply offset_decode; lia). rewrite Eo, (u32_small pos) by lia.
  destruct (Z.eqb_spec offset 0), (Z.ltb_spec pos offset); try lia. cbn [orb].
  change (zlen p + 2) with (zlen p + zlen [b0; b1]). rewrite <- zlen_app.
  rewrite (read_length_in full (p ++ [b0; b1]) mc rest) by (lia || by rewrite E1, <- app_assoc). cbn [obind fst snd].
  replace (mc + EMBKZ_MINMATCH) with mlen by (unfold EMBKZ_MINMATCH; lia). rewrite (u32_small mlen), (u32_small (zlen src - pos)) by lia.
  destruct (Z.ltb_spec (zlen src - pos) mlen); [lia |].
  rewrite copy_match_spec; [| lia | lia | rewrite Z2Nat.id; lia | rewrite Z2Nat.id; lia | intros i Hi; apply G5; lia]. cbn [obind].
  rewrite Z2Nat.id by lia. do 2 f_equal. f_equal. subst p. by rewrite <- !app_assoc.
Qed.

Lemma dec_step_last pre src ls full :
  full = pre ++ enc_last src ls -> 0 <= ls <= zlen src -> zlen src < 2 ^ 32 -> zlen full < 2 ^ 32 ->
  exists sp, dec_step full (zlen src) (zlen pre) (take (Z.to_nat ls) src) = Done (true, sp, src).
Proof.
  intros E Hls Hs Hf. unfold enc_last in E.
  rewrite (dec_step_literals pre src ls (zlen src) 0 []); [| by rewrite E, app_nil_r | lia | lia | done | done | lia].
  unfold dec_rest. rewrite zlen_take_src by lia. rewrite Z.eqb_refl. eexists. do 2 f_equal.
  apply take_zlen.
Qed.

(** ** Any input *)

(** No fault, and a property of what it goes on with. *)
Definition ok {A} (P : A -> Prop) (x : outcome A) : Prop :=
  match x with Done a => P a | Reject => True | Fault => False end.

Lemma ok_bind {A B} (P : A -> Prop) (Q : B -> Prop) (x : outcome A) (k : A -> outcome B) :
  ok P x -> (forall a, P a -> ok Q (k a)) -> ok Q (obind k x).
Proof. intros Hx Hk. destruct x; cbn in *; auto. Qed.

Lemma fetch_ok src sp : Forall is_byte src -> 0 <= sp < zlen src -> ok is_byte (fetch src sp).
Proof.
  intros Hb Hs. unfold fetch. destruct (lookup_lt_is_Some_2 src (Z.to_nat sp) ltac:(unfold zlen in *; lia)) as [b Eb].
  rewrite Eb. by apply (Forall_lookup_1 _ _ _ _ Hb Eb).
Qed.

Lemma read_ext_ok n src sp total :
  Forall is_byte src -> 0 <= sp <= zlen src -> zlen src - sp < Z.of_nat n ->
  ok (fun r => 0 <= fst r < 2 ^ 32 /\ sp <= snd r <= zlen src) (read_length_ext n src sp total).
Proof.
  intros Hb. revert sp total. induction n as [| n IH]; intros sp total Hs Hn; [lia |]. cbn [read_length_ext].
  destruct (Z.leb_spec (zlen src) sp); [done |].
  apply (ok_bind is_byte); [by apply fetch_ok; [| lia] |]. intros b _. cbv zeta. destruct (b =? 255); cbn.
  - specialize (IH (sp + 1) (u32 (total + b)) ltac:(lia) ltac:(lia)). destruct (read_length_ext _ _ _ _) as [r | |]; cbn in *; [lia | done | done].
  - split; [apply u32_range | lia].
Qed.

Lemma read_length_ok src sp nib :
  Forall is_byte src -> 0 <= sp <= zlen src -> 0 <= nib < 16 ->
  ok (fun r => 0 <= fst r < 2 ^ 32 /\ sp <= snd r <= zlen src) (read_length src sp nib).
Proof.
  intros Hb Hs Hn. unfold read_length. destruct (nib =? 15); [| cbn; lia].
  apply (ok_bind (fun r => 0 <= fst r < 2 ^ 32 /\ sp <= snd r <= zlen src)); [apply read_ext_ok; [done | done | unfold zlen in *; lia] |].
  intros r Hr. cbn. split; [apply u32_range | lia].
Qed.

Lemma copy_match_ok n dst dend offset :
  1 <= offset <= zlen dst -> zlen dst + Z.of_nat n <= dend ->
  ok (fun d => zlen d = zlen dst + Z.of_nat n) (copy_match n dst dend offset).
Proof.
  revert dst. induction n as [| n IH]; intros dst Ho Hd; cbn [copy_match]; [cbn; lia |].
  destruct (Z.ltb_spec (zlen dst) offset), (Z.leb_spec dend (zlen dst)); try lia. cbn [orb].
  destruct (lookup_lt_is_Some_2 dst (Z.to_nat (zlen dst - offset)) ltac:(unfold zlen in *; lia)) as [b ->].
  assert (zlen (dst ++ [b]) = zlen dst + 1) as Hz by apply zlen_app. specialize (IH (dst ++ [b]) ltac:(lia) ltac:(lia)).
  destruct (copy_match n (dst ++ [b]) dend offset); cbn in *; [lia | done | done].
Qed.

Lemma copy_in_ok src sp dst dend n :
  0 <= sp -> 0 <= n -> sp + n <= zlen src -> zlen dst + n <= dend -> ok (fun d => zlen d = zlen dst + n) (copy_in src sp dst dend n).
Proof.
  intros H1 H2 H3 H4. unfold copy_in. destruct (Z.ltb_spec (zlen src) (sp + n)), (Z.ltb_spec dend (zlen dst + n)); try lia.
  cbn. rewrite zlen_app, sub_length by done. done.
Qed.

Lemma byte_nibbles t : is_byte t -> 0 <= Z.shiftr t 4 < 16 /\ 0 <= Z.land t 15 < 16.
Proof.
  intros Ht. unfold is_byte in Ht. rewrite Z.shiftr_div_pow2 by done. change 15 with (Z.ones 4). rewrite Z.land_ones by done.
  change (2 ^ 4) with 16. split; [split; [by apply Z.div_pos; lia | apply Z.div_lt_upper_bound; lia] | by apply Z.mod_pos_bound].
Qed.

(** One iteration on any bytes: no access outside the buffers, progress in the
    input, and never past the expected length. *)
Lemma dec_step_ok src dend sp dst :
  Forall is_byte src -> zlen src < 2 ^ 32 -> 0 <= dend < 2 ^ 32 -> 0 <= sp <= zlen src -> zlen dst <= dend ->
  ok (fun r => let '(last, sp', dst') := r in
        sp < sp' <= zlen src /\ zlen dst' <= dend /\ (last = true -> zlen dst' = dend)) (dec_step src dend sp dst).
Proof.
  intros Hb Hs Hd Hsp Hdst. pose proof (zlen_nonneg dst). unfold dec_step. destruct (Z.leb_spec (zlen src) sp); [done |].
  apply (ok_bind is_byte); [by apply fetch_ok; [| lia] |]. intros t Ht. cbv zeta. destruct (byte_nibbles t Ht) as [N1 N2].
  eapply ok_bind; [by apply read_length_ok; [| lia |] |]. intros [lit sp1]. cbn [fst snd]. intros [Hl Hsp1].
  rewrite (u32_small (dend - zlen dst)), (u32_small (zlen src - sp1)) by lia.
  destruct (Z.ltb_spec (dend - zlen dst) lit); [done |]. destruct (Z.ltb_spec (zlen src - sp1) lit); [done |].
  eapply ok_bind; [apply copy_in_ok; lia |]. intros d Hz. cbv beta in Hz. destruct (Z.eqb_spec (zlen d) dend).
  { cbn. split_and!; [lia | lia | lia | done]. }
  destruct (Z.ltb_spec (zlen src - (sp1 + lit)) 2); [done |].
  apply (ok_bind is_byte); [by apply fetch_ok; [| lia] |]. intros b0 Hb0. apply (ok_bind is_byte); [by apply fetch_ok; [| lia] |]. intros b1 Hb1.
  set (offset := Z.lor b0 _). assert (0 <= offset) as Ho by (apply Z.lor_nonneg; split; [apply Hb0 | apply Z.shiftl_nonneg, Hb1]).
  rewrite (u32_small (zlen d)) by lia. destruct ((offset =? 0) || _) eqn:Eo; [done |]. apply orb_false_iff in Eo as [? ?]. b2p.
  eapply ok_bind; [by apply read_length_ok; [| lia |] |]. intros [ml sp2]. cbn [fst snd]. intros [Hm Hsp2].
  pose proof (u32_range (ml + EMBKZ_MINMATCH)). set (mlen := u32 _) in *. rewrite (u32_small (dend - zlen d)) by lia.
  destruct (Z.ltb_spec (dend - zlen d) mlen); [done |]. eapply ok_bind; [apply copy_match_ok; [lia | rewrite Z2Nat.id; lia] |].
  intros d2 Hz2. cbv beta in Hz2. cbn. rewrite Z2Nat.id in Hz2 by lia. split_and!; [lia | lia | lia | done].
Qed.

Lemma dec_loop_ok n src dend sp dst :
  Forall is_byte src -> zlen src < 2 ^ 32 -> 0 <= dend < 2 ^ 32 -> 0 <= sp <= zlen src -> zlen dst <= dend ->
  zlen src - sp < Z.of_nat n -> ok (fun d => zlen d = dend) (dec_loop n src dend sp dst).
Proof.
  intros Hb Hs Hd. revert sp dst. induction n as [| n IH]; intros sp dst Hsp Hdst Hn; [lia |]. cbn [dec_loop].
  destruct (Z.ltb_spec (zlen dst) dend); cbn [negb]; [| cbn; lia].
  eapply ok_bind; [by apply dec_step_ok |]. intros [[last sp'] dst'] (H1 & H2 & H3). destruct last; [by apply H3 |]. apply IH; lia.
Qed.

(** C24. The decompressor survives any bytes: whatever is read from the disk and
    whatever length is expected, it returns within one pass over the input,
    never reads or writes outside its buffers (also where a length extension
    wraps around 32 bits), and reports success only with exactly the expected
    number of bytes written. *)
Theorem embk_decompress_safe src expected_len :
  Forall is_byte src -> zlen src < 2 ^ 32 -> 0 <= expected_len < 2 ^ 32 ->
  embk_decompress src expected_len <> Fault
  /\ forall out, embk_decompress src expected_len = Done out -> zlen out = expected_len.
Proof.
  intros Hb Hs He. assert (ok (fun d => zlen d = expected_len) (embk_decompress src expected_len)) as Hok.
  { unfold embk_decompress. eapply ok_bind.
    - apply dec_loop_ok; try done; unfold zlen; simpl; lia.
    - intros d Hd. cbv beta in Hd. rewrite Hd, Z.eqb_refl. done. }
  destruct (embk_decompress src expected_len); cbn in Hok; [| by split | done]. split; [done |]. by intros out [= <-].
Qed.

(** ** Round trip *)

(** The positions the decompressor passes through. *)
Inductive decoded (src : list Z) (dend : Z) : nat -> Z -> list Z -> Prop :=
| decoded_start : decoded src dend 0 0 []
| decoded_next k sp dst sp' dst' : decoded src dend k sp dst -> zlen dst < dend ->
    dec_step src dend sp dst = Done (false, sp', dst') -> decoded src dend (S k) sp' dst'.

Lemma decoded_loop src dend k sp dst f :
  decoded src dend k sp dst -> dec_loop (k + f) src dend 0 [] = dec_loop f src dend sp dst.
Proof.
  intros Hd. revert f. induction Hd as [| k sp dst sp' dst' _ IH Hlt Hs]; intros f; [done |].
  replace (S k + f)%nat with (k + S f)%nat by lia. rewrite IH. cbn [dec_loop]. destruct (Z.ltb_spec (zlen dst) dend); [| lia].
  by rewrite Hs.
Qed.

(** What the compressor has written so far, whatever follows it, decodes to the
    input up to the pending literals. *)
Definition coded (src : list Z) (ls : Z) (dst : list Z) : Prop :=
  exists k, Z.of_nat k <= zlen dst
  /\ forall rest, zlen (dst ++ rest) < 2 ^ 32 -> decoded (dst ++ rest) (zlen src) k (zlen dst) (take (Z.to_nat ls) src).

Lemma coded_start src : coded src 0 [].
Proof. exists O. split; [done |]. intros rest _. apply decoded_start. Qed.

Lemma coded_next src ls pos offset mlen dst :
  coded src ls dst -> good_match src pos offset mlen -> 0 <= ls <= pos -> zlen src < 2 ^ 32 ->
  coded src (pos + mlen) (dst ++ enc_seq src ls pos offset mlen).
Proof.
  intros (k & Hk & Hc) G Hls Hs. exists (S k). split.
  { rewrite zlen_app. unfold enc_seq. rewrite zlen_app. change (zlen [_]) with 1. pose proof (zlen_nonneg (enc_len (pos - ls) ++ sub src ls (pos - ls)
      ++ ([Z.land offset 255] ++ [Z.land (Z.shiftr offset 8) 255]) ++ enc_len (mlen - EMBKZ_MINMATCH))). lia. }
  intros rest Hr. rewrite <- app_assoc in Hr |- *. apply (decoded_next _ _ k (zlen dst) (take (Z.to_nat ls) src)); [by apply Hc | |].
  - destruct G as [G1 G2 _ _ _]. unfold EMBKZ_MINMATCH in G1. rewrite zlen_take_src by lia. lia.
  - by apply (dec_step_seq dst src ls pos offset mlen rest).
Qed.

(** The last sequence, or none needed, finishes. *)
Lemma coded_last src ls dst :
  coded src ls dst -> 0 <= ls <= zlen src -> zlen src < 2 ^ 32 -> zlen (dst ++ enc_last src ls) < 2 ^ 32 ->
  embk_decompress (dst ++ enc_last src ls) (zlen src) = Done src.
Proof.
  intros (k & Hk & Hc) Hls Hs Hf. unfold embk_decompress. specialize (Hc _ Hf).
  set (full := dst ++ enc_last src ls) in *. assert (zlen dst + 1 <= zlen full) as Hlen.
  { subst full. rewrite zlen_app. unfold enc_last. rewrite zlen_app. change (zlen [_]) with 1.
    pose proof (zlen_nonneg (enc_len (zlen src - ls) ++ sub src ls (zlen src - ls))). lia. }
  replace (S (length full)) with (k + S (S (length full - k - 1)))%nat by (unfold zlen in *; lia).
  rewrite (decoded_loop _ _ _ _ _ _ Hc). cbn [dec_loop]. rewrite zlen_take_src by done.
  destruct (Z.ltb_spec ls (zlen src)) as [Hlt | Hge]; cbn [negb].
  - destruct (dec_step_last dst src ls full eq_refl Hls Hs Hf) as [sp ->]. cbn [obind]. by rewrite Z.eqb_refl.
  - assert (ls = zlen src) as -> by lia. rewrite take_zlen. cbn [obind]. by rewrite Z.eqb_refl.
Qed.

(** ** The compressor's loop *)

(** Every entry of the hash table is a position before the current one, or -1. *)
Definition table_ok (pos : Z) (table : list Z) : Prop :=
  zlen table = EMBKZ_HASH_SIZE /\ Forall (fun c => -1 <= c < pos) table.

Lemma hash4_range x : 0 <= hash4 x < EMBKZ_HASH_SIZE.
Proof.
  unfold hash4. pose proof (u32_range (x * 2654435761)). change (32 - EMBKZ_HASH_BITS) with 18. change EMBKZ_HASH_SIZE with (2 ^ 14).
  rewrite Z.shiftr_div_pow2 by done. split; [by apply Z.div_pos; [lia |] | apply Z.div_lt_upper_bound; lia].
Qed.

Lemma table_cand pos table x : table_ok pos table -> -1 <= rd table (hash4 x) < pos.
Proof.
  intros [Hl Ht]. pose proof (hash4_range x). unfold rd.
  destruct (lookup_lt_is_Some_2 table (Z.to_nat (hash4 x)) ltac:(unfold zlen in *; lia)) as [c Ec]. rewrite Ec. by apply (Forall_lookup_1 _ _ _ _ Ht Ec).
Qed.

Lemma table_set pos pos' table x c : table_ok pos table -> pos <= pos' -> -1 <= c < pos' -> table_ok pos' (wr table (hash4 x) c).
Proof.
  intros [Hl Ht] Hp Hc. split; [unfold zlen in *; by rewrite wr_length |]. apply wr_Forall; [| done].
  apply (Forall_impl _ _ _ Ht). cbv beta. lia.
Qed.

Lemma find_match_good src pos cand offset mlen :
  zlen src < 2 ^ 31 -> 0 <= pos <= zlen src -> -1 <= cand < pos -> find_match src pos cand = (offset, mlen) -> EMBKZ_MINMATCH <= mlen ->
  good_match src pos offset mlen.
Proof.
  intros Hs Hp Hc Hf Hm. unfold find_match in Hf. unfold EMBKZ_MINMATCH in Hm. destruct (Z.leb_spec 0 cand); [| simplify_eq; lia]. cbv zeta in Hf.
  rewrite (u32_small (pos - cand)) in Hf by lia. destruct (_ && _) eqn:Eo; [| simplify_eq; lia]. apply andb_true_iff in Eo as [? ?]. b2p.
  set (mx := if EMBKZ_MAX_MATCH <? zlen src - pos then EMBKZ_MAX_MATCH else zlen src - pos) in *.
  assert (0 <= mx <= zlen src - pos) as Hmx by (subst mx; unfold EMBKZ_MAX_MATCH; destruct (Z.ltb_spec 16777215 (zlen src - pos)); lia).
  destruct (match_length_spec (Z.to_nat mx) src pos cand) as [Hr Hi]. cbv zeta in Hr, Hi. simplify_eq. rewrite Z2Nat.id in Hr by lia.
  unfold EMBKZ_MAX_OFFSET in *. split; unfold EMBKZ_MINMATCH; try lia. intros i Hi'. rewrite (Hi i Hi'). f_equal. lia.
Qed.

(** The bytes written. *)
Lemma enc_len_bytes n : 0 <= n -> Forall is_byte (enc_len n) /\ zlen (enc_len n) = if 15 <=? n then (n - 15) / 255 + 1 else 0.
Proof.
  intros Hn. unfold enc_len. destruct (Z.leb_spec 15 n); [| split; [constructor | done]]. split; [| apply zlen_ext; lia].
  unfold ext_bytes. apply Forall_app. split; [apply Forall_replicate; unfold is_byte; lia |]. constructor; [| constructor].
  unfold is_byte. pose proof (Z.mod_pos_bound (n - 15) 255 ltac:(done)). lia.
Qed.

Lemma sub_is_bytes src o n : Forall is_byte src -> Forall is_byte (sub src o n).
Proof. intros Hb. unfold sub. apply Forall_take, Forall_drop, Hb. Qed.

Lemma byte_land x : is_byte (Z.land x 255).
Proof. unfold is_byte. change 255 with (Z.ones 8). rewrite Z.land_ones by done. by apply Z.mod_pos_bound. Qed.

Lemma enc_seq_bytes src ls pos offset mlen :
  Forall is_byte src -> 0 <= ls <= pos -> EMBKZ_MINMATCH <= mlen -> pos <= zlen src ->
  let s := enc_seq src ls pos offset mlen in
  Forall is_byte s /\ zlen s <= (pos + mlen - ls) + (pos + mlen - ls) / 255.
Proof.
  intros Hb Hls Hm Hp. cbv zeta. unfold enc_seq, EMBKZ_MINMATCH in *.
  destruct (enc_len_bytes (pos - ls) ltac:(lia)) as [B1 L1]. destruct (enc_len_bytes (mlen - 4) ltac:(lia)) as [B2 L2]. split.
  - rewrite !Forall_app. rewrite !Forall_singleton. split_and!; try done; try apply byte_land; [apply u8_range | by apply sub_is_bytes].
  - rewrite !zlen_app, L1, L2, sub_length by lia. change (zlen [_]) with 1.
    destruct (Z.leb_spec 15 (pos - ls)), (Z.leb_spec 15 (mlen - 4)); Z.to_euclidean_division_equations; lia.
Qed.

Lemma enc_last_bytes src ls :
  Forall is_byte src -> 0 <= ls <= zlen src ->
  Forall is_byte (enc_last src ls) /\ zlen (enc_last src ls) <= (zlen src - ls) + (zlen src - ls) / 255 + 2.
Proof.
  intros Hb Hls. unfold enc_last. destruct (enc_len_bytes (zlen src - ls) ltac:(lia)) as [B1 L1]. split.
  - rewrite !Forall_app. split_and!; [| done | by apply sub_is_bytes]. constructor; [apply u8_range | constructor].
  - rewrite !zlen_app, L1, sub_length by lia. change (zlen [_]) with 1.
    destruct (Z.leb_spec 15 (zlen src - ls)); Z.to_euclidean_division_equations; lia.
Qed.

Record cinv (src : list Z) (ls : Z) (dst : list Z) : Prop := {
  ci_ls : 0 <= ls <= zlen src;
  ci_coded : coded src ls dst;
  ci_bytes : Forall is_byte dst;
  ci_size : zlen dst <= ls + ls / 255;
}.

Lemma cinv_next src ls pos offset mlen dst :
  cinv src ls dst -> good_match src pos offset mlen -> ls <= pos -> Forall is_byte src -> zlen src < 2 ^ 31 ->
  cinv src (pos + mlen) (dst ++ enc_seq src ls pos offset mlen).
Proof.
  intros [C1 C2 C3 C4] G Hls Hb Hs. destruct (G) as [G1 G2 G3 _ _]. unfold EMBKZ_MINMATCH in G1.
  destruct (enc_seq_bytes src ls pos offset mlen Hb ltac:(lia) G1 ltac:(lia)) as [B L]. cbv zeta in B, L. split.
  - lia.
  - apply coded_next; [done | done | lia | lia].
  - by apply Forall_app.
  - rewrite zlen_app. Z.to_euclidean_division_equations. lia.
Qed.

Section Loop.
Context (src : list Z) (cap : Z).
Hypothesis src_bytes : Forall is_byte src.
Hypothesis src_len : zlen src < 2 ^ 31.

(** The loop keeps the invariant, and stops for lack of room only when the
    destination is smaller than the bound. *)
Lemma compress_loop_ok n table pos ls dst :
  cinv src ls dst -> table_ok pos table -> ls <= pos <= zlen src ->
  match compress_loop n src cap table pos ls dst with
  | Some (ls', dst') => cinv src ls' dst'
  | None => cap < zlen src + zlen src / 255 + 16
  end.
Proof.
  revert table pos ls dst. induction n as [| n IH]; intros table pos ls dst C T Hp; [done |]. cbn [compress_loop].
  destruct (ci_ls _ _ _ C) as [Hls _]. unfold EMBKZ_MINMATCH at 1. rewrite (u32_small (pos + 4)) by lia.
  destruct (Z.leb_spec (pos + 4) (zlen src)) as [Hin | _]; [| done]. cbv zeta. set (h := read_u32le src pos).
  pose proof (table_cand pos table h T) as Hc. assert (i32 pos = pos) as -> by (apply i32_small; lia).
  pose proof (table_set pos (pos + 1) table h pos T ltac:(lia) ltac:(lia)) as T1.
  destruct (find_match src pos (rd table (hash4 h))) as [offset mlen] eqn:Ef. destruct (Z.leb_spec EMBKZ_MINMATCH mlen) as [Hm | _].
  - pose proof (find_match_good src pos _ offset mlen src_len ltac:(lia) Hc Ef Hm) as G. destruct (G) as [G1 G2 G3 G4 _].
    unfold EMBKZ_MINMATCH in G1. pose proof (cinv_next src ls pos offset mlen dst C G ltac:(lia) src_bytes src_len) as C1.
    rewrite emit_match_put by (done || lia). unfold put. destruct (Z.ltb_spec cap (zlen dst + zlen (enc_seq src ls pos offset mlen))) as [Hfull |]; cbn.
    + pose proof (ci_size _ _ _ C1) as Hz. rewrite zlen_app in Hz. Z.to_euclidean_division_equations. lia.
    + rewrite (u32_small (pos + mlen)) by lia. apply IH; [done | | lia].
      assert (table_ok (pos + mlen) (wr table (hash4 h) pos)) as T2.
      { destruct T1 as [T1a T1b]. split; [done |]. apply (Forall_impl _ _ _ T1b). cbv beta. lia. }
      destruct (_ <=? zlen src); [| done]. assert (i32 (pos + mlen - 1) = pos + mlen - 1) as -> by (apply i32_small; lia).
      apply (table_set (pos + mlen)); [done | lia | lia].
  - rewrite (u32_small (pos + 1)) by lia. apply IH; [done | done | lia].
Qed.

(** More iterations than the input has bytes change nothing: the loop of the C
    ends. *)
Lemma compress_loop_ends n k table pos ls dst :
  0 <= pos <= zlen src -> table_ok pos table -> zlen src - pos < Z.of_nat n ->
  compress_loop (n + k) src cap table pos ls dst = compress_loop n src cap table pos ls dst.
Proof.
  revert table pos ls dst. induction n as [| n IH]; intros table pos ls dst Hp T Hn; [lia |]. cbn [compress_loop Nat.add].
  unfold EMBKZ_MINMATCH at 1 4. rewrite (u32_small (pos + 4)) by lia.
  destruct (Z.leb_spec (pos + 4) (zlen src)) as [Hin | _]; [| done]. cbv zeta. set (h := read_u32le src pos).
  pose proof (table_cand pos table h T) as Hc. assert (i32 pos = pos) as -> by (apply i32_small; lia).
  pose proof (table_set pos (pos + 1) table h pos T ltac:(lia) ltac:(lia)) as T1.
  destruct (find_match src pos (rd table (hash4 h))) as [offset mlen] eqn:Ef. destruct (Z.leb_spec EMBKZ_MINMATCH mlen) as [Hm | _].
  - pose proof (find_match_good src pos _ offset mlen src_len ltac:(lia) Hc Ef Hm) as [G1 G2 _ _ _]. unfold EMBKZ_MINMATCH in G1.
    destruct (emit_match _ _ _ _ _ _ _) as [d |]; [| done]. cbn. rewrite (u32_small (pos + mlen)) by lia. apply IH; [lia | | lia].
    assert (table_ok (pos + mlen) (wr table (hash4 h) pos)) as T2.
    { destruct T1 as [T1a T1b]. split; [done |]. apply (Forall_impl _ _ _ T1b). cbv beta. lia. }
    destruct (_ <=? zlen src); [| done]. assert (i32 (pos + mlen - 1) = pos + mlen - 1) as -> by (apply i32_small; lia).
    apply (table_set (pos + mlen)); [done | lia | lia].
  - rewrite (u32_small (pos + 1)) by lia. apply IH; [lia | done | lia].
Qed.
End Loop.

Lemma start_cinv src : cinv src 0 [].
Proof. split; [split; [done | apply zlen_nonneg] | apply coded_start | constructor | done]. Qed.

Lemma start_table : table_ok 0 (replicate (Z.to_nat EMBKZ_HASH_SIZE) (-1)).
Proof. split; [by vm_compute |]. apply Forall_replicate. lia. Qed.

Lemma stream_cases src cap :
  Forall is_byte src -> zlen src < 2 ^ 31 ->
  match compress_stream src cap with
  | Some out => Forall is_byte out /\ zlen out <= cap /\ (zlen out < 2 ^ 32 -> embk_decompress out (zlen src) = Done src)
  | None => cap < zlen src + zlen src / 255 + 16
  end.
Proof.
  intros Hb Hs. pose proof (compress_loop_ok src cap Hb Hs (S (length src)) _ 0 0 [] (start_cinv src) start_table
    ltac:(pose proof (zlen_nonneg src); lia)) as Hl. unfold compress_stream.
  destruct (compress_loop _ _ _ _ _ _ _) as [[ls dst] |]; [| done]. cbn. destruct Hl as [C1 C2 C3 C4].
  destruct (enc_last_bytes src ls Hb C1) as [B L]. rewrite emit_last_put by done. unfold put.
  destruct (Z.ltb_spec cap (zlen dst + zlen (enc_last src ls))).
  - Z.to_euclidean_division_equations. lia.
  - split_and!; [by apply Forall_app | rewrite zlen_app; lia |]. intros Hf. apply coded_last; [done | done | lia | done].
Qed.

(** C23. What the compressor accepts comes back unchanged: whenever it reports
    success the stream is shorter than the input, fits in the destination, is
    made of bytes, and decompresses to the input. *)
Theorem embk_compress_roundtrip have_table src dst_cap out :
  Forall is_byte src -> zlen src < 2 ^ 31 -> embk_compress have_table src dst_cap = Some out ->
  zlen out < zlen src /\ zlen out <= dst_cap /\ Forall is_byte out /\ embk_decompress out (zlen src) = Done src.
Proof.
  intros Hb Hs Hc. unfold embk_compress in Hc. destruct (_ <? _); [done |]. destruct (negb have_table); [done |].
  pose proof (stream_cases src dst_cap Hb Hs) as Hst. destruct (compress_stream src dst_cap) as [d |]; [| done]. cbn in Hc.
  destruct (Z.leb_spec (zlen src) (zlen d)); [done |]. simplify_eq. destruct Hst as (B & L & D). split_and!; [done | done | done | apply D; lia].
Qed.

(** A destination of [embk_compress_bound] bytes is never too small, and
    the loop ends: the compressor then declines only an input under five bytes,
    a missing hash table, or a stream that would not be shorter than the
    input. *)
Theorem embk_compress_bound_enough src dst_cap k :
  Forall is_byte src -> zlen src < 2 ^ 31 -> embk_compress_bound (zlen src) <= dst_cap ->
  (exists out, compress_stream src dst_cap = Some out
     /\ embk_compress true src dst_cap = if (zlen src <? 5) || (zlen src <=? zlen out) then None else Some out)
  /\ compress_loop (S (length src) + k) src dst_cap (replicate (Z.to_nat EMBKZ_HASH_SIZE) (-1)) 0 0 []
     = compress_loop (S (length src)) src dst_cap (replicate (Z.to_nat EMBKZ_HASH_SIZE) (-1)) 0 0 [].
Proof.
  intros Hb Hs Hcap. pose proof (zlen_nonneg src) as H0. split.
  - pose proof (stream_cases src dst_cap Hb Hs) as Hst. unfold embk_compress_bound in Hcap.
    assert (0 <= 255 * (zlen src / 255) <= zlen src) as Hd by (Z.to_euclidean_division_equations; lia).
    rewrite (u32_small (zlen src + zlen src / 255)), u32_small in Hcap by lia. unfold embk_compress. change (EMBKZ_MINMATCH + 1) with 5.
    destruct (compress_stream src dst_cap) as [d |]; [| lia]. exists d. split; [done |].
    destruct (zlen src <? 5); [done |]. cbn. by destruct (zlen src <=? zlen d).
  - apply compress_loop_ends; [done | lia | apply start_table | unfold zlen; lia].
Qed.

(** ** Examples *)

Definition demo_pattern : list Z := (fun i => 65 + i mod 7) <$> seqZ 0 60.

Lemma demo_bytes : Forall is_byte demo_pattern /\ zlen demo_pattern < 2 ^ 31.
Proof. split; [| by vm_compute]. apply Forall_forall. intros x (i & -> & _)%list_elem_of_fmap. unfold is_byte. pose proof (Z.mod_pos_bound i 7). lia. Qed.

Lemma embk_compress_roundtrip_witness :
  exists out, embk_compress true demo_pattern 100 = Some out /\ zlen out = 12 /\ embk_decompress out (zlen demo_pattern) = Done demo_pattern.
Proof.
  exists [127; 65; 66; 67; 68; 69; 70; 71; 7; 0; 34; 0].
  assert (embk_compress true demo_pattern 100 = Some [127; 65; 66; 67; 68; 69; 70; 71; 7; 0; 34; 0]) as E by (by vm_compute).
  split; [exact E |]. split; [done |].
  apply (embk_compress_roundtrip true demo_pattern 100 _ (proj1 demo_bytes) (proj2 demo_bytes) E).
Defined.

Lemma embk_compress_bound_enough_witness : exists out, compress_stream demo_pattern 76 = Some out.
Proof.
  destruct (embk_compress_bound_enough demo_pattern 76 0 (proj1 demo_bytes) (proj2 demo_bytes) ltac:(by vm_compute)) as [(out & E & _) _].
  by exists out.
Defined.

Lemma embk_decompress_safe_witness : embk_decompress [255; 255; 255] 1000 <> Fault.
Proof.
  apply (embk_decompress_safe [255; 255; 255] 1000); [| by vm_compute | lia]. repeat constructor; unfold is_byte; lia.
Defined.
