(* ===== verification/Tty.v ===== *)
(** * The console line discipline ([kernel/tty/tty.c])

    Cooked input: keys are assembled into a line with erase, word erase and line
    kill, echoed as they are typed, and handed to readers once the line is
    complete.  Raw input passes bytes through.

    The keyboard below ([drivers/input/keyboard.c]) is the buffer of typed
    bytes, the cancellation flag of the reading process, and what will happen
    while a reader sleeps: bytes typed, or a cancellation.  The echo is the
    sequence of bytes written to the console. *)

From S2P Require Import Prelude Bytes.

Definition TTY_LINE_MAX : Z := 1024.
Definition TTY_EOF : Z := 1.

Inductive tty_mode := TTY_COOKED | TTY_RAW.

Record tty := mkTty { mode : tty_mode; linebuf : list Z; fill : Z; pos : Z; complete : bool }.

(** ** The keyboard *)

Inductive wake := Typed (c : Z) (more : list Z) | Cancel.
Record kbd := mkKbd { kbuf : list Z; cancelled : bool; wakes : list wake }.

Inductive got := Got (c : Z) (k : kbd) | Canceled (k : kbd) | Asleep.

Definition keyboard_getchar_blocking_cancelable (k : kbd) : got :=
  match kbuf k with
  | c :: r => Got c (mkKbd r (cancelled k) (wakes k))
  | [] =>
      if cancelled k then Canceled k
      else match wakes k with
           | [] => Asleep
           | Typed c more :: w => Got c (mkKbd more (cancelled k) w)
           | Cancel :: w => Canceled (mkKbd [] true w)
           end
  end.

Definition keyboard_has_char (k : kbd) : bool := match kbuf k with [] => false | _ => true end.
Definition keyboard_inject_char (c : Z) (k : kbd) : kbd := mkKbd (kbuf k ++ [c]) (cancelled k) (wakes k).

Record world := mkWorld { dev : tty; keys : kbd; echo : list Z }.

Definition set_dev (w : world) (t : tty) : world := mkWorld t (keys w) (echo w).
Definition set_keys (w : world) (k : kbd) : world := mkWorld (dev w) k (echo w).
Definition console_putchar (c : Z) (w : world) : world := mkWorld (dev w) (keys w) (echo w ++ [c]).

Definition tty_set_mode (m : tty_mode) (w : world) : world :=
  set_dev w (mkTty m (linebuf (dev w)) (fill (dev w)) (pos (dev w)) (complete (dev w))).
Definition tty_get_mode (w : world) : tty_mode := mode (dev w).

Definition tty_echo_erase (w : world) : world := console_putchar 8 (console_putchar 32 (console_putchar 8 w)).

(** ** Assembling a line *)

Definition set_fill (w : world) (n : Z) : world :=
  set_dev w (mkTty (mode (dev w)) (linebuf (dev w)) n (pos (dev w)) (complete (dev w))).
Definition append (w : world) (c : Z) : world :=
  let t := dev w in set_dev w (mkTty (mode t) (wr (linebuf t) (fill t) c) (fill t + 1) (pos t) (complete t)).
Definition finish (w : world) : world :=
  let t := dev w in set_dev w (mkTty (mode t) (linebuf t) (fill t) 0 true).

(** [fill--; tty_echo_erase()]. *)
Definition rub_out (w : world) : world := tty_echo_erase (set_fill w (fill (dev w) - 1)).

(** [while (fill > 0 && p(linebuf[fill - 1]))]; [n] bounds the iterations. *)
Fixpoint erase_while (n : nat) (p : Z -> bool) (w : world) : world :=
  match n with
  | O => w
  | S n =>
      if (0 <? fill (dev w)) && p (rd (linebuf (dev w)) (fill (dev w) - 1)) then erase_while n p (rub_out w) else w
  end.

Definition erase_all (p : Z -> bool) (w : world) : world := erase_while (Z.to_nat (fill (dev w))) p w.

(** What one key does: [inl] to go on, [inr] with the result of the line. *)
Definition on_key (c : Z) (w : world) : world + Z * world :=
  if c =? 10 then inr (Errno.EMBK_OK, finish (append (console_putchar 10 w) 10))
  else if c =? 4 then
    if fill (dev w) =? 0 then inr (TTY_EOF, w) else inr (Errno.EMBK_OK, finish w)
  else if c =? 8 then inl (if 0 <? fill (dev w) then rub_out w else w)
  else if c =? 0x15 then inl (erase_all (fun _ => true) w)
  else if c =? 0x17 then inl (erase_all (fun x => negb (x =? 32)) (erase_all (fun x => x =? 32) w))
  else if (0x20 <=? c) && (c <=? 0x7E) then
    inl (if fill (dev w) <? TTY_LINE_MAX - 1 then console_putchar c (append w c) else w)
  else inl w.

(** Bytes that will ever be typed. *)
Definition pending (k : kbd) : nat :=
  length (kbuf k) + sum_list_with (fun e => match e with Typed _ more => S (length more) | Cancel => O end) (wakes k).

Fixpoint assemble (n : nat) (w : world) : option (Z * world) :=
  match n with
  | O => None
  | S n =>
      match keyboard_getchar_blocking_cancelable (keys w) with
      | Asleep => None
      | Canceled k => Some (- Errno.EMBK_ECANCELED, set_keys w k)
      | Got c k =>
          match on_key c (set_keys w k) with
          | inr r => Some r
          | inl w => assemble n w
          end
      end
  end.

(** [None]: the reader sleeps for ever. *)
Definition tty_assemble_line (w : world) : option (Z * world) := assemble (S (pending (keys w))) w.

(** ** Reading *)

Definition tty_drain_completed (len : Z) (w : world) : list Z * world :=
  let t := dev w in
  let to_copy := fill t - pos t in
  let copied := if to_copy <? len then to_copy else len in
  let t' := mkTty (mode t) (linebuf t) (fill t) (pos t + copied) (complete t) in
  let t' := if fill t' <=? pos t' then mkTty (mode t') (linebuf t') 0 0 false else t' in
  (sub (linebuf t) (pos t) copied, set_dev w t').

(** [while (total < len && keyboard_has_char())]. *)
Fixpoint sweep (n : nat) (k : kbd) : list Z * kbd :=
  match n with
  | O => ([], k)
  | S n =>
      match kbuf k with
      | c :: r => let '(l, k) := sweep n (mkKbd r (cancelled k) (wakes k)) in (c :: l, k)
      | [] => ([], k)
      end
  end.

Definition tty_read_raw (len : Z) (w : world) : option (Z * list Z * world) :=
  match keyboard_getchar_blocking_cancelable (keys w) with
  | Asleep => None
  | Canceled k => Some (- Errno.EMBK_ECANCELED, [], set_keys w k)
  | Got c k => let '(l, k) := sweep (Z.to_nat (len - 1)) k in Some (Errno.EMBK_OK, c :: l, set_keys w k)
  end.

Definition tty_read (len : Z) (w : world) : option (Z * list Z * world) :=
  if len =? 0 then Some (Errno.EMBK_OK, [], w)
  else
    match mode (dev w) with
    | TTY_RAW => tty_read_raw len w
    | TTY_COOKED =>
        if complete (dev w) then let '(l, w) := tty_drain_completed len w in Some (Errno.EMBK_OK, l, w)
        else
          match tty_assemble_line w with
          | None => None
          | Some (rc, w) =>
              if rc =? TTY_EOF then Some (Errno.EMBK_OK, [], w)
              else if negb (rc =? Errno.EMBK_OK) then Some (rc, [], w)
              else let '(l, w) := tty_drain_completed len w in Some (Errno.EMBK_OK, l, w)
          end
    end.

(** ** The self-test *)

Definition quiet_tty (m : tty_mode) : tty := mkTty m (replicate (Z.to_nat TTY_LINE_MAX) 0) 0 0 false.

(** A world with the given bytes typed. *)
Definition typed (m : tty_mode) (ks : list Z) : world :=
  mkWorld (quiet_tty m) (fold_left (fun k c => keyboard_inject_char c k) ks (mkKbd [] false [])) [].

Definition tty_expect (ks want : list Z) : bool :=
  match tty_read TTY_LINE_MAX (typed TTY_COOKED ks) with
  | Some (rc, got, _) => (rc =? Errno.EMBK_OK) && bool_decide (got = want)
  | None => false
  end.

Definition split_read : bool :=
  match tty_read 2 (typed TTY_COOKED [104; 105; 10]) with
  | Some (_, a, w) => match tty_read 2 w with Some (_, b, _) => bool_decide (a = [104; 105] /\ b = [10]) | None => false end
  | None => false
  end.

Definition raw_passthru : bool :=
  match tty_read 8 (typed TTY_RAW [97; 8; 99]) with Some (_, r, _) => bool_decide (r = [97; 8; 99]) | None => false end.

Definition tty_run_selftests : Z :=
  let ok :=
    tty_expect [108; 115; 10] [108; 115; 10]
    && tty_expect [108; 115; 8; 120; 10] [108; 120; 10]
    && tty_expect [97; 98; 99; 0x15; 120; 121; 10] [120; 121; 10]
    && tty_expect [102; 111; 111; 32; 98; 97; 114; 0x17; 10] [102; 111; 111; 32; 10]
    && tty_expect [97; 98; 99; 4] [97; 98; 99]
    && tty_expect [4] []
    && split_read && raw_passthru in
  if ok then Errno.EMBK_OK else - Errno.EMBK_EIO.

(** ** Lines *)

(** The text in the buffer. *)
Definition line (t : tty) : list Z := take (Z.to_nat (fill t)) (linebuf t).

(** What a key does to a line. *)
Definition drop_end (p : Z -> bool) (l : list Z) : list Z :=
  rev ((fix go l := match l with [] => [] | x :: r => if p x then go r else l end) (rev l)).

Definition edit (l : list Z) (c : Z) : list Z :=
  if c =? 8 then removelast l
  else if c =? 0x15 then []
  else if c =? 0x17 then drop_end (fun x => negb (x =? 32)) (drop_end (fun x => x =? 32) l)
  else if (0x20 <=? c) && (c <=? 0x7E) then (if zlen l <? TTY_LINE_MAX - 1 then l ++ [c] else l)
  else l.

(** What the echo shows on a line of the console: a backspace takes the cursor
    one cell back. *)
Definition shown (l : list Z) : list Z := fold_left (fun s c => if c =? 8 then removelast s else s ++ [c]) l [].

(** The buffer is in bounds and the console shows it.  [prompt] is what was on
    the console before. *)
Record wf (prompt : list Z) (w : world) : Prop := {
  wf_buf : zlen (linebuf (dev w)) = TTY_LINE_MAX;
  wf_fill : 0 <= fill (dev w) <= TTY_LINE_MAX - 1;
  wf_shown : shown (echo w) = prompt ++ line (dev w);
}.

Lemma shown_snoc l c : shown (l ++ [c]) = if c =? 8 then removelast (shown l) else shown l ++ [c].
Proof. unfold shown. by rewrite fold_left_app. Qed.

Lemma line_length prompt w : wf prompt w -> zlen (line (dev w)) = fill (dev w).
Proof. intros [Hb Hf _]. unfold line, zlen in *. rewrite length_take. unfold TTY_LINE_MAX in *. lia. Qed.

Lemma line_last prompt w : wf prompt w -> 0 < fill (dev w) ->
  line (dev w) = take (Z.to_nat (fill (dev w) - 1)) (linebuf (dev w)) ++ [rd (linebuf (dev w)) (fill (dev w) - 1)].
Proof.
  intros [Hb Hf _] Hp. unfold line, rd. destruct (lookup_lt_is_Some_2 (linebuf (dev w)) (Z.to_nat (fill (dev w) - 1))) as [x Ex].
  { unfold zlen, TTY_LINE_MAX in *. lia. }
  rewrite Ex. simpl. rewrite <- take_S_r by done. f_equal. lia.
Qed.

Lemma rub_out_wf prompt w : wf prompt w -> 0 < fill (dev w) ->
  wf prompt (rub_out w) /\ line (dev (rub_out w)) = removelast (line (dev w)) /\ fill (dev (rub_out w)) = fill (dev w) - 1.
Proof.
  intros W Hp. pose proof (line_last prompt w W Hp) as El. destruct W as [Hb Hf Hs].
  assert (line (dev (rub_out w)) = removelast (line (dev w))) as E.
  { rewrite El, removelast_last. done. }
  split_and!; [| done | done]. split; [done | cbn; unfold TTY_LINE_MAX in *; lia |]. rewrite E.
  unfold rub_out, tty_echo_erase. cbn [echo console_putchar set_fill set_dev]. rewrite !shown_snoc. cbn. rewrite Hs, El, app_assoc, removelast_last.
  rewrite removelast_last. by rewrite removelast_last.
Qed.

Lemma drop_end_snoc p l x : drop_end p (l ++ [x]) = if p x then drop_end p l else l ++ [x].
Proof. unfold drop_end. rewrite rev_app_distr. simpl. destruct (p x); [done |]. simpl. by rewrite rev_involutive. Qed.

Lemma erase_while_wf prompt n p w :
  wf prompt w -> fill (dev w) <= Z.of_nat n ->
  let w' := erase_while n p w in
  wf prompt w' /\ line (dev w') = drop_end p (line (dev w)) /\ keys w' = keys w
  /\ mode (dev w') = mode (dev w) /\ pos (dev w') = pos (dev w) /\ complete (dev w') = complete (dev w).
Proof.
  cbv zeta. revert w. induction n as [| n IH]; intros w W Hn; cbn [erase_while].
  - assert (fill (dev w) = 0) as E0 by (destruct W as [_ ? _]; lia). split_and!; try done.
    assert (line (dev w) = []) as -> by (unfold line; by rewrite E0). done.
  - destruct (Z.ltb_spec 0 (fill (dev w))) as [Hp | Hp]; cbn [andb].
    + pose proof (line_last prompt w W Hp) as El. destruct (rub_out_wf prompt w W Hp) as (W' & L' & F'). rewrite El, drop_end_snoc.
      destruct (p _); [| by rewrite <- El]. destruct (IH (rub_out w) W' ltac:(lia)) as (I1 & I2 & I3 & I4 & I5 & I6).
      rewrite L', El, removelast_last in I2. done.
    + assert (fill (dev w) = 0) as E0 by (destruct W as [_ ? _]; lia). split_and!; try done.
      assert (line (dev w) = []) as -> by (unfold line; by rewrite E0). done.
Qed.

Lemma erase_all_wf prompt p w :
  wf prompt w ->
  let w' := erase_all p w in
  wf prompt w' /\ line (dev w') = drop_end p (line (dev w)) /\ keys w' = keys w
  /\ mode (dev w') = mode (dev w) /\ pos (dev w') = pos (dev w) /\ complete (dev w') = complete (dev w).
Proof. intros W. apply erase_while_wf; [done |]. destruct W as [_ ? _]. lia. Qed.

Lemma take_wr l n c : 0 <= n < zlen l -> take (Z.to_nat (n + 1)) (wr l n c) = take (Z.to_nat n) l ++ [c].
Proof.
  intros Hn. unfold wr, zlen in *. replace (Z.to_nat (n + 1)) with (S (Z.to_nat n)) by lia.
  rewrite (take_S_r _ _ c) by (by rewrite list_lookup_insert_eq by lia). by rewrite take_insert_ge by lia.
Qed.

(** Putting a character at the end. *)
Lemma append_line w c : 0 <= fill (dev w) < zlen (linebuf (dev w)) -> line (dev (append w c)) = line (dev w) ++ [c].
Proof. intros Hf. unfold line, append. cbn. by apply take_wr. Qed.

Definition plain (c : Z) : Prop := c <> 10 /\ c <> 4.

(** Each key edits the line, and only the line, and the console shows it. *)
Lemma on_key_edit prompt c w :
  wf prompt w -> plain c ->
  exists w', on_key c w = inl w' /\ wf prompt w' /\ line (dev w') = edit (line (dev w)) c /\ keys w' = keys w
  /\ mode (dev w') = mode (dev w) /\ pos (dev w') = pos (dev w) /\ complete (dev w') = complete (dev w).
Proof.
  intros W [H10 H4]. unfold on_key, edit. destruct (Z.eqb_spec c 10); [done |]. destruct (Z.eqb_spec c 4); [done |].
  pose proof (line_length prompt w W) as Hlen. destruct (Z.eqb_spec c 8).
  { destruct (Z.ltb_spec 0 (fill (dev w))) as [Hp | Hp].
    - destruct (rub_out_wf prompt w W Hp) as (W' & L' & _). by exists (rub_out w).
    - exists w. split_and!; try done. destruct W as [_ ? _]. unfold line. by replace (fill (dev w)) with 0 by lia. }
  destruct (Z.eqb_spec c 0x15).
  { destruct (erase_all_wf prompt (fun _ => true) w W) as (W' & L' & ?). exists (erase_all (fun _ => true) w). split_and!; try tauto.
    rewrite L'. unfold drop_end. induction (rev (line (dev w))) as [| x r IH]; [done |]. apply IH. }
  destruct (Z.eqb_spec c 0x17).
  { destruct (erase_all_wf prompt (fun x => x =? 32) w W) as (W1 & L1 & K1 & M1 & P1 & C1).
    destruct (erase_all_wf prompt (fun x => negb (x =? 32)) _ W1) as (W2 & L2 & K2 & M2 & P2 & C2).
    eexists. split; [done |]. split_and!; [done | by rewrite L2, L1 | congruence ..]. }
  destruct (_ && _); [| by exists w]. rewrite Hlen. destruct (Z.ltb_spec (fill (dev w)) (TTY_LINE_MAX - 1)) as [Hf |]; [| by exists w].
  exists (console_putchar c (append w c)). destruct W as [Wb Wf Ws].
  assert (line (dev (append w c)) = line (dev w) ++ [c]) as El by (apply append_line; unfold TTY_LINE_MAX in *; lia).
  split_and!; try done. split.
  - cbn. unfold zlen in *. by rewrite wr_length.
  - cbn. lia.
  - cbn [echo console_putchar dev]. rewrite shown_snoc, El. destruct (Z.eqb_spec c 8); [done |]. cbn [append set_dev echo]. by rewrite Ws, app_assoc.
Qed.

(** ** What is typed *)

(** Reading one byte after the other, asleep or not. *)
Inductive feeds : kbd -> list Z -> kbd -> Prop :=
| feeds_nil k : feeds k [] k
| feeds_cons k c k1 ks k' : keyboard_getchar_blocking_cancelable k = Got c k1 -> feeds k1 ks k' -> feeds k (c :: ks) k'.

Lemma got_pending k c k1 : keyboard_getchar_blocking_cancelable k = Got c k1 -> pending k = S (pending k1).
Proof.
  unfold keyboard_getchar_blocking_cancelable, pending. destruct k as [b cc ws]. cbn. destruct b as [| x b].
  - destruct cc; [done |]. destruct ws as [| [d more |] ws]; intros E; simplify_eq. cbn. lia.
  - intros E. simplify_eq. cbn. lia.
Qed.

Lemma feeds_app k ks ls k' : feeds k (ks ++ ls) k' -> exists k1, feeds k ks k1 /\ feeds k1 ls k'.
Proof.
  revert k. induction ks as [| c ks IH]; intros k Hf; simpl in Hf; [exists k; split; [constructor | done] |].
  inversion Hf as [| ? ? k1 ? ? Hg Hr]; subst. destruct (IH k1 Hr) as (k2 & H1 & H2). exists k2. split; [by econstructor | done].
Qed.

(** Plain keys only edit. *)
Lemma assemble_edit prompt ks n w k1 :
  wf prompt w -> Forall plain ks -> feeds (keys w) ks k1 -> (pending (keys w) < n)%nat ->
  exists w1 n1, assemble n w = assemble n1 w1 /\ (pending k1 < n1)%nat /\ wf prompt w1 /\ keys w1 = k1
  /\ line (dev w1) = fold_left edit ks (line (dev w))
  /\ mode (dev w1) = mode (dev w) /\ pos (dev w1) = pos (dev w) /\ complete (dev w1) = complete (dev w).
Proof.
  revert n w. induction ks as [| c ks IH]; intros n w W Hp Hf Hn.
  { inversion Hf; subst. by exists w, n. }
  inversion Hf as [| ? ? k2 ? ? Hg Hr]; subst. inversion Hp as [| ? ? Hc Hp']; subst. destruct n as [| n]; [lia |].
  cbn [assemble]. rewrite Hg. assert (wf prompt (set_keys w k2)) as W2 by (by destruct W).
  destruct (on_key_edit prompt c _ W2 Hc) as (w' & -> & W' & L' & K' & M' & P' & C'). cbn in L', K', M', P', C'.
  apply got_pending in Hg. destruct (IH n w' W' Hp') as (w1 & n1 & E & Hn1 & W1 & K1 & L1 & M1 & P1 & C1); [by rewrite K' | rewrite K'; cbn; lia |].
  exists w1, n1. split_and!; try done; [by rewrite L1, L' | congruence ..].
Qed.

(** ** Handing the line over *)

(** A completed line of which [u] is still to be read. *)
Record ready (w : world) (u : list Z) : Prop := {
  rd_mode : mode (dev w) = TTY_COOKED;
  rd_complete : complete (dev w) = true;
  rd_buf : zlen (linebuf (dev w)) = TTY_LINE_MAX;
  rd_range : 0 <= pos (dev w) < fill (dev w);
  rd_top : fill (dev w) <= TTY_LINE_MAX;
  rd_unread : sub (linebuf (dev w)) (pos (dev w)) (fill (dev w) - pos (dev w)) = u;
}.

(** Between lines. *)
Definition fresh (w : world) : Prop := mode (dev w) = TTY_COOKED /\ complete (dev w) = false /\ fill (dev w) = 0.

Lemma ready_len w u : ready w u -> zlen u = fill (dev w) - pos (dev w).
Proof. intros [_ _ Hb Hr Ht <-]. apply sub_length; lia. Qed.

Lemma sub_take l o n m : 0 <= m <= n -> sub l o m = take (Z.to_nat m) (sub l o n).
Proof. intros Hm. unfold sub. rewrite take_take. f_equal. lia. Qed.

Lemma sub_drop l o n m : 0 <= o -> 0 <= m <= n -> sub l (o + m) (n - m) = drop (Z.to_nat m) (sub l o n).
Proof. intros Ho Hm. unfold sub. rewrite skipn_firstn_comm, drop_drop. f_equal; [lia |]. f_equal. lia. Qed.

Lemma read_ready n w u :
  ready w u -> 0 < n ->
  exists w', tty_read n w = Some (Errno.EMBK_OK, take (Z.to_nat n) u, w') /\ keys w' = keys w /\ echo w' = echo w
  /\ (n < zlen u -> ready w' (drop (Z.to_nat n) u)) /\ (zlen u <= n -> fresh w').
Proof.
  intros R Hn. pose proof (ready_len w u R) as Hlen. destruct R as [R1 R2 R3 R4 R5 R6]. unfold tty_read.
  destruct (Z.eqb_spec n 0); [lia |]. rewrite R1, R2. unfold tty_drain_completed. cbv zeta.
  destruct (Z.ltb_spec (fill (dev w) - pos (dev w)) n) as [Hlt | Hge]; cbn [fill pos linebuf mode complete].
  - destruct (Z.leb_spec (fill (dev w)) (pos (dev w) + (fill (dev w) - pos (dev w)))); [| lia].
    eexists. split; [by rewrite R6, take_ge by (unfold zlen in *; lia) |]. split_and!; [done | done | lia | intros _; by repeat split].
  - rewrite (sub_take _ _ (fill (dev w) - pos (dev w))), R6 by lia. destruct (Z.leb_spec (fill (dev w)) (pos (dev w) + n)).
    + eexists. split; [done |]. split_and!; [done | done | lia | intros _; by repeat split].
    + eexists. split; [done |]. split_and!; [done | done | intros _ | lia]. split; cbn; try done; [lia |].
      rewrite <- R6, <- sub_drop by lia. f_equal. lia.
Qed.

Fixpoint read_all (lens : list Z) (w : world) : option (list Z * world) :=
  match lens with
  | [] => Some ([], w)
  | n :: lens =>
      match tty_read n w with
      | Some (rc, out, w) =>
          if rc =? Errno.EMBK_OK then match read_all lens w with Some (o, w) => Some (out ++ o, w) | None => None end else None
      | None => None
      end
  end.

Definition zsum (l : list Z) : Z := fold_right Z.add 0 l.

Lemma zsum_nonneg l : Forall (fun n => 0 < n) l -> 0 <= zsum l.
Proof. induction 1; cbn; [done |]. fold (zsum l). lia. Qed.

Lemma read_all_ready lens n w u :
  ready w u -> Forall (fun n => 0 < n) lens -> 0 < n -> zsum lens < zlen u ->
  exists w', read_all (lens ++ [n]) w = Some (take (Z.to_nat (zsum lens + n)) u, w') /\ keys w' = keys w /\ echo w' = echo w
  /\ (zlen u <= zsum lens + n -> fresh w').
Proof.
  intros R Hl Hn. revert w u R. induction Hl as [| m lens Hm Hl IH]; intros w u R Hs; cbn [app read_all zsum fold_right].
  - destruct (read_ready n w u R Hn) as (w' & -> & K & E & _ & F). cbn. exists w'. by rewrite app_nil_r, Z.add_0_l.
  - fold (zsum lens). cbn in Hs. fold (zsum lens) in Hs. pose proof (zsum_nonneg lens Hl) as H0.
    destruct (read_ready m w u R Hm) as (w1 & -> & K1 & E1 & R1 & _). specialize (R1 ltac:(lia)). cbn [Z.eqb Errno.EMBK_OK].
    assert (zlen (drop (Z.to_nat m) u) = zlen u - m) as Hd by (unfold zlen in *; rewrite length_drop; lia).
    destruct (IH w1 _ R1 ltac:(lia)) as (w2 & -> & K2 & E2 & F2). exists w2. change (0 =? 0) with true. cbv iota. split_and!; [| congruence | congruence | intros; apply F2; lia].
    do 2 f_equal. replace (Z.to_nat (m + zsum lens + n)) with (Z.to_nat m + Z.to_nat (zsum lens + n))%nat by lia. by rewrite take_take_drop.
Qed.

(** The key that ends a line, and the line it ends. *)
Definition ends (c : Z) : Prop := c = 10 \/ c = 4.
Definition ended (l : list Z) (c : Z) : list Z := if c =? 10 then l ++ [10] else l.

Lemma finish_ready prompt c w :
  wf prompt w -> mode (dev w) = TTY_COOKED -> ends c -> ended (line (dev w)) c <> [] ->
  exists w', on_key c w = inr (Errno.EMBK_OK, w') /\ ready w' (ended (line (dev w)) c) /\ keys w' = keys w
  /\ shown (echo w') = prompt ++ ended (line (dev w)) c.
Proof.
  intros W Hm Hc Hne. pose proof (line_length prompt w W) as Hlen. destruct (W) as [Wb Wf Ws]. unfold on_key, ended in *. destruct Hc as [-> | ->].
  - cbn [Z.eqb Pos.eqb] in *. change (10 =? 10) with true in *. cbv iota in *. eexists. split; [done |].
    assert (line (dev (append (console_putchar 10 w) 10)) = line (dev w) ++ [10]) as El by (apply (append_line (console_putchar 10 w)); cbn; unfold TTY_LINE_MAX in *; lia).
    split_and!; [| done |].
    + split; cbn; try done; [unfold zlen in *; by rewrite wr_length | lia | lia |]. rewrite Z.sub_0_r. exact El.
    + cbn [finish set_dev append echo console_putchar]. rewrite shown_snoc. cbn. by rewrite Ws, app_assoc.
  - change (4 =? 10) with false in *. change (4 =? 4) with true. cbv iota in *. destruct (Z.eqb_spec (fill (dev w)) 0) as [E0 | Hnz].
    { destruct Hne. unfold line. by rewrite E0. }
    eexists. split; [done |]. split_and!; [| done | done]. split; cbn; try done; [lia | lia |]. by rewrite Z.sub_0_r.
Qed.

(** Keys up to the end of a line leave it ready; a read then is a read of it. *)
Lemma read_assembles prompt ks c n w k' :
  wf prompt w -> mode (dev w) = TTY_COOKED -> complete (dev w) = false -> Forall plain ks -> ends c ->
  feeds (keys w) (ks ++ [c]) k' -> 0 < n -> ended (fold_left edit ks (line (dev w))) c <> [] ->
  exists w', tty_read n w = tty_read n w' /\ ready w' (ended (fold_left edit ks (line (dev w))) c) /\ keys w' = k'
  /\ shown (echo w') = prompt ++ ended (fold_left edit ks (line (dev w))) c.
Proof.
  intros W Hm Hco Hp Hc Hf Hn Hne. destruct (feeds_app _ _ _ _ Hf) as (k1 & F1 & F2).
  inversion F2 as [| ? ? k2 ? ? Hg F3]; subst. inversion F3; subst.
  destruct (assemble_edit prompt ks (S (pending (keys w))) w k1 W Hp F1 ltac:(lia)) as (w1 & n1 & E & Hn1 & W1 & K1 & L1 & M1 & P1 & C1).
  destruct n1 as [| n1]; [lia |]. cbn [assemble] in E. rewrite K1, Hg in E.
  assert (wf prompt (set_keys w1 k')) as W2 by (by destruct W1). rewrite <- L1 in *.
  destruct (finish_ready prompt c (set_keys w1 k') W2) as (w2 & E2 & R2 & K2 & S2); [cbn; congruence | done | done |].
  rewrite E2 in E. exists w2. split_and!; [| done | done | done]. unfold tty_read at 1. destruct (Z.eqb_spec n 0); [lia |].
  rewrite Hm, Hco. unfold tty_assemble_line. cbn [assemble]. rewrite E. change (Errno.EMBK_OK =? TTY_EOF) with false. change (Errno.EMBK_OK =? Errno.EMBK_OK) with true.
  cbn [negb]. unfold tty_read. destruct (Z.eqb_spec n 0); [lia |]. destruct R2 as [-> -> _ _ _ _]. done.
Qed.

(** A line typed at the console arrives exactly as edited: whatever was
    typed up to Enter (or ^D on a line that is not empty) is what the erase,
    word-erase and kill keys left of it, at most 1023 characters, and readers
    get it in order, whole, however small their buffers and however many reads
    they take; the console shows the same text; and the read that takes the
    last byte leaves an empty line behind. *)
Theorem tty_line_delivered prompt ks c lens n w k' :
  wf prompt w -> mode (dev w) = TTY_COOKED -> complete (dev w) = false -> Forall plain ks -> ends c ->
  feeds (keys w) (ks ++ [c]) k' ->
  let l := ended (fold_left edit ks (line (dev w))) c in
  l <> [] -> Forall (fun n => 0 < n) lens -> 0 < n -> zsum lens < zlen l ->
  exists w', read_all (lens ++ [n]) w = Some (take (Z.to_nat (zsum lens + n)) l, w') /\ keys w' = k'
  /\ shown (echo w') = prompt ++ l /\ (zlen l <= zsum lens + n -> fresh w').
Proof.
  intros W Hm Hco Hp Hc Hf l Hne Hl Hn Hs. destruct lens as [| m lens].
  - destruct (read_assembles prompt ks c n w k' W Hm Hco Hp Hc Hf Hn Hne) as (w1 & E & R & K & S). cbn [app read_all]. rewrite E.
    destruct (read_all_ready [] n w1 l R Hl Hn Hs) as (w' & E' & K' & Ec & F). cbn [app read_all] in E'. rewrite E'. exists w'. split_and!; [done | congruence | by rewrite Ec | done].
  - inversion Hl as [| ? ? Hm0 Hl']; subst. destruct (read_assembles prompt ks c m w k' W Hm Hco Hp Hc Hf Hm0 Hne) as (w1 & E & R & K & S).
    cbn [app read_all]. rewrite E. destruct (read_all_ready (m :: lens) n w1 l R Hl Hn Hs) as (w' & E' & K' & Ec & F). cbn [app read_all] in E'.
    rewrite E'. exists w'. split_and!; [done | congruence | by rewrite Ec | done].
Qed.

(** A cancelled read reports [ECANCELED] and delivers nothing, but what was
    typed before the cancellation stays in the buffer and on the screen: it
    becomes the beginning of the next line any process reads. *)
Theorem tty_cancel_keeps_line prompt ks n w k1 k2 :
  wf prompt w -> mode (dev w) = TTY_COOKED -> complete (dev w) = false -> Forall plain ks ->
  feeds (keys w) ks k1 -> keyboard_getchar_blocking_cancelable k1 = Canceled k2 -> 0 < n ->
  exists w', tty_read n w = Some (- Errno.EMBK_ECANCELED, [], w') /\ wf prompt w' /\ keys w' = k2
  /\ complete (dev w') = false /\ line (dev w') = fold_left edit ks (line (dev w)).
Proof.
  intros W Hm Hco Hp Hf Hg Hn.
  destruct (assemble_edit prompt ks (S (pending (keys w))) w k1 W Hp Hf ltac:(lia)) as (w1 & n1 & E & Hn1 & W1 & K1 & L1 & M1 & P1 & C1).
  destruct n1 as [| n1]; [lia |]. cbn [assemble] in E. rewrite K1, Hg in E. exists (set_keys w1 k2).
  unfold tty_read. destruct (Z.eqb_spec n 0); [lia |]. rewrite Hm, Hco. unfold tty_assemble_line. cbn [assemble]. rewrite E.
  split_and!; [done | by destruct W1 | done | by cbn; rewrite C1 | done].
Qed.

(** The self-test the kernel runs passes. *)
Example tty_selftests_pass : tty_run_selftests = Errno.EMBK_OK.
Proof. by vm_compute. Qed.

Lemma typed_wf ks : wf [] (typed TTY_COOKED ks).
Proof. split; [by vm_compute | by vm_compute | done]. Qed.

Lemma tty_line_delivered_witness :
  exists w', read_all ([2] ++ [2]) (typed TTY_COOKED [104; 120; 8; 105; 10]) = Some ([104; 105; 10], w') /\ fresh w'.
Proof.
  destruct (tty_line_delivered [] [104; 120; 8; 105] 10 [2] 2 (typed TTY_COOKED [104; 120; 8; 105; 10]) (mkKbd [] false []))
    as (w' & E & _ & _ & F).
  - apply typed_wf.
  - done.
  - done.
  - repeat constructor; lia.
  - by left.
  - repeat (econstructor; [by vm_compute |]). constructor.
  - by vm_compute.
  - repeat constructor.
  - lia.
  - by vm_compute.
  - exists w'. split; [exact E | apply F; by vm_compute].
Defined.

Lemma tty_cancel_keeps_line_witness :
  exists w', tty_read 8 (mkWorld (quiet_tty TTY_COOKED) (mkKbd [114; 109] false [Cancel]) [])
             = Some (- Errno.EMBK_ECANCELED, [], w') /\ line (dev w') = [114; 109].
Proof.
  destruct (tty_cancel_keeps_line [] [114; 109] 8 (mkWorld (quiet_tty TTY_COOKED) (mkKbd [114; 109] false [Cancel]) [])
    (mkKbd [] false [Cancel]) (mkKbd [] true [])) as (w' & E & _ & _ & _ & L).
  - split; [by vm_compute | by vm_compute | done].
  - done.
  - done.
  - repeat constructor; lia.
  - repeat (econstructor; [by vm_compute |]). constructor.
  - done.
  - lia.
  - exists w'. split; [exact E | exact L].
Defined.
