(* ===== verification/Channel.v ===== *)
(** * Channels ([kernel/ipc/channel.c])

    Message channels that carry handles: a connected pair of ends, an inbox per
    end, and the references a handle in a message stands for while it is under
    way.

    The address of an end of the channel at [c] is [2 * c + side].  The queues
    and the tables are touched under the scheduler lock, so a step between
    taking and dropping it is atomic; where [channel_send] does something
    before it takes the lock, or sleeps, its argument [others] is what the
    other threads do at each such point.  Freed memory leaves the map: touching
    it is the outcome [Crash].  The wait queues that are woken are those of
    WaitQueue.v and are not repeated here. *)

From S2P Require Import Prelude Bytes Handle.

Definition CHAN_MSG_MAX_BYTES : Z := 4096.
Definition CHAN_MSG_MAX_HANDLES : Z := 8.
Definition CHAN_QUEUE_MAX : Z := 32.
Definition CHAN_HANDLE_COPY : Z := 0.
Definition CHAN_HANDLE_MOVE : Z := 1.

Record chan_handle_ref := mkRef { r_kind : handle_kind; r_obj : Z; is_move : bool }.
Record chan_msg := mkMsg { m_bytes : list Z; m_handles : list chan_handle_ref }.
Record channel_end := mkEnd { inbox : list chan_msg; inbox_count : Z }.
Record channel := mkChan { end0 : channel_end; end1 : channel_end; refcount : Z; closed0 : bool; closed1 : bool; cid : Z }.

Definition empty_end : channel_end := mkEnd [] 0.

(** [&chan->ends[side]], and back. *)
Definition end_addr (c side : Z) : Z := 2 * c + side.
Definition chan_of (a : Z) : Z := a / 2.
Definition side_of (a : Z) : Z := a mod 2.

Definition get_end (ch : channel) (side : Z) : channel_end := if side =? 0 then end0 ch else end1 ch.
Definition set_end (ch : channel) (side : Z) (e : channel_end) : channel :=
  if side =? 0 then mkChan e (end1 ch) (refcount ch) (closed0 ch) (closed1 ch) (cid ch)
  else mkChan (end0 ch) e (refcount ch) (closed0 ch) (closed1 ch) (cid ch).
Definition peer_closed (ch : channel) (side : Z) : bool := if side =? 0 then closed0 ch else closed1 ch.
Definition set_closed (ch : channel) (side : Z) : channel :=
  if side =? 0 then mkChan (end0 ch) (end1 ch) (refcount ch) true (closed1 ch) (cid ch)
  else mkChan (end0 ch) (end1 ch) (refcount ch) (closed0 ch) true (cid ch).
Definition set_refcount (ch : channel) (n : Z) : channel := mkChan (end0 ch) (end1 ch) n (closed0 ch) (closed1 ch) (cid ch).

(** The objects: channels, the reference counts of surfaces, the counters. *)
Record objs := mkObjs { chans : gmap Z channel; srefs : gmap Z Z; chan_live : Z; chan_next : Z }.

Definition set_chans (st : objs) (m : gmap Z channel) : objs := mkObjs m (srefs st) (chan_live st) (chan_next st).
Definition sref (st : objs) (o : Z) : Z := default 0 (srefs st !! o).
Definition set_sref (st : objs) (o n : Z) : objs := mkObjs (chans st) (<[o := n]> (srefs st)) (chan_live st) (chan_next st).
Definition set_live (st : objs) (n : Z) : objs := mkObjs (chans st) (srefs st) n (chan_next st).

Definition surface_ref_get (o : Z) (st : objs) : objs := set_sref st o (sref st o + 1).
Definition surface_ref_put (o : Z) (st : objs) : objs := set_sref st o (sref st o - 1).

Definition obj_ref_get (k : handle_kind) (o : Z) (st : objs) : objs :=
  match k with HANDLE_KIND_SURFACE => surface_ref_get o st | _ => st end.
Definition obj_ref_put (k : handle_kind) (o : Z) (st : objs) : objs :=
  match k with HANDLE_KIND_SURFACE => surface_ref_put o st | _ => st end.

Definition chan_msg_free_undelivered (st : objs) (m : chan_msg) : objs :=
  fold_left (fun st r => obj_ref_put (r_kind r) (r_obj r) st) (m_handles m) st.

(** ** Creation *)

Definition new_chan (refs id : Z) : channel := mkChan empty_end empty_end refs false false id.

(** [mem] is what the allocator returns for the channel, 0 for nothing. *)
Definition channel_create_raw (mem : Z) (st : objs) : option objs :=
  if mem =? 0 then None
  else
    let id := !32 (chan_next st + 1) in
    Some (mkObjs (<[mem := new_chan 0 id]> (chans st)) (srefs st) (chan_live st + 1) id).

Definition channel_ref_get (c : Z) (st : objs) : option objs :=
  match chans st !! c with
  | Some ch => Some (set_chans st (<[c := set_refcount ch (refcount ch + 1)]> (chans st)))
  | None => None
  end.

Definition free_chan (c : Z) (st : objs) : objs := set_live (set_chans st (delete c (chans st))) (chan_live st - 1).

(** [used = false; kind = NONE; obj = 0]: the mapping record stays. *)
Definition clear_slot (t : list obj_handle) (i : Z) : list obj_handle :=
  let h := hget t i in wr t i (mkHandle HANDLE_KIND_NONE 0 (map_base h) (map_bytes h) false).

Definition channel_create_pair (mem : Z) (t : list obj_handle) (st : objs) : (Z * Z + Z) * list obj_handle * objs :=
  if mem =? 0 then (inr (- Errno.EMBK_ENOMEM), t, st)
  else
    let id := !32 (chan_next st + 1) in
    let st := mkObjs (<[mem := new_chan 2 id]> (chans st)) (srefs st) (chan_live st + 1) id in
    let '(h0, t0) := obj_handle_alloc t HANDLE_KIND_CHANNEL (end_addr mem 0) in
    if h0 <? 0 then (inr h0, t, free_chan mem st)
    else
      let '(h1, t1) := obj_handle_alloc t0 HANDLE_KIND_CHANNEL (end_addr mem 1) in
      if h1 <? 0 then (inr h1, clear_slot t0 h0, free_chan mem st)
      else (inl (h0, h1), t1, st).

(** ** Sending *)

Inductive res (A : Type) : Type :=
| Ret (a : A)
| Sleeps
| Crash.
Arguments Ret {A} _.
Arguments Sleeps {A}.
Arguments Crash {A}.

(** The handles of the message, all checked before any is used. *)
Fixpoint build_handles (t : list obj_handle) (hnds : list (Z * Z)) : option (list chan_handle_ref) :=
  match hnds with
  | [] => Some []
  | (hi, fl) :: hnds =>
      if (hi <? 0) || (OBJ_HANDLE_MAX <=? hi) || negb (h_used (hget t hi)) then None
      else
        match build_handles t hnds with
        | Some l => Some (mkRef (h_kind (hget t hi)) (h_obj (hget t hi)) (fl =? CHAN_HANDLE_MOVE) :: l)
        | None => None
        end
  end.

(** [surface_unmap_from_handle] and the slot given up. *)
Definition move_out (t : list obj_handle) (hi : Z) (k : handle_kind) : list obj_handle :=
  let t := match k with
           | HANDLE_KIND_SURFACE => let h := hget t hi in wr t hi (mkHandle (h_kind h) (h_obj h) 0 0 (h_used h))
           | _ => t
           end in
  clear_slot t hi.

Fixpoint apply_handles (hnds : list (Z * Z)) (refs : list chan_handle_ref) (t : list obj_handle) (st : objs)
  : list obj_handle * objs :=
  match hnds, refs with
  | (hi, _) :: hnds, r :: refs =>
      if is_move r then apply_handles hnds refs (move_out t hi (r_kind r)) st
      else apply_handles hnds refs t (obj_ref_get (r_kind r) (r_obj r) st)
  | _, _ => (t, st)
  end.

Definition enqueue (e : channel_end) (m : chan_msg) : channel_end := mkEnd (inbox e ++ [m]) (inbox_count e + 1).

Definition world : Type := list obj_handle * objs.

(** The part under the lock; each sleep runs the next of [others].  When they
    are used up the caller is found cancelled, or sleeps on. *)
Fixpoint send_locked (others : list (world -> world)) (cancelled : bool) (c side : Z)
  (hnds : list (Z * Z)) (m : chan_msg) (w : world) : res (Z * world) :=
  let '(t, st) := w in
  match chans st !! c with
  | None => Crash
  | Some ch =>
      if peer_closed ch side then Ret (- Errno.EMBK_EPIPE, w)
      else if CHAN_QUEUE_MAX <=? inbox_count (get_end ch (1 - side)) then
        match others with
        | [] => if cancelled then Ret (- Errno.EMBK_ECANCELED, w) else Sleeps
        | o :: others => send_locked others cancelled c side hnds m (o w)
        end
      else
        let '(t, st) := apply_handles hnds (m_handles m) t st in
        Ret (0, (t, set_chans st (<[c := set_end ch (1 - side) (enqueue (get_end ch (1 - side)) m)]> (chans st))))
  end.

(** The checks made without the lock; [mem_ok]: the message could be allocated.
    On success the end's address and the message. *)
Definition send_check (mem_ok : bool) (t : list obj_handle) (handle : Z) (bytes : list Z) (hnds : list (Z * Z)) : Z + Z * chan_msg :=
  let e := obj_handle_resolve t handle HANDLE_KIND_CHANNEL in
  if e =? 0 then inl (- Errno.EMBK_EINVAL)
  else if CHAN_MSG_MAX_BYTES <? zlen bytes then inl (- Errno.EMBK_EMSGSIZE)
  else if CHAN_MSG_MAX_HANDLES <? Z.of_nat (length hnds) then inl (- Errno.EMBK_EINVAL)
  else if negb mem_ok then inl (- Errno.EMBK_ENOMEM)
  else
    match build_handles t hnds with
    | None => inl (- Errno.EMBK_EINVAL)
    | Some refs => inr (e, mkMsg bytes refs)
    end.

(** [first]: what the other threads do between the checks and the lock. *)
Definition channel_send (mem_ok : bool) (first : world -> world) (others : list (world -> world)) (cancelled : bool)
  (handle : Z) (bytes : list Z) (hnds : list (Z * Z)) (w : world) : res (Z * world) :=
  match send_check mem_ok (fst w) handle bytes hnds with
  | inl err => Ret (err, w)
  | inr (e, m) => send_locked others cancelled (chan_of e) (side_of e) hnds m (first w)
  end.

(** ** Receiving *)

(** The handles of a message into the receiver's table; one that does not fit
    is dropped. *)
Fixpoint install (refs : list chan_handle_ref) (t : list obj_handle) (st : objs) : list Z * list obj_handle * objs :=
  match refs with
  | [] => ([], t, st)
  | r :: refs =>
      let '(nh, t1) := obj_handle_alloc t (r_kind r) (r_obj r) in
      if nh <? 0 then install refs t (obj_ref_put (r_kind r) (r_obj r) st)
      else let '(l, t2, st2) := install refs t1 st in (nh :: l, t2, st2)
  end.

Record received := mkRecv { v_bytes : list Z; v_handles : list Z }.

(** The part under the lock: the oldest message is taken off the inbox of the end
    at [e], or an error. *)
Definition recv_take (cancelled : bool) (e buflen : Z) (st : objs) : res (Z + chan_msg * objs) :=
  let c := chan_of e in
  let side := side_of e in
  match chans st !! c with
  | None => Crash
  | Some ch =>
      match inbox (get_end ch side) with
      | m :: rest =>
          if buflen <? zlen (m_bytes m) then Ret (inl (- Errno.EMBK_EMSGSIZE))
          else
            let ch := set_end ch side (mkEnd rest (inbox_count (get_end ch side) - 1)) in
            Ret (inr (m, set_chans st (<[c := ch]> (chans st))))
      | [] =>
          if peer_closed ch side then Ret (inl (- Errno.EMBK_EPIPE))
          else if cancelled then Ret (inl (- Errno.EMBK_ECANCELED))
          else Sleeps
      end
  end.

(** [later]: what the other threads do between the lock and the delivery. *)
Definition channel_recv (cancelled : bool) (later : world -> world) (handle buflen : Z) (w : world) : res (Z * option received * world) :=
  let '(t, st) := w in
  let e := obj_handle_resolve t handle HANDLE_KIND_CHANNEL in
  if e =? 0 then Ret (- Errno.EMBK_EINVAL, None, w)
  else
    match recv_take cancelled e buflen st with
    | Ret (inl err) => Ret (err, None, w)
    | Ret (inr (m, st)) =>
        let '(t, st) := later (t, st) in
        let '(l, t, st) := install (m_handles m) t st in
        Ret (0, Some (mkRecv (m_bytes m) l), (t, st))
    | Sleeps => Sleeps
    | Crash => Crash
    end.

(** ** Closing *)

Definition channel_release_raw_end (a : Z) (st : objs) : option objs :=
  let c := chan_of a in
  let side := side_of a in
  match chans st !! c with
  | None => None
  | Some ch =>
      let drain := inbox (get_end ch side) in
      let ch := set_refcount (set_end (set_closed ch (1 - side)) side empty_end) (refcount ch - 1) in
      let st := set_chans st (<[c := ch]> (chans st)) in
      let st := fold_left chan_msg_free_undelivered drain st in
      Some (if refcount ch <=? 0 then free_chan c st else st)
  end.

(** What the handle table calls when a handle of one of these kinds is freed;
    [None] is a use of freed memory.  Endpoints and pipes keep their objects
    elsewhere. *)
#[export] Instance chan_kinds : KindOps (option objs) := {
  surface_release_for_handle h st := surface_ref_put (h_obj h) <$> st;
  channel_release_for_handle h st := if h_obj h =? 0 then st else st ≫= channel_release_raw_end (h_obj h);
  endpoint_release_for_handle h st := st;
  pipe_release_for_handle o st := st;
}.

Definition free_handle (t : list obj_handle) (i : Z) (st : objs) : option world :=
  let '(t, st) := obj_handle_free t i (Some st) in pair t <$> st.

Definition channel_close (handle : Z) (w : world) : res (Z * world) :=
  let '(t, st) := w in
  if (handle <? 0) || (OBJ_HANDLE_MAX <=? handle) then Ret (- Errno.EMBK_EINVAL, w)
  else
    let h := hget t handle in
    if negb (h_used h) || negb (bool_decide (h_kind h = HANDLE_KIND_CHANNEL)) then Ret (- Errno.EMBK_EINVAL, w)
    else match free_handle t handle st with Some w => Ret (0, w) | None => Crash end.

(** Process exit. *)
Definition release_all (t : list obj_handle) (st : objs) : option world :=
  let '(t, st) := obj_handles_release_all t (Some st) in pair t <$> st.

(** Moving an end to another process. *)
Definition channel_transfer_end_to (t : list obj_handle) (src_handle : Z) (dst : list obj_handle)
  : Z * list obj_handle * list obj_handle :=
  let e := obj_handle_resolve t src_handle HANDLE_KIND_CHANNEL in
  if e =? 0 then (- Errno.EMBK_EINVAL, t, dst)
  else
    let '(dh, dst') := obj_handle_alloc dst HANDLE_KIND_CHANNEL e in
    if dh <? 0 then (dh, t, dst) else (dh, clear_slot t src_handle, dst').

(** ** Counting *)

Definition zsum {A} (f : A -> Z) (l : list A) : Z := fold_right (fun x a => f x + a) 0 l.
Definition msum {A} (f : A -> Z) (m : gmap Z A) : Z := map_fold (fun _ x a => f x + a) 0 m.

Lemma zsum_app {A} (f : A -> Z) l k : zsum f (l ++ k) = zsum f l + zsum f k.
Proof. induction l; cbn; [done |]. fold (zsum f (l ++ k)). fold (zsum f l). lia. Qed.

Lemma zsum_nonneg_with {A} (f : A -> Z) l : (forall x, 0 <= f x) -> 0 <= zsum f l.
Proof. intros Hf. induction l as [| x l IH]; cbn; [done |]. fold (zsum f l). specialize (Hf x). lia. Qed.

Lemma zsum_insert {A} (f : A -> Z) l n x y : l !! n = Some x -> zsum f (<[n := y]> l) = zsum f l - f x + f y.
Proof.
  revert n. induction l as [| z l IH]; intros [| n] Hx; [done | done | |].
  - cbn in Hx. simplify_eq. cbn. lia.
  - change (<[S n := y]> (z :: l)) with (z :: <[n := y]> l). cbn [zsum fold_right]. fold (zsum f (<[n := y]> l)). fold (zsum f l).
    rewrite (IH n Hx). lia.
Qed.

Lemma zsum_elem {A} (f : A -> Z) l x : (forall x, 0 <= f x) -> x ∈ l -> f x <= zsum f l.
Proof.
  intros Hf. induction 1 as [x l | x y l _ IH]; cbn; fold (zsum f l).
  - pose proof (zsum_nonneg_with f l Hf). lia.
  - specialize (Hf y). lia.
Qed.

Lemma msum_insert_new {A} (f : A -> Z) m k x : m !! k = None -> msum f (<[k := x]> m) = f x + msum f m.
Proof. intros Hk. unfold msum. rewrite map_fold_insert_L; [done | | done]. intros. lia. Qed.

Lemma msum_delete {A} (f : A -> Z) m k x : m !! k = Some x -> msum f (delete k m) = msum f m - f x.
Proof.
  intros Hk. rewrite <- (insert_delete_id m k x Hk) at 2. rewrite msum_insert_new by apply lookup_delete_eq. lia.
Qed.

Lemma msum_insert {A} (f : A -> Z) m k x y : m !! k = Some x -> msum f (<[k := y]> m) = msum f m - f x + f y.
Proof.
  intros Hk. rewrite <- insert_delete_eq, msum_insert_new by apply lookup_delete_eq. rewrite (msum_delete f m k x Hk). lia.
Qed.

Lemma msum_nonneg {A} (f : A -> Z) m : (forall x, 0 <= f x) -> 0 <= msum f m.
Proof.
  intros Hf. induction m as [| k x m Hk IH] using map_ind; [done |]. rewrite msum_insert_new by done. specialize (Hf x). lia.
Qed.

Lemma msum_elem {A} (f : A -> Z) m k x : (forall x, 0 <= f x) -> m !! k = Some x -> f x <= msum f m.
Proof. intros Hf Hk. pose proof (msum_delete f m k x Hk). pose proof (msum_nonneg f (delete k m) Hf). lia. Qed.
