(* ===== verification/ChannelSafety.v ===== *)
(** * Channels: every reference is accounted for

    A surface has as many references as there are handles naming it and
    messages carrying it; a channel is freed exactly when its last handle goes,
    so no operation touches a freed one.  A message that moves one handle
    several times takes more references than it is given, and the excess is
    counted; messages list no channel ends, and no thread gives up a handle that
    another thread of its process is using.  The theorems at the end show what
    happens otherwise. *)

From S2P Require Import Prelude Bytes Handle Channel.

(** ** Who names what *)

Definition ind (k : handle_kind) (o : Z) (k' : handle_kind) (o' : Z) : Z :=
  if bool_decide (k = k') && (o =? o') then 1 else 0.

Definition names (k : handle_kind) (o : Z) (h : obj_handle) : Z := if h_used h then ind k o (h_kind h) (h_obj h) else 0.
Definition held (k : handle_kind) (o : Z) (t : list obj_handle) : Z := zsum (names k o) t.

Definition carried (o : Z) (rs : list chan_handle_ref) : Z := zsum (fun r => ind HANDLE_KIND_SURFACE o (r_kind r) (r_obj r)) rs.
Definition queued (o : Z) (l : list chan_msg) : Z := zsum (fun m => carried o (m_handles m)) l.
Definition under_way (o : Z) (ch : channel) : Z := queued o (inbox (end0 ch)) + queued o (inbox (end1 ch)).

Lemma ind_nonneg k o k' o' : 0 <= ind k o k' o' <= 1.
Proof. unfold ind. destruct (_ && _); lia. Qed.

Lemma names_nonneg k o h : 0 <= names k o h.
Proof. unfold names. destruct (h_used h); [apply ind_nonneg | done]. Qed.

Lemma held_nonneg k o t : 0 <= held k o t.
Proof. apply zsum_nonneg_with, names_nonneg. Qed.

Lemma carried_nonneg o rs : 0 <= carried o rs.
Proof. apply zsum_nonneg_with. intros r. apply ind_nonneg. Qed.

Lemma carried_cons o r rs : carried o (r :: rs) = ind HANDLE_KIND_SURFACE o (r_kind r) (r_obj r) + carried o rs.
Proof. done. Qed.

Lemma queued_nonneg o l : 0 <= queued o l.
Proof. apply zsum_nonneg_with. intros m. apply carried_nonneg. Qed.

Lemma under_way_nonneg o ch : 0 <= under_way o ch.
Proof. unfold under_way. pose proof (queued_nonneg o (inbox (end0 ch))). pose proof (queued_nonneg o (inbox (end1 ch))). lia. Qed.

Lemma held_wr k o t i h :
  0 <= i < Z.of_nat (length t) -> held k o (wr t i h) = held k o t - names k o (hget t i) + names k o h.
Proof.
  intros Hi. unfold held, wr, hget. destruct (lookup_lt_is_Some_2 t (Z.to_nat i) ltac:(lia)) as [x Hx]. rewrite Hx. cbn. by apply zsum_insert.
Qed.

Lemma held_slot k o t i : 0 <= i < Z.of_nat (length t) -> names k o (hget t i) <= held k o t.
Proof.
  intros Hi. unfold held, hget. destruct (lookup_lt_is_Some_2 t (Z.to_nat i) ltac:(lia)) as [x Hx]. rewrite Hx. cbn.
  apply zsum_elem; [intros; apply names_nonneg |]. by apply list_elem_of_lookup_2 in Hx.
Qed.

Lemma held_alloc t k o :
  let '(r, t') := obj_handle_alloc t k o in
  (r < 0 /\ t' = t) \/ (0 <= r < Z.of_nat (length t) /\ length t' = length t
                       /\ (forall k' o', held k' o' t' = held k' o' t + ind k' o' k o)
                       /\ hget t' r = mkHandle k o 0 0 true
                       /\ forall j, 0 <= j -> h_used (hget t j) = true -> hget t' j = hget t j).
Proof.
  unfold obj_handle_alloc. pose proof (alloc_from_spec t 0 k o) as Hs. destruct (alloc_from t 0 k o) as [r t'].
  destruct Hs as [(_ & -> & ->) | (n & -> & Hn & Hu & _ & ->)]; [by left | right].
  destruct (lookup_lt_is_Some_2 t n Hn) as [x Hx]. split; [lia |]. split; [by rewrite length_insert |]. unfold hget. split; [| split].
  - intros k' o'. unfold held. rewrite (zsum_insert _ _ _ _ _ Hx). rewrite Hx in Hu. cbn in Hu. unfold names at 2. rewrite Hu. unfold names at 2. cbn. lia.
  - rewrite Z.add_0_l, Nat2Z.id, list_lookup_insert_eq by done. done.
  - intros j Hj Hju. destruct (decide (Z.to_nat j = n)) as [<- | Hne]; [congruence | by rewrite list_lookup_insert_ne].
Qed.

Lemma held_clear t i k o :
  0 <= i < Z.of_nat (length t) -> held k o (clear_slot t i) = held k o t - names k o (hget t i) /\ length (clear_slot t i) = length t.
Proof. intros Hi. unfold clear_slot. rewrite held_wr, wr_length by done. unfold names at 2. cbn. split; [lia | done]. Qed.

Lemma hget_slot t i j h : 0 <= i < Z.of_nat (length t) -> 0 <= j -> hget (wr t i h) j = if j =? i then h else hget t j.
Proof. intros Hi Hj. by apply hget_wr. Qed.

Lemma held_move t hi k k' o :
  0 <= hi < Z.of_nat (length t) ->
  held k' o (move_out t hi k) = held k' o t - names k' o (hget t hi) /\ length (move_out t hi k) = length t
  /\ forall j, 0 <= j -> j <> hi -> hget (move_out t hi k) j = hget t j.
Proof.
  intros Hi. unfold move_out. set (t1 := match k with HANDLE_KIND_SURFACE => _ | _ => t end).
  assert (length t1 = length t /\ hget t1 hi = mkHandle (h_kind (hget t hi)) (h_obj (hget t hi)) (map_base (hget t1 hi)) (map_bytes (hget t1 hi)) (h_used (hget t hi))
    /\ (forall k' o, held k' o t1 = held k' o t) /\ forall j, 0 <= j -> j <> hi -> hget t1 j = hget t j) as (L1 & H1 & E1 & O1).
  { subst t1. destruct k; try (split_and!; [done | by destruct (hget t hi) | done | done]).
    rewrite wr_length, hget_slot by lia. rewrite Z.eqb_refl. split_and!; [done | done | |].
    - intros k2 o2. rewrite held_wr by done. unfold names at 2. cbn. unfold names. lia.
    - intros j Hj Hne. rewrite hget_slot by done. by destruct (Z.eqb_spec j hi). }
  destruct (held_clear t1 hi k' o ltac:(lia)) as [Ec Lc]. rewrite Ec, Lc, E1. split_and!; [| done |].
  - rewrite H1. unfold names. cbn. done.
  - intros j Hj Hne. unfold clear_slot. rewrite hget_slot by lia. destruct (Z.eqb_spec j hi); [done | by apply O1].
Qed.

(** ** The invariant *)

(** One table [t] among others: [Rs] and [Rc] count the handles of the other
    tables on surfaces and channel ends, [E] the surface references an operation
    in progress has in its hands. *)
Record inv (Rs Rc E : Z -> Z) (t : list obj_handle) (st : objs) : Prop := {
  iv_rest a : 0 <= Rc a;
  iv_len : Z.of_nat (length t) = OBJ_HANDLE_MAX;
  iv_surf o : sref st o = Rs o + held HANDLE_KIND_SURFACE o t + msum (under_way o) (chans st) + E o;
  iv_chan c ch : chans st !! c = Some ch -> 0 < c /\ 0 < refcount ch
    /\ refcount ch = (Rc (end_addr c 0) + held HANDLE_KIND_CHANNEL (end_addr c 0) t)
                     + (Rc (end_addr c 1) + held HANDLE_KIND_CHANNEL (end_addr c 1) t);
  iv_one a : Rc a + held HANDLE_KIND_CHANNEL a t <= 1;
  iv_named a : 0 < Rc a + held HANDLE_KIND_CHANNEL a t -> 0 < a /\ is_Some (chans st !! chan_of a);
  iv_shut c ch side : chans st !! c = Some ch -> side = 0 \/ side = 1 ->
    Rc (end_addr c side) + held HANDLE_KIND_CHANNEL (end_addr c side) t = 0 ->
    inbox (get_end ch side) = [] /\ peer_closed ch (1 - side) = true;
  iv_msgs c ch side m r : chans st !! c = Some ch -> side = 0 \/ side = 1 -> m ∈ inbox (get_end ch side) -> r ∈ m_handles m ->
    r_kind r <> HANDLE_KIND_CHANNEL;
  iv_count c ch side : chans st !! c = Some ch -> side = 0 \/ side = 1 ->
    inbox_count (get_end ch side) = Z.of_nat (length (inbox (get_end ch side))) /\ inbox_count (get_end ch side) <= CHAN_QUEUE_MAX;
}.

Lemma addr_parts a : a = end_addr (chan_of a) (side_of a) /\ (side_of a = 0 \/ side_of a = 1).
Proof. unfold end_addr, chan_of, side_of. pose proof (Z.div_mod a 2 ltac:(done)). pose proof (Z.mod_pos_bound a 2 ltac:(done)). lia. Qed.

Lemma addr_of c side : side = 0 \/ side = 1 -> chan_of (end_addr c side) = c /\ side_of (end_addr c side) = side.
Proof.
  intros Hs. unfold chan_of, side_of, end_addr. rewrite (Z.add_comm (2 * c)), (Z.mul_comm 2 c), Z_div_plus, Z_mod_plus by done.
  by destruct Hs as [-> | ->].
Qed.

(** Every surface under way is [E] or in a queue: what the operations on counts
    do. *)
Lemma sref_set st o n x : sref (set_sref st o n) x = if x =? o then n else sref st x.
Proof.
  unfold sref, set_sref. cbn. destruct (Z.eqb_spec x o) as [-> | Hne]; [by rewrite lookup_insert_eq | by rewrite lookup_insert_ne].
Qed.

Lemma get_sref st k o x : sref (obj_ref_get k o st) x = sref st x + ind HANDLE_KIND_SURFACE x k o.
Proof.
  unfold obj_ref_get, ind. destruct k; cbn [bool_decide decide andb]; try (rewrite bool_decide_eq_false_2 by done; cbn; lia).
  rewrite bool_decide_eq_true_2 by done. unfold surface_ref_get. rewrite sref_set. cbn. destruct (Z.eqb_spec x o) as [-> | _]; lia.
Qed.

Lemma put_sref st k o x : sref (obj_ref_put k o st) x = sref st x - ind HANDLE_KIND_SURFACE x k o.
Proof.
  unfold obj_ref_put, ind. destruct k; try (rewrite bool_decide_eq_false_2 by done; cbn; lia).
  rewrite bool_decide_eq_true_2 by done. unfold surface_ref_put. rewrite sref_set. cbn. destruct (Z.eqb_spec x o) as [-> | _]; lia.
Qed.

Lemma get_chans st k o : chans (obj_ref_get k o st) = chans st.
Proof. by destruct k. Qed.

Lemma put_chans st k o : chans (obj_ref_put k o st) = chans st.
Proof. by destruct k. Qed.

(** The same handles, however divided between this table and the others, and
    surface counts that follow. *)
Lemma inv_shift Rs Rc E Rs' Rc' E' t t' st st' :
  inv Rs Rc E t st -> chans st' = chans st -> length t' = length t -> (forall a, 0 <= Rc' a) ->
  (forall a, Rc' a + held HANDLE_KIND_CHANNEL a t' = Rc a + held HANDLE_KIND_CHANNEL a t) ->
  (forall o, sref st' o - Rs' o - held HANDLE_KIND_SURFACE o t' - E' o = sref st o - Rs o - held HANDLE_KIND_SURFACE o t - E o) ->
  inv Rs' Rc' E' t' st'.
Proof.
  intros [I1 I2 I3 I4 I5 I6 I7 I8 I9] Ec El R Eh Es. split; try done.
  - by rewrite El.
  - intros o. rewrite Ec. specialize (I3 o). specialize (Es o). lia.
  - intros c ch. rewrite Ec, !Eh. apply I4.
  - intros a. rewrite Eh. apply I5.
  - intros a. rewrite Eh, Ec. apply I6.
  - intros c ch side. rewrite Eh, Ec. apply I7.
  - intros c ch side m r. rewrite Ec. apply I8.
  - intros c ch side. rewrite Ec. apply I9.
Qed.

Lemma inv_surfaces Rs Rc E E' t t' st st' :
  inv Rs Rc E t st -> chans st' = chans st -> length t' = length t ->
  (forall a, held HANDLE_KIND_CHANNEL a t' = held HANDLE_KIND_CHANNEL a t) ->
  (forall o, sref st' o - held HANDLE_KIND_SURFACE o t' - E' o = sref st o - held HANDLE_KIND_SURFACE o t - E o) ->
  inv Rs Rc E' t' st'.
Proof.
  intros I Ec El Eh Es. apply (inv_shift Rs Rc E Rs Rc E' t t' st st' I Ec El); [apply I | |].
  - intros a. rewrite Eh. done.
  - intros o. specialize (Es o). lia.
Qed.

(** No channel end is listed. *)
Definition no_ends (rs : list chan_handle_ref) : Prop := Forall (fun r => r_kind r <> HANDLE_KIND_CHANNEL) rs.

Lemma ind_other a k o : k <> HANDLE_KIND_CHANNEL -> ind HANDLE_KIND_CHANNEL a k o = 0.
Proof. intros Hk. unfold ind. by rewrite bool_decide_eq_false_2. Qed.

(** Delivering the handles of a message. *)
Lemma install_inv Rs Rc E rs t st :
  inv Rs Rc (fun o => E o + carried o rs) t st -> no_ends rs ->
  let '(_, t', st') := install rs t st in inv Rs Rc E t' st'.
Proof.
  intros I Hs. revert t st I. induction Hs as [| r rs Hr Hs IH]; intros t st I; cbn [install].
  { eapply inv_surfaces; [exact I | done..|]. intros o. cbn. lia. }
  pose proof (held_alloc t (r_kind r) (r_obj r)) as Ha. destruct (obj_handle_alloc t (r_kind r) (r_obj r)) as [nh t1].
  destruct Ha as [[Hn ->] | (Hn & L & Hh & _)].
  - destruct (Z.ltb_spec nh 0); [| lia]. apply IH. eapply inv_surfaces; [exact I | apply put_chans | done | done |].
    intros o. rewrite put_sref, carried_cons. lia.
  - destruct (Z.ltb_spec nh 0); [lia |]. specialize (IH t1 st). destruct (install rs t1 st) as [[l t2] st2]. apply IH.
    eapply inv_surfaces; [exact I | done | done | |].
    + intros a. rewrite Hh, ind_other by done. lia.
    + intros o. rewrite Hh, carried_cons. lia.
Qed.

(** The messages of a closed inbox give their references back. *)
Lemma free_refs rs st :
  let st' := fold_left (fun st r => obj_ref_put (r_kind r) (r_obj r) st) rs st in
  chans st' = chans st /\ forall o, sref st' o = sref st o - carried o rs.
Proof.
  cbv zeta. revert st. induction rs as [| r rs IH]; intros st; cbn [fold_left].
  { split; [done |]. intros o. change (carried o []) with 0. lia. }
  destruct (IH (obj_ref_put (r_kind r) (r_obj r) st)) as [E1 E2]. rewrite E1, put_chans. split; [done |].
  intros o. rewrite E2, put_sref, carried_cons. lia.
Qed.

Lemma drain_refs l st :
  let st' := fold_left chan_msg_free_undelivered l st in
  chans st' = chans st /\ forall o, sref st' o = sref st o - queued o l.
Proof.
  cbv zeta. revert st. induction l as [| m l IH]; intros st; cbn [fold_left].
  { split; [done |]. intros o. change (queued o []) with 0. lia. }
  destruct (IH (chan_msg_free_undelivered st m)) as [E1 E2]. destruct (free_refs (m_handles m) st) as [F1 F2].
  split; [by rewrite E1, <- F1 |]. intros o. rewrite E2. unfold chan_msg_free_undelivered. rewrite F2. change (queued o (m :: l)) with (carried o (m_handles m) + queued o l). lia.
Qed.

(** ** Sending *)

Definition moves (hnds : list (Z * Z)) : list Z := map fst (filter (fun h => snd h = CHAN_HANDLE_MOVE) hnds).

Lemma build_cons t hi fl hnds refs :
  build_handles t ((hi, fl) :: hnds) = Some refs ->
  0 <= hi < OBJ_HANDLE_MAX /\ h_used (hget t hi) = true
  /\ exists rs, refs = mkRef (h_kind (hget t hi)) (h_obj (hget t hi)) (fl =? CHAN_HANDLE_MOVE) :: rs /\ build_handles t hnds = Some rs.
Proof.
  cbn [build_handles]. destruct ((hi <? 0) || (OBJ_HANDLE_MAX <=? hi) || negb (h_used (hget t hi))) eqn:E; [done |].
  apply orb_false_iff in E as [E Eu]. b2p.
  destruct (build_handles t hnds) as [rs |]; [| done]. intros [= <-]. split; [lia | split; [done | by exists rs]].
Qed.

Lemma build_range t hnds refs h : build_handles t hnds = Some refs -> h ∈ hnds -> 0 <= fst h < OBJ_HANDLE_MAX /\ h_used (hget t (fst h)) = true.
Proof.
  revert refs. induction hnds as [| [hi fl] hnds IH]; intros refs B Hh; [by apply elem_of_nil in Hh |].
  apply build_cons in B as (Hi & Hu & rs & _ & B). apply elem_of_cons in Hh as [-> | Hh]; [done | by eapply IH].
Qed.

Lemma moves_in h hnds : h ∈ moves hnds -> exists fl, (h, fl) ∈ hnds.
Proof. intros (h' & -> & Hh)%list_elem_of_fmap. apply list_elem_of_filter in Hh as [_ Hh]. exists (snd h'). by destruct h'. Qed.

Lemma names_used k o h : h_used h = true -> names k o h = ind k o (h_kind h) (h_obj h).
Proof. unfold names. by intros ->. Qed.

(** How many references to surface [o] a list moves out of a slot that the same
    list has already given up. *)
Fixpoint again (o : Z) (hnds : list (Z * Z)) (refs : list chan_handle_ref) (gone : list Z) : Z :=
  match hnds, refs with
  | (hi, _) :: hnds, r :: refs =>
      if is_move r
      then (if decide (hi ∈ gone) then ind HANDLE_KIND_SURFACE o (r_kind r) (r_obj r) else 0) + again o hnds refs (hi :: gone)
      else again o hnds refs gone
  | _, _ => 0
  end.

(** The slots of a list of handles while it is worked through: those given up
    are free, the others as they were when the list was checked. *)
Record working (t0 t : list obj_handle) (hnds : list (Z * Z)) (gone : list Z) : Prop := {
  wk_gone hi : hi ∈ gone -> 0 <= hi /\ h_used (hget t hi) = false;
  wk_kept hi : hi ∈ moves hnds -> hi ∉ gone -> hget t hi = hget t0 hi;
}.

Lemma working_move t0 t hi k fl hnds gone :
  working t0 t ((hi, fl) :: hnds) gone -> 0 <= hi < Z.of_nat (length t) -> (forall h, h ∈ moves hnds -> 0 <= h) ->
  working t0 (move_out t hi k) hnds (hi :: gone).
Proof.
  intros [G K] Hi Hpos. destruct (held_move t hi k HANDLE_KIND_NONE 0 Hi) as (_ & L & O). split.
  - intros j [-> | Hj]%elem_of_cons.
    + split; [lia |]. unfold move_out, clear_slot. rewrite hget_wr by (destruct k; rewrite ?wr_length; lia). by rewrite Z.eqb_refl.
    + destruct (G j Hj) as [H0 Hu]. split; [done |]. destruct (decide (j = hi)) as [-> | Hne]; [| by rewrite O].
      unfold move_out, clear_slot. rewrite hget_wr by (destruct k; rewrite ?wr_length; lia). by rewrite Z.eqb_refl.
  - intros j Hj [Hne Hg]%not_elem_of_cons. rewrite O by auto. apply K; [| done]. unfold moves in *. rewrite filter_cons. case_decide; [by right | done].
Qed.

(** Copies take a reference, moves take the handle's if it is still there. *)
Lemma apply_inv Rs Rc t0 hnds refs gone E t st :
  inv Rs Rc E t st -> build_handles t0 hnds = Some refs -> no_ends refs -> working t0 t hnds gone ->
  let '(t', st') := apply_handles hnds refs t st in
  inv Rs Rc (fun o => E o + carried o refs - again o hnds refs gone) t' st' /\ chans st' = chans st.
Proof.
  revert refs gone E t st. induction hnds as [| [hi fl] hnds IH]; intros refs gone E t st I B Hs W.
  { injection B as <-. cbn. split; [| done]. eapply inv_surfaces; [exact I | done..|]. intros o. cbn. lia. }
  apply build_cons in B as (Hi & Hu & rs & -> & B). apply Forall_cons in Hs as [Hk Hs]. cbn in Hk. pose proof (iv_len _ _ _ _ _ I) as L.
  assert (Hpos : forall h, h ∈ moves hnds -> 0 <= h) by (intros h [f Hh]%moves_in; apply (build_range _ _ _ _ B) in Hh; cbn in Hh; lia).
  set (k := h_kind (hget t0 hi)) in *. set (x := h_obj (hget t0 hi)).
  cbn [apply_handles again is_move r_kind r_obj]. destruct (Z.eqb_spec fl CHAN_HANDLE_MOVE) as [-> | Hf].
  - destruct (held_move t hi k HANDLE_KIND_NONE 0 ltac:(lia)) as (_ & Lm & _).
    set (d := fun o => if decide (hi ∈ gone) then ind HANDLE_KIND_SURFACE o k x else 0).
    assert (Hm : forall k' o, held k' o (move_out t hi k) = held k' o t - (if decide (hi ∈ gone) then 0 else ind k' o k x)).
    { intros k' o. destruct (held_move t hi k k' o ltac:(lia)) as (-> & _). f_equal. case_decide as Eg.
      - unfold names. by rewrite (proj2 (wk_gone _ _ _ _ W hi Eg)).
      - rewrite (wk_kept _ _ _ _ W hi); [by rewrite names_used | | done]. unfold moves. rewrite filter_cons_True by done. left. }
    specialize (IH rs (hi :: gone) (fun o => E o + ind HANDLE_KIND_SURFACE o k x - d o) (move_out t hi k) st).
    destruct (apply_handles hnds rs _ st) as [t' st'] eqn:Ea. destruct IH as [IH Ec]; [| done | done | by apply (working_move t0 t hi k CHAN_HANDLE_MOVE); [| lia |] |].
    + eapply inv_surfaces; [exact I | done | done | |].
      * intros a. rewrite Hm, ind_other by done. case_decide; lia.
      * intros o. rewrite Hm. unfold d. case_decide; lia.
    + split; [| done]. eapply inv_surfaces; [exact IH | done..|]. intros o. rewrite carried_cons. unfold d. cbn. lia.
  - specialize (IH rs gone (fun o => E o + ind HANDLE_KIND_SURFACE o k x) t (obj_ref_get k x st)).
    destruct (apply_handles hnds rs t _) as [t' st'] eqn:Ea. destruct IH as [IH Ec]; [| done | done | |].
    + eapply inv_surfaces; [exact I | apply get_chans | done | done |]. intros o. rewrite get_sref. lia.
    + destruct W as [G K]. split; [done |]. intros j Hj. apply K. unfold moves in *. rewrite filter_cons_False by done. done.
    + rewrite get_chans in Ec. split; [| done]. eapply inv_surfaces; [exact IH | done..|]. intros o. rewrite carried_cons. cbn. lia.
Qed.

Lemma get_set_end ch s s' e : s = 0 \/ s = 1 -> s' = 0 \/ s' = 1 -> get_end (set_end ch s e) s' = if s' =? s then e else get_end ch s'.
Proof. by intros [-> | ->] [-> | ->]. Qed.

Lemma set_end_rest ch s e : refcount (set_end ch s e) = refcount ch /\ forall s', peer_closed (set_end ch s e) s' = peer_closed ch s'.
Proof. unfold set_end. by destruct (s =? 0). Qed.

Lemma under_way_end o ch s : s = 0 \/ s = 1 -> under_way o ch = queued o (inbox (get_end ch s)) + queued o (inbox (get_end ch (1 - s))).
Proof. unfold under_way. intros [-> | ->]; [done | apply Z.add_comm]. Qed.

Lemma under_way_set o ch s e :
  s = 0 \/ s = 1 -> under_way o (set_end ch s e) = under_way o ch - queued o (inbox (get_end ch s)) + queued o (inbox e).
Proof. unfold under_way. intros [-> | ->]; cbn [set_end get_end Z.eqb end0 end1]; lia. Qed.

(** What an inbox may be replaced with. *)
Lemma set_end_inv Rs Rc E t st c ch side e :
  inv Rs Rc E t st -> chans st !! c = Some ch -> side = 0 \/ side = 1 ->
  inbox_count e = Z.of_nat (length (inbox e)) -> inbox_count e <= CHAN_QUEUE_MAX ->
  (forall m r, m ∈ inbox e -> r ∈ m_handles m -> r_kind r <> HANDLE_KIND_CHANNEL) ->
  (Rc (end_addr c side) + held HANDLE_KIND_CHANNEL (end_addr c side) t = 0 -> inbox e = []) ->
  inv Rs Rc (fun o => E o + queued o (inbox (get_end ch side)) - queued o (inbox e)) t
    (set_chans st (<[c := set_end ch side e]> (chans st))).
Proof.
  intros I Hc Hs Hn Hm Hk Hz. pose proof I as [I1 I2 I3 I4 I5 I6 I7 I8 I9]. destruct (set_end_rest ch side e) as [Er Ep].
  split; try done; cbn [chans set_chans].
  - intros o. rewrite (msum_insert _ _ _ _ _ Hc), under_way_set by done. change (sref (set_chans st _) o) with (sref st o). rewrite (I3 o). lia.
  - intros c' ch'. rewrite lookup_insert. case_decide as Ec; [intros [= <-]; subst c'; rewrite Er; by apply I4 | apply I4].
  - intros a Ha. destruct (I6 a Ha) as [? ?]. split; [done |]. rewrite lookup_insert. by case_decide.
  - intros c' ch' s'. rewrite lookup_insert. case_decide as Ec; [intros [= <-]; subst c' | apply I7]. intros Hs' Hz'.
    rewrite Ep, get_set_end by done. destruct (I7 c ch s' Hc Hs' Hz') as [J1 J2]. destruct (Z.eqb_spec s' side) as [-> | _]; [by split; [apply Hz |] | done].
  - intros c' ch' s' m r. rewrite lookup_insert. case_decide as Ec; [intros [= <-]; subst c' | apply I8]. intros Hs'.
    rewrite get_set_end by done. destruct (s' =? side); [apply Hk | by apply (I8 c ch s' m r Hc Hs')].
  - intros c' ch' s'. rewrite lookup_insert. case_decide as Ec; [intros [= <-]; subst c' | apply I9]. intros Hs'.
    rewrite get_set_end by done. destruct (s' =? side); [done | by apply (I9 c ch s' Hc Hs')].
Qed.

Lemma queued_app o l k : queued o (l ++ k) = queued o l + queued o k.
Proof. apply zsum_app. Qed.

(** The references a finished send moved twice. *)
Definition doubled (r : Z) (hnds : list (Z * Z)) (m : chan_msg) (o : Z) : Z := if r =? 0 then again o hnds (m_handles m) [] else 0.

(** The locked part of a send, by a caller that holds an end of [c] and whose
    listed handles are as they were when they were checked. *)
Lemma send_inv Rs Rc E cancelled c side hnds m t st :
  inv Rs Rc E t st -> 0 < held HANDLE_KIND_CHANNEL (end_addr c side) t -> side = 0 \/ side = 1 ->
  build_handles t hnds = Some (m_handles m) -> no_ends (m_handles m) ->
  match send_locked [] cancelled c side hnds m (t, st) with
  | Ret (r, (t', st')) => inv Rs Rc (fun o => E o - doubled r hnds m o) t' st'
  | Sleeps => True
  | Crash => False
  end.
Proof.
  intros I Hh Hside B Hs. cbn [send_locked]. pose proof (iv_rest _ _ _ _ _ I (end_addr c side)).
  destruct (iv_named _ _ _ _ _ I (end_addr c side) ltac:(lia)) as [_ [ch Hc]]. destruct (addr_of c side Hside) as [Ea _]. rewrite Ea in Hc. rewrite Hc.
  assert (Hsame : forall r, r <> 0 -> inv Rs Rc (fun o => E o - doubled r hnds m o) t st).
  { intros r Hr. eapply inv_surfaces; [exact I | done.. |]. intros o. unfold doubled. rewrite (proj2 (Z.eqb_neq _ _) Hr). lia. }
  destruct (peer_closed ch side) eqn:Ep; [by apply Hsame |]. destruct (iv_count _ _ _ _ _ I c ch (1 - side) Hc ltac:(lia)) as [Hn _].
  destruct (Z.leb_spec CHAN_QUEUE_MAX (inbox_count (get_end ch (1 - side)))); [destruct cancelled; [by apply Hsame | done] |].
  pose proof (apply_inv _ _ t hnds (m_handles m) [] _ t st I B Hs ltac:(split; [by intros hi ?%elem_of_nil | done])) as Ha.
  destruct (apply_handles hnds (m_handles m) t st) as [t' st']. destruct Ha as [I' Ec]. rewrite Ec in *. rewrite <- Ec in Hc |- *.
  eapply inv_surfaces; [eapply (set_end_inv _ _ _ _ _ c ch (1 - side) (enqueue (get_end ch (1 - side)) m) I' Hc) | done.. |].
  - lia.
  - cbn. rewrite length_app. cbn. lia.
  - cbn. unfold CHAN_QUEUE_MAX in *. lia.
  - cbn. intros m' r Hm Hr. apply elem_of_app in Hm as [Hm | Hm].
    + by eapply (iv_msgs _ _ _ _ _ I' c ch (1 - side)); [| lia | |].
    + apply list_elem_of_singleton in Hm as ->. unfold no_ends in Hs. rewrite Forall_forall in Hs. by apply Hs.
  - intros Hz. destruct (iv_shut _ _ _ _ _ I' c ch (1 - side) Hc ltac:(lia) Hz) as [_ Hp]. replace (1 - (1 - side)) with side in Hp by lia. congruence.
  - intros o. cbn [inbox enqueue]. rewrite queued_app. change (queued o [m]) with (carried o (m_handles m) + 0). unfold doubled. cbn [Z.eqb]. lia.
Qed.

Lemma resolve_held t i k : obj_handle_resolve t i k <> 0 -> Z.of_nat (length t) = OBJ_HANDLE_MAX ->
  0 <= i < OBJ_HANDLE_MAX /\ h_used (hget t i) = true /\ h_kind (hget t i) = k /\ 0 < held k (obj_handle_resolve t i k) t.
Proof.
  unfold obj_handle_resolve. intros H L. destruct ((i <? 0) || (OBJ_HANDLE_MAX <=? i)) eqn:Ei; [done |]. b2p.
  destruct (h_used (hget t i)) eqn:Eu; cbn [negb orb] in *; [| done]. destruct (bool_decide_reflect (h_kind (hget t i) = k)) as [Ek |]; cbn [negb] in *; [| done].
  split_and!; [lia | lia | done | done |]. pose proof (held_slot k (h_obj (hget t i)) t i ltac:(lia)) as Hh. rewrite names_used in Hh by done.
  unfold ind in Hh. rewrite Ek, bool_decide_eq_true_2, Z.eqb_refl in Hh by done. cbn in Hh. lia.
Qed.

(** ** Receiving *)

Lemma take_inv Rs Rc E cancelled a buflen t st :
  inv Rs Rc E t st -> 0 < held HANDLE_KIND_CHANNEL a t ->
  match recv_take cancelled a buflen st with
  | Ret (inl _) => True
  | Ret (inr (m, st')) => inv Rs Rc (fun o => E o + carried o (m_handles m)) t st' /\ no_ends (m_handles m)
  | Sleeps => True
  | Crash => False
  end.
Proof.
  intros I Hh. unfold recv_take. pose proof (iv_rest _ _ _ _ _ I a).
  destruct (iv_named _ _ _ _ _ I a ltac:(lia)) as [_ [ch Hc]]. rewrite Hc. destruct (addr_parts a) as [Ea Hs].
  destruct (inbox (get_end ch (side_of a))) as [| m rest] eqn:Ei; [destruct (peer_closed ch (side_of a)); [done | by destruct cancelled] |].
  destruct (buflen <? zlen (m_bytes m)); [done |].
  destruct (iv_count _ _ _ _ _ I _ _ (side_of a) Hc Hs) as [Hn Hm]. rewrite Ei in Hn. cbn in Hn.
  assert (forall m' r, m' ∈ m :: rest -> r ∈ m_handles m' -> r_kind r <> HANDLE_KIND_CHANNEL) as Hk.
  { rewrite <- Ei. intros m' r. by apply (iv_msgs _ _ _ _ _ I (chan_of a) ch (side_of a)). }
  split; [| apply Forall_forall; intros r; apply Hk; by left].
  pose proof (set_end_inv _ _ _ _ _ _ ch (side_of a) (mkEnd rest (inbox_count (get_end ch (side_of a)) - 1)) I Hc Hs) as I1. cbn [inbox inbox_count] in I1.
  eapply inv_surfaces; [apply I1 | done.. |]; [lia | lia | | | ].
  - intros m' r Hm'. apply Hk. by right.
  - rewrite <- Ea. lia.
  - intros o. rewrite Ei. change (queued o (m :: rest)) with (carried o (m_handles m) + queued o rest). lia.
Qed.

(** ** Closing *)

Lemma names_null k o : names k o null_handle = 0.
Proof. done. Qed.

Lemma names_kind k o h : h_kind h <> k -> names k o h = 0.
Proof. intros Hk. unfold names, ind. destruct (h_used h); [| done]. by rewrite bool_decide_eq_false_2 by congruence. Qed.

Lemma ind_refl k o : ind k o k o = 1.
Proof. unfold ind. by rewrite bool_decide_eq_true_2, Z.eqb_refl. Qed.

Lemma ind_ne k o o' : o <> o' -> ind k o k o' = 0.
Proof. intros H. unfold ind. rewrite bool_decide_eq_true_2 by done. by destruct (Z.eqb_spec o o'). Qed.

(** The channel after one end is released. *)
Definition shut (ch : channel) (side : Z) : channel := set_refcount (set_end (set_closed ch (1 - side)) side empty_end) (refcount ch - 1).

Lemma shut_fields ch side s :
  side = 0 \/ side = 1 -> s = 0 \/ s = 1 ->
  refcount (shut ch side) = refcount ch - 1
  /\ get_end (shut ch side) s = (if s =? side then empty_end else get_end ch s)
  /\ peer_closed (shut ch side) s = (if s =? side then peer_closed ch s else true)
  /\ forall o, under_way o (shut ch side) = queued o (inbox (get_end ch (1 - side))).
Proof.
  intros Hs Hs'. split; [done |]. split; [by destruct Hs as [-> | ->], Hs' as [-> | ->] |].
  split; [by destruct Hs as [-> | ->], Hs' as [-> | ->] |]. intros o. destruct Hs as [-> | ->].
  - change (0 + queued o (inbox (end1 ch)) = queued o (inbox (end1 ch))). lia.
  - change (queued o (inbox (end0 ch)) + 0 = queued o (inbox (end0 ch))). lia.
Qed.

Lemma release_sref a ch st :
  chans st !! chan_of a = Some ch ->
  exists st', channel_release_raw_end a st = Some st'
  /\ (forall o, sref st' o = sref st o - queued o (inbox (get_end ch (side_of a))))
  /\ chans st' = if refcount ch <=? 1 then delete (chan_of a) (chans st) else <[chan_of a := shut ch (side_of a)]> (chans st).
Proof.
  intros Hc. unfold channel_release_raw_end. rewrite Hc. fold (shut ch (side_of a)). eexists. split; [done |].
  destruct (drain_refs (inbox (get_end ch (side_of a))) (set_chans st (<[chan_of a := shut ch (side_of a)]> (chans st)))) as [Ec Es].
  assert (refcount (shut ch (side_of a)) = refcount ch - 1) as -> by (unfold shut, set_refcount; by cbn).
  replace (refcount ch - 1 <=? 0) with (refcount ch <=? 1) by (destruct (Z.leb_spec (refcount ch) 1), (Z.leb_spec (refcount ch - 1) 0); lia || done).
  destruct (refcount ch <=? 1).
  - split; [exact Es |]. cbn [free_chan set_live set_chans chans]. rewrite Ec. cbn. apply delete_insert_eq.
  - split; [exact Es | by rewrite Ec].
Qed.

Lemma end_addr_inj c s c' s' : s = 0 \/ s = 1 -> s' = 0 \/ s' = 1 -> end_addr c s = end_addr c' s' -> c = c' /\ s = s'.
Proof. unfold end_addr. lia. Qed.

(** A handle on a channel end is dropped: [t'] is the table without it, and
    [side] of [c] the end it named. *)
Section Release.
Context (Rs Rc E : Z -> Z) (t t' : list obj_handle) (st st' : objs) (c side : Z) (ch : channel).
Context (I : inv Rs Rc E t st) (Hs : side = 0 \/ side = 1) (Hc : chans st !! c = Some ch).
Context (Hh : 0 < held HANDLE_KIND_CHANNEL (end_addr c side) t) (Hl : length t' = length t).
Context (Ht : forall k o, held k o t' = held k o t - ind k o HANDLE_KIND_CHANNEL (end_addr c side)).
Context (Es : forall o, sref st' o = sref st o - queued o (inbox (get_end ch side))).
Local Abbreviation count a tab := (Rc a + held HANDLE_KIND_CHANNEL a tab).

Lemma rel_gone : count (end_addr c side) t' = 0.
Proof. pose proof (iv_rest _ _ _ _ _ I (end_addr c side)). pose proof (iv_one _ _ _ _ _ I (end_addr c side)). rewrite Ht, ind_refl. lia. Qed.

Lemma rel_other a : a <> end_addr c side -> count a t' = count a t.
Proof. intros Hne. rewrite Ht, ind_ne by done. lia. Qed.

Lemma rel_far c' s : c' <> c -> s = 0 \/ s = 1 -> count (end_addr c' s) t' = count (end_addr c' s) t.
Proof. intros Hne Hs'. apply rel_other. intros E'. apply end_addr_inj in E'; tauto. Qed.

Lemma rel_refs : refcount ch = 1 + count (end_addr c (1 - side)) t'.
Proof.
  destruct (iv_chan _ _ _ _ _ I c ch Hc) as (_ & _ & ->). rewrite (rel_other (end_addr c (1 - side))) by (unfold end_addr; lia).
  pose proof rel_gone as Hg. rewrite Ht, ind_refl in Hg. destruct Hs as [E' | E']; rewrite E' in *; [change (1 - 0) with 1 | change (1 - 1) with 0]; lia.
Qed.

Lemma rel_named a : 0 < count a t' -> a <> end_addr c side /\ 0 < count a t.
Proof. intros Ha. destruct (decide (a = end_addr c side)) as [-> | Hne]; [pose proof rel_gone; lia | by rewrite <- rel_other]. Qed.

Lemma rel_one a : count a t' <= 1.
Proof. destruct (decide (a = end_addr c side)) as [-> | Hne]; [by rewrite rel_gone | rewrite rel_other by done; apply I]. Qed.

Lemma rel_surf o : held HANDLE_KIND_SURFACE o t' = held HANDLE_KIND_SURFACE o t.
Proof. rewrite Ht. unfold ind. rewrite bool_decide_eq_false_2 by done. cbn. lia. Qed.

Lemma rel_freed : refcount ch <= 1 -> chans st' = delete c (chans st) -> inv Rs Rc E t' st'.
Proof.
  intros Hr Ec. pose proof I as [I1 I2 I3 I4 I5 I6 I7 I8 I9].
  assert (count (end_addr c (1 - side)) t' = 0) as Hz.
  { pose proof rel_refs. pose proof (I1 (end_addr c (1 - side))). pose proof (held_nonneg HANDLE_KIND_CHANNEL (end_addr c (1 - side)) t'). lia. }
  assert (forall c' ch', chans st' !! c' = Some ch' -> c' <> c /\ chans st !! c' = Some ch') as Hne.
  { intros c' ch'. rewrite Ec. intros [? ?]%lookup_delete_Some. done. }
  split; [done | by rewrite Hl | | | apply rel_one | | | |].
  - intros o. rewrite Es, Ec, (msum_delete _ _ _ _ Hc), rel_surf, (I3 o), (under_way_end o ch side Hs).
    destruct (I7 c ch (1 - side) Hc ltac:(lia)) as [-> _]; [by rewrite <- rel_other by (unfold end_addr; lia) |]. change (queued o []) with 0. lia.
  - intros c' ch' [Hn Hc']%Hne. rewrite !rel_far by tauto. by apply I4.
  - intros a [Hn Hp]%rel_named. destruct (I6 a Hp) as [? Ha]. split; [done |]. rewrite Ec, lookup_delete_ne; [done |]. intros E'.
    destruct (addr_parts a) as [Ea Hsa]. rewrite <- E' in Ea. assert (side_of a = 1 - side) as E2 by (destruct (decide (side_of a = side)); [congruence | lia]).
    rewrite E2 in Ea. rewrite <- Ea, rel_other in Hz by done. lia.
  - intros c' ch' s [Hn Hc']%Hne Hs' Hz'. apply (I7 c' ch'); [done | done | by rewrite <- rel_far].
  - intros c' ch' s m r [Hn Hc']%Hne. by apply (I8 c' ch').
  - intros c' ch' s [Hn Hc']%Hne. by apply (I9 c' ch').
Qed.

Lemma rel_kept : 1 < refcount ch -> chans st' = <[c := shut ch side]> (chans st) -> inv Rs Rc E t' st'.
Proof.
  intros Hr Ec. pose proof I as [I1 I2 I3 I4 I5 I6 I7 I8 I9]. pose proof rel_gone as Hg. pose proof rel_refs as Hrr.
  split; [done | by rewrite Hl | | | apply rel_one | | | |]; try rewrite Ec.
  - intros o. destruct (shut_fields ch side 0 Hs ltac:(by left)) as (_ & _ & _ & Eu).
    rewrite Es, (msum_insert _ _ _ _ _ Hc), rel_surf, (I3 o), Eu, (under_way_end o ch side Hs). lia.
  - intros c' ch' [[<- <-] | [Hne Hc']]%lookup_insert_Some; [| rewrite !rel_far by (congruence || tauto); by apply I4].
    destruct (shut_fields ch side 0 Hs ltac:(by left)) as (-> & _). split; [by apply (I4 c ch) | split; [lia |]].
    destruct Hs as [E' | E']; rewrite E' in *; [change (1 - 0) with 1 in * | change (1 - 1) with 0 in *]; lia.
  - intros a [Hn Hp]%rel_named. destruct (I6 a Hp) as [? Ha]. split; [done |]. rewrite lookup_insert. by case_decide.
  - intros c' ch' s [[<- <-] | [Hne Hc']]%lookup_insert_Some Hs'; [| rewrite rel_far by (congruence || tauto); by apply (I7 c' ch')].
    destruct (shut_fields ch side s Hs Hs') as (_ & -> & _). destruct (shut_fields ch side (1 - s) Hs ltac:(lia)) as (_ & _ & -> & _).
    intros Hz. destruct (Z.eqb_spec s side) as [-> | Hne]; [split; [done |]; by destruct (Z.eqb_spec (1 - side) side) as [? | _]; [lia |] |].
    rewrite rel_other in Hz by (unfold end_addr; lia). destruct (I7 c ch s Hc Hs' Hz) as [? ?]. split; [done |]. by destruct (1 - s =? side).
  - intros c' ch' s m r [[<- <-] | [Hne Hc']]%lookup_insert_Some Hs'; [| by apply (I8 c' ch')].
    destruct (shut_fields ch side s Hs Hs') as (_ & -> & _). destruct (s =? side); [by intros ?%elem_of_nil | by apply (I8 c ch)].
  - intros c' ch' s [[<- <-] | [Hne Hc']]%lookup_insert_Some Hs'; [| by apply (I9 c' ch')].
    destruct (shut_fields ch side s Hs Hs') as (_ & -> & _). destruct (s =? side); [done | by apply (I9 c ch)].
Qed.
End Release.

Lemma release_inv Rs Rc E t t' st a :
  inv Rs Rc E t st -> 0 < held HANDLE_KIND_CHANNEL a t -> length t' = length t ->
  (forall k o, held k o t' = held k o t - ind k o HANDLE_KIND_CHANNEL a) ->
  exists st', channel_release_raw_end a st = Some st' /\ inv Rs Rc E t' st'.
Proof.
  intros I Hh Hl Ht. pose proof (iv_rest _ _ _ _ _ I a). destruct (iv_named _ _ _ _ _ I a ltac:(lia)) as [_ [ch Hc]].
  destruct (release_sref a ch st Hc) as (st' & Er & Es & Ec). exists st'. split; [done |].
  destruct (addr_parts a) as [Ea Hs]. rewrite Ea in Hh, Ht. destruct (Z.leb_spec (refcount ch) 1).
  - by eapply rel_freed.
  - by eapply rel_kept.
Qed.

Lemma wr_null_held t i k o :
  0 <= i < Z.of_nat (length t) -> h_used (hget t i) = true ->
  held k o (wr t i null_handle) = held k o t - ind k o (h_kind (hget t i)) (h_obj (hget t i)).
Proof. intros Hi Hu. rewrite held_wr, names_null, names_used by done. lia. Qed.

Lemma ind_kind k o k' o' : k <> k' -> ind k o k' o' = 0.
Proof. intros H. unfold ind. by rewrite bool_decide_eq_false_2. Qed.

(** Freeing a used handle of any kind. *)
Lemma free_handle_inv Rs Rc E t i st :
  inv Rs Rc E t st -> 0 <= i < OBJ_HANDLE_MAX -> h_used (hget t i) = true ->
  exists st', obj_handle_free t i (Some st) = (wr t i null_handle, Some st') /\ inv Rs Rc E (wr t i null_handle) st'.
Proof.
  intros I Hi Hu. pose proof (iv_len _ _ _ _ _ I) as L. unfold obj_handle_free.
  assert ((i <? 0) || (OBJ_HANDLE_MAX <=? i) = false) as -> by (apply orb_false_iff; lia). rewrite Hu. cbn [negb].
  pose proof (wr_null_held t i) as Hh. unfold release_object. destruct (h_kind (hget t i)) eqn:Ek; cbn [chan_kinds surface_release_for_handle channel_release_for_handle endpoint_release_for_handle pipe_release_for_handle].
  3: { assert (forall k o, held k o (wr t i null_handle) = held k o t - ind k o HANDLE_KIND_CHANNEL (h_obj (hget t i))) as Hw by (intros; apply Hh; [lia | done]).
       pose proof (held_slot HANDLE_KIND_CHANNEL (h_obj (hget t i)) t i ltac:(lia)) as Hp. rewrite names_used, Ek, ind_refl in Hp by done.
       pose proof (iv_rest _ _ _ _ _ I (h_obj (hget t i))). destruct (iv_named _ _ _ _ _ I (h_obj (hget t i)) ltac:(lia)) as [Ha _].
       destruct (Z.eqb_spec (h_obj (hget t i)) 0); [lia |]. cbn [mbind option_bind].
       destruct (release_inv _ _ _ t (wr t i null_handle) st (h_obj (hget t i)) I ltac:(lia) (wr_length _ _ _) Hw) as (st' & -> & I'). by exists st'. }
  all: eexists; split; [done |]; eapply inv_surfaces; [exact I | done | apply wr_length | |].
  all: intros x; rewrite Hh by (lia || done); try (rewrite ind_kind by done; lia).
  unfold surface_ref_put. rewrite sref_set. destruct (Z.eqb_spec x (h_obj (hget t i))) as [-> | Hne]; [rewrite ind_refl | rewrite ind_ne by done]; lia.
Qed.

Lemma release_all_inv Rs Rc E t st :
  inv Rs Rc E t st -> exists t' st', release_all t st = Some (t', st') /\ inv Rs Rc E t' st'.
Proof.
  intros I. unfold release_all, obj_handles_release_all.
  assert (exists t' st', for_range (Z.to_nat OBJ_HANDLE_MAX) 0
    (fun i ts => if h_used (hget (fst ts) i) then obj_handle_free (fst ts) i (snd ts) else ts) (t, Some st) = (t', Some st') /\ inv Rs Rc E t' st') as (t' & st' & -> & I').
  { apply (for_range_ind (fun _ ts => exists t' st', ts = (t', Some st') /\ inv Rs Rc E t' st')); [by exists t, st |].
    intros i ts Hi (t1 & st1 & -> & I1). cbn [fst snd]. destruct (h_used (hget t1 i)) eqn:Eu; [| by exists t1, st1].
    destruct (free_handle_inv _ _ _ _ i _ I1 ltac:(lia) Eu) as (st2 & -> & I2). by eexists _, st2. }
  by exists t', st'.
Qed.

(** ** Creating *)

Lemma absent Rs Rc E t st c s :
  inv Rs Rc E t st -> chans st !! c = None -> s = 0 \/ s = 1 -> Rc (end_addr c s) + held HANDLE_KIND_CHANNEL (end_addr c s) t = 0.
Proof.
  intros I Hc Hs. pose proof (iv_rest _ _ _ _ _ I (end_addr c s)). pose proof (held_nonneg HANDLE_KIND_CHANNEL (end_addr c s) t).
  destruct (decide (0 < Rc (end_addr c s) + held HANDLE_KIND_CHANNEL (end_addr c s) t)) as [Hp |]; [| lia].
  apply (iv_named _ _ _ _ _ I) in Hp as [_ [ch Hp]]. destruct (addr_of c s Hs) as [E' _]. rewrite E' in Hp. congruence.
Qed.

Lemma fresh_inv Rs Rc E t t' st st' c id :
  inv Rs Rc E t st -> chans st !! c = None -> 0 < c -> length t' = length t ->
  (forall k o, held k o t' = held k o t + ind k o HANDLE_KIND_CHANNEL (end_addr c 0) + ind k o HANDLE_KIND_CHANNEL (end_addr c 1)) ->
  chans st' = <[c := new_chan 2 id]> (chans st) -> (forall o, sref st' o = sref st o) -> inv Rs Rc E t' st'.
Proof.
  intros I Hc Hp Hl Ht Ec Es. pose proof (absent _ _ _ _ _ c 0 I Hc ltac:(by left)) as Z0. pose proof (absent _ _ _ _ _ c 1 I Hc ltac:(by right)) as Z1.
  pose proof I as [I1 I2 I3 I4 I5 I6 I7 I8 I9]. assert (end_addr c 0 <> end_addr c 1) as Hd by (unfold end_addr; lia).
  assert (forall s, s = 0 \/ s = 1 -> Rc (end_addr c s) + held HANDLE_KIND_CHANNEL (end_addr c s) t' = 1) as H1.
  { intros s [-> | ->]; rewrite Ht, ind_refl, ind_ne by done; lia. }
  assert (forall a, a <> end_addr c 0 -> a <> end_addr c 1 -> held HANDLE_KIND_CHANNEL a t' = held HANDLE_KIND_CHANNEL a t) as Ho.
  { intros a H0 H2. rewrite Ht, !ind_ne by done. lia. }
  assert (forall c' s, c <> c' -> s = 0 \/ s = 1 -> held HANDLE_KIND_CHANNEL (end_addr c' s) t' = held HANDLE_KIND_CHANNEL (end_addr c' s) t) as Hf.
  { intros c' s Hne Hs. apply Ho; intros E'; apply end_addr_inj in E'; lia. }
  split; [done | by rewrite Hl | | | | | | |]; try rewrite Ec.
  - intros o. rewrite Es, (msum_insert_new _ _ _ _ Hc), Ht, !ind_kind, (I3 o) by done. change (under_way o (new_chan 2 id)) with 0. lia.
  - intros c' ch' [[<- <-] | [Hne Hc']]%lookup_insert_Some; [rewrite !H1 by tauto; cbn; lia | rewrite !Hf by tauto; by apply I4].
  - intros a. destruct (decide (a = end_addr c 0)) as [-> | N0]; [rewrite H1; [done | tauto] |].
    destruct (decide (a = end_addr c 1)) as [-> | N1]; [rewrite H1; [done | tauto] |]. rewrite Ho by done. apply I5.
  - intros a Ha. rewrite lookup_insert. destruct (decide (a = end_addr c 0)) as [-> | N0]; [| destruct (decide (a = end_addr c 1)) as [-> | N1]].
    + destruct (addr_of c 0 ltac:(by left)) as [-> _]. rewrite decide_True by done. split; [unfold end_addr; lia | done].
    + destruct (addr_of c 1 ltac:(by right)) as [-> _]. rewrite decide_True by done. split; [unfold end_addr; lia | done].
    + rewrite Ho in Ha by done. destruct (I6 a Ha). split; [done |]. by case_decide.
  - intros c' ch' s [[<- <-] | [Hne Hc']]%lookup_insert_Some Hs; [rewrite H1 by done; lia | rewrite Hf by done; by apply (I7 c' ch')].
  - intros c' ch' s m r [[<- <-] | [Hne Hc']]%lookup_insert_Some Hs; [| by apply (I8 c' ch')]. destruct Hs as [-> | ->]; by intros ?%elem_of_nil.
  - intros c' ch' s [[<- <-] | [Hne Hc']]%lookup_insert_Some Hs; [| by apply (I9 c' ch')]. by destruct Hs as [-> | ->].
Qed.

Lemma create_inv Rs Rc E mem t st :
  inv Rs Rc E t st -> mem = 0 \/ (0 < mem /\ chans st !! mem = None) ->
  let '(_, t', st') := channel_create_pair mem t st in inv Rs Rc E t' st'.
Proof.
  intros I Hm. unfold channel_create_pair. destruct (Z.eqb_spec mem 0) as [| Hne]; [done |]. destruct Hm as [| [Hp Hc]]; [done |].
  set (st1 := mkObjs _ _ _ _).
  assert (forall t', length t' = length t -> (forall k o, held k o t' = held k o t) -> inv Rs Rc E t' (free_chan mem st1)) as Hback.
  { intros t' L' H'. eapply inv_surfaces; [exact I | cbn; by apply delete_insert_id | done | done |]. intros o. rewrite H'. done. }
  pose proof (held_alloc t HANDLE_KIND_CHANNEL (end_addr mem 0)) as A0. destruct (obj_handle_alloc t _ _) as [h0 t0].
  destruct A0 as [[Hn ->] | (Hn & L0 & Hh0 & Hg & _)].
  { destruct (Z.ltb_spec h0 0); [| lia]. by apply Hback. }
  destruct (Z.ltb_spec h0 0); [lia |].
  pose proof (held_alloc t0 HANDLE_KIND_CHANNEL (end_addr mem 1)) as A1. destruct (obj_handle_alloc t0 _ _) as [h1 t1].
  destruct A1 as [[Hn1 ->] | (Hn1 & L1 & Hh1 & _)].
  - destruct (Z.ltb_spec h1 0); [| lia]. rewrite <- L0 in Hn. apply Hback.
    + destruct (held_clear t0 h0 HANDLE_KIND_NONE 0 Hn) as [_ ->]. done.
    + intros k o. destruct (held_clear t0 h0 k o Hn) as [-> _]. rewrite Hg, Hh0. unfold names. cbn. lia.
  - destruct (Z.ltb_spec h1 0); [lia |]. eapply (fresh_inv _ _ _ t t1 st st1 mem); [done | done | done | congruence | | done | done].
    intros k o. rewrite Hh1, Hh0. lia.
Qed.

(** ** Processes *)

(** What a thread can be in the middle of while others run: a send between the
    checks and the lock, or asleep (the end, the list of handles, the message);
    a receive before the lock, or asleep; a receive whose message is off the
    queue and not yet delivered. *)
Inductive task :=
| Sending (e : Z) (hnds : list (Z * Z)) (m : chan_msg)
| Receiving (e : Z)
| Delivering (m : chan_msg).

(** The handle tables of the processes, the objects, and what the threads are in
    the middle of, each with its process. *)
Record conf := mkConf { tabs : gmap Z (list obj_handle); ob : objs; busy : gmap Z (Z * task) }.

Definition no_handles : list obj_handle := replicate (Z.to_nat OBJ_HANDLE_MAX) null_handle.

(** What a process does in one go. *)
Inductive op :=
| Create (mem : Z)
| Close (handle : Z)
| Free (handle : Z)
| Exit
| NewSurface (o : Z).

Definition of_option {A} (x : option A) : res A := match x with Some a => Ret a | None => Crash end.

Definition run (o : op) (w : world) : res world :=
  match o with
  | Create mem => let '(_, t, st) := channel_create_pair mem (fst w) (snd w) in Ret (t, st)
  | Close handle => match channel_close handle w with Ret (_, w) => Ret w | Sleeps => Sleeps | Crash => Crash end
  | Free handle => of_option (free_handle (fst w) handle (snd w))
  | Exit => of_option (release_all (fst w) (snd w))
  | NewSurface o =>
      let '(h, t) := obj_handle_alloc (fst w) HANDLE_KIND_SURFACE o in
      Ret (if h <? 0 then w else (t, set_sref (snd w) o 1))
  end.

(** The allocator returns memory that is not in use. *)
Definition fresh (o : op) (st : objs) : Prop :=
  match o with
  | Create mem => mem = 0 \/ (0 < mem /\ chans st !! mem = None)
  | NewSurface o => sref st o = 0
  | _ => True
  end.

Definition put (c : conf) (p : Z) (w : world) : conf := mkConf (<[p := fst w]> (tabs c)) (snd w) (busy c).
Definition outcome (c : conf) (p : Z) (r : res world) : option conf :=
  match r with Ret w => Some (put c p w) | Sleeps => Some c | Crash => None end.
Definition set_busy (c : conf) (b : gmap Z (Z * task)) : conf := mkConf (tabs c) (ob c) b.

(** The table still has the handles a task goes on to use. *)
Definition relies (t : list obj_handle) (x : task) : Prop :=
  match x with
  | Sending e hnds m => build_handles t hnds = Some (m_handles m) /\ 0 < held HANDLE_KIND_CHANNEL e t
  | Receiving e => 0 < held HANDLE_KIND_CHANNEL e t
  | Delivering _ => True
  end.

(** No thread of [p] in the middle of something loses a handle it goes on to use
    when the table of [p] becomes [t]. *)
Definition undisturbed (b : gmap Z (Z * task)) (p : Z) (t : list obj_handle) : Prop :=
  forall k x, b !! k = Some (p, x) -> relies t x.

Definition calm (c : conf) (p : Z) (r : res world) : Prop :=
  match r with Ret w => undisturbed (busy c) p (fst w) | _ => True end.

Definition nothing : Z -> Z := fun _ => 0.

(** One step, with the surface references it moved twice.  [None] is a use of
    freed memory.  A process may have any number of threads; a message lists no
    channel ends, which the code does not support; and a thread does not close
    or give away a handle that another thread of its process is sending or
    receiving with. *)
Inductive step (c : conf) : (Z -> Z) -> option conf -> Prop :=
| step_start p : tabs c !! p = None -> step c nothing (Some (mkConf (<[p := no_handles]> (tabs c)) (ob c) (busy c)))
| step_run p t o :
    tabs c !! p = Some t -> fresh o (ob c) -> calm c p (run o (t, ob c)) -> step c nothing (outcome c p (run o (t, ob c)))
| step_send p t k mem_ok handle bytes hnds e m :
    tabs c !! p = Some t -> busy c !! k = None -> send_check mem_ok t handle bytes hnds = inr (e, m) -> no_ends (m_handles m) ->
    step c nothing (Some (set_busy c (<[k := (p, Sending e hnds m)]> (busy c))))
| step_sent p t k e hnds m cancelled r w :
    tabs c !! p = Some t -> busy c !! k = Some (p, Sending e hnds m) ->
    send_locked [] cancelled (chan_of e) (side_of e) hnds m (t, ob c) = Ret (r, w) -> undisturbed (delete k (busy c)) p (fst w) ->
    step c (doubled r hnds m) (Some (set_busy (put c p w) (delete k (busy c))))
| step_send_fault p t k e hnds m cancelled :
    tabs c !! p = Some t -> busy c !! k = Some (p, Sending e hnds m) ->
    send_locked [] cancelled (chan_of e) (side_of e) hnds m (t, ob c) = Crash -> step c nothing None
| step_recv p t k handle :
    tabs c !! p = Some t -> busy c !! k = None -> obj_handle_resolve t handle HANDLE_KIND_CHANNEL <> 0 ->
    step c nothing (Some (set_busy c (<[k := (p, Receiving (obj_handle_resolve t handle HANDLE_KIND_CHANNEL))]> (busy c))))
| step_take p k e cancelled buflen m st' :
    busy c !! k = Some (p, Receiving e) -> recv_take cancelled e buflen (ob c) = Ret (inr (m, st')) ->
    step c nothing (Some (mkConf (tabs c) st' (<[k := (p, Delivering m)]> (busy c))))
| step_take_error p k e cancelled buflen err :
    busy c !! k = Some (p, Receiving e) -> recv_take cancelled e buflen (ob c) = Ret (inl err) ->
    step c nothing (Some (set_busy c (delete k (busy c))))
| step_take_fault p k e cancelled buflen :
    busy c !! k = Some (p, Receiving e) -> recv_take cancelled e buflen (ob c) = Crash -> step c nothing None
| step_deliver p t k m l t' st' :
    tabs c !! p = Some t -> busy c !! k = Some (p, Delivering m) -> install (m_handles m) t (ob c) = (l, t', st') ->
    step c nothing (Some (set_busy (put c p (t', st')) (delete k (busy c))))
| step_transfer p t q u handle r t' u' :
    tabs c !! p = Some t -> tabs c !! q = Some u -> p <> q -> channel_transfer_end_to t handle u = (r, t', u') -> undisturbed (busy c) p t' ->
    step c nothing (Some (mkConf (<[q := u']> (<[p := t']> (tabs c))) (ob c) (busy c))).

Definition boot : conf := mkConf ∅ (mkObjs ∅ ∅ 0 0) ∅.

(** A state, and how many references to each surface were moved twice before. *)
Inductive reachable : (Z -> Z) -> option conf -> Prop :=
| reach_boot : reachable nothing (Some boot)
| reach_step x c y c' : reachable x (Some c) -> step c y c' -> reachable (fun o => x o + y o) c'.

Definition total (k : handle_kind) (tb : gmap Z (list obj_handle)) (o : Z) : Z := msum (held k o) tb.

Lemma total_nonneg k tb o : 0 <= total k tb o.
Proof. apply msum_nonneg. intros t. apply held_nonneg. Qed.

Lemma total_delete k tb p t o : tb !! p = Some t -> total k (delete p tb) o = total k tb o - held k o t.
Proof. apply msum_delete. Qed.

Lemma total_insert k tb p t t' o : tb !! p = Some t -> total k (<[p := t']> tb) o = total k tb o - held k o t + held k o t'.
Proof. apply msum_insert. Qed.

Definition lists_no_ends (x : task) : Prop :=
  match x with Sending _ _ m | Delivering m => no_ends (m_handles m) | Receiving _ => True end.

Definition pending_ok (tb : gmap Z (list obj_handle)) (px : Z * task) : Prop :=
  lists_no_ends (snd px) /\ exists t, tb !! fst px = Some t /\ relies t (snd px).

(** The references in the hands of the receivers. *)
Definition task_holds (o : Z) (px : Z * task) : Z := match snd px with Delivering m => carried o (m_handles m) | _ => 0 end.
Definition in_hand (b : gmap Z (Z * task)) (o : Z) : Z := msum (task_holds o) b.

Record good (x : Z -> Z) (c : conf) : Prop := {
  gd_len p t : tabs c !! p = Some t -> Z.of_nat (length t) = OBJ_HANDLE_MAX;
  gd_inv : inv (total HANDLE_KIND_SURFACE (tabs c)) (total HANDLE_KIND_CHANNEL (tabs c)) (fun o => in_hand (busy c) o - x o) no_handles (ob c);
  gd_busy k px : busy c !! k = Some px -> pending_ok (tabs c) px;
}.

Lemma held_none k o : held k o no_handles = 0.
Proof. done. Qed.

Lemma inv_ext Rs Rc E E' t st : inv Rs Rc E t st -> (forall o, E' o = E o) -> inv Rs Rc E' t st.
Proof. intros I H. eapply inv_surfaces; [exact I | done.. |]. intros o. rewrite H. done. Qed.

(** The invariant seen from one process, and back. *)
Lemma good_focus x c p t :
  good x c -> tabs c !! p = Some t ->
  inv (total HANDLE_KIND_SURFACE (delete p (tabs c))) (total HANDLE_KIND_CHANNEL (delete p (tabs c))) (fun o => in_hand (busy c) o - x o) t (ob c).
Proof.
  intros G Hp. pose proof (gd_len _ _ G p t Hp) as L. pose proof (gd_inv _ _ G) as I. pose proof (iv_len _ _ _ _ _ I) as L0.
  eapply inv_shift; [exact I | done | lia | intros; apply total_nonneg | |]; intros o; rewrite (total_delete _ _ _ _ _ Hp), held_none; lia.
Qed.

Lemma good_unfocus c p t t' E st' :
  tabs c !! p = Some t ->
  inv (total HANDLE_KIND_SURFACE (delete p (tabs c))) (total HANDLE_KIND_CHANNEL (delete p (tabs c))) E t' st' ->
  inv (total HANDLE_KIND_SURFACE (<[p := t']> (tabs c))) (total HANDLE_KIND_CHANNEL (<[p := t']> (tabs c))) E no_handles st'.
Proof.
  intros Hp I. pose proof (iv_len _ _ _ _ _ I) as L.
  eapply inv_shift; [exact I | done | unfold no_handles; rewrite length_replicate; lia | intros; apply total_nonneg | |];
    intros o; rewrite (total_delete _ _ _ _ _ Hp), (total_insert _ _ _ _ _ _ Hp), held_none; lia.
Qed.

(** Tasks after the table of [p] has changed. *)
Lemma pending_after tb p t' px :
  is_Some (tb !! p) -> pending_ok tb px -> (fst px = p -> relies t' (snd px)) -> pending_ok (<[p := t']> tb) px.
Proof.
  intros Hp (Hn & t & Ht & Hu) Hnew. split; [done |]. destruct (decide (fst px = p)) as [E | Hne].
  - exists t'. rewrite E, lookup_insert_eq. auto.
  - exists t. by rewrite lookup_insert_ne by done.
Qed.

Lemma good_put x y c p t t' st' b :
  good x c -> tabs c !! p = Some t ->
  inv (total HANDLE_KIND_SURFACE (delete p (tabs c))) (total HANDLE_KIND_CHANNEL (delete p (tabs c))) (fun o => in_hand b o - y o) t' st' ->
  (forall k px, b !! k = Some px -> busy c !! k = Some px) -> undisturbed b p t' ->
  good y (mkConf (<[p := t']> (tabs c)) st' b).
Proof.
  intros G Hp I Hb Hu. split; cbn [tabs ob busy].
  - intros q u. rewrite lookup_insert. case_decide; [intros [= <-]; apply I | by apply (gd_len x c G)].
  - by eapply good_unfocus.
  - intros k [q z] Hk. apply pending_after; [eauto | by apply (gd_busy x c G k), Hb |]. cbn. intros ->. by apply (Hu k).
Qed.

Lemma good_ext x y c : good x c -> (forall o, y o = x o) -> good y c.
Proof. intros [G1 G2 G3] H. split; [done | | done]. eapply inv_ext; [exact G2 |]. intros o. by rewrite H. Qed.

Lemma run_inv Rs Rc E o t st :
  inv Rs Rc E t st -> fresh o st ->
  match run o (t, st) with
  | Ret (t', st') => inv Rs Rc E t' st'
  | Sleeps => True
  | Crash => False
  end.
Proof.
  intros I F. destruct o as [mem | handle | handle | | o]; cbn [run fst snd].
  - pose proof (create_inv _ _ _ mem _ _ I F) as H. by destruct (channel_create_pair mem t st) as [[r t'] st'].
  - unfold channel_close. destruct ((handle <? 0) || (OBJ_HANDLE_MAX <=? handle)) eqn:Er; [done |]. b2p.
    destruct (h_used (hget t handle)) eqn:Eu; [| done]. destruct (bool_decide (h_kind (hget t handle) = HANDLE_KIND_CHANNEL)); [| done].
    cbn [negb orb]. unfold free_handle. by destruct (free_handle_inv _ _ _ _ handle _ I ltac:(lia) Eu) as (st' & -> & I').
  - unfold free_handle. destruct (decide (0 <= handle < OBJ_HANDLE_MAX)) as [Hr |].
    + destruct (h_used (hget t handle)) eqn:Eu; [by destruct (free_handle_inv _ _ _ _ handle _ I Hr Eu) as (st' & -> & I') |].
      unfold obj_handle_free. rewrite Eu. by destruct ((handle <? 0) || _).
    + unfold obj_handle_free. assert ((handle <? 0) || (OBJ_HANDLE_MAX <=? handle) = true) as -> by (apply orb_true_iff; lia). done.
  - by destruct (release_all_inv _ _ _ _ _ I) as (t' & st' & -> & I').
  - pose proof (held_alloc t HANDLE_KIND_SURFACE o) as A. destruct (obj_handle_alloc t HANDLE_KIND_SURFACE o) as [h t'].
    destruct (Z.ltb_spec h 0); [done |]. destruct A as [[? _] | (_ & L & Hh & _)]; [lia |].
    eapply inv_surfaces; [exact I | done | done | |].
    + intros a. rewrite Hh, ind_other by done. lia.
    + intros x. cbn in F. rewrite sref_set, Hh. destruct (Z.eqb_spec x o) as [-> | Hne]; [rewrite ind_refl | rewrite ind_ne by done]; lia.
Qed.

(** A send in progress is not disturbed by handles added to its table. *)
Lemma build_stable t t' hnds :
  (forall j, 0 <= j -> h_used (hget t j) = true -> hget t' j = hget t j) ->
  forall refs, build_handles t hnds = Some refs -> build_handles t' hnds = Some refs.
Proof.
  intros Heq. induction hnds as [| [hi fl] hnds IH]; intros refs B; [done |].
  apply build_cons in B as (Hi & Hu & rs & -> & B). cbn [build_handles]. rewrite Heq by (lia || done). rewrite Hu, (IH rs B).
  assert ((hi <? 0) || (OBJ_HANDLE_MAX <=? hi) = false) as -> by (apply orb_false_iff; lia). done.
Qed.

Lemma transfer_cases t handle u :
  Z.of_nat (length t) = OBJ_HANDLE_MAX ->
  let '(r, t', u') := channel_transfer_end_to t handle u in
  (t' = t /\ u' = u) \/ exists a, length t' = length t /\ length u' = length u
    /\ (forall k o, held k o t' = held k o t - ind k o HANDLE_KIND_CHANNEL a) /\ (forall k o, held k o u' = held k o u + ind k o HANDLE_KIND_CHANNEL a)
    /\ forall j, 0 <= j -> h_used (hget u j) = true -> hget u' j = hget u j.
Proof.
  intros L. unfold channel_transfer_end_to. set (a := obj_handle_resolve t handle HANDLE_KIND_CHANNEL). destruct (Z.eqb_spec a 0) as [| Ha]; [by left |].
  destruct (resolve_held t handle HANDLE_KIND_CHANNEL Ha L) as (Hr & Hu & Hk & _).
  pose proof (held_alloc u HANDLE_KIND_CHANNEL a) as A. destruct (obj_handle_alloc u HANDLE_KIND_CHANNEL a) as [dh u'].
  destruct (Z.ltb_spec dh 0); [by left |]. destruct A as [[? _] | (_ & Lu & Hh & _ & Hst)]; [lia |]. right. exists a.
  destruct (held_clear t handle HANDLE_KIND_NONE 0 ltac:(lia)) as [_ Lt]. split_and!; [done | done | | done | done].
  intros k o. destruct (held_clear t handle k o ltac:(lia)) as [-> _]. rewrite names_used by done. rewrite Hk.
  assert (h_obj (hget t handle) = a) as ->; [| done]. unfold a, obj_handle_resolve in *.
  destruct ((handle <? 0) || _); [done |]. rewrite Hu in *. by destruct (bool_decide (h_kind (hget t handle) = HANDLE_KIND_CHANNEL)).
Qed.

(** Handles are only added. *)
Lemma relies_more t t' x :
  (forall j, 0 <= j -> h_used (hget t j) = true -> hget t' j = hget t j) -> (forall a, held HANDLE_KIND_CHANNEL a t <= held HANDLE_KIND_CHANNEL a t') ->
  relies t x -> relies t' x.
Proof.
  intros Hk Hh. destruct x as [e hnds m | e | m]; cbn; [| | done].
  - intros [B He]. split; [by eapply build_stable | specialize (Hh e); lia].
  - intros He. specialize (Hh e). lia.
Qed.

Lemma transfer_good x c p t q u handle r t' u' :
  good x c -> tabs c !! p = Some t -> tabs c !! q = Some u -> p <> q -> channel_transfer_end_to t handle u = (r, t', u') -> undisturbed (busy c) p t' ->
  good x (mkConf (<[q := u']> (<[p := t']> (tabs c))) (ob c) (busy c)).
Proof.
  intros G Hp Hq Hne Et Hund. pose proof (transfer_cases t handle u (gd_len _ _ G _ _ Hp)) as T. rewrite Et in T.
  destruct T as [[-> ->] | (a & Lt & Lu & Ht & Hu & Hst)].
  { rewrite (insert_id (tabs c) p t), insert_id by done. destruct c. done. }
  assert (forall k o, total k (<[q := u']> (<[p := t']> (tabs c))) o = total k (tabs c) o) as Hk.
  { intros k o. rewrite (total_insert _ _ _ u) by (by rewrite lookup_insert_ne). rewrite (total_insert _ _ _ t) by done. rewrite Ht, Hu. lia. }
  split; cbn [tabs ob busy].
  - intros z v. rewrite !lookup_insert. case_decide; [intros [= <-]; rewrite Lu; by apply (gd_len x c G q) |].
    case_decide; [intros [= <-]; rewrite Lt; by apply (gd_len x c G p) | apply (gd_len x c G)].
  - eapply inv_shift; [apply (gd_inv x c G) | done | done | intros; apply total_nonneg | |]; intros o; rewrite !Hk; lia.
  - intros k [z y] Hx. pose proof (gd_busy _ _ G k _ Hx) as Hy. apply pending_after; [by rewrite lookup_insert_ne by done | |].
    + apply pending_after; [eauto | done |]. cbn. intros ->. by apply (Hund k).
    + cbn. intros ->. destruct Hy as (_ & v & Hv & Huse). cbn in Hv, Huse. assert (v = u) as -> by congruence.
      apply (relies_more u); [done | | done]. intros b. rewrite Hu. pose proof (ind_nonneg HANDLE_KIND_CHANNEL b HANDLE_KIND_CHANNEL a). lia.
Qed.

Lemma send_check_ok mem_ok t handle bytes hnds e m :
  send_check mem_ok t handle bytes hnds = inr (e, m) ->
  e = obj_handle_resolve t handle HANDLE_KIND_CHANNEL /\ e <> 0 /\ m_bytes m = bytes /\ build_handles t hnds = Some (m_handles m)
  /\ zlen bytes <= CHAN_MSG_MAX_BYTES /\ Z.of_nat (length hnds) <= CHAN_MSG_MAX_HANDLES.
Proof.
  unfold send_check. destruct (Z.eqb_spec (obj_handle_resolve t handle HANDLE_KIND_CHANNEL) 0); [done |].
  destruct (Z.ltb_spec CHAN_MSG_MAX_BYTES (zlen bytes)); [done |]. destruct (Z.ltb_spec CHAN_MSG_MAX_HANDLES (Z.of_nat (length hnds))); [done |].
  destruct mem_ok; [| done]. cbn [negb]. destruct (build_handles t hnds); [| done]. intros [= <- <-]. done.
Qed.

Lemma sent_good x c p t k e hnds m cancelled :
  good x c -> tabs c !! p = Some t -> busy c !! k = Some (p, Sending e hnds m) ->
  match send_locked [] cancelled (chan_of e) (side_of e) hnds m (t, ob c) with
  | Ret (r, w) => undisturbed (delete k (busy c)) p (fst w) -> good (fun o => x o + doubled r hnds m o) (set_busy (put c p w) (delete k (busy c)))
  | Sleeps => True
  | Crash => False
  end.
Proof.
  intros G Hp Hb. destruct (gd_busy _ _ G _ _ Hb) as (Hs & t0 & Ht0 & B & He). cbn in Ht0, Hs. assert (t0 = t) as -> by congruence.
  destruct (addr_parts e) as [Ea Hside]. rewrite Ea in He.
  pose proof (send_inv _ _ _ cancelled _ _ hnds m t (ob c) (good_focus _ _ _ _ G Hp) He Hside B Hs) as I.
  destruct (send_locked [] cancelled (chan_of e) (side_of e) hnds m (t, ob c)) as [[r [t' st']] | |]; [| done | done]. cbn [fst]. intros Hu.
  eapply good_put; [done | done | eapply inv_ext; [exact I |] | | done].
  - intros o. unfold in_hand. rewrite (msum_delete _ _ _ _ Hb). cbn. lia.
  - intros q z [? ?]%lookup_delete_Some. done.
Qed.

Lemma take_good x c p k e cancelled buflen :
  good x c -> busy c !! k = Some (p, Receiving e) ->
  match recv_take cancelled e buflen (ob c) with
  | Ret (inr (m, st')) => good x (mkConf (tabs c) st' (<[k := (p, Delivering m)]> (busy c)))
  | Ret (inl _) | Sleeps => True
  | Crash => False
  end.
Proof.
  intros G Hb. destruct (gd_busy _ _ G _ _ Hb) as (_ & t & Hp & Hh). cbn in Hp, Hh.
  pose proof (take_inv _ _ _ cancelled _ buflen _ _ (good_focus _ _ _ _ G Hp) Hh) as I.
  destruct (recv_take _ _ _ _) as [[err | [m st']] | |]; try done. destruct I as [I Hs].
  apply (good_unfocus _ _ _ _ _ _ Hp) in I. rewrite (insert_id (tabs c) p t Hp) in I. split; cbn [tabs ob busy].
  - apply (gd_len x c G).
  - eapply inv_ext; [exact I |]. intros o. unfold in_hand. rewrite (msum_insert _ _ _ _ _ Hb). cbn. lia.
  - intros q z. rewrite lookup_insert. case_decide; [intros [= <-]; split; [done | by exists t] | apply (gd_busy x c G)].
Qed.

Lemma install_more rs t st : no_ends rs ->
  let '(_, t', _) := install rs t st in
  (forall j, 0 <= j -> h_used (hget t j) = true -> hget t' j = hget t j) /\ forall a, held HANDLE_KIND_CHANNEL a t' = held HANDLE_KIND_CHANNEL a t.
Proof.
  intros Hs. revert t st. induction Hs as [| r rs Hr Hs IH]; intros t st; cbn [install]; [done |].
  pose proof (held_alloc t (r_kind r) (r_obj r)) as Ha. destruct (obj_handle_alloc t (r_kind r) (r_obj r)) as [nh t1].
  destruct Ha as [[Hn ->] | (Hn & L & Hh & _ & Hk)]; [destruct (Z.ltb_spec nh 0); [apply IH | lia] |].
  destruct (Z.ltb_spec nh 0); [lia |]. specialize (IH t1 st). destruct (install rs t1 st) as [[l t2] st2]. destruct IH as [H1 H2]. split.
  - intros j Hj Hu. rewrite <- (Hk j Hj Hu). apply H1; [done | by rewrite Hk].
  - intros a. rewrite H2, Hh, ind_other by done. lia.
Qed.

Lemma deliver_good x c p t k m l t' st' :
  good x c -> tabs c !! p = Some t -> busy c !! k = Some (p, Delivering m) -> install (m_handles m) t (ob c) = (l, t', st') ->
  good x (set_busy (put c p (t', st')) (delete k (busy c))).
Proof.
  intros G Hp Hb Ei. destruct (gd_busy _ _ G _ _ Hb) as [Hs _]. cbn in Hs.
  pose proof (install_inv _ _ (fun o => in_hand (delete k (busy c)) o - x o) (m_handles m) t (ob c)
    (inv_ext _ _ _ (fun o => in_hand (delete k (busy c)) o - x o + carried o (m_handles m)) _ _ (good_focus _ _ _ _ G Hp)
      ltac:(intros o; unfold in_hand; rewrite (msum_delete _ _ _ _ Hb); cbn; lia)) Hs) as I.
  pose proof (install_more (m_handles m) t (ob c) Hs) as M. rewrite Ei in I, M. destruct M as [M1 M2].
  eapply good_put; [done | done | exact I | |].
  - intros q z [? ?]%lookup_delete_Some. done.
  - intros q z [_ Hq]%lookup_delete_Some. destruct (gd_busy _ _ G _ _ Hq) as (_ & t0 & Ht0 & Hu). cbn in Ht0, Hu. assert (t0 = t) as -> by congruence.
    apply (relies_more t); [done | intros a; rewrite M2; lia | done].
Qed.

(** A thread begins something. *)
Lemma begin_good x c p t k y :
  good x c -> tabs c !! p = Some t -> busy c !! k = None -> lists_no_ends y -> relies t y -> (forall o, task_holds o (p, y) = 0) ->
  good x (set_busy c (<[k := (p, y)]> (busy c))).
Proof.
  intros G Hp Hb Hn Hu Hz. split; cbn [tabs ob busy set_busy]; [apply (gd_len x c G) | |].
  - eapply inv_ext; [apply (gd_inv x c G) |]. intros o. unfold in_hand. rewrite (msum_insert_new _ _ _ _ Hb), Hz. lia.
  - intros q z. rewrite lookup_insert. case_decide; [| by apply (gd_busy x c G)]. intros [= <-]. split; [done | by exists t].
Qed.

Lemma step_good x c y c' : good x c -> step c y c' -> exists d, c' = Some d /\ good (fun o => x o + y o) d.
Proof.
  assert (H0 : forall d, good x d -> good (fun o => x o + nothing o) d) by (intros d G; apply (good_ext x); [done | intros o; unfold nothing; lia]).
  intros G S. destruct S as [p Hp | p t o Hp F Hu | p t k mem_ok handle bytes hnds e m Hp Hb Hck Hs | p t k e hnds m cancelled r w Hp Hb E Hu
                            | p t k e hnds m cancelled Hp Hb E | p t k handle Hp Hb Ha | p k e cancelled buflen m st' Hb E
                            | p k e cancelled buflen err Hb E | p k e cancelled buflen Hb E
                            | p t k m l t' st' Hp Hb E | p t q u handle r t' u' Hp Hq Hne E Hu].
  - eexists. split; [done |]. apply H0. split; cbn [tabs ob busy].
    + intros q t. rewrite lookup_insert. case_decide; [by intros [= <-] | apply (gd_len x c G)].
    + eapply inv_shift; [apply (gd_inv x c G) | done | done | intros; apply total_nonneg | |];
        intros o; unfold total; rewrite msum_insert_new, held_none by done; lia.
    + intros q px Hq. destruct (gd_busy _ _ G q _ Hq) as (Hn & t & Ht & Hu). split; [done |]. exists t. rewrite lookup_insert_ne by congruence. done.
  - pose proof (run_inv _ _ _ o t (ob c) (good_focus _ _ _ _ G Hp) F) as I. destruct (run o (t, ob c)) as [[t' st'] | |]; [| exists c; split; [done | by apply H0] | done].
    eexists. split; [done |]. apply H0. by eapply good_put.
  - eexists. split; [done |]. apply H0. destruct (send_check_ok _ _ _ _ _ _ _ Hck) as (He & Hn & _ & B & _).
    apply (begin_good x c p t); try done. split; [done |]. rewrite He in Hn |- *. by apply (resolve_held t handle HANDLE_KIND_CHANNEL Hn (gd_len x c G _ _ Hp)).
  - pose proof (sent_good x c p t k e hnds m cancelled G Hp Hb) as I. rewrite E in I. eexists. split; [done | by apply I].
  - pose proof (sent_good x c p t k e hnds m cancelled G Hp Hb) as I. by rewrite E in I.
  - eexists. split; [done |]. apply H0. apply (begin_good x c p t); try done. by apply (resolve_held t handle HANDLE_KIND_CHANNEL Ha (gd_len x c G _ _ Hp)).
  - pose proof (take_good x c p k e cancelled buflen G Hb) as I. rewrite E in I. eexists. split; [done | by apply H0].
  - eexists. split; [done |]. apply H0. split; cbn [tabs ob busy set_busy]; [apply (gd_len x c G) | |].
    + eapply inv_ext; [apply (gd_inv x c G) |]. intros o. unfold in_hand. rewrite (msum_delete _ _ _ _ Hb). cbn. lia.
    + intros q z [_ Hq]%lookup_delete_Some. by apply (gd_busy x c G q).
  - pose proof (take_good x c p k e cancelled buflen G Hb) as I. by rewrite E in I.
  - eexists. split; [done |]. apply H0. by eapply deliver_good.
  - eexists. split; [done |]. apply H0. by eapply (transfer_good x c p t q u).
Qed.

Lemma boot_good : good nothing boot.
Proof.
  split; cbn [tabs ob busy boot]; [done | | done]. split; done.
Qed.

Lemma reachable_good x c : reachable x c -> exists d, c = Some d /\ good x d.
Proof.
  induction 1 as [| x c y c' R (d & [= <-] & G) S]; [exists boot; split; [done | apply boot_good] |]. by eapply step_good.
Qed.

(** C19. References are counted exactly.  However processes with any number of
    threads create channels, send and receive messages, close, exit, and move
    ends to each other, with the others running between the checks of a send and
    its queueing, before and while a receive sleeps, and between taking a message
    and delivering it: no operation touches a freed channel; the references of
    every surface, plus those that messages listing one handle several times
    moved more than once, are exactly the handles that name it and the messages,
    queued or being delivered, that carry it, so none leaks and none is dropped
    early; a channel is there exactly as long as a handle names one of its ends;
    each end has at most one handle; and no inbox exceeds its bound.  Two things
    are assumed of the callers: a message lists no channel ends, which the code
    says it does not support but does not refuse, and a thread does not give up a
    handle that another thread of its process is sending or receiving with. *)
Theorem channel_refs_exact x y :
  reachable x y ->
  exists c, y = Some c
  /\ (forall o, sref (ob c) o + x o = total HANDLE_KIND_SURFACE (tabs c) o + msum (under_way o) (chans (ob c)) + in_hand (busy c) o)
  /\ (forall k ch, chans (ob c) !! k = Some ch ->
        refcount ch = total HANDLE_KIND_CHANNEL (tabs c) (end_addr k 0) + total HANDLE_KIND_CHANNEL (tabs c) (end_addr k 1) /\ 0 < refcount ch)
  /\ (forall a, total HANDLE_KIND_CHANNEL (tabs c) a <= 1 /\ (0 < total HANDLE_KIND_CHANNEL (tabs c) a -> is_Some (chans (ob c) !! chan_of a)))
  /\ (forall k ch side, chans (ob c) !! k = Some ch -> side = 0 \/ side = 1 -> Z.of_nat (length (inbox (get_end ch side))) <= CHAN_QUEUE_MAX).
Proof.
  intros (c & -> & G)%reachable_good. exists c. split; [done |]. pose proof (gd_inv _ _ G) as [I1 I2 I3 I4 I5 I6 I7 I8 I9]. split_and!.
  - intros o. specialize (I3 o). rewrite held_none in I3. lia.
  - intros k ch Hk. destruct (I4 k ch Hk) as (_ & Hr & E). rewrite !held_none in E. lia.
  - intros a. specialize (I5 a). specialize (I6 a). rewrite held_none in I5, I6. split; [lia |]. intros Ha. apply I6. lia.
  - intros k ch side Hk Hs. destruct (I9 k ch side Hk Hs) as [<- ?]. done.
Qed.

(** Two processes, a channel between them, a surface under way. *)
Module Demo.
Definition got (x : option conf) : conf := default boot x.
Definition tab (c : conf) (p : Z) : list obj_handle := default [] (tabs c !! p).
Definition started : conf := mkConf (<[2 := no_handles]> (<[1 := no_handles]> ∅)) (ob boot) ∅.
Definition made : conf := got (outcome started 1 (run (Create 5) (tab started 1, ob started))).
Definition given : conf :=
  let '(_, t, u) := channel_transfer_end_to (tab made 1) 1 (tab made 2) in mkConf (<[2 := u]> (<[1 := t]> (tabs made))) (ob made) (busy made).
Definition drawn : conf := got (outcome given 1 (run (NewSurface 9) (tab given 1, ob given))).
Definition the_msg : task := Sending 10 [(1, CHAN_HANDLE_MOVE)] (mkMsg [7] [mkRef HANDLE_KIND_SURFACE 9 true]).
Definition sending : conf := set_busy drawn (<[7 := (1, the_msg)]> (busy drawn)).
Definition sent : conf :=
  match send_locked [] false 5 0 [(1, CHAN_HANDLE_MOVE)] (mkMsg [7] [mkRef HANDLE_KIND_SURFACE 9 true]) (tab sending 1, ob sending) with
  | Ret (_, w) => set_busy (put sending 1 w) (delete 7 (busy sending))
  | _ => boot
  end.

Lemma calm_idle c p r : busy c = ∅ -> calm c p r.
Proof. intros E. destruct r as [w | |]; cbn; [| done | done]. intros k x. by rewrite E, lookup_empty. Qed.

(** What the steps of the example moved twice: nothing. *)
Definition moved_twice : Z -> Z := fun o => nothing o + nothing o + nothing o + nothing o + nothing o + nothing o + doubled 0 [(1, CHAN_HANDLE_MOVE)] (mkMsg [7] [mkRef HANDLE_KIND_SURFACE 9 true]) o.

Lemma sent_reachable : reachable moved_twice (Some sent).
Proof.
  refine (reach_step (fun o => nothing o + nothing o + nothing o + nothing o + nothing o + nothing o) sending _ _ _
    (step_sent sending 1 (tab sending 1) 7 10 _ _ false 0 _ _ _ _ _)); cycle 1; [vm_compute; reflexivity .. | |].
  { intros k x Hk. by vm_compute in Hk. }
  refine (reach_step (fun o => nothing o + nothing o + nothing o + nothing o + nothing o) drawn _ _ _
    (step_send drawn 1 (tab drawn 1) 7 true 0 [7] [(1, CHAN_HANDLE_MOVE)] 10 _ _ _ _ _)); cycle 1; [vm_compute; reflexivity .. | by repeat constructor |].
  refine (reach_step (fun o => nothing o + nothing o + nothing o + nothing o) given _ _ _ (step_run given 1 (tab given 1) (NewSurface 9) _ _ _)); cycle 1;
    [vm_compute; reflexivity .. | by apply calm_idle |].
  refine (reach_step (fun o => nothing o + nothing o + nothing o) made _ _ _ (step_transfer made 1 (tab made 1) 2 (tab made 2) 1 0 _ _ _ _ _ _ _)); cycle 1;
    [vm_compute; reflexivity .. | done | vm_compute; reflexivity | intros k x Hk; by vm_compute in Hk |].
  refine (reach_step (fun o => nothing o + nothing o) started _ _ _ (step_run started 1 (tab started 1) (Create 5) _ _ _)); cycle 1;
    [vm_compute; reflexivity | by right | by apply calm_idle |].
  refine (reach_step nothing (mkConf (<[1 := no_handles]> ∅) (ob boot) ∅) _ _ _ _); [| by refine (step_start _ 2 _)].
  refine (reach_step nothing boot _ _ _ _); [constructor | by refine (step_start _ 1 _)].
Qed.
End Demo.

Lemma channel_refs_exact_witness :
  sref (ob Demo.sent) 9 = 1 /\ Demo.moved_twice 9 = 0 /\ exists c, Some Demo.sent = Some c
  /\ (forall o, sref (ob c) o + Demo.moved_twice o = total HANDLE_KIND_SURFACE (tabs c) o + msum (under_way o) (chans (ob c)) + in_hand (busy c) o).
Proof.
  split; [vm_compute; reflexivity |]. split; [vm_compute; reflexivity |].
  destruct (channel_refs_exact Demo.moved_twice (Some Demo.sent) Demo.sent_reachable) as (c & E & H & _).
  exists c. split; [exact E | exact H].
Defined.

(** ** Delivery *)

Definition free_slots (t : list obj_handle) : nat := length (filter (fun h => h_used h = false) t).

Lemma alloc_free t k o :
  (0 < free_slots t)%nat ->
  let '(r, t') := obj_handle_alloc t k o in
  0 <= r < Z.of_nat (length t) /\ length t' = length t /\ hget t' r = mkHandle k o 0 0 true /\ h_used (hget t r) = false
  /\ (forall j, 0 <= j -> j <> r -> hget t' j = hget t j) /\ free_slots t = S (free_slots t').
Proof.
  intros Hf. unfold obj_handle_alloc. pose proof (alloc_from_spec t 0 k o) as Hs. destruct (alloc_from t 0 k o) as [r t'].
  destruct Hs as [(Ha & _ & _) | (n & -> & Hn & Hu & _ & ->)].
  { exfalso. unfold free_slots in Hf. destruct (filter _ t) as [| h l] eqn:E; [cbn in Hf; lia |].
    assert (h ∈ filter (fun h => h_used h = false) t) as [Hu Hh]%list_elem_of_filter by (rewrite E; left).
    rewrite Forall_forall in Ha. specialize (Ha h Hh). congruence. }
  destruct (lookup_lt_is_Some_2 t n Hn) as [x Hx]. rewrite Z.add_0_l. split; [lia |]. split; [by rewrite length_insert |]. unfold hget. rewrite Nat2Z.id.
  rewrite list_lookup_insert_eq by done. split; [done |]. split; [done |]. split.
  - intros j Hj Hne. by rewrite list_lookup_insert_ne by lia.
  - rewrite Hx in Hu. cbn in Hu. unfold free_slots. rewrite insert_take_drop by done. rewrite <- (take_drop_middle t n x Hx) at 1.
    rewrite !filter_app, !filter_cons, !length_app. rewrite decide_True, decide_False by done. cbn. lia.
Qed.

Definition used_kept (t t' : list obj_handle) : Prop := forall j, 0 <= j -> h_used (hget t j) = true -> hget t' j = hget t j.

(** The handles of a message in a table: one each, of the kind and on the object
    of the reference. *)
Definition installed (t : list obj_handle) (l : list Z) (refs : list chan_handle_ref) : Prop :=
  Forall2 (fun h r => 0 <= h /\ hget t h = mkHandle (r_kind r) (r_obj r) 0 0 true) l refs.

Lemma installed_later t t' l refs : used_kept t t' -> installed t l refs -> installed t' l refs.
Proof. intros Hs Hi. eapply Forall2_impl; [exact Hi |]. intros h r [H0 Hh]. split; [done |]. rewrite <- Hh. apply Hs; [done | by rewrite Hh]. Qed.

Lemma installed_used t l refs h : installed t l refs -> h ∈ l -> h_used (hget t h) = true.
Proof. intros Hi [i Hl]%list_elem_of_lookup. destruct (Forall2_lookup_l _ _ _ _ _ Hi Hl) as (r & _ & _ & ->). done. Qed.

Definition vacant (t : list obj_handle) (h : Z) : Prop := 0 <= h /\ h_used (hget t h) = false.

Lemma vacant_before t t' h : used_kept t t' -> vacant t' h -> vacant t h.
Proof. intros Hs [H0 Hv]. split; [done |]. destruct (h_used (hget t h)) eqn:E; [| done]. rewrite (Hs h H0 E) in Hv. congruence. Qed.

Lemma used_kept_trans t1 t2 t3 : used_kept t1 t2 -> used_kept t2 t3 -> used_kept t1 t3.
Proof. intros H1 H2 j Hj Hu. rewrite <- (H1 j Hj Hu). apply H2; [done |]. by rewrite (H1 j Hj Hu). Qed.

(** With room for all of them, every handle of a message is installed. *)
Lemma install_all refs t st :
  (length refs <= free_slots t)%nat ->
  exists l t', install refs t st = (l, t', st) /\ used_kept t t' /\ installed t' l refs /\ Forall (vacant t) l /\ NoDup l
  /\ free_slots t = (length refs + free_slots t')%nat.
Proof.
  revert t. induction refs as [| r refs IH]; intros t Hf; cbn [install]; [by exists [], t; repeat constructor |].
  cbn in Hf. pose proof (alloc_free t (r_kind r) (r_obj r) ltac:(lia)) as A. destruct (obj_handle_alloc t (r_kind r) (r_obj r)) as [nh t1].
  destruct A as (Hr & L & Hg & Hu & Ho & Hn). destruct (Z.ltb_spec nh 0); [lia |].
  assert (Hs1 : used_kept t t1) by (intros j Hj Hju; assert (j <> nh) by congruence; by apply Ho).
  destruct (IH t1 ltac:(lia)) as (l & t' & -> & Hs & Hl & Hl' & Nd & Hc). exists (nh :: l), t'.
  assert (Hnh : hget t' nh = mkHandle (r_kind r) (r_obj r) 0 0 true) by (rewrite <- Hg; apply Hs; [lia | by rewrite Hg]).
  split_and!; [done | by apply (used_kept_trans t t1) | | | | cbn; lia].
  - by constructor; [split; [lia |] |].
  - constructor; [by split; [lia |] |]. eapply Forall_impl; [exact Hl' |]. intros h. by apply vacant_before.
  - constructor; [| done]. intros Hin. rewrite Forall_forall in Hl'. destruct (Hl' nh Hin) as [_ Hv]. by rewrite Hg in Hv.
Qed.

(** A moved handle is gone from the sender. *)
Lemma apply_moved hnds refs t0 t st hi :
  build_handles t0 hnds = Some refs -> Z.of_nat (length t) = OBJ_HANDLE_MAX ->
  let '(t', st') := apply_handles hnds refs t st in
  length t' = length t /\ chans st' = chans st
  /\ (0 <= hi -> h_used (hget t hi) = false \/ hi ∈ moves hnds -> h_used (hget t' hi) = false)
  /\ (0 <= hi -> hi ∉ moves hnds -> hget t' hi = hget t hi).
Proof.
  revert refs t st. induction hnds as [| [h fl] hnds IH]; intros refs t st B L.
  { injection B as <-. cbn. split_and!; try done. intros _ [? | ?%elem_of_nil]; done. }
  apply build_cons in B as (Hi & Hu & rs & -> & B). cbn [apply_handles is_move r_kind r_obj]. unfold moves. rewrite filter_cons. cbn [snd].
  destruct (Z.eqb_spec fl CHAN_HANDLE_MOVE) as [-> | Hf].
  - rewrite decide_True by done. destruct (held_move t h (h_kind (hget t0 h)) HANDLE_KIND_NONE 0 ltac:(lia)) as (_ & Lm & Om).
    assert (h_used (hget (move_out t h (h_kind (hget t0 h))) h) = false) as Hgone.
    { unfold move_out, clear_slot. rewrite hget_wr by (destruct (h_kind (hget t0 h)); rewrite ?wr_length; lia). by rewrite Z.eqb_refl. }
    specialize (IH rs (move_out t h (h_kind (hget t0 h))) st B ltac:(lia)).
    destruct (apply_handles hnds rs _ st) as [t' st']. destruct IH as (L' & Ec & Hm & Hk). cbn [map fst]. fold (moves hnds). split_and!; [lia | done | |].
    + intros H0 Hor. apply Hm; [done |]. destruct (decide (hi = h)) as [-> | Hne]; [by left |].
      destruct Hor as [Hor | [? | Hor]%elem_of_cons]; [left; by rewrite Om | done | by right].
    + intros H0 [Hne Hnot]%not_elem_of_cons. rewrite Hk by done. by apply Om.
  - rewrite decide_False by done. specialize (IH rs t (obj_ref_get (h_kind (hget t0 h)) (h_obj (hget t0 h)) st) B L).
    destruct (apply_handles hnds rs t _) as [t' st']. by rewrite get_chans in IH.
Qed.

(** Receiving [n] messages one after the other. *)
Fixpoint recv_all (n : nat) (handle buflen : Z) (w : world) : option (list received * world) :=
  match n with
  | O => Some ([], w)
  | S n =>
      match channel_recv false id handle buflen w with
      | Ret (_, Some v, w) => '(l, w) ← recv_all n handle buflen w; Some (v :: l, w)
      | _ => None
      end
  end.

(** The messages as a receiver with table [t] got them. *)
Definition got_all (t : list obj_handle) (vs : list received) (ms : list chan_msg) : Prop :=
  Forall2 (fun v m => v_bytes v = m_bytes m /\ installed t (v_handles v) (m_handles m)) vs ms.

Definition handles_of (ms : list chan_msg) : nat := length (concat (m_handles <$> ms)).

Lemma resolve_later t t' h : used_kept t t' -> obj_handle_resolve t h HANDLE_KIND_CHANNEL <> 0 ->
  obj_handle_resolve t' h HANDLE_KIND_CHANNEL = obj_handle_resolve t h HANDLE_KIND_CHANNEL.
Proof.
  intros Hs. unfold obj_handle_resolve. destruct ((h <? 0) || (OBJ_HANDLE_MAX <=? h)) eqn:E; [done |].
  apply orb_false_iff in E as [E%Z.ltb_ge _]. destruct (h_used (hget t h)) eqn:Eu; [| done]. by rewrite (Hs h E Eu), Eu.
Qed.

(** Everything queued on an end arrives, oldest first. *)
Lemma recv_all_ok q : forall c ch side u st hr buflen,
  0 < c -> chans st !! c = Some ch -> side = 0 \/ side = 1 -> inbox (get_end ch side) = q ->
  obj_handle_resolve u hr HANDLE_KIND_CHANNEL = end_addr c side -> Forall (fun m => zlen (m_bytes m) <= buflen) q -> (handles_of q <= free_slots u)%nat ->
  exists vs u' st', recv_all (length q) hr buflen (u, st) = Some (vs, (u', st')) /\ got_all u' vs q /\ used_kept u u'
  /\ NoDup (concat (v_handles <$> vs)) /\ Forall (vacant u) (concat (v_handles <$> vs)).
Proof.
  induction q as [| m q IH]; intros c ch side u st hr buflen Hc Hch Hside Hq Hr Hb Hroom.
  { exists [], u, st. split_and!; [done | constructor | done | constructor | constructor]. }
  apply Forall_cons in Hb as [Hm Hb]. unfold handles_of in Hroom. cbn in Hroom. rewrite length_app in Hroom. fold (handles_of q) in Hroom.
  destruct (addr_of c side Hside) as [A1 A2]. assert (Hz : end_addr c side <> 0) by (unfold end_addr; lia).
  cbn [length recv_all]. unfold channel_recv, recv_take. rewrite Hr, A1, A2, Hch, Hq, (proj2 (Z.eqb_neq _ _) Hz).
  destruct (Z.ltb_spec buflen (zlen (m_bytes m))); [lia |]. cbn [id].
  match goal with |- context [install _ u ?x] => set (st1 := x) end.
  destruct (install_all (m_handles m) u st1 ltac:(lia)) as (l & u1 & -> & Hs1 & Hi1 & Hv1 & Nd1 & Hf1).
  destruct (IH c (set_end ch side (mkEnd q (inbox_count (get_end ch side) - 1))) side u1 st1 hr buflen) as (vs & u' & st' & -> & Hg & Hs & Nd & Hv);
    [done | unfold st1; cbn; by rewrite lookup_insert_eq | done | rewrite get_set_end, Z.eqb_refl by done; done
    | rewrite (resolve_later u u1) by (done || congruence); done | done | lia |].
  exists (mkRecv (m_bytes m) l :: vs), u', st'. split; [done |]. split_and!.
  - constructor; [| done]. split; [done |]. by apply (installed_later u1).
  - by apply (used_kept_trans u u1).
  - cbn. apply NoDup_app. split_and!; [done | | done]. intros h Hh Hh2. rewrite Forall_forall in Hv. destruct (Hv h Hh2) as [_ E].
    rewrite (installed_used u1 l _ h Hi1 Hh) in E. done.
  - cbn. apply Forall_app. split; [done |]. eapply Forall_impl; [exact Hv |]. intros h. by apply vacant_before.
Qed.

(** C33. Messages arrive complete and in order.  A message sent on one end of a
    channel, whatever the peer's inbox already holds, is put behind it: receiving
    on the other end until the inbox is empty returns the messages that were
    waiting, oldest first, and this one last, each with the bytes it was sent
    with and, for every handle it carries, in order, a new handle of the same
    kind on the same object, in a slot of its own that was free; the receiver's
    other handles are untouched.  The sender loses exactly the handles it moved.
    The inbox has to have room, the receiver's buffer and table too. *)
Theorem channel_send_recv_roundtrip c ch side t u st hs hr bytes hnds refs buflen :
  0 < c -> chans st !! c = Some ch -> side = 0 \/ side = 1 -> peer_closed ch side = false ->
  let q := inbox (get_end ch (1 - side)) in
  inbox_count (get_end ch (1 - side)) = Z.of_nat (length q) -> Z.of_nat (length q) < CHAN_QUEUE_MAX ->
  Z.of_nat (length t) = OBJ_HANDLE_MAX ->
  obj_handle_resolve t hs HANDLE_KIND_CHANNEL = end_addr c side -> obj_handle_resolve u hr HANDLE_KIND_CHANNEL = end_addr c (1 - side) ->
  zlen bytes <= CHAN_MSG_MAX_BYTES -> Z.of_nat (length hnds) <= CHAN_MSG_MAX_HANDLES -> build_handles t hnds = Some refs ->
  let sent := q ++ [mkMsg bytes refs] in
  Forall (fun m => zlen (m_bytes m) <= buflen) sent -> (handles_of sent <= free_slots u)%nat ->
  exists t' st' vs u' st'',
    channel_send true id [] false hs bytes hnds (t, st) = Ret (0, (t', st'))
    /\ recv_all (length sent) hr buflen (u, st') = Some (vs, (u', st''))
    /\ got_all u' vs sent /\ used_kept u u' /\ NoDup (concat (v_handles <$> vs)) /\ Forall (vacant u) (concat (v_handles <$> vs))
    /\ (forall hi, 0 <= hi -> if bool_decide (hi ∈ moves hnds) then h_used (hget t' hi) = false else hget t' hi = hget t hi).
Proof.
  intros Hc Hch Hside Hopen q Hcount Hfull L Hs Hr Hb Hn B sent Hbuf Hroom.
  assert (Hz : end_addr c side <> 0) by (unfold end_addr; lia). destruct (addr_of c side Hside) as [A1 A2].
  unfold channel_send, send_check. cbn [fst]. rewrite Hs, (proj2 (Z.eqb_neq _ _) Hz). destruct (Z.ltb_spec CHAN_MSG_MAX_BYTES (zlen bytes)); [lia |].
  destruct (Z.ltb_spec CHAN_MSG_MAX_HANDLES (Z.of_nat (length hnds))); [lia |]. cbn [negb]. rewrite B, A1, A2. cbn [id send_locked m_handles].
  rewrite Hch, Hopen, (proj2 (Z.leb_gt CHAN_QUEUE_MAX (inbox_count (get_end ch (1 - side))))) by lia.
  pose proof (fun hi => apply_moved hnds refs t t st hi B L) as Ha. destruct (apply_handles hnds refs t st) as [t' st'].
  assert (Ec : chans st' = chans st) by apply (Ha 0). rewrite Ec. set (ch' := set_end ch (1 - side) _). set (st1 := set_chans st' _).
  destruct (recv_all_ok sent c ch' (1 - side) u st1 hr buflen) as (vs & u' & st'' & E & Hg & Hsame & Nd & Hv);
    [done | unfold st1; cbn; by rewrite lookup_insert_eq | lia | unfold ch'; rewrite get_set_end, Z.eqb_refl by lia; done | done | done | done |].
  exists t', st1, vs, u', st''. split_and!; [done | done | done | done | done | done |].
  intros hi Hi. destruct (Ha hi) as (_ & _ & Hm & Hk). case_bool_decide; [apply Hm; [done | by right] | by apply Hk].
Qed.

(** A second message behind the first one of the example, which carries a
    surface. *)
Lemma channel_send_recv_roundtrip_witness :
  length (inbox (end1 (default (new_chan 0 0) (chans (ob Demo.sent) !! 5)))) = 1%nat
  /\ exists t' st' vs u' st'',
    channel_send true id [] false 0 [1; 2] [] (Demo.tab Demo.sent 1, ob Demo.sent) = Ret (0, (t', st'))
    /\ recv_all 2 0 16 (Demo.tab Demo.sent 2, st') = Some (vs, (u', st'')) /\ v_bytes <$> vs = [[7]; [1; 2]].
Proof.
  split; [vm_compute; reflexivity |].
  destruct (channel_send_recv_roundtrip 5 (default (new_chan 0 0) (chans (ob Demo.sent) !! 5)) 0 (Demo.tab Demo.sent 1) (Demo.tab Demo.sent 2) (ob Demo.sent) 0 0 [1; 2]
    [] [] 16) as (t' & st' & vs & u' & st'' & E1 & E2 & Hg & _);
    [lia | vm_compute; reflexivity | by left | vm_compute; reflexivity .. | by vm_compute | by vm_compute | vm_compute; reflexivity
    | vm_compute; repeat constructor; discriminate | vm_compute; lia |].
  exists t', st', vs, u', st''. split; [exact E1 |]. split; [exact E2 |].
  change (v_bytes <$> vs = m_bytes <$> [mkMsg [7] [mkRef HANDLE_KIND_SURFACE 9 true]; mkMsg [1; 2] []]).
  assert (Hq : got_all u' vs [mkMsg [7] [mkRef HANDLE_KIND_SURFACE 9 true]; mkMsg [1; 2] []]) by exact Hg.
  clear -Hq. unfold got_all in Hq. inversion Hq as [| v1 m1 vs1 ms1 [Hb1 _] Hq1]; subst. inversion Hq1 as [| v2 m2 vs2 ms2 [Hb2 _] Hq2]; subst.
  inversion Hq2; subst. cbn. by rewrite Hb1, Hb2.
Defined.

(** ** Messages outside the accounted ones *)

(** Listing one surface handle twice as moved is accepted, and puts two
    references under way where there was one: the receiver ends up with two
    handles on a surface that has a single reference, so closing the first frees
    it under the second. *)
Theorem channel_double_move_overcounts :
  exists w w1 w2 v,
    sref (snd w) 9 = 1 /\ h_used (hget (fst w) 1) = true /\ h_obj (hget (fst w) 1) = 9
    /\ channel_send true id [] false 0 [] [(1, CHAN_HANDLE_MOVE); (1, CHAN_HANDLE_MOVE)] w = Ret (0, w1)
    /\ sref (snd w1) 9 = 1 /\ msum (under_way 9) (chans (snd w1)) = 2
    /\ channel_recv false id 0 16 (Demo.tab Demo.drawn 2, snd w1) = Ret (0, Some v, w2)
    /\ held HANDLE_KIND_SURFACE 9 (fst w2) = 2 /\ sref (snd w2) 9 = 1.
Proof.
  exists (Demo.tab Demo.drawn 1, ob Demo.drawn). eexists _, _, _. split; [vm_compute; reflexivity |]. split; [vm_compute; reflexivity |].
  split; [vm_compute; reflexivity |]. split; [vm_compute; reflexivity |]. split; [vm_compute; reflexivity |]. split; [vm_compute; reflexivity |].
  split; [vm_compute; reflexivity |]. split; vm_compute; reflexivity.
Qed.

(** Copying a channel end into a message is accepted and takes no reference:
    the receiver ends up with a handle on a channel it has no reference on, and
    when the two counted ends are closed the channel is freed under it. *)
Theorem channel_copied_end_dangles :
  exists w1 v u1 st1 t2 st2 u2 st3,
    let t := Demo.tab Demo.made 1 in
    channel_send true id [] false 0 [] [(0, CHAN_HANDLE_COPY)] (t, ob Demo.made) = Ret (0, w1)
    /\ channel_recv false id 1 16 w1 = Ret (0, Some v, (u1, st1)) /\ v_handles v = [2] /\ obj_handle_resolve u1 2 HANDLE_KIND_CHANNEL = end_addr 5 0
    /\ free_handle u1 0 st1 = Some (t2, st2) /\ free_handle t2 1 st2 = Some (u2, st3)
    /\ chans st3 !! 5 = None /\ obj_handle_resolve u2 2 HANDLE_KIND_CHANNEL = end_addr 5 0
    /\ channel_close 2 (u2, st3) = Crash.
Proof.
  eexists _, _, _, _, _, _, _, _. cbv zeta. split; [vm_compute; reflexivity |]. split; [vm_compute; reflexivity |]. split; [vm_compute; reflexivity |].
  split; [vm_compute; reflexivity |]. split; [vm_compute; reflexivity |]. split; [vm_compute; reflexivity |]. split; [vm_compute; reflexivity |].
  split; vm_compute; reflexivity.
Qed.
