(* ===== verification/Vfs.v ===== *)
(** * Names: the mount table, path resolution and namespaces
    ([kernel/fs/vfs.c], [kernel/fs/namespace.c], and the namespace grant of
    [kernel/process/process.c])

    A path is resolved in two steps: the namespace of the process names the
    object to start from, and the walk goes down from there one component at a
    time, asking the file system that holds each directory.

    Paths are C strings: lists of non-zero bytes.  A file system is its table of
    operations on a state [F]; a missing operation is a NULL slot.  The mount
    table is a list of slots and a vnode names its mount by the index of the
    slot. *)

From stdpp Require Import strings.
From S2P Require Import Prelude Bytes.

Definition SLASH : Z := 47.
Definition DOT : Z := 46.

Definition VFS_DT_DIR : Z := 2.
Definition VFS_DT_LNK : Z := 3.
Definition VFS_MAX_MOUNTS : Z := 32.
Definition VFS_MAX_DEPTH : Z := 64.
Definition VFS_MAX_SYMLINKS : Z := 8.
Definition VFS_PATH_BUF : Z := 256.
Definition MOUNT_AT_BYTES : Z := 64.
Definition NS_MAX_BINDINGS : Z := 8.
Definition NS_PREFIX_MAX : Z := 64.
Definition NS_MODE_RW : Z := 0.
Definition NS_MODE_RO : Z := 1.

Record vnode := mkVnode { v_mnt : option Z; v_ino : Z; v_type : Z }.

#[export] Instance vnode_eq_dec : EqDecision vnode.
Proof. solve_decision. Defined.

(** The operations the resolution and its wrappers call.  [op_readlink] is the
    text of the link; the caller sees at most the size of its buffer and the
    full length. *)
Record vfs_ops (F : Type) := mkOps {
  op_lookup : option (vnode -> list Z -> F -> vnode + Z);
  op_readlink : option (vnode -> F -> list Z + Z);
  op_read : option (vnode -> Z -> Z -> F -> list Z + Z);
  op_write : option (vnode -> Z -> list Z -> F -> (Z + Z) * F);
  op_readdir : option (vnode -> F -> list (list Z * Z * Z) + Z);
  op_stat : option (vnode -> F -> list Z + Z);
}.
Arguments mkOps {F} _ _ _ _ _ _.
Arguments op_lookup {F} _.
Arguments op_readlink {F} _.
Arguments op_read {F} _.
Arguments op_write {F} _.
Arguments op_readdir {F} _.
Arguments op_stat {F} _.

Record ns_binding := mkBinding { prefix : list Z; b_root : vnode; b_mode : Z; b_used : bool }.
Record namespace := mkNs { bindings : list ns_binding; ns_n : Z; active : bool }.

Definition null_vnode : vnode := mkVnode None 0 0.
Definition null_binding : ns_binding := mkBinding [] null_vnode 0 false.

(** [memset(ns, 0, sizeof *ns)] *)
Definition empty_ns : namespace := mkNs (replicate (Z.to_nat NS_MAX_BINDINGS) null_binding) 0 false.

Definition streq (a b : list Z) : bool := bool_decide (a = b).

(** ** Namespaces *)

(** [for (i = 0; i < plen; i++) if (path[i] != prefix[i]) return 0;] *)
Fixpoint starts_with (prefix path : list Z) : bool :=
  match prefix, path with
  | [], _ => true
  | c :: prefix, d :: path => (c =? d) && starts_with prefix path
  | _ :: _, [] => false
  end.

Definition ns_prefix_match (path prefix : list Z) : Z :=
  let plen := zlen prefix in
  if plen =? 0 then 0
  else if negb (rd prefix 0 =? SLASH) || negb (rd path 0 =? SLASH) then 0
  else if plen =? 1 then 1
  else if negb (starts_with prefix path) then 0
  else if (rd path plen =? 0) || (rd path plen =? SLASH) then plen
  else 0.

(** The first slot that satisfies a test. *)
Fixpoint find_slot {A} (f : A -> bool) (i : Z) (l : list A) : option Z :=
  match l with
  | [] => None
  | x :: l => if f x then Some i else find_slot f (i + 1) l
  end.

Definition ns_bind (ns : namespace) (pre : list Z) (root : vnode) (mode : Z) : Z * namespace :=
  if negb (rd pre 0 =? SLASH) then (- Errno.EMBK_EINVAL, ns)
  else if NS_PREFIX_MAX <=? zlen pre then (- Errno.EMBK_ENAMETOOLONG, ns)
  else
    let fill i n := (Errno.EMBK_OK, mkNs (wr (bindings ns) i (mkBinding pre root mode true)) n true) in
    match find_slot (fun b => b_used b && streq (prefix b) pre) 0 (bindings ns) with
    | Some i => fill i (ns_n ns)
    | None =>
        match find_slot (fun b => negb (b_used b)) 0 (bindings ns) with
        | Some i => fill i (if ns_n ns <? i + 1 then i + 1 else ns_n ns)
        | None => (- Errno.EMBK_ENOSPC, ns)
        end
    end.

(** The longest match so far: its length and the binding. *)
Fixpoint best_from (path : list Z) (best : option (Z * ns_binding)) (l : list ns_binding) : option (Z * ns_binding) :=
  match l with
  | [] => best
  | b :: l =>
      if negb (b_used b) then best_from path best l
      else
        let m := ns_prefix_match path (prefix b) in
        let better := match best with Some (len, _) => len <? m | None => true end in
        best_from path (if negb (m =? 0) && better then Some (m, b) else best) l
  end.

Definition ns_lookup (ns : namespace) (path : list Z) : (vnode * Z * Z) + Z :=
  if negb (rd path 0 =? SLASH) then inr (- Errno.EMBK_EINVAL)
  else
    match best_from path None (bindings ns) with
    | Some (len, b) => inl (b_root b, len, b_mode b)
    | None => inr (- Errno.EMBK_ENOENT)
    end.

(** The parent's mode for a requested prefix; [None] when no binding names it. *)
Definition parent_mode (parent : namespace) (path : list Z) : option Z :=
  match best_from path None (bindings parent) with Some (_, b) => Some (b_mode b) | None => None end.

Definition grant_ok (parent : namespace) (r : ns_binding) : bool :=
  negb (b_used r)
  || match parent_mode parent (prefix r) with
     | None => false
     | Some pmode => negb ((b_mode r =? NS_MODE_RW) && (pmode =? NS_MODE_RO))
     end.

Definition ns_attenuate (parent requested : namespace) : Z * option namespace :=
  if forallb (grant_ok parent) (bindings requested)
  then (Errno.EMBK_OK, Some (mkNs (bindings requested) (ns_n requested) true))
  else (- Errno.EMBK_EPERM, None).

(** [process_current_ns]: NULL without a current thread. *)
Definition ns_check_writable (cur : option namespace) (path : list Z) : Z :=
  match cur with
  | None => Errno.EMBK_OK
  | Some ns =>
      if negb (active ns) then Errno.EMBK_OK
      else
        match ns_lookup ns path with
        | inl (_, _, mode) => if mode =? NS_MODE_RO then - Errno.EMBK_EROFS else Errno.EMBK_OK
        | inr _ => Errno.EMBK_OK
        end
  end.

(** ** The mount table *)

Section Vfs.
Context {F : Type}.

Record vfs_mount := mkMount { m_ops : option (vfs_ops F); m_fs_data : Z; m_root : vnode; m_at : list Z; m_used : bool }.

Definition null_mount : vfs_mount := mkMount None 0 null_vnode [] false.
Definition vfs_init : list vfs_mount := replicate (Z.to_nat VFS_MAX_MOUNTS) null_mount.
Definition slot (g : list vfs_mount) (i : Z) : vfs_mount := default null_mount (g !! Z.to_nat i).

Definition mounted_at (path : list Z) (m : vfs_mount) : bool := m_used m && streq (m_at m) path.

Definition mount_fs (path : list Z) (ops : vfs_ops F) (fs_data root_ino : Z) (g : list vfs_mount) : Z * list vfs_mount :=
  if fs_data =? 0 then (- Errno.EMBK_EINVAL, g)
  else if (zlen path =? 0) || (MOUNT_AT_BYTES <=? zlen path) then (- Errno.EMBK_EINVAL, g)
  else if existsb (mounted_at path) g then (- Errno.EMBK_EBUSY, g)
  else
    match find_slot (fun m => negb (m_used m)) 0 g with
    | None => (- Errno.EMBK_ENOSPC, g)
    | Some i => (Errno.EMBK_OK, wr g i (mkMount (Some ops) fs_data (mkVnode (Some i) root_ino VFS_DT_DIR) path true))
    end.

Definition vfs_unmount (path : list Z) (g : list vfs_mount) : Z * list vfs_mount :=
  match find_slot (mounted_at path) 0 g with
  | Some i => (Errno.EMBK_OK, wr g i null_mount)
  | None => (- Errno.EMBK_ENOENT, g)
  end.

Definition vfs_mount_fs_data (path : list Z) (g : list vfs_mount) : Z :=
  match find_slot (mounted_at path) 0 g with Some i => m_fs_data (slot g i) | None => 0 end.

Definition vfs_mount_is_prefix (path at_ : list Z) : bool :=
  let mlen := zlen at_ in
  if mlen =? 0 then false
  else if streq at_ [SLASH] then rd path 0 =? SLASH
  else if negb (starts_with at_ path) then false
  else (rd path mlen =? 0) || (rd path mlen =? SLASH).

Fixpoint find_mount_from (path : list Z) (best : option vfs_mount) (g : list vfs_mount) : option vfs_mount :=
  match g with
  | [] => best
  | m :: g =>
      if negb (m_used m) || negb (vfs_mount_is_prefix path (m_at m)) then find_mount_from path best g
      else
        let better := match best with Some b => zlen (m_at b) <? zlen (m_at m) | None => true end in
        find_mount_from path (if better then Some m else best) g
  end.

Definition vfs_find_mount (path : list Z) (g : list vfs_mount) : option vfs_mount := find_mount_from path None g.

(** The mount points that are in use, in slot order, at most [max]. *)
Definition vfs_mounts_snapshot (max : Z) (g : list vfs_mount) : list (list Z) :=
  take (Z.to_nat max) (m_at <$> filter (fun m => m_used m = true) g).

(** [dir->mnt->ops], through the slot the vnode names. *)
Definition ops_of (g : list vfs_mount) (v : vnode) : option (vfs_ops F) :=
  match v_mnt v with Some i => m_ops (slot g i) | None => None end.

(** ** The walk *)

Fixpoint skip_slashes (s : list Z) : list Z :=
  match s with c :: s' => if c =? SLASH then skip_slashes s' else s | [] => [] end.

(** [while (s[len] != '\0' && s[len] != '/') len++] *)
Fixpoint component (s : list Z) : list Z :=
  match s with c :: s => if c =? SLASH then [] else c :: component s | [] => [] end.

(** What a buffer says as a C string. *)
Fixpoint c_string (l : list Z) : list Z :=
  match l with c :: l => if c =? 0 then [] else c :: c_string l | [] => [] end.

(** The target of a link in front of the rest of the path; [None] when it does
    not fit in the buffer. *)
Definition splice (target rest : list Z) : option (list Z) :=
  let joined :=
    match rest with
    | [] => target
    | _ => target ++ (if rd target (zlen target - 1) =? SLASH then [] else [SLASH]) ++ rest
    end in
  if VFS_PATH_BUF - 1 <=? zlen joined then None else Some (c_string joined).

(** The trail is the directory the walk is in and those above it, down to
    [start].  [None] only when the fuel runs out. *)
Fixpoint walk (fuel : nat) (g : list vfs_mount) (fs : F) (follow_final : bool) (start : vnode)
  (here : vnode) (above : list vnode) (nlinks : Z) (s : list Z) : option (vnode + Z) :=
  match fuel with
  | O => None
  | S fuel =>
      match s with
      | [] => Some (inl here)
      | _ =>
          let comp := component s in
          let next := skip_slashes (drop (length comp) s) in
          if (zlen comp =? 0) || (255 <? zlen comp) then Some (inr (- Errno.EMBK_EINVAL))
          else if streq comp [DOT] then walk fuel g fs follow_final start here above nlinks next
          else if streq comp [DOT; DOT] then
            match above with
            | [] => walk fuel g fs follow_final start here above nlinks next
            | up :: above => walk fuel g fs follow_final start up above nlinks next
            end
          else
            match ops_of g here ≫= op_lookup with
            | None => Some (inr (- Errno.EMBK_ENOSYS))
            | Some lookup =>
                if VFS_MAX_DEPTH <=? Z.of_nat (length above) + 1 then Some (inr (- Errno.EMBK_ENAMETOOLONG))
                else
                  match lookup here comp fs with
                  | inr err => Some (inr err)
                  | inl child =>
                      if (v_type child =? VFS_DT_LNK) && (follow_final || negb (streq next [])) then
                        if VFS_MAX_SYMLINKS <? nlinks + 1 then Some (inr (- Errno.EMBK_ELOOP))
                        else
                          match ops_of g child ≫= op_readlink with
                          | None => Some (inr (- Errno.EMBK_ENOSYS))
                          | Some readlink =>
                              match readlink child fs with
                              | inr err => Some (inr err)
                              | inl target =>
                                  if (zlen target =? 0) || (VFS_PATH_BUF <=? zlen target) then Some (inr (- Errno.EMBK_EINVAL))
                                  else
                                    match splice target next with
                                    | None => Some (inr (- Errno.EMBK_ENAMETOOLONG))
                                    | Some nb =>
                                        if rd nb 0 =? SLASH
                                        then walk fuel g fs follow_final start start [] (nlinks + 1) (skip_slashes nb)
                                        else walk fuel g fs follow_final start here above (nlinks + 1) nb
                                    end
                              end
                          end
                      else walk fuel g fs follow_final start child (here :: above) nlinks next
                  end
            end
      end
  end.

(** Every step without a link consumes a byte of the path; a link, at most eight
    times, puts fewer than 256 bytes in front. *)
Definition walk_fuel (rel : list Z) : nat := S (length rel + 256 * 8).

Definition vfs_walk_from_ex (g : list vfs_mount) (fs : F) (start : vnode) (rel : list Z) (follow_final : bool) : option (vnode + Z) :=
  walk (walk_fuel rel) g fs follow_final start start [] 0 (skip_slashes rel).

Definition vfs_walk_from (g : list vfs_mount) (fs : F) (start : vnode) (rel : list Z) : option (vnode + Z) :=
  vfs_walk_from_ex g fs start rel true.

(** ** Resolution *)

(** The namespace to resolve in, if there is an active one. *)
Definition in_force (cur : option namespace) : option namespace :=
  match cur with Some ns => if active ns then Some ns else None | None => None end.

(** The object and the mode of the binding that named it. *)
Definition vfs_resolve_ex (g : list vfs_mount) (fs : F) (cur : option namespace) (path : list Z) : option ((vnode * Z) + Z) :=
  let found mode := fmap (M := option) (fun r : vnode + Z => match r with inl v => inl (v, mode) | inr e => inr e end) in
  if negb (rd path 0 =? SLASH) then Some (inr (- Errno.EMBK_EINVAL))
  else
    match in_force cur with
    | Some ns =>
        match ns_lookup ns path with
        | inr e => Some (inr e)
        | inl (root, plen, mode) =>
            let '(root, plen) :=
              match vfs_find_mount path g with
              | Some deeper => if plen <? zlen (m_at deeper) then (m_root deeper, zlen (m_at deeper)) else (root, plen)
              | None => (root, plen)
              end in
            found mode (vfs_walk_from g fs root (drop (Z.to_nat plen) path))
        end
    | None =>
        match vfs_find_mount path g with
        | None => Some (inr (- Errno.EMBK_ENOENT))
        | Some m => found NS_MODE_RW (vfs_walk_from g fs (m_root m) (drop (length (m_at m)) path))
        end
    end.

Definition vfs_resolve (g : list vfs_mount) (fs : F) (cur : option namespace) (path : list Z) : option (vnode + Z) :=
  (fun r : (vnode * Z) + Z => match r with inl (v, _) => inl v | inr e => inr e end) <$> vfs_resolve_ex g fs cur path.

Definition vfs_resolve_nofollow (g : list vfs_mount) (fs : F) (cur : option namespace) (path : list Z) : option (vnode + Z) :=
  if negb (rd path 0 =? SLASH) then Some (inr (- Errno.EMBK_EINVAL))
  else
    match in_force cur with
    | Some ns =>
        match ns_lookup ns path with
        | inr e => Some (inr e)
        | inl (root, plen, _) => vfs_walk_from_ex g fs root (drop (Z.to_nat plen) path) false
        end
    | None =>
        match vfs_find_mount path g with
        | None => Some (inr (- Errno.EMBK_ENOENT))
        | Some m => vfs_walk_from_ex g fs (m_root m) (drop (length (m_at m)) path) false
        end
    end.

(** ** The wrappers: resolve, check the slot, dispatch *)

Definition vfs_read (g : list vfs_mount) (cur : option namespace) (path : list Z) (off len : Z) (fs : F) : option (list Z + Z) :=
  match vfs_resolve g fs cur path with
  | None => None
  | Some (inr e) => Some (inr e)
  | Some (inl v) => Some (match ops_of g v ≫= op_read with Some read => read v off len fs | None => inr (- Errno.EMBK_ENOSYS) end)
  end.

Definition vfs_write (g : list vfs_mount) (cur : option namespace) (path : list Z) (off : Z) (buf : list Z) (fs : F) : option ((Z + Z) * F) :=
  let wok := ns_check_writable cur path in
  if negb (wok =? Errno.EMBK_OK) then Some (inr wok, fs)
  else
    match vfs_resolve g fs cur path with
    | None => None
    | Some (inr e) => Some (inr e, fs)
    | Some (inl v) => Some (match ops_of g v ≫= op_write with Some write => write v off buf fs | None => (inr (- Errno.EMBK_ENOSYS), fs) end)
    end.

Definition vfs_readdir (g : list vfs_mount) (cur : option namespace) (path : list Z) (fs : F) : option (list (list Z * Z * Z) + Z) :=
  match vfs_resolve g fs cur path with
  | None => None
  | Some (inr e) => Some (inr e)
  | Some (inl v) =>
      Some (match ops_of g v ≫= op_readdir with
            | None => inr (- Errno.EMBK_ENOSYS)
            | Some readdir => if negb (v_type v =? VFS_DT_DIR) then inr (- Errno.EMBK_ENOTDIR) else readdir v fs
            end)
  end.

Definition vfs_stat (g : list vfs_mount) (cur : option namespace) (path : list Z) (fs : F) : option (list Z + Z) :=
  match vfs_resolve g fs cur path with
  | None => None
  | Some (inr e) => Some (inr e)
  | Some (inl v) => Some (match ops_of g v ≫= op_stat with Some stat => stat v fs | None => inr (- Errno.EMBK_ENOSYS) end)
  end.

(** ** The namespace a process is born with *)

Definition SYSTEM : list Z := str "/system"%string.

(** One writable binding per mount point that resolves. *)
Definition seed_mounts (g : list vfs_mount) (fs : F) (cur : option namespace) (ns : namespace) (points : list (list Z)) : namespace :=
  fold_left (fun ns at_ => match vfs_resolve g fs cur at_ with
                           | Some (inl root) => snd (ns_bind ns at_ root NS_MODE_RW)
                           | _ => ns
                           end) points ns.

Definition ns_seed_global (g : list vfs_mount) (fs : F) (cur : option namespace) : namespace :=
  let ns := seed_mounts g fs cur empty_ns (vfs_mounts_snapshot NS_MAX_BINDINGS g) in
  if negb (active ns) then ns
  else
    match vfs_resolve g fs cur SYSTEM with
    | Some (inl sysv) => snd (ns_bind ns SYSTEM sysv NS_MODE_RO)
    | _ => ns
    end.

(** The [SPAWN_ACTION_NS_BIND] actions, in order: a path and the requested mode. *)
Fixpoint bind_actions (g : list vfs_mount) (fs : F) (cur : option namespace) (actions : list (list Z * Z)) (ns : namespace) : option (namespace + Z) :=
  match actions with
  | [] => Some (inl ns)
  | (path, fl) :: actions =>
      match vfs_resolve_ex g fs cur path with
      | None => None
      | Some (inr e) => Some (inr e)
      | Some (inl (vn, pmode)) =>
          let reqmode := if fl =? NS_MODE_RO then NS_MODE_RO else NS_MODE_RW in
          let granted := if pmode =? NS_MODE_RO then NS_MODE_RO else reqmode in
          let '(br, ns) := ns_bind ns path vn granted in
          if negb (br =? Errno.EMBK_OK) then Some (inr br) else bind_actions g fs cur actions ns
      end
  end.

Definition spawn_namespace (g : list vfs_mount) (fs : F) (cur : option namespace) (actions : list (list Z * Z)) : option (namespace + Z) :=
  match actions with
  | [] => Some (inl (match in_force cur with Some ns => ns | None => ns_seed_global g fs cur end))
  | _ => bind_actions g fs cur actions empty_ns
  end.
End Vfs.
Arguments vfs_mount : clear implicits.

(** ** The boot self-test of the namespaces, up to the live mount table *)

Definition ns_fake_vnode (ino : Z) : vnode := mkVnode None ino 0.

Definition bound (bs : list (list Z * Z * Z)) : namespace :=
  fold_left (fun ns '(pre, ino, mode) => snd (ns_bind ns pre (ns_fake_vnode ino) mode)) bs empty_ns.

Definition finds (ns : namespace) (path : list Z) (ino plen mode : Z) : bool :=
  match ns_lookup ns path with inl (v, l, m) => (v_ino v =? ino) && (l =? plen) && (m =? mode) | inr _ => false end.

Definition ns_run_selftests : list bool :=
  let ns := bound [(str "/"%string, 1, NS_MODE_RW); (str "/system"%string, 2, NS_MODE_RO)] in
  let only_sys := bound [(str "/system"%string, 2, NS_MODE_RO)] in
  let child pre mode := bound [(pre, 9, mode)] in
  [ finds ns (str "/data/x"%string) 1 1 NS_MODE_RW;
    finds ns (str "/system/bin/home.elf"%string) 2 7 NS_MODE_RO;
    finds ns (str "/system"%string) 2 7 NS_MODE_RO;
    finds ns (str "/sys"%string) 1 1 NS_MODE_RW;
    match ns_lookup only_sys (str "/data/x"%string) with inr e => e =? - Errno.EMBK_ENOENT | inl _ => false end;
    match ns_lookup only_sys (str "/system/y"%string) with inl _ => true | inr _ => false end;
    fst (ns_attenuate ns (child (str "/data/sub"%string) NS_MODE_RO)) =? Errno.EMBK_OK;
    fst (ns_attenuate ns (child (str "/system/x"%string) NS_MODE_RW)) =? - Errno.EMBK_EPERM;
    fst (ns_attenuate only_sys (child (str "/system/x"%string) NS_MODE_RO)) =? Errno.EMBK_OK;
    fst (ns_attenuate only_sys (child (str "/data/x"%string) NS_MODE_RO)) =? - Errno.EMBK_EPERM ].

Example ns_selftests_pass : forallb id ns_run_selftests = true.
Proof. vm_compute. reflexivity. Qed.
