(* ===== verification/VfsSafety.v ===== *)
(** * Names: what a path can reach

    A walk always ends and never leaves what lies below its starting object; a
    namespace answers with its longest matching prefix; a write through an
    active namespace needs a writable binding that names the path; a narrowed
    child names nothing its parent does not.  The last theorems show where the
    read-only marking of a prefix does not hold. *)

From stdpp Require Import strings.
From S2P Require Import Prelude Bytes Vfs.

(** ** Strings *)

Lemma skip_slashes_length s : (length (skip_slashes s) <= length s)%nat.
Proof. induction s as [| c s IH]; cbn; [lia |]. destruct (c =? SLASH); cbn; lia. Qed.

Lemma c_string_length l : (length (c_string l) <= length l)%nat.
Proof. induction l as [| c l IH]; cbn; [lia |]. destruct (c =? 0); cbn; lia. Qed.

Lemma splice_length target rest nb : splice target rest = Some nb -> (length nb < 255)%nat.
Proof.
  unfold splice. set (j := match rest with [] => _ | _ => _ end). destruct (Z.leb_spec (VFS_PATH_BUF - 1) (zlen j)); [done |]. intros [= <-].
  pose proof (c_string_length j). unfold zlen, VFS_PATH_BUF in *. lia.
Qed.

Lemma next_shorter s : zlen (component s) <> 0 -> (length (skip_slashes (drop (length (component s)) s)) < length s)%nat.
Proof.
  intros H. pose proof (skip_slashes_length (drop (length (component s)) s)) as L. rewrite length_drop in L. unfold zlen in H.
  destruct s as [| c s]; [done |]. cbn [length] in *. lia.
Qed.

Lemma starts_with_spec pre path : starts_with pre path = true <-> exists rest, path = pre ++ rest.
Proof.
  revert path. induction pre as [| c pre IH]; intros path; cbn [starts_with].
  { split; [intros _; by exists path | done]. }
  destruct path as [| d path]; [split; [done | by intros [? ?]] |]. rewrite andb_true_iff, IH, Z.eqb_eq. split.
  - intros [-> [rest ->]]. by exists rest.
  - intros [rest [= -> ->]]. split; [done | by exists rest].
Qed.

Lemma rd_app_length pre rest : rd (pre ++ rest) (zlen pre) = rd rest 0.
Proof. unfold rd, zlen. rewrite Nat2Z.id, lookup_app_r by done. by rewrite Nat.sub_diag. Qed.

(** ** The walk *)

(** The components of a path: what its slashes separate. *)
Fixpoint split_path (s : list Z) : list (list Z) :=
  match s with
  | [] => [[]]
  | c :: s => if c =? SLASH then [] :: split_path s else match split_path s with w :: ws => (c :: w) :: ws | [] => [[c]] end
  end.
Definition components (s : list Z) : list (list Z) := filter (fun w => w <> []) (split_path s).

(** Where a component leads, as the names of the entries on the way down,
    innermost first. *)
Definition settle (names : list (list Z)) (comp : list Z) : list (list Z) :=
  if decide (comp = [DOT]) then names else if decide (comp = [DOT; DOT]) then tail names else comp :: names.

Lemma settle_name names comp : comp <> [DOT] -> comp <> [DOT; DOT] -> settle names comp = comp :: names.
Proof. intros H1 H2. unfold settle. by rewrite !decide_False. Qed.

Lemma component_no_slash s : SLASH ∉ component s.
Proof.
  induction s as [| c s IH]; cbn; [apply not_elem_of_nil |]. destruct (Z.eqb_spec c SLASH); [apply not_elem_of_nil |].
  apply not_elem_of_cons. split; [congruence | done].
Qed.

Lemma split_component s : exists ws, split_path s = component s :: ws /\ filter (fun w => w <> []) ws = components (drop (length (component s)) s).
Proof.
  induction s as [| c s (ws & E & Hf)]; cbn [split_path component]; [by exists [] |]. destruct (Z.eqb_spec c SLASH) as [-> | Hc].
  - exists (split_path s). split; [done |]. cbn [length drop]. unfold components. cbn [split_path]. rewrite Z.eqb_refl. by rewrite filter_cons_False by (intros H; by apply H).
  - rewrite E. by exists ws.
Qed.

Lemma components_skip s : components (skip_slashes s) = components s.
Proof.
  induction s as [| c s IH]; cbn [skip_slashes]; [done |]. destruct (Z.eqb_spec c SLASH) as [-> | Hc]; [| done].
  rewrite IH. unfold components. cbn [split_path]. rewrite Z.eqb_refl. by rewrite filter_cons_False by (intros H; by apply H).
Qed.

Lemma components_next s : zlen (component s) <> 0 -> components s = component s :: components (skip_slashes (drop (length (component s)) s)).
Proof.
  intros Hc. destruct (split_component s) as (ws & E & Hf). unfold components at 1. rewrite E, filter_cons_True, Hf, components_skip; [done |].
  intros E0. by rewrite E0 in Hc.
Qed.

Section Walk.
Context {F : Type} (g : list (vfs_mount F)) (fs : F).

(** The name of an entry: what a directory can be asked for other than itself
    and the directory above. *)
Definition proper (name : list Z) : Prop :=
  name <> [] /\ zlen name <= 255 /\ (SLASH ∉ name) /\ name <> [DOT] /\ name <> [DOT; DOT].

(** The way down from [start]: the names of the entries, innermost first, and
    the directories passed. *)
Inductive trail (start : vnode) : list (list Z) -> list vnode -> vnode -> Prop :=
| trail_start : trail start [] [] start
| trail_down names above d lookup name c :
    trail start names above d -> proper name -> ops_of g d ≫= op_lookup = Some lookup -> lookup d name fs = inl c ->
    trail start (name :: names) (d :: above) c.

Definition below (start v : vnode) : Prop := exists names above, trail start names above v /\ Z.of_nat (length names) < VFS_MAX_DEPTH.

(** No entry is a symbolic link. *)
Definition no_links : Prop :=
  forall d lookup name c, ops_of g d ≫= op_lookup = Some lookup -> lookup d name fs = inl c -> v_type c <> VFS_DT_LNK.

(** Where a walk that stands at [names] may end when the path [s] is left. *)
Definition arrives (start : vnode) (names : list (list Z)) (s : list Z) (v : vnode) : Prop :=
  exists names' above', trail start names' above' v /\ Z.of_nat (length names') < VFS_MAX_DEPTH
    /\ (no_links -> names' = fold_left settle (components s) names).

Lemma trail_length start names above v : trail start names above v -> length above = length names.
Proof. induction 1; cbn; congruence. Qed.

(** The walk ends within its fuel, at an error or where it may. *)
Lemma walk_ok follow start fuel here above names nlinks s :
  trail start names above here -> Z.of_nat (length names) < VFS_MAX_DEPTH -> 0 <= nlinks <= 8 ->
  (length s + 256 * (8 - Z.to_nat nlinks) < fuel)%nat ->
  match walk fuel g fs follow start here above nlinks s with
  | None => False
  | Some (inr _) => True
  | Some (inl v) => arrives start names s v
  end.
Proof.
  revert here above names nlinks s. induction fuel as [| fuel IH]; intros here above names nlinks s Ht Hd Hn Hf; [lia |]. cbn [walk].
  destruct s as [| c0 s0]; [by exists names, above |]. set (s := c0 :: s0) in *. set (comp := component s). set (next := skip_slashes _).
  destruct (Z.eqb_spec (zlen comp) 0) as [| Hc]; [done |]. destruct (Z.ltb_spec 255 (zlen comp)); [done |]. cbn [orb].
  pose proof (next_shorter s Hc) as Hlt. fold comp in Hlt. fold next in Hlt.
  assert (Es : components s = comp :: components next) by by apply components_next.
  unfold streq. destruct (bool_decide_reflect (comp = [DOT])) as [E1 | N1].
  { unfold arrives. rewrite Es. cbn [fold_left]. rewrite E1. apply (IH here above names nlinks next); done || lia. }
  destruct (bool_decide_reflect (comp = [DOT; DOT])) as [E2 | N2].
  { unfold arrives. rewrite Es. cbn [fold_left]. rewrite E2. cbn [settle]. inversion Ht as [E3 E4 E5 | names0 above0 d lookup name c Ht0 Hp El Ec E3 E4 E5]; subst.
    - apply (IH here [] [] nlinks next); done || lia.
    - apply (IH d above0 names0 nlinks next); cbn in *; done || lia. }
  destruct (ops_of g here ≫= op_lookup) as [lookup |] eqn:El; [| done]. pose proof (trail_length _ _ _ _ Ht) as Hlen.
  destruct (Z.leb_spec VFS_MAX_DEPTH (Z.of_nat (length above) + 1)); [done |].
  destruct (lookup here comp fs) as [child | err] eqn:Ec; [| done].
  assert (Hp : proper comp) by (split_and!; [by intros E; rewrite E in Hc | done | apply component_no_slash | done | done]).
  assert (Hchild : trail start (comp :: names) (here :: above) child) by by apply (trail_down _ names above here lookup).
  destruct ((v_type child =? VFS_DT_LNK) && (follow || negb (bool_decide (next = [])))) eqn:Ek.
  2: { unfold arrives. rewrite Es. cbn [fold_left]. rewrite settle_name by done. apply (IH child (here :: above) (comp :: names) nlinks next); cbn [length]; done || lia. }
  assert (Hl : forall P : Prop, no_links -> P) by (intros P Hno; destruct (Hno _ _ _ _ El Ec); apply andb_true_iff in Ek as [Ek _]; by apply Z.eqb_eq in Ek).
  destruct (Z.ltb_spec VFS_MAX_SYMLINKS (nlinks + 1)); [done |]. unfold VFS_MAX_SYMLINKS in *.
  destruct (ops_of g child ≫= op_readlink) as [readlink |]; [| done]. destruct (readlink child fs) as [target | err]; [| done].
  destruct ((zlen target =? 0) || (VFS_PATH_BUF <=? zlen target)); [done |].
  destruct (splice target next) as [nb |] eqn:Esp; [| done]. apply splice_length in Esp. pose proof (skip_slashes_length nb).
  assert (Hweak : forall names0 s0 v, arrives start names0 s0 v -> arrives start names s v).
  { intros names0 s1 v (n' & a' & Ha1 & Ha2 & _). exists n', a'. split_and!; [done | done | by apply Hl]. }
  destruct (rd nb 0 =? SLASH).
  - pose proof (IH start [] [] (nlinks + 1) (skip_slashes nb) (trail_start start) ltac:(done) ltac:(lia) ltac:(lia)) as Hw.
    destruct (walk fuel g fs follow start start [] (nlinks + 1) (skip_slashes nb)) as [[v |] |]; [by eapply Hweak | done | done].
  - pose proof (IH here above names (nlinks + 1) nb Ht Hd ltac:(lia) ltac:(lia)) as Hw.
    destruct (walk fuel g fs follow start here above (nlinks + 1) nb) as [[v |] |]; [by eapply Hweak | done | done].
Qed.

Lemma walk_from_ok start rel follow :
  match vfs_walk_from_ex g fs start rel follow with None => False | Some (inr _) => True | Some (inl v) => arrives start [] rel v end.
Proof.
  pose proof (skip_slashes_length rel) as Hl.
  pose proof (walk_ok follow start (walk_fuel rel) start [] [] 0 (skip_slashes rel) (trail_start start) ltac:(done) ltac:(lia)) as H.
  unfold arrives in *. rewrite components_skip in H. apply H. unfold walk_fuel. lia.
Qed.

Lemma walk_from_below start rel follow v : vfs_walk_from_ex g fs start rel follow = Some (inl v) -> below start v.
Proof. intros E. pose proof (walk_from_ok start rel follow) as H. rewrite E in H. destruct H as (names & above & H1 & H2 & _). by exists names, above. Qed.
End Walk.


(** A small system: [/data] with a link that tries to leave, a sealed
    [/system]. *)
Module Demo.

Definition at_root (ino type : Z) : vnode := mkVnode (Some 0) ino type.
Definition names : list (Z * list Z * (Z * Z)) :=
  [(1, str "data"%string, (2, VFS_DT_DIR)); (1, str "system"%string, (3, VFS_DT_DIR)); (2, str "up"%string, (4, VFS_DT_LNK)); (3, str "x"%string, (5, 1))].
Definition lookup (v : vnode) (name : list Z) (written : list Z) : vnode + Z :=
  match filter (fun e => fst (fst e) = v_ino v /\ snd (fst e) = name) names with
  | (_, (ino, type)) :: _ => inl (at_root ino type)
  | [] => inr (- Errno.EMBK_ENOENT)
  end.
(** The state is the list of the objects that were written. *)
Definition ops : vfs_ops (list Z) :=
  mkOps (Some lookup) (Some (fun _ _ => inl (str "/../../system"%string))) None (Some (fun v _ buf fs => (inl (zlen buf), v_ino v :: fs))) None None.
Definition mounts : list (vfs_mount (list Z)) := snd (mount_fs [SLASH] ops 1 1 vfs_init).
Definition sealed : namespace := ns_seed_global mounts [] None.
End Demo.



(** C34. Every path resolution returns: the number of components, the links
    followed and the buffers they are spliced into are bounded, so the walk ends
    with an object or an error, cycles of links included. *)
Theorem vfs_resolve_terminates {F} (g : list (vfs_mount F)) fs cur path :
  (exists r, vfs_resolve_ex g fs cur path = Some r) /\ (exists r, vfs_resolve_nofollow g fs cur path = Some r).
Proof.
  assert (forall start rel follow, exists r, vfs_walk_from_ex g fs start rel follow = Some r) as W.
  { intros start rel follow. pose proof (walk_from_ok g fs start rel follow) as H. destruct (vfs_walk_from_ex g fs start rel follow); [eauto | done]. }
  unfold vfs_resolve_ex, vfs_resolve_nofollow, vfs_walk_from. destruct (negb (rd path 0 =? SLASH)); [eauto |]. split.
  - destruct (in_force cur) as [ns |].
    + destruct (ns_lookup ns path) as [[[root plen] mode] | e]; [| eauto].
      destruct (match vfs_find_mount path g with Some _ => _ | None => _ end) as [root' plen'].
      destruct (W root' (drop (Z.to_nat plen') path) true) as [[v | e] ->]; cbn; eauto.
    + destruct (vfs_find_mount path g) as [m |]; [| eauto]. destruct (W (m_root m) (drop (length (m_at m)) path) true) as [[v | e] ->]; cbn; eauto.
  - destruct (in_force cur) as [ns |]; [destruct (ns_lookup ns path) as [[[root plen] mode] | e]; eauto |].
    destruct (vfs_find_mount path g) as [m |]; eauto.
Qed.

(** ** Prefixes *)

(** A prefix names a path: [/] names every absolute path, another prefix the
    path itself and what continues it with a slash. *)
Definition covers (pre path : list Z) : Prop :=
  (pre = [SLASH] /\ rd path 0 = SLASH)
  \/ (1 < zlen pre /\ rd pre 0 = SLASH /\ exists rest, path = pre ++ rest /\ (rest = [] \/ rd rest 0 = SLASH)).

Definition c_str (path : list Z) : Prop := Forall (fun c => c <> 0) path.

Lemma rd_end rest : c_str rest -> rd rest 0 = 0 -> rest = [].
Proof. intros Hn. destruct rest as [| c rest]; [done |]. intros E. apply Forall_cons in Hn as [Hc _]. by destruct (Hc E). Qed.

Lemma covers_match pre path : covers pre path -> ns_prefix_match path pre = zlen pre /\ 0 < zlen pre.
Proof.
  unfold ns_prefix_match. intros [[-> Hp] | (Hl & Hs & rest & -> & Hr)].
  - cbn. rewrite Hp. done.
  - split; [| lia]. destruct (Z.eqb_spec (zlen pre) 0); [lia |].
    assert (rd (pre ++ rest) 0 = SLASH) as Hp by (destruct pre; [unfold zlen in Hl; cbn in Hl; lia | done]). rewrite Hs, Hp. cbn [negb orb Z.eqb].
    rewrite Z.eqb_refl. cbn [negb orb]. destruct (Z.eqb_spec (zlen pre) 1); [lia |].
    assert (starts_with pre (pre ++ rest) = true) as -> by (apply starts_with_spec; by exists rest). cbn [negb]. rewrite rd_app_length.
    by destruct Hr as [-> | ->].
Qed.

Lemma match_covers pre path : c_str path -> ns_prefix_match path pre <> 0 -> covers pre path.
Proof.
  intros Hn. unfold ns_prefix_match. destruct (Z.eqb_spec (zlen pre) 0) as [| H0]; [done |].
  destruct (Z.eqb_spec (rd pre 0) SLASH) as [Hs |]; [| done]. destruct (Z.eqb_spec (rd path 0) SLASH) as [Hp |]; [| done]. cbn [negb orb].
  destruct (Z.eqb_spec (zlen pre) 1) as [H1 | H1].
  { intros _. left. split; [| done]. destruct pre as [| c [| d pre]]; [done | by change (c = SLASH) in Hs; subst c | unfold zlen in H1; cbn in H1; lia]. }
  destruct (starts_with pre path) eqn:E; [| done]. apply starts_with_spec in E as [rest ->]. cbn [negb]. rewrite rd_app_length.
  assert (c_str rest) as Hr by (apply Forall_app in Hn; apply Hn). intros H. right. split; [unfold zlen in *; lia |]. split; [done |]. exists rest. split; [done |].
  destruct (Z.eqb_spec (rd rest 0) 0) as [E0 |]; [left; by apply rd_end |]. destruct (Z.eqb_spec (rd rest 0) SLASH); [by right | done].
Qed.

Lemma covers_unique pre pre' path : covers pre path -> covers pre' path -> zlen pre = zlen pre' -> pre = pre'.
Proof.
  intros C C' E.
  assert (forall q, covers q path -> q = take (length q) path) as Ht.
  { intros q [[-> Hp] | (_ & _ & rest & -> & _)]; [destruct path as [| c path]; [done |]; change (c = SLASH) in Hp; by subst c | by rewrite take_app_length]. }
  rewrite (Ht _ C), (Ht _ C'). by replace (length pre') with (length pre) by (unfold zlen in E; lia).
Qed.

Lemma covers_trans q r path : covers q r -> covers r path -> covers q path.
Proof.
  intros [[-> Hq] | (Hl & Hs & rest & -> & Hr)] [[E Hp] | (Hl' & Hs' & rest' & -> & Hr')].
  - by left.
  - left. split; [done |]. destruct r; [unfold zlen in Hl'; cbn in Hl'; lia | done].
  - exfalso. apply (f_equal zlen) in E. unfold zlen in E, Hl. rewrite length_app in E. cbn in E. lia.
  - right. split; [done |]. split; [done |]. exists (rest ++ rest'). rewrite <- app_assoc. split; [done |].
    destruct rest as [| c rest]; [done |]. right. by destruct Hr.
Qed.

(** ** Lookup *)

Lemma match_nonneg path pre : 0 <= ns_prefix_match path pre.
Proof. unfold ns_prefix_match. repeat match goal with |- context [if ?c then _ else _] => destruct c end; unfold zlen; lia. Qed.

Lemma best_from_spec path best l :
  (forall len b, best = Some (len, b) -> len = ns_prefix_match path (prefix b) /\ len <> 0) ->
  match best_from path best l with
  | Some (len, b) =>
      len = ns_prefix_match path (prefix b) /\ len <> 0 /\ (best = Some (len, b) \/ (b ∈ l /\ b_used b = true))
      /\ (forall b', b' ∈ l -> b_used b' = true -> ns_prefix_match path (prefix b') <= len)
      /\ (forall len' b', best = Some (len', b') -> len' <= len)
  | None => best = None /\ forall b', b' ∈ l -> b_used b' = true -> ns_prefix_match path (prefix b') = 0
  end.
Proof.
  revert best. induction l as [| x l IH]; intros best Hb; cbn [best_from].
  { destruct best as [[len b] |]; [| split; [done | by intros b' ?%elem_of_nil]]. destruct (Hb len b eq_refl) as [H1 H2].
    split; [done |]. split; [done |]. split; [by left |]. split; [by intros b' ?%elem_of_nil |]. by intros len' b' [= <- _]. }
  pose proof (match_nonneg path) as Hp.
  destruct (b_used x) eqn:Eu; cbn [negb].
  2: { specialize (IH best Hb). destruct (best_from path best l) as [[len b] |].
       - destruct IH as (H1 & H2 & H3 & H4 & H5). split; [done |]. split; [done |]. split.
         + destruct H3 as [H3 | [H3 H3']]; [by left | right; split; [by right | done]].
         + split; [| done]. intros b' [-> | Hb']%elem_of_cons Hu; [congruence | by apply H4].
       - destruct IH as [H1 H2]. split; [done |]. intros b' [-> | Hb']%elem_of_cons Hu; [congruence | by apply H2]. }
  set (mx := ns_prefix_match path (prefix x)) in *.
  set (take_it := negb (mx =? 0) && match best with Some (len, _) => len <? mx | None => true end).
  specialize (IH (if take_it then Some (mx, x) else best)).
  assert (forall len b, (if take_it then Some (mx, x) else best) = Some (len, b) -> len = ns_prefix_match path (prefix b) /\ len <> 0) as Hb'.
  { intros len b. destruct take_it eqn:Et; [| apply Hb]. intros [= <- <-]. split; [done |]. unfold take_it in Et. apply andb_true_iff in Et as [Et _]. lia. }
  specialize (IH Hb'). destruct (best_from path (if take_it then Some (mx, x) else best) l) as [[len b] |].
  - destruct IH as (H1 & H2 & H3 & H4 & H5). split; [done |]. split; [done |].
    assert (mx <= len /\ forall len' b', best = Some (len', b') -> len' <= len) as [Hmx Hbest].
    { destruct take_it eqn:Et.
      - specialize (H5 mx x eq_refl). split; [done |]. intros len' b' ->. unfold take_it in Et. apply andb_true_iff in Et as [_ Et]. lia.
      - split; [| by intros len' b' Eb; apply (H5 len' b')]. unfold take_it in Et. destruct best as [[l0 b0] |].
        + specialize (H5 l0 b0 eq_refl). destruct (Z.eqb_spec mx 0); cbn in Et; [destruct (Hb l0 b0 eq_refl) as [E0 ?]; specialize (Hp (prefix b0)) |]; lia.
        + rewrite andb_true_r in Et. specialize (Hp (prefix b)). lia. }
    split; [| split; [| done]].
    + destruct H3 as [H3 | [H3 H3']]; [| right; split; [by right | done]]. destruct take_it; [| by left]. injection H3 as <- <-. right. split; [left | done].
    + intros b' [-> | Hb2]%elem_of_cons Hu; [done | by apply H4].
  - destruct IH as [H1 H2]. destruct take_it eqn:Et; [done |]. split; [done |]. subst best. intros b' [-> | Hb2]%elem_of_cons Hu; [| by apply H2].
    unfold take_it in Et. rewrite andb_true_r in Et. fold mx. lia.
Qed.

(** A binding that answers for a path. *)
Definition answers (ns : namespace) (path : list Z) (b : ns_binding) : Prop :=
  b ∈ bindings ns /\ b_used b = true /\ covers (prefix b) path
  /\ forall b', b' ∈ bindings ns -> b_used b' = true -> covers (prefix b') path -> zlen (prefix b') <= zlen (prefix b).

Lemma lookup_cases ns path :
  c_str path -> rd path 0 = SLASH ->
  match ns_lookup ns path with
  | inl (root, len, mode) => exists b, answers ns path b /\ root = b_root b /\ len = zlen (prefix b) /\ mode = b_mode b
  | inr e => e = - Errno.EMBK_ENOENT /\ forall b, b ∈ bindings ns -> b_used b = true -> ~ covers (prefix b) path
  end.
Proof.
  intros Hn Hp. unfold ns_lookup. rewrite Hp, Z.eqb_refl. cbn [negb].
  pose proof (best_from_spec path None (bindings ns) ltac:(done)) as B. destruct (best_from path None (bindings ns)) as [[len b] |].
  - destruct B as (-> & H0 & [? | [Hb Hu]] & Hmax & _); [done |]. pose proof (match_covers _ _ Hn H0) as Hc.
    destruct (covers_match _ _ Hc) as [El _]. exists b. split; [| done]. split; [done |]. split; [done |]. split; [done |].
    intros b' Hb' Hu' Hc'. specialize (Hmax b' Hb' Hu'). destruct (covers_match _ _ Hc') as [El' _]. lia.
  - destruct B as [_ B]. split; [done |]. intros b Hb Hu Hc. specialize (B b Hb Hu). destruct (covers_match _ _ Hc). lia.
Qed.

(** Looking a path up in a namespace finds the longest prefix that names it,
    on component boundaries: [/] names every absolute path, another prefix
    itself and what continues it after a slash, so [/sys] does not name
    [/system].  A path no binding names does not exist. *)
Theorem ns_lookup_longest ns path :
  c_str path ->
  match ns_lookup ns path with
  | inl (root, len, mode) =>
      exists b, b ∈ bindings ns /\ b_used b = true /\ covers (prefix b) path /\ root = b_root b /\ len = zlen (prefix b) /\ mode = b_mode b
      /\ forall b', b' ∈ bindings ns -> b_used b' = true -> covers (prefix b') path -> zlen (prefix b') <= zlen (prefix b)
  | inr e =>
      (e = - Errno.EMBK_EINVAL /\ rd path 0 <> SLASH)
      \/ (e = - Errno.EMBK_ENOENT /\ rd path 0 = SLASH /\ forall b, b ∈ bindings ns -> b_used b = true -> ~ covers (prefix b) path)
  end.
Proof.
  intros Hn. destruct (decide (rd path 0 = SLASH)) as [Hp | Hp].
  - pose proof (lookup_cases ns path Hn Hp) as L. destruct (ns_lookup ns path) as [[[root len] mode] | e].
    + destruct L as (b & (H1 & H2 & H3 & H4) & -> & -> & ->). by exists b.
    + right. destruct L as [-> L]. done.
  - unfold ns_lookup. destruct (Z.eqb_spec (rd path 0) SLASH); [done |]. by left.
Qed.

Lemma ns_lookup_longest_witness :
  c_str (str "/system/x"%string) /\ ns_lookup Demo.sealed (str "/system/x"%string) = inl (Demo.at_root 3 VFS_DT_DIR, 7, NS_MODE_RO)
  /\ exists b, b ∈ bindings Demo.sealed /\ prefix b = str "/system"%string.
Proof.
  assert (c_str (str "/system/x"%string)) as Hn by (vm_compute; repeat constructor; done).
  split; [exact Hn |]. split; [vm_compute; reflexivity |].
  pose proof (ns_lookup_longest Demo.sealed (str "/system/x"%string) Hn) as H. vm_compute (ns_lookup _ _) in H.
  destruct H as (b & Hb & _ & [[E _] | (_ & _ & rest & E & _)] & _ & El & _).
  - exfalso. rewrite E in El. discriminate El.
  - exists b. split; [exact Hb |]. transitivity (take 7 (prefix b ++ rest)); [| rewrite <- E; reflexivity].
    rewrite take_app_length'; [reflexivity | unfold zlen in El; lia].
Defined.

(** ** Binding *)

(** Eight slots, no prefix bound twice. *)
Record ns_ok (ns : namespace) : Prop := {
  no_len : Z.of_nat (length (bindings ns)) = NS_MAX_BINDINGS;
  no_dup i j b b' : bindings ns !! i = Some b -> bindings ns !! j = Some b' -> b_used b = true -> b_used b' = true -> prefix b = prefix b' -> i = j;
}.

Lemma answers_unique ns path b b' : ns_ok ns -> answers ns path b -> answers ns path b' -> b = b'.
Proof.
  intros N (Hb & Hu & Hc & Hm) (Hb' & Hu' & Hc' & Hm').
  assert (prefix b = prefix b') as E.
  { apply (covers_unique _ _ path Hc Hc'). specialize (Hm b' Hb' Hu' Hc'). specialize (Hm' b Hb Hu Hc). lia. }
  apply list_elem_of_lookup in Hb as [i Hi]. apply list_elem_of_lookup in Hb' as [j Hj]. pose proof (no_dup _ N i j b b' Hi Hj Hu Hu' E). subst j. congruence.
Qed.

Lemma lookup_answers ns path b :
  ns_ok ns -> c_str path -> rd path 0 = SLASH -> answers ns path b -> ns_lookup ns path = inl (b_root b, zlen (prefix b), b_mode b).
Proof.
  intros N Hn Hp A. pose proof (lookup_cases ns path Hn Hp) as L. destruct (ns_lookup ns path) as [[[root len] mode] | e].
  - destruct L as (b' & A' & -> & -> & ->). by rewrite (answers_unique ns path b b' N A A').
  - destruct L as [_ L]. destruct A as (Hb & Hu & Hc & _). destruct (L b Hb Hu Hc).
Qed.

Lemma find_slot_spec {A} (f : A -> bool) k l :
  match find_slot f k l with
  | Some i => exists n x, i = k + Z.of_nat n /\ l !! n = Some x /\ f x = true
  | None => forall n x, l !! n = Some x -> f x = false
  end.
Proof.
  revert k. induction l as [| x l IH]; intros k; cbn [find_slot]; [done |]. destruct (f x) eqn:Ef.
  - exists 0%nat, x. split; [lia | done].
  - specialize (IH (k + 1)). destruct (find_slot f (k + 1) l) as [i |].
    + destruct IH as (n & y & -> & Hn & Hy). exists (S n), y. split; [lia | done].
    + intros [| n] y; cbn; [by intros [= <-] | apply IH].
Qed.

(** A bind that succeeds replaces the one slot with its prefix, or takes a free
    one when there is none. *)
Lemma bind_cases ns pre root mode ns' :
  ns_bind ns pre root mode = (Errno.EMBK_OK, ns') ->
  rd pre 0 = SLASH /\ zlen pre < NS_PREFIX_MAX /\ active ns' = true
  /\ exists i old, bindings ns !! i = Some old /\ bindings ns' = <[i := mkBinding pre root mode true]> (bindings ns)
     /\ ((b_used old = true /\ prefix old = pre)
         \/ (b_used old = false /\ forall j b, bindings ns !! j = Some b -> b_used b = true -> prefix b <> pre)).
Proof.
  unfold ns_bind. destruct (Z.eqb_spec (rd pre 0) SLASH) as [Hs |]; [| done]. destruct (Z.leb_spec NS_PREFIX_MAX (zlen pre)) as [| Hl]; [done |]. cbn [negb].
  pose proof (find_slot_spec (fun b => b_used b && streq (prefix b) pre) 0 (bindings ns)) as S1.
  destruct (find_slot (fun b => b_used b && streq (prefix b) pre) 0 (bindings ns)) as [i |].
  - destruct S1 as (n & x & -> & Hx & [Hu Hp]%andb_true_iff). intros [= <-]. split; [done |]. split; [done |]. split; [done |]. exists n, x. cbn [bindings].
    unfold wr. rewrite Z.add_0_l, Nat2Z.id. split; [done |]. split; [done |]. left. split; [done |]. by apply bool_decide_eq_true in Hp.
  - pose proof (find_slot_spec (fun b => negb (b_used b)) 0 (bindings ns)) as S2.
    destruct (find_slot (fun b => negb (b_used b)) 0 (bindings ns)) as [i |]; [| done].
    destruct S2 as (n & x & -> & Hx & Hu%negb_true_iff). intros [= <-]. split; [done |]. split; [done |]. split; [done |]. exists n, x. cbn [bindings].
    unfold wr. rewrite Z.add_0_l, Nat2Z.id. split; [done |]. split; [done |]. right. split; [done |].
    intros j b Hj Hb Hp. specialize (S1 j b Hj). rewrite Hb in S1. unfold streq in S1. by rewrite bool_decide_eq_true_2 in S1.
Qed.

Section Bind.
Context (ns ns' : namespace) (pre : list Z) (root : vnode) (mode : Z).
Context (N : ns_ok ns) (B : ns_bind ns pre root mode = (Errno.EMBK_OK, ns')).
Local Abbreviation fresh_binding := (mkBinding pre root mode true).

(** The used bindings afterwards: the new one, and the old ones with another
    prefix. *)
Lemma bind_elem b : b ∈ bindings ns' /\ b_used b = true <-> b = fresh_binding \/ (b ∈ bindings ns /\ b_used b = true /\ prefix b <> pre).
Proof.
  destruct (bind_cases _ _ _ _ _ B) as (_ & _ & _ & i & old & Hi & -> & Hold). pose proof (lookup_lt_Some _ _ _ Hi) as Hl. split.
  - intros [Hb Hu]. apply list_elem_of_lookup in Hb as [j Hj]. destruct (decide (i = j)) as [<- | Hne].
    + rewrite list_lookup_insert_eq in Hj by done. injection Hj as <-. by left.
    + rewrite list_lookup_insert_ne in Hj by done. right. split; [by apply list_elem_of_lookup_2 in Hj |]. split; [done |]. intros E.
      destruct Hold as [[Ho Hp] | [Ho Hno]]; [| by apply (Hno j b Hj Hu)]. apply Hne. apply (no_dup _ N i j old b); congruence.
  - intros [-> | (Hb & Hu & Hp)].
    + split; [| done]. apply (list_elem_of_lookup_2 _ i). by rewrite list_lookup_insert_eq.
    + split; [| done]. apply list_elem_of_lookup in Hb as [j Hj]. apply (list_elem_of_lookup_2 _ j).
      rewrite list_lookup_insert_ne; [done |]. intros <-. destruct Hold as [[Ho Hpo] | [Ho _]]; congruence.
Qed.

Lemma bind_ok : ns_ok ns'.
Proof.
  destruct (bind_cases _ _ _ _ _ B) as (_ & _ & _ & i & old & Hi & E & Hold). pose proof (lookup_lt_Some _ _ _ Hi) as Hl.
  split; [rewrite E, length_insert; apply N |]. rewrite E.
  assert (forall j b, i <> j -> bindings ns !! j = Some b -> b_used b = true -> prefix b <> pre) as Hother.
  { intros j b Hne Hj Hu Hp. destruct Hold as [[Ho Hpo] | [Ho Hno]]; [| by apply (Hno j b Hj Hu)]. apply Hne. apply (no_dup _ N i j old b); congruence. }
  intros j k b b' Hj Hk Hu Hu' Hp. destruct (decide (i = j)) as [<- | Hnj], (decide (i = k)) as [<- | Hnk]; [done | | |].
  - rewrite list_lookup_insert_eq in Hj by done. rewrite list_lookup_insert_ne in Hk by done. injection Hj as <-. by destruct (Hother k b' Hnk Hk Hu').
  - rewrite list_lookup_insert_ne in Hj by done. rewrite list_lookup_insert_eq in Hk by done. injection Hk as <-. by destruct (Hother j b Hnj Hj Hu).
  - rewrite list_lookup_insert_ne in Hj, Hk by done. by apply (no_dup _ N j k b b').
Qed.

(** An old answer stands unless the new prefix names the path and is at least as
    long. *)
Lemma bind_keeps path b :
  answers ns path b -> (covers pre path -> zlen pre < zlen (prefix b)) -> answers ns' path b.
Proof.
  intros (Hb & Hu & Hc & Hm) Hlt.
  assert (prefix b <> pre) as Hne by (intros E; rewrite E in Hc, Hlt; specialize (Hlt Hc); lia).
  destruct (proj2 (bind_elem b)) as [Hb' _]; [right; done |]. split; [done |]. split; [done |]. split; [done |].
  intros b' Hi Hui Hci. destruct (proj1 (bind_elem b') (conj Hi Hui)) as [-> | (Hi' & Hui' & _)]; [cbn in *; specialize (Hlt Hci); lia | by apply Hm].
Qed.

Lemma bind_takes path :
  covers pre path -> (forall b, answers ns path b -> zlen (prefix b) <= zlen pre) -> c_str path -> rd path 0 = SLASH -> answers ns' path fresh_binding.
Proof.
  intros Hc Hold Hn Hp. destruct (proj2 (bind_elem fresh_binding)) as [Hb Hu]; [by left |]. split; [done |]. split; [done |]. split; [done |].
  intros b' Hi Hui Hci. destruct (proj1 (bind_elem b') (conj Hi Hui)) as [-> | (Hi' & Hui' & _)]; [done |]. cbn [prefix].
  pose proof (lookup_cases ns path Hn Hp) as L. destruct (ns_lookup ns path) as [[[r len] m] | e].
  - destruct L as (b & A & _). specialize (Hold b A). destruct A as (_ & _ & _ & Hm). specialize (Hm b' Hi' Hui' Hci). lia.
  - destruct L as [_ L]. by destruct (L b' Hi' Hui' Hci).
Qed.
End Bind.

(** Binding a prefix changes exactly the paths it names and that no longer
    prefix answers for: those now start at the bound object with the bound mode,
    every other path resolves as before, and no prefix is ever bound twice. *)
Theorem ns_bind_exact ns pre root mode ns' path :
  ns_ok ns -> ns_bind ns pre root mode = (Errno.EMBK_OK, ns') -> c_str path -> rd path 0 = SLASH ->
  ns_ok ns'
  /\ ns_lookup ns' path =
     (if negb (ns_prefix_match path pre =? 0)
         && match ns_lookup ns path with inl (_, len, _) => len <=? zlen pre | inr _ => true end
      then inl (root, zlen pre, mode) else ns_lookup ns path).
Proof.
  intros N B Hn Hp. pose proof (bind_ok _ _ _ _ _ N B) as N'. split; [done |].
  pose proof (lookup_cases ns path Hn Hp) as L. destruct (Z.eqb_spec (ns_prefix_match path pre) 0) as [E0 | E0]; cbn [negb andb].
  - assert (~ covers pre path) as Hnc by (intros Hc; destruct (covers_match _ _ Hc); lia).
    destruct (ns_lookup ns path) as [[[r len] m] | e] eqn:El.
    + destruct L as (b & A & -> & -> & ->). apply (lookup_answers ns' path b N' Hn Hp), (bind_keeps ns ns' pre root mode N B path b A). tauto.
    + destruct L as [-> L]. pose proof (lookup_cases ns' path Hn Hp) as L'. destruct (ns_lookup ns' path) as [[[r len] m] | e']; [| by destruct L' as [-> _]].
      destruct L' as (b & (Hb & Hu & Hc & _) & _). exfalso.
      destruct (proj1 (bind_elem _ _ _ _ _ N B b) (conj Hb Hu)) as [-> | (Hb' & Hu' & _)]; [done | by apply (L b Hb' Hu')].
  - pose proof (match_covers _ _ Hn E0) as Hc. destruct (ns_lookup ns path) as [[[r len] m] | e] eqn:El.
    + destruct L as (b & A & -> & -> & ->). destruct (Z.leb_spec (zlen (prefix b)) (zlen pre)).
      * rewrite (lookup_answers ns' path (mkBinding pre root mode true) N' Hn Hp); [done |]. apply (bind_takes ns ns' pre root mode N B); try done.
        intros b' A'. by rewrite (answers_unique ns path b' b N A' A).
      * apply (lookup_answers ns' path b N' Hn Hp). by apply (bind_keeps ns ns' pre root mode N B path b A).
    + rewrite (lookup_answers ns' path (mkBinding pre root mode true) N' Hn Hp); [done |]. apply (bind_takes ns ns' pre root mode N B); try done.
      intros b (Hb & Hu & Hcb & _). destruct L as [_ L]. by destruct (L b Hb Hu Hcb).
Qed.

Lemma empty_ns_ok : ns_ok empty_ns.
Proof. split; [done |]. intros i j b b' Hi _ Hu. apply lookup_replicate in Hi as [-> _]. done. Qed.

Lemma ns_bind_exact_witness :
  ns_bind empty_ns (str "/data"%string) null_vnode NS_MODE_RW
    = (Errno.EMBK_OK, snd (ns_bind empty_ns (str "/data"%string) null_vnode NS_MODE_RW))
  /\ ns_lookup (snd (ns_bind empty_ns (str "/data"%string) null_vnode NS_MODE_RW)) (str "/data/x"%string) = inl (null_vnode, 5, NS_MODE_RW).
Proof.
  split; [vm_compute; reflexivity |].
  destruct (ns_bind_exact empty_ns (str "/data"%string) null_vnode NS_MODE_RW (snd (ns_bind empty_ns (str "/data"%string) null_vnode NS_MODE_RW)) (str "/data/x"%string))
    as [_ E]; [exact empty_ns_ok | vm_compute; reflexivity | vm_compute; repeat constructor; done | vm_compute; reflexivity |].
  transitivity (if negb (ns_prefix_match (str "/data/x"%string) (str "/data"%string) =? 0) && true then @inl (vnode * Z * Z) Z (null_vnode, 5, NS_MODE_RW) else inr 0);
    [exact E | vm_compute; reflexivity].
Defined.

(** ** Writing *)

Lemma find_mount_in {F} path best (g : list (vfs_mount F)) m :
  find_mount_from path best g = Some m -> best = Some m \/ (m ∈ g /\ m_used m = true /\ vfs_mount_is_prefix path (m_at m) = true).
Proof.
  revert best. induction g as [| x g IH]; intros best; cbn [find_mount_from]; [by left |].
  destruct (negb (m_used x) || negb (vfs_mount_is_prefix path (m_at x))) eqn:E.
  - intros [H | (H1 & H2)]%IH; [by left | right; split; [by right | done]].
  - apply orb_false_iff in E as [E1%negb_false_iff E2%negb_false_iff]. intros [H | (H1 & H2)]%IH; [| right; split; [by right | done]].
    destruct (match best with Some b => _ | None => true end); [| by left]. injection H as <-. right. split; [left | done].
Qed.

(** Where the walk of a namespaced process begins: the bound object, or the root
    of a file system mounted deeper on the path. *)
Definition begins {F} (g : list (vfs_mount F)) (path : list Z) (b : ns_binding) (root : vnode) : Prop :=
  root = b_root b
  \/ exists m, m ∈ g /\ m_used m = true /\ vfs_mount_is_prefix path (m_at m) = true /\ zlen (prefix b) < zlen (m_at m) /\ root = m_root m.

Lemma resolve_grant {F} (g : list (vfs_mount F)) fs ns path v mode :
  active ns = true -> c_str path -> vfs_resolve_ex g fs (Some ns) path = Some (inl (v, mode)) ->
  exists b root, answers ns path b /\ mode = b_mode b /\ begins g path b root /\ below g fs root v /\ ns_lookup ns path = inl (b_root b, zlen (prefix b), mode).
Proof.
  intros Ha Hn. unfold vfs_resolve_ex. destruct (Z.eqb_spec (rd path 0) SLASH) as [Hp |]; [| done]. cbn [negb in_force]. rewrite Ha.
  pose proof (lookup_cases ns path Hn Hp) as L. destruct (ns_lookup ns path) as [[[root plen] mo] | e]; [| done].
  destruct L as (b & A & -> & -> & ->).
  destruct (match vfs_find_mount path g with Some deeper => _ | None => _ end) as [root plen] eqn:Er.
  assert (begins g path b root) as Hb.
  { unfold vfs_find_mount in Er. destruct (find_mount_from path None g) as [m |] eqn:Em; [| by left; injection Er].
    destruct (Z.ltb_spec (zlen (prefix b)) (zlen (m_at m))); [| by left; injection Er]. injection Er as <- <-.
    apply find_mount_in in Em as [? | (H1 & H2 & H3)]; [done |]. right. by exists m. }
  unfold vfs_walk_from. intros E. exists b, root. destruct (vfs_walk_from_ex g fs root (drop (Z.to_nat plen) path) true) as [[w | e] |] eqn:Ew; [| done..].
  injection E as -> <-. split; [done |]. split; [done |]. split; [done |]. split; [| done].
  by apply (walk_from_below g fs root (drop (Z.to_nat plen) path) true).
Qed.

Lemma resolve_ex_of {F} (g : list (vfs_mount F)) fs cur path v :
  vfs_resolve g fs cur path = Some (inl v) -> exists mode, vfs_resolve_ex g fs cur path = Some (inl (v, mode)).
Proof. unfold vfs_resolve. destruct (vfs_resolve_ex g fs cur path) as [[[w mode] | e] |]; cbn; intros [= ->]. by exists mode. Qed.

(** C21. A process with a namespace changes a file system only through a binding:
    when a write has any effect, the longest prefix naming the path is one that
    was granted writable, and the object written lies below the object bound
    there, or below the root of a file system mounted deeper on that path. *)
Theorem vfs_write_needs_grant {F} (g : list (vfs_mount F)) ns path off buf fs r fs' :
  active ns = true -> c_str path -> vfs_write g (Some ns) path off buf fs = Some (r, fs') -> fs' <> fs ->
  exists b root v write,
    b ∈ bindings ns /\ b_used b = true /\ b_mode b <> NS_MODE_RO /\ covers (prefix b) path
    /\ (forall b', b' ∈ bindings ns -> b_used b' = true -> covers (prefix b') path -> zlen (prefix b') <= zlen (prefix b))
    /\ begins g path b root /\ below g fs root v
    /\ ops_of g v ≫= op_write = Some write /\ write v off buf fs = (r, fs').
Proof.
  intros Ha Hn Hw Hne. unfold vfs_write in Hw. destruct (Z.eqb_spec (ns_check_writable (Some ns) path) Errno.EMBK_OK) as [Hok |]; [| by injection Hw].
  cbn [negb] in Hw. destruct (vfs_resolve g fs (Some ns) path) as [[v | e] |] eqn:Er; [| by injection Hw | done].
  destruct (resolve_ex_of _ _ _ _ _ Er) as [mode Ex]. destruct (resolve_grant g fs ns path v mode Ha Hn Ex) as (b & root & A & -> & Hb & Hv & El).
  destruct A as (H1 & H2 & H3 & H4).
  assert (b_mode b <> NS_MODE_RO) as Hm.
  { intros E. unfold ns_check_writable in Hok. rewrite Ha, El, E in Hok. done. }
  destruct (ops_of g v ≫= op_write) as [write |] eqn:Eo; [| by injection Hw]. injection Hw as Hw. by exists b, root, v, write.
Qed.

Lemma vfs_write_needs_grant_witness :
  vfs_write Demo.mounts (Some Demo.sealed) (str "/data"%string) 0 [1] [] = Some (inl 1, [2])
  /\ exists b, b ∈ bindings Demo.sealed /\ b_mode b <> NS_MODE_RO.
Proof.
  assert (vfs_write Demo.mounts (Some Demo.sealed) (str "/data"%string) 0 [1] [] = Some (inl 1, [2])) as E by (vm_compute; reflexivity).
  split; [exact E |].
  destruct (vfs_write_needs_grant Demo.mounts Demo.sealed (str "/data"%string) 0 [1] [] (inl 1) [2]) as (b & _ & _ & _ & Hb & _ & Hm & _);
    [vm_compute; reflexivity | vm_compute; repeat constructor; done | exact E | discriminate |].
  exists b. split; [exact Hb | exact Hm].
Defined.

(** ** Narrowing *)

(** A binding that the parent could resolve, no wider than the parent's. *)
Definition granted {F} (g : list (vfs_mount F)) (fs : F) (parent : namespace) (b : ns_binding) : Prop :=
  c_str (prefix b) /\ exists pmode, vfs_resolve_ex g fs (Some parent) (prefix b) = Some (inl (b_root b, pmode)) /\ (b_mode b = NS_MODE_RO \/ pmode <> NS_MODE_RO).

Lemma bind_actions_granted {F} (g : list (vfs_mount F)) fs parent actions ns child :
  Forall (fun a => c_str (fst a)) actions -> ns_ok ns -> (forall b, b ∈ bindings ns -> b_used b = true -> granted g fs parent b) ->
  bind_actions g fs (Some parent) actions ns = Some (inl child) ->
  ns_ok child /\ forall b, b ∈ bindings child -> b_used b = true -> granted g fs parent b.
Proof.
  intros Hc. revert ns. induction Hc as [| [path fl] actions Hp Hc IH]; intros ns N G; cbn [bind_actions]; [by intros [= <-] |]. cbn in Hp.
  destruct (vfs_resolve_ex g fs (Some parent) path) as [[[vn pmode] | e] |] eqn:Er; [| done..].
  set (granted_mode := if pmode =? NS_MODE_RO then NS_MODE_RO else _). destruct (ns_bind ns path vn granted_mode) as [br ns1] eqn:Eb.
  destruct (Z.eqb_spec br Errno.EMBK_OK) as [-> |]; [| done]. cbn [negb]. apply IH.
  - exact (bind_ok ns ns1 path vn granted_mode N Eb).
  - intros b Hb Hu. destruct (proj1 (bind_elem ns ns1 path vn granted_mode N Eb b) (conj Hb Hu)) as [-> | (Hb' & Hu' & _)]; [| by apply G].
    split; [done |]. exists pmode. split; [done |]. cbn [b_mode]. unfold granted_mode. destruct (Z.eqb_spec pmode NS_MODE_RO); [by left | by right].
Qed.

(** C22. A process that narrows the namespace of a child grants only what it can
    name: every binding of the child is an object the parent itself resolves at
    that prefix, writable only where the parent's own answer for that prefix is
    not read-only, and whatever path the child can name the parent can name
    too. *)
Theorem spawn_narrows {F} (g : list (vfs_mount F)) fs parent actions child :
  active parent = true -> actions <> [] -> Forall (fun a => c_str (fst a)) actions ->
  spawn_namespace g fs (Some parent) actions = Some (inl child) ->
  (forall b, b ∈ bindings child -> b_used b = true ->
     exists pmode, vfs_resolve_ex g fs (Some parent) (prefix b) = Some (inl (b_root b, pmode)) /\ (b_mode b = NS_MODE_RO \/ pmode <> NS_MODE_RO))
  /\ (forall path x, c_str path -> ns_lookup child path = inl x -> exists y, ns_lookup parent path = inl y).
Proof.
  intros Ha Hne Hc Hs. unfold spawn_namespace in Hs. destruct actions as [| a actions]; [done |].
  destruct (bind_actions_granted g fs parent (a :: actions) empty_ns child Hc empty_ns_ok) as [N G]; [| done |].
  { intros b Hb Hu. apply list_elem_of_lookup in Hb as [i Hi]. apply lookup_replicate in Hi as [-> _]. done. }
  split; [intros b Hb Hu; apply (G b Hb Hu) |]. intros path x Hn Hx.
  assert (rd path 0 = SLASH) as Hp by (unfold ns_lookup in Hx; by destruct (Z.eqb_spec (rd path 0) SLASH)).
  pose proof (lookup_cases child path Hn Hp) as L. rewrite Hx in L. destruct x as [[root len] mode]. destruct L as (b & (Hb & Hu & Hcov & _) & _).
  destruct (G b Hb Hu) as (Hcs & pmode & Er & _). destruct (resolve_grant g fs parent (prefix b) _ _ Ha Hcs Er) as (b2 & _ & (Hb2 & Hu2 & Hcov2 & _) & _).
  pose proof (lookup_cases parent path Hn Hp) as L2. destruct (ns_lookup parent path) as [y | e]; [by exists y |].
  destruct L2 as [_ L2]. by destruct (L2 b2 Hb2 Hu2 (covers_trans _ _ _ Hcov2 Hcov)).
Qed.

Lemma spawn_narrows_witness :
  exists child, spawn_namespace Demo.mounts [] (Some Demo.sealed) [(str "/system"%string, NS_MODE_RW)] = Some (inl child)
  /\ exists y, ns_lookup Demo.sealed (str "/system/x"%string) = inl y.
Proof.
  eexists. split; [vm_compute; reflexivity |].
  destruct (spawn_narrows Demo.mounts [] Demo.sealed [(str "/system"%string, NS_MODE_RW)]
    (match spawn_namespace Demo.mounts [] (Some Demo.sealed) [(str "/system"%string, NS_MODE_RW)] with Some (inl c) => c | _ => empty_ns end)) as [_ H];
    [vm_compute; reflexivity | discriminate | repeat constructor; vm_compute; discriminate | vm_compute; reflexivity |].
  apply (H (str "/system/x"%string) (Demo.at_root 3 VFS_DT_DIR, 7, NS_MODE_RO)); [vm_compute; repeat constructor; discriminate | vm_compute; reflexivity].
Defined.

(** ** Where read-only does not hold *)

(** The read-only marking is looked up in the text of the path, the object is
    found by walking it: the sealed [/system] refuses a write to [/system/x], and
    accepts it for the same object spelled with a doubled slash, through [..], or
    through a symbolic link. *)
Theorem sealed_prefix_bypassed :
  let write path := vfs_write Demo.mounts (Some Demo.sealed) path 0 [1] [] in
  write (str "/system/x"%string) = Some (inr (- Errno.EMBK_EROFS), [])
  /\ write (str "//system/x"%string) = Some (inl 1, [5])
  /\ write (str "/data/../system/x"%string) = Some (inl 1, [5])
  /\ write (str "/data/up/x"%string) = Some (inl 1, [5]).
Proof. vm_compute. split_and!; reflexivity. Qed.

(** Narrowing forgets the read-only parts: a parent that cannot write
    [/system] spawns a child with the single binding [/], which it may grant
    writable, and the child can. *)
Theorem spawn_unseals :
  exists child, spawn_namespace Demo.mounts [] (Some Demo.sealed) [([SLASH], NS_MODE_RW)] = Some (inl child)
  /\ vfs_write Demo.mounts (Some Demo.sealed) (str "/system/x"%string) 0 [1] [] = Some (inr (- Errno.EMBK_EROFS), [])
  /\ vfs_write Demo.mounts (Some child) (str "/system/x"%string) 0 [1] [] = Some (inl 1, [5]).
Proof. eexists. split; [vm_compute; reflexivity |]. split; vm_compute; reflexivity. Qed.
