(* ===== verification/Block.v ===== *)
(** * The block layer ([kernel/block/block.c])

    The table of devices, and reads and writes of whole blocks.  A buffer the
    controller cannot reach goes through one shared buffer, piece by piece.

    A device is named by the address of its structure, which its driver owns.
    The drivers are the class below, on a state of their own.  The shared
    buffer is under a sleeping lock for the whole of a transfer, so a transfer
    is one step; the times and the contention of [blkstat] are left out. *)

From S2P Require Import Prelude Bytes.

Definition BLOCK_MAX_DEVICES : Z := 16.
Definition BOUNCE_BYTES : Z := 64 * 512.          (* sizeof(block_bounce) *)
Definition KERNEL_BASE : Z := 0xFFFFFFFF80000000. (* KERNEL_VIRTUAL_BASE *)

Record device := mkDev {
  d_name : list Z;             (* up to the NUL *)
  d_block_count : Z;
  d_block_size : Z;
  d_read : bool;               (* the operation is there *)
  d_write : bool;
  d_flush : bool;
  d_dma_max_phys : Z;
  d_needs_kernel_range : bool;
}.

Record identity := mkIdent { i_transport : list Z; i_model : list Z; i_serial : list Z }.
Definition no_identity : identity := mkIdent [] [] [].

(** [dev->read], [dev->write] and [dev->flush]: the result, and what a read left
    in its buffer. *)
Class Drivers (A : Type) := {
  drv_read : Z -> Z -> Z -> A -> Z * list Z * A;
  drv_write : Z -> Z -> Z -> list Z -> A -> Z * A;
  drv_flush : Z -> A -> Z * A;
}.

Section Block.
Context {A : Type} `{Drivers A}.

Record blocks := mkBlocks {
  devs : gmap Z device;        (* the structures of the drivers *)
  devices : list Z;
  identities : list identity;
  disk_letters : Z;
  st_reads : Z;
  st_read_blocks : Z;
  st_bounce_reads : Z;
  st_bounce_writes : Z;
  drv : A;
}.

Definition set_drv (s : blocks) x := mkBlocks (devs s) (devices s) (identities s) (disk_letters s) (st_reads s) (st_read_blocks s) (st_bounce_reads s) (st_bounce_writes s) x.
Definition set_table (s : blocks) x y := mkBlocks (devs s) x y (disk_letters s) (st_reads s) (st_read_blocks s) (st_bounce_reads s) (st_bounce_writes s) (drv s).
Definition set_name (s : blocks) x y := mkBlocks x (devices s) (identities s) y (st_reads s) (st_read_blocks s) (st_bounce_reads s) (st_bounce_writes s) (drv s).
Definition count_read (s : blocks) (n : Z) :=
  mkBlocks (devs s) (devices s) (identities s) (disk_letters s) (!64 (st_reads s + 1)) (!64 (st_read_blocks s + n)) (st_bounce_reads s) (st_bounce_writes s) (drv s).
Definition count_bounce_read (s : blocks) :=
  mkBlocks (devs s) (devices s) (identities s) (disk_letters s) (st_reads s) (st_read_blocks s) (!64 (st_bounce_reads s + 1)) (st_bounce_writes s) (drv s).
Definition count_bounce_write (s : blocks) :=
  mkBlocks (devs s) (devices s) (identities s) (disk_letters s) (st_reads s) (st_read_blocks s) (st_bounce_reads s) (!64 (st_bounce_writes s + 1)) (drv s).

Definition embk_blkstat_reset (s : blocks) := mkBlocks (devs s) (devices s) (identities s) (disk_letters s) 0 0 0 0 (drv s).

(** ** The table *)

Definition device_count (s : blocks) : Z := Z.of_nat (length (devices s)).

(** At most [cap - 1] characters, the unprintable ones as [?], no spaces at the end. *)
Fixpoint trim (l : list Z) : list Z :=
  match l with
  | [] => []
  | c :: l => match trim l with [] => if c =? 32 then [] else [c] | t => c :: t end
  end.
Definition identity_string (cap : Z) (text : list Z) : list Z :=
  trim ((fun c => if (32 <=? c) && (c <? 127) then c else 63) <$> take (Z.to_nat (cap - 1)) text).

(** The first place of a device in the table. *)
Fixpoint index_of (dev : Z) (l : list Z) : option nat :=
  match l with
  | [] => None
  | x :: l => if x =? dev then Some O else S <$> index_of dev l
  end.

Definition embk_block_set_identity (s : blocks) (dev : Z) (transport model serial : list Z) : blocks :=
  match index_of dev (devices s) with
  | Some i => set_table s (devices s) (<[i := mkIdent (identity_string 12 transport) (identity_string 41 model) (identity_string 21 serial)]> (identities s))
  | None => s
  end.

Definition embk_block_identity (s : blocks) (dev : Z) : option identity := i ← index_of dev (devices s); identities s !! i.

Definition embk_block_register (s : blocks) (dev : Z) : Z * blocks :=
  if BLOCK_MAX_DEVICES <=? device_count s then (- Errno.EMBK_ENOMEM, s)
  else
    match (if dev =? 0 then None else devs s !! dev) with
    | None => (- Errno.EMBK_EINVAL, s)
    | Some d =>
        if negb (d_read d) then (- Errno.EMBK_EINVAL, s)
        else
          let s :=
            match d_name d with
            | [] => set_name s (<[dev := mkDev [115; 100; !8 (97 + disk_letters s)] (d_block_count d) (d_block_size d) (d_read d) (d_write d) (d_flush d) (d_dma_max_phys d) (d_needs_kernel_range d)]> (devs s))
                             (!32 (disk_letters s + 1))
            | _ => s
            end in
          (Errno.EMBK_OK, set_table s (devices s ++ [dev]) (identities s ++ [no_identity]))
    end.

Definition embk_block_unregister (s : blocks) (dev : Z) : Z * blocks :=
  if dev =? 0 then (- Errno.EMBK_EINVAL, s)
  else
    match index_of dev (devices s) with
    | Some i => (Errno.EMBK_OK, set_table s (delete i (devices s)) (delete i (identities s)))
    | None => (- Errno.EMBK_ENODEV, s)
    end.

Definition embk_block_get (s : blocks) (index : Z) : option Z :=
  if device_count s <=? index then None else devices s !! Z.to_nat index.

Definition name_of (s : blocks) (dev : Z) : list Z := match devs s !! dev with Some d => d_name d | None => [] end.

Definition embk_block_get_by_name (s : blocks) (name : list Z) : option Z :=
  head (filter (fun dev => name_of s dev = name) (devices s)).

(** ** Transfers *)

Definition buffer_dma_ok (d : device) (buf : Z) : bool :=
  negb (d_needs_kernel_range d && (buf <? KERNEL_BASE)) && (!64 (buf - KERNEL_BASE) <=? d_dma_max_phys d).

Definition out_of_range (d : device) (lba count : Z) : bool := (d_block_count d <? lba) || (d_block_count d - lba <? count).

(** Piece by piece; what has been copied so far comes first.  [None] is out of fuel. *)
Fixpoint bounce_read (fuel : nat) (dev bs max_blocks lba count : Z) (dst : list Z) (s : blocks) : option (Z * list Z * blocks) :=
  if count =? 0 then Some (Errno.EMBK_OK, dst, s)
  else
    match fuel with
    | O => None
    | S fuel =>
        let chunk := if max_blocks <? count then max_blocks else count in
        let s := count_read s chunk in
        let '(rc, l, d) := drv_read dev lba chunk (drv s) in
        let s := set_drv s d in
        if negb (rc =? Errno.EMBK_OK) then Some (rc, dst, s)
        else bounce_read fuel dev bs max_blocks (!64 (lba + chunk)) (count - chunk) (dst ++ take (Z.to_nat (chunk * bs)) l) s
    end.

Fixpoint bounce_write (fuel : nat) (dev bs max_blocks lba count : Z) (src : list Z) (s : blocks) : option (Z * blocks) :=
  if count =? 0 then Some (Errno.EMBK_OK, s)
  else
    match fuel with
    | O => None
    | S fuel =>
        let chunk := if max_blocks <? count then max_blocks else count in
        let '(rc, d) := drv_write dev lba chunk (take (Z.to_nat (chunk * bs)) src) (drv s) in
        let s := set_drv s d in
        if negb (rc =? Errno.EMBK_OK) then Some (rc, s)
        else bounce_write fuel dev bs max_blocks (!64 (lba + chunk)) (count - chunk) (drop (Z.to_nat (chunk * bs)) src) s
    end.

(** [buf] is the address of the buffer; what is in it comes back, or is [src]. *)
Definition embk_block_read (fuel : nat) (s : blocks) (dev lba count buf : Z) : option (Z * list Z * blocks) :=
  match (if dev =? 0 then None else devs s !! dev) with
  | None => Some (- Errno.EMBK_ENODEV, [], s)
  | Some d =>
      if negb (d_read d) then Some (- Errno.EMBK_ENODEV, [], s)
      else if buf =? 0 then Some (- Errno.EMBK_EFAULT, [], s)
      else if count =? 0 then Some (Errno.EMBK_OK, [], s)
      else if out_of_range d lba count then Some (- Errno.EMBK_ERANGE, [], s)
      else if buffer_dma_ok d buf then
        let s := count_read s count in
        let '(rc, l, x) := drv_read dev lba count (drv s) in Some (rc, l, set_drv s x)
      else bounce_read fuel dev (d_block_size d) (BOUNCE_BYTES / d_block_size d) lba count [] (count_bounce_read s)
  end.

Definition embk_block_write (fuel : nat) (s : blocks) (dev lba count buf : Z) (src : list Z) : option (Z * blocks) :=
  match (if dev =? 0 then None else devs s !! dev) with
  | None => Some (- Errno.EMBK_ENODEV, s)
  | Some d =>
      if negb (d_write d) then Some (- Errno.EMBK_ENODEV, s)
      else if buf =? 0 then Some (- Errno.EMBK_EFAULT, s)
      else if count =? 0 then Some (Errno.EMBK_OK, s)
      else if out_of_range d lba count then Some (- Errno.EMBK_ERANGE, s)
      else if buffer_dma_ok d buf then
        let '(rc, x) := drv_write dev lba count src (drv s) in Some (rc, set_drv s x)
      else bounce_write fuel dev (d_block_size d) (BOUNCE_BYTES / d_block_size d) lba count src (count_bounce_write s)
  end.

Definition embk_block_flush (s : blocks) (dev : Z) : Z * blocks :=
  match (if dev =? 0 then None else devs s !! dev) with
  | None => (- Errno.EMBK_ENODEV, s)
  | Some d => if negb (d_flush d) then (Errno.EMBK_OK, s) else let '(rc, x) := drv_flush dev (drv s) in (rc, set_drv s x)
  end.
End Block.
Arguments blocks A : clear implicits.

(** ** What the drivers promise *)

(** The media of the devices, byte by byte.  A write that fails may have changed
    the blocks it was given, and nothing else. *)
Class DriverLaws (A : Type) `{Drivers A} := {
  dr_block : Z -> Z;                   (* the block size of a device *)
  dr_byte : Z -> Z -> A -> Z;
  dr_read dev lba n d rc l d' : drv_read dev lba n d = (rc, l, d') -> 0 <= lba -> 0 < n ->
    (forall v x, dr_byte v x d' = dr_byte v x d)
    /\ (rc = Errno.EMBK_OK -> zlen l = n * dr_block dev /\ forall i, 0 <= i < n * dr_block dev -> rd l i = dr_byte dev (lba * dr_block dev + i) d);
  dr_write dev lba n l d rc d' : drv_write dev lba n l d = (rc, d') -> zlen l = n * dr_block dev -> 0 <= lba -> 0 < n ->
    (forall v x, (v = dev -> x < lba * dr_block dev \/ (lba + n) * dr_block dev <= x) -> dr_byte v x d' = dr_byte v x d)
    /\ (rc = Errno.EMBK_OK -> forall i, 0 <= i < n * dr_block dev -> dr_byte dev (lba * dr_block dev + i) d' = rd l i);
}.

Section Transfer.
Context {A : Type} `{DriverLaws A}.
Implicit Types (s : blocks A).

(** [n] bytes of a device from [off]. *)
Definition media (dev off n : Z) (d : A) : list Z := (fun i => dr_byte dev (off + i) d) <$> seqZ 0 n.

Lemma zlen_media dev off n d : 0 <= n -> zlen (media dev off n d) = n.
Proof. intros Hn. unfold zlen, media. rewrite length_fmap, length_seqZ. lia. Qed.

Lemma rd_media dev off n d i : 0 <= i < n -> rd (media dev off n d) i = dr_byte dev (off + i) d.
Proof. intros Hi. unfold rd, media. rewrite list_lookup_fmap, lookup_seqZ_lt by lia. cbn. f_equal. lia. Qed.

Lemma bytes_same l k : zlen l = zlen k -> (forall i, 0 <= i < zlen l -> rd l i = rd k i) -> l = k.
Proof.
  intros Hlen Hi. apply list_eq_same_length with (n := length l); [unfold zlen in *; lia | done |]. intros i x y Hlt Hx Hy.
  specialize (Hi (Z.of_nat i) ltac:(unfold zlen; lia)). unfold rd in Hi. by rewrite Nat2Z.id, Hx, Hy in Hi.
Qed.

Lemma media_app dev off n m d : 0 <= n -> 0 <= m -> media dev off (n + m) d = media dev off n d ++ media dev (off + n) m d.
Proof.
  intros Hn Hm. apply bytes_same; [rewrite zlen_app, !zlen_media by lia; done |]. intros i Hi. rewrite zlen_media in Hi by lia. rewrite rd_media by lia.
  pose proof (zlen_media dev off n d Hn) as Hl. destruct (decide (i < n)).
  - rewrite rd_app_l by (unfold zlen in Hl; lia). by rewrite rd_media by lia.
  - rewrite rd_app_r by (unfold zlen in Hl; lia). fold (zlen (media dev off n d)). rewrite Hl, rd_media by lia. f_equal. lia.
Qed.

Lemma media_ext dev off n d d' : (forall x, off <= x < off + n -> dr_byte dev x d' = dr_byte dev x d) -> media dev off n d' = media dev off n d.
Proof. intros E. unfold media. apply list_fmap_ext. intros i x Hx. apply lookup_seqZ in Hx as [-> ?]. apply E. lia. Qed.

(** What a driver read leaves in the buffer. *)
Lemma driver_read dev lba n d rc l d' : drv_read dev lba n d = (rc, l, d') -> 0 <= lba -> 0 < n -> 0 <= dr_block dev ->
  (forall v x, dr_byte v x d' = dr_byte v x d) /\ (rc = Errno.EMBK_OK -> l = media dev (lba * dr_block dev) (n * dr_block dev) d).
Proof.
  intros He Hl Hn Hb. destruct (dr_read _ _ _ _ _ _ _ He Hl Hn) as [Hs Hok]. split; [done |]. intros Erc. destruct (Hok Erc) as [Hlen Hi].
  apply bytes_same; [rewrite zlen_media by lia; done |]. intros i Hlt. rewrite Hi, rd_media by lia. done.
Qed.

(** Only the driver's state and the counters differ. *)
Definition same_table s s' : Prop := devs s' = devs s /\ devices s' = devices s /\ identities s' = identities s /\ disk_letters s' = disk_letters s.

Lemma bounce_read_ok dev bs max fuel : forall lba count dst s,
  bs = dr_block dev -> 0 < bs -> 1 <= max -> 0 <= lba -> 0 <= count <= Z.of_nat fuel -> lba + count < 2 ^ 64 ->
  exists rc l s', bounce_read fuel dev bs max lba count dst s = Some (rc, dst ++ l, s') /\ same_table s s' /\ (forall v x, dr_byte v x (drv s') = dr_byte v x (drv s))
    /\ (rc = Errno.EMBK_OK -> l = media dev (lba * bs) (count * bs) (drv s)) /\ zlen l <= count * bs.
Proof.
  induction fuel as [| fuel IH]; intros lba count dst s Ebs Hbs Hmax Hlba Hcount H64.
  { assert (count = 0) as -> by lia. exists Errno.EMBK_OK, [], s. rewrite app_nil_r. split_and!; try done. }
  cbn [bounce_read]. destruct (count =? 0) eqn:E0; b2p.
  { subst count. exists Errno.EMBK_OK, [], s. rewrite app_nil_r. split_and!; try done. }
  set (chunk := if max <? count then max else count). assert (Hc : 0 < chunk <= count) by (unfold chunk; case_if; lia).
  assert (Hp : 0 < chunk * bs /\ 0 <= (count - chunk) * bs /\ count * bs = chunk * bs + (count - chunk) * bs) by nia. destruct Hp as (Hp1 & Hp2 & Hp3).
  destruct (drv_read dev lba chunk (drv (count_read s chunk))) as [[rc l] d] eqn:Er. cbn in Er. destruct (driver_read _ _ _ _ _ _ _ Er Hlba ltac:(lia) ltac:(lia)) as [Hs Hok]. rewrite <- Ebs in Hok.
  destruct (rc =? Errno.EMBK_OK) eqn:Erc; b2p; cbn [negb].
  2: { eexists rc, [], _. rewrite app_nil_r. split_and!; [reflexivity | done .. | done | done | unfold zlen; cbn; lia]. }
  specialize (Hok Erc). rewrite (u64_small (lba + chunk)) by lia. assert (Hlen : zlen l = chunk * bs) by (rewrite Hok, zlen_media; lia).
  rewrite (take_ge l) by (unfold zlen in Hlen; lia).
  destruct (IH (lba + chunk) (count - chunk) (dst ++ l) (set_drv (count_read s chunk) d)) as (rc' & l' & s' & E & T & Hm & Hok' & Hl'); try done; [lia | lia | lia |].
  exists rc', (l ++ l'), s'. rewrite E, <- app_assoc. split_and!; try done; [by intros v x; rewrite Hm, <- Hs | | rewrite zlen_app; lia].
  intros Erc'. rewrite (Hok' Erc'), Hok. rewrite Hp3, media_app by lia. f_equal.
  replace ((lba + chunk) * bs) with (lba * bs + chunk * bs) by lia. apply media_ext. intros x _. apply Hs.
Qed.

(** The other devices, and this one outside the blocks. *)
Definition outside (dev off n : Z) (d d' : A) : Prop := forall v x, (v = dev -> x < off \/ off + n <= x) -> dr_byte v x d' = dr_byte v x d.

Lemma bounce_write_ok dev bs max fuel : forall lba count src s,
  bs = dr_block dev -> 0 < bs -> 1 <= max -> 0 <= lba -> 0 <= count <= Z.of_nat fuel -> lba + count < 2 ^ 64 -> zlen src = count * bs ->
  exists rc s', bounce_write fuel dev bs max lba count src s = Some (rc, s') /\ same_table s s' /\ outside dev (lba * bs) (count * bs) (drv s) (drv s')
    /\ (rc = Errno.EMBK_OK -> media dev (lba * bs) (count * bs) (drv s') = src).
Proof.
  induction fuel as [| fuel IH]; intros lba count src s Ebs Hbs Hmax Hlba Hcount H64 Hlen.
  { assert (count = 0) as -> by lia. exists Errno.EMBK_OK, s. split_and!; try done. intros _. destruct src; [done | unfold zlen in Hlen; cbn in Hlen; lia]. }
  cbn [bounce_write]. destruct (count =? 0) eqn:E0; b2p.
  { subst count. exists Errno.EMBK_OK, s. split_and!; try done. intros _. destruct src; [done | unfold zlen in Hlen; cbn in Hlen; lia]. }
  set (chunk := if max <? count then max else count). assert (Hc : 0 < chunk <= count) by (unfold chunk; case_if; lia).
  assert (Hp : 0 < chunk * bs /\ 0 <= (count - chunk) * bs /\ count * bs = chunk * bs + (count - chunk) * bs /\ (lba + chunk) * bs = lba * bs + chunk * bs) by nia. destruct Hp as (Hp1 & Hp2 & Hp3 & Hp4).
  set (piece := take (Z.to_nat (chunk * bs)) src). assert (Hl1 : zlen piece = chunk * bs) by (unfold piece, zlen in *; rewrite length_take; lia).
  set (rest := drop (Z.to_nat (chunk * bs)) src). assert (Hl2 : zlen rest = (count - chunk) * bs) by (unfold rest, zlen in *; rewrite length_drop; lia).
  destruct (drv_write dev lba chunk piece (drv s)) as [rc d] eqn:Ew. rewrite Ebs in Hl1. destruct (dr_write _ _ _ _ _ _ _ Ew Hl1 Hlba ltac:(lia)) as [Hout Hok]. rewrite <- Ebs in *. rewrite Hp4 in Hout.
  destruct (rc =? Errno.EMBK_OK) eqn:Erc; b2p; cbn [negb].
  2: { eexists rc, _. split_and!; [reflexivity | done .. | | done]. intros v x Hx. apply Hout. intros ->. specialize (Hx eq_refl). lia. }
  specialize (Hok Erc). rewrite (u64_small (lba + chunk)) by lia.
  destruct (IH (lba + chunk) (count - chunk) rest (set_drv s d)) as (rc' & s' & E & T & Hout' & Hok'); try done; [lia | lia | lia |]. exists rc', s'. rewrite Hp4 in Hout', Hok'.
  split_and!; [done | apply T | |].
  - intros v x Hx. rewrite Hout'; [apply Hout | ]; intros ->; specialize (Hx eq_refl); lia.
  - intros Erc'. rewrite Hp3, media_app, (Hok' Erc') by lia. rewrite <- (take_drop (Z.to_nat (chunk * bs)) src). fold piece rest. f_equal.
    apply bytes_same; [rewrite zlen_media by lia; done |]. intros i Hi. rewrite zlen_media in Hi by lia. rewrite rd_media, Hout' by lia. by apply Hok.
Qed.

(** A device the layer can use as it is meant to. *)
Definition usable s (dev : Z) (d : device) : Prop :=
  dev <> 0 /\ devs s !! dev = Some d /\ d_block_size d = dr_block dev /\ 0 < d_block_size d <= BOUNCE_BYTES /\ 0 <= d_block_count d < 2 ^ 64.

Lemma usable_chunk s dev d : usable s dev d -> 1 <= BOUNCE_BYTES / d_block_size d.
Proof. intros (_ & _ & _ & Hb & _). apply Z.div_le_lower_bound; lia. Qed.

Lemma in_range d lba count : 0 <= lba -> 0 <= count -> out_of_range d lba count = false <-> lba + count <= d_block_count d.
Proof. intros. unfold out_of_range. rewrite orb_false_iff, !Z.ltb_ge. lia. Qed.

Lemma block_read_ok fuel s dev d lba count buf : usable s dev d -> d_read d = true -> buf <> 0 -> 0 <= lba -> 0 < count <= Z.of_nat fuel -> lba + count <= d_block_count d ->
  exists rc l s', embk_block_read fuel s dev lba count buf = Some (rc, l, s') /\ same_table s s' /\ (forall v x, dr_byte v x (drv s') = dr_byte v x (drv s))
    /\ (rc = Errno.EMBK_OK -> l = media dev (lba * d_block_size d) (count * d_block_size d) (drv s)).
Proof.
  intros Hu Hr Hbuf Hlba Hc Hrng. pose proof (usable_chunk s dev d Hu) as Hmax. destruct Hu as (Hd0 & Hd & Ebs & Hbs & H64). unfold embk_block_read.
  rewrite (proj2 (Z.eqb_neq dev 0)), Hd, Hr, (proj2 (Z.eqb_neq buf 0)), (proj2 (Z.eqb_neq count 0)), (proj2 (in_range d lba count ltac:(lia) ltac:(lia))) by (done || lia). cbn [negb].
  destruct (buffer_dma_ok d buf).
  - destruct (drv_read dev lba count (drv (count_read s count))) as [[rc l] x] eqn:E. cbn in E. destruct (driver_read _ _ _ _ _ _ _ E Hlba ltac:(lia) ltac:(lia)) as [Hs Hok].
    eexists rc, l, _. split_and!; [reflexivity | done .. |]. by rewrite Ebs.
  - destruct (bounce_read_ok dev (d_block_size d) (BOUNCE_BYTES / d_block_size d) fuel lba count [] (count_bounce_read s)) as (rc & l & s' & E & T & Hs & Hok & _); try done; [lia | lia | lia |].
    exists rc, l, s'. by rewrite E.
Qed.

Lemma block_write_ok fuel s dev d lba count buf src : usable s dev d -> d_write d = true -> buf <> 0 -> 0 <= lba -> 0 < count <= Z.of_nat fuel -> lba + count <= d_block_count d ->
  zlen src = count * d_block_size d ->
  exists rc s', embk_block_write fuel s dev lba count buf src = Some (rc, s') /\ same_table s s' /\ outside dev (lba * d_block_size d) (count * d_block_size d) (drv s) (drv s')
    /\ (rc = Errno.EMBK_OK -> media dev (lba * d_block_size d) (count * d_block_size d) (drv s') = src).
Proof.
  intros Hu Hw Hbuf Hlba Hc Hrng Hlen. pose proof (usable_chunk s dev d Hu) as Hmax. destruct Hu as (Hd0 & Hd & Ebs & Hbs & H64). unfold embk_block_write.
  rewrite (proj2 (Z.eqb_neq dev 0)), Hd, Hw, (proj2 (Z.eqb_neq buf 0)), (proj2 (Z.eqb_neq count 0)), (proj2 (in_range d lba count ltac:(lia) ltac:(lia))) by (done || lia). cbn [negb].
  destruct (buffer_dma_ok d buf).
  - destruct (drv_write dev lba count src (drv s)) as [rc x] eqn:E. rewrite Ebs in Hlen. destruct (dr_write _ _ _ _ _ _ _ E Hlen Hlba ltac:(lia)) as [Hout Hok]. rewrite <- Ebs in *.
    eexists rc, _. split_and!; [reflexivity | done .. | |].
    + intros v y Hy. apply Hout. intros ->. specialize (Hy eq_refl). nia.
    + intros Erc. apply bytes_same; [rewrite zlen_media; nia |]. intros i Hi. rewrite zlen_media in Hi by nia. rewrite rd_media by lia. by apply Hok.
  - destruct (bounce_write_ok dev (d_block_size d) (BOUNCE_BYTES / d_block_size d) fuel lba count src (count_bounce_write s)) as (rc & s' & E & T & Hout & Hok); try done; [lia | lia | lia |].
    exists rc, s'. by rewrite E.
Qed.

End Transfer.

(** ** Disks: the byte at each offset of each device, in blocks of 512 *)

Definition disks : Type := Z -> Z -> Z.
Definition SECTOR : Z := 512.

#[export] Instance disk_drivers : Drivers disks := {|
  drv_read dev lba n d := (Errno.EMBK_OK, (fun i => d dev (lba * SECTOR + i)) <$> seqZ 0 (n * SECTOR), d);
  drv_write dev lba n l d := (Errno.EMBK_OK, fun v x => if (v =? dev) && (lba * SECTOR <=? x) && (x <? (lba + n) * SECTOR) then rd l (x - lba * SECTOR) else d v x);
  drv_flush dev d := (Errno.EMBK_OK, d);
|}.

#[export] Instance disk_laws : DriverLaws disks.
Proof.
  refine {| dr_block := fun _ => SECTOR; dr_byte := fun dev x d => d dev x |}.
  - cbn. intros dev lba n d rc l d' [= <- <- <-] Hl Hn. split; [done |]. intros _. unfold zlen. rewrite length_fmap, length_seqZ. unfold SECTOR. split; [lia |].
    intros i Hi. unfold rd. rewrite list_lookup_fmap, lookup_seqZ_lt by lia. cbn. f_equal. lia.
  - cbn. intros dev lba n l d rc d' [= <- <-] Hlen Hl Hn. unfold SECTOR in *. split.
    + intros v x Hx. destruct (v =? dev) eqn:Ev, (lba * 512 <=? x) eqn:?, (x <? (lba + n) * 512) eqn:?; b2p; try done. specialize (Hx Ev). lia.
    + intros _ i Hi. rewrite Z.eqb_refl, (proj2 (Z.leb_le _ _)), (proj2 (Z.ltb_lt _ _)) by lia. cbn. f_equal. lia.
Defined.

Definition demo_disk : device := mkDev [115; 100; 97] 64 512 true true true 0xFFFFFFFF true.
Definition demo_blocks : blocks disks := mkBlocks {[7 := demo_disk]} [7] [no_identity] 1 0 0 0 0 (fun _ _ => 0).

