(* ===== verification/PageCache.v ===== *)
(** * The page cache ([kernel/mm/vm_object.c])

    One object per file, and one per anonymous mapping, owns the frames that
    hold its pages; reading, writing and mapping all go through it.  Reclaim
    drops clean file pages, writes dirty ones back, and sends anonymous pages to
    the swap store.

    One lock guards all of it, so every public operation is one step.  A page
    record is named by its chunk and its index there, an object by its address.
    The contents of frames are the map [ram].  The frame allocator, the file
    systems, the swap store, the page tables and the heap are the classes below,
    each on a state of its own.  Counts of pages stay far below 2^32 and are not
    wrapped; the counters of the statistics are left out, but for the pages
    written back. *)

From S2P Require Import Prelude Bytes Vfs.

Definition PAGE_SIZE : Z := 4096.
Definition VMO_HASH_BUCKETS : Z := 16.
Definition VMO_HASH_MAX_BUCKETS : Z := Z.shiftl 1 16.
Definition VMO_FLUSH_RUN_PAGES : Z := 16.
Definition VMO_RECORD_CHUNK_BYTES : Z := 32 * 1024.
Definition VMO_PAGE_BYTES : Z := 64.           (* sizeof(struct vmo_page) *)
Definition VM_OBJECT_BYTES : Z := 224.         (* sizeof(struct vm_object) *)
Definition VMO_FAULT_RESERVE_PAGES : Z := 256.
Definition VMO_FAULT_RECLAIM_BATCH : Z := 512.
Definition VMO_RA_EACH_SIDE : Z := 8.
Definition SWAP_CLUSTER_PAGES : Z := 16.

(** A page record: chunk and index. *)
Definition rid : Type := Z * Z.

Record vmo_page := mkPage {
  p_index : Z;
  p_phys : Z;                (* 0 while it is out on swap *)
  p_slot : Z;
  p_dirty : bool;
  p_wired : Z;
  p_owner : Z;
}.

Record vm_object := mkObj {
  o_vn : vnode;
  o_size : Z;
  o_refs : Z;
  o_resident : Z;
  o_dirty_pages : Z;
  o_no_writeback : bool;
  o_anon : bool;
  o_mapper_pml4 : Z;
  o_mapper_base : Z;
  o_swapped : Z;
  o_table : Z;               (* the heap block of the buckets, 0 for the inline ones *)
  o_buckets : list (list rid);
}.

(** ** What lies below *)

Class Frames (A : Type) := {
  pmm_free_pages : A -> Z;
  pmm_alloc_page : A -> Z * A;
  pmm_free_page : Z -> A -> A;
}.

(** The operations of the file system that holds a vnode; [None] is a NULL slot.
    A read returns what it got, at most what was wanted. *)
Class Files (A : Type) := {
  file_read : vnode -> option (Z -> Z -> A -> list Z + Z);
  file_write : vnode -> option (Z -> list Z -> A -> Z * Z * A);
  file_size : vnode -> option (A -> Z + Z);
  file_check_write : vnode -> option (A -> Z);
}.

(** [vn.mnt && vn.mnt->ops && vn.mnt->ops->op] *)
Definition op_of {X : Type} (vn : vnode) (op : vnode -> option X) : option X :=
  match v_mnt vn with Some _ => op vn | None => None end.

(** A page goes out from, or comes into, the frame at an address. *)
Class Slots (A : Type) := {
  swap_available : A -> bool;
  swap_free_slots : A -> Z;
  swap_out : Z -> list Z -> A -> Z * A;
  swap_out_cluster : list (Z * list Z) -> A -> option (list Z) * A;
  swap_in : Z -> Z -> A -> (list Z + Z) * A;
  swap_in_cluster : Z -> list Z -> A -> (list (list Z) + Z) * A;
  swap_free : Z -> A -> A;
  swap_slot_held : Z -> A -> bool;
  swap_nslots : A -> Z;           (* of [struct swap_stats] *)
  swap_used : A -> Z;
}.

Class Tables (A : Type) := {
  vmm_unmap_in : Z -> Z -> A -> A;
  vmm_get_phys_in : Z -> Z -> A -> Z;
  vmm_test_and_clear_accessed_in : Z -> Z -> A -> bool * A;
}.

Class Heap (A : Type) := {
  kmalloc : Z -> A -> Z * A;
  kfree : Z -> A -> A;
}.

Section Cache.
Context {Fr FS SW PT HP : Type} `{Frames Fr} `{Files FS} `{Slots SW} `{Tables PT} `{Heap HP}.

Record cache := mkCache {
  objs : gmap Z vm_object;
  recs : gmap rid vmo_page;
  registry : list Z;
  lru_file : list rid;           (* newest first *)
  lru_anon : list rid;
  rec_free : list rid;
  ram : gmap Z (list Z);
  second_chance : bool;
  ready : bool;
  max_resident : Z;
  writebacks : Z;                (* pages written back since boot *)
  fr : Fr; fs : FS; sw : SW; pt : PT; hp : HP;
}.

Definition set_objs (s : cache) x := mkCache x (recs s) (registry s) (lru_file s) (lru_anon s) (rec_free s) (ram s) (second_chance s) (ready s) (max_resident s) (writebacks s) (fr s) (fs s) (sw s) (pt s) (hp s).
Definition set_recs (s : cache) x := mkCache (objs s) x (registry s) (lru_file s) (lru_anon s) (rec_free s) (ram s) (second_chance s) (ready s) (max_resident s) (writebacks s) (fr s) (fs s) (sw s) (pt s) (hp s).
Definition set_registry (s : cache) x := mkCache (objs s) (recs s) x (lru_file s) (lru_anon s) (rec_free s) (ram s) (second_chance s) (ready s) (max_resident s) (writebacks s) (fr s) (fs s) (sw s) (pt s) (hp s).
Definition set_lrus (s : cache) x y := mkCache (objs s) (recs s) (registry s) x y (rec_free s) (ram s) (second_chance s) (ready s) (max_resident s) (writebacks s) (fr s) (fs s) (sw s) (pt s) (hp s).
Definition set_rec_free (s : cache) x := mkCache (objs s) (recs s) (registry s) (lru_file s) (lru_anon s) x (ram s) (second_chance s) (ready s) (max_resident s) (writebacks s) (fr s) (fs s) (sw s) (pt s) (hp s).
Definition set_ram (s : cache) x := mkCache (objs s) (recs s) (registry s) (lru_file s) (lru_anon s) (rec_free s) x (second_chance s) (ready s) (max_resident s) (writebacks s) (fr s) (fs s) (sw s) (pt s) (hp s).
Definition set_writebacks (s : cache) x := mkCache (objs s) (recs s) (registry s) (lru_file s) (lru_anon s) (rec_free s) (ram s) (second_chance s) (ready s) (max_resident s) x (fr s) (fs s) (sw s) (pt s) (hp s).
Definition set_fr (s : cache) x := mkCache (objs s) (recs s) (registry s) (lru_file s) (lru_anon s) (rec_free s) (ram s) (second_chance s) (ready s) (max_resident s) (writebacks s) x (fs s) (sw s) (pt s) (hp s).
Definition set_fs (s : cache) x := mkCache (objs s) (recs s) (registry s) (lru_file s) (lru_anon s) (rec_free s) (ram s) (second_chance s) (ready s) (max_resident s) (writebacks s) (fr s) x (sw s) (pt s) (hp s).
Definition set_sw (s : cache) x := mkCache (objs s) (recs s) (registry s) (lru_file s) (lru_anon s) (rec_free s) (ram s) (second_chance s) (ready s) (max_resident s) (writebacks s) (fr s) (fs s) x (pt s) (hp s).
Definition set_pt (s : cache) x := mkCache (objs s) (recs s) (registry s) (lru_file s) (lru_anon s) (rec_free s) (ram s) (second_chance s) (ready s) (max_resident s) (writebacks s) (fr s) (fs s) (sw s) x (hp s).
Definition set_hp (s : cache) x := mkCache (objs s) (recs s) (registry s) (lru_file s) (lru_anon s) (rec_free s) (ram s) (second_chance s) (ready s) (max_resident s) (writebacks s) (fr s) (fs s) (sw s) (pt s) x.
Definition set_started (s : cache) x := mkCache (objs s) (recs s) (registry s) (lru_file s) (lru_anon s) (rec_free s) (ram s) (second_chance s) true x (writebacks s) (fr s) (fs s) (sw s) (pt s) (hp s).
Definition set_second_chance (s : cache) x := mkCache (objs s) (recs s) (registry s) (lru_file s) (lru_anon s) (rec_free s) (ram s) x (ready s) (max_resident s) (writebacks s) (fr s) (fs s) (sw s) (pt s) (hp s).

Definition null_page : vmo_page := mkPage 0 0 0 false 0 0.
Definition null_object : vm_object := mkObj null_vnode 0 0 0 0 false false 0 0 0 0 [].
Definition page (s : cache) (r : rid) : vmo_page := default null_page (recs s !! r).
Definition obj (s : cache) (o : Z) : vm_object := default null_object (objs s !! o).
Definition frame (s : cache) (phys : Z) : list Z := default (replicate (Z.to_nat PAGE_SIZE) 0) (ram s !! phys).

Definition put_page (s : cache) (r : rid) (p : vmo_page) : cache := set_recs s (<[r := p]> (recs s)).
Definition put_obj (s : cache) (o : Z) (ob : vm_object) : cache := set_objs s (<[o := ob]> (objs s)).
Definition put_frame (s : cache) (phys : Z) (l : list Z) : cache := set_ram s (<[phys := l]> (ram s)).

(** Field updates of the records. *)
Definition with_dirty (p : vmo_page) (d : bool) := mkPage (p_index p) (p_phys p) (p_slot p) d (p_wired p) (p_owner p).
Definition with_wired (p : vmo_page) (w : Z) := mkPage (p_index p) (p_phys p) (p_slot p) (p_dirty p) w (p_owner p).
Definition with_place (p : vmo_page) (phys slot : Z) := mkPage (p_index p) phys slot (p_dirty p) (p_wired p) (p_owner p).
Definition with_size (o : vm_object) (n : Z) :=
  mkObj (o_vn o) n (o_refs o) (o_resident o) (o_dirty_pages o) (o_no_writeback o) (o_anon o) (o_mapper_pml4 o) (o_mapper_base o) (o_swapped o) (o_table o) (o_buckets o).
Definition with_refs (o : vm_object) (n : Z) :=
  mkObj (o_vn o) (o_size o) n (o_resident o) (o_dirty_pages o) (o_no_writeback o) (o_anon o) (o_mapper_pml4 o) (o_mapper_base o) (o_swapped o) (o_table o) (o_buckets o).
Definition with_counts (o : vm_object) (res dirty swp : Z) :=
  mkObj (o_vn o) (o_size o) (o_refs o) res dirty (o_no_writeback o) (o_anon o) (o_mapper_pml4 o) (o_mapper_base o) swp (o_table o) (o_buckets o).
Definition with_buckets (o : vm_object) (b : list (list rid)) :=
  mkObj (o_vn o) (o_size o) (o_refs o) (o_resident o) (o_dirty_pages o) (o_no_writeback o) (o_anon o) (o_mapper_pml4 o) (o_mapper_base o) (o_swapped o) (o_table o) b.
Definition with_table (o : vm_object) (t : Z) (b : list (list rid)) :=
  mkObj (o_vn o) (o_size o) (o_refs o) (o_resident o) (o_dirty_pages o) (o_no_writeback o) (o_anon o) (o_mapper_pml4 o) (o_mapper_base o) (o_swapped o) t b.
Definition with_mapper (o : vm_object) (pml4 base : Z) :=
  mkObj (o_vn o) (o_size o) (o_refs o) (o_resident o) (o_dirty_pages o) (o_no_writeback o) (o_anon o) pml4 base (o_swapped o) (o_table o) (o_buckets o).

Definition with_no_writeback (o : vm_object)  :=
  mkObj (o_vn o) (o_size o) (o_refs o) (o_resident o) (o_dirty_pages o) true (o_anon o) (o_mapper_pml4 o) (o_mapper_base o) (o_swapped o) (o_table o) (o_buckets o).

(** [if (n) n--] *)
Definition dec (n : Z) : Z := if n =? 0 then 0 else n - 1.

Definition upd_obj (s : cache) (o : Z) (f : vm_object -> vm_object) : cache := put_obj s o (f (obj s o)).
Definition upd_page (s : cache) (r : rid) (f : vmo_page -> vmo_page) : cache := put_page s r (f (page s r)).

(** ** Least recently used *)

Definition on_anon (s : cache) (r : rid) : bool := o_anon (obj s (p_owner (page s r))).

Definition without (r : rid) (l : list rid) : list rid := filter (fun x => x <> r) l.

Definition lru_unlink (s : cache) (r : rid) : cache :=
  if on_anon s r then set_lrus s (lru_file s) (without r (lru_anon s)) else set_lrus s (without r (lru_file s)) (lru_anon s).

Definition lru_touch (s : cache) (r : rid) : cache :=
  if on_anon s r then set_lrus s (lru_file s) (r :: without r (lru_anon s)) else set_lrus s (r :: without r (lru_file s)) (lru_anon s).

(** ** Page records *)

(** The chunk's records are pushed in order, so the last one is taken first. *)
Definition record_alloc (s : cache) : option rid * cache :=
  let grown :=
    match rec_free s with
    | [] =>
        let '(chunk, h) := kmalloc VMO_RECORD_CHUNK_BYTES (hp s) in
        if chunk =? 0 then set_hp s h
        else set_rec_free (set_hp s h) (rev ((fun i => (chunk, i)) <$> seqZ 0 (VMO_RECORD_CHUNK_BYTES / VMO_PAGE_BYTES)))
    | _ => s
    end in
  match rec_free grown with
  | [] => (None, grown)
  | r :: rest => (Some r, set_rec_free grown rest)
  end.

Definition record_free (s : cache) (r : rid) : cache := set_rec_free (set_recs s (delete r (recs s))) (r :: rec_free s).

(** ** Pages within an object *)

Definition bucket_of (b : list (list rid)) (index : Z) : Z := Z.land index (Z.of_nat (length b) - 1).
Definition chain (b : list (list rid)) (i : Z) : list rid := default [] (b !! Z.to_nat i).

Fixpoint find_in (s : cache) (index : Z) (l : list rid) : option rid :=
  match l with
  | [] => None
  | r :: l => if p_index (page s r) =? index then Some r else find_in s index l
  end.

Definition page_find (s : cache) (o index : Z) : option rid :=
  let b := o_buckets (obj s o) in find_in s index (chain b (bucket_of b index)).

Definition chain_put (b : list (list rid)) (i : Z) (l : list rid) : list (list rid) := wr b i l.

Definition page_unlink (s : cache) (o : Z) (r : rid) : cache :=
  let b := o_buckets (obj s o) in
  let i := bucket_of b (p_index (page s r)) in
  upd_obj s o (fun ob => with_buckets ob (chain_put b i (without r (chain b i)))).

(** Each chain in turn is moved to the new table, record by record. *)
Definition rehash (s : cache) (nb : Z) (b : list (list rid)) : list (list rid) :=
  fold_left (fun nt r => let h := Z.land (p_index (page s r)) (nb - 1) in chain_put nt h (r :: chain nt h))
            (concat b) (replicate (Z.to_nat nb) []).

Definition index_grow_if_needed (s : cache) (o : Z) : cache :=
  let ob := obj s o in
  let nb := Z.of_nat (length (o_buckets ob)) in
  if (o_resident ob + o_swapped ob <=? nb) || (VMO_HASH_MAX_BUCKETS <=? nb) then s
  else
    let '(nt, h) := kmalloc (nb * 2 * 8) (hp s) in
    let s := set_hp s h in
    if nt =? 0 then s
    else
      let s := if o_table ob =? 0 then s else set_hp s (kfree (o_table ob) (hp s)) in
      upd_obj s o (fun ob => with_table ob nt (rehash s (nb * 2) (o_buckets ob))).

Definition page_destroy (s : cache) (o : Z) (r : rid) : cache :=
  let p := page s r in
  let s := lru_unlink s r in
  let s := page_unlink s o r in
  let ob := obj s o in
  let dirty := if p_dirty p then dec (o_dirty_pages ob) else o_dirty_pages ob in
  let s :=
    if negb (p_phys p =? 0) then
      set_fr (put_obj s o (with_counts ob (o_resident ob - 1) dirty (o_swapped ob))) (pmm_free_page (p_phys p) (fr s))
    else if negb (p_slot p =? 0) then
      set_sw (put_obj s o (with_counts ob (o_resident ob) dirty (dec (o_swapped ob)))) (swap_free (p_slot p) (sw s))
    else put_obj s o (with_counts ob (o_resident ob) dirty (o_swapped ob)) in
  record_free s r.

(** ** Writing back *)

(** The run of dirty resident pages that begins at a page, at most [n] long. *)
Fixpoint dirty_run (n : nat) (s : cache) (o first : Z) : list rid :=
  match n with
  | O => []
  | S n =>
      match page_find s o first with
      | Some r => if p_dirty (page s r) && negb (p_phys (page s r) =? 0) then r :: dirty_run n s o (!64 (first + 1)) else []
      | None => []
      end
  end.

(** A written page is clean. *)
Definition mark_clean (s : cache) (o : Z) (r : rid) : cache :=
  if p_dirty (page s r) then
    let s := set_writebacks (upd_page s r (fun p => with_dirty p false)) (writebacks s + 1) in
    upd_obj s o (fun ob => with_counts ob (o_resident ob) (dec (o_dirty_pages ob)) (o_swapped ob))
  else s.

(** The number of pages written. *)
Definition flush_run (s : cache) (o first : Z) : Z * cache :=
  let ob := obj s o in
  match op_of (o_vn ob) file_write with
  | None => (0, s)
  | Some write =>
      let run := dirty_run (Z.to_nat VMO_FLUSH_RUN_PAGES) s o first in
      let n := Z.of_nat (length run) in
      if n =? 0 then (0, s)
      else
        let off := !64 (first * PAGE_SIZE) in
        let len := n * PAGE_SIZE in
        let len := if o_size ob <? !64 (off + len) then (if off <? o_size ob then o_size ob - off else 0) else len in
        if len =? 0 then (0, s)
        else
          let buf := concat ((fun r => frame s (p_phys (page s r))) <$> run) in
          let '(rc, wrote, f) := write off (take (Z.to_nat len) buf) (fs s) in
          let s := set_fs s f in
          if negb (rc =? Errno.EMBK_OK) || negb (wrote =? len) then (0, s)
          else (n, fold_left (fun s r => mark_clean s o r) run s)
  end.

(** [for (i = 0; i < last && dirty_pages > 0; )]; the fuel is one per page. *)
Fixpoint flush_from (fuel : nat) (s : cache) (o i last : Z) : Z * cache :=
  match fuel with
  | O => (Errno.EMBK_OK, s)
  | S fuel =>
      if (i <? last) && (0 <? o_dirty_pages (obj s o)) then
        match page_find s o i with
        | Some r =>
            if p_dirty (page s r) then
              let '(n, s) := flush_run s o i in
              if n =? 0 then (- Errno.EMBK_EIO, s) else flush_from fuel s o (i + n) last
            else flush_from fuel s o (i + 1) last
        | None => flush_from fuel s o (i + 1) last
        end
      else (Errno.EMBK_OK, s)
  end.

Definition flush_object_locked (s : cache) (o : Z) : Z * cache :=
  let ob := obj s o in
  if o_no_writeback ob || (o_dirty_pages ob =? 0) then (Errno.EMBK_OK, s)
  else
    let last := !64 (o_size ob + PAGE_SIZE - 1) / PAGE_SIZE in
    flush_from (Z.to_nat last) s o 0 last.

(** ** Reclaim *)

(** File pages, oldest first.  Nothing moves in the list meanwhile: a page only
    leaves it when it is destroyed. *)
Fixpoint reclaim_file_from (l : list rid) (want : Z) (allow_dirty : bool) (freed : Z) (s : cache) : Z * cache :=
  match l with
  | [] => (freed, s)
  | r :: l =>
      if want <=? freed then (freed, s)
      else
        let p := page s r in
        let o := p_owner p in
        if negb (p_wired p =? 0) then reclaim_file_from l want allow_dirty freed s
        else if p_dirty p then
          if negb allow_dirty then reclaim_file_from l want allow_dirty freed s
          else
            let '(n, s) := flush_run s o (p_index p) in
            if (n =? 0) || p_dirty (page s r) then reclaim_file_from l want allow_dirty freed s
            else reclaim_file_from l want allow_dirty (freed + 1) (page_destroy s o r)
        else reclaim_file_from l want allow_dirty (freed + 1) (page_destroy s o r)
  end.

Definition reclaim_file_locked (want : Z) (allow_dirty : bool) (s : cache) : Z * cache :=
  reclaim_file_from (rev (lru_file s)) want allow_dirty 0 s.

(** One page at a time; a slot of 0 is a refusal. *)
Fixpoint swap_out_each (pages : list (Z * list Z)) (w : SW) : list Z * SW :=
  match pages with
  | [] => ([], w)
  | (phys, l) :: pages => let '(slot, w) := swap_out phys l w in let '(slots, w) := swap_out_each pages w in (slot :: slots, w)
  end.

(** A page that went out gives its frame back. *)
Definition went_out (s : cache) (r : rid) (slot : Z) : cache :=
  let p := page s r in
  let s := lru_unlink s r in
  let s := set_fr s (pmm_free_page (p_phys p) (fr s)) in
  let s := put_page s r (with_place p 0 slot) in
  upd_obj s (p_owner p) (fun ob => with_counts ob (o_resident ob - 1) (o_dirty_pages ob) (o_swapped ob + 1)).

Fixpoint all_out (batch : list rid) (slots : list Z) (out : Z) (s : cache) : Z * cache :=
  match batch, slots with
  | r :: batch, slot :: slots =>
      if slot =? 0 then all_out batch slots out s else all_out batch slots (out + 1) (went_out s r slot)
  | _, _ => (out, s)
  end.

Definition anon_batch_out_locked (batch : list rid) (s : cache) : Z * cache :=
  let pages := (fun r => (p_phys (page s r), frame s (p_phys (page s r)))) <$> batch in
  let '(slots, w) :=
    match swap_out_cluster pages (sw s) with
    | (Some slots, w) => (slots, w)
    | (None, w) => swap_out_each pages w
    end in
  all_out batch slots 0 (set_sw s w).

(** The one before a page in the list, towards its head. *)
Fixpoint before (r : rid) (prev : option rid) (l : list rid) : option rid :=
  match l with
  | [] => None
  | x :: l => if decide (x = r) then prev else before r (Some x) l
  end.

(** A candidate: spared, taken (and unmapped), or left alone. *)
Inductive verdict := Spare | Take | Leave.

Definition judge (first_pass : bool) (r : rid) (s : cache) : verdict * cache :=
  let p := page s r in
  let ob := obj s (p_owner p) in
  if p_phys p =? 0 then (Leave, s)
  else if p_wired p =? 0 then (Take, s)
  else if negb (p_wired p =? 1) || (o_mapper_pml4 ob =? 0) then (Leave, s)
  else
    let va := !64 (o_mapper_base ob + p_index p * PAGE_SIZE) in
    let '(acc, s) :=
      if first_pass && second_chance s then
        let '(a, t) := vmm_test_and_clear_accessed_in (o_mapper_pml4 ob) va (pt s) in (a, set_pt s t)
      else (false, s) in
    if acc then (Spare, lru_touch s r)
    else if negb (vmm_get_phys_in (o_mapper_pml4 ob) va (pt s) =? p_phys p) then (Leave, s)
    else (Take, upd_page (set_pt s (vmm_unmap_in (o_mapper_pml4 ob) va (pt s))) r (fun p => with_wired p 0)).

(** One pass from a page towards the head; pages that are spared move to the
    head and are met again.  The batch is in the order it was collected.  [None]
    when the fuel runs out; the flag says that the store refused a cluster. *)
Fixpoint anon_pass (fuel : nat) (first_pass : bool) (want : Z) (p : option rid) (batch : list rid) (freed : Z) (s : cache)
  : option (bool * list rid * Z * cache) :=
  match p with
  | None => Some (false, batch, freed, s)
  | Some r =>
      if want <=? freed + Z.of_nat (length batch) then Some (false, batch, freed, s)
      else
        match fuel with
        | O => None
        | S fuel =>
            let prev := before r None (lru_anon s) in
            let '(v, s) := judge first_pass r s in
            match v with
            | Take =>
                let batch := batch ++ [r] in
                if Z.of_nat (length batch) =? SWAP_CLUSTER_PAGES then
                  let '(out, s) := anon_batch_out_locked batch s in
                  if out =? 0 then Some (true, [], freed, s)
                  else anon_pass fuel first_pass want prev [] (freed + out) s
                else anon_pass fuel first_pass want prev batch freed s
            | _ => anon_pass fuel first_pass want prev batch freed s
            end
        end
  end.

(** A pass and the flush of its partial batch. *)
Definition anon_sweep (fuel : nat) (first_pass : bool) (want freed : Z) (s : cache) : option (bool * Z * cache) :=
  match anon_pass fuel first_pass want (last (lru_anon s)) [] freed s with
  | None => None
  | Some (true, _, freed, s) => Some (true, freed, s)
  | Some (false, [], freed, s) => Some (false, freed, s)
  | Some (false, batch, freed, s) => let '(out, s) := anon_batch_out_locked batch s in Some (false, freed + out, s)
  end.

Definition reclaim_anon_locked (fuel : nat) (want : Z) (s : cache) : option (Z * cache) :=
  if want <=? 0 then Some (0, s)
  else
    match anon_sweep fuel true want 0 s with
    | None => None
    | Some (true, freed, s) => Some (freed, s)
    | Some (false, freed, s) =>
        if want <=? freed then Some (freed, s)
        else match anon_sweep fuel false want freed s with Some (_, freed, s) => Some (freed, s) | None => None end
    end.

Definition reclaim_locked (fuel : nat) (want : Z) (swap_ok : bool) (s : cache) : option (Z * cache) :=
  let '(freed, s) := reclaim_file_locked want false s in
  let '(freed, s) :=
    if freed <? want then let '(n, s) := reclaim_file_locked (want - freed) true s in (freed + n, s) else (freed, s) in
  if (freed <? want) && swap_ok && swap_available (sw s) && (0 <? swap_free_slots (sw s)) then
    match reclaim_anon_locked fuel (want - freed) s with Some (n, s) => Some (freed + n, s) | None => None end
  else Some (freed, s).

(** ** Filling a page *)

Definition alloc_frame (s : cache) : Z * cache := let '(phys, f) := pmm_alloc_page (fr s) in (phys, set_fr s f).
Definition free_frame (phys : Z) (s : cache) : cache := set_fr s (pmm_free_page phys (fr s)).

Definition frame_or_reclaim (fuel : nat) (s : cache) : option (Z * cache) :=
  let first :=
    if pmm_free_pages (fr s) <? VMO_FAULT_RESERVE_PAGES then snd <$> reclaim_locked fuel VMO_FAULT_RECLAIM_BATCH true s else Some s in
  match first with
  | None => None
  | Some s =>
      let '(phys, s) := alloc_frame s in
      if negb (phys =? 0) then Some (phys, s)
      else
        match reclaim_locked fuel VMO_FAULT_RECLAIM_BATCH true s with
        | None => None
        | Some (_, s) => Some (alloc_frame s)
        end
  end.

(** What goes into the frame of a page: zeroes, or what the file holds with
    zeroes after its end. *)
Definition fetch (ob : vm_object) (index : Z) (zero_only : bool) (f : FS) : list Z + Z :=
  let zeroes := replicate (Z.to_nat PAGE_SIZE) 0 in
  if zero_only then inl zeroes
  else
    match op_of (o_vn ob) file_read with
    | None => inl zeroes
    | Some read =>
        let off := !64 (index * PAGE_SIZE) in
        if off <? o_size ob then
          let want := if PAGE_SIZE <? o_size ob - off then PAGE_SIZE else o_size ob - off in
          match read off want f with
          | inr e => inr e
          | inl got => inl (blit zeroes 0 got)
          end
        else inl zeroes
    end.

(** The new record at the head of its chain. *)
Definition page_enter (s : cache) (o index phys : Z) (r : rid) : cache :=
  let s := put_page s r (mkPage index phys 0 false 0 o) in
  let s := upd_obj s o (fun ob =>
             let b := o_buckets ob in
             let i := bucket_of b index in
             with_counts (with_buckets ob (chain_put b i (r :: chain b i))) (o_resident ob + 1) (o_dirty_pages ob) (o_swapped ob)) in
  let s := lru_touch s r in
  index_grow_if_needed s o.

Definition page_fill (fuel : nat) (s : cache) (o index : Z) (zero_only : bool) : option (option rid * cache) :=
  match frame_or_reclaim fuel s with
  | None => None
  | Some (phys, s) =>
      if phys =? 0 then Some (None, s)
      else
        match fetch (obj s o) index zero_only (fs s) with
        | inr _ => Some (None, free_frame phys (put_frame s phys (replicate (Z.to_nat PAGE_SIZE) 0)))
        | inl bytes =>
            let s := put_frame s phys bytes in
            match record_alloc s with
            | (None, s) => Some (None, free_frame phys s)
            | (Some r, s) => Some (Some r, page_enter s o index phys r)
            end
        end
  end.

(** ** Reading ahead *)

(** The page of an index, if it is out on the store. *)
Definition out_at (s : cache) (o i : Z) : list rid :=
  match page_find s o i with
  | Some r => if (p_phys (page s r) =? 0) && negb (p_slot (page s r) =? 0) then [r] else []
  | None => []
  end.

(** The neighbours that are out, nearest first. *)
Definition neighbours (s : cache) (o index : Z) : list rid :=
  flat_map (fun d => out_at s o (!64 (index + d)) ++ (if index <? d then [] else out_at s o (index - d))) (seqZ 1 VMO_RA_EACH_SIDE).

(** Insertion sort by slot. *)
Fixpoint insert_by (key : rid -> Z) (r : rid) (l : list rid) : list rid :=
  match l with
  | [] => [r]
  | x :: l' => if key x <=? key r then x :: insert_by key r l' else r :: l
  end.
Definition sort_by (key : rid -> Z) (l : list rid) : list rid := fold_left (fun l r => insert_by key r l) l [].

(** How many more pages follow in consecutive slots after [slot]. *)
Fixpoint run_after (key : rid -> Z) (slot : Z) (l : list rid) : nat :=
  match l with
  | [] => 0
  | r :: l => if key r =? slot + 1 then S (run_after key (slot + 1) l) else 0
  end.

(** Frames for a run; all of them or none. *)
Fixpoint take_frames (n : nat) (acc : list Z) (f : Fr) : option (list Z) * Fr :=
  match n with
  | O => (Some acc, f)
  | S n =>
      let '(phys, f) := pmm_alloc_page f in
      if phys =? 0 then (None, fold_left (fun f x => pmm_free_page x f) acc f) else take_frames n (acc ++ [phys]) f
  end.

(** A page is back in a frame; its slot is released. *)
Definition came_back (s : cache) (o : Z) (r : rid) (phys : Z) : cache :=
  let p := page s r in
  let s := set_sw s (swap_free (p_slot p) (sw s)) in
  let s := put_page s r (with_place p phys 0) in
  let s := upd_obj s o (fun ob => with_counts ob (o_resident ob + 1) (o_dirty_pages ob) (dec (o_swapped ob))) in
  lru_touch s r.

(** [phys[0]] *)
Definition head_or (phys : list Z) : Z := default 0 (head phys).

Fixpoint readahead_runs (fuel : nat) (o : Z) (cand : list rid) (s : cache) : cache :=
  match fuel, cand with
  | S fuel, r :: rest =>
      let slot := p_slot (page s r) in
      let run := S (run_after (fun r => p_slot (page s r)) slot rest) in
      match take_frames run [] (fr s) with
      | (None, f) => set_fr s f
      | (Some phys, f) =>
          let s := set_fr s f in
          let '(got, w) :=
            if (run =? 1)%nat then
              match swap_in slot (head_or phys) (sw s) with (inl l, w) => (inl [l], w) | (inr e, w) => (inr e, w) end
            else swap_in_cluster slot phys (sw s) in
          let s := set_sw s w in
          match got with
          | inr _ => set_fr s (fold_left (fun f x => pmm_free_page x f) phys (fr s))
          | inl pages =>
              let back := zip (take run cand) phys in
              let s := fold_left (fun s x => put_frame s (fst x) (snd x)) (zip phys pages) s in
              let s := fold_left (fun s x => came_back s o (fst x) (snd x)) back s in
              readahead_runs fuel o (drop run cand) s
          end
      end
  | _, _ => s
  end.

Definition swap_readahead_locked (s : cache) (o index : Z) : cache :=
  if pmm_free_pages (fr s) <? VMO_FAULT_RESERVE_PAGES + 2 * VMO_RA_EACH_SIDE then s
  else
    let cand := sort_by (fun r => p_slot (page s r)) (neighbours s o index) in
    readahead_runs (length cand) o cand s.

(** ** The page of an index *)

Definition page_get (fuel : nat) (s : cache) (o index : Z) (zero_only : bool) : option (option rid * cache) :=
  match page_find s o index with
  | Some r =>
      if p_phys (page s r) =? 0 then
        match frame_or_reclaim fuel s with
        | None => None
        | Some (phys, s) =>
            if phys =? 0 then Some (None, s)
            else
              let '(got, w) := swap_in (p_slot (page s r)) phys (sw s) in
              let s := set_sw s w in
              match got with
              | inr _ => Some (None, free_frame phys s)
              | inl l =>
                  let s := came_back (put_frame s phys l) o r phys in
                  Some (Some r, if o_anon (obj s o) then swap_readahead_locked s o index else s)
              end
        end
      else Some (Some r, lru_touch s r)
  | None => page_fill fuel s o index zero_only
  end.

(** ** Reading and writing *)

Fixpoint read_loop (n fuel : nat) (o off len done : Z) (acc : list Z) (s : cache) : option (Z * list Z * cache) :=
  match n with
  | O => Some (Errno.EMBK_OK, acc, s)
  | S n =>
      if done <? len then
        let index := !64 (off + done) / PAGE_SIZE in
        let within := !64 (off + done) mod PAGE_SIZE in
        let chunk := if len - done <? PAGE_SIZE - within then len - done else PAGE_SIZE - within in
        match page_get fuel s o index false with
        | None => None
        | Some (None, s) => Some (if done =? 0 then - Errno.EMBK_ENOMEM else Errno.EMBK_OK, acc, s)
        | Some (Some r, s) => read_loop n fuel o off len (done + chunk) (acc ++ sub (frame s (p_phys (page s r))) within chunk) s
        end
      else Some (Errno.EMBK_OK, acc, s)
  end.

(** One iteration per page the range touches. *)
Definition iterations (len : Z) : nat := Z.to_nat (len / PAGE_SIZE + 2).

Definition vmo_read (fuel : nat) (s : cache) (o off len : Z) : option (Z * list Z * cache) :=
  let size := o_size (obj s o) in
  if size <=? off then Some (Errno.EMBK_OK, [], s)
  else
    let len := if size <? !64 (off + len) then size - off else len in
    read_loop (iterations len) fuel o off len 0 [] s.

Definition vmo_check_write (s : cache) (o : Z) : Z :=
  let ob := obj s o in
  if o_anon ob then 0 else match op_of (o_vn ob) file_check_write with Some check => check (fs s) | None => 0 end.

Definition set_dirty (s : cache) (o : Z) (r : rid) : cache :=
  if p_dirty (page s r) then s
  else upd_obj (upd_page s r (fun p => with_dirty p true)) o
         (fun ob => with_counts ob (o_resident ob) (o_dirty_pages ob + 1) (o_swapped ob)).

Fixpoint write_loop (n fuel : nat) (o off : Z) (src : list Z) (done : Z) (s : cache) : option (Z * Z * cache) :=
  match n with
  | O => Some (Errno.EMBK_OK, done, s)
  | S n =>
      let len := zlen src in
      if done <? len then
        let index := !64 (off + done) / PAGE_SIZE in
        let within := !64 (off + done) mod PAGE_SIZE in
        let chunk := if len - done <? PAGE_SIZE - within then len - done else PAGE_SIZE - within in
        let full := (within =? 0) && (chunk =? PAGE_SIZE) in
        let past_eof := o_size (obj s o) <=? !64 (index * PAGE_SIZE) in
        match page_get fuel s o index (full || past_eof) with
        | None => None
        | Some (None, s) => Some (if done =? 0 then - Errno.EMBK_ENOMEM else Errno.EMBK_OK, done, s)
        | Some (Some r, s) =>
            let phys := p_phys (page s r) in
            let s := put_frame s phys (blit (frame s phys) within (sub src done chunk)) in
            let s := lru_touch (set_dirty s o r) r in
            let done := done + chunk in
            let s := if o_size (obj s o) <? !64 (off + done) then upd_obj s o (fun ob => with_size ob (!64 (off + done))) else s in
            write_loop n fuel o off src done s
        end
      else Some (Errno.EMBK_OK, done, s)
  end.

Definition write_locked (fuel : nat) (s : cache) (o off : Z) (src : list Z) : option (Z * Z * cache) :=
  let writable := vmo_check_write s o in
  if negb (writable =? 0) then Some (writable, 0, s)
  else if UINT64_MAX - off <? zlen src then Some (- Errno.EMBK_ERANGE, 0, s)
  else write_loop (iterations (zlen src)) fuel o off src 0 s.

Definition vmo_write (fuel : nat) (s : cache) (o off : Z) (src : list Z) : option (Z * Z * cache) := write_locked fuel s o off src.

(** The offset it chose comes first. *)
Definition vmo_append (fuel : nat) (s : cache) (o : Z) (src : list Z) : option (Z * (Z * Z * cache)) :=
  let off := o_size (obj s o) in pair off <$> write_locked fuel s o off src.

Definition vmo_flush (s : cache) (o : Z) : Z * cache := flush_object_locked s o.

Definition vmo_size (s : cache) (o : Z) : Z := o_size (obj s o).

(** ** Truncation *)

Definition all_pages (ob : vm_object) : list rid := concat (o_buckets ob).

Definition truncate_locked (s : cache) (o size : Z) : cache :=
  let s := upd_obj s o (fun ob => with_size ob size) in
  let first_gone := !64 (size + PAGE_SIZE - 1) / PAGE_SIZE in
  let s := fold_left (fun s r => if first_gone <=? p_index (page s r) then page_destroy s o r else s) (all_pages (obj s o)) s in
  if negb (size mod PAGE_SIZE =? 0) then
    match page_find s o (size / PAGE_SIZE) with
    | Some r =>
        let phys := p_phys (page s r) in
        if negb (phys =? 0)
        then put_frame s phys (take (Z.to_nat (size mod PAGE_SIZE)) (frame s phys) ++ replicate (Z.to_nat (PAGE_SIZE - size mod PAGE_SIZE)) 0)
        else s
    | None => s
    end
  else s.

Definition same_file (a b : vnode) : bool := bool_decide (v_mnt a = v_mnt b) && (v_ino a =? v_ino b).

Definition registry_find (s : cache) (vn : vnode) : option Z :=
  head (filter (fun o => negb (o_anon (obj s o)) && same_file (o_vn (obj s o)) vn = true) (registry s)).

Definition vmo_truncated (s : cache) (o size : Z) : cache := truncate_locked s o size.

Definition vmo_file_truncated (s : cache) (vn : vnode) (size : Z) : cache :=
  if negb (ready s) then s
  else match registry_find s vn with Some o => truncate_locked s o size | None => s end.

(** ** Objects *)

Definition obj_free_page (s : cache) (r : rid) : cache :=
  let p := page s r in
  let s := lru_unlink s r in
  let s :=
    if negb (p_phys p =? 0) then free_frame (p_phys p) s
    else if negb (p_slot p =? 0) then set_sw s (swap_free (p_slot p) (sw s))
    else s in
  record_free s r.

Definition obj_free_pages_locked (s : cache) (o : Z) : cache :=
  let s := fold_left obj_free_page (all_pages (obj s o)) s in
  upd_obj s o (fun ob => with_counts (with_buckets ob (replicate (length (o_buckets ob)) [])) 0 0 0).

Definition registry_remove (s : cache) (o : Z) : cache := set_registry s (filter (fun x => x <> o) (registry s)).

Definition cache_usable (s : cache) (vn : vnode) : bool :=
  ready s && match op_of vn file_read with Some _ => true | None => false end.

Definition inline_buckets : list (list rid) := replicate (Z.to_nat VMO_HASH_BUCKETS) [].

(** The size the file system reports, 0 when it does not. *)
Definition first_size (vn : vnode) (f : FS) : Z :=
  match file_size vn with
  | Some stat => match stat f with inl n => n | inr _ => 0 end
  | None => 0
  end.

Definition register (s : cache) (o : Z) (ob : vm_object) : cache :=
  set_registry (put_obj s o ob) (o :: registry s).

Definition vmo_get (s : cache) (vn : vnode) : option Z * cache :=
  if negb (cache_usable s vn) then (None, s)
  else
    match registry_find s vn with
    | Some o => (Some o, upd_obj s o (fun ob => with_refs ob (o_refs ob + 1)))
    | None =>
        let '(o, h) := kmalloc VM_OBJECT_BYTES (hp s) in
        let s := set_hp s h in
        if o =? 0 then (None, s)
        else (Some o, register s o (mkObj vn (first_size vn (fs s)) 1 0 0 false false 0 0 0 0 inline_buckets))
    end.

(** Nothing can name the object after the last reference. *)
Definition vmo_put (s : cache) (o : Z) : cache :=
  let s := upd_obj s o (fun ob => with_refs ob (o_refs ob - 1)) in
  if 0 <? o_refs (obj s o) then s
  else
    let '(_, s) := flush_object_locked s o in
    let s := registry_remove (obj_free_pages_locked s o) o in
    let t := o_table (obj s o) in
    let s := if t =? 0 then s else set_hp s (kfree t (hp s)) in
    set_hp (set_objs s (delete o (objs s))) (kfree o (hp s)).

Definition vmo_ref (s : cache) (o : Z) : cache := upd_obj s o (fun ob => with_refs ob (o_refs ob + 1)).

Definition vmo_invalidate (s : cache) (o : Z) : cache :=
  let s := upd_obj s o with_no_writeback in
  upd_obj (obj_free_pages_locked s o) o (fun ob => with_size ob 0).

(** ** Mapping a cached page *)

Definition vmo_wire_page (fuel : nat) (s : cache) (o index : Z) : option (Z * cache) :=
  let past_eof := o_size (obj s o) <=? !64 (index * PAGE_SIZE) in
  match page_get fuel s o index (past_eof || o_anon (obj s o)) with
  | None => None
  | Some (None, s) => Some (0, s)
  | Some (Some r, s) =>
      let s := lru_touch (upd_page s r (fun p => with_wired p (p_wired p + 1))) r in
      Some (p_phys (page s r), s)
  end.

Definition vmo_unwire_page (s : cache) (o index : Z) : cache :=
  match page_find s o index with
  | Some r => if p_wired (page s r) =? 0 then s else upd_page s r (fun p => with_wired p (p_wired p - 1))
  | None => s
  end.

Definition vmo_page_phys (s : cache) (o index : Z) : Z :=
  match page_find s o index with Some r => p_phys (page s r) | None => 0 end.

Definition vmo_mark_dirty (s : cache) (o index : Z) : cache :=
  match page_find s o index with Some r => set_dirty s o r | None => s end.

(** ** Anonymous objects *)

Definition vmo_create_anon (s : cache) (size : Z) : option Z * cache :=
  if negb (ready s) || (size =? 0) then (None, s)
  else
    let '(o, h) := kmalloc VM_OBJECT_BYTES (hp s) in
    let s := set_hp s h in
    if o =? 0 then (None, s)
    else (Some o, register s o (mkObj null_vnode size 1 0 0 true true 0 0 0 0 inline_buckets)).

Definition vmo_set_mapper (s : cache) (o pml4 base : Z) : cache :=
  if o_anon (obj s o) then upd_obj s o (fun ob => with_mapper ob pml4 base) else s.

Definition anon_unmap_locked (s : cache) (o : Z) (r : rid) : cache :=
  let p := page s r in
  let ob := obj s o in
  if negb (p_wired p =? 0) && negb (o_mapper_pml4 ob =? 0) then
    let va := !64 (o_mapper_base ob + p_index p * PAGE_SIZE) in
    upd_page (set_pt s (vmm_unmap_in (o_mapper_pml4 ob) va (pt s))) r (fun p => with_wired p 0)
  else s.

Definition vmo_discard_range (s : cache) (o first count : Z) : cache :=
  if negb (o_anon (obj s o)) || (count =? 0) then s
  else
    fold_left (fun s r =>
      let i := p_index (page s r) in
      if (first <=? i) && (i - first <? count) then page_destroy (anon_unmap_locked s o r) o r else s)
      (all_pages (obj s o)) s.

Definition vmo_detach_mapper (s : cache) (o : Z) : cache :=
  if negb (o_anon (obj s o)) then s
  else
    let s := fold_left (fun s r => anon_unmap_locked s o r) (all_pages (obj s o)) s in
    upd_obj s o (fun ob => with_mapper ob 0 (o_mapper_base ob)).

(** ** The whole cache *)

Definition vmo_writeback_all (s : cache) : Z * cache :=
  if negb (ready s) then (0, s)
  else
    let s' := fold_left (fun s o => snd (flush_object_locked s o)) (registry s) s in
    (writebacks s' - writebacks s, s').

Definition vmo_set_second_chance (s : cache) (on : bool) : cache := set_second_chance s on.

Definition vmo_reclaim (fuel : nat) (s : cache) (want : Z) : option (Z * cache) :=
  if negb (ready s) || (want =? 0) then Some (0, s) else reclaim_locked fuel want true s.

(** The pages out on the store, those whose slot the store does not hold, and
    those whose slot an earlier page names. *)
Definition audit_page (s : cache) (nbits : Z) (bitmap : bool) (t : Z * Z * Z * list Z) (r : rid) : Z * Z * Z * list Z :=
  let '(out, dang, dup, seen) := t in
  let p := page s r in
  if negb (p_phys p =? 0) || (p_slot p =? 0) then t
  else
    let dang := if swap_slot_held (p_slot p) (sw s) then dang else dang + 1 in
    if bitmap && (p_slot p <? nbits) then
      if bool_decide (p_slot p ∈ seen) then (out + 1, dang, dup + 1, seen) else (out + 1, dang, dup, p_slot p :: seen)
    else (out + 1, dang, dup, seen).

Definition vmo_audit_swap (s : cache) : Z * Z * Z * Z * cache :=
  if negb (ready s) then (0, 0, 0, 0, s)
  else
    let nbits := swap_nslots (sw s) + 1 in
    let '(seen, h) := if nbits <=? Z.shiftl 64 20 then kmalloc ((nbits + 7) / 8) (hp s) else (0, hp s) in
    let anon_pages := flat_map (fun o => if o_anon (obj s o) then all_pages (obj s o) else []) (registry s) in
    let '(out, dang, dup, _) := fold_left (audit_page s nbits (negb (seen =? 0))) anon_pages (0, 0, 0, []) in
    (out, swap_used (sw s), dang, dup, set_hp s (if seen =? 0 then h else kfree seen h)).

(** File pages, dirty file pages, anonymous pages, pages out on the store. *)
Definition vmo_stats_get (s : cache) : Z * Z * Z * Z :=
  if negb (ready s) then (0, 0, 0, 0)
  else
    fold_left (fun '(res, dirty, anon, swp) o =>
      let ob := obj s o in
      if o_anon ob then (res, dirty, anon + o_resident ob, swp + o_swapped ob)
      else (res + o_resident ob, dirty + o_dirty_pages ob, anon, swp)) (registry s) (0, 0, 0, 0).

(** ** The writeback thread *)

Definition VMO_WRITEBACK_INTERVAL_MS : Z := 2000.
Definition VMO_RECLAIM_LOW_PAGES : Z := 4096.
Definition VMO_RECLAIM_BATCH : Z := 512.

(** One turn of its loop at a time [now]; the time of the next flush comes back. *)
Definition vmo_writeback_turn (fuel : nat) (now next_flush : Z) (s : cache) : option (Z * cache) :=
  let '(next_flush, s) :=
    if next_flush <=? now then (now + VMO_WRITEBACK_INTERVAL_MS, snd (vmo_writeback_all s)) else (next_flush, s) in
  let after :=
    if pmm_free_pages (fr s) <? VMO_RECLAIM_LOW_PAGES then snd <$> vmo_reclaim fuel s VMO_RECLAIM_BATCH
    else if negb (max_resident s =? 0) then
      let '(res, _, _, _) := vmo_stats_get s in
      if max_resident s <? res then snd <$> reclaim_locked fuel (res - max_resident s) false s else Some s
    else Some s in
  pair next_flush <$> after.

Definition vmo_writeback_init (s : cache) : cache := set_started s (pmm_free_pages (fr s) / 2).
End Cache.
