(* ===== verification/PageCacheInv.v ===== *)
(** * The page cache: what its parts promise and what always holds

    The laws of the parts the cache is built on (frames, files, swap slots, page
    tables, heap), the bytes of an object as a reader sees them, and the
    invariant of the cache, in groups that each speak of a few components only,
    with the lemmas on the updates that the operations make. *)

From S2P Require Import Prelude Bytes Vfs PageCache.

(** ** Laws *)

Class FrameLaws (A : Type) `{Frames A} := {
  fr_ok : A -> Prop;
  fr_held : A -> gset Z;
  fr_alloc f x f' : fr_ok f -> pmm_alloc_page f = (x, f') ->
    fr_ok f' /\ ((x = 0 /\ fr_held f' = fr_held f) \/ (0 < x /\ (x ∉ fr_held f) /\ fr_held f' = {[x]} ∪ fr_held f));
  fr_free f x : fr_ok f -> x ∈ fr_held f -> fr_ok (pmm_free_page x f) /\ fr_held (pmm_free_page x f) = fr_held f ∖ {[x]};
}.

(** [file_byte vn k] is the byte on the device, 0 past the end.  A read returns
    what there is up to the end of the file.  A write that fails may have
    changed the range it was given, and nothing else. *)
Class FileLaws (A : Type) `{Files A} := {
  file_byte : vnode -> Z -> A -> Z;
  byte_same a b k f : same_file a b = true -> file_byte a k f = file_byte b k f;
  byte_read vn read off n f got : file_read vn = Some read -> 0 <= off -> 0 <= n -> read off n f = inl got ->
    zlen got <= n /\ forall j, 0 <= j < n -> rd got j = file_byte vn (off + j) f;
  byte_write vn write off l f rc n f' : file_write vn = Some write -> 0 <= off -> write off l f = (rc, n, f') ->
    (forall vn' k, (same_file vn vn' = true -> k < off \/ off + zlen l <= k) -> file_byte vn' k f' = file_byte vn' k f)
    /\ (rc = Errno.EMBK_OK -> n = zlen l -> forall j, 0 <= j < zlen l -> file_byte vn (off + j) f' = rd l j);
  byte_size vn stat f n : file_size vn = Some stat -> stat f = inl n -> 0 <= n /\ forall k, n <= k -> file_byte vn k f = 0;
}.

(** The slots in use and what is in them. *)
Class SlotLaws (A : Type) `{Slots A} := {
  sw_ok : A -> Prop;
  sw_data : A -> gmap Z (list Z);
  sw_zero w : sw_ok w -> sw_data w !! 0 = None;
  sw_out phys l w slot w' : sw_ok w -> zlen l = PAGE_SIZE -> swap_out phys l w = (slot, w') ->
    sw_ok w' /\ ((slot = 0 /\ sw_data w' = sw_data w) \/ (slot <> 0 /\ sw_data w !! slot = None /\ sw_data w' = <[slot := l]> (sw_data w)));
  sw_out_cluster ls w r w' : sw_ok w -> Forall (fun l => zlen l = PAGE_SIZE) ls.*2 -> swap_out_cluster ls w = (r, w') ->
    sw_ok w' /\ match r with
                | None => sw_data w' = sw_data w
                | Some slots => length slots = length ls /\ NoDup slots /\ (forall x, x ∈ slots -> x <> 0 /\ sw_data w !! x = None)
                                /\ sw_data w' = list_to_map (zip slots ls.*2) ∪ sw_data w
                end;
  sw_in slot phys w r w' : sw_ok w -> is_Some (sw_data w !! slot) -> swap_in slot phys w = (r, w') ->
    sw_ok w' /\ sw_data w' = sw_data w /\ (forall l, r = inl l -> sw_data w !! slot = Some l);
  sw_in_cluster slot phys w r w' : sw_ok w -> (forall i, (i < length phys)%nat -> is_Some (sw_data w !! (slot + Z.of_nat i))) -> swap_in_cluster slot phys w = (r, w') ->
    sw_ok w' /\ sw_data w' = sw_data w
    /\ (forall ls, r = inl ls -> length ls = length phys /\ forall i, (i < length phys)%nat -> sw_data w !! (slot + Z.of_nat i) = ls !! i);
  sw_free slot w : sw_ok w -> is_Some (sw_data w !! slot) -> sw_ok (swap_free slot w) /\ sw_data (swap_free slot w) = delete slot (sw_data w);
  sw_held slot w : sw_ok w -> is_Some (sw_data w !! slot) -> swap_slot_held slot w = true;
}.

(** [tb_pending] bounds how often an accessed bit can still be found set. *)
Class TableLaws (A : Type) `{Tables A} := {
  tb_pending : A -> nat;
  tb_clear pml4 va t a t' : vmm_test_and_clear_accessed_in pml4 va t = (a, t') ->
    (tb_pending t' <= tb_pending t)%nat /\ (a = true -> (tb_pending t' < tb_pending t)%nat);
  tb_unmap pml4 va t : (tb_pending (vmm_unmap_in pml4 va t) <= tb_pending t)%nat;
}.

Class HeapLaws (A : Type) `{Heap A} := {
  hp_ok : A -> Prop;
  hp_used : A -> gset Z;
  hp_alloc n h x h' : hp_ok h -> kmalloc n h = (x, h') ->
    hp_ok h' /\ ((x = 0 /\ hp_used h' = hp_used h) \/ (x <> 0 /\ (x ∉ hp_used h) /\ hp_used h' = {[x]} ∪ hp_used h));
  hp_free h x : hp_ok h -> x ∈ hp_used h -> hp_ok (kfree x h) /\ hp_used (kfree x h) = hp_used h ∖ {[x]};
}.

(** ** Generic lemmas *)

Lemma zlen_concat ls : Forall (fun l => zlen l = PAGE_SIZE) ls -> zlen (concat ls) = Z.of_nat (length ls) * PAGE_SIZE.
Proof. induction 1 as [| l ls Hl Hls IH]; cbn [concat length]; [done |]. rewrite zlen_app, Hl, IH. lia. Qed.

(** How many records of a map satisfy a test. *)
Definition cnt (f : vmo_page -> bool) (m : gmap rid vmo_page) : Z := Z.of_nat (size (filter (fun kv => f (snd kv) = true) m)).

Lemma cnt_insert_new f m r p : m !! r = None -> cnt f (<[r := p]> m) = cnt f m + Z.b2z (f p).
Proof.
  intros Hr. unfold cnt. destruct (f p) eqn:E.
  - rewrite map_filter_insert_True, map_size_insert_None; [cbn; lia | | done]. by apply map_lookup_filter_None_2; left.
  - rewrite map_filter_insert_False by (cbn; congruence). rewrite delete_id by done. cbn. lia.
Qed.

Lemma cnt_delete f m r p : m !! r = Some p -> cnt f m = cnt f (delete r m) + Z.b2z (f p).
Proof.
  intros Hr. rewrite <- (insert_delete_id m r p Hr) at 1. apply cnt_insert_new, lookup_delete_eq.
Qed.

Lemma cnt_insert f m r p q : m !! r = Some p -> cnt f (<[r := q]> m) = cnt f m - Z.b2z (f p) + Z.b2z (f q).
Proof.
  intros Hr. rewrite <- insert_delete_eq, cnt_insert_new by apply lookup_delete_eq. rewrite (cnt_delete f m r p Hr). lia.
Qed.

Lemma cnt_zero f m : cnt f m = 0 <-> forall r p, m !! r = Some p -> f p = false.
Proof.
  unfold cnt. split.
  - intros H0 r p Hr. destruct (f p) eqn:E; [| done].
    assert (Hs : filter (fun kv => f (snd kv) = true) m = ∅) by (apply map_size_empty_inv; lia).
    assert (Hl : filter (fun kv => f (snd kv) = true) m !! r = Some p) by by apply map_lookup_filter_Some_2.
    rewrite Hs in Hl. done.
  - intros Hf. assert (Hs : filter (fun kv => f (snd kv) = true) m = ∅).
    { apply map_empty. intros r. apply map_lookup_filter_None. right. intros p Hr He. cbn in He. rewrite (Hf r p Hr) in He. done. }
    by rewrite Hs, map_size_empty.
Qed.

Lemma cnt_nonneg f m : 0 <= cnt f m.
Proof. unfold cnt. lia. Qed.

Lemma in_new (x : Z) (X : gset Z) : x ∈ {[x]} ∪ X.
Proof. apply elem_of_union_l. by apply elem_of_singleton. Qed.

Lemma in_old (a x : Z) (X : gset Z) : a ∈ X -> a ∈ {[x]} ∪ X.
Proof. apply elem_of_union_r. Qed.

Lemma in_minus (a x : Z) (X : gset Z) : a ∈ X -> a <> x -> a ∈ X ∖ {[x]}.
Proof. intros Ha Hne. apply elem_of_difference. by rewrite elem_of_singleton. Qed.

Lemma elem_without r x l : x ∈ without r l <-> x ∈ l /\ x <> r.
Proof. unfold without. rewrite list_elem_of_filter. tauto. Qed.

Lemma NoDup_without r l : NoDup l -> NoDup (without r l).
Proof. apply NoDup_filter. Qed.

Lemma without_notin r l : r ∉ l -> without r l = l.
Proof. intros Hr. apply filter_all. apply Forall_forall. intros x Hx ->. done. Qed.

Lemma same_file_refl vn : same_file vn vn = true.
Proof. unfold same_file. by rewrite bool_decide_eq_true_2, Z.eqb_refl. Qed.

Lemma same_file_sym a b : same_file a b = same_file b a.
Proof. unfold same_file. rewrite Z.eqb_sym. f_equal. apply bool_decide_ext. split; intros; congruence. Qed.

Lemma same_file_trans a b c : same_file a b = true -> same_file b c = same_file a c.
Proof. unfold same_file. intros [E1 E2]%andb_true_iff. apply bool_decide_eq_true in E1. b2p. by rewrite E1, E2. Qed.

(** Files stay below this, in bytes and in pages. *)
Definition FILE_MAX : Z := 2 ^ 63.
Definition PAGE_MAX : Z := 2 ^ 51.

(** ** The index of an object *)

Lemma bucket_range b index k : length b = (2 ^ k)%nat -> 0 <= bucket_of b index < Z.of_nat (length b).
Proof.
  intros Hb. unfold bucket_of. rewrite Hb, Nat2Z.inj_pow. change (Z.of_nat 2) with 2.
  rewrite land_ones_mod by lia. apply Z.mod_pos_bound. lia.
Qed.

Record Ix (B : gmap Z (list (list rid))) (R : gmap rid vmo_page) : Prop := {
  ix_pow o b : B !! o = Some b -> exists k, length b = (2 ^ k)%nat;
  ix_nodup o b n l : B !! o = Some b -> b !! n = Some l -> NoDup l;
  ix_in o b n l r : B !! o = Some b -> b !! n = Some l ->
    r ∈ l <-> exists p, R !! r = Some p /\ p_owner p = o /\ Z.to_nat (bucket_of b (p_index p)) = n;
  ix_own r p : R !! r = Some p -> is_Some (B !! p_owner p);
  ix_uniq r r' p p' : R !! r = Some p -> R !! r' = Some p' -> p_owner p = p_owner p' -> p_index p = p_index p' -> r = r';
  ix_index r p : R !! r = Some p -> 0 <= p_index p < PAGE_MAX;
  ix_wired r p : R !! r = Some p -> 0 <= p_wired p;
}.

Lemma ix_chain B R o b i : Ix B R -> B !! o = Some b -> b !! Z.to_nat (bucket_of b i) = Some (chain b (bucket_of b i)).
Proof.
  intros HI Hb. destruct (ix_pow _ _ HI _ _ Hb) as [k Hk]. pose proof (bucket_range b i k Hk).
  unfold chain. destruct (lookup_lt_is_Some_2 b (Z.to_nat (bucket_of b i)) ltac:(lia)) as [l Hl]. by rewrite Hl.
Qed.

Lemma ix_pages B R o b r : Ix B R -> B !! o = Some b -> r ∈ concat b <-> exists p, R !! r = Some p /\ p_owner p = o.
Proof.
  intros HI Hb. rewrite list_elem_of_In, in_concat. split.
  - intros (l & Hl & Hr). apply list_elem_of_In in Hl, Hr. apply list_elem_of_lookup in Hl as [n Hn].
    apply (ix_in _ _ HI _ _ _ _ r Hb Hn) in Hr as (p & ? & ? & _). eauto.
  - intros (p & Hp & Ho). exists (chain b (bucket_of b (p_index p))). rewrite <- !list_elem_of_In.
    pose proof (ix_chain B R o b (p_index p) HI Hb) as Hl. split; [by eapply list_elem_of_lookup_2 |].
    apply (ix_in _ _ HI _ _ _ _ r Hb Hl). eauto.
Qed.

Lemma ix_pages_nodup B R o b : Ix B R -> B !! o = Some b -> NoDup (concat b).
Proof.
  intros HI Hb.
  assert (Hall : forall n l, b !! n = Some l -> NoDup l) by (intros n l; by apply (ix_nodup _ _ HI o)).
  assert (Hdis : forall n m l l' r, b !! n = Some l -> b !! m = Some l' -> r ∈ l -> r ∈ l' -> n = m).
  { intros n m l l' r Hn Hm Hr Hr'. apply (ix_in _ _ HI _ _ _ _ r Hb Hn) in Hr as (p & Hp & _ & <-).
    apply (ix_in _ _ HI _ _ _ _ r Hb Hm) in Hr' as (p' & Hp' & _ & <-). congruence. }
  clear HI Hb. induction b as [| l b IH]; cbn; [constructor |]. apply NoDup_app. split_and!.
  - by apply (Hall 0%nat).
  - intros r Hr Hc. rewrite list_elem_of_In, in_concat in Hc. destruct Hc as (l' & Hl' & Hr').
    apply list_elem_of_In in Hl', Hr'. apply list_elem_of_lookup in Hl' as [n Hn].
    discriminate (Hdis 0%nat (S n) l l' r eq_refl Hn Hr Hr').
  - apply IH; [intros n l' Hl'; by apply (Hall (S n)) |].
    intros n m l1 l2 r H1 H2 Hr1 Hr2. enough (S n = S m) by lia. by apply (Hdis (S n) (S m) l1 l2 r).
Qed.

(** A record changes, but not what names it. *)
Lemma ix_update B R r p p' : Ix B R -> R !! r = Some p -> p_owner p' = p_owner p -> p_index p' = p_index p -> 0 <= p_wired p' -> Ix B (<[r := p']> R).
Proof.
  intros HI Hr Ho Hi Hw.
  assert (Hsame : forall x q, <[r := p']> R !! x = Some q -> exists q0, R !! x = Some q0 /\ p_owner q = p_owner q0 /\ p_index q = p_index q0).
  { intros x q Hx. destruct (decide (x = r)) as [-> | Hne].
    - rewrite lookup_insert_eq in Hx. injection Hx as <-. eauto.
    - rewrite lookup_insert_ne in Hx by done. eauto. }
  split; [apply HI | apply HI | | | | |].
  - intros o b n l x Hb Hn. rewrite (ix_in _ _ HI _ _ _ _ x Hb Hn). split; intros (q & Hq & Eo & Ei).
    + destruct (decide (x = r)) as [-> | Hne].
      * exists p'. rewrite lookup_insert_eq. simplify_eq. split_and!; congruence.
      * exists q. rewrite lookup_insert_ne by done. done.
    + destruct (Hsame x q Hq) as (q0 & ? & E1 & E2). exists q0. rewrite <- E1, <- E2. done.
  - intros x q Hx. destruct (Hsame x q Hx) as (q0 & Hq0 & -> & _). by apply (ix_own _ _ HI x).
  - intros x x' q q' Hx Hx' Eo Ei. destruct (Hsame x q Hx) as (q0 & ? & E1 & E2). destruct (Hsame x' q' Hx') as (q1 & ? & E3 & E4).
    apply (ix_uniq _ _ HI x x' q0 q1); congruence.
  - intros x q Hx. destruct (Hsame x q Hx) as (q0 & Hq0 & _ & ->). by apply (ix_index _ _ HI x).
  - intros x q Hx. apply lookup_insert_Some in Hx as [[<- <-] | [_ Hx]]; [done | by apply (ix_wired _ _ HI x)].
Qed.

(** One object's table and pages change. *)
Lemma ix_set_object B R R' o b' :
  Ix B R -> (exists k, length b' = (2 ^ k)%nat) ->
  (forall n l, b' !! n = Some l -> NoDup l) ->
  (forall n l r, b' !! n = Some l ->
     r ∈ l <-> exists p, R' !! r = Some p /\ p_owner p = o /\ Z.to_nat (bucket_of b' (p_index p)) = n) ->
  (forall r p, p_owner p <> o -> R' !! r = Some p <-> R !! r = Some p) ->
  (forall r p, R' !! r = Some p -> p_owner p = o -> 0 <= p_index p < PAGE_MAX /\ 0 <= p_wired p) ->
  (forall r r' p p', R' !! r = Some p -> R' !! r' = Some p' -> p_owner p = o -> p_owner p' = o -> p_index p = p_index p' -> r = r') ->
  Ix (<[o := b']> B) R'.
Proof.
  intros HI Hk Hnd Hin Hoth Hrng Huq. split.
  - intros o' b Hb. apply lookup_insert_Some in Hb as [[<- <-] | [_ Hb]]; [done | by apply (ix_pow _ _ HI o')].
  - intros o' b n l Hb. apply lookup_insert_Some in Hb as [[<- <-] | [_ Hb]]; [apply Hnd | by apply (ix_nodup _ _ HI o')].
  - intros o' b n l r Hb Hn. apply lookup_insert_Some in Hb as [[<- <-] | [Hne Hb]]; [by apply Hin |].
    rewrite (ix_in _ _ HI _ _ _ _ r Hb Hn). split; intros (p & Hp & Ho & Hi); exists p; (split; [| done]); apply Hoth; congruence.
  - intros r p Hp. destruct (decide (p_owner p = o)) as [-> | Hne]; [rewrite lookup_insert_eq; eauto |].
    rewrite lookup_insert_ne by done. apply (ix_own _ _ HI r). by apply Hoth.
  - intros r r' p p' Hp Hp' Ho Hi. destruct (decide (p_owner p = o)) as [E | Hne].
    + apply (Huq r r' p p'); congruence.
    + apply (ix_uniq _ _ HI r r' p p'); [apply Hoth | apply Hoth | |]; congruence.
  - intros r p Hp. destruct (decide (p_owner p = o)) as [E | Hne]; [by apply (Hrng r) |].
    apply (ix_index _ _ HI r). by apply Hoth.
  - intros r p Hp. destruct (decide (p_owner p = o)) as [E | Hne]; [by apply (Hrng r) |].
    apply (ix_wired _ _ HI r). by apply Hoth.
Qed.

Lemma bucket_length b b' i : length b' = length b -> bucket_of b' i = bucket_of b i.
Proof. unfold bucket_of. by intros ->. Qed.

Lemma chain_put_lookup b i l n l' :
  0 <= i < Z.of_nat (length b) -> chain_put b i l !! n = Some l' -> (n = Z.to_nat i /\ l' = l) \/ (n <> Z.to_nat i /\ b !! n = Some l').
Proof.
  intros Hi Hn. unfold chain_put, wr in Hn. apply list_lookup_insert_Some in Hn as [(-> & <- & _) | [Hne Hn]]; [by left | right; by split].
Qed.

Lemma ix_add B R o b r p :
  Ix B R -> B !! o = Some b -> R !! r = None -> p_owner p = o -> 0 <= p_index p < PAGE_MAX -> 0 <= p_wired p ->
  (forall r' p', R !! r' = Some p' -> p_owner p' = o -> p_index p' <> p_index p) ->
  Ix (<[o := chain_put b (bucket_of b (p_index p)) (r :: chain b (bucket_of b (p_index p)))]> B) (<[r := p]> R).
Proof.
  intros HI Hb Hr Ho Hi Hw Hnew. destruct (ix_pow _ _ HI _ _ Hb) as [k Hk]. set (h := bucket_of b (p_index p)).
  pose proof (bucket_range b (p_index p) k Hk) as Hh. fold h in Hh. pose proof (ix_chain B R o b (p_index p) HI Hb) as Hc. fold h in Hc.
  assert (Hlen : length (chain_put b h (r :: chain b h)) = length b) by apply wr_length.
  assert (Hnot : forall n l, b !! n = Some l -> r ∉ l).
  { intros n l Hl Hin. apply (ix_in _ _ HI _ _ _ _ r Hb Hl) in Hin as (q & Hq & _). congruence. }
  apply (ix_set_object B R); [done | exists k; by rewrite Hlen | | | | |].
  - intros n l Hl. apply chain_put_lookup in Hl as [[-> ->] | [_ Hl]]; [| by apply (ix_nodup _ _ HI o b n) | done].
    apply NoDup_cons. split; [by apply (Hnot (Z.to_nat h)) | by apply (ix_nodup _ _ HI o b (Z.to_nat h))].
  - intros n l x Hl. apply chain_put_lookup in Hl as [[-> ->] | [Hne Hl]]; [| | done].
    + rewrite elem_of_cons, (ix_in _ _ HI _ _ _ _ x Hb Hc). split.
      * intros [-> | (q & Hq & Eo & Ei)]; [exists p | exists q].
        { rewrite lookup_insert_eq, (bucket_length b) by done. done. }
        { rewrite lookup_insert_ne, (bucket_length b) by (done || congruence). done. }
      * intros (q & Hq & Eo & Ei). rewrite (bucket_length b) in Ei by done.
        apply lookup_insert_Some in Hq as [[<- _] | [_ Hq]]; [by left | right; eauto].
    + rewrite (ix_in _ _ HI _ _ _ _ x Hb Hl). split; intros (q & Hq & Eo & Ei); exists q; rewrite (bucket_length b) in * by done.
      * rewrite lookup_insert_ne by congruence. done.
      * apply lookup_insert_Some in Hq as [[<- <-] | [_ Hq]]; [| done]. done.
  - intros x q Hq. rewrite lookup_insert_Some. split; [intros [[<- <-] | [_ ?]]; done |]. intros Hx. right. split; [congruence | done].
  - intros x q Hq _. apply lookup_insert_Some in Hq as [[<- <-] | [_ Hq]]; [done | split; [by apply (ix_index _ _ HI x) | by apply (ix_wired _ _ HI x)]].
  - intros x x' q q' Hq Hq' Eo Eo' Ei. apply lookup_insert_Some in Hq as [[<- <-] | [_ Hq]], Hq' as [[<- <-] | [_ Hq']].
    + done.
    + exfalso. by apply (Hnew x' q').
    + exfalso. by apply (Hnew x q).
    + apply (ix_uniq _ _ HI x x' q q'); congruence.
Qed.

Lemma ix_remove B R o b r p :
  Ix B R -> B !! o = Some b -> R !! r = Some p -> p_owner p = o ->
  Ix (<[o := chain_put b (bucket_of b (p_index p)) (without r (chain b (bucket_of b (p_index p))))]> B) (delete r R).
Proof.
  intros HI Hb Hr Ho. destruct (ix_pow _ _ HI _ _ Hb) as [k Hk]. set (h := bucket_of b (p_index p)).
  pose proof (bucket_range b (p_index p) k Hk) as Hh. fold h in Hh. pose proof (ix_chain B R o b (p_index p) HI Hb) as Hc. fold h in Hc.
  assert (Hlen : length (chain_put b h (without r (chain b h))) = length b) by apply wr_length.
  apply (ix_set_object B R); [done | exists k; by rewrite Hlen | | | | |].
  - intros n l Hl. apply chain_put_lookup in Hl as [[-> ->] | [_ Hl]]; [| by apply (ix_nodup _ _ HI o b n) | done].
    apply NoDup_without. by apply (ix_nodup _ _ HI o b (Z.to_nat h)).
  - intros n l x Hl. apply chain_put_lookup in Hl as [[-> ->] | [Hne Hl]]; [| | done].
    + rewrite elem_without, (ix_in _ _ HI _ _ _ _ x Hb Hc). split.
      * intros [(q & Hq & Eo & Ei) Hx]. exists q. rewrite lookup_delete_ne, (bucket_length b) by done. done.
      * intros (q & Hq & Eo & Ei). rewrite (bucket_length b) in Ei by done. apply lookup_delete_Some in Hq as [Hx Hq].
        split; [eauto | done].
    + rewrite (ix_in _ _ HI _ _ _ _ x Hb Hl). split; intros (q & Hq & Eo & Ei); exists q; rewrite (bucket_length b) in * by done.
      * rewrite lookup_delete_ne; [done |]. intros ->. apply Hne. rewrite <- Ei. unfold h. congruence.
      * apply lookup_delete_Some in Hq as [_ Hq]. done.
  - intros x q Hq. rewrite lookup_delete_Some. split; [by intros [_ ?] |]. intros Hx. split; [congruence | done].
  - intros x q Hq _. apply lookup_delete_Some in Hq as [_ Hq]. split; [by apply (ix_index _ _ HI x) | by apply (ix_wired _ _ HI x)].
  - intros x x' q q' Hq Hq' Eo Eo' Ei. apply lookup_delete_Some in Hq as [_ Hq], Hq' as [_ Hq'].
    apply (ix_uniq _ _ HI x x' q q'); congruence.
Qed.

Lemma replicate_nil_lookup {A} n m (l : list A) : replicate n [] !! m = Some l -> l = [].
Proof. intros Hl. by apply lookup_replicate in Hl as [-> _]. Qed.

Lemma ix_clear B R R' o b :
  Ix B R -> B !! o = Some b -> (forall r p, R' !! r = Some p <-> R !! r = Some p /\ p_owner p <> o) ->
  Ix (<[o := replicate (length b) []]> B) R'.
Proof.
  intros HI Hb HR. destruct (ix_pow _ _ HI _ _ Hb) as [k Hk]. apply (ix_set_object B R); [done | exists k; by rewrite length_replicate | | | | |].
  - intros n l ->%replicate_nil_lookup. constructor.
  - intros n l r ->%replicate_nil_lookup. split; [by intros ?%not_elem_of_nil |]. intros (p & Hp & Ho & _). by apply HR in Hp as [_ ?].
  - intros r p Hp. rewrite HR. tauto.
  - intros r p Hp Ho. by apply HR in Hp as [_ ?].
  - intros r r' p p' Hp _ Ho. by apply HR in Hp as [_ ?].
Qed.

Lemma ix_new_object B R o b :
  Ix B R -> B !! o = None -> (exists k, length b = (2 ^ k)%nat) -> (forall n l, b !! n = Some l -> l = []) -> Ix (<[o := b]> B) R.
Proof.
  intros HI Hb Hk Hl.
  assert (Hno : forall r p, R !! r = Some p -> p_owner p <> o) by (intros r p Hp E; destruct (ix_own _ _ HI r p Hp); congruence).
  apply (ix_set_object B R); [done | done | | | done | |].
  - intros n l ->%Hl. constructor.
  - intros n l r ->%Hl. split; [by intros ?%not_elem_of_nil |]. intros (p & Hp & Ho & _). by apply Hno in Hp.
  - intros r p Hp Ho. by apply Hno in Hp.
  - intros r r' p p' Hp _ Ho. by apply Hno in Hp.
Qed.

Lemma ix_drop_object B R o : Ix B R -> (forall r p, R !! r = Some p -> p_owner p <> o) -> Ix (delete o B) R.
Proof.
  intros HI Hno. split.
  - intros o' b Hb. apply lookup_delete_Some in Hb as [_ Hb]. by apply (ix_pow _ _ HI o').
  - intros o' b n l Hb. apply lookup_delete_Some in Hb as [_ Hb]. by apply (ix_nodup _ _ HI o').
  - intros o' b n l r Hb. apply lookup_delete_Some in Hb as [_ Hb]. by apply (ix_in _ _ HI o').
  - intros r p Hp. rewrite lookup_delete_ne; [by apply (ix_own _ _ HI r) |]. intros E. by apply (Hno r p Hp).
  - apply (ix_uniq _ _ HI).
  - apply (ix_index _ _ HI).
  - apply (ix_wired _ _ HI).
Qed.

(** Moving records to a table one by one, each to the chain [h] says. *)
Definition move_to (h : rid -> Z) (nt : list (list rid)) (r : rid) : list (list rid) := chain_put nt (h r) (r :: chain nt (h r)).

Lemma move_all h l : forall nt (P : rid -> Prop),
  (forall r, 0 <= h r < Z.of_nat (length nt)) -> NoDup l -> (forall r, P r -> r ∉ l) ->
  (forall n c, nt !! n = Some c -> NoDup c /\ forall r, r ∈ c <-> P r /\ Z.to_nat (h r) = n) ->
  let nt' := fold_left (move_to h) l nt in
  length nt' = length nt /\ forall n c, nt' !! n = Some c -> NoDup c /\ forall r, r ∈ c <-> (P r \/ r ∈ l) /\ Z.to_nat (h r) = n.
Proof.
  induction l as [| x l IH]; intros nt P Hh Hnd Hdis Hnt; cbn.
  - split; [done |]. intros n c Hc. destruct (Hnt n c Hc) as [? Hr]. split; [done |]. intros r. rewrite Hr, elem_of_nil. tauto.
  - apply NoDup_cons in Hnd as [Hx Hnd]. assert (Hlen : length (move_to h nt x) = length nt) by apply wr_length.
    destruct (IH (move_to h nt x) (fun r => P r \/ r = x)) as [H1 H2]; [by rewrite Hlen | done | | |].
    + intros r [Hr | ->]; [| done]. specialize (Hdis r Hr). rewrite elem_of_cons in Hdis. tauto.
    + intros n c Hc. apply chain_put_lookup in Hc as [[-> ->] | [Hne Hc]]; [| | apply Hh].
      * destruct (lookup_lt_is_Some_2 nt (Z.to_nat (h x)) ltac:(specialize (Hh x); lia)) as [c Hc].
        unfold chain. rewrite Hc. cbn. destruct (Hnt _ _ Hc) as [Hcn Hcr]. split.
        { apply NoDup_cons. split; [| done]. rewrite Hcr. intros [HP _]. apply (Hdis x HP). apply elem_of_cons. by left. }
        { intros r. rewrite elem_of_cons, Hcr. split; [intros [-> | []]; tauto |]. intros [[HP | ->] E]; tauto. }
      * destruct (Hnt _ _ Hc) as [Hcn Hcr]. split; [done |]. intros r. rewrite Hcr. split; [tauto |]. intros [[HP | ->] E]; [tauto | done].
    + split; [by rewrite H1 |]. intros n c Hc. destruct (H2 n c Hc) as [? Hr]. split; [done |]. intros r. rewrite Hr, elem_of_cons. tauto.
Qed.

Lemma ix_rehash B R o b (idx : rid -> Z) :
  Ix B R -> B !! o = Some b -> (forall r p, R !! r = Some p -> idx r = p_index p) -> (forall r, 0 <= idx r) ->
  let nb := Z.of_nat (length b) * 2 in
  Ix (<[o := fold_left (move_to (fun r => Z.land (idx r) (nb - 1))) (concat b) (replicate (Z.to_nat nb) [])]> B) R.
Proof.
  intros HI Hb Hidx Hpos nb. destruct (ix_pow _ _ HI _ _ Hb) as [k Hk].
  assert (Hnb : nb = 2 ^ Z.of_nat (S k)).
  { unfold nb. rewrite Hk, Nat2Z.inj_pow. change (Z.of_nat 2) with 2. rewrite Nat2Z.inj_succ, Z.pow_succ_r by lia. lia. }
  destruct (move_all (fun r => Z.land (idx r) (nb - 1)) (concat b) (replicate (Z.to_nat nb) []) (fun _ => False)) as [H1 H2].
  - intros r. rewrite length_replicate, Z2Nat.id, Hnb, land_ones_mod by lia. apply Z.mod_pos_bound. lia.
  - by apply (ix_pages_nodup B R o).
  - done.
  - intros n c ->%replicate_nil_lookup. split; [constructor |]. intros r. rewrite elem_of_nil. tauto.
  - rewrite length_replicate in H1. set (b' := fold_left _ _ _) in *.
    assert (Hlb : Z.of_nat (length b') = nb) by lia.
    apply (ix_set_object B R); [done | | | | done | |].
    + exists (S k). rewrite H1, Hnb. rewrite <- (Nat2Z.id (2 ^ S k)%nat), Nat2Z.inj_pow. done.
    + intros n l Hl. apply (H2 n l Hl).
    + intros n l r Hl. rewrite (proj2 (H2 n l Hl) r). rewrite (ix_pages B R o b r HI Hb). unfold bucket_of. rewrite Hlb. split.
      * intros [[[] | (p & Hp & Ho)] E]. exists p. rewrite <- (Hidx r p Hp). done.
      * intros (p & Hp & Ho & E). rewrite <- (Hidx r p Hp) in E. split; [right; eauto | done].
    + intros r p Hp _. split; [by apply (ix_index _ _ HI r) | by apply (ix_wired _ _ HI r)].
    + intros r r' p p' Hp Hp' E E' Ei. apply (ix_uniq _ _ HI r r' p p'); congruence.
Qed.

(** ** Views of the objects *)

(** What the holders of an object see of it. *)
Record face := mkFace {
  k_vn : vnode; k_size : Z; k_anon : bool; k_no_writeback : bool; k_refs : Z; k_pml4 : Z; k_base : Z;
}.

Definition face_of (ob : vm_object) : face :=
  mkFace (o_vn ob) (o_size ob) (o_anon ob) (o_no_writeback ob) (o_refs ob) (o_mapper_pml4 ob) (o_mapper_base ob).

Definition counts_of (ob : vm_object) : Z * Z * Z := (o_resident ob, o_dirty_pages ob, o_swapped ob).

(** ** Counts *)

Definition resident_of (o : Z) (p : vmo_page) : bool := (p_owner p =? o) && negb (p_phys p =? 0).
Definition dirty_of (o : Z) (p : vmo_page) : bool := (p_owner p =? o) && p_dirty p.
Definition out_of (o : Z) (p : vmo_page) : bool := (p_owner p =? o) && (p_phys p =? 0).

Definition counted (o : Z) (R : gmap rid vmo_page) : Z * Z * Z := (cnt (resident_of o) R, cnt (dirty_of o) R, cnt (out_of o) R).
Definition Ct (C : gmap Z (Z * Z * Z)) (R : gmap rid vmo_page) : Prop := forall o c, C !! o = Some c -> c = counted o R.

Definition share (o : Z) (p : vmo_page) : Z * Z * Z := (Z.b2z (resident_of o p), Z.b2z (dirty_of o p), Z.b2z (out_of o p)).
Definition add3 (a b : Z * Z * Z) : Z * Z * Z := let '(x, y, z) := a in let '(x', y', z') := b in (x + x', y + y', z + z').
Definition sub3 (a b : Z * Z * Z) : Z * Z * Z := let '(x, y, z) := a in let '(x', y', z') := b in (x - x', y - y', z - z').

Lemma share_other o p : p_owner p <> o -> share o p = (0, 0, 0).
Proof. intros Hne. unfold share, resident_of, dirty_of, out_of. apply Z.eqb_neq in Hne. by rewrite Hne. Qed.

Lemma counted_add o R r p : R !! r = None -> counted o (<[r := p]> R) = add3 (counted o R) (share o p).
Proof. intros Hr. unfold counted. by rewrite !cnt_insert_new. Qed.

Lemma counted_del o R r p : R !! r = Some p -> counted o (delete r R) = sub3 (counted o R) (share o p).
Proof. intros Hr. unfold counted. rewrite !(cnt_delete _ R r p Hr). cbn. f_equal; [f_equal |]; lia. Qed.

Lemma counted_set o R r p q : R !! r = Some p -> counted o (<[r := q]> R) = add3 (sub3 (counted o R) (share o p)) (share o q).
Proof. intros Hr. unfold counted. by rewrite !(cnt_insert _ R r p q Hr). Qed.

Lemma ct_add C R o c r p : Ct C R -> C !! o = Some c -> R !! r = None -> p_owner p = o -> Ct (<[o := add3 c (share o p)]> C) (<[r := p]> R).
Proof.
  intros HC Hc Hr Ho o' c' H'. rewrite counted_add by done. apply lookup_insert_Some in H' as [[<- <-] | [Hne H']].
  - by rewrite (HC o c Hc).
  - rewrite share_other by congruence. rewrite (HC o' c' H'). destruct (counted o' R) as [[x y] z]. cbn. f_equal; [f_equal |]; lia.
Qed.

Lemma ct_del C R o c r p : Ct C R -> C !! o = Some c -> R !! r = Some p -> p_owner p = o -> Ct (<[o := sub3 c (share o p)]> C) (delete r R).
Proof.
  intros HC Hc Hr Ho o' c' H'. rewrite (counted_del _ _ _ p) by done. apply lookup_insert_Some in H' as [[<- <-] | [Hne H']].
  - by rewrite (HC o c Hc).
  - rewrite share_other by congruence. rewrite (HC o' c' H'). destruct (counted o' R) as [[x y] z]. cbn. f_equal; [f_equal |]; lia.
Qed.

Lemma ct_set C R o c r p q :
  Ct C R -> C !! o = Some c -> R !! r = Some p -> p_owner p = o -> p_owner q = o ->
  Ct (<[o := add3 (sub3 c (share o p)) (share o q)]> C) (<[r := q]> R).
Proof.
  intros HC Hc Hr Ho Hq o' c' H'. rewrite (counted_set _ _ _ p) by done. apply lookup_insert_Some in H' as [[<- <-] | [Hne H']].
  - by rewrite (HC o c Hc).
  - rewrite !share_other by congruence. rewrite (HC o' c' H'). destruct (counted o' R) as [[x y] z]. cbn. f_equal; [f_equal |]; lia.
Qed.

(** A change that no count sees. *)
Lemma ct_keep C R r p q : Ct C R -> R !! r = Some p -> (forall o, share o q = share o p) -> Ct C (<[r := q]> R).
Proof.
  intros HC Hr Hs o c Hc. rewrite (counted_set _ _ _ p), Hs by done. rewrite (HC o c Hc). destruct (counted o R) as [[x y] z], (share o p) as [[x' y'] z']. cbn.
  f_equal; [f_equal |]; lia.
Qed.

(** What is counted is there to be taken away. *)
Lemma counted_has o R r p : R !! r = Some p -> p_owner p = o ->
  (p_phys p <> 0 -> 0 < cnt (resident_of o) R) /\ (p_dirty p = true -> 0 < cnt (dirty_of o) R) /\ (p_phys p = 0 -> 0 < cnt (out_of o) R).
Proof.
  intros Hr Ho. rewrite !(cnt_delete _ R r p Hr). pose proof (cnt_nonneg (resident_of o) (delete r R)). pose proof (cnt_nonneg (dirty_of o) (delete r R)).
  pose proof (cnt_nonneg (out_of o) (delete r R)). unfold resident_of, dirty_of, out_of. rewrite Ho, Z.eqb_refl. cbn [andb].
  split_and!; intros Hp.
  - apply Z.eqb_neq in Hp. rewrite Hp. cbn. unfold resident_of in *. lia.
  - rewrite Hp. cbn. unfold dirty_of in *. lia.
  - rewrite Hp. cbn. unfold out_of in *. lia.
Qed.

(** What a block of the heap is used for. *)
Inductive role := Chunk | Object | Table (o : Z).

Definition zero_page : list Z := replicate (Z.to_nat PAGE_SIZE) 0.
Definition fbytes (m : gmap Z (list Z)) (phys : Z) : list Z := default zero_page (m !! phys).

Lemma zero_page_length : zlen zero_page = PAGE_SIZE.
Proof. unfold zero_page. rewrite zlen_replicate. done. Qed.

Lemma rd_zero_page j : rd zero_page j = 0.
Proof.
  unfold rd, zero_page. destruct (replicate _ _ !! _) eqn:E; [| done]. by apply lookup_replicate in E as [-> _].
Qed.

Lemma fbytes_insert_ne m a b l : a <> b -> fbytes (<[a := l]> m) b = fbytes m b.
Proof. intros Hne. unfold fbytes. by rewrite lookup_insert_ne. Qed.

Lemma fbytes_insert_eq m a l : fbytes (<[a := l]> m) a = l.
Proof. unfold fbytes. by rewrite lookup_insert_eq. Qed.

Lemma page_split pos : pos = pos / PAGE_SIZE * PAGE_SIZE + pos mod PAGE_SIZE /\ 0 <= pos mod PAGE_SIZE < PAGE_SIZE.
Proof. pose proof (Z.div_mod pos PAGE_SIZE ltac:(done)). split; [lia | by apply Z.mod_pos_bound]. Qed.

(** A process can store into a page of a file through its mapping after the page
    was written back; nothing marks the page, so the cache takes it for clean
    and the byte may be lost.  What the cache promises, it promises of the other
    bytes: [firm vn pos] says which bytes of which files are meant. *)
Class Firm := firm : vnode -> Z -> bool.

Section Inv.
Context {Fr FS SW PT HP : Type} `{FrameLaws Fr} `{FileLaws FS} `{SlotLaws SW} `{TableLaws PT} `{HeapLaws HP} {FM : Firm}.

Local Abbreviation cache := (@cache Fr FS SW PT HP).
Implicit Types (K : gmap Z face) (R : gmap rid vmo_page) (m : gmap Z (list Z)).

(** ** Where the pages are *)

Record Pl K R (f : Fr) (w : SW) m : Prop := {
  pl_fr : fr_ok f;
  pl_sw : sw_ok w;
  pl_in r p : R !! r = Some p -> p_phys p <> 0 ->
    p_phys p ∈ fr_held f /\ p_slot p = 0 /\ zlen (fbytes m (p_phys p)) = PAGE_SIZE;
  pl_out r p : R !! r = Some p -> p_phys p = 0 ->
    p_slot p <> 0 /\ (exists k, K !! p_owner p = Some k /\ k_anon k = true) /\ exists l, sw_data w !! p_slot p = Some l /\ zlen l = PAGE_SIZE;
  pl_inj r r' p p' : R !! r = Some p -> R !! r' = Some p' -> p_phys p <> 0 -> p_phys p = p_phys p' -> r = r';
  pl_sinj r r' p p' : R !! r = Some p -> R !! r' = Some p' -> p_phys p = 0 -> p_phys p' = 0 -> p_slot p = p_slot p' -> r = r';
}.

(** ** What the frames of file pages hold

    [x] is a page about to be overwritten as a whole, of which nothing is
    asked but zeroes past the end. *)
Record Cl (x : option rid) K R (f : FS) m : Prop := {
  cl_clean r p k j : R !! r = Some p -> K !! p_owner p = Some k -> k_anon k = false -> p_dirty p = false -> x <> Some r ->
    0 <= j < PAGE_SIZE -> firm (k_vn k) (p_index p * PAGE_SIZE + j) = true -> rd (fbytes m (p_phys p)) j = file_byte (k_vn k) (p_index p * PAGE_SIZE + j) f;
  cl_tail r p k j : R !! r = Some p -> K !! p_owner p = Some k -> k_anon k = false -> 0 <= j < PAGE_SIZE ->
    k_size k <= p_index p * PAGE_SIZE + j -> firm (k_vn k) (p_index p * PAGE_SIZE + j) = true -> rd (fbytes m (p_phys p)) j = 0;
  cl_zero o k pos : K !! o = Some k -> k_anon k = false -> k_size k <= pos -> file_byte (k_vn k) pos f = 0;
}.

(** ** The lists of reclaim *)

Definition listed (a : bool) K R (r : rid) : Prop :=
  exists p k, R !! r = Some p /\ K !! p_owner p = Some k /\ k_anon k = a /\ p_phys p <> 0.

Record Lr K R (lf la : list rid) : Prop := {
  lr_file r : r ∈ lf -> listed false K R r;
  lr_anon r : r ∈ la -> listed true K R r;
  lr_nodup_file : NoDup lf;
  lr_nodup_anon : NoDup la;
}.

(** ** The heap blocks *)

Definition Hg (T : gmap Z Z) R (free : list rid) (h : HP) : Prop :=
  hp_ok h /\ NoDup free /\ (forall r, r ∈ free -> R !! r = None)
  /\ exists own : gmap Z role,
       (forall a y, own !! a = Some y -> a ∈ hp_used h)
       /\ (forall r, r ∈ free \/ is_Some (R !! r) -> own !! fst r = Some Chunk)
       /\ (forall o t, T !! o = Some t -> own !! o = Some Object /\ (t <> 0 -> own !! t = Some (Table o))).

(** ** The registry *)

Record Kd K (reg : list Z) : Prop := {
  kd_nodup : NoDup reg;
  kd_reg o : o ∈ reg <-> is_Some (K !! o);
  kd_size o k : K !! o = Some k -> 0 <= k_size k <= FILE_MAX;
  kd_mem o k : K !! o = Some k -> k_anon k = true -> v_mnt (k_vn k) = None /\ k_no_writeback k = true;
  kd_file o k : K !! o = Some k -> k_anon k = false -> is_Some (op_of (k_vn k) file_read);
  kd_one o o' k k' : K !! o = Some k -> K !! o' = Some k' -> k_anon k = false -> k_anon k' = false ->
    same_file (k_vn k) (k_vn k') = true -> o = o';
}.

Definition faces (s : cache) : gmap Z face := face_of <$> objs s.
Definition tables (s : cache) : gmap Z Z := o_table <$> objs s.
Definition counts (s : cache) : gmap Z (Z * Z * Z) := counts_of <$> objs s.
Definition indexes (s : cache) : gmap Z (list (list rid)) := o_buckets <$> objs s.

(** ** The invariant *)

Record inv_but (x : option rid) (s : cache) : Prop := {
  i_ix : Ix (indexes s) (recs s);
  i_ct : Ct (counts s) (recs s);
  i_kd : Kd (faces s) (registry s);
  i_pl : Pl (faces s) (recs s) (fr s) (sw s) (ram s);
  i_cl : Cl x (faces s) (recs s) (fs s) (ram s);
  i_lr : Lr (faces s) (recs s) (lru_file s) (lru_anon s);
  i_hg : Hg (tables s) (recs s) (rec_free s) (hp s);
}.

Definition inv (s : cache) : Prop := inv_but None s.

(** ** The bytes of an object *)

(** What the device holds for an object that has no page there. *)
Definition backing (s : cache) (o pos : Z) : Z :=
  match op_of (o_vn (obj s o)) file_read with Some _ => file_byte (o_vn (obj s o)) pos (fs s) | None => 0 end.

(** The bytes of a page, wherever they are. *)
Definition bytes_of (s : cache) (p : vmo_page) : list Z :=
  if p_phys p =? 0 then default zero_page (sw_data (sw s) !! p_slot p) else fbytes (ram s) (p_phys p).

Definition content (s : cache) (o pos : Z) : Z :=
  match page_find s o (pos / PAGE_SIZE) with
  | Some r => rd (bytes_of s (page s r)) (pos mod PAGE_SIZE)
  | None => backing s o pos
  end.

(** The byte is memory, or a firm one of a file. *)
Definition steady (s : cache) (o pos : Z) : Prop := forall k, faces s !! o = Some k -> k_anon k = false -> firm (k_vn k) pos = true.

Lemma steady_faces (s s' : cache) o pos : faces s' = faces s -> steady s o pos -> steady s' o pos.
Proof. intros E. unfold steady. by rewrite E. Qed.

(** No object is of the file. *)
Definition uncached (s : cache) (vn : vnode) : Prop := forall o k, faces s !! o = Some k -> k_anon k = false -> same_file (k_vn k) vn = false.

(** Nobody who reads, maps or asks for the size can tell; files that are not in
    the cache are left alone. *)
Record same (s s' : cache) : Prop := {
  sm_faces : faces s' = faces s;
  sm_registry : registry s' = registry s;
  sm_content o pos : is_Some (objs s !! o) -> 0 <= pos -> steady s o pos -> content s' o pos = content s o pos;
  sm_device vn pos : 0 <= pos -> uncached s vn -> file_byte vn pos (fs s') = file_byte vn pos (fs s);
}.

Lemma same_refl s : same s s.
Proof. by split. Qed.

Lemma faces_is_Some (s s' : cache) o : faces s' = faces s -> is_Some (objs s !! o) <-> is_Some (objs s' !! o).
Proof. intros E. rewrite <- (fmap_is_Some face_of (objs s !! o)), <- (fmap_is_Some face_of (objs s' !! o)), <- !lookup_fmap. unfold faces in E. by rewrite E. Qed.

Lemma same_trans s1 s2 s3 : same s1 s2 -> same s2 s3 -> same s1 s3.
Proof.
  intros [F1 R1 C1 D1] [F2 R2 C2 D2]. split; [congruence | congruence | |].
  - intros o pos Ho Hp Hst. rewrite C2, C1; [done | done | done | done | | done | by apply (steady_faces s1)]. by apply (faces_is_Some s1 s2 o F1).
  - intros vn pos Hp Hu. rewrite D2, D1; [done | done | done | done |]. unfold uncached. by rewrite F1.
Qed.

(** ** Finding a page *)

Lemma obj_lookup (s : cache) o ob : objs s !! o = Some ob -> obj s o = ob.
Proof. intros Ho. unfold obj. by rewrite Ho. Qed.

Lemma page_lookup (s : cache) r p : recs s !! r = Some p -> page s r = p.
Proof. intros Hr. unfold page. by rewrite Hr. Qed.

Lemma find_in_spec (s : cache) i l :
  match find_in s i l with Some r => r ∈ l /\ p_index (page s r) = i | None => forall r, r ∈ l -> p_index (page s r) <> i end.
Proof.
  induction l as [| r l IH]; cbn; [by intros r ?%not_elem_of_nil |]. case_if.
  - split; [apply elem_of_cons; by left | done].
  - destruct (find_in s i l) as [r' |].
    + split; [apply elem_of_cons; right; apply IH | apply IH].
    + intros x [-> | Hx]%elem_of_cons; [done | by apply IH].
Qed.

Lemma page_find_some (s : cache) o i r : Ix (indexes s) (recs s) -> is_Some (objs s !! o) ->
  page_find s o i = Some r <-> exists p, recs s !! r = Some p /\ p_owner p = o /\ p_index p = i.
Proof.
  intros HI [ob Ho]. unfold page_find. rewrite (obj_lookup s o ob Ho).
  assert (Hb : indexes s !! o = Some (o_buckets ob)) by (unfold indexes; by rewrite lookup_fmap, Ho).
  pose proof (ix_chain _ _ _ _ i HI Hb) as Hc. pose proof (find_in_spec s i (chain (o_buckets ob) (bucket_of (o_buckets ob) i))) as Hf.
  assert (Hback : forall x p, recs s !! x = Some p -> p_owner p = o -> p_index p = i -> x ∈ chain (o_buckets ob) (bucket_of (o_buckets ob) i)).
  { intros x p Hp Eo Ei. apply (ix_in _ _ HI _ _ _ _ x Hb Hc). exists p. by rewrite Ei. }
  destruct (find_in s i _) as [r' |] eqn:E.
  - destruct Hf as [Hin Hi]. apply (ix_in _ _ HI _ _ _ _ r' Hb Hc) in Hin as (p' & Hp' & Eo' & _). rewrite (page_lookup s r' p' Hp') in Hi.
    split; [intros [= <-]; eauto |]. intros (p & Hp & Eo & Ei). f_equal. apply (ix_uniq _ _ HI r' r p' p); congruence.
  - split; [done |]. intros (p & Hp & Eo & Ei). exfalso. apply (Hf r); [by apply (Hback r p) |]. by rewrite (page_lookup s r p Hp).
Qed.

Lemma page_find_none (s : cache) o i : Ix (indexes s) (recs s) -> is_Some (objs s !! o) ->
  page_find s o i = None <-> forall r p, recs s !! r = Some p -> p_owner p = o -> p_index p <> i.
Proof.
  intros HI Ho. split.
  - intros Hn r p Hp Eo Ei. assert (page_find s o i = Some r) by (apply (page_find_some s o i r HI Ho); eauto). congruence.
  - intros Hno. destruct (page_find s o i) as [r |] eqn:E; [| done]. apply (page_find_some s o i r HI Ho) in E as (p & Hp & Eo & Ei).
    exfalso. by apply (Hno r p).
Qed.

Lemma faces_lookup (s : cache) o k : faces s !! o = Some k -> exists ob, objs s !! o = Some ob /\ k = face_of ob.
Proof. unfold faces. rewrite lookup_fmap, fmap_Some. done. Qed.

Lemma owner_object (s : cache) r p : Ix (indexes s) (recs s) -> recs s !! r = Some p -> is_Some (objs s !! p_owner p).
Proof. intros HI Hp. destruct (ix_own _ _ HI r p Hp) as [b Hb]. unfold indexes in Hb. rewrite lookup_fmap in Hb. by apply (fmap_is_Some o_buckets). Qed.

Lemma owner_face (s : cache) r p : Ix (indexes s) (recs s) -> recs s !! r = Some p -> is_Some (faces s !! p_owner p).
Proof. intros HI Hp. unfold faces. rewrite lookup_fmap. apply fmap_is_Some. by apply (owner_object s r). Qed.

Lemma backing_faces (s s' : cache) o pos : faces s' = faces s -> fs s' = fs s -> backing s' o pos = backing s o pos.
Proof.
  intros E Ef. assert (Hk : face_of <$> objs s' !! o = face_of <$> objs s !! o) by (rewrite <- !lookup_fmap; unfold faces in E; by rewrite E).
  assert (Hv : o_vn (obj s' o) = o_vn (obj s o)).
  { unfold obj. destruct (objs s' !! o), (objs s !! o); cbn in *; [by injection Hk | done | done | done]. }
  unfold backing. by rewrite Hv, Ef.
Qed.

Lemma content_page (s : cache) r p pos :
  Ix (indexes s) (recs s) -> recs s !! r = Some p -> p_index p = pos / PAGE_SIZE ->
  content s (p_owner p) pos = rd (bytes_of s p) (pos mod PAGE_SIZE).
Proof.
  intros HI Hp Hi. unfold content. rewrite (proj2 (page_find_some s (p_owner p) (pos / PAGE_SIZE) r HI (owner_object s r p HI Hp))) by eauto.
  by rewrite (page_lookup s r p Hp).
Qed.

Lemma same_intro (s s' : cache) :
  Ix (indexes s) (recs s) -> Ix (indexes s') (recs s') -> faces s' = faces s -> registry s' = registry s ->
  (forall r p, recs s !! r = Some p ->
     (exists r' p', recs s' !! r' = Some p' /\ p_owner p' = p_owner p /\ p_index p' = p_index p /\ bytes_of s' p' = bytes_of s p)
     \/ (page_find s' (p_owner p) (p_index p) = None
         /\ forall j, 0 <= j < PAGE_SIZE -> steady s (p_owner p) (p_index p * PAGE_SIZE + j) -> rd (bytes_of s p) j = backing s' (p_owner p) (p_index p * PAGE_SIZE + j))) ->
  (forall r' p', recs s' !! r' = Some p' ->
     (exists r p, recs s !! r = Some p /\ p_owner p = p_owner p' /\ p_index p = p_index p')
     \/ (forall j, 0 <= j < PAGE_SIZE -> steady s (p_owner p') (p_index p' * PAGE_SIZE + j) -> rd (bytes_of s' p') j = backing s (p_owner p') (p_index p' * PAGE_SIZE + j))) ->
  (forall o pos, is_Some (objs s !! o) -> 0 <= pos -> page_find s o (pos / PAGE_SIZE) = None -> page_find s' o (pos / PAGE_SIZE) = None ->
     backing s' o pos = backing s o pos) ->
  (forall vn pos, 0 <= pos -> uncached s vn -> file_byte vn pos (fs s') = file_byte vn pos (fs s)) ->
  same s s'.
Proof.
  intros HI HI' HF HR Hfwd Hbwd Hback Hdev. split; [done | done | | done]. intros o pos Ho Hpos Hst.
  assert (Ho' : is_Some (objs s' !! o)) by by apply (faces_is_Some s s' o HF).
  destruct (page_split pos) as [Hdm Hj].
  destruct (page_find s o (pos / PAGE_SIZE)) as [r |] eqn:E.
  - apply (page_find_some s o _ r HI Ho) in E as (p & Hp & Eo & Ei). subst o.
    rewrite (content_page s r p pos HI Hp Ei). destruct (Hfwd r p Hp) as [(r' & p' & Hp' & Eo' & Ei' & Hb) | [Hn Hb]].
    + rewrite <- Eo', (content_page s' r' p' pos HI' Hp'), Hb by congruence. done.
    + unfold content. rewrite <- Ei, Hn, (Hb _ Hj), Ei; [by rewrite <- Hdm |]. by rewrite Ei, <- Hdm.
  - destruct (page_find s' o (pos / PAGE_SIZE)) as [r' |] eqn:E'.
    + apply (page_find_some s' o _ r' HI' Ho') in E' as (p' & Hp' & Eo' & Ei'). subst o.
      rewrite (content_page s' r' p' pos HI' Hp' Ei'). destruct (Hbwd r' p' Hp') as [(r & p & Hp & Eo & Ei) | Hb].
      * exfalso. rewrite (page_find_none s _ _ HI Ho) in E. by apply (E r p Hp); [| congruence].
      * rewrite (Hb _ Hj), Ei', <- Hdm by by rewrite Ei', <- Hdm. unfold content. by rewrite E.
    + unfold content. rewrite E, E'. by apply Hback.
Qed.

(** The records keep their names and their bytes, the device its contents. *)
Lemma same_pages (s s' : cache) :
  Ix (indexes s) (recs s) -> Ix (indexes s') (recs s') -> faces s' = faces s -> registry s' = registry s -> fs s' = fs s ->
  (forall r p, recs s !! r = Some p -> exists p', recs s' !! r = Some p' /\ p_owner p' = p_owner p /\ p_index p' = p_index p /\ bytes_of s' p' = bytes_of s p) ->
  (forall r, is_Some (recs s' !! r) -> is_Some (recs s !! r)) ->
  same s s'.
Proof.
  intros HI HI' HF HR Hfs Hfwd Hdom. apply same_intro; try done.
  - intros r p Hp. left. destruct (Hfwd r p Hp) as (p' & ?). eauto.
  - intros r' p' Hp'. left. destruct (Hdom r' ltac:(eauto)) as [p Hp]. destruct (Hfwd r' p Hp) as (q & Hq & Eo & Ei & _). simplify_eq. eauto 6.
  - intros o pos _ _ _ _. by apply backing_faces.
  - intros vn pos _ _. by rewrite Hfs.
Qed.
End Inv.

(** Fewer firm bytes ask for less. *)
Section Firmness.
Context {Fr FS SW PT HP : Type} `{FrameLaws Fr} `{FileLaws FS} `{SlotLaws SW} `{TableLaws PT} `{HeapLaws HP}.

Lemma inv_mono (F G : Firm) x (s : @cache Fr FS SW PT HP) : (forall vn pos, firm (Firm := G) vn pos = true -> firm (Firm := F) vn pos = true) -> inv_but (FM := F) x s -> inv_but (FM := G) x s.
Proof. intros Hle [A B C D [E1 E2 E3] I J]. split; try done. split; [| | done]; intros r p k j; intros; [apply (E1 r p k) | apply (E2 r p k)]; auto. Qed.
End Firmness.
