(* ===== verification/Swap.v ===== *)
(** * The swap store ([kernel/mm/swap.c])

    Pages without a file go to the slots of one block device, one page to a
    slot; a bitmap says which slots are in use and slot 0 is the header the
    device was found by.  The store sits on the block layer, and it is what the
    page cache calls: the last section shows that it keeps the promises the
    cache is proved against.

    The callers hold the lock of the page cache for the whole of a call, so a
    call is one step.  A transfer takes at most one turn of its loop for each
    block, which is the fuel it is given; [None] is out of fuel. *)

From S2P Require Import Prelude Bytes Pmm Block Vfs PageCache PageCacheInv.

Definition SWAP_CLUSTER_PAGES : Z := 16.
Definition SWAP_MAGIC : list Z := [69; 77; 66; 75; 83; 87; 65; 80].   (* EMBKSWAP *)
Definition SWAP_HEADER_VER : Z := 1.
Definition DIRECT_MAP_BASE : Z := 0xFFFF800000000000.
Definition P2V (addr : Z) : Z := !64 (addr + DIRECT_MAP_BASE).

(** ** The bitmap *)

Definition bm_test (bm : list Z) (s : Z) : bool := negb (Z.land (Z.shiftr (rd bm (Z.shiftr s 3)) (Z.land s 7)) 1 =? 0).
Definition bm_set (bm : list Z) (s : Z) : list Z := wr bm (Z.shiftr s 3) (Z.lor (rd bm (Z.shiftr s 3)) (!8 (Z.shiftl 1 (Z.land s 7)))).
Definition bm_clr (bm : list Z) (s : Z) : list Z := wr bm (Z.shiftr s 3) (Z.land (rd bm (Z.shiftr s 3)) (!8 (Z.lnot (Z.shiftl 1 (Z.land s 7))))).

Record swap_stats := mkStats {
  t_nslots : Z;
  t_used : Z;
  t_outs : Z;
  t_ins : Z;
  t_frees : Z;
  t_clusters : Z;
  t_cluster_reads : Z;
  t_cluster_pages : Z;
  t_bytes_written : Z;
  t_bytes_read : Z;
  t_dev : list Z;
}.
Definition no_stats : swap_stats := mkStats 0 0 0 0 0 0 0 0 0 0 [].

Definition count_outs (t : swap_stats) (n : Z) : swap_stats :=
  mkStats (t_nslots t) (t_used t) (!64 (t_outs t + n)) (t_ins t) (t_frees t) (t_clusters t) (t_cluster_reads t) (t_cluster_pages t) (!64 (t_bytes_written t + n * 4096)) (t_bytes_read t) (t_dev t).
Definition count_cluster (t : swap_stats) (n : Z) : swap_stats :=
  mkStats (t_nslots t) (t_used t) (t_outs t) (t_ins t) (t_frees t) (!64 (t_clusters t + 1)) (t_cluster_reads t) (!64 (t_cluster_pages t + n)) (t_bytes_written t) (t_bytes_read t) (t_dev t).
Definition count_ins (t : swap_stats) (n : Z) : swap_stats :=
  mkStats (t_nslots t) (t_used t) (t_outs t) (!64 (t_ins t + n)) (t_frees t) (t_clusters t) (t_cluster_reads t) (t_cluster_pages t) (t_bytes_written t) (!64 (t_bytes_read t + n * 4096)) (t_dev t).
Definition count_cluster_read (t : swap_stats) : swap_stats :=
  mkStats (t_nslots t) (t_used t) (t_outs t) (t_ins t) (t_frees t) (t_clusters t) (!64 (t_cluster_reads t + 1)) (t_cluster_pages t) (t_bytes_written t) (t_bytes_read t) (t_dev t).
Definition count_free (t : swap_stats) : swap_stats :=
  mkStats (t_nslots t) (t_used t) (t_outs t) (t_ins t) (!64 (t_frees t + 1)) (t_clusters t) (t_cluster_reads t) (t_cluster_pages t) (t_bytes_written t) (t_bytes_read t) (t_dev t).

(** [swap_out]'s search: the slots from the cursor on, around the end. *)
Definition slot_at (nslots next n : Z) : Z := let s := !64 (next + n) in if nslots <=? s then !64 (s - nslots) else s.
Fixpoint free_slot (fuel : nat) (bm : list Z) (nslots next n : Z) : Z :=
  match fuel with
  | O => 0
  | S fuel =>
      let s := slot_at nslots next n in
      if s =? 0 then free_slot fuel bm nslots next (n + 1)
      else if negb (bm_test bm s) then s
      else free_slot fuel bm nslots next (n + 1)
  end.

(** One sweep of [alloc_run_locked]: the first run of [n] free slots in [[s, end_)]. *)
Fixpoint run_sweep (fuel : nat) (bm : list Z) (s end_ run start n : Z) : Z :=
  match fuel with
  | O => 0
  | S fuel =>
      if negb (s <? end_) then 0
      else if bm_test bm s then run_sweep fuel bm (s + 1) end_ 0 start n
      else
        let start := if run =? 0 then s else start in
        if run + 1 =? n then start else run_sweep fuel bm (s + 1) end_ (run + 1) start n
  end.

Definition find_run (bm : list Z) (nslots next n : Z) : Z :=
  let from := if next =? 0 then 1 else next in
  let first := run_sweep (Z.to_nat (nslots - from)) bm from nslots 0 0 n in
  if first =? 0 then run_sweep (Z.to_nat (next - 1)) bm 1 next 0 0 n else first.

Section Swap.
Context {A : Type} `{Drivers A}.
Variable cluster_buf : Z.          (* the address of [g_cluster_buf] *)

Record swap := mkSwap {
  g_dev : Z;                       (* 0 is NULL *)
  g_nslots : Z;
  g_spp : Z;
  g_bitmap : list Z;
  g_used : Z;
  g_next : Z;
  g_cluster_busy : bool;
  g_st : swap_stats;
  blk : blocks A;
}.

Definition set_slots (s : swap) bm used next := mkSwap (g_dev s) (g_nslots s) (g_spp s) bm used next (g_cluster_busy s) (g_st s) (blk s).
Definition set_busy (s : swap) x := mkSwap (g_dev s) (g_nslots s) (g_spp s) (g_bitmap s) (g_used s) (g_next s) x (g_st s) (blk s).
Definition set_st (s : swap) x := mkSwap (g_dev s) (g_nslots s) (g_spp s) (g_bitmap s) (g_used s) (g_next s) (g_cluster_busy s) x (blk s).
Definition set_blk (s : swap) x := mkSwap (g_dev s) (g_nslots s) (g_spp s) (g_bitmap s) (g_used s) (g_next s) (g_cluster_busy s) (g_st s) x.

(** ** Finding the store *)

Definition header_version (h : list Z) : Z := get_le 4 (sub h 8 4).
Definition header_page_size (h : list Z) : Z := get_le 4 (sub h 12 4).
Definition header_nslots (h : list Z) : Z := get_le 8 (sub h 16 8).

(** [d->read && d->write] and a block size that divides the page. *)
Definition fits (d : device) : bool :=
  d_read d && d_write d && negb (d_block_size d =? 0) && negb (4096 <? d_block_size d) && (4096 mod d_block_size d =? 0).

(** The header of a device, when it is one that is understood, and the slots it gives. *)
Definition header_slots (d : device) (spp : Z) (h : list Z) : option Z :=
  if negb (bool_decide (sub h 0 8 = SWAP_MAGIC)) then None
  else if negb (header_version h =? SWAP_HEADER_VER) || negb (header_page_size h =? 4096) then None
  else Some (Z.min (header_nslots h) (d_block_count d / spp)).

(** The loop of [swap_init] from device [i] on; the flag says whether it went to its end. *)
Fixpoint swap_probe {HP : Type} `{Heap HP} (more : nat) (i : Z) (s : swap) (hp : HP) : option (bool * swap * HP) :=
  match more with
  | O => Some (true, s, hp)
  | S more =>
      match (dev ← embk_block_get (blk s) i; d ← devs (blk s) !! dev; Some (dev, d)) with
      | None => swap_probe more (i + 1) s hp
      | Some (dev, d) =>
          if negb (fits d) then swap_probe more (i + 1) s hp
          else
            let '(h, hp) := kmalloc 4096 hp in
            if h =? 0 then Some (false, s, hp)
            else
              let spp := 4096 / d_block_size d in
              if d_block_count d <? spp then swap_probe more (i + 1) s (kfree h hp)
              else
                match embk_block_read (Z.to_nat spp) (blk s) dev 0 spp h with
                | None => None
                | Some (rc, bytes, b) =>
                    let s := set_blk s b in
                    let hp := kfree h hp in
                    if negb (rc =? Errno.EMBK_OK) then swap_probe more (i + 1) s hp
                    else
                      match header_slots d spp bytes with
                      | None => swap_probe more (i + 1) s hp
                      | Some nslots =>
                          if negb (g_dev s =? 0) then swap_probe more (i + 1) s hp
                          else
                            let size := !64 (nslots + 7) / 8 in
                            let '(bm, hp) := kmalloc size hp in
                            if bm =? 0 then Some (false, s, hp)
                            else
                              let st := mkStats 0 0 0 0 0 0 0 0 0 0 (take 15 (d_name d)) in
                              swap_probe more (i + 1) (mkSwap dev nslots spp (bm_set (replicate (Z.to_nat size) 0) 0) 1 1 (g_cluster_busy s) st (blk s)) hp
                      end
                end
      end
  end.

Definition slots_offered (s : swap) : Z := if g_nslots s =? 0 then 0 else g_nslots s - 1.

Definition swap_init {HP : Type} `{Heap HP} (s : swap) (hp : HP) : option (Z * swap * HP) :=
  if negb (g_dev s =? 0) then Some (slots_offered s, s, hp)
  else
    match swap_probe (Z.to_nat BLOCK_MAX_DEVICES) 0 s hp with
    | None => None
    | Some (finished, s, hp) => Some (if finished then slots_offered s else 0, s, hp)
    end.

(** ** The operations *)

Definition swap_available (s : swap) : bool := negb (g_dev s =? 0).

Definition swap_out (s : swap) (phys : Z) (page : list Z) : option (Z * swap) :=
  if (g_dev s =? 0) || (phys =? 0) then Some (0, s)
  else
    let slot := free_slot (Z.to_nat (g_nslots s)) (g_bitmap s) (g_nslots s) (g_next s) 0 in
    if slot =? 0 then Some (0, s)
    else
      let s := set_slots s (bm_set (g_bitmap s) slot) (!64 (g_used s + 1)) (!64 (slot + 1)) in
      match embk_block_write (Z.to_nat (g_spp s)) (blk s) (g_dev s) (!64 (slot * g_spp s)) (g_spp s) (P2V phys) page with
      | None => None
      | Some (rc, b) =>
          let s := set_blk s b in
          if negb (rc =? Errno.EMBK_OK) then Some (0, set_slots s (bm_clr (g_bitmap s) slot) (!64 (g_used s - 1)) (g_next s))
          else Some (slot, set_st s (count_outs (g_st s) 1))
      end.

Definition alloc_run_locked (s : swap) (n : Z) : Z * swap :=
  let start := find_run (g_bitmap s) (g_nslots s) (g_next s) n in
  if start =? 0 then (0, s)
  else (start, set_slots s (for_range (Z.to_nat n) start (fun k bm => bm_set bm k) (g_bitmap s)) (!64 (g_used s + n)) (!64 (start + n))).

Definition swap_out_cluster (s : swap) (pages : list (Z * list Z)) : option (option (list Z) * swap) :=
  let n := Z.of_nat (length pages) in
  if (g_dev s =? 0) || (n <=? 0) || (SWAP_CLUSTER_PAGES <? n) then Some (None, s)
  else
    let '(first, s) := if g_cluster_busy s then (0, s) else alloc_run_locked s n in
    if first =? 0 then Some (None, s)
    else
      let s := set_busy s true in
      match embk_block_write (Z.to_nat (n * g_spp s)) (blk s) (g_dev s) (!64 (first * g_spp s)) (!32 (n * g_spp s)) cluster_buf (concat pages.*2) with
      | None => None
      | Some (rc, b) =>
          let s := set_busy (set_blk s b) false in
          if negb (rc =? Errno.EMBK_OK) then
            Some (None, set_slots s (for_range (Z.to_nat n) first (fun k bm => bm_clr bm k) (g_bitmap s)) (!64 (g_used s - n)) (g_next s))
          else Some (Some (seqZ first n), set_st s (count_cluster (count_outs (g_st s) n) n))
      end.

Definition swap_slot_held (s : swap) (slot : Z) : bool :=
  if (g_dev s =? 0) || (slot =? 0) || (g_nslots s <=? slot) then false else bm_test (g_bitmap s) slot.

(** [inl] is what is in the frame afterwards. *)
Definition swap_in (s : swap) (slot phys : Z) : option ((list Z + Z) * swap) :=
  if (g_dev s =? 0) || (phys =? 0) then Some (inr (- Errno.EMBK_ENODEV), s)
  else if (slot =? 0) || (g_nslots s <=? slot) then Some (inr (- Errno.EMBK_EINVAL), s)
  else if negb (bm_test (g_bitmap s) slot) then Some (inr (- Errno.EMBK_EINVAL), s)
  else
    match embk_block_read (Z.to_nat (g_spp s)) (blk s) (g_dev s) (!64 (slot * g_spp s)) (g_spp s) (P2V phys) with
    | None => None
    | Some (rc, l, b) =>
        let s := set_blk s b in
        if negb (rc =? Errno.EMBK_OK) then Some (inr rc, s) else Some (inl l, set_st s (count_ins (g_st s) 1))
    end.

Definition swap_in_cluster (s : swap) (first : Z) (phys : list Z) : option ((list (list Z) + Z) * swap) :=
  let n := Z.of_nat (length phys) in
  if (g_dev s =? 0) || (n <=? 0) || (SWAP_CLUSTER_PAGES <? n) then Some (inr (- Errno.EMBK_EINVAL), s)
  else if (first =? 0) || (g_nslots s <? !64 (first + n)) then Some (inr (- Errno.EMBK_EINVAL), s)
  else if negb (forallb (bm_test (g_bitmap s)) (seqZ first n)) || g_cluster_busy s then Some (inr (- Errno.EMBK_EINVAL), s)
  else
    let s := set_busy s true in
    match embk_block_read (Z.to_nat (n * g_spp s)) (blk s) (g_dev s) (!64 (first * g_spp s)) (!32 (n * g_spp s)) cluster_buf with
    | None => None
    | Some (rc, l, b) =>
        let s := set_busy (set_blk s b) false in
        if negb (rc =? Errno.EMBK_OK) then Some (inr rc, s)
        else Some (inl ((fun i => sub l (i * 4096) 4096) <$> seqZ 0 n), set_st s (count_cluster_read (count_ins (g_st s) n)))
    end.

Definition swap_free (s : swap) (slot : Z) : swap :=
  if (g_dev s =? 0) || (slot =? 0) || (g_nslots s <=? slot) then s
  else if bm_test (g_bitmap s) slot then
    let s := set_slots s (bm_clr (g_bitmap s) slot) (!64 (g_used s - 1)) (g_next s) in set_st s (count_free (g_st s))
  else s.

Definition swap_free_slots (s : swap) : Z := if g_dev s =? 0 then 0 else !64 (g_nslots s - g_used s).

Definition swap_stats_get (s : swap) : swap_stats :=
  let t := g_st s in
  mkStats (slots_offered s) (if g_used s =? 0 then 0 else g_used s - 1) (t_outs t) (t_ins t) (t_frees t) (t_clusters t) (t_cluster_reads t) (t_cluster_pages t) (t_bytes_written t) (t_bytes_read t) (t_dev t).
End Swap.
Arguments swap A : clear implicits.

(** ** The bitmap and the searches *)

Lemma slot_byte s : 0 <= s -> Z.shiftr s 3 = s / 8 /\ Z.land s 7 = s mod 8.
Proof. intros Hs. split; [by rewrite Z.shiftr_div_pow2 by lia | change 7 with (Z.ones 3); by rewrite Z.land_ones by lia]. Qed.

Lemma land_1 z : negb (Z.land z 1 =? 0) = Z.testbit z 0.
Proof. change 1 with (Z.ones 1). rewrite Z.land_ones by lia. change (2 ^ 1) with 2. rewrite <- Z.bit0_mod. by destruct (Z.testbit z 0). Qed.

(** The page allocator keeps its bitmap in the same way. *)
Lemma bm_test_bitmap bm s : 0 <= s -> bm_test bm s = bitmap_test bm s.
Proof.
  intros Hs. rewrite bitmap_test_bit by done. unfold bm_test. destruct (slot_byte s Hs) as [-> ->]. pose proof (Z.mod_pos_bound s 8 ltac:(lia)).
  rewrite land_1, Z.shiftr_spec by lia. f_equal.
Qed.

Lemma byte_op (op : Z -> Z -> Z) (f : bool -> bool -> bool) b z : (forall x y k, Z.testbit (op x y) k = f (Z.testbit x k) (Z.testbit y k)) -> f false false = false ->
  is_byte b -> op b (!8 z) = !8 (op b z).
Proof.
  intros Hop Hff Hb. apply Z.bits_inj'. intros k Hk. rewrite Hop. destruct (decide (k < 8)).
  - by rewrite !testbit_u8, Hop by lia.
  - assert (Hz : forall x, Z.testbit (!8 x) k = false) by (intros x; apply byte_high; [apply u8_range | lia]).
    by rewrite !Hz, (byte_high b k) by (done || lia).
Qed.

Lemma bm_set_bitmap bm s : 0 <= s -> Forall is_byte bm -> bm_set bm s = bitmap_set bm s.
Proof. intros Hs Hb. unfold bm_set, bitmap_set. destruct (slot_byte s Hs) as [-> ->]. f_equal. apply (byte_op Z.lor orb); [apply Z.lor_spec | done | by apply rd_byte]. Qed.
Lemma bm_clr_bitmap bm s : 0 <= s -> Forall is_byte bm -> bm_clr bm s = bitmap_clear bm s.
Proof. intros Hs Hb. unfold bm_clr, bitmap_clear. destruct (slot_byte s Hs) as [-> ->]. f_equal. apply (byte_op Z.land andb); [apply Z.land_spec | done | by apply rd_byte]. Qed.

(** A bitmap of [n] slots *)
Definition bits (n : Z) (bm : list Z) : Prop := Forall is_byte bm /\ n <= 8 * zlen bm.

Lemma bits_set n bm s : bits n bm -> 0 <= s < n -> bits n (bm_set bm s) /\ forall q, 0 <= q -> bm_test (bm_set bm s) q = (s =? q) || bm_test bm q.
Proof.
  intros [Hb Hn] Hs. rewrite bm_set_bitmap by (done || lia). split; [split; [by apply bitmap_set_bytes | unfold zlen; by rewrite bitmap_set_length] |].
  intros q Hq. rewrite !bm_test_bitmap by lia. apply bitmap_test_set; [unfold zlen in Hn |]; lia.
Qed.
Lemma bits_clr n bm s : bits n bm -> 0 <= s < n -> bits n (bm_clr bm s) /\ forall q, 0 <= q -> bm_test (bm_clr bm s) q = negb (s =? q) && bm_test bm q.
Proof.
  intros [Hb Hn] Hs. rewrite bm_clr_bitmap by (done || lia). split; [split; [by apply bitmap_clear_bytes | unfold zlen; by rewrite bitmap_clear_length] |].
  intros q Hq. rewrite !bm_test_bitmap by lia. apply bitmap_test_clear; [unfold zlen in Hn |]; lia.
Qed.

(** A run of slots, set or cleared one by one. *)
Definition within (first k q : Z) : bool := (first <=? q) && (q <? first + k).

Lemma within_iff first k q : within first k q = true <-> first <= q < first + k.
Proof. unfold within. rewrite andb_true_iff, Z.leb_le, Z.ltb_lt. lia. Qed.

Lemma bits_set_run n k : forall bm first, bits n bm -> 0 <= first -> first + Z.of_nat k <= n -> let bm' := for_range k first (fun s bm => bm_set bm s) bm in
  bits n bm' /\ forall q, 0 <= q -> bm_test bm' q = within first (Z.of_nat k) q || bm_test bm q.
Proof.
  induction k as [| k IH]; intros bm first Hb Hf Hn; cbn [for_range].
  - split; [done |]. intros q Hq. unfold within. by destruct (first <=? q) eqn:?, (q <? first + Z.of_nat 0) eqn:?; b2p; try lia.
  - destruct (bits_set n bm first Hb ltac:(lia)) as [Hb1 Ht1]. destruct (IH (bm_set bm first) (first + 1) Hb1 ltac:(lia) ltac:(lia)) as [Hb2 Ht2]. split; [done |].
    intros q Hq. rewrite Ht2, Ht1 by done. unfold within. destruct (first + 1 <=? q) eqn:?, (q <? first + 1 + Z.of_nat k) eqn:?, (first =? q) eqn:?, (first <=? q) eqn:?, (q <? first + Z.of_nat (S k)) eqn:?; b2p; try lia; done.
Qed.
Lemma bits_clr_run n k : forall bm first, bits n bm -> 0 <= first -> first + Z.of_nat k <= n -> let bm' := for_range k first (fun s bm => bm_clr bm s) bm in
  bits n bm' /\ forall q, 0 <= q -> bm_test bm' q = negb (within first (Z.of_nat k) q) && bm_test bm q.
Proof.
  induction k as [| k IH]; intros bm first Hb Hf Hn; cbn [for_range].
  - split; [done |]. intros q Hq. unfold within. by destruct (first <=? q) eqn:?, (q <? first + Z.of_nat 0) eqn:?; b2p; try lia.
  - destruct (bits_clr n bm first Hb ltac:(lia)) as [Hb1 Ht1]. destruct (IH (bm_clr bm first) (first + 1) Hb1 ltac:(lia) ltac:(lia)) as [Hb2 Ht2]. split; [done |].
    intros q Hq. rewrite Ht2, Ht1 by done. unfold within. destruct (first + 1 <=? q) eqn:?, (q <? first + 1 + Z.of_nat k) eqn:?, (first =? q) eqn:?, (first <=? q) eqn:?, (q <? first + Z.of_nat (S k)) eqn:?; b2p; try lia; done.
Qed.

(** What [swap_out]'s search finds is free, and it finds a free slot if there is one. *)
Lemma slot_at_range nslots next n : 1 <= next <= nslots -> 0 <= n < nslots -> nslots < 2 ^ 63 -> 0 <= slot_at nslots next n < nslots /\ slot_at nslots next n = (next + n) mod nslots.
Proof.
  intros Hx Hn H63. unfold slot_at. rewrite (u64_small (next + n)) by lia. destruct (nslots <=? next + n) eqn:E; b2p.
  - rewrite u64_small by lia. split; [lia |]. apply Z.mod_unique with 1; lia.
  - split; [lia |]. symmetry. apply Z.mod_small. lia.
Qed.

Lemma free_slot_ok bm nslots next fuel : forall n, 1 <= next <= nslots -> nslots < 2 ^ 63 -> 0 <= n -> n + Z.of_nat fuel = nslots ->
  let s := free_slot fuel bm nslots next n in
  (s = 0 /\ forall k, n <= k < nslots -> slot_at nslots next k = 0 \/ bm_test bm (slot_at nslots next k) = true) \/ (1 <= s < nslots /\ bm_test bm s = false).
Proof.
  induction fuel as [| fuel IH]; intros n Hx H63 Hn Hf; cbn [free_slot]; [left; split; [done | lia] |].
  destruct (slot_at_range nslots next n Hx ltac:(lia) H63) as [Hr _]. specialize (IH (n + 1) Hx H63 ltac:(lia) ltac:(lia)).
  assert (Hstep : slot_at nslots next n = 0 \/ bm_test bm (slot_at nslots next n) = true -> let s := free_slot fuel bm nslots next (n + 1) in
    (s = 0 /\ forall k, n <= k < nslots -> slot_at nslots next k = 0 \/ bm_test bm (slot_at nslots next k) = true) \/ (1 <= s < nslots /\ bm_test bm s = false)).
  { intros Hh. destruct IH as [[E Hk] | ?]; [| by right]. left. split; [done |]. intros k Hkr. destruct (decide (k = n)) as [-> | ?]; [done | apply Hk; lia]. }
  destruct (slot_at nslots next n =? 0) eqn:E0; b2p; [by apply Hstep; left |].
  destruct (bm_test bm (slot_at nslots next n)) eqn:Et; cbn [negb]; [by apply Hstep; right | right; split; [lia | done]].
Qed.

(** Every slot is visited. *)
Lemma slot_at_onto nslots next q : 1 <= next <= nslots -> nslots < 2 ^ 63 -> 0 <= q < nslots -> exists k, 0 <= k < nslots /\ slot_at nslots next k = q.
Proof.
  intros Hx H63 Hq. exists ((q - next) mod nslots). pose proof (Z.mod_pos_bound (q - next) nslots ltac:(lia)). split; [done |].
  destruct (slot_at_range nslots next ((q - next) mod nslots) Hx ltac:(lia) H63) as [_ ->]. rewrite Zplus_mod_idemp_r. replace (next + (q - next)) with q by lia. by apply Z.mod_small.
Qed.

(** What a sweep finds is a run of free slots. *)
Lemma run_sweep_ok bm n fuel : forall s end_ run start, 1 <= s -> 1 <= n -> 0 <= run < n -> (run <> 0 -> start = s - run /\ 1 <= start) ->
  (forall q, s - run <= q < s -> bm_test bm q = false) ->
  let r := run_sweep fuel bm s end_ run start n in
  r = 0 \/ (1 <= r /\ r + n <= end_ /\ forall q, r <= q < r + n -> bm_test bm q = false).
Proof.
  induction fuel as [| fuel IH]; intros s end_ run start Hs Hn Hr Hst Hq; cbn [run_sweep]; [by left |].
  destruct (s <? end_) eqn:Ee; b2p; cbn [negb]; [| by left]. destruct (bm_test bm s) eqn:Et.
  { apply IH; [lia | lia | lia | lia |]. intros q ?. lia. }
  set (st := if run =? 0 then s else start). assert (Hst' : st = s - run /\ 1 <= st).
  { unfold st. destruct (run =? 0) eqn:E0; b2p; [lia | by apply Hst]. }
  assert (Hq' : forall q, s - run <= q < s + 1 -> bm_test bm q = false) by (intros q ?; destruct (decide (q = s)) as [-> | ?]; [done | apply Hq; lia]).
  destruct (run + 1 =? n) eqn:En; b2p.
  - right. split_and!; [lia | lia |]. intros q ?. apply Hq'. lia.
  - apply IH; [lia | lia | lia | intros _; lia |]. intros q ?. apply Hq'. lia.
Qed.

Lemma find_run_ok bm nslots next n : 1 <= next <= nslots -> 1 <= n -> let r := find_run bm nslots next n in
  r = 0 \/ (1 <= r /\ r + n <= nslots /\ forall q, r <= q < r + n -> bm_test bm q = false).
Proof.
  intros Hx Hn. unfold find_run. rewrite (proj2 (Z.eqb_neq next 0)) by lia.
  destruct (run_sweep_ok bm n (Z.to_nat (nslots - next)) next nslots 0 0) as [E | Hr]; [lia | lia | lia | lia | lia | |].
  - rewrite E. cbn. destruct (run_sweep_ok bm n (Z.to_nat (next - 1)) 1 next 0 0) as [-> | Hr]; [lia | lia | lia | lia | lia | by left |]. right. split_and!; try apply Hr. lia.
  - rewrite (proj2 (Z.eqb_neq _ 0)) by lia. by right.
Qed.

(** Counting a run *)
Lemma countb_run n k : forall f g first, 0 <= first -> first + Z.of_nat k <= Z.of_nat n -> (forall q, within first (Z.of_nat k) q = true -> f q = false) ->
  (forall q, 0 <= q < Z.of_nat n -> g q = within first (Z.of_nat k) q || f q) -> countb g n = countb f n + Z.of_nat k.
Proof.
  induction k as [| k IH]; intros f g first Hf Hn Hfree Hg.
  - rewrite Z.add_0_r. apply countb_ext. intros q Hq. rewrite Hg by done. unfold within. by destruct (first <=? q) eqn:?, (q <? first + Z.of_nat 0) eqn:?; b2p; try lia.
  - set (m := fun q => (q =? first) || f q). assert (Hm : countb m n = countb f n + 1).
    { apply (countb_flip f m n first); [lia | apply Hfree, within_iff; lia | unfold m; by rewrite Z.eqb_refl |]. intros j Hj Hne. unfold m. by rewrite (proj2 (Z.eqb_neq j first)). }
    rewrite (IH m g (first + 1)); [lia | lia | lia | |].
    + intros q Hq%within_iff. unfold m. apply orb_false_iff. split; [apply Z.eqb_neq; lia |]. apply Hfree, within_iff. lia.
    + intros q Hq. rewrite Hg by done. unfold m, within. destruct (first <=? q) eqn:?, (q <? first + Z.of_nat (S k)) eqn:?, (first + 1 <=? q) eqn:?, (q <? first + 1 + Z.of_nat k) eqn:?, (q =? first) eqn:?; b2p; try lia; done.
Qed.

(** ** The slots as a store *)

(** The pages of a run, laid out one after the other. *)
Lemma sub_media {A} `{DriverLaws A} dev off n d i m : 0 <= i -> 0 <= m -> i + m <= n -> sub (media dev off n d) i m = media dev (off + i) m d.
Proof.
  intros Hi Hm Hn. apply bytes_same; [rewrite zlen_media by lia; rewrite sub_length; rewrite ?zlen_media; lia |].
  intros j Hj. rewrite sub_length in Hj by (rewrite ?zlen_media; lia). rewrite rd_sub, !rd_media by lia. f_equal. lia.
Qed.

Lemma media_concat {A} `{DriverLaws A} dev d ls : forall off, Forall (fun l => zlen l = 4096) ls -> media dev off (Z.of_nat (length ls) * 4096) d = concat ls ->
  forall i l, ls !! i = Some l -> media dev (off + Z.of_nat i * 4096) 4096 d = l.
Proof.
  induction ls as [| k ls IH]; intros off Hl Hm i l Hi; [done |]. apply Forall_cons in Hl as [Hk Hl]. cbn [length concat] in Hm.
  replace (Z.of_nat (S (length ls)) * 4096) with (4096 + Z.of_nat (length ls) * 4096) in Hm by lia. rewrite media_app in Hm by lia.
  apply app_inj_1 in Hm as [Hm1 Hm2]; [| pose proof (zlen_media dev off 4096 d ltac:(lia)); unfold zlen in *; lia].
  destruct i as [| i]; cbn in Hi; [injection Hi as <-; by rewrite Z.add_0_r |]. rewrite <- (IH (off + 4096) Hl Hm2 i l Hi). f_equal. lia.
Qed.

Section Store.
Context {A : Type} `{DriverLaws A}.
Variable cluster_buf : Z.
Implicit Types (w : swap A) (d : device).

(** The store on a device. *)
Record up w d : Prop := {
  up_dev : usable (blk w) (g_dev w) d;
  up_ops : d_read d = true /\ d_write d = true;
  up_spp : d_block_size d * g_spp w = 4096 /\ 0 < g_spp w;
  up_room : g_nslots w * g_spp w <= d_block_count d;
  up_slots : 1 <= g_nslots w < 2 ^ 63;
  up_bits : bits (g_nslots w) (g_bitmap w);
  up_header : bm_test (g_bitmap w) 0 = true;
  up_next : 1 <= g_next w <= g_nslots w;
  up_used : g_used w = countb (bm_test (g_bitmap w)) (Z.to_nat (g_nslots w));
  up_idle : g_cluster_busy w = false;
}.
Definition store_ok w : Prop := g_dev w = 0 \/ exists d, up w d.

(** The bytes of a slot, and the slots in use. *)
Definition slot_bytes w (i : Z) : list Z := media (g_dev w) (i * 4096) 4096 (drv (blk w)).
Lemma slot_bytes_eq w w' i : g_dev w' = g_dev w -> blk w' = blk w -> slot_bytes w' i = slot_bytes w i.
Proof. unfold slot_bytes. by intros -> ->. Qed.

Definition held_slots w : list Z := if g_dev w =? 0 then [] else filter (fun i => bm_test (g_bitmap w) i = true) (seqZ 1 (g_nslots w - 1)).
Definition store_data w : gmap Z (list Z) := list_to_map ((fun i => (i, slot_bytes w i)) <$> held_slots w).

Lemma store_lookup w i : store_data w !! i = if swap_slot_held w i && (0 <? i) then Some (slot_bytes w i) else None.
Proof.
  unfold store_data, swap_slot_held. assert (Hk : ((fun i => (i, slot_bytes w i)) <$> held_slots w).*1 = held_slots w).
  { rewrite <- list_fmap_compose. by apply list_fmap_id. }
  assert (Hnd : NoDup (held_slots w)) by (unfold held_slots; case_match; [constructor | apply NoDup_filter, NoDup_seqZ]).
  assert (Hin : i ∈ held_slots w <-> g_dev w <> 0 /\ 0 < i < g_nslots w /\ bm_test (g_bitmap w) i = true).
  { unfold held_slots. destruct (g_dev w =? 0) eqn:E; b2p; [rewrite elem_of_nil; split; [done | by intros [? _]] |]. rewrite list_elem_of_filter, elem_of_seqZ. intuition lia. }
  destruct (decide (i ∈ held_slots w)) as [Hi | Hi].
  - rewrite (elem_of_list_to_map_1 _ i (slot_bytes w i)); [| by rewrite Hk | apply list_elem_of_fmap; by exists i]. apply Hin in Hi as (Hd & Hr & Ht).
    rewrite (proj2 (Z.eqb_neq _ _) Hd), (proj2 (Z.eqb_neq i 0)), (proj2 (Z.leb_gt _ _)), (proj2 (Z.ltb_lt _ _)), Ht by lia. done.
  - rewrite not_elem_of_list_to_map_1 by (by rewrite Hk). destruct (_ || _) eqn:E; [done |]. b2p. destruct (bm_test (g_bitmap w) i && (0 <? i)) eqn:E2; [| done]. b2p. exfalso. apply Hi, Hin. split_and!; (done || lia).
Qed.

Lemma up_held w d i : up w d -> swap_slot_held w i && (0 <? i) = (0 <? i) && (i <? g_nslots w) && bm_test (g_bitmap w) i.
Proof.
  intros Hu. destruct (up_dev w d Hu) as (Hd & _). unfold swap_slot_held. rewrite (proj2 (Z.eqb_neq _ _) Hd). cbn [orb].
  destruct (i =? 0) eqn:?, (g_nslots w <=? i) eqn:?, (0 <? i) eqn:?, (i <? g_nslots w) eqn:?; b2p; try lia; cbn; try done; by rewrite ?andb_true_r, ?andb_false_r.
Qed.

Lemma up_lookup w d i : up w d -> store_data w !! i = if (0 <? i) && (i <? g_nslots w) && bm_test (g_bitmap w) i then Some (slot_bytes w i) else None.
Proof. intros Hu. by rewrite store_lookup, (up_held w d). Qed.

(** ** Transfers of slots *)

Lemma up_fits w d first n : up w d -> 0 <= first -> 1 <= n -> first + n <= g_nslots w -> n <= SWAP_CLUSTER_PAGES ->
  !64 (first * g_spp w) = first * g_spp w /\ !32 (n * g_spp w) = n * g_spp w /\ 0 < n * g_spp w /\ first * g_spp w + n * g_spp w <= d_block_count d
  /\ first * g_spp w * d_block_size d = first * 4096 /\ n * g_spp w * d_block_size d = n * 4096.
Proof.
  intros Hu Hf Hn Hr Hc. destruct (up_dev w d Hu) as (_ & _ & _ & Hb & Hbc). destruct (up_spp w d Hu) as [Hs Hs0]. pose proof (up_room w d Hu) as Hroom. unfold SWAP_CLUSTER_PAGES in Hc.
  assert (g_spp w <= 4096) by nia. assert (first * g_spp w + n * g_spp w <= g_nslots w * g_spp w) by nia. assert (0 < n * g_spp w <= 16 * 4096) by nia. assert (0 <= first * g_spp w) by nia.
  split_and!; [apply u64_small; lia | apply u32_small; lia | lia | lia | nia | nia].
Qed.

(** A write of a run either fails or leaves its pages there; the rest of the media is as it was. *)
Lemma slots_write w d first n buf src : up w d -> 1 <= first -> 1 <= n <= SWAP_CLUSTER_PAGES -> first + n <= g_nslots w -> zlen src = n * 4096 ->
  exists rc b, embk_block_write (Z.to_nat (n * g_spp w)) (blk w) (g_dev w) (first * g_spp w) (n * g_spp w) buf src = Some (rc, b)
    /\ same_table (blk w) b /\ outside (g_dev w) (first * 4096) (n * 4096) (drv (blk w)) (drv b)
    /\ (rc = Errno.EMBK_OK -> media (g_dev w) (first * 4096) (n * 4096) (drv b) = src).
Proof.
  intros Hu Hf Hn Hr Hl. destruct (up_fits w d first n Hu ltac:(lia) ltac:(lia) Hr ltac:(lia)) as (_ & _ & Hpos & Hin & E1 & E2). pose proof (up_dev w d Hu) as Hus. destruct (up_spp w d Hu) as [_ Hs].
  destruct (decide (buf = 0)) as [-> | Hb].
  - exists (- Errno.EMBK_EFAULT), (blk w). destruct Hus as (Hd & Hl' & _). unfold embk_block_write. rewrite (proj2 (Z.eqb_neq _ _) Hd), Hl', (proj2 (up_ops w d Hu)). split_and!; done.
  - destruct (block_write_ok (Z.to_nat (n * g_spp w)) (blk w) (g_dev w) d (first * g_spp w) (n * g_spp w) buf src) as (rc & b & E & T & Ho & Hok); try done; [apply (up_ops w d Hu) | nia | lia | lia |].
    rewrite E1, E2 in *. by exists rc, b.
Qed.

Lemma slots_read w d first n buf : up w d -> 1 <= first -> 1 <= n <= SWAP_CLUSTER_PAGES -> first + n <= g_nslots w ->
  exists rc l b, embk_block_read (Z.to_nat (n * g_spp w)) (blk w) (g_dev w) (first * g_spp w) (n * g_spp w) buf = Some (rc, l, b)
    /\ same_table (blk w) b /\ (forall v x, dr_byte v x (drv b) = dr_byte v x (drv (blk w)))
    /\ (rc = Errno.EMBK_OK -> l = media (g_dev w) (first * 4096) (n * 4096) (drv (blk w))).
Proof.
  intros Hu Hf Hn Hr. destruct (up_fits w d first n Hu ltac:(lia) ltac:(lia) Hr ltac:(lia)) as (_ & _ & Hpos & Hin & E1 & E2). pose proof (up_dev w d Hu) as Hus. destruct (up_spp w d Hu) as [_ Hs].
  destruct (decide (buf = 0)) as [-> | Hb].
  - exists (- Errno.EMBK_EFAULT), [], (blk w). destruct Hus as (Hd & Hl' & _). unfold embk_block_read. rewrite (proj2 (Z.eqb_neq _ _) Hd), Hl', (proj1 (up_ops w d Hu)). split_and!; done.
  - destruct (block_read_ok (Z.to_nat (n * g_spp w)) (blk w) (g_dev w) d (first * g_spp w) (n * g_spp w) buf) as (rc & l & b & E & T & Ho & Hok); try done; [apply (up_ops w d Hu) | nia | lia |].
    rewrite E1, E2 in *. by exists rc, l, b.
Qed.

(** The store after a change of its bitmap, its counters and the media. *)
Definition same_store w w' : Prop :=
  g_dev w' = g_dev w /\ g_nslots w' = g_nslots w /\ g_spp w' = g_spp w /\ g_cluster_busy w' = false /\ same_table (blk w) (blk w').

Lemma up_same w w' d : up w d -> same_store w w' -> bits (g_nslots w) (g_bitmap w') -> bm_test (g_bitmap w') 0 = true -> 1 <= g_next w' <= g_nslots w ->
  g_used w' = countb (bm_test (g_bitmap w')) (Z.to_nat (g_nslots w)) -> up w' d.
Proof.
  intros [A1 A2 A3 A4 A5 A6 A7 A8 A9 A10] (E1 & E2 & E3 & E4 & T & _) Hb Hz Hx Hu. split; rewrite ?E1, ?E2, ?E3; try done. unfold usable in *. by rewrite T.
Qed.

Lemma used_range w d : up w d -> 0 <= g_used w <= g_nslots w.
Proof. intros Hu. rewrite (up_used w d Hu). pose proof (countb_bounds (bm_test (g_bitmap w)) (Z.to_nat (g_nslots w))). pose proof (up_slots w d Hu). lia. Qed.

(** The bytes of the other slots. *)
Lemma slot_outside w w' first n i : g_dev w' = g_dev w -> outside (g_dev w) (first * 4096) (n * 4096) (drv (blk w)) (drv (blk w')) -> within first n i = false -> slot_bytes w' i = slot_bytes w i.
Proof.
  intros Ed Ho Hi. unfold slot_bytes. rewrite Ed. apply media_ext. intros x Hx. apply Ho. intros _. assert (~ (first <= i < first + n)) by (rewrite <- within_iff; by rewrite Hi). lia.
Qed.

(** A run of free slots is taken: the pages in it are the store's now. *)
Lemma run_taken w w' d first n : up w d -> same_store w w' -> 1 <= first -> 1 <= n -> first + n <= g_nslots w -> (forall q, first <= q < first + n -> bm_test (g_bitmap w) q = false) ->
  bits (g_nslots w) (g_bitmap w') -> (forall q, 0 <= q -> bm_test (g_bitmap w') q = within first n q || bm_test (g_bitmap w) q) -> g_used w' = !64 (g_used w + n) -> 1 <= g_next w' <= g_nslots w ->
  outside (g_dev w) (first * 4096) (n * 4096) (drv (blk w)) (drv (blk w')) ->
  up w' d /\ (forall i, first <= i < first + n -> store_data w !! i = None /\ store_data w' !! i = Some (slot_bytes w' i)) /\ (forall i, within first n i = false -> store_data w' !! i = store_data w !! i).
Proof.
  intros Hu Hsame Hf Hn Hr Hfree Hb Ht Eu Hx Ho. pose proof (up_slots w d Hu) as Hs. pose proof (used_range w d Hu) as Hur.
  assert (Hcnt : countb (bm_test (g_bitmap w')) (Z.to_nat (g_nslots w)) = g_used w + n).
  { rewrite (up_used w d Hu). replace (countb _ _ + n) with (countb (bm_test (g_bitmap w)) (Z.to_nat (g_nslots w)) + Z.of_nat (Z.to_nat n)) by lia. apply (countb_run _ _ _ _ first); [lia | lia | |]; rewrite Z2Nat.id by lia.
    - intros q Hq%within_iff. by apply Hfree.
    - intros q Hq. rewrite Z2Nat.id by lia. apply Ht. lia. }
  pose proof (countb_bounds (bm_test (g_bitmap w')) (Z.to_nat (g_nslots w))) as Hcb.
  assert (Hu' : up w' d). { apply (up_same w w' d); try done; [rewrite Ht by lia; rewrite (up_header w d Hu); apply orb_true_r |]. rewrite Eu, u64_small; lia. }
  split; [done |]. split.
  - intros i Hi. assert (within first n i = true) as Hwi by (by apply within_iff). rewrite (up_lookup w d i Hu), (up_lookup w' d i Hu'). destruct Hsame as (_ & -> & _).
    rewrite (Hfree i Hi), andb_false_r, Ht, Hwi, (proj2 (Z.ltb_lt 0 i)), (proj2 (Z.ltb_lt i (g_nslots w))) by lia. done.
  - intros i Hi. rewrite (up_lookup w d i Hu), (up_lookup w' d i Hu'). destruct Hsame as (Ed & -> & _). destruct (0 <? i) eqn:E0; b2p; [| done]. rewrite Ht, Hi by lia. cbn [orb]. case_match; [| done].
    by rewrite (slot_outside w w' first n i).
Qed.

(** A run that could not be written is given back. *)
Lemma run_returned w w' d first n : up w d -> same_store w w' -> 1 <= first -> 1 <= n -> first + n <= g_nslots w -> (forall q, first <= q < first + n -> bm_test (g_bitmap w) q = false) ->
  bits (g_nslots w) (g_bitmap w') -> (forall q, 0 <= q -> bm_test (g_bitmap w') q = bm_test (g_bitmap w) q) -> g_used w' = g_used w -> 1 <= g_next w' <= g_nslots w ->
  outside (g_dev w) (first * 4096) (n * 4096) (drv (blk w)) (drv (blk w')) -> up w' d /\ store_data w' = store_data w.
Proof.
  intros Hu Hsame Hf Hn Hr Hfree Hb Ht Eu Hx Ho. assert (Hu' : up w' d).
  { apply (up_same w w' d); try done; [rewrite Ht by lia; apply (up_header w d Hu) |]. rewrite Eu, (up_used w d Hu). apply countb_ext. intros i Hi. symmetry. apply Ht. lia. }
  split; [done |]. apply map_eq. intros i. rewrite (up_lookup w d i Hu), (up_lookup w' d i Hu'). destruct Hsame as (Ed & -> & _). destruct (0 <? i) eqn:E0; b2p; [| done]. rewrite Ht by lia.
  destruct (_ && bm_test (g_bitmap w) i) eqn:E; [| done]. apply andb_true_iff in E as [_ E]. rewrite (slot_outside w w' first n i); try done.
  destruct (within first n i) eqn:Ew; [| done]. apply within_iff in Ew. by rewrite Hfree in E by lia.
Qed.

(** Nothing but counters and drivers changed. *)
Lemma data_kept w w' d : up w d -> same_store w w' -> g_bitmap w' = g_bitmap w -> g_used w' = g_used w -> g_next w' = g_next w ->
  (forall v x, dr_byte v x (drv (blk w')) = dr_byte v x (drv (blk w))) -> up w' d /\ store_data w' = store_data w.
Proof.
  intros Hu Hsame Eb Eu En Hm. assert (Hu' : up w' d) by (apply (up_same w w' d); rewrite ?Eb, ?Eu, ?En; try done; apply Hu). split; [done |].
  apply map_eq. intros i. rewrite (up_lookup w d i Hu), (up_lookup w' d i Hu'). destruct Hsame as (Ed & -> & _). rewrite Eb. case_match; [| done]. f_equal. unfold slot_bytes. rewrite Ed. apply media_ext. intros x _. apply Hm.
Qed.

(** ** The operations *)

(** A run of free slots is taken and written; on a failure it is given back. *)
Lemma run_sent w d first n buf src bm1 next1 :
  up w d -> 1 <= first -> 1 <= n <= SWAP_CLUSTER_PAGES -> first + n <= g_nslots w -> (forall q, first <= q < first + n -> bm_test (g_bitmap w) q = false) -> zlen src = n * 4096 ->
  bits (g_nslots w) bm1 -> (forall q, 0 <= q -> bm_test bm1 q = within first n q || bm_test (g_bitmap w) q) -> 1 <= next1 <= g_nslots w ->
  exists rc b, embk_block_write (Z.to_nat (n * g_spp w)) (blk w) (g_dev w) (!64 (first * g_spp w)) (n * g_spp w) buf src = Some (rc, b)
    /\ (rc = Errno.EMBK_OK -> forall st, let w' := mkSwap (g_dev w) (g_nslots w) (g_spp w) bm1 (!64 (g_used w + n)) next1 false st b in
          up w' d /\ (forall i, first <= i < first + n -> store_data w !! i = None /\ store_data w' !! i = Some (slot_bytes w' i))
          /\ (forall i, within first n i = false -> store_data w' !! i = store_data w !! i) /\ media (g_dev w) (first * 4096) (n * 4096) (drv b) = src)
    /\ (forall bm2 st, bits (g_nslots w) bm2 -> (forall q, 0 <= q -> bm_test bm2 q = negb (within first n q) && bm_test bm1 q) ->
          let w' := mkSwap (g_dev w) (g_nslots w) (g_spp w) bm2 (!64 (!64 (g_used w + n) - n)) next1 false st b in up w' d /\ store_data w' = store_data w).
Proof.
  intros Hu Hf Hn Hr Hfree Hl Hb Ht Hx. destruct (up_fits w d first n Hu ltac:(lia) ltac:(lia) Hr ltac:(lia)) as (E64 & _). rewrite E64.
  destruct (slots_write w d first n buf src Hu Hf Hn Hr Hl) as (rc & b & E & T & Ho & Hw). exists rc, b. split; [done |]. pose proof (used_range w d Hu). pose proof (up_slots w d Hu).
  assert (Hss : forall bm used st, same_store w (mkSwap (g_dev w) (g_nslots w) (g_spp w) bm used next1 false st b)) by done. split.
  - intros Erc st w'. destruct (run_taken w w' d first n) as (Hu' & Hin & Hout); try done; [lia |]. split_and!; [done .. | by apply Hw].
  - intros bm2 st Hb2 Ht2 w'. apply (run_returned w w' d first n); try done; [lia | | cbn].
    + intros q Hq. cbn. rewrite Ht2, Ht by lia. destruct (within first n q) eqn:Ew; [| done]. apply within_iff in Ew. by rewrite Hfree by lia.
    + unfold SWAP_CLUSTER_PAGES in Hn. rewrite (u64_small (g_used w + n)), u64_small by lia. lia.
Qed.

Lemma swap_out_ok w phys l : store_ok w -> zlen l = 4096 -> exists slot w', swap_out w phys l = Some (slot, w') /\ store_ok w'
  /\ ((slot = 0 /\ store_data w' = store_data w) \/ (slot <> 0 /\ store_data w !! slot = None /\ store_data w' = <[slot := l]> (store_data w))).
Proof.
  intros Hok Hl. unfold swap_out. destruct Hok as [E0 | [d Hu]]; [exists 0, w; rewrite E0; split; [done |]; split; [by left | by left] |].
  pose proof (proj1 (up_dev w d Hu)) as Hd. rewrite (proj2 (Z.eqb_neq _ _) Hd). destruct (phys =? 0); cbn [orb]; [exists 0, w; split; [done |]; split; [right; by exists d | by left] |].
  pose proof (up_slots w d Hu) as Hs. pose proof (up_next w d Hu) as Hx.
  destruct (free_slot_ok (g_bitmap w) (g_nslots w) (g_next w) (Z.to_nat (g_nslots w)) 0 Hx ltac:(lia) ltac:(lia) ltac:(lia)) as [[-> _] | [Hsl Hfree]].
  { exists 0, w. split; [done |]. split; [right; by exists d | by left]. }
  set (slot := free_slot _ _ _ _ _) in *. rewrite (proj2 (Z.eqb_neq slot 0)) by lia. destruct (bits_set _ _ slot (up_bits w d Hu) ltac:(lia)) as [Hb1 Ht1].
  assert (Hwi : forall q, within slot 1 q = (slot =? q)).
  { intros q. unfold within. destruct (slot <=? q) eqn:?, (q <? slot + 1) eqn:?, (slot =? q) eqn:?; b2p; lia || done. }
  rewrite (u64_small (slot + 1)) by lia.
  destruct (run_sent w d slot 1 (P2V phys) l (bm_set (g_bitmap w) slot) (slot + 1)) as (rc & b & E & Hyes & Hno); try done; try lia.
  { intros q Hq. by assert (q = slot) as -> by lia. } { intros q Hq. by rewrite Ht1, Hwi. }
  rewrite Z.mul_1_l in E. cbn [set_slots blk g_dev g_spp]. rewrite E. pose proof (up_idle w d Hu) as Hidle. destruct (rc =? Errno.EMBK_OK) eqn:Erc; b2p; cbn [negb].
  - specialize (Hyes Erc (count_outs (g_st w) 1)). eexists slot, _. split; [reflexivity |]. unfold set_st, set_blk, set_slots. cbn. rewrite Hidle. set (w' := mkSwap _ _ _ _ _ _ _ _ _) in *.
    destruct Hyes as (Hu' & Hin & Hout & Hm). split; [right; by exists d |]. right. split_and!; [lia | apply Hin; lia |]. apply map_eq. intros i. destruct (decide (i = slot)) as [-> | Hne].
    + rewrite lookup_insert_eq, (proj2 (Hin slot ltac:(lia))). f_equal. exact Hm.
    + rewrite lookup_insert_ne by done. apply Hout. rewrite Hwi. by apply Z.eqb_neq.
  - destruct (bits_clr _ _ slot Hb1 ltac:(lia)) as [Hb2 Ht2]. specialize (Hno _ (g_st w) Hb2 ltac:(intros q Hq; by rewrite Ht2, Hwi)).
    eexists 0, _. split; [reflexivity |]. unfold set_blk, set_slots. cbn. rewrite Hidle. split; [right; exists d; apply Hno | left; split; [done | apply Hno]].
Qed.

Lemma run_map (ls : list (list Z)) : forall first i, list_to_map (M := gmap Z (list Z)) (zip (seqZ first (Z.of_nat (length ls))) ls) !! i = if first <=? i then ls !! Z.to_nat (i - first) else None.
Proof.
  induction ls as [| l ls IH]; intros first i; [cbn; by destruct (first <=? i) |]. cbn [length]. rewrite seqZ_cons by lia. cbn [zip zip_with list_to_map fst snd foldr].
  replace (Z.pred (Z.of_nat (S (length ls)))) with (Z.of_nat (length ls)) by lia. destruct (decide (i = first)) as [-> | Hne].
  - rewrite lookup_insert_eq, Z.leb_refl, Z.sub_diag. done.
  - rewrite lookup_insert_ne, IH by done. destruct (first <=? i) eqn:E1, (Z.succ first <=? i) eqn:E2; b2p; try lia; [| done].
    replace (Z.to_nat (i - first)) with (S (Z.to_nat (i - Z.succ first))) by lia. done.
Qed.

Lemma swap_out_cluster_ok w pages : store_ok w -> Forall (fun l => zlen l = 4096) pages.*2 -> exists r w', swap_out_cluster cluster_buf w pages = Some (r, w') /\ store_ok w'
  /\ match r with
     | None => store_data w' = store_data w
     | Some slots => length slots = length pages /\ NoDup slots /\ (forall x, x ∈ slots -> x <> 0 /\ store_data w !! x = None)
                     /\ store_data w' = list_to_map (zip slots pages.*2) ∪ store_data w
     end.
Proof.
  intros Hok Hl. unfold swap_out_cluster. set (n := Z.of_nat (length pages)). destruct Hok as [E0 | [d Hu]]; [exists None, w; rewrite E0; split; [done |]; split; [by left | done] |].
  pose proof (proj1 (up_dev w d Hu)) as Hd. rewrite (proj2 (Z.eqb_neq _ _) Hd). destruct (n <=? 0) eqn:En; cbn [orb]; [exists None, w; split; [done |]; split; [right; by exists d | done] |].
  destruct (SWAP_CLUSTER_PAGES <? n) eqn:En'; [exists None, w; split; [done |]; split; [right; by exists d | done] |]. b2p.
  pose proof (up_slots w d Hu) as Hs. pose proof (up_next w d Hu) as Hx. rewrite (up_idle w d Hu). unfold alloc_run_locked.
  destruct (find_run_ok (g_bitmap w) (g_nslots w) (g_next w) n Hx ltac:(lia)) as [-> | (Hf & Hr & Hfree)]; [exists None, w; split; [done |]; split; [right; by exists d | done] |].
  set (first := find_run _ _ _ _) in *. rewrite (proj2 (Z.eqb_neq first 0)) by lia. cbv iota beta. rewrite (proj2 (Z.eqb_neq first 0)) by lia.
  destruct (bits_set_run (g_nslots w) (Z.to_nat n) (g_bitmap w) first (up_bits w d Hu) ltac:(lia) ltac:(lia)) as [Hb1 Ht1]. rewrite Z2Nat.id in Ht1 by lia. set (bm1 := for_range _ _ _ _) in *.
  rewrite (u64_small (first + n)) by lia.
  destruct (run_sent w d first n cluster_buf (concat pages.*2) bm1 (first + n)) as (rc & b & E & Hyes & Hno); try done; try lia.
  { rewrite zlen_concat by done. unfold n. by rewrite length_fmap. }
  destruct (up_fits w d first n Hu ltac:(lia) ltac:(lia) Hr ltac:(lia)) as (_ & E32 & _). cbn [set_busy set_slots blk g_dev g_spp]. rewrite E32, E. destruct (rc =? Errno.EMBK_OK) eqn:Erc; b2p; cbn [negb].
  - eexists (Some _), _. split; [reflexivity |]. unfold set_st, set_busy, set_blk. cbn. destruct (Hyes Erc (count_cluster (count_outs (g_st w) n) n)) as (Hu' & Hin & Hout & Hm). set (w' := mkSwap _ _ _ _ _ _ _ _ _) in *.
    split; [right; by exists d |]. split_and!; [rewrite length_seqZ; lia | apply NoDup_seqZ | intros x Hx'%elem_of_seqZ; split; [lia | apply Hin; lia] |].
    apply map_eq. intros i. rewrite lookup_union. replace n with (Z.of_nat (length pages.*2)) by (unfold n; by rewrite length_fmap). rewrite run_map. destruct (within first n i) eqn:Ew.
    + apply within_iff in Ew. destruct (Hin i Ew) as [-> ->]. rewrite (proj2 (Z.leb_le first i)) by lia.
      destruct (lookup_lt_is_Some_2 pages.*2 (Z.to_nat (i - first))) as [l Hl']; [rewrite length_fmap; unfold n in Ew; lia |]. rewrite Hl'. cbn. f_equal. unfold slot_bytes.
      replace (i * 4096) with (first * 4096 + Z.of_nat (Z.to_nat (i - first)) * 4096) by lia. apply (media_concat _ _ pages.*2); [done | | done]. rewrite length_fmap. exact Hm.
    + rewrite Hout by done. assert (~ (first <= i < first + n)) by (rewrite <- within_iff; by rewrite Ew). destruct (first <=? i) eqn:E1; b2p; [| by destruct (store_data w !! i)].
      rewrite lookup_ge_None_2 by (rewrite length_fmap; unfold n in *; lia). by destruct (store_data w !! i).
  - destruct (bits_clr_run (g_nslots w) (Z.to_nat n) bm1 first Hb1 ltac:(lia) ltac:(lia)) as [Hb2 Ht2]. rewrite Z2Nat.id in Ht2 by lia. destruct (Hno _ (g_st w) Hb2 Ht2) as [Hu' Hd'].
    eexists None, _. split; [reflexivity |]. split; [right; exists d; exact Hu' | exact Hd'].
Qed.

Lemma held_range w d slot : up w d -> is_Some (store_data w !! slot) -> 1 <= slot < g_nslots w /\ bm_test (g_bitmap w) slot = true /\ store_data w !! slot = Some (slot_bytes w slot).
Proof. intros Hu [l Hl]. rewrite (up_lookup w d slot Hu) in *. destruct (_ && bm_test _ _) eqn:E; [| done]. b2p. split_and!; (done || lia). Qed.

Lemma store_held w slot : store_ok w -> is_Some (store_data w !! slot) -> exists d, up w d.
Proof. intros [E0 | Hu] [l Hl]; [| done]. rewrite store_lookup in Hl. unfold swap_slot_held in Hl. by rewrite E0 in Hl. Qed.

Lemma swap_in_ok w slot phys : store_ok w -> is_Some (store_data w !! slot) -> exists r w', swap_in w slot phys = Some (r, w') /\ store_ok w' /\ store_data w' = store_data w
  /\ (forall l, r = inl l -> store_data w !! slot = Some l).
Proof.
  intros Hok Hh. destruct (store_held w slot Hok Hh) as [d Hu]. destruct (held_range w d slot Hu Hh) as (Hr & Ht & Hd). unfold swap_in.
  rewrite (proj2 (Z.eqb_neq _ _) (proj1 (up_dev w d Hu))), (proj2 (Z.eqb_neq slot 0)), (proj2 (Z.leb_gt (g_nslots w) slot)), Ht by lia. cbn [orb negb].
  destruct (phys =? 0); [by exists (inr (- Errno.EMBK_ENODEV)), w |]. destruct (slots_read w d slot 1 (P2V phys) Hu ltac:(lia) ltac:(done) ltac:(lia)) as (rc & l & b & E & T & Hm & Hl).
  rewrite Z.mul_1_l in E. destruct (up_fits w d slot 1 Hu ltac:(lia) ltac:(lia) ltac:(lia) ltac:(done)) as (-> & _). rewrite E. pose proof (up_idle w d Hu).
  assert (Hk : forall st, up (set_st (set_blk w b) st) d /\ store_data (set_st (set_blk w b) st) = store_data w) by (intros st; by apply (data_kept w _ d Hu)).
  destruct (rc =? Errno.EMBK_OK) eqn:Erc; b2p; cbn [negb].
  - eexists (inl l), _. split; [reflexivity |]. cbn [set_blk g_st]. destruct (Hk (count_ins (g_st w) 1)) as [Hu' Hd']. split_and!; [right; by exists d | done |]. intros l' [= <-]. rewrite Hd. f_equal. by rewrite (Hl Erc).
  - eexists (inr rc), _. split; [reflexivity |]. destruct (Hk (g_st w)) as [Hu' Hd']. split_and!; [right; by exists d | done | done].
Qed.

Lemma swap_in_cluster_ok w slot phys : store_ok w -> (forall i, (i < length phys)%nat -> is_Some (store_data w !! (slot + Z.of_nat i))) ->
  exists r w', swap_in_cluster cluster_buf w slot phys = Some (r, w') /\ store_ok w' /\ store_data w' = store_data w
  /\ (forall ls, r = inl ls -> length ls = length phys /\ forall i, (i < length phys)%nat -> store_data w !! (slot + Z.of_nat i) = ls !! i).
Proof.
  intros Hok Hh. unfold swap_in_cluster. set (n := Z.of_nat (length phys)).
  assert (Hbad : forall e : Z, exists r w', Some (inr e, w) = Some (r, w') /\ store_ok w' /\ store_data w' = store_data w
    /\ (forall ls : list (list Z), r = inl ls -> length ls = length phys /\ forall i, (i < length phys)%nat -> store_data w !! (slot + Z.of_nat i) = ls !! i)) by (intros e; by exists (inr e), w).
  destruct (g_dev w =? 0) eqn:E0; cbn [orb]; [apply Hbad |]. destruct (n <=? 0) eqn:En; cbn [orb]; [apply Hbad |]. destruct (SWAP_CLUSTER_PAGES <? n) eqn:En'; [apply Hbad |].
  destruct (_ || (g_nslots w <? _)); [apply Hbad |]. destruct (_ || g_cluster_busy w) eqn:Eb; [apply Hbad |]. b2p.
  destruct (store_held w (slot + Z.of_nat 0) Hok (Hh O ltac:(lia))) as [d Hu].
  assert (Hr : forall i, (i < length phys)%nat -> 1 <= slot + Z.of_nat i < g_nslots w /\ store_data w !! (slot + Z.of_nat i) = Some (slot_bytes w (slot + Z.of_nat i))).
  { intros i Hi. by destruct (held_range w d _ Hu (Hh i Hi)) as (? & _ & ?). }
  destruct (Hr O ltac:(lia)) as [Hr0 _]. destruct (Hr (pred (length phys)) ltac:(lia)) as [Hrn _].
  destruct (slots_read w d slot n cluster_buf Hu ltac:(lia) ltac:(lia) ltac:(lia)) as (rc & l & b & E & T & Hm & Hl).
  destruct (up_fits w d slot n Hu ltac:(lia) ltac:(lia) ltac:(lia) ltac:(lia)) as (E64 & E32 & _). cbn [set_busy blk g_dev g_spp]. rewrite E64, E32, E.
  assert (Hk : forall st, up (set_st (set_busy (set_blk (set_busy w true) b) false) st) d /\ store_data (set_st (set_busy (set_blk (set_busy w true) b) false) st) = store_data w) by (intros st; by apply (data_kept w _ d Hu)).
  destruct (rc =? Errno.EMBK_OK) eqn:Erc; b2p; cbn [negb].
  - eexists (inl _), _. split; [reflexivity |]. destruct (Hk (count_cluster_read (count_ins (g_st w) n))) as [Hu' Hd']. split_and!; [right; by exists d | done |]. intros ls [= <-].
    split; [rewrite length_fmap, length_seqZ; lia |]. intros i Hi. rewrite (proj2 (Hr i Hi)), list_lookup_fmap, lookup_seqZ_lt by lia. cbn. f_equal. rewrite (Hl Erc), sub_media by lia. unfold slot_bytes. f_equal. lia.
  - eexists (inr rc), _. split; [reflexivity |]. destruct (Hk (g_st w)) as [Hu' Hd']. split_and!; [right; by exists d | done | done].
Qed.

Lemma swap_free_ok w slot : store_ok w -> is_Some (store_data w !! slot) -> store_ok (swap_free w slot) /\ store_data (swap_free w slot) = delete slot (store_data w).
Proof.
  intros Hok Hh. destruct (store_held w slot Hok Hh) as [d Hu]. destruct (held_range w d slot Hu Hh) as (Hr & Ht & Hd). unfold swap_free.
  rewrite (proj2 (Z.eqb_neq _ _) (proj1 (up_dev w d Hu))), (proj2 (Z.eqb_neq slot 0)), (proj2 (Z.leb_gt (g_nslots w) slot)), Ht by lia. cbn [orb].
  destruct (bits_clr _ _ slot (up_bits w d Hu) ltac:(lia)) as [Hb Ht']. pose proof (used_range w d Hu). pose proof (up_slots w d Hu). set (w' := set_st _ _).
  assert (Hc : countb (bm_test (g_bitmap w)) (Z.to_nat (g_nslots w)) = countb (bm_test (g_bitmap w')) (Z.to_nat (g_nslots w)) + 1).
  { apply (countb_flip _ _ _ slot); [lia | cbn; by rewrite Ht', Z.eqb_refl by lia | done |]. intros j Hj Hne. cbn. rewrite Ht' by lia. by rewrite (proj2 (Z.eqb_neq slot j)) by done. }
  pose proof (countb_bounds (bm_test (g_bitmap w')) (Z.to_nat (g_nslots w))). pose proof (up_idle w d Hu).
  assert (Hu' : up w' d).
  { apply (up_same w w' d); try done; [cbn; rewrite Ht', (up_header w d Hu), (proj2 (Z.eqb_neq slot 0)) by lia; done | apply Hu |]. unfold w' at 1. cbn [set_st set_slots g_used]. rewrite (up_used w d Hu), Hc, u64_small; lia. }
  split; [right; by exists d |]. apply map_eq. intros i. rewrite (up_lookup w' d i Hu'). destruct (decide (i = slot)) as [-> | Hne].
  - rewrite lookup_delete_eq. cbn. rewrite Ht', Z.eqb_refl by lia. cbn. by rewrite andb_false_r.
  - rewrite lookup_delete_ne, (up_lookup w d i Hu) by done. change (g_nslots w') with (g_nslots w). destruct (0 <? i) eqn:Ei; b2p; [| done]. rewrite (slot_bytes_eq w w') by reflexivity. replace (bm_test (g_bitmap w') i) with (bm_test (g_bitmap w) i); [done |]. cbn [w' set_st set_slots g_bitmap]. by rewrite Ht', (proj2 (Z.eqb_neq slot i)) by (done || lia).
Qed.

(** ** The store is what the page cache asks for *)

Definition swap_slots : Slots (swap A) := {|
  PageCache.swap_available := swap_available;
  PageCache.swap_free_slots := swap_free_slots;
  PageCache.swap_out phys l w := default (0, w) (swap_out w phys l);
  PageCache.swap_out_cluster pages w := default (None, w) (swap_out_cluster cluster_buf w pages);
  PageCache.swap_in slot phys w := default (inr (- Errno.EMBK_EIO), w) (swap_in w slot phys);
  PageCache.swap_in_cluster slot phys w := default (inr (- Errno.EMBK_EIO), w) (swap_in_cluster cluster_buf w slot phys);
  PageCache.swap_free slot w := swap_free w slot;
  PageCache.swap_slot_held slot w := swap_slot_held w slot;
  PageCache.swap_nslots w := t_nslots (swap_stats_get w);
  PageCache.swap_used w := t_used (swap_stats_get w);
|}.

Definition swap_slot_laws : @SlotLaws (swap A) swap_slots.
Proof.
  refine {| sw_ok := store_ok; sw_data := store_data |}.
  - intros w Hw. rewrite store_lookup. by rewrite andb_false_r.
  - cbn. intros phys l w slot w' Hw Hl He. destruct (swap_out_ok w phys l Hw Hl) as (x & y & E & Hok & Hd). rewrite E in He. injection He as <- <-. done.
  - cbn. intros ls w r w' Hw Hl He. destruct (swap_out_cluster_ok w ls Hw Hl) as (x & y & E & Hok & Hd). rewrite E in He. injection He as <- <-. done.
  - cbn. intros slot phys w r w' Hw Hh He. destruct (swap_in_ok w slot phys Hw Hh) as (x & y & E & Hok & Hd). rewrite E in He. injection He as <- <-. done.
  - cbn. intros slot phys w r w' Hw Hh He. destruct (swap_in_cluster_ok w slot phys Hw Hh) as (x & y & E & Hok & Hd). rewrite E in He. injection He as <- <-. done.
  - intros slot w Hw Hh. by apply swap_free_ok.
  - cbn. intros slot w Hw [l Hl]. rewrite store_lookup in Hl. by destruct (swap_slot_held w slot).
Defined.

(** ** Finding the store *)

Lemma fresh_bitmap n : 1 <= n < 2 ^ 63 -> let bm := bm_set (replicate (Z.to_nat (!64 (n + 7) / 8)) 0) 0 in
  bits n bm /\ (forall q, 0 <= q < n -> bm_test bm q = (0 =? q)) /\ countb (bm_test bm) (Z.to_nat n) = 1.
Proof.
  intros Hn. cbv zeta. rewrite (u64_small (n + 7)) by lia. pose proof (pages_bytes n ltac:(lia)) as Hsz. set (z := replicate (Z.to_nat ((n + 7) / 8)) 0).
  assert (Hz : bits n z). { split; [apply Forall_replicate; split; lia | unfold zlen, z; rewrite length_replicate; lia]. }
  assert (Hz0 : forall q, 0 <= q < n -> bm_test z q = false).
  { intros q Hq. unfold bm_test. destruct (slot_byte q ltac:(lia)) as [-> _]. unfold z. rewrite rd_replicate; [by rewrite Z.shiftr_0_l |]. pose proof (Z.div_mod q 8 ltac:(lia)). pose proof (Z.mod_pos_bound q 8 ltac:(lia)). lia. }
  destruct (bits_set n z 0 Hz ltac:(lia)) as [Hb Ht]. assert (Ht' : forall q, 0 <= q < n -> bm_test (bm_set z 0) q = (0 =? q)) by (intros q Hq; by rewrite Ht, Hz0, orb_false_r by lia).
  split_and!; [done | done |]. rewrite (countb_flip (fun _ => false) _ _ 0); [| lia | done | by rewrite Ht' by lia | intros j Hj Hne; rewrite Ht' by lia; symmetry; by apply Z.eqb_neq]. clear. induction (Z.to_nat n); cbn; lia.
Qed.

(** The devices of the table are the drivers', with bytes on their media. *)
Definition registered (b : blocks A) : Prop := forall dev d, dev ∈ devices b -> devs b !! dev = Some d ->
  (forall x, is_byte (dr_byte dev x (drv b))) /\ dev <> 0 /\ d_block_size d = dr_block dev /\ 0 <= d_block_size d /\ 0 <= d_block_count d < 2 ^ 63.

(** A store that has just been found: its header is on the device, and no slot is in use. *)
Definition found w : Prop := exists d,
  up w d /\ g_dev w ∈ devices (blk w) /\ header_slots d (g_spp w) (media (g_dev w) 0 4096 (drv (blk w))) = Some (g_nslots w) /\ store_data w = ∅.
Definition idle_or_found w : Prop := (g_dev w = 0 /\ g_nslots w = 0 /\ g_cluster_busy w = false) \/ found w.

Lemma fits_iff d : fits d = true -> 0 <= d_block_size d -> (d_read d = true /\ d_write d = true) /\ 0 < d_block_size d <= 4096 /\ d_block_size d * (4096 / d_block_size d) = 4096.
Proof.
  unfold fits. intros E Hs. destruct (d_read d), (d_write d); try done. b2p. split_and!; [done | done | lia | lia |]. pose proof (Z.div_mod 4096 (d_block_size d) ltac:(lia)). lia.
Qed.

(** The block layer did nothing but read. *)
Definition only_read (b b' : blocks A) : Prop := same_table b b' /\ forall v x, dr_byte v x (drv b') = dr_byte v x (drv b).

Lemma found_read w b : idle_or_found w -> only_read (blk w) b -> idle_or_found (set_blk w b).
Proof.
  intros [Hz | (d & Hu & Hin & Hh & Hd)] [T Hm]; [by left |]. right. exists d. pose proof (up_idle w d Hu). destruct (data_kept w (set_blk w b) d Hu) as [Hu' Hd']; try done. split_and!; [done | | | congruence].
  - cbn. destruct T as (_ & -> & _). done.
  - cbn. rewrite (media_ext _ _ _ (drv (blk w)) (drv b)); [done |]. intros x _. apply Hm.
Qed.

Lemma only_read_refl b : only_read b b.
Proof. done. Qed.
Lemma only_read_trans b1 b2 b3 : only_read b1 b2 -> only_read b2 b3 -> only_read b1 b3.
Proof. intros [(A1 & A2 & A3 & A4) B] [(C1 & C2 & C3 & C4) D]. split; [split_and!; congruence |]. intros v x. by rewrite D, B. Qed.

Lemma registered_read b b' : registered b -> only_read b b' -> registered b'.
Proof. intros Hr [(E1 & E2 & _) Hm] dev d. rewrite E1, E2. intros Hin Hd. destruct (Hr dev d Hin Hd) as [Hb ?]. split; [intros x; by rewrite Hm | done]. Qed.

(** The header of a device that fits. *)
Lemma header_read b dev d h : registered b -> dev ∈ devices b -> devs b !! dev = Some d -> fits d = true -> h <> 0 -> 4096 / d_block_size d <= d_block_count d ->
  exists rc l b', embk_block_read (Z.to_nat (4096 / d_block_size d)) b dev 0 (4096 / d_block_size d) h = Some (rc, l, b') /\ only_read b b' /\ (rc = Errno.EMBK_OK -> l = media dev 0 4096 (drv b')).
Proof.
  intros Hreg Hin Hd Hf Hh Hc. destruct (Hreg dev d Hin Hd) as (Hbyte & Hd0 & Ebs & Hs0 & Hbc). destruct (fits_iff d Hf Hs0) as ([Hrd _] & Hs & E4). set (spp := 4096 / d_block_size d) in *.
  assert (0 < spp) by nia. assert (Hus : usable b dev d) by (split_and!; try done; unfold BOUNCE_BYTES; lia).
  destruct (block_read_ok (Z.to_nat spp) b dev d 0 spp h Hus Hrd Hh) as (rc & l & b' & E & T & Hm & Hl); [lia | lia | lia |]. exists rc, l, b'. split_and!; [done | done |].
  intros Erc. rewrite (Hl Erc). replace (0 * d_block_size d) with 0 by lia. replace (spp * d_block_size d) with 4096 by lia. symmetry. apply media_ext. intros x _. apply Hm.
Qed.

Lemma header_slots_eq d spp h n : header_slots d spp h = Some n -> n = Z.min (header_nslots h) (d_block_count d / spp).
Proof. unfold header_slots. intros Hh. repeat case_match; try done. by injection Hh as <-. Qed.

Lemma header_slots_read d spp h n : header_slots d spp h = Some n ->
  sub h 0 8 = SWAP_MAGIC /\ header_version h = SWAP_HEADER_VER /\ header_page_size h = 4096 /\ n = Z.min (header_nslots h) (d_block_count d / spp).
Proof.
  intros Hh. pose proof (header_slots_eq _ _ _ _ Hh) as Hn. unfold header_slots in Hh. case_bool_decide as Em; cbn [negb] in Hh; [| done].
  destruct (header_version h =? SWAP_HEADER_VER) eqn:Ev; cbn [negb orb] in Hh; [| done]. destruct (header_page_size h =? 4096) eqn:Ep; cbn [negb] in Hh; [| done]. b2p. split_and!; done.
Qed.

(** The store on a device whose header is understood. *)
Lemma store_found w dev d nslots st : registered (blk w) -> dev ∈ devices (blk w) -> devs (blk w) !! dev = Some d -> fits d = true -> g_cluster_busy w = false ->
  header_slots d (4096 / d_block_size d) (media dev 0 4096 (drv (blk w))) = Some nslots -> 1 <= nslots ->
  found (mkSwap dev nslots (4096 / d_block_size d) (bm_set (replicate (Z.to_nat (!64 (nslots + 7) / 8)) 0) 0) 1 1 (g_cluster_busy w) st (blk w)).
Proof.
  intros Hreg Hin Hd Hf Hbusy Hh Hn. destruct (Hreg dev d Hin Hd) as (Hbyte & Hd0 & Ebs & Hs0 & Hbc). destruct (fits_iff d Hf Hs0) as (Hops & Hs & E4). set (spp := 4096 / d_block_size d) in *.
  assert (Hspp : 0 < spp) by nia. assert (Hle : nslots <= d_block_count d / spp). { pose proof (header_slots_eq _ _ _ _ Hh). lia. }
  pose proof (Z.mul_div_le (d_block_count d) spp Hspp) as Hmul. assert (nslots * spp <= d_block_count d) by nia. assert (nslots < 2 ^ 63) by nia.
  destruct (fresh_bitmap nslots ltac:(lia)) as (Hb & Ht & Hcnt). set (w' := mkSwap _ _ _ _ _ _ _ _ _).
  assert (Hu : up w' d). { split; cbn; try done; [split_and!; try done; unfold BOUNCE_BYTES; lia | by rewrite Ht by lia]. }
  exists d. split_and!; [done | done | done |]. apply map_eq. intros i. rewrite lookup_empty, (up_lookup w' d i Hu). cbn. destruct (0 <? i) eqn:E0; b2p; [| done]. destruct (i <? nslots) eqn:E1; b2p; [| done].
  rewrite Ht by lia. destruct (0 =? i) eqn:E2; b2p; [lia | done].
Qed.

Lemma header_slots_nonneg b dev d spp n : registered b -> dev ∈ devices b -> devs b !! dev = Some d -> 0 < spp -> header_slots d spp (media dev 0 4096 (drv b)) = Some n -> 0 <= n.
Proof.
  intros Hreg Hin Hd Hs Hh. destruct (Hreg dev d Hin Hd) as (Hbyte & _ & _ & _ & Hbc). rewrite (header_slots_eq _ _ _ _ Hh).
  apply Z.min_glb; [| by apply Z.div_pos; lia]. unfold header_nslots. rewrite sub_media by lia. apply get_le_range. intros i Hi. rewrite rd_media by lia. apply Hbyte.
Qed.

Lemma header_spp b dev d : registered b -> dev ∈ devices b -> devs b !! dev = Some d -> fits d = true -> 0 < 4096 / d_block_size d.
Proof. intros Hreg Hin Hd Hf. destruct (Hreg dev d Hin Hd) as (_ & _ & _ & Hs0 & _). destruct (fits_iff d Hf Hs0) as (_ & Hs & E). nia. Qed.

Section Probe.
Context {HP : Type} `{Heap HP}.
(** [kmalloc(0)] is NULL. *)
Hypothesis kmalloc_0 : forall hp, fst (kmalloc 0 hp) = 0.

Lemma swap_probe_ok more : forall i w (hp : HP), 0 <= i -> registered (blk w) -> idle_or_found w ->
  exists fin w' hp', swap_probe more i w hp = Some (fin, w', hp') /\ only_read (blk w) (blk w') /\ idle_or_found w'.
Proof.
  induction more as [| more IH]; intros i w hp Hi0 Hreg Hw; cbn [swap_probe]; [by exists true, w, hp |].
  assert (Hnext : forall w1 hp1, only_read (blk w) (blk w1) -> idle_or_found w1 -> exists fin w' hp', swap_probe more (i + 1) w1 hp1 = Some (fin, w', hp') /\ only_read (blk w) (blk w') /\ idle_or_found w').
  { intros w1 hp1 O1 F1. destruct (IH (i + 1) w1 hp1) as (fin & w' & hp' & E & O2 & F2); [lia | by apply (registered_read (blk w)) | done |]. exists fin, w', hp'. split_and!; [done | by apply (only_read_trans _ (blk w1)) | done]. }
  destruct (embk_block_get (blk w) i) as [dev |] eqn:Eg; cbn [mbind option_bind]; [| by apply Hnext]. destruct (devs (blk w) !! dev) as [d |] eqn:Ed; cbn [mbind option_bind]; [| by apply Hnext].
  assert (Hin : dev ∈ devices (blk w)). { unfold embk_block_get in Eg. case_match; [done |]. by eapply list_elem_of_lookup_2. }
  destruct (fits d) eqn:Ef; cbn [negb]; [| by apply Hnext]. destruct (kmalloc 4096 hp) as [h hp1]. destruct (h =? 0) eqn:Eh; b2p; [by exists false, w, hp1 |].
  destruct (d_block_count d <? 4096 / d_block_size d) eqn:Ec; b2p; [by apply Hnext |]. destruct (header_read (blk w) dev d h Hreg Hin Ed Ef Eh Ec) as (rc & l & b & E & O & Hl). rewrite E.
  pose proof (found_read w b Hw O) as Hw1. pose proof (registered_read _ b Hreg O) as Hreg1. destruct (rc =? Errno.EMBK_OK) eqn:Erc; b2p; cbn [negb]; [| by apply Hnext]. specialize (Hl Erc) as ->.
  destruct (header_slots d _ _) as [nslots |] eqn:Es; [| by apply Hnext]. destruct (g_dev (set_blk w b) =? 0) eqn:E0; b2p; cbn [negb]; [| by apply Hnext].
  destruct (kmalloc _ (kfree h hp1)) as [bm hp2] eqn:Ek. destruct (bm =? 0) eqn:Ebm; b2p; [by exists false, (set_blk w b), hp2 |].
  destruct O as [T Hm]. assert (Hin1 : dev ∈ devices b) by (destruct T as (_ & -> & _); done). assert (Ed1 : devs b !! dev = Some d) by (destruct T as (-> & _); done).
  pose proof (header_slots_nonneg b dev d _ nslots Hreg1 Hin1 Ed1 (header_spp _ dev d Hreg Hin Ed Ef) Es) as Hnn.
  assert (nslots <> 0). { intros ->. change (!64 (0 + 7) / 8) with 0 in Ek. pose proof (kmalloc_0 (kfree h hp1)) as Hz. by rewrite Ek in Hz. }
  apply Hnext; [done |]. right. apply (store_found (set_blk w b)); try done; [| lia]. destruct Hw1 as [(_ & _ & ?) | (d' & Hu & _)]; [done |]. by destruct (proj1 (up_dev _ d' Hu)).
Qed.

(** The store is found by its header.  At start the devices of the table are
    read and nothing on them changes.  If a store is found, the device carries a
    header with the right magic, version and page size; it has as many slots as
    the header says and the device has room for; slot 0, the header, is
    taken and no other slot is in use.  With no store, 0 slots are offered. *)
Theorem swap_init_finds w (hp : HP) : g_dev w = 0 -> g_nslots w = 0 -> g_cluster_busy w = false -> registered (blk w) ->
  exists n w' hp', swap_init w hp = Some (n, w', hp') /\ only_read (blk w) (blk w')
    /\ ((g_dev w' = 0 /\ n = 0) \/
        exists d, up w' d /\ g_dev w' ∈ devices (blk w') /\ (n = g_nslots w' - 1 \/ n = 0) /\ store_data w' = ∅
          /\ let h := media (g_dev w') 0 4096 (drv (blk w')) in
             sub h 0 8 = SWAP_MAGIC /\ header_version h = SWAP_HEADER_VER /\ header_page_size h = 4096
             /\ g_nslots w' = Z.min (header_nslots h) (d_block_count d / g_spp w')).
Proof.
  intros Hd Hn Hb Hreg. unfold swap_init. rewrite Hd. cbn [Z.eqb negb]. destruct (swap_probe_ok (Z.to_nat BLOCK_MAX_DEVICES) 0 w hp ltac:(lia) Hreg) as (fin & w' & hp' & E & O & F); [by left |].
  rewrite E. eexists _, w', hp'. split; [reflexivity |]. split; [done |]. destruct F as [(E0 & E1 & _) | (d & Hu & Hin & Hh & He)].
  - left. split; [done |]. unfold slots_offered. rewrite E1. by destruct fin.
  - right. exists d. pose proof (up_slots w' d Hu). split; [done |]. split; [done |]. split; [| split; [done |]].
    + unfold slots_offered. rewrite (proj2 (Z.eqb_neq (g_nslots w') 0)) by lia. destruct fin; [by left | by right].
    + by apply header_slots_read.
Qed.
End Probe.

(** C16. The swap store is a map from slots to pages.  Every operation of the store
    returns.  A page that goes out gets a slot that was not in use and is what is
    in it; a run of pages that goes out in one command gets slots of its own, one
    for each; a refusal or a failed write changes nothing, and no operation
    changes what is in a slot in use.  A page that comes in is what is in its
    slot, alone or in a run, and giving a slot back removes it and nothing else. *)
Theorem swap_is_a_store w : store_ok w ->
  (forall phys l, zlen l = 4096 -> exists slot w', swap_out w phys l = Some (slot, w') /\ store_ok w'
     /\ ((slot = 0 /\ store_data w' = store_data w) \/ (slot <> 0 /\ store_data w !! slot = None /\ store_data w' = <[slot := l]> (store_data w))))
  /\ (forall pages, Forall (fun l => zlen l = 4096) pages.*2 -> exists r w', swap_out_cluster cluster_buf w pages = Some (r, w') /\ store_ok w'
     /\ match r with
        | None => store_data w' = store_data w
        | Some slots => length slots = length pages /\ NoDup slots /\ (forall x, x ∈ slots -> x <> 0 /\ store_data w !! x = None)
                        /\ store_data w' = list_to_map (zip slots pages.*2) ∪ store_data w
        end)
  /\ (forall slot phys, is_Some (store_data w !! slot) -> exists r w', swap_in w slot phys = Some (r, w') /\ store_ok w' /\ store_data w' = store_data w
     /\ (forall l, r = inl l -> store_data w !! slot = Some l))
  /\ (forall slot phys, (forall i, (i < length phys)%nat -> is_Some (store_data w !! (slot + Z.of_nat i))) ->
     exists r w', swap_in_cluster cluster_buf w slot phys = Some (r, w') /\ store_ok w' /\ store_data w' = store_data w
     /\ (forall ls, r = inl ls -> length ls = length phys /\ forall i, (i < length phys)%nat -> store_data w !! (slot + Z.of_nat i) = ls !! i))
  /\ (forall slot, is_Some (store_data w !! slot) -> store_ok (swap_free w slot) /\ store_data (swap_free w slot) = delete slot (store_data w)).
Proof.
  intros Hok. split; [intros phys l; by apply swap_out_ok |]. split; [intros pages; by apply swap_out_cluster_ok |]. split; [intros slot phys; by apply swap_in_ok |].
  split; [intros slot phys; by apply swap_in_cluster_ok | intros slot; by apply swap_free_ok].
Qed.

(** The first answer of a store with a free slot is not a refusal. *)
Lemma swap_out_finds w d : up w d -> swap_free_slots w <> 0 -> exists q, 1 <= q < g_nslots w /\ free_slot (Z.to_nat (g_nslots w)) (g_bitmap w) (g_nslots w) (g_next w) 0 = q /\ bm_test (g_bitmap w) q = false.
Proof.
  intros Hu Hf. pose proof (up_slots w d Hu) as Hs. pose proof (up_next w d Hu) as Hx. pose proof (used_range w d Hu) as Hur.
  destruct (free_slot_ok (g_bitmap w) (g_nslots w) (g_next w) (Z.to_nat (g_nslots w)) 0 Hx ltac:(lia) ltac:(lia) ltac:(lia)) as [[_ Hall] | [Hr Ht]]; [| by eexists].
  exfalso. apply Hf. unfold swap_free_slots. rewrite (proj2 (Z.eqb_neq _ _) (proj1 (up_dev w d Hu))). enough (g_used w = g_nslots w) as -> by by rewrite Z.sub_diag.
  rewrite (up_used w d Hu). rewrite (countb_ext _ (fun _ => true)); [clear -Hs; rewrite <- (Z2Nat.id (g_nslots w)) at 2 by lia; induction (Z.to_nat (g_nslots w)); cbn [countb]; lia |].
  intros q Hq. destruct (slot_at_onto (g_nslots w) (g_next w) q Hx ltac:(lia) ltac:(lia)) as (k & Hk & <-). destruct (Hall k ltac:(lia)) as [-> | ?]; [apply (up_header w d Hu) | done].
Qed.
End Store.

(** ** A store of 8 slots *)

Definition demo_store : swap disks := mkSwap 7 8 8 [1] 1 1 false no_stats demo_blocks.
Definition demo_buf : Z := 0xFFFFFFFF80100000.

#[export] Instance demo_slots : Slots (swap disks) := swap_slots demo_buf.
#[export] Instance demo_slot_laws : SlotLaws (swap disks) := swap_slot_laws demo_buf.

Lemma demo_store_up : up demo_store demo_disk.
Proof.
  split; try (cbn; lia || done).
  split; [by repeat constructor | done].
Qed.

Lemma swap_is_a_store_witness : exists slot w', swap_out demo_store 4096 (replicate 4096 7) = Some (slot, w') /\ slot = 1 /\ store_ok w'.
Proof.
  destruct (swap_is_a_store demo_buf demo_store (or_intror (ex_intro _ demo_disk demo_store_up))) as [Hout _]. destruct (Hout 4096 (replicate 4096 7) eq_refl) as (slot & w' & E & Hok & _).
  exists slot, w'. split; [exact E |]. split; [| exact Hok]. assert (E1 : fst <$> swap_out demo_store 4096 (replicate 4096 7) = Some 1) by (vm_compute; reflexivity). rewrite E in E1. by injection E1.
Defined.

Definition demo_header : list Z := SWAP_MAGIC ++ put_le 4 1 ++ put_le 4 4096 ++ put_le 8 8.
Definition demo_start : swap disks :=
  mkSwap 0 0 0 [] 0 0 false no_stats (mkBlocks {[7 := demo_disk]} [7] [no_identity] 1 0 0 0 0 (fun _ x => if 0 <=? x then rd demo_header x else 0)).

Definition tiny_heap : Heap Z := {| kmalloc n h := if n =? 0 then (0, h) else (h, h + 4096); kfree _ h := h |}.

Lemma demo_start_registered : registered (blk demo_start).
Proof.
  intros dev d Hin%list_elem_of_singleton Hd. cbn in Hin. subst dev. cbn in Hd. rewrite lookup_singleton_eq in Hd. injection Hd as <-. split; [| cbn; unfold SECTOR; lia].
  intros x. change (is_byte (if 0 <=? x then rd demo_header x else 0)). destruct (0 <=? x); [| done]. apply rd_byte. unfold demo_header. rewrite !Forall_app. split_and!; [by repeat constructor | apply put_le_bytes ..].
Qed.

Lemma swap_init_finds_witness : exists n w' hp', swap_init (H := disk_drivers) (H0 := tiny_heap) demo_start 4096 = Some (n, w', hp') /\ n = 7 /\ only_read (blk demo_start) (blk w').
Proof.
  destruct (@swap_init_finds disks _ _ Z tiny_heap (fun hp => eq_refl) demo_start 4096 eq_refl eq_refl eq_refl demo_start_registered) as (n & w' & hp' & E & Hr & _).
  exists n, w', hp'. split; [exact E |]. split; [| exact Hr].
  assert (E1 : (fst ∘ fst) <$> swap_init (H := disk_drivers) (H0 := tiny_heap) demo_start 4096 = Some 7) by (vm_compute; reflexivity). rewrite E in E1. by injection E1.
Defined.
