(* ===== verification/PageCacheFrames.v ===== *)
(** * The page cache on the page allocator

    The frames of the page cache are those of [kernel/mm/pmm.c]: the allocator
    keeps the promises the cache is proved against. *)

From S2P Require Import Prelude Bytes Pmm Vfs PageCache PageCacheInv.

#[export] Instance pmm_frames : Frames pmm := {|
  PageCache.pmm_free_pages := free_pages;
  PageCache.pmm_alloc_page := Pmm.pmm_alloc_page;
  PageCache.pmm_free_page := Pmm.pmm_free_page;
|}.

(** Page 0 is never given out: its address is the refusal. *)
Definition pmm_ok (s : pmm) : Prop := pmm_wf s /\ bitmap_test (bitmap s) 0 = true.
Definition pmm_held (s : pmm) : gset Z := list_to_set ((fun p => p * Pmm.PAGE_SIZE) <$> filter (fun p => bitmap_test (bitmap s) p = true) (seqZ 1 (total_pages s - 1))).

Lemma elem_of_pmm_held s a : a ∈ pmm_held s <-> exists p, a = p * Pmm.PAGE_SIZE /\ 0 < p < total_pages s /\ bitmap_test (bitmap s) p = true.
Proof.
  unfold pmm_held. rewrite elem_of_list_to_set, list_elem_of_fmap. split; intros (p & E & Hp); exists p.
  - apply list_elem_of_filter in Hp as [Ht Hp%elem_of_seqZ]. split_and!; (done || lia).
  - split; [done |]. apply list_elem_of_filter. rewrite elem_of_seqZ. split; [apply Hp | lia].
Qed.

Lemma pmm_held_page s p : p * Pmm.PAGE_SIZE ∈ pmm_held s <-> 0 < p < total_pages s /\ bitmap_test (bitmap s) p = true.
Proof. rewrite elem_of_pmm_held. split; [intros (q & E & Hq); unfold Pmm.PAGE_SIZE in E; by assert (p = q) as -> by lia | intros Hp; by exists p]. Qed.

Lemma pmm_held_ext s s' : total_pages s' = total_pages s -> (forall p, 0 < p -> bitmap_test (bitmap s') p = bitmap_test (bitmap s) p) -> pmm_held s' = pmm_held s.
Proof.
  intros Et Hb. apply leibniz_equiv. intros a. rewrite !elem_of_pmm_held, Et. split; intros (p & E & Hp & Ht); exists p; split_and!; try done; try lia.
  - by rewrite <- Hb by lia.
  - by rewrite Hb by lia.
Qed.

Lemma pmm_alloc_held s x s' : pmm_ok s -> Pmm.pmm_alloc_page s = (x, s') ->
  pmm_ok s' /\ ((x = 0 /\ pmm_held s' = pmm_held s) \/ (0 < x /\ (x ∉ pmm_held s) /\ pmm_held s' = {[x]} ∪ pmm_held s)).
Proof.
  intros [W Hz] He. pose proof (wf_total s W) as Ht. destruct (pmm_alloc_page_cases s W) as [(p & bits & Hp & Hf & E) | [(bits & E) _]]; rewrite E in He.
  - pose proof (take_page_wf s p bits W Hp Hf) as Wt. unfold take_page in *. injection He as <- <-. cbn [snd] in Wt. assert (0 < p) by (destruct (decide (p = 0)) as [-> |]; [congruence | lia]).
    rewrite (u64_small (p * Pmm.PAGE_SIZE)) by (unfold Pmm.PAGE_SIZE; lia). pose proof (page_in_bitmap s p W Hp) as Hpb.
    split; [split; [done |]; cbn; rewrite bitmap_test_set by (done || lia); by rewrite Hz, orb_true_r |]. right. split_and!; [unfold Pmm.PAGE_SIZE; lia | |].
    + rewrite pmm_held_page, Hf. by intros [_ ?].
    + apply leibniz_equiv. intros a. rewrite elem_of_union, elem_of_singleton, !elem_of_pmm_held. cbn. split.
      * intros (q & -> & Hq & Hb). rewrite bitmap_test_set in Hb by (done || lia). destruct (p =? q) eqn:E'; b2p; [left; by subst q | right; by exists q].
      * intros [-> | (q & -> & Hq & Hb)]; [exists p | exists q]; rewrite bitmap_test_set by (done || lia); (split; [done |]); (split; [lia |]).
        { by rewrite Z.eqb_refl. } { by rewrite Hb, orb_true_r. }
  - injection He as <- <-. split; [split; [by apply set_bits_wf | done] |]. by left.
Qed.

Lemma pmm_free_held s x : pmm_ok s -> x ∈ pmm_held s -> pmm_ok (Pmm.pmm_free_page x s) /\ pmm_held (Pmm.pmm_free_page x s) = pmm_held s ∖ {[x]}.
Proof.
  intros [W Hz] (p & -> & Hp & Hu)%elem_of_pmm_held. pose proof (pmm_free_page_wf (p * Pmm.PAGE_SIZE) s ltac:(unfold Pmm.PAGE_SIZE; lia) W) as Wf.
  unfold pmm_ok, Pmm.pmm_free_page in *. rewrite Z.div_mul in * by done. rewrite (proj2 (Z.leb_gt _ _)), Hu in * by lia. cbv zeta in *. set (t := mark_free p s) in *.
  assert (Hb : forall q, 0 <= q -> bitmap_test (bitmap t) q = negb (p =? q) && bitmap_test (bitmap s) q) by (intros q Hq; apply mark_free_test; [done | lia | lia]).
  assert (Et : total_pages t = total_pages s) by apply mark_free_total. split; [split; [done |]; cbn; rewrite Hb, Hz, (proj2 (Z.eqb_neq p 0)) by lia; done |].
  apply leibniz_equiv. intros a. rewrite elem_of_difference, elem_of_singleton, !elem_of_pmm_held. cbn. rewrite Et. split.
  - intros (q & -> & Hq & Hb'). rewrite Hb in Hb' by lia. destruct (p =? q) eqn:E; b2p; [done |]. split; [by exists q |]. unfold Pmm.PAGE_SIZE. lia.
  - intros [(q & -> & Hq & Hb') Hne]. exists q. split_and!; try done; try lia. rewrite Hb, Hb', (proj2 (Z.eqb_neq p q)) by (lia || by intros ->). done.
Qed.

#[export] Instance pmm_frame_laws : FrameLaws pmm := {|
  fr_ok := pmm_ok;
  fr_held := pmm_held;
  fr_alloc := pmm_alloc_held;
  fr_free := pmm_free_held;
|}.
