(* ===== verification/PageCacheSteps.v ===== *)
(** * The page cache: its small steps keep the invariant

    The updates the operations of the cache are made of: each keeps the
    invariant, and those that are housekeeping keep the bytes of every object. *)

From S2P Require Import Prelude Bytes Vfs PageCache PageCacheInv.

Lemma view_keep {A} (g : vm_object -> A) (m : gmap Z vm_object) o ob ob' : m !! o = Some ob -> g ob' = g ob -> g <$> <[o := ob']> m = g <$> m.
Proof. intros Ho Hg. rewrite fmap_insert, Hg. apply insert_id. by rewrite lookup_fmap, Ho. Qed.

Section Steps.
Context {Fr FS SW PT HP : Type} `{FrameLaws Fr} `{FileLaws FS} `{SlotLaws SW} `{TableLaws PT} `{HeapLaws HP} {FM : Firm}.

Local Abbreviation cache := (@cache Fr FS SW PT HP).
Implicit Types (s : cache) (K : gmap Z face) (R : gmap rid vmo_page) (m : gmap Z (list Z)).

(** The components the bytes depend on are what they were. *)
Lemma same_eq s s' :
  Ix (indexes s) (recs s) -> indexes s' = indexes s -> recs s' = recs s -> faces s' = faces s -> registry s' = registry s ->
  fs s' = fs s -> ram s' = ram s -> sw s' = sw s -> same s s'.
Proof.
  intros HI EB ER EF EG Ef Em Ew. apply same_pages; [done | by rewrite EB, ER | done | done | done | |].
  - intros r p Hp. exists p. rewrite ER. split_and!; [done | done | done |]. unfold bytes_of. by rewrite Em, Ew.
  - intros r. by rewrite ER.
Qed.

(** A step of housekeeping. *)
Definition keeps (x : option rid) (s s' : cache) : Prop := inv_but x s' /\ same s s'.

Lemma kept_refl x s : inv_but x s -> keeps x s s.
Proof. intros Hi. split; [done | apply same_refl]. Qed.

Lemma kept_trans x s1 s2 s3 : keeps x s1 s2 -> (inv_but x s2 -> keeps x s2 s3) -> keeps x s1 s3.
Proof. intros [I1 S1] H12. destruct (H12 I1) as [I2 S2]. split; [done | by apply (same_trans s1 s2)]. Qed.

(** Only the object of a file has operations to call. *)
Lemma op_of_file {X} x s o ob (op : vnode -> option X) f :
  inv_but x s -> objs s !! o = Some ob -> op_of (o_vn ob) op = Some f -> o_anon ob = false /\ op (o_vn ob) = Some f.
Proof.
  intros Hi Ho E. unfold op_of in E. destruct (v_mnt (o_vn ob)) eqn:Em; [| done]. split; [| done]. destruct (o_anon ob) eqn:Ea; [| done].
  assert (Hk : faces s !! o = Some (face_of ob)) by (unfold faces; by rewrite lookup_fmap, Ho).
  destruct (kd_mem _ _ (i_kd _ _ Hi) o _ Hk Ea) as [Hm _]. cbn in Hm. congruence.
Qed.

(** ** Lists *)

Lemma keeps_lrus x s lf la : inv_but x s -> Lr (faces s) (recs s) lf la -> keeps x s (set_lrus s lf la).
Proof. intros [] HL. split; [constructor; assumption | by apply same_eq]. Qed.

Lemma lr_without_file K R lf la r : Lr K R lf la -> Lr K R (without r lf) la.
Proof. intros [A B C D]. split; [| done | by apply NoDup_without | done]. intros y [Hy _]%elem_without. by apply A. Qed.

Lemma lr_without_anon K R lf la r : Lr K R lf la -> Lr K R lf (without r la).
Proof. intros [A B C D]. split; [done | | done | by apply NoDup_without]. intros y [Hy _]%elem_without. by apply B. Qed.

Lemma keeps_unlink x s r : inv_but x s -> keeps x s (lru_unlink s r).
Proof.
  intros Hi. unfold lru_unlink. destruct (on_anon s r); apply keeps_lrus; try done.
  - apply lr_without_anon, Hi.
  - apply lr_without_file, Hi.
Qed.

Lemma on_anon_face s r p k : recs s !! r = Some p -> faces s !! p_owner p = Some k -> on_anon s r = k_anon k.
Proof.
  intros Hp Hk. destruct (faces_lookup s _ _ Hk) as (ob & Ho & ->). unfold on_anon. by rewrite (page_lookup s r p Hp), (obj_lookup s _ ob Ho).
Qed.

Lemma keeps_touch x s r p : inv_but x s -> recs s !! r = Some p -> p_phys p <> 0 -> keeps x s (lru_touch s r).
Proof.
  intros Hi Hp Hph. destruct (owner_face s r p (i_ix _ _ Hi) Hp) as [k Hk]. unfold lru_touch. rewrite (on_anon_face s r p k Hp Hk).
  destruct (i_lr _ _ Hi) as [A B C D].
  assert (Hd : forall l, NoDup l -> NoDup (r :: without r l)).
  { intros l Hl. apply NoDup_cons. split; [rewrite elem_without; tauto | by apply NoDup_without]. }
  destruct (k_anon k) eqn:E; apply keeps_lrus; try done; split; auto.
  - intros y [-> | [Hy _]%elem_without]%elem_of_cons; [exists p, k; done | by apply B].
  - intros y [-> | [Hy _]%elem_without]%elem_of_cons; [exists p, k; done | by apply A].
Qed.

(** ** Records *)

Lemma listed_set a K R r p q y :
  R !! r = Some p -> p_owner q = p_owner p -> p_phys q = p_phys p -> listed a K R y -> listed a K (<[r := q]> R) y.
Proof.
  intros Hr Eo Ep (p' & k & Hp' & Hk & Ha & Hph). destruct (decide (y = r)) as [-> | Hne].
  - exists q, k. rewrite lookup_insert_eq. simplify_eq. rewrite Eo, Ep. done.
  - exists p', k. rewrite lookup_insert_ne by done. done.
Qed.

Lemma pl_set K R f w m r p q :
  Pl K R f w m -> R !! r = Some p -> p_owner q = p_owner p -> p_phys q = p_phys p -> p_slot q = p_slot p -> Pl K (<[r := q]> R) f w m.
Proof.
  intros [F W A B C D] Hr Eo Ep Es.
  assert (Hs : forall y t, <[r := q]> R !! y = Some t -> exists t0, R !! y = Some t0 /\ p_owner t = p_owner t0 /\ p_phys t = p_phys t0 /\ p_slot t = p_slot t0).
  { intros y t Ht. apply lookup_insert_Some in Ht as [[<- <-] | [_ Ht]]; eauto. }
  split; [done | done | | | |].
  - intros y t Ht. destruct (Hs y t Ht) as (t0 & Ht0 & _ & -> & ->). by apply (A y).
  - intros y t Ht. destruct (Hs y t Ht) as (t0 & Ht0 & -> & -> & ->). by apply (B y).
  - intros y y' t t' Ht Ht'. destruct (Hs y t Ht) as (t0 & Ht0 & _ & -> & _), (Hs y' t' Ht') as (t1 & Ht1 & _ & -> & _). by apply (C y y').
  - intros y y' t t' Ht Ht'. destruct (Hs y t Ht) as (t0 & Ht0 & _ & -> & ->), (Hs y' t' Ht') as (t1 & Ht1 & _ & -> & ->). by apply (D y y').
Qed.

Lemma hg_set (T : gmap Z Z) R free (h : HP) r p q : Hg T R free h -> R !! r = Some p -> Hg T (<[r := q]> R) free h.
Proof.
  intros (Ho & Hn & Hf & own & O1 & O2 & O3) Hr. split_and!; [done | done | |].
  - intros y Hy. rewrite lookup_insert_ne; [by apply Hf |]. intros <-. rewrite (Hf r Hy) in Hr. done.
  - exists own. split_and!; [done | | done]. intros y [Hy | Hy]; apply O2; [by left | right].
    destruct (decide (y = r)) as [-> | Hne]; [eauto |]. by rewrite lookup_insert_ne in Hy.
Qed.

Lemma lr_set K R lf la r p q : Lr K R lf la -> R !! r = Some p -> p_owner q = p_owner p -> p_phys q = p_phys p -> Lr K (<[r := q]> R) lf la.
Proof.
  intros [A B C D] Hr Eo Ep. split; [| | done | done]; intros y Hy; apply (listed_set _ K R r p q); auto.
Qed.

Lemma bytes_of_place s s' p q : p_phys q = p_phys p -> p_slot q = p_slot p -> ram s' = ram s -> sw s' = sw s -> bytes_of s' q = bytes_of s p.
Proof. intros E1 E2 E3 E4. unfold bytes_of. by rewrite E1, E2, E3, E4. Qed.

Lemma share_eq o p q : p_owner q = p_owner p -> p_phys q = p_phys p -> p_dirty q = p_dirty p -> share o q = share o p.
Proof. intros E1 E2 E3. unfold share, resident_of, dirty_of, out_of. by rewrite E1, E2, E3. Qed.

(** Only the pin count changes. *)
Lemma keeps_wired x s r n : inv_but x s -> is_Some (recs s !! r) -> 0 <= n -> keeps x s (upd_page s r (fun p => with_wired p n)).
Proof.
  intros Hi [p Hp] Hn. unfold upd_page. rewrite (page_lookup s r p Hp). set (q := with_wired p n).
  assert (HI : Ix (indexes s) (<[r := q]> (recs s))) by (by apply (ix_update _ _ r p); [apply Hi | | | |]).
  split.
  - destruct Hi as [A B C D [E1 E2 E3] F G]. split; cbn; [done | | done | | | |].
    + by apply (ct_keep _ _ r p).
    + by apply (pl_set _ _ _ _ _ r p).
    + split; [| | done]; intros y t k j Ht; apply lookup_insert_Some in Ht as [[<- <-] | [_ Ht]].
      * by apply (E1 r p).
      * by apply (E1 y).
      * by apply (E2 r p).
      * by apply (E2 y).
    + by apply (lr_set _ _ _ _ r p).
    + by apply (hg_set _ _ _ _ r p).
  - apply same_pages; try done; [apply Hi | |].
    + intros y t Ht. cbn. destruct (decide (y = r)) as [-> | Hne].
      * exists q. rewrite lookup_insert_eq. simplify_eq. done.
      * exists t. rewrite lookup_insert_ne by done. done.
    + intros y. cbn. destruct (decide (y = r)) as [-> | Hne]; [eauto | by rewrite lookup_insert_ne].
Qed.

Lemma keeps_pt x s t : inv_but x s -> keeps x s (set_pt s t).
Proof. intros []. split; [constructor; assumption | by apply same_eq]. Qed.

(** ** Frames *)

(** Ours, and no page's. *)
Definition spare s (phys : Z) : Prop := phys ∈ fr_held (fr s) /\ 0 < phys /\ forall r p, recs s !! r = Some p -> p_phys p <> phys.

Lemma keeps_alloc x s phys s' : inv_but x s -> alloc_frame s = (phys, s') -> keeps x s s' /\ recs s' = recs s /\ (phys <> 0 -> spare s' phys).
Proof.
  intros Hi He. unfold alloc_frame in He. destruct (pmm_alloc_page (fr s)) as [y f] eqn:E. injection He as -> <-.
  destruct (fr_alloc _ _ _ (pl_fr _ _ _ _ _ (i_pl _ _ Hi)) E) as [Hf Hc].
  assert (Hle : forall a, a ∈ fr_held (fr s) -> a ∈ fr_held f) by (destruct Hc as [(_ & ->) | (_ & _ & ->)]; set_solver).
  split; [| split; [done |]].
  - destruct Hi as [A B C [D1 D2 D3 D4 D5 D6] E' F G]. split; [| by apply same_eq]. split; try done. split; try done.
    intros r p Hp Hph. cbn. destruct (D3 r p Hp Hph) as (? & ? & ?). split_and!; [by apply Hle | done | done].
  - intros Hne. destruct Hc as [(? & _) | (Hpos & Hnew & Hh)]; [done |]. split_and!; [cbn; rewrite Hh; by apply elem_of_union_l, elem_of_singleton | done |].
    intros r p Hp E2. apply Hnew. rewrite <- E2. apply (pl_in _ _ _ _ _ (i_pl _ _ Hi) r p Hp). lia.
Qed.

Lemma keeps_free_frame x s phys : inv_but x s -> spare s phys -> keeps x s (free_frame phys s).
Proof.
  intros [A B C [D1 D2 D3 D4 D5 D6] E' F G] (Hin & _ & Hno). destruct (fr_free _ _ D1 Hin) as [Hf Hh].
  split; [| by apply same_eq]. split; try done. split; try done.
  intros r p Hp Hph. cbn. destruct (D3 r p Hp Hph) as (? & ? & ?). rewrite Hh. split_and!; [| done | done].
  apply elem_of_difference. split; [done |]. rewrite elem_of_singleton. by apply (Hno r).
Qed.

Lemma keeps_put_spare x s phys l : inv_but x s -> spare s phys -> keeps x s (put_frame s phys l).
Proof.
  intros [A B C [D1 D2 D3 D4 D5 D6] [E1 E2 E3] F G] (Hin & Hz & Hno).
  assert (Hb : forall r p, recs s !! r = Some p -> fbytes (<[phys := l]> (ram s)) (p_phys p) = fbytes (ram s) (p_phys p)).
  { intros r p Hp. apply fbytes_insert_ne. apply not_eq_sym. by apply (Hno r). }
  split.
  - split; try done; split; try done; cbn.
    + intros r p Hp Hph. rewrite (Hb r p Hp). by apply (D3 r).
    + intros r p k j Hp. rewrite (Hb r p Hp). by apply (E1 r).
    + intros r p k j Hp. rewrite (Hb r p Hp). by apply (E2 r).
  - apply same_pages; try done. intros r p Hp. exists p. split_and!; try done. unfold bytes_of. cbn. by rewrite (Hb r p Hp).
Qed.

(** ** A page goes *)

(** [page_destroy] of a page that is on no list any more. *)
Definition destroy_linked s (o : Z) (r : rid) : cache :=
  let p := page s r in
  let s := page_unlink s o r in
  let ob := obj s o in
  let dirty := if p_dirty p then dec (o_dirty_pages ob) else o_dirty_pages ob in
  let s :=
    if negb (p_phys p =? 0) then
      set_fr (put_obj s o (with_counts ob (o_resident ob - 1) dirty (o_swapped ob))) (pmm_free_page (p_phys p) (fr s))
    else if negb (p_slot p =? 0) then
      set_sw (put_obj s o (with_counts ob (o_resident ob) dirty (dec (o_swapped ob)))) (swap_free (p_slot p) (sw s))
    else put_obj s o (with_counts ob (o_resident ob) dirty (o_swapped ob)) in
  record_free s r.

Lemma page_destroy_unfold s o r : page_destroy s o r = destroy_linked (lru_unlink s r) o r.
Proof. unfold page_destroy, destroy_linked, lru_unlink. by destruct (on_anon s r). Qed.

Lemma cl_sub x K R R' (f : FS) m : Cl x K R f m -> (forall r p, R' !! r = Some p -> R !! r = Some p) -> Cl x K R' f m.
Proof. intros [A B C] Hs. split; [| | done]; intros r p k j Hp; [apply (A r p k j) | apply (B r p k j)]; auto. Qed.

Lemma lr_delete K R lf la r : Lr K R lf la -> r ∉ lf -> r ∉ la -> Lr K (delete r R) lf la.
Proof.
  intros [A B C D] Hf Ha. split; [| | done | done]; intros y Hy.
  - destruct (A y Hy) as (p & k & ?). exists p, k. rewrite lookup_delete_ne; [done |]. by intros <-.
  - destruct (B y Hy) as (p & k & ?). exists p, k. rewrite lookup_delete_ne; [done |]. by intros <-.
Qed.

Lemma hg_free_rec (T : gmap Z Z) R free (h : HP) r : Hg T R free h -> is_Some (R !! r) -> Hg T (delete r R) (r :: free) h.
Proof.
  intros (Ho & Hn & Hf & own & O1 & O2 & O3) Hr. split_and!; [done | | |].
  - apply NoDup_cons. split; [| done]. intros Hin. rewrite (Hf r Hin) in Hr. by destruct Hr.
  - intros y [-> | Hy]%elem_of_cons; [apply lookup_delete_eq |]. apply lookup_delete_None. right. by apply Hf.
  - exists own. split_and!; [done | | done]. intros y [[-> | Hy]%elem_of_cons | Hy]; apply O2; [by right | by left | right].
    destruct Hy as [p Hp]. apply lookup_delete_Some in Hp as [_ ?]. eauto.
Qed.

Lemma pl_delete_in K R (f : Fr) (w : SW) m r p : Pl K R f w m -> R !! r = Some p -> p_phys p <> 0 -> Pl K (delete r R) (pmm_free_page (p_phys p) f) w m.
Proof.
  intros [F W A B C D] Hr Hph. destruct (A r p Hr Hph) as (Hin & _). destruct (fr_free _ _ F Hin) as [Hf Hh]. split; [done | done | | | |].
  - intros y q [Hy Hq]%lookup_delete_Some Hqp. destruct (A y q Hq Hqp) as (? & ? & ?). rewrite Hh. split_and!; [| done | done].
    apply elem_of_difference. split; [done |]. rewrite elem_of_singleton. intros E. apply Hy. by apply (C r y p q).
  - intros y q [_ Hq]%lookup_delete_Some. by apply (B y).
  - intros y y' q q' [_ Hq]%lookup_delete_Some [_ Hq']%lookup_delete_Some. by apply (C y y').
  - intros y y' q q' [_ Hq]%lookup_delete_Some [_ Hq']%lookup_delete_Some. by apply (D y y').
Qed.

Lemma pl_slot K R (f : Fr) (w : SW) m r p : Pl K R f w m -> R !! r = Some p -> p_phys p = 0 -> is_Some (sw_data w !! p_slot p).
Proof. intros HQ Hr Hph. destruct (pl_out _ _ _ _ _ HQ r p Hr Hph) as (_ & _ & l & Hl & _). by exists l. Qed.

Lemma pl_delete_out K R (f : Fr) (w : SW) m r p : Pl K R f w m -> R !! r = Some p -> p_phys p = 0 -> Pl K (delete r R) f (swap_free (p_slot p) w) m.
Proof.
  intros HQ Hr Hph. pose proof (pl_slot _ _ _ _ _ r p HQ Hr Hph) as Hheld. destruct HQ as [F W A B C D]. destruct (sw_free (p_slot p) w W Hheld) as [Hw Hd]. split; [done | done | | | |].
  - intros y q [_ Hq]%lookup_delete_Some. by apply (A y).
  - intros y q [Hy Hq]%lookup_delete_Some Hqp. destruct (B y q Hq Hqp) as (? & ? & l & Hl & ?). split_and!; [done | done |].
    exists l. rewrite Hd, lookup_delete_ne; [done |]. intros E. apply Hy. by apply (D r y p q).
  - intros y y' q q' [_ Hq]%lookup_delete_Some [_ Hq']%lookup_delete_Some. by apply (C y y').
  - intros y y' q q' [_ Hq]%lookup_delete_Some [_ Hq']%lookup_delete_Some. by apply (D y y').
Qed.

Lemma obj_put s o ob : obj (put_obj s o ob) o = ob.
Proof. unfold obj, put_obj. cbn. by rewrite lookup_insert_eq. Qed.

(** What is left of an object when a page of it is gone. *)
Definition less (ob : vm_object) (r : rid) (p : vmo_page) : vm_object :=
  let b := o_buckets ob in
  let i := bucket_of b (p_index p) in
  with_counts (with_buckets ob (chain_put b i (without r (chain b i))))
    (o_resident ob - Z.b2z (negb (p_phys p =? 0))) (o_dirty_pages ob - Z.b2z (p_dirty p)) (o_swapped ob - Z.b2z (p_phys p =? 0)).

Lemma dec_pos n : 0 < n -> dec n = n - 1.
Proof. intros Hn. unfold dec. case_if; lia. Qed.

Lemma object_counts x s o ob : inv_but x s -> objs s !! o = Some ob ->
  o_resident ob = cnt (resident_of o) (recs s) /\ o_dirty_pages ob = cnt (dirty_of o) (recs s) /\ o_swapped ob = cnt (out_of o) (recs s).
Proof.
  intros Hi Ho. assert (Hc : counts s !! o = Some (counts_of ob)) by (unfold counts; by rewrite lookup_fmap, Ho).
  pose proof (i_ct _ _ Hi _ _ Hc) as E. unfold counts_of, counted in E. by simplify_eq.
Qed.

Lemma destroy_linked_eq x s r p ob :
  inv_but x s -> recs s !! r = Some p -> objs s !! p_owner p = Some ob ->
  destroy_linked s (p_owner p) r =
    let s' := if p_phys p =? 0 then set_sw s (swap_free (p_slot p) (sw s)) else set_fr s (pmm_free_page (p_phys p) (fr s)) in
    record_free (put_obj s' (p_owner p) (less ob r p)) r.
Proof.
  intros Hi Hp Ho. unfold destroy_linked, page_unlink, upd_obj. rewrite (page_lookup s r p Hp), (obj_lookup s _ ob Ho), obj_put. cbn [with_buckets o_dirty_pages o_resident o_swapped].
  destruct (object_counts x s _ ob Hi Ho) as (_ & Ed & Es). destruct (counted_has (p_owner p) (recs s) r p Hp eq_refl) as (_ & Hd & Hs).
  assert (Ed' : (if p_dirty p then dec (o_dirty_pages ob) else o_dirty_pages ob) = o_dirty_pages ob - Z.b2z (p_dirty p)).
  { destruct (p_dirty p); cbn; [| lia]. apply dec_pos. rewrite Ed. by apply Hd. }
  rewrite Ed'. unfold put_obj, less. cbn. destruct (p_phys p =? 0) eqn:E; cbn.
  - apply Z.eqb_eq in E. destruct (pl_out _ _ _ _ _ (i_pl _ _ Hi) r p Hp E) as (Hsl & _). apply Z.eqb_neq in Hsl. rewrite Hsl. cbn.
    rewrite dec_pos by (rewrite Es; by apply Hs). by rewrite insert_insert_eq, Z.sub_0_r.
  - by rewrite insert_insert_eq, Z.sub_0_r.
Qed.

Lemma less_counts ob r p : counts_of (less ob r p) = sub3 (counts_of ob) (share (p_owner p) p).
Proof. unfold less, counts_of, share, resident_of, dirty_of, out_of. cbn. by rewrite Z.eqb_refl. Qed.

Lemma destroy_linked_inv x s r p :
  inv_but x s -> recs s !! r = Some p -> r ∉ lru_file s -> r ∉ lru_anon s -> inv_but x (destroy_linked s (p_owner p) r).
Proof.
  intros Hi Hp Hlf Hla. destruct (owner_object s r p (i_ix _ _ Hi) Hp) as [ob Ho]. rewrite (destroy_linked_eq x s r p ob Hi Hp Ho).
  set (s1 := if p_phys p =? 0 then _ else _).
  assert (Hpl : Pl (faces s) (delete r (recs s)) (fr s1) (sw s1) (ram s)).
  { unfold s1. destruct (p_phys p =? 0) eqn:E; b2p.
    - by apply pl_delete_out; [apply Hi | |].
    - by apply (pl_delete_in _ _ _ _ _ r p); [apply Hi | |]. }
  assert (HF : faces (put_obj s1 (p_owner p) (less ob r p)) = faces s).
  { transitivity (face_of <$> <[p_owner p := less ob r p]> (objs s)); [unfold s1; by destruct (p_phys p =? 0) |]. by apply (view_keep _ _ _ ob). }
  assert (HT : tables (put_obj s1 (p_owner p) (less ob r p)) = tables s).
  { transitivity (o_table <$> <[p_owner p := less ob r p]> (objs s)); [unfold s1; by destruct (p_phys p =? 0) |]. by apply (view_keep _ _ _ ob). }
  assert (HB : indexes (put_obj s1 (p_owner p) (less ob r p)) = <[p_owner p := o_buckets (less ob r p)]> (indexes s)).
  { unfold indexes. rewrite <- fmap_insert. unfold s1. by destruct (p_phys p =? 0). }
  assert (HC : counts (put_obj s1 (p_owner p) (less ob r p)) = <[p_owner p := counts_of (less ob r p)]> (counts s)).
  { unfold counts. rewrite <- fmap_insert. unfold s1. by destruct (p_phys p =? 0). }
  assert (Es : recs s1 = recs s /\ registry s1 = registry s /\ ram s1 = ram s /\ fs s1 = fs s /\ lru_file s1 = lru_file s /\ lru_anon s1 = lru_anon s
               /\ rec_free s1 = rec_free s /\ hp s1 = hp s) by (unfold s1; by destruct (p_phys p =? 0)).
  destruct Es as (E1 & E2 & E3 & E4 & E5 & E6 & E7 & E8).
  split; unfold record_free; cbn [recs registry fr sw ram fs lru_file lru_anon rec_free hp put_obj set_objs set_recs set_rec_free]; rewrite ?E1, ?E2, ?E3, ?E4, ?E5, ?E6, ?E7, ?E8.
  - change (indexes _) with (indexes (put_obj s1 (p_owner p) (less ob r p))). rewrite HB. apply ix_remove; [apply Hi | | done | done].
    unfold indexes. by rewrite lookup_fmap, Ho.
  - change (counts _) with (counts (put_obj s1 (p_owner p) (less ob r p))). rewrite HC, less_counts. apply ct_del; [apply Hi | | done | done].
    unfold counts. by rewrite lookup_fmap, Ho.
  - change (faces _) with (faces (put_obj s1 (p_owner p) (less ob r p))). rewrite HF. apply Hi.
  - change (faces _) with (faces (put_obj s1 (p_owner p) (less ob r p))). by rewrite HF.
  - change (faces _) with (faces (put_obj s1 (p_owner p) (less ob r p))). rewrite HF. apply (cl_sub _ _ (recs s)); [apply Hi |].
    intros y q [_ Hq]%lookup_delete_Some. done.
  - change (faces _) with (faces (put_obj s1 (p_owner p) (less ob r p))). rewrite HF. by apply lr_delete; [apply Hi | |].
  - change (tables _) with (tables (put_obj s1 (p_owner p) (less ob r p))). rewrite HT. by apply hg_free_rec; [apply Hi | eauto].
Qed.

Lemma unlink_gone x s r p : inv_but x s -> recs s !! r = Some p -> (r ∉ lru_file (lru_unlink s r)) /\ (r ∉ lru_anon (lru_unlink s r)).
Proof.
  intros Hi Hp. destruct (owner_face s r p (i_ix _ _ Hi) Hp) as [k Hk]. unfold lru_unlink. rewrite (on_anon_face s r p k Hp Hk).
  destruct (k_anon k) eqn:E; cbn; rewrite elem_without.
  - split; [| tauto]. intros Hin. destruct (lr_file _ _ _ _ (i_lr _ _ Hi) r Hin) as (p' & k' & ? & ? & ? & _). simplify_eq. congruence.
  - split; [tauto |]. intros Hin. destruct (lr_anon _ _ _ _ (i_lr _ _ Hi) r Hin) as (p' & k' & ? & ? & ? & _). simplify_eq. congruence.
Qed.

Lemma unlink_rest s r :
  let s' := lru_unlink s r in
  objs s' = objs s /\ recs s' = recs s /\ registry s' = registry s /\ ram s' = ram s /\ fs s' = fs s /\ sw s' = sw s /\ pt s' = pt s /\ fr s' = fr s
  /\ lru_file s' = (if on_anon s r then lru_file s else without r (lru_file s))
  /\ lru_anon s' = (if on_anon s r then without r (lru_anon s) else lru_anon s).
Proof. unfold lru_unlink. by destruct (on_anon s r). Qed.

Lemma page_destroy_inv x s r p : inv_but x s -> recs s !! r = Some p -> inv_but x (page_destroy s (p_owner p) r).
Proof.
  intros Hi Hp. rewrite page_destroy_unfold. destruct (unlink_gone x s r p Hi Hp). destruct (keeps_unlink x s r Hi) as [Hi' _].
  apply destroy_linked_inv; [done | | done | done]. destruct (unlink_rest s r) as (_ & -> & _). done.
Qed.

Lemma page_destroy_rest x s r p :
  inv_but x s -> recs s !! r = Some p ->
  let s' := page_destroy s (p_owner p) r in
  recs s' = delete r (recs s) /\ faces s' = faces s /\ registry s' = registry s /\ ram s' = ram s /\ fs s' = fs s /\ pt s' = pt s
  /\ (p_phys p <> 0 -> sw s' = sw s /\ fr s' = pmm_free_page (p_phys p) (fr s))
  /\ lru_file s' = lru_file (lru_unlink s r) /\ lru_anon s' = lru_anon (lru_unlink s r).
Proof.
  intros Hi Hp. destruct (owner_object s r p (i_ix _ _ Hi) Hp) as [ob Ho]. cbv zeta. rewrite page_destroy_unfold.
  destruct (keeps_unlink x s r Hi) as [Hi' _]. destruct (unlink_rest s r) as (E1 & E2 & E3 & E4 & E5 & E6 & E7 & E8 & E9 & E10).
  rewrite (destroy_linked_eq x _ r p ob Hi') by congruence. cbv zeta.
  assert (Hv : face_of <$> <[p_owner p := less ob r p]> (objs (lru_unlink s r)) = faces s) by (rewrite E1; by apply (view_keep _ _ _ ob)).
  destruct (p_phys p =? 0) eqn:E; b2p; unfold record_free, faces; cbn; rewrite E2, E3, E4, E5, E6, E7, ?E8; split_and!; try done.
Qed.

(** The page is of a file and mapped somewhere. *)
Definition pinned s (r : rid) (p : vmo_page) : Prop :=
  recs s !! r = Some p /\ p_wired p <> 0 /\ exists k, faces s !! p_owner p = Some k /\ k_anon k = false.

(** Reclaim leaves alone what is out on the store and what is pinned, makes no
    new page, and does not lengthen the list of anonymous pages. *)
Record calm s s' : Prop := {
  cm_faces : faces s' = faces s;
  cm_pinned r p : pinned s r p -> exists p', recs s' !! r = Some p' /\ p_owner p' = p_owner p /\ p_phys p' = p_phys p /\ p_wired p' = p_wired p;
  cm_out r p : recs s !! r = Some p -> p_phys p = 0 -> recs s' !! r = Some p;
  cm_sub r p' : recs s' !! r = Some p' -> exists p, recs s !! r = Some p /\ p_owner p' = p_owner p /\ p_index p' = p_index p;
  cm_anon : (length (lru_anon s') <= length (lru_anon s))%nat;
  cm_pending : (tb_pending (pt s') <= tb_pending (pt s))%nat;
}.

Lemma calm_refl s : calm s s.
Proof. split; eauto. intros r p (Hp & _). eauto. Qed.

Lemma calm_trans s1 s2 s3 : calm s1 s2 -> calm s2 s3 -> calm s1 s3.
Proof.
  intros [F G A B C D] [F' G' A' B' C' D']. split; [congruence | | auto | | lia | lia].
  - intros r p Hp. destruct (G r p Hp) as (q & Hq & Eo & Ep & Ew). destruct Hp as (_ & Hw & k & Hk & Ha).
    destruct (G' r q) as (t & Ht & Eo' & Ep' & Ew'); [split_and!; [done | congruence | exists k; by rewrite F, Eo] |]. exists t. split_and!; congruence.
  - intros r p' Hp'. destruct (B' r p' Hp') as (q & Hq & -> & ->). by apply B.
Qed.

Lemma calm_eq s s' : faces s' = faces s -> recs s' = recs s -> lru_anon s' = lru_anon s -> pt s' = pt s -> calm s s'.
Proof. intros E0 E1 E2 E3. split; rewrite ?E1, ?E2, ?E3; eauto. intros r p (Hp & _). eauto. Qed.

Definition tidies (x : option rid) s s' : Prop := keeps x s s' /\ calm s s'.

Lemma tidies_refl x s : inv_but x s -> tidies x s s.
Proof. intros Hi. split; [by apply kept_refl | apply calm_refl]. Qed.

Lemma tidies_trans x s1 s2 s3 : tidies x s1 s2 -> (inv_but x s2 -> tidies x s2 s3) -> tidies x s1 s3.
Proof.
  intros [[I1 S1] C1] Hn. destruct (Hn I1) as [[I2 S2] C2]. split; [split; [done | by apply (same_trans s1 s2)] | by apply (calm_trans s1 s2)].
Qed.

Lemma length_without r l : (length (without r l) <= length l)%nat.
Proof. apply length_filter. Qed.

(** Dropping a clean file page: its bytes are on the device. *)
Lemma tidies_destroy x s r p k :
  inv_but x s -> recs s !! r = Some p -> faces s !! p_owner p = Some k -> k_anon k = false -> p_dirty p = false -> p_wired p = 0 -> x <> Some r ->
  tidies x s (page_destroy s (p_owner p) r).
Proof.
  intros Hi Hp Hk Ha Hd Hw Hx. pose proof (page_destroy_inv x s r p Hi Hp) as Hi'.
  destruct (page_destroy_rest x s r p Hi Hp) as (E1 & E2 & E3 & E4 & E5 & E6 & E7 & E8 & E9). set (s' := page_destroy s (p_owner p) r) in *.
  assert (Hph : p_phys p <> 0). { intros E. destruct (pl_out _ _ _ _ _ (i_pl _ _ Hi) r p Hp E) as (_ & (k' & Hk' & Ha') & _). simplify_eq. congruence. }
  destruct (E7 Hph) as [E7' _]. assert (Hbytes : forall q, bytes_of s' q = bytes_of s q) by (intros q; unfold bytes_of; by rewrite E4, E7').
  split; [split; [done |] |].
  - apply same_intro; [apply Hi | apply Hi' | done | done | | | | by intros vn pos _ _; rewrite E5].
    + intros y q Hq. destruct (decide (y = r)) as [-> | Hne]; [right | left].
      * assert (q = p) as -> by congruence. destruct (faces_lookup s _ _ Hk) as (ob & Ho & ->). split.
        { apply (page_find_none s' (p_owner p) (p_index p) (i_ix _ _ Hi')); [apply (faces_is_Some s s' _ E2); eauto |].
          intros y t Ht Eo Ei. rewrite E1 in Ht. apply lookup_delete_Some in Ht as [Hne Ht]. apply Hne. symmetry. by apply (ix_uniq _ _ (i_ix _ _ Hi) y r t p). }
        intros j Hj Hst. rewrite (backing_faces s s' _ _ E2 E5). unfold backing. rewrite (obj_lookup s _ ob Ho).
        destruct (kd_file _ _ (i_kd _ _ Hi) _ _ Hk Ha) as [rdf Hrd]. cbn in Hrd. rewrite Hrd.
        unfold bytes_of. apply Z.eqb_neq in Hph. rewrite Hph. apply (cl_clean _ _ _ _ _ (i_cl _ _ Hi) r p (face_of ob)); try done. by apply Hst.
      * exists y, q. rewrite E1, lookup_delete_ne by done. done.
    + intros y q Hq. left. rewrite E1 in Hq. apply lookup_delete_Some in Hq as [_ Hq]. eauto.
    + intros o pos _ _ _ _. by apply backing_faces.
  - split; [done | | | | |].
    + intros y q (Hq & Hqw & _). exists q. rewrite E1, lookup_delete_ne; [done |]. intros <-. congruence.
    + intros y q Hq Hqp. rewrite E1, lookup_delete_ne; [done |]. intros <-. congruence.
    + intros y q Hq. rewrite E1 in Hq. apply lookup_delete_Some in Hq as [_ Hq]. eauto.
    + rewrite E9. destruct (unlink_rest s r) as (_ & _ & _ & _ & _ & _ & _ & _ & _ & ->). case_match; [apply length_without | done].
    + by rewrite E6.
Qed.

(** ** Writing back *)

(** A dirty page of the object has the byte. *)
Definition covered s (o size pos : Z) : Prop :=
  pos < size /\ exists r p, recs s !! r = Some p /\ p_owner p = o /\ p_index p = pos / PAGE_SIZE /\ p_dirty p = true.

Lemma page_pos i j : 0 <= j < PAGE_SIZE -> (i * PAGE_SIZE + j) / PAGE_SIZE = i /\ (i * PAGE_SIZE + j) mod PAGE_SIZE = j.
Proof.
  intros Hj. rewrite Z.add_comm, Z.div_add, Z.mod_add by done. rewrite Z.div_small, Z.mod_small by done. done.
Qed.

(** The device changes only where dirty pages cover it. *)
Lemma tidies_device s o k f :
  inv s -> faces s !! o = Some k -> k_anon k = false ->
  (forall vn pos, 0 <= pos -> (same_file (k_vn k) vn = true -> ~ covered s o (k_size k) pos) -> file_byte vn pos f = file_byte vn pos (fs s)) ->
  tidies None s (set_fs s f).
Proof.
  intros Hi Hk Ha Hf.
  assert (Hone : forall o' k', faces s !! o' = Some k' -> k_anon k' = false -> same_file (k_vn k) (k_vn k') = true -> o' = o /\ k' = k).
  { intros o' k' Hk' Ha' Hs. pose proof (kd_one _ _ (i_kd _ _ Hi) o o' k k' Hk Hk' Ha Ha' Hs) as <-. split; congruence. }
  split; [split |].
  - destruct Hi as [A B C D [E1 E2 E3] F G]. split; try done. split; cbn.
    + intros r p k' j Hp Hk' Ha' Hd Hx Hj Hfm. rewrite Hf; [by apply (E1 r) | pose proof (ix_index _ _ A r p Hp); unfold PAGE_SIZE in *; lia |].
      intros Hs. destruct (Hone _ _ Hk' Ha' Hs) as [Eo ->]. intros (_ & r' & p' & Hp' & Eo' & Ei' & Hd').
      rewrite (proj1 (page_pos (p_index p) j Hj)) in Ei'. assert (r' = r) as -> by (apply (ix_uniq _ _ A r' r p' p); congruence). congruence.
    + done.
    + intros o' k' pos Hk' Ha' Hpos. rewrite Hf; [by apply (E3 o') | pose proof (kd_size _ _ C o' k' Hk'); lia |].
      intros Hs. destruct (Hone _ _ Hk' Ha' Hs) as [-> ->]. intros (? & _). lia.
  - apply same_intro; try done; [apply Hi | apply Hi | intros r p Hp; left; eauto 6 | intros r p Hp; left; eauto 6 | |].
    2: { intros vn pos Hpos Hu. apply Hf; [done |]. intros Hs. by rewrite (Hu o k Hk Ha) in Hs. }
    intros o' pos [ob' Ho'] Hpos Hn _. unfold backing, obj in *. cbn. rewrite Ho'. cbn. destruct (op_of (o_vn ob') file_read) eqn:Er; [| done].
    apply Hf; [done |]. intros Hs. assert (Hk' : faces s !! o' = Some (face_of ob')) by (unfold faces; by rewrite lookup_fmap, Ho').
    destruct (op_of_file None s o' ob' file_read _ Hi Ho' Er) as [Ha' _].
    destruct (Hone _ _ Hk' Ha' Hs) as [-> _]. intros (_ & r & p & Hp & Eo & Ei & _).
    apply (page_find_none s o (pos / PAGE_SIZE) (i_ix _ _ Hi) ltac:(eauto)) with (r := r) (p := p) in Hn; done.
  - by apply calm_eq.
Qed.

(** A record is replaced by one of the same name, and its object's counts follow. *)
Record replaced s s' (r : rid) (p q : vmo_page) : Prop := {
  rp_was : recs s !! r = Some p;
  rp_owner : p_owner q = p_owner p;
  rp_index : p_index q = p_index p;
  rp_wired : p_wired q = p_wired p;
  rp_recs : recs s' = <[r := q]> (recs s);
  rp_objs ob : objs s !! p_owner p = Some ob ->
    exists ob', objs s' = <[p_owner p := ob']> (objs s) /\ face_of ob' = face_of ob /\ o_table ob' = o_table ob /\ o_buckets ob' = o_buckets ob
      /\ counts_of ob' = add3 (sub3 (counts_of ob) (share (p_owner p) p)) (share (p_owner p) q);
  rp_rest : registry s' = registry s /\ rec_free s' = rec_free s /\ hp s' = hp s;
}.

Lemma replaced_views x s s' r p q : inv_but x s -> replaced s s' r p q ->
  faces s' = faces s /\ indexes s' = indexes s /\ Ix (indexes s') (recs s').
Proof.
  intros Hi [Hp Eo Ei Ew ER EO _]. destruct (owner_object s r p (i_ix _ _ Hi) Hp) as [ob Ho]. destruct (EO ob Ho) as (ob' & E & Hf & _ & Hb & _).
  assert (HB : indexes s' = indexes s) by (unfold indexes; rewrite E; by apply (view_keep _ _ _ ob)).
  split_and!; [unfold faces; rewrite E; by apply (view_keep _ _ _ ob) | done |]. rewrite HB, ER. by apply (ix_update _ _ r p); [apply Hi | | | | rewrite Ew; apply (ix_wired _ _ (i_ix _ _ Hi) r)].
Qed.

Lemma replaced_inv x y s s' r p q : inv_but x s -> replaced s s' r p q ->
  Pl (faces s) (recs s') (fr s') (sw s') (ram s') -> Cl y (faces s) (recs s') (fs s') (ram s') -> Lr (faces s) (recs s') (lru_file s') (lru_anon s') ->
  inv_but y s'.
Proof.
  intros Hi Hr HPl HCl HLr. destruct (replaced_views x s s' r p q Hi Hr) as (HF & HB & HI). destruct Hr as [Hp Eo Ei Ew ER EO (E1 & E2 & E3)].
  destruct (owner_object s r p (i_ix _ _ Hi) Hp) as [ob Ho]. destruct (EO ob Ho) as (ob' & E & Hf & Ht & _ & Hc). split; rewrite ?HF, ?E1, ?E2, ?E3; try done.
  - unfold counts. rewrite E, fmap_insert, Hc, ER. apply ct_set; [apply Hi | | done | done | done]. unfold counts. by rewrite lookup_fmap, Ho.
  - apply Hi.
  - unfold tables. rewrite E, (view_keep _ _ _ ob), ER by done. apply (hg_set _ _ _ _ r p); [apply Hi | done].
Qed.

Lemma replaced_same x s s' r p q : inv_but x s -> replaced s s' r p q -> fs s' = fs s -> bytes_of s' q = bytes_of s p ->
  (forall y t, recs s !! y = Some t -> y <> r -> bytes_of s' t = bytes_of s t) -> same s s'.
Proof.
  intros Hi Hr Ef Hb Ho. destruct (replaced_views x s s' r p q Hi Hr) as (HF & HB & HI). destruct Hr as [Hp Eo Ei Ew ER _ (E1 & _)].
  apply same_pages; [apply Hi | done | done | done | done | |].
  - intros y t Ht. rewrite ER. destruct (decide (y = r)) as [-> | Hne].
    + exists q. rewrite lookup_insert_eq. assert (t = p) as -> by congruence. done.
    + exists t. rewrite lookup_insert_ne by done. eauto.
  - intros y. rewrite ER. destruct (decide (y = r)) as [-> | Hne]; [eauto | by rewrite lookup_insert_ne].
Qed.

Lemma replaced_calm s s' r p q : inv s -> replaced s s' r p q -> p_phys p <> 0 ->
  (p_phys q = p_phys p /\ p_wired q = p_wired p \/ exists k, faces s !! p_owner p = Some k /\ k_anon k = true) ->
  (length (lru_anon s') <= length (lru_anon s))%nat -> pt s' = pt s -> calm s s'.
Proof.
  intros Hi Hr Hph Hpin Hl Ept. destruct (replaced_views None s s' r p q Hi Hr) as (HF & _ & _). destruct Hr as [Hp Eo Ei Ew ER _ _].
  split; [done | | | | done | by rewrite Ept].
  - intros y t (Ht & Hw & k & Hk & Ha). rewrite ER. destruct (decide (y = r)) as [-> | Hne]; [| exists t; by rewrite lookup_insert_ne].
    exists q. rewrite lookup_insert_eq. simplify_eq. destruct Hpin as [[? ?] | (k' & Hk' & Ha')]; [done | congruence].
  - intros y t Ht Hy. rewrite ER, lookup_insert_ne; [done |]. intros <-. congruence.
  - intros y t Ht. rewrite ER in Ht. apply lookup_insert_Some in Ht as [[<- <-] | [_ Ht]]; eauto.
Qed.

(** A page whose bytes are on the device becomes clean. *)
Lemma tidies_mark_clean s r p k :
  inv s -> recs s !! r = Some p -> faces s !! p_owner p = Some k -> k_anon k = false -> p_phys p <> 0 ->
  (forall j, 0 <= j < PAGE_SIZE -> firm (k_vn k) (p_index p * PAGE_SIZE + j) = true -> rd (fbytes (ram s) (p_phys p)) j = file_byte (k_vn k) (p_index p * PAGE_SIZE + j) (fs s)) ->
  let s' := mark_clean s (p_owner p) r in
  tidies None s s' /\ recs s' = <[r := with_dirty p false]> (recs s) /\ fs s' = fs s /\ ram s' = ram s.
Proof.
  intros Hi Hp Hk Ha Hph Hj. cbv zeta. unfold mark_clean. rewrite (page_lookup s r p Hp). destruct (p_dirty p) eqn:Ed.
  2: { split_and!; [by apply tidies_refl | | done | done]. rewrite insert_id; [done |]. rewrite Hp. destruct p. cbn in *. by subst. }
  set (q := with_dirty p false). unfold upd_page. rewrite (page_lookup s r p Hp). fold q. set (s' := upd_obj _ _ _).
  assert (Hrep : replaced s s' r p q).
  { split; try done. intros ob Ho. unfold s', upd_obj. rewrite (obj_lookup (set_writebacks (put_page s r q) (writebacks s + 1)) _ ob Ho). eexists. split_and!; [reflexivity | done | done | done |].
    destruct (object_counts None s _ ob Hi Ho) as (_ & Edp & _).
    assert (Hpos : 0 < o_dirty_pages ob) by (rewrite Edp; by apply (counted_has (p_owner p) (recs s) r p Hp)).
    unfold counts_of, share, resident_of, dirty_of, out_of. cbn. rewrite Z.eqb_refl, Ed, dec_pos by done. cbn. f_equal; [f_equal |]; lia. }
  split_and!; [| done | done | done]. destruct (i_cl _ _ Hi) as [E1 E2 E3]. split; [split |].
  - apply (replaced_inv None None s s' r p q); [done | done | | |].
    + by apply (pl_set _ _ _ _ _ r p); [apply Hi | | | |].
    + change (recs s') with (<[r := q]> (recs s)). split; [| | done]; intros y t k' j' Ht Hk'; apply lookup_insert_Some in Ht as [[<- <-] | [_ Ht]].
      * intros _ _ _ Hj'. cbn in Hk'. rewrite Hk in Hk'. injection Hk' as <-. by apply Hj.
      * by apply (E1 y).
      * by apply (E2 r p).
      * by apply (E2 y).
    + by apply (lr_set _ _ _ _ r p); [apply Hi | | |].
  - by apply (replaced_same None s s' r p q).
  - apply (replaced_calm s s' r p q); try done. by left.
Qed.
End Steps.
