(* ===== verification/PageCacheReclaim.v ===== *)
(** * The page cache: writeback and reclaim change no byte

    Writing back, dropping file pages and sending anonymous pages to the store
    keep the invariant and the firm bytes of every object, and reclaim ends. *)

From S2P Require Import Prelude Bytes Vfs PageCache PageCacheInv PageCacheSteps.

Lemma rd_concat ls : forall i l j, Forall (fun l => zlen l = PAGE_SIZE) ls -> ls !! i = Some l -> 0 <= j < PAGE_SIZE ->
  rd (concat ls) (Z.of_nat i * PAGE_SIZE + j) = rd l j.
Proof.
  induction ls as [| l0 ls IH]; intros i l j Hls Hl Hj; [done |]. apply Forall_cons in Hls as [H0 Hls]. cbn [concat].
  destruct i as [| i].
  - injection Hl as <-. rewrite Z.mul_0_l, Z.add_0_l. apply rd_app_l. unfold zlen in H0. lia.
  - rewrite rd_app_r by (unfold zlen, PAGE_SIZE in *; lia). fold (zlen l0). rewrite H0.
    replace (Z.of_nat (S i) * PAGE_SIZE + j - PAGE_SIZE) with (Z.of_nat i * PAGE_SIZE + j) by lia. by apply IH.
Qed.

Lemma rd_take l n j : 0 <= j < n -> rd (take (Z.to_nat n) l) j = rd l j.
Proof. intros Hj. unfold rd. rewrite lookup_take_lt by lia. done. Qed.

Section Reclaim.
Context {Fr FS SW PT HP : Type} `{FrameLaws Fr} `{FileLaws FS} `{SlotLaws SW} `{TableLaws PT} `{HeapLaws HP} {FM : Firm}.

Local Abbreviation cache := (@cache Fr FS SW PT HP).
Implicit Types (s : cache).

(** ** Writing back *)

Lemma dirty_run_spec s o n : forall first, inv s -> is_Some (objs s !! o) -> 0 <= first -> first + Z.of_nat n < 2 ^ 64 ->
  (length (dirty_run n s o first) <= n)%nat
  /\ forall i r, dirty_run n s o first !! i = Some r ->
       exists p, recs s !! r = Some p /\ p_owner p = o /\ p_index p = first + Z.of_nat i /\ p_dirty p = true /\ p_phys p <> 0.
Proof.
  induction n as [| n IH]; intros first Hi Ho Hf Hn; cbn [dirty_run]; [split; [done |]; by intros i r Hr; rewrite lookup_nil in Hr |].
  destruct (page_find s o first) as [r0 |] eqn:E; [| split; [cbn; lia |]; by intros i r Hr; rewrite lookup_nil in Hr].
  apply (page_find_some s o first r0 (i_ix _ _ Hi) Ho) in E as (p0 & Hp0 & Eo & Ei). rewrite (page_lookup s r0 p0 Hp0).
  destruct (p_dirty p0 && negb (p_phys p0 =? 0)) eqn:Ed; [| split; [cbn; lia |]; by intros i r Hr; rewrite lookup_nil in Hr].
  apply andb_true_iff in Ed as [Ed Eph]. b2p. rewrite u64_small by lia. destruct (IH (first + 1) Hi Ho ltac:(lia) ltac:(lia)) as [Hl Hr].
  split; [cbn; lia |]. intros [| i] r Hir; cbn in Hir.
  - injection Hir as <-. exists p0. rewrite Z.add_0_r. done.
  - destruct (Hr i r Hir) as (p & ? & ? & Ei1 & ? & ?). exists p. split_and!; try done. lia.
Qed.

(** A run of written pages becomes clean. *)
Lemma tidies_clean_run o k run : forall s, inv s -> faces s !! o = Some k -> k_anon k = false ->
  (forall r, r ∈ run -> exists p, recs s !! r = Some p /\ p_owner p = o /\ p_phys p <> 0
     /\ forall j, 0 <= j < PAGE_SIZE -> firm (k_vn k) (p_index p * PAGE_SIZE + j) = true -> rd (fbytes (ram s) (p_phys p)) j = file_byte (k_vn k) (p_index p * PAGE_SIZE + j) (fs s)) ->
  let s' := fold_left (fun s r => mark_clean s o r) run s in
  tidies None s s'
  /\ (forall r p', recs s' !! r = Some p' -> exists p, recs s !! r = Some p /\ p_owner p' = p_owner p /\ p_index p' = p_index p
                     /\ (p' = p \/ p' = with_dirty p false) /\ (r ∈ run -> p_dirty p' = false)).
Proof.
  induction run as [| r run IH]; intros s Hi Hk Ha Hrun; cbn [fold_left].
  - split; [by apply tidies_refl |]. intros r p' Hp'. exists p'. split_and!; try done; [by left |]. by intros ?%not_elem_of_nil.
  - destruct (Hrun r ltac:(apply elem_of_cons; by left)) as (p & Hp & Eo & Hph & Hj). subst o.
    destruct (tidies_mark_clean s r p k Hi Hp Hk Ha Hph Hj) as (T1 & E1 & E2 & E3). set (s1 := mark_clean s (p_owner p) r) in *.
    destruct (IH s1) as [T2 Hr2]; [apply T1 | rewrite (sm_faces _ _ (proj2 (proj1 T1))); done | done | |].
    { intros y Hy. destruct (Hrun y ltac:(apply elem_of_cons; by right)) as (q & Hq & Eq & Hqp & Hqj). rewrite E1, E2, E3.
      destruct (decide (y = r)) as [-> | Hne].
      - exists (with_dirty p false). rewrite lookup_insert_eq. assert (q = p) as -> by congruence. done.
      - exists q. rewrite lookup_insert_ne by done. done. }
    split; [apply (tidies_trans None s s1); done |]. intros y p' Hp'. destruct (Hr2 y p' Hp') as (q & Hq & Eo & Ei & Hd & Hin).
    rewrite E1 in Hq. apply lookup_insert_Some in Hq as [[<- <-] | [Hne Hq]].
    + exists p. assert (p' = with_dirty p false) as -> by (by destruct Hd as [-> | ->]). split_and!; try done. by right.
    + exists q. split_and!; try done. intros [-> | Hy]%elem_of_cons; [done | by apply Hin].
Qed.

(** No page becomes dirty; those of the run are clean. *)
Definition cleaned s s' (o first n : Z) : Prop :=
  forall r p', recs s' !! r = Some p' ->
    exists p, recs s !! r = Some p /\ p_owner p' = p_owner p /\ p_index p' = p_index p /\ (p' = p \/ p' = with_dirty p false)
              /\ (p_owner p = o -> first <= p_index p < first + n -> p_dirty p' = false).

Lemma cleaned_refl s o first : cleaned s s o first 0.
Proof. intros r p Hp. exists p. split_and!; try done; [by left |]. lia. Qed.

(** The pages of a run. *)
Definition dirty_at s (o first : Z) (run : list rid) : Prop :=
  forall i r, run !! i = Some r ->
    exists p, recs s !! r = Some p /\ p_owner p = o /\ p_index p = first + Z.of_nat i /\ p_dirty p = true /\ p_phys p <> 0.

Definition run_buffer s (run : list rid) : list Z := concat ((fun r => frame s (p_phys (page s r))) <$> run).

Lemma run_buffer_pages s o first run : inv s -> dirty_at s o first run ->
  zlen (run_buffer s run) = Z.of_nat (length run) * PAGE_SIZE
  /\ forall i r p j, run !! i = Some r -> recs s !! r = Some p -> 0 <= j < PAGE_SIZE ->
       rd (run_buffer s run) (Z.of_nat i * PAGE_SIZE + j) = rd (fbytes (ram s) (p_phys p)) j.
Proof.
  intros Hi Hrun.
  assert (Hall : Forall (fun l => zlen l = PAGE_SIZE) ((fun r => frame s (p_phys (page s r))) <$> run)).
  { apply Forall_forall. intros l Hl. apply list_elem_of_fmap in Hl as (y & -> & Hy). apply list_elem_of_lookup in Hy as [n Hn].
    destruct (Hrun n y Hn) as (q & Hq & _ & _ & _ & Hqp). rewrite (page_lookup s y q Hq). by apply (pl_in _ _ _ _ _ (i_pl _ _ Hi) y q). }
  unfold run_buffer. split; [rewrite zlen_concat, length_fmap by done; done |]. intros i r p j Hir Hp Hj.
  rewrite (rd_concat _ i (frame s (p_phys p)) j); [done | done | | done]. rewrite list_lookup_fmap, Hir. cbn. by rewrite (page_lookup s r p Hp).
Qed.

(** Writing a run, up to the end of the file. *)
Lemma run_write s o ob first run write len rc n f :
  inv s -> objs s !! o = Some ob -> o_anon ob = false -> file_write (o_vn ob) = Some write -> 0 <= first -> dirty_at s o first run ->
  let off := first * PAGE_SIZE in
  0 <= len <= Z.of_nat (length run) * PAGE_SIZE -> off + len <= o_size ob -> (off + len = o_size ob \/ len = Z.of_nat (length run) * PAGE_SIZE) ->
  write off (take (Z.to_nat len) (run_buffer s run)) (fs s) = (rc, n, f) ->
  tidies None s (set_fs s f)
  /\ (rc = Errno.EMBK_OK -> n = len -> forall i r, run !! i = Some r -> exists p, recs s !! r = Some p /\ p_owner p = o /\ p_phys p <> 0
        /\ forall j, 0 <= j < PAGE_SIZE -> firm (o_vn ob) (p_index p * PAGE_SIZE + j) = true ->
             rd (fbytes (ram s) (p_phys p)) j = file_byte (o_vn ob) (p_index p * PAGE_SIZE + j) f).
Proof.
  intros Hi Ho Ha Ew Hf Hrun off Hlen Hsz Hend Hw.
  assert (Hk : faces s !! o = Some (face_of ob)) by (unfold faces; by rewrite lookup_fmap, Ho).
  destruct (run_buffer_pages s o first run Hi Hrun) as [Hbl Hbr].
  assert (Hzl : zlen (take (Z.to_nat len) (run_buffer s run)) = len) by (unfold zlen in *; rewrite length_take; lia).
  destruct (byte_write (o_vn ob) write off _ (fs s) rc n f Ew ltac:(unfold off, PAGE_SIZE; lia) Hw) as [Hout Hin]. rewrite Hzl in *. split.
  - apply (tidies_device s o (face_of ob)); [done | done | done |]. intros vn pos Hpos Hnot. apply Hout. intros Hs. cbn in Hnot.
    destruct (decide (pos < off)); [by left |]. destruct (decide (off + len <= pos)); [by right |]. exfalso. apply (Hnot Hs). split; [cbn; lia |].
    destruct (page_split pos) as [Edm Hm]. set (i := pos / PAGE_SIZE - first).
    assert (Hi0 : 0 <= i < Z.of_nat (length run)) by (unfold i, off, PAGE_SIZE in *; lia).
    destruct (lookup_lt_is_Some_2 run (Z.to_nat i) ltac:(lia)) as [r Hr]. destruct (Hrun _ _ Hr) as (p & ? & ? & Ei & ? & _). exists r, p. split_and!; try done.
    rewrite Ei. unfold i. lia.
  - intros Erc En i r Hir. destruct (Hrun i r Hir) as (p & Hp & Eo & Ei & _ & Hph). exists p. split_and!; try done. intros j Hj Hfm.
    pose proof (lookup_lt_Some _ _ _ Hir) as Hil.
    destruct (decide (Z.of_nat i * PAGE_SIZE + j < len)) as [Hlt | Hge].
    + replace (p_index p * PAGE_SIZE + j) with (off + (Z.of_nat i * PAGE_SIZE + j)) by (rewrite Ei; unfold off; lia).
      rewrite Hin by (done || (unfold PAGE_SIZE in *; lia)). rewrite rd_take by (unfold PAGE_SIZE in *; lia). by rewrite (Hbr i r p j).
    + assert (Hpast : o_size ob <= p_index p * PAGE_SIZE + j) by (rewrite Ei; unfold off, PAGE_SIZE in *; lia).
      rewrite (cl_tail _ _ _ _ _ (i_cl _ _ Hi) r p (face_of ob)) by (rewrite ?Eo; done).
      rewrite Hout by (intros _; right; lia). symmetry. by apply (cl_zero _ _ _ _ _ (i_cl _ _ Hi) o (face_of ob)).
Qed.

Lemma flush_run_ok s o first n s' :
  inv s -> is_Some (objs s !! o) -> 0 <= first < PAGE_MAX -> flush_run s o first = (n, s') ->
  tidies None s s' /\ 0 <= n /\ cleaned s s' o first n.
Proof.
  intros Hi [ob Ho] Hf He. unfold flush_run in He. rewrite (obj_lookup s o ob Ho) in He.
  assert (Hk : faces s !! o = Some (face_of ob)) by (unfold faces; by rewrite lookup_fmap, Ho).
  assert (Hnone : (0, s) = (n, s') -> tidies None s s' /\ 0 <= n /\ cleaned s s' o first n).
  { intros [= <- <-]. split_and!; [by apply tidies_refl | done | apply cleaned_refl]. }
  destruct (op_of (o_vn ob) file_write) as [write |] eqn:Ew; [| by apply Hnone].
  destruct (op_of_file None s o ob file_write write Hi Ho Ew) as [Ha Ew'].
  destruct (dirty_run_spec s o (Z.to_nat VMO_FLUSH_RUN_PAGES) first Hi ltac:(eauto) ltac:(lia)) as [Hlen Hrun]; [unfold PAGE_MAX, VMO_FLUSH_RUN_PAGES in *; lia |].
  set (run := dirty_run _ s o first) in *. destruct (Z.of_nat (length run) =? 0) eqn:En; [by apply Hnone |]. b2p.
  rewrite (u64_small (first * PAGE_SIZE)) in He by (unfold PAGE_MAX, PAGE_SIZE in *; lia). pose proof (kd_size _ _ (i_kd _ _ Hi) o _ Hk) as Hsz. cbn in Hsz.
  rewrite u64_small in He by (unfold PAGE_MAX, PAGE_SIZE, VMO_FLUSH_RUN_PAGES in *; lia).
  set (len := if o_size ob <? first * PAGE_SIZE + Z.of_nat (length run) * PAGE_SIZE then _ else _) in *.
  destruct (len =? 0) eqn:El; [by apply Hnone |]. b2p. fold (run_buffer s run) in He.
  assert (Hl3 : 0 <= len <= Z.of_nat (length run) * PAGE_SIZE /\ first * PAGE_SIZE + len <= o_size ob
                /\ (first * PAGE_SIZE + len = o_size ob \/ len = Z.of_nat (length run) * PAGE_SIZE)).
  { unfold len, PAGE_SIZE in *. repeat case_if; lia. }
  destruct Hl3 as (Hl1 & Hl2 & Hl3). destruct (write _ _ _) as [[rc wrote] f] eqn:E.
  destruct (run_write s o ob first run write len rc wrote f) as [T1 Hok]; try done; [lia |].
  destruct (negb (rc =? Errno.EMBK_OK) || negb (wrote =? len)) eqn:Eok.
  - injection He as <- <-. split_and!; [done | done |]. intros r p Hp. by apply cleaned_refl.
  - apply orb_false_iff in Eok as [E1 E2]. b2p. injection He as <- <-. specialize (Hok E1 E2).
    destruct (tidies_clean_run o (face_of ob) run (set_fs s f)) as [T2 Hcl]; [apply T1 | done | done | |].
    { intros r Hr. apply list_elem_of_lookup in Hr as [i Hir]. by apply (Hok i). }
    split_and!; [by apply (tidies_trans None s (set_fs s f)) | lia |]. intros r p' Hp'. destruct (Hcl r p' Hp') as (p & Hp & Eo & Ei & Hd & Hin).
    exists p. split_and!; try done. intros Eo' Hrng. apply Hin. destruct (lookup_lt_is_Some_2 run (Z.to_nat (p_index p - first)) ltac:(lia)) as [y Hy].
    destruct (Hrun _ _ Hy) as (q & Hq & Eq & Eqi & _). assert (y = r) as <- by (apply (ix_uniq _ _ (i_ix _ _ Hi) y r q p); [done | done | congruence | lia]).
    by eapply list_elem_of_lookup_2.
Qed.

(** Writing back touches neither the lists nor the frames nor the store. *)
Definition quiet s s' : Prop :=
  lru_file s' = lru_file s /\ lru_anon s' = lru_anon s /\ fr s' = fr s /\ sw s' = sw s /\ ram s' = ram s.

Lemma quiet_trans s1 s2 s3 : quiet s1 s2 -> quiet s2 s3 -> quiet s1 s3.
Proof. intros (A & B & C & D & E) (A' & B' & C' & D' & E'). split_and!; congruence. Qed.

Lemma clean_run_quiet o run : forall s, quiet s (fold_left (fun s r => mark_clean s o r) run s).
Proof.
  induction run as [| r run IH]; intros s; cbn [fold_left]; [done |]. apply (quiet_trans s (mark_clean s o r)); [| apply IH].
  unfold mark_clean. by destruct (p_dirty (page s r)).
Qed.

Lemma flush_run_quiet s o first n s' : flush_run s o first = (n, s') -> quiet s s'.
Proof.
  intros He. unfold flush_run in He. destruct (op_of _ _) as [write |]; [| by injection He as <- <-].
  do 2 match type of He with (if ?b then _ else _) = _ => destruct b; [by injection He as <- <- |] end. destruct (write _ _ _) as [[rc wrote] f].
  destruct (_ || _) in He; injection He as <- <-; [done |]. by apply (quiet_trans s (set_fs s f)); [| apply clean_run_quiet].
Qed.

(** The pages of an object before a given one are clean. *)
Definition clean_below s (o i : Z) : Prop := forall r p, recs s !! r = Some p -> p_owner p = o -> p_index p < i -> p_dirty p = false.

Lemma clean_step s s' o i n : clean_below s o i -> cleaned s s' o i n -> clean_below s' o (i + n).
Proof.
  intros Hb Hc r p' Hp' Eo Hi. destruct (Hc r p' Hp') as (p & Hp & Eo' & Ei & Hd & Hrun).
  destruct (decide (p_index p < i)) as [Hlt | Hge]; [destruct Hd as [-> | ->]; [apply (Hb r p) | done]; congruence |].
  apply Hrun; [congruence | lia].
Qed.

Lemma clean_skip s o i : inv s -> is_Some (objs s !! o) -> clean_below s o i ->
  (forall r, page_find s o i = Some r -> p_dirty (page s r) = false) -> clean_below s o (i + 1).
Proof.
  intros Hi Ho Hb Hf r p Hp Eo Hlt. destruct (decide (p_index p < i)) as [? | Hge]; [by apply (Hb r p) |].
  rewrite <- (page_lookup s r p Hp). apply Hf. apply (page_find_some s o i r (i_ix _ _ Hi) Ho). exists p. split_and!; try done. lia.
Qed.

Lemma flush_from_ok fuel : forall s o i last rc s',
  inv s -> is_Some (objs s !! o) -> 0 <= i -> last <= PAGE_MAX -> last - i <= Z.of_nat fuel -> clean_below s o i ->
  flush_from fuel s o i last = (rc, s') ->
  tidies None s s' /\ quiet s s' /\ (rc = Errno.EMBK_OK -> clean_below s' o last) /\ (rc = Errno.EMBK_OK \/ rc = - Errno.EMBK_EIO).
Proof.
  induction fuel as [| fuel IH]; intros s o i last rc s' Hi Ho H0i Hlast Hfuel Hb He; cbn [flush_from] in He.
  { injection He as <- <-. split_and!; [by apply tidies_refl | done | | by left]. intros _ r p Hp Eo Hlt. apply (Hb r p); [done | done | lia]. }
  destruct ((i <? last) && (0 <? o_dirty_pages (obj s o))) eqn:Ec.
  2: { injection He as <- <-. split_and!; [by apply tidies_refl | done | | by left]. intros _ r p Hp Eo Hlt.
       apply andb_false_iff in Ec as [Ec | Ec]; b2p; [apply (Hb r p); [done | done | lia] |]. destruct Ho as [ob Ho]. rewrite (obj_lookup s o ob Ho) in Ec.
       destruct (object_counts None s o ob Hi Ho) as (_ & Ed & _). pose proof (cnt_nonneg (dirty_of o) (recs s)).
       pose proof (proj1 (cnt_zero (dirty_of o) (recs s)) ltac:(lia) r p Hp) as Hz. unfold dirty_of in Hz. by rewrite Eo, Z.eqb_refl in Hz. }
  apply andb_true_iff in Ec as [Ec _]. b2p.
  assert (Hskip : (forall r, page_find s o i = Some r -> p_dirty (page s r) = false) -> flush_from fuel s o (i + 1) last = (rc, s') ->
    tidies None s s' /\ quiet s s' /\ (rc = Errno.EMBK_OK -> clean_below s' o last) /\ (rc = Errno.EMBK_OK \/ rc = - Errno.EMBK_EIO)).
  { intros Hf He'. apply (IH s o (i + 1) last rc s'); try done; [lia | lia |]. by apply clean_skip. }
  destruct (page_find s o i) as [r |] eqn:Ef; [| by apply Hskip]. destruct (p_dirty (page s r)) eqn:Ed; [| apply Hskip; [congruence | done]].
  destruct (flush_run s o i) as [n s1] eqn:Er. destruct (flush_run_ok s o i n s1 Hi Ho ltac:(lia) Er) as (T1 & Hn & Hc). pose proof (flush_run_quiet s o i n s1 Er) as Q1.
  destruct (n =? 0) eqn:En; b2p.
  - injection He as <- <-. split_and!; [done | done | done | by right].
  - destruct (IH s1 o (i + n) last rc s') as (T2 & Q2 & Hrest); try done; [apply T1 | | lia | lia | by apply (clean_step s) |].
    { apply (faces_is_Some s s1 o); [apply T1 | done]. }
    split_and!; [by apply (tidies_trans None s s1) | by apply (quiet_trans s s1) | apply Hrest | apply Hrest].
Qed.

(** Where the pages are clean the device has the bytes. *)
Lemma clean_content s o k pos last :
  inv s -> faces s !! o = Some k -> k_anon k = false -> clean_below s o last -> 0 <= pos -> pos / PAGE_SIZE < last -> firm (k_vn k) pos = true ->
  file_byte (k_vn k) pos (fs s) = content s o pos.
Proof.
  intros Hi Hk Ha Hcl Hpos Hlt Hfm. destruct (faces_lookup s _ _ Hk) as (ob & Ho & ->). destruct (page_split pos) as [Edm Hm].
  destruct (page_find s o (pos / PAGE_SIZE)) as [r |] eqn:E.
  - apply (page_find_some s o _ r (i_ix _ _ Hi) ltac:(eauto)) in E as (p & Hp & <- & Ei). rewrite (content_page s r p pos (i_ix _ _ Hi) Hp Ei).
    pose proof (Hcl r p Hp eq_refl ltac:(lia)) as Hd. unfold bytes_of. destruct (p_phys p =? 0) eqn:Eph; b2p.
    { destruct (pl_out _ _ _ _ _ (i_pl _ _ Hi) r p Hp Eph) as (_ & (k' & Hk' & Ha') & _). simplify_eq. congruence. }
    rewrite (cl_clean _ _ _ _ _ (i_cl _ _ Hi) r p (face_of ob)) by (done || by rewrite Ei, <- Edm). rewrite Ei. by rewrite <- Edm.
  - unfold content, backing. rewrite E, (obj_lookup s o ob Ho). destruct (kd_file _ _ (i_kd _ _ Hi) _ _ Hk Ha) as [rdf Hrd]. cbn in Hrd. by rewrite Hrd.
Qed.

(** A flush that succeeds leaves the device with the bytes of the file. *)
Lemma flush_object_ok s o ob rc s' :
  inv s -> objs s !! o = Some ob -> flush_object_locked s o = (rc, s') ->
  tidies None s s' /\ quiet s s' /\ (rc = Errno.EMBK_OK \/ rc = - Errno.EMBK_EIO)
  /\ (rc = Errno.EMBK_OK -> o_no_writeback ob = false -> o_anon ob = false ->
       forall pos, 0 <= pos < o_size ob -> firm (o_vn ob) pos = true -> file_byte (o_vn ob) pos (fs s') = content s o pos).
Proof.
  intros Hi Ho He. unfold flush_object_locked in He. rewrite (obj_lookup s o ob Ho) in He.
  assert (Hk : faces s !! o = Some (face_of ob)) by (unfold faces; by rewrite lookup_fmap, Ho).
  pose proof (kd_size _ _ (i_kd _ _ Hi) o _ Hk) as Hsz. cbn in Hsz. set (last := !64 (o_size ob + PAGE_SIZE - 1) / PAGE_SIZE) in *.
  assert (Elast : last = (o_size ob + PAGE_SIZE - 1) / PAGE_SIZE) by (unfold last; rewrite u64_small; [done | unfold FILE_MAX, PAGE_SIZE in *; lia]).
  assert (Hlast : 0 <= last <= PAGE_MAX).
  { rewrite Elast. split; [apply Z.div_pos; unfold PAGE_SIZE; lia |]. apply Z.lt_succ_r, Z.div_lt_upper_bound; [done |]. unfold FILE_MAX, PAGE_MAX, PAGE_SIZE in *. lia. }
  assert (Hdev : forall s1, tidies None s s1 -> clean_below s1 o last -> o_anon ob = false ->
    forall pos, 0 <= pos < o_size ob -> firm (o_vn ob) pos = true -> file_byte (o_vn ob) pos (fs s1) = content s o pos).
  { intros s1 [[Hi1 [F1 _ C1]] _] Hcl Ha pos Hpos Hfm. rewrite <- (C1 o pos) by (eauto || lia || by intros k Hk'; simplify_eq).
    assert (Hk1 : faces s1 !! o = Some (face_of ob)) by by rewrite F1. apply (clean_content s1 o (face_of ob) pos last); try done; [lia |].
    rewrite Elast. destruct (page_split pos). apply Z.lt_le_trans with (pos / PAGE_SIZE + 1); [lia |]. apply Z.div_le_lower_bound; [done |]. unfold PAGE_SIZE in *. lia. }
  destruct (o_no_writeback ob) eqn:Enw; cbn [orb] in He.
  { injection He as <- <-. split_and!; [by apply tidies_refl | done | by left | done]. }
  destruct (o_dirty_pages ob =? 0) eqn:Ed.
  - injection He as <- <-. split_and!; [by apply tidies_refl | done | by left |]. intros _ _. apply Hdev; [by apply tidies_refl |].
    b2p. intros r p Hp Eo _. destruct (object_counts None s o ob Hi Ho) as (_ & Ec & _).
    pose proof (proj1 (cnt_zero (dirty_of o) (recs s)) ltac:(lia) r p Hp) as Hz. unfold dirty_of in Hz. by rewrite Eo, Z.eqb_refl in Hz.
  - destruct (flush_from_ok (Z.to_nat last) s o 0 last rc s' Hi ltac:(eauto)) as (T1 & Q1 & Hcl & Hrc); try done; [lia | lia | |].
    { intros r p Hp Eo Hlt. pose proof (ix_index _ _ (i_ix _ _ Hi) r p Hp). lia. }
    split_and!; try done. intros E _. apply Hdev; [done | by apply Hcl].
Qed.

(** ** File pages *)

Definition in_use s : Z := Z.of_nat (size (fr_held (fr s))).

Lemma in_use_free s (f : Fr) x : fr_ok (fr s) -> x ∈ fr_held (fr s) -> f = pmm_free_page x (fr s) -> Z.of_nat (size (fr_held f)) = in_use s - 1.
Proof.
  intros Hok Hx ->. destruct (fr_free _ _ Hok Hx) as [_ ->]. unfold in_use. rewrite size_difference by set_solver. rewrite size_singleton.
  assert (size (fr_held (fr s)) <> 0%nat) by (apply size_non_empty_iff; set_solver). lia.
Qed.

Lemma destroy_listed s r p :
  inv s -> r ∈ lru_file s -> recs s !! r = Some p -> p_dirty p = false -> p_wired p = 0 ->
  let s' := page_destroy s (p_owner p) r in
  tidies None s s' /\ in_use s' = in_use s - 1 /\ lru_file s' = without r (lru_file s) /\ lru_anon s' = lru_anon s.
Proof.
  intros Hi Hr Hp Hd Hw. destruct (lr_file _ _ _ _ (i_lr _ _ Hi) r Hr) as (p' & k & Hp' & Hk & Ha & Hph). assert (p' = p) as -> by congruence.
  destruct (page_destroy_rest None s r p Hi Hp) as (_ & _ & _ & _ & _ & _ & E7 & E8 & E9). destruct (E7 Hph) as [_ Ef].
  destruct (unlink_rest s r) as (_ & _ & _ & _ & _ & _ & _ & _ & Elf & Ela). cbv zeta. rewrite E8, E9, Elf, Ela, (on_anon_face s r p k Hp Hk), Ha.
  split_and!; [by apply (tidies_destroy None s r p k) | | done | done]. unfold in_use at 1. rewrite Ef. apply (in_use_free s _ (p_phys p)); [apply Hi | | done].
  by apply (pl_in _ _ _ _ _ (i_pl _ _ Hi) r p).
Qed.

Lemma reclaim_file_from_ok l : forall s want dirty freed n s',
  inv s -> NoDup l -> (forall r, r ∈ l -> r ∈ lru_file s) -> reclaim_file_from l want dirty freed s = (n, s') ->
  tidies None s s' /\ lru_anon s' = lru_anon s /\ freed <= n /\ in_use s' = in_use s - (n - freed) /\ (freed <= want -> n <= want).
Proof.
  induction l as [| r l IH]; intros s want dirty freed n s' Hi Hnd Hl He; cbn [reclaim_file_from] in He.
  { injection He as <- <-. split_and!; [by apply tidies_refl | done | lia | lia | done]. }
  apply NoDup_cons in Hnd as [Hr Hnd]. destruct (want <=? freed) eqn:Ew; b2p.
  { injection He as <- <-. split_and!; [by apply tidies_refl | done | lia | lia | done]. }
  pose proof (Hl r ltac:(apply elem_of_cons; by left)) as Hrin. destruct (lr_file _ _ _ _ (i_lr _ _ Hi) r Hrin) as (p & k & Hp & Hk & Ha & Hph).
  rewrite (page_lookup s r p Hp) in He.
  assert (Hskip : forall s1, tidies None s s1 -> quiet s s1 -> reclaim_file_from l want dirty freed s1 = (n, s') ->
    tidies None s s' /\ lru_anon s' = lru_anon s /\ freed <= n /\ in_use s' = in_use s - (n - freed) /\ (freed <= want -> n <= want)).
  { intros s1 T1 (Q1 & Q2 & Q3 & _) He1. destruct (IH s1 want dirty freed n s') as (T2 & E1 & E2 & E3 & E4); try done; [apply T1 | |].
    { intros y Hy. rewrite Q1. apply Hl, elem_of_cons. by right. }
    split_and!; [by apply (tidies_trans None s s1) | congruence | done | rewrite E3; unfold in_use; by rewrite Q3 | done]. }
  assert (Hdrop : forall s1 p1, tidies None s s1 -> quiet s s1 -> recs s1 !! r = Some p1 -> p_owner p1 = p_owner p -> p_dirty p1 = false -> p_wired p1 = 0 ->
    reclaim_file_from l want dirty (freed + 1) (page_destroy s1 (p_owner p) r) = (n, s') ->
    tidies None s s' /\ lru_anon s' = lru_anon s /\ freed <= n /\ in_use s' = in_use s - (n - freed) /\ (freed <= want -> n <= want)).
  { intros s1 p1 T1 (Q1 & Q2 & Q3 & _) Hp1 Eo Hd Hw1 He1. destruct (destroy_listed s1 r p1) as (T2 & U2 & F2 & A2); [apply T1 | by rewrite Q1 | done | done | done |].
    rewrite <- Eo in He1. destruct (IH (page_destroy s1 (p_owner p1) r) want dirty (freed + 1) n s') as (T3 & E1 & E2 & E3 & E4); try done; [apply T2 | |].
    { intros y Hy. rewrite F2, Q1, elem_without. split; [apply Hl, elem_of_cons; by right |]. by intros ->. }
    split_and!; [apply (tidies_trans None s s1 s' T1); intros _; by apply (tidies_trans None s1 _ s' T2) | congruence | lia | | lia].
    rewrite E3, U2. unfold in_use. rewrite Q3. lia. }
  destruct (negb (p_wired p =? 0)) eqn:Ewr; [by apply (Hskip s); [apply tidies_refl | |] |]. b2p. destruct (p_dirty p) eqn:Ed; [| by apply (Hdrop s p); [apply tidies_refl | | | | | |]].
  destruct dirty; cbn [negb] in He; [| by apply (Hskip s); [apply tidies_refl | |]].
  destruct (flush_run s (p_owner p) (p_index p)) as [m s1] eqn:Ef.
  destruct (flush_run_ok s (p_owner p) (p_index p) m s1 Hi (owner_object s r p (i_ix _ _ Hi) Hp) (ix_index _ _ (i_ix _ _ Hi) r p Hp) Ef) as (T1 & Hm & Hc).
  pose proof (flush_run_quiet _ _ _ _ _ Ef) as Q1. destruct ((m =? 0) || p_dirty (page s1 r)) eqn:Eor; [by apply (Hskip s1) |].
  apply orb_false_iff in Eor as [_ Hd1]. destruct (lr_file _ _ _ _ (i_lr _ _ (proj1 (proj1 T1))) r) as (p1 & _ & Hp1 & _); [by rewrite (proj1 Q1) |].
  rewrite (page_lookup s1 r p1 Hp1) in Hd1. destruct (Hc r p1 Hp1) as (p0 & Hp0 & Eo & _ & Hd0 & _). assert (p0 = p) as -> by congruence.
  apply (Hdrop s1 p1); try done. by destruct Hd0 as [-> | ->].
Qed.

(** ** Anonymous pages *)

(** Some pages are in slots of their own; what was in the store is still there. *)
Definition stored (w w' : SW) (ls : list (list Z)) (slots : list Z) : Prop :=
  sw_ok w' /\ length slots = length ls /\ (forall a v, sw_data w !! a = Some v -> sw_data w' !! a = Some v)
  /\ (forall i l a, ls !! i = Some l -> slots !! i = Some a -> a <> 0 -> sw_data w !! a = None /\ sw_data w' !! a = Some l)
  /\ (forall i j a, slots !! i = Some a -> slots !! j = Some a -> a <> 0 -> i = j).

Lemma swap_out_each_stored ls : forall w slots w', sw_ok w -> Forall (fun l => zlen l = PAGE_SIZE) ls.*2 -> swap_out_each ls w = (slots, w') -> stored w w' ls.*2 slots.
Proof.
  induction ls as [| [phys l] ls IH]; intros w slots w' Hw Hls He; cbn [swap_out_each] in He; cbn [fmap list_fmap snd] in *.
  { injection He as <- <-. by split_and!. }
  apply Forall_cons in Hls as [Hl Hls]. destruct (swap_out phys l w) as [a w1] eqn:E1. destruct (swap_out_each ls w1) as [as' w2] eqn:E2. injection He as <- <-.
  destruct (sw_out phys l w a w1 Hw Hl E1) as [Hw1 Ha]. destruct (IH w1 as' w2 Hw1 Hls E2) as (Hw2 & Hlen & Hkeep & Hin & Hdis).
  assert (Hk1 : forall b v, sw_data w !! b = Some v -> sw_data w1 !! b = Some v).
  { intros b v Hb. destruct Ha as [(_ & ->) | (_ & Hn & ->)]; [done |]. rewrite lookup_insert_ne; [done |]. congruence. }
  assert (Hself : a <> 0 -> sw_data w !! a = None /\ sw_data w1 !! a = Some l).
  { intros Hne. destruct Ha as [(? & _) | (_ & Hn & ->)]; [done |]. by rewrite lookup_insert_eq. }
  split_and!; [done | cbn; congruence | eauto | |].
  - intros [| i] l' b Hli Hbi Hb; cbn in Hli, Hbi; [simplify_eq; destruct (Hself Hb); split; [done | by apply Hkeep] |].
    destruct (Hin i l' b Hli Hbi Hb) as [Hn ?]. split; [| done]. destruct (sw_data w !! b) as [v |] eqn:E; [| done]. rewrite (Hk1 b v E) in Hn. done.
  - assert (Hno : forall i b, as' !! i = Some b -> b <> 0 -> b <> a).
    { intros i b Hb Hb0 ->. destruct (lookup_lt_is_Some_2 ls.*2 i) as [l' Hl']; [rewrite <- Hlen; by eapply lookup_lt_Some |].
      destruct (Hin i l' a Hl' Hb Hb0) as [Hn _]. destruct (Hself Hb0) as [_ Hs]. congruence. }
    intros [| i] [| j] b Hi Hj Hb; cbn in Hi, Hj; [done | | |].
    + injection Hi as <-. by destruct (Hno j a Hj Hb).
    + injection Hj as <-. by destruct (Hno i a Hi Hb).
    + f_equal. by apply (Hdis i j b).
Qed.

Lemma swap_out_cluster_stored ls w slots w' :
  sw_ok w -> Forall (fun l => zlen l = PAGE_SIZE) ls.*2 -> swap_out_cluster ls w = (Some slots, w') -> stored w w' ls.*2 slots.
Proof.
  intros Hw Hls He. destruct (sw_out_cluster ls w _ w' Hw Hls He) as [Hw' (Hlen & Hnd & Hfresh & Hd)]. rewrite <- (length_fmap snd ls) in Hlen.
  assert (Hz : (zip slots ls.*2).*1 = slots) by (rewrite fst_zip; [done | lia]).
  assert (Hin : forall i l a, ls.*2 !! i = Some l -> slots !! i = Some a -> sw_data w' !! a = Some l).
  { intros i l a Hl Ha. rewrite Hd. apply lookup_union_Some_l. apply elem_of_list_to_map; [by rewrite Hz |].
    apply list_elem_of_lookup. exists i. by rewrite lookup_zip_with, Ha, Hl. }
  split_and!; [done | done | | |].
  - intros a v Ha. rewrite Hd, lookup_union_r; [done |]. apply not_elem_of_list_to_map. rewrite Hz. intros Hs. destruct (Hfresh a Hs) as [_ ?]. congruence.
  - intros i l a Hl Ha Hne. split; [| by apply (Hin i)]. apply Hfresh. by eapply list_elem_of_lookup_2.
  - intros i j a Hia Hja _. by eapply NoDup_lookup.
Qed.

Lemma lr_unlisted K R lf la r q : Lr K R lf la -> r ∉ lf -> r ∉ la -> Lr K (<[r := q]> R) lf la.
Proof.
  intros [A B C D] Hf Ha. split; [| | done | done]; intros y Hy.
  - destruct (A y Hy) as (p & k & ?). exists p, k. rewrite lookup_insert_ne; [done |]. by intros <-.
  - destruct (B y Hy) as (p & k & ?). exists p, k. rewrite lookup_insert_ne; [done |]. by intros <-.
Qed.

Lemma cl_anon_set x K R (f : FS) m r p q k :
  Cl x K R f m -> K !! p_owner p = Some k -> k_anon k = true -> p_owner q = p_owner p -> Cl x K (<[r := q]> R) f m.
Proof.
  intros [A B C] Hk Ha Eo. split; [| | done]; intros y t k' j Ht Hk' Ha'; apply lookup_insert_Some in Ht as [[<- <-] | [_ Ht]]; try congruence.
  - by apply (A y).
  - by apply (B y).
Qed.

Lemma pl_out_set K R (f : Fr) (w : SW) m r p a k :
  Pl K R f w m -> R !! r = Some p -> p_phys p <> 0 -> K !! p_owner p = Some k -> k_anon k = true ->
  a <> 0 -> sw_data w !! a = Some (fbytes m (p_phys p)) -> (forall y t, R !! y = Some t -> p_phys t = 0 -> p_slot t <> a) ->
  Pl K (<[r := with_place p 0 a]> R) (pmm_free_page (p_phys p) f) w m.
Proof.
  intros [F W A B C D] Hr Hph Hk Ha Hne Hd Hfree. destruct (A r p Hr Hph) as (Hin & _ & Hlen). destruct (fr_free _ _ F Hin) as [Hf Hh]. split; [done | done | | | |].
  - intros y t Ht Htp. apply lookup_insert_Some in Ht as [[<- <-] | [Hy Ht]]; [done |]. destruct (A y t Ht Htp) as (? & ? & ?). rewrite Hh. split_and!; [| done | done].
    apply elem_of_difference. split; [done |]. rewrite elem_of_singleton. intros E. apply Hy. by apply (C r y p t).
  - intros y t Ht Htp. apply lookup_insert_Some in Ht as [[<- <-] | [Hy Ht]]; [| by apply (B y)]. cbn. split_and!; eauto.
  - intros y y' t t' Ht Ht' Htp E. apply lookup_insert_Some in Ht as [[<- <-] | [Hy Ht]]; [done |]. apply lookup_insert_Some in Ht' as [[<- <-] | [_ Ht']]; [done |].
    by apply (C y y' t t').
  - intros y y' t t' Ht Ht' Htp Htp' E. apply lookup_insert_Some in Ht as [[<- <-] | [Hy Ht]], Ht' as [[<- <-] | [Hy' Ht']]; cbn in E.
    + done.
    + by destruct (Hfree y' t' Ht' Htp').
    + by destruct (Hfree y t Ht Htp).
    + by apply (D y y' t t').
Qed.

(** A page whose bytes are in a slot gives its frame back. *)
Lemma tidies_went_out s r p a :
  inv s -> r ∈ lru_anon s -> recs s !! r = Some p -> a <> 0 -> sw_data (sw s) !! a = Some (fbytes (ram s) (p_phys p)) ->
  (forall y t, recs s !! y = Some t -> p_phys t = 0 -> p_slot t <> a) ->
  let s' := went_out s r a in
  tidies None s s' /\ in_use s' = in_use s - 1 /\ lru_anon s' = without r (lru_anon s) /\ recs s' = <[r := with_place p 0 a]> (recs s) /\ sw s' = sw s /\ ram s' = ram s.
Proof.
  intros Hi Hr Hp Hne Hd Hfree. destruct (lr_anon _ _ _ _ (i_lr _ _ Hi) r Hr) as (p' & k & Hp' & Hk & Ha & Hph). assert (p' = p) as -> by congruence.
  destruct (unlink_rest s r) as (E1 & E2 & E3 & E4 & E5 & E6 & E7 & E8 & E9 & E10). rewrite (on_anon_face s r p k Hp Hk), Ha in E9, E10.
  destruct (unlink_gone None s r p Hi Hp) as [G1 G2]. destruct (keeps_unlink None s r Hi) as [Hi1 _].
  assert (E11 : rec_free (lru_unlink s r) = rec_free s /\ hp (lru_unlink s r) = hp s) by (unfold lru_unlink; by destruct (on_anon s r)).
  cbv zeta. unfold went_out. rewrite (page_lookup s r p Hp). set (q := with_place p 0 a). set (s' := upd_obj _ _ _).
  assert (Es : recs s' = <[r := q]> (recs s) /\ fr s' = pmm_free_page (p_phys p) (fr s) /\ sw s' = sw s /\ ram s' = ram s /\ fs s' = fs s /\ pt s' = pt s
               /\ lru_file s' = lru_file (lru_unlink s r) /\ lru_anon s' = lru_anon (lru_unlink s r)) by (unfold s'; cbn; by rewrite E2, E4, E5, E6, E7, E8).
  destruct Es as (R1 & R2 & R3 & R4 & R5 & R6 & R7 & R8).
  assert (Hrep : replaced s s' r p q).
  { split; try done. intros ob Ho. unfold s', upd_obj. unfold obj. cbn. rewrite E1, Ho. eexists. split_and!; [reflexivity | done | done | done |].
    unfold counts_of, share, resident_of, dirty_of, out_of. cbn. rewrite Z.eqb_refl. apply Z.eqb_neq in Hph. rewrite Hph. cbn. f_equal; [f_equal |]; lia. }
  split_and!; [| | by rewrite R8 | done | done | done].
  - split; [split |].
    + apply (replaced_inv None None s s' r p q); [done | done | | |]; rewrite R1, ?R2, ?R3, ?R4, ?R5, ?R7, ?R8.
      * by apply (pl_out_set _ _ _ _ _ r p a k); [apply Hi | | | | | | |].
      * by apply (cl_anon_set _ _ _ _ _ r p q k); [apply Hi | | |].
      * rewrite E9, E10 in *. apply lr_unlisted; [by apply lr_without_anon, Hi | done | done].
    + apply (replaced_same None s s' r p q); [done | done | done | |].
      * unfold bytes_of. rewrite R3. apply Z.eqb_neq in Hph. rewrite Hph. change (default zero_page (sw_data (sw s) !! a) = fbytes (ram s) (p_phys p)). by rewrite Hd.
      * intros y t _ _. unfold bytes_of. by rewrite R3, R4.
    + apply (replaced_calm s s' r p q); [done | done | done | by right; exists k | rewrite R8, E10; apply length_without | done].
  - unfold in_use at 1. apply (in_use_free s _ (p_phys p)); [apply Hi | by apply (pl_in _ _ _ _ _ (i_pl _ _ Hi) r p) | done].
Qed.

(** Each page of a batch is in the slot it was given, and no other page is. *)
Definition parked s (batch : list rid) (slots : list Z) : Prop :=
  (forall i r a p, batch !! i = Some r -> slots !! i = Some a -> a <> 0 -> recs s !! r = Some p ->
     sw_data (sw s) !! a = Some (fbytes (ram s) (p_phys p)) /\ forall y t, recs s !! y = Some t -> p_phys t = 0 -> p_slot t <> a)
  /\ (forall i j a, slots !! i = Some a -> slots !! j = Some a -> a <> 0 -> i = j).

(** Only pages of the batch leave the list. *)
Definition thinned (batch l l' : list rid) : Prop := exists gone : list rid, l' = filter (fun y => y ∉ gone) l /\ forall y, y ∈ gone -> y ∈ batch.

Lemma thinned_refl batch l : thinned batch l l.
Proof. exists []. split; [| by intros y ?%not_elem_of_nil]. symmetry. apply filter_all, Forall_forall. intros y _ ?%not_elem_of_nil. done. Qed.

Lemma thinned_cons r batch l l' : thinned batch (without r l) l' -> thinned (r :: batch) l l'.
Proof.
  intros (gone & -> & Hg). exists (r :: gone). split.
  - unfold without. rewrite list_filter_filter. apply filter_ext. intros y _. rewrite not_elem_of_cons. tauto.
  - intros y [-> | Hy]%elem_of_cons; apply elem_of_cons; auto.
Qed.

Lemma thinned_weaken batch batch' l l' : thinned batch l l' -> (forall y, y ∈ batch -> y ∈ batch') -> thinned batch' l l'.
Proof. intros (gone & -> & Hg) Hb. exists gone. auto. Qed.

Lemma all_out_ok batch : forall slots s out n s',
  inv s -> NoDup batch -> (forall r, r ∈ batch -> r ∈ lru_anon s) -> parked s batch slots -> all_out batch slots out s = (n, s') ->
  tidies None s s' /\ in_use s' = in_use s - (n - out) /\ out <= n <= out + Z.of_nat (length batch) /\ thinned batch (lru_anon s) (lru_anon s').
Proof.
  induction batch as [| r batch IH]; intros slots s out n s' Hi Hnd Hl Hpk He; cbn [all_out] in He.
  { injection He as <- <-. split_and!; [by apply tidies_refl | lia | cbn; lia | cbn; lia | apply thinned_refl]. }
  destruct slots as [| a slots].
  { injection He as <- <-. split_and!; [by apply tidies_refl | lia | cbn; lia | cbn; lia | apply thinned_refl]. }
  apply NoDup_cons in Hnd as [Hr Hnd]. destruct Hpk as [Hpk Hdis].
  assert (Hdis' : forall i j b, slots !! i = Some b -> slots !! j = Some b -> b <> 0 -> i = j).
  { intros i j b Hb Hb' Hb0. enough (S i = S j) by lia. by apply (Hdis (S i) (S j) b). }
  destruct (a =? 0) eqn:Ea; b2p.
  - destruct (IH slots s out n s') as (T1 & E1 & E2 & E3); try done.
    { intros y Hy. apply Hl, elem_of_cons. by right. }
    { split; [| done]. intros j y b p Hy Hb. by apply (Hpk (S j)). }
    split_and!; [done | done | lia | cbn; lia |]. apply (thinned_weaken batch); [done |]. intros y Hy. apply elem_of_cons. by right.
  - pose proof (Hl r ltac:(apply elem_of_cons; by left)) as Hrin. destruct (lr_anon _ _ _ _ (i_lr _ _ Hi) r Hrin) as (p & _ & Hp & _).
    destruct (Hpk 0%nat r a p eq_refl eq_refl Ea Hp) as [Hd Hfree].
    destruct (tidies_went_out s r p a Hi Hrin Hp Ea Hd Hfree) as (T1 & U1 & L1 & R1 & W1 & M1).
    destruct (IH slots (went_out s r a) (out + 1) n s') as (T2 & U2 & N2 & L2); [apply T1 | done | | | done |].
    { intros y Hy. rewrite L1, elem_without. split; [apply Hl, elem_of_cons; by right |]. by intros ->. }
    { split; [| done]. rewrite R1, W1, M1. intros j y b q Hy Hb Hb0 Hq.
      rewrite lookup_insert_ne in Hq by (intros <-; by apply Hr; eapply list_elem_of_lookup_2).
      destruct (Hpk (S j) y b q Hy Hb Hb0 Hq) as [Hd' Hfree']. split; [done |]. intros z t Ht Htp. apply lookup_insert_Some in Ht as [[<- <-] | [_ Ht]]; [| by apply (Hfree' z)].
      cbn. intros <-. discriminate (Hdis 0%nat (S j) a eq_refl Hb Hb0). }
    split_and!; [by apply (tidies_trans None s _ s' T1) | lia | lia | cbn; lia |]. rewrite L1 in L2. by apply thinned_cons.
Qed.

Lemma tidies_store s w :
  inv s -> sw_ok w -> (forall a v, sw_data (sw s) !! a = Some v -> sw_data w !! a = Some v) -> tidies None s (set_sw s w).
Proof.
  intros Hi Hw Hk. assert (Hb : forall r p, recs s !! r = Some p -> bytes_of (set_sw s w) p = bytes_of s p).
  { intros r p Hp. unfold bytes_of. cbn. destruct (p_phys p =? 0) eqn:E; [| done]. b2p. destruct (pl_out _ _ _ _ _ (i_pl _ _ Hi) r p Hp E) as (_ & _ & l & Hl & _).
    by rewrite (Hk _ _ Hl), Hl. }
  split; [split |].
  - destruct Hi as [A B C [D1 D2 D3 D4 D5 D6] E F G]. split; try done. split; try done. intros r p Hp Hph. destruct (D4 r p Hp Hph) as (? & ? & l & Hl & ?). eauto 8.
  - apply same_pages; try done; [apply Hi | apply Hi |]. intros r p Hp. exists p. split_and!; try done. by apply (Hb r).
  - by apply calm_eq.
Qed.

Lemma anon_batch_out_ok batch s out s' :
  inv s -> NoDup batch -> (forall r, r ∈ batch -> r ∈ lru_anon s) -> anon_batch_out_locked batch s = (out, s') ->
  tidies None s s' /\ in_use s' = in_use s - out /\ 0 <= out <= Z.of_nat (length batch) /\ thinned batch (lru_anon s) (lru_anon s').
Proof.
  intros Hi Hnd Hl He. unfold anon_batch_out_locked in He. set (pages := (fun r => (p_phys (page s r), frame s (p_phys (page s r)))) <$> batch) in *.
  assert (Hpages : forall i r, batch !! i = Some r -> exists p, recs s !! r = Some p /\ p_phys p <> 0 /\ pages.*2 !! i = Some (fbytes (ram s) (p_phys p))).
  { intros i r Hir. destruct (lr_anon _ _ _ _ (i_lr _ _ Hi) r) as (p & _ & Hp & _ & _ & Hph); [apply Hl; by eapply list_elem_of_lookup_2 |].
    exists p. split_and!; [done | done |]. unfold pages. rewrite !list_lookup_fmap, Hir. cbn. by rewrite (page_lookup s r p Hp). }
  assert (Hlen : Forall (fun l => zlen l = PAGE_SIZE) pages.*2).
  { apply Forall_lookup. intros i l Hil. assert (Hib : (i < length batch)%nat) by (apply lookup_lt_Some in Hil; by unfold pages in Hil; rewrite !length_fmap in Hil).
    destruct (lookup_lt_is_Some_2 batch i Hib) as [r Hr]. destruct (Hpages i r Hr) as (p & Hp & Hph & Hl'). assert (l = fbytes (ram s) (p_phys p)) as -> by congruence.
    by apply (pl_in _ _ _ _ _ (i_pl _ _ Hi) r p). }
  assert (Hst : forall slots w, stored (sw s) w pages.*2 slots -> all_out batch slots 0 (set_sw s w) = (out, s') ->
    tidies None s s' /\ in_use s' = in_use s - out /\ 0 <= out <= Z.of_nat (length batch) /\ thinned batch (lru_anon s) (lru_anon s')).
  { intros slots w (Hw & Hls & Hkeep & Hin & Hdis) He1. pose proof (tidies_store s w Hi Hw Hkeep) as T1.
    destruct (all_out_ok batch slots (set_sw s w) 0 out s') as (T2 & U2 & N2 & L2); [apply T1 | done | done | | done |].
    { split; [| done]. cbn. intros i r a p Hr Ha Ha0 Hp. destruct (Hpages i r Hr) as (p' & Hp' & Hph & Hpg). assert (p' = p) as -> by congruence.
      destruct (Hin i _ a Hpg Ha Ha0) as [Hn Hs]. split; [done |]. intros y t Ht Htp E. destruct (pl_out _ _ _ _ _ (i_pl _ _ Hi) y t Ht Htp) as (_ & _ & l & Hl' & _). congruence. }
    split_and!; [by apply (tidies_trans None s _ s' T1) | change (in_use (set_sw s w)) with (in_use s) in U2; lia | lia | lia | done]. }
  pose proof (pl_sw _ _ _ _ _ (i_pl _ _ Hi)) as Hok. destruct (swap_out_cluster pages (sw s)) as [[slots |] w] eqn:E1.
  - apply (Hst slots w); [by apply swap_out_cluster_stored | done].
  - destruct (sw_out_cluster pages (sw s) _ w Hok Hlen E1) as [Hw Ew]. destruct (swap_out_each pages w) as [slots w2] eqn:E2.
    apply (Hst slots w2); [| done]. pose proof (swap_out_each_stored pages w slots w2 Hw Hlen E2) as Hs. unfold stored in *. by rewrite Ew in Hs.
Qed.

(** The walk *)
Lemma before_spec r (A B : list rid) : forall prev, r ∉ A -> before r prev (A ++ r :: B) = match last A with Some x => Some x | None => prev end.
Proof.
  induction A as [| x A IH]; intros prev Hr; cbn [app before].
  - by rewrite decide_True.
  - apply not_elem_of_cons in Hr as [Hx Hr]. rewrite decide_False, IH by congruence. rewrite last_cons. by destruct (last A).
Qed.

Lemma without_middle r (A B : list rid) : NoDup (A ++ r :: B) -> without r (A ++ r :: B) = A ++ B.
Proof.
  intros (_ & Hd & [Hr HB]%NoDup_cons)%NoDup_app. unfold without. rewrite filter_app, filter_cons_False by tauto. f_equal.
  - apply filter_all, Forall_forall. intros y Hy ->. apply (Hd r Hy). apply elem_of_cons. by left.
  - apply filter_all, Forall_forall. intros y Hy ->. done.
Qed.

Definition after_judge (v : verdict) s s1 (r : rid) : Prop :=
  match v with
  | Spare => lru_anon s1 = r :: without r (lru_anon s) /\ (tb_pending (pt s1) < tb_pending (pt s))%nat
  | _ => lru_anon s1 = lru_anon s
  end.

Lemma tidies_pt s t : inv s -> (tb_pending t <= tb_pending (pt s))%nat -> tidies None s (set_pt s t).
Proof. intros Hi Ht. split; [by apply keeps_pt |]. split; [done | | done | | done | done]; [intros r p (? & _) |]; eauto. Qed.

Lemma tidies_wired s r p k n : inv s -> 0 <= n -> recs s !! r = Some p -> p_phys p <> 0 -> faces s !! p_owner p = Some k -> k_anon k = true ->
  tidies None s (upd_page s r (fun p => with_wired p n)).
Proof.
  intros Hi Hn Hp Hph Hk Ha. split; [apply keeps_wired; eauto |]. unfold upd_page. rewrite (page_lookup s r p Hp). split; [done | | | | done | done]; cbn.
  - intros y t (Ht & _ & k' & Hk' & Ha'). exists t. rewrite lookup_insert_ne; [done |]. intros <-. congruence.
  - intros y t Ht Htp. rewrite lookup_insert_ne; [done |]. intros <-. congruence.
  - intros y t Ht. apply lookup_insert_Some in Ht as [[<- <-] | [_ Ht]]; eauto.
Qed.

Lemma length_touch r l : NoDup l -> r ∈ l -> length (r :: without r l) = length l.
Proof.
  intros Hnd Hr. apply list_elem_of_split in Hr as (A & B & ->). rewrite without_middle by done. cbn. rewrite !length_app. cbn. lia.
Qed.

Lemma judge_ok fp r s v s1 : inv s -> r ∈ lru_anon s -> judge fp r s = (v, s1) -> tidies None s s1 /\ in_use s1 = in_use s /\ after_judge v s s1 r.
Proof.
  intros Hi Hr He. destruct (lr_anon _ _ _ _ (i_lr _ _ Hi) r Hr) as (p & k & Hp & Hk & Ha & Hph). unfold judge in He. rewrite (page_lookup s r p Hp) in He.
  assert (Hsame : forall v0, v0 <> Spare -> (v0, s) = (v, s1) -> tidies None s s1 /\ in_use s1 = in_use s /\ after_judge v s s1 r).
  { intros v0 Hv [= <- <-]. split_and!; [by apply tidies_refl | done |]. by destruct v0. }
  destruct (p_phys p =? 0); [by apply (Hsame Leave) |]. destruct (p_wired p =? 0); [by apply (Hsame Take) |]. destruct (_ || _); [by apply (Hsame Leave) |].
  set (pml4 := o_mapper_pml4 _) in *. set (va := !64 _) in *.
  assert (Hrest : forall s2, tidies None s s2 -> recs s2 = recs s -> fr s2 = fr s -> lru_anon s2 = lru_anon s ->
    (if negb (vmm_get_phys_in pml4 va (pt s2) =? p_phys p) then (Leave, s2)
     else (Take, upd_page (set_pt s2 (vmm_unmap_in pml4 va (pt s2))) r (fun p => with_wired p 0))) = (v, s1) ->
    tidies None s s1 /\ in_use s1 = in_use s /\ after_judge v s s1 r).
  { intros s2 T2 E1 E2 E3 He2. destruct (negb _); injection He2 as <- <-.
    - split_and!; [done | unfold in_use; by rewrite E2 | done].
    - split_and!; [| unfold in_use; cbn; by rewrite E2 | done]. apply (tidies_trans None s s2 _ T2). intros Hi2.
      apply (tidies_trans None s2 (set_pt s2 (vmm_unmap_in pml4 va (pt s2)))); [apply tidies_pt; [done | apply tb_unmap] |]. intros Hi3. apply (tidies_wired _ r p k); [done | done | cbn; by rewrite E1 | done | | done]. change (faces s2 !! p_owner p = Some k). by rewrite (sm_faces _ _ (proj2 (proj1 T2))). }
  destruct (fp && second_chance s); [| apply (Hrest s); try done; by apply tidies_refl].
  destruct (vmm_test_and_clear_accessed_in pml4 va (pt s)) as [acc t] eqn:Et. destruct (tb_clear _ _ _ _ _ Et) as [Hle Hlt].
  pose proof (tidies_pt s t Hi Hle) as T1. destruct acc; [| by apply (Hrest (set_pt s t))].
  injection He as <- <-. pose proof (on_anon_face (set_pt s t) r p k Hp Hk) as Eon. rewrite Ha in Eon.
  assert (El : lru_anon (lru_touch (set_pt s t) r) = r :: without r (lru_anon s) /\ pt (lru_touch (set_pt s t) r) = t /\ fr (lru_touch (set_pt s t) r) = fr s
               /\ recs (lru_touch (set_pt s t) r) = recs s) by (unfold lru_touch; by rewrite Eon).
  destruct El as (L1 & L2 & L3 & L4). split_and!; [| unfold in_use; by rewrite L3 | split; [done | rewrite L2; by apply Hlt]].
  apply (tidies_trans None s (set_pt s t) _ T1). intros Hi2. split; [by apply (keeps_touch None _ r p) |]. split; rewrite ?L4; cbn; eauto.
  - unfold lru_touch. by rewrite Eon.
  - intros y q (? & _). eauto.
  - rewrite L1, length_touch; [done | apply Hi | done].
  - by rewrite L2.
Qed.

(** Where the walk is: at [r], with the pages of the batch behind it. *)
Definition walking s (p : option rid) (batch : list rid) (ahead : nat) : Prop :=
  NoDup batch
  /\ match p with
     | Some r => exists A B, lru_anon s = A ++ r :: B /\ length A = ahead /\ forall y, y ∈ batch -> y ∈ B
     | None => forall y, y ∈ batch -> y ∈ lru_anon s
     end.

Lemma walking_batch s p batch n : walking s p batch n -> NoDup batch /\ forall y, y ∈ batch -> y ∈ lru_anon s.
Proof.
  intros [Hnd Hw]. split; [done |]. intros y Hy. destruct p as [r |]; [| by apply Hw]. destruct Hw as (A & B & -> & _ & Hb).
  apply elem_of_app. right. apply elem_of_cons. right. by apply Hb.
Qed.

Lemma walk_spare s s1 r batch n : inv s -> walking s (Some r) batch n -> lru_anon s1 = r :: without r (lru_anon s) ->
  walking s1 (before r None (lru_anon s)) batch n.
Proof.
  intros Hi [Hnd (A & B & El & Hn & Hb)] E1. pose proof (lr_nodup_anon _ _ _ _ (i_lr _ _ Hi)) as Hl. rewrite El in *. rewrite without_middle in E1 by done.
  split; [done |]. rewrite before_spec by (apply NoDup_app in Hl as (_ & Hd & _); intros Hr; apply (Hd r Hr), elem_of_cons; by left).
  destruct A as [| q A _] using rev_ind; [cbn; intros y Hy; rewrite E1; apply elem_of_cons; right; by apply Hb |].
  rewrite last_snoc. exists (r :: A), B. rewrite E1, <- app_assoc. split_and!; [done | rewrite length_app in Hn; cbn in *; lia | done].
Qed.

Lemma walk_on s s1 r batch batch' n : inv s -> walking s (Some r) batch n -> lru_anon s1 = lru_anon s ->
  (batch' = batch \/ batch' = batch ++ [r]) -> walking s1 (before r None (lru_anon s)) batch' (n - 1).
Proof.
  intros Hi [Hnd (A & B & El & Hn & Hb)] E1 Hb'. pose proof (lr_nodup_anon _ _ _ _ (i_lr _ _ Hi)) as Hl. rewrite El in *.
  apply NoDup_app in Hl as (_ & Hd & [HrB HB]%NoDup_cons).
  assert (Hin : forall y, y ∈ batch' -> y ∈ r :: B).
  { intros y Hy. apply elem_of_cons. destruct Hb' as [-> | ->]; [right; by apply Hb |]. apply elem_of_app in Hy as [Hy | ->%list_elem_of_singleton]; [right; by apply Hb | by left]. }
  split.
  { destruct Hb' as [-> | ->]; [done |]. apply NoDup_app. split_and!; [done | | apply NoDup_singleton]. intros y Hy ->%list_elem_of_singleton. by apply HrB, Hb. }
  rewrite before_spec by (intros Hr; apply (Hd r Hr), elem_of_cons; by left).
  destruct A as [| q A _] using rev_ind; [cbn; intros y Hy; rewrite E1; by apply Hin |].
  rewrite last_snoc. exists A, (r :: B). rewrite E1, <- app_assoc. split_and!; [done | rewrite length_app in Hn; cbn in *; lia | done].
Qed.

Lemma walk_out s s1 p batch n : inv s -> walking s p batch n -> thinned batch (lru_anon s) (lru_anon s1) -> walking s1 p [] n.
Proof.
  intros Hi [Hnd Hw] (gone & E1 & Hg). split; [constructor |]. destruct p as [r |]; [| by intros y ?%not_elem_of_nil].
  destruct Hw as (A & B & El & Hn & Hb). pose proof (lr_nodup_anon _ _ _ _ (i_lr _ _ Hi)) as Hl. rewrite El in *. apply NoDup_app in Hl as (_ & Hd & [HrB HB]%NoDup_cons).
  exists A, (filter (fun y => y ∉ gone) B). split_and!; [| done | by intros y ?%not_elem_of_nil].
  rewrite E1, filter_app, filter_cons_True by (intros Hr; by apply HrB, Hb, Hg). f_equal. apply filter_all, Forall_forall. intros y Hy Hyg.
  apply (Hd y Hy), elem_of_cons. right. by apply Hb, Hg.
Qed.

Lemma walk_ahead s r batch n : inv s -> walking s (Some r) batch n -> before r None (lru_anon s) <> None -> (0 < n)%nat.
Proof.
  intros Hi [_ (A & B & El & Hn & _)]. pose proof (lr_nodup_anon _ _ _ _ (i_lr _ _ Hi)) as Hl. rewrite El in *.
  rewrite before_spec by (apply NoDup_app in Hl as (_ & Hd & _); intros Hr; apply (Hd r Hr), elem_of_cons; by left). destruct A; cbn in *; [done | lia].
Qed.

(** What a pass leaves; without a result the fuel was no more than [limit]. *)
Definition passed s (freed want : Z) (fuel limit : nat) (res : option (bool * list rid * Z * cache)) : Prop :=
  match res with
  | Some (_, batch', freed', s') =>
      tidies None s s' /\ NoDup batch' /\ (forall y, y ∈ batch' -> y ∈ lru_anon s') /\ in_use s' = in_use s - (freed' - freed)
      /\ freed <= freed' /\ freed' + Z.of_nat (length batch') <= want
  | None => (fuel <= limit)%nat
  end.

Lemma passed_after s s1 freed freed1 want fuel limit1 limit res :
  tidies None s s1 -> in_use s1 = in_use s - (freed1 - freed) -> freed <= freed1 ->
  (res = None -> limit1 < limit)%nat -> passed s1 freed1 want fuel limit1 res -> passed s freed want (S fuel) limit res.
Proof.
  intros T1 U1 F1 Hl Hp. destruct res as [[[[rf batch'] freed'] s'] |]; cbn in *; [| specialize (Hl eq_refl); lia].
  destruct Hp as (T2 & ? & ? & U2 & ? & ?). split_and!; try done; [by apply (tidies_trans None s s1) | lia | lia].
Qed.

Lemma anon_pass_none fuel fp want batch freed s : anon_pass fuel fp want None batch freed s <> None.
Proof. by destruct fuel. Qed.

Lemma anon_pass_ok fuel : forall fp want p batch freed s n,
  inv s -> walking s p batch n -> freed + Z.of_nat (length batch) <= want ->
  passed s freed want fuel (n + tb_pending (pt s)) (anon_pass fuel fp want p batch freed s).
Proof.
  induction fuel as [| fuel IH]; intros fp want p batch freed s n Hi Hw Hwant; cbn [anon_pass].
  all: destruct (walking_batch s p batch n Hw) as [Hnd Hin].
  all: assert (Hend : forall fuel limit b, passed s freed want fuel limit (Some (b, batch, freed, s))) by (intros; cbn; split_and!; try done; [by apply tidies_refl | lia]).
  all: destruct p as [r |]; [| apply Hend]; destruct (want <=? freed + Z.of_nat (length batch)) eqn:Ec; b2p; [apply Hend |].
  { cbn. lia. }
  assert (Hr : r ∈ lru_anon s) by (destruct Hw as [_ (A & B & -> & _)]; apply elem_of_app; right; apply elem_of_cons; by left).
  destruct (judge fp r s) as [v s1] eqn:Ej. destruct (judge_ok fp r s v s1 Hi Hr Ej) as (T1 & U1 & Hv). pose proof (cm_pending _ _ (proj2 T1)) as P1.
  pose proof (walk_ahead s r batch n Hi Hw) as Hahead. set (prev := before r None (lru_anon s)) in *.
  assert (Hnext : forall s2 batch2 freed2 n2, tidies None s s2 -> walking s2 prev batch2 n2 ->
    in_use s2 = in_use s - (freed2 - freed) -> freed <= freed2 -> freed2 + Z.of_nat (length batch2) <= want ->
    (prev <> None -> n2 + tb_pending (pt s2) < n + tb_pending (pt s))%nat ->
    passed s freed want (S fuel) (n + tb_pending (pt s)) (anon_pass fuel fp want prev batch2 freed2 s2)).
  { intros s2 batch2 freed2 n2 T2 W2 U2 F2 F2' Hm. apply (passed_after s s2 freed freed2 want fuel (n2 + tb_pending (pt s2))); [done | done | done | | by apply IH; [apply T2 | |]].
    intros En. apply Hm. intros Ep. rewrite Ep in En. by apply anon_pass_none in En. }
  destruct v; cbn in Hv.
  - destruct Hv as [E1 E2]. apply (Hnext s1 batch freed n); try done; [by apply walk_spare | lia | lia].
  - pose proof (walk_on s s1 r batch (batch ++ [r]) n Hi Hw Hv (or_intror eq_refl)) as W1. fold prev in W1. destruct (walking_batch _ _ _ _ W1) as [Hnd1 Hin1].
    assert (Hl1 : Z.of_nat (length (batch ++ [r])) = Z.of_nat (length batch) + 1) by (rewrite length_app; cbn; lia).
    destruct (Z.of_nat (length (batch ++ [r])) =? SWAP_CLUSTER_PAGES); [| apply (Hnext s1 (batch ++ [r]) freed (n - 1)%nat); try done; [lia | lia | intros Hp; specialize (Hahead Hp); lia]].
    destruct (anon_batch_out_locked (batch ++ [r]) s1) as [out s2] eqn:Eo. destruct (anon_batch_out_ok _ s1 out s2 (proj1 (proj1 T1)) Hnd1 Hin1 Eo) as (T2 & U2 & N2 & L2).
    pose proof (tidies_trans None s s1 s2 T1 (fun _ => T2)) as T12. pose proof (cm_pending _ _ (proj2 T2)) as P2.
    destruct (out =? 0) eqn:E0; b2p.
    + cbn. split_and!; [done | constructor | by intros y ?%not_elem_of_nil | lia | lia | lia].
    + apply (Hnext s2 [] (freed + out) (n - 1)%nat); try done; [| lia | lia | cbn; lia | intros Hp; specialize (Hahead Hp); lia].
      apply (walk_out s1 s2 prev (batch ++ [r])); [apply T1 | done | done].
  - apply (Hnext s1 batch freed (n - 1)%nat); try done; [by apply (walk_on s s1 r batch); [| | | left] | lia | intros Hp; specialize (Hahead Hp); lia].
Qed.

(** The fuel is more than the walk can need. *)
Definition enough (fuel : nat) s : Prop := (length (lru_anon s) + tb_pending (pt s) < fuel)%nat.

Lemma enough_calm fuel s s' : enough fuel s -> calm s s' -> enough fuel s'.
Proof. unfold enough. intros He [_ _ _ _ Hl Hp]. lia. Qed.

Lemma anon_sweep_ok fuel fp want freed s : inv s -> freed <= want ->
  match anon_sweep fuel fp want freed s with
  | Some (_, freed', s') => tidies None s s' /\ in_use s' = in_use s - (freed' - freed) /\ freed <= freed' <= want
  | None => ~ enough fuel s
  end.
Proof.
  intros Hi Hw. unfold anon_sweep.
  assert (Hstart : walking s (last (lru_anon s)) [] (length (lru_anon s) - 1)).
  { split; [constructor |]. destruct (lru_anon s) as [| r A _] eqn:E using rev_ind; [by intros y ?%not_elem_of_nil |]. rewrite last_snoc. exists A, [].
    split_and!; [done | rewrite length_app; cbn; lia | by intros y ?%not_elem_of_nil]. }
  pose proof (anon_pass_ok fuel fp want _ [] freed s _ Hi Hstart ltac:(cbn; lia)) as Hp.
  destruct (anon_pass fuel fp want (last (lru_anon s)) [] freed s) as [[[[rf batch] freed1] s1] |] eqn:E; cbn in Hp.
  - destruct Hp as (T1 & Hnd & Hin & U1 & F1 & F2). destruct rf; [split_and!; [done | done | lia | lia] |]. destruct batch as [| r batch]; [split_and!; [done | done | lia | lia] |].
    destruct (anon_batch_out_locked (r :: batch) s1) as [out s2] eqn:Eo. destruct (anon_batch_out_ok _ s1 out s2 (proj1 (proj1 T1)) Hnd Hin Eo) as (T2 & U2 & N2 & _).
    split_and!; [by apply (tidies_trans None s s1) | lia | lia | lia].
  - unfold enough. destruct (lru_anon s) eqn:El; [cbn in E; by apply anon_pass_none in E | cbn in *; lia].
Qed.

Lemma reclaim_anon_ok fuel want s : inv s ->
  match reclaim_anon_locked fuel want s with
  | Some (n, s') => tidies None s s' /\ in_use s' = in_use s - n /\ 0 <= n <= Z.max 0 want
  | None => ~ enough fuel s
  end.
Proof.
  intros Hi. unfold reclaim_anon_locked. destruct (want <=? 0) eqn:E0; b2p; [split_and!; [by apply tidies_refl | lia | lia | lia] |].
  pose proof (anon_sweep_ok fuel true want 0 s Hi ltac:(lia)) as H1s. destruct (anon_sweep fuel true want 0 s) as [[[[] freed] s1] |]; [| | done].
  - destruct H1s as (T1 & U1 & F1). split_and!; [done | lia | lia | lia].
  - destruct H1s as (T1 & U1 & F1). destruct (want <=? freed) eqn:Ew; [split_and!; [done | lia | lia | lia] |].
    pose proof (anon_sweep_ok fuel false want freed s1 (proj1 (proj1 T1)) ltac:(lia)) as H2s. destruct (anon_sweep fuel false want freed s1) as [[[rf freed2] s2] |].
    + destruct H2s as (T2 & U2 & F2). split_and!; [by apply (tidies_trans None s s1) | lia | lia | lia].
    + intros He. by apply H2s, (enough_calm fuel s s1), T1.
Qed.

Lemma reclaim_file_ok want dirty s n s' : inv s -> 0 <= want -> reclaim_file_locked want dirty s = (n, s') ->
  tidies None s s' /\ in_use s' = in_use s - n /\ 0 <= n <= want.
Proof.
  intros Hi Hw He. destruct (reclaim_file_from_ok (rev (lru_file s)) s want dirty 0 n s') as (T1 & _ & N1 & U1 & N2); try done.
  - apply NoDup_ListNoDup, NoDup_rev, NoDup_ListNoDup. apply Hi.
  - intros r Hr. by apply list_elem_of_In, in_rev, list_elem_of_In in Hr.
  - split_and!; [done | lia | done | by apply N2].
Qed.

(** Reclaim gives back the frames it says it does, and nobody can tell. *)
Lemma reclaim_ok fuel want ok s : inv s -> 0 <= want ->
  match reclaim_locked fuel want ok s with
  | Some (n, s') => tidies None s s' /\ in_use s' = in_use s - n /\ 0 <= n <= want
  | None => ~ enough fuel s
  end.
Proof.
  intros Hi Hw. unfold reclaim_locked. destruct (reclaim_file_locked want false s) as [n1 s1] eqn:E1.
  destruct (reclaim_file_ok want false s n1 s1 Hi Hw E1) as (T1 & U1 & N1).
  set (second := if n1 <? want then _ else _). assert (Hsec : exists n2 s2, second = (n2, s2) /\ tidies None s s2 /\ in_use s2 = in_use s - n2 /\ 0 <= n2 <= want).
  { unfold second. destruct (n1 <? want) eqn:Ew; [| exists n1, s1; done]. b2p. destruct (reclaim_file_locked (want - n1) true s1) as [n2 s2] eqn:E2.
    destruct (reclaim_file_ok (want - n1) true s1 n2 s2 (proj1 (proj1 T1)) ltac:(lia) E2) as (T2 & U2 & N2).
    exists (n1 + n2), s2. split_and!; [done | by apply (tidies_trans None s s1) | lia | lia | lia]. }
  destruct Hsec as (n2 & s2 & -> & T2 & U2 & N2). destruct (_ && _) eqn:Ec; [| done].
  pose proof (reclaim_anon_ok fuel (want - n2) s2 (proj1 (proj1 T2))) as Ha. destruct (reclaim_anon_locked fuel (want - n2) s2) as [[n3 s3] |].
  - destruct Ha as (T3 & U3 & N3). split_and!; [by apply (tidies_trans None s s2) | lia | lia | lia].
  - intros He. by apply Ha, (enough_calm fuel s s2), T2.
Qed.
End Reclaim.
