(* ===== verification/PageCacheAccess.v ===== *)
(** * The page cache: finding, filling and bringing back pages

    A page that is asked for is found, filled from the file or with zeroes, or
    read back from the store with its neighbours.  None of it changes a byte an
    object shows. *)

From S2P Require Import Prelude Bytes Vfs PageCache PageCacheInv PageCacheSteps PageCacheReclaim.

Section Access.
Context {Fr FS SW PT HP : Type} `{FrameLaws Fr} `{FileLaws FS} `{SlotLaws SW} `{TableLaws PT} `{HeapLaws HP} {FM : Firm}.

Local Abbreviation cache := (@cache Fr FS SW PT HP).
Implicit Types (s : cache).

(** ** Heap blocks *)

Lemma hg_block (T : gmap Z Z) R free (h : HP) n x h' : Hg T R free h -> kmalloc n h = (x, h') -> Hg T R free h'.
Proof.
  intros (Ho & Hn & Hf & own & O1 & O2 & O3) E. destruct (hp_alloc _ _ _ _ Ho E) as [Ho' Hu]. split_and!; [done | done | done |].
  exists own. split_and!; [| done | done]. intros a y Ha. specialize (O1 a y Ha). destruct Hu as [(_ & ->) | (_ & _ & ->)]; [done | by apply in_old].
Qed.

(** A block that is taken and given back leaves nothing. *)
Lemma hg_scratch (T : gmap Z Z) R free (h : HP) n x h' : Hg T R free h -> kmalloc n h = (x, h') -> x <> 0 -> Hg T R free (kfree x h').
Proof.
  intros (Ho & Hn & Hf & own & O1 & O2 & O3) E Hx. destruct (hp_alloc _ _ _ _ Ho E) as [Ho' [(? & _) | (_ & Hnew & Hu)]]; [done |].
  destruct (hp_free h' x Ho' ltac:(rewrite Hu; apply in_new)) as [Hk Hku]. split_and!; [done | done | done |].
  exists own. split_and!; [| done | done]. intros a y Ha. specialize (O1 a y Ha). rewrite Hku, Hu. apply in_minus; [by apply in_old | by intros ->].
Qed.

Lemma hg_chunk (T : gmap Z Z) R (h : HP) n x h' cells : Hg T R [] h -> kmalloc n h = (x, h') -> x <> 0 -> NoDup cells ->
  (forall r, r ∈ cells -> fst r = x) -> Hg T R cells h'.
Proof.
  intros (Ho & _ & _ & own & O1 & O2 & O3) E Hx Hnd Hc. destruct (hp_alloc _ _ _ _ Ho E) as [Ho' [(? & _) | (_ & Hnew & Hu)]]; [done |].
  assert (Hown : own !! x = None) by (destruct (own !! x) eqn:Ex; [by apply O1 in Ex | done]). split_and!; [done | done | |].
  - intros r Hr. destruct (R !! r) eqn:Er; [| done]. specialize (O2 r ltac:(right; eauto)). rewrite (Hc r Hr) in O2. congruence.
  - exists (<[x := Chunk]> own). split_and!.
    + intros a y [[<- <-] | [_ Ha]]%lookup_insert_Some; rewrite Hu; [apply in_new |]. by apply in_old, (O1 a y).
    + intros r [Hr | Hr]; [rewrite (Hc r Hr); apply lookup_insert_eq |]. rewrite lookup_insert_ne; [apply O2; by right |].
      intros ->. rewrite (O2 r ltac:(by right)) in Hown. done.
    + intros o t Ht. destruct (O3 o t Ht) as [? Hto]. split; [rewrite lookup_insert_ne by congruence; done |]. intros Hne. rewrite lookup_insert_ne; [by apply Hto |].
      intros ->. rewrite Hto in Hown by done. done.
Qed.

Lemma hg_take (T : gmap Z Z) R r free (h : HP) p : Hg T R (r :: free) h -> Hg T (<[r := p]> R) free h.
Proof.
  intros (Ho & [Hr Hn]%NoDup_cons & Hf & own & O1 & O2 & O3). split_and!; [done | done | |].
  - intros y Hy. rewrite lookup_insert_ne by (by intros <-). apply Hf, elem_of_cons. by right.
  - exists own. split_and!; [done | | done]. intros y Hy. apply O2. destruct (decide (y = r)) as [-> | Hne]; [left; apply elem_of_cons; by left |].
    rewrite lookup_insert_ne in Hy by done. destruct Hy; [left; apply elem_of_cons; by right | by right].
Qed.

Lemma hg_grow (T : gmap Z Z) R free (h : HP) n o t x h' : Hg T R free h -> T !! o = Some t -> kmalloc n h = (x, h') -> x <> 0 ->
  Hg (<[o := x]> T) R free (if t =? 0 then h' else kfree t h').
Proof.
  intros (Ho & Hn & Hf & own & O1 & O2 & O3) Ht E Hx. destruct (hp_alloc _ _ _ _ Ho E) as [Ho' [(? & _) | (_ & Hnew & Hu)]]; [done |].
  assert (Hown : own !! x = None) by (destruct (own !! x) eqn:Ex; [by apply O1 in Ex | done]). destruct (O3 o t Ht) as [Hobj Htab].
  set (own' := <[x := Table o]> (if t =? 0 then own else delete t own)).
  assert (Hkeep : forall a y, own !! a = Some y -> (t <> 0 -> y <> Table o) -> own' !! a = Some y).
  { intros a y Ha Hy. unfold own'. rewrite lookup_insert_ne by congruence. destruct (t =? 0) eqn:Et; [done |]. b2p. rewrite lookup_delete_ne; [done |].
    intros <-. rewrite (Htab Et) in Ha. injection Ha as <-. by apply Hy. }
  assert (Hfin : hp_ok (if t =? 0 then h' else kfree t h') /\ forall a y, own' !! a = Some y -> a ∈ hp_used (if t =? 0 then h' else kfree t h')).
  { unfold own'. destruct (t =? 0) eqn:Et; b2p.
    - split; [done |]. intros a y [[<- <-] | [_ Ha]]%lookup_insert_Some; rewrite Hu; [apply in_new |]. by apply in_old, (O1 a y).
    - pose proof (O1 t _ (Htab Et)) as Htu. destruct (hp_free h' t Ho' ltac:(rewrite Hu; by apply in_old)) as [Hk Hku]. split; [done |].
      intros a y [[<- <-] | [_ [Hne Ha]%lookup_delete_Some]]%lookup_insert_Some; rewrite Hku, Hu; apply in_minus.
      + apply in_new.
      + by intros ->.
      + by apply in_old, (O1 a y).
      + done. }
  split_and!; [apply Hfin | done | done |]. exists own'. split_and!; [apply Hfin | |].
  - intros r Hr. apply Hkeep; [by apply O2 | done].
  - intros o' t' [[<- <-] | [Hne Ht']]%lookup_insert_Some.
    + split; [by apply Hkeep |]. intros _. unfold own'. apply lookup_insert_eq.
    + destruct (O3 o' t' Ht') as [? Ht'']. split; [by apply Hkeep |]. intros H0t. apply Hkeep; [by apply Ht'' | congruence].
Qed.

Lemma hg_skip (T : gmap Z Z) R r free (h : HP) : Hg T R (r :: free) h -> Hg T R free h.
Proof.
  intros (Ho & [_ Hn]%NoDup_cons & Hf & own & O1 & O2 & O3). split_and!; [done | done | |].
  - intros y Hy. apply Hf, elem_of_cons. by right.
  - exists own. split_and!; [done | | done]. intros y [Hy | Hy]; apply O2; [left; apply elem_of_cons; by right | by right].
Qed.

Lemma tidies_heap x s l h : inv_but x s -> Hg (tables s) (recs s) l h -> tidies x s (set_rec_free (set_hp s h) l).
Proof. intros [] HG. split; [split; [constructor; assumption | by apply same_eq] | by apply calm_eq]. Qed.

Lemma chunk_cells (x n : Z) : NoDup (rev ((fun i : Z => (x, i)) <$> seqZ 0 n)) /\ forall r, r ∈ rev ((fun i : Z => (x, i)) <$> seqZ 0 n) -> fst r = x.
Proof.
  split.
  - apply NoDup_ListNoDup, NoDup_rev, NoDup_ListNoDup. apply NoDup_fmap; [intros a b E; congruence | apply NoDup_seqZ].
  - intros r Hr. apply list_elem_of_In, in_rev, list_elem_of_In in Hr. by apply list_elem_of_fmap in Hr as (i & -> & _).
Qed.

(** A record to use, on the free list until now. *)
Lemma record_alloc_ok x s res s' : inv_but x s -> record_alloc s = (res, s') ->
  exists l h, s' = set_rec_free (set_hp s h) l /\ tidies x s s'
    /\ match res with Some r => recs s !! r = None /\ forall p, Hg (tables s) (<[r := p]> (recs s)) l h | None => True end.
Proof.
  intros Hi He. unfold record_alloc in He.
  assert (Hgrown : exists l h, match rec_free s with
      | [] => let '(chunk, h) := kmalloc VMO_RECORD_CHUNK_BYTES (hp s) in
              if chunk =? 0 then set_hp s h else set_rec_free (set_hp s h) (rev ((fun i => (chunk, i)) <$> seqZ 0 (VMO_RECORD_CHUNK_BYTES / VMO_PAGE_BYTES)))
      | _ => s end = set_rec_free (set_hp s h) l /\ Hg (tables s) (recs s) l h).
  { pose proof (i_hg _ _ Hi) as HG. destruct (rec_free s) as [| r rest] eqn:E; [| exists (r :: rest), (hp s); split; [destruct s; cbn in *; by subst | done]].
    destruct (kmalloc _ (hp s)) as [chunk h] eqn:Ek. destruct (chunk =? 0) eqn:Ec; b2p.
    - exists [], h. split; [destruct s; cbn in *; by subst | by apply (hg_block _ _ _ _ _ _ _ HG Ek)].
    - eexists _, h. split; [done |]. destruct (chunk_cells chunk (VMO_RECORD_CHUNK_BYTES / VMO_PAGE_BYTES)). by apply (hg_chunk _ _ _ _ _ _ _ HG Ek). }
  destruct Hgrown as (l & h & Eg & HG). rewrite Eg in He. cbn in He. destruct l as [| r rest]; injection He as <- <-.
  - exists [], h. split_and!; [done | by apply tidies_heap | done].
  - exists rest, h. split_and!; [done | by apply tidies_heap, (hg_skip _ _ r) | | intros p; by apply hg_take]. apply HG, elem_of_cons. by left.
Qed.

(** ** What is read into a frame *)

Lemma rd_beyond l j : zlen l <= j -> rd l j = 0.
Proof. intros Hj. unfold rd. rewrite lookup_ge_None_2; [done | unfold zlen in Hj; lia]. Qed.

Lemma rd_blit_zero l j : zlen l <= PAGE_SIZE -> 0 <= j -> rd (blit zero_page 0 l) j = rd l j.
Proof.
  intros Hl Hj. destruct (decide (j < zlen l)) as [Hlt | Hge].
  - rewrite rd_blit_eq by (rewrite ?zero_page_length; lia). f_equal. lia.
  - rewrite rd_blit_ne by (rewrite ?zero_page_length; lia). rewrite rd_zero_page. symmetry. apply rd_beyond. lia.
Qed.

Lemma fetch_bytes s o ob index l : inv s -> objs s !! o = Some ob -> 0 <= index < PAGE_MAX -> fetch ob index false (fs s) = inl l ->
  zlen l = PAGE_SIZE /\ forall j, 0 <= j < PAGE_SIZE -> rd l j = backing s o (index * PAGE_SIZE + j).
Proof.
  intros Hi Ho Hx He. assert (Hk : faces s !! o = Some (face_of ob)) by (unfold faces; by rewrite lookup_fmap, Ho).
  unfold fetch in He. fold zero_page in He. unfold backing. rewrite (obj_lookup s o ob Ho). destruct (op_of (o_vn ob) file_read) as [read |] eqn:Er.
  2: { injection He as <-. split; [apply zero_page_length |]. intros j _. apply rd_zero_page. }
  destruct (op_of_file None s o ob file_read read Hi Ho Er) as [Ha Er'].
  assert (Hz : forall pos, o_size ob <= pos -> file_byte (o_vn ob) pos (fs s) = 0) by (intros pos; by apply (cl_zero _ _ _ _ _ (i_cl _ _ Hi) o (face_of ob))).
  rewrite u64_small in He by (unfold PAGE_MAX, PAGE_SIZE in *; lia). destruct (index * PAGE_SIZE <? o_size ob) eqn:Eo; b2p.
  - set (want := if PAGE_SIZE <? o_size ob - index * PAGE_SIZE then PAGE_SIZE else o_size ob - index * PAGE_SIZE) in *.
    assert (Hw : 0 < want <= PAGE_SIZE /\ (want = PAGE_SIZE \/ want = o_size ob - index * PAGE_SIZE)) by (unfold want, PAGE_SIZE in *; case_if; lia).
    destruct (read _ want (fs s)) as [got | e] eqn:Eg; [| done]. injection He as <-.
    destruct (byte_read (o_vn ob) read (index * PAGE_SIZE) want (fs s) got Er' ltac:(unfold PAGE_SIZE in *; lia) ltac:(lia) Eg) as [Hlen Hbyte]. split.
    { rewrite blit_length by (rewrite ?zero_page_length; lia). apply zero_page_length. }
    intros j Hj. rewrite rd_blit_zero by lia. destruct (decide (j < want)) as [Hlt | Hge]; [apply Hbyte; lia |]. rewrite rd_beyond, Hz by lia. done.
  - injection He as <-. split; [apply zero_page_length |]. intros j Hj. rewrite Hz by lia. apply rd_zero_page.
Qed.

(** ** A page comes *)

Lemma rehash_move s nb b : rehash s nb b = fold_left (move_to (fun r => Z.land (p_index (page s r)) (nb - 1))) (concat b) (replicate (Z.to_nat nb) []).
Proof. done. Qed.

Lemma grow_rest s o :
  let s' := index_grow_if_needed s o in
  recs s' = recs s /\ registry s' = registry s /\ ram s' = ram s /\ fs s' = fs s /\ sw s' = sw s /\ fr s' = fr s /\ pt s' = pt s
  /\ lru_file s' = lru_file s /\ lru_anon s' = lru_anon s /\ rec_free s' = rec_free s.
Proof.
  cbv zeta. unfold index_grow_if_needed. destruct (_ || _); [done |]. destruct (kmalloc _ _) as [nt h]. destruct (nt =? 0); [done |]. by destruct (o_table _ =? 0).
Qed.

Lemma tidies_grow x s o : inv_but x s -> is_Some (objs s !! o) -> tidies x s (index_grow_if_needed s o).
Proof.
  intros Hi [ob Ho]. destruct (grow_rest s o) as (E1 & E2 & E3 & E4 & E5 & E6 & E7 & E8 & E9 & E10). unfold index_grow_if_needed in *.
  rewrite (obj_lookup s o ob Ho) in *. destruct (_ || _); [by apply tidies_refl |]. set (nb := Z.of_nat (length (o_buckets ob))) in *.
  destruct (kmalloc _ (hp s)) as [nt h] eqn:Ek. destruct (nt =? 0) eqn:En.
  { pose proof (hg_block _ _ _ _ _ _ _ (i_hg _ _ Hi) Ek) as HG. pose proof (tidies_heap x s (rec_free s) h Hi HG) as Ht. by destruct s. }
  b2p. pose proof (hg_grow _ _ _ _ _ o (o_table ob) nt h (i_hg _ _ Hi) ltac:(unfold tables; by rewrite lookup_fmap, Ho) Ek En) as HG.
  set (s1 := if o_table ob =? 0 then set_hp s h else _) in *. assert (Eo : objs s1 = objs s /\ recs s1 = recs s) by (unfold s1; by destruct (_ =? 0)). destruct Eo as [Eo Er].
  assert (Hob : obj s1 o = ob) by (apply obj_lookup; by rewrite Eo). unfold upd_obj in *. rewrite Hob in *. set (ob' := with_table ob nt _) in *. set (s' := put_obj s1 o ob') in *.
  assert (Eobjs : objs s' = <[o := ob']> (objs s)) by (unfold s', put_obj; cbn; by rewrite Eo).
  assert (HF : faces s' = faces s) by (unfold faces; rewrite Eobjs; by apply (view_keep _ _ _ ob)).
  assert (HC : counts s' = counts s) by (unfold counts; rewrite Eobjs; by apply (view_keep _ _ _ ob)).
  assert (HT : tables s' = <[o := nt]> (tables s)) by (unfold tables; rewrite Eobjs; by rewrite fmap_insert).
  assert (HI : Ix (indexes s') (recs s')).
  { rewrite E1. unfold indexes. rewrite Eobjs, fmap_insert. unfold ob'. cbn [o_buckets with_table]. rewrite rehash_move.
    apply ix_rehash; [apply Hi | by rewrite lookup_fmap, Ho | intros r p Hp; unfold page; by rewrite Er, Hp |].
    intros r. unfold page. rewrite Er. destruct (recs s !! r) as [p |] eqn:Ep; [by apply (ix_index _ _ (i_ix _ _ Hi) r) | done]. }
  assert (Hhp : hp s' = if o_table ob =? 0 then h else kfree (o_table ob) h) by (unfold s', s1; by destruct (o_table ob =? 0)).
  split; [split |].
  - destruct Hi. split; rewrite ?HF, ?HC, ?HT, ?E1, ?E2, ?E3, ?E4, ?E5, ?E6, ?E8, ?E9, ?E10, ?Hhp; try done. by rewrite E1 in HI.
  - apply same_pages; [apply Hi | done | done | done | done | |].
    + intros r p Hp. exists p. rewrite E1. split_and!; [done | done | done |]. by apply bytes_of_place.
    + intros r. by rewrite E1.
  - by apply calm_eq.
Qed.

Lemma unlisted_new x s r : inv_but x s -> recs s !! r = None -> (r ∉ lru_file s) /\ (r ∉ lru_anon s).
Proof.
  intros Hi Hr. split; intros Hin.
  - destruct (lr_file _ _ _ _ (i_lr _ _ Hi) r Hin) as (p & _ & ? & _). congruence.
  - destruct (lr_anon _ _ _ _ (i_lr _ _ Hi) r Hin) as (p & _ & ? & _). congruence.
Qed.

Lemma pl_add K R (f : Fr) (w : SW) m r p : Pl K R f w m -> p_phys p <> 0 -> p_slot p = 0 -> p_phys p ∈ fr_held f ->
  (forall y t, R !! y = Some t -> p_phys t <> p_phys p) -> zlen (fbytes m (p_phys p)) = PAGE_SIZE -> Pl K (<[r := p]> R) f w m.
Proof.
  intros [F W A B C D] Hph Hsl Hin Hno Hlen. split; [done | done | | | |].
  - intros y t [[<- <-] | [_ Ht]]%lookup_insert_Some; [done | by apply (A y)].
  - intros y t [[<- <-] | [_ Ht]]%lookup_insert_Some; [done | by apply (B y)].
  - intros y y' t t' [[<- <-] | [_ Ht]]%lookup_insert_Some [[<- <-] | [_ Ht']]%lookup_insert_Some Hp E.
    + done.
    + by destruct (Hno y' t' Ht').
    + by destruct (Hno y t Ht).
    + by apply (C y y' t t').
  - intros y y' t t' [[<- <-] | [_ Ht]]%lookup_insert_Some [[<- <-] | [_ Ht']]%lookup_insert_Some Hp Hp' E; [done | done | done | by apply (D y y' t t')].
Qed.

Lemma cl_add K R (f : FS) m r p : Cl None K R f m ->
  (forall k j, K !! p_owner p = Some k -> k_anon k = false -> 0 <= j < PAGE_SIZE -> k_size k <= p_index p * PAGE_SIZE + j -> rd (fbytes m (p_phys p)) j = 0) ->
  Cl (Some r) K (<[r := p]> R) f m.
Proof.
  intros [A B C] Ht. split; [| | done]; intros y t k j [[<- <-] | [Hne Hy]]%lookup_insert_Some.
  - done.
  - intros. by apply (A y).
  - intros. by apply (Ht k).
  - by apply (B y).
Qed.

(** The record of a new page, in the chain and in the counts. *)
Definition fresh (o index phys : Z) : vmo_page := mkPage index phys 0 false 0 o.

Lemma enter_linked s o ob index phys r l h :
  inv s -> objs s !! o = Some ob -> 0 <= index < PAGE_MAX -> page_find s o index = None -> spare s phys -> zlen (fbytes (ram s) phys) = PAGE_SIZE ->
  recs s !! r = None -> (forall p, Hg (tables s) (<[r := p]> (recs s)) l h) ->
  (forall j, o_anon ob = false -> 0 <= j < PAGE_SIZE -> o_size ob <= index * PAGE_SIZE + j -> rd (fbytes (ram s) phys) j = 0) ->
  let b := o_buckets ob in
  let i := bucket_of b index in
  let ob' := with_counts (with_buckets ob (chain_put b i (r :: chain b i))) (o_resident ob + 1) (o_dirty_pages ob) (o_swapped ob) in
  let s' := put_obj (put_page (set_rec_free (set_hp s h) l) r (fresh o index phys)) o ob' in
  inv_but (Some r) s' /\ faces s' = faces s.
Proof.
  intros Hi Ho Hx Hfind (Hin & Hpos & Hno) Hlen Hr HG Htail b i ob' s'.
  assert (HF : faces s' = faces s) by by apply (view_keep _ _ _ ob). assert (HT : tables s' = tables s) by by apply (view_keep _ _ _ ob).
  assert (HB : indexes s' = <[o := o_buckets ob']> (indexes s)) by (unfold indexes; by rewrite <- fmap_insert).
  assert (HC : counts s' = <[o := add3 (counts_of ob) (share o (fresh o index phys))]> (counts s)).
  { unfold counts. change (objs s') with (<[o := ob']> (objs s)). rewrite fmap_insert. f_equal. unfold ob', counts_of, share, resident_of, dirty_of, out_of. cbn. rewrite Z.eqb_refl.
    destruct (phys =? 0) eqn:E; b2p; [lia |]. cbn. f_equal; [f_equal |]; lia. }
  split; [| done]. split; cbn [recs registry fr sw ram fs lru_file lru_anon rec_free hp s' put_obj set_objs put_page set_recs set_rec_free set_hp]; fold s'; rewrite ?HF, ?HB, ?HT, ?HC.
  - apply (ix_add _ _ o b r (fresh o index phys)); [apply Hi | unfold indexes; by rewrite lookup_fmap, Ho | done | done | done | done |].
    intros r' p' Hp' Eo. by apply (proj1 (page_find_none s o index (i_ix _ _ Hi) ltac:(eauto)) Hfind r' p').
  - apply ct_add; [apply Hi | unfold counts; by rewrite lookup_fmap, Ho | done | done].
  - apply Hi.
  - apply pl_add; [apply Hi | cbn; lia | done | done | intros y t Ht; by apply (Hno y) | done].
  - apply cl_add; [apply Hi |]. cbn. intros k j Hk Ha Hj Hs. destruct (faces_lookup s _ _ Hk) as (ob1 & Ho1 & ->). simplify_eq. by apply Htail.
  - destruct (unlisted_new None s r Hi Hr). by apply lr_unlisted; [apply Hi | |].
  - apply HG.
Qed.

(** Once the bytes of the new page are those of the device nothing is waived. *)
Lemma inv_settle s r p :
  inv_but (Some r) s -> recs s !! r = Some p ->
  (forall k j, faces s !! p_owner p = Some k -> k_anon k = false -> p_dirty p = false -> 0 <= j < PAGE_SIZE ->
     firm (k_vn k) (p_index p * PAGE_SIZE + j) = true -> rd (fbytes (ram s) (p_phys p)) j = file_byte (k_vn k) (p_index p * PAGE_SIZE + j) (fs s)) ->
  inv s.
Proof.
  intros [A B C D [E1 E2 E3] F G] Hp Hb. split; try done. split; [| done | done]. intros y t k j Ht Hk Ha Hd _ Hj. destruct (decide (y = r)) as [-> | Hne].
  - assert (t = p) as -> by congruence. by apply (Hb k).
  - apply (E1 y); try done. congruence.
Qed.

Lemma inv_weaken x s : inv s -> inv_but x s.
Proof. intros [A B C D [E1 E2 E3] F G]. split; try done. split; [| done | done]. intros y t k j Ht Hk Ha Hd _. by apply (E1 y). Qed.

Lemma touch_rest s r :
  let s' := lru_touch s r in
  objs s' = objs s /\ recs s' = recs s /\ registry s' = registry s /\ ram s' = ram s /\ fs s' = fs s /\ sw s' = sw s /\ pt s' = pt s /\ fr s' = fr s
  /\ lru_anon s' = (if on_anon s r then r :: without r (lru_anon s) else lru_anon s).
Proof. unfold lru_touch. by destruct (on_anon s r). Qed.

Lemma page_enter_ok s o ob index phys r l h :
  inv s -> objs s !! o = Some ob -> 0 <= index < PAGE_MAX -> page_find s o index = None -> spare s phys -> zlen (fbytes (ram s) phys) = PAGE_SIZE ->
  recs s !! r = None -> (forall p, Hg (tables s) (<[r := p]> (recs s)) l h) ->
  (forall j, o_anon ob = false -> 0 <= j < PAGE_SIZE -> o_size ob <= index * PAGE_SIZE + j -> rd (fbytes (ram s) phys) j = 0) ->
  let s' := page_enter (set_rec_free (set_hp s h) l) o index phys r in
  inv_but (Some r) s' /\ recs s' = <[r := fresh o index phys]> (recs s) /\ faces s' = faces s /\ registry s' = registry s
  /\ ram s' = ram s /\ fs s' = fs s /\ sw s' = sw s /\ pt s' = pt s /\ (o_anon ob = false -> lru_anon s' = lru_anon s).
Proof.
  intros Hi Ho Hx Hfind Hsp Hlen Hr HG Htail. cbv zeta. destruct (enter_linked s o ob index phys r l h Hi Ho Hx Hfind Hsp Hlen Hr HG Htail) as [Hi1 HF1].
  unfold page_enter, upd_obj. rewrite (obj_lookup (put_page (set_rec_free (set_hp s h) l) r (mkPage index phys 0 false 0 o)) o ob Ho). fold (fresh o index phys).
  set (s1 := put_obj _ o _) in *. assert (Hp1 : recs s1 !! r = Some (fresh o index phys)) by (cbn; apply lookup_insert_eq).
  destruct (touch_rest s1 r) as (E1 & E2 & E3 & E4 & E5 & E6 & E7 & E8 & E9). destruct Hsp as (_ & Hpos & _).
  destruct (keeps_touch (Some r) s1 r (fresh o index phys) Hi1 Hp1 ltac:(cbn; lia)) as [Hi2 S2]. set (s2 := lru_touch s1 r) in *.
  destruct (tidies_grow (Some r) s2 o Hi2) as [[Hi3 S3] _]; [rewrite E1; cbn; rewrite lookup_insert_eq; eauto |].
  destruct (grow_rest s2 o) as (G1 & G2 & G3 & G4 & G5 & G6 & G7 & G8 & G9 & G10).
  split_and!; [done | by rewrite G1, E2 | by rewrite (sm_faces _ _ S3), (sm_faces _ _ S2) | by rewrite G2, E3 | by rewrite G3, E4 | by rewrite G4, E5 | by rewrite G5, E6 | by rewrite G7, E7 |].
  intros Ha. rewrite G9, E9. assert (Hk : faces s1 !! o = Some (face_of ob)) by (rewrite HF1; unfold faces; by rewrite lookup_fmap, Ho).
  rewrite (on_anon_face s1 r _ _ Hp1 Hk). cbn. by rewrite Ha.
Qed.

(** ** A page to work on *)

(** Nothing shows anywhere but in one page. *)
Record same_but (o index : Z) s s' : Prop := {
  sb_faces : faces s' = faces s;
  sb_registry : registry s' = registry s;
  sb_content o' pos : is_Some (objs s !! o') -> 0 <= pos -> steady s o' pos -> o' <> o \/ pos / PAGE_SIZE <> index -> content s' o' pos = content s o' pos;
  sb_device vn pos : 0 <= pos -> uncached s vn -> file_byte vn pos (fs s') = file_byte vn pos (fs s);
}.

Lemma same_same_but o index s s' : same s s' -> same_but o index s s'.
Proof. intros [A B C D]. split; auto. Qed.

Lemma same_but_trans o index s1 s2 s3 : same s1 s2 -> same_but o index s2 s3 -> same_but o index s1 s3.
Proof.
  intros [F1 R1 C1 D1] [F2 R2 C2 D2]. split; [congruence | congruence | |].
  - intros o' pos Ho Hp Hst Hne. rewrite C2, C1; [done | done | done | done | | done | by apply (steady_faces s1) | done]. by apply (faces_is_Some s1 s2 o' F1).
  - intros vn pos Hp Hu. rewrite D2, D1; [done | done | done | done |]. unfold uncached. by rewrite F1.
Qed.

Definition resident s (o index : Z) (r : rid) : Prop := exists p, recs s !! r = Some p /\ p_owner p = o /\ p_index p = index /\ p_phys p <> 0.

(** The page is in a frame; unless its old bytes are not wanted they are there. *)
Record have s s' (o index : Z) (wanted : Prop) (r : rid) : Prop := {
  hv_inv : inv_but (Some r) s';
  hv_page : resident s' o index r;
  hv_same : same_but o index s s';
  hv_wanted : wanted -> inv s' /\ same s s';
}.

(** A new page next to the others. *)
Lemma same_but_new s s' o index r p :
  Ix (indexes s) (recs s) -> Ix (indexes s') (recs s') -> faces s' = faces s -> registry s' = registry s -> fs s' = fs s -> recs s !! r = None ->
  recs s' = <[r := p]> (recs s) -> p_owner p = o -> p_index p = index -> (forall y t, recs s !! y = Some t -> bytes_of s' t = bytes_of s t) ->
  same_but o index s s'
  /\ ((forall j, 0 <= j < PAGE_SIZE -> steady s o (index * PAGE_SIZE + j) -> rd (bytes_of s' p) j = backing s o (index * PAGE_SIZE + j)) -> same s s').
Proof.
  intros HI HI' HF HR Hfs Hr ER Eo Ei Hb. split.
  - split; [done | done | | by intros vn pos _ _; rewrite Hfs]. intros o' pos Ho Hpos _ Hne. assert (Ho' : is_Some (objs s' !! o')) by by apply (faces_is_Some s s' o' HF).
    destruct (page_find s o' (pos / PAGE_SIZE)) as [y |] eqn:E.
    + apply (page_find_some s o' _ y HI Ho) in E as (t & Ht & <- & Et). rewrite (content_page s y t pos HI Ht Et), (content_page s' y t pos HI'), (Hb y t Ht); [done | | done].
      rewrite ER, lookup_insert_ne by congruence. done.
    + assert (E' : page_find s' o' (pos / PAGE_SIZE) = None).
      { apply (page_find_none s' o' _ HI' Ho'). intros y t Ht Eto Eti. rewrite ER in Ht. apply lookup_insert_Some in Ht as [[<- <-] | [_ Ht]]; [destruct Hne; congruence |].
        by apply (proj1 (page_find_none s o' _ HI Ho) E y t). }
      unfold content. rewrite E, E'. by apply backing_faces.
  - intros Hback. apply same_intro; try done.
    + intros y t Ht. left. exists y, t. rewrite ER, lookup_insert_ne by congruence. eauto.
    + intros y t Ht. rewrite ER in Ht. apply lookup_insert_Some in Ht as [[<- <-] | [_ Ht]]; [right | left; eauto 6]. by rewrite Eo, Ei.
    + intros o' pos _ _ _ _. by apply backing_faces.
    + intros vn pos _ _. by rewrite Hfs.
Qed.

Lemma tidies_alloc x s phys s' : inv_but x s -> alloc_frame s = (phys, s') -> tidies x s s' /\ (phys <> 0 -> spare s' phys).
Proof.
  intros Hi He. destruct (keeps_alloc x s phys s' Hi He) as (Hk & Hr & Hs). split; [split; [done |] | done].
  unfold alloc_frame in He. destruct (pmm_alloc_page _). injection He as <- <-. by apply calm_eq.
Qed.

Lemma frame_or_reclaim_ok fuel s : inv s ->
  match frame_or_reclaim fuel s with Some (phys, s') => tidies None s s' /\ (phys <> 0 -> spare s' phys) | None => ~ enough fuel s end.
Proof.
  intros Hi. unfold frame_or_reclaim.
  set (first := if pmm_free_pages (fr s) <? VMO_FAULT_RESERVE_PAGES then _ else _). assert (Hf : match first with Some s1 => tidies None s s1 | None => ~ enough fuel s end).
  { unfold first. destruct (_ <? _); [| by apply tidies_refl]. pose proof (reclaim_ok fuel VMO_FAULT_RECLAIM_BATCH true s Hi ltac:(done)) as Hr.
    destruct (reclaim_locked _ _ _ s) as [[n s1] |]; cbn; [apply Hr | done]. }
  destruct first as [s1 |]; [| done]. destruct (alloc_frame s1) as [phys s2] eqn:E. destruct (tidies_alloc None s1 phys s2 (proj1 (proj1 Hf)) E) as [T2 Hs2].
  pose proof (tidies_trans None s s1 s2 Hf (fun _ => T2)) as T12. destruct (negb (phys =? 0)); [done |].
  pose proof (reclaim_ok fuel VMO_FAULT_RECLAIM_BATCH true s2 (proj1 (proj1 T12)) ltac:(done)) as Hr. destruct (reclaim_locked _ _ _ s2) as [[n s3] |].
  - destruct Hr as [T3 _]. destruct (alloc_frame s3) as [phys' s4] eqn:E4. destruct (tidies_alloc None s3 phys' s4 (proj1 (proj1 T3)) E4) as [T4 Hs4].
    split; [| done]. apply (tidies_trans None s s2 s4 T12). intros _. by apply (tidies_trans None s2 s3).
  - intros He. by apply Hr, (enough_calm fuel s s2), T12.
Qed.

Lemma tidies_free_frame x s phys : inv_but x s -> spare s phys -> tidies x s (free_frame phys s).
Proof. intros Hi Hs. split; [by apply keeps_free_frame | by apply calm_eq]. Qed.

Lemma tidies_put_spare x s phys l : inv_but x s -> spare s phys -> tidies x s (put_frame s phys l).
Proof. intros Hi Hs. split; [by apply keeps_put_spare | by apply calm_eq]. Qed.

(** What filling or getting a page leaves: a failure changes nothing that
    shows; the fuel still suffices when the object is a file. *)
Definition outcome (fuel : nat) s (o : Z) (ob : vm_object) (index : Z) (wanted : Prop) (res : option (option rid * cache)) : Prop :=
  match res with
  | None => ~ enough fuel s
  | Some (None, s') => tidies None s s'
  | Some (Some r, s') => have s s' o index wanted r /\ (o_anon ob = false -> enough fuel s -> enough fuel s')
  end.

Lemma no_page_calm s s' o index : inv s -> inv s' -> faces s' = faces s -> is_Some (objs s !! o) -> calm s s' -> page_find s o index = None -> page_find s' o index = None.
Proof.
  intros Hi Hi' HF Ho [_ _ _ Hsub _ _] Hn. apply (page_find_none s' o index (i_ix _ _ Hi')); [by apply (faces_is_Some s s' o HF) |].
  intros r p' Hp' Eo Ei. destruct (Hsub r p' Hp') as (p & Hp & E1 & E2). apply (proj1 (page_find_none s o index (i_ix _ _ Hi) Ho) Hn r p Hp); congruence.
Qed.

(** The object as the lock finds it again. *)
Lemma object_same s s' o ob : faces s' = faces s -> objs s !! o = Some ob -> exists ob', objs s' !! o = Some ob' /\ face_of ob' = face_of ob.
Proof.
  intros HF Ho. assert (Hk : faces s' !! o = Some (face_of ob)) by (rewrite HF; unfold faces; by rewrite lookup_fmap, Ho).
  destruct (faces_lookup s' _ _ Hk) as (ob' & ? & E). eauto.
Qed.

Lemma filled_bytes s o ob index zo l :
  inv s -> objs s !! o = Some ob -> 0 <= index < PAGE_MAX -> fetch ob index zo (fs s) = inl l ->
  zlen l = PAGE_SIZE
  /\ (forall j, o_anon ob = false -> 0 <= j < PAGE_SIZE -> o_size ob <= index * PAGE_SIZE + j -> rd l j = 0)
  /\ (zo = false \/ (forall j, 0 <= j < PAGE_SIZE -> steady s o (index * PAGE_SIZE + j) -> backing s o (index * PAGE_SIZE + j) = 0) ->
       forall j, 0 <= j < PAGE_SIZE -> steady s o (index * PAGE_SIZE + j) -> rd l j = backing s o (index * PAGE_SIZE + j)).
Proof.
  intros Hi Ho Hx He. destruct zo.
  - injection He as <-. split_and!; [apply zero_page_length | intros; apply rd_zero_page |]. intros [? | Hz] j Hj Hst; [done |]. rewrite Hz by done. apply rd_zero_page.
  - destruct (fetch_bytes s o ob index l Hi Ho Hx He) as [Hlen Hb]. split_and!; [done | | by intros _ j Hj _; apply Hb]. intros j Ha Hj Hs. rewrite (Hb j Hj). unfold backing.
    rewrite (obj_lookup s o ob Ho). destruct (op_of _ _); [| done]. apply (cl_zero _ _ _ _ _ (i_cl _ _ Hi) o (face_of ob)); [unfold faces; by rewrite lookup_fmap, Ho | done | done].
Qed.

(** Entering a page read into a spare frame. *)
Lemma have_enter s o ob index phys bytes r l h (wanted : Prop) :
  let s1 := put_frame s phys bytes in
  inv s -> objs s !! o = Some ob -> 0 <= index < PAGE_MAX -> page_find s o index = None -> spare s phys -> zlen bytes = PAGE_SIZE ->
  recs s !! r = None -> (forall p, Hg (tables s) (<[r := p]> (recs s)) l h) ->
  (forall j, o_anon ob = false -> 0 <= j < PAGE_SIZE -> o_size ob <= index * PAGE_SIZE + j -> rd bytes j = 0) ->
  (wanted -> forall j, 0 <= j < PAGE_SIZE -> steady s o (index * PAGE_SIZE + j) -> rd bytes j = backing s o (index * PAGE_SIZE + j)) ->
  let s' := page_enter (set_rec_free (set_hp s1 h) l) o index phys r in
  have s s' o index wanted r /\ (o_anon ob = false -> lru_anon s' = lru_anon s) /\ pt s' = pt s.
Proof.
  intros s1 Hi Ho Hx Hfind Hsp Hlen Hr HG Htail Hw s'. destruct (tidies_put_spare None s phys bytes Hi Hsp) as [[Hi1 S1] C1].
  assert (Hf1 : page_find s1 o index = None) by (apply (no_page_calm s s1); try done; eauto).
  assert (Hb1 : fbytes (ram s1) phys = bytes) by apply fbytes_insert_eq.
  destruct (page_enter_ok s1 o ob index phys r l h) as (Hi2 & E1 & E2 & E3 & E4 & E5 & E6 & E7 & E8); try done; [by rewrite Hb1 | by rewrite Hb1 |]. fold s' in Hi2, E1, E2, E3, E4, E5, E6, E7, E8.
  assert (Hph : phys <> 0) by (destruct Hsp; lia).
  assert (Hbp : bytes_of s' (fresh o index phys) = bytes) by (unfold bytes_of; cbn [p_phys fresh]; apply Z.eqb_neq in Hph; by rewrite Hph, E4, Hb1).
  destruct (same_but_new s1 s' o index r (fresh o index phys)) as [Sb Sa]; try done; [apply Hi1 | apply Hi2 | intros y t _; unfold bytes_of; by rewrite E4, E6 |].
  assert (Hp2 : recs s' !! r = Some (fresh o index phys)) by (rewrite E1; apply lookup_insert_eq).
  split_and!; [| done | done]. split; [done | by exists (fresh o index phys) | by apply (same_but_trans o index s s1) |].
  intros Hwt. specialize (Hw Hwt). split.
  - apply (inv_settle s' r _ Hi2 Hp2). cbn [p_owner p_index p_phys p_dirty fresh]. intros k j Hk Ha _ Hj Hfm.
    rewrite E2 in Hk. change (faces s !! o = Some k) in Hk. destruct (faces_lookup s _ _ Hk) as (ob1 & Ho1 & ->). rewrite E4, Hb1, E5, (Hw j Hj) by (intros k' Hk'; by simplify_eq). unfold backing. rewrite (obj_lookup s o ob1 Ho1).
    destruct (kd_file _ _ (i_kd _ _ Hi) _ _ Hk Ha) as [rdf Hrd]. cbn in Hrd. by rewrite Hrd.
  - apply (same_trans s s1 s' S1), Sa. intros j Hj Hst. rewrite Hbp, (Hw j Hj Hst). symmetry. by apply backing_faces; [apply S1 |].
Qed.

Lemma have_after s s1 s' o index (wanted wanted' : Prop) r : same s s1 -> (wanted -> wanted') -> have s1 s' o index wanted' r -> have s s' o index wanted r.
Proof.
  intros S1 Hw [A B C D]. split; [done | done | by apply (same_but_trans o index s s1) |]. intros Hwt. destruct (D (Hw Hwt)) as [? ?].
  split; [done | by apply (same_trans s s1)].
Qed.

Lemma page_fill_ok fuel s o ob index zo :
  inv s -> objs s !! o = Some ob -> 0 <= index < PAGE_MAX -> page_find s o index = None ->
  outcome fuel s o ob index (zo = false \/ forall j, 0 <= j < PAGE_SIZE -> steady s o (index * PAGE_SIZE + j) -> backing s o (index * PAGE_SIZE + j) = 0) (page_fill fuel s o index zo).
Proof.
  intros Hi Ho Hx Hfind. unfold page_fill. pose proof (frame_or_reclaim_ok fuel s Hi) as Hfr. destruct (frame_or_reclaim fuel s) as [[phys s1] |]; [| done].
  destruct Hfr as [T1 Hsp]. destruct (phys =? 0) eqn:Eph; b2p; [done |]. specialize (Hsp Eph). pose proof (proj1 (proj1 T1)) as Hi1. pose proof (proj2 (proj1 T1)) as S1.
  destruct (object_same s s1 o ob (sm_faces _ _ S1) Ho) as (ob1 & Ho1 & Ef). rewrite (obj_lookup s1 o ob1 Ho1). fold zero_page.
  assert (Hfail : tidies None s1 (free_frame phys (put_frame s1 phys zero_page))).
  { apply (tidies_trans None s1 (put_frame s1 phys zero_page)); [by apply tidies_put_spare |]. intros Hi2. by apply tidies_free_frame. }
  destruct (fetch ob1 index zo (fs s1)) as [bytes | e] eqn:Efe; [| by apply (tidies_trans None s s1)].
  destruct (filled_bytes s1 o ob1 index zo bytes Hi1 Ho1 Hx Efe) as (Hlen & Htail & Hwant).
  pose proof (tidies_put_spare None s1 phys bytes Hi1 Hsp) as T2. set (s2 := put_frame s1 phys bytes) in *.
  destruct (record_alloc s2) as [res s3] eqn:Er. destruct (record_alloc_ok None s2 res s3 (proj1 (proj1 T2)) Er) as (l & h & -> & T3 & Hres).
  destruct res as [r |].
  - destruct Hres as [Hr HG]. assert (Hf1 : page_find s1 o index = None) by (apply (no_page_calm s s1); [done | done | apply S1 | eauto | apply T1 | done]).
    destruct (have_enter s1 o ob1 index phys bytes r l h _ Hi1 Ho1 Hx Hf1 Hsp Hlen Hr HG Htail Hwant) as (Hh & Hla & Hpt). split.
    + apply (have_after s s1 _ o index _ _ r S1) with (2 := Hh). intros [? | Hz]; [by left | right]. intros j Hj Hst. apply (steady_faces s1 s) in Hst; [| by rewrite (sm_faces _ _ S1)]. rewrite <- (Hz j Hj Hst).
      destruct (page_pos index j Hj) as [Ed _]. pose proof (sm_content _ _ S1 o (index * PAGE_SIZE + j) ltac:(eauto) ltac:(unfold PAGE_SIZE in *; lia) Hst) as Hc.
      unfold content in Hc. by rewrite Ed, Hfind, Hf1 in Hc.
    + intros Ha He. pose proof (enough_calm fuel s s1 He (proj2 T1)) as He1. unfold enough in *. unfold s2. rewrite Hla, Hpt; [done |]. change (k_anon (face_of ob1) = false). by rewrite Ef.
  - apply (tidies_trans None s s1 _ T1). intros _. apply (tidies_trans None s1 s2 _ T2). intros _. apply (tidies_trans None s2 _ _ T3). intros Hi3. by apply tidies_free_frame.
Qed.
End Access.
