(* ===== verification/PageCacheGet.v ===== *)
(** * The page cache: pages that come back from the store

    A page out on the store is read into a fresh frame, with those of its
    neighbours that lie next to it there; [page_get] as a whole. *)

From S2P Require Import Prelude Bytes Vfs PageCache PageCacheInv PageCacheSteps PageCacheReclaim PageCacheAccess.

Section Get.
Context {Fr FS SW PT HP : Type} `{FrameLaws Fr} `{FileLaws FS} `{SlotLaws SW} `{TableLaws PT} `{HeapLaws HP} {FM : Firm}.

Local Abbreviation cache := (@cache Fr FS SW PT HP).
Implicit Types (s : cache) (K : gmap Z face) (R : gmap rid vmo_page) (m : gmap Z (list Z)).

(** ** One page *)

Lemma pl_back_set K R (f : Fr) (w : SW) m r p phys :
  Pl K R f w m -> R !! r = Some p -> p_phys p = 0 -> phys <> 0 -> phys ∈ fr_held f -> (forall y t, R !! y = Some t -> p_phys t <> phys) ->
  zlen (fbytes m phys) = PAGE_SIZE -> Pl K (<[r := with_place p phys 0]> R) f (swap_free (p_slot p) w) m.
Proof.
  intros HQ Hr Hp0 Hne Hin Hno Hlen. pose proof (pl_slot _ _ _ _ _ r p HQ Hr Hp0) as Hheld. destruct HQ as [F W A B C D]. destruct (sw_free (p_slot p) w W Hheld) as [Hw Hd]. split; [done | done | | | |].
  - intros y t [[<- <-] | [_ Ht]]%lookup_insert_Some Htp; [done | by apply (A y)].
  - intros y t [[<- <-] | [Hy Ht]]%lookup_insert_Some Htp; [done |]. destruct (B y t Ht Htp) as (? & ? & l & Hl & ?). split_and!; [done | done |].
    exists l. rewrite Hd, lookup_delete_ne; [done |]. intros E. apply Hy. by apply (D r y p t).
  - intros y y' t t' [[<- <-] | [_ Ht]]%lookup_insert_Some [[<- <-] | [_ Ht']]%lookup_insert_Some Htp E; cbn in *.
    + done.
    + by destruct (Hno y' t' Ht').
    + by destruct (Hno y t Ht).
    + by apply (C y y' t t').
  - intros y y' t t' [[<- <-] | [_ Ht]]%lookup_insert_Some [[<- <-] | [_ Ht']]%lookup_insert_Some Htp Htp' E; cbn in *; [done | done | done | by apply (D y y' t t')].
Qed.

Lemma keeps_came_back s r p phys l :
  inv s -> recs s !! r = Some p -> p_phys p = 0 -> spare s phys -> sw_data (sw s) !! p_slot p = Some l -> fbytes (ram s) phys = l ->
  let s' := came_back s (p_owner p) r phys in
  keeps None s s' /\ recs s' = <[r := with_place p phys 0]> (recs s) /\ ram s' = ram s /\ fr s' = fr s /\ sw_data (sw s') = delete (p_slot p) (sw_data (sw s)).
Proof.
  intros Hi Hp Hp0 (Hin & Hpos & Hno) Hd Hb. destruct (pl_out _ _ _ _ _ (i_pl _ _ Hi) r p Hp Hp0) as (Hsl & (k & Hk & Ha) & l' & Hl' & Hlen).
  assert (l' = l) as -> by congruence. destruct (sw_free (p_slot p) (sw s) (pl_sw _ _ _ _ _ (i_pl _ _ Hi)) (mk_is_Some _ _ Hd)) as [_ Hsd].
  cbv zeta. unfold came_back. rewrite (page_lookup s r p Hp). set (q := with_place p phys 0). set (s1 := upd_obj _ _ _).
  destruct (touch_rest s1 r) as (E1 & E2 & E3 & E4 & E5 & E6 & E7 & E8 & _). rewrite E2, E4, E6, E8.
  assert (Hun : (r ∉ lru_file s) /\ (r ∉ lru_anon s)).
  { split; intros Hl1; [destruct (lr_file _ _ _ _ (i_lr _ _ Hi) r Hl1) as (p1 & _ & ? & _ & _ & ?) | destruct (lr_anon _ _ _ _ (i_lr _ _ Hi) r Hl1) as (p1 & _ & ? & _ & _ & ?)]; congruence. }
  assert (Hrep : replaced s s1 r p q).
  { split; try done. intros ob Ho. unfold s1, upd_obj. rewrite (obj_lookup (put_page (set_sw s (swap_free (p_slot p) (sw s))) r q) _ ob Ho). eexists. split_and!; [reflexivity | done | done | done |].
    destruct (object_counts None s _ ob Hi Ho) as (_ & _ & Es). assert (Hsw : 0 < o_swapped ob) by (rewrite Es; by apply (counted_has (p_owner p) (recs s) r p Hp)).
    unfold counts_of, share, resident_of, dirty_of, out_of. cbn. rewrite Z.eqb_refl, Hp0, dec_pos by done. destruct (phys =? 0) eqn:E; b2p; [lia |]. cbn. f_equal; [f_equal |]; lia. }
  split_and!; [| done | done | done | done].
  assert (Hk1 : keeps None s s1).
  { split.
    - apply (replaced_inv None None s s1 r p q); [done | done | | |].
      + apply pl_back_set; [apply Hi | done | done | lia | done | done | change (zlen (fbytes (ram s) phys) = PAGE_SIZE); by rewrite Hb].
      + by apply (cl_anon_set _ _ _ _ _ r p q k); [apply Hi | | |].
      + change (Lr (faces s) (<[r := q]> (recs s)) (lru_file s) (lru_anon s)). apply lr_unlisted; [apply Hi | apply Hun | apply Hun].
    - apply (replaced_same None s s1 r p q); [done | done | done | |].
      + unfold bytes_of. rewrite Hp0, Hd. change (p_phys q) with phys. destruct (phys =? 0) eqn:E; b2p; [lia |]. done.
      + intros y t Ht Hne. unfold bytes_of. destruct (p_phys t =? 0) eqn:E; [| done]. b2p. change (sw s1) with (swap_free (p_slot p) (sw s)).
        rewrite Hsd, lookup_delete_ne; [done |]. intros Es. apply Hne. symmetry. by apply (pl_sinj _ _ _ _ _ (i_pl _ _ Hi) r y p t). }
  apply (kept_trans None s s1 _ Hk1). intros Hi1. apply (keeps_touch None s1 r q Hi1); [apply lookup_insert_eq | cbn; lia].
Qed.

(** ** Frames for a run *)

Lemma keeps_fr x s f : inv_but x s -> fr_ok f -> (forall r p, recs s !! r = Some p -> p_phys p <> 0 -> p_phys p ∈ fr_held f) -> keeps x s (set_fr s f).
Proof.
  intros Hi Hf Hh. split; [| by apply same_eq; [apply Hi | ..]]. destruct Hi as [A B C [D1 D2 D3 D4 D5 D6] E F G]. split; try done. split; try done.
  intros r p Hp Hph. destruct (D3 r p Hp Hph) as (? & ? & ?). split_and!; [by apply (Hh r) | done | done].
Qed.

Lemma free_all_ok l : forall f : Fr, fr_ok f -> NoDup l -> (forall a, a ∈ l -> a ∈ fr_held f) ->
  fr_ok (fold_left (fun f x => pmm_free_page x f) l f) /\ forall a, a ∈ fr_held f -> a ∉ l -> a ∈ fr_held (fold_left (fun f x => pmm_free_page x f) l f).
Proof.
  induction l as [| x l IH]; intros f Hf Hnd Hin; cbn [fold_left]; [done |]. apply NoDup_cons in Hnd as [Hx Hnd].
  destruct (fr_free f x Hf ltac:(apply Hin, elem_of_cons; by left)) as [Hf1 Hh]. destruct (IH (pmm_free_page x f) Hf1 Hnd) as [Hok Hrest].
  { intros a Ha. rewrite Hh. apply in_minus; [apply Hin, elem_of_cons; by right |]. by intros ->. }
  split; [done |]. intros a Ha [Hne Hl]%not_elem_of_cons. apply Hrest; [| done]. rewrite Hh. by apply in_minus.
Qed.

(** All the frames asked for, new ones, or none. *)
Lemma take_frames_ok n : forall acc (f f0 : Fr) res f', fr_ok f -> NoDup acc -> (forall a, a ∈ acc -> 0 < a /\ a ∈ fr_held f /\ a ∉ fr_held f0) ->
  (forall a, a ∈ fr_held f0 -> a ∈ fr_held f) -> take_frames n acc f = (res, f') ->
  fr_ok f' /\ (forall a, a ∈ fr_held f0 -> a ∈ fr_held f')
  /\ forall l, res = Some l -> length l = (length acc + n)%nat /\ NoDup l /\ forall a, a ∈ l -> 0 < a /\ a ∈ fr_held f' /\ a ∉ fr_held f0.
Proof.
  induction n as [| n IH]; intros acc f f0 res f' Hf Hnd Hacc Hsub He; cbn [take_frames] in He.
  { injection He as <- <-. split_and!; [done | done |]. intros l [= <-]. split_and!; [lia | done | done]. }
  destruct (pmm_alloc_page f) as [x f1] eqn:Ea. destruct (fr_alloc f x f1 Hf Ea) as [Hf1 Hx]. destruct (x =? 0) eqn:Ex; b2p.
  - injection He as <- <-. destruct Hx as [(_ & Hh) | (? & _)]; [| lia].
    destruct (free_all_ok acc f1 Hf1 Hnd) as [Hok Hrest]; [intros a Ha; rewrite Hh; apply Hacc; done |]. split_and!; [done | | done].
    intros a Ha. apply Hrest; [rewrite Hh; by apply Hsub |]. intros Hin. by destruct (Hacc a Hin) as (_ & _ & ?).
  - destruct Hx as [(? & _) | (Hpos & Hnew & Hh)]; [done |]. destruct (IH (acc ++ [x]) f1 f0 res f' Hf1) as (A & B & C); try done.
    + apply NoDup_app. split_and!; [done | | apply NoDup_singleton]. intros a Ha ->%list_elem_of_singleton. by destruct (Hacc x Ha) as (_ & ? & _).
    + intros a [Ha | ->%list_elem_of_singleton]%elem_of_app; rewrite Hh.
      * destruct (Hacc a Ha) as (? & ? & ?). split_and!; [done | by apply in_old | done].
      * split_and!; [done | apply in_new |]. intros Hin. by apply Hnew, Hsub.
    + intros a Ha. rewrite Hh. by apply in_old, Hsub.
    + split_and!; [done | done |]. intros l Hl. destruct (C l Hl) as (E & ? & ?). split_and!; [| done | done]. rewrite E, length_app. cbn. lia.
Qed.

(** ** A run of pages *)

(** Pages in frames stay where they are. *)
Definition stay s s' : Prop := forall r p, recs s !! r = Some p -> p_phys p <> 0 -> recs s' !! r = Some p.

(** A page of the object that is out, and a spare frame that has its bytes. *)
Definition landed s (o : Z) (r : rid) (phys : Z) : Prop :=
  exists p, recs s !! r = Some p /\ p_owner p = o /\ p_phys p = 0 /\ spare s phys /\ sw_data (sw s) !! p_slot p = Some (fbytes (ram s) phys).

Lemma back_all o back : forall s, inv s -> NoDup (back.*1) -> NoDup (back.*2) -> (forall r phys, (r, phys) ∈ back -> landed s o r phys) ->
  let s' := fold_left (fun s x => came_back s o (fst x) (snd x)) back s in
  keeps None s s' /\ stay s s' /\ forall r, r ∉ back.*1 -> recs s' !! r = recs s !! r.
Proof.
  induction back as [| [r phys] back IH]; intros s Hi Hn1 Hn2 Hb; cbn [fold_left].
  { split_and!; [by apply kept_refl | by intros ? | done]. }
  cbn in Hn1, Hn2. apply NoDup_cons in Hn1 as [Hr1 Hn1], Hn2 as [Hr2 Hn2]. destruct (Hb r phys ltac:(apply elem_of_cons; by left)) as (p & Hp & Eo & Hp0 & Hsp & Hd). subst o.
  destruct (keeps_came_back s r p phys _ Hi Hp Hp0 Hsp Hd eq_refl) as (K1 & E1 & E2 & E3 & E4). cbn [fst snd]. set (s1 := came_back s (p_owner p) r phys) in *.
  destruct (IH s1) as (K2 & S2 & R2); [apply K1 | done | done | |].
  { intros y ph Hin. destruct (Hb y ph ltac:(apply elem_of_cons; by right)) as (t & Ht & Eo & Ht0 & (Hi1 & Hi2 & Hi3) & Hd').
    assert (Hne : y <> r) by (intros ->; apply Hr1, list_elem_of_fmap; by exists (r, ph)). assert (Hne2 : ph <> phys) by (intros ->; apply Hr2, list_elem_of_fmap; by exists (y, phys)).
    exists t. rewrite E1, E2, E4, lookup_insert_ne by done. split_and!; try done.
    - split_and!; [by rewrite E3 | done |]. intros z u Hu. rewrite E1 in Hu. apply lookup_insert_Some in Hu as [[<- <-] | [_ Hu]]; [cbn; congruence | by apply (Hi3 z)].
    - rewrite lookup_delete_ne; [done |]. intros Es. apply Hne. symmetry. by apply (pl_sinj _ _ _ _ _ (i_pl _ _ Hi) r y p t). }
  split_and!.
  - by apply (kept_trans None s s1).
  - intros y t Ht Htp. apply S2; [| done]. rewrite E1, lookup_insert_ne; [done |]. intros <-. congruence.
  - intros y [Hy1 Hy2]%not_elem_of_cons. rewrite R2, E1, lookup_insert_ne by done. done.
Qed.

Lemma put_back_all l : forall s, inv s -> NoDup (l.*1) -> (forall phys, phys ∈ l.*1 -> spare s phys) ->
  let s' := fold_left (fun s x => put_frame s (fst x) (snd x)) l s in
  keeps None s s' /\ recs s' = recs s /\ sw s' = sw s /\ fr s' = fr s /\ (forall phys b, (phys, b) ∈ l -> fbytes (ram s') phys = b)
  /\ forall phys, phys ∉ l.*1 -> fbytes (ram s') phys = fbytes (ram s) phys.
Proof.
  induction l as [| [a b] l IH]; intros s Hi Hn Hs; cbn [fold_left].
  { split_and!; [by apply kept_refl | done | done | done | by intros ? ? ?%not_elem_of_nil | done]. }
  cbn in Hn. apply NoDup_cons in Hn as [Ha Hn]. pose proof (keeps_put_spare None s a b Hi (Hs a ltac:(apply elem_of_cons; by left))) as K1. cbn [fst snd].
  destruct (IH (put_frame s a b)) as (K2 & E1 & E2 & E3 & Hin & Hout); [apply K1 | done | |].
  { intros ph Hph. apply Hs, elem_of_cons. by right. }
  split_and!; [by apply (kept_trans None s (put_frame s a b)) | done | done | done | |].
  - intros ph c [[= -> ->] | Hl]%elem_of_cons; [| by apply Hin]. rewrite Hout by done. apply fbytes_insert_eq.
  - intros ph [Hne Hl]%not_elem_of_cons. rewrite Hout by done. by apply fbytes_insert_ne.
Qed.

Lemma run_after_spec key l : forall slot i r, take (run_after key slot l) l !! i = Some r -> key r = slot + 1 + Z.of_nat i.
Proof.
  induction l as [| y l IH]; intros slot i r Hi; cbn [run_after] in Hi; [by rewrite take_nil, lookup_nil in Hi |].
  destruct (key y =? slot + 1) eqn:E; b2p; [| by rewrite take_0, lookup_nil in Hi]. destruct i as [| i]; cbn in Hi; [injection Hi as <-; lia |].
  rewrite (IH _ _ _ Hi). lia.
Qed.

Lemma run_after_length key l : forall slot, (run_after key slot l <= length l)%nat.
Proof. induction l as [| y l IH]; intros slot; cbn [run_after]; [done |]. destruct (_ =? _); cbn; [specialize (IH (slot + 1)); lia | lia]. Qed.

Definition out_page s (o : Z) (r : rid) : Prop := exists p, recs s !! r = Some p /\ p_owner p = o /\ p_phys p = 0.

(** One command reads a run, whatever its length. *)
Definition read_run (slot : Z) (run : nat) (phys : list Z) (w : SW) : (list (list Z) + Z) * SW :=
  if (run =? 1)%nat then match swap_in slot (head_or phys) w with (inl l, w) => (inl [l], w) | (inr e, w) => (inr e, w) end
  else swap_in_cluster slot phys w.

Lemma read_run_ok slot run phys w got w' : sw_ok w -> length phys = run -> (forall i, (i < run)%nat -> is_Some (sw_data w !! (slot + Z.of_nat i))) -> read_run slot run phys w = (got, w') ->
  sw_ok w' /\ sw_data w' = sw_data w
  /\ forall pages, got = inl pages -> length pages = run /\ forall i, (i < run)%nat -> sw_data w !! (slot + Z.of_nat i) = pages !! i.
Proof.
  intros Hw Hrun Hs He. unfold read_run in He. destruct (run =? 1)%nat eqn:E1.
  - apply Nat.eqb_eq in E1 as ->. destruct (swap_in slot _ w) as [[l | e] w1] eqn:E; injection He as <- <-; assert (Hs0 : is_Some (sw_data w !! slot)) by (specialize (Hs O ltac:(lia)); by rewrite Z.add_0_r in Hs); destruct (sw_in _ _ _ _ _ Hw Hs0 E) as (A & B & C); split_and!; try done.
    intros pages [= <-]. split; [done |]. intros [| i] Hi; [| lia]. cbn. rewrite Z.add_0_r. by apply C.
  - subst run. destruct (sw_in_cluster _ _ _ _ _ Hw Hs He) as (A & B & C). done.
Qed.

Lemma keeps_store s w : inv s -> sw_ok w -> sw_data w = sw_data (sw s) -> keeps None s (set_sw s w).
Proof. intros Hi Hw Hd. apply tidies_store; [done | done |]. by rewrite Hd. Qed.

(** The frames taken for a run are no page's. *)
Lemma taken_spare s n res f : inv s -> take_frames n [] (fr s) = (res, f) ->
  keeps None s (set_fr s f) /\ fr_ok f /\ forall l, res = Some l -> length l = n /\ NoDup l /\ (forall a, a ∈ l -> spare (set_fr s f) a).
Proof.
  intros Hi He. destruct (take_frames_ok n [] (fr s) (fr s) res f) as (Hf & Hsub & Hl); try done; [apply Hi | constructor | by intros a ?%not_elem_of_nil |].
  assert (Hpg : forall r p, recs s !! r = Some p -> p_phys p <> 0 -> p_phys p ∈ fr_held (fr s)) by (intros r p Hp Hph; by apply (pl_in _ _ _ _ _ (i_pl _ _ Hi) r p)).
  split_and!; [apply keeps_fr; eauto | done |]. intros l Hr. destruct (Hl l Hr) as (Hlen & Hnd & Hin). split_and!; [done | done |]. intros a Ha.
  destruct (Hin a Ha) as (Hpos & Hh & Hnew). split_and!; [done | done |]. intros r p Hp E. apply Hnew. rewrite <- E. apply (Hpg r p Hp). lia.
Qed.

(** One run of the read-ahead that succeeded. *)
Lemma run_back s o batch phys pages :
  inv s -> NoDup batch -> NoDup phys -> length phys = length batch -> length pages = length batch ->
  (forall a, a ∈ phys -> spare s a) ->
  (forall i r, batch !! i = Some r -> exists p l, recs s !! r = Some p /\ p_owner p = o /\ p_phys p = 0 /\ sw_data (sw s) !! p_slot p = Some l /\ pages !! i = Some l) ->
  let s1 := fold_left (fun s x => put_frame s (fst x) (snd x)) (zip phys pages) s in
  let s2 := fold_left (fun s x => came_back s o (fst x) (snd x)) (zip batch phys) s1 in
  keeps None s s2 /\ stay s s2 /\ forall r, r ∉ batch -> recs s2 !! r = recs s !! r.
Proof.
  intros Hi Hnb Hnp Hl1 Hl2 Hsp Hb s1 s2. destruct (put_back_all (zip phys pages) s Hi) as (K1 & E1 & E2 & E3 & Hin & _).
  { rewrite fst_zip by lia. done. } { rewrite fst_zip by lia. done. }
  fold s1 in K1, E1, E2, E3, Hin. destruct (back_all o (zip batch phys) s1) as (K2 & S2 & R2); [apply K1 | by rewrite fst_zip by lia | by rewrite snd_zip by lia | |].
  { intros r a Hra. apply list_elem_of_lookup in Hra as [i Hri]. apply lookup_zip_with_Some in Hri as (? & ? & [= <- <-] & Hr & Ha).
    destruct (Hb i r Hr) as (p & l & Hp & Eo & Hp0 & Hd & Hpg). exists p. rewrite E1, E2. split_and!; try done.
    - destruct (Hsp a ltac:(by eapply list_elem_of_lookup_2)) as (? & ? & ?). split_and!; [by rewrite E3 | done | by rewrite E1].
    - rewrite Hd. f_equal. symmetry. apply Hin. apply list_elem_of_lookup. exists i. by rewrite lookup_zip_with, Ha, Hpg. }
  fold s2 in K2, S2, R2. split_and!; [by apply (kept_trans None s s1) | |].
  - intros r p Hp Hph. apply S2; [by rewrite E1 | done].
  - intros r Hr. rewrite R2, E1 by (rewrite fst_zip by lia; done). done.
Qed.

Lemma readahead_runs_ok fuel : forall o cand s, inv s -> NoDup cand -> (forall r, r ∈ cand -> out_page s o r) ->
  keeps None s (readahead_runs fuel o cand s) /\ stay s (readahead_runs fuel o cand s).
Proof.
  induction fuel as [| fuel IH]; intros o cand s Hi Hnd Hc; cbn [readahead_runs]; [split; [by apply kept_refl | by intros ?] |].
  destruct cand as [| r0 rest]; [split; [by apply kept_refl | by intros ?] |]. set (key := fun r => p_slot (page s r)). set (slot := p_slot (page s r0)).
  set (run := S (run_after key slot rest)). pose proof (run_after_length key rest slot) as Hrl.
  destruct (take_frames run [] (fr s)) as [res f] eqn:Ef. destruct (taken_spare s run res f Hi Ef) as (K1 & Hf & Htk). destruct res as [phys |]; [| split; [done | by intros ?]].
  destruct (Htk phys eq_refl) as (Hlp & Hnp & Hsp). set (batch := take run (r0 :: rest)).
  assert (Hkey : forall i r, batch !! i = Some r -> exists p, recs s !! r = Some p /\ p_owner p = o /\ p_phys p = 0 /\ p_slot p = slot + Z.of_nat i).
  { intros i r Hr. destruct (Hc r) as (p & Hp & Eo & Hp0); [apply (list_elem_of_lookup_2 _ i); unfold batch in Hr; by apply lookup_take_Some in Hr as [? _] |].
    exists p. split_and!; try done. rewrite <- (page_lookup s r p Hp). destruct i as [| i]; cbn in Hr; [injection Hr as <-; fold slot; lia |].
    rewrite (run_after_spec key rest slot i r Hr : p_slot (page s r) = _). lia. }
  assert (Hlb : length batch = run) by (unfold batch, run; rewrite length_take; cbn; lia).
  assert (Hheld : forall i, (i < run)%nat -> is_Some (sw_data (sw s) !! (slot + Z.of_nat i))).
  { intros i Hir. destruct (lookup_lt_is_Some_2 batch i ltac:(lia)) as [r Hr]. destruct (Hkey _ r Hr) as (p & Hp & _ & Hp0 & Es).
    destruct (pl_out _ _ _ _ _ (i_pl _ _ Hi) r p Hp Hp0) as (_ & _ & l & Hl & _). rewrite Es in Hl. eauto. }
  change (sw (set_fr s f)) with (sw s).
  change (if (run =? 1)%nat then _ else swap_in_cluster slot phys (sw s)) with (read_run slot run phys (sw s)). destruct (read_run slot run phys (sw s)) as [got w] eqn:Er.
  destruct (read_run_ok slot run phys (sw s) got w (pl_sw _ _ _ _ _ (i_pl _ _ Hi)) Hlp Hheld Er) as (Hw & Hd & Hgot).
  pose proof (kept_trans None s _ _ K1 (fun Hi1 => keeps_store (set_fr s f) w Hi1 Hw Hd)) as K2. set (s2 := set_sw (set_fr s f) w) in *.
  destruct got as [pages | e].
  - destruct (Hgot pages eq_refl) as [Hlpg Hpg]. assert (Hnb : NoDup batch) by (apply (NoDup_app batch (drop run (r0 :: rest))); unfold batch; by rewrite take_drop).
    destruct (run_back s2 o batch phys pages) as (K3 & S3 & R3); [apply K2 | done | done | lia | lia | done | |].
    { intros i r Hr. destruct (Hkey i r Hr) as (p & Hp & Eo & Hp0 & Es). assert (Hi2 : (i < run)%nat) by (rewrite <- Hlb; by eapply lookup_lt_Some).
      destruct (lookup_lt_is_Some_2 pages i ltac:(lia)) as [l Hl]. exists p, l. split_and!; try done. cbn. by rewrite Hd, Es, Hpg. }
    set (s3 := fold_left _ (zip batch phys) _) in *. destruct (IH o (drop run (r0 :: rest)) s3) as [K4 S4]; [apply K3 | | |].
    { apply (NoDup_app batch (drop run (r0 :: rest))). unfold batch. by rewrite take_drop. }
    { intros r Hr. destruct (Hc r) as (p & Hp & Eo & Hp0); [rewrite <- (take_drop run (r0 :: rest)); apply elem_of_app; by right |]. exists p. rewrite R3; [done |].
      intros Hin. rewrite <- (take_drop run (r0 :: rest)) in Hnd. apply NoDup_app in Hnd as (_ & Hdis & _). by apply (Hdis r). }
    split; [apply (kept_trans None s s3); [by apply (kept_trans None s s2) | done] |]. intros r p Hp Hph. apply S4; [by apply S3 | done].
  - split; [| by intros ?]. apply (kept_trans None s s2 _ K2). intros Hi2. destruct (free_all_ok phys f Hf Hnp) as [Hok Hrest]; [intros a Ha; apply (Hsp a Ha) |].
    apply keeps_fr; [done | done |]. intros r p Hp Hph. apply Hrest; [by apply (pl_in _ _ _ _ _ (i_pl _ _ Hi2) r p) |]. intros Hin. by destruct (Hsp _ Hin) as (_ & _ & Hno); apply (Hno r p).
Qed.

(** ** The neighbours *)

Lemma NoDup_flat_map {A B} (f : A -> list B) l :
  NoDup l -> (forall x, x ∈ l -> NoDup (f x)) -> (forall x x' y, x ∈ l -> x' ∈ l -> y ∈ f x -> y ∈ f x' -> x = x') -> NoDup (flat_map f l).
Proof.
  induction l as [| x l IH]; intros Hnd Hf Hd; cbn; [constructor |]. apply NoDup_cons in Hnd as [Hx Hnd]. apply NoDup_app. split_and!.
  - apply Hf, elem_of_cons. by left.
  - intros y Hy Hin. apply list_elem_of_In, in_flat_map in Hin as (x' & Hx' & Hy'). apply list_elem_of_In in Hx', Hy'.
    assert (x = x') as <- by (apply (Hd x x' y); [apply elem_of_cons; by left | apply elem_of_cons; by right | done | done]). done.
  - apply IH; [done | intros y Hy; apply Hf, elem_of_cons; by right |]. intros y y' z Hy Hy'. apply Hd; apply elem_of_cons; by right.
Qed.

Lemma insert_by_perm key r l : insert_by key r l ≡ₚ r :: l.
Proof. induction l as [| x l IH]; cbn; [done |]. destruct (key x <=? key r); [| done]. rewrite IH. apply Permutation_swap. Qed.

Lemma sort_by_perm key l : sort_by key l ≡ₚ l.
Proof.
  unfold sort_by. enough (Hg : forall acc, fold_left (fun l r => insert_by key r l) l acc ≡ₚ l ++ acc) by (rewrite Hg; by rewrite app_nil_r).
  induction l as [| x l IH]; intros acc; cbn; [done |]. rewrite IH, insert_by_perm. by rewrite Permutation_middle.
Qed.

Lemma neighbours_ok s o index : inv s -> is_Some (objs s !! o) -> 0 <= index < PAGE_MAX -> NoDup (neighbours s o index) /\ forall r, r ∈ neighbours s o index -> out_page s o r.
Proof.
  intros Hi Ho Hx. unfold neighbours. set (out := out_at s o).
  assert (Hout : forall i r, r ∈ out i -> page_find s o i = Some r /\ exists p, recs s !! r = Some p /\ p_owner p = o /\ p_index p = i /\ p_phys p = 0).
  { intros i r Hr. unfold out, out_at in Hr. destruct (page_find s o i) as [y |] eqn:E; [| by apply not_elem_of_nil in Hr]. destruct (_ && _) eqn:Ec; [| by apply not_elem_of_nil in Hr].
    apply list_elem_of_singleton in Hr as ->. split; [done |]. apply (page_find_some s o i y (i_ix _ _ Hi) Ho) in E as (p & Hp & Eo & Ei).
    rewrite (page_lookup s y p Hp) in Ec. apply andb_true_iff in Ec as [Ec _]. b2p. eauto 6. }
  assert (Hone : forall i, NoDup (out i)) by (intros i; unfold out, out_at; destruct (page_find s o i); [destruct (_ && _); [apply NoDup_singleton | constructor] | constructor]).
  assert (Hidx : forall i i' r, r ∈ out i -> r ∈ out i' -> i = i').
  { intros i i' r H1r H2r. destruct (Hout i r H1r) as [_ (p & Hp & _ & <- & _)], (Hout i' r H2r) as [_ (p' & Hp' & _ & <- & _)]. congruence. }
  assert (Hblock : forall d r, 1 <= d < 1 + VMO_RA_EACH_SIDE -> r ∈ out (!64 (index + d)) ++ (if index <? d then [] else out (index - d)) ->
    exists i, r ∈ out i /\ (i = index + d \/ i = index - d)).
  { intros d r Hd [Hr | Hr]%elem_of_app; [rewrite u64_small in Hr by (unfold PAGE_MAX, VMO_RA_EACH_SIDE in *; lia); eauto |]. destruct (index <? d); [by apply not_elem_of_nil in Hr | eauto]. }
  split.
  - apply NoDup_flat_map; [apply NoDup_seqZ | |].
    + intros d Hd%elem_of_seqZ. apply NoDup_app. split_and!; [apply Hone | | by destruct (index <? d); [constructor | apply Hone]].
      intros r Hr Hr'. rewrite u64_small in Hr by (unfold PAGE_MAX, VMO_RA_EACH_SIDE in *; lia). destruct (index <? d); [by apply not_elem_of_nil in Hr' |]. pose proof (Hidx _ _ _ Hr Hr'). lia.
    + intros d d' r Hd%elem_of_seqZ Hd'%elem_of_seqZ Hr Hr'. destruct (Hblock d r Hd Hr) as (i & Hri & Ei), (Hblock d' r Hd' Hr') as (i' & Hri' & Ei').
      pose proof (Hidx _ _ _ Hri Hri'). lia.
  - intros r Hr. apply list_elem_of_In, in_flat_map in Hr as (d & Hd & Hr). apply list_elem_of_In in Hd, Hr. apply elem_of_seqZ in Hd.
    destruct (Hblock d r Hd Hr) as (i & Hri & _). destruct (Hout i r Hri) as [_ (p & ? & ? & _ & ?)]. by exists p.
Qed.

Lemma readahead_ok s o index : inv s -> is_Some (objs s !! o) -> 0 <= index < PAGE_MAX ->
  keeps None s (swap_readahead_locked s o index) /\ stay s (swap_readahead_locked s o index).
Proof.
  intros Hi Ho Hx. unfold swap_readahead_locked. destruct (_ <? _); [split; [by apply kept_refl | by intros ?] |].
  destruct (neighbours_ok s o index Hi Ho Hx) as [Hnd Hout]. set (cand := sort_by _ _). assert (Hp : cand ≡ₚ neighbours s o index) by apply sort_by_perm.
  apply readahead_runs_ok; [done | by rewrite Hp |]. intros r Hr. apply Hout. by rewrite <- Hp.
Qed.

(** ** The page of an index *)

Lemma have_kept s s' o index (wanted : Prop) r : keeps None s s' -> resident s' o index r -> have s s' o index wanted r.
Proof. intros [Hi' Hs] Hr. split; [by apply inv_weaken | done | by apply same_same_but | done]. Qed.

Lemma page_get_ok fuel s o ob index zo :
  inv s -> objs s !! o = Some ob -> 0 <= index < PAGE_MAX ->
  outcome fuel s o ob index (zo = false \/ forall j, 0 <= j < PAGE_SIZE -> steady s o (index * PAGE_SIZE + j) -> backing s o (index * PAGE_SIZE + j) = 0) (page_get fuel s o index zo).
Proof.
  intros Hi Ho Hx. unfold page_get. destruct (page_find s o index) as [r |] eqn:Ef; [| by apply page_fill_ok].
  apply (page_find_some s o index r (i_ix _ _ Hi) ltac:(eauto)) in Ef as (p & Hp & Eo & Ei). rewrite (page_lookup s r p Hp). destruct (p_phys p =? 0) eqn:Eph; b2p.
  - pose proof (frame_or_reclaim_ok fuel s Hi) as Hfr. destruct (frame_or_reclaim fuel s) as [[phys s1] |]; [| done]. destruct Hfr as [T1 Hsp].
    destruct (phys =? 0) eqn:E0; b2p; [done |]. specialize (Hsp E0). destruct T1 as [[Hi1 S1] C1]. pose proof (cm_out _ _ C1 r p Hp Eph) as Hp1. rewrite (page_lookup s1 r p Hp1).
    destruct (swap_in (p_slot p) phys (sw s1)) as [got w] eqn:Es. destruct (sw_in _ _ _ _ _ (pl_sw _ _ _ _ _ (i_pl _ _ Hi1)) (pl_slot _ _ _ _ _ r p (i_pl _ _ Hi1) Hp1 Eph) Es) as (Hw & Hd & Hgot).
    pose proof (tidies_store s1 w Hi1 Hw ltac:(by rewrite Hd)) as T2. pose proof (tidies_trans None s s1 _ (conj (conj Hi1 S1) C1) (fun _ => T2)) as T12.
    destruct got as [l | e]; [| apply (tidies_trans None s _ _ T12); intros Hi2; by apply tidies_free_frame].
    destruct (pl_out _ _ _ _ _ (i_pl _ _ Hi1) r p Hp1 Eph) as (_ & (k & Hk & Ha) & l' & Hl' & _). pose proof (Hgot l eq_refl) as Hl.
    set (s2 := set_sw s1 w) in *. destruct (keeps_put_spare None s2 phys l (proj1 (proj1 T12)) Hsp) as [Hi3 S3]. set (s3 := put_frame s2 phys l) in *.
    destruct (keeps_came_back s3 r p phys l Hi3 Hp1 Eph Hsp) as ((Hi4 & S4) & E1 & _); [cbn; by rewrite Hd | apply fbytes_insert_eq |]. rewrite Eo in *. set (s4 := came_back s3 o r phys) in *.
    assert (K4 : keeps None s s4) by (split; [done |]; apply (same_trans s s2 s4 (proj2 (proj1 T12))); by apply (same_trans s2 s3)).
    assert (Hp4 : recs s4 !! r = Some (with_place p phys 0)) by (rewrite E1; apply lookup_insert_eq).
    assert (Hanon : o_anon ob = true).
    { rewrite (sm_faces _ _ S1) in Hk. destruct (faces_lookup s _ _ Hk) as (ob1 & Ho1 & ->). simplify_eq. done. }
    split; [| congruence]. destruct (o_anon (obj s4 o)); [| apply have_kept; [done | by exists (with_place p phys 0)]].
    destruct (readahead_ok s4 o index Hi4 ltac:(apply (faces_is_Some s s4 o (sm_faces _ _ (proj2 K4))); eauto) Hx) as [K5 S5].
    apply have_kept; [apply (kept_trans None s s4); done |]. exists (with_place p phys 0). split_and!; try done. by apply S5.
  - destruct (touch_rest s r) as (_ & E2 & _ & _ & _ & _ & E7 & _ & E9). split.
    + apply have_kept; [by apply (keeps_touch None s r p) |]. exists p. by rewrite E2.
    + intros Ha He. assert (Hk : faces s !! p_owner p = Some (face_of ob)) by (rewrite Eo; unfold faces; by rewrite lookup_fmap, Ho).
      rewrite (on_anon_face s r p _ Hp Hk) in E9. cbn in E9. rewrite Ha in E9. unfold enough. by rewrite E7, E9.
Qed.
End Get.
