(* ===== verification/PageCacheFile.v ===== *)
(** * The page cache: reading and writing a file

    A read returns the bytes of the file, a write replaces the range it is
    given and nothing else, whatever is in frames and whatever reclaim does
    meanwhile.  This is said of firm bytes; what is written is firm after. *)

From S2P Require Import Prelude Bytes Vfs PageCache PageCacheInv PageCacheSteps PageCacheReclaim PageCacheAccess PageCacheGet.

Section File.
Context {Fr FS SW PT HP : Type} `{FrameLaws Fr} `{FileLaws FS} `{SlotLaws SW} `{TableLaws PT} `{HeapLaws HP} {FM : Firm}.

Local Abbreviation cache := (@cache Fr FS SW PT HP).
Implicit Types (s : cache).

(** The bytes of an object from [off] on, where they are firm. *)
Definition reads s (o off : Z) (l : list Z) : Prop := forall i, 0 <= i < zlen l -> steady s o (off + i) -> rd l i = content s o (off + i).

Lemma reads_nil s o off : reads s o off [].
Proof. intros i Hi. rewrite zlen_nil in Hi. lia. Qed.

Lemma reads_app s o off l1 l2 : reads s o off l1 -> reads s o (off + zlen l1) l2 -> reads s o off (l1 ++ l2).
Proof.
  intros H1' H2' i Hi Hst. rewrite zlen_app in Hi. destruct (decide (i < zlen l1)).
  - rewrite rd_app_l by (unfold zlen in *; lia). by apply H1'; [lia |].
  - rewrite rd_app_r by (unfold zlen in *; lia). fold (zlen l1). replace (off + i) with (off + zlen l1 + (i - zlen l1)) in * by lia. by apply H2'; [lia |].
Qed.

Lemma reads_same s s' o off l : same s s' -> is_Some (objs s !! o) -> 0 <= off -> reads s' o off l -> reads s o off l.
Proof.
  intros Hs Ho Hoff Hr i Hi Hst. rewrite <- (sm_content _ _ Hs) by (done || lia). apply Hr; [done |]. apply (steady_faces s); [apply Hs | done].
Qed.

(** Part of the page at [index] of the object. *)
Lemma page_part s o index r p within chunk :
  inv s -> recs s !! r = Some p -> p_owner p = o -> p_index p = index -> p_phys p <> 0 -> 0 <= within -> 0 <= chunk -> within + chunk <= PAGE_SIZE ->
  zlen (sub (frame s (p_phys p)) within chunk) = chunk /\ reads s o (index * PAGE_SIZE + within) (sub (frame s (p_phys p)) within chunk).
Proof.
  intros Hi Hp Eo Ei Hph Hw Hc Hle. destruct (pl_in _ _ _ _ _ (i_pl _ _ Hi) r p Hp Hph) as (_ & _ & Hlen). fold (fbytes (ram s) (p_phys p)) in Hlen.
  change (frame s (p_phys p)) with (fbytes (ram s) (p_phys p)). split; [apply sub_length; lia |].
  intros i Hil _. rewrite sub_length in Hil by lia. rewrite rd_sub by lia. subst o index.
  assert (Hpos : p_index p * PAGE_SIZE + within + i = p_index p * PAGE_SIZE + (within + i)) by lia. destruct (page_pos (p_index p) (within + i) ltac:(lia)) as [Ed Em].
  rewrite Hpos, (content_page s r p _ (i_ix _ _ Hi) Hp) by done. rewrite Em. unfold bytes_of. apply Z.eqb_neq in Hph. by rewrite Hph.
Qed.

(** The page of the next byte could not be had. *)
Definition stuck (fuel : nat) (o pos : Z) s' : Prop := exists s1 zo, page_get fuel s1 o (pos / PAGE_SIZE) zo = Some (None, s').

(** The pages from one position to the last byte. *)
Definition pages_left (off len done : Z) : Z := if done <? len then (off + len - 1) / PAGE_SIZE - (off + done) / PAGE_SIZE + 1 else 0.

Lemma pages_left_step off len done :
  0 <= off -> 0 <= done < len ->
  let within := (off + done) mod PAGE_SIZE in
  let chunk := if len - done <? PAGE_SIZE - within then len - done else PAGE_SIZE - within in
  0 < chunk /\ within + chunk <= PAGE_SIZE /\ done + chunk <= len /\ pages_left off len (done + chunk) + 1 <= pages_left off len done /\ 0 < pages_left off len done.
Proof.
  intros Hoff Hd within chunk. destruct (page_split (off + done)) as [Edm Hm]. fold within in Edm, Hm.
  assert (Hc : 0 < chunk /\ within + chunk <= PAGE_SIZE /\ done + chunk <= len /\ (done + chunk = len \/ within + chunk = PAGE_SIZE)) by (unfold chunk; case_if; lia).
  destruct Hc as (Hc1 & Hc2 & Hc3 & Hc4). assert (Hle : (off + done) / PAGE_SIZE <= (off + len - 1) / PAGE_SIZE) by (apply Z.div_le_mono; [done | lia]).
  split_and!; try done; unfold pages_left; rewrite (proj2 (Z.ltb_lt done len)) by lia; [| lia]. case_if; [| lia].
  assert (Ed : (off + (done + chunk)) / PAGE_SIZE = (off + done) / PAGE_SIZE + 1); [| lia].
  destruct Hc4 as [? | Hw]; [lia |]. replace (off + (done + chunk)) with (((off + done) / PAGE_SIZE + 1) * PAGE_SIZE + 0) by lia. apply page_pos. done.
Qed.

(** ** Reading *)

Lemma read_loop_ok fuel o off len n : forall s ob done acc,
  inv s -> objs s !! o = Some ob -> o_anon ob = false -> enough fuel s -> 0 <= off -> 0 <= done <= len -> off + len <= FILE_MAX -> pages_left off len done <= Z.of_nat n ->
  exists rc l s', read_loop n fuel o off len done acc s = Some (rc, acc ++ l, s') /\ inv s' /\ same s s'
    /\ reads s o (off + done) l /\ done + zlen l <= len
    /\ ((rc = Errno.EMBK_OK /\ done + zlen l = len)
        \/ (rc = (if done + zlen l =? 0 then - Errno.EMBK_ENOMEM else Errno.EMBK_OK) /\ stuck fuel o (off + (done + zlen l)) s')).
Proof.
  induction n as [| n IH]; intros s ob done acc Hi Ho Ha He Hoff Hd Hmax Hn.
  all: assert (Hend : done = len -> exists rc l s', Some (Errno.EMBK_OK, acc, s) = Some (rc, acc ++ l, s') /\ inv s' /\ same s s'
         /\ reads s o (off + done) l /\ done + zlen l <= len
         /\ ((rc = Errno.EMBK_OK /\ done + zlen l = len)
             \/ (rc = (if done + zlen l =? 0 then - Errno.EMBK_ENOMEM else Errno.EMBK_OK) /\ stuck fuel o (off + (done + zlen l)) s')))
       by (intros ->; exists Errno.EMBK_OK, [], s; rewrite app_nil_r, zlen_nil; split_and!; [done | done | apply same_refl | apply reads_nil | lia | left; split; [done | lia]]).
  - cbn [read_loop]. apply Hend. unfold pages_left in Hn. case_if_in Hn; [| lia]. assert ((off + done) / PAGE_SIZE <= (off + len - 1) / PAGE_SIZE) by (apply Z.div_le_mono; [done | lia]). lia.
  - cbn [read_loop]. destruct (done <? len) eqn:Ed; [b2p | apply Hend; b2p; lia]. rewrite (u64_small (off + done)) by (unfold FILE_MAX in *; lia).
    destruct (pages_left_step off len done Hoff ltac:(lia)) as (C1 & C2 & C3 & C4 & _). set (within := (off + done) mod PAGE_SIZE) in *. set (chunk := if len - done <? PAGE_SIZE - within then _ else _) in *.
    destruct (page_split (off + done)) as [Edm Hm]. fold within in Edm, Hm. set (index := (off + done) / PAGE_SIZE) in *.
    assert (Hx : 0 <= index < PAGE_MAX) by (unfold PAGE_SIZE, FILE_MAX, PAGE_MAX in *; lia).
    pose proof (page_get_ok fuel s o ob index false Hi Ho Hx) as Hg. destruct (page_get fuel s o index false) as [[[r |] s1] |] eqn:Eg; cbn in Hg; [| | done].
    + destruct Hg as [Hh He1]. destruct (hv_wanted _ _ _ _ _ _ Hh (or_introl eq_refl)) as [Hi1 S1]. destruct (hv_page _ _ _ _ _ _ Hh) as (p & Hp & Eo & Ei & Hph).
      destruct (object_same s s1 o ob (sm_faces _ _ S1) Ho) as (ob1 & Ho1 & Ef). rewrite (page_lookup s1 r p Hp).
      destruct (page_part s1 o index r p within chunk Hi1 Hp Eo Ei Hph ltac:(lia) ltac:(lia) C2) as [Hpl Hpr]. rewrite <- Edm in Hpr. set (part := sub (frame s1 (p_phys p)) within chunk) in *.
      destruct (IH s1 ob1 (done + chunk) (acc ++ part)) as (rc & l & s' & E & Hi' & S' & Hl & Hle & Hres); try done; [change (k_anon (face_of ob1) = false); by rewrite Ef | by apply He1 | lia | lia |].
      exists rc, (part ++ l), s'. rewrite zlen_app, Hpl. rewrite E, <- app_assoc.
      split_and!; [done | done | by apply (same_trans s s1) | | lia |].
      * apply (reads_same s s1); [done | eauto | lia |]. apply reads_app; [done |]. by rewrite Hpl, <- Z.add_assoc.
      * replace (done + (chunk + zlen l)) with (done + chunk + zlen l) by lia. done.
    + exists (if done =? 0 then - Errno.EMBK_ENOMEM else Errno.EMBK_OK), [], s1. destruct Hg as [[Hi1 S1] _]. rewrite app_nil_r, zlen_nil, Z.add_0_r.
      split_and!; [done | done | done | apply reads_nil | lia |]. right. split; [done |]. by exists s, false.
Qed.

Lemma iterations_enough off len : 0 <= off -> 0 <= len -> pages_left off len 0 <= Z.of_nat (iterations len).
Proof.
  intros Hoff Hlen. unfold pages_left, iterations. pose proof (Z.div_pos len PAGE_SIZE Hlen ltac:(done)). case_if; [| lia].
  assert ((off + len - 1) / PAGE_SIZE <= (off + 0) / PAGE_SIZE + len / PAGE_SIZE + 1); [| lia].
  destruct (page_split off) as [E1 M1], (page_split len) as [E2 M2]. rewrite Z.add_0_r. apply Z.lt_succ_r, Z.div_lt_upper_bound; [done |]. unfold PAGE_SIZE in *. lia.
Qed.

(** What a read of the range can return. *)
Definition readable (size off len : Z) : Z := Z.max 0 (Z.min (off + len) size - off).

Lemma vmo_read_ok fuel s o ob off len :
  inv s -> objs s !! o = Some ob -> o_anon ob = false -> enough fuel s -> 0 <= off -> 0 <= len -> off + len < 2 ^ 64 ->
  exists rc l s', vmo_read fuel s o off len = Some (rc, l, s') /\ inv s' /\ same s s' /\ reads s o off l /\ zlen l <= readable (o_size ob) off len
    /\ ((rc = Errno.EMBK_OK /\ zlen l = readable (o_size ob) off len)
        \/ (rc = (if zlen l =? 0 then - Errno.EMBK_ENOMEM else Errno.EMBK_OK) /\ stuck fuel o (off + zlen l) s')).
Proof.
  intros Hi Ho Ha He Hoff Hlen H64. unfold vmo_read, readable. rewrite (obj_lookup s o ob Ho).
  assert (Hk : faces s !! o = Some (face_of ob)) by (unfold faces; by rewrite lookup_fmap, Ho). pose proof (kd_size _ _ (i_kd _ _ Hi) o _ Hk) as Hsz. cbn in Hsz.
  destruct (o_size ob <=? off) eqn:E; b2p.
  - exists Errno.EMBK_OK, [], s. rewrite zlen_nil. split_and!; [done | done | apply same_refl | apply reads_nil | lia | left; split; [done | lia]].
  - rewrite u64_small by lia. set (len' := if o_size ob <? off + len then _ else _). assert (El : len' = Z.max 0 (Z.min (off + len) (o_size ob) - off)) by (unfold len'; case_if; lia).
    destruct (read_loop_ok fuel o off len' (iterations len') s ob 0 []) as (rc & l & s' & E1 & Hi' & S' & Hl & Hle & Hres); try done; [lia | lia | apply iterations_enough; lia |].
    rewrite Z.add_0_l in *. rewrite Z.add_0_r in Hl. exists rc, l, s'. rewrite <- El. done.
Qed.

(** ** Writing *)

Lemma find_in_ext s s' i l : recs s' = recs s -> find_in s' i l = find_in s i l.
Proof. intros E. induction l as [| r l IH]; cbn; [done |]. unfold page. rewrite E, IH. done. Qed.

Lemma page_find_ext s s' o i : recs s' = recs s -> indexes s' = indexes s -> page_find s' o i = page_find s o i.
Proof.
  intros E EB. assert (Hb : o_buckets (obj s' o) = o_buckets (obj s o)).
  { assert (Hl : o_buckets <$> objs s' !! o = o_buckets <$> objs s !! o) by (rewrite <- !lookup_fmap; unfold indexes in EB; by rewrite EB).
    unfold obj. destruct (objs s' !! o), (objs s !! o); cbn in *; congruence. }
  unfold page_find. by rewrite Hb, (find_in_ext s s').
Qed.

Lemma content_ext s s' o pos : recs s' = recs s -> indexes s' = indexes s -> ram s' = ram s -> sw s' = sw s -> fs s' = fs s ->
  o_vn (obj s' o) = o_vn (obj s o) -> content s' o pos = content s o pos.
Proof.
  intros E1 E2 E3 E4 E5 E6. unfold content, backing, bytes_of, page. rewrite (page_find_ext s s') by done. by rewrite E1, E3, E4, E5, E6.
Qed.

Lemma content_touch s r o pos : content (lru_touch s r) o pos = content s o pos.
Proof.
  destruct (touch_rest s r) as (E1 & E2 & _ & E3 & E4 & E5 & _). apply content_ext; try done; [unfold indexes; by rewrite E1 | unfold obj; by rewrite E1].
Qed.

Lemma content_resized s o n pos o' : is_Some (objs s !! o) -> content (upd_obj s o (fun ob => with_size ob n)) o' pos = content s o' pos.
Proof.
  intros [ob Ho]. set (s' := upd_obj _ _ _). assert (EB : indexes s' = indexes s) by (unfold s', upd_obj; rewrite (obj_lookup s o ob Ho); by apply (view_keep _ _ _ ob)).
  assert (Hv : o_vn (obj s' o') = o_vn (obj s o')).
  { unfold s', upd_obj. rewrite (obj_lookup s o ob Ho). unfold obj, put_obj. cbn. destruct (decide (o' = o)) as [-> | Hne]; [by rewrite lookup_insert_eq, Ho | by rewrite lookup_insert_ne]. }
  unfold content, backing. rewrite (page_find_ext s s') by done. by rewrite Hv.
Qed.

(** An object shows another face: same file, same pages. *)
Record refaced s s' (o : Z) (ob ob' : vm_object) : Prop := {
  rf_was : objs s !! o = Some ob;
  rf_objs : objs s' = <[o := ob']> (objs s);
  rf_recs : recs s' = recs s;
  rf_index : o_buckets ob' = o_buckets ob;
  rf_counts : counts_of ob' = counts_of ob;
  rf_table : o_table ob' = o_table ob;
  rf_vn : o_vn ob' = o_vn ob;
  rf_anon : o_anon ob' = o_anon ob;
  rf_rest : registry s' = registry s /\ fr s' = fr s /\ sw s' = sw s /\ lru_file s' = lru_file s /\ lru_anon s' = lru_anon s /\ rec_free s' = rec_free s /\ hp s' = hp s;
}.

Lemma refaced_views s s' o ob ob' : refaced s s' o ob ob' ->
  faces s' = <[o := face_of ob']> (faces s) /\ indexes s' = indexes s /\ counts s' = counts s /\ tables s' = tables s.
Proof.
  intros [Ho E _ E1 E2 E3 _ _ _]. unfold faces, indexes, counts, tables. rewrite E. split_and!; [apply fmap_insert | by apply (view_keep _ _ _ ob) ..].
Qed.

Lemma refaced_back s s' o ob ob' o' k' : refaced s s' o ob ob' -> faces s' !! o' = Some k' ->
  exists k, faces s !! o' = Some k /\ k_vn k' = k_vn k /\ k_anon k' = k_anon k /\ ((o' = o /\ k' = face_of ob' /\ k = face_of ob) \/ (o' <> o /\ k' = k)).
Proof.
  intros Hr Hk'. destruct (refaced_views _ _ _ _ _ Hr) as (HF & _). rewrite HF in Hk'. apply lookup_insert_Some in Hk' as [[<- <-] | [Hne Hk']]; [| exists k'; eauto 6].
  exists (face_of ob). split; [unfold faces; by rewrite lookup_fmap, (rf_was _ _ _ _ _ Hr) |]. cbn. rewrite (rf_vn _ _ _ _ _ Hr), (rf_anon _ _ _ _ _ Hr). split_and!; auto.
Qed.

Lemma refaced_fwd s s' o ob ob' o' k : refaced s s' o ob ob' -> faces s !! o' = Some k -> exists k', faces s' !! o' = Some k' /\ k_anon k' = k_anon k.
Proof.
  intros Hr Hk. destruct (refaced_views _ _ _ _ _ Hr) as (HF & _). rewrite HF. destruct (decide (o' = o)) as [-> | Hne]; [| exists k; by rewrite lookup_insert_ne].
  exists (face_of ob'). rewrite lookup_insert_eq. split; [done |]. unfold faces in Hk. rewrite lookup_fmap, (rf_was _ _ _ _ _ Hr) in Hk. injection Hk as <-. apply (rf_anon _ _ _ _ _ Hr).
Qed.

Lemma refaced_inv x y s s' o ob ob' : inv_but x s -> refaced s s' o ob ob' -> 0 <= o_size ob' <= FILE_MAX -> (o_anon ob' = true -> o_no_writeback ob' = true) ->
  (forall r p, recs s !! r = Some p -> p_phys p <> 0 -> zlen (fbytes (ram s') (p_phys p)) = PAGE_SIZE) -> Cl y (faces s') (recs s') (fs s') (ram s') -> inv_but y s'.
Proof.
  intros [A B C D _ F G] Hr Hsz Hnw Hram Hcl. destruct (refaced_views _ _ _ _ _ Hr) as (HF & HB & HC & HT). destruct (rf_rest _ _ _ _ _ Hr) as (E1 & E2 & E3 & E4 & E5 & E6 & E7).
  pose proof (refaced_back s s' o ob ob') as Hback. pose proof (refaced_fwd s s' o ob ob') as Hfwd. pose proof (rf_recs _ _ _ _ _ Hr) as ER.
  assert (Hlist : forall a r, listed a (faces s) (recs s) r -> listed a (faces s') (recs s) r).
  { intros a r (p & k & Hp & Hk & Ha & Hph). destruct (Hfwd _ k Hr Hk) as (k' & Hk' & Ea). exists p, k'. split_and!; [done | done | congruence | done]. }
  split; [by rewrite HB, ER | by rewrite HC, ER | | | done | |]; rewrite ?E1, ?E2, ?E3, ?E4, ?E5, ?E6, ?E7, ?HT, ?ER in *.
  - destruct C as [C1 C2 C3 C4 C5 C6]. split; [done | | | | |].
    + intros o'. rewrite C2, HF, lookup_insert_is_Some. destruct (decide (o = o')) as [<- | ?]; [| tauto]. split; [by left |]. intros _. unfold faces. rewrite lookup_fmap, (rf_was _ _ _ _ _ Hr). eauto.
    + intros o' k' Hk'. destruct (Hback o' k' Hr Hk') as (k & Hk0 & _ & _ & [(_ & -> & _) | (_ & ->)]); [done | by apply (C3 o')].
    + intros o' k' Hk' Ha'. destruct (Hback o' k' Hr Hk') as (k & Hk0 & -> & Ea & Hc). destruct (C4 o' k Hk0 ltac:(congruence)) as [? Hn]. split; [done |].
      destruct Hc as [(_ & -> & _) | (_ & ->)]; [by apply Hnw | done].
    + intros o' k' Hk' Ha'. destruct (Hback o' k' Hr Hk') as (k & Hk0 & -> & Ea & _). apply (C5 o'); [done | congruence].
    + intros o1 o2 k1 k2 Hk1 Hk2 Ha1 Ha2. destruct (Hback o1 k1 Hr Hk1) as (k1' & H1' & -> & Ea1 & _), (Hback o2 k2 Hr Hk2) as (k2' & H2' & -> & Ea2 & _).
      apply (C6 o1 o2 k1' k2'); congruence.
  - destruct D as [D1 D2 D3 D4 D5 D6]. split; try done.
    + intros r p Hp Hph. destruct (D3 r p Hp Hph) as (? & ? & _). split_and!; [done | done | by apply (Hram r)].
    + intros r p Hp Hph. destruct (D4 r p Hp Hph) as (? & (k & Hk & Hak) & ?). split_and!; [done | | done]. destruct (Hfwd _ k Hr Hk) as (k' & ? & ?). exists k'. split; congruence.
  - destruct F as [F1 F2 F3 F4]. split; auto.
  - done.
Qed.

(** The file grows; what was past its end reads as zero. *)
Lemma inv_grow_size x s o ob n : inv_but x s -> objs s !! o = Some ob -> o_size ob <= n <= FILE_MAX ->
  let s' := upd_obj s o (fun ob => with_size ob n) in inv_but x s' /\ refaced s s' o ob (with_size ob n).
Proof.
  intros Hi Ho Hn. cbv zeta. unfold upd_obj. rewrite (obj_lookup s o ob Ho). assert (Hr : refaced s (put_obj s o (with_size ob n)) o ob (with_size ob n)) by by split.
  assert (Hk : faces s !! o = Some (face_of ob)) by (unfold faces; by rewrite lookup_fmap, Ho). pose proof (kd_size _ _ (i_kd _ _ Hi) o _ Hk) as Hsz. cbn in Hsz.
  split; [| done]. apply (refaced_inv x x s _ o ob (with_size ob n) Hi Hr).
  - cbn. lia.
  - cbn. intros Ha. by apply (kd_mem _ _ (i_kd _ _ Hi) o _ Hk).
  - intros r p Hp Hph. by apply (pl_in _ _ _ _ _ (i_pl _ _ Hi) r p).
  - destruct (i_cl _ _ Hi) as [E1 E2 E3].
    assert (Hle : forall o' k', faces (put_obj s o (with_size ob n)) !! o' = Some k' -> exists k, faces s !! o' = Some k /\ k_vn k' = k_vn k /\ k_anon k' = k_anon k /\ k_size k <= k_size k').
    { intros o' k' Hk'. destruct (refaced_back _ _ _ _ _ _ _ Hr Hk') as (k & Hk0 & ? & ? & [(_ & -> & ->) | (_ & ->)]); [exists (face_of ob); cbn; split_and!; try done; lia | exists k; eauto with lia]. }
    split; cbn [recs fs ram put_obj set_objs].
    + intros r p k' j Hp Hk'. destruct (Hle _ k' Hk') as (k & Hk0 & -> & -> & _). by apply (E1 r p k).
    + intros r p k' j Hp Hk' Ha' Hj Hs. destruct (Hle _ k' Hk') as (k & Hk0 & -> & Ea & ?). apply (E2 r p k); [done | done | congruence | done | lia].
    + intros o' k' pos Hk' Ha' Hs. destruct (Hle _ k' Hk') as (k & Hk0 & -> & Ea & ?). apply (E3 o' k); [done | congruence | lia].
Qed.

(** A page gets new bytes and is dirty. *)
Lemma put_dirty s r p k l :
  inv_but (Some r) s -> recs s !! r = Some p -> p_phys p <> 0 -> faces s !! p_owner p = Some k -> k_anon k = false -> zlen l = PAGE_SIZE ->
  (forall j, 0 <= j < PAGE_SIZE -> k_size k <= p_index p * PAGE_SIZE + j -> firm (k_vn k) (p_index p * PAGE_SIZE + j) = true -> rd l j = 0) ->
  let s' := set_dirty (put_frame s (p_phys p) l) (p_owner p) r in
  inv s' /\ replaced s s' r p (with_dirty p true) /\ ram s' = <[p_phys p := l]> (ram s) /\ fs s' = fs s /\ sw s' = sw s /\ lru_anon s' = lru_anon s /\ pt s' = pt s.
Proof.
  intros Hi Hp Hph Hk Ha Hlen Htail. cbv zeta. set (s0 := put_frame s (p_phys p) l). set (q := with_dirty p true). unfold set_dirty. rewrite (page_lookup s0 r p Hp).
  set (s' := if p_dirty p then s0 else _).
  assert (Es : ram s' = <[p_phys p := l]> (ram s) /\ fs s' = fs s /\ sw s' = sw s /\ fr s' = fr s /\ lru_file s' = lru_file s /\ lru_anon s' = lru_anon s /\ pt s' = pt s)
    by (unfold s'; by destruct (p_dirty p)).
  destruct Es as (E1 & E2 & E3 & E4 & E5 & E6 & E7).
  assert (Hrep : replaced s s' r p q).
  { unfold s'. destruct (p_dirty p) eqn:Ed.
    - assert (q = p) as -> by (unfold q; destruct p; cbn in *; by subst). split; try done; [cbn; by rewrite insert_id |]. intros ob Ho. exists ob. split_and!; try done; [cbn; by rewrite insert_id |].
      destruct (counts_of ob) as [[a b] c], (share (p_owner p) p) as [[a' b'] c']. cbn. f_equal; [f_equal |]; lia.
    - unfold upd_page. rewrite (page_lookup s0 r p Hp). fold q. split; try done. intros ob Ho. unfold upd_obj. rewrite (obj_lookup (put_page s0 r q) _ ob Ho). eexists. split_and!; [reflexivity | done | done | done |].
      unfold counts_of, share, resident_of, dirty_of, out_of. cbn. rewrite Z.eqb_refl, Ed. cbn. f_equal; [f_equal |]; lia. }
  split_and!; try done. pose proof (rp_recs _ _ _ _ _ Hrep) as ER. destruct (i_cl _ _ Hi) as [C1 C2 C3].
  assert (Hother : forall y t, recs s !! y = Some t -> y <> r -> p_phys t <> 0 -> fbytes (ram s') (p_phys t) = fbytes (ram s) (p_phys t)).
  { intros y t Ht Hne Htp. rewrite E1. apply fbytes_insert_ne. intros E. apply Hne. symmetry. by apply (pl_inj _ _ _ _ _ (i_pl _ _ Hi) r y p t). }
  assert (Hfile : forall y t k', recs s !! y = Some t -> faces s !! p_owner t = Some k' -> k_anon k' = false -> p_phys t <> 0).
  { intros y t k' Ht Hk' Ha' E. destruct (pl_out _ _ _ _ _ (i_pl _ _ Hi) y t Ht E) as (_ & (k1 & ? & ?) & _). congruence. }
  apply (replaced_inv (Some r) None s s' r p q); [done | done | | |]; rewrite ER, ?E3, ?E4, ?E5, ?E6.
  - destruct (pl_set _ _ _ _ _ r p q (i_pl _ _ Hi) Hp eq_refl eq_refl eq_refl) as [P1 P2 P3 P4 P5 P6]. split; try done. intros y t Ht Htp. destruct (P3 y t Ht Htp) as (? & ? & Hl). split_and!; [done | done |].
    apply lookup_insert_Some in Ht as [[<- <-] | [Hne Ht]]; [cbn; rewrite E1, fbytes_insert_eq; done | by rewrite (Hother y)].
  - split; [| | by rewrite E2].
    + intros y t k' j Ht Hk' Ha' Hd _ Hj. apply lookup_insert_Some in Ht as [[<- <-] | [Hne Ht]]; [done |]. rewrite (Hother y t), E2 by (done || by apply (Hfile y t k')). apply (C1 y t k'); try done. congruence.
    + intros y t k' j Ht Hk' Ha' Hj Hs. apply lookup_insert_Some in Ht as [[<- <-] | [Hne Ht]].
      * cbn in Hk', Hs. rewrite Hk in Hk'. injection Hk' as <-. cbn. rewrite E1, fbytes_insert_eq. by apply Htail.
      * rewrite (Hother y t) by (done || by apply (Hfile y t k')). by apply (C2 y t k').
  - by apply (lr_set _ _ _ _ r p); [apply Hi | | |].
Qed.

(** What shows after it. *)
Lemma put_dirty_content s s' r p l : inv_but (Some r) s -> inv s' -> recs s !! r = Some p -> p_phys p <> 0 -> replaced s s' r p (with_dirty p true) ->
  ram s' = <[p_phys p := l]> (ram s) -> fs s' = fs s -> sw s' = sw s ->
  (forall j, 0 <= j < PAGE_SIZE -> content s' (p_owner p) (p_index p * PAGE_SIZE + j) = rd l j) /\ same_but (p_owner p) (p_index p) s s'.
Proof.
  intros Hi Hi' Hp Hph Hrep E1 E2 E3. destruct (replaced_views (Some r) s s' r p _ Hi Hrep) as (HF & HB & HI). pose proof (rp_recs _ _ _ _ _ Hrep) as ER. split.
  - intros j Hj. destruct (page_pos (p_index p) j Hj) as [Ed Em]. assert (Hp' : recs s' !! r = Some (with_dirty p true)) by (rewrite ER; apply lookup_insert_eq).
    change (p_owner p) with (p_owner (with_dirty p true)). rewrite (content_page s' r _ _ HI Hp') by done. rewrite Em. unfold bytes_of. cbn [p_phys with_dirty]. apply Z.eqb_neq in Hph.
    by rewrite Hph, E1, fbytes_insert_eq.
  - split; [done | apply Hrep | | by intros vn pos _ _; rewrite E2]. intros o' pos Ho Hpos _ Hne. unfold content.
    destruct (page_find s o' (pos / PAGE_SIZE)) as [y |] eqn:Ef.
    + apply (page_find_some s o' _ y (i_ix _ _ Hi) Ho) in Ef as (t & Ht & Eto & Eti). assert (Hyr : y <> r) by (intros ->; destruct Hne; congruence).
      assert (Ht' : recs s' !! y = Some t) by (rewrite ER, lookup_insert_ne; done).
      rewrite (proj2 (page_find_some s' o' (pos / PAGE_SIZE) y HI ltac:(by apply (faces_is_Some s s' o' HF)))) by eauto. rewrite (page_lookup s' y t Ht'), (page_lookup s y t Ht). unfold bytes_of.
      destruct (p_phys t =? 0) eqn:E; [by rewrite E3 |]. b2p. rewrite E1, fbytes_insert_ne; [done |]. intros Ep. apply Hyr. symmetry. by apply (pl_inj _ _ _ _ _ (i_pl _ _ Hi) r y p t).
    + rewrite (proj2 (page_find_none s' o' (pos / PAGE_SIZE) HI ltac:(by apply (faces_is_Some s s' o' HF)))); [by apply backing_faces |].
      intros y t Ht Eto Eti. rewrite ER in Ht. apply lookup_insert_Some in Ht as [[<- <-] | [_ Ht]]; [cbn in Eto, Eti; destruct Hne; congruence |].
      by apply (proj1 (page_find_none s o' _ (i_ix _ _ Hi) Ho) Ef y t).
Qed.

(** [if (off + done > o->size) o->size = off + done] *)
Definition grow_to s (o n : Z) : cache := if o_size (obj s o) <? n then upd_obj s o (fun ob => with_size ob n) else s.

Lemma size_touch s o n r : upd_obj (lru_touch s r) o (fun ob => with_size ob n) = lru_touch (upd_obj s o (fun ob => with_size ob n)) r.
Proof.
  assert (Ea : on_anon (upd_obj s o (fun ob => with_size ob n)) r = on_anon s r).
  { unfold on_anon. change (page (upd_obj s o (fun ob => with_size ob n)) r) with (page s r). unfold upd_obj, obj at 1, put_obj. cbn.
    destruct (decide (p_owner (page s r) = o)) as [-> | Hne]; [by rewrite lookup_insert_eq | by rewrite lookup_insert_ne]. }
  unfold lru_touch. rewrite Ea. by destruct (on_anon s r).
Qed.

Lemma size_dirty s o n r : upd_obj (set_dirty s o r) o (fun ob => with_size ob n) = set_dirty (upd_obj s o (fun ob => with_size ob n)) o r.
Proof.
  unfold set_dirty. change (page (upd_obj s o (fun ob => with_size ob n)) r) with (page s r). destruct (p_dirty (page s r)); [done |].
  unfold upd_obj, upd_page. set (q := with_dirty _ _). unfold put_obj, obj. cbn. rewrite !lookup_insert_eq. cbn. by rewrite !insert_insert_eq.
Qed.

(** The size could as well have been set first. *)
Lemma grow_first s o n r phys l :
  grow_to (lru_touch (set_dirty (put_frame s phys l) o r) r) o n = lru_touch (set_dirty (put_frame (grow_to s o n) phys l) o r) r.
Proof.
  assert (Hsz : o_size (obj (lru_touch (set_dirty (put_frame s phys l) o r) r) o) = o_size (obj s o)).
  { unfold obj at 1. destruct (touch_rest (set_dirty (put_frame s phys l) o r) r) as (-> & _). unfold set_dirty. destruct (p_dirty _); [done |]. cbn. by rewrite lookup_insert_eq. }
  unfold grow_to. rewrite Hsz. destruct (_ <? n); [| done]. by rewrite size_touch, size_dirty.
Qed.

Definition overlay (c : Z -> Z) (off : Z) (l : list Z) (pos : Z) : Z := if (off <=? pos) && (pos <? off + zlen l) then rd l (pos - off) else c pos.
Definition size_after (size off : Z) (l : list Z) : Z := if zlen l =? 0 then size else Z.max size (off + zlen l).

(** The bytes written are firm from then on. *)
Definition firmer (F : Firm) (vn : vnode) (off n : Z) : Firm := fun vn' pos => firm vn' pos || (same_file vn vn' && (off <=? pos) && (pos <? off + n)).

(** A byte that the write promises: a firm one, or one of its own. *)
Definition settled s (o off : Z) (l : list Z) (o' pos : Z) : Prop := steady s o' pos \/ (o' = o /\ off <= pos < off + zlen l).

(** The object has the bytes written, the size that follows, and nothing else shows. *)
Record wrote s s' (o : Z) (ob : vm_object) (off : Z) (l : list Z) : Prop := {
  wr_inv : inv (FM := firmer FM (o_vn ob) off (zlen l)) s';
  wr_faces : faces s' = <[o := face_of (with_size ob (size_after (o_size ob) off l))]> (faces s);
  wr_registry : registry s' = registry s;
  wr_content o' pos : is_Some (objs s !! o') -> 0 <= pos -> settled s o off l o' pos ->
    content s' o' pos = if o' =? o then overlay (content s o) off l pos else content s o' pos;
  wr_device vn pos : 0 <= pos -> uncached s vn -> file_byte vn pos (fs s') = file_byte vn pos (fs s);
}.

Lemma grow_to_ok x s o ob n : inv_but x s -> objs s !! o = Some ob -> n <= FILE_MAX ->
  inv_but x (grow_to s o n) /\ faces (grow_to s o n) = <[o := face_of (with_size ob (Z.max (o_size ob) n))]> (faces s) /\ registry (grow_to s o n) = registry s
  /\ recs (grow_to s o n) = recs s /\ ram (grow_to s o n) = ram s /\ lru_anon (grow_to s o n) = lru_anon s /\ pt (grow_to s o n) = pt s
  /\ forall o' pos, content (grow_to s o n) o' pos = content s o' pos.
Proof.
  intros Hi Ho Hn. unfold grow_to. rewrite (obj_lookup s o ob Ho). destruct (o_size ob <? n) eqn:E; b2p.
  - destruct (inv_grow_size x s o ob n Hi Ho ltac:(lia)) as [Hi' Hr]. rewrite Z.max_r by lia. split_and!; try done; [apply (refaced_views _ _ _ _ _ Hr) |]. intros o' pos. apply content_resized. eauto.
  - rewrite Z.max_l by lia. split_and!; try done. symmetry. apply insert_id. unfold faces. rewrite lookup_fmap, Ho. by destruct ob.
Qed.

Lemma write_content s s1 t s3 s4 o index within l r p L (wanted : Prop) :
  have s s1 o index wanted r -> recs s1 !! r = Some p -> p_owner p = o -> p_index p = index -> p_phys p <> 0 -> Ix (indexes s1) (recs s1) ->
  (forall o' pos, content t o' pos = content s1 o' pos) -> same_but o index t s3 -> (forall o' pos, content s4 o' pos = content s3 o' pos) -> faces s1 = faces s ->
  is_Some (objs s !! o) -> (forall o', is_Some (objs s !! o') -> is_Some (objs t !! o')) -> (forall o' pos, steady s o' pos -> steady t o' pos) ->
  (forall j, 0 <= j < PAGE_SIZE -> content s3 o (index * PAGE_SIZE + j) = rd L j) ->
  (forall j, within <= j < within + zlen l -> rd L j = rd l (j - within)) ->
  (forall j, 0 <= j < PAGE_SIZE -> j < within \/ within + zlen l <= j -> rd L j = rd (frame s1 (p_phys p)) j) ->
  0 <= within -> within + zlen l <= PAGE_SIZE -> ((within = 0 /\ zlen l = PAGE_SIZE) \/ wanted) ->
  forall o' pos, is_Some (objs s !! o') -> 0 <= pos -> settled s o (index * PAGE_SIZE + within) l o' pos ->
    content s4 o' pos = if o' =? o then overlay (content s o) (index * PAGE_SIZE + within) l pos else content s o' pos.
Proof.
  intros Hh Hp Eo Ei Hph HI1 Ct1 Sb3 S4 HF Hos Hot Hts Hin Hnew Hold Hw Hwl Hwant o' pos Ho' Hpos Hset. pose proof (Hot o' Ho') as Hot'.
  rewrite S4. destruct (page_split pos) as [Edm Hm].
  destruct (decide (o' = o /\ pos / PAGE_SIZE = index)) as [[-> Ex] | Hne].
  - rewrite Z.eqb_refl. rewrite Ex in Edm. set (j := pos mod PAGE_SIZE) in *. rewrite Edm at 1. rewrite (Hin j Hm). unfold overlay.
    destruct ((_ <=? pos) && (pos <? _)) eqn:Ec; [apply andb_true_iff in Ec as [? ?]; b2p; rewrite Hnew by lia; f_equal; lia |].
    assert (Hout : j < within \/ within + zlen l <= j) by (apply andb_false_iff in Ec as [? | ?]; b2p; lia).
    rewrite (Hold j Hm Hout). destruct Hwant as [? | Hwt]; [lia |]. destruct (hv_wanted _ _ _ _ _ _ Hh Hwt) as [_ S1].
    assert (Hst : steady s o pos) by (destruct Hset as [? | [_ ?]]; [done | lia]).
    rewrite <- (sm_content _ _ S1 o pos Hos Hpos Hst), <- Eo, (content_page s1 r p pos HI1 Hp) by congruence. unfold bytes_of. apply Z.eqb_neq in Hph. by rewrite Hph.
  - assert (Hne' : o' <> o \/ pos / PAGE_SIZE <> index) by (destruct (decide (o' = o)); [right | left]; tauto).
    assert (Hst : steady s o' pos).
    { destruct Hset as [? | [-> ?]]; [done |]. destruct Hne' as [? | Hne']; [done |]. destruct Hne'. replace pos with (index * PAGE_SIZE + (pos - index * PAGE_SIZE)) by lia. apply page_pos. lia. }
    rewrite (sb_content _ _ _ _ Sb3 o' pos Hot' Hpos (Hts o' pos Hst) Hne'), Ct1, (sb_content _ _ _ _ (hv_same _ _ _ _ _ _ Hh) o' pos Ho' Hpos Hst Hne').
    destruct (o' =? o) eqn:E; [| done]. b2p. subst o'. unfold overlay. destruct ((_ <=? pos) && (pos <? _)) eqn:Ec; [| done]. apply andb_true_iff in Ec as [? ?]. b2p.
    exfalso. destruct Hne' as [? | Hne']; [done |]. apply Hne'. replace pos with (index * PAGE_SIZE + (pos - index * PAGE_SIZE)) by lia. apply page_pos. lia.
Qed.

(** A page that is dirty and within the file asks nothing of the device. *)
Lemma inv_firmer s o ob r p off n : inv s -> objs s !! o = Some ob -> o_anon ob = false -> recs s !! r = Some p -> p_owner p = o -> p_dirty p = true ->
  p_index p * PAGE_SIZE <= off -> off + n <= (p_index p + 1) * PAGE_SIZE -> off + n <= o_size ob -> inv (FM := firmer FM (o_vn ob) off n) s.
Proof.
  intros Hi Ho Ha Hp Eo Hd H1' H2' Hsz. destruct Hi as [A B C D [E1 E2 E3] I J]. split; try done.
  assert (Hk : faces s !! o = Some (face_of ob)) by (unfold faces; by rewrite lookup_fmap, Ho).
  assert (Hone : forall o' k, faces s !! o' = Some k -> k_anon k = false -> same_file (o_vn ob) (k_vn k) = true -> o' = o /\ k = face_of ob).
  { intros o' k Hk' Ha' Hs. pose proof (kd_one _ _ C o o' (face_of ob) k Hk Hk' Ha Ha' Hs) as <-. split; congruence. }
  assert (Hin : forall y t k j, recs s !! y = Some t -> faces s !! p_owner t = Some k -> k_anon k = false -> 0 <= j < PAGE_SIZE ->
    firmer FM (o_vn ob) off n (k_vn k) (p_index t * PAGE_SIZE + j) = true -> firm (k_vn k) (p_index t * PAGE_SIZE + j) = true \/ (y = r /\ k = face_of ob /\ p_index t * PAGE_SIZE + j < off + n)).
  { intros y t k j Ht Hk' Ha' Hj [? | [[Hs ?]%andb_true_iff ?]%andb_true_iff]%orb_true_iff; [by left | right]. b2p. destruct (Hone _ k Hk' Ha' Hs) as [Et ->]. split_and!; [| done | done].
    apply (ix_uniq _ _ A y r t p); [done | done | congruence |]. unfold PAGE_SIZE in *. lia. }
  split; [| | done].
  - intros y t k j Ht Hk' Ha' Hdt Hx Hj Hf. destruct (Hin y t k j Ht Hk' Ha' Hj Hf) as [? | (-> & _)]; [by apply (E1 y t k) |]. congruence.
  - intros y t k j Ht Hk' Ha' Hj Hs Hf. destruct (Hin y t k j Ht Hk' Ha' Hj Hf) as [? | (-> & -> & ?)]; [by apply (E2 y t k) |]. cbn in Hs. lia.
Qed.

Lemma steady_resized s s' o ob n o' pos : objs s !! o = Some ob -> faces s' = <[o := face_of (with_size ob n)]> (faces s) -> steady s o' pos -> steady s' o' pos.
Proof.
  intros Ho HF Hst k Hk Ha. rewrite HF in Hk. apply lookup_insert_Some in Hk as [[<- <-] | [_ Hk]]; [| by apply Hst].
  apply (Hst (face_of ob)); [unfold faces; by rewrite lookup_fmap, Ho | done].
Qed.

Lemma write_step s s1 o ob index within l r p (wanted : Prop) :
  inv s -> objs s !! o = Some ob -> o_anon ob = false -> have s s1 o index wanted r -> recs s1 !! r = Some p ->
  0 <= within -> 0 < zlen l -> within + zlen l <= PAGE_SIZE -> ((within = 0 /\ zlen l = PAGE_SIZE) \/ wanted) -> 0 <= index < PAGE_MAX -> index * PAGE_SIZE + within + zlen l <= FILE_MAX ->
  let s' := grow_to (lru_touch (set_dirty (put_frame s1 (p_phys p) (blit (frame s1 (p_phys p)) within l)) o r) r) o (index * PAGE_SIZE + within + zlen l) in
  wrote s s' o ob (index * PAGE_SIZE + within) l /\ lru_anon s' = lru_anon s1 /\ pt s' = pt s1.
Proof.
  intros Hi Ho Ha Hh Hp Hw Hl Hwl Hwant Hx Hmax. cbv zeta. set (off := index * PAGE_SIZE + within) in *. set (n := off + zlen l) in *.
  destruct (hv_page _ _ _ _ _ _ Hh) as (p' & Hp' & Eo & Ei & Hph). assert (p' = p) as -> by congruence. pose proof (hv_inv _ _ _ _ _ _ Hh) as Hi1. pose proof (hv_same _ _ _ _ _ _ Hh) as Sb.
  destruct (object_same s s1 o ob (sb_faces _ _ _ _ Sb) Ho) as (ob1 & Ho1 & Ef). rewrite grow_first.
  destruct (grow_to_ok (Some r) s1 o ob1 n Hi1 Ho1 Hmax) as (Hi2 & F2 & R2 & E2 & M2 & L2 & T2 & C2). set (t := grow_to s1 o n) in *.
  set (L := blit (frame s1 (p_phys p)) within l). set (k := face_of (with_size ob1 (Z.max (o_size ob1) n))) in *.
  assert (Hpt : recs t !! r = Some p) by by rewrite E2. assert (Hkt : faces t !! p_owner p = Some k) by (rewrite Eo, F2; apply lookup_insert_eq).
  destruct (pl_in _ _ _ _ _ (i_pl _ _ Hi1) r p Hp Hph) as (_ & _ & Hflen). change (fbytes (ram s1) (p_phys p)) with (frame s1 (p_phys p)) in Hflen.
  assert (HL : zlen L = PAGE_SIZE) by (unfold L; rewrite blit_length by lia; done).
  assert (Hnew : forall j, within <= j < within + zlen l -> rd L j = rd l (j - within)) by (intros j Hj; apply rd_blit_eq; lia).
  assert (Hold : forall j, 0 <= j < PAGE_SIZE -> j < within \/ within + zlen l <= j -> rd L j = rd (frame s1 (p_phys p)) j) by (intros j Hj Hj'; apply rd_blit_ne; lia).
  assert (Hka : k_anon k = false) by (change (k_anon (face_of ob1) = false); by rewrite Ef).
  destruct (put_dirty t r p k L Hi2 Hpt Hph Hkt Hka HL) as (Hi3 & Hrep & M3 & D3 & W3 & L3 & T3).
  { intros j Hj Hs Hfm. cbn in Hs. rewrite Ei in Hs. rewrite Hold by (unfold n, off in *; lia). change (frame s1 (p_phys p)) with (fbytes (ram s1) (p_phys p)). rewrite <- M2.
    apply (cl_tail _ _ _ _ _ (i_cl _ _ Hi2) r p k); try done. cbn. by rewrite Ei. }
  rewrite Eo in *. set (s3 := set_dirty (put_frame t (p_phys p) L) o r) in *.
  destruct (put_dirty_content t s3 r p L Hi2 Hi3 Hpt Hph Hrep M3 D3 W3) as [Hin3 Sb3]. rewrite Eo, Ei in *.
  assert (Hp3 : recs s3 !! r = Some (with_dirty p true)) by (rewrite (rp_recs _ _ _ _ _ Hrep); apply lookup_insert_eq).
  destruct (keeps_touch None s3 r (with_dirty p true) Hi3 Hp3 Hph) as [Hi4 S4]. destruct (touch_rest s3 r) as (_ & _ & _ & _ & _ & _ & T4 & _ & L4).
  assert (Eon : on_anon s3 r = false).
  { rewrite (on_anon_face s3 r (with_dirty p true) k Hp3); [done |]. cbn. rewrite (sb_faces _ _ _ _ Sb3), Eo. done. }
  rewrite Eon in L4. split_and!; [| by rewrite L4, L3, L2 | by rewrite T4, T3, T2].
  assert (F4 : faces (lru_touch s3 r) = <[o := face_of (with_size ob (size_after (o_size ob) off l))]> (faces s)).
  { rewrite (sm_faces _ _ S4), (sb_faces _ _ _ _ Sb3), F2, (sb_faces _ _ _ _ Sb). f_equal. unfold k, size_after, n. rewrite (proj2 (Z.eqb_neq (zlen l) 0)) by lia.
    unfold face_of in *. cbn. by injection Ef as -> -> -> -> -> -> ->. }
  split; [| done | | |].
  - assert (Hk4 : faces (lru_touch s3 r) !! o = Some (face_of (with_size ob (size_after (o_size ob) off l)))) by (rewrite F4; apply lookup_insert_eq).
    destruct (faces_lookup _ _ _ Hk4) as (ob4 & Ho4 & Ef4). replace (o_vn ob) with (o_vn ob4) by (by injection Ef4).
    apply (inv_firmer _ o ob4 r (with_dirty p true)); try done; [injection Ef4 as _ _ <- _ _ _ _; done | rewrite (proj1 (proj2 (touch_rest s3 r))); done | cbn; lia | cbn; lia |].
    injection Ef4 as _ <- _ _ _ _ _. unfold size_after. rewrite (proj2 (Z.eqb_neq (zlen l) 0)) by lia. lia.
  - by rewrite (sm_registry _ _ S4), (sb_registry _ _ _ _ Sb3), R2, (sb_registry _ _ _ _ Sb).
  - assert (Hobjs : forall o', is_Some (objs s !! o') -> is_Some (objs t !! o')).
    { intros o' Ho'. apply (fmap_is_Some face_of). rewrite <- lookup_fmap. fold (faces t). rewrite F2. apply lookup_insert_is_Some'. right. rewrite (sb_faces _ _ _ _ Sb).
      unfold faces. rewrite lookup_fmap. by apply fmap_is_Some. }
    assert (Hos : is_Some (objs s !! o)) by eauto. pose proof (sb_faces _ _ _ _ Sb) as HF1. pose proof (i_ix _ _ Hi1) as HI1.
    apply (write_content s s1 t s3 (lru_touch s3 r) o index within l r p L wanted); try done.
    + intros o' pos. apply content_touch.
    + intros o' pos Hst. apply (steady_resized s1 t o ob1 (Z.max (o_size ob1) n)); [done | done |]. by apply (steady_faces s).
  - intros vn pos Hpos Hu. destruct (touch_rest s3 r) as (_ & _ & _ & _ & -> & _). rewrite D3. unfold t, grow_to. destruct (_ <? n); by apply (sb_device _ _ _ _ Sb).
Qed.

Lemma wrote_nil s o ob off : inv s -> objs s !! o = Some ob -> wrote s s o ob off [].
Proof.
  intros Hi Ho. split; [| | done | | done].
  - apply (inv_mono FM); [| done]. intros vn pos. unfold firm, firmer. rewrite zlen_nil. intros [? | [[_ ?]%andb_true_iff ?]%andb_true_iff]%orb_true_iff; [done | b2p; lia].
  - symmetry. apply insert_id. unfold faces, size_after. rewrite zlen_nil, lookup_fmap, Ho. by destruct ob.
  - intros o' pos _ _ _. unfold overlay. rewrite zlen_nil. destruct (o' =? o) eqn:E; b2p; [| done]. destruct (_ && _) eqn:Ec; [apply andb_true_iff in Ec as [? ?]; b2p; lia | by subst].
Qed.

Lemma wrote_objects s s' o ob off l o' : wrote s s' o ob off l -> is_Some (objs s !! o') -> is_Some (objs s' !! o').
Proof.
  intros Hw Ho'. apply (fmap_is_Some face_of). rewrite <- lookup_fmap. fold (faces s'). rewrite (wr_faces _ _ _ _ _ _ Hw). apply lookup_insert_is_Some'. right. unfold faces. rewrite lookup_fmap. by apply fmap_is_Some.
Qed.

Lemma wrote_uncached s s' o ob off l vn : objs s !! o = Some ob -> wrote s s' o ob off l -> uncached s vn -> uncached s' vn.
Proof.
  intros Ho Hw Hu o' k Hk Ha. rewrite (wr_faces _ _ _ _ _ _ Hw) in Hk. apply lookup_insert_Some in Hk as [[<- <-] | [_ Hk]]; [| by apply (Hu o' k)].
  apply (Hu o (face_of ob)); [unfold faces; by rewrite lookup_fmap, Ho | done].
Qed.

(** Nothing was written. *)
Lemma wrote_none s s' o ob off : objs s !! o = Some ob -> keeps None s s' -> wrote s s' o ob off [].
Proof.
  intros Ho [Hi' [F R C D]]. destruct (object_same s s' o ob F Ho) as (ob' & Ho' & Ef). destruct (wrote_nil s' o ob' off Hi' Ho') as [A1 A2 A3 A4 A5].
  split; [by replace (o_vn ob) with (o_vn ob') by (by injection Ef) | | done | | done].
  - rewrite A2, F. f_equal. unfold face_of in *. cbn. by injection Ef as -> -> -> -> -> -> ->.
  - intros o1 pos Ho1 Hpos Hset. rewrite C; [| done | done |]; [| destruct Hset as [? | [_ ?]]; [done | rewrite zlen_nil in *; lia]].
    unfold overlay. rewrite zlen_nil. destruct (o1 =? o) eqn:E; b2p; [| done]. destruct (_ && _) eqn:Ec; [apply andb_true_iff in Ec as [? ?]; b2p; lia | by subst].
Qed.

Lemma overlay_outside c c' off l pos : (pos < off \/ off + zlen l <= pos -> c pos = c' pos) -> overlay c off l pos = overlay c' off l pos.
Proof. intros E. unfold overlay. destruct (_ && _) eqn:Ec; [done |]. apply E. apply andb_false_iff in Ec as [? | ?]; b2p; lia. Qed.

Lemma overlay_ext c c' off l pos : c pos = c' pos -> overlay c off l pos = overlay c' off l pos.
Proof. intros E. unfold overlay. by rewrite E. Qed.

Lemma overlay_app c off l1 l2 pos : overlay (overlay c off l1) (off + zlen l1) l2 pos = overlay c off (l1 ++ l2) pos.
Proof.
  unfold overlay. rewrite zlen_app. pose proof (zlen_nonneg l1). pose proof (zlen_nonneg l2).
  destruct ((off + zlen l1 <=? pos) && (pos <? off + zlen l1 + zlen l2)) eqn:E2, ((off <=? pos) && (pos <? off + (zlen l1 + zlen l2))) eqn:E3,
    ((off <=? pos) && (pos <? off + zlen l1)) eqn:E1; rewrite ?andb_true_iff, ?andb_false_iff, ?Z.leb_le, ?Z.leb_gt, ?Z.ltb_lt, ?Z.ltb_ge in *; try lia.
  - rewrite rd_app_r by (unfold zlen in *; lia). f_equal. unfold zlen. lia.
  - by rewrite rd_app_l by (unfold zlen in *; lia).
Qed.

Lemma wrote_object s s' o ob off l : objs s !! o = Some ob -> wrote s s' o ob off l -> exists ob', objs s' !! o = Some ob' /\ face_of ob' = face_of (with_size ob (size_after (o_size ob) off l)).
Proof.
  intros Ho Hw. assert (Hk : faces s' !! o = Some (face_of (with_size ob (size_after (o_size ob) off l)))) by (rewrite (wr_faces _ _ _ _ _ _ Hw); apply lookup_insert_eq).
  destruct (faces_lookup s' _ _ Hk) as (ob' & ? & E). eauto.
Qed.

End File.

(** Each page written makes its bytes firm for the pages after it. *)
Section Pages.
Context {Fr FS SW PT HP : Type} `{FrameLaws Fr} `{FileLaws FS} `{SlotLaws SW} `{TableLaws PT} `{HeapLaws HP}.

Local Abbreviation cache := (@cache Fr FS SW PT HP).
Implicit Types (s : cache) (F : Firm).

Lemma wrote_app F s s1 s2 o ob ob1 off l1 l2 : objs s1 !! o = Some ob1 -> face_of ob1 = face_of (with_size ob (size_after (o_size ob) off l1)) ->
  objs s !! o = Some ob -> o_anon ob = false -> wrote s s1 o ob off l1 -> wrote (FM := firmer F (o_vn ob) off (zlen l1)) s1 s2 o ob1 (off + zlen l1) l2 -> wrote s s2 o ob off (l1 ++ l2).
Proof.
  intros Ho1 Ef Ho Ha Hw1 [A2 B2 C2 D2 V2]. destruct (Hw1) as [A1 B1 C1 D1 V1]. assert (Hos : is_Some (objs s !! o)) by eauto. assert (Hsz : o_size ob1 = size_after (o_size ob) off l1) by (by injection Ef).
  assert (Hvn : o_vn ob1 = o_vn ob) by (by injection Ef). pose proof (zlen_nonneg l1). pose proof (zlen_nonneg l2). split; [| | congruence | |].
  - apply (inv_mono (firmer (firmer F (o_vn ob) off (zlen l1)) (o_vn ob1) (off + zlen l1) (zlen l2))); [| exact A2]. intros vn pos. unfold firm, firmer, firm. rewrite zlen_app, Hvn. intros [-> | [[-> ?]%andb_true_iff ?]%andb_true_iff]%orb_true_iff; [done |]. b2p.
    destruct (F vn pos); [done |]. cbn [orb andb]. destruct (off <=? pos) eqn:E1, (pos <? off + zlen l1) eqn:E2, (off + zlen l1 <=? pos) eqn:E3, (pos <? off + zlen l1 + zlen l2) eqn:E4; b2p; (done || lia).
  - rewrite B2, B1, insert_insert_eq. f_equal. assert (Es : size_after (o_size ob1) (off + zlen l1) l2 = size_after (o_size ob) off (l1 ++ l2)).
    { rewrite Hsz. unfold size_after. rewrite zlen_app. repeat case_if; lia. }
    rewrite Es. unfold face_of in *. cbn in *. by injection Ef as -> _ -> -> -> -> ->.
  - intros o' pos Ho' Hpos Hset.
    assert (Ho1' : is_Some (objs s1 !! o')) by (by apply (wrote_objects s s1 o ob off l1)).
    assert (Hset2 : settled (FM := firmer F (o_vn ob) off (zlen l1)) s1 o (off + zlen l1) l2 o' pos).
    { destruct Hset as [Hst | [-> Hr]]; [left | destruct (decide (off + zlen l1 <= pos)); [right; split; [done | rewrite zlen_app in Hr; lia] | left]].
      - apply (steady_resized (FM := firmer F (o_vn ob) off (zlen l1)) s s1 o ob _ o' pos Ho B1). intros k Hk Hka. unfold firm, firmer. by rewrite (Hst k Hk Hka).
      - intros k Hk _. rewrite B1, lookup_insert_eq in Hk. injection Hk as <-. cbn [k_vn face_of with_size]. unfold firm, firmer. rewrite same_file_refl, orb_true_iff, !andb_true_iff, Z.leb_le, Z.ltb_lt. right. split_and!; [done | lia | lia]. }
    rewrite (D2 o' pos Ho1' Hpos Hset2). destruct (o' =? o) eqn:E; b2p.
    + subst o'. rewrite <- overlay_app. apply overlay_outside. intros Hout. rewrite (D1 o pos Hos Hpos), Z.eqb_refl; [done |].
      destruct Hset as [? | [_ Hr]]; [by left | right; split; [done | rewrite zlen_app in Hr; lia]].
    + rewrite (D1 o' pos Ho' Hpos); [by rewrite (proj2 (Z.eqb_neq _ _) E) |]. destruct Hset as [? | [? _]]; [by left | done].
  - intros vn pos Hpos Hu. rewrite V2, V1; [done | done | done | done |]. by apply (wrote_uncached s s1 o ob off l1).
Qed.

Lemma write_loop_ok fuel o off src n : forall F s ob done,
  inv s -> objs s !! o = Some ob -> o_anon ob = false -> enough fuel s -> 0 <= off -> 0 <= done <= zlen src -> off + zlen src <= FILE_MAX -> pages_left off (zlen src) done <= Z.of_nat n ->
  exists rc m s', write_loop n fuel o off src done s = Some (rc, done + m, s') /\ wrote s s' o ob (off + done) (sub src done m) /\ 0 <= m /\ done + m <= zlen src
    /\ ((rc = Errno.EMBK_OK /\ done + m = zlen src)
        \/ (rc = (if done + m =? 0 then - Errno.EMBK_ENOMEM else Errno.EMBK_OK) /\ stuck fuel o (off + (done + m)) s')).
Proof.
  induction n as [| n IH]; intros F s ob done Hi Ho Ha He Hoff Hd Hmax Hn; cbn [write_loop].
  all: assert (Hend : done = zlen src -> exists rc m s', Some (Errno.EMBK_OK, done, s) = Some (rc, done + m, s') /\ wrote s s' o ob (off + done) (sub src done m) /\ 0 <= m /\ done + m <= zlen src
         /\ ((rc = Errno.EMBK_OK /\ done + m = zlen src)
             \/ (rc = (if done + m =? 0 then - Errno.EMBK_ENOMEM else Errno.EMBK_OK) /\ stuck fuel o (off + (done + m)) s')))
       by (intros ->; exists Errno.EMBK_OK, 0, s; rewrite Z.add_0_r; split_and!; [done | by apply wrote_nil | done | lia | by left]).
  - apply Hend. unfold pages_left in Hn. case_if_in Hn; [| lia]. assert ((off + done) / PAGE_SIZE <= (off + zlen src - 1) / PAGE_SIZE) by (apply Z.div_le_mono; [done | lia]). lia.
  - destruct (done <? zlen src) eqn:Ed; [b2p | apply Hend; b2p; lia]. rewrite (u64_small (off + done)) by (unfold FILE_MAX in *; lia).
    destruct (pages_left_step off (zlen src) done Hoff ltac:(lia)) as (C1 & C2 & C3 & C4 & _). set (within := (off + done) mod PAGE_SIZE) in *. set (chunk := if zlen src - done <? PAGE_SIZE - within then _ else _) in *.
    destruct (page_split (off + done)) as [Edm Hm]. fold within in Edm, Hm. set (index := (off + done) / PAGE_SIZE) in *.
    assert (Hx : 0 <= index < PAGE_MAX) by (unfold PAGE_SIZE, FILE_MAX, PAGE_MAX in *; lia). rewrite (u64_small (index * PAGE_SIZE)) by (unfold PAGE_SIZE, PAGE_MAX in *; lia).
    rewrite (obj_lookup s o ob Ho). set (full := (within =? 0) && (chunk =? PAGE_SIZE)). set (past_eof := o_size ob <=? index * PAGE_SIZE).
    pose proof (page_get_ok fuel s o ob index (full || past_eof) Hi Ho Hx) as Hg. destruct (page_get fuel s o index (full || past_eof)) as [[[r |] s1] |] eqn:Eg; cbn in Hg; [| | done].
    + destruct Hg as [Hh He1]. destruct (hv_page _ _ _ _ _ _ Hh) as (p & Hp & Eo & Ei & Hph). rewrite (page_lookup s1 r p Hp).
      assert (Hchunk : zlen (sub src done chunk) = chunk) by (apply sub_length; lia).
      destruct (write_step s s1 o ob index within (sub src done chunk) r p _ Hi Ho Ha Hh Hp) as (W1 & L1 & T1); try done; [lia | lia | lia | | lia |].
      { rewrite Hchunk. destruct full eqn:Efu; [left; unfold full in Efu; apply andb_true_iff in Efu as [? ?]; b2p; lia | right]. destruct past_eof eqn:Epe; [right | by left].
        intros j Hj _. unfold past_eof in Epe. b2p. unfold backing. rewrite (obj_lookup s o ob Ho). destruct (op_of _ _); [| done].
        apply (cl_zero _ _ _ _ _ (i_cl _ _ Hi) o (face_of ob)); [unfold faces; by rewrite lookup_fmap, Ho | done | cbn; lia]. }
      rewrite Hchunk, <- Edm in W1, L1, T1. rewrite (u64_small (off + (done + chunk))) by (unfold FILE_MAX in *; lia). replace (off + (done + chunk)) with (off + done + chunk) by lia.
      fold (grow_to (lru_touch (set_dirty (put_frame s1 (p_phys p) (blit (frame s1 (p_phys p)) within (sub src done chunk))) o r) r) o (off + done + chunk)).
      set (s2 := grow_to _ o _) in *. destruct (wrote_object s s2 o ob _ _ Ho W1) as (ob2 & Ho2 & Ef2).
      assert (Ha2 : o_anon ob2 = false) by (change (k_anon (face_of ob2) = false); rewrite Ef2; done).
      assert (He2 : enough fuel s2) by (specialize (He1 Ha He); unfold enough in *; rewrite L1, T1; done).
      destruct (IH _ s2 ob2 (done + chunk) (wr_inv _ _ _ _ _ _ W1) Ho2 Ha2 He2 Hoff ltac:(lia) Hmax ltac:(lia)) as (rc & m & s' & E & W2 & Hm0 & Hle & Hres).
      exists rc, (chunk + m), s'. rewrite E. replace (done + (chunk + m)) with (done + chunk + m) by lia. split_and!; [done | | lia | lia | done].
      rewrite sub_split by lia. apply (wrote_app F s s2 s' o ob ob2); [done | done | done | done | done |]. rewrite Hchunk in *. by replace (off + done + chunk) with (off + (done + chunk)) by lia.
    + exists (if done =? 0 then - Errno.EMBK_ENOMEM else Errno.EMBK_OK), 0, s1. destruct Hg as [[Hi1 S1] _]. rewrite Z.add_0_r. split_and!; [done | | done | lia | right; split; [done | by exists s, (full || past_eof)]].
      by apply wrote_none.
Qed.

(** ** The calls *)

Lemma vmo_check_write_file s o ob : objs s !! o = Some ob -> vmo_check_write s o = if o_anon ob then 0 else match op_of (o_vn ob) file_check_write with Some check => check (fs s) | None => 0 end.
Proof. intros Ho. unfold vmo_check_write. by rewrite (obj_lookup s o ob Ho). Qed.

Lemma write_locked_ok F fuel s o ob off src :
  inv s -> objs s !! o = Some ob -> o_anon ob = false -> enough fuel s -> 0 <= off -> off + zlen src <= FILE_MAX ->
  exists rc m s', write_locked fuel s o off src = Some (rc, m, s') /\ wrote s s' o ob off (take (Z.to_nat m) src) /\ 0 <= m <= zlen src
    /\ ((vmo_check_write s o = 0 /\ rc = Errno.EMBK_OK /\ m = zlen src)
        \/ (vmo_check_write s o <> 0 /\ rc = vmo_check_write s o /\ m = 0)
        \/ (rc = (if m =? 0 then - Errno.EMBK_ENOMEM else Errno.EMBK_OK) /\ stuck fuel o (off + m) s')).
Proof.
  intros Hi Ho Ha He Hoff Hmax. pose proof (zlen_nonneg src). unfold write_locked. destruct (vmo_check_write s o =? 0) eqn:Ec; b2p; cbn [negb].
  - rewrite (proj2 (Z.ltb_ge (UINT64_MAX - off) (zlen src))) by (unfold UINT64_MAX, FILE_MAX in *; lia).
    destruct (write_loop_ok fuel o off src (iterations (zlen src)) F s ob 0 Hi Ho Ha He Hoff ltac:(lia) Hmax ltac:(apply iterations_enough; lia)) as (rc & m & s' & E & W & Hm & Hle & Hres).
    rewrite !Z.add_0_l, ?Z.add_0_r in *. rewrite sub_0 in W. exists rc, m, s'. split_and!; try done. destruct Hres as [[-> ->] | Hres]; [by left | by right; right].
  - exists (vmo_check_write s o), 0, s. split_and!; [done | by apply wrote_nil | done | done | right; left; done].
Qed.
End Pages.
