(* ===== verification/PageCacheOps.v ===== *)
(** * The page cache: objects, mappings, truncation

    The operations that change what an object is or how long it lives: each
    keeps the invariant, and says what happens to the bytes. *)

From S2P Require Import Prelude Bytes Vfs PageCache PageCacheInv PageCacheSteps PageCacheReclaim PageCacheAccess PageCacheGet PageCacheFile.

Section Ops.
Context {Fr FS SW PT HP : Type} `{FrameLaws Fr} `{FileLaws FS} `{SlotLaws SW} `{TableLaws PT} `{HeapLaws HP} {FM : Firm}.

Local Abbreviation cache := (@cache Fr FS SW PT HP).
Implicit Types (s : cache) (K : gmap Z face) (R : gmap rid vmo_page) (m : gmap Z (list Z)).

(** ** Counts and mappers *)

Lemma faces_of s o ob : objs s !! o = Some ob -> faces s !! o = Some (face_of ob).
Proof. intros Ho. unfold faces. by rewrite lookup_fmap, Ho. Qed.

Lemma vn_put s o ob ob' o' : objs s !! o = Some ob -> o_vn ob' = o_vn ob -> o_vn (obj (put_obj s o ob') o') = o_vn (obj s o').
Proof.
  intros Ho Ev. unfold obj, put_obj. cbn. destruct (decide (o' = o)) as [-> | Hne]; [by rewrite lookup_insert_eq, Ho | by rewrite lookup_insert_ne].
Qed.

(** What the holders see of the file is the same. *)
Definition alike (ob ob' : vm_object) : Prop :=
  o_vn ob' = o_vn ob /\ o_size ob' = o_size ob /\ o_anon ob' = o_anon ob /\ o_no_writeback ob' = o_no_writeback ob
  /\ o_buckets ob' = o_buckets ob /\ counts_of ob' = counts_of ob /\ o_table ob' = o_table ob.

Lemma alike_ok x s o ob ob' : inv_but x s -> objs s !! o = Some ob -> alike ob ob' ->
  inv_but x (put_obj s o ob') /\ faces (put_obj s o ob') = <[o := face_of ob']> (faces s) /\ forall o' pos, content (put_obj s o ob') o' pos = content s o' pos.
Proof.
  intros Hi Ho (E1 & E2 & E3 & E4 & E5 & E6 & E7). assert (Hr : refaced s (put_obj s o ob') o ob ob') by by split. pose proof (faces_of s o ob Ho) as Hk.
  destruct (refaced_views _ _ _ _ _ Hr) as (HF & HB & _). split_and!; [| done |].
  - apply (refaced_inv x x s _ o ob ob' Hi Hr).
    + rewrite E2. apply (kd_size _ _ (i_kd _ _ Hi) o _ Hk).
    + rewrite E3, E4. intros Ha. by apply (kd_mem _ _ (i_kd _ _ Hi) o _ Hk).
    + intros r p Hp Hph. by apply (pl_in _ _ _ _ _ (i_pl _ _ Hi) r p).
    + assert (Hsz : forall o' k', faces (put_obj s o ob') !! o' = Some k' -> exists k, faces s !! o' = Some k /\ k_vn k' = k_vn k /\ k_anon k' = k_anon k /\ k_size k' = k_size k).
      { intros o' k' Hk'. destruct (refaced_back _ _ _ _ _ _ _ Hr Hk') as (k & ? & ? & ? & [(_ & -> & ->) | (_ & ->)]); eauto. }
      destruct (i_cl _ _ Hi) as [C1 C2 C3]. split; cbn [recs fs ram put_obj set_objs].
      * intros r p k' j Hp Hk'. destruct (Hsz _ k' Hk') as (k & ? & -> & -> & _). by apply (C1 r p k).
      * intros r p k' j Hp Hk'. destruct (Hsz _ k' Hk') as (k & ? & -> & -> & ->). by apply (C2 r p k).
      * intros o' k' pos Hk'. destruct (Hsz _ k' Hk') as (k & ? & -> & -> & ->). by apply (C3 o' k).
  - intros o' pos. apply content_ext; try done. by apply (vn_put s o ob).
Qed.

Lemma upd_put s o ob f : objs s !! o = Some ob -> upd_obj s o f = put_obj s o (f ob).
Proof. intros Ho. unfold upd_obj. by rewrite (obj_lookup s o ob Ho). Qed.

Lemma alike_refs ob n : alike ob (with_refs ob n).
Proof. by split_and!. Qed.

Lemma alike_mapper ob pml4 base : alike ob (with_mapper ob pml4 base).
Proof. by split_and!. Qed.

(** ** Pins *)

Lemma upd_wired s r p n : recs s !! r = Some p -> upd_page s r (fun p => with_wired p (n p)) = upd_page s r (fun p0 => with_wired p0 (n p)).
Proof. intros Hp. unfold upd_page. by rewrite (page_lookup s r p Hp). Qed.

Lemma keeps_unwire s o index : inv s -> is_Some (objs s !! o) -> keeps None s (vmo_unwire_page s o index).
Proof.
  intros Hi Ho. unfold vmo_unwire_page. destruct (page_find s o index) as [r |] eqn:E; [| by apply kept_refl].
  apply (page_find_some s o index r (i_ix _ _ Hi) Ho) in E as (p & Hp & _ & _). destruct (_ =? 0) eqn:E0; [by apply kept_refl |].
  rewrite (upd_wired s r p (fun p => p_wired p - 1) Hp). apply keeps_wired; [done | eauto |]. pose proof (ix_wired _ _ (i_ix _ _ Hi) r p Hp). rewrite (page_lookup s r p Hp) in E0. b2p. lia.
Qed.

Lemma backing_anon s o ob pos : inv s -> objs s !! o = Some ob -> o_anon ob = true -> backing s o pos = 0.
Proof.
  intros Hi Ho Ha. unfold backing. rewrite (obj_lookup s o ob Ho). destruct (op_of (o_vn ob) file_read) eqn:E; [| done].
  destruct (op_of_file None s o ob file_read _ Hi Ho E). congruence.
Qed.

Lemma backing_past s o ob pos : inv s -> objs s !! o = Some ob -> o_anon ob = false -> o_size ob <= pos -> backing s o pos = 0.
Proof.
  intros Hi Ho Ha Hs. unfold backing. rewrite (obj_lookup s o ob Ho). destruct (op_of (o_vn ob) file_read) eqn:E; [| done].
  by apply (cl_zero _ _ _ _ _ (i_cl _ _ Hi) o (face_of ob)); [apply faces_of | |].
Qed.

Lemma content_past s o ob pos : inv s -> objs s !! o = Some ob -> o_anon ob = false -> o_size ob <= pos -> firm (o_vn ob) pos = true -> content s o pos = 0.
Proof.
  intros Hi Ho Ha Hs Hfm. unfold content. destruct (page_find s o (pos / PAGE_SIZE)) as [r |] eqn:E; [| by apply (backing_past s o ob)].
  apply (page_find_some s o _ r (i_ix _ _ Hi) ltac:(eauto)) in E as (p & Hp & Eo & Ei). rewrite (page_lookup s r p Hp). pose proof (faces_of s o ob Ho) as Hk. destruct (page_split pos) as [Edm Hm].
  unfold bytes_of. destruct (p_phys p =? 0) eqn:E0; b2p.
  - destruct (pl_out _ _ _ _ _ (i_pl _ _ Hi) r p Hp E0) as (_ & (k & Hk' & Ha') & _). rewrite Eo, Hk in Hk'. injection Hk' as <-. cbn in Ha'. congruence.
  - apply (cl_tail _ _ _ _ _ (i_cl _ _ Hi) r p (face_of ob)); [done | by rewrite Eo | done | done | cbn; rewrite Ei; lia | by rewrite Ei, <- Edm].
Qed.

(** A page wired for a mapping is in a frame that holds its bytes. *)
Definition wired_at s s' (o index phys : Z) : Prop :=
  exists r p, recs s' !! r = Some p /\ p_owner p = o /\ p_index p = index /\ p_phys p = phys /\ 0 < p_wired p
    /\ forall j, 0 <= j < PAGE_SIZE -> steady s o (index * PAGE_SIZE + j) -> rd (fbytes (ram s') phys) j = content s o (index * PAGE_SIZE + j).

Lemma page_bytes s r p j : inv s -> recs s !! r = Some p -> p_phys p <> 0 -> 0 <= j < PAGE_SIZE ->
  content s (p_owner p) (p_index p * PAGE_SIZE + j) = rd (fbytes (ram s) (p_phys p)) j.
Proof.
  intros Hi Hp Hph Hj. destruct (page_pos (p_index p) j Hj) as [Ed Em]. rewrite (content_page s r p _ (i_ix _ _ Hi) Hp) by done. rewrite Em.
  unfold bytes_of. apply Z.eqb_neq in Hph. by rewrite Hph.
Qed.

(** What wiring does to a page that is in a frame. *)
Lemma wire_found s r p :
  inv s -> recs s !! r = Some p -> p_phys p <> 0 ->
  let s' := lru_touch (upd_page s r (fun p => with_wired p (p_wired p + 1))) r in
  keeps None s s' /\ recs s' = <[r := with_wired p (p_wired p + 1)]> (recs s) /\ ram s' = ram s.
Proof.
  intros Hi Hp Hph. pose proof (ix_wired _ _ (i_ix _ _ Hi) r p Hp) as Hw. rewrite (upd_wired s r p (fun p => p_wired p + 1) Hp).
  pose proof (keeps_wired None s r (p_wired p + 1) Hi ltac:(eauto) ltac:(lia)) as K1. set (s1 := upd_page _ _ _) in *.
  assert (E1 : recs s1 = <[r := with_wired p (p_wired p + 1)]> (recs s)) by (unfold s1, upd_page; by rewrite (page_lookup s r p Hp)).
  cbv zeta. destruct (touch_rest s1 r) as (_ & -> & _ & -> & _). split_and!; [| done | done]. apply (kept_trans None s s1 _ K1). intros Hi1.
  by apply (keeps_touch None s1 r (with_wired p (p_wired p + 1))); [| rewrite E1; apply lookup_insert_eq |].
Qed.

Lemma vmo_wire_ok fuel s o ob index : inv s -> objs s !! o = Some ob -> 0 <= index < PAGE_MAX ->
  match vmo_wire_page fuel s o index with
  | None => ~ enough fuel s
  | Some (phys, s') => keeps None s s' /\ (phys = 0 \/ wired_at s s' o index phys)
  end.
Proof.
  intros Hi Ho Hx. unfold vmo_wire_page. rewrite (obj_lookup s o ob Ho), (u64_small (index * PAGE_SIZE)) by (unfold PAGE_SIZE, PAGE_MAX in *; lia).
  set (zo := (o_size ob <=? index * PAGE_SIZE) || o_anon ob).
  assert (Hw : zo = false \/ forall j, 0 <= j < PAGE_SIZE -> steady s o (index * PAGE_SIZE + j) -> backing s o (index * PAGE_SIZE + j) = 0).
  { destruct zo eqn:E; [right | by left]. intros j Hj _. destruct (o_anon ob) eqn:Ha; [by apply (backing_anon s o ob) |].
    unfold zo in E. rewrite orb_false_r in E. b2p. apply (backing_past s o ob); [done | done | done | lia]. }
  pose proof (page_get_ok fuel s o ob index zo Hi Ho Hx) as Hg. destruct (page_get fuel s o index zo) as [[[r |] s1] |]; cbn in Hg; [| by split; [apply Hg | left] | done].
  destruct Hg as [Hh _]. destruct (hv_wanted _ _ _ _ _ _ Hh Hw) as [Hi1 S1]. destruct (hv_page _ _ _ _ _ _ Hh) as (p & Hp & Eo & Ei & Hph).
  destruct (wire_found s1 r p Hi1 Hp Hph) as (K2 & E2 & E3). set (s2 := lru_touch _ r) in *.
  assert (Hp2 : recs s2 !! r = Some (with_wired p (p_wired p + 1))) by (rewrite E2; apply lookup_insert_eq). rewrite (page_lookup s2 r _ Hp2). cbn [p_phys with_wired].
  split; [apply (kept_trans None s s1); [done | by intros _] |]. right. exists r, (with_wired p (p_wired p + 1)). pose proof (ix_wired _ _ (i_ix _ _ Hi1) r p Hp).
  split_and!; try done; [cbn; lia |]. intros j Hj Hst. rewrite E3, <- (sm_content _ _ S1) by (eauto || (unfold PAGE_SIZE in *; lia)). subst o index. by rewrite (page_bytes s1 r p).
Qed.
Lemma dirty_replaced s r p : recs s !! r = Some p -> replaced s (set_dirty s (p_owner p) r) r p (with_dirty p true).
Proof.
  intros Hp. unfold set_dirty. rewrite (page_lookup s r p Hp). set (q := with_dirty p true). destruct (p_dirty p) eqn:Ed.
  - assert (q = p) as -> by (unfold q; destruct p; cbn in *; by subst). split; try done; [by rewrite insert_id |]. intros ob Ho. exists ob. split_and!; try done; [by rewrite insert_id |].
    destruct (counts_of ob) as [[a b] c], (share (p_owner p) p) as [[a' b'] c']. cbn. f_equal; [f_equal |]; lia.
  - unfold upd_page. rewrite (page_lookup s r p Hp). fold q. split; try done. intros ob Ho. rewrite (upd_put (put_page s r q) _ ob _ Ho). eexists. split_and!; [reflexivity | done | done | done |].
    unfold counts_of, share, resident_of, dirty_of, out_of. cbn. rewrite Z.eqb_refl, Ed. cbn. f_equal; [f_equal |]; lia.
Qed.

Lemma keeps_set_dirty x s r p : inv_but x s -> recs s !! r = Some p -> keeps x s (set_dirty s (p_owner p) r).
Proof.
  intros Hi Hp. pose proof (dirty_replaced s r p Hp) as Hrep. set (s' := set_dirty s (p_owner p) r) in *.
  assert (Es : ram s' = ram s /\ fs s' = fs s /\ sw s' = sw s /\ fr s' = fr s /\ lru_file s' = lru_file s /\ lru_anon s' = lru_anon s)
    by (unfold s', set_dirty; by destruct (p_dirty (page s r))).
  destruct Es as (E1 & E2 & E3 & E4 & E5 & E6). pose proof (rp_recs _ _ _ _ _ Hrep) as ER. split.
  - apply (replaced_inv x x s s' r p (with_dirty p true)); [done | done | | |]; rewrite ER, ?E1, ?E2, ?E3, ?E4, ?E5, ?E6.
    + by apply (pl_set _ _ _ _ _ r p); [apply Hi | | | |].
    + destruct (i_cl _ _ Hi) as [C1 C2 C3]. split; [| | done]; intros y t k j Ht; apply lookup_insert_Some in Ht as [[<- <-] | [_ Ht]]; [done | by apply (C1 y) | by apply (C2 r p) | by apply (C2 y)].
    + by apply (lr_set _ _ _ _ r p); [apply Hi | | |].
  - apply (replaced_same x s s' r p (with_dirty p true)); try done; [by apply bytes_of_place |]. intros y t _ _. by apply bytes_of_place.
Qed.

Lemma keeps_mark_dirty s o index : inv s -> is_Some (objs s !! o) -> keeps None s (vmo_mark_dirty s o index).
Proof.
  intros Hi Ho. unfold vmo_mark_dirty. destruct (page_find s o index) as [r |] eqn:E; [| by apply kept_refl].
  apply (page_find_some s o index r (i_ix _ _ Hi) Ho) in E as (p & Hp & <- & _). by apply keeps_set_dirty.
Qed.

(** A process stores into a page it has mapped.  Nothing is asked of memory; the
    firm bytes of a file stay as they are while the page counts as clean, and
    zero past the end of the file. *)
Definition storable s (k : face) (p : vmo_page) (l : list Z) : Prop :=
  zlen l = PAGE_SIZE
  /\ (k_anon k = false -> forall j, 0 <= j < PAGE_SIZE -> firm (k_vn k) (p_index p * PAGE_SIZE + j) = true ->
       (p_dirty p = false -> rd l j = rd (fbytes (ram s) (p_phys p)) j) /\ (k_size k <= p_index p * PAGE_SIZE + j -> rd l j = 0)).

Lemma store_inv s r p k l : inv s -> recs s !! r = Some p -> p_phys p <> 0 -> faces s !! p_owner p = Some k -> storable s k p l -> inv (put_frame s (p_phys p) l).
Proof.
  intros Hi Hp Hph Hk [Hlen Hl].
  assert (Hother : forall y t, recs s !! y = Some t -> y <> r -> p_phys t <> 0 -> fbytes (<[p_phys p := l]> (ram s)) (p_phys t) = fbytes (ram s) (p_phys t)).
  { intros y t Ht Hne Htp. apply fbytes_insert_ne. intros E. apply Hne. symmetry. by apply (pl_inj _ _ _ _ _ (i_pl _ _ Hi) r y p t). }
  assert (Hfile : forall y t k', recs s !! y = Some t -> faces s !! p_owner t = Some k' -> k_anon k' = false -> p_phys t <> 0).
  { intros y t k' Ht Hk' Ha' E. destruct (pl_out _ _ _ _ _ (i_pl _ _ Hi) y t Ht E) as (_ & (k1 & ? & ?) & _). congruence. }
  destruct Hi as [A B C [D1 D2 D3 D4 D5 D6] [E1 E2 E3] F G]. split; try done; split; try done; cbn.
  - intros y t Ht Htp. destruct (D3 y t Ht Htp) as (? & ? & ?). split_and!; [done | done |]. destruct (decide (y = r)) as [-> | Hne]; [| by rewrite (Hother y)].
    simplify_eq. by rewrite fbytes_insert_eq.
  - intros y t k' j Ht Hk' Ha' Hd Hx Hj Hfm. change (faces s !! p_owner t = Some k') in Hk'. destruct (decide (y = r)) as [-> | Hne].
    { simplify_eq. rewrite fbytes_insert_eq, (proj1 (Hl Ha' j Hj Hfm) Hd). by apply (E1 r p k). }
    rewrite (Hother y t) by (done || by apply (Hfile y t k')). by apply (E1 y t k').
  - intros y t k' j Ht Hk' Ha' Hj Hs Hfm. change (faces s !! p_owner t = Some k') in Hk'. destruct (decide (y = r)) as [-> | Hne]; [simplify_eq; rewrite fbytes_insert_eq; by apply Hl |].
    rewrite (Hother y t) by (done || by apply (Hfile y t k')). by apply (E2 y t k').
Qed.

Lemma store_content s r p l o pos : inv s -> recs s !! r = Some p -> p_phys p <> 0 -> is_Some (objs s !! o) -> zlen l = PAGE_SIZE ->
  content (put_frame s (p_phys p) l) o pos = if (o =? p_owner p) && (pos / PAGE_SIZE =? p_index p) then rd l (pos mod PAGE_SIZE) else content s o pos.
Proof.
  intros Hi Hp Hph Ho Hlen. unfold content. rewrite (page_find_ext s (put_frame s (p_phys p) l)) by done. destruct (page_find s o (pos / PAGE_SIZE)) as [y |] eqn:E.
  - apply (page_find_some s o _ y (i_ix _ _ Hi) Ho) in E as (t & Ht & Eo & Ei). change (page (put_frame s (p_phys p) l) y) with (page s y). rewrite (page_lookup s y t Ht).
    unfold bytes_of. cbn [ram sw put_frame set_ram]. destruct (decide (y = r)) as [-> | Hne].
    + assert (t = p) as -> by congruence. rewrite Eo, Ei, !Z.eqb_refl. apply Z.eqb_neq in Hph. by rewrite Hph, fbytes_insert_eq.
    + destruct ((o =? p_owner p) && (pos / PAGE_SIZE =? p_index p)) eqn:Ec.
      { apply andb_true_iff in Ec as [? ?]. b2p. destruct Hne. apply (ix_uniq _ _ (i_ix _ _ Hi) y r t p); congruence. }
      destruct (p_phys t =? 0) eqn:Et; [done |]. b2p. rewrite fbytes_insert_ne; [done |]. intros Ep. apply Hne. symmetry. by apply (pl_inj _ _ _ _ _ (i_pl _ _ Hi) r y p t).
  - destruct ((o =? p_owner p) && (pos / PAGE_SIZE =? p_index p)) eqn:Ec; [| done]. apply andb_true_iff in Ec as [? ?]. b2p.
    exfalso. by apply (proj1 (page_find_none s o _ (i_ix _ _ Hi) Ho) E r p).
Qed.

(** ** An object gives its pages back *)

(** The groups of the invariant that do not speak of the index. *)
Definition loose s : Prop :=
  Pl (faces s) (recs s) (fr s) (sw s) (ram s) /\ Cl None (faces s) (recs s) (fs s) (ram s)
  /\ Lr (faces s) (recs s) (lru_file s) (lru_anon s) /\ Hg (tables s) (recs s) (rec_free s) (hp s).

Lemma inv_loose s : inv s -> loose s.
Proof. by intros []. Qed.

Lemma unlisted s r p k : loose s -> recs s !! r = Some p -> faces s !! p_owner p = Some k ->
  (r ∉ lru_file (lru_unlink s r)) /\ (r ∉ lru_anon (lru_unlink s r)) /\ Lr (faces s) (recs s) (lru_file (lru_unlink s r)) (lru_anon (lru_unlink s r)).
Proof.
  intros (_ & _ & HL & _) Hp Hk. unfold lru_unlink. rewrite (on_anon_face s r p k Hp Hk).
  destruct (k_anon k) eqn:E; cbn; rewrite elem_without; (split_and!; [| | by apply lr_without_anon || by apply lr_without_file]); try tauto.
  - intros Hin. destruct (lr_file _ _ _ _ HL r Hin) as (p' & k' & ? & ? & ? & _). simplify_eq. congruence.
  - intros Hin. destruct (lr_anon _ _ _ _ HL r Hin) as (p' & k' & ? & ? & ? & _). simplify_eq. congruence.
Qed.

(** What freeing pages leaves alone. *)
Definition frees s s' : Prop :=
  objs s' = objs s /\ registry s' = registry s /\ ram s' = ram s /\ fs s' = fs s /\ pt s' = pt s /\ hp s' = hp s
  /\ (forall a l, sw_data (sw s') !! a = Some l -> sw_data (sw s) !! a = Some l)
  /\ ready s' = ready s.

Lemma free_page_ok s r p k : loose s -> recs s !! r = Some p -> faces s !! p_owner p = Some k ->
  loose (obj_free_page s r) /\ recs (obj_free_page s r) = delete r (recs s) /\ frees s (obj_free_page s r).
Proof.
  intros HL Hp Hk. destruct (unlisted s r p k HL Hp Hk) as (G1 & G2 & G3). destruct HL as (HQ & HC & _ & HG). destruct (unlink_rest s r) as (E1 & E2 & E3 & E4 & E5 & E6 & E7 & E8 & _).
  assert (E9 : rec_free (lru_unlink s r) = rec_free s /\ hp (lru_unlink s r) = hp s /\ ready (lru_unlink s r) = ready s) by (unfold lru_unlink; by destruct (on_anon s r)).
  destruct E9 as (E9 & E10 & E11). unfold obj_free_page. rewrite (page_lookup s r p Hp). set (s1 := lru_unlink s r) in *.
  set (s2 := if negb (p_phys p =? 0) then _ else _).
  assert (Es : objs s2 = objs s /\ recs s2 = recs s /\ registry s2 = registry s /\ ram s2 = ram s /\ fs s2 = fs s /\ pt s2 = pt s /\ rec_free s2 = rec_free s /\ hp s2 = hp s /\ ready s2 = ready s
               /\ lru_file s2 = lru_file s1 /\ lru_anon s2 = lru_anon s1).
  { unfold s2. destruct (p_phys p =? 0), (p_slot p =? 0); done. }
  destruct Es as (S1 & S2 & S3 & S4 & S5 & S6 & S7 & S8 & S9 & S10 & S11).
  assert (HPl : Pl (faces s) (delete r (recs s)) (fr s2) (sw s2) (ram s) /\ forall a l, sw_data (sw s2) !! a = Some l -> sw_data (sw s) !! a = Some l).
  { unfold s2. destruct (p_phys p =? 0) eqn:Eph; b2p; cbn [negb].
    - destruct (pl_out _ _ _ _ _ HQ r p Hp Eph) as (Hsl & _). apply Z.eqb_neq in Hsl. rewrite Hsl. cbn. rewrite E6, E8. split; [by apply pl_delete_out |].
      destruct (sw_free (p_slot p) (sw s) (pl_sw _ _ _ _ _ HQ) (pl_slot _ _ _ _ _ r p HQ Hp Eph)) as [_ ->]. intros a l [_ ?]%lookup_delete_Some. done.
    - cbn. rewrite E6, E8. split; [by apply (pl_delete_in _ _ _ _ _ r p) | done]. }
  destruct HPl as [HPl Hsw]. unfold record_free, loose, frees, faces, tables. cbn. rewrite S1, S2, S3, S4, S5, S6, S7, S8, S9, S10, S11. split_and!; try done.
  - apply (cl_sub _ _ (recs s)); [done |]. intros y q [_ Hq]%lookup_delete_Some. done.
  - by apply lr_delete.
  - by apply hg_free_rec; [| eauto].
Qed.

Lemma frees_trans s1 s2 s3 : frees s1 s2 -> frees s2 s3 -> frees s1 s3.
Proof. intros (A & B & C & D & E & F & G & I) (A' & B' & C' & D' & E' & F' & G' & I'). split_and!; try congruence. auto. Qed.

(** Counts of the other objects. *)
Definition others (o : Z) s : Prop := Ct (delete o (counts s)) (recs s).

Lemma others_del o s s' r p : others o s -> objs s' = objs s -> recs s !! r = Some p -> p_owner p = o -> recs s' = delete r (recs s) -> others o s'.
Proof.
  intros Hc Eo Hp Ho Er o' c Hc'. unfold counts in Hc'. rewrite Eo in Hc'. pose proof (Hc o' c Hc') as E. apply lookup_delete_Some in Hc' as [Hne _].
  rewrite Er, (counted_del _ _ _ p), share_other by (done || congruence). rewrite E. destruct (counted o' (recs s)) as [[x y] z]. cbn. f_equal; [f_equal |]; lia.
Qed.

Lemma free_fold o k l : forall s, loose s -> others o s -> NoDup l -> faces s !! o = Some k -> (forall r, r ∈ l -> exists p, recs s !! r = Some p /\ p_owner p = o) ->
  let s' := fold_left obj_free_page l s in
  loose s' /\ others o s' /\ frees s s' /\ forall r p, recs s' !! r = Some p <-> recs s !! r = Some p /\ r ∉ l.
Proof.
  induction l as [| r l IH]; intros s HL Hc Hnd Hk Hin; cbn [fold_left].
  { split_and!; try done. intros r p. split; [intros ?; split; [done | apply not_elem_of_nil] | by intros [? _]]. }
  apply NoDup_cons in Hnd as [Hr Hnd]. destruct (Hin r ltac:(apply elem_of_cons; by left)) as (p & Hp & Eo). subst o.
  destruct (free_page_ok s r p k HL Hp Hk) as (HL1 & E1 & Hf1). set (s1 := obj_free_page s r) in *.
  destruct (IH s1) as (HL2 & Hc2 & Hf2 & E2); [done | by apply (others_del _ s s1 r p); [| apply Hf1 | | |] | done | unfold faces; by rewrite (proj1 Hf1) | |].
  { intros y Hy. destruct (Hin y ltac:(apply elem_of_cons; by right)) as (q & Hq & Eq). exists q. rewrite E1, lookup_delete_ne; [done |]. by intros <-. }
  split_and!; [done | done | by apply (frees_trans s s1) |]. intros y q. rewrite E2, E1, lookup_delete_Some, not_elem_of_cons.
  split; intros; destruct_and!; split_and!; try done; by apply not_eq_sym.
Qed.

(** The object with no pages. *)
Definition emptied (ob : vm_object) : vm_object := with_counts (with_buckets ob (replicate (length (o_buckets ob)) [])) 0 0 0.

Lemma free_pages_ok s o ob : inv s -> objs s !! o = Some ob ->
  let s' := obj_free_pages_locked s o in
  inv s' /\ objs s' = <[o := emptied ob]> (objs s) /\ faces s' = faces s /\ registry s' = registry s /\ fs s' = fs s /\ pt s' = pt s /\ ready s' = ready s
  /\ (forall r p, recs s' !! r = Some p <-> recs s !! r = Some p /\ p_owner p <> o)
  /\ (forall r p, recs s' !! r = Some p -> bytes_of s' p = bytes_of s p).
Proof.
  intros Hi Ho. pose proof (faces_of s o ob Ho) as Hk. assert (Hb : indexes s !! o = Some (o_buckets ob)) by (unfold indexes; by rewrite lookup_fmap, Ho).
  assert (Hin : forall r, r ∈ all_pages ob <-> exists p, recs s !! r = Some p /\ p_owner p = o) by (intros r; by apply (ix_pages _ _ o (o_buckets ob) r (i_ix _ _ Hi))).
  destruct (free_fold o (face_of ob) (all_pages ob) s) as ((L1 & L2 & L3 & L4) & Hc & Hf & ER); try done; [by apply inv_loose | | by apply (ix_pages_nodup (indexes s) (recs s) o), Hb; apply Hi | by intros r ?%Hin |].
  { intros o' c [_ Hc]%lookup_delete_Some. by apply (i_ct _ _ Hi). }
  cbv zeta. unfold obj_free_pages_locked. rewrite (obj_lookup s o ob Ho). set (s1 := fold_left obj_free_page (all_pages ob) s) in *. destruct Hf as (F1 & F2 & F3 & F4 & F5 & F6 & F7 & F8).
  rewrite (upd_put s1 o ob) by by rewrite F1. fold (emptied ob). set (s' := put_obj s1 o (emptied ob)).
  assert (ER' : forall r p, recs s' !! r = Some p <-> recs s !! r = Some p /\ p_owner p <> o).
  { intros r p. change (recs s') with (recs s1). rewrite ER, Hin. split; intros [Hp Hn]; (split; [done |]); [intros E; apply Hn; eauto | intros (q & Hq & E); congruence]. }
  assert (EO : objs s' = <[o := emptied ob]> (objs s)) by (unfold s'; cbn; by rewrite F1).
  assert (HF : faces s' = faces s) by (unfold faces; rewrite EO; by apply (view_keep _ _ _ ob)). assert (HF1 : faces s1 = faces s) by (unfold faces; by rewrite F1).
  assert (HT : tables s' = tables s) by (unfold tables; rewrite EO; by apply (view_keep _ _ _ ob)). assert (HT1 : tables s1 = tables s) by (unfold tables; by rewrite F1).
  rewrite HF1 in L1, L2, L3. rewrite HT1 in L4. split_and!; try done.
  - split; rewrite ?HF, ?HT; try done.
    + unfold indexes. rewrite EO, fmap_insert. apply (ix_clear (indexes s) (recs s) (recs s') o (o_buckets ob)); [apply Hi | done | done].
    + unfold counts. rewrite EO, fmap_insert. intros o' c Hc'. apply lookup_insert_Some in Hc' as [[<- <-] | [Hne Hc']].
      * unfold counted. cbn. assert (Hz : forall f : Z -> vmo_page -> bool, (forall p, p_owner p <> o -> f o p = false) -> cnt (f o) (recs s') = 0).
        { intros f Hf. apply cnt_zero. intros r p [_ Hp]%ER'. by apply Hf. }
        rewrite !Hz; [done | | |]; intros p Hp; unfold resident_of, dirty_of, out_of; apply Z.eqb_neq in Hp; by rewrite Hp.
      * apply (Hc o' c). rewrite lookup_delete_ne by done. unfold counts. by rewrite F1.
    + change (registry s') with (registry s1). rewrite F2. apply Hi.
  - intros r p Hp. unfold bytes_of. change (ram s') with (ram s1). change (sw s') with (sw s1). rewrite F3. destruct (p_phys p =? 0) eqn:E; [| done]. b2p.
    destruct (pl_out _ _ _ _ _ L1 r p Hp E) as (_ & _ & l & Hl & _). by rewrite Hl, (F7 _ _ Hl).
Qed.

(** ** Objects come and go *)

(** The owners of the pages have the faces they had. *)
Definition owners_kept K K' R : Prop := forall r p, R !! r = Some p -> K' !! p_owner p = K !! p_owner p.

Lemma pl_faces K K' R (f : Fr) (w : SW) m : Pl K R f w m -> owners_kept K K' R -> Pl K' R f w m.
Proof. intros [A B C D E F] Hk. split; try done. intros r p Hp Hph. rewrite (Hk r p Hp). by apply (D r). Qed.

Lemma cl_faces x K K' R (f : FS) m : Cl x K R f m -> owners_kept K K' R ->
  (forall o k pos, K' !! o = Some k -> k_anon k = false -> k_size k <= pos -> file_byte (k_vn k) pos f = 0) -> Cl x K' R f m.
Proof. intros [A B C] Hk Hz. split; [| | done]; intros r p k j Hp; rewrite (Hk r p Hp); [by apply (A r) | by apply (B r)]. Qed.

Lemma lr_faces K K' R lf la : Lr K R lf la -> owners_kept K K' R -> Lr K' R lf la.
Proof.
  intros [A B C D] Hk. assert (Hl : forall a r, listed a K R r -> listed a K' R r) by (intros a r (p & k & Hp & ?); exists p, k; by rewrite (Hk r p Hp)).
  split; auto.
Qed.

Lemma hg_drop (T : gmap Z Z) R free (h : HP) o t : Hg T R free h -> T !! o = Some t ->
  Hg (delete o T) R free (kfree o (if t =? 0 then h else kfree t h)).
Proof.
  intros (Ho & Hn & Hf & own & O1 & O2 & O3) Ht. destruct (O3 o t Ht) as [Hoo Hot].
  assert (Hh : let h1 := if t =? 0 then h else kfree t h in hp_ok h1 /\ forall a, a ∈ hp_used h -> (t <> 0 -> a <> t) -> a ∈ hp_used h1).
  { destruct (t =? 0) eqn:E; b2p; cbn; [done |]. destruct (hp_free h t Ho (O1 t _ (Hot E))) as [? ->]. split; [done |]. intros a Ha Hne. apply in_minus; auto. }
  cbv zeta in Hh. set (h1 := if t =? 0 then h else kfree t h) in *. destruct Hh as [Hok1 Hu1].
  assert (Hto : t <> 0 -> o <> t) by (intros E ->; rewrite (Hot E) in Hoo; done).
  destruct (hp_free h1 o Hok1 (Hu1 o (O1 o _ Hoo) Hto)) as [Hok2 Hu2]. split_and!; [done | done | done |].
  set (gone := fun a => a = o \/ (t <> 0 /\ a = t)).
  assert (Hrole : forall a, gone a -> own !! a = Some Object /\ a = o \/ own !! a = Some (Table o)) by (intros a [-> | [? ->]]; auto).
  exists (delete o (if t =? 0 then own else delete t own)).
  assert (Hl : forall a y, delete o (if t =? 0 then own else delete t own) !! a = Some y <-> own !! a = Some y /\ ~ gone a).
  { intros a y. unfold gone. rewrite lookup_delete_Some. destruct (t =? 0) eqn:E; b2p; [| rewrite lookup_delete_Some]; intuition congruence. }
  split_and!.
  - intros a y (Ha & Hng)%Hl. rewrite Hu2. apply in_minus; [apply Hu1; [by apply (O1 a y) |] |]; unfold gone in Hng; intuition.
  - intros r Hr. apply Hl. split; [by apply O2 |]. intros [[? _] | ?]%Hrole; rewrite O2 in *; done.
  - intros o' t' [Hne Ht']%lookup_delete_Some. destruct (O3 o' t' Ht') as [Q1 Q2]. split.
    + apply Hl. split; [done |]. intros [[_ ?] | ?]%Hrole; congruence.
    + intros Ht0. apply Hl. split; [by apply Q2 |]. specialize (Q2 Ht0). intros [[? _] | ?]%Hrole; congruence.
Qed.

Lemma kd_drop K reg o : Kd K reg -> Kd (delete o K) (filter (fun x => x <> o) reg).
Proof.
  intros [A B C D E F]. assert (Hd : forall o' k, delete o K !! o' = Some k -> K !! o' = Some k) by (intros o' k [_ ?]%lookup_delete_Some; done).
  split; [by apply NoDup_filter | | by intros o' k ?%Hd; apply (C o') | by intros o' k ?%Hd; apply (D o') | by intros o' k ?%Hd; apply (E o') |].
  - intros o'. rewrite list_elem_of_filter, B. destruct (decide (o' = o)) as [-> | Hne]; [rewrite lookup_delete_eq; split; [tauto | by intros []] | rewrite lookup_delete_ne by done; tauto].
  - intros o1 o2 k1 k2 ?%Hd ?%Hd. by apply (F o1 o2).
Qed.

(** The state without an object that has no pages. *)
Definition dropped s (o : Z) (h : HP) : cache := set_hp (set_objs (set_registry s (filter (fun x => x <> o) (registry s))) (delete o (objs s))) h.

Lemma dropped_ok s o ob : inv s -> objs s !! o = Some ob -> (forall r p, recs s !! r = Some p -> p_owner p <> o) ->
  let s' := dropped s o (kfree o (if o_table ob =? 0 then hp s else kfree (o_table ob) (hp s))) in inv s' /\ faces s' = delete o (faces s).
Proof.
  intros Hi Ho Hno s'. assert (HF : faces s' = delete o (faces s)) by (unfold faces, s'; cbn; apply fmap_delete).
  assert (Hk : owners_kept (faces s) (faces s') (recs s)) by (intros r p Hp; rewrite HF, lookup_delete_ne; [done | apply not_eq_sym; by apply (Hno r)]).
  split; [| done]. destruct Hi as [A B C D E F G]. split; rewrite ?HF in *.
  - unfold indexes, s'. cbn. rewrite fmap_delete. by apply ix_drop_object.
  - unfold counts, s'. cbn. rewrite fmap_delete. intros o' c [_ ?]%lookup_delete_Some. by apply B.
  - by apply kd_drop.
  - by apply (pl_faces (faces s)).
  - apply (cl_faces _ (faces s)); [done | done |]. intros o' k pos [_ Hk']%lookup_delete_Some. by apply (cl_zero _ _ _ _ _ E o').
  - by apply (lr_faces (faces s)).
  - unfold tables, s'. cbn. rewrite fmap_delete. apply hg_drop; [done |]. by rewrite lookup_fmap, Ho.
Qed.

(** Where two states have the same pages with the same bytes, the bytes are the same. *)
Lemma content_pages s s' o :
  Ix (indexes s) (recs s) -> Ix (indexes s') (recs s') -> is_Some (objs s !! o) -> is_Some (objs s' !! o) -> o_vn (obj s' o) = o_vn (obj s o) -> fs s' = fs s ->
  (forall r p, p_owner p = o -> recs s' !! r = Some p <-> recs s !! r = Some p) ->
  (forall r p, recs s' !! r = Some p -> p_owner p = o -> bytes_of s' p = bytes_of s p) ->
  forall pos, content s' o pos = content s o pos.
Proof.
  intros HI HI' Ho Ho' Ev Ef HR HB pos. unfold content. destruct (page_find s o (pos / PAGE_SIZE)) as [r |] eqn:E.
  - apply (page_find_some s o _ r HI Ho) in E as (p & Hp & Eo & Ei). assert (Hp' : recs s' !! r = Some p) by by apply HR.
    rewrite (proj2 (page_find_some s' o (pos / PAGE_SIZE) r HI' Ho')) by eauto. by rewrite (page_lookup s' r p Hp'), (page_lookup s r p Hp), (HB r p).
  - rewrite (proj2 (page_find_none s' o (pos / PAGE_SIZE) HI' Ho')); [unfold backing; by rewrite Ev, Ef |]. intros r p Hp Eo Ei.
    apply (proj1 (page_find_none s o _ HI Ho) E r p); [by apply HR | done | done].
Qed.

Lemma live_same s s' o' : objs s' !! o' = objs s !! o' -> is_Some (objs s !! o') -> is_Some (objs s' !! o') /\ o_vn (obj s' o') = o_vn (obj s o').
Proof. intros E Ho. unfold obj. by rewrite E. Qed.

(** The last reference: the file is flushed, the pages and the object go, the
    other objects stay as they are. *)
Lemma vmo_put_last s o ob : inv s -> objs s !! o = Some ob -> o_refs ob <= 1 ->
  let s1 := upd_obj s o (fun ob => with_refs ob (o_refs ob - 1)) in
  let s' := vmo_put s o in
  inv s' /\ faces s' = delete o (faces s) /\ (forall o' pos, o' <> o -> is_Some (objs s !! o') -> 0 <= pos -> steady s o' pos -> content s' o' pos = content s o' pos)
  /\ (fst (flush_object_locked s1 o) = Errno.EMBK_OK -> o_no_writeback ob = false -> o_anon ob = false ->
       forall pos, 0 <= pos -> firm (o_vn ob) pos = true -> file_byte (o_vn ob) pos (fs s') = content s o pos)
  /\ (forall vn pos, 0 <= pos -> uncached s vn -> file_byte vn pos (fs s') = file_byte vn pos (fs s)).
Proof.
  intros Hi Ho Hrefs s1 s'. set (ob1 := with_refs ob (o_refs ob - 1)). assert (E1 : s1 = put_obj s o ob1) by (unfold s1; by rewrite (upd_put s o ob)).
  destruct (alike_ok None s o ob ob1 Hi Ho (alike_refs _ _)) as (Hi1 & F1 & C1). rewrite <- E1 in Hi1, F1, C1.
  assert (Ho1 : objs s1 !! o = Some ob1) by (rewrite E1; cbn; apply lookup_insert_eq).
  unfold s', vmo_put. fold s1. rewrite (obj_lookup s1 o ob1 Ho1), (proj2 (Z.ltb_ge 0 (o_refs ob1))) by (cbn; lia).
  destruct (flush_object_locked s1 o) as [rc s2] eqn:Ef. destruct (flush_object_ok s1 o ob1 rc s2 Hi1 Ho1 Ef) as ([[Hi2 S2] _] & _ & _ & Hdev).
  destruct (object_same s1 s2 o ob1 (sm_faces _ _ S2) Ho1) as (ob2 & Ho2 & Ef2).
  destruct (free_pages_ok s2 o ob2 Hi2 Ho2) as (Hi3 & O3 & F3 & R3 & Fs3 & _ & _ & P3 & B3). set (s3 := obj_free_pages_locked s2 o) in *.
  assert (Ho3 : objs s3 !! o = Some (emptied ob2)) by (rewrite O3; apply lookup_insert_eq).
  destruct (dropped_ok s3 o (emptied ob2) Hi3 Ho3) as [Hi4 F4]; [intros r p Hp; by apply P3 in Hp as [_ ?] |].
  change (obj (registry_remove s3 o) o) with (obj s3 o). rewrite (obj_lookup s3 o _ Ho3).
  set (s4 := set_hp _ _). assert (E4 : s4 = dropped s3 o (kfree o (if o_table (emptied ob2) =? 0 then hp s3 else kfree (o_table (emptied ob2)) (hp s3))))
    by (unfold s4, dropped, registry_remove; by destruct (o_table (emptied ob2) =? 0)).
  rewrite <- E4 in Hi4, F4. assert (Ed : fs s4 = fs s2) by (rewrite E4; exact Fs3). split_and!; [done | | | |].
  - by rewrite F4, F3, (sm_faces _ _ S2), F1, delete_insert_eq.
  - intros o' pos Hne Ho' Hpos Hst. assert (Ho1' : is_Some (objs s1 !! o')) by (rewrite E1; cbn; by rewrite lookup_insert_ne).
    assert (Hst1 : steady s1 o' pos) by (intros k Hk; rewrite F1, lookup_insert_ne in Hk by done; by apply Hst). rewrite <- C1, <- (sm_content _ _ S2) by done.
    assert (Ho2' : is_Some (objs s2 !! o')) by by apply (faces_is_Some s1 s2 o'), Ho1'; apply S2.
    assert (EO : objs s4 !! o' = objs s2 !! o') by (rewrite E4; change (delete o (objs s3) !! o' = objs s2 !! o'); rewrite lookup_delete_ne, O3, lookup_insert_ne; done).
    destruct (live_same s2 s4 o' EO Ho2') as [Ho4' Ev]. apply content_pages; try done; [apply Hi2 | apply Hi4 | |]; rewrite E4.
    + intros r p Eo. change (recs s3 !! r = Some p <-> recs s2 !! r = Some p). rewrite P3. split; [by intros [? _] |]. intros ?. split; congruence.
    + intros r p Hp _. by apply (B3 r p).
  - intros Hrc Hnw Ha pos Hpos Hfm. rewrite Ed, <- C1. destruct (decide (pos < o_size ob)) as [Hlt | Hge]; [apply Hdev; [done | done | done | cbn; lia | done] |].
    rewrite (content_past s1 o ob1) by (done || (cbn; lia)). pose proof (faces_of s2 o ob2 Ho2) as Hk2. rewrite Ef2 in Hk2. apply (cl_zero _ _ _ _ _ (i_cl _ _ Hi2) o _ pos Hk2); [done | cbn; lia].
  - intros vn pos Hpos Hu. rewrite Ed, (sm_device _ _ S2), E1; [done | done |]. intros o' k Hk Ha. rewrite F1 in Hk. apply lookup_insert_Some in Hk as [[<- <-] | [_ Hk]]; [| by apply (Hu o' k)].
    by apply (Hu o (face_of ob)); [apply faces_of |].
Qed.

Lemma vmo_put_shared s o ob : inv s -> objs s !! o = Some ob -> 1 < o_refs ob ->
  inv (vmo_put s o) /\ faces (vmo_put s o) = <[o := face_of (with_refs ob (o_refs ob - 1))]> (faces s) /\ forall o' pos, content (vmo_put s o) o' pos = content s o' pos.
Proof.
  intros Hi Ho Hrefs. unfold vmo_put. rewrite (upd_put s o ob _ Ho), obj_put. cbn [o_refs with_refs]. rewrite (proj2 (Z.ltb_lt 0 _)) by lia. by apply (alike_ok None s o ob), alike_refs.
Qed.

Lemma hg_new (T : gmap Z Z) R free (h : HP) n o h' : Hg T R free h -> kmalloc n h = (o, h') -> o <> 0 -> T !! o = None /\ Hg (<[o := 0]> T) R free h'.
Proof.
  intros (Ho & Hn & Hf & own & O1 & O2 & O3) He Hne. destruct (hp_alloc _ _ _ _ Ho He) as [Ho' [(? & _) | (_ & Hnew & Hu)]]; [done |].
  assert (Hown : own !! o = None) by (destruct (own !! o) as [y |] eqn:E; [by destruct Hnew; apply (O1 o y) | done]).
  assert (Hkeep : forall a y, own !! a = Some y -> <[o := Object]> own !! a = Some y) by (intros a y Ha; rewrite lookup_insert_ne; [done | congruence]).
  split; [destruct (T !! o) as [t |] eqn:E; [destruct (O3 o t E); congruence | done] |]. split_and!; [done | done | done |]. exists (<[o := Object]> own). split_and!.
  - intros a y Ha. rewrite Hu. apply lookup_insert_Some in Ha as [[<- _] | [_ Ha]]; [apply in_new | apply in_old; by apply (O1 a y)].
  - intros r Hr. by apply Hkeep, O2.
  - intros o' t Ht. apply lookup_insert_Some in Ht as [[<- <-] | [_ Ht]]; [rewrite lookup_insert_eq; done |]. destruct (O3 o' t Ht) as [? Q]. split; [by apply Hkeep |]. intros ?. by apply Hkeep, Q.
Qed.

(** What is asked of a new object. *)
Definition admissible s (ob : vm_object) : Prop :=
  0 <= o_size ob <= FILE_MAX /\ counts_of ob = (0, 0, 0) /\ o_buckets ob = inline_buckets /\ o_table ob = 0
  /\ (if o_anon ob then v_mnt (o_vn ob) = None /\ o_no_writeback ob = true
      else is_Some (op_of (o_vn ob) file_read) /\ (forall pos, o_size ob <= pos -> file_byte (o_vn ob) pos (fs s) = 0)
           /\ forall o' k, faces s !! o' = Some k -> k_anon k = false -> same_file (k_vn k) (o_vn ob) = false).

Lemma kd_new s o ob : inv s -> objs s !! o = None -> admissible s ob -> Kd (<[o := face_of ob]> (faces s)) (o :: registry s).
Proof.
  intros Hi Ho (A1 & _ & _ & _ & A5). destruct (i_kd _ _ Hi) as [B1 B2 B3 B4 B5 B6]. assert (Hk : faces s !! o = None) by (unfold faces; by rewrite lookup_fmap, Ho).
  assert (Hc : forall o' k, <[o := face_of ob]> (faces s) !! o' = Some k -> (o' = o /\ k = face_of ob) \/ (o' <> o /\ faces s !! o' = Some k)).
  { intros o' k [[<- <-] | [? ?]]%lookup_insert_Some; [by left | right; by split; [apply not_eq_sym |]]. }
  split.
  - apply NoDup_cons. split; [rewrite B2, Hk; by intros [] | done].
  - intros o'. rewrite elem_of_cons, B2, lookup_insert_is_Some. destruct (decide (o = o')) as [<- | Hne]; [tauto |]. split; [intros [-> | ?]; tauto | tauto].
  - intros o' k [[-> ->] | [_ ?]]%Hc; [done | by apply (B3 o')].
  - intros o' k [[-> ->] | [_ ?]]%Hc Ha; [| by apply (B4 o')]. cbn in Ha. by rewrite Ha in A5.
  - intros o' k [[-> ->] | [_ ?]]%Hc Ha; [| by apply (B5 o')]. cbn in Ha. rewrite Ha in A5. apply A5.
  - intros o1 o2 k1 k2 [[-> ->] | [N1 H1']]%Hc [[-> ->] | [N2 H2']]%Hc Ha1 Ha2 Hs; [done | | | by apply (B6 o1 o2 k1 k2)].
    + cbn in Ha1, Hs. rewrite Ha1 in A5. rewrite same_file_sym in Hs. destruct A5 as (_ & _ & A5). rewrite (A5 o2 k2) in Hs by done. done.
    + cbn in Ha2, Hs. rewrite Ha2 in A5. destruct A5 as (_ & _ & A5). rewrite (A5 o1 k1) in Hs by done. done.
Qed.

Lemma register_ok s n o h ob : inv s -> kmalloc n (hp s) = (o, h) -> o <> 0 -> admissible s ob ->
  let s' := register (set_hp s h) o ob in
  inv s' /\ objs s !! o = None /\ faces s' = <[o := face_of ob]> (faces s) /\ (forall o' pos, is_Some (objs s !! o') -> content s' o' pos = content s o' pos)
  /\ (forall pos, content s' o pos = backing s' o pos).
Proof.
  intros Hi Hm Hne Had s'. destruct (hg_new _ _ _ _ _ _ _ (i_hg _ _ Hi) Hm Hne) as [Ht HG].
  assert (Ho : objs s !! o = None) by (unfold tables in Ht; rewrite lookup_fmap in Ht; by destruct (objs s !! o)). assert (EO : objs s' = <[o := ob]> (objs s)) by done.
  assert (HF : faces s' = <[o := face_of ob]> (faces s)) by (unfold faces; rewrite EO; apply fmap_insert). pose proof Had as (A1 & A2 & A3 & A4 & A5).
  assert (Hno : forall r p, recs s !! r = Some p -> p_owner p <> o) by (intros r p Hp <-; destruct (owner_object s r p (i_ix _ _ Hi) Hp); congruence).
  assert (Hkept : owners_kept (faces s) (faces s') (recs s)) by (intros r p Hp; rewrite HF, lookup_insert_ne; [done | apply not_eq_sym; by apply (Hno r)]).
  assert (Hi' : inv s').
  { split.
    - unfold indexes. rewrite EO, fmap_insert, A3. apply ix_new_object; [apply Hi | by rewrite lookup_fmap, Ho | by exists 4%nat | by intros i l ?%replicate_nil_lookup].
    - unfold counts. rewrite EO, fmap_insert, A2. intros o' c Hc. apply lookup_insert_Some in Hc as [[<- <-] | [_ ?]]; [| by apply (i_ct _ _ Hi)].
      assert (Hz : forall f : Z -> vmo_page -> bool, (forall p, p_owner p <> o -> f o p = false) -> cnt (f o) (recs s) = 0) by (intros f Hf; apply cnt_zero; intros r p Hp; by apply Hf, (Hno r)).
      unfold counted. change (recs s') with (recs s). rewrite !Hz; [done | | |]; intros p Hp; unfold resident_of, dirty_of, out_of; apply Z.eqb_neq in Hp; by rewrite Hp.
    - rewrite HF. by apply kd_new.
    - by apply (pl_faces (faces s)); [apply Hi |].
    - apply (cl_faces _ (faces s)); [apply Hi | done |]. rewrite HF. intros o' k pos [[<- <-] | [_ ?]]%lookup_insert_Some Ha; [| by apply (cl_zero _ _ _ _ _ (i_cl _ _ Hi) o')].
      cbn in Ha. rewrite Ha in A5. apply A5.
    - by apply (lr_faces (faces s)); [apply Hi |].
    - unfold tables. rewrite EO, fmap_insert, A4. done. }
  split_and!; try done.
  - intros o' pos Ho'. assert (Hne' : o' <> o) by (intros ->; rewrite Ho in Ho'; by destruct Ho').
    destruct (live_same s s' o') as [Hl Ev]; [rewrite EO; by rewrite lookup_insert_ne | done |]. apply content_pages; try done; [apply Hi | apply Hi'].
  - intros pos. unfold content. rewrite (proj2 (page_find_none s' o (pos / PAGE_SIZE) (i_ix _ _ Hi') ltac:(rewrite EO, lookup_insert_eq; eauto))); [done |].
    intros r p Hp Eo. by destruct (Hno r p Hp).
Qed.

Lemma registry_find_some s vn o : inv s -> registry_find s vn = Some o -> exists ob, objs s !! o = Some ob /\ o_anon ob = false /\ same_file (o_vn ob) vn = true.
Proof.
  intros Hi He. unfold registry_find in He. assert (Hin : o ∈ filter (fun o => negb (o_anon (obj s o)) && same_file (o_vn (obj s o)) vn = true) (registry s)).
  { destruct (filter _ (registry s)); [done |]. injection He as ->. apply elem_of_cons. by left. }
  apply list_elem_of_filter in Hin as [Hp Hreg]. apply (kd_reg _ _ (i_kd _ _ Hi)) in Hreg as [k Hk]. destruct (faces_lookup s o k Hk) as (ob & Ho & _).
  rewrite (obj_lookup s o ob Ho) in Hp. apply andb_true_iff in Hp as [Ha Hs]. exists ob. split_and!; [done | by destruct (o_anon ob) | done].
Qed.

Lemma registry_find_none s vn o k : inv s -> registry_find s vn = None -> faces s !! o = Some k -> k_anon k = false -> same_file (k_vn k) vn = false.
Proof.
  intros Hi He Hk Ha. destruct (same_file (k_vn k) vn) eqn:Es; [| done]. unfold registry_find in He. exfalso. destruct (faces_lookup s o k Hk) as (ob & Ho & ->). cbn in Ha, Es.
  assert (Hin : o ∈ filter (fun o => negb (o_anon (obj s o)) && same_file (o_vn (obj s o)) vn = true) (registry s)).
  { apply list_elem_of_filter. rewrite (obj_lookup s o ob Ho), Ha, Es. split; [done |]. apply (kd_reg _ _ (i_kd _ _ Hi)). eauto. }
  destruct (filter _ (registry s)); [by apply not_elem_of_nil in Hin | done].
Qed.

(** The file system knows the size. *)
Definition sized (vn : vnode) (f : FS) : Prop := exists stat n, file_size vn = Some stat /\ stat f = inl n /\ n <= FILE_MAX.

Lemma sized_size vn f : sized vn f -> 0 <= first_size vn f <= FILE_MAX /\ forall pos, first_size vn f <= pos -> file_byte vn pos f = 0.
Proof. intros (stat & n & E & En & Hn). unfold first_size. rewrite E, En. destruct (byte_size _ _ _ _ E En) as [? ?]. done. Qed.

(** An object got is the one of the file; a new one shows what is on the device. *)
Lemma vmo_get_ok s vn res s' : inv s -> sized vn (fs s) -> vmo_get s vn = (res, s') ->
  inv s' /\ (forall o' pos, is_Some (objs s !! o') -> content s' o' pos = content s o' pos)
  /\ match res with
     | None => faces s' = faces s
     | Some o =>
         (exists ob, objs s !! o = Some ob /\ o_anon ob = false /\ same_file (o_vn ob) vn = true /\ faces s' = <[o := face_of (with_refs ob (o_refs ob + 1))]> (faces s))
         \/ (objs s !! o = None /\ faces s' = <[o := mkFace vn (first_size vn (fs s)) false false 1 0 0]> (faces s) /\ forall pos, content s' o pos = file_byte vn pos (fs s))
     end.
Proof.
  intros Hi Hsz He. unfold vmo_get in He. destruct (cache_usable s vn) eqn:Eu; cbn [negb] in He; [| by injection He as <- <-]. apply andb_true_iff in Eu as [_ Eu].
  destruct (registry_find s vn) as [o |] eqn:Ef.
  - injection He as <- <-. destruct (registry_find_some s vn o Hi Ef) as (ob & Ho & Ha & Hs). rewrite (upd_put s o ob _ Ho).
    destruct (alike_ok None s o ob (with_refs ob (o_refs ob + 1)) Hi Ho (alike_refs _ _)) as (Hi' & HF & HC). split_and!; [done | done |]. left. by exists ob.
  - destruct (kmalloc VM_OBJECT_BYTES (hp s)) as [o h] eqn:Em. destruct (o =? 0) eqn:E0; b2p.
    + injection He as <- <-. destruct (tidies_heap None s (rec_free s) h Hi) as [[Hi' S'] _]; [by apply (hg_block _ _ _ (hp s) VM_OBJECT_BYTES o); [apply Hi |] |].
      assert (Es : set_rec_free (set_hp s h) (rec_free s) = set_hp s h) by by destruct s. rewrite Es in *. split_and!; [done | | apply S'].
      intros o' pos Ho'. by apply content_ext.
    + injection He as <- <-. destruct (sized_size vn (fs s) Hsz) as [Hb Hz]. destruct (op_of vn file_read) as [rdf |] eqn:Er; [| done].
      set (ob := mkObj vn (first_size vn (fs s)) 1 0 0 false false 0 0 0 0 inline_buckets).
      destruct (register_ok s VM_OBJECT_BYTES o h ob Hi Em E0) as (Hi' & Hn & HF & HC & HB).
      { split_and!; try (apply Hb || done). unfold ob. cbn [o_anon o_vn o_size]. split_and!; [by rewrite Er | done |]. intros o' k Hk Ha. by apply (registry_find_none s vn o'). }
      split_and!; [done | done |]. right. split_and!; [done | done |]. intros pos. change (fs (set_hp s h)) with (fs s). fold ob. rewrite HB. unfold backing, register, obj. cbn. rewrite lookup_insert_eq. cbn. by rewrite Er.
Qed.

Lemma vmo_create_anon_ok s size res s' : inv s -> 0 <= size <= FILE_MAX -> vmo_create_anon s size = (res, s') ->
  inv s' /\ (forall o' pos, is_Some (objs s !! o') -> content s' o' pos = content s o' pos)
  /\ match res with
     | None => faces s' = faces s
     | Some o => objs s !! o = None /\ faces s' = <[o := mkFace null_vnode size true true 1 0 0]> (faces s) /\ forall pos, content s' o pos = 0
     end.
Proof.
  intros Hi Hsz He. unfold vmo_create_anon in He. destruct (_ || _) in He; [by injection He as <- <- |]. destruct (kmalloc VM_OBJECT_BYTES (hp s)) as [o h] eqn:Em.
  destruct (o =? 0) eqn:E0; b2p; injection He as <- <-.
  - destruct (tidies_heap None s (rec_free s) h Hi) as [[Hi' S'] _]; [by apply (hg_block _ _ _ (hp s) VM_OBJECT_BYTES o); [apply Hi |] |].
    assert (Es : set_rec_free (set_hp s h) (rec_free s) = set_hp s h) by by destruct s. rewrite Es in *. split_and!; [done | | apply S']. intros o' pos Ho'. by apply content_ext.
  - destruct (register_ok s VM_OBJECT_BYTES o h (mkObj null_vnode size 1 0 0 true true 0 0 0 0 inline_buckets) Hi Em E0) as (Hi' & Hn & HF & HC & HB); [split_and!; try (apply Hsz || done || by split) |].
    split_and!; try done. intros pos. rewrite HB. unfold backing, register, obj. cbn. by rewrite lookup_insert_eq.
Qed.
End Ops.
