(* ===== verification/PageCacheTruncate.v ===== *)
(** * The page cache: pages are dropped

    Truncating a file, discarding part of an anonymous mapping, and taking a
    mapping down. *)

From S2P Require Import Prelude Bytes Vfs PageCache PageCacheInv PageCacheSteps PageCacheReclaim PageCacheAccess PageCacheGet PageCacheFile PageCacheOps.

Section Truncate.
Context {Fr FS SW PT HP : Type} `{FrameLaws Fr} `{FileLaws FS} `{SlotLaws SW} `{TableLaws PT} `{HeapLaws HP} {FM : Firm}.

Local Abbreviation cache := (@cache Fr FS SW PT HP).
Implicit Types (s : cache).

Lemma destroy_store s r p : inv s -> recs s !! r = Some p ->
  forall a l, sw_data (sw (page_destroy s (p_owner p) r)) !! a = Some l -> sw_data (sw s) !! a = Some l.
Proof.
  intros Hi Hp a l. destruct (owner_object s r p (i_ix _ _ Hi) Hp) as [ob Ho]. rewrite page_destroy_unfold. destruct (keeps_unlink None s r Hi) as [Hi' _].
  destruct (unlink_rest s r) as (E1 & E2 & _ & _ & _ & E6 & _). rewrite (destroy_linked_eq None _ r p ob Hi') by congruence. cbv zeta. unfold record_free.
  destruct (p_phys p =? 0) eqn:Eph; b2p; cbn; rewrite E6; [| done]. destruct (sw_free (p_slot p) (sw s) (pl_sw _ _ _ _ _ (i_pl _ _ Hi)) (pl_slot _ _ _ _ _ r p (i_pl _ _ Hi) Hp Eph)) as [_ ->]. by intros [_ ?]%lookup_delete_Some.
Qed.

(** What dropping some pages leaves alone. *)
Record thins s s' : Prop := {
  tn_inv : inv s';
  tn_faces : faces s' = faces s;
  tn_registry : registry s' = registry s;
  tn_fs : fs s' = fs s;
  tn_ready : ready s' = ready s;
  tn_recs r p : recs s' !! r = Some p -> exists w, exists p0, recs s !! r = Some p0 /\ p = with_wired p0 w;
  tn_bytes r p : recs s' !! r = Some p -> bytes_of s' p = bytes_of s p;
}.

Lemma thins_refl s : inv s -> thins s s.
Proof. intros Hi. split; try done. intros r p Hp. exists (p_wired p), p. split; [done |]. by destruct p. Qed.

Lemma thins_trans s1 s2 s3 : thins s1 s2 -> thins s2 s3 -> thins s1 s3.
Proof.
  intros [A B C D E F G] [A' B' C' D' E' F' G']. split; try congruence.
  - intros r p Hp. destruct (F' r p Hp) as (w & p1 & Hp1 & ->). destruct (F r p1 Hp1) as (w' & p0 & Hp0 & ->). exists w, p0. done.
  - intros r p Hp. rewrite (G' r p Hp). destruct (F' r p Hp) as (w & p1 & Hp1 & ->). apply (G r p1 Hp1).
Qed.

Lemma destroy_ready s o r : ready (page_destroy s o r) = ready s.
Proof. unfold page_destroy, lru_unlink. destruct (on_anon s r), (negb (p_phys (page s r) =? 0)), (negb (p_slot (page s r) =? 0)); done. Qed.

Lemma thins_destroy s r p : inv s -> recs s !! r = Some p -> thins s (page_destroy s (p_owner p) r) /\ recs (page_destroy s (p_owner p) r) = delete r (recs s).
Proof.
  intros Hi Hp. destruct (page_destroy_rest None s r p Hi Hp) as (E1 & E2 & E3 & E4 & E5 & E6 & _). pose proof (page_destroy_inv None s r p Hi Hp) as Hi'. pose proof (destroy_store s r p Hi Hp) as Hsw.
  pose proof (destroy_ready s (p_owner p) r) as E7. set (s' := page_destroy s (p_owner p) r) in *. split; [| done]. split; try done.
  - intros y q Hq. rewrite E1 in Hq. apply lookup_delete_Some in Hq as [_ Hq]. exists (p_wired q), q. split; [done |]. by destruct q.
  - intros y q Hq. unfold bytes_of. rewrite E4. destruct (p_phys q =? 0) eqn:E; [| done]. b2p. destruct (pl_out _ _ _ _ _ (i_pl _ _ Hi') y q Hq E) as (_ & _ & l & Hl & _). by rewrite Hl, (Hsw _ _ Hl).
Qed.

(** A page of an anonymous object leaves the page table that maps it. *)
Lemma thins_unmap s o r p : inv s -> recs s !! r = Some p -> p_owner p = o ->
  thins s (anon_unmap_locked s o r) /\ (exists w, recs (anon_unmap_locked s o r) = <[r := with_wired p w]> (recs s)) /\ objs (anon_unmap_locked s o r) = objs s.
Proof.
  intros Hi Hp Eo. unfold anon_unmap_locked. destruct (_ && _).
  - set (t := vmm_unmap_in _ _ _). destruct (keeps_pt None s t Hi) as [Hi1 S1]. destruct (keeps_wired None (set_pt s t) r 0 Hi1 ltac:(eauto) ltac:(lia)) as [Hi2 S2].
    assert (ER : recs (upd_page (set_pt s t) r (fun p => with_wired p 0)) = <[r := with_wired p 0]> (recs s)) by (unfold upd_page; by rewrite (page_lookup (set_pt s t) r p Hp)).
    set (s2 := upd_page _ _ _) in *. split; [| split; [by exists 0 | done]]. split; try done.
    intros y q Hq. rewrite ER in Hq. apply lookup_insert_Some in Hq as [[<- <-] | [_ Hq]]; [by exists 0, p |]. exists (p_wired q), q. split; [done |]. by destruct q.
  - split; [by apply thins_refl |]. split; [| done]. exists (p_wired p). rewrite insert_id; [done |]. rewrite Hp. by destruct p.
Qed.

(** ** Dropping the pages a test picks *)

Section Fold.
Variable o : Z.
Variable pick : vmo_page -> bool.
Variable before : cache -> rid -> cache.
Hypothesis Hbefore : forall s r p, inv s -> recs s !! r = Some p -> p_owner p = o ->
  thins s (before s r) /\ exists w, recs (before s r) = <[r := with_wired p w]> (recs s).

Lemma drop_fold l : forall s, inv s -> NoDup l -> (forall r, r ∈ l -> exists p, recs s !! r = Some p /\ p_owner p = o) ->
  let s' := fold_left (fun s r => if pick (page s r) then page_destroy (before s r) o r else s) l s in
  thins s s' /\ forall r p, recs s' !! r = Some p <-> recs s !! r = Some p /\ (r ∈ l -> pick p = false).
Proof.
  induction l as [| r l IH]; intros s Hi Hnd Hin; cbn [fold_left].
  { split; [by apply thins_refl |]. intros r p. split; [intros ?; split; [done | by intros ?%not_elem_of_nil] | by intros [? _]]. }
  apply NoDup_cons in Hnd as [Hr Hnd]. destruct (Hin r ltac:(apply elem_of_cons; by left)) as (p & Hp & Eo). rewrite (page_lookup s r p Hp). set (s1 := if pick p then _ else _).
  assert (Hs1 : thins s s1 /\ forall y q, recs s1 !! y = Some q <-> recs s !! y = Some q /\ (y = r -> pick p = false)).
  { unfold s1. destruct (pick p) eqn:Ek; [| split; [by apply thins_refl | tauto]]. destruct (Hbefore s r p Hi Hp Eo) as [T1 [w E1]].
    assert (Hp1 : recs (before s r) !! r = Some (with_wired p w)) by (rewrite E1; apply lookup_insert_eq).
    destruct (thins_destroy (before s r) r _ (tn_inv _ _ T1) Hp1) as [T2 E2]. change (p_owner (with_wired p w)) with (p_owner p) in T2, E2. rewrite Eo in T2, E2.
    split; [by apply (thins_trans s (before s r)) |]. intros y q. rewrite E2, E1, lookup_delete_Some. destruct (decide (y = r)) as [-> | Hne]; [split; intros [? ?]; [done | intuition congruence] |].
    rewrite lookup_insert_ne by done. split; intros [? ?]; split; try done. }
  destruct Hs1 as [T1 R1]. destruct (IH s1) as [T2 R2]; [apply T1 | done | |].
  { intros y Hy. destruct (Hin y ltac:(apply elem_of_cons; by right)) as (q & Hq & ?). exists q. split; [| done]. apply R1. split; [done |]. by intros ->. }
  split; [by apply (thins_trans s s1) |]. intros y q. rewrite R2, R1, elem_of_cons. split.
  - intros [[Hq H1r] H2r]. split; [done |]. intros [-> | Hy]; [| by apply H2r]. assert (q = p) as -> by congruence. by apply H1r.
  - intros [Hq Hpk]. split; [split; [done |] |]; [| by intros Hy; apply Hpk; right]. intros ->. assert (q = p) as <- by congruence. apply Hpk. by left.
Qed.
End Fold.

Lemma pages_of s o ob : inv s -> objs s !! o = Some ob -> NoDup (all_pages ob) /\ forall r, r ∈ all_pages ob <-> exists p, recs s !! r = Some p /\ p_owner p = o.
Proof.
  intros Hi Ho. assert (Hb : indexes s !! o = Some (o_buckets ob)) by (unfold indexes; by rewrite lookup_fmap, Ho).
  split; [by apply (ix_pages_nodup (indexes s) (recs s) o), Hb; apply Hi |]. intros r. by apply (ix_pages _ _ o (o_buckets ob) r (i_ix _ _ Hi)).
Qed.

(** The bytes of what is left. *)
Lemma thins_content s s' o' pos : inv s -> thins s s' -> is_Some (objs s !! o') ->
  (forall r p, recs s !! r = Some p -> p_owner p = o' -> p_index p = pos / PAGE_SIZE -> is_Some (recs s' !! r)) -> content s' o' pos = content s o' pos.
Proof.
  intros Hi T Ho Hkeep. assert (Ho' : is_Some (objs s' !! o')) by by apply (faces_is_Some s s' o'), Ho; apply T. pose proof (i_ix _ _ (tn_inv _ _ T)) as HI'. unfold content.
  destruct (page_find s o' (pos / PAGE_SIZE)) as [r |] eqn:E.
  - apply (page_find_some s o' _ r (i_ix _ _ Hi) Ho) in E as (p & Hp & Eo & Ei). destruct (Hkeep r p Hp Eo Ei) as [p' Hp']. destruct (tn_recs _ _ T r p' Hp') as (w & p0 & Hp0 & ->).
    assert (p0 = p) as -> by congruence. rewrite (proj2 (page_find_some s' o' (pos / PAGE_SIZE) r HI' Ho')) by eauto. rewrite (page_lookup s' r _ Hp'), (page_lookup s r p Hp).
    by rewrite (tn_bytes _ _ T r _ Hp').
  - rewrite (proj2 (page_find_none s' o' (pos / PAGE_SIZE) HI' Ho')); [by apply backing_faces; apply T |]. intros r p' Hp' Eo Ei. destruct (tn_recs _ _ T r p' Hp') as (w & p0 & Hp0 & ->).
    by apply (proj1 (page_find_none s o' _ (i_ix _ _ Hi) Ho) E r p0).
Qed.

Lemma no_page_content s o pos : inv s -> is_Some (objs s !! o) -> (forall r p, recs s !! r = Some p -> p_owner p = o -> p_index p <> pos / PAGE_SIZE) -> content s o pos = backing s o pos.
Proof.
  intros Hi Ho Hno. unfold content. by rewrite (proj2 (page_find_none s o (pos / PAGE_SIZE) (i_ix _ _ Hi) Ho)).
Qed.

(** ** Anonymous mappings *)

(** The pages given back read as zero, the others as before. *)
Lemma vmo_discard_ok s o ob first count : inv s -> objs s !! o = Some ob -> o_anon ob = true -> 0 <= first -> 0 <= count ->
  let s' := vmo_discard_range s o first count in
  thins s s' /\ forall o' pos, is_Some (objs s !! o') -> 0 <= pos ->
    content s' o' pos = if (o' =? o) && (first <=? pos / PAGE_SIZE) && (pos / PAGE_SIZE <? first + count) then 0 else content s o' pos.
Proof.
  intros Hi Ho Ha Hf Hc. cbv zeta. unfold vmo_discard_range. rewrite (obj_lookup s o ob Ho), Ha. cbn [negb orb]. destruct (count =? 0) eqn:E0; b2p.
  { split; [by apply thins_refl |]. intros o' pos _ _. destruct (_ && _) eqn:E; [| done]. apply andb_true_iff in E as [E ?]. apply andb_true_iff in E as [_ ?]. b2p. lia. }
  destruct (pages_of s o ob Hi Ho) as [Hnd Hin]. set (pick := fun p => (first <=? p_index p) && (p_index p - first <? count)).
  destruct (drop_fold o pick (fun s r => anon_unmap_locked s o r)) with (l := all_pages ob) (s := s) as [T R]; [| done | done | by intros r ?%Hin |].
  { intros s0 r p Hi0 Hp Eo. destruct (thins_unmap s0 o r p Hi0 Hp Eo) as (? & ? & _). done. }
  unfold pick in T, R. cbv beta in T, R. set (s' := fold_left _ _ _) in *. split; [done |]. intros o' pos Ho' Hpos.
  assert (Ho2 : is_Some (objs s' !! o')) by by apply (faces_is_Some s s' o'), Ho'; apply T.
  destruct ((o' =? o) && (first <=? pos / PAGE_SIZE) && (pos / PAGE_SIZE <? first + count)) eqn:E.
  - apply andb_true_iff in E as [[E1 E2]%andb_true_iff E3]. b2p. subst o'. rewrite no_page_content; [| apply T | done |].
    + rewrite (backing_faces s s'), (backing_anon s o ob) by (done || apply T). done.
    + intros r p Hp Eo Ei. apply R in Hp as [Hp Hk]. specialize (Hk ltac:(apply Hin; eauto)). apply not_true_iff_false in Hk. apply Hk, andb_true_iff. split; [apply Z.leb_le | apply Z.ltb_lt]; lia.
  - apply thins_content; try done. intros r p Hp Eo Ei. exists p. apply R. split; [done |]. intros Hr%Hin. destruct Hr as (q & Hq & Eq). assert (q = p) as -> by congruence.
    apply not_true_iff_false. intros Ek%andb_true_iff. destruct Ek as [K1 K2]. b2p. assert (o' = o) as -> by congruence. rewrite Z.eqb_refl in E. cbn in E.
    rewrite (proj2 (Z.leb_le _ _)), (proj2 (Z.ltb_lt _ _)) in E by lia. done.
Qed.

Lemma unmap_fold o l : forall s, inv s -> (forall r, r ∈ l -> exists p, recs s !! r = Some p /\ p_owner p = o) ->
  let s' := fold_left (fun s r => anon_unmap_locked s o r) l s in
  thins s s' /\ objs s' = objs s /\ (forall r, is_Some (recs s !! r) -> is_Some (recs s' !! r))
  /\ (o_mapper_pml4 (obj s o) <> 0 -> forall r p, recs s' !! r = Some p -> r ∈ l -> p_wired p = 0).
Proof.
  induction l as [| r l IH]; intros s Hi Hin; cbn [fold_left].
  { split_and!; [by apply thins_refl | done | done |]. by intros _ r p _ ?%not_elem_of_nil. }
  destruct (Hin r ltac:(apply elem_of_cons; by left)) as (p & Hp & Eo). destruct (thins_unmap s o r p Hi Hp Eo) as (T1 & [w E1] & O1).
  assert (Hw : o_mapper_pml4 (obj s o) <> 0 -> w = 0).
  { intros Hm. apply Z.eqb_neq in Hm. assert (Hl : p_wired <$> recs (anon_unmap_locked s o r) !! r = Some w) by (rewrite E1, lookup_insert_eq; done).
    unfold anon_unmap_locked in Hl. rewrite (page_lookup s r p Hp), Hm in Hl. destruct (p_wired p =? 0) eqn:Ew; b2p; cbn [negb andb] in Hl; [rewrite Hp in Hl; cbn in Hl; congruence |].
    unfold upd_page, put_page in Hl. cbn in Hl. rewrite lookup_insert_eq in Hl. cbn in Hl. congruence. }
  set (s1 := anon_unmap_locked s o r) in *.
  assert (Hkeep : forall y q, recs s !! y = Some q -> exists q', recs s1 !! y = Some q' /\ p_owner q' = p_owner q).
  { intros y q Hq. rewrite E1. destruct (decide (y = r)) as [-> | Hne]; [exists (with_wired p w); rewrite lookup_insert_eq; simplify_eq; done | exists q; by rewrite lookup_insert_ne]. }
  destruct (IH s1) as (T2 & O2 & K2 & W2); [apply T1 | |].
  { intros y Hy. destruct (Hin y ltac:(apply elem_of_cons; by right)) as (q & Hq & Eq). destruct (Hkeep y q Hq) as (q' & ? & ?). exists q'. split; congruence. }
  assert (Eobj : obj s1 o = obj s o) by (unfold obj; by rewrite O1). rewrite Eobj in W2. split_and!; [by apply (thins_trans s s1) | congruence | |].
  - intros y [q Hq]. destruct (Hkeep y q Hq) as (q' & ? & _). apply K2. eauto.
  - intros Hm y q Hq [-> | Hy]%elem_of_cons; [| by apply (W2 Hm y q)]. destruct (decide (r ∈ l)) as [Hr | Hr]; [by apply (W2 Hm r q) |].
    assert (Hr1 : forall l0 s0, (r ∉ l0) -> recs (fold_left (fun s r => anon_unmap_locked s o r) l0 s0) !! r = recs s0 !! r).
    { induction l0 as [| y l0 IHl]; intros s0 Hn; cbn [fold_left]; [done |]. apply not_elem_of_cons in Hn as [Hn1 Hn2]. rewrite IHl by done. unfold anon_unmap_locked.
      destruct (_ && _); [| done]. unfold upd_page, put_page. cbn. by rewrite lookup_insert_ne. }
    rewrite Hr1, E1, lookup_insert_eq in Hq by done. injection Hq as <-. by apply Hw.
Qed.

(** After it the page tables hold none of the object's pages. *)
Lemma vmo_detach_ok s o ob : inv s -> objs s !! o = Some ob -> o_anon ob = true ->
  let s' := vmo_detach_mapper s o in
  inv s' /\ faces s' = <[o := face_of (with_mapper ob 0 (o_mapper_base ob))]> (faces s) /\ registry s' = registry s
  /\ (forall o' pos, is_Some (objs s !! o') -> content s' o' pos = content s o' pos)
  /\ (o_mapper_pml4 ob <> 0 -> forall r p, recs s' !! r = Some p -> p_owner p = o -> p_wired p = 0).
Proof.
  intros Hi Ho Ha. cbv zeta. unfold vmo_detach_mapper. rewrite (obj_lookup s o ob Ho), Ha. cbn [negb]. destruct (pages_of s o ob Hi Ho) as [_ Hin].
  destruct (unmap_fold o (all_pages ob) s Hi) as (T & O & K & W); [by intros r ?%Hin |]. set (s1 := fold_left _ _ _) in *. rewrite (obj_lookup s o ob Ho) in W.
  assert (Ho1 : objs s1 !! o = Some ob) by by rewrite O. rewrite (upd_put s1 o ob _ Ho1).
  destruct (alike_ok None s1 o ob (with_mapper ob 0 (o_mapper_base ob)) (tn_inv _ _ T) Ho1 (alike_mapper _ _ _)) as (Hi2 & F2 & C2).
  split_and!; [done | by rewrite F2, (tn_faces _ _ T) | apply T | |].
  - intros o' pos Ho'. rewrite C2. apply thins_content; try done. intros r p Hp _ _. apply K. eauto.
  - intros Hm r p Hp Eo. apply (W Hm r p Hp). apply Hin. destruct (tn_recs _ _ T r p Hp) as (w & p0 & Hp0 & ->). eauto.
Qed.

(** ** Truncation *)

(** The device after the file system has cut the file (or grown it). *)
Definition cut (vn : vnode) (n : Z) (f0 f : FS) : Prop :=
  forall vn' pos, 0 <= pos -> file_byte vn' pos f = if same_file vn vn' && (n <=? pos) then 0 else file_byte vn' pos f0.

Definition recut s (o n : Z) (f : FS) : cache := set_fs (upd_obj s o (fun ob => with_size ob n)) f.

Lemma recut_obj s o n f o' : o_anon (obj (recut s o n f) o') = o_anon (obj s o') /\ obj (recut s o n f) o = with_size (obj s o) n.
Proof.
  unfold recut, upd_obj, obj, put_obj. cbn. rewrite lookup_insert_eq. split; [| done].
  destruct (decide (o' = o)) as [-> | Hne]; [by rewrite lookup_insert_eq | by rewrite lookup_insert_ne].
Qed.

(** Dropping a page does not look at the size, nor at the device. *)
Lemma recut_destroy s o n f r : page_destroy (recut s o n f) o r = recut (page_destroy s o r) o n f.
Proof.
  assert (Ea : on_anon (recut s o n f) r = on_anon s r) by (unfold on_anon; apply (recut_obj s o n f)).
  unfold page_destroy, lru_unlink. rewrite Ea. change (page (recut s o n f) r) with (page s r).
  destruct (on_anon s r), (negb (p_phys (page s r) =? 0)), (negb (p_slot (page s r) =? 0)); unfold record_free, recut, page_unlink, upd_obj, put_obj, obj; cbn;
    rewrite !lookup_insert_eq; cbn; rewrite ?lookup_insert_eq; cbn; by rewrite !insert_insert_eq.
Qed.

Lemma recut_fold o n f (t : vmo_page -> bool) l : forall s,
  fold_left (fun s r => if t (page s r) then page_destroy s o r else s) l (recut s o n f)
  = recut (fold_left (fun s r => if t (page s r) then page_destroy s o r else s) l s) o n f.
Proof.
  induction l as [| r l IH]; intros s; cbn [fold_left]; [done |]. change (page (recut s o n f) r) with (page s r). destruct (t (page s r)); [by rewrite recut_destroy | done].
Qed.

(** The zeroes after the end in the last page. *)
Definition zero_tail s (o n : Z) : cache :=
  if negb (n mod PAGE_SIZE =? 0) then
    match page_find s o (n / PAGE_SIZE) with
    | Some r =>
        let phys := p_phys (page s r) in
        if negb (phys =? 0)
        then put_frame s phys (take (Z.to_nat (n mod PAGE_SIZE)) (frame s phys) ++ replicate (Z.to_nat (PAGE_SIZE - n mod PAGE_SIZE)) 0)
        else s
    | None => s
    end
  else s.

Lemma truncate_split s o n f ob : objs s !! o = Some ob ->
  truncate_locked (set_fs s f) o n =
    zero_tail (recut (fold_left (fun s r => if !64 (n + PAGE_SIZE - 1) / PAGE_SIZE <=? p_index (page s r) then page_destroy s o r else s) (all_pages ob) s) o n f) o n.
Proof.
  intros Ho. unfold truncate_locked, zero_tail. change (upd_obj (set_fs s f) o (fun ob => with_size ob n)) with (recut s o n f).
  assert (Ep : all_pages (obj (recut s o n f) o) = all_pages ob) by (rewrite (proj2 (recut_obj s o n f o)), (obj_lookup s o ob Ho); done). rewrite Ep.
  by rewrite (recut_fold o n f (fun p => !64 (n + PAGE_SIZE - 1) / PAGE_SIZE <=? p_index p)).
Qed.

Lemma cut_page n i : 0 <= n -> i < (n + PAGE_SIZE - 1) / PAGE_SIZE -> forall j, 0 <= j < PAGE_SIZE -> n <= i * PAGE_SIZE + j -> i = n / PAGE_SIZE /\ n mod PAGE_SIZE <= j /\ n mod PAGE_SIZE <> 0.
Proof.
  intros Hn Hi j Hj Hle. destruct (page_split n) as [E M]. assert (Hb : (n + PAGE_SIZE - 1) / PAGE_SIZE * PAGE_SIZE <= n + PAGE_SIZE - 1) by (rewrite Z.mul_comm; apply Z.mul_div_le; done).
  unfold PAGE_SIZE in *. nia.
Qed.

(** The frames after the zeroing. *)
Lemma zero_tail_frames s o n f r p j :
  inv s -> is_Some (objs s !! o) -> 0 <= n -> (forall r p, recs s !! r = Some p -> p_owner p = o -> p_index p < (n + PAGE_SIZE - 1) / PAGE_SIZE /\ p_phys p <> 0) ->
  recs s !! r = Some p -> p_phys p <> 0 -> 0 <= j < PAGE_SIZE ->
  let m := ram (zero_tail (recut s o n f) o n) in
  zlen (fbytes m (p_phys p)) = PAGE_SIZE
  /\ rd (fbytes m (p_phys p)) j = if (p_owner p =? o) && (n <=? p_index p * PAGE_SIZE + j) then 0 else rd (fbytes (ram s) (p_phys p)) j.
Proof.
  intros Hi Ho Hn Hcut Hp Hph Hj. cbv zeta. destruct (pl_in _ _ _ _ _ (i_pl _ _ Hi) r p Hp Hph) as (_ & _ & Hlen).
  assert (Hsame : n mod PAGE_SIZE = 0 \/ p_owner p <> o \/ p_index p <> n / PAGE_SIZE -> (p_owner p =? o) && (n <=? p_index p * PAGE_SIZE + j) = false).
  { intros Hc. apply not_true_iff_false. intros [E1 E2]%andb_true_iff. b2p. destruct (Hcut r p Hp E1) as [Hlt _]. destruct (cut_page n (p_index p) Hn Hlt j Hj E2) as (? & _ & ?). destruct Hc as [? | [? | ?]]; congruence. }
  assert (Efind : page_find (recut s o n f) o (n / PAGE_SIZE) = page_find s o (n / PAGE_SIZE)).
  { destruct Ho as [ob Ho]. apply page_find_ext; [done |]. unfold indexes, recut. rewrite (upd_put s o ob _ Ho). by apply (view_keep _ _ _ ob). }
  unfold zero_tail. destruct (n mod PAGE_SIZE =? 0) eqn:Em; b2p; cbn [negb]; [split; [done | by rewrite Hsame by (by left)] |]. rewrite Efind.
  destruct (page_find s o (n / PAGE_SIZE)) as [r0 |] eqn:Ef.
  - apply (page_find_some s o _ r0 (i_ix _ _ Hi) Ho) in Ef as (p0 & Hp0 & Eo0 & Ei0). change (page (recut s o n f) r0) with (page s r0). rewrite (page_lookup s r0 p0 Hp0). destruct (Hcut r0 p0 Hp0 Eo0) as [_ Hph0].
    rewrite (proj2 (Z.eqb_neq _ _) Hph0). cbn [negb]. change (frame (recut s o n f) (p_phys p0)) with (fbytes (ram s) (p_phys p0)). unfold put_frame. cbn [ram set_ram]. change (ram (recut s o n f)) with (ram s).
    destruct (page_split n) as [_ M]. destruct (decide (r = r0)) as [-> | Hne].
    + assert (p0 = p) as -> by congruence. rewrite fbytes_insert_eq. set (a := n mod PAGE_SIZE) in *. set (l := fbytes (ram s) (p_phys p)) in *.
      assert (Hla : zlen (take (Z.to_nat a) l) = a) by (unfold zlen in *; rewrite length_take; lia). split; [rewrite zlen_app, zlen_replicate; lia |]. rewrite Eo0, Z.eqb_refl. cbn [andb].
      assert (En : (n <=? p_index p * PAGE_SIZE + j) = (a <=? j)) by (destruct (page_split n) as [E _]; fold a in E; rewrite Ei0; apply eq_true_iff_eq; rewrite !Z.leb_le; lia).
      rewrite En. destruct (a <=? j) eqn:Ej; b2p.
      * rewrite rd_app_r by (unfold zlen in Hla; lia). unfold rd. destruct (replicate _ _ !! _) eqn:E; [| done]. by apply lookup_replicate in E as [-> _].
      * rewrite rd_app_l by (unfold zlen in Hla; lia). by rewrite rd_take by lia.
    + rewrite fbytes_insert_ne by (intros E; apply Hne; symmetry; by apply (pl_inj _ _ _ _ _ (i_pl _ _ Hi) r0 r p0 p)). split; [done |]. rewrite Hsame; [done |]. right.
      destruct (decide (p_owner p = o)) as [Eo | ?]; [right | by left]. intros Ei. apply Hne. apply (ix_uniq _ _ (i_ix _ _ Hi) r r0 p p0); congruence.
  - split; [done |]. rewrite Hsame; [done |]. right. destruct (decide (p_owner p = o)) as [Eo | ?]; [right | by left]. by apply (proj1 (page_find_none s o _ (i_ix _ _ Hi) Ho) Ef r p).
Qed.

Lemma zero_tail_rest s o n : exists m, zero_tail s o n = set_ram s m.
Proof.
  unfold zero_tail. assert (Es : set_ram s (ram s) = s) by by destruct s. destruct (negb (n mod PAGE_SIZE =? 0)); [| by exists (ram s)].
  destruct (page_find s o (n / PAGE_SIZE)) as [r |]; [| by exists (ram s)]. destruct (negb (p_phys (page s r) =? 0)); [eexists; reflexivity | by exists (ram s)].
Qed.

(** The state between: the pages past the end are gone, nothing else shows. *)
Lemma truncate_drops s o ob n : inv s -> objs s !! o = Some ob -> o_anon ob = false ->
  let s1 := fold_left (fun s r => if (n + PAGE_SIZE - 1) / PAGE_SIZE <=? p_index (page s r) then page_destroy s o r else s) (all_pages ob) s in
  thins s s1 /\ (forall r p, recs s1 !! r = Some p -> p_owner p = o -> p_index p < (n + PAGE_SIZE - 1) / PAGE_SIZE /\ p_phys p <> 0)
  /\ (forall r p, recs s !! r = Some p -> (p_owner p = o -> p_index p < (n + PAGE_SIZE - 1) / PAGE_SIZE) -> recs s1 !! r = Some p).
Proof.
  intros Hi Ho Ha. destruct (pages_of s o ob Hi Ho) as [Hnd Hin].
  destruct (drop_fold o (fun p => (n + PAGE_SIZE - 1) / PAGE_SIZE <=? p_index p) (fun s r => s)) with (l := all_pages ob) (s := s) as [T R]; [| done | done | by intros r ?%Hin |].
  { intros s0 r p Hi0 Hp _. split; [by apply thins_refl |]. exists (p_wired p). rewrite insert_id; [done |]. rewrite Hp. by destruct p. }
  cbv beta in T, R. cbv zeta. set (s1 := fold_left _ _ _) in *. split_and!; [done | |].
  - intros r p Hp Eo. pose proof Hp as Hp1. apply R in Hp as [Hp Hk]. specialize (Hk ltac:(apply Hin; eauto)). b2p. split; [lia |]. intros E.
    destruct (pl_out _ _ _ _ _ (i_pl _ _ (tn_inv _ _ T)) r p Hp1 E) as (_ & (k & Hk' & Ha') & _). rewrite (tn_faces _ _ T), Eo, (faces_of s o ob Ho) in Hk'. injection Hk' as <-. cbn in Ha'. congruence.
  - intros r p Hp Hlt. apply R. split; [done |]. intros Hr%Hin. destruct Hr as (q & Hq & Eq). assert (q = p) as -> by congruence. specialize (Hlt Eq). apply Z.leb_gt. lia.
Qed.

(** The size is [n], the device is cut, and so are the frames. *)
Record trimmed s s' (o : Z) (ob : vm_object) (n : Z) (f : FS) : Prop := {
  tr_refaced : refaced s s' o ob (with_size ob n);
  tr_file : o_anon ob = false;
  tr_fs : fs s' = f;
  tr_cut : cut (o_vn ob) n (fs s) f;
  tr_range r p : recs s !! r = Some p -> p_owner p = o -> p_index p < (n + PAGE_SIZE - 1) / PAGE_SIZE;
  tr_frames r p j : recs s !! r = Some p -> p_phys p <> 0 -> 0 <= j < PAGE_SIZE ->
    zlen (fbytes (ram s') (p_phys p)) = PAGE_SIZE
    /\ rd (fbytes (ram s') (p_phys p)) j = if (p_owner p =? o) && (n <=? p_index p * PAGE_SIZE + j) then 0 else rd (fbytes (ram s) (p_phys p)) j;
}.

Lemma trimmed_file s s' o ob n f o' k : inv s -> trimmed s s' o ob n f -> faces s !! o' = Some k -> k_anon k = false -> same_file (o_vn ob) (k_vn k) = (o' =? o).
Proof.
  intros Hi Ht Hk Hka. pose proof (faces_of s o ob (rf_was _ _ _ _ _ (tr_refaced _ _ _ _ _ _ Ht))) as Hk1. destruct (o' =? o) eqn:E; b2p.
  - subst o'. assert (k = face_of ob) as -> by congruence. apply same_file_refl.
  - destruct (same_file (o_vn ob) (k_vn k)) eqn:Es; [| done]. destruct E. symmetry. apply (kd_one _ _ (i_kd _ _ Hi) o o' (face_of ob) k); try done. apply Ht.
Qed.

Lemma file_page_in s r p k : inv s -> recs s !! r = Some p -> faces s !! p_owner p = Some k -> k_anon k = false -> p_phys p <> 0.
Proof. intros Hi Hp Hk Hka E. destruct (pl_out _ _ _ _ _ (i_pl _ _ Hi) r p Hp E) as (_ & (k1 & ? & ?) & _). congruence. Qed.

Lemma trimmed_inv s s' o ob n f : inv s -> 0 <= n <= FILE_MAX -> trimmed s s' o ob n f -> inv s'.
Proof.
  intros Hi Hn Ht. pose proof (tr_refaced _ _ _ _ _ _ Ht) as Hr. pose proof (tr_frames _ _ _ _ _ _ Ht) as Hfr. pose proof (tr_cut _ _ _ _ _ _ Ht) as Hcut.
  pose proof (fun o' k => trimmed_file s s' o ob n f o' k Hi Ht) as Hsame. pose proof (fun r p k => file_page_in s r p k Hi) as Hph.
  apply (refaced_inv None None s s' o ob (with_size ob n) Hi Hr); [done | cbn; rewrite (tr_file _ _ _ _ _ _ Ht); done | |].
  { intros r p Hp Hp0. by destruct (Hfr r p 0 Hp Hp0 ltac:(done)). }
  destruct (i_cl _ _ Hi) as [C1 C2 C3]. rewrite (rf_recs _ _ _ _ _ Hr), (tr_fs _ _ _ _ _ _ Ht). split.
  - intros r p k' j Hp Hk' Ha' Hd Hx Hj. destruct (refaced_back _ _ _ _ _ _ _ Hr Hk') as (k & Hk & Ev & Ea & _). rewrite Ea in Ha'. destruct (Hfr r p j Hp (Hph r p k Hp Hk Ha') Hj) as [_ ->].
    rewrite Ev, Hcut, (Hsame _ k Hk Ha') by (pose proof (ix_index _ _ (i_ix _ _ Hi) r p Hp); unfold PAGE_SIZE in *; lia). destruct (_ && _); [done |]. by apply (C1 r p k).
  - intros r p k' j Hp Hk' Ha' Hj Hs. destruct (refaced_back _ _ _ _ _ _ _ Hr Hk') as (k & Hk & Ev & Ea & Hc). rewrite Ea in Ha'. destruct (Hfr r p j Hp (Hph r p k Hp Hk Ha') Hj) as [_ ->].
    destruct Hc as [(-> & -> & _) | (Hne & ->)]; [cbn in Hs; by rewrite Z.eqb_refl, (proj2 (Z.leb_le _ _) Hs) |]. apply Z.eqb_neq in Hne. rewrite Hne. by apply (C2 r p k).
  - intros o' k' pos Hk' Ha' Hs. destruct (refaced_back _ _ _ _ _ _ _ Hr Hk') as (k & Hk & Ev & Ea & Hc). rewrite Ea in Ha'. pose proof (kd_size _ _ (i_kd _ _ Hi) o' k Hk) as Hsz.
    destruct Hc as [(-> & -> & _) | (Hne & ->)].
    + cbn in Hs. rewrite Ev, Hcut, (Hsame _ k Hk Ha'), Z.eqb_refl, (proj2 (Z.leb_le _ _) Hs) by lia. done.
    + rewrite Hcut, (Hsame _ k Hk Ha') by lia. apply Z.eqb_neq in Hne. rewrite Hne. by apply (C3 o' k).
Qed.

Lemma trimmed_content s s' o ob n f o' pos : inv s -> 0 <= n <= FILE_MAX -> trimmed s s' o ob n f -> is_Some (objs s !! o') -> 0 <= pos ->
  content s' o' pos = if (o' =? o) && (n <=? pos) then 0 else content s o' pos.
Proof.
  intros Hi Hn Ht [ob' Ho'] Hpos. pose proof (tr_refaced _ _ _ _ _ _ Ht) as Hr. pose proof (faces_of s o' ob' Ho') as Hk.
  destruct (refaced_views _ _ _ _ _ Hr) as (_ & HB & _). assert (Efind : page_find s' o' (pos / PAGE_SIZE) = page_find s o' (pos / PAGE_SIZE)) by (apply page_find_ext; [apply Hr | done]).
  assert (Esw : sw s' = sw s) by apply Hr. destruct (page_split pos) as [Edm Hm].
  unfold content. rewrite Efind. destruct (page_find s o' (pos / PAGE_SIZE)) as [r |] eqn:E.
  - apply (page_find_some s o' _ r (i_ix _ _ Hi) ltac:(eauto)) in E as (p & Hp & Eo & Ei). rewrite (page_lookup s r p Hp). rewrite (page_lookup s' r p) by (by rewrite (rf_recs _ _ _ _ _ Hr)).
    unfold bytes_of. rewrite Esw. destruct (p_phys p =? 0) eqn:E0; b2p.
    + destruct (o' =? o) eqn:Eoo; [| done]. b2p. destruct (file_page_in s r p (face_of ob') Hi Hp); [by rewrite Eo | | done]. cbn. pose proof (rf_was _ _ _ _ _ Hr). pose proof (tr_file _ _ _ _ _ _ Ht). congruence.
    + destruct (tr_frames _ _ _ _ _ _ Ht r p (pos mod PAGE_SIZE) Hp E0 Hm) as [_ ->]. by rewrite Eo, Ei, <- Edm.
  - assert (Ev : o_vn (obj s' o') = o_vn ob').
    { unfold obj. rewrite (rf_objs _ _ _ _ _ Hr). destruct (decide (o' = o)) as [-> | Hne]; [| rewrite lookup_insert_ne, Ho'; done].
      rewrite lookup_insert_eq. cbn. pose proof (rf_was _ _ _ _ _ Hr). congruence. }
    unfold backing. rewrite Ev, (obj_lookup s o' ob' Ho'). destruct (op_of (o_vn ob') file_read) as [rdf |] eqn:Er.
    + destruct (op_of_file None s o' ob' file_read rdf Hi Ho' Er) as [Ha' _]. rewrite (tr_fs _ _ _ _ _ _ Ht), (tr_cut _ _ _ _ _ _ Ht) by done.
      change (o_vn ob') with (k_vn (face_of ob')). by rewrite (trimmed_file s s' o ob n f o' (face_of ob') Hi Ht Hk Ha').
    + by destruct (_ && _).
Qed.

(** After the file system has cut the file, the cache shows the bytes before
    the cut and zeroes after it. *)
Lemma truncated_ok s o ob n f : inv s -> objs s !! o = Some ob -> o_anon ob = false -> 0 <= n <= FILE_MAX -> cut (o_vn ob) n (fs s) f ->
  let s' := vmo_truncated (set_fs s f) o n in
  inv s' /\ faces s' = <[o := face_of (with_size ob n)]> (faces s) /\ fs s' = f
  /\ forall o' pos, is_Some (objs s !! o') -> 0 <= pos -> content s' o' pos = if (o' =? o) && (n <=? pos) then 0 else content s o' pos.
Proof.
  intros Hi Ho Ha Hn Hcut. cbv zeta. unfold vmo_truncated. rewrite (truncate_split s o n f ob Ho), u64_small by (unfold FILE_MAX, PAGE_SIZE in *; lia).
  destruct (truncate_drops s o ob n Hi Ho Ha) as (T & Hgone & Hkept). set (s1 := fold_left _ (all_pages ob) s) in *. pose proof (tn_inv _ _ T) as Hi1.
  destruct (object_same s s1 o ob (tn_faces _ _ T) Ho) as (ob1 & Ho1 & Ef1). pose proof (zero_tail_frames s1 o n f) as Hram.
  destruct (zero_tail_rest (recut s1 o n f) o n) as [m Em]. rewrite Em in *. set (s' := set_ram (recut s1 o n f) m) in *.
  assert (Evn : o_vn ob1 = o_vn ob) by (change (k_vn (face_of ob1) = k_vn (face_of ob)); by rewrite Ef1).
  assert (Ean : o_anon ob1 = false) by (change (k_anon (face_of ob1) = false); by rewrite Ef1).
  assert (Ht : trimmed s1 s' o ob1 n f).
  { split; [unfold s', recut; rewrite (upd_put s1 o ob1 _ Ho1); by split | done | done | by rewrite Evn, (tn_fs _ _ T) | intros r p Hp Eo; by apply (Hgone r p) |].
    intros r p j Hp Hph Hj. apply (Hram r p j); [done | eauto | lia | done | done | done | done]. }
  pose proof (trimmed_inv s1 s' o ob1 n f Hi1 Hn Ht) as Hi'. destruct (refaced_views _ _ _ _ _ (tr_refaced _ _ _ _ _ _ Ht)) as (HF & _).
  split_and!; [done | | done |].
  - rewrite HF, (tn_faces _ _ T). unfold face_of in *. cbn. injection Ef1 as -> _ -> -> -> -> ->. done.
  - intros o' pos Ho' Hpos. rewrite (trimmed_content s1 s' o ob1 n f) by (done || by apply (faces_is_Some s s1 o' (tn_faces _ _ T))).
    destruct ((o' =? o) && (n <=? pos)) eqn:E; [done |]. apply thins_content; try done. intros r p Hp Eo Ei. exists p. apply Hkept; [done |]. intros Eoo.
    assert (Hlt : pos < n) by (apply andb_false_iff in E as [E | E]; b2p; [congruence | lia]). rewrite Ei. destruct (page_split pos).
    apply Z.lt_le_trans with (pos / PAGE_SIZE + 1); [lia |]. apply Z.div_le_lower_bound; [done |]. unfold PAGE_SIZE in *. lia.
Qed.
End Truncate.
