(* ===== verification/PageCacheWhole.v ===== *)
(** * The page cache as a whole

    Writing everything back, the audit of the store, the counters, one turn of
    the writeback thread, and what the rest of the kernel may do meanwhile. *)

From S2P Require Import Prelude Bytes Vfs PageCache PageCacheInv PageCacheSteps PageCacheReclaim PageCacheAccess PageCacheGet PageCacheFile PageCacheOps PageCacheTruncate.

(** ** Counting *)

Lemma cnt_list (f : vmo_page -> bool) (m : gmap rid vmo_page) (l : list rid) : NoDup l -> (forall r, r ∈ l <-> exists p, m !! r = Some p /\ f p = true) -> cnt f m = Z.of_nat (length l).
Proof.
  intros Hnd Hl. unfold cnt. rewrite <- size_dom. f_equal.
  assert (E : dom (filter (fun kv : rid * vmo_page => f (snd kv) = true) m) = (list_to_set l : gset rid)).
  { apply set_eq. intros r. rewrite elem_of_list_to_set, Hl, elem_of_dom. split.
    - intros [p Hp]. apply map_lookup_filter_Some in Hp as [? ?]. eauto.
    - intros (p & Hp & Hf). exists p. by apply map_lookup_filter_Some. }
  rewrite E. by apply size_list_to_set.
Qed.

Lemma cnt_ext (f g : vmo_page -> bool) (m : gmap rid vmo_page) : (forall r p, m !! r = Some p -> f p = g p) -> cnt f m = cnt g m.
Proof.
  intros Hfg. unfold cnt. f_equal. f_equal. apply map_filter_ext. intros r p Hp. cbn. by rewrite (Hfg r p Hp).
Qed.

Lemma cnt_or (f g : vmo_page -> bool) (m : gmap rid vmo_page) : (forall p, f p = true -> g p = false) -> cnt (fun p => f p || g p) m = cnt f m + cnt g m.
Proof.
  intros Hd. induction m as [| r p m Hr IH] using map_ind; [done |]. rewrite !cnt_insert_new, IH by done. pose proof (Hd p). destruct (f p), (g p); cbn; lia || naive_solver.
Qed.

(** The pages of a list of objects. *)
Definition among (l : list Z) (t : vmo_page -> bool) (p : vmo_page) : bool := bool_decide (p_owner p ∈ l) && t p.

Lemma cnt_among (o : Z) (l : list Z) (t : vmo_page -> bool) (m : gmap rid vmo_page) : o ∉ l -> cnt (among (o :: l) t) m = cnt (fun p => (p_owner p =? o) && t p) m + cnt (among l t) m.
Proof.
  intros Ho. rewrite <- cnt_or.
  - apply cnt_ext. intros r p _. unfold among. destruct (decide (p_owner p = o)) as [-> | Hne].
    + rewrite Z.eqb_refl, bool_decide_eq_true_2, (bool_decide_eq_false_2 (o ∈ l)) by (done || (apply elem_of_cons; by left)). by destruct (t p).
    + apply Z.eqb_neq in Hne as Hne'. rewrite Hne'. cbn. f_equal. apply bool_decide_ext. rewrite elem_of_cons. tauto.
  - intros p [E _]%andb_true_iff. b2p. unfold among. by rewrite bool_decide_eq_false_2 by congruence.
Qed.

(** Four counts at once. *)
Local Ltac quad := repeat match goal with |- (_, _) = (_, _) => f_equal end; lia.

Section Whole.
Context {Fr FS SW PT HP : Type} `{FrameLaws Fr} `{FileLaws FS} `{SlotLaws SW} `{TableLaws PT} `{HeapLaws HP} {FM : Firm}.

Local Abbreviation cache := (@cache Fr FS SW PT HP).
Implicit Types (s : cache).

(** ** Writing everything back *)

Lemma tidies_flush s o : inv s -> is_Some (objs s !! o) -> tidies None s (snd (flush_object_locked s o)).
Proof.
  intros Hi [ob Ho]. destruct (flush_object_locked s o) as [rc s'] eqn:E. by destruct (flush_object_ok s o ob rc s' Hi Ho E).
Qed.

Lemma flush_all_ok l : forall s, inv s -> (forall o, o ∈ l -> is_Some (objs s !! o)) -> tidies None s (fold_left (fun s o => snd (flush_object_locked s o)) l s).
Proof.
  induction l as [| o l IH]; intros s Hi Hl; cbn [fold_left]; [by apply tidies_refl |]. pose proof (tidies_flush s o Hi ltac:(apply Hl, elem_of_cons; by left)) as T1.
  apply (tidies_trans None s _ _ T1). intros Hi1. apply IH; [done |]. intros o' Ho'. apply (faces_is_Some s _ o' (sm_faces _ _ (proj2 (proj1 T1)))). apply Hl, elem_of_cons. by right.
Qed.

Lemma registry_live s o : inv s -> o ∈ registry s <-> is_Some (objs s !! o).
Proof.
  intros Hi. rewrite (kd_reg _ _ (i_kd _ _ Hi)). unfold faces. rewrite lookup_fmap. apply fmap_is_Some.
Qed.

Lemma writeback_all_ok s : inv s -> tidies None s (snd (vmo_writeback_all s)).
Proof.
  intros Hi. unfold vmo_writeback_all. destruct (negb (ready s)); cbn [snd]; [by apply tidies_refl |]. apply flush_all_ok; [done |]. intros o. by apply registry_live.
Qed.

(** ** The counters *)

Definition file_of s (p : vmo_page) : bool := negb (o_anon (obj s (p_owner p))).

(** What walking every page finds. *)
Definition recount s : Z * Z * Z * Z :=
  if negb (ready s) then (0, 0, 0, 0)
  else (cnt (fun p => file_of s p && negb (p_phys p =? 0)) (recs s), cnt (fun p => file_of s p && p_dirty p) (recs s),
        cnt (fun p => negb (file_of s p) && negb (p_phys p =? 0)) (recs s), cnt (fun p => negb (file_of s p) && (p_phys p =? 0)) (recs s)).

Lemma stats_fold s l : inv s -> NoDup l -> (forall o, o ∈ l -> is_Some (objs s !! o)) -> forall a b c d,
  fold_left (fun '(res, dirty, anon, swp) o =>
      let ob := obj s o in
      if o_anon ob then (res, dirty, anon + o_resident ob, swp + o_swapped ob)
      else (res + o_resident ob, dirty + o_dirty_pages ob, anon, swp)) l (a, b, c, d)
  = (a + cnt (among l (fun p => file_of s p && negb (p_phys p =? 0))) (recs s), b + cnt (among l (fun p => file_of s p && p_dirty p)) (recs s),
     c + cnt (among l (fun p => negb (file_of s p) && negb (p_phys p =? 0))) (recs s), d + cnt (among l (fun p => negb (file_of s p) && (p_phys p =? 0))) (recs s)).
Proof.
  intros Hi. induction l as [| o l IH]; intros Hnd Hl a b c d; cbn [fold_left].
  { assert (Hz : forall t, cnt (among [] t) (recs s) = 0) by (intros t; apply cnt_zero; intros r p _; unfold among; by rewrite bool_decide_eq_false_2 by apply not_elem_of_nil).
    rewrite !Hz. quad. }
  apply NoDup_cons in Hnd as [Ho Hnd]. destruct (Hl o ltac:(apply elem_of_cons; by left)) as [ob Hob]. destruct (object_counts None s o ob Hi Hob) as (E1 & E2 & E3).
  rewrite !cnt_among by done. rewrite (obj_lookup s o ob Hob). cbv zeta.
  assert (Hown : forall p, (p_owner p =? o) = true -> file_of s p = negb (o_anon ob)) by (intros p E; b2p; unfold file_of; by rewrite E, (obj_lookup s o ob Hob)).
  assert (Hc : forall (b : bool) t, cnt (fun p => (p_owner p =? o) && ((if b then file_of s p else negb (file_of s p)) && t p)) (recs s)
                = if eqb b (negb (o_anon ob)) then cnt (fun p => (p_owner p =? o) && t p) (recs s) else 0).
  { intros b0 t. destruct (eqb b0 (negb (o_anon ob))) eqn:Eb.
    - apply cnt_ext. intros r p _. destruct (p_owner p =? o) eqn:Ep; [| done]. rewrite (Hown p Ep). by destruct b0, (o_anon ob).
    - apply cnt_zero. intros r p _. destruct (p_owner p =? o) eqn:Ep; [| done]. rewrite (Hown p Ep). by destruct b0, (o_anon ob). }
  rewrite (Hc true (fun p => negb (p_phys p =? 0))), (Hc true p_dirty), (Hc false (fun p => negb (p_phys p =? 0))), (Hc false (fun p => p_phys p =? 0)).
  unfold resident_of, dirty_of, out_of in *. destruct (o_anon ob); cbn [negb eqb]; rewrite IH by (done || (intros o' ?; apply Hl, elem_of_cons; by right)); rewrite <- ?E1, <- ?E2, <- ?E3; quad.
Qed.

Lemma stats_ok s : inv s -> vmo_stats_get s = recount s.
Proof.
  intros Hi. unfold vmo_stats_get, recount. destruct (negb (ready s)); [done |]. rewrite (stats_fold s (registry s) Hi (kd_nodup _ _ (i_kd _ _ Hi))) by (intros o; by apply registry_live).
  assert (Hall : forall t, cnt (among (registry s) t) (recs s) = cnt t (recs s)).
  { intros t. apply cnt_ext. intros r p Hp. unfold among. rewrite bool_decide_eq_true_2; [done |]. apply registry_live; [done |]. by apply (owner_object s r p (i_ix _ _ Hi)). }
  rewrite !Hall. quad.
Qed.

(** ** The audit of the store *)

Definition is_out s (r : rid) : bool := p_phys (page s r) =? 0.

Lemma audit_fold s nbits bm : inv s -> forall l out seen, NoDup l -> (forall r, r ∈ l -> is_Some (recs s !! r)) ->
  (forall a, a ∈ seen -> exists r p, (r ∉ l) /\ recs s !! r = Some p /\ p_phys p = 0 /\ p_slot p = a) ->
  exists seen', fold_left (audit_page s nbits bm) l (out, 0, 0, seen) = (out + Z.of_nat (length (filter (fun r => is_out s r = true) l)), 0, 0, seen').
Proof.
  intros Hi. induction l as [| r l IH]; intros out seen Hnd Hl Hseen; cbn [fold_left]; [exists seen; by rewrite Z.add_0_r |].
  apply NoDup_cons in Hnd as [Hr Hnd]. destruct (Hl r ltac:(apply elem_of_cons; by left)) as [p Hp]. assert (Hl' : forall y, y ∈ l -> is_Some (recs s !! y)) by (intros y ?; apply Hl, elem_of_cons; by right).
  assert (Hseen' : forall a, a ∈ seen -> exists r p, (r ∉ l) /\ recs s !! r = Some p /\ p_phys p = 0 /\ p_slot p = a).
  { intros a Ha. destruct (Hseen a Ha) as (y & q & Hy & ?). exists y, q. split; [| done]. intros ?. apply Hy, elem_of_cons. by right. }
  rewrite filter_cons. assert (Eout : is_out s r = (p_phys p =? 0)) by (unfold is_out; by rewrite (page_lookup s r p Hp)).
  unfold audit_page at 2. rewrite (page_lookup s r p Hp). destruct (p_phys p =? 0) eqn:E0; b2p; cbn [negb orb].
  - rewrite decide_True by done. destruct (pl_out _ _ _ _ _ (i_pl _ _ Hi) r p Hp E0) as (Hsl & _ & l0 & Hl0 & _). rewrite (proj2 (Z.eqb_neq _ _) Hsl).
    rewrite (sw_held _ _ (pl_sw _ _ _ _ _ (i_pl _ _ Hi)) (mk_is_Some _ _ Hl0)).
    assert (Hnew : p_slot p ∉ seen).
    { intros Ha. destruct (Hseen _ Ha) as (y & q & Hy & Hq & Eq & Es). apply Hy, elem_of_cons. left. by apply (pl_sinj _ _ _ _ _ (i_pl _ _ Hi) y r q p). }
    assert (Hnext : forall seen1, (forall a, a ∈ seen1 -> a = p_slot p \/ a ∈ seen) -> exists seen',
      fold_left (audit_page s nbits bm) l (out + 1, 0, 0, seen1) = (out + Z.of_nat (length (r :: filter (fun r => is_out s r = true) l)), 0, 0, seen')).
    { intros seen1 H1s. destruct (IH (out + 1) seen1) as [seen' E]; try done.
      - intros a Ha. destruct (H1s a Ha) as [-> | ?]; [by exists r, p | by apply Hseen'].
      - exists seen'. rewrite E. cbn [length]. quad. }
    destruct (bm && (p_slot p <? nbits)); [| apply Hnext; auto]. rewrite bool_decide_eq_false_2 by done. apply Hnext. intros a [-> | ?]%elem_of_cons; auto.
  - rewrite decide_False by (rewrite Eout; done). by apply IH.
Qed.

Lemma anon_pages_ok s l : inv s -> NoDup l -> (forall o, o ∈ l -> is_Some (objs s !! o)) ->
  let pages := flat_map (fun o => if o_anon (obj s o) then all_pages (obj s o) else []) l in
  NoDup pages /\ forall r, r ∈ pages <-> exists p, recs s !! r = Some p /\ p_owner p ∈ l /\ o_anon (obj s (p_owner p)) = true.
Proof.
  intros Hi. induction l as [| o l IH]; intros Hnd Hl; cbn [flat_map].
  { split; [constructor |]. intros r. split; [by intros ?%not_elem_of_nil |]. intros (p & _ & ?%not_elem_of_nil & _). done. }
  apply NoDup_cons in Hnd as [Ho Hnd]. destruct (Hl o ltac:(apply elem_of_cons; by left)) as [ob Hob]. destruct (pages_of s o ob Hi Hob) as [Hnp Hin].
  destruct IH as [IH1 IH2]; [done | intros o' ?; apply Hl, elem_of_cons; by right |]. rewrite (obj_lookup s o ob Hob). set (rest := flat_map _ l) in *.
  assert (Hhd : forall r, r ∈ (if o_anon ob then all_pages ob else []) <-> exists p, recs s !! r = Some p /\ p_owner p = o /\ o_anon (obj s (p_owner p)) = true).
  { intros r. destruct (o_anon ob) eqn:Ea.
    - rewrite Hin. split; intros (p & Hp & Eo); exists p; [| by destruct Eo]. by rewrite Eo, (obj_lookup s o ob Hob).
    - split; [by intros ?%not_elem_of_nil |]. intros (p & _ & -> & E). rewrite (obj_lookup s o ob Hob) in E. congruence. }
  split.
  - apply NoDup_app. split_and!; [by destruct (o_anon ob); [| constructor] | | done]. intros r (p & Hp & Eo & _)%Hhd (q & Hq & Hl' & _)%IH2. assert (q = p) as -> by congruence. congruence.
  - intros r. rewrite elem_of_app, Hhd, IH2. split.
    + intros [(p & Hp & Eo & ?) | (p & Hp & ? & ?)]; exists p; (split_and!; [done | apply elem_of_cons; auto | done]).
    + intros (p & Hp & [? | ?]%elem_of_cons & ?); [left | right]; eauto.
Qed.

(** The audit counts the pages that are out, and finds nothing wrong. *)
Lemma audit_ok s : inv s -> exists used s', vmo_audit_swap s = (if ready s then cnt (fun p => p_phys p =? 0) (recs s) else 0, used, 0, 0, s') /\ tidies None s s'.
Proof.
  intros Hi. unfold vmo_audit_swap. destruct (ready s); cbn [negb]; [| exists 0, s; split; [done | by apply tidies_refl]].
  destruct (if swap_nslots (sw s) + 1 <=? Z.shiftl 64 20 then _ else _) as [seen h] eqn:Em.
  assert (HG : Hg (tables s) (recs s) (rec_free s) (if seen =? 0 then h else kfree seen h)).
  { destruct (_ <=? _) in Em; [| injection Em as <- <-; apply Hi]. destruct (seen =? 0) eqn:E; b2p; [by apply (hg_block _ _ _ _ _ _ _ (i_hg _ _ Hi) Em) | by apply (hg_scratch _ _ _ _ _ _ _ (i_hg _ _ Hi) Em)]. }
  destruct (anon_pages_ok s (registry s) Hi (kd_nodup _ _ (i_kd _ _ Hi))) as [Hnd Hin]; [intros o; by apply registry_live |]. cbv zeta in Hnd, Hin. set (pages := flat_map _ (registry s)) in *.
  destruct (audit_fold s (swap_nslots (sw s) + 1) (negb (seen =? 0)) Hi pages 0 [] Hnd) as [seen' E]; [intros r (p & ? & _)%Hin; eauto | by intros a ?%not_elem_of_nil |]. rewrite E.
  pose proof (tidies_heap None s (rec_free s) _ Hi HG) as T. assert (Es : forall h, set_rec_free (set_hp s h) (rec_free s) = set_hp s h) by by destruct s. rewrite Es in T.
  exists (swap_used (sw s)). eexists. split; [| exact T]. repeat f_equal. rewrite Z.add_0_l. symmetry. apply cnt_list; [by apply NoDup_filter |].
  intros r. rewrite list_elem_of_filter, Hin. unfold is_out. split.
  - intros [Eo (p & Hp & _)]. exists p. by rewrite (page_lookup s r p Hp) in Eo.
  - intros (p & Hp & Eo). rewrite (page_lookup s r p Hp). split; [done |]. exists p. b2p. destruct (pl_out _ _ _ _ _ (i_pl _ _ Hi) r p Hp Eo) as (_ & (k & Hk & Ha) & _).
    destruct (faces_lookup s _ _ Hk) as (ob & Hob & ->). split_and!; [done | apply registry_live; eauto | by rewrite (obj_lookup s _ ob Hob)].
Qed.

(** ** The writeback thread *)

Lemma vmo_reclaim_ok fuel want s : inv s -> 0 <= want ->
  match vmo_reclaim fuel s want with
  | Some (n, s') => tidies None s s' /\ in_use s' = in_use s - n /\ 0 <= n <= want
  | None => ~ enough fuel s
  end.
Proof.
  intros Hi Hw. unfold vmo_reclaim. destruct (_ || _); [| by apply reclaim_ok]. split_and!; [by apply tidies_refl | lia | lia | lia].
Qed.

Lemma turn_ok fuel now next s : inv s ->
  match vmo_writeback_turn fuel now next s with
  | Some (next', s') => tidies None s s' /\ (next <= now -> next' = now + VMO_WRITEBACK_INTERVAL_MS)
  | None => ~ enough fuel s
  end.
Proof.
  intros Hi. unfold vmo_writeback_turn. set (flushed := if next <=? now then _ else _).
  assert (Hf : exists next' s1, flushed = (next', s1) /\ tidies None s s1 /\ (next <= now -> next' = now + VMO_WRITEBACK_INTERVAL_MS)).
  { unfold flushed. destruct (next <=? now) eqn:E; b2p; [| exists next, s; split_and!; [done | by apply tidies_refl | lia]].
    eexists _, _. split_and!; [reflexivity | by apply writeback_all_ok | done]. }
  destruct Hf as (next' & s1 & -> & T1 & Hn). pose proof (proj1 (proj1 T1)) as Hi1.
  assert (Hres : forall res : option (Z * cache), match res with Some (_, s') => tidies None s1 s' | None => ~ enough fuel s1 end ->
    match pair next' <$> (snd <$> res) with Some (n2, s') => tidies None s s' /\ (next <= now -> n2 = now + VMO_WRITEBACK_INTERVAL_MS) | None => ~ enough fuel s end).
  { intros [[n s'] |] Hr; cbn; [split; [by apply (tidies_trans None s s1) | done] |]. intros He. by apply Hr, (enough_calm fuel s s1), T1. }
  destruct (_ <? _).
  - apply Hres. pose proof (vmo_reclaim_ok fuel VMO_RECLAIM_BATCH s1 Hi1 ltac:(done)) as Hr. destruct (vmo_reclaim _ _ _) as [[? ?] |]; [apply Hr | done].
  - destruct (negb (max_resident s1 =? 0)); [| done]. destruct (vmo_stats_get s1) as [[[res d] a] w]. destruct (max_resident s1 <? res) eqn:El; [| done]. b2p. apply Hres.
    pose proof (reclaim_ok fuel (res - max_resident s1) false s1 Hi1 ltac:(lia)) as Hr. destruct (reclaim_locked _ _ _ _) as [[? ?] |]; [apply Hr | done].
Qed.

(** ** The rest of the kernel *)

(** The blocks of the heap the cache holds. *)
Definition our_block s (a : Z) : Prop :=
  is_Some (objs s !! a) \/ (exists o ob, objs s !! o = Some ob /\ o_table ob = a /\ a <> 0) \/ exists r, fst r = a /\ (r ∈ rec_free s \/ is_Some (recs s !! r)).

(** Others take and give back frames and blocks, and change page tables. *)
Definition others_ran s (f : Fr) (h : HP) : Prop :=
  fr_ok f /\ (forall r p, recs s !! r = Some p -> p_phys p <> 0 -> p_phys p ∈ fr_held f) /\ hp_ok h /\ forall a, our_block s a -> a ∈ hp_used h.

Lemma others_keep s f h t : inv s -> others_ran s f h -> keeps None s (set_pt (set_hp (set_fr s f) h) t).
Proof.
  intros [A B C [D1 D2 D3 D4 D5 D6] E F (G1 & G2 & G3 & own & O1 & O2 & O3)] (Hf & Hfr & Hh & Hbl). split; [| by apply same_eq]. split; try done.
  - split; try done. intros r p Hp Hph. destruct (D3 r p Hp Hph) as (_ & ? & ?). split_and!; [by apply (Hfr r) | done | done].
  - split_and!; [done | done | done |].
    assert (Hdec : exists own' : gmap Z role, forall a y, own' !! a = Some y <-> own !! a = Some y /\ a ∈ hp_used h).
    { exists (filter (fun kv => kv.1 ∈ hp_used h) own). intros a y. by rewrite map_lookup_filter_Some. }
    destruct Hdec as [own' Hown]. exists own'. split_and!.
    + intros a y [_ ?]%Hown. done.
    + intros r Hr. apply Hown. split; [by apply O2 |]. apply Hbl. right. right. by exists r.
    + intros o tb Ht. change (tables s !! o = Some tb) in Ht. destruct (O3 o tb Ht) as [Q1 Q2]. unfold tables in Ht. rewrite lookup_fmap in Ht. destruct (objs s !! o) as [ob |] eqn:Eo; [| done]. injection Ht as <-.
      split; [apply Hown; split; [done |]; apply Hbl; left; eauto |]. intros Hn. apply Hown. split; [by apply Q2 |]. apply Hbl. right. left. eauto.
Qed.

(** Another file changes on the device. *)
Lemma other_file s f : inv s -> (forall o k pos, faces s !! o = Some k -> k_anon k = false -> 0 <= pos -> file_byte (k_vn k) pos f = file_byte (k_vn k) pos (fs s)) ->
  inv (set_fs s f) /\ forall o pos, is_Some (objs s !! o) -> 0 <= pos -> content (set_fs s f) o pos = content s o pos.
Proof.
  intros Hi Hf. assert (Hi' : inv (set_fs s f)).
  { destruct Hi as [A B C D [E1 E2 E3] F G]. split; try done. split; cbn [fs set_fs recs ram]; [| done |].
    - intros r p k j Hp Hk Ha Hd Hx Hj. rewrite (Hf _ k) by (done || (pose proof (ix_index _ _ A r p Hp); unfold PAGE_SIZE in *; lia)). by apply (E1 r).
    - intros o k pos Hk Ha Hs. rewrite (Hf o k) by (done || (pose proof (kd_size _ _ C o k Hk); lia)). by apply (E3 o). }
  split; [done |]. intros o pos [ob Ho] Hpos. unfold content. rewrite (page_find_ext s (set_fs s f)) by done.
  destruct (page_find s o (pos / PAGE_SIZE)); [done |]. unfold backing. change (obj (set_fs s f) o) with (obj s o). rewrite (obj_lookup s o ob Ho).
  destruct (op_of (o_vn ob) file_read) eqn:Er; [| done]. destruct (op_of_file None s o ob file_read _ Hi Ho Er) as [Ha _]. by apply (Hf o (face_of ob)); [apply faces_of | |].
Qed.
End Whole.
