(* ===== verification/PageCacheMachine.v ===== *)
(** * The page cache: what it promises

    The calls of the cache as a machine, the files and memory its callers see,
    and what each call does to them. *)

From stdpp Require Import gmultiset.
From S2P Require Import Prelude Bytes Vfs PageCache PageCacheInv PageCacheSteps PageCacheReclaim PageCacheAccess PageCacheGet PageCacheFile PageCacheOps PageCacheTruncate PageCacheWhole.

(** ** What callers see *)

(** A handle: the file it is of, or none for memory; how long it is; how many
    hold it. *)
Record handle := mkHandle { h_file : option vnode; h_size : Z; h_refs : Z }.

(** Every file is an array of bytes, in the cache or not, and so is the memory
    behind a handle that is of no file.  A byte of a file is unsaved when a
    process stored it through its mapping into a page that counts as clean, or
    past the end of the file: it shows until the page is dropped, and nothing
    writes it back. *)
Record world := mkWorld {
  w_handles : gmap Z handle;
  w_file : vnode -> Z -> Z;
  w_mem : Z -> Z -> Z;
  w_unsaved : vnode -> Z -> bool;
}.

Definition with_refs_of (h : handle) (n : Z) : handle := mkHandle (h_file h) (h_size h) n.
Definition with_size_of (h : handle) (n : Z) : handle := mkHandle (h_file h) n (h_refs h).

(** The handles of a file whose size is set. *)
Definition resize_file (vn : vnode) (n : Z) (h : handle) : handle :=
  match h_file h with Some vn' => if same_file vn' vn then with_size_of h n else h | None => h end.

(** ** The calls *)

Inductive call {FS : Type} :=
  | Get (vn : vnode) | CreateAnon (size : Z) | Ref (o : Z) | Put (o : Z)
  | Read (o off len : Z) | Write (o off : Z) (src : list Z) | Append (o : Z) (src : list Z) | Flush (o : Z)
  | Truncate (o n : Z) (f : FS)             (* the device after the file system's own truncate *)
  | OpenTruncate (vn : vnode) (n : Z) (f : FS)
  | Wire (o index : Z) | Unwire (o index : Z) | MarkDirty (o index : Z)
  | Store (o index j b : Z)                 (* a process, through its mapping *)
  | SetMapper (o pml4 base : Z) | Discard (o first count : Z) | Detach (o : Z)
  | WritebackAll | Reclaim (want : Z) | Audit | SecondChance (on : bool) | Turn (now next : Z).
Arguments call FS : clear implicits.

Inductive result :=
  | Done | Handle (o : option Z) | Bytes (rc : Z) (l : list Z) | Wrote (rc off n : Z) | Rc (rc : Z) | Frame (phys : Z) | Count (n : Z)
  | Audited (out used dangling doubled : Z).

(** ** What they promise *)

(** No file and no memory changes but those named; of unsaved bytes nothing is
    said. *)
Definition idle_but (files : vnode -> bool) (mem : Z -> bool) (w w' : world) : Prop :=
  (forall vn pos, 0 <= pos -> files vn = false -> w_unsaved w vn pos = false -> w_file w' vn pos = w_file w vn pos)
  /\ forall o h pos, w_handles w !! o = Some h -> h_file h = None -> mem o = false -> 0 <= pos -> w_mem w' o pos = w_mem w o pos.

Definition still : world -> world -> Prop := idle_but (fun _ => false) (fun _ => false).

(** Nothing shows at all. *)
Definition unseen (w w' : world) : Prop := w_handles w' = w_handles w /\ still w w'.

(** Part of a file is replaced, unsaved or not before; what was written is not
    unsaved. *)
Definition file_written (vn : vnode) (off : Z) (l : list Z) (w w' : world) : Prop :=
  idle_but (same_file vn) (fun _ => false) w w'
  /\ forall vn' pos, same_file vn vn' = true -> 0 <= pos ->
       (w_unsaved w vn' pos = false \/ off <= pos < off + zlen l -> w_file w' vn' pos = overlay (w_file w vn') off l pos)
       /\ (off <= pos < off + zlen l -> w_unsaved w' vn' pos = false).

(** The bytes of the files become [c]; no memory changes. *)
Definition files_are (c : vnode -> Z -> Z) (w w' : world) : Prop :=
  (forall vn pos, 0 <= pos -> w_file w' vn pos = c vn pos)
  /\ forall o h pos, w_handles w !! o = Some h -> h_file h = None -> 0 <= pos -> w_mem w' o pos = w_mem w o pos.

(** One byte of a file is replaced. *)
Definition file_stored (vn : vnode) (pos b : Z) (w w' : world) : Prop :=
  files_are (fun vn' => if same_file vn vn' then overlay (w_file w vn') pos [b] else w_file w vn') w w'.

Definition file_cut (vn : vnode) (n : Z) (w w' : world) : Prop :=
  files_are (fun vn' pos => if same_file vn vn' && (n <=? pos) then 0 else w_file w vn' pos) w w'.

Definition spec {FS} (c : call FS) (r : result) (w w' : world) : Prop :=
  match c, r with
  | Get vn, Handle (Some o) =>
      still w w'
      /\ ((exists h vn', w_handles w !! o = Some h /\ h_file h = Some vn' /\ same_file vn' vn = true /\ w_handles w' = <[o := with_refs_of h (h_refs h + 1)]> (w_handles w))
          \/ (w_handles w !! o = None /\ exists n, w_handles w' = <[o := mkHandle (Some vn) n 1]> (w_handles w) /\ forall pos, n <= pos -> w_file w vn pos = 0))
  | CreateAnon n, Handle (Some o) =>
      still w w' /\ w_handles w !! o = None /\ w_handles w' = <[o := mkHandle None n 1]> (w_handles w) /\ forall pos, w_mem w' o pos = 0
  | Ref o, Done => exists h, w_handles w !! o = Some h /\ w_handles w' = <[o := with_refs_of h (h_refs h + 1)]> (w_handles w) /\ still w w'
  | Put o, Rc rc =>
      exists h, w_handles w !! o = Some h
        /\ if 1 <? h_refs h then w_handles w' = <[o := with_refs_of h (h_refs h - 1)]> (w_handles w) /\ still w w'
           else w_handles w' = delete o (w_handles w)
                /\ idle_but (fun vn => match h_file h with Some vn' => negb (rc =? Errno.EMBK_OK) && same_file vn' vn | None => false end) (Z.eqb o) w w'
  | Read o off len, Bytes rc l =>
      unseen w w'
      /\ exists h vn, w_handles w !! o = Some h /\ h_file h = Some vn /\ zlen l <= readable (h_size h) off len
           /\ (forall i, 0 <= i < zlen l -> w_unsaved w vn (off + i) = false -> rd l i = w_file w vn (off + i))
           /\ (rc = Errno.EMBK_OK \/ (rc = - Errno.EMBK_ENOMEM /\ l = []))
  | Write o _ src, Wrote rc off n | Append o src, Wrote rc off n =>
      exists h vn, w_handles w !! o = Some h /\ h_file h = Some vn /\ 0 <= n <= zlen src
        /\ match c with Write _ off' _ => off = off' | _ => off = h_size h end
        /\ w_handles w' = <[o := with_size_of h (size_after (h_size h) off (take (Z.to_nat n) src))]> (w_handles w)
        /\ file_written vn off (take (Z.to_nat n) src) w w' /\ (rc <> Errno.EMBK_OK -> n = 0)
  | Truncate o n _, Done =>
      exists h vn, w_handles w !! o = Some h /\ h_file h = Some vn /\ w_handles w' = <[o := with_size_of h n]> (w_handles w) /\ file_cut vn n w w'
  | OpenTruncate vn n _, Done =>
      file_cut vn n w w'
      /\ w_handles w' = resize_file vn n <$> w_handles w
  | Store o index j b, Done =>
      exists h, w_handles w !! o = Some h /\ w_handles w' = w_handles w
        /\ match h_file h with
           | Some vn => file_stored vn (index * PAGE_SIZE + j) b w w'
           | None => idle_but (fun _ => false) (Z.eqb o) w w' /\ forall pos, 0 <= pos -> w_mem w' o pos = overlay (w_mem w o) (index * PAGE_SIZE + j) [b] pos
           end
  | Discard o first count, Done =>
      exists h, w_handles w !! o = Some h /\ w_handles w' = w_handles w
        /\ match h_file h with
           | Some _ => still w w'
           | None => idle_but (fun _ => false) (Z.eqb o) w w'
                     /\ forall pos, 0 <= pos -> w_mem w' o pos = if (first <=? pos / PAGE_SIZE) && (pos / PAGE_SIZE <? first + count) then 0 else w_mem w o pos
           end
  | Audit, Audited _ _ dangling doubled => unseen w w' /\ dangling = 0 /\ doubled = 0
  | Get _, Handle None | CreateAnon _, Handle None | Flush _, Rc _ | Wire _ _, Frame _ | Unwire _ _, Done | MarkDirty _ _, Done
  | SetMapper _ _ _, Done | Detach _, Done | WritebackAll, Count _ | Reclaim _, Count _ | SecondChance _, Done | Turn _ _, Count _ => unseen w w'
  | _, _ => False
  end.

Lemma files_are_ext c c' w w' : (forall vn pos, 0 <= pos -> c' vn pos = c vn pos) -> files_are c w w' -> files_are c' w w'.
Proof. intros E [A B]. split; [| done]. intros vn pos Hpos. rewrite E by done. by apply A. Qed.

Section Machine.
Context {Fr FS SW PT HP : Type} `{FrameLaws Fr} `{FileLaws FS} `{SlotLaws SW} `{TableLaws PT} `{HeapLaws HP} {FM : Firm}.

Local Abbreviation cache := (@cache Fr FS SW PT HP).
Implicit Types (s : cache).

Definition exec (fuel : nat) (c : call FS) (s : cache) : option (result * cache) :=
  match c with
  | Get vn => let '(o, s) := vmo_get s vn in Some (Handle o, s)
  | CreateAnon n => let '(o, s) := vmo_create_anon s n in Some (Handle o, s)
  | Ref o => Some (Done, vmo_ref s o)
  | Put o => Some (Rc (fst (flush_object_locked (upd_obj s o (fun ob => with_refs ob (o_refs ob - 1))) o)), vmo_put s o)
  | Read o off len => '(rc, l, s) ← vmo_read fuel s o off len; Some (Bytes rc l, s)
  | Write o off src => '(rc, n, s) ← vmo_write fuel s o off src; Some (Wrote rc off n, s)
  | Append o src => '(off, (rc, n, s)) ← vmo_append fuel s o src; Some (Wrote rc off n, s)
  | Flush o => let '(rc, s) := vmo_flush s o in Some (Rc rc, s)
  | Truncate o n f => Some (Done, vmo_truncated (set_fs s f) o n)
  | OpenTruncate vn n f => Some (Done, vmo_file_truncated (set_fs s f) vn n)
  | Wire o index => '(phys, s) ← vmo_wire_page fuel s o index; Some (Frame phys, s)
  | Unwire o index => Some (Done, vmo_unwire_page s o index)
  | MarkDirty o index => Some (Done, vmo_mark_dirty s o index)
  | Store o index j b =>
      Some (Done, match page_find s o index with Some r => put_frame s (p_phys (page s r)) (wr (frame s (p_phys (page s r))) j b) | None => s end)
  | SetMapper o pml4 base => Some (Done, vmo_set_mapper s o pml4 base)
  | Discard o first count => Some (Done, vmo_discard_range s o first count)
  | Detach o => Some (Done, vmo_detach_mapper s o)
  | WritebackAll => let '(n, s) := vmo_writeback_all s in Some (Count n, s)
  | Reclaim want => '(n, s) ← vmo_reclaim fuel s want; Some (Count n, s)
  | Audit => let '(out, used, dang, dup, s) := vmo_audit_swap s in Some (Audited out used dang dup, s)
  | SecondChance on => Some (Done, vmo_set_second_chance s on)
  | Turn now next => '(next, s) ← vmo_writeback_turn fuel now next s; Some (Count next, s)
  end.

(** ** What callers see of a state *)

(** The bytes of a file: from its object, or from the device. *)
Definition view s (vn : vnode) (pos : Z) : Z :=
  match registry_find s vn with Some o => content s o pos | None => file_byte vn pos (fs s) end.

Definition handle_of (k : face) : handle := mkHandle (if k_anon k then None else Some (k_vn k)) (k_size k) (k_refs k).

(** A page of the file that counts as clean differs from the device there, or
    the page holds something past the end of the file. *)
Definition unsaved s (vn : vnode) (pos : Z) : bool :=
  match registry_find s vn with
  | Some o =>
      match page_find s o (pos / PAGE_SIZE) with
      | Some r =>
          let b := rd (fbytes (ram s) (p_phys (page s r))) (pos mod PAGE_SIZE) in
          (negb (p_dirty (page s r)) && negb (b =? file_byte vn pos (fs s))) || ((o_size (obj s o) <=? pos) && negb (b =? 0))
      | None => false
      end
  | None => false
  end.

Definition world_of s : world := mkWorld (handle_of <$> faces s) (view s) (content s) (unsaved s).

Lemma find_cached s vn o ob : inv s -> objs s !! o = Some ob -> o_anon ob = false -> same_file (o_vn ob) vn = true -> registry_find s vn = Some o.
Proof.
  intros Hi Ho Ha Hs. destruct (registry_find s vn) as [o' |] eqn:E.
  - destruct (registry_find_some s vn o' Hi E) as (ob' & Ho' & Ha' & Hs'). f_equal.
    apply (kd_one _ _ (i_kd _ _ Hi) o' o (face_of ob') (face_of ob)); [by apply faces_of | by apply faces_of | done | done |]. cbn.
    rewrite same_file_sym in Hs. by rewrite <- (same_file_trans (o_vn ob') vn) by done.
  - pose proof (registry_find_none s vn o (face_of ob) Hi E (faces_of s o ob Ho) Ha) as Hf. cbn in Hf. congruence.
Qed.

Lemma view_cached s vn o ob pos : inv s -> objs s !! o = Some ob -> o_anon ob = false -> same_file (o_vn ob) vn = true -> view s vn pos = content s o pos.
Proof. intros Hi Ho Ha Hs. unfold view. by rewrite (find_cached s vn o ob). Qed.

Lemma view_uncached s vn pos : inv s -> uncached s vn -> view s vn pos = file_byte vn pos (fs s).
Proof.
  intros Hi Hu. unfold view. destruct (registry_find s vn) as [o |] eqn:E; [| done]. destruct (registry_find_some s vn o Hi E) as (ob & Ho & Ha & Hs).
  pose proof (Hu o (face_of ob) (faces_of s o ob Ho) Ha) as Hf. cbn in Hf. congruence.
Qed.

Lemma cached_cases s vn : inv s -> uncached s vn \/ exists o ob, objs s !! o = Some ob /\ o_anon ob = false /\ same_file (o_vn ob) vn = true.
Proof.
  intros Hi. destruct (registry_find s vn) as [o |] eqn:E; [right; exists o; by apply registry_find_some | left]. intros o k Hk Ha. by apply (registry_find_none s vn o).
Qed.

(** The objects and their files. *)
Definition named s : gmap Z (option vnode) := (fun k => if k_anon k then None else Some (k_vn k)) <$> faces s.

Lemma named_handles s s' : handle_of <$> faces s' = handle_of <$> faces s -> named s' = named s.
Proof.
  intros E. assert (Hn : forall s, named s = h_file <$> (handle_of <$> faces s)) by (intros s0; unfold named; rewrite <- map_fmap_compose; apply map_fmap_ext; by intros). by rewrite !Hn, E.
Qed.

Lemma named_object s s' o ob : named s' = named s -> objs s !! o = Some ob -> exists ob', objs s' !! o = Some ob' /\ o_anon ob' = o_anon ob /\ (o_anon ob = false -> o_vn ob' = o_vn ob).
Proof.
  intros E Ho. assert (Hl : named s' !! o = Some (if o_anon ob then None else Some (o_vn ob))) by (rewrite E; unfold named; by rewrite lookup_fmap, (faces_of s o ob Ho)).
  unfold named in Hl. rewrite lookup_fmap in Hl. destruct (faces s' !! o) as [k |] eqn:Hk; [| done]. destruct (faces_lookup s' o k Hk) as (ob' & Ho' & ->). cbn in Hl. exists ob'.
  destruct (o_anon ob'), (o_anon ob); try done. by injection Hl as ->.
Qed.

Lemma named_uncached s s' vn : named s' = named s -> uncached s vn -> uncached s' vn.
Proof.
  intros E Hu o k Hk Ha. destruct (faces_lookup s' o k Hk) as (ob & Ho & ->). destruct (named_object s' s o ob) as (ob' & Ho' & Ea & Ev); [done | done |]. cbn in Ha.
  change (same_file (o_vn ob) vn = false). rewrite <- Ev by done. apply (Hu o (face_of ob')); [by apply faces_of | cbn; congruence].
Qed.

Lemma unsaved_same s a b pos : same_file a b = true -> unsaved s a pos = unsaved s b pos.
Proof.
  intros Hs. unfold unsaved. assert (registry_find s b = registry_find s a) as ->.
  { unfold registry_find. f_equal. apply list_filter_iff. intros o. rewrite (same_file_sym _ a), (same_file_sym _ b), (same_file_trans a b) by done. done. }
  destruct (registry_find s a); [| done]. destruct (page_find s _ _); [| done]. by rewrite (byte_same a b).
Qed.

(** An unsaved byte is not a firm one. *)
Lemma unsaved_loose s vn pos : inv s -> 0 <= pos -> unsaved s vn pos = true -> exists o ob, objs s !! o = Some ob /\ o_anon ob = false /\ same_file (o_vn ob) vn = true /\ firm (o_vn ob) pos = false.
Proof.
  intros Hi Hpos Hu. unfold unsaved in Hu. destruct (registry_find s vn) as [o |] eqn:E; [| done]. destruct (registry_find_some s vn o Hi E) as (ob & Ho & Ha & Hs).
  exists o, ob. split_and!; try done. destruct (firm (o_vn ob) pos) eqn:Ef; [exfalso | done]. destruct (page_find s o (pos / PAGE_SIZE)) as [r |] eqn:Er; [| done].
  apply (page_find_some s o _ r (i_ix _ _ Hi) ltac:(eauto)) in Er as (p & Hp & Eo & Ei). rewrite (page_lookup s r p Hp), (obj_lookup s o ob Ho) in Hu. destruct (page_split pos) as [Edm Hm].
  assert (Hk : faces s !! p_owner p = Some (face_of ob)) by (rewrite Eo; by apply faces_of).
  apply orb_true_iff in Hu as [[Hd%negb_true_iff Hb%negb_true_iff%Z.eqb_neq]%andb_true_iff | [Hsz%Z.leb_le Hb%negb_true_iff%Z.eqb_neq]%andb_true_iff]; apply Hb.
  - rewrite (cl_clean _ _ _ _ _ (i_cl _ _ Hi) r p (face_of ob)); [| done | done | done | done | done | done | by rewrite Ei, <- Edm].
    cbn. rewrite Ei, <- Edm. by apply byte_same.
  - apply (cl_tail _ _ _ _ _ (i_cl _ _ Hi) r p (face_of ob)); [done | done | done | exact Hm | cbn; rewrite Ei; lia | by rewrite Ei, <- Edm].
Qed.

End Machine.

Section Calls.
Context {Fr FS SW PT HP : Type} `{FrameLaws Fr} `{FileLaws FS} `{SlotLaws SW} `{TableLaws PT} `{HeapLaws HP} {FM : Firm}.

Local Abbreviation cache := (@cache Fr FS SW PT HP).
Implicit Types (s : cache).

(** All bytes that are not unsaved are firm. *)
Definition covers s : Prop := forall vn pos, unsaved s vn pos = false -> firm vn pos = true.

Lemma steady_saved s vn o ob pos : covers s -> objs s !! o = Some ob -> same_file (o_vn ob) vn = true -> unsaved s vn pos = false -> steady s o pos.
Proof.
  intros Hc Ho Hs Hu k Hk _. rewrite (faces_of s o ob Ho) in Hk. injection Hk as <-. apply Hc. cbn. by rewrite (unsaved_same s _ vn).
Qed.

Lemma steady_memory s o ob pos : objs s !! o = Some ob -> o_anon ob = true -> steady s o pos.
Proof. intros Ho Ha k Hk Hka. rewrite (faces_of s o ob Ho) in Hk. injection Hk as <-. cbn in Hka. congruence. Qed.

(** The bytes of a file after a step that makes and drops no objects. *)
Lemma view_by s s' vn pos v : inv s -> inv s' -> named s' = named s ->
  (forall o ob, objs s !! o = Some ob -> o_anon ob = false -> same_file (o_vn ob) vn = true -> content s' o pos = v) ->
  (uncached s vn -> file_byte vn pos (fs s') = v) -> view s' vn pos = v.
Proof.
  intros Hi Hi' Hn Hc Hu. destruct (cached_cases s vn Hi) as [Hun | (o & ob & Ho & Ha & Hs)].
  - rewrite view_uncached; [by apply Hu | done | by apply (named_uncached s)].
  - destruct (named_object s s' o ob Hn Ho) as (ob' & Ho' & Ea & Ev). rewrite (view_cached s' vn o ob'); [by apply (Hc o ob) | done | done | congruence | by rewrite Ev].
Qed.

Lemma handle_lookup s o h : (handle_of <$> faces s) !! o = Some h -> exists ob, objs s !! o = Some ob /\ h = handle_of (face_of ob).
Proof.
  rewrite lookup_fmap. destruct (faces s !! o) as [k |] eqn:Hk; [| done]. intros [= <-]. destruct (faces_lookup s o k Hk) as (ob & Ho & ->). eauto.
Qed.

Lemma still_by s s' : inv s -> covers s -> inv s' -> named s' = named s -> (forall o pos, is_Some (objs s !! o) -> 0 <= pos -> steady s o pos -> content s' o pos = content s o pos) ->
  (forall vn pos, 0 <= pos -> uncached s vn -> file_byte vn pos (fs s') = file_byte vn pos (fs s)) -> still (world_of s) (world_of s').
Proof.
  intros Hi Hcv Hi' Hn Hc Hd. split.
  - intros vn pos Hpos _ Hsv. cbn in Hsv |- *. apply (view_by s s'); try done.
    + intros o ob Ho Ha Hs. rewrite Hc by (eauto using steady_saved). symmetry. by apply (view_cached s vn o ob).
    + intros Hu. rewrite (Hd vn pos Hpos Hu). symmetry. by apply view_uncached.
  - intros o h pos Hh Hm _ Hpos. destruct (handle_lookup s o h Hh) as (ob & Ho & ->). apply Hc; [eauto | done |]. apply (steady_memory s o ob); [done |]. cbn in Hm. by destruct (o_anon ob).
Qed.

Lemma keeps_unseen s s' : inv s -> covers s -> keeps None s s' -> unseen (world_of s) (world_of s').
Proof.
  intros Hi Hcv [Hi' [F R C D]]. assert (EH : handle_of <$> faces s' = handle_of <$> faces s) by by rewrite F. split; [done |]. apply still_by; try done. by apply named_handles.
Qed.

(** ** The machine *)

(** What a caller has to have seen to: it holds the object, the range is one a
    file can have, the file system did its part. *)
Definition allowed (c : call FS) s (held : gmultiset Z) : Prop :=
  match c with
  | Get vn => sized vn (fs s)
  | CreateAnon n => 0 <= n <= FILE_MAX
  | Ref o | Put o | Unwire o _ | MarkDirty o _ | SetMapper o _ _ | Detach o | Flush o => o ∈ held
  | Wire o index => o ∈ held /\ 0 <= index < PAGE_MAX
  | Read o off len => o ∈ held /\ o_anon (obj s o) = false /\ 0 <= off /\ 0 <= len /\ off + len < 2 ^ 64
  | Write o off src => o ∈ held /\ o_anon (obj s o) = false /\ 0 <= off /\ off + zlen src <= FILE_MAX
  | Append o src => o ∈ held /\ o_anon (obj s o) = false /\ o_size (obj s o) + zlen src <= FILE_MAX
  | Truncate o n f => o ∈ held /\ o_anon (obj s o) = false /\ 0 <= n <= FILE_MAX /\ cut (o_vn (obj s o)) n (fs s) f
  | OpenTruncate vn n f => ready s = true /\ 0 <= n <= FILE_MAX /\ cut vn n (fs s) f
  | Store o index j b =>
      o ∈ held /\ 0 <= j < PAGE_SIZE
      /\ exists r, page_find s o index = Some r /\ p_phys (page s r) <> 0
  | Discard o first count => o ∈ held /\ 0 <= first /\ 0 <= count
  | Reclaim want => 0 <= want
  | _ => True
  end.

Definition held_after (c : call FS) (r : result) (held : gmultiset Z) : gmultiset Z :=
  match c, r with
  | Get _, Handle (Some o) | CreateAnon _, Handle (Some o) | Ref o, _ => held ⊎ {[+ o +]}
  | Put o, _ => held ∖ {[+ o +]}
  | _, _ => held
  end.

(** The reference counts are right. *)
Definition refs_ok (K : gmap Z face) (held : gmultiset Z) : Prop :=
  (forall o k, K !! o = Some k -> k_refs k = Z.of_nat (multiplicity o held) /\ (k_anon k = false -> k_no_writeback k = false))
  /\ forall o, o ∈ held <-> is_Some (K !! o).

Definition good s (held : gmultiset Z) : Prop := inv s /\ refs_ok (faces s) held.

(** What a call comes to. *)
(** A store to a page that counts as clean, or past the end of its file, may
    leave a byte unsaved. *)
Definition leaves (c : call FS) s (vn : vnode) (pos : Z) : bool :=
  match c with
  | Store o index j _ =>
      match page_find s o index with
      | Some r =>
          negb (o_anon (obj s o)) && same_file (o_vn (obj s o)) vn && (pos =? index * PAGE_SIZE + j)
          && (negb (p_dirty (page s r)) || (o_size (obj s o) <=? pos))
      | None => false
      end
  | _ => false
  end.

Definition answers (fuel : nat) (c : call FS) s (held : gmultiset Z) : Prop :=
  exists r s', exec fuel c s = Some (r, s') /\ good s' (held_after c r held) /\ spec c r (world_of s) (world_of s').

Lemma refs_update K held o k k' : refs_ok K held -> K !! o = Some k -> k_refs k' = k_refs k -> k_anon k' = k_anon k -> k_no_writeback k' = k_no_writeback k -> refs_ok (<[o := k']> K) held.
Proof.
  intros [A B] Hk E1 E2 E3. split.
  - intros o' k0 Hk0. apply lookup_insert_Some in Hk0 as [[<- <-] | [_ Hk0]]; [| by apply A]. rewrite E1, E2, E3. by apply A.
  - intros o'. rewrite B. destruct (decide (o' = o)) as [-> | Hne]; [rewrite lookup_insert_eq, Hk; split; eauto | by rewrite lookup_insert_ne].
Qed.

Lemma refs_inc K held o k k' : refs_ok K held -> K !! o = Some k -> k_refs k' = k_refs k + 1 -> k_anon k' = k_anon k -> k_no_writeback k' = k_no_writeback k -> refs_ok (<[o := k']> K) (held ⊎ {[+ o +]}).
Proof.
  intros [A B] Hk E1 E2 E3. split.
  - intros o' k0 Hk0. rewrite multiplicity_disj_union. apply lookup_insert_Some in Hk0 as [[<- <-] | [Hne Hk0]].
    + rewrite E1, E2, E3, multiplicity_singleton_eq. destruct (A o k Hk). split; [lia | done].
    + rewrite multiplicity_singleton_ne by done. destruct (A o' k0 Hk0). split; [lia | done].
  - intros o'. rewrite gmultiset_elem_of_disj_union, B, gmultiset_elem_of_singleton, lookup_insert_is_Some. destruct (decide (o = o')) as [<- | Hne]; [rewrite Hk; split; eauto | split; [intros [? | ->]; [by right | done] | intros [? | [_ ?]]; [done | by left]]].
Qed.

Lemma refs_new K held o k' : refs_ok K held -> K !! o = None -> k_refs k' = 1 -> (k_anon k' = false -> k_no_writeback k' = false) -> refs_ok (<[o := k']> K) (held ⊎ {[+ o +]}).
Proof.
  intros [A B] Hk E1 E2. assert (H0o : multiplicity o held = 0%nat).
  { destruct (decide (o ∈ held)) as [Hin | Hin]; [apply B in Hin; rewrite Hk in Hin; by destruct Hin | by apply not_elem_of_multiplicity]. }
  split.
  - intros o' k0 Hk0. rewrite multiplicity_disj_union. apply lookup_insert_Some in Hk0 as [[<- <-] | [Hne Hk0]].
    + rewrite E1, H0o, multiplicity_singleton_eq. done.
    + rewrite multiplicity_singleton_ne by done. destruct (A o' k0 Hk0). split; [lia | done].
  - intros o'. rewrite gmultiset_elem_of_disj_union, B, gmultiset_elem_of_singleton, lookup_insert_is_Some. destruct (decide (o = o')) as [<- | Hne]; [tauto | split; [intros [? | ->]; [by right | done] | intros [? | [_ ?]]; [done | by left]]].
Qed.

Lemma refs_dec K held o k k' : refs_ok K held -> K !! o = Some k -> 1 < k_refs k -> k_refs k' = k_refs k - 1 -> k_anon k' = k_anon k -> k_no_writeback k' = k_no_writeback k -> refs_ok (<[o := k']> K) (held ∖ {[+ o +]}).
Proof.
  intros [A B] Hk Hr E1 E2 E3. destruct (A o k Hk) as [Em _]. split.
  - intros o' k0 Hk0. rewrite multiplicity_difference. apply lookup_insert_Some in Hk0 as [[<- <-] | [Hne Hk0]].
    + rewrite E1, E2, E3, multiplicity_singleton_eq. destruct (A o k Hk). split; [lia | done].
    + rewrite multiplicity_singleton_ne by done. destruct (A o' k0 Hk0). split; [lia | done].
  - intros o'. rewrite elem_of_multiplicity, multiplicity_difference. destruct (decide (o' = o)) as [-> | Hne].
    + rewrite lookup_insert_eq, multiplicity_singleton_eq. split; [eauto | lia].
    + rewrite lookup_insert_ne, multiplicity_singleton_ne, <- B, elem_of_multiplicity by done. by rewrite Nat.sub_0_r.
Qed.

Lemma refs_drop K held o k : refs_ok K held -> K !! o = Some k -> k_refs k <= 1 -> refs_ok (delete o K) (held ∖ {[+ o +]}).
Proof.
  intros [A B] Hk Hr. destruct (A o k Hk) as [Em _]. split.
  - intros o' k0 [Hne Hk0]%lookup_delete_Some. rewrite multiplicity_difference, multiplicity_singleton_ne by done. destruct (A o' k0 Hk0). split; [lia | done].
  - intros o'. rewrite elem_of_multiplicity, multiplicity_difference. destruct (decide (o' = o)) as [-> | Hne].
    + rewrite lookup_delete_eq, multiplicity_singleton_eq. split; [lia | by intros []].
    + rewrite lookup_delete_ne, multiplicity_singleton_ne, <- B, elem_of_multiplicity by done. by rewrite Nat.sub_0_r.
Qed.

Lemma good_object s held o : good s held -> o ∈ held -> exists ob, objs s !! o = Some ob.
Proof. intros [_ [_ B]] [k Hk]%B. destruct (faces_lookup s o k Hk) as (ob & ? & _). eauto. Qed.

(** ** The calls that do not show *)

Lemma answers_kept fuel c r s s' held : good s held -> covers s -> exec fuel c s = Some (r, s') -> keeps None s s' -> held_after c r held = held ->
  (unseen (world_of s) (world_of s') -> spec c r (world_of s) (world_of s')) -> answers fuel c s held.
Proof.
  intros [Hi Hr] Hcv He K Eh Hs. exists r, s'. split; [done |]. split; [| by apply Hs, keeps_unseen]. rewrite Eh. split; [apply K |]. by rewrite (sm_faces _ _ (proj2 K)).
Qed.

Lemma flush_answers fuel o s held : good s held -> covers s -> o ∈ held -> answers fuel (Flush o) s held.
Proof.
  intros Hg Hcv Ho. destruct (good_object s held o Hg Ho) as [ob Hob]. destruct (vmo_flush s o) as [rc s'] eqn:E. destruct (flush_object_ok s o ob rc s' (proj1 Hg) Hob E) as ([K _] & _).
  by apply (answers_kept fuel _ (Rc rc) s s'); [| | cbn; rewrite E | | |].
Qed.

Lemma wire_answers fuel o index s held : good s held -> covers s -> o ∈ held -> 0 <= index < PAGE_MAX -> enough fuel s -> answers fuel (Wire o index) s held.
Proof.
  intros Hg Hcv Ho Hx He. destruct (good_object s held o Hg Ho) as [ob Hob]. pose proof (vmo_wire_ok fuel s o ob index (proj1 Hg) Hob Hx) as Hw.
  destruct (vmo_wire_page fuel s o index) as [[phys s'] |] eqn:E; [| done]. by apply (answers_kept fuel _ (Frame phys) s s'); [| | cbn; rewrite E | apply Hw | |].
Qed.

Lemma unwire_answers fuel o index s held : good s held -> covers s -> o ∈ held -> answers fuel (Unwire o index) s held.
Proof.
  intros Hg Hcv Ho. destruct (good_object s held o Hg Ho) as [ob Hob]. apply (answers_kept fuel _ Done s (vmo_unwire_page s o index)); try done. apply keeps_unwire; [apply Hg | eauto].
Qed.

Lemma mark_dirty_answers fuel o index s held : good s held -> covers s -> o ∈ held -> answers fuel (MarkDirty o index) s held.
Proof.
  intros Hg Hcv Ho. destruct (good_object s held o Hg Ho) as [ob Hob]. apply (answers_kept fuel _ Done s (vmo_mark_dirty s o index)); try done. apply keeps_mark_dirty; [apply Hg | eauto].
Qed.

Lemma writeback_answers fuel s held : good s held -> covers s -> answers fuel WritebackAll s held.
Proof.
  intros Hg Hcv. destruct (vmo_writeback_all s) as [n s'] eqn:E. pose proof (writeback_all_ok s (proj1 Hg)) as [K _]. rewrite E in K.
  by apply (answers_kept fuel _ (Count n) s s'); [| | cbn; rewrite E | | |].
Qed.

Lemma reclaim_answers fuel want s held : good s held -> covers s -> 0 <= want -> enough fuel s -> answers fuel (Reclaim want) s held.
Proof.
  intros Hg Hcv Hw He. pose proof (vmo_reclaim_ok fuel want s (proj1 Hg) Hw) as Hr. destruct (vmo_reclaim fuel s want) as [[n s'] |] eqn:E; [| done].
  by apply (answers_kept fuel _ (Count n) s s'); [| | cbn; rewrite E | apply Hr | |].
Qed.

Lemma turn_answers fuel now next s held : good s held -> covers s -> enough fuel s -> answers fuel (Turn now next) s held.
Proof.
  intros Hg Hcv He. pose proof (turn_ok fuel now next s (proj1 Hg)) as Hr. destruct (vmo_writeback_turn fuel now next s) as [[n s'] |] eqn:E; [| done].
  by apply (answers_kept fuel _ (Count n) s s'); [| | cbn; rewrite E | apply Hr | |].
Qed.

Lemma audit_answers fuel s held : good s held -> covers s -> answers fuel Audit s held.
Proof.
  intros Hg Hcv. destruct (audit_ok s (proj1 Hg)) as (used & s' & E & [K _]). by apply (answers_kept fuel _ (Audited (if ready s then cnt (fun p => p_phys p =? 0) (recs s) else 0) used 0 0) s s'); [| | cbn; rewrite E | | |].
Qed.

Lemma chance_answers fuel on s held : good s held -> covers s -> answers fuel (SecondChance on) s held.
Proof.
  intros Hg Hcv. apply (answers_kept fuel _ Done s (vmo_set_second_chance s on)); try done. destruct (proj1 Hg). split; [by constructor | by apply same_eq].
Qed.

(** A change of an object's face that keeps its file and its size. *)
Lemma alike_still s o ob ob' : inv s -> covers s -> objs s !! o = Some ob -> alike ob ob' -> inv (put_obj s o ob') /\ faces (put_obj s o ob') = <[o := face_of ob']> (faces s) /\ still (world_of s) (world_of (put_obj s o ob')).
Proof.
  intros Hi Hcv Ho Hal. destruct (alike_ok None s o ob ob' Hi Ho Hal) as (Hi' & HF & HC). split_and!; [done | done |]. apply still_by; try done.
  unfold named. rewrite HF, fmap_insert. apply insert_id. rewrite lookup_fmap, (faces_of s o ob Ho). cbn. destruct Hal as (-> & _ & -> & _). done.
Qed.

Lemma mapper_answers fuel o pml4 base s held : good s held -> covers s -> o ∈ held -> answers fuel (SetMapper o pml4 base) s held.
Proof.
  intros Hg Hcv Ho. destruct (good_object s held o Hg Ho) as [ob Hob]. destruct Hg as [Hi Hr]. exists Done, (vmo_set_mapper s o pml4 base). split; [done |].
  unfold vmo_set_mapper. rewrite (obj_lookup s o ob Hob). destruct (o_anon ob) eqn:Ea; [| by split; [split | apply (keeps_unseen s s Hi Hcv), kept_refl]].
  rewrite (upd_put s o ob _ Hob). destruct (alike_still s o ob (with_mapper ob pml4 base) Hi Hcv Hob (alike_mapper _ _ _)) as (Hi' & HF & Hst).
  split; [split; [done |] |]; [rewrite HF; by apply (refs_update _ _ o (face_of ob)); [| apply faces_of | | |] |]. split; [| done].
  change (handle_of <$> faces (put_obj s o (with_mapper ob pml4 base)) = handle_of <$> faces s). rewrite HF, fmap_insert. apply insert_id. by rewrite lookup_fmap, (faces_of s o ob Hob).
Qed.

Lemma detach_answers fuel o s held : good s held -> covers s -> o ∈ held -> answers fuel (Detach o) s held.
Proof.
  intros Hg Hcv Ho. destruct (good_object s held o Hg Ho) as [ob Hob]. destruct Hg as [Hi Hr]. exists Done, (vmo_detach_mapper s o). split; [done |].
  destruct (o_anon ob) eqn:Ea; [| unfold vmo_detach_mapper; rewrite (obj_lookup s o ob Hob), Ea; by split; [split | apply (keeps_unseen s s Hi Hcv), kept_refl]].
  destruct (vmo_detach_ok s o ob Hi Hob Ea) as (Hi' & HF & _ & HC & _). set (s' := vmo_detach_mapper s o) in *.
  assert (EH : handle_of <$> faces s' = handle_of <$> faces s) by (rewrite HF, fmap_insert; apply insert_id; by rewrite lookup_fmap, (faces_of s o ob Hob)).
  split; [split; [done |] |]; [rewrite HF; by apply (refs_update _ _ o (face_of ob)); [| apply faces_of | | |] |]. split; [done |].
  apply still_by; try done; [by apply named_handles | intros o' pos Ho' _ _; by apply HC |]. intros vn pos _ _. unfold s', vmo_detach_mapper. rewrite (obj_lookup s o ob Hob), Ea. cbn [negb].
  destruct (pages_of s o ob Hi Hob) as [_ Hin]. destruct (unmap_fold o (all_pages ob) s Hi) as (T & _); [by intros r ?%Hin |]. f_equal. apply T.
Qed.

(** ** The calls that make and drop objects *)

Lemma view_face s vn o k pos : inv s -> faces s !! o = Some k -> k_anon k = false -> same_file (k_vn k) vn = true -> view s vn pos = content s o pos.
Proof. intros Hi Hk Ha Hs. destruct (faces_lookup s o k Hk) as (ob & Ho & ->). by apply (view_cached s vn o ob). Qed.

Lemma view_added s s' o k vn pos : inv s -> inv s' -> faces s !! o = None -> faces s' = <[o := k]> (faces s) -> fs s' = fs s -> 0 <= pos ->
  (forall o' pos, is_Some (objs s !! o') -> content s' o' pos = content s o' pos) -> (k_anon k = false -> content s' o pos = file_byte (k_vn k) pos (fs s)) -> view s' vn pos = view s vn pos.
Proof.
  intros Hi Hi' Hno HF Hfs Hpos HC Hk. destruct (cached_cases s vn Hi) as [Hu | (o1 & ob1 & Ho1 & Ha1 & Hs1)].
  - rewrite (view_uncached s) by done. destruct (negb (k_anon k) && same_file (k_vn k) vn) eqn:E.
    + apply andb_true_iff in E as [Ea Es]. apply negb_true_iff in Ea. rewrite (view_face s' vn o k), Hk by (done || (rewrite HF; apply lookup_insert_eq)). by apply byte_same.
    + rewrite (view_uncached s'), Hfs; [done | done |]. intros o' k' Hk' Ha'. rewrite HF in Hk'. apply lookup_insert_Some in Hk' as [[<- <-] | [_ Hk']]; [| by apply (Hu o')]. by rewrite Ha' in E.
  - rewrite (view_cached s vn o1 ob1) by done. pose proof (faces_of s o1 ob1 Ho1) as Hk1. assert (Hne : o <> o1) by congruence.
    rewrite (view_face s' vn o1 (face_of ob1)); [by apply HC; eauto | done | by rewrite HF, lookup_insert_ne | done | done].
Qed.

Lemma view_delete s s' o k vn pos : inv s -> covers s -> inv s' -> faces s !! o = Some k -> faces s' = delete o (faces s) -> 0 <= pos ->
  (forall o' pos, o' <> o -> is_Some (objs s !! o') -> 0 <= pos -> steady s o' pos -> content s' o' pos = content s o' pos) ->
  (forall vn pos, 0 <= pos -> uncached s vn -> file_byte vn pos (fs s') = file_byte vn pos (fs s)) -> unsaved s vn pos = false ->
  view s' vn pos = if negb (k_anon k) && same_file (k_vn k) vn then file_byte vn pos (fs s') else view s vn pos.
Proof.
  intros Hi Hcv Hi' Hk HF Hpos HC HD Hsv. assert (Hun : forall o1 k1, faces s' !! o1 = Some k1 -> o1 <> o /\ faces s !! o1 = Some k1) by (intros o1 k1; rewrite HF; intros [? ?]%lookup_delete_Some; by split; [apply not_eq_sym |]).
  destruct (cached_cases s vn Hi) as [Hu | (o1 & ob1 & Ho1 & Ha1 & Hs1)].
  - rewrite (view_uncached s vn), (view_uncached s' vn); [| done | by intros o1 k1 [_ ?]%Hun; apply (Hu o1) | done | done]. rewrite (HD vn pos Hpos Hu). by destruct (_ && _).
  - pose proof (faces_of s o1 ob1 Ho1) as Hk1. destruct (decide (o1 = o)) as [-> | Hne].
    + assert (k = face_of ob1) as -> by congruence. cbn [k_anon k_vn face_of]. rewrite Ha1, Hs1. cbn [negb andb]. apply view_uncached; [done |]. intros o2 k2 [Hne2 Hk2]%Hun Ha2.
      destruct (same_file (k_vn k2) vn) eqn:E; [| done]. destruct Hne2. apply (kd_one _ _ (i_kd _ _ Hi) o2 o k2 (face_of ob1)); try done. cbn.
      rewrite same_file_sym in Hs1. by rewrite <- (same_file_trans (k_vn k2) vn) by done.
    + rewrite (view_face s' vn o1 (face_of ob1)), (view_cached s vn o1 ob1); try done; [| by rewrite HF, lookup_delete_ne]. rewrite HC by (eauto using steady_saved).
      destruct (negb (k_anon k) && same_file (k_vn k) vn) eqn:E; [| done]. apply andb_true_iff in E as [Ea Es]. apply negb_true_iff in Ea. destruct Hne.
      apply (kd_one _ _ (i_kd _ _ Hi) o1 o (face_of ob1) k); try done. cbn. rewrite same_file_sym in Es. by rewrite <- (same_file_trans (o_vn ob1) vn) by done.
Qed.

Lemma insert_still s s' o k : inv s -> inv s' -> objs s !! o = None -> faces s' = <[o := k]> (faces s) -> fs s' = fs s ->
  (forall o' pos, is_Some (objs s !! o') -> content s' o' pos = content s o' pos) -> (k_anon k = false -> forall pos, content s' o pos = file_byte (k_vn k) pos (fs s)) -> still (world_of s) (world_of s').
Proof.
  intros Hi Hi' Hno HF Hfs HC Hk. split.
  - intros vn pos Hpos _ _. apply (view_added s s' o k); try done; [unfold faces; by rewrite lookup_fmap, Hno | auto].
  - intros o' h pos Hh _ _ _. destruct (handle_lookup s o' h Hh) as (ob & Ho & _). apply HC. eauto.
Qed.

Lemma get_fs s vn : fs (snd (vmo_get s vn)) = fs s.
Proof. unfold vmo_get. destruct (negb _); [done |]. destruct (registry_find s vn); [done |]. destruct (kmalloc _ _) as [o h]. by destruct (o =? 0). Qed.

Lemma handle_insert s s' o k : faces s' = <[o := k]> (faces s) -> w_handles (world_of s') = <[o := handle_of k]> (w_handles (world_of s)).
Proof. intros HF. unfold world_of, w_handles. by rewrite HF, fmap_insert. Qed.

Lemma handle_found s o ob : objs s !! o = Some ob -> w_handles (world_of s) !! o = Some (handle_of (face_of ob)).
Proof. intros Ho. unfold world_of, w_handles. by rewrite lookup_fmap, (faces_of s o ob Ho). Qed.

Lemma handle_none s o : objs s !! o = None -> w_handles (world_of s) !! o = None.
Proof. intros Ho. unfold world_of, w_handles, faces. by rewrite !lookup_fmap, Ho. Qed.

Lemma get_answers fuel vn s held : good s held -> covers s -> sized vn (fs s) -> answers fuel (Get vn) s held.
Proof.
  intros [Hi Hr] Hcv Hsz. destruct (vmo_get s vn) as [res s'] eqn:E. pose proof (get_fs s vn) as Hfs. rewrite E in Hfs. cbn in Hfs. exists (Handle res), s'. split; [cbn; by rewrite E |].
  destruct (vmo_get_ok s vn res s' Hi Hsz E) as (Hi' & HC & Hres). destruct res as [o |].
  2: { split; [split; [done | by rewrite Hres] |]. split; [unfold world_of, w_handles; by rewrite Hres |]. apply still_by; try done; [apply named_handles; by rewrite Hres | intros; by apply HC | by intros; rewrite Hfs]. }
  destruct Hres as [(ob & Ho & Ha & Hs & HF) | (Ho & HF & Hc)].
  - split; [split; [done |]; cbn; rewrite HF; by apply (refs_inc _ _ o (face_of ob)); [| apply faces_of | | |] |]. split.
    + apply still_by; try done; [| intros; by apply HC | by intros; rewrite Hfs]. unfold named. rewrite HF, fmap_insert. apply insert_id. by rewrite lookup_fmap, (faces_of s o ob Ho).
    + left. exists (handle_of (face_of ob)), (o_vn ob). split_and!; [by apply handle_found | cbn; by rewrite Ha | done |]. by rewrite (handle_insert s s' _ _ HF).
  - destruct (sized_size vn (fs s) Hsz) as [_ Hz]. assert (Hno : faces s !! o = None) by (unfold faces; by rewrite lookup_fmap, Ho).
    split; [split; [done |]; cbn; rewrite HF; by apply refs_new |]. split; [by apply (insert_still s s' o _ Hi Hi' Ho HF Hfs HC) |]. right. split; [by apply handle_none |].
    exists (first_size vn (fs s)). split; [by rewrite (handle_insert s s' _ _ HF) |]. intros pos Hpos. cbn. destruct (cached_cases s vn Hi) as [Hu | (o1 & ob1 & Ho1 & Ha1 & Hs1)].
    + rewrite view_uncached by done. by apply Hz.
    + exfalso. pose proof (faces_of s o1 ob1 Ho1) as Hk1. assert (Hne : o <> o1) by congruence.
      apply Hne. apply (kd_one _ _ (i_kd _ _ Hi') o o1 (mkFace vn (first_size vn (fs s)) false false 1 0 0) (face_of ob1)); [rewrite HF; apply lookup_insert_eq | by rewrite HF, lookup_insert_ne | done | done |].
      cbn. by rewrite same_file_sym.
Qed.

Lemma create_answers fuel n s held : good s held -> covers s -> 0 <= n <= FILE_MAX -> answers fuel (CreateAnon n) s held.
Proof.
  intros [Hi Hr] Hcv Hn. destruct (vmo_create_anon s n) as [res s'] eqn:E. exists (Handle res), s'. split; [cbn; by rewrite E |].
  assert (Hfs : fs s' = fs s).
  { unfold vmo_create_anon in E. destruct (_ || _); [by injection E as _ <- |]. destruct (kmalloc _ _) as [o h]. destruct (o =? 0); by injection E as _ <-. }
  destruct (vmo_create_anon_ok s n res s' Hi Hn E) as (Hi' & HC & Hres). destruct res as [o |].
  - destruct Hres as (Ho & HF & Hc). assert (Hno : faces s !! o = None) by (unfold faces; by rewrite lookup_fmap, Ho).
    split; [split; [done |]; cbn; rewrite HF; by apply refs_new |]. split_and!; [by apply (insert_still s s' o _ Hi Hi' Ho HF Hfs HC) | by apply handle_none | by rewrite (handle_insert s s' _ _ HF) | done].
  - split; [split; [done | by rewrite Hres] |]. split; [unfold world_of, w_handles; by rewrite Hres |]. apply still_by; try done; [apply named_handles; by rewrite Hres | intros; by apply HC | by intros; rewrite Hfs].
Qed.

Lemma ref_answers fuel o s held : good s held -> covers s -> o ∈ held -> answers fuel (Ref o) s held.
Proof.
  intros Hg Hcv Ho. destruct (good_object s held o Hg Ho) as [ob Hob]. destruct Hg as [Hi Hr]. exists Done, (vmo_ref s o). split; [done |]. unfold vmo_ref. rewrite (upd_put s o ob _ Hob).
  destruct (alike_still s o ob (with_refs ob (o_refs ob + 1)) Hi Hcv Hob (alike_refs _ _)) as (Hi' & HF & Hst).
  split; [split; [done |]; cbn [held_after]; rewrite HF; by apply (refs_inc _ _ o (face_of ob)); [| apply faces_of | | |] |].
  exists (handle_of (face_of ob)). split_and!; [by apply handle_found | by rewrite (handle_insert _ _ _ _ HF) | done].
Qed.

Lemma put_answers fuel o s held : good s held -> covers s -> o ∈ held -> answers fuel (Put o) s held.
Proof.
  intros Hg Hcv Ho. destruct (good_object s held o Hg Ho) as [ob Hob]. destruct Hg as [Hi Hr]. pose proof (faces_of s o ob Hob) as Hk. cbn [exec]. unfold answers. cbn [exec].
  set (rc := fst _). exists (Rc rc), (vmo_put s o). split; [done |]. destruct (decide (1 < o_refs ob)) as [H1r | H1r].
  - destruct (vmo_put_shared s o ob Hi Hob H1r) as (Hi' & HF & HC).
    split; [split; [done |]; cbn [held_after]; rewrite HF; by apply (refs_dec _ _ o (face_of ob)) |]. exists (handle_of (face_of ob)). split; [by apply handle_found |].
    cbn [h_refs handle_of k_refs face_of]. rewrite (proj2 (Z.ltb_lt _ _)) by done. split; [by rewrite (handle_insert _ _ _ _ HF) |]. unfold vmo_put in *. rewrite (upd_put s o ob _ Hob), obj_put in *.
    cbn [o_refs with_refs] in *. rewrite (proj2 (Z.ltb_lt 0 _)) in * by lia.
    by destruct (alike_still s o ob (with_refs ob (o_refs ob - 1)) Hi Hcv Hob (alike_refs _ _)) as (_ & _ & ?).
  - destruct (vmo_put_last s o ob Hi Hob ltac:(lia)) as (Hi' & HF & HC & HD & HU). fold rc in HD. set (s' := vmo_put s o) in *.
    split; [split; [done |]; cbn [held_after]; rewrite HF; apply (refs_drop _ _ o (face_of ob)); [done | done | cbn; lia] |]. exists (handle_of (face_of ob)). split; [by apply handle_found |].
    cbn [h_refs handle_of k_refs face_of]. rewrite (proj2 (Z.ltb_ge _ _)) by lia. split; [unfold world_of, w_handles; by rewrite HF, fmap_delete |]. split.
    + intros vn pos Hpos Hvn Hsv. cbn [w_unsaved world_of] in Hsv. cbn [w_file world_of]. rewrite (view_delete s s' o (face_of ob)) by done. cbn [k_anon k_vn face_of h_file handle_of] in *. destruct (o_anon ob) eqn:Ea; [done |]. cbn [negb andb].
      destruct (same_file (o_vn ob) vn) eqn:Es; [| done]. rewrite andb_true_r in Hvn. apply negb_false_iff in Hvn. b2p. rewrite (view_cached s vn o ob), <- (byte_same (o_vn ob) vn) by done. apply HD; [done | | done | done |].
      * by apply (proj1 Hr o (face_of ob) Hk).
      * apply Hcv. by rewrite (unsaved_same s _ vn).
    + intros o' h pos Hh Hm Hne Hpos. b2p. destruct (handle_lookup s o' h Hh) as (ob' & Ho' & ->). apply HC; [done | eauto | done |]. apply (steady_memory s o' ob'); [done |]. cbn in Hm. by destruct (o_anon ob').
Qed.

(** ** The calls that read and change bytes *)

Lemma read_answers fuel o off len s held : good s held -> covers s -> allowed (Read o off len) s held -> enough fuel s -> answers fuel (Read o off len) s held.
Proof.
  intros Hg Hcv (Ho & Ha & Hoff & Hlen & H64) He. destruct (good_object s held o Hg Ho) as [ob Hob]. rewrite (obj_lookup s o ob Hob) in Ha.
  destruct (vmo_read_ok fuel s o ob off len (proj1 Hg) Hob Ha He Hoff Hlen H64) as (rc & l & s' & E & Hi' & S' & Hl & Hle & Hrc).
  apply (answers_kept fuel _ (Bytes rc l) s s'); [done | done | cbn; by rewrite E | done | done |]. intros Hu. split; [done |]. exists (handle_of (face_of ob)), (o_vn ob).
  split_and!; [by apply handle_found | cbn; by rewrite Ha | done | |].
  - intros i Hin Hsv. cbn in Hsv |- *. rewrite (view_cached s (o_vn ob) o ob) by (done || apply Hg || apply same_file_refl). apply Hl; [done |].
    apply (steady_saved s (o_vn ob) o ob); [done | done | apply same_file_refl | done].
  - destruct Hrc as [[-> _] | [-> _]]; [by left |]. destruct (zlen l =? 0) eqn:Ez; [right | by left]. b2p. split; [done |]. destruct l; [done | unfold zlen in Ez; cbn in Ez; lia].
Qed.

Lemma one_object s vn o o' ob ob' : inv s -> objs s !! o = Some ob -> objs s !! o' = Some ob' -> o_anon ob = false -> o_anon ob' = false ->
  same_file (o_vn ob) vn = true -> same_file (o_vn ob') vn = true -> o = o'.
Proof.
  intros Hi Ho Ho' Ha Ha' Hs Hs'. apply (kd_one _ _ (i_kd _ _ Hi) o o' (face_of ob) (face_of ob')); [by apply faces_of | by apply faces_of | done | done |]. cbn.
  rewrite same_file_sym in Hs'. by rewrite <- (same_file_trans (o_vn ob) vn) by done.
Qed.

(** The bytes of one object change in one place. *)
Definition changed s s' (o : Z) (c : Z -> Z) : Prop :=
  inv s' /\ named s' = named s /\ (forall o' pos, is_Some (objs s !! o') -> 0 <= pos -> content s' o' pos = if o' =? o then c pos else content s o' pos)
  /\ forall vn pos, 0 <= pos -> uncached s vn -> file_byte vn pos (fs s') = file_byte vn pos (fs s).

Lemma changed_file s s' o ob c : inv s -> objs s !! o = Some ob -> o_anon ob = false -> changed s s' o c ->
  files_are (fun vn pos => if same_file (o_vn ob) vn then c pos else view s vn pos) (world_of s) (world_of s').
Proof.
  intros Hi Ho Ha (Hi' & Hn & HC & HD). split.
  - intros vn pos Hpos. cbn. apply (view_by s s'); try done.
    + intros o' ob' Ho' Ha' Hs'. rewrite HC by eauto. destruct (o' =? o) eqn:E; b2p.
      * subst o'. assert (ob' = ob) as -> by congruence. by rewrite Hs'.
      * destruct (same_file (o_vn ob) vn) eqn:Es; [| symmetry; by apply (view_cached s vn o' ob')]. destruct E. by apply (one_object s vn o' o ob' ob).
    + intros Hu. rewrite (HD vn pos Hpos Hu). pose proof (Hu o (face_of ob) (faces_of s o ob Ho) Ha) as Hf. cbn in Hf. rewrite Hf. symmetry. by apply view_uncached.
  - intros o' h pos Hh Hm Hpos. destruct (handle_lookup s o' h Hh) as (ob' & Ho' & ->). cbn. rewrite HC by eauto. destruct (o' =? o) eqn:E; b2p; [| done]. subst o'. assert (ob' = ob) as -> by congruence. cbn in Hm. by rewrite Ha in Hm.
Qed.

Lemma changed_memory s s' o c : inv s -> (exists ob, objs s !! o = Some ob /\ o_anon ob = true) -> changed s s' o c ->
  idle_but (fun _ => false) (Z.eqb o) (world_of s) (world_of s') /\ forall pos, 0 <= pos -> w_mem (world_of s') o pos = c pos.
Proof.
  intros Hi (ob & Ho & Ha) (Hi' & Hn & HC & HD). split; [split |].
  - intros vn pos Hpos _ _. cbn. apply (view_by s s'); try done.
    + intros o' ob' Ho' Ha' Hs'. rewrite HC by eauto. destruct (o' =? o) eqn:E; b2p; [subst o'; congruence |]. symmetry. by apply (view_cached s vn o' ob').
    + intros Hu. rewrite (HD vn pos Hpos Hu). symmetry. by apply view_uncached.
  - intros o' h pos Hh _ Hne Hpos. destruct (handle_lookup s o' h Hh) as (ob' & Ho' & _). cbn. rewrite HC by eauto. rewrite Z.eqb_sym in Hne. by rewrite Hne.
  - intros pos Hpos. cbn. rewrite HC by eauto. by rewrite Z.eqb_refl.
Qed.

Lemma resized_named s s' o ob n : objs s !! o = Some ob -> faces s' = <[o := face_of (with_size ob n)]> (faces s) -> named s' = named s.
Proof. intros Ho HF. unfold named. rewrite HF, fmap_insert. apply insert_id. by rewrite lookup_fmap, (faces_of s o ob Ho). Qed.

Lemma resized_refs s s' o ob n held : objs s !! o = Some ob -> faces s' = <[o := face_of (with_size ob n)]> (faces s) -> refs_ok (faces s) held -> refs_ok (faces s') held.
Proof. intros Ho HF Hr. rewrite HF. by apply (refs_update _ _ o (face_of ob)); [| apply faces_of | | |]. Qed.

Lemma wrote_inv s s' o ob off l : wrote s s' o ob off l -> inv s'.
Proof. intros W. apply (inv_mono (firmer FM (o_vn ob) off (zlen l))); [intros vn pos E; unfold firm, firmer; by rewrite E | apply W]. Qed.

(** What a write shows. *)
Lemma wrote_file s s' o ob off l : inv s -> covers s -> objs s !! o = Some ob -> o_anon ob = false -> wrote s s' o ob off l -> file_written (o_vn ob) off l (world_of s) (world_of s').
Proof.
  intros Hi Hcv Ho Ha W. pose proof (resized_named s s' o ob _ Ho (wr_faces _ _ _ _ _ _ W)) as Hn.
  pose proof (wrote_inv s s' o ob off l W) as Hi'. split; [split |].
  - intros vn pos Hpos Hvn Hsv. cbn in Hsv |- *. apply (view_by s s'); try done.
    + intros o' ob' Ho' Ha' Hs'. rewrite (wr_content _ _ _ _ _ _ W) by (eauto || (left; by apply (steady_saved s vn o' ob'))).
      destruct (o' =? o) eqn:E; b2p; [subst o'; congruence |]. symmetry. by apply (view_cached s vn o' ob').
    + intros Hu. rewrite (wr_device _ _ _ _ _ _ W vn pos Hpos Hu). symmetry. by apply view_uncached.
  - intros o' h pos Hh Hm _ Hpos. destruct (handle_lookup s o' h Hh) as (ob' & Ho' & ->). cbn in Hm |- *. assert (Ha' : o_anon ob' = true) by by destruct (o_anon ob').
    rewrite (wr_content _ _ _ _ _ _ W) by (eauto || (left; by apply (steady_memory s o' ob'))). destruct (o' =? o) eqn:E; b2p; [subst o'; congruence | done].
  - intros vn pos Hs Hpos. split.
    + intros Hset. cbn in Hset |- *. apply (view_by s s'); try done; [| intros Hu; pose proof (Hu o (face_of ob) (faces_of s o ob Ho) Ha) as Hf; cbn in Hf; congruence].
      intros o' ob' Ho' Ha' Hs'. assert (o' = o) as -> by by apply (one_object s vn o' o ob' ob). rewrite (wr_content _ _ _ _ _ _ W); [| eauto | done |].
      * rewrite Z.eqb_refl. apply overlay_ext. symmetry. by apply (view_cached s vn o ob).
      * destruct Hset as [Hsv | Hr]; [left; by apply (steady_saved s vn o ob) | by right].
    + intros Hr. cbn. destruct (unsaved s' vn pos) eqn:Hu; [exfalso | done].
      destruct (unsaved_loose (FM := firmer FM (o_vn ob) off (zlen l)) s' vn pos (wr_inv _ _ _ _ _ _ W) Hpos Hu) as (o' & ob' & _ & _ & Hs' & Hf).
      unfold firm, firmer in Hf. apply orb_false_iff in Hf as [_ Hf]. rewrite same_file_sym in Hs'. rewrite (same_file_trans _ _ _ Hs) in Hs'.
      rewrite Hs', (proj2 (Z.leb_le _ _)), (proj2 (Z.ltb_lt _ _)) in Hf by lia. done.
Qed.

(** [vmo_write] and [vmo_append] after the offset is known. *)
Lemma write_answers fuel o off src s held : good s held -> covers s -> o ∈ held -> o_anon (obj s o) = false -> enough fuel s -> 0 <= off -> off + zlen src <= FILE_MAX ->
  exists rc n s', write_locked fuel s o off src = Some (rc, n, s') /\ good s' held
    /\ exists h vn, w_handles (world_of s) !! o = Some h /\ h_file h = Some vn /\ h_size h = o_size (obj s o) /\ 0 <= n <= zlen src
        /\ w_handles (world_of s') = <[o := with_size_of h (size_after (h_size h) off (take (Z.to_nat n) src))]> (w_handles (world_of s))
        /\ file_written vn off (take (Z.to_nat n) src) (world_of s) (world_of s') /\ (rc <> Errno.EMBK_OK -> n = 0).
Proof.
  intros Hg Hcv Ho Ha He Hoff Hmax. destruct (good_object s held o Hg Ho) as [ob Hob]. rewrite (obj_lookup s o ob Hob) in *. destruct Hg as [Hi Hr].
  destruct (write_locked_ok FM fuel s o ob off src Hi Hob Ha He Hoff Hmax) as (rc & n & s' & E & W & Hn & Hrc). exists rc, n, s'. split; [done |].
  pose proof (wr_faces _ _ _ _ _ _ W) as HF. split; [split; [by apply (wrote_inv s s' o ob _ _ W) | by apply (resized_refs s s' o ob _ held Hob HF)] |].
  exists (handle_of (face_of ob)), (o_vn ob). split_and!; try done; [by apply handle_found | cbn; by rewrite Ha | lia | lia | by rewrite (handle_insert _ _ _ _ HF) | |].
  - by apply (wrote_file s s' o ob).
  - destruct Hrc as [(_ & -> & _) | [(_ & -> & ->) | (-> & _)]]; [done | done |]. destruct (n =? 0) eqn:En; [b2p; lia | done].
Qed.

Lemma truncate_file s o ob n f : inv s -> objs s !! o = Some ob -> o_anon ob = false -> 0 <= n <= FILE_MAX -> cut (o_vn ob) n (fs s) f ->
  let s' := vmo_truncated (set_fs s f) o n in
  inv s' /\ faces s' = <[o := face_of (with_size ob n)]> (faces s) /\ file_cut (o_vn ob) n (world_of s) (world_of s').
Proof.
  intros Hi Ho Ha Hn Hcut. destruct (truncated_ok s o ob n f Hi Ho Ha Hn Hcut) as (Hi' & HF & Hfs & HC). cbv zeta. set (s' := vmo_truncated (set_fs s f) o n) in *. split_and!; [done | done |].
  eapply files_are_ext; [| apply (changed_file s s' o ob (fun pos => if n <=? pos then 0 else content s o pos) Hi Ho Ha)].
  { intros vn pos Hpos. cbn. destruct (same_file (o_vn ob) vn) eqn:Es; [| done]. cbn [andb]. destruct (n <=? pos); [done |]. by apply (view_cached s vn o ob). }
  { split_and!; [done | by apply (resized_named s s' o ob _ Ho HF) | |].
    - intros o' pos Ho' Hpos. rewrite HC by done. destruct (o' =? o) eqn:E; [b2p; by subst o' | done].
    - intros vn pos Hpos Hu. rewrite Hfs, Hcut by done. pose proof (Hu o (face_of ob) (faces_of s o ob Ho) Ha) as Hf. cbn in Hf. by rewrite Hf. }
Qed.

Lemma truncate_answers fuel o n f s held : good s held -> covers s -> allowed (Truncate o n f) s held -> answers fuel (Truncate o n f) s held.
Proof.
  intros Hg Hcv (Ho & Ha & Hn & Hcut). destruct (good_object s held o Hg Ho) as [ob Hob]. rewrite (obj_lookup s o ob Hob) in *. destruct Hg as [Hi Hr].
  destruct (truncate_file s o ob n f Hi Hob Ha Hn Hcut) as (Hi' & HF & Hc). exists Done, (vmo_truncated (set_fs s f) o n). split; [done |]. split; [split; [done | by apply (resized_refs s _ o ob n held Hob HF)] |].
  exists (handle_of (face_of ob)), (o_vn ob). split_and!; [by apply handle_found | cbn; by rewrite Ha | by rewrite (handle_insert _ _ _ _ HF) | done].
Qed.

Lemma cut_same a b n (f0 f : FS) : same_file a b = true -> cut b n f0 f -> cut a n f0 f.
Proof. intros Hs Hc vn pos Hpos. rewrite (Hc vn pos Hpos). by rewrite (same_file_trans a b). Qed.

Lemma file_cut_same a b n w w' : same_file a b = true -> file_cut a n w w' -> file_cut b n w w'.
Proof. intros Hs. apply files_are_ext. intros vn pos _. by rewrite (same_file_trans a b). Qed.

Lemma resize_one s o ob vn n : inv s -> objs s !! o = Some ob -> o_anon ob = false -> same_file (o_vn ob) vn = true ->
  <[o := handle_of (face_of (with_size ob n))]> (w_handles (world_of s)) = resize_file vn n <$> w_handles (world_of s).
Proof.
  intros Hi Ho Ha Hs. apply map_eq. intros o'. rewrite lookup_fmap. destruct (decide (o' = o)) as [-> | Hne].
  - rewrite lookup_insert_eq, (handle_found s o ob Ho). unfold resize_file. cbn. by rewrite Ha, Hs.
  - rewrite lookup_insert_ne by done. destruct (w_handles (world_of s) !! o') as [h |] eqn:Eh; [| done]. cbn. destruct (handle_lookup s o' h Eh) as (ob' & Ho' & ->). unfold resize_file. cbn.
    destruct (o_anon ob') eqn:Ea'; [done |]. destruct (same_file (o_vn ob') vn) eqn:Es; [| done]. destruct Hne.
    apply (kd_one _ _ (i_kd _ _ Hi) o' o (face_of ob') (face_of ob)); [by apply faces_of | by apply faces_of | done | done |]. cbn. rewrite same_file_sym in Hs. by rewrite <- (same_file_trans (o_vn ob') vn) by done.
Qed.

Lemma open_truncate_answers fuel vn n f s held : good s held -> covers s -> allowed (OpenTruncate vn n f) s held -> answers fuel (OpenTruncate vn n f) s held.
Proof.
  intros [Hi Hr] Hcv (Hrdy & Hn & Hcut). exists Done, (vmo_file_truncated (set_fs s f) vn n). split; [done |]. unfold vmo_file_truncated. change (ready (set_fs s f)) with (ready s). rewrite Hrdy. cbn [negb].
  change (registry_find (set_fs s f) vn) with (registry_find s vn). destruct (registry_find s vn) as [o |] eqn:Ef.
  - destruct (registry_find_some s vn o Hi Ef) as (ob & Ho & Ha & Hs). destruct (truncate_file s o ob n f Hi Ho Ha Hn (cut_same _ _ _ _ _ Hs Hcut)) as (Hi' & HF & Hc). unfold vmo_truncated in *.
    split; [split; [done | by apply (resized_refs s _ o ob n held Ho HF)] |]. split; [by apply (file_cut_same (o_vn ob)) |]. rewrite (handle_insert _ _ _ _ HF). by apply (resize_one s o ob vn n).
  - assert (Hu : uncached s vn) by (intros o k Hk Ha; by apply (registry_find_none s vn o)).
    destruct (other_file s f Hi) as [Hi' HC]; [intros o k pos Hk Ha Hpos; rewrite (Hcut (k_vn k) pos Hpos), same_file_sym, (Hu o k Hk Ha); done |].
    split; [done |]. split; [split |].
    + intros vn' pos Hpos. cbn. apply (view_by s (set_fs s f)); try done.
      * intros o ob Ho Ha Hs. pose proof (Hu o (face_of ob) (faces_of s o ob Ho) Ha) as Hf. cbn in Hf. rewrite <- (same_file_trans (o_vn ob) vn') in Hf by done. rewrite same_file_sym, Hf.
        rewrite HC by eauto. symmetry. by apply (view_cached s vn' o ob).
      * intros Hu'. rewrite (view_uncached s vn') by done. cbn. by rewrite Hcut.
    + intros o h pos Hh _ Hpos. destruct (handle_lookup s o h Hh) as (ob & Ho & _). apply HC; eauto.
    + change (w_handles (world_of (set_fs s f))) with (w_handles (world_of s)). symmetry. apply map_eq. intros o. rewrite lookup_fmap. destruct (w_handles (world_of s) !! o) as [h |] eqn:Eh; [| done]. cbn.
      destruct (handle_lookup s o h Eh) as (ob & Ho & ->). unfold resize_file. cbn. destruct (o_anon ob) eqn:Ea; [done |]. pose proof (Hu o (face_of ob) (faces_of s o ob Ho) Ea) as Hf. cbn in Hf. by rewrite Hf.
Qed.

Lemma store_changed s o ob index j b r p : inv s -> objs s !! o = Some ob -> recs s !! r = Some p -> p_owner p = o -> p_index p = index -> p_phys p <> 0 -> 0 <= j < PAGE_SIZE ->
  (o_anon ob = false -> firm (o_vn ob) (index * PAGE_SIZE + j) = true -> p_dirty p = true /\ index * PAGE_SIZE + j < o_size ob) ->
  changed s (put_frame s (p_phys p) (wr (frame s (p_phys p)) j b)) o (overlay (content s o) (index * PAGE_SIZE + j) [b]).
Proof.
  intros Hi Ho Hp Eo Ei Hph Hj Hd. set (l := frame s (p_phys p)). destruct (pl_in _ _ _ _ _ (i_pl _ _ Hi) r p Hp Hph) as (_ & _ & Hlen). change (zlen l = PAGE_SIZE) in Hlen.
  assert (Hlw : zlen (wr l j b) = PAGE_SIZE) by (unfold zlen in *; by rewrite wr_length). assert (Hk : faces s !! p_owner p = Some (face_of ob)) by (rewrite Eo; by apply faces_of).
  split_and!; [| done | | done].
  - apply (store_inv s r p (face_of ob)); try done. split; [done |]. intros Ha j' Hj' Hfm. cbn in Hfm |- *. rewrite Ei in *. destruct (decide (j' = j)) as [-> | Hne].
    + destruct (Hd Ha Hfm) as [Hdy Hlt]. split; [congruence | lia].
    + rewrite rd_wr_ne by lia. split; [done |]. intros Hs. apply (cl_tail _ _ _ _ _ (i_cl _ _ Hi) r p (face_of ob)); try done; cbn; by rewrite Ei.
  - intros o' pos Ho' Hpos. rewrite (store_content s r p (wr l j b) o' pos) by done. rewrite Eo, Ei. destruct (o' =? o) eqn:Eoo; cbn [andb]; [| done]. b2p. subst o'. unfold overlay. change (zlen [b]) with 1.
    destruct (page_split pos) as [Edm Hm]. destruct (pos / PAGE_SIZE =? index) eqn:Ex; b2p.
    + assert (Ec : content s o pos = rd l (pos mod PAGE_SIZE)) by (subst o; rewrite (content_page s r p pos (i_ix _ _ Hi) Hp) by congruence; unfold bytes_of; by rewrite (proj2 (Z.eqb_neq _ _) Hph)).
      destruct (_ && _) eqn:E.
      * apply andb_true_iff in E as [? ?]. b2p. assert (pos mod PAGE_SIZE = j) as -> by lia. rewrite rd_wr_eq by (unfold zlen in Hlen; lia). replace (pos - (index * PAGE_SIZE + j)) with 0 by lia. done.
      * apply andb_false_iff in E. rewrite Ec, rd_wr_ne; [done | lia | lia |]. destruct E; b2p; lia.
    + rewrite (proj2 (andb_false_iff _ _)); [done |]. rewrite Z.leb_gt, Z.ltb_ge. unfold PAGE_SIZE in *. lia.
Qed.

Lemma store_answers fuel o index j b s held : good s held -> (forall vn pos, firm vn pos = true -> leaves (Store o index j b) s vn pos = false) ->
  allowed (Store o index j b) s held -> answers fuel (Store o index j b) s held.
Proof.
  intros Hg Hlv (Ho & Hj & r & Hf & Hph). destruct (good_object s held o Hg Ho) as [ob Hob]. destruct Hg as [Hi Hr].
  pose proof Hf as Hf'. apply (page_find_some s o index r (i_ix _ _ Hi) ltac:(eauto)) in Hf' as (p & Hp & Eo & Ei). rewrite (page_lookup s r p Hp) in *.
  assert (Hd : o_anon ob = false -> firm (o_vn ob) (index * PAGE_SIZE + j) = true -> p_dirty p = true /\ index * PAGE_SIZE + j < o_size ob).
  { intros Ha Hfm. specialize (Hlv _ _ Hfm). unfold leaves in Hlv. rewrite Hf, (obj_lookup s o ob Hob), (page_lookup s r p Hp), Ha, Z.eqb_refl, same_file_refl in Hlv. cbn [negb andb] in Hlv.
    apply orb_false_iff in Hlv as [Hdy%negb_false_iff Hlt%Z.leb_gt]. done. }
  pose proof (store_changed s o ob index j b r p Hi Hob Hp Eo Ei Hph Hj Hd) as Hc. unfold answers. cbn [exec]. rewrite Hf, (page_lookup s r p Hp). eexists Done, _. split; [reflexivity |].
  set (s' := put_frame _ _ _) in *. split; [split; [apply Hc | done] |]. exists (handle_of (face_of ob)). split_and!; [by apply handle_found | done |]. cbn [h_file handle_of k_anon face_of k_vn].
  destruct (o_anon ob) eqn:Ea.
  - apply changed_memory; [done | eauto | done].
  - eapply files_are_ext; [| by apply (changed_file s s' o ob _ Hi Hob Ea Hc)]. intros vn pos Hpos. cbn. destruct (same_file (o_vn ob) vn) eqn:Es; [| done]. apply overlay_ext. by apply (view_cached s vn o ob).
Qed.

Lemma discard_answers fuel o first count s held : good s held -> covers s -> allowed (Discard o first count) s held -> answers fuel (Discard o first count) s held.
Proof.
  intros Hg Hcv (Ho & Hf & Hc). destruct (good_object s held o Hg Ho) as [ob Hob]. destruct Hg as [Hi Hr]. exists Done, (vmo_discard_range s o first count). split; [done |].
  destruct (o_anon ob) eqn:Ea.
  - destruct (vmo_discard_ok s o ob first count Hi Hob Ea Hf Hc) as [T HC]. set (s' := vmo_discard_range s o first count) in *. pose proof (tn_faces _ _ T) as HF.
    split; [split; [apply T | by rewrite HF] |]. exists (handle_of (face_of ob)). split_and!; [by apply handle_found | unfold world_of, w_handles; by rewrite HF |]. cbn [h_file handle_of k_anon face_of]. rewrite Ea.
    apply changed_memory; [done | eauto |]. split_and!; [apply T | unfold named; by rewrite HF | | by intros; rewrite (tn_fs _ _ T)].
    intros o' pos Ho' Hpos. rewrite HC by done. destruct (o' =? o) eqn:E; cbn [andb]; [b2p; by subst o' | done].
  - unfold vmo_discard_range. rewrite (obj_lookup s o ob Hob), Ea. cbn [negb orb]. split; [done |]. exists (handle_of (face_of ob)). split_and!; [by apply handle_found | done |].
    cbn [h_file handle_of k_anon face_of]. rewrite Ea. by apply (keeps_unseen s s Hi Hcv), kept_refl.
Qed.

(** ** Every call *)

Lemma call_answers fuel c s held : good s held -> (forall vn pos, unsaved s vn pos = false -> leaves c s vn pos = false -> firm vn pos = true) ->
  (forall vn pos, firm vn pos = true -> leaves c s vn pos = false) -> allowed c s held -> enough fuel s -> answers fuel c s held.
Proof.
  intros Hg Hcv Hlv Ha He. assert (Hc : (forall vn pos, leaves c s vn pos = false) -> covers s) by (intros Hl vn pos Hu; by apply Hcv). destruct c; cbn in Ha; try (assert (Hcs : covers s) by (by apply Hc)).
  - by apply get_answers.
  - by apply create_answers.
  - by apply ref_answers.
  - by apply put_answers.
  - by apply read_answers.
  - destruct Ha as (Ho & Hf & Hoff & Hmax). destruct (write_answers fuel o off src s held Hg Hcs Ho Hf He Hoff Hmax) as (rc & n & s' & E & G' & h & vn & A1 & A2 & A3 & A4 & A5 & A6 & A7).
    exists (Wrote rc off n), s'. split; [cbn; unfold vmo_write; by rewrite E |]. split; [done |]. exists h, vn. exact (conj A1 (conj A2 (conj A4 (conj eq_refl (conj A5 (conj A6 A7)))))).
  - destruct Ha as (Ho & Hf & Hmax). destruct (good_object s held o Hg Ho) as [ob Hob]. assert (Hsz : 0 <= o_size (obj s o)) by (rewrite (obj_lookup s o ob Hob); apply (kd_size _ _ (i_kd _ _ (proj1 Hg)) o (face_of ob)), faces_of, Hob).
    destruct (write_answers fuel o (o_size (obj s o)) src s held Hg Hcs Ho Hf He Hsz Hmax) as (rc & n & s' & E & G' & h & vn & A1 & A2 & A3 & A4 & A5 & A6 & A7).
    exists (Wrote rc (o_size (obj s o)) n), s'. split; [cbn; unfold vmo_append; by rewrite E |]. split; [done |]. exists h, vn. exact (conj A1 (conj A2 (conj A4 (conj (eq_sym A3) (conj A5 (conj A6 A7)))))).
  - by apply flush_answers.
  - by apply truncate_answers.
  - by apply open_truncate_answers.
  - destruct Ha. by apply wire_answers.
  - by apply unwire_answers.
  - by apply mark_dirty_answers.
  - by apply store_answers.
  - by apply mapper_answers.
  - by apply discard_answers.
  - by apply detach_answers.
  - by apply writeback_answers.
  - by apply reclaim_answers.
  - by apply audit_answers.
  - by apply chance_answers.
  - by apply turn_answers.
Qed.
End Calls.

(** ** From any state *)

Section Every.
Context {Fr FS SW PT HP : Type} `{FrameLaws Fr} `{FileLaws FS} `{SlotLaws SW} `{TableLaws PT} `{HeapLaws HP}.

Local Abbreviation cache := (@cache Fr FS SW PT HP).
Implicit Types (s : cache).

(** No byte is firm; those that are saved now; those a call does not leave
    behind. *)
Definition loose : Firm := fun _ _ => false.
Definition saved s : Firm := fun vn pos => negb (unsaved s vn pos).
Definition saved_by (c : call FS) s : Firm := fun vn pos => negb (unsaved s vn pos) && negb (leaves c s vn pos).

Lemma unsaved_at s r p ob j : inv (FM := loose) s -> recs s !! r = Some p -> objs s !! p_owner p = Some ob -> o_anon ob = false -> 0 <= j < PAGE_SIZE ->
  let pos := p_index p * PAGE_SIZE + j in let b := rd (fbytes (ram s) (p_phys p)) j in
  unsaved s (o_vn ob) pos = (negb (p_dirty p) && negb (b =? file_byte (o_vn ob) pos (fs s))) || ((o_size ob <=? pos) && negb (b =? 0)).
Proof.
  intros Hi Hp Ho Ha Hj. cbv zeta. unfold unsaved. rewrite (find_cached (FM := loose) s (o_vn ob) (p_owner p) ob) by (done || apply same_file_refl).
  destruct (page_pos (p_index p) j Hj) as [Ed Em].
  rewrite Ed, Em, (proj2 (page_find_some s (p_owner p) (p_index p) r (i_ix _ _ Hi) ltac:(eauto))) by (by exists p). by rewrite (page_lookup s r p Hp), (obj_lookup s _ ob Ho).
Qed.

Lemma inv_saved s : inv (FM := loose) s -> inv (FM := saved s) s.
Proof.
  intros Hi. pose proof (unsaved_at s) as Hu. destruct Hi as [A B C D [E1 E2 E3] I J] eqn:E. clear E. split; try done. split; [| | done].
  - intros r p k j Hp Hk Ha Hd _ Hj Hf. destruct (faces_lookup s _ k Hk) as (ob & Ho & ->). unfold firm, saved in Hf. cbn in Hf, Ha |- *. rewrite (Hu r p ob j Hi Hp Ho Ha Hj), Hd in Hf. cbn [negb andb] in Hf.
    by apply negb_true_iff, orb_false_iff, proj1, negb_false_iff, Z.eqb_eq in Hf.
  - intros r p k j Hp Hk Ha Hj Hs Hf. destruct (faces_lookup s _ k Hk) as (ob & Ho & ->). unfold firm, saved in Hf. cbn in Hf, Ha, Hs. rewrite (Hu r p ob j Hi Hp Ho Ha Hj), (proj2 (Z.leb_le _ _) Hs) in Hf.
    by apply negb_true_iff, orb_false_iff, proj2, negb_false_iff, Z.eqb_eq in Hf.
Qed.

Lemma good_saved s held : good (FM := loose) s held -> good (FM := saved s) s held.
Proof. intros [Hi Hr]. split; [by apply inv_saved | done]. Qed.

Lemma saved_covers s : covers (FM := saved s) s.
Proof. intros vn pos Hu. unfold firm, saved. by rewrite Hu. Qed.

Lemma good_loose (F : Firm) s held : good (FM := F) s held -> good (FM := loose) s held.
Proof. intros [Hi Hr]. split; [by apply (inv_mono F loose) | done]. Qed.

Lemma leaves_same (c : call FS) s a b pos : same_file a b = true -> leaves c s a pos = leaves c s b pos.
Proof. intros Hs. destruct c; try done. cbn. destruct (page_find s o index); [| done]. by rewrite (same_file_sym _ a), (same_file_sym _ b), (same_file_trans a b). Qed.

Lemma call_ok fuel c s held : good (FM := loose) s held -> allowed c s held -> enough fuel s ->
  exists r s', exec fuel c s = Some (r, s') /\ good (FM := loose) s' (held_after c r held) /\ spec c r (world_of s) (world_of s')
    /\ forall vn pos, 0 <= pos -> unsaved s' vn pos = true -> unsaved s vn pos = true \/ leaves c s vn pos = true.
Proof.
  intros Hg Ha He. destruct (call_answers (FM := saved_by c s) fuel c s held) as (r & s' & E & Hg' & Hs); try done.
  - destruct (good_saved s held Hg) as [Hi Hr]. split; [| done]. apply (inv_mono (saved s) (saved_by c s)); [| done]. intros vn pos Hf. unfold firm, saved_by, saved in *. by apply andb_true_iff in Hf as [-> _].
  - intros vn pos Hu Hl. unfold firm, saved_by. by rewrite Hu, Hl.
  - intros vn pos Hf. unfold firm, saved_by in Hf. by apply andb_true_iff, proj2, negb_true_iff in Hf.
  - exists r, s'. split_and!; [done | by apply (good_loose (saved_by c s)) | done |]. intros vn pos Hpos Hu.
    destruct (unsaved_loose (FM := saved_by c s) s' vn pos (proj1 Hg') Hpos Hu) as (o & ob & _ & _ & Hsf & Hf). unfold firm, saved_by in Hf.
    rewrite (unsaved_same s _ vn), (leaves_same c s _ vn) in Hf by done. destruct (unsaved s vn pos); [by left | right]. by apply negb_false_iff.
Qed.
End Every.
