(* ===== verification/PageCacheDemo.v ===== *)
(** * Concrete parts for the page cache

    A file system, page tables and a heap small enough to compute with,
    and what each has to promise; with them, and with the disk and the swap store
    of the two files before, runs of the page cache evaluate. *)

From S2P Require Import Prelude Bytes Pmm Block Vfs PageCache PageCacheInv Swap PageCacheFrames.

(** ** Files: the bytes of each, and how many *)

Definition files : Type := option Z * Z -> Z * (Z -> Z).
Definition file_key (vn : vnode) : option Z * Z := (v_mnt vn, v_ino vn).
Definition byte_at (k : option Z * Z) (pos : Z) (f : files) : Z := if (0 <=? pos) && (pos <? fst (f k)) then snd (f k) pos else 0.

#[global] Instance mem_files : Files files := {|
  file_read vn := Some (fun off n f => inl ((fun i => byte_at (file_key vn) (off + i) f) <$> seqZ 0 (Z.min n (Z.max 0 (fst (f (file_key vn)) - off)))));
  file_write vn := Some (fun off l f =>
    (Errno.EMBK_OK, zlen l,
     fun k => if bool_decide (k = file_key vn) then
                (Z.max (fst (f k)) (off + zlen l), fun pos => if (off <=? pos) && (pos <? off + zlen l) then rd l (pos - off) else byte_at k pos f)
              else f k));
  file_size vn := Some (fun f => inl (Z.max 0 (fst (f (file_key vn)))));
  file_check_write vn := None;
|}.

Lemma same_file_key a b : same_file a b = true <-> file_key a = file_key b.
Proof. unfold same_file, file_key. rewrite andb_true_iff, bool_decide_eq_true, Z.eqb_eq. split; [intros [-> ->]; done | by intros [= -> ->]]. Qed.

#[global] Instance mem_file_laws : FileLaws files.
Proof.
  refine {| file_byte := fun vn pos f => byte_at (file_key vn) pos f |}.
  - intros a b k f Hs%same_file_key. by rewrite Hs.
  - cbn. intros vn read off n f got [= <-] Ho Hn [= <-]. set (m := Z.min n _). split; [unfold zlen; rewrite length_fmap, length_seqZ; unfold m; lia |].
    intros j Hj. unfold rd. rewrite list_lookup_fmap. destruct (decide (j < m)).
    + rewrite lookup_seqZ_lt by lia. cbn. f_equal. lia.
    + rewrite lookup_seqZ_ge by lia. cbn. unfold byte_at. destruct (off + j <? _) eqn:E; b2p; [unfold m in *; lia | by rewrite andb_false_r].
  - cbn. intros vn write off l f rc n f' [= <-] Ho [= <- <- <-]. pose proof (zlen_nonneg l). split.
    + intros vn' k Hk. unfold byte_at. case_bool_decide as E; [| done]. cbn. assert (Hk' : k < off \/ off + zlen l <= k) by (apply Hk; by apply same_file_key).
      destruct (0 <=? k) eqn:E0, (k <? Z.max _ _) eqn:E1, (off <=? k) eqn:E2, (k <? off + zlen l) eqn:E3, (k <? fst (f (file_key vn'))) eqn:E4; b2p; cbn; try done; try lia; by rewrite ?E4.
    + intros _ _ j Hj. unfold byte_at. rewrite bool_decide_eq_true_2 by done. cbn. rewrite (proj2 (Z.leb_le 0 _)), (proj2 (Z.ltb_lt _ (Z.max _ _))), (proj2 (Z.leb_le off _)), (proj2 (Z.ltb_lt _ (off + zlen l))) by lia. cbn. f_equal. lia.
  - cbn. intros vn stat f n [= <-] [= <-]. split; [lia |]. intros k Hk. unfold byte_at. destruct (_ <? _) eqn:E; b2p; [lia | by rewrite andb_false_r].
Defined.

(** ** Page tables: what is mapped, and which pages were used *)

Record maps := mkMaps { m_map : list (Z * Z * Z); m_used : list (Z * Z) }.

#[global] Instance map_tables : Tables maps := {|
  vmm_unmap_in pml4 va t := mkMaps (filter (fun e => (fst e <> (pml4, va))) (m_map t)) (m_used t);
  vmm_get_phys_in pml4 va t := match head (filter (fun e => fst e = (pml4, va)) (m_map t)) with Some e => snd e | None => 0 end;
  vmm_test_and_clear_accessed_in pml4 va t :=
    (bool_decide ((pml4, va) ∈ m_used t), mkMaps (m_map t) (filter (fun e => e <> (pml4, va)) (m_used t)));
|}.

Lemma filter_shorter {A} (P : A -> Prop) `{forall x, Decision (P x)} (l : list A) : (length (filter P l) <= length l)%nat /\ ((exists x, x ∈ l /\ ~ P x) -> (length (filter P l) < length l)%nat).
Proof.
  split; [apply length_filter |]. intros (x & Hx & Hn). induction l as [| y l IH]; [by apply elem_of_nil in Hx |]. rewrite filter_cons. pose proof (length_filter P l).
  apply elem_of_cons in Hx as [-> | Hx]; [rewrite decide_False by done; cbn; lia |]. specialize (IH Hx). case_decide; cbn; lia.
Qed.

#[global] Instance map_table_laws : TableLaws maps.
Proof.
  refine {| tb_pending := fun t => length (m_used t) |}.
  - cbn. intros pml4 va t a t' [= <- <-]. destruct (filter_shorter (fun e => e <> (pml4, va)) (m_used t)) as [H1 H2]. split; [done |]. intros Hin%bool_decide_eq_true. apply H2. exists (pml4, va). split; [done | tauto].
  - cbn. lia.
Defined.

(** ** A heap that never reuses an address *)

Record heap := mkHeap { hp_next : Z; hp_blocks : gset Z }.

#[global] Instance bump_heap : Heap heap := {|
  kmalloc n h := if n =? 0 then (0, h) else (hp_next h, mkHeap (hp_next h + 4096) ({[hp_next h]} ∪ hp_blocks h));
  kfree x h := mkHeap (hp_next h) (hp_blocks h ∖ {[x]});
|}.

#[global] Instance bump_heap_laws : HeapLaws heap.
Proof.
  refine {| hp_ok := fun h => 0 < hp_next h /\ forall x, x ∈ hp_blocks h -> x < hp_next h; hp_used := hp_blocks |}.
  - cbn. intros n h x h' [Hn Hb] He. destruct (n =? 0); injection He as <- <-; [split; [done | by left] |]. cbn. split; [split; [lia |]; intros y [->%elem_of_singleton | Hy%Hb]%elem_of_union; lia |].
    right. split_and!; [lia | intros Hin%Hb; lia | done].
  - cbn. intros h x [Hn Hb] Hx. split; [split; [done |]; intros y [Hy _]%elem_of_difference; by apply Hb | done].
Defined.

(** ** A machine

    64 pages of memory, and one file of three bytes. *)

Definition demo_frames : pmm := mkPmm [1; 0; 0; 0; 0; 0; 0; 0] 0 64 1 63 8 1 0 0.

Lemma demo_frames_ok : pmm_ok demo_frames.
Proof.
  split; [| reflexivity]. split; try (cbn; lia || done).
  - by repeat constructor.
Qed.

Definition demo_file : vnode := mkVnode (Some 1) 5 0.
Definition demo_files : files := fun k => if bool_decide (k = file_key demo_file) then (3, fun pos => 65 + pos) else (0, fun _ => 0).
Definition demo_heap : heap := mkHeap 4096 ∅.

Lemma demo_heap_ok : hp_ok demo_heap.
Proof. split; [done |]. intros x Hx. by apply elem_of_empty in Hx. Qed.
