(* ===== verification/PageCacheSafety.v ===== *)
(** * The page cache: what holds of every run

    The states the cache can be in, from the start of the kernel on, whatever
    its callers and the rest of the kernel do; what holds of all of them, and
    two things the cache does not keep. *)

From stdpp Require Import gmultiset.
From S2P Require Import Prelude Bytes Pmm Block Swap Vfs PageCache PageCacheInv PageCacheSteps PageCacheReclaim PageCacheAccess PageCacheGet PageCacheFile PageCacheOps PageCacheTruncate PageCacheWhole PageCacheFrames PageCacheMachine PageCacheDemo.

Section Safety.
Context {Fr FS SW PT HP : Type} `{FrameLaws Fr} `{FileLaws FS} `{SlotLaws SW} `{TableLaws PT} `{HeapLaws HP}.

Local Abbreviation cache := (@cache Fr FS SW PT HP).
Implicit Types (s : cache) (held : gmultiset Z).
#[local] Existing Instance loose.

(** The cache before any call. *)
Definition boot (f : Fr) (d : FS) (w : SW) (t : PT) (h : HP) : cache := vmo_writeback_init (mkCache ∅ ∅ [] [] [] [] ∅ true false 0 0 f d w t h).

(** A call; another part of the kernel taking and giving back frames and blocks
    of its own and changing page tables; a write to a file that is not in the
    cache.  A process stores through its mapping into any page that is in
    memory, at any time, whether the page counts as dirty or not. *)
Inductive reaches : cache -> gmultiset Z -> Prop :=
  | reach_boot f d w t h : fr_ok f -> sw_ok w -> hp_ok h -> reaches (boot f d w t h) ∅
  | reach_call fuel c s held r s' : reaches s held -> allowed c s held -> enough fuel s -> exec fuel c s = Some (r, s') -> reaches s' (held_after c r held)
  | reach_others s held f h t : reaches s held -> others_ran s f h -> reaches (set_pt (set_hp (set_fr s f) h) t) held
  | reach_file s held f : reaches s held ->
      (forall o k pos, faces s !! o = Some k -> k_anon k = false -> 0 <= pos -> file_byte (k_vn k) pos f = file_byte (k_vn k) pos (fs s)) -> reaches (set_fs s f) held.

Lemma cache_boot_good f d w t h : fr_ok f -> sw_ok w -> hp_ok h -> good (boot f d w t h) ∅.
Proof.
  intros Hf Hw Hh. split.
  - split; cbn.
    + split; intros; try (rewrite ?lookup_empty, ?lookup_fmap, ?lookup_empty in *; done).
    + intros o c Hc. unfold counts in Hc. cbn in Hc. by rewrite lookup_fmap, lookup_empty in Hc.
    + unfold faces. cbn. rewrite fmap_empty. split; try (intros; by rewrite ?lookup_empty in *); [by apply NoDup_nil |]. intros o. rewrite elem_of_nil, lookup_empty. split; [done | by intros []].
    + split; try done; intros; by rewrite lookup_empty in *.
    + unfold faces. cbn. rewrite fmap_empty. split; intros; by rewrite lookup_empty in *.
    + split; [by intros r Hr%elem_of_nil | by intros r Hr%elem_of_nil | by apply NoDup_nil | by apply NoDup_nil].
    + split_and!; [done | by apply NoDup_nil | done |]. exists ∅. split_and!; [done | intros r [Hr | [p Hp]]; [by apply elem_of_nil in Hr | by rewrite lookup_empty in Hp] | intros o tb Ht; by rewrite lookup_fmap, lookup_empty in Ht].
  - unfold faces. cbn. rewrite fmap_empty. split; [intros o k Hk; by rewrite lookup_empty in Hk |]. intros o. rewrite lookup_empty. split; [intros Ho; by apply gmultiset_not_elem_of_empty in Ho | by intros []].
Qed.

Lemma reaches_good s held : reaches s held -> good s held.
Proof.
  induction 1 as [f d w t h Hf Hw Hh | fuel c s held r s' _ Hg Ha He Hex | s held f h t _ [Hi Hr] Ho | s held f _ [Hi Hr] Hf].
  - by apply cache_boot_good.
  - destruct (call_ok fuel c s held Hg Ha He) as (r' & s1 & E & G & _ & _). rewrite Hex in E. by injection E as <- <-.
  - split; [by apply others_keep | done].
  - split; [by apply other_file | done].
Qed.

Lemma cache_reach_next fuel c s held : reaches s held -> allowed c s held -> enough fuel s ->
  exists r s', exec fuel c s = Some (r, s') /\ reaches s' (held_after c r held) /\ spec c r (world_of s) (world_of s')
    /\ forall vn pos, 0 <= pos -> w_unsaved (world_of s') vn pos = true -> w_unsaved (world_of s) vn pos = true \/ leaves c s vn pos = true.
Proof.
  intros Hr Ha He. destruct (call_ok fuel c s held (reaches_good s held Hr) Ha He) as (r & s' & E & _ & Hs & Hu). exists r, s'. split_and!; [done | | done | done]. by apply (reach_call fuel c s).
Qed.

(** C2. The page cache does what its calls promise.  From the start of the
    kernel on, after any calls, any stores of processes through their mappings
    and whatever the rest of the kernel did in between, a call that its caller
    may make returns, and what callers see changes as the call promises: a read
    returns the bytes of the file, a write or a store replaces its range and
    nothing else, truncation cuts, memory starts as zeroes and keeps what is
    stored in it, and everything else -- flushing, writing back, reclaiming
    frames, swapping out and in, wiring -- changes no byte of any file or
    memory.  The exception is an unsaved byte of a file, of which only its
    writes, its truncation and further stores promise something; and the only step
    that leaves a byte unsaved is a store to that very byte, while its page counts
    as clean or past the end of the file. *)
Theorem vmo_refines fuel c s held : reaches s held -> allowed c s held -> enough fuel s ->
  exists r s', exec fuel c s = Some (r, s') /\ spec c r (world_of s) (world_of s') /\ reaches s' (held_after c r held)
    /\ forall vn pos, 0 <= pos -> w_unsaved (world_of s') vn pos = true -> w_unsaved (world_of s) vn pos = true \/ leaves c s vn pos = true.
Proof. intros Hr Ha He. destruct (cache_reach_next fuel c s held Hr Ha He) as (r & s' & E & Hr' & Hs & Hu). by exists r, s'. Qed.

(** C4. The tables of the cache are exact.  An object's reference count is the
    number of its holders and its three page counts are the numbers of its
    resident, dirty and swapped pages; its index finds a page exactly when there
    is one; a file has one object.  A page is in a frame the allocator has given
    out or, for memory, in a slot of the store, and no two pages share a frame
    or a slot. *)
Theorem vmo_tables_exact s held : reaches s held ->
  (forall o ob, objs s !! o = Some ob ->
     o_refs ob = Z.of_nat (multiplicity o held)
     /\ o_resident ob = cnt (fun p => (p_owner p =? o) && negb (p_phys p =? 0)) (recs s)
     /\ o_dirty_pages ob = cnt (fun p => (p_owner p =? o) && p_dirty p) (recs s)
     /\ o_swapped ob = cnt (fun p => (p_owner p =? o) && (p_phys p =? 0)) (recs s)
     /\ (forall index r, page_find s o index = Some r <-> exists p, recs s !! r = Some p /\ p_owner p = o /\ p_index p = index))
  /\ (forall o o' ob ob', objs s !! o = Some ob -> objs s !! o' = Some ob' -> o_anon ob = false -> o_anon ob' = false -> same_file (o_vn ob) (o_vn ob') = true -> o = o')
  /\ (forall r p, recs s !! r = Some p -> exists ob, objs s !! p_owner p = Some ob
        /\ if p_phys p =? 0 then o_anon ob = true /\ is_Some (sw_data (sw s) !! p_slot p) else p_phys p ∈ fr_held (fr s))
  /\ (forall r r' p p', recs s !! r = Some p -> recs s !! r' = Some p' -> r <> r' ->
        (p_phys p <> 0 -> p_phys p <> p_phys p') /\ (p_phys p = 0 -> p_phys p' = 0 -> p_slot p <> p_slot p')).
Proof.
  intros [Hi [Hrefs _]]%reaches_good. split_and!.
  - intros o ob Ho. pose proof (i_ct _ _ Hi o (counts_of ob)) as Hc. unfold counts, counts_of, counted in Hc. rewrite lookup_fmap, Ho in Hc. specialize (Hc eq_refl). injection Hc as E1 E2 E3.
    split_and!; [apply (Hrefs o (face_of ob)), faces_of, Ho | done | done | done |]. intros index r. apply page_find_some; [apply Hi | eauto].
  - intros o o' ob ob' Ho Ho' Ha Ha' Hs. by apply (kd_one _ _ (i_kd _ _ Hi) o o' (face_of ob) (face_of ob')); [apply faces_of | apply faces_of | | |].
  - intros r p Hp. destruct (owner_object s r p (i_ix _ _ Hi) Hp) as [ob Ho]. exists ob. split; [done |]. destruct (p_phys p =? 0) eqn:E; b2p; [| by apply (pl_in _ _ _ _ _ (i_pl _ _ Hi) r p)].
    destruct (pl_out _ _ _ _ _ (i_pl _ _ Hi) r p Hp E) as (_ & (k & Hk & Ha) & l & Hl & _). rewrite (faces_of s _ ob Ho) in Hk. injection Hk as <-. split; [done | by exists l].
  - intros r r' p p' Hp Hp' Hne. split; [intros Hph E | intros Hph Hph' E]; apply Hne; [by apply (pl_inj _ _ _ _ _ (i_pl _ _ Hi) r r' p p') | by apply (pl_sinj _ _ _ _ _ (i_pl _ _ Hi) r r' p p')].
Qed.

(** C17. A flush that reports success is durable.  Once [vmo_flush] returns OK
    the device holds, up to the end of the file, exactly the bytes the callers
    saw, whatever mix of clean, dirty and absent pages the file had -- but for
    unsaved bytes, those a process has stored into a page that counts as clean. *)
Theorem vmo_flush_durable s held o ob s' : reaches s held -> objs s !! o = Some ob -> o_anon ob = false -> vmo_flush s o = (Errno.EMBK_OK, s') ->
  forall pos, 0 <= pos < o_size ob -> w_unsaved (world_of s) (o_vn ob) pos = false ->
    file_byte (o_vn ob) pos (fs s') = w_file (world_of s) (o_vn ob) pos /\ w_file (world_of s') (o_vn ob) pos = w_file (world_of s) (o_vn ob) pos.
Proof.
  intros [Hi [Hrefs _]]%reaches_good Ho Ha Hf pos Hpos Hu. apply inv_saved in Hi. destruct (flush_object_ok (FM := saved s) s o ob _ s' Hi Ho Hf) as ([K _] & _ & _ & Hd). destruct (Hrefs o (face_of ob) (faces_of s o ob Ho)) as [_ Hnw].
  split; [| apply (keeps_unseen (FM := saved s) s s' Hi (saved_covers s) K); [lia | done | done]]. cbn. rewrite (Hd eq_refl (Hnw Ha) Ha pos Hpos) by (by apply saved_covers).
  symmetry. apply (view_cached (FM := saved s) s (o_vn ob) o ob); [done | done | done | apply same_file_refl].
Qed.

(** C18. Reclaim gives back exactly the frames it says.  [vmo_reclaim] returns, the
    allocator has as many frames more as it reports and no more than were asked
    for, pages that are wired for a mapping of a file keep their frames, and no
    byte of any file or memory changes, unsaved bytes apart. *)
Theorem vmo_reclaim_exact fuel want s held : reaches s held -> 0 <= want -> enough fuel s ->
  exists n s', vmo_reclaim fuel s want = Some (n, s') /\ 0 <= n <= want
    /\ Z.of_nat (size (fr_held (fr s'))) = Z.of_nat (size (fr_held (fr s))) - n
    /\ (forall r p ob, recs s !! r = Some p -> p_wired p <> 0 -> objs s !! p_owner p = Some ob -> o_anon ob = false ->
          exists p', recs s' !! r = Some p' /\ p_owner p' = p_owner p /\ p_phys p' = p_phys p /\ p_wired p' = p_wired p)
    /\ unseen (world_of s) (world_of s').
Proof.
  intros [Hi%inv_saved _]%reaches_good Hw He. pose proof (vmo_reclaim_ok (FM := saved s) fuel want s Hi Hw) as Hr. destruct (vmo_reclaim fuel s want) as [[n s'] |] eqn:E; [| done]. destruct Hr as ([K C] & Hu & Hn).
  exists n, s'. split_and!; try done; try lia; [| by apply (keeps_unseen (FM := saved s) s s' Hi (saved_covers s) K) ..]. intros r p ob Hp Hwi Ho Ha. apply (cm_pinned _ _ C). split_and!; [done | done |]. exists (face_of ob). split; [by apply faces_of | done].
Qed.

(** The counters of the cache agree with the pages.  [vmo_stats_get] adds up
    the counts the objects keep, over the registry; the sums are the numbers of
    resident and dirty file pages, and of resident and swapped pages of memory,
    counted over all the page records. *)
Theorem vmo_stats_exact s held : reaches s held -> vmo_stats_get s = recount s.
Proof. intros [Hi _]%reaches_good. by apply stats_ok. Qed.

(** The state and the answer of a call that returns. *)
Definition after (fuel : nat) (c : call FS) s : cache := match exec fuel c s with Some (_, s') => s' | None => s end.
Definition answer (fuel : nat) (c : call FS) s : result := match exec fuel c s with Some (r, _) => r | None => Done end.

Lemma reach_after fuel c s held : reaches s held -> allowed c s held -> enough fuel s -> reaches (after fuel c s) (held_after c (answer fuel c s) held).
Proof. intros Hr Ha He. destruct (cache_reach_next fuel c s held Hr Ha He) as (r & s' & E & Hr' & _ & _). unfold after, answer. by rewrite E. Qed.

(** Page tables change at any time. *)
Lemma reach_tables s held t : reaches s held -> reaches (set_pt s t) held.
Proof.
  intros Hr. apply (reach_others s held (fr s) (hp s) t Hr). destruct (reaches_good s held Hr) as [Hi _]. destruct (i_hg _ _ Hi) as (Hh & _ & _ & own & O1 & O2 & O3).
  split_and!; [apply Hi | intros r p Hp Hph; by apply (pl_in _ _ _ _ _ (i_pl _ _ Hi) r p) | done |].
  intros a [[ob Ho] | [(o & ob & Ho & Et & Hne) | (r & <- & Hr')]]; [| | by eapply O1, O2].
  - apply (O1 a Object). apply (O3 a (o_table ob)). unfold tables. by rewrite lookup_fmap, Ho.
  - apply (O1 a (Table o)). apply (O3 o a); [unfold tables; rewrite lookup_fmap, Ho; cbn; by rewrite Et | done].
Qed.
End Safety.

(** ** A run *)

Local Abbreviation demo := (@cache pmm files (swap disks) maps heap).
Definition demo0 : demo := boot demo_frames demo_files demo_store (mkMaps [] []) demo_heap.
Definition demo_get : demo := after 8 (Get demo_file) demo0.
Definition demo_write : demo := after 8 (Write 4096 1 [1; 2; 3]) demo_get.
Definition demo_wire : demo := after 8 (Wire 4096 0) demo_write.

Lemma demo0_reached : reaches demo0 ∅.
Proof. apply reach_boot; [exact demo_frames_ok | right; exists demo_disk; exact demo_store_up | exact demo_heap_ok]. Qed.

Lemma demo_get_reached : reaches demo_get {[+ 4096 +]}.
Proof.
  replace ({[+ 4096 +]} : gmultiset Z) with (@held_after files (Get demo_file) (answer 8 (Get demo_file) demo0) ∅).
  - apply reach_after; [exact demo0_reached | | vm_compute; lia]. exists (fun f => inl (Z.max 0 (fst (f (file_key demo_file))))), 3. split; [reflexivity |]. split; [reflexivity |]. vm_compute. done.
  - replace (answer 8 (Get demo_file) demo0) with (Handle (Some 4096)) by (vm_compute; reflexivity). apply leibniz_equiv. intros x. cbn [held_after]. by rewrite multiplicity_disj_union, multiplicity_empty.
Qed.

Lemma demo_holds : (4096 : Z) ∈ ({[+ 4096 +]} : gmultiset Z).
Proof. by apply gmultiset_elem_of_singleton. Qed.

Lemma demo_write_reached : reaches demo_write {[+ 4096 +]}.
Proof. apply (reach_after 8 (Write 4096 1 [1; 2; 3]) demo_get _ demo_get_reached); [| vm_compute; lia]. split; [exact demo_holds |]. vm_compute. split_and!; done. Qed.

Lemma demo_wire_reached : reaches demo_wire {[+ 4096 +]}.
Proof. apply (reach_after 8 (Wire 4096 0) demo_write _ demo_write_reached); [| vm_compute; lia]. split; [exact demo_holds |]. vm_compute. split; done. Qed.

Lemma vmo_refines_witness : exists r s', exec 8 (Read 4096 0 10) demo_write = Some (r, s') /\ r = Bytes Errno.EMBK_OK [65; 1; 2; 3] /\ spec (FS := files) (Read 4096 0 10) r (world_of demo_write) (world_of s').
Proof.
  destruct (vmo_refines 8 (Read 4096 0 10) demo_write {[+ 4096 +]} demo_write_reached) as (r & s' & E & Hs & _).
  - split; [exact demo_holds |]. vm_compute. split_and!; done.
  - vm_compute. lia.
  - exists r, s'. split_and!; [exact E | | exact Hs]. assert (E1 : fst <$> exec 8 (Read 4096 0 10) demo_write = Some (Bytes Errno.EMBK_OK [65; 1; 2; 3])) by (vm_compute; reflexivity). rewrite E in E1. by injection E1.
Defined.

Lemma vmo_tables_exact_witness : o_refs (obj demo_wire 4096) = 1 /\ o_resident (obj demo_wire 4096) = 1.
Proof.
  destruct (vmo_tables_exact demo_wire {[+ 4096 +]} demo_wire_reached) as [Ho _]. destruct (Ho 4096 (obj demo_wire 4096)) as (Hr & _ & _); [vm_compute; reflexivity |].
  rewrite Hr, multiplicity_singleton_eq. split; [done | vm_compute; reflexivity].
Defined.

Lemma vmo_flush_durable_witness :
  let s' := snd (vmo_flush demo_wire 4096) in
  file_byte demo_file 1 (fs demo_wire) = 66 /\ file_byte demo_file 1 (fs s') = 1 /\ file_byte demo_file 1 (fs s') = w_file (world_of demo_wire) demo_file 1.
Proof.
  cbv zeta. split_and!; [vm_compute; reflexivity | vm_compute; reflexivity |].
  assert (Ho : objs demo_wire !! 4096 = Some (obj demo_wire 4096)) by (vm_compute; reflexivity). assert (Hf : vmo_flush demo_wire 4096 = (Errno.EMBK_OK, snd (vmo_flush demo_wire 4096))) by (vm_compute; reflexivity).
  assert (Ha : o_anon (obj demo_wire 4096) = false) by (vm_compute; reflexivity). assert (Hv : o_vn (obj demo_wire 4096) = demo_file) by (vm_compute; reflexivity). assert (Hs : 0 <= 1 < o_size (obj demo_wire 4096)) by (split; vm_compute; [intros [=] | reflexivity]).
  destruct (vmo_flush_durable demo_wire {[+ 4096 +]} 4096 (obj demo_wire 4096) (snd (vmo_flush demo_wire 4096)) demo_wire_reached Ho Ha Hf 1 Hs) as [E _]; [vm_compute; reflexivity |]. rewrite Hv in E. exact E.
Defined.

Definition demo_anon : demo := after 8 (CreateAnon 8192) demo0.
Definition demo_anon_wire : demo := after 8 (Wire 4096 0) demo_anon.
Definition demo_anon_idle : demo := after 8 (Unwire 4096 0) demo_anon_wire.

Lemma demo_anon_reached : reaches demo_anon_idle {[+ 4096 +]}.
Proof.
  assert (H0 : reaches demo_anon {[+ 4096 +]}).
  { replace ({[+ 4096 +]} : gmultiset Z) with (@held_after files (CreateAnon 8192) (answer 8 (CreateAnon 8192) demo0) ∅).
    - apply reach_after; [exact demo0_reached | vm_compute; done | vm_compute; lia].
    - replace (answer 8 (CreateAnon 8192) demo0) with (Handle (Some 4096)) by (vm_compute; reflexivity). apply leibniz_equiv. intros x. cbn [held_after]. by rewrite multiplicity_disj_union, multiplicity_empty. }
  assert (H1 : reaches demo_anon_wire {[+ 4096 +]}).
  { apply (reach_after 8 (Wire 4096 0) demo_anon _ H0); [| vm_compute; lia]. split; [exact demo_holds |]. vm_compute. split; done. }
  apply (reach_after 8 (Unwire 4096 0) demo_anon_wire _ H1); [exact demo_holds | vm_compute; lia].
Qed.

Lemma vmo_reclaim_exact_witness : exists n s', vmo_reclaim 8 demo_anon_idle 5 = Some (n, s') /\ n = 1 /\ 0 <= n <= 5 /\ unseen (world_of demo_anon_idle) (world_of s').
Proof.
  destruct (vmo_reclaim_exact 8 5 demo_anon_idle {[+ 4096 +]} demo_anon_reached ltac:(lia) ltac:(vm_compute; lia)) as (n & s' & E & Hn & _ & _ & Hu).
  exists n, s'. split; [exact E |]. split; [| exact (conj Hn Hu)]. assert (E1 : fst <$> vmo_reclaim 8 demo_anon_idle 5 = Some 1) by (vm_compute; reflexivity). rewrite E in E1. by injection E1.
Defined.

Lemma vmo_stats_exact_witness : vmo_stats_get demo_wire = recount demo_wire /\ vmo_stats_get demo_wire = (1, 1, 0, 0).
Proof. split; [exact (vmo_stats_exact demo_wire {[+ 4096 +]} demo_wire_reached) | vm_compute; reflexivity]. Defined.

(** ** What the cache does not keep *)

Definition demo_map : demo := set_pt demo_wire (mkMaps [(1, 0x400000, 4096)] []).
Definition demo_empty_files : files := fun _ => (0, fun _ => 0).
Definition demo_cut : demo := vmo_file_truncated (set_fs demo_map demo_empty_files) demo_file 0.

(** C39. Truncation gives away a frame that a process has mapped.  A file is open,
    its page is wired and mapped; the file is truncated, as [ftruncate] and an
    opening that truncates do.  The page's frame goes back to the allocator
    while the mapping and the count of wires still name it, and the next page
    of memory anybody asks for is that frame. *)
Theorem truncate_frees_mapped_frame : exists s held f pml4 va phys o index,
  reaches s held /\ allowed (OpenTruncate demo_file 0 f) s held
  /\ p_wired (page s (default (0, 0) (page_find s o index))) = 1 /\ vmo_page_phys s o index = phys /\ vmm_get_phys_in pml4 va (pt s) = phys
  /\ let s' := vmo_file_truncated (set_fs s f) demo_file 0 in
     vmm_get_phys_in pml4 va (pt s') = phys /\ fst (PageCache.pmm_alloc_page (fr s')) = phys.
Proof.
  exists demo_map, {[+ 4096 +]}, demo_empty_files, 1, 0x400000, 4096, 4096, 0. split; [exact (reach_tables demo_wire _ _ demo_wire_reached) |]. split.
  - split; [vm_compute; reflexivity |]. split; [vm_compute; split; intros [=] |]. intros vn pos Hpos. replace (fs demo_map) with demo_files by (vm_compute; reflexivity).
    rewrite (proj2 (Z.leb_le 0 pos) Hpos), andb_true_r. assert (Hz : file_byte vn pos demo_empty_files = 0) by (cbn; unfold byte_at; cbn; by destruct (_ && _)). rewrite Hz.
    destruct (same_file demo_file vn) eqn:Es; [done |]. cbn. unfold byte_at, demo_files. rewrite bool_decide_eq_false_2; [cbn; by destruct (_ && _) |]. intros Ek. symmetry in Ek. apply same_file_key in Ek. congruence.
  - cbv zeta. fold demo_cut. split_and!; vm_compute; reflexivity.
Qed.

Definition demo_dirty : demo := after 8 (MarkDirty 4096 0) demo_map.
Definition demo_clean : demo := after 8 (Flush 4096) demo_dirty.

(** A store through a shared mapping can be lost.  A page of a file is mapped
    for writing, was marked dirty when it was mapped, and has been written back
    since, which leaves it mapped and writable.  A process stores a byte into it: readers
    of the file see the byte, but nothing marks the page: the byte is unsaved.
    A flush, the end of the mapping and the last release of the file all succeed
    and the byte never reaches the device. *)
Theorem shared_store_lost : exists s held o index j b,
  reaches s held /\ allowed (FS := files) (Store o index j b) s held /\ p_wired (page s (default (0, 0) (page_find s o index))) = 1 /\ 0 <= index * PAGE_SIZE + j < o_size (obj s o)
  /\ let s1 := after 8 (Store o index j b) s in
     let '(rc, s2) := vmo_flush s1 o in
     let s3 := vmo_put (vmo_unwire_page s2 o index) o in
     view s1 demo_file (index * PAGE_SIZE + j) = b /\ unsaved s1 demo_file (index * PAGE_SIZE + j) = true /\ rc = Errno.EMBK_OK /\ objs s3 !! o = None
     /\ file_byte demo_file (index * PAGE_SIZE + j) (fs s2) <> b /\ file_byte demo_file (index * PAGE_SIZE + j) (fs s3) <> b.
Proof.
  exists demo_clean, {[+ 4096 +]}, 4096, 0, 0, 9. split.
  - apply (reach_after 8 (Flush 4096) demo_dirty); [| exact demo_holds | vm_compute; lia]. apply (reach_after 8 (MarkDirty 4096 0) demo_map _ (reach_tables demo_wire _ _ demo_wire_reached)); [exact demo_holds | vm_compute; lia].
  - split; [split; [exact demo_holds |]; split; [done |]; eexists; vm_compute; split; [reflexivity | intros [=]] |].
    split; [vm_compute; reflexivity |]. split; [vm_compute; split; [intros [=] | reflexivity] |]. vm_compute. split_and!; [reflexivity | reflexivity | reflexivity | reflexivity | intros [=] | intros [=]].
Qed.
