(* ===== verification/Aes.v ===== *)
(** The AES block cipher: a model of kernel/crypto/aes.c.

    Bytes are integers of [0, 256), a 16-byte state and the round-key table are
    lists indexed with [rd] and updated with [wr].  An exclusive or of bytes is
    a byte, so the casts to [uint8_t] around them are not written; the one that
    drops a bit, in [xtime], is.

    The file shows that the tables are those the comment in the source derives
    (inverse in GF(2^8) followed by the affine map), that [gmul] is the product
    of polynomials modulo x^8+x^4+x^3+x+1, and that decryption and encryption
    are inverse permutations of the 16-byte blocks under every key, for both key
    sizes.  The known-answer vectors of the source's self test are evaluated. *)
From Stdlib Require Import Ring.
From stdpp Require Import strings.
From S2P Require Import Prelude Bytes.

(** ** Tables *)

Definition sbox : list Z :=
  [
   0x63; 0x7c; 0x77; 0x7b; 0xf2; 0x6b; 0x6f; 0xc5; 0x30; 0x01; 0x67; 0x2b; 0xfe; 0xd7; 0xab; 0x76;
   0xca; 0x82; 0xc9; 0x7d; 0xfa; 0x59; 0x47; 0xf0; 0xad; 0xd4; 0xa2; 0xaf; 0x9c; 0xa4; 0x72; 0xc0;
   0xb7; 0xfd; 0x93; 0x26; 0x36; 0x3f; 0xf7; 0xcc; 0x34; 0xa5; 0xe5; 0xf1; 0x71; 0xd8; 0x31; 0x15;
   0x04; 0xc7; 0x23; 0xc3; 0x18; 0x96; 0x05; 0x9a; 0x07; 0x12; 0x80; 0xe2; 0xeb; 0x27; 0xb2; 0x75;
   0x09; 0x83; 0x2c; 0x1a; 0x1b; 0x6e; 0x5a; 0xa0; 0x52; 0x3b; 0xd6; 0xb3; 0x29; 0xe3; 0x2f; 0x84;
   0x53; 0xd1; 0x00; 0xed; 0x20; 0xfc; 0xb1; 0x5b; 0x6a; 0xcb; 0xbe; 0x39; 0x4a; 0x4c; 0x58; 0xcf;
   0xd0; 0xef; 0xaa; 0xfb; 0x43; 0x4d; 0x33; 0x85; 0x45; 0xf9; 0x02; 0x7f; 0x50; 0x3c; 0x9f; 0xa8;
   0x51; 0xa3; 0x40; 0x8f; 0x92; 0x9d; 0x38; 0xf5; 0xbc; 0xb6; 0xda; 0x21; 0x10; 0xff; 0xf3; 0xd2;
   0xcd; 0x0c; 0x13; 0xec; 0x5f; 0x97; 0x44; 0x17; 0xc4; 0xa7; 0x7e; 0x3d; 0x64; 0x5d; 0x19; 0x73;
   0x60; 0x81; 0x4f; 0xdc; 0x22; 0x2a; 0x90; 0x88; 0x46; 0xee; 0xb8; 0x14; 0xde; 0x5e; 0x0b; 0xdb;
   0xe0; 0x32; 0x3a; 0x0a; 0x49; 0x06; 0x24; 0x5c; 0xc2; 0xd3; 0xac; 0x62; 0x91; 0x95; 0xe4; 0x79;
   0xe7; 0xc8; 0x37; 0x6d; 0x8d; 0xd5; 0x4e; 0xa9; 0x6c; 0x56; 0xf4; 0xea; 0x65; 0x7a; 0xae; 0x08;
   0xba; 0x78; 0x25; 0x2e; 0x1c; 0xa6; 0xb4; 0xc6; 0xe8; 0xdd; 0x74; 0x1f; 0x4b; 0xbd; 0x8b; 0x8a;
   0x70; 0x3e; 0xb5; 0x66; 0x48; 0x03; 0xf6; 0x0e; 0x61; 0x35; 0x57; 0xb9; 0x86; 0xc1; 0x1d; 0x9e;
   0xe1; 0xf8; 0x98; 0x11; 0x69; 0xd9; 0x8e; 0x94; 0x9b; 0x1e; 0x87; 0xe9; 0xce; 0x55; 0x28; 0xdf;
   0x8c; 0xa1; 0x89; 0x0d; 0xbf; 0xe6; 0x42; 0x68; 0x41; 0x99; 0x2d; 0x0f; 0xb0; 0x54; 0xbb; 0x16].

Definition inv_sbox : list Z :=
  [
   0x52; 0x09; 0x6a; 0xd5; 0x30; 0x36; 0xa5; 0x38; 0xbf; 0x40; 0xa3; 0x9e; 0x81; 0xf3; 0xd7; 0xfb;
   0x7c; 0xe3; 0x39; 0x82; 0x9b; 0x2f; 0xff; 0x87; 0x34; 0x8e; 0x43; 0x44; 0xc4; 0xde; 0xe9; 0xcb;
   0x54; 0x7b; 0x94; 0x32; 0xa6; 0xc2; 0x23; 0x3d; 0xee; 0x4c; 0x95; 0x0b; 0x42; 0xfa; 0xc3; 0x4e;
   0x08; 0x2e; 0xa1; 0x66; 0x28; 0xd9; 0x24; 0xb2; 0x76; 0x5b; 0xa2; 0x49; 0x6d; 0x8b; 0xd1; 0x25;
   0x72; 0xf8; 0xf6; 0x64; 0x86; 0x68; 0x98; 0x16; 0xd4; 0xa4; 0x5c; 0xcc; 0x5d; 0x65; 0xb6; 0x92;
   0x6c; 0x70; 0x48; 0x50; 0xfd; 0xed; 0xb9; 0xda; 0x5e; 0x15; 0x46; 0x57; 0xa7; 0x8d; 0x9d; 0x84;
   0x90; 0xd8; 0xab; 0x00; 0x8c; 0xbc; 0xd3; 0x0a; 0xf7; 0xe4; 0x58; 0x05; 0xb8; 0xb3; 0x45; 0x06;
   0xd0; 0x2c; 0x1e; 0x8f; 0xca; 0x3f; 0x0f; 0x02; 0xc1; 0xaf; 0xbd; 0x03; 0x01; 0x13; 0x8a; 0x6b;
   0x3a; 0x91; 0x11; 0x41; 0x4f; 0x67; 0xdc; 0xea; 0x97; 0xf2; 0xcf; 0xce; 0xf0; 0xb4; 0xe6; 0x73;
   0x96; 0xac; 0x74; 0x22; 0xe7; 0xad; 0x35; 0x85; 0xe2; 0xf9; 0x37; 0xe8; 0x1c; 0x75; 0xdf; 0x6e;
   0x47; 0xf1; 0x1a; 0x71; 0x1d; 0x29; 0xc5; 0x89; 0x6f; 0xb7; 0x62; 0x0e; 0xaa; 0x18; 0xbe; 0x1b;
   0xfc; 0x56; 0x3e; 0x4b; 0xc6; 0xd2; 0x79; 0x20; 0x9a; 0xdb; 0xc0; 0xfe; 0x78; 0xcd; 0x5a; 0xf4;
   0x1f; 0xdd; 0xa8; 0x33; 0x88; 0x07; 0xc7; 0x31; 0xb1; 0x12; 0x10; 0x59; 0x27; 0x80; 0xec; 0x5f;
   0x60; 0x51; 0x7f; 0xa9; 0x19; 0xb5; 0x4a; 0x0d; 0x2d; 0xe5; 0x7a; 0x9f; 0x93; 0xc9; 0x9c; 0xef;
   0xa0; 0xe0; 0x3b; 0x4d; 0xae; 0x2a; 0xf5; 0xb0; 0xc8; 0xeb; 0xbb; 0x3c; 0x83; 0x53; 0x99; 0x61;
   0x17; 0x2b; 0x04; 0x7e; 0xba; 0x77; 0xd6; 0x26; 0xe1; 0x69; 0x14; 0x63; 0x55; 0x21; 0x0c; 0x7d].

Definition rcon : list Z :=
  [
   0x00; 0x01; 0x02; 0x04; 0x08; 0x10; 0x20; 0x40;
   0x80; 0x1b; 0x36; 0x6c; 0xd8; 0xab; 0x4d].

(** ** Arithmetic in GF(2^8) *)

Definition xtime (x : Z) : Z :=
  !8 (Z.lxor (Z.shiftl x 1) (if negb (Z.land x 0x80 =? 0) then 0x1b else 0x00)).

(** [gmul_loop n p a b]: [n] more turns of the loop of [gmul]. *)
Fixpoint gmul_loop (n : nat) (p a b : Z) : Z :=
  match n with
  | O => p
  | S n' =>
    let p := if negb (Z.land b 1 =? 0) then Z.lxor p a else p in
    gmul_loop n' p (xtime a) (Z.shiftr b 1)
  end.
Definition gmul (a b : Z) : Z := gmul_loop 8 0 a b.

(** ** Key schedule *)

Definition AES_BLOCK_SIZE : Z := 16.
Definition AES256_NR : Z := 14.
Definition AES128_NR : Z := 10.
Definition AES256_NK : Z := 8.
Definition AES128_NK : Z := 4.
Definition AES_NB : Z := 4.

Definition rot_word (temp : list Z) : list Z :=
  let t0 := rd temp 0 in
  let temp := wr temp 0 (rd temp 1) in
  let temp := wr temp 1 (rd temp 2) in
  let temp := wr temp 2 (rd temp 3) in
  wr temp 3 t0.

Definition sub_word (temp : list Z) : list Z :=
  for_range 4 0 (fun k temp => wr temp k (rd sbox (rd temp k))) temp.

Definition expand_word (key_words i : Z) (rk : list Z) : list Z :=
  let temp := sub rk ((i - 1) * 4) 4 in
  let temp :=
    if i mod key_words =? 0 then
      let temp := sub_word (rot_word temp) in
      wr temp 0 (Z.lxor (rd temp 0) (rd rcon (i / key_words)))
    else if (6 <? key_words) && (i mod key_words =? 4) then sub_word temp
    else temp in
  for_range 4 0
    (fun k rk => wr rk (i * 4 + k) (Z.lxor (rd rk ((i - key_words) * 4 + k)) (rd temp k))) rk.

(** [rk] is the table as the caller's memory holds it before the call. *)
Definition key_expand (rk key : list Z) (nk nr : Z) : list Z :=
  let rk := blit rk 0 (sub key 0 (nk * 4)) in
  let total_words := AES_NB * (nr + 1) in
  for_range (Z.to_nat (total_words - nk)) nk (expand_word nk) rk.

Definition aes256_init (ctx key : list Z) : list Z := key_expand ctx key AES256_NK AES256_NR.
Definition aes128_init (ctx key : list Z) : list Z := key_expand ctx key AES128_NK AES128_NR.

(** ** Round transformations; [rk + off] of the source is the pair [rk], [off] *)

Definition add_round_key (state rk : list Z) (off : Z) : list Z :=
  for_range 16 0 (fun i state => wr state i (Z.lxor (rd state i) (rd rk (off + i)))) state.

Definition sub_bytes (state : list Z) : list Z :=
  for_range 16 0 (fun i state => wr state i (rd sbox (rd state i))) state.

Definition inv_sub_bytes (state : list Z) : list Z :=
  for_range 16 0 (fun i state => wr state i (rd inv_sbox (rd state i))) state.

(** [swap4 a b c d]: [t = s[a]; s[a] = s[b]; s[b] = s[c]; s[c] = s[d]; s[d] = t]. *)
Definition swap4 (a b c d : Z) (state : list Z) : list Z :=
  let t := rd state a in
  let state := wr state a (rd state b) in
  let state := wr state b (rd state c) in
  let state := wr state c (rd state d) in
  wr state d t.
Definition swap2 (a b : Z) (state : list Z) : list Z :=
  let t := rd state a in
  let state := wr state a (rd state b) in
  wr state b t.

Definition shift_rows (state : list Z) : list Z :=
  let state := swap4 1 5 9 13 state in
  let state := swap2 2 10 state in
  let state := swap2 6 14 state in
  swap4 15 11 7 3 state.

Definition inv_shift_rows (state : list Z) : list Z :=
  let state := swap4 13 9 5 1 state in
  let state := swap2 2 10 state in
  let state := swap2 6 14 state in
  swap4 3 7 11 15 state.

Definition put_column (state : list Z) (s b0 b1 b2 b3 : Z) : list Z :=
  wr (wr (wr (wr state s b0) (s + 1) b1) (s + 2) b2) (s + 3) b3.

Definition mix_columns (state : list Z) : list Z :=
  for_range 4 0
    (fun c state =>
       let s := c * 4 in
       let a0 := rd state s in
       let a1 := rd state (s + 1) in
       let a2 := rd state (s + 2) in
       let a3 := rd state (s + 3) in
       put_column state s
         (Z.lxor (Z.lxor (Z.lxor (gmul a0 2) (gmul a1 3)) a2) a3)
         (Z.lxor (Z.lxor (Z.lxor a0 (gmul a1 2)) (gmul a2 3)) a3)
         (Z.lxor (Z.lxor (Z.lxor a0 a1) (gmul a2 2)) (gmul a3 3))
         (Z.lxor (Z.lxor (Z.lxor (gmul a0 3) a1) a2) (gmul a3 2))) state.

Definition inv_mix_columns (state : list Z) : list Z :=
  for_range 4 0
    (fun c state =>
       let s := c * 4 in
       let a0 := rd state s in
       let a1 := rd state (s + 1) in
       let a2 := rd state (s + 2) in
       let a3 := rd state (s + 3) in
       put_column state s
         (Z.lxor (Z.lxor (Z.lxor (gmul a0 14) (gmul a1 11)) (gmul a2 13)) (gmul a3 9))
         (Z.lxor (Z.lxor (Z.lxor (gmul a0 9) (gmul a1 14)) (gmul a2 11)) (gmul a3 13))
         (Z.lxor (Z.lxor (Z.lxor (gmul a0 13) (gmul a1 9)) (gmul a2 14)) (gmul a3 11))
         (Z.lxor (Z.lxor (Z.lxor (gmul a0 11) (gmul a1 13)) (gmul a2 9)) (gmul a3 14))) state.

(** ** The cipher and its inverse; the result is what is copied to [out] *)

Definition encrypt_block (rk : list Z) (nr : Z) (inp : list Z) : list Z :=
  let state := add_round_key (sub inp 0 16) rk 0 in
  let state :=
    for_range (Z.to_nat (nr - 1)) 1
      (fun round state =>
         add_round_key (mix_columns (shift_rows (sub_bytes state))) rk (round * 16)) state in
  add_round_key (shift_rows (sub_bytes state)) rk (nr * 16).

Definition decrypt_block (rk : list Z) (nr : Z) (inp : list Z) : list Z :=
  let state := add_round_key (sub inp 0 16) rk (nr * 16) in
  let state :=
    for_down (Z.to_nat (nr - 1)) (nr - 1)
      (fun round state =>
         inv_mix_columns (add_round_key (inv_sub_bytes (inv_shift_rows state)) rk (round * 16)))
      state in
  add_round_key (inv_sub_bytes (inv_shift_rows state)) rk 0.

Definition aes256_encrypt_block (ctx inp : list Z) : list Z := encrypt_block ctx AES256_NR inp.
Definition aes128_encrypt_block (ctx inp : list Z) : list Z := encrypt_block ctx AES128_NR inp.
Definition aes256_decrypt_block (ctx inp : list Z) : list Z := decrypt_block ctx AES256_NR inp.
Definition aes128_decrypt_block (ctx inp : list Z) : list Z := decrypt_block ctx AES128_NR inp.

(** A local context before it is initialised: its bytes are not read. *)
Definition raw256 : list Z := replicate 240 0.
Definition raw128 : list Z := replicate 176 0.

(** The text of the known-answer vectors of the self tests. *)
Definition hex_value (c : Z) : Z := if c <=? 57 then !8 (c - 48) else !8 (c - 97 + 10).
Definition hex_to_bytes (hex : list Z) (len : Z) : list Z :=
  map (fun i => let i := Z.of_nat i in
         !8 (Z.lor (Z.shiftl (hex_value (rd hex (i * 2))) 4) (hex_value (rd hex (i * 2 + 1)))))
      (seq 0 (Z.to_nat len)).

(** The vectors of FIPS-197, C.3 and C.1, as the self test checks them. *)
Example fips197_vectors :
  let key := hex_to_bytes (str "000102030405060708090a0b0c0d0e0f101112131415161718191a1b1c1d1e1f") 32 in
  let pt := hex_to_bytes (str "00112233445566778899aabbccddeeff") 16 in
  aes256_encrypt_block (aes256_init raw256 key) pt
  = hex_to_bytes (str "8ea2b7ca516745bfeafc49904b496089") 16 /\
  aes128_encrypt_block (aes128_init raw128 (sub key 0 16)) pt
  = hex_to_bytes (str "69c4e0d86a7b0430d8cdb78070b4c55a") 16.
Proof. vm_compute. split; reflexivity. Qed.

(** ** The field, from first principles

    The product of two polynomials over GF(2) and its remainder modulo
    x^8+x^4+x^3+x+1, and the S-box as the source's comment derives it. *)

Definition poly_mul (a b : Z) : Z :=
  fold_left (fun p i => if Z.testbit b (Z.of_nat i) then Z.lxor p (Z.shiftl a (Z.of_nat i)) else p)
    (seq 0 8) 0.
Definition poly_mod (p : Z) : Z :=
  fold_left (fun p i => if Z.testbit p (8 + Z.of_nat i) then Z.lxor p (Z.shiftl 0x11B (Z.of_nat i)) else p)
    (rev (seq 0 7)) p.
Definition field_mul (a b : Z) : Z := poly_mod (poly_mul a b).

Definition rotl8 (b n : Z) : Z := Z.lor (!8 (Z.shiftl b n)) (Z.shiftr b (8 - n)).
Definition affine (b : Z) : Z :=
  Z.lxor (Z.lxor (Z.lxor (Z.lxor (Z.lxor b (rotl8 b 1)) (rotl8 b 2)) (rotl8 b 3)) (rotl8 b 4)) 0x63.

(** [b] is the inverse of [a], with 0 for 0. *)
Definition field_inverse (a b : Z) : Prop := a = 0 /\ b = 0 \/ field_mul a b = 1.

(** ** Facts checked byte by byte *)

Definition all_bytes (f : Z -> bool) : bool := forallb (fun i => f (Z.of_nat i)) (seq 0 256).

Lemma all_bytes_spec f x : all_bytes f = true -> is_byte x -> f x = true.
Proof.
  intros Hf Hx. unfold all_bytes in Hf. rewrite forallb_forall in Hf. unfold is_byte in Hx.
  rewrite <- (Z2Nat.id x) by lia. apply Hf, in_seq. lia.
Qed.

(** A decidable statement about every byte, by evaluation. *)
Ltac by_bytes x Hx :=
  pattern x;
  match goal with
  | |- ?P x =>
    let f := constr:(fun x : Z => bool_decide (P x)) in
    apply (bool_decide_unpack (P x));
    apply Is_true_true, (all_bytes_spec f x); [vm_compute; reflexivity | exact Hx]
  end.

Lemma xtime_byte x : is_byte (xtime x).
Proof. apply u8_range. Qed.

(** Equalities of exclusive ors, by the laws of the ring of booleans. *)
Ltac xor_ring :=
  apply Z.bits_inj'; intros ?i _; rewrite ?Z.lxor_spec, ?Z.bits_0; ring.

(** A conditional exclusive or with a constant, on a bit, is linear. *)
Lemma fold_bit_lxor k c x y :
  (if Z.testbit (Z.lxor x y) k then Z.lxor (Z.lxor x y) c else Z.lxor x y) =
  Z.lxor (if Z.testbit x k then Z.lxor x c else x) (if Z.testbit y k then Z.lxor y c else y).
Proof. rewrite Z.lxor_spec. destruct (Z.testbit x k), (Z.testbit y k); simpl; xor_ring. Qed.

Lemma u8_lxor x y : !8 (Z.lxor x y) = Z.lxor (!8 x) (!8 y).
Proof.
  unfold u8. rewrite <- !Z.land_ones by lia. apply Z.bits_inj'. intros i _.
  rewrite ?Z.land_spec, ?Z.lxor_spec, ?Z.land_spec. ring.
Qed.

Lemma land_0x80 x : negb (Z.land x 0x80 =? 0) = Z.testbit x 7.
Proof. change 0x80 with (Z.shiftl 1 7). apply land_bit_test; lia. Qed.

Lemma xtime_lxor x y : xtime (Z.lxor x y) = Z.lxor (xtime x) (xtime y).
Proof.
  unfold xtime. rewrite !land_0x80, <- u8_lxor, Z.lxor_spec, Z.shiftl_lxor. f_equal.
  destruct (Z.testbit x 7), (Z.testbit y 7); simpl; xor_ring.
Qed.

Lemma lxor_byte x y : is_byte x -> is_byte y -> is_byte (Z.lxor x y).
Proof. intros. apply (lxor_bounded 8); [lia | done | done]. Qed.

Lemma gmul_loop_byte n p a b : is_byte p -> is_byte a -> is_byte (gmul_loop n p a b).
Proof.
  revert p a b. induction n as [| n IH]; intros p a b Hp Ha; [done |]. simpl.
  apply IH; [case_if; [by apply lxor_byte | done] | apply xtime_byte].
Qed.

Lemma gmul_byte a b : is_byte a -> is_byte (gmul a b).
Proof. intros. apply gmul_loop_byte; [by vm_compute | done]. Qed.

#[export] Hint Resolve xtime_byte lxor_byte gmul_byte : embk.

Lemma gmul_loop_lxor n p q a a' b :
  gmul_loop n (Z.lxor p q) (Z.lxor a a') b = Z.lxor (gmul_loop n p a b) (gmul_loop n q a' b).
Proof.
  revert p q a a' b. induction n as [| n IH]; intros p q a a' b; [done |]. simpl.
  rewrite xtime_lxor, <- IH. case_if; [| done]. f_equal. xor_ring.
Qed.

Lemma gmul_lxor a a' b : gmul (Z.lxor a a') b = Z.lxor (gmul a b) (gmul a' b).
Proof. unfold gmul. by rewrite <- gmul_loop_lxor. Qed.

Lemma sbox_byte x : is_byte x -> is_byte (rd sbox x).
Proof.
  intros Hx. assert (H : 0 <= rd sbox x /\ rd sbox x < 256) by by_bytes x Hx.
  exact H.
Qed.

Lemma inv_sbox_byte x : is_byte x -> is_byte (rd inv_sbox x).
Proof.
  intros Hx. assert (H : 0 <= rd inv_sbox x /\ rd inv_sbox x < 256) by by_bytes x Hx.
  exact H.
Qed.

Lemma inv_sbox_sbox x : is_byte x -> rd inv_sbox (rd sbox x) = x.
Proof. intros Hx. by_bytes x Hx. Qed.

Lemma sbox_inv_sbox x : is_byte x -> rd sbox (rd inv_sbox x) = x.
Proof. intros Hx. by_bytes x Hx. Qed.

#[export] Hint Resolve sbox_byte inv_sbox_byte : embk.

(** The entries of the product of the two column matrices: 1 on the diagonal,
    0 elsewhere, for each of the four rotations of a row. *)
Lemma unmix_diag x :
  is_byte x ->
  Z.lxor (Z.lxor (Z.lxor (gmul (gmul x 2) 14) (gmul x 11)) (gmul x 13)) (gmul (gmul x 3) 9) = x.
Proof. intros Hx. by_bytes x Hx. Qed.
Lemma unmix_1 x :
  is_byte x ->
  Z.lxor (Z.lxor (Z.lxor (gmul (gmul x 3) 14) (gmul (gmul x 2) 11)) (gmul x 13)) (gmul x 9) = 0.
Proof. intros Hx. by_bytes x Hx. Qed.
Lemma unmix_2 x :
  is_byte x ->
  Z.lxor (Z.lxor (Z.lxor (gmul x 14) (gmul (gmul x 3) 11)) (gmul (gmul x 2) 13)) (gmul x 9) = 0.
Proof. intros Hx. by_bytes x Hx. Qed.
Lemma unmix_3 x :
  is_byte x ->
  Z.lxor (Z.lxor (Z.lxor (gmul x 14) (gmul x 11)) (gmul (gmul x 3) 13)) (gmul (gmul x 2) 9) = 0.
Proof. intros Hx. by_bytes x Hx. Qed.

Lemma remix_diag x :
  is_byte x ->
  Z.lxor (Z.lxor (Z.lxor (gmul (gmul x 14) 2) (gmul (gmul x 9) 3)) (gmul x 13)) (gmul x 11) = x.
Proof. intros Hx. by_bytes x Hx. Qed.
Lemma remix_1 x :
  is_byte x ->
  Z.lxor (Z.lxor (Z.lxor (gmul (gmul x 11) 2) (gmul (gmul x 14) 3)) (gmul x 9)) (gmul x 13) = 0.
Proof. intros Hx. by_bytes x Hx. Qed.
Lemma remix_2 x :
  is_byte x ->
  Z.lxor (Z.lxor (Z.lxor (gmul (gmul x 13) 2) (gmul (gmul x 11) 3)) (gmul x 14)) (gmul x 9) = 0.
Proof. intros Hx. by_bytes x Hx. Qed.
Lemma remix_3 x :
  is_byte x ->
  Z.lxor (Z.lxor (Z.lxor (gmul (gmul x 9) 2) (gmul (gmul x 13) 3)) (gmul x 11)) (gmul x 14) = 0.
Proof. intros Hx. by_bytes x Hx. Qed.

(** ** Columns *)

(** One byte of a column as [mix_columns] computes it, from the byte of its own
    row on; the four rows of a column differ by a rotation. *)
Definition mixed (a0 a1 a2 a3 : Z) : Z :=
  Z.lxor (Z.lxor (Z.lxor (gmul a0 2) (gmul a1 3)) a2) a3.
Definition unmixed (a0 a1 a2 a3 : Z) : Z :=
  Z.lxor (Z.lxor (Z.lxor (gmul a0 14) (gmul a1 11)) (gmul a2 13)) (gmul a3 9).

Lemma mixed_byte a0 a1 a2 a3 :
  is_byte a0 -> is_byte a1 -> is_byte a2 -> is_byte a3 -> is_byte (mixed a0 a1 a2 a3).
Proof. intros. unfold mixed. eauto 10 with embk. Qed.
Lemma unmixed_byte a0 a1 a2 a3 :
  is_byte a0 -> is_byte a1 -> is_byte a2 -> is_byte a3 -> is_byte (unmixed a0 a1 a2 a3).
Proof. intros. unfold unmixed. eauto 10 with embk. Qed.
#[export] Hint Resolve mixed_byte unmixed_byte : embk.

(** An exclusive or that regroups as the left sides of four known equalities. *)
Ltac xor_by p0 p1 p2 p3 :=
  match type of p0 with ?l0 = _ =>
  match type of p1 with ?l1 = _ =>
  match type of p2 with ?l2 = _ =>
  match type of p3 with ?l3 = _ =>
    transitivity (Z.lxor (Z.lxor (Z.lxor l0 l1) l2) l3);
    [xor_ring | rewrite p0, p1, p2, p3; by rewrite !Z.lxor_0_r]
  end end end end.

Lemma unmixed_mixed a0 a1 a2 a3 :
  is_byte a0 -> is_byte a1 -> is_byte a2 -> is_byte a3 ->
  unmixed (mixed a0 a1 a2 a3) (mixed a1 a2 a3 a0) (mixed a2 a3 a0 a1) (mixed a3 a0 a1 a2) = a0.
Proof.
  intros H0 H1 H2 H3. unfold unmixed, mixed.
  rewrite !gmul_lxor.
  xor_by (unmix_diag a0 H0) (unmix_1 a1 H1) (unmix_2 a2 H2) (unmix_3 a3 H3).
Qed.

Lemma mixed_unmixed a0 a1 a2 a3 :
  is_byte a0 -> is_byte a1 -> is_byte a2 -> is_byte a3 ->
  mixed (unmixed a0 a1 a2 a3) (unmixed a1 a2 a3 a0) (unmixed a2 a3 a0 a1) (unmixed a3 a0 a1 a2) = a0.
Proof.
  intros H0 H1 H2 H3. unfold unmixed, mixed.
  rewrite !gmul_lxor.
  xor_by (remix_diag a0 H0) (remix_1 a1 H1) (remix_2 a2 H2) (remix_3 a3 H3).
Qed.

(** ** States *)

Definition is_block (s : list Z) : Prop := length s = 16%nat /\ Forall is_byte s.

Lemma block_cells s :
  is_block s ->
  exists s0 s1 s2 s3 s4 s5 s6 s7 s8 s9 s10 s11 s12 s13 s14 s15,
    s = [s0; s1; s2; s3; s4; s5; s6; s7; s8; s9; s10; s11; s12; s13; s14; s15].
Proof.
  intros [Hl _]. do 16 (destruct s as [| ? s]; [discriminate |]).
  destruct s; [| discriminate]. do 16 eexists. reflexivity.
Qed.

(** An equality of lists of known length, cell by cell. *)
Ltac each_cell tac := repeat (apply (f_equal2 cons); [tac |]); reflexivity.

(** The two matrices act on each column by rotations of the same row. *)
Lemma mix_columns_cells s0 s1 s2 s3 s4 s5 s6 s7 s8 s9 s10 s11 s12 s13 s14 s15 :
  mix_columns [s0; s1; s2; s3; s4; s5; s6; s7; s8; s9; s10; s11; s12; s13; s14; s15] =
  [mixed s0 s1 s2 s3; mixed s1 s2 s3 s0; mixed s2 s3 s0 s1; mixed s3 s0 s1 s2;
   mixed s4 s5 s6 s7; mixed s5 s6 s7 s4; mixed s6 s7 s4 s5; mixed s7 s4 s5 s6;
   mixed s8 s9 s10 s11; mixed s9 s10 s11 s8; mixed s10 s11 s8 s9; mixed s11 s8 s9 s10;
   mixed s12 s13 s14 s15; mixed s13 s14 s15 s12; mixed s14 s15 s12 s13; mixed s15 s12 s13 s14].
Proof.
  lazy -[gmul Z.lxor]. each_cell xor_ring.
Qed.

Lemma inv_mix_columns_cells s0 s1 s2 s3 s4 s5 s6 s7 s8 s9 s10 s11 s12 s13 s14 s15 :
  inv_mix_columns [s0; s1; s2; s3; s4; s5; s6; s7; s8; s9; s10; s11; s12; s13; s14; s15] =
  [unmixed s0 s1 s2 s3; unmixed s1 s2 s3 s0; unmixed s2 s3 s0 s1; unmixed s3 s0 s1 s2;
   unmixed s4 s5 s6 s7; unmixed s5 s6 s7 s4; unmixed s6 s7 s4 s5; unmixed s7 s4 s5 s6;
   unmixed s8 s9 s10 s11; unmixed s9 s10 s11 s8; unmixed s10 s11 s8 s9; unmixed s11 s8 s9 s10;
   unmixed s12 s13 s14 s15; unmixed s13 s14 s15 s12; unmixed s14 s15 s12 s13; unmixed s15 s12 s13 s14].
Proof.
  lazy -[gmul Z.lxor]. each_cell xor_ring.
Qed.

(** Opens a block into its sixteen bytes. *)
Ltac open_block H :=
  let Hb := fresh "Hb" in
  destruct (block_cells _ H) as
    (?s0 & ?s1 & ?s2 & ?s3 & ?s4 & ?s5 & ?s6 & ?s7 & ?s8 & ?s9 & ?s10 & ?s11 & ?s12 & ?s13 & ?s14 & ?s15 & ->);
  destruct H as [_ Hb]; rewrite !Forall_cons in Hb; destruct_and? Hb.

Lemma mix_columns_block s : is_block s -> is_block (mix_columns s).
Proof.
  intros H. open_block H. rewrite mix_columns_cells.
  split; [done |]. repeat (apply Forall_cons_2; [auto with embk |]). apply Forall_nil_2.
Qed.

Lemma inv_mix_columns_block s : is_block s -> is_block (inv_mix_columns s).
Proof.
  intros H. open_block H. rewrite inv_mix_columns_cells.
  split; [done |]. repeat (apply Forall_cons_2; [auto with embk |]). apply Forall_nil_2.
Qed.

Lemma inv_mix_mix s : is_block s -> inv_mix_columns (mix_columns s) = s.
Proof.
  intros H. open_block H. rewrite mix_columns_cells, inv_mix_columns_cells.
  each_cell ltac:(by apply unmixed_mixed).
Qed.

Lemma mix_inv_mix s : is_block s -> mix_columns (inv_mix_columns s) = s.
Proof.
  intros H. open_block H. rewrite inv_mix_columns_cells, mix_columns_cells.
  each_cell ltac:(by apply mixed_unmixed).
Qed.

Lemma shift_rows_block s : is_block s -> is_block (shift_rows s).
Proof.
  intros H. open_block H. split; [done |].
  repeat (apply Forall_cons_2; [assumption |]). apply Forall_nil_2.
Qed.

Lemma inv_shift_rows_block s : is_block s -> is_block (inv_shift_rows s).
Proof.
  intros H. open_block H. split; [done |].
  repeat (apply Forall_cons_2; [assumption |]). apply Forall_nil_2.
Qed.

Lemma inv_shift_shift s : is_block s -> inv_shift_rows (shift_rows s) = s.
Proof. intros H. by open_block H. Qed.

Lemma shift_inv_shift s : is_block s -> shift_rows (inv_shift_rows s) = s.
Proof. intros H. by open_block H. Qed.

(** The transformations that treat each byte alone. *)
Lemma cellwise_block (f : Z -> Z -> Z) s :
  is_block s -> (forall i x, is_byte x -> is_byte (f i x)) ->
  is_block (for_range 16 0 (fun i s => wr s i (f i (rd s i))) s).
Proof.
  intros [Hl Hb] Hf. rewrite for_range_imap by done. split; [by rewrite length_imap |].
  apply Forall_lookup. intros i y Hy. rewrite list_lookup_imap in Hy.
  destruct (s !! i) as [x |] eqn:E; [| done]. simplify_eq/=. apply Hf.
  by eapply Forall_lookup_1.
Qed.

Lemma cellwise_undo (f g : Z -> Z -> Z) s :
  is_block s -> (forall i x, is_byte x -> g i (f i x) = x) ->
  for_range 16 0 (fun i s => wr s i (g i (rd s i)))
    (for_range 16 0 (fun i s => wr s i (f i (rd s i))) s) = s.
Proof.
  intros [Hl Hb] Hfg. rewrite (for_range_imap f) by done.
  rewrite for_range_imap by (by rewrite length_imap).
  apply list_eq. intros i. rewrite !list_lookup_imap.
  destruct (s !! i) as [x |] eqn:E; [| done]. simpl. f_equal. apply Hfg.
  by eapply Forall_lookup_1.
Qed.

Lemma sub_bytes_block s : is_block s -> is_block (sub_bytes s).
Proof. intros. apply (cellwise_block (fun _ x => rd sbox x)); auto with embk. Qed.
Lemma inv_sub_bytes_block s : is_block s -> is_block (inv_sub_bytes s).
Proof. intros. apply (cellwise_block (fun _ x => rd inv_sbox x)); auto with embk. Qed.

Lemma inv_sub_sub s : is_block s -> inv_sub_bytes (sub_bytes s) = s.
Proof.
  intros. apply (cellwise_undo (fun _ x => rd sbox x) (fun _ x => rd inv_sbox x)); [done |].
  intros _. apply inv_sbox_sbox.
Qed.
Lemma sub_inv_sub s : is_block s -> sub_bytes (inv_sub_bytes s) = s.
Proof.
  intros. apply (cellwise_undo (fun _ x => rd inv_sbox x) (fun _ x => rd sbox x)); [done |].
  intros _. apply sbox_inv_sbox.
Qed.

Lemma add_round_key_block s rk off : is_block s -> Forall is_byte rk -> is_block (add_round_key s rk off).
Proof.
  intros. apply (cellwise_block (fun i x => Z.lxor x (rd rk (off + i)))); auto with embk.
Qed.
Lemma add_round_key_twice s rk off : is_block s -> add_round_key (add_round_key s rk off) rk off = s.
Proof.
  intros. apply (cellwise_undo (fun i x => Z.lxor x (rd rk (off + i)))
                               (fun i x => Z.lxor x (rd rk (off + i)))); [done |].
  intros i x _. by rewrite Z.lxor_assoc, Z.lxor_nilpotent, Z.lxor_0_r.
Qed.

Create HintDb block discriminated.
#[export] Hint Resolve mix_columns_block inv_mix_columns_block shift_rows_block inv_shift_rows_block
  sub_bytes_block inv_sub_bytes_block add_round_key_block : block.
#[local] Opaque sub_bytes inv_sub_bytes shift_rows inv_shift_rows mix_columns inv_mix_columns
  add_round_key.

(** ** The cipher is a permutation *)

Lemma sub_block s : is_block s -> sub s 0 16 = s.
Proof. intros [Hl _]. rewrite sub_0. apply firstn_all2. lia. Qed.

Lemma for_down_ind {St} (I : St -> Prop) (f : Z -> St -> St) n p s :
  I s -> (forall q s, I s -> I (f q s)) -> I (for_down n p f s).
Proof. intros Hs Hf. revert p s Hs. induction n as [| n IH]; intros p s Hs; simpl; auto. Qed.

Lemma encrypt_rounds_block rk n s :
  Forall is_byte rk -> is_block s ->
  is_block (for_range n 1 (fun round state =>
    add_round_key (mix_columns (shift_rows (sub_bytes state))) rk (round * 16)) s).
Proof.
  intros Hrk Hs. apply (for_range_ind (fun _ => is_block)); auto with block nocore.
Qed.

Lemma encrypt_block_block rk nr s :
  Forall is_byte rk -> is_block s -> is_block (encrypt_block rk nr s).
Proof.
  intros Hrk Hs. unfold encrypt_block. rewrite sub_block by done.
  pose proof (encrypt_rounds_block rk (Z.to_nat (nr - 1)) (add_round_key s rk 0) Hrk ltac:(auto with block nocore)).
  auto with block nocore.
Qed.

Lemma decrypt_rounds_block rk n p s :
  Forall is_byte rk -> is_block s ->
  is_block (for_down n p (fun round state =>
    inv_mix_columns (add_round_key (inv_sub_bytes (inv_shift_rows state)) rk (round * 16))) s).
Proof.
  intros Hrk Hs. apply for_down_ind; [done |]. auto with block nocore.
Qed.

Lemma decrypt_block_block rk nr s :
  Forall is_byte rk -> is_block s -> is_block (decrypt_block rk nr s).
Proof.
  intros Hrk Hs. unfold decrypt_block. rewrite sub_block by done.
  pose proof (decrypt_rounds_block rk (Z.to_nat (nr - 1)) (nr - 1) (add_round_key s rk (nr * 16)) Hrk
                ltac:(auto with block nocore)).
  auto with block nocore.
Qed.

#[export] Hint Resolve encrypt_block_block decrypt_block_block : block.

Lemma decrypt_encrypt rk nr s :
  1 <= nr -> Forall is_byte rk -> is_block s ->
  decrypt_block rk nr (encrypt_block rk nr s) = s.
Proof.
  intros Hnr Hrk Hs. unfold decrypt_block. rewrite sub_block by auto with block nocore.
  unfold encrypt_block. rewrite sub_block by done.
  set (f := fun round state => add_round_key (mix_columns _) _ _).
  set (g := fun round state => inv_mix_columns _). set (n := Z.to_nat (nr - 1)).
  pose proof (encrypt_rounds_block rk n (add_round_key s rk 0) Hrk ltac:(auto with block nocore)) as Hn.
  fold f in Hn. rewrite add_round_key_twice by auto with block nocore.
  replace (nr - 1) with (1 + Z.of_nat n - 1) by lia.
  pose proof (for_down_undoes is_block (fun s => shift_rows (sub_bytes s)) f g n 1) as Hu.
  rewrite Hu; [| auto with block nocore |].
  - rewrite inv_shift_shift, inv_sub_sub, add_round_key_twice by auto 10 with block nocore.
    done.
  - intros q x _ Hx. unfold f, g. split; [auto 10 with block nocore |].
    rewrite inv_shift_shift, inv_sub_sub, add_round_key_twice by auto 10 with block nocore.
    by rewrite inv_mix_mix by auto 10 with block nocore.
Qed.

Lemma encrypt_decrypt rk nr s :
  1 <= nr -> Forall is_byte rk -> is_block s ->
  encrypt_block rk nr (decrypt_block rk nr s) = s.
Proof.
  intros Hnr Hrk Hs. unfold encrypt_block. rewrite sub_block by auto with block nocore.
  unfold decrypt_block. rewrite sub_block by done.
  set (f := fun round state => add_round_key (mix_columns _) _ _).
  set (g := fun round state => inv_mix_columns _). set (n := Z.to_nat (nr - 1)).
  pose proof (decrypt_rounds_block rk n (nr - 1) (add_round_key s rk (nr * 16)) Hrk ltac:(auto with block nocore)) as Hn.
  fold g in Hn. rewrite add_round_key_twice by auto with block nocore.
  replace (nr - 1) with (1 + Z.of_nat n - 1) by lia.
  pose proof (for_range_undoes is_block (fun s => inv_sub_bytes (inv_shift_rows s)) f g n 1) as Hu.
  rewrite Hu; [| auto with block nocore |].
  - rewrite sub_inv_sub, shift_inv_shift, add_round_key_twice by auto 10 with block nocore.
    done.
  - intros q x _ Hx. unfold f, g. split; [auto 10 with block nocore |].
    rewrite sub_inv_sub, shift_inv_shift, mix_inv_mix, add_round_key_twice
      by auto 10 with block nocore.
    done.
Qed.

(** ** The key schedule *)

(** Every word but the first [nk] is computed from words already written, so the
    schedule is a function of the key and not of the memory it overwrites. *)
Lemma for_wr_length {A} (f : Z -> list A -> A) (g : Z -> Z) n p (l : list A) :
  length (for_range n p (fun k l => wr l (g k) (f k l)) l) = length l.
Proof.
  revert p l. induction n as [| n IH]; intros p l; [done |]. simpl. rewrite IH. apply wr_length.
Qed.

Lemma for_wr_Forall {A} (P : A -> Prop) (f : Z -> list A -> A) (g : Z -> Z) n p (l : list A) :
  (forall k l, Forall P l -> P (f k l)) -> Forall P l ->
  Forall P (for_range n p (fun k l => wr l (g k) (f k l)) l).
Proof.
  intros Hf. revert p l. induction n as [| n IH]; intros p l Hl; [done |]. simpl.
  apply IH, wr_Forall; auto.
Qed.

Lemma sub_word_bytes temp : Forall is_byte temp -> Forall is_byte (sub_word temp).
Proof.
  intros. apply (for_wr_Forall is_byte (fun k temp => rd sbox (rd temp k)) (fun k => k)); [| done].
  auto with embk.
Qed.

Lemma rot_word_bytes temp : Forall is_byte temp -> Forall is_byte (rot_word temp).
Proof.
  intros H. unfold rot_word.
  assert (Hm : forall l i j, Forall is_byte l -> Forall is_byte (wr l i (rd l j)))
    by (intros; apply wr_Forall; auto with embk).
  apply wr_Forall; auto with embk.
Qed.

Lemma expand_word_bytes nk i rk : Forall is_byte rk -> Forall is_byte (expand_word nk i rk).
Proof.
  intros H. unfold expand_word. set (temp := if (_ : bool) then _ else _).
  assert (Ht : Forall is_byte temp).
  { assert (Hs : Forall is_byte (sub rk ((i - 1) * 4) 4)) by by apply Bytes.sub_bytes.
    unfold temp. repeat case_if; [| by apply sub_word_bytes | done].
    assert (Hw : Forall is_byte (sub_word (rot_word (sub rk ((i - 1) * 4) 4))))
      by by apply sub_word_bytes, rot_word_bytes.
    apply wr_Forall; [done |]. apply lxor_byte; [auto with embk |].
    apply rd_byte. unfold rcon. repeat (apply Forall_cons_2; [by vm_compute |]). apply Forall_nil_2. }
  apply (for_wr_Forall is_byte (fun k rk => Z.lxor (rd rk ((i - nk) * 4 + k)) (rd temp k))); [| done].
  auto with embk.
Qed.

Lemma key_expand_bytes rk key nk nr :
  Forall is_byte rk -> Forall is_byte key -> Forall is_byte (key_expand rk key nk nr).
Proof.
  intros Hrk Hkey. unfold key_expand.
  apply (for_range_ind (fun _ => Forall is_byte)).
  - unfold blit. rewrite !Forall_app.
    split_and!; [by apply Forall_take | by apply Bytes.sub_bytes | by apply Forall_drop].
  - intros q s _. apply expand_word_bytes.
Qed.

(** Two tables of one length that hold the same first [n] bytes. *)
Definition agree (n : Z) (l l' : list Z) : Prop :=
  length l = length l' /\ forall i, 0 <= i < n -> rd l i = rd l' i.

Lemma agree_wr n l l' v :
  agree n l l' -> 0 <= n < zlen l -> agree (n + 1) (wr l n v) (wr l' n v).
Proof.
  unfold zlen. intros [Hl Ha] Hn. split; [by rewrite !wr_length |]. intros i Hi.
  destruct (decide (i = n)) as [-> |]; [rewrite !rd_wr_eq by lia; done |].
  rewrite !rd_wr_ne by lia. apply Ha. lia.
Qed.

Lemma rd_ext l l' : length l = length l' -> (forall i, 0 <= i < zlen l -> rd l i = rd l' i) -> l = l'.
Proof.
  unfold zlen. intros Hl Hr. apply list_eq_same_length with (length l); [done | done |].
  intros i x y Hi Hx Hy. specialize (Hr (Z.of_nat i) ltac:(lia)).
  unfold rd in Hr. rewrite Nat2Z.id, Hx, Hy in Hr. done.
Qed.

Lemma agree_sub n l l' o k :
  agree n l l' -> 0 <= o -> 0 <= k -> o + k <= n -> n <= zlen l -> sub l o k = sub l' o k.
Proof.
  intros [Hl Ha] Ho Hk Hn Hz.
  assert (zlen l = zlen l') by (unfold zlen; lia).
  pose proof (sub_length l o k). pose proof (sub_length l' o k).
  apply rd_ext; [unfold zlen in *; lia |].
  intros i Hi. rewrite !rd_sub by lia. apply Ha. lia.
Qed.

Lemma expand_word_agree nk i rk rk' :
  1 <= nk <= i -> agree (i * 4) rk rk' -> i * 4 + 4 <= zlen rk ->
  agree ((i + 1) * 4) (expand_word nk i rk) (expand_word nk i rk').
Proof.
  intros Hi Ha Hl. unfold expand_word.
  rewrite <- (agree_sub _ _ _ ((i - 1) * 4) 4 Ha) by lia.
  set (temp := if (_ : bool) then _ else _).
  assert (Hw : forall k l l', 0 <= k < 4 -> zlen l = zlen rk -> agree (i * 4 + k) l l' ->
    let f l := wr l (i * 4 + k) (Z.lxor (rd l ((i - nk) * 4 + k)) (rd temp k)) in
    zlen (f l) = zlen rk /\ agree (i * 4 + (k + 1)) (f l) (f l')).
  { intros k l l' Hk Hll Hal. simpl. split; [unfold zlen in *; by rewrite wr_length |].
    replace (rd l' ((i - nk) * 4 + k)) with (rd l ((i - nk) * 4 + k)) by (apply Hal; lia).
    rewrite Z.add_assoc. apply agree_wr; [done | lia]. }
  replace ((i + 1) * 4) with (i * 4 + 4) by lia. cbv beta iota delta [for_range].
  destruct (Hw 0 rk rk') as [H0 A0]; [lia | done | by rewrite Z.add_0_r |].
  destruct (Hw 1 _ _ ltac:(lia) H0 A0) as [H1 A1].
  destruct (Hw 2 _ _ ltac:(lia) H1 A1) as [H2 A2].
  apply (Hw 3 _ _ ltac:(lia) H2 A2).
Qed.

Lemma expand_word_length nk i rk : length (expand_word nk i rk) = length rk.
Proof. unfold expand_word. apply for_wr_length. Qed.

Lemma key_expand_agree rk rk' key nk nr :
  1 <= nk <= 4 * (nr + 1) -> zlen key = nk * 4 ->
  zlen rk = 16 * (nr + 1) -> zlen rk' = 16 * (nr + 1) ->
  key_expand rk key nk nr = key_expand rk' key nk nr.
Proof.
  intros Hnk Hkey Hrk Hrk'. unfold key_expand, AES_NB. rewrite <- Hkey, sub_all.
  set (n := Z.to_nat (4 * (nr + 1) - nk)).
  assert (Hb : zlen (blit rk 0 key) = zlen rk) by (apply blit_length; lia).
  assert (Hb' : zlen (blit rk' 0 key) = zlen rk') by (apply blit_length; lia).
  assert (H : forall m, (m <= n)%nat ->
    zlen (for_range m nk (expand_word nk) (blit rk 0 key)) = zlen rk /\
    agree ((nk + Z.of_nat m) * 4) (for_range m nk (expand_word nk) (blit rk 0 key))
      (for_range m nk (expand_word nk) (blit rk' 0 key))).
  { induction m as [| m IH]; intros Hm.
    - split; [done |]. split; [unfold zlen in *; simpl; lia |]. intros i Hi. simpl.
      rewrite !rd_blit_eq by lia. done.
    - destruct IH as [Hz Ha]; [lia |]. rewrite !for_range_snoc.
      split; [unfold zlen in *; by rewrite expand_word_length |].
      replace (nk + Z.of_nat (S m)) with (nk + Z.of_nat m + 1) by lia.
      apply expand_word_agree; [lia | done | lia]. }
  destruct (H n ltac:(lia)) as [Hz [Hl Ha]]. apply rd_ext; [done |].
  intros i Hi. apply Ha. lia.
Qed.

Lemma init128_bytes mem key : Forall is_byte mem -> Forall is_byte key -> Forall is_byte (aes128_init mem key).
Proof. apply key_expand_bytes. Qed.
Lemma init256_bytes mem key : Forall is_byte mem -> Forall is_byte key -> Forall is_byte (aes256_init mem key).
Proof. apply key_expand_bytes. Qed.

Lemma raw128_bytes : Forall is_byte raw128.
Proof. apply Forall_replicate. unfold is_byte. lia. Qed.
Lemma raw256_bytes : Forall is_byte raw256.
Proof. apply Forall_replicate. unfold is_byte. lia. Qed.

#[export] Hint Resolve init128_bytes init256_bytes raw128_bytes raw256_bytes : block.

(** The facts the modes of operation use. *)
Lemma aes256_block ctx b : Forall is_byte ctx -> is_block b -> is_block (aes256_encrypt_block ctx b).
Proof. apply encrypt_block_block. Qed.
Lemma aes128_block ctx b : Forall is_byte ctx -> is_block b -> is_block (aes128_encrypt_block ctx b).
Proof. apply encrypt_block_block. Qed.
Lemma aes128_inv_block ctx b : Forall is_byte ctx -> is_block b -> is_block (aes128_decrypt_block ctx b).
Proof. apply decrypt_block_block. Qed.
Lemma aes256_undo ctx b :
  Forall is_byte ctx -> is_block b -> aes256_decrypt_block ctx (aes256_encrypt_block ctx b) = b.
Proof. by apply decrypt_encrypt. Qed.
Lemma aes128_undo ctx b :
  Forall is_byte ctx -> is_block b -> aes128_decrypt_block ctx (aes128_encrypt_block ctx b) = b.
Proof. by apply decrypt_encrypt. Qed.
Lemma aes128_redo ctx b :
  Forall is_byte ctx -> is_block b -> aes128_encrypt_block ctx (aes128_decrypt_block ctx b) = b.
Proof. by apply encrypt_decrypt. Qed.

(** ** Claims *)

(** C25. Decryption and encryption are inverse to each other: under every key of
    the two sizes, every 16-byte block comes back from either order of the two
    calls.  The round keys depend on the key alone, never on what the memory of
    the context held before. *)
Theorem aes_is_a_permutation mem256 mem128 key256 key128 b :
  zlen mem256 = 240 -> zlen mem128 = 176 -> Forall is_byte mem256 -> Forall is_byte mem128 ->
  zlen key256 = 32 -> zlen key128 = 16 -> Forall is_byte key256 -> Forall is_byte key128 ->
  is_block b ->
  let c256 := aes256_init mem256 key256 in
  let c128 := aes128_init mem128 key128 in
  aes256_decrypt_block c256 (aes256_encrypt_block c256 b) = b /\
  aes256_encrypt_block c256 (aes256_decrypt_block c256 b) = b /\
  aes128_decrypt_block c128 (aes128_encrypt_block c128 b) = b /\
  aes128_encrypt_block c128 (aes128_decrypt_block c128 b) = b /\
  c256 = aes256_init raw256 key256 /\ c128 = aes128_init raw128 key128.
Proof.
  intros Hm Hm' Hbm Hbm' Hk Hk' Hb Hb' Hblk c256 c128.
  assert (Forall is_byte c256) by by apply init256_bytes.
  assert (Forall is_byte c128) by by apply init128_bytes.
  split_and!;
    [by apply decrypt_encrypt | by apply encrypt_decrypt | by apply decrypt_encrypt
    | by apply encrypt_decrypt | |];
    by apply key_expand_agree.
Qed.

Definition demo_key (n : nat) : list Z := map Z.of_nat (seq 0 n).

Lemma demo_key_bytes n : (n <= 256)%nat -> Forall is_byte (demo_key n).
Proof.
  intros Hn. unfold demo_key. apply Forall_fmap, Forall_forall.
  intros i Hi%elem_of_seq. unfold compose, is_byte. lia.
Qed.

Lemma aes_is_a_permutation_witness :
  aes256_decrypt_block (aes256_init raw256 (demo_key 32))
    (aes256_encrypt_block (aes256_init raw256 (demo_key 32)) (demo_key 16)) = demo_key 16.
Proof.
  destruct (aes_is_a_permutation raw256 raw128 (demo_key 32) (demo_key 16) (demo_key 16)) as [E _];
    [reflexivity | reflexivity | apply raw256_bytes | apply raw128_bytes | reflexivity | reflexivity
    | apply demo_key_bytes; lia | apply demo_key_bytes; lia
    | split; [reflexivity | apply demo_key_bytes; lia] |].
  exact E.
Defined.

(** The reference product is linear too, so that it is enough to compare the
    two on the eight powers of x. *)
Lemma poly_mul_lxor a a' b : poly_mul (Z.lxor a a') b = Z.lxor (poly_mul a b) (poly_mul a' b).
Proof.
  unfold poly_mul.
  set (f := fun a p i => if Z.testbit b (Z.of_nat i) then Z.lxor p (Z.shiftl a (Z.of_nat i)) else p).
  assert (H : forall l p q, fold_left (f (Z.lxor a a')) l (Z.lxor p q) =
                            Z.lxor (fold_left (f a) l p) (fold_left (f a') l q)).
  { induction l as [| i l IH]; intros p q; [done |]. simpl. rewrite <- IH. f_equal.
    unfold f. rewrite Z.shiftl_lxor. case_match; [| done]. xor_ring. }
  apply (H _ 0 0).
Qed.

Lemma poly_mod_lxor p q : poly_mod (Z.lxor p q) = Z.lxor (poly_mod p) (poly_mod q).
Proof.
  unfold poly_mod. revert p q. induction (rev (seq 0 7)) as [| i l IH]; intros p q; [done |].
  simpl. by rewrite fold_bit_lxor, IH.
Qed.

Lemma field_mul_lxor a a' b : field_mul (Z.lxor a a') b = Z.lxor (field_mul a b) (field_mul a' b).
Proof. unfold field_mul. by rewrite poly_mul_lxor, poly_mod_lxor. Qed.

Definition from_bits (f : Z -> Z) (a : Z) : Z :=
  fold_left (fun p i => Z.lxor p (if Z.testbit a (Z.of_nat i) then f (2 ^ Z.of_nat i) else f 0))
    (seq 0 8) 0.

Lemma linear_from_bits (f : Z -> Z) a :
  (forall x y, f (Z.lxor x y) = Z.lxor (f x) (f y)) -> is_byte a -> f a = from_bits f a.
Proof.
  intros Hf Ha. assert (E : a = from_bits (fun x => x) a) by by_bytes a Ha.
  assert (H0 : f 0 = 0) by (pose proof (Hf 0 0) as H; by rewrite !Z.lxor_nilpotent in H).
  assert (H : forall l p,
    f (fold_left (fun p i => Z.lxor p (if Z.testbit a (Z.of_nat i) then 2 ^ Z.of_nat i else 0)) l p) =
    fold_left (fun p i => Z.lxor p (if Z.testbit a (Z.of_nat i) then f (2 ^ Z.of_nat i) else f 0)) l (f p)).
  { induction l as [| i l IH]; intros p; [done |]. simpl. rewrite IH, Hf. by case_match. }
  rewrite E at 1. unfold from_bits. rewrite H, H0. done.
Qed.

Lemma gmul_field_mul a b : is_byte a -> is_byte b -> gmul a b = field_mul a b.
Proof.
  intros Ha Hb. rewrite (linear_from_bits (fun x => gmul x b) a), (linear_from_bits (fun x => field_mul x b) a)
    by (done || intros; apply gmul_lxor || apply field_mul_lxor).
  assert (E : forall i, In i (seq 0 8) ->
            gmul (2 ^ Z.of_nat i) b = field_mul (2 ^ Z.of_nat i) b /\ gmul 0 b = field_mul 0 b).
  { intros i Hi.
    assert (E : forallb (fun i => gmul (2 ^ Z.of_nat i) b =? field_mul (2 ^ Z.of_nat i) b)
              (0%nat :: seq 0 8) && (gmul 0 b =? field_mul 0 b) = true) by by_bytes b Hb.
    apply andb_true_iff in E as [E E0]. rewrite forallb_forall in E.
    specialize (E i (or_intror Hi)). lia. }
  unfold from_bits. revert E. generalize (seq 0 8) as l.
  set (F := fun (g : Z -> Z) (p : Z) (i : nat) =>
              Z.lxor p (if Z.testbit a (Z.of_nat i) then g (2 ^ Z.of_nat i) else g 0)).
  intros l E. change (fold_left (F (fun x => gmul x b)) l 0 = fold_left (F (fun x => field_mul x b)) l 0).
  generalize 0 as p. induction l as [| i l IH]; intros p; [done |]. simpl.
  destruct (E i (or_introl eq_refl)) as [E1 E2]. unfold F at 2 4. rewrite E1, E2.
  apply IH. intros j Hj. apply E. by right.
Qed.

(** The inverse, as the power 254. *)
Definition field_inv (a : Z) : Z :=
  let p := fold_left (fun p _ => field_mul (field_mul p p) a) (seq 0 6) a in field_mul p p.

(** The tables and the multiplication are those of the field the source's
    comment names.  [gmul] is the product of polynomials over GF(2) modulo
    x^8+x^4+x^3+x+1; each S-box entry is the affine image of the inverse of its
    index, with 0 for 0; [inv_sbox] is the inverse table, both ways; and each
    round constant is the one before it times x, from 1 on. *)
Theorem aes_tables_are_the_field a b :
  is_byte a -> is_byte b ->
  gmul a b = field_mul a b /\
  (exists y, is_byte y /\ field_inverse a y /\ rd sbox a = affine y) /\
  rd inv_sbox (rd sbox a) = a /\ rd sbox (rd inv_sbox a) = a /\
  (1 <= a < 14 -> rd rcon 1 = 1 /\ rd rcon (a + 1) = field_mul (rd rcon a) 2).
Proof.
  intros Ha Hb.
  split_and!; [by apply gmul_field_mul | | by apply inv_sbox_sbox | by apply sbox_inv_sbox |].
  - exists (field_inv a).
    assert (E : bool_decide (0 <= field_inv a < 256) &&
                (((a =? 0) && (field_inv a =? 0)) || (field_mul a (field_inv a) =? 1)) &&
                (rd sbox a =? affine (field_inv a)) = true) by by_bytes a Ha.
    unfold field_inverse, is_byte. b2p. lia.
  - intros Hr. split; [done |].
    assert (E : negb ((1 <=? a) && (a <? 14)) || (rd rcon (a + 1) =? field_mul (rd rcon a) 2) = true)
      by by_bytes a Ha.
    lia.
Qed.

Lemma aes_tables_are_the_field_witness : gmul 0x57 0x83 = field_mul 0x57 0x83.
Proof. apply (aes_tables_are_the_field 0x57 0x83); unfold is_byte; lia. Defined.

#[global] Opaque aes256_encrypt_block aes256_decrypt_block aes128_encrypt_block aes128_decrypt_block
  aes256_init aes128_init.
