(* ===== verification/Xts.v ===== *)
(** Sector encryption: a model of kernel/crypto/xts.c.

    A context is the pair of its two AES contexts.  The calls read [in] and
    write [out]; [None] for the input says that the two pointers are one buffer,
    the way the file system calls them.  [len] is a [size_t] of a real buffer, so
    the sum in the loop's test does not wrap.

    The file shows that the tweak update is multiplication by x in GF(2^128),
    that every 16-byte unit is the XEX construction on the block number and its
    position, and that decryption undoes encryption, in place or not. *)
From stdpp Require Import strings.
From S2P Require Import Prelude Bytes Aes.

(** ** Model *)

Record aes_xts_ctx := mkXts { xts_data : list Z; xts_tweak : list Z }.

Definition aes_xts_init (ctx : aes_xts_ctx) (data_key tweak_key : list Z) : aes_xts_ctx :=
  mkXts (aes256_init (xts_data ctx) data_key) (aes256_init (xts_tweak ctx) tweak_key).

Definition shift_byte (i : Z) (st : list Z * Z) : list Z * Z :=
  let '(t, carry) := st in
  let new_carry := Z.land (!8 (Z.shiftr (rd t i) 7)) 1 in
  (wr t i (!8 (Z.lor (Z.shiftl (rd t i) 1) carry)), new_carry).

Definition gf128_mul_alpha (t : list Z) : list Z :=
  let '(t, carry) := for_range 16 0 shift_byte (t, 0) in
  if negb (carry =? 0) then wr t 0 (Z.lxor (rd t 0) 0x87) else t.

Definition block_number_to_tweak_input (block_number : Z) : list Z :=
  put_le 8 block_number ++ replicate 8 0.

(** [for (i < 16) x[i] = a[off + i] ^ t[i]]. *)
Definition xor16 (a : list Z) (off : Z) (t : list Z) : list Z :=
  map (fun i => Z.lxor (rd a (off + Z.of_nat i)) (rd t (Z.of_nat i))) (seq 0 16).

Definition xts_unit (cipher : list Z -> list Z) (inp : option (list Z)) (k : Z)
    (st : list Z * list Z) : list Z * list Z :=
  let '(out, t) := st in
  let off := k * 16 in
  let x := xor16 (default out inp) off t in
  let y := cipher x in
  (blit out off (xor16 y 0 t), gf128_mul_alpha t).

Definition aes_xts_encrypt (ctx : aes_xts_ctx) (block_number : Z) (inp : option (list Z))
    (out : list Z) (len : Z) : list Z :=
  let t := aes256_encrypt_block (xts_tweak ctx) (block_number_to_tweak_input block_number) in
  fst (for_range (Z.to_nat (len / 16)) 0 (xts_unit (aes256_encrypt_block (xts_data ctx)) inp) (out, t)).

Definition aes_xts_decrypt (ctx : aes_xts_ctx) (block_number : Z) (inp : option (list Z))
    (out : list Z) (len : Z) : list Z :=
  let t := aes256_encrypt_block (xts_tweak ctx) (block_number_to_tweak_input block_number) in
  fst (for_range (Z.to_nat (len / 16)) 0 (xts_unit (aes256_decrypt_block (xts_data ctx)) inp) (out, t)).

(** The first vector of the self test. *)
Example xts_vector :
  let ctx := aes_xts_init (mkXts raw256 raw256) (demo_key 32) (map (Z.add 32) (demo_key 32)) in
  aes_xts_encrypt ctx 4328719365 (Some (demo_key 64)) (replicate 64 0) 64
  = hex_to_bytes (str "5a034815566a037d215c27761217ec7ab90c5393e91fdc3652c8c82b7d4b6f1ab8007362aa7140696bb82f3a3b28a9f06f8bf22aadc527b825b21b991ba0e7b4") 64.
Proof. vm_compute. reflexivity. Qed.

(** ** The tweak *)

(** Multiplication by x of a polynomial of degree below 128, as an integer. *)
Definition times_x (v : Z) : Z :=
  if Z.testbit v 127 then Z.lxor ((2 * v) mod 2 ^ 128) 0x87 else (2 * v) mod 2 ^ 128.

(** What the loop of [gf128_mul_alpha] leaves in each byte. *)
Definition shifted (t : list Z) (k : Z) : Z :=
  !8 (Z.lor (Z.shiftl (rd t k) 1) (if k =? 0 then 0 else Z.shiftr (rd t (k - 1)) 7)).

Lemma carry_of_byte b : is_byte b -> Z.land (!8 (Z.shiftr b 7)) 1 = Z.shiftr b 7.
Proof. intros Hb. by_bytes b Hb. Qed.

Lemma shift_loop t n :
  is_block t -> (n <= 16)%nat ->
  let '(t', carry) := for_range n 0 shift_byte (t, 0) in
  length t' = 16%nat /\
  carry = (if (n =? 0)%nat then 0 else Z.shiftr (rd t (Z.of_nat n - 1)) 7) /\
  (forall k, 0 <= k < Z.of_nat n -> rd t' k = shifted t k) /\
  (forall k, Z.of_nat n <= k -> rd t' k = rd t k).
Proof.
  intros [Hl Hb]. induction n as [| n IH]; intros Hn.
  { simpl. split_and!; [done | done | lia | done]. }
  rewrite for_range_snoc. specialize (IH ltac:(lia)).
  destruct (for_range n 0 shift_byte (t, 0)) as [t' carry]. destruct IH as (Hl' & Hc & Hlo & Hhi).
  simpl shift_byte. change (0 + Z.of_nat n) with (Z.of_nat n). split_and!.
  - by rewrite wr_length.
  - rewrite Hhi by lia. rewrite carry_of_byte by auto with embk. simpl (S n =? 0)%nat. f_equal. f_equal. lia.
  - intros k Hk. destruct (decide (k = Z.of_nat n)) as [-> |].
    + rewrite rd_wr_eq by lia. rewrite Hhi by lia. unfold shifted. rewrite Hc.
      by destruct n.
    + rewrite rd_wr_ne by lia. apply Hlo. lia.
  - intros k Hk. rewrite rd_wr_ne by lia. apply Hhi. lia.
Qed.

Lemma byte_index k j : 0 <= j < 8 -> (k * 8 + j) / 8 = k /\ (k * 8 + j) mod 8 = j.
Proof. intros. split; Z.div_mod_to_equations; lia. Qed.

Lemma shifted_bit t k j :
  Forall is_byte t -> 0 <= k -> 0 <= j < 8 ->
  Z.testbit (shifted t k) j =
  (0 <? 8 * k + j) && Z.testbit (rd t ((8 * k + j - 1) / 8)) ((8 * k + j - 1) mod 8).
Proof.
  intros Hb Hk Hj. unfold shifted. rewrite testbit_u8 by lia. rewrite Z.lor_spec.
  destruct (decide (j = 0)) as [-> |].
  - rewrite Z.shiftl_spec_low, orb_false_l by lia. case_if.
    + replace k with 0 by lia. done.
    + rewrite Z.shiftr_spec by lia. replace (0 <? 8 * k + 0) with true by lia. rewrite andb_true_l.
      replace (8 * k + 0 - 1) with ((k - 1) * 8 + 7) by lia.
      destruct (byte_index (k - 1) 7) as [-> ->]; [lia | done].
  - rewrite Z.shiftl_spec by lia. replace (0 <? 8 * k + j) with true by lia.
    replace (8 * k + j - 1) with (k * 8 + (j - 1)) by lia.
    destruct (byte_index k (j - 1)) as [-> ->]; [lia |].
    replace (Z.testbit (if (_ : bool) then _ else _) j) with false; [by rewrite orb_false_r |].
    case_if; [by rewrite Z.bits_0 |]. rewrite Z.shiftr_spec by lia.
    symmetry. apply byte_high; [auto with embk | lia].
Qed.

Lemma shifted_bytes t t' :
  length t' = 16%nat -> (forall k, 0 <= k < 16 -> rd t' k = shifted t k) -> Forall is_byte t'.
Proof.
  intros Hl Hs. apply Forall_lookup. intros i x Hx. apply lookup_lt_Some in Hx as Hi.
  specialize (Hs (Z.of_nat i) ltac:(lia)). unfold rd in Hs at 1.
  rewrite Nat2Z.id, Hx in Hs. simpl in Hs. rewrite Hs. apply u8_range.
Qed.

Lemma gf128_mul_alpha_block t : is_block t -> is_block (gf128_mul_alpha t).
Proof.
  intros Ht. unfold gf128_mul_alpha. pose proof (shift_loop t 16 Ht ltac:(lia)) as H.
  destruct (for_range 16 0 shift_byte (t, 0)) as [t' carry]. destruct H as (Hl & _ & Hlo & _).
  assert (Hb : Forall is_byte t') by by apply (shifted_bytes t).
  case_if; [| done]. split; [by rewrite wr_length |].
  apply wr_Forall; [done |]. apply lxor_byte; [auto with embk | unfold is_byte; lia].
Qed.

Lemma shifted_val t t' :
  Forall is_byte t -> (forall k, 0 <= k < 16 -> rd t' k = shifted t k) ->
  get_le 16 t' = (2 * get_le 16 t) mod 2 ^ 128.
Proof.
  intros Hb Hs. apply Z.bits_inj'. intros j Hj.
  assert (Hb' : forall i, 0 <= i < Z.of_nat 16 -> is_byte (rd t' i))
    by (intros i Hi; rewrite Hs by lia; apply u8_range).
  rewrite get_le_testbit by done. change (8 * Z.of_nat 16) with 128.
  destruct (decide (j < 128)); cycle 1.
  { rewrite Z.mod_pow2_bits_high by lia. by replace (j <? 128) with false by lia. }
  rewrite Z.mod_pow2_bits_low by lia. replace (j <? 128) with true by lia. rewrite andb_true_l.
  rewrite Hs, shifted_bit by (done || Z.div_mod_to_equations; lia).
  rewrite <- Z.div_mod by lia. destruct (decide (j = 0)) as [-> |].
  { by rewrite Z.testbit_even_0. }
  replace j with (Z.succ (j - 1)) at 4 by lia. rewrite Z.testbit_even_succ by lia.
  rewrite get_le_testbit by (lia || auto with embk). change (8 * Z.of_nat 16) with 128.
  replace (0 <? j) with true by lia. by replace (j - 1 <? 128) with true by lia.
Qed.

Lemma get_le_lxor_low n t c :
  Forall is_byte t -> (0 < n)%nat -> (0 < length t)%nat -> is_byte c ->
  get_le n (wr t 0 (Z.lxor (rd t 0) c)) = Z.lxor (get_le n t) c.
Proof.
  intros Hb Hn Hl Hc. apply Z.bits_inj'. intros j Hj.
  assert (Forall is_byte (wr t 0 (Z.lxor (rd t 0) c)))
    by (apply wr_Forall; [done | apply lxor_byte; auto with embk]).
  rewrite Z.lxor_spec, !get_le_testbit by auto with embk.
  destruct (decide (j < 8)).
  - rewrite Z.div_small, Z.mod_small, rd_wr_eq, Z.lxor_spec by lia.
    by replace (j <? 8 * Z.of_nat n) with true by lia.
  - rewrite (byte_high c j), xorb_false_r by (done || lia).
    rewrite rd_wr_ne by (Z.div_mod_to_equations; lia). done.
Qed.

Lemma gf128_mul_alpha_val t : is_block t -> get_le 16 (gf128_mul_alpha t) = times_x (get_le 16 t).
Proof.
  intros Ht. unfold gf128_mul_alpha, times_x. pose proof (shift_loop t 16 Ht ltac:(lia)) as H.
  destruct (for_range 16 0 shift_byte (t, 0)) as [t' carry]. destruct H as (Hl & Hc & Hlo & _).
  destruct Ht as [Hlt Hb]. rewrite get_le_testbit by (lia || auto with embk).
  change (127 <? 8 * Z.of_nat 16) with true. change (127 / 8) with 15. change (127 mod 8) with 7.
  rewrite andb_true_l, <- (shifted_val t t') by done.
  assert (E : negb (carry =? 0) = Z.testbit (rd t 15) 7).
  { rewrite Hc. simpl (16 =? 0)%nat. change (Z.of_nat 16 - 1) with 15.
    assert (H15 : is_byte (rd t 15)) by auto with embk. revert H15.
    generalize (rd t 15). intros b H15. by_bytes b H15. }
  rewrite E. case_if; [| done]. apply get_le_lxor_low; [| lia | lia | unfold is_byte; lia].
  by apply (shifted_bytes t).
Qed.

(** ** Units *)

#[local] Opaque gf128_mul_alpha get_le.

Lemma xor16_block a off t : Forall is_byte a -> is_block t -> is_block (xor16 a off t).
Proof.
  intros Ha [_ Ht]. split; [done |]. unfold xor16. apply Forall_fmap, Forall_true.
  intros i. unfold compose. apply lxor_byte; auto with embk.
Qed.

Lemma rd_xor16 a off t i : 0 <= i < 16 -> rd (xor16 a off t) i = Z.lxor (rd a (off + i)) (rd t i).
Proof.
  intros Hi. unfold rd at 1, xor16. rewrite list_lookup_fmap, lookup_seq_lt by lia. simpl.
  by rewrite Z2Nat.id by lia.
Qed.

Lemma xor16_sub a off t : 0 <= off -> xor16 a off t = xor16 (sub a off 16) 0 t.
Proof.
  intros Ho. apply rd_ext; [done |]. intros i Hi. change (zlen (xor16 a off t)) with 16 in Hi.
  rewrite !rd_xor16, rd_sub by lia. done.
Qed.

Lemma xor16_twice y t : is_block y -> xor16 (xor16 y 0 t) 0 t = y.
Proof.
  intros [Hl _]. apply rd_ext; [done |]. intros i Hi. change (zlen (xor16 _ _ _)) with 16 in Hi.
  rewrite !rd_xor16 by lia. by rewrite Z.lxor_assoc, Z.lxor_nilpotent, Z.lxor_0_r.
Qed.

(** The tweak of unit [k], and the unit as the standard defines it. *)
Definition tweak_at (t : list Z) (k : nat) : list Z := Nat.iter k gf128_mul_alpha t.
Definition xex (cipher : list Z -> list Z) (t p : list Z) : list Z :=
  xor16 (cipher (xor16 p 0 t)) 0 t.

Lemma tweak_at_block t k : is_block t -> is_block (tweak_at t k).
Proof. intros Ht. induction k as [| k IH]; [done |]. by apply gf128_mul_alpha_block. Qed.

Lemma tweak_at_val t k : is_block t -> get_le 16 (tweak_at t k) = Nat.iter k times_x (get_le 16 t).
Proof.
  intros Ht. unfold tweak_at. induction k as [| k IH]; simpl Nat.iter; [reflexivity |].
  rewrite gf128_mul_alpha_val by by apply (tweak_at_block t k). by rewrite IH.
Qed.

Lemma xex_undo enc dec t p :
  is_block t -> is_block p ->
  (forall b, is_block b -> is_block (enc b) /\ dec (enc b) = b) ->
  xex dec t (xex enc t p) = p.
Proof.
  intros Ht Hp Hc. unfold xex.
  assert (Hx : is_block (xor16 p 0 t)) by (apply xor16_block; [apply Hp | done]).
  destruct (Hc _ Hx) as [He Hd]. rewrite (xor16_twice (enc _)), Hd by done.
  by apply xor16_twice.
Qed.

Section Run.
Context (cipher : list Z -> list Z) (inp : option (list Z)) (out t : list Z).
Context (n : nat) (Hin : 16 * Z.of_nat n <= zlen (default out inp)) (Hout : 16 * Z.of_nat n <= zlen out).

(** After [m] units: the tweak, the units written and the bytes left alone. *)
Lemma xts_run m :
  (m <= n)%nat ->
  let '(out', t') := for_range m 0 (xts_unit cipher inp) (out, t) in
  t' = tweak_at t m /\ zlen out' = zlen out /\
  (forall k, (k < m)%nat ->
     sub out' (16 * Z.of_nat k) 16
     = xex cipher (tweak_at t k) (sub (default out inp) (16 * Z.of_nat k) 16)) /\
  (forall i, 16 * Z.of_nat m <= i -> rd out' i = rd out i).
Proof.
  induction m as [| m IH]; intros Hm; [simpl; split_and!; done || lia |].
  rewrite for_range_snoc. specialize (IH ltac:(lia)).
  destruct (for_range m 0 (xts_unit cipher inp) (out, t)) as [o t'].
  destruct IH as (-> & Hz & Hu & Hr). change (0 + Z.of_nat m) with (Z.of_nat m).
  simpl xts_unit. replace (Z.of_nat m * 16) with (16 * Z.of_nat m) by lia.
  set (u := xor16 (cipher _) 0 _). assert (Hlu : zlen u = 16) by done.
  split_and!; [done | by rewrite blit_length by lia | |].
  - intros k Hk. destruct (decide (k = m)) as [-> |].
    + rewrite sub_blit_eq by lia. unfold u, xex. f_equal. f_equal.
      rewrite xor16_sub by lia. f_equal.
      destruct inp as [src |]; [done |]. simpl in *. apply rd_ext.
      * pose proof (sub_length o (16 * Z.of_nat m) 16). pose proof (sub_length out (16 * Z.of_nat m) 16).
        unfold zlen in *. lia.
      * intros i Hi. rewrite sub_length in Hi by lia. rewrite !rd_sub by lia. apply Hr. lia.
    + rewrite sub_blit_ne by lia. apply Hu. lia.
  - intros i Hi. rewrite rd_blit_ne by lia. apply Hr. lia.
Qed.
End Run.

Lemma sub_block_of l k : Forall is_byte l -> 16 * Z.of_nat (S k) <= zlen l -> is_block (sub l (16 * Z.of_nat k) 16).
Proof.
  intros Hb Hl. pose proof (sub_length l (16 * Z.of_nat k) 16).
  split; [unfold zlen in *; lia | by apply Bytes.sub_bytes].
Qed.

Lemma rd_past l i : zlen l <= i -> rd l i = 0.
Proof. unfold zlen. intros Hi. unfold rd. by rewrite lookup_ge_None_2 by lia. Qed.

(** Two buffers with the same units and the same tail. *)
Lemma units_ext l l' n :
  zlen l = zlen l' -> 16 * Z.of_nat n <= zlen l ->
  (forall k, (k < n)%nat -> sub l (16 * Z.of_nat k) 16 = sub l' (16 * Z.of_nat k) 16) ->
  (forall i, 16 * Z.of_nat n <= i -> rd l i = rd l' i) -> l = l'.
Proof.
  intros Hl Hn Hu Hr. apply rd_ext; [unfold zlen in Hl; lia |]. intros i Hi.
  destruct (decide (i < 16 * Z.of_nat n)); [| apply Hr; lia].
  specialize (Hu (Z.to_nat (i / 16)) ltac:(Z.div_mod_to_equations; lia)).
  rewrite Z2Nat.id in Hu by (Z.div_mod_to_equations; lia).
  replace i with (16 * (i / 16) + i mod 16) by (Z.div_mod_to_equations; lia).
  rewrite <- (rd_sub l (16 * (i / 16)) 16), Hu, rd_sub by (Z.div_mod_to_equations; lia). done.
Qed.

(** ** Claims *)

(** Both contexts hold bytes. *)
Definition xts_ok (ctx : aes_xts_ctx) : Prop :=
  Forall is_byte (xts_data ctx) /\ Forall is_byte (xts_tweak ctx).

Lemma tweak_input_block bn : is_block (block_number_to_tweak_input bn).
Proof.
  split; [done |]. unfold block_number_to_tweak_input. apply Forall_app. split; [apply put_le_bytes |].
  apply Forall_replicate. unfold is_byte. lia.
Qed.

Definition first_tweak (ctx : aes_xts_ctx) (bn : Z) : list Z :=
  aes256_encrypt_block (xts_tweak ctx) (block_number_to_tweak_input bn).

Lemma first_tweak_block ctx bn : xts_ok ctx -> is_block (first_tweak ctx bn).
Proof. intros [_ Ht]. apply aes256_block; [done | apply tweak_input_block]. Qed.

(** What one of the two calls writes, for either cipher. *)
Lemma xts_pass cipher inp out t n :
  16 * Z.of_nat n <= zlen (default out inp) -> 16 * Z.of_nat n <= zlen out ->
  let o := fst (for_range n 0 (xts_unit cipher inp) (out, t)) in
  zlen o = zlen out /\
  (forall k, (k < n)%nat ->
     sub o (16 * Z.of_nat k) 16
     = xex cipher (tweak_at t k) (sub (default out inp) (16 * Z.of_nat k) 16)) /\
  (forall i, 16 * Z.of_nat n <= i -> rd o i = rd out i).
Proof.
  intros Hi Ho. pose proof (xts_run cipher inp out t n Hi Ho n ltac:(lia)) as H.
  destruct (for_range n 0 _ _) as [o t']. simpl. by destruct H as (_ & H).
Qed.

(** C26. Every 16-byte unit of a sector is the XEX construction of the standard:
    the unit is masked with its tweak before and after the block cipher, and the
    tweak of unit [k] is the encrypted block number times x^k in GF(2^128).  The
    call writes the whole units of its length and nothing else, and reading and
    writing one buffer gives the same units as two buffers. *)
Theorem aes_xts_exact ctx bn inp out len :
  xts_ok ctx -> 0 <= len <= zlen (default out inp) -> len <= zlen out ->
  let c := aes_xts_encrypt ctx bn inp out len in
  zlen c = zlen out /\
  (forall k, Z.of_nat k < len / 16 ->
     let t := tweak_at (first_tweak ctx bn) k in
     get_le 16 t = Nat.iter k times_x (get_le 16 (first_tweak ctx bn)) /\
     sub c (16 * Z.of_nat k) 16
     = xex (aes256_encrypt_block (xts_data ctx)) t (sub (default out inp) (16 * Z.of_nat k) 16)) /\
  (forall i, 16 * (len / 16) <= i -> rd c i = rd out i).
Proof.
  intros Hc Hi Ho c.
  destruct (xts_pass (aes256_encrypt_block (xts_data ctx)) inp out (first_tweak ctx bn) (Z.to_nat (len / 16)))
    as (Hz & Hu & Hr); [Z.div_mod_to_equations; lia | Z.div_mod_to_equations; lia |].
  split_and!; [exact Hz | | intros i Hii; apply Hr; Z.div_mod_to_equations; lia].
  intros k Hk. split; [apply tweak_at_val; by apply first_tweak_block | apply Hu; lia].
Qed.

(** Encryption of [p] and decryption of its result, each in place or not. *)
Lemma xts_there_and_back ctx bn p inp o inp' o' len :
  xts_ok ctx -> Forall is_byte p -> default o inp = p ->
  default o' inp' = aes_xts_encrypt ctx bn inp o len ->
  0 <= len <= zlen p -> len <= zlen o -> len <= zlen o' ->
  let d := aes_xts_decrypt ctx bn inp' o' len in
  zlen d = zlen o' /\
  (forall k, Z.of_nat k < len / 16 -> sub d (16 * Z.of_nat k) 16 = sub p (16 * Z.of_nat k) 16) /\
  (forall i, 16 * (len / 16) <= i -> rd d i = rd o' i).
Proof.
  intros Hok Hp Hin Hin' Hlp Hlo Hlo' d. pose proof (first_tweak_block ctx bn Hok) as Ht0.
  set (n := Z.to_nat (len / 16)).
  assert (Hn : 16 * Z.of_nat n <= len /\ Z.of_nat n = len / 16) by (Z.div_mod_to_equations; lia).
  destruct (xts_pass (aes256_encrypt_block (xts_data ctx)) inp o (first_tweak ctx bn) n) as (Hz & Hu & _);
    [rewrite Hin; lia | lia |].
  change (fst _) with (aes_xts_encrypt ctx bn inp o len) in Hz, Hu. rewrite <- Hin' in Hz, Hu.
  destruct (xts_pass (aes256_decrypt_block (xts_data ctx)) inp' o' (first_tweak ctx bn) n) as (Hz' & Hu' & Hr');
    [lia | lia |].
  split_and!; [exact Hz' | | intros i Hi; apply Hr'; lia]. intros k Hk.
  etransitivity; [apply Hu'; lia |]. rewrite Hu, Hin by lia.
  apply xex_undo; [by apply tweak_at_block | apply sub_block_of; [done | lia] |].
  intros b Hb. split; [apply aes256_block | apply aes256_undo]; done || apply Hok.
Qed.

(** Decryption undoes encryption: a sector written through two buffers comes
    back in full, whatever the destinations held, and a buffer encrypted and
    decrypted in place is unchanged in every byte. *)
Theorem aes_xts_roundtrip mem dk tk bn p out out' len :
  xts_ok mem -> Forall is_byte dk -> Forall is_byte tk -> Forall is_byte p ->
  0 <= len <= zlen p -> len <= zlen out -> zlen out' = len -> len mod 16 = 0 ->
  let ctx := aes_xts_init mem dk tk in
  aes_xts_decrypt ctx bn (Some (aes_xts_encrypt ctx bn (Some p) out len)) out' len = sub p 0 len /\
  aes_xts_decrypt ctx bn None (aes_xts_encrypt ctx bn None p len) len = p.
Proof.
  intros [Hmd Hmt] Hdk Htk Hp Hlp Hlo Hlo' Hm ctx.
  assert (Hok : xts_ok ctx) by (split; by apply init256_bytes).
  assert (Hn : 16 * (len / 16) = len) by (Z.div_mod_to_equations; lia).
  split.
  - destruct (xts_there_and_back ctx bn p (Some p) out
               (Some (aes_xts_encrypt ctx bn (Some p) out len)) out' len) as (Hz & Hu & _);
      [done | done | done | done | done | lia | lia |].
    apply (units_ext _ _ (Z.to_nat (len / 16))).
    + rewrite sub_length by lia. lia.
    + lia.
    + intros k Hk. rewrite sub_sub by lia. apply Hu. lia.
    + intros i Hi. rewrite !rd_past; [done | rewrite sub_length; lia | lia].
  - set (c := aes_xts_encrypt ctx bn None p len).
    destruct (xts_pass (aes256_encrypt_block (xts_data ctx)) None p (first_tweak ctx bn) (Z.to_nat (len / 16)))
      as (Hzc & _ & Hrc); [simpl; lia | lia |].
    change (fst _) with c in Hzc, Hrc.
    destruct (xts_there_and_back ctx bn p None p None c len) as (Hz & Hu & Hr);
      [done | done | done | done | done | lia | lia |].
    apply (units_ext _ _ (Z.to_nat (len / 16))); [lia | lia | intros; apply Hu; lia |].
    intros i Hi. rewrite Hr, Hrc by lia. done.
Qed.

Lemma aes_xts_roundtrip_witness :
  let ctx := aes_xts_init (mkXts raw256 raw256) (demo_key 32) (demo_key 32) in
  aes_xts_decrypt ctx 7 None (aes_xts_encrypt ctx 7 None (demo_key 40) 32) 32 = demo_key 40.
Proof.
  destruct (aes_xts_roundtrip (mkXts raw256 raw256) (demo_key 32) (demo_key 32) 7 (demo_key 40)
              (replicate 32 0) (replicate 32 0) 32) as [_ E];
    [split; apply raw256_bytes | apply demo_key_bytes; lia | apply demo_key_bytes; lia
    | apply demo_key_bytes; lia | split; [lia | vm_compute; discriminate] | vm_compute; discriminate
    | reflexivity | reflexivity |].
  exact E.
Defined.

Lemma aes_xts_exact_witness :
  zlen (aes_xts_encrypt (mkXts raw256 raw256) 7 (Some (demo_key 40)) (replicate 40 0) 40) = 40.
Proof.
  destruct (aes_xts_exact (mkXts raw256 raw256) 7 (Some (demo_key 40)) (replicate 40 0) 40) as (E & _);
    [split; apply raw256_bytes | split; [lia | vm_compute; discriminate] | vm_compute; discriminate |].
  exact E.
Defined.
