(* ===== verification/Sha.v ===== *)
(** The hash functions: models of kernel/crypto/sha256.c and kernel/crypto/sha1.c.

    A context is a record with the fields of the structure in the source; the
    bytes of a message are a list.  A local buffer that is written in full before
    it is read starts as zeros.

    The file states what a Merkle-Damgaard hash is, once, for any compression
    function (Section [MD]), and shows that both streaming implementations
    compute it on the concatenation of what they are fed, however it is cut.
    The round constants of SHA-256 are defined by the rule the comment of their
    table gives; the vectors of the self test exercise every one of them. *)
From stdpp Require Import strings.
From S2P Require Import Prelude Bytes Aes.

(** The padding loop of both hashes, [while (level != 56) feed a zero]; 64 turns
    are enough. *)
Fixpoint pad_loop {C} (level : C -> Z) (feed : C -> C) (fuel : nat) (c : C) : option C :=
  if level c =? 56 then Some c
  else match fuel with
       | O => None
       | S fuel => pad_loop level feed fuel (feed c)
       end.

(** Primes below a limit, and the integer part of a cube root below 2^36, found
    bit by bit from the top. *)
Definition small_prime (k : nat) : bool :=
  forallb (fun d => negb (k mod d =? 0)%nat) (seq 2 (k - 2)).
Definition first_primes (limit : nat) : list nat := List.filter small_prime (seq 2 limit).
Definition cube_root (n : Z) : Z :=
  fold_right (fun i r => let r' := r + 2 ^ Z.of_nat i in if r' ^ 3 <=? n then r' else r) 0 (seq 0 36).

(** ** SHA-256 *)

Module Sha256.

Definition SHA256_BLOCK_SIZE : Z := 64.
Definition SHA256_DIGEST_SIZE : Z := 32.

(** The round constants, by the rule the comment of the table gives: word [i] is
    the first 32 bits after the point of the cube root of prime [i].  The table in
    the source lists the same 64 words as literals. *)
Definition K : list Z :=
  Eval vm_compute in map (fun p => !32 (cube_root (Z.of_nat p * 2 ^ 96))) (first_primes 310).

Record sha256_ctx := mkSha256 { state : list Z; bitlen : Z; buf : list Z; buf_len : Z }.

Definition rotr32 (x n : Z) : Z := Z.lor (Z.shiftr x n) (!32 (Z.shiftl x (32 - n))).

Definition load_be32 (block : list Z) (i : Z) : Z :=
  Z.lor (Z.lor (Z.lor (!32 (Z.shiftl (rd block (i * 4)) 24)) (!32 (Z.shiftl (rd block (i * 4 + 1)) 16)))
               (!32 (Z.shiftl (rd block (i * 4 + 2)) 8))) (rd block (i * 4 + 3)).

Definition schedule (block : list Z) : list Z :=
  let w := for_range 16 0 (fun i w => wr w i (load_be32 block i)) (replicate 64 0) in
  for_range 48 16
    (fun i w =>
       let s0 := Z.lxor (Z.lxor (rotr32 (rd w (i - 15)) 7) (rotr32 (rd w (i - 15)) 18)) (Z.shiftr (rd w (i - 15)) 3) in
       let s1 := Z.lxor (Z.lxor (rotr32 (rd w (i - 2)) 17) (rotr32 (rd w (i - 2)) 19)) (Z.shiftr (rd w (i - 2)) 10) in
       wr w i (!32 (rd w (i - 16) + s0 + rd w (i - 7) + s1))) w.

(** The eight working variables. *)
Definition vars : Type := Z * Z * Z * Z * Z * Z * Z * Z.

Definition round (w : list Z) (i : Z) (v : vars) : vars :=
  let '(a, b, c, d, e, f, g, h) := v in
  let S1 := Z.lxor (Z.lxor (rotr32 e 6) (rotr32 e 11)) (rotr32 e 25) in
  let ch := Z.lxor (Z.land e f) (Z.land (!32 (Z.lnot e)) g) in
  let temp1 := !32 (h + S1 + ch + rd K i + rd w i) in
  let S0 := Z.lxor (Z.lxor (rotr32 a 2) (rotr32 a 13)) (rotr32 a 22) in
  let maj := Z.lxor (Z.lxor (Z.land a b) (Z.land a c)) (Z.land b c) in
  let temp2 := !32 (S0 + maj) in
  (!32 (temp1 + temp2), a, b, c, !32 (d + temp1), e, f, g).

Definition compress (st block : list Z) : list Z :=
  let w := schedule block in
  let '(a, b, c, d, e, f, g, h) :=
    for_range 64 0 (round w) (rd st 0, rd st 1, rd st 2, rd st 3, rd st 4, rd st 5, rd st 6, rd st 7) in
  [!32 (rd st 0 + a); !32 (rd st 1 + b); !32 (rd st 2 + c); !32 (rd st 3 + d);
   !32 (rd st 4 + e); !32 (rd st 5 + f); !32 (rd st 6 + g); !32 (rd st 7 + h)].

Definition sha256_transform (ctx : sha256_ctx) (block : list Z) : sha256_ctx :=
  mkSha256 (compress (state ctx) block) (bitlen ctx) (buf ctx) (buf_len ctx).

Definition H0 : list Z :=
  [0x6a09e667; 0xbb67ae85; 0x3c6ef372; 0xa54ff53a; 0x510e527f; 0x9b05688c; 0x1f83d9ab; 0x5be0cd19].

(** The buffer keeps what the memory of the context held. *)
Definition sha256_init (ctx : sha256_ctx) : sha256_ctx := mkSha256 H0 0 (buf ctx) 0.

(** One turn of the loop of [sha256_update] on the bytes [p] still to come: the
    context after it and the bytes left. *)
Definition update_step (ctx : sha256_ctx) (p : list Z) : sha256_ctx * list Z :=
  let len := zlen p in
  let take := SHA256_BLOCK_SIZE - buf_len ctx in
  let take := if len <? take then len else take in
  let ctx := mkSha256 (state ctx) (bitlen ctx) (blit (buf ctx) (buf_len ctx) (sub p 0 take))
               (!32 (buf_len ctx + take)) in
  let p := drop (Z.to_nat take) p in
  let ctx := mkSha256 (state ctx) (!64 (bitlen ctx + take * 8)) (buf ctx) (buf_len ctx) in
  if buf_len ctx =? SHA256_BLOCK_SIZE then
    let ctx := sha256_transform ctx (buf ctx) in
    (mkSha256 (state ctx) (bitlen ctx) (buf ctx) 0, p)
  else (ctx, p).

Fixpoint update_loop (fuel : nat) (ctx : sha256_ctx) (p : list Z) : sha256_ctx :=
  match fuel, p with
  | S fuel, _ :: _ => let '(ctx, p) := update_step ctx p in update_loop fuel ctx p
  | _, _ => ctx
  end.
(** Each turn takes a byte at least. *)
Definition sha256_update (ctx : sha256_ctx) (data : list Z) : sha256_ctx :=
  update_loop (length data) ctx data.

Definition be32 (x : Z) : list Z := [!8 (Z.shiftr x 24); !8 (Z.shiftr x 16); !8 (Z.shiftr x 8); !8 x].
Definition be64 (x : Z) : list Z := map (fun i => !8 (Z.shiftr x (56 - 8 * Z.of_nat i))) (seq 0 8).

Definition sha256_final (ctx : sha256_ctx) : option (sha256_ctx * list Z) :=
  let bits := bitlen ctx in
  let ctx := sha256_update ctx [0x80] in
  ctx ← pad_loop buf_len (fun ctx => sha256_update ctx [0]) 64 ctx;
  let ctx := sha256_update ctx (be64 bits) in
  Some (ctx, concat (map (fun i => be32 (rd (state ctx) (Z.of_nat i))) (seq 0 8))).

(** A local context before it is initialised. *)
Definition raw : sha256_ctx := mkSha256 (replicate 8 0) 0 (replicate 64 0) 0.

Definition sha256 (data : list Z) : option (list Z) :=
  snd <$> sha256_final (sha256_update (sha256_init raw) data).

(** The vectors of the self test. *)
Example sha256_vectors :
  sha256 [] = Some (hex_to_bytes (str "e3b0c44298fc1c149afbf4c8996fb92427ae41e4649b934ca495991b7852b855") 32) /\
  sha256 (str "abcdbcdecdefdefgefghfghighijhijkijkljklmklmnlmnomnopnopq")
  = Some (hex_to_bytes (str "248d6a61d20638b8e5c026930c3e6039a33ce45964ff2167f6ecedd419db06c1") 32).
Proof. vm_compute. split; reflexivity. Qed.

End Sha256.

(** ** SHA-1 *)

Module Sha1.

Record sha1_ctx := mkSha1 { h : list Z; len : Z; buf : list Z; n : Z }.

Definition rol (x n : Z) : Z := Z.lor (!32 (Z.shiftl x n)) (Z.shiftr x (32 - n)).

Definition schedule (p : list Z) : list Z :=
  let w := for_range 16 0 (fun i w => wr w i (Sha256.load_be32 p i)) (replicate 80 0) in
  for_range 64 16
    (fun i w =>
       wr w i (rol (Z.lxor (Z.lxor (Z.lxor (rd w (i - 3)) (rd w (i - 8))) (rd w (i - 14))) (rd w (i - 16))) 1)) w.

Definition round (w : list Z) (i : Z) (v : Z * Z * Z * Z * Z) : Z * Z * Z * Z * Z :=
  let '(a, b, d, e, f) := v in
  let '(t, k) :=
    if i <? 20 then (Z.lor (Z.land b d) (Z.land (!32 (Z.lnot b)) e), 0x5A827999)
    else if i <? 40 then (Z.lxor (Z.lxor b d) e, 0x6ED9EBA1)
    else if i <? 60 then (Z.lor (Z.lor (Z.land b d) (Z.land b e)) (Z.land d e), 0x8F1BBCDC)
    else (Z.lxor (Z.lxor b d) e, 0xCA62C1D6) in
  let tmp := !32 (rol a 5 + t + f + k + rd w i) in
  (tmp, a, rol b 30, d, e).

Definition compress (st p : list Z) : list Z :=
  let w := schedule p in
  let '(a, b, d, e, f) := for_range 80 0 (round w) (rd st 0, rd st 1, rd st 2, rd st 3, rd st 4) in
  [!32 (rd st 0 + a); !32 (rd st 1 + b); !32 (rd st 2 + d); !32 (rd st 3 + e); !32 (rd st 4 + f)].

Definition sha1_block (c : sha1_ctx) (p : list Z) : sha1_ctx :=
  mkSha1 (compress (h c) p) (len c) (buf c) (n c).

Definition H0 : list Z := [0x67452301; 0xEFCDAB89; 0x98BADCFE; 0x10325476; 0xC3D2E1F0].

Definition sha1_init (c : sha1_ctx) : sha1_ctx := mkSha1 H0 0 (buf c) 0.

(** Filling the partial block: the context and the bytes left. *)
Definition fill (c : sha1_ctx) (p : list Z) : sha1_ctx * list Z :=
  if negb (n c =? 0) then
    let take := 64 - n c in
    let take := if zlen p <? take then zlen p else take in
    let c := mkSha1 (h c) (len c) (blit (buf c) (n c) (sub p 0 take)) (n c + take) in
    let p := drop (Z.to_nat take) p in
    if n c =? 64 then
      let c := sha1_block c (buf c) in (mkSha1 (h c) (len c) (buf c) 0, p)
    else (c, p)
  else (c, p).

(** [while (len >= 64)]: the whole blocks, straight from the input. *)
Fixpoint blocks_loop (fuel : nat) (c : sha1_ctx) (p : list Z) : sha1_ctx * list Z :=
  match fuel with
  | S fuel => if 64 <=? zlen p then blocks_loop fuel (sha1_block c p) (drop 64 p) else (c, p)
  | O => (c, p)
  end.

Definition sha1_update (c : sha1_ctx) (data : list Z) : sha1_ctx :=
  let c := mkSha1 (h c) (!64 (len c + zlen data)) (buf c) (n c) in
  let '(c, p) := fill c data in
  let '(c, p) := blocks_loop (length data) c p in
  if negb (zlen p =? 0) then mkSha1 (h c) (len c) (blit (buf c) 0 p) (zlen p) else c.

Definition sha1_final (c : sha1_ctx) : option (sha1_ctx * list Z) :=
  let bits := !64 (len c * 8) in
  let c := sha1_update c [0x80] in
  c ← pad_loop n (fun c => sha1_update c [0]) 64 c;
  let c := sha1_update c (Sha256.be64 bits) in
  Some (c, concat (map (fun i => Sha256.be32 (rd (h c) (Z.of_nat i))) (seq 0 5))).

Definition raw : sha1_ctx := mkSha1 (replicate 5 0) 0 (replicate 64 0) 0.

Definition sha1 (data : list Z) : option (list Z) :=
  snd <$> sha1_final (sha1_update (sha1_init raw) data).

Example sha1_vectors :
  sha1 (str "abc") = Some (hex_to_bytes (str "a9993e364706816aba3e25717850c26c9cd0d89d") 20) /\
  sha1 (str "abcdbcdecdefdefgefghfghighijhijkijkljklmklmnlmnomnopnopq")
  = Some (hex_to_bytes (str "84983e441c3bd26ebaae4aa1f95129e5e54670f1") 20).
Proof. vm_compute. split; reflexivity. Qed.

End Sha1.

(** ** Merkle-Damgaard hashing *)

(** The message cut into [n] blocks of 64 bytes. *)
Fixpoint chunks (n : nat) (l : list Z) : list (list Z) :=
  match n with
  | O => []
  | S n => take 64 l :: chunks n (drop 64 l)
  end.
Definition blocks_of (l : list Z) : list (list Z) := chunks (length l / 64) l.

(** FIPS 180-4, 5.1.1: a one bit, zeros up to 8 bytes before a block boundary, and
    the length in bits. *)
Definition md_pad (m : list Z) : list Z :=
  m ++ [0x80] ++ replicate (Z.to_nat ((55 - zlen m) mod 64)) 0 ++ Sha256.be64 (!64 (zlen m * 8)).

Definition is_chunk (b : list Z) : Prop := length b = 64%nat.

Lemma concat_chunk_length bs : Forall is_chunk bs -> length (concat bs) = (64 * length bs)%nat.
Proof.
  induction 1 as [| b bs Hb _ IH]; [done |]. simpl. rewrite length_app, IH, Hb. lia.
Qed.

Lemma chunks_concat bs r : Forall is_chunk bs -> chunks (length bs) (concat bs ++ r) = bs.
Proof.
  induction 1 as [| b bs Hb _ IH]; [done |]. simpl. rewrite <- app_assoc.
  by rewrite take_app_length', drop_app_length', IH by done.
Qed.

Lemma blocks_of_concat bs : Forall is_chunk bs -> blocks_of (concat bs) = bs.
Proof.
  intros Hb. unfold blocks_of. rewrite concat_chunk_length, Nat.mul_comm, Nat.div_mul by done.
  rewrite <- (app_nil_r (concat bs)). by apply chunks_concat.
Qed.

Section MD.
Context (compress : list Z -> list Z -> list Z) (h0 : list Z).

(** The hash of a message, before its words are written out. *)
Definition md (m : list Z) : list Z := fold_left compress (blocks_of (md_pad m)) h0.

(** A running state holds the message [m]: the whole blocks are in [st], and the
    rest is at the front of the buffer. *)
Definition hashed (st buf : list Z) (level : Z) (m : list Z) : Prop :=
  exists bs r, m = concat bs ++ r /\ Forall is_chunk bs /\ (length r < 64)%nat /\
    st = fold_left compress bs h0 /\ level = zlen r /\ zlen buf = 64 /\ take (length r) buf = r.

Lemma hashed_nil buf : zlen buf = 64 -> hashed h0 buf 0 [].
Proof. intros Hb. exists [], []. split_and!; done || (simpl; lia). Qed.

Lemma hashed_level st buf level m : hashed st buf level m -> level = zlen m mod 64 /\ 0 <= level < 64.
Proof.
  intros (bs & r & -> & Hbs & Hr & _ & -> & _). unfold zlen.
  rewrite length_app, (concat_chunk_length bs) by done.
  split; [Z.div_mod_to_equations; lia | lia].
Qed.

Lemma take_blit buf level r x :
  zlen r = level -> take (length r) buf = r -> level + zlen x <= zlen buf ->
  take (length (r ++ x)) (blit buf level x) = r ++ x.
Proof.
  unfold zlen. intros Hr Hb Hl. unfold blit. rewrite length_app.
  replace (Z.to_nat level) with (length r) by lia. rewrite Hb, app_assoc.
  rewrite <- length_app. by rewrite take_app_length.
Qed.

(** Bytes that fit in the buffer: short of filling it, and filling it. *)
Lemma hashed_absorb st buf level m x :
  hashed st buf level m -> level + zlen x < 64 ->
  hashed st (blit buf level x) (level + zlen x) (m ++ x).
Proof.
  intros (bs & r & -> & Hbs & Hr & -> & -> & Hz & Ht) Hx. exists bs, (r ++ x).
  rewrite app_assoc. pose proof (zlen_nonneg r). pose proof (zlen_nonneg x).
  split_and!; [done | done | rewrite length_app; unfold zlen in *; lia | done | by rewrite zlen_app
    | rewrite blit_length; lia | apply take_blit; done || lia].
Qed.

Lemma hashed_fill st buf level m x :
  hashed st buf level m -> level + zlen x = 64 ->
  hashed (compress st (blit buf level x)) (blit buf level x) 0 (m ++ x).
Proof.
  intros (bs & r & -> & Hbs & Hr & -> & -> & Hz & Ht) Hx.
  assert (E : blit buf (zlen r) x = r ++ x).
  { rewrite <- (take_blit buf (zlen r) r x) by (done || lia). symmetry. apply firstn_all2.
    pose proof (blit_length buf (zlen r) x). pose proof (zlen_nonneg r).
    rewrite length_app. unfold zlen in *. lia. }
  exists (bs ++ [r ++ x]), []. rewrite concat_app, fold_left_app, app_nil_r, <- app_assoc. simpl.
  rewrite app_nil_r, E. split_and!; try done.
  - apply Forall_app. split; [done |]. apply Forall_singleton. unfold is_chunk. rewrite length_app.
    unfold zlen in *. lia.
  - lia.
  - rewrite zlen_app. lia.
Qed.

(** A block taken straight from the input. *)
Lemma hashed_block st buf m x :
  hashed st buf 0 m -> length x = 64%nat -> hashed (compress st x) buf 0 (m ++ x).
Proof.
  intros (bs & r & -> & Hbs & Hr & -> & Hl & Hz & Ht) Hx.
  assert (r = []) as -> by (destruct r; [done | unfold zlen in Hl; simpl in Hl; lia]).
  exists (bs ++ [x]), []. rewrite concat_app, fold_left_app, !app_nil_r. simpl.
  rewrite app_nil_r. split_and!; try done. apply Forall_app. by split; [| apply Forall_singleton].
Qed.

(** A state that holds a padded message is its hash. *)
Lemma hashed_padded st buf m : hashed st buf 0 (md_pad m) -> st = md m.
Proof.
  intros (bs & r & Hm & Hbs & _ & -> & Hl & _).
  assert (r = []) as -> by (destruct r; [done | unfold zlen in Hl; simpl in Hl; lia]).
  rewrite app_nil_r in Hm. unfold md. by rewrite Hm, blocks_of_concat.
Qed.
End MD.

(** The padding loop on any context that holds a message. *)
Lemma pad_loop_spec {C} (holds : C -> list Z -> Prop) (level : C -> Z) (feed : C -> C) c m fuel :
  (forall c m, holds c m -> level c = zlen m mod 64) ->
  (forall c m, holds c m -> holds (feed c) (m ++ [0])) ->
  holds c m -> (56 - zlen m) mod 64 <= Z.of_nat fuel ->
  exists c', pad_loop level feed fuel c = Some c' /\
    holds c' (m ++ replicate (Z.to_nat ((56 - zlen m) mod 64)) 0).
Proof.
  intros Hl Hf. revert c m. induction fuel as [| fuel IH]; intros c m Hc Hk; simpl; rewrite (Hl c m Hc).
  - replace (zlen m mod 64 =? 56) with true by (Z.div_mod_to_equations; lia).
    exists c. split; [done |]. replace (Z.to_nat _) with 0%nat by (Z.div_mod_to_equations; lia).
    by rewrite app_nil_r.
  - case_if.
    + exists c. split; [done |]. replace (Z.to_nat _) with 0%nat by (Z.div_mod_to_equations; lia).
      by rewrite app_nil_r.
    + assert (Hz : zlen (m ++ [0]) = zlen m + 1) by (rewrite zlen_app; done).
      destruct (IH (feed c) (m ++ [0])) as (c' & E & H'); [by apply Hf | rewrite Hz; Z.div_mod_to_equations; lia |].
      exists c'. split; [done |]. rewrite <- app_assoc in H'. simpl in H'.
      replace (Z.to_nat ((56 - zlen m) mod 64)) with (S (Z.to_nat ((56 - zlen (m ++ [0])) mod 64)))
        by (rewrite Hz; Z.div_mod_to_equations; lia).
      done.
Qed.

(** The closing of either hash: the context after its last update holds the
    padded message, and its buffer is empty. *)
Lemma padded_spec {C} (holds : C -> list Z -> Prop) (level : C -> Z) (upd : C -> list Z -> C) c m :
  (forall c m, holds c m -> level c = zlen m mod 64) ->
  (forall c m d, holds c m -> holds (upd c d) (m ++ d)) ->
  holds c m ->
  exists c', pad_loop level (fun c => upd c [0]) 64 (upd c [0x80]) = Some c' /\
    let c'' := upd c' (Sha256.be64 (!64 (zlen m * 8))) in holds c'' (md_pad m) /\ level c'' = 0.
Proof.
  intros Hl Hu Hc. assert (Hz : zlen (m ++ [0x80]) = zlen m + 1) by by rewrite zlen_app.
  destruct (pad_loop_spec holds level (fun c => upd c [0]) (upd c [0x80]) (m ++ [0x80]) 64)
    as (c' & E & Hc'); [done | auto | auto | Z.div_mod_to_equations; lia |].
  exists c'. split; [done |]. cbv zeta.
  apply (Hu _ _ (Sha256.be64 (!64 (zlen m * 8)))) in Hc'. rewrite Hz in Hc'.
  replace (56 - (zlen m + 1)) with (55 - zlen m) in Hc' by lia.
  rewrite <- !app_assoc in Hc'. change (m ++ _) with (md_pad m) in Hc'. split; [done |].
  rewrite (Hl _ _ Hc'). unfold md_pad. rewrite !zlen_app, zlen_replicate.
  change (zlen [128]) with 1. change (zlen (Sha256.be64 _)) with 8. Z.div_mod_to_equations. lia.
Qed.

(** ** SHA-256 holds what it was fed *)

Module Sha256Spec.
Import Sha256.

Definition digest (m : list Z) : list Z :=
  concat (map (fun i => be32 (rd (md compress H0 m) (Z.of_nat i))) (seq 0 8)).

Definition holds (ctx : sha256_ctx) (m : list Z) : Prop :=
  hashed compress H0 (state ctx) (buf ctx) (buf_len ctx) m /\ bitlen ctx = !64 (zlen m * 8).

Lemma holds_init ctx : zlen (buf ctx) = 64 -> holds (sha256_init ctx) [].
Proof. intros Hb. split; [by apply hashed_nil | done]. Qed.

Lemma bits_add m x : !64 (!64 (zlen m * 8) + zlen x * 8) = !64 (zlen (m ++ x) * 8).
Proof.
  unfold u64. rewrite Z.add_mod_idemp_l by lia. rewrite zlen_app. f_equal. lia.
Qed.

Lemma update_step_holds ctx p m :
  holds ctx m -> p <> [] ->
  exists x, p = x ++ snd (update_step ctx p) /\ x <> [] /\ holds (fst (update_step ctx p)) (m ++ x).
Proof.
  intros [Hh Hb] Hp. destruct (hashed_level _ _ _ _ _ _ Hh) as [_ Hlv].
  assert (Hpos : 0 < zlen p) by (destruct p; [done | rewrite zlen_cons; pose proof (zlen_nonneg p); lia]).
  unfold update_step, SHA256_BLOCK_SIZE. cbv zeta.
  set (tk := if zlen p <? 64 - buf_len ctx then zlen p else 64 - buf_len ctx).
  assert (Htk : 0 < tk <= zlen p /\ buf_len ctx + tk <= 64) by (unfold tk; case_if; lia).
  set (x := sub p 0 tk). assert (Hx : zlen x = tk) by (unfold x; apply sub_length; lia).
  assert (E : p = x ++ drop (Z.to_nat tk) p) by (unfold x; rewrite sub_0; by rewrite take_drop).
  assert (x <> []) by (intros Hn; rewrite Hn in Hx; change (zlen []) with 0 in Hx; lia).
  exists x. simpl. rewrite u32_small, Hb, <- Hx, bits_add by lia. rewrite Hx. case_if; simpl.
  - split_and!; [done | done |]. split; [| done]. apply hashed_fill; [done | lia].
  - split_and!; [done | done |]. split; [| done]. simpl. rewrite <- Hx. apply hashed_absorb; [done | lia].
Qed.

Lemma update_loop_holds fuel ctx p m :
  holds ctx m -> (length p <= fuel)%nat -> holds (update_loop fuel ctx p) (m ++ p).
Proof.
  revert ctx p m. induction fuel as [| fuel IH]; intros ctx p m Hh Hl.
  { destruct p; [by rewrite app_nil_r | simpl in Hl; lia]. }
  destruct p as [| b p]; [by rewrite app_nil_r |].
  destruct (update_step_holds ctx (b :: p) m Hh) as (x & E & Hx & Hs); [done |].
  simpl update_loop. destruct (update_step ctx (b :: p)) as [ctx' p']. simpl in E, Hs.
  rewrite E, app_assoc. apply IH; [done |].
  assert (length (b :: p) = length (x ++ p')) as El by by rewrite E.
  rewrite length_app in El. destruct x; [done |]. simpl in *. lia.
Qed.

Lemma update_holds ctx m d : holds ctx m -> holds (sha256_update ctx d) (m ++ d).
Proof. intros H. by apply update_loop_holds. Qed.

Lemma holds_level ctx m : holds ctx m -> buf_len ctx = zlen m mod 64.
Proof. intros [H _]. by apply hashed_level in H as [-> _]. Qed.

Lemma final_digest ctx m :
  holds ctx m -> exists ctx', sha256_final ctx = Some (ctx', digest m) /\ zlen (buf ctx') = 64.
Proof.
  intros Hh. unfold sha256_final.
  destruct (padded_spec holds buf_len sha256_update ctx m) as (c' & -> & Hc & Hl0);
    [apply holds_level | apply update_holds | done |].
  destruct Hh as [_ ->]. simpl. eexists. split; [f_equal; f_equal |].
  - destruct Hc as [Hc _]. rewrite Hl0 in Hc. unfold digest.
    by rewrite <- (hashed_padded compress H0 _ _ _ Hc).
  - by destruct Hc as [(bs & r & _ & _ & _ & _ & _ & Hz & _) _].
Qed.
End Sha256Spec.

(** ** SHA-1 holds what it was fed *)

Module Sha1Spec.
Import Sha1.

Definition digest (m : list Z) : list Z :=
  concat (map (fun i => Sha256.be32 (rd (md compress H0 m) (Z.of_nat i))) (seq 0 5)).

Definition holds (c : sha1_ctx) (m : list Z) : Prop :=
  hashed compress H0 (h c) (buf c) (n c) m /\ len c = !64 (zlen m).

(** The compression function reads the first 64 bytes it is given. *)
Lemma for_range_ext {St} (f g : Z -> St -> St) k p s :
  (forall q s, p <= q < p + Z.of_nat k -> f q s = g q s) -> for_range k p f s = for_range k p g s.
Proof.
  revert p s. induction k as [| k IH]; intros p s Hfg; [done |]. simpl.
  rewrite Hfg by lia. apply IH. intros q s' Hq. apply Hfg. lia.
Qed.

Lemma rd_prefix l k i : 0 <= i < Z.of_nat k -> rd (take k l) i = rd l i.
Proof. intros Hi. unfold rd. by rewrite lookup_take_lt by lia. Qed.

Lemma compress_take st p : compress st p = compress st (take 64 p).
Proof.
  unfold compress. replace (schedule (take 64 p)) with (schedule p); [done |].
  unfold schedule. f_equal. apply for_range_ext. intros i w Hi. f_equal.
  unfold Sha256.load_be32. by rewrite !rd_prefix by lia.
Qed.

Lemma holds_init1 c : zlen (buf c) = 64 -> holds (sha1_init c) [].
Proof. intros Hb. split; [by apply hashed_nil | done]. Qed.

(** The two loops of the update keep the length field; [m] is what is absorbed. *)
Definition absorbed (c : sha1_ctx) (m : list Z) : Prop := hashed compress H0 (h c) (buf c) (n c) m.

Lemma fill_absorbed c p m :
  absorbed c m ->
  let '(c', p') := fill c p in
  len c' = len c /\ exists x, p = x ++ p' /\ absorbed c' (m ++ x) /\ (p' = [] \/ n c' = 0).
Proof.
  intros Hh. destruct (hashed_level _ _ _ _ _ _ Hh) as [_ Hlv]. unfold fill.
  case_if; [| split; [done |]; exists []; rewrite app_nil_r; split_and!; [done | done | right; lia]].
  cbv zeta. set (tk := if zlen p <? 64 - n c then zlen p else 64 - n c).
  pose proof (zlen_nonneg p).
  assert (Htk : 0 <= tk <= zlen p /\ n c + tk <= 64 /\ (tk = zlen p \/ n c + tk = 64))
    by (unfold tk; case_if; lia).
  set (x := sub p 0 tk). assert (Hx : zlen x = tk) by (unfold x; apply sub_length; lia).
  assert (E : p = x ++ drop (Z.to_nat tk) p) by (unfold x; rewrite sub_0; by rewrite take_drop).
  simpl. case_if; simpl; (split; [done |]; exists x; split; [done |]).
  - split; [| by right]. apply hashed_fill; [done | lia].
  - split.
    + unfold absorbed. simpl. rewrite <- Hx. apply hashed_absorb; [done | lia].
    + left. apply nil_length_inv. rewrite length_drop. unfold zlen in *. lia.
Qed.

Lemma blocks_absorbed fuel c p m :
  absorbed c m -> n c = 0 -> (length p <= fuel)%nat ->
  let '(c', p') := blocks_loop fuel c p in
  len c' = len c /\ n c' = 0 /\ zlen p' < 64 /\ exists x, p = x ++ p' /\ absorbed c' (m ++ x).
Proof.
  revert c p m. induction fuel as [| fuel IH]; intros c p m Hh Hn Hf; simpl.
  - split_and!; [done | done | unfold zlen; lia |]. exists []. by rewrite app_nil_r.
  - case_if; [| split_and!; [done | done | lia |]; exists []; by rewrite app_nil_r].
    assert (Hl : (64 <= length p)%nat) by (unfold zlen in *; lia).
    specialize (IH (sha1_block c p) (drop 64 p) (m ++ take 64 p)).
    destruct (blocks_loop fuel _ _) as [c' p']. destruct IH as (E1 & E2 & E3 & x & Ex & Ha).
    + unfold absorbed, sha1_block. simpl. rewrite Hn, compress_take. unfold absorbed in Hh. rewrite Hn in Hh.
      apply hashed_block; [done |]. rewrite length_take. lia.
    + done.
    + rewrite length_drop. lia.
    + split_and!; [done | done | done |]. exists (take 64 p ++ x).
      rewrite <- app_assoc, <- Ex, take_drop, app_assoc. done.
Qed.

Lemma blocks_loop_nil fuel c : blocks_loop fuel c [] = (c, []).
Proof. by destruct fuel. Qed.

Lemma update_holds1 c m d : holds c m -> holds (sha1_update c d) (m ++ d).
Proof.
  intros [Hh Hl]. unfold sha1_update. rewrite Hl. set (c0 := mkSha1 _ _ _ _).
  assert (Hlen : len c0 = !64 (zlen (m ++ d)))
    by (simpl; unfold u64; rewrite Z.add_mod_idemp_l, zlen_app by lia; done).
  pose proof (fill_absorbed c0 d m Hh) as Hf.
  destruct (fill c0 d) as [c1 p1]. destruct Hf as (Hl1 & x & -> & Ha1 & Hp1).
  destruct Hp1 as [-> | Hn1].
  { rewrite blocks_loop_nil. simpl. rewrite app_nil_r in *. split; [done | congruence]. }
  pose proof (blocks_absorbed (length (x ++ p1)) c1 p1 (m ++ x) Ha1 Hn1 ltac:(rewrite length_app; lia)) as Hb.
  destruct (blocks_loop _ c1 p1) as [c2 p2]. destruct Hb as (Hl2 & Hn2 & Hp2 & y & -> & Ha2).
  rewrite <- app_assoc in Ha2. case_if.
  - split; [| simpl; congruence]. simpl. unfold absorbed in Ha2. rewrite Hn2 in Ha2.
    apply (hashed_absorb compress H0 _ _ _ _ p2) in Ha2; [| lia]. by rewrite <- !app_assoc in Ha2.
  - assert (p2 = []) as -> by (apply nil_length_inv; unfold zlen in *; lia).
    rewrite app_nil_r in *. split; [done | congruence].
Qed.

Lemma holds_level1 c m : holds c m -> n c = zlen m mod 64.
Proof. intros [H _]. by apply hashed_level in H as [-> _]. Qed.

Lemma final_digest1 c m :
  holds c m -> exists c', sha1_final c = Some (c', digest m) /\ zlen (buf c') = 64.
Proof.
  intros Hh. unfold sha1_final.
  destruct (padded_spec holds n sha1_update c m) as (c' & -> & Hc & Hl0);
    [apply holds_level1 | apply update_holds1 | done |].
  destruct Hh as [_ ->]. simpl.
  replace (!64 (!64 (zlen m) * 8)) with (!64 (zlen m * 8)) by (unfold u64; by rewrite Z.mul_mod_idemp_l by lia).
  eexists. split; [f_equal; f_equal |].
  - destruct Hc as [Hc _]. rewrite Hl0 in Hc. unfold digest.
    by rewrite <- (hashed_padded compress H0 _ _ _ Hc).
  - by destruct Hc as [(bs & r & _ & _ & _ & _ & _ & Hz & _) _].
Qed.
End Sha1Spec.

(** ** Claims *)

(** The 32 bits of [k] are those of the [e]-th root of [p] after its integer part. *)
Definition root_bits (e p k : Z) : bool :=
  existsb (fun c => let r := Z.of_nat c * 2 ^ 32 + k in
                    (r ^ e <=? p * 2 ^ (32 * e)) && (p * 2 ^ (32 * e) <? (r + 1) ^ e)) (seq 0 20).

(** The constants of SHA-256 are the fractional parts of the cube roots of the
    first 64 primes, and its initial state those of the square roots of the first
    8. *)
Lemma sha256_constants :
  forallb (fun '(p, k) => root_bits 3 (Z.of_nat p) k) (zip (first_primes 310) Sha256.K) = true /\
  length (zip (first_primes 310) Sha256.K) = 64%nat /\
  forallb (fun '(p, k) => root_bits 2 (Z.of_nat p) k) (zip (first_primes 18) Sha256.H0) = true /\
  length (zip (first_primes 18) Sha256.H0) = 8%nat.
Proof. vm_compute. split_and!; reflexivity. Qed.

Lemma sha256_stream ds c m :
  Sha256Spec.holds c m -> Sha256Spec.holds (fold_left Sha256.sha256_update ds c) (m ++ concat ds).
Proof.
  revert c m. induction ds as [| d ds IH]; intros c m Hc; simpl; [by rewrite app_nil_r |].
  rewrite app_assoc. by apply IH, Sha256Spec.update_holds.
Qed.

Lemma sha1_stream ds c m :
  Sha1Spec.holds c m -> Sha1Spec.holds (fold_left Sha1.sha1_update ds c) (m ++ concat ds).
Proof.
  revert c m. induction ds as [| d ds IH]; intros c m Hc; simpl; [by rewrite app_nil_r |].
  rewrite app_assoc. by apply IH, Sha1Spec.update_holds1.
Qed.

Lemma sha256_digest m : Sha256.sha256 m = Some (Sha256Spec.digest m).
Proof.
  unfold Sha256.sha256.
  by destruct (Sha256Spec.final_digest _ _ (Sha256Spec.update_holds _ _ m
                 (Sha256Spec.holds_init Sha256.raw eq_refl))) as (c & -> & _).
Qed.
Lemma sha1_digest m : Sha1.sha1 m = Some (Sha1Spec.digest m).
Proof.
  unfold Sha1.sha1.
  by destruct (Sha1Spec.final_digest1 _ _ (Sha1Spec.update_holds1 _ _ m
                 (Sha1Spec.holds_init1 Sha1.raw eq_refl))) as (c & -> & _).
Qed.

(** C27. Both streaming hashes compute the Merkle-Damgaard hash of what they are
    fed: however a message is cut into updates, and whatever memory the context
    started in, the digest is that of the padded message folded block by block
    through the compression function, and the closing loop always ends. *)
Theorem sha_streaming_exact mem256 mem1 ds :
  zlen (Sha256.buf mem256) = 64 -> zlen (Sha1.buf mem1) = 64 ->
  snd <$> Sha256.sha256_final (fold_left Sha256.sha256_update ds (Sha256.sha256_init mem256))
  = Some (Sha256Spec.digest (concat ds)) /\
  snd <$> Sha1.sha1_final (fold_left Sha1.sha1_update ds (Sha1.sha1_init mem1))
  = Some (Sha1Spec.digest (concat ds)) /\
  Sha256.sha256 (concat ds) = Some (Sha256Spec.digest (concat ds)) /\
  Sha1.sha1 (concat ds) = Some (Sha1Spec.digest (concat ds)).
Proof.
  intros H256 H1. split_and!.
  - destruct (Sha256Spec.final_digest _ _ (sha256_stream ds _ _ (Sha256Spec.holds_init mem256 H256))) as (c & -> & _).
    done.
  - destruct (Sha1Spec.final_digest1 _ _ (sha1_stream ds _ _ (Sha1Spec.holds_init1 mem1 H1))) as (c & -> & _).
    done.
  - apply sha256_digest.
  - apply sha1_digest.
Qed.

Lemma sha_streaming_exact_witness :
  snd <$> Sha256.sha256_final (fold_left Sha256.sha256_update [str "a"; []; str "bc"] (Sha256.sha256_init Sha256.raw))
  = Some (Sha256Spec.digest (str "abc")).
Proof.
  destruct (sha_streaming_exact Sha256.raw Sha1.raw [str "a"; []; str "bc"]) as (E & _);
    [reflexivity | reflexivity | exact E].
Defined.

#[global] Opaque Sha256.sha256_init Sha256.sha256_update Sha256.sha256_final Sha256.sha256
  Sha1.sha1_init Sha1.sha1_update Sha1.sha1_final Sha1.sha1.
