(* ===== verification/Kdf.v ===== *)
(** Keyed hashing and key derivation: models of kernel/crypto/hmac.c and
    kernel/crypto/pbkdf2.c, and of the functions of kernel/net/wifi/wpa2_crypto.c
    that hash ([hmac_sha1], [wifi_wpa2_psk], [wifi_wpa2_ptk], [wifi_wpa2_mic]).

    What a keyed construction needs of a hash is the class [Hash] with its laws
    [HashLaws]; the two hashes of Sha.v are its instances.  The file shows that
    the code computes HMAC of RFC 2104, PBKDF2 of RFC 8018 with either hash, and
    that the pairwise key of a link does not depend on which of its two ends
    derives it.

    Erasing locals before they go out of scope is not observable here and is
    left out; a local array that is written before it is read starts as zeros. *)
From stdpp Require Import strings.
From S2P Require Import Prelude Bytes Aes Sha.

(** ** HMAC *)

Definition xor_bytes (c : Z) (l : list Z) : list Z := map (fun x => Z.lxor x c) l.

Definition hmac_sha256 (key msg : list Z) : option (list Z) :=
  let key_block := replicate 64 0 in
  key_block ← (if Sha256.SHA256_BLOCK_SIZE <? zlen key
               then d ← Sha256.sha256 key; Some (blit key_block 0 d)
               else Some (blit key_block 0 key));
  let ipad := xor_bytes 0x36 key_block in
  let opad := xor_bytes 0x5c key_block in
  let ctx := Sha256.sha256_init Sha256.raw in
  let ctx := Sha256.sha256_update ctx ipad in
  let ctx := Sha256.sha256_update ctx msg in
  '(ctx, inner) ← Sha256.sha256_final ctx;
  let ctx := Sha256.sha256_init ctx in
  let ctx := Sha256.sha256_update ctx opad in
  let ctx := Sha256.sha256_update ctx inner in
  snd <$> Sha256.sha256_final ctx.

Definition hmac_sha1 (key msg : list Z) : option (list Z) :=
  let pad := replicate 64 0 in
  pad ← (if 64 <? zlen key
         then d ← Sha1.sha1 key; Some (blit pad 0 d)
         else Some (blit pad 0 key));
  let pad := xor_bytes 0x36 pad in
  let c := Sha1.sha1_init Sha1.raw in
  let c := Sha1.sha1_update c pad in
  let c := Sha1.sha1_update c msg in
  '(c, inner) ← Sha1.sha1_final c;
  let pad := xor_bytes (Z.lxor 0x36 0x5c) pad in
  let c := Sha1.sha1_init c in
  let c := Sha1.sha1_update c pad in
  let c := Sha1.sha1_update c inner in
  snd <$> Sha1.sha1_final c.

(** RFC 4231, test case 1. *)
Example hmac_vector :
  hmac_sha256 (replicate 20 0x0b) (str "Hi There")
  = Some (hex_to_bytes (str "b0344c61d8db38535ca8afceaf0bf12b881dc200c9833da726e9376c2e32cff7") 32).
Proof. vm_compute. reflexivity. Qed.

(** ** PBKDF2 *)

Definition PBKDF2_MAX_SALT_LEN : Z := 64.

Definition xor_into (t u : list Z) : list Z := zip_with Z.lxor t u.

(** The rounds after the first of one block, for the keyed hash [prf] of the caller. *)
Fixpoint prf_rounds (prf : list Z -> list Z -> option (list Z)) (n : nat) (password u t : list Z)
    : option (list Z) :=
  match n with
  | O => Some t
  | S n => u ← prf password u; prf_rounds prf n password u (xor_into t u)
  end.

(** [while (remaining > 0)]; every turn takes a byte at least. *)
Fixpoint pbkdf2_blocks (fuel : nat) (password salt_block : list Z) (salt_len iterations : Z)
    (block_index remaining : Z) : option (list Z) :=
  if remaining <=? 0 then Some []
  else match fuel with
  | O => None
  | S fuel =>
    let salt_block := wr salt_block (salt_len + 0) (!8 (Z.shiftr block_index 24)) in
    let salt_block := wr salt_block (salt_len + 1) (!8 (Z.shiftr block_index 16)) in
    let salt_block := wr salt_block (salt_len + 2) (!8 (Z.shiftr block_index 8)) in
    let salt_block := wr salt_block (salt_len + 3) (!8 block_index) in
    u ← hmac_sha256 password (sub salt_block 0 (salt_len + 4));
    t ← prf_rounds hmac_sha256 (Z.to_nat (iterations - 1)) password u u;
    let take := if remaining <? Sha256.SHA256_DIGEST_SIZE then remaining else Sha256.SHA256_DIGEST_SIZE in
    rest ← pbkdf2_blocks fuel password salt_block salt_len iterations (!32 (block_index + 1)) (remaining - take);
    Some (sub t 0 take ++ rest)
  end.

(** The bytes written at [out]. *)
Definition pbkdf2_hmac_sha256 (password salt : list Z) (iterations out_len : Z) : option (list Z) :=
  let salt_len := zlen salt in
  let salt_len := if PBKDF2_MAX_SALT_LEN <? salt_len then PBKDF2_MAX_SALT_LEN else salt_len in
  let iterations := if iterations =? 0 then 1 else iterations in
  let salt_block := blit (replicate 68 0) 0 (sub salt 0 salt_len) in
  pbkdf2_blocks (Z.to_nat out_len) password salt_block salt_len iterations 1 out_len.

(** The first vector of the self test. *)
Example pbkdf2_vector :
  pbkdf2_hmac_sha256 (str "password") (str "salt") 1 32
  = Some (hex_to_bytes (str "120fb6cffcf8b32c43e7225256c4f837a86548c92ccc35480805987cb70be17b") 32).
Proof. vm_compute. reflexivity. Qed.

(** ** The keys of a WPA2 link *)

Definition hex (c : Z) : Z :=
  if (48 <=? c) && (c <=? 57) then c - 48
  else if (97 <=? c) && (c <=? 102) then c - 97 + 10
  else if (65 <=? c) && (c <=? 70) then c - 65 + 10
  else -1.

(** 64 hexadecimal digits are the key itself. *)
Fixpoint hex_key (n : nat) (password : list Z) : option (list Z) :=
  match n with
  | O => Some []
  | S n =>
    let a := hex (rd password 0) in
    let b := hex (rd password 1) in
    if (a <? 0) || (b <? 0) then None
    else rest ← hex_key n (drop 2 password); Some (!8 (Z.lor (Z.shiftl a 4) b) :: rest)
  end.

(** The bound of [for (round = 1; round < 4096; round++)]. *)
Definition PSK_ROUNDS : Z := 4096.

Definition psk_block (password ssid : list Z) (block : Z) : option (list Z) :=
  let sn := zlen ssid in
  let salt := blit (replicate 36 0) 0 ssid in
  let salt := wr (wr (wr (wr salt (sn + 2) 0) (sn + 1) 0) sn 0) (sn + 3) block in
  u ← hmac_sha1 password (sub salt 0 (sn + 4));
  accum ← prf_rounds hmac_sha1 (Z.to_nat (PSK_ROUNDS - 1)) password u u;
  let take := if block =? 1 then 20 else 12 in
  Some (sub accum 0 take).

(** The pre-shared key, [None] for the error return. *)
Definition wifi_wpa2_psk (password ssid : list Z) : option (list Z) :=
  let length := zlen password in
  let sn := zlen ssid in
  if (sn =? 0) || (32 <? sn) || (length <? 8) || (64 <? length) then None
  else if length =? 64 then hex_key 32 password
  else if existsb (fun c => (c <? 32) || (126 <? c)) password then None
  else b1 ← psk_block password ssid 1; b2 ← psk_block password ssid 2; Some (b1 ++ b2).

(** [memcmp(a, b, n) < 0] on buffers of one length. *)
Fixpoint mem_lt (a b : list Z) : bool :=
  match a, b with
  | x :: a, y :: b => if x <? y then true else if y <? x then false else mem_lt a b
  | _, _ => false
  end.

Definition label : list Z := str "Pairwise key expansion" ++ [0].

Definition wifi_wpa2_ptk (pmk sta ap snonce anonce : list Z) : option (list Z) :=
  let '(a, b) := if mem_lt sta ap then (sta, ap) else (ap, sta) in
  let '(c, d) := if mem_lt snonce anonce then (snonce, anonce) else (anonce, snonce) in
  let input := label ++ a ++ b ++ c ++ d in
  d0 ← hmac_sha1 pmk (input ++ [0]);
  d1 ← hmac_sha1 pmk (input ++ [1]);
  d2 ← hmac_sha1 pmk (input ++ [2]);
  Some (d0 ++ d1 ++ sub d2 0 8).

Definition wifi_wpa2_mic (kck packet : list Z) : option (list Z) :=
  digest ← hmac_sha1 kck packet; Some (sub digest 0 16).

(** ** What the constructions use of a hash *)

Class Hash (C : Type) := {
  h_init : C -> C;
  h_update : C -> list Z -> C;
  h_final : C -> option (C * list Z);
  h_ready : C -> Prop;
  h_digest : list Z -> list Z;
  h_size : Z;
}.

Class HashLaws (C : Type) `{Hash C} := {
  hash_pass : forall c a b, h_ready c ->
    exists c', h_final (h_update (h_update (h_init c) a) b) = Some (c', h_digest (a ++ b)) /\ h_ready c';
  hash_size : forall m, zlen (h_digest m) = h_size;
  hash_size_ok : h_size <= 64;
  hash_bytes : forall m, Forall is_byte (h_digest m);
}.

#[export] Instance sha256_hash : Hash Sha256.sha256_ctx := {|
  h_init := Sha256.sha256_init; h_update := Sha256.sha256_update; h_final := Sha256.sha256_final;
  h_ready c := zlen (Sha256.buf c) = 64; h_digest := Sha256Spec.digest; h_size := 32 |}.

#[export] Instance sha1_hash : Hash Sha1.sha1_ctx := {|
  h_init := Sha1.sha1_init; h_update := Sha1.sha1_update; h_final := Sha1.sha1_final;
  h_ready c := zlen (Sha1.buf c) = 64; h_digest := Sha1Spec.digest; h_size := 20 |}.

Lemma be32_bytes x : Forall is_byte (Sha256.be32 x).
Proof. repeat (apply Forall_cons_2; [apply u8_range |]). apply Forall_nil_2. Qed.

Lemma concat_map_bytes (f : nat -> list Z) l :
  (forall i, Forall is_byte (f i)) -> Forall is_byte (concat (map f l)).
Proof. intros Hf. induction l as [| i l IH]; [done |]. simpl. apply Forall_app. by split. Qed.

#[export] Instance sha256_laws : HashLaws Sha256.sha256_ctx.
Proof.
  split; [| done | done |].
  - intros c a b Hc. apply Sha256Spec.final_digest.
    apply (Sha256Spec.update_holds _ a), (Sha256Spec.update_holds _ []), Sha256Spec.holds_init, Hc.
  - intros m. apply concat_map_bytes. intros. apply be32_bytes.
Qed.

#[export] Instance sha1_laws : HashLaws Sha1.sha1_ctx.
Proof.
  split; [| done | done |].
  - intros c a b Hc. apply Sha1Spec.final_digest1.
    apply (Sha1Spec.update_holds1 _ a), (Sha1Spec.update_holds1 _ []), Sha1Spec.holds_init1, Hc.
  - intros m. apply concat_map_bytes. intros. apply be32_bytes.
Qed.

(** ** HMAC of RFC 2104 *)

Section Rfc2104.
Context (C : Type) `{HashLaws C}.

Definition key0 (key : list Z) : list Z :=
  let k := if 64 <? zlen key then h_digest key else key in
  k ++ replicate (64 - length k) 0.

Definition rfc2104 (key msg : list Z) : list Z :=
  h_digest (xor_bytes 0x5c (key0 key) ++ h_digest (xor_bytes 0x36 (key0 key) ++ msg)).

Lemma key0_blit key :
  blit (replicate 64 0) 0 (if 64 <? zlen key then h_digest key else key) = key0 key.
Proof.
  unfold key0. set (k := if 64 <? zlen key then h_digest key else key).
  assert (Hk : (length k <= 64)%nat).
  { unfold k. pose proof (hash_size key). pose proof hash_size_ok.
    case_if; unfold zlen in *; lia. }
  unfold blit. change (Z.to_nat 0) with 0%nat. by rewrite take_0, app_nil_l, drop_replicate.
Qed.

Lemma hmac_passes c ipad opad msg :
  h_ready c ->
  ('(c, inner) ← h_final (h_update (h_update (h_init c) ipad) msg);
   snd <$> h_final (h_update (h_update (h_init c) opad) inner))
  = Some (h_digest (opad ++ h_digest (ipad ++ msg))).
Proof.
  intros Hc. destruct (hash_pass c ipad msg Hc) as (c1 & -> & Hc1). simpl.
  by destruct (hash_pass c1 opad (h_digest (ipad ++ msg)) Hc1) as (c2 & -> & _).
Qed.

Lemma rfc2104_size key msg : zlen (rfc2104 key msg) = h_size.
Proof. apply hash_size. Qed.
Lemma rfc2104_bytes key msg : Forall is_byte (rfc2104 key msg).
Proof. apply hash_bytes. Qed.
End Rfc2104.

Abbreviation hmac256 := (rfc2104 Sha256.sha256_ctx).
Abbreviation hmac1 := (rfc2104 Sha1.sha1_ctx).

Lemma xor_bytes_twice a b l : xor_bytes b (xor_bytes a l) = xor_bytes (Z.lxor a b) l.
Proof.
  unfold xor_bytes. rewrite map_map. apply map_ext. intros x. apply Z.lxor_assoc.
Qed.

Lemma bind_some {A B} (x : A) (f : A -> option B) : (Some x ≫= f) = f x.
Proof. done. Qed.

Lemma hmac_sha256_eq key msg : hmac_sha256 key msg = Some (hmac256 key msg).
Proof.
  unfold hmac_sha256. rewrite sha256_digest.
  assert (E : (if Sha256.SHA256_BLOCK_SIZE <? zlen key
               then d ← Some (Sha256Spec.digest key); Some (blit (replicate 64 0) 0 d)
               else Some (blit (replicate 64 0) 0 key)) = Some (key0 Sha256.sha256_ctx key)).
  { rewrite <- (key0_blit Sha256.sha256_ctx). unfold Sha256.SHA256_BLOCK_SIZE.
    destruct (64 <? zlen key); reflexivity. }
  rewrite E, bind_some.
  exact (hmac_passes Sha256.sha256_ctx Sha256.raw (xor_bytes 0x36 (key0 Sha256.sha256_ctx key))
              (xor_bytes 0x5c (key0 Sha256.sha256_ctx key)) msg eq_refl).
Qed.

Lemma hmac_sha1_eq key msg : hmac_sha1 key msg = Some (hmac1 key msg).
Proof.
  unfold hmac_sha1. rewrite sha1_digest.
  assert (E : (if 64 <? zlen key
               then d ← Some (Sha1Spec.digest key); Some (blit (replicate 64 0) 0 d)
               else Some (blit (replicate 64 0) 0 key)) = Some (key0 Sha1.sha1_ctx key)).
  { rewrite <- (key0_blit Sha1.sha1_ctx). destruct (64 <? zlen key); reflexivity. }
  rewrite E, bind_some. rewrite xor_bytes_twice.
  exact (hmac_passes Sha1.sha1_ctx Sha1.raw (xor_bytes 0x36 (key0 Sha1.sha1_ctx key))
              (xor_bytes 0x5c (key0 Sha1.sha1_ctx key)) msg eq_refl).
Qed.

(** ** PBKDF2 of RFC 8018 *)

Section Rfc8018.
Context (prf : list Z -> list Z -> list Z) (hlen : nat).

(** The function F: the exclusive or of the first [c] iterates. *)
Definition rfc8018_F (password salt : list Z) (c : nat) (i : Z) : list Z :=
  let u := prf password (salt ++ Sha256.be32 i) in
  fold_left xor_into (map (fun k => Nat.iter k (prf password) u) (seq 1 (c - 1))) u.

Definition rfc8018 (password salt : list Z) (c : nat) (len : nat) : list Z :=
  take len (concat (map (fun i => rfc8018_F password salt c (Z.of_nat i))
                        (seq 1 ((len + hlen - 1) / hlen)))).

Lemma prf_rounds_eq prf' n password u t :
  (forall k m, prf' k m = Some (prf k m)) ->
  prf_rounds prf' n password u t
  = Some (fold_left xor_into (map (fun k => Nat.iter k (prf password) u) (seq 1 n)) t).
Proof.
  intros Hp. revert u t. induction n as [| n IH]; intros u t; [done |].
  simpl prf_rounds. rewrite Hp, bind_some, IH. f_equal. simpl. f_equal.
  rewrite <- (seq_shift n 1), map_map. apply map_ext. intros k. by rewrite Nat.iter_succ_r.
Qed.

Hypothesis prf_size : forall k m, length (prf k m) = hlen.

Lemma xor_into_length t u : length t = hlen -> length u = hlen -> length (xor_into t u) = hlen.
Proof. intros Ht Hu. unfold xor_into. rewrite length_zip_with. lia. Qed.

Lemma F_length password salt c i : length (rfc8018_F password salt c i) = hlen.
Proof.
  unfold rfc8018_F. set (u := prf password _).
  assert (Hu : length u = hlen) by apply prf_size. generalize Hu. generalize u at 1 3 as t.
  assert (Hl : Forall (fun l => length l = hlen) (map (fun k => Nat.iter k (prf password) u) (seq 1 (c - 1)))).
  { apply Forall_fmap, Forall_forall. intros k Hk%elem_of_seq. unfold compose.
    destruct k as [| k]; [lia |]. apply prf_size. }
  induction Hl as [| x l Hx _ IH]; intros t Ht; [done |]. simpl. apply IH. by apply xor_into_length.
Qed.
End Rfc8018.

Lemma put_index salt_block salt sl i :
  zlen salt_block = 68 -> zlen salt = sl -> 0 <= sl <= 64 -> sub salt_block 0 sl = salt ->
  let b := wr (wr (wr (wr salt_block (sl + 0) (!8 (Z.shiftr i 24))) (sl + 1) (!8 (Z.shiftr i 16)))
                  (sl + 2) (!8 (Z.shiftr i 8))) (sl + 3) (!8 i) in
  zlen b = 68 /\ sub b 0 sl = salt /\ sub b 0 (sl + 4) = salt ++ Sha256.be32 i.
Proof.
  intros Hz Hs Hsl Hb b.
  assert (Hzb : zlen b = 68) by (unfold b, zlen in *; by rewrite !wr_length).
  assert (Hlo : sub b 0 sl = salt).
  { rewrite <- Hb. apply rd_ext; [pose proof (sub_length b 0 sl); pose proof (sub_length salt_block 0 sl);
                                  unfold zlen in *; lia |].
    intros k Hk. rewrite sub_length in Hk by lia. rewrite !rd_sub by lia.
    unfold b. by rewrite !rd_wr_ne by lia. }
  split_and!; [done | done |]. rewrite sub_split, Hlo by lia. f_equal.
  apply rd_ext; [pose proof (sub_length b (0 + sl) 4); unfold zlen in *; simpl; lia |].
  intros k Hk. rewrite sub_length in Hk by lia. rewrite rd_sub by lia.
  assert (Hl : 68 = Z.of_nat (length salt_block)) by (unfold zlen in Hz; lia).
  assert (k = 0 \/ k = 1 \/ k = 2 \/ k = 3) as [-> | [-> | [-> | ->]]] by lia; unfold b;
    repeat first [rewrite rd_wr_eq by (rewrite ?wr_length; lia) | rewrite rd_wr_ne by lia];
    rewrite ?Z.add_0_l; done.
Qed.

Lemma hmac256_length k m : length (hmac256 k m) = 32%nat.
Proof. pose proof (rfc2104_size Sha256.sha256_ctx k m) as H. unfold zlen in H. simpl h_size in H. lia. Qed.
Lemma hmac1_length k m : length (hmac1 k m) = 20%nat.
Proof. pose proof (rfc2104_size Sha1.sha1_ctx k m) as H. unfold zlen in H. simpl h_size in H. lia. Qed.

Lemma blocks_eq fuel password salt_block salt sl c i r :
  zlen salt_block = 68 -> zlen salt = sl -> 0 <= sl <= 64 -> sub salt_block 0 sl = salt ->
  (r <= fuel)%nat -> Z.of_nat (i + (r + 31) / 32) < 2 ^ 32 -> 1 <= c ->
  pbkdf2_blocks fuel password salt_block sl c (Z.of_nat i) (Z.of_nat r)
  = Some (take r (concat (map (fun i => rfc8018_F hmac256 password salt (Z.to_nat c) (Z.of_nat i))
                              (seq i ((r + 31) / 32))))).
Proof.
  intros Hz Hs Hsl Hb. revert salt_block Hz Hb i r. induction fuel as [| fuel IH]; intros sb Hz Hb i r Hf Hi Hc.
  { replace r with 0%nat by lia. done. }
  simpl pbkdf2_blocks. destruct (decide (r = 0%nat)) as [-> |]; [done |].
  replace (Z.of_nat r <=? 0) with false by lia.
  destruct (put_index sb salt sl (Z.of_nat i) Hz Hs Hsl Hb) as (Hz' & Hb' & Hm). cbv zeta in Hz', Hb', Hm.
  rewrite Hm, hmac_sha256_eq, bind_some.
  rewrite (prf_rounds_eq hmac256) by apply hmac_sha256_eq. rewrite bind_some.
  replace (Z.to_nat (c - 1)) with (Z.to_nat c - 1)%nat by lia.
  change (fold_left xor_into _ _) with (rfc8018_F hmac256 password salt (Z.to_nat c) (Z.of_nat i)).
  set (t := rfc8018_F hmac256 password salt (Z.to_nat c) (Z.of_nat i)).
  assert (Ht : length t = 32%nat) by apply F_length, hmac256_length.
  unfold Sha256.SHA256_DIGEST_SIZE. set (tk := if Z.of_nat r <? 32 then Z.of_nat r else 32).
  assert (Htk : tk = Z.of_nat (min r 32)) by (unfold tk; case_if; lia).
  assert (Hn : ((r + 31) / 32 = S ((r - min r 32 + 31) / 32))%nat).
  { destruct (decide (r < 32)%nat) as [Hr |].
    - replace (r - min r 32 + 31)%nat with 31%nat by lia. symmetry. apply Nat.div_unique with (r - 1)%nat; simpl; lia.
    - replace (r + 31)%nat with (r - min r 32 + 31 + 1 * 32)%nat by lia. rewrite Nat.div_add by lia. lia. }
  replace (Z.of_nat r - tk) with (Z.of_nat (r - min r 32)) by lia.
  rewrite u32_small by lia. replace (Z.of_nat i + 1) with (Z.of_nat (S i)) by lia.
  rewrite IH by (done || lia). rewrite bind_some. f_equal. rewrite Hn. simpl.
  fold t. rewrite sub_0, take_app, Ht. f_equal; [| f_equal; lia].
  rewrite Htk, Nat2Z.id. destruct (decide (r < 32)%nat); [f_equal; lia |]. rewrite !firstn_all2 by lia. done.
Qed.

(** ** The keys of a link *)

(** The salt of a block: the network's name and the block's number. *)
Lemma psk_salt ssid block :
  zlen ssid <= 32 -> 0 <= block < 256 ->
  sub (wr (wr (wr (wr (blit (replicate 36 0) 0 ssid) (zlen ssid + 2) 0) (zlen ssid + 1) 0)
                  (zlen ssid) 0) (zlen ssid + 3) block) 0 (zlen ssid + 4)
  = ssid ++ Sha256.be32 block.
Proof.
  intros Hs Hb. pose proof (zlen_nonneg ssid). set (s0 := blit (replicate 36 0) 0 ssid).
  assert (Hz : zlen s0 = 36) by (unfold s0; rewrite blit_length; rewrite ?zlen_replicate; lia).
  assert (Hl : 36 = Z.of_nat (length s0)) by (unfold zlen in Hz; lia).
  set (b := wr _ _ _). assert (Hzb : zlen b = 36) by (unfold b, zlen in *; by rewrite !wr_length).
  apply rd_ext.
  { pose proof (sub_length b 0 (zlen ssid + 4)) as Hsub. rewrite length_app.
    unfold zlen in *. change (length (Sha256.be32 block)) with 4%nat. lia. }
  intros k Hk. rewrite sub_length in Hk by lia. rewrite rd_sub, Z.add_0_l by lia.
  destruct (decide (k < zlen ssid)) as [Hlt |]; unfold b.
  - rewrite !rd_wr_ne by lia. unfold s0. rewrite rd_blit_eq by (rewrite ?zlen_replicate; lia).
    rewrite Z.sub_0_r. symmetry. apply rd_app_l. unfold zlen in Hlt. lia.
  - rewrite rd_app_r by (unfold zlen in *; lia). change (Z.of_nat (length ssid)) with (zlen ssid).
    assert (k = zlen ssid \/ k = zlen ssid + 1 \/ k = zlen ssid + 2 \/ k = zlen ssid + 3)
      as [-> | [-> | [-> | ->]]] by lia;
    repeat first [rewrite rd_wr_eq by (rewrite ?wr_length; lia) | rewrite rd_wr_ne by lia];
    rewrite ?Z.add_simpl_l, ?Z.sub_diag; unfold Sha256.be32, rd; simpl;
    rewrite ?Z.shiftr_div_pow2 by lia; rewrite ?Z.div_small by lia; try done; by rewrite u8_small by lia.
Qed.

#[local] Opaque PSK_ROUNDS.

Lemma psk_block_eq password ssid block :
  zlen ssid <= 32 -> 0 <= block < 256 ->
  psk_block password ssid block
  = Some (take (if block =? 1 then 20%nat else 12%nat)
               (rfc8018_F hmac1 password ssid (Z.to_nat PSK_ROUNDS) block)).
Proof.
  intros Hs Hb. unfold psk_block. rewrite psk_salt, hmac_sha1_eq, bind_some by done.
  rewrite (prf_rounds_eq hmac1) by apply hmac_sha1_eq.
  rewrite bind_some, sub_0. replace (Z.to_nat (PSK_ROUNDS - 1)) with (Z.to_nat PSK_ROUNDS - 1)%nat by lia.
  by destruct (block =? 1).
Qed.

Lemma mem_lt_swap a b : length a = length b -> a <> b -> mem_lt a b = negb (mem_lt b a).
Proof.
  revert b. induction a as [| x a IH]; intros [| y b] Hl Hne; try done. simpl in *.
  destruct (x <? y) eqn:E1, (y <? x) eqn:E2; try done; [lia |].
  apply IH; [lia |]. intros ->. apply Hne. f_equal. lia.
Qed.

(** The two ends of a pair in either order are sorted the same way. *)
Lemma sorted_pair a b :
  length a = length b -> (if mem_lt a b then (a, b) else (b, a)) = (if mem_lt b a then (b, a) else (a, b)).
Proof.
  intros Hl. destruct (decide (a = b)) as [-> |]; [by destruct (mem_lt b b) |].
  rewrite (mem_lt_swap a b) by done. by destruct (mem_lt b a).
Qed.

Lemma pbkdf2_eq password salt iterations out_len :
  0 <= iterations < 2 ^ 32 -> 0 <= out_len <= 2 ^ 36 ->
  pbkdf2_hmac_sha256 password salt iterations out_len
  = Some (rfc8018 hmac256 32 password (take 64 salt) (Z.to_nat (Z.max 1 iterations)) (Z.to_nat out_len)).
Proof.
  intros Hi Ho. unfold pbkdf2_hmac_sha256, PBKDF2_MAX_SALT_LEN. cbv zeta.
  set (sl := if 64 <? zlen salt then 64 else zlen salt).
  assert (Hsl : 0 <= sl <= 64 /\ sl <= zlen salt) by (pose proof (zlen_nonneg salt); unfold sl; case_if; lia).
  assert (Hz : zlen (sub salt 0 sl) = sl) by (apply sub_length; lia).
  assert (E : sub salt 0 sl = take 64 salt).
  { rewrite sub_0. unfold sl. case_if; [done |]. rewrite !firstn_all2; unfold zlen in *; lia || done. }
  replace (if iterations =? 0 then 1 else iterations) with (Z.max 1 iterations) by (case_if; lia).
  pose proof (blocks_eq (Z.to_nat out_len) password (blit (replicate 68 0) 0 (sub salt 0 sl)) (take 64 salt)
                sl (Z.max 1 iterations) 1 (Z.to_nat out_len)) as H.
  rewrite Z2Nat.id in H by lia. change (Z.of_nat 1) with 1 in H. rewrite H; clear H.
  - unfold rfc8018. by replace (Z.to_nat out_len + 32 - 1)%nat with (Z.to_nat out_len + 31)%nat by lia.
  - rewrite blit_length; rewrite ?zlen_replicate; lia.
  - by rewrite <- E.
  - lia.
  - rewrite E. apply sub_blit_eq; rewrite ?zlen_replicate; rewrite <- ?E; lia.
  - lia.
  - rewrite Nat2Z.inj_add, Nat2Z.inj_div. Z.div_mod_to_equations. lia.
  - lia.
Qed.

Lemma psk_eq password ssid :
  8 <= zlen password < 64 -> Forall (fun c => 32 <= c <= 126) password -> 1 <= zlen ssid <= 32 ->
  wifi_wpa2_psk password ssid = Some (rfc8018 hmac1 20 password ssid (Z.to_nat PSK_ROUNDS) 32).
Proof.
  intros Hp Hpr Hs. unfold wifi_wpa2_psk. cbv zeta.
  replace ((zlen ssid =? 0) || (32 <? zlen ssid) || (zlen password <? 8) || (64 <? zlen password))
    with false by lia.
  replace (zlen password =? 64) with false by lia.
  replace (existsb (fun c => (c <? 32) || (126 <? c)) password) with false; cycle 1.
  { symmetry. apply not_true_iff_false. intros (c & Hc & Hb)%existsb_exists.
    rewrite Forall_forall in Hpr. specialize (Hpr c ltac:(by apply list_elem_of_In)). lia. }
  rewrite !psk_block_eq, !bind_some by lia. generalize (Z.to_nat PSK_ROUNDS) as c. intros c.
  apply (f_equal Some). unfold rfc8018. change ((32 + 20 - 1) / 20)%nat with 2%nat.
  change (seq 1 2) with [1%nat; 2%nat]. change (2 =? 1) with false. change (1 =? 1) with true.
  set (F := rfc8018_F hmac1 password ssid c).
  assert (HF : forall i, length (F i) = 20%nat) by (intros i; apply F_length, hmac1_length).
  change (take 20 (F 1) ++ take 12 (F 2) = take 32 (F 1 ++ F 2 ++ [])).
  rewrite app_nil_r, take_app, (HF 1), !(firstn_all2 (F 1)) by (rewrite HF; lia). done.
Qed.

Lemma psk_refused password ssid :
  zlen ssid = 0 \/ 32 < zlen ssid \/ zlen password < 8 \/ 64 < zlen password
  \/ (zlen password <> 64 /\ ~ Forall (fun c => 32 <= c <= 126) password) -> wifi_wpa2_psk password ssid = None.
Proof.
  intros Hbad. unfold wifi_wpa2_psk. cbv zeta.
  destruct ((zlen ssid =? 0) || (32 <? zlen ssid) || (zlen password <? 8) || (64 <? zlen password)) eqn:E1; [done |].
  assert (Hc : zlen password <> 64 /\ ~ Forall (fun c => 32 <= c <= 126) password) by (destruct Hbad as [? | [? | [? | [? | Hc]]]]; [lia .. | exact Hc]).
  destruct Hc as [Hl Hc]. rewrite (proj2 (Z.eqb_neq _ _) Hl).
  destruct (existsb (fun c => (c <? 32) || (126 <? c)) password) eqn:E2; [done |]. destruct Hc.
  apply Forall_forall. intros c Hin. destruct (Z.leb_spec 32 c), (Z.leb_spec c 126); [lia | | |];
    rewrite <- not_true_iff_false, existsb_exists in E2; destruct E2; exists c; (split; [by apply list_elem_of_In | lia]).
Qed.

(** ** Claims *)

(** [hmac_sha256] and [hmac_sha1] are HMAC of RFC 2104: the digest of the outer
    pad and the digest of the inner pad and the message, keys longer than a block
    hashed first and shorter ones filled with zeros, for every key and message. *)
Theorem hmac_exact key msg :
  hmac_sha256 key msg = Some (hmac256 key msg) /\ hmac_sha1 key msg = Some (hmac1 key msg).
Proof. split; [apply hmac_sha256_eq | apply hmac_sha1_eq]. Qed.

(** C28. [pbkdf2_hmac_sha256] is PBKDF2 of RFC 8018 on HMAC-SHA-256, for every
    password of any length and every iteration count and output length a caller
    can hold: the first [out_len] bytes of F(1) F(2) ..., where the salt is the
    first 64 bytes given and a count of 0 means 1.  [wifi_wpa2_psk] is PBKDF2 on
    HMAC-SHA-1 with 4096 iterations and 32 bytes for a passphrase of 8 to 63
    printable characters and a name of 1 to 32 bytes; it refuses other names,
    a passphrase that is shorter, or longer than the 64 digits of a key, and one
    with any other character. *)
Theorem pbkdf2_exact password salt iterations out_len ssid :
  0 <= iterations < 2 ^ 32 -> 0 <= out_len <= 2 ^ 36 ->
  pbkdf2_hmac_sha256 password salt iterations out_len
  = Some (rfc8018 hmac256 32 password (take 64 salt) (Z.to_nat (Z.max 1 iterations)) (Z.to_nat out_len)) /\
  (8 <= zlen password < 64 -> Forall (fun c => 32 <= c <= 126) password -> 1 <= zlen ssid <= 32 ->
   wifi_wpa2_psk password ssid = Some (rfc8018 hmac1 20 password ssid (Z.to_nat PSK_ROUNDS) 32)) /\
  (zlen ssid = 0 \/ 32 < zlen ssid \/ zlen password < 8 \/ 64 < zlen password
   \/ (zlen password <> 64 /\ ~ Forall (fun c => 32 <= c <= 126) password) -> wifi_wpa2_psk password ssid = None).
Proof. intros. split_and!; [by apply pbkdf2_eq | by apply psk_eq | apply psk_refused]. Qed.

(** A password longer than a block of the hash, which HMAC hashes first. *)
Lemma pbkdf2_exact_witness :
  pbkdf2_hmac_sha256 (demo_key 70) (str "salt") 2 40
  = Some (rfc8018 hmac256 32 (demo_key 70) (str "salt") 2 40).
Proof.
  destruct (pbkdf2_exact (demo_key 70) (str "salt") 2 40 (str "home")) as [E _]; [lia | lia | exact E].
Defined.

(** The two ends of a link derive one pairwise key: exchanging the addresses
    together with the nonces leaves the key as it is, always of 48 bytes. *)
Theorem ptk_symmetric pmk sta ap snonce anonce :
  length sta = length ap -> length snonce = length anonce ->
  wifi_wpa2_ptk pmk sta ap snonce anonce = wifi_wpa2_ptk pmk ap sta anonce snonce /\
  exists ptk, wifi_wpa2_ptk pmk sta ap snonce anonce = Some ptk /\ zlen ptk = 48.
Proof.
  intros Ha Hn. split; [unfold wifi_wpa2_ptk; by rewrite (sorted_pair sta ap), (sorted_pair snonce anonce) |].
  unfold wifi_wpa2_ptk. destruct (if mem_lt sta ap then _ else _) as [a b].
  destruct (if mem_lt snonce anonce then _ else _) as [c d].
  rewrite !hmac_sha1_eq, !bind_some. eexists. split; [done |].
  rewrite !zlen_app, !(rfc2104_size Sha1.sha1_ctx), sub_length; rewrite ?(rfc2104_size Sha1.sha1_ctx); done || lia.
Qed.

Lemma ptk_symmetric_witness :
  wifi_wpa2_ptk (demo_key 32) (replicate 6 1) (replicate 6 2) (demo_key 32) (replicate 32 9)
  = wifi_wpa2_ptk (demo_key 32) (replicate 6 2) (replicate 6 1) (replicate 32 9) (demo_key 32).
Proof.
  destruct (ptk_symmetric (demo_key 32) (replicate 6 1) (replicate 6 2) (demo_key 32) (replicate 32 9))
    as [E _]; [reflexivity | reflexivity | exact E].
Defined.
