(* ===== verification/KeyWrap.v ===== *)
(** The rest of kernel/net/wifi/wpa2_crypto.c: the unwrapping of group keys
    ([wifi_wpa2_unwrap], RFC 3394) and the test of a network's security element
    ([wifi_rsn_ccmp_psk]).

    Pointers are not null and a buffer is at least as long as the length that is
    passed with it; erasing locals is left out.  [None] is the error return.

    The file gives the wrapping algorithm of RFC 3394 as the reference and shows
    that unwrapping accepts exactly the wrapped keys and returns what was
    wrapped, and that the element test accepts exactly the elements that offer
    CCMP and a pre-shared key without mandatory management-frame protection. *)
From S2P Require Import Prelude Bytes Aes.

(** ** Model: unwrapping *)

(** [for (k < 8) b[7-k] ^= t >> (k*8)]. *)
Definition xor_counter (b : list Z) (t : Z) : list Z :=
  for_range 8 0 (fun k b => wr b (7 - k) (Z.lxor (rd b (7 - k)) (!8 (Z.shiftr t (k * 8))))) b.

Definition unwrap_step (aes : list Z) (n j i : Z) (st : list Z * list Z) : list Z * list Z :=
  let '(a, out) := st in
  let t := !64 (n * j + i) in
  let b := xor_counter a t ++ sub out ((i - 1) * 8) 8 in
  let b := aes128_decrypt_block aes b in
  (sub b 0 8, blit out ((i - 1) * 8) (sub b 8 8)).

Definition wifi_wpa2_unwrap (kek wrapped : list Z) (cap : Z) : option (list Z) :=
  let length := zlen wrapped in
  if (length <? 24) || (264 <? length) || negb (Z.land length 7 =? 0) || (cap <? length - 8) then None
  else
    let n := length / 8 - 1 in
    let aes := aes128_init raw128 kek in
    let '(a, out) :=
      for_down 6 5 (fun j => for_down (Z.to_nat n) n (unwrap_step aes n j))
        (sub wrapped 0 8, sub wrapped 8 (length - 8)) in
    let diff := fold_left (fun d i => Z.lor d (Z.lxor (rd a (Z.of_nat i)) 0xa6)) (seq 0 8) 0 in
    if negb (diff =? 0) then None else Some out.

(** RFC 3394, 4.3: a key of 128 bits wrapped with a key of 128 bits. *)
Example unwrap_vector :
  wifi_wpa2_unwrap (demo_key 16)
    [0x1F; 0xA6; 0x8B; 0x0A; 0x81; 0x12; 0xB4; 0x47; 0xAE; 0xF3; 0x4B; 0xD8; 0xFB; 0x5A; 0x7B; 0x82;
     0x9D; 0x3E; 0x86; 0x23; 0x71; 0xD2; 0xCF; 0xE5] 16
  = Some [0x00; 0x11; 0x22; 0x33; 0x44; 0x55; 0x66; 0x77; 0x88; 0x99; 0xAA; 0xBB; 0xCC; 0xDD; 0xEE; 0xFF].
Proof. vm_compute. reflexivity. Qed.

(** ** Model: the security element *)

Definition le16 (p : list Z) (at_ : Z) : Z := Z.lor (rd p at_) (Z.shiftl (rd p (at_ + 1)) 8).
Definition selector (p : list Z) (at_ type : Z) : bool :=
  (rd p at_ =? 0) && (rd p (at_ + 1) =? 0x0f) && (rd p (at_ + 2) =? 0xac) && (rd p (at_ + 3) =? type).

(** One of the two lists of suites: the offset after it and whether it offers [type]. *)
Definition suite_list (p : list Z) (n at_ type : Z) : option (Z * bool) :=
  if n - at_ <? 2 then None
  else
    let count := le16 p at_ in
    let at_ := at_ + 2 in
    if (count =? 0) || ((n - at_) / 4 <? count) then None
    else
      Some (for_range (Z.to_nat count) 0
              (fun _ '(at_, seen) => (at_ + 4, if selector p at_ type then true else seen)) (at_, false)).

(** After the capabilities, and after the lists. *)
Definition ids_test (p : list Z) (n at_ : Z) : bool :=
  if at_ =? n then true
  else if n - at_ <? 2 then false
  else
    let ids := le16 p at_ in
    let at_ := at_ + 2 in
    if (n - at_) / 16 <? ids then false
    else
      let at_ := at_ + ids * 16 in
      (at_ =? n) || ((n - at_ =? 4) && selector p at_ 6).

Definition tail_test (p : list Z) (n at_ : Z) : bool :=
  if at_ =? n then true
  else if (n - at_ <? 2) || negb (Z.land (le16 p at_) (Z.shiftl 1 6) =? 0) then false
  else ids_test p n (at_ + 2).

Definition wifi_rsn_ccmp_psk (p : list Z) : bool :=
  let n := zlen p in
  if (n <? 18) || (255 <? n) || negb (le16 p 0 =? 1) || negb (selector p 2 4) then false
  else
    match suite_list p n 6 4 with
    | None => false
    | Some (at_, pair_) =>
      match suite_list p n at_ 2 with
      | None => false
      | Some (at_, psk) => if negb pair_ || negb psk then false else tail_test p n at_
      end
    end.

(** ** Wrapping, as the reference *)

(** [A = MSB(64, B) ^ t]: the half as a number, most significant byte first. *)
Definition xor64 (a : list Z) (t : Z) : list Z := rev (put_le 8 (Z.lxor (get_le 8 (rev a)) t)).

Definition wrap_step (aes : list Z) (n j i : Z) (st : list Z * list Z) : list Z * list Z :=
  let '(a, r) := st in
  let b := aes128_encrypt_block aes (a ++ sub r ((i - 1) * 8) 8) in
  (xor64 (sub b 0 8) (n * j + i), blit r ((i - 1) * 8) (sub b 8 8)).

Definition rfc3394_wrap (kek plain : list Z) : list Z :=
  let n := zlen plain / 8 in
  let '(a, r) :=
    for_range 6 0 (fun j => for_range (Z.to_nat n) 1 (wrap_step (aes128_init raw128 kek) n j))
      (replicate 8 0xa6, plain) in
  a ++ r.

(** ** The steps undo each other *)

Definition is_half (a : list Z) : Prop := length a = 8%nat /\ Forall is_byte a.

Lemma half_cells a :
  is_half a -> exists a0 a1 a2 a3 a4 a5 a6 a7, a = [a0; a1; a2; a3; a4; a5; a6; a7].
Proof.
  intros [Hl _]. do 8 (destruct a as [| ? a]; [discriminate |]).
  destruct a; [| discriminate]. do 8 eexists. reflexivity.
Qed.

Lemma xor_counter_cells a0 a1 a2 a3 a4 a5 a6 a7 t :
  xor_counter [a0; a1; a2; a3; a4; a5; a6; a7] t =
  [Z.lxor a0 (!8 (Z.shiftr t 56)); Z.lxor a1 (!8 (Z.shiftr t 48)); Z.lxor a2 (!8 (Z.shiftr t 40));
   Z.lxor a3 (!8 (Z.shiftr t 32)); Z.lxor a4 (!8 (Z.shiftr t 24)); Z.lxor a5 (!8 (Z.shiftr t 16));
   Z.lxor a6 (!8 (Z.shiftr t 8)); Z.lxor a7 (!8 (Z.shiftr t 0))].
Proof. reflexivity. Qed.

Lemma xor_counter_half a t : is_half a -> is_half (xor_counter a t).
Proof.
  intros Ha. destruct (half_cells a Ha) as (a0 & a1 & a2 & a3 & a4 & a5 & a6 & a7 & ->).
  destruct Ha as [_ Ha]. rewrite !Forall_cons in Ha. destruct_and? Ha. rewrite xor_counter_cells.
  split; [done |].
  repeat (apply Forall_cons_2; [apply lxor_byte; [assumption | apply u8_range] |]). apply Forall_nil_2.
Qed.

(** A byte of the exclusive or of two numbers. *)
Lemma xor64_byte p t i : Forall is_byte p -> 0 <= i < 8 ->
  !8 (Z.shiftr (Z.lxor (get_le 8 p) t) (8 * i)) = Z.lxor (rd p i) (!8 (Z.shiftr (!64 t) (8 * i))).
Proof.
  intros Hp Hi. pose proof (rd_byte p i Hp) as Hb.
  apply byte_ext; [apply u8_range | apply lxor_byte; [done | apply u8_range] |]. intros j Hj.
  rewrite Z.lxor_spec, !testbit_u8, !Z.shiftr_spec, Z.lxor_spec by lia. unfold u64. rewrite Z.mod_pow2_bits_low by lia.
  rewrite get_le_testbit by (lia || (intros; by apply rd_byte)). change (8 * Z.of_nat 8) with 64.
  rewrite (proj2 (Z.ltb_lt (j + 8 * i) 64)) by lia. rewrite (Z.mul_comm 8 i), Z.div_add, Z.mod_add by lia.
  by rewrite Z.div_small, Z.mod_small by lia.
Qed.

Lemma xor64_counter a t : is_half a -> xor64 a t = xor_counter a (!64 t).
Proof.
  intros Ha. destruct (half_cells a Ha) as (a0 & a1 & a2 & a3 & a4 & a5 & a6 & a7 & ->). rewrite xor_counter_cells. unfold xor64.
  destruct Ha as [_ Ha]. assert (Hr : Forall is_byte [a7; a6; a5; a4; a3; a2; a1; a0]) by (rewrite !Forall_cons in *; tauto).
  change (rev [a0; a1; a2; a3; a4; a5; a6; a7]) with [a7; a6; a5; a4; a3; a2; a1; a0].
  pose proof (fun i => xor64_byte _ t i Hr) as Hb. set (v := Z.lxor _ t) in *.
  change (rev (put_le 8 v)) with [!8 (Z.shiftr v (8 * 7)); !8 (Z.shiftr v (8 * 6)); !8 (Z.shiftr v (8 * 5)); !8 (Z.shiftr v (8 * 4));
    !8 (Z.shiftr v (8 * 3)); !8 (Z.shiftr v (8 * 2)); !8 (Z.shiftr v (8 * 1)); !8 (Z.shiftr v (8 * 0))].
  rewrite !Hb by lia. reflexivity.
Qed.

Lemma xor_counter_twice a t : is_half a -> xor_counter (xor_counter a t) t = a.
Proof.
  intros Ha. destruct (half_cells a Ha) as (a0 & a1 & a2 & a3 & a4 & a5 & a6 & a7 & ->).
  rewrite !xor_counter_cells.
  each_cell ltac:(by rewrite Z.lxor_assoc, Z.lxor_nilpotent, Z.lxor_0_r).
Qed.

(** A state of the loops on [n] halves. *)
Definition wrap_state (n : Z) (st : list Z * list Z) : Prop :=
  is_half (fst st) /\ zlen (snd st) = n * 8 /\ Forall is_byte (snd st).

Lemma halves_block a b : is_half a -> is_half b -> is_block (a ++ b).
Proof.
  intros [Ha Hba] [Hb Hbb]. split; [rewrite length_app, Ha, Hb; done | apply Forall_app; done].
Qed.

Lemma block_halves b : is_block b -> is_half (sub b 0 8) /\ is_half (sub b 8 8) /\ sub b 0 8 ++ sub b 8 8 = b.
Proof.
  intros [Hl Hb]. assert (Hz : zlen b = 16) by (unfold zlen; lia).
  pose proof (sub_length b 0 8). pose proof (sub_length b 8 8).
  split_and!; try (split; [unfold zlen in *; lia | by apply Bytes.sub_bytes]).
  rewrite <- (sub_all b) at 3. rewrite Hz. change 16 with (8 + 8).
  by rewrite (sub_split b 0 8 8).
Qed.

Lemma app_halves a h : is_half a -> is_half h -> sub (a ++ h) 0 8 = a /\ sub (a ++ h) 8 8 = h.
Proof.
  intros [Ha _] [Hh _]. unfold sub. change (Z.to_nat 8) with 8%nat. change (Z.to_nat 0) with 0%nat.
  rewrite drop_0, (drop_app_length' a h 8), (take_app_length' a h 8) by done.
  split; [done |]. apply firstn_all2. lia.
Qed.

Lemma half_at r n i : zlen r = n * 8 -> Forall is_byte r -> 1 <= i <= n -> is_half (sub r ((i - 1) * 8) 8).
Proof.
  intros Hz Hb Hi. pose proof (sub_length r ((i - 1) * 8) 8).
  split; [unfold zlen in *; lia | by apply Bytes.sub_bytes].
Qed.

Lemma blit_bytes l o b : Forall is_byte l -> Forall is_byte b -> Forall is_byte (blit l o b).
Proof.
  intros Hl Hb. unfold blit. rewrite !Forall_app.
  split_and!; [by apply Forall_take | done | by apply Forall_drop].
Qed.

Lemma blit_state n r i b :
  zlen r = n * 8 -> Forall is_byte r -> 1 <= i <= n -> is_half b ->
  zlen (blit r ((i - 1) * 8) b) = n * 8 /\ Forall is_byte (blit r ((i - 1) * 8) b).
Proof.
  intros Hz Hb Hi [Hl Hh]. assert (zlen b = 8) by (unfold zlen; lia).
  split; [rewrite blit_length by lia; done | by apply blit_bytes].
Qed.

(** Storing a half and then the half that was there. *)
Lemma blit_back n r o b c :
  0 <= o -> 0 <= n -> zlen b = n -> o + n <= zlen r -> sub r o n = c -> blit (blit r o b) o c = r.
Proof.
  intros Ho Hn Hb Hl Hc. assert (Hzc : zlen c = n) by (rewrite <- Hc; apply sub_length; lia).
  assert (Hz : zlen (blit r o b) = zlen r) by (apply blit_length; lia).
  apply rd_ext; [pose proof (blit_length (blit r o b) o c); unfold zlen in *; lia |].
  intros i Hi. rewrite blit_length in Hi by lia.
  destruct (decide (o <= i < o + n)).
  - rewrite rd_blit_eq by lia. rewrite <- Hc, rd_sub by lia. f_equal. lia.
  - rewrite !rd_blit_ne by lia. done.
Qed.

Section Steps.
Context (aes : list Z) (Haes : Forall is_byte aes) (n : Z).

Lemma wrap_step_state j i st : 1 <= i <= n -> wrap_state n st -> wrap_state n (wrap_step aes n j i st).
Proof.
  destruct st as [a r]. intros Hi (Ha & Hz & Hb). cbn [fst snd wrap_step unwrap_step] in *.
  assert (Hblk : is_block (aes128_encrypt_block aes (a ++ sub r ((i - 1) * 8) 8)))
    by (apply aes128_block; [done | apply halves_block; [done | by apply (half_at r n)]]).
  destruct (block_halves _ Hblk) as (H1 & H2 & _).
  cbn [fst]. rewrite xor64_counter by done. split; [by apply xor_counter_half | by apply blit_state].
Qed.

Lemma unwrap_step_state j i st : 1 <= i <= n -> wrap_state n st -> wrap_state n (unwrap_step aes n j i st).
Proof.
  destruct st as [a r]. intros Hi (Ha & Hz & Hb). cbn [fst snd wrap_step unwrap_step] in *.
  assert (Hblk : is_block (aes128_decrypt_block aes (xor_counter a (!64 (n * j + i)) ++ sub r ((i - 1) * 8) 8)))
    by (apply aes128_inv_block; [done | apply halves_block; [by apply xor_counter_half | by apply (half_at r n)]]).
  destruct (block_halves _ Hblk) as (H1 & H2 & _).
  split; [done | by apply blit_state].
Qed.

Lemma half_zlen a : is_half a -> zlen a = 8.
Proof. intros [H _]. unfold zlen. lia. Qed.

Lemma unwrap_wrap_step j i st :
  1 <= i <= n -> wrap_state n st -> unwrap_step aes n j i (wrap_step aes n j i st) = st.
Proof.
  destruct st as [a r]. intros Hi (Ha & Hz & Hb). cbn [fst snd wrap_step unwrap_step] in *.
  pose proof (half_at r n i Hz Hb Hi) as Hh. set (h := sub r ((i - 1) * 8) 8) in *.
  pose proof (halves_block a h Ha Hh) as Hah.
  set (b := aes128_encrypt_block aes (a ++ h)).
  assert (Hblk : is_block b) by by apply aes128_block.
  destruct (block_halves b Hblk) as (H1 & H2 & E). pose proof (half_zlen _ H2).
  rewrite xor64_counter, xor_counter_twice, sub_blit_eq by (done || lia). rewrite E. unfold b.
  rewrite aes128_undo by done. fold b.
  destruct (app_halves a h Ha Hh) as [-> ->]. f_equal. apply (blit_back 8); done || lia.
Qed.

Lemma wrap_unwrap_step j i st :
  1 <= i <= n -> wrap_state n st -> wrap_step aes n j i (unwrap_step aes n j i st) = st.
Proof.
  destruct st as [a r]. intros Hi (Ha & Hz & Hb). cbn [fst snd wrap_step unwrap_step] in *.
  pose proof (half_at r n i Hz Hb Hi) as Hh. set (h := sub r ((i - 1) * 8) 8) in *.
  pose proof (xor_counter_half a (!64 (n * j + i)) Ha) as Hx. set (x := xor_counter a (!64 (n * j + i))) in *.
  pose proof (halves_block x h Hx Hh) as Hxh.
  set (b := aes128_decrypt_block aes (x ++ h)).
  assert (Hblk : is_block b) by by apply aes128_inv_block.
  destruct (block_halves b Hblk) as (H1 & H2 & E). pose proof (half_zlen _ H2).
  rewrite sub_blit_eq by (done || lia). rewrite E. unfold b. rewrite aes128_redo by done. fold b.
  destruct (app_halves x h Hx Hh) as [-> ->]. unfold x. rewrite xor64_counter, xor_counter_twice by done. f_equal. apply (blit_back 8); done || lia.
Qed.

(** The passes over the [n] halves, and the six passes. *)
Lemma wrap_pass_state j st :
  wrap_state n st -> wrap_state n (for_range (Z.to_nat n) 1 (wrap_step aes n j) st).
Proof.
  intros Hs. apply (for_range_ind (fun _ => wrap_state n)); [done |].
  intros q s Hq. apply wrap_step_state. lia.
Qed.

Lemma for_down_range_ind {St} (I : St -> Prop) (f : Z -> St -> St) k p s :
  I s -> (forall q s, p - Z.of_nat k < q <= p -> I s -> I (f q s)) -> I (for_down k p f s).
Proof.
  revert p s. induction k as [| k IH]; intros p s Hs Hf; [done |]. simpl. apply IH.
  - apply Hf; [lia | done].
  - intros q s' Hq. apply Hf. lia.
Qed.

Lemma unwrap_pass_state j st :
  wrap_state n st -> wrap_state n (for_down (Z.to_nat n) n (unwrap_step aes n j) st).
Proof.
  intros Hs. apply for_down_range_ind; [done |]. intros q s Hq. apply unwrap_step_state. lia.
Qed.

Abbreviation wrap_all := (for_range 6 0 (fun j => for_range (Z.to_nat n) 1 (wrap_step aes n j))).
Abbreviation unwrap_all := (for_down 6 5 (fun j => for_down (Z.to_nat n) n (unwrap_step aes n j))).

Lemma wrap_all_state st : wrap_state n st -> wrap_state n (wrap_all st).
Proof.
  intros Hs. apply (for_range_ind (fun _ => wrap_state n)); [done |]. intros. by apply wrap_pass_state.
Qed.
Lemma unwrap_all_state st : wrap_state n st -> wrap_state n (unwrap_all st).
Proof. intros Hs. apply for_down_ind; [done |]. intros. by apply unwrap_pass_state. Qed.

Lemma unwrap_wrap_all st : 0 <= n -> wrap_state n st -> unwrap_all (wrap_all st) = st.
Proof.
  intros Hn Hs. apply (for_down_undoes (wrap_state n) (fun s => s) _ _ 6 0); [done |].
  intros j s _ Hj. split; [by apply wrap_pass_state |].
  replace n with (1 + Z.of_nat (Z.to_nat n) - 1) at 2 by lia.
  apply (for_down_undoes (wrap_state n) (fun s => s)); [done |].
  intros i s' Hi Hs'. split; [apply wrap_step_state | apply unwrap_wrap_step]; done || lia.
Qed.

Lemma wrap_unwrap_all st : 0 <= n -> wrap_state n st -> wrap_all (unwrap_all st) = st.
Proof.
  intros Hn Hs. apply (for_range_undoes (wrap_state n) (fun s => s) _ _ 6 0); [done |].
  intros j s _ Hj. split; [by apply unwrap_pass_state |].
  replace n with (1 + Z.of_nat (Z.to_nat n) - 1) at 4 by lia.
  apply (for_range_undoes (wrap_state n) (fun s => s)); [done |].
  intros i s' Hi Hs'. split; [apply unwrap_step_state | apply wrap_unwrap_step]; done || lia.
Qed.
End Steps.

Lemma diff_zero a :
  is_half a ->
  (fold_left (fun d i => Z.lor d (Z.lxor (rd a (Z.of_nat i)) 0xa6)) (seq 0 8) 0 =? 0) = true <->
  a = replicate 8 0xa6.
Proof.
  intros Ha. destruct (half_cells a Ha) as (a0 & a1 & a2 & a3 & a4 & a5 & a6 & a7 & ->).
  rewrite Z.eqb_eq. cbn [fold_left seq]. unfold rd. simpl.
  rewrite !Z.lor_eq_0_iff. split.
  - intros H. destruct_and? H. repeat match goal with H : Z.lxor _ _ = 0 |- _ => apply Z.lxor_eq in H end.
    congruence.
  - intros [= -> -> -> -> -> -> -> ->]. done.
Qed.

Lemma land_7 z : Z.land z 7 = z mod 8.
Proof. change 7 with (2 ^ 3 - 1). by rewrite land_ones_mod. Qed.

Definition split8 (w : list Z) : list Z * list Z := (sub w 0 8, sub w 8 (zlen w - 8)).

Lemma split8_join w : 8 <= zlen w -> fst (split8 w) ++ snd (split8 w) = w.
Proof.
  intros Hl. change (sub w 0 8 ++ sub w (0 + 8) (zlen w - 8) = w). rewrite <- sub_split by lia.
  replace (8 + (zlen w - 8)) with (zlen w) by lia. apply sub_all.
Qed.

Lemma join_split8 a r : is_half a -> split8 (a ++ r) = (a, r).
Proof.
  intros [Ha _]. unfold split8, sub. rewrite zlen_app. f_equal.
  - change (Z.to_nat 0) with 0%nat. rewrite drop_0. by apply take_app_length'.
  - change (Z.to_nat 8) with 8%nat. rewrite drop_app_length' by done.
    apply firstn_all2. unfold zlen. lia.
Qed.

Lemma split8_state w n :
  Forall is_byte w -> zlen w - 8 = n * 8 -> 0 <= n -> wrap_state n (split8 w).
Proof.
  intros Hw Hl Hn. pose proof (sub_length w 0 8) as H1. pose proof (sub_length w 8 (zlen w - 8)) as H2.
  split; [split; [unfold zlen in H1; cbn [fst split8]; unfold zlen in *; lia | by apply Bytes.sub_bytes] |].
  split; [cbn [snd split8]; lia | by apply Bytes.sub_bytes].
Qed.

(** The condition on the lengths, and the integrity test, in both directions. *)
Lemma unwrap_sound kek w cap d :
  Forall is_byte kek -> Forall is_byte w -> wifi_wpa2_unwrap kek w cap = Some d ->
  Forall is_byte d /\ 16 <= zlen d <= 256 /\ zlen d mod 8 = 0 /\ zlen d <= cap /\ w = rfc3394_wrap kek d.
Proof.
  intros Hk Hw. unfold wifi_wpa2_unwrap. cbv zeta. rewrite land_7.
  destruct ((zlen w <? 24) || _ || _ || _) eqn:Hl; [done |]. b2p.
  set (n := zlen w / 8 - 1).
  assert (Hn : zlen w - 8 = n * 8 /\ 0 <= n) by (unfold n; Z.div_mod_to_equations; lia).
  set (aes := aes128_init raw128 kek).
  assert (Haes : Forall is_byte aes) by (apply init128_bytes; [apply raw128_bytes | done]).
  change (sub w 0 8, sub w 8 (zlen w - 8)) with (split8 w).
  pose proof (split8_state w n Hw (proj1 Hn) (proj2 Hn)) as Hst.
  pose proof (unwrap_all_state aes Haes n _ Hst) as (Hua & Hur & Hub).
  pose proof (wrap_unwrap_all aes Haes n _ (proj2 Hn) Hst) as Hround.
  destruct (for_down 6 5 _ (split8 w)) as [a out]. cbn [fst snd] in *.
  destruct (diff_zero a Hua) as [Hdiff _]. destruct (fold_left _ _ _ =? 0); [intros [= <-] | done].
  rewrite (Hdiff eq_refl) in Hround.
  split_and!; [done | lia | lia | rewrite Hur; apply Z_mod_mult | lia |]. unfold rfc3394_wrap. cbv zeta.
  rewrite Hur, Z.div_mul by lia. fold aes. rewrite Hround. symmetry. apply split8_join. lia.
Qed.

Lemma wrapped_state kek d n :
  Forall is_byte kek -> Forall is_byte d -> zlen d = n * 8 -> 0 <= n ->
  exists a r, rfc3394_wrap kek d = a ++ r /\ wrap_state n (a, r) /\
    for_down 6 5 (fun j => for_down (Z.to_nat n) n (unwrap_step (aes128_init raw128 kek) n j)) (a, r)
    = (replicate 8 0xa6, d).
Proof.
  intros Hk Hd Hz Hn. unfold rfc3394_wrap. cbv zeta. rewrite Hz, Z.div_mul by lia.
  set (aes := aes128_init raw128 kek).
  assert (Haes : Forall is_byte aes) by (apply init128_bytes; [apply raw128_bytes | done]).
  assert (Hs0 : wrap_state n (replicate 8 0xa6, d)).
  { split; [split; [done | apply Forall_replicate; unfold is_byte; lia] | split; [cbn [snd]; lia | done]]. }
  pose proof (unwrap_wrap_all aes Haes n _ Hn Hs0) as Hu.
  pose proof (wrap_all_state aes Haes n _ Hs0) as Hw.
  destruct (for_range 6 0 _ (replicate 8 0xa6, d)) as [a r]. by exists a, r.
Qed.

Lemma wrap_length kek d :
  Forall is_byte kek -> Forall is_byte d -> zlen d mod 8 = 0 ->
  zlen (rfc3394_wrap kek d) = zlen d + 8 /\ Forall is_byte (rfc3394_wrap kek d).
Proof.
  intros Hk Hd Hm. pose proof (zlen_nonneg d).
  destruct (wrapped_state kek d (zlen d / 8) Hk Hd) as (a & r & -> & (Ha & Hr & Hb) & _);
    [Z.div_mod_to_equations; lia .. |].
  cbn [fst snd] in *. rewrite zlen_app, (half_zlen a), Hr by done. destruct Ha as [_ Ha].
  split; [Z.div_mod_to_equations; lia | by apply Forall_app].
Qed.

Lemma unwrap_wrap kek d cap :
  Forall is_byte kek -> Forall is_byte d -> 16 <= zlen d <= 256 -> zlen d mod 8 = 0 -> zlen d <= cap ->
  wifi_wpa2_unwrap kek (rfc3394_wrap kek d) cap = Some d.
Proof.
  intros Hk Hd Hl Hm Hc. destruct (wrap_length kek d Hk Hd Hm) as [Hw _].
  unfold wifi_wpa2_unwrap. cbv zeta. rewrite land_7, Hw.
  replace (_ || _ || _ || _) with false by (Z.div_mod_to_equations; lia).
  set (n := (zlen d + 8) / 8 - 1).
  assert (Hn : zlen d = n * 8 /\ 0 <= n) by (unfold n; Z.div_mod_to_equations; lia).
  destruct (wrapped_state kek d n Hk Hd (proj1 Hn) (proj2 Hn)) as (a & r & E & (Ha & _) & Hu).
  rewrite <- Hw. change (sub (rfc3394_wrap kek d) 0 8, sub (rfc3394_wrap kek d) 8 (zlen (rfc3394_wrap kek d) - 8))
    with (split8 (rfc3394_wrap kek d)).
  rewrite E, join_split8 by done. rewrite Hu.
  by rewrite (proj2 (diff_zero (replicate 8 0xa6) ltac:(split; [done | apply Forall_replicate; unfold is_byte; lia])) eq_refl).
Qed.

(** ** The security element, as the reference *)

Definition suite (type : Z) : list Z := [0; 0x0f; 0xac; type].
(** A counted list of items. *)
Definition field (l : list (list Z)) : list Z := put_le 2 (Z.of_nat (length l)) ++ concat l.
Definition items (w : nat) (l : list (list Z)) : Prop := Forall (fun x => length x = w) l.

(** After the two lists: nothing, or capabilities that do not require the
    protection of management frames, and after them nothing, or key identifiers
    and perhaps the suite for management frames. *)
Definition rsn_tail (t : list Z) : Prop :=
  t = [] \/
  exists c0 c1 rest, t = c0 :: c1 :: rest /\ Z.testbit c0 6 = false /\
    (rest = [] \/ exists ids g, items 16 ids /\ rest = field ids ++ g /\ (g = [] \/ g = suite 6)).

(** Version 1, CCMP for the group, CCMP among the pairwise suites and the
    pre-shared key among the authentication suites. *)
Definition rsn_offer (p : list Z) : Prop :=
  exists pw akm tail, items 4 pw /\ items 4 akm /\ suite 4 ∈ pw /\ suite 2 ∈ akm /\ rsn_tail tail /\
    p = [1; 0] ++ suite 4 ++ field pw ++ field akm ++ tail.

Lemma split_items w k q :
  length q = (k * w)%nat -> exists l, q = concat l /\ items w l /\ length l = k.
Proof.
  revert q. induction k as [| k IH]; intros q Hq.
  - exists []. destruct q; [split_and!; [done | constructor | done] | done].
  - destruct (IH (drop w q)) as (l & E & Hl & Hk); [rewrite length_drop; lia |].
    exists (take w q :: l). simpl. rewrite <- E, take_drop, Hk. split_and!; [done | | done].
    constructor; [rewrite length_take; lia | done].
Qed.

Lemma items_concat w l : items w l -> length (concat l) = (length l * w)%nat.
Proof. induction 1 as [| x l Hx _ IH]; [done |]. simpl. rewrite length_app. lia. Qed.

Lemma rd_at pre q i : 0 <= i -> rd (pre ++ q) (zlen pre + i) = rd q i.
Proof. intros Hi. rewrite rd_app_r by (unfold zlen; lia). f_equal. unfold zlen. lia. Qed.

Lemma selector_at pre x rest type :
  length x = 4%nat -> selector (pre ++ x ++ rest) (zlen pre) type = bool_decide (x = suite type).
Proof.
  intros Hx. destruct x as [| a [| b [| c [| d [| ]]]]]; try done.
  unfold selector. rewrite <- (Z.add_0_r (zlen pre)), <- !Z.add_assoc, !rd_at by lia.
  change (rd ([a; b; c; d] ++ rest) 0) with a. change (rd ([a; b; c; d] ++ rest) (0 + 1)) with b.
  change (rd ([a; b; c; d] ++ rest) (0 + 2)) with c. change (rd ([a; b; c; d] ++ rest) (0 + 3)) with d.
  unfold suite. apply eq_true_iff_eq. rewrite bool_decide_eq_true, !andb_true_iff, !Z.eqb_eq.
  split; [intros [[[-> ->] ->] ->]; done | intros [= -> -> -> ->]; done].
Qed.

Lemma le16_at pre x y rest :
  is_byte x -> is_byte y -> le16 (pre ++ x :: y :: rest) (zlen pre) = x + y * 256.
Proof.
  intros Hx Hy. unfold le16. rewrite <- (Z.add_0_r (zlen pre)) at 1. rewrite !rd_at by lia.
  change (rd (x :: y :: rest) 0) with x. change (rd (x :: y :: rest) 1) with y.
  assert (E : Z.land x (Z.shiftl y 8) = 0).
  { apply Z.bits_inj'. intros j Hj. rewrite Z.land_spec, Z.shiftl_spec, Z.bits_0 by done.
    destruct (decide (j < 8)); [by rewrite (Z.testbit_neg_r y) by lia; rewrite andb_false_r |].
    by rewrite byte_high by (done || lia). }
  rewrite <- Z.lxor_lor, <- Z.add_nocarry_lxor by done. rewrite Z.shiftl_mul_pow2 by lia. lia.
Qed.

(** Two bytes as a counter, and back. *)
Lemma put_le_2 v : put_le 2 v = [v mod 256; (v / 256) mod 256].
Proof. unfold put_le. simpl. by rewrite Z.shiftr_0_r, Z.shiftr_div_pow2 by lia. Qed.

Lemma put_le_le16 x y : is_byte x -> is_byte y -> put_le 2 (x + y * 256) = [x; y].
Proof.
  unfold is_byte. intros Hx Hy. rewrite put_le_2, Z_mod_plus_full, Z.div_add by lia.
  rewrite (Z.mod_small x), (Z.div_small x), Z.add_0_l, Z.mod_small by lia. done.
Qed.

Lemma field_eq l : field l = Z.of_nat (length l) mod 256 :: (Z.of_nat (length l) / 256) mod 256 :: concat l.
Proof. unfold field. by rewrite put_le_2. Qed.

Lemma le16_field pre l rest :
  Z.of_nat (length l) < 65536 -> le16 (pre ++ field l ++ rest) (zlen pre) = Z.of_nat (length l).
Proof.
  intros Hl. rewrite field_eq. cbn [app].
  rewrite le16_at by (apply Z.mod_pos_bound; lia). Z.div_mod_to_equations. lia.
Qed.

Lemma suite_loop pre l rest type seen :
  items 4 l ->
  for_range (length l) 0
    (fun _ '(at_, seen) => (at_ + 4, if selector (pre ++ concat l ++ rest) at_ type then true else seen)) (zlen pre, seen)
  = (zlen pre + 4 * Z.of_nat (length l), seen || bool_decide (suite type ∈ l)).
Proof.
  generalize 0 as p. intros p Hl. revert pre seen p. induction Hl as [| x l Hx _ IH]; intros pre seen p.
  { simpl. rewrite orb_false_r. f_equal. lia. }
  cbn [length for_range concat]. rewrite <- (app_assoc x).
  replace (if selector _ _ _ then true else seen) with (seen || bool_decide (x = suite type)).
  2: { rewrite selector_at by done. by destruct seen, (bool_decide (x = suite type)). }
  specialize (IH (pre ++ x) (seen || bool_decide (x = suite type)) (p + 1)).
  rewrite zlen_app, <- app_assoc in IH. replace (zlen x) with 4 in IH by (unfold zlen; lia).
  rewrite IH. f_equal; [lia |]. rewrite <- orb_assoc. f_equal. apply eq_true_iff_eq.
  rewrite orb_true_iff, !bool_decide_eq_true, elem_of_cons. intuition congruence.
Qed.

Lemma items_length l w : items w l -> zlen (field l) = 2 + Z.of_nat w * Z.of_nat (length l).
Proof. intros Hl. rewrite field_eq. unfold zlen. cbn [length]. rewrite (items_concat w) by done. lia. Qed.

(** Reading a list of suites that is there. *)
Lemma suite_list_field pre l rest type :
  items 4 l -> l <> [] -> Z.of_nat (length l) < 65536 ->
  let p := pre ++ field l ++ rest in
  suite_list p (zlen p) (zlen pre) type = Some (zlen (pre ++ field l), bool_decide (suite type ∈ l)).
Proof.
  intros Hl Hne Hs p. pose proof (items_length l 4 Hl) as Hz. unfold suite_list, p.
  rewrite le16_field by done. rewrite !zlen_app, Hz.
  assert (0 < Z.of_nat (length l)) by (destruct l; [done | simpl; lia]). pose proof (zlen_nonneg rest).
  change (Z.of_nat 4) with 4 in *. rewrite (proj2 (Z.ltb_ge _ 2)) by lia.
  rewrite (proj2 (Z.eqb_neq _ 0)), (proj2 (Z.ltb_ge _ (Z.of_nat (length l)))) by (Z.div_mod_to_equations; lia).
  cbn [orb]. rewrite Nat2Z.id, field_eq. set (c := Z.of_nat (length l)). cbn [app].
  replace (zlen pre + 2) with (zlen (pre ++ [c mod 256; (c / 256) mod 256])) by (rewrite zlen_app; done).
  replace (pre ++ c mod 256 :: (c / 256) mod 256 :: concat l ++ rest)
    with ((pre ++ [c mod 256; (c / 256) mod 256]) ++ concat l ++ rest) by (by rewrite <- app_assoc).
  rewrite suite_loop by done. rewrite zlen_app. change (zlen [_; _]) with 2. do 2 f_equal. lia.
Qed.

(** What is read is there. *)
Lemma suite_list_inv pre q type r :
  Forall is_byte q -> suite_list (pre ++ q) (zlen (pre ++ q)) (zlen pre) type = Some r ->
  exists l rest, q = field l ++ rest /\ items 4 l /\ l <> [] /\ Z.of_nat (length l) < 65536.
Proof.
  intros Hq. unfold suite_list. rewrite zlen_app. case_match eqn:E; [done |]. b2p.
  destruct q as [| x [| y q]]; rewrite ?zlen_cons, ?zlen_nil in *; [lia .. |].
  apply Forall_cons in Hq as [Hx Hq]. apply Forall_cons in Hq as [Hy Hq]. rewrite le16_at by done.
  case_match eqn:E2; [done |]. b2p. intros _. unfold is_byte in *.
  destruct (split_items 4 (Z.to_nat (x + y * 256)) (take (Z.to_nat (x + y * 256) * 4) q)) as (l & El & Hl & Hk).
  { rewrite length_take. unfold zlen in *. Z.div_mod_to_equations. lia. }
  exists l, (drop (Z.to_nat (x + y * 256) * 4) q). unfold field. rewrite Hk, Z2Nat.id, put_le_le16 by (done || lia).
  cbn [app]. rewrite <- El, take_drop. split_and!; [done | done | | lia]. intros ->. simpl in Hk. lia.
Qed.

(** The rest after the two lists, read and written. *)
Lemma mfp_bit c0 c1 : is_byte c0 -> is_byte c1 -> Z.land (c0 + c1 * 256) (Z.shiftl 1 6) = 0 <-> Z.testbit c0 6 = false.
Proof.
  intros Hc _. pose proof (land_bit_test (c0 + c1 * 256) 6 ltac:(lia)) as E.
  assert (Et : Z.testbit (c0 + c1 * 256) 6 = Z.testbit c0 6).
  { rewrite <- (Z.mod_pow2_bits_low _ 8 6) by lia. change (2 ^ 8) with 256.
    rewrite Z_mod_plus_full, Z.mod_small; [done | unfold is_byte in Hc; lia]. }
  rewrite Et in E. destruct (Z.eqb_spec (Z.land (c0 + c1 * 256) (Z.shiftl 1 6)) 0); cbn [negb] in E; rewrite <- E; naive_solver.
Qed.

Lemma ids_inv pre q :
  Forall is_byte q -> 2 <= zlen q -> le16 (pre ++ q) (zlen pre) <= (zlen q - 2) / 16 ->
  exists ids g, q = field ids ++ g /\ items 16 ids /\ le16 (pre ++ q) (zlen pre) = Z.of_nat (length ids).
Proof.
  intros Hq Hz. destruct q as [| x [| y q]]; rewrite ?zlen_cons, ?zlen_nil in *; [lia .. |].
  apply Forall_cons in Hq as [Hx Hq]. apply Forall_cons in Hq as [Hy Hq]. rewrite le16_at by done.
  unfold is_byte in *. intros Hle.
  destruct (split_items 16 (Z.to_nat (x + y * 256)) (take (Z.to_nat (x + y * 256) * 16) q)) as (l & El & Hl & Hk).
  { rewrite length_take. unfold zlen in *. Z.div_mod_to_equations. lia. }
  exists l, (drop (Z.to_nat (x + y * 256) * 16) q). unfold field. rewrite Hk, Z2Nat.id, put_le_le16 by (done || lia).
  cbn [app]. rewrite <- El, take_drop. done.
Qed.

Lemma ids_test_exact pre t :
  Forall is_byte t -> zlen t < 65536 ->
  ids_test (pre ++ t) (zlen pre + zlen t) (zlen pre) = true <->
  t = [] \/ exists ids g, items 16 ids /\ t = field ids ++ g /\ (g = [] \/ g = suite 6).
Proof.
  intros Ht Hs. unfold ids_test. pose proof (zlen_nonneg t) as Hz.
  destruct (Z.eqb_spec (zlen pre) (zlen pre + zlen t)).
  { split; [| done]. intros _. left. destruct t; [done |]. rewrite zlen_cons in *. pose proof (zlen_nonneg t). lia. }
  assert (Hne : t <> []) by (intros ->; rewrite zlen_nil in *; lia).
  assert (Hf : forall ids g, items 16 ids -> t = field ids ++ g ->
    Z.of_nat (length ids) < 65536 /\ zlen t = 2 + 16 * Z.of_nat (length ids) + zlen g /\
    le16 (pre ++ t) (zlen pre) = Z.of_nat (length ids) /\
    (length g = 4%nat -> selector (pre ++ t) (zlen pre + 2 + Z.of_nat (length ids) * 16) 6 = bool_decide (g = suite 6))).
  { intros ids g Hi ->. pose proof (items_length ids 16 Hi) as Hl. change (Z.of_nat 16) with 16 in Hl.
    pose proof (zlen_nonneg g). rewrite zlen_app in *.
    assert (Z.of_nat (length ids) < 65536) by lia. split_and!; [done | lia | by apply le16_field |].
    intros Hg. rewrite <- (selector_at (pre ++ field ids) g []) by done. rewrite app_nil_r, <- app_assoc, zlen_app.
    f_equal. lia. }
  destruct (Z.ltb_spec (zlen pre + zlen t - zlen pre) 2).
  { split; [done |]. intros [-> | (ids & g & Hi & E & _)]; [done |].
    destruct (Hf ids g Hi E) as (_ & Hzt & _). pose proof (zlen_nonneg g). lia. }
  destruct (Z.ltb_spec ((zlen pre + zlen t - (zlen pre + 2)) / 16) (le16 (pre ++ t) (zlen pre))).
  { split; [done |]. intros [-> | (ids & g & Hi & E & _)]; [done |].
    destruct (Hf ids g Hi E) as (_ & Hzt & Hle & _). pose proof (zlen_nonneg g). Z.div_mod_to_equations. lia. }
  destruct (ids_inv pre t Ht) as (ids & g & E & Hi & Hle);
    [lia | by replace (zlen t - 2) with (zlen pre + zlen t - (zlen pre + 2)) by lia |].
  destruct (Hf ids g Hi E) as (Hn & Hzt & _ & Hsel). rewrite Hle, Hzt.
  rewrite orb_true_iff, andb_true_iff, !Z.eqb_eq. split.
  - intros [Hg | [Hg Hsel6]]; right; exists ids, g; split_and!; try done.
    + left. apply length_zero_iff_nil. unfold zlen in Hg. lia.
    + right. rewrite Hsel in Hsel6 by (unfold zlen in Hg; lia). by apply bool_decide_eq_true in Hsel6.
  - intros [-> | (ids' & g' & Hi' & E' & Hg')]; [done |].
    destruct (Hf ids' g' Hi' E') as (Hn' & Hzt' & Hle' & Hsel').
    assert (length ids' = length ids) as Hids by lia. rewrite <- Hids in *.
    destruct Hg' as [-> | ->]; [left; rewrite zlen_nil in *; lia | right].
    change (zlen (suite 6)) with 4 in *. split; [lia |]. rewrite Hsel' by done. by rewrite bool_decide_true.
Qed.

Lemma tail_test_exact pre t :
  Forall is_byte t -> zlen t < 65536 ->
  tail_test (pre ++ t) (zlen (pre ++ t)) (zlen pre) = true <-> rsn_tail t.
Proof.
  intros Ht Hs. unfold tail_test, rsn_tail. rewrite zlen_app.
  destruct t as [| c0 t]; [rewrite zlen_nil, Z.add_0_r, Z.eqb_refl; split; [by left | done] |].
  pose proof (zlen_nonneg t) as Hz0. rewrite zlen_cons. rewrite (proj2 (Z.eqb_neq _ _)) by lia.
  destruct t as [| c1 t].
  { rewrite zlen_nil, (proj2 (Z.ltb_lt _ _)) by lia. cbn [orb]. split; [done |].
    intros [? | (? & ? & ? & ? & _)]; done. }
  apply Forall_cons in Ht as [H0 Ht]. apply Forall_cons in Ht as [H1 Ht].
  pose proof (zlen_nonneg t). rewrite !zlen_cons in *. rewrite (proj2 (Z.ltb_ge _ 2)) by lia. cbn [orb].
  rewrite le16_at by done. pose proof (mfp_bit c0 c1 H0 H1) as Hmfp.
  destruct (Z.eqb_spec (Z.land (c0 + c1 * 256) (Z.shiftl 1 6)) 0) as [E | E]; cbn [negb].
  2: { split; [done |]. intros [? | (? & ? & ? & [= -> -> ->] & Hb & _)]; [done | tauto]. }
  apply Hmfp in E.
  replace (pre ++ c0 :: c1 :: t) with ((pre ++ [c0; c1]) ++ t) by (by rewrite <- app_assoc).
  replace (zlen pre + 2) with (zlen (pre ++ [c0; c1])) by (rewrite zlen_app; done).
  set (pre' := pre ++ [c0; c1]). replace (zlen pre + _) with (zlen pre' + zlen t) by (unfold pre'; rewrite zlen_app; change (zlen [c0; c1]) with 2; lia).
  assert (Hgoal : forall b, (b = true <-> t = [] \/ exists ids g, items 16 ids /\ t = field ids ++ g /\ (g = [] \/ g = suite 6)) ->
    (b = true <-> c0 :: c1 :: t = [] \/ exists d0 d1 rest, c0 :: c1 :: t = d0 :: d1 :: rest /\ Z.testbit d0 6 = false /\
      (rest = [] \/ exists ids g, items 16 ids /\ rest = field ids ++ g /\ (g = [] \/ g = suite 6)))).
  { intros b ->. split; [intros Hr; right; by exists c0, c1, t |].
    intros [? | (? & ? & ? & [= <- <- <-] & _ & Hr)]; done. }
  apply Hgoal. apply ids_test_exact; [done | lia].
Qed.

Lemma first_six x : length x = 6%nat -> le16 x 0 = 1 -> selector x 2 4 = true -> Forall is_byte x ->
  x = [1; 0] ++ suite 4.
Proof.
  intros Hx. destruct x as [| a [| b x]]; [done .. |]. intros Hv Hs Hb.
  apply Forall_cons in Hb as [Ha Hb]. apply Forall_cons in Hb as [Hb _].
  pose proof (le16_at [] a b x Ha Hb) as Hv'. change (zlen []) with 0 in Hv'. cbn [app] in Hv'.
  pose proof (selector_at [a; b] x [] 4 ltac:(simpl in Hx; lia)) as E. rewrite app_nil_r in E.
  change (zlen [a; b]) with 2 in E. cbn [app] in E. rewrite Hs in E. symmetry in E. apply bool_decide_eq_true in E.
  unfold is_byte in *. rewrite E. cbn [app]. f_equal; [lia |]. f_equal. lia.
Qed.

Lemma rsn_sound p : Forall is_byte p -> wifi_rsn_ccmp_psk p = true -> zlen p <= 255 /\ rsn_offer p.
Proof.
  intros Hp. unfold wifi_rsn_ccmp_psk. case_match eqn:E; [done |]. b2p.
  assert (exists x q, p = x ++ q /\ length x = 6%nat) as (x & q & -> & Hx).
  { exists (take 6 p), (drop 6 p). rewrite take_drop, length_take. unfold zlen in *. split; [done | lia]. }
  apply Forall_app in Hp as [Hbx Hbq].
  assert (x = [1; 0] ++ suite 4) as ->.
  { apply first_six; [done | | | done].
    - unfold le16 in *. rewrite !rd_app_l in * by lia. done.
    - unfold selector in *. rewrite !rd_app_l in * by lia. done. }
  set (x := [1; 0] ++ suite 4) in *. change 6 with (zlen x).
  destruct (suite_list (x ++ q) _ _ 4) as [r1 |] eqn:E1; [| done].
  destruct (suite_list_inv x q 4 r1 Hbq E1) as (pw & q1 & -> & Hpw & Hne & Hsz).
  rewrite suite_list_field in E1 by done. apply (inj Some) in E1 as <-.
  rewrite app_assoc in *. apply Forall_app in Hbq as [_ Hbq].
  destruct (suite_list ((x ++ field pw) ++ q1) _ _ 2) as [r2 |] eqn:E2; [| done].
  destruct (suite_list_inv (x ++ field pw) q1 2 r2 Hbq E2) as (akm & t & -> & Hakm & Hne2 & Hsz2).
  rewrite suite_list_field in E2 by done. apply (inj Some) in E2 as <-.
  rewrite app_assoc in *. apply Forall_app in Hbq as [_ Hbt].
  case_match eqn:E3; [done |]. b2p. rewrite tail_test_exact by (done || (rewrite !zlen_app in *;
    pose proof (zlen_nonneg (field pw)); pose proof (zlen_nonneg (field akm)); pose proof (zlen_nonneg x); lia)).
  intros Ht. split; [lia |]. exists pw, akm, t. split_and!; try done.
  unfold x. by rewrite <- !app_assoc.
Qed.

Lemma rsn_complete pw akm tail :
  let p := [1; 0] ++ suite 4 ++ field pw ++ field akm ++ tail in
  Forall is_byte p -> zlen p <= 255 -> items 4 pw -> items 4 akm -> suite 4 ∈ pw -> suite 2 ∈ akm -> rsn_tail tail ->
  wifi_rsn_ccmp_psk p = true.
Proof.
  intros p Hp Hl Hpw Hakm H4 H2 Ht. unfold wifi_rsn_ccmp_psk.
  assert (Hne : pw <> []) by (intros ->; by apply elem_of_nil in H4).
  assert (Hne2 : akm <> []) by (intros ->; by apply elem_of_nil in H2).
  set (x := [1; 0] ++ suite 4). assert (Ep : p = x ++ field pw ++ field akm ++ tail) by done. rewrite Ep in *.
  pose proof (items_length pw 4 Hpw) as Lpw. pose proof (items_length akm 4 Hakm) as Lakm. change (Z.of_nat 4) with 4 in *.
  pose proof (zlen_nonneg tail). assert (Z.of_nat (length pw) <> 0) by (destruct pw; simpl; lia || done).
  assert (Z.of_nat (length akm) <> 0) by (destruct akm; simpl; lia || done).
  assert (Hz : zlen (x ++ field pw ++ field akm ++ tail) = 6 + zlen (field pw) + zlen (field akm) + zlen tail)
    by (rewrite !zlen_app; change (zlen x) with 6; lia).
  rewrite (proj2 (Z.ltb_ge _ 18)), (proj2 (Z.ltb_ge 255 _)) by lia.
  change (le16 (x ++ field pw ++ field akm ++ tail) 0) with 1. cbn [orb].
  change (selector (x ++ field pw ++ field akm ++ tail) 2 4) with true. cbn [negb orb Z.eqb Pos.eqb].
  change 6 with (zlen x). rewrite suite_list_field by (done || lia). rewrite bool_decide_true by done.
  rewrite (app_assoc x). rewrite suite_list_field by (done || lia). rewrite bool_decide_true by done. cbn [negb orb].
  rewrite app_assoc. apply tail_test_exact; [| lia | done].
  rewrite !app_assoc in Hp. apply Forall_app in Hp. tauto.
Qed.

(** ** Claims *)

(** C29. Key unwrapping accepts exactly what RFC 3394 wraps: on any bytes the call
    returns [d] if and only if [d] is two to thirty-two halves of 8 bytes that
    fit in the output and the buffer is the wrapping of [d] under the same key.
    So an unwrapped key is the one that was wrapped, and no other buffer passes
    the integrity test. *)
Theorem unwrap_exact kek w cap d :
  Forall is_byte kek -> Forall is_byte w ->
  wifi_wpa2_unwrap kek w cap = Some d <->
  Forall is_byte d /\ 16 <= zlen d <= 256 /\ zlen d mod 8 = 0 /\ zlen d <= cap /\ w = rfc3394_wrap kek d.
Proof.
  intros Hk Hw. split; [by apply unwrap_sound |].
  intros (Hd & Hl & Hm & Hc & ->). by apply unwrap_wrap.
Qed.

(** C30. The test of a network's security element accepts exactly the elements that
    offer CCMP with a pre-shared key: a body of at most 255 bytes in the format of
    the standard, version 1, with CCMP as the group suite and among the pairwise
    suites, the pre-shared key among the authentication suites, and no demand for
    protected management frames; truncated lists, counts of zero and bytes left
    over are refused. *)
Theorem rsn_exact p :
  Forall is_byte p -> wifi_rsn_ccmp_psk p = true <-> zlen p <= 255 /\ rsn_offer p.
Proof.
  intros Hp. split; [by apply rsn_sound |]. intros [Hl (pw & akm & tail & H1 & H2 & H3 & H4 & Ht & ->)].
  by apply rsn_complete.
Qed.

Lemma rsn_exact_witness :
  wifi_rsn_ccmp_psk [1; 0; 0; 15; 172; 4; 1; 0; 0; 15; 172; 4; 1; 0; 0; 15; 172; 2; 0; 0] = true.
Proof.
  apply rsn_exact.
  - repeat (apply Forall_cons_2; [unfold is_byte; lia |]). apply Forall_nil_2.
  - split; [discriminate |]. exists [suite 4], [suite 2], [0; 0].
    split_and!; [by apply Forall_singleton | by apply Forall_singleton | by apply list_elem_of_singleton
                | by apply list_elem_of_singleton | | reflexivity].
    right. exists 0, 0, []. split_and!; [reflexivity | reflexivity | by left].
Defined.

(** A key of three halves, wrapped. *)
Definition demo_wrapped : list Z := Eval vm_compute in rfc3394_wrap (demo_key 16) (demo_key 24).

Lemma unwrap_exact_witness : wifi_wpa2_unwrap (demo_key 16) demo_wrapped 256 = Some (demo_key 24).
Proof.
  apply (unwrap_exact (demo_key 16) demo_wrapped 256 (demo_key 24)); [apply demo_key_bytes; lia | |].
  - unfold demo_wrapped. repeat (apply Forall_cons_2; [unfold is_byte; lia |]). apply Forall_nil_2.
  - split_and!; [apply demo_key_bytes; lia | discriminate | discriminate | reflexivity | discriminate |].
    vm_compute. reflexivity.
Defined.

#[global] Opaque wifi_wpa2_unwrap rfc3394_wrap.
