(* ===== verification/Ccmp.v ===== *)
(** Frame protection: a model of kernel/net/wifi/ccmp.c (AES-CCM as IEEE 802.11
    uses it, with the packet numbers that keep nonces fresh).

    A frame is a list of bytes and its length is the length argument of the call.
    Pointers are not null, input and output are distinct buffers, and erasing
    locals is left out.  The output is the bytes written; [None] is the error
    return.  A key is the structure of the source, all zero when cleared.

    The file shows that opening undoes sealing, that a failure changes nothing,
    and that as long as a key is only installed again, and not replaced, no nonce
    is used twice by the sender and no frame is accepted twice by the receiver. *)
From Stdlib Require Import Sorted.
From S2P Require Import Prelude Bytes Aes Xts.

(** ** Model *)

Definition WIFI_MPDU_MAX : Z := 1600.
Definition WIFI_CCMP_PN_MAX : Z := 0xffffffffffff.

Record wifi_ccmp_key := mkCcmp {
  tk : list Z; key_id : Z; installed : Z; tx_pn : Z; rx_pn : list Z }.

Definition wifi_ccmp_clear (k : wifi_ccmp_key) : wifi_ccmp_key :=
  mkCcmp (replicate 16 0) 0 0 0 (replicate 17 0).

(** The key after the call, and the return value. *)
Definition wifi_ccmp_install (k : wifi_ccmp_key) (tk_ : list Z) (id_ rsc : Z) : wifi_ccmp_key * Z :=
  if (3 <? id_) || (WIFI_CCMP_PN_MAX <? rsc) then (k, -1)
  else if negb (installed k =? 0) && (key_id k =? id_) && bool_decide (tk k = tk_) then
    (mkCcmp (tk k) (key_id k) (installed k) (tx_pn k)
       (for_range 17 0 (fun i rx => if rd rx i <? rsc then wr rx i rsc else rx) (rx_pn k)), 0)
  else
    let k := wifi_ccmp_clear k in
    (mkCcmp tk_ (!8 id_) 1 (tx_pn k) (for_range 17 0 (fun i rx => wr rx i rsc) (rx_pn k)), 0).

(** The header length and the queue. *)
Definition header (p : list Z) : option (Z * Z) :=
  let n := zlen p in
  if (n <? 24) || (negb (rd p 0 =? 0x08) && negb (rd p 0 =? 0x88)) || (Z.land (rd p 1) 3 =? 3)
     || (Z.land (rd p 1) 3 =? 0) || negb (Z.land (rd p 1) (Z.lor 0x80 4) =? 0)
     || negb (Z.land (rd p 22) 15 =? 0) then None
  else if negb (Z.land (rd p 0) 0x80 =? 0) then
    if (n <? 26) || negb (Z.land (rd p 24) 0x80 =? 0) || negb (rd p 25 =? 0) then None
    else Some (26, Z.land (rd p 24) 15)
  else Some (24, 16).

(** The nonce and the [an] bytes of additional data. *)
Definition parameters (h : list Z) (hl tid pn : Z) : list Z * list Z :=
  let nonce := [if tid =? 16 then 0 else tid] ++ sub h 10 6
               ++ map (fun i => !8 (Z.shiftr pn (8 * (5 - Z.of_nat i)))) (seq 0 6) in
  let aad := [Z.land (rd h 0) 0x8f; Z.land (rd h 1) 0xc7] ++ sub h 4 18 ++ [Z.land (rd h 22) 15; 0] in
  (nonce, if hl =? 26 then aad ++ [tid; 0] else aad).

Definition mac_block (aes state b : list Z) : list Z :=
  aes128_encrypt_block aes (for_range 16 0 (fun i s => wr s i (Z.lxor (rd s i) (rd b i))) state).

(** The number of 16-byte pieces of [n] bytes, the last of them maybe shorter. *)
Definition pieces (n : Z) : nat := Z.to_nat ((n + 15) / 16).
Definition piece (n at_ : Z) : Z := if n - at_ <? 16 then n - at_ else 16.

Definition ccm_mac (aes nonce aad p : list Z) : list Z :=
  let n := zlen p in
  let an := zlen aad in
  let b := [0x59] ++ nonce ++ [!8 (Z.shiftr n 8); !8 n] in
  let tag := mac_block aes (replicate 16 0) b in
  let b := blit ([!8 (Z.shiftr an 8); !8 an] ++ replicate 30 0) 2 aad in
  let tag := mac_block aes tag (sub b 0 16) in
  let tag := mac_block aes tag (sub b 16 16) in
  for_range (pieces n) 0
    (fun k tag =>
       let at_ := k * 16 in
       mac_block aes tag (blit (replicate 16 0) 0 (sub p at_ (piece n at_)))) tag.

Definition ctr_block (aes nonce : list Z) (i : Z) : list Z :=
  aes128_encrypt_block aes ([1] ++ nonce ++ [!8 (Z.shiftr i 8); !8 i]).

(** What is written at [dst]. *)
Definition crypt (aes nonce src : list Z) : list Z :=
  let n := zlen src in
  for_range (pieces n) 0
    (fun k dst =>
       let at_ := k * 16 in
       let b := ctr_block aes nonce (at_ / 16 + 1) in
       let take := piece n at_ in
       for_range (Z.to_nat take) 0 (fun i dst => wr dst (at_ + i) (Z.lxor (rd src (at_ + i)) (rd b i))) dst)
    (replicate (Z.to_nat n) 0).

(** The 8 bytes between the header and the body. *)
Definition iv_bytes (pn id_ : Z) : list Z :=
  [!8 pn; !8 (Z.shiftr pn 8); 0; !8 (Z.lor 0x20 (Z.shiftl id_ 6))]
  ++ map (fun i => !8 (Z.shiftr pn (16 + Z.of_nat i * 8))) (seq 0 4).

Definition masked_tag (tag s0 : list Z) : list Z :=
  map (fun i => Z.lxor (rd tag (Z.of_nat i)) (rd s0 (Z.of_nat i))) (seq 0 8).

(** The key after the call, and the frame written. *)
Definition wifi_ccmp_seal (k : wifi_ccmp_key) (inp : list Z) (cap : Z) : wifi_ccmp_key * option (list Z) :=
  let n := zlen inp in
  match header inp with
  | Some (hl, tid) =>
    if (installed k =? 0) || (WIFI_MPDU_MAX - 16 <? n) || (cap <? n + 16)
       || negb (Z.land (rd inp 1) 0x40 =? 0) || (tx_pn k =? WIFI_CCMP_PN_MAX) then (k, None)
    else
      let pn := !64 (tx_pn k + 1) in
      let k := mkCcmp (tk k) (key_id k) (installed k) pn (rx_pn k) in
      let h := sub inp 0 hl in
      let h := wr h 1 (Z.lor (rd h 1) 0x40) in
      let aes := aes128_init raw128 (tk k) in
      let '(nonce, aad) := parameters h hl tid pn in
      let body := sub inp hl (n - hl) in
      let tag := ccm_mac aes nonce aad body in
      let s0 := ctr_block aes nonce 0 in
      (k, Some (h ++ iv_bytes pn (key_id k) ++ crypt aes nonce body ++ masked_tag tag s0))
  | None => (k, None)
  end.

Definition iv_pn (iv : list Z) : Z :=
  fold_left (fun pn i => Z.lor pn (Z.shiftl (rd iv (4 + Z.of_nat i)) (16 + Z.of_nat i * 8))) (seq 0 4)
    (Z.lor (rd iv 0) (Z.shiftl (rd iv 1) 8)).

Definition wifi_ccmp_open (k : wifi_ccmp_key) (inp : list Z) (cap : Z) : wifi_ccmp_key * option (list Z) :=
  let n := zlen inp in
  match header inp with
  | Some (hl, tid) =>
    if (installed k =? 0) || (WIFI_MPDU_MAX <? n) || (n <? hl + 16) || (cap <? n - 16)
       || (Z.land (rd inp 1) 0x40 =? 0) then (k, None)
    else
      let iv := sub inp hl 8 in
      if negb (rd iv 2 =? 0) || negb (rd iv 3 =? !8 (Z.lor 0x20 (Z.shiftl (key_id k) 6))) then (k, None)
      else
        let pn := iv_pn iv in
        if (pn =? 0) || (pn <=? rd (rx_pn k) tid) then (k, None)
        else
          let body := n - hl - 16 in
          let aes := aes128_init raw128 (tk k) in
          let '(nonce, aad) := parameters inp hl tid pn in
          let plain := crypt aes nonce (sub inp (hl + 8) body) in
          let tag := ccm_mac aes nonce aad plain in
          let s0 := ctr_block aes nonce 0 in
          let diff := fold_left (fun d i => Z.lor d (Z.lxor (Z.lxor (rd tag (Z.of_nat i)) (rd s0 (Z.of_nat i)))
                                                           (rd inp (n - 8 + Z.of_nat i)))) (seq 0 8) 0 in
          if diff =? 0 then
            let h := sub inp 0 hl in
            let h := wr h 1 (Z.land (rd h 1) (!8 (Z.lnot 0x40))) in
            (mkCcmp (tk k) (key_id k) (installed k) (tx_pn k) (wr (rx_pn k) tid pn), Some (h ++ plain))
          else (k, None)
  | None => (k, None)
  end.

(** A frame of three queues through a pair of keys. *)
Example ccmp_example :
  let key := fst (wifi_ccmp_install (wifi_ccmp_clear (mkCcmp [] 0 0 0 [])) (demo_key 16) 0 0) in
  let frame := [0x08; 0x01; 0; 0] ++ demo_key 20 ++ [0xaa; 0xaa; 3; 0; 0; 0; 8; 0] ++ demo_key 40 in
  let frame := wr frame 22 0 in
  match wifi_ccmp_seal key frame 1600 with
  | (_, Some c) => snd (wifi_ccmp_open key c 1600) = Some frame /\ length c = (length frame + 16)%nat
  | _ => False
  end.
Proof. vm_compute. split; reflexivity. Qed.

(** ** Counter mode is an involution *)

Lemma for_wr_rd (f : Z -> Z) m at_ l j :
  0 <= at_ -> at_ + Z.of_nat m <= zlen l -> 0 <= j ->
  rd (for_range m 0 (fun i l => wr l (at_ + i) (f i)) l) j
  = if decide (at_ <= j < at_ + Z.of_nat m) then f (j - at_) else rd l j.
Proof.
  intros Ha Hl Hj. induction m as [| m IH].
  { simpl for_range. rewrite decide_False by lia. done. }
  rewrite for_range_snoc, Z.add_0_l.
  set (l' := for_range m 0 _ l) in *.
  assert (Hl' : length l' = length l) by (apply (for_wr_length (fun i _ => f i) (fun i => at_ + i))).
  unfold zlen in Hl. destruct (decide (j = at_ + Z.of_nat m)) as [-> |].
  - rewrite rd_wr_eq, decide_True by lia. f_equal. lia.
  - rewrite rd_wr_ne, IH by (unfold zlen; lia).
    destruct (decide (at_ <= j < at_ + Z.of_nat m)); [rewrite decide_True by lia | rewrite decide_False by lia]; done.
Qed.

Lemma crypt_spec aes nonce src :
  zlen (crypt aes nonce src) = zlen src /\
  forall i, 0 <= i < zlen src ->
    rd (crypt aes nonce src) i = Z.lxor (rd src i) (rd (ctr_block aes nonce (i / 16 + 1)) (i mod 16)).
Proof.
  unfold crypt. set (n := zlen src). pose proof (zlen_nonneg src) as Hn.
  set (body := fun k dst => _).
  assert (H : forall m, (m <= pieces n)%nat ->
    let d := for_range m 0 body (replicate (Z.to_nat n) 0) in
    zlen d = n /\ forall i, 0 <= i < n -> i < 16 * Z.of_nat m ->
      rd d i = Z.lxor (rd src i) (rd (ctr_block aes nonce (i / 16 + 1)) (i mod 16))).
  { induction m as [| m IH]; intros Hm d.
    { split; [unfold d; simpl; rewrite zlen_replicate; lia | lia]. }
    destruct (IH ltac:(lia)) as [Hz Hr]. unfold d. rewrite for_range_snoc, Z.add_0_l.
    set (d' := for_range m 0 body _) in *. unfold body.
    set (at_ := Z.of_nat m * 16). assert (Ha : at_ < n) by (unfold pieces in Hm; Z.div_mod_to_equations; lia).
    assert (Hp : 0 <= piece n at_ /\ at_ + piece n at_ <= n /\ (at_ + piece n at_ = n \/ piece n at_ = 16))
      by (unfold piece; case_if; lia).
    split; [unfold zlen; rewrite (for_wr_length (fun i _ => _) (fun i => at_ + i)); exact Hz |].
    intros i Hi Hlt. rewrite (for_wr_rd (fun i => Z.lxor (rd src (at_ + i)) (rd (ctr_block aes nonce (at_ / 16 + 1)) i)))
      by lia.
    destruct (decide _) as [E |].
    - replace (at_ + (i - at_)) with i by lia.
      replace (at_ / 16) with (i / 16) by (unfold at_ in *; Z.div_mod_to_equations; lia).
      replace (i - at_) with (i mod 16) by (unfold at_ in *; Z.div_mod_to_equations; lia). done.
    - apply Hr; lia. }
  destruct (H (pieces n) ltac:(lia)) as [Hz Hr]. split; [exact Hz |].
  intros i Hi. apply Hr; [lia |]. unfold pieces. Z.div_mod_to_equations. lia.
Qed.

Lemma crypt_twice aes nonce src : crypt aes nonce (crypt aes nonce src) = src.
Proof.
  destruct (crypt_spec aes nonce src) as [Hz Hr].
  destruct (crypt_spec aes nonce (crypt aes nonce src)) as [Hz' Hr'].
  apply rd_ext; [unfold zlen in *; lia |]. intros i Hi. rewrite Hr', Hr by lia.
  by rewrite Z.lxor_assoc, Z.lxor_nilpotent, Z.lxor_0_r.
Qed.

(** ** Headers and fields *)

Lemma header_facts p hl tid :
  header p = Some (hl, tid) -> (hl = 24 /\ tid = 16 \/ hl = 26 /\ tid = Z.land (rd p 24) 15) /\ hl <= zlen p.
Proof.
  unfold header. intros H. repeat case_match; simplify_eq; b2p; lia.
Qed.

(** A header with the protected bit set is as good as it was. *)
Lemma header_protect p q hl tid :
  header p = Some (hl, tid) -> hl <= zlen q ->
  (forall i, 0 <= i < hl -> i <> 1 -> rd q i = rd p i) -> rd q 1 = Z.lor (rd p 1) 0x40 ->
  header q = Some (hl, tid).
Proof.
  intros Hh Hq Hr H1. destruct (header_facts p hl tid Hh) as [Hk Hl].
  revert Hh. unfold header. rewrite H1, !Z.land_lor_distr_l.
  change (Z.land 0x40 3) with 0. change (Z.land 0x40 (Z.lor 0x80 4)) with 0. rewrite !Z.lor_0_r.
  rewrite !(Hr 0), !(Hr 22) by lia. intros Hh.
  destruct Hk as [[-> _] | [-> _]].
  - repeat case_match; simplify_eq; try done; b2p; lia.
  - rewrite !(Hr 24), !(Hr 25) by lia. repeat case_match; simplify_eq; try done; b2p; lia.
Qed.

Lemma parameters_app h rest hl tid pn :
  24 <= zlen h -> parameters (h ++ rest) hl tid pn = parameters h hl tid pn.
Proof.
  intros Hl. unfold zlen in Hl.
  assert (Hs : forall o k, 0 <= o -> 0 <= k -> o + k <= 24 -> sub (h ++ rest) o k = sub h o k).
  { intros o k Ho Hk Hok. unfold sub. rewrite drop_app_le, take_app_le; [done | rewrite length_drop; lia | lia]. }
  unfold parameters. rewrite !Hs by lia. rewrite !rd_app_l by lia. done.
Qed.

Lemma iv_pn_bytes pn id_ : 0 <= pn < 2 ^ 48 -> iv_pn (iv_bytes pn id_) = pn.
Proof.
  intros Hp. transitivity (get_le 6 (put_le 6 pn)).
  - unfold iv_pn, iv_bytes, get_le, put_le, rd. simpl. by rewrite Z.shiftl_0_r, Z.shiftr_0_r.
  - rewrite get_le_put_le. by apply Z.mod_small.
Qed.

(** ** Sealed frames *)

(** The header of a sealed frame. *)
Definition protect (inp : list Z) (hl : Z) : list Z :=
  let h := sub inp 0 hl in wr h 1 (Z.lor (rd h 1) 0x40).

Definition sealed (key : list Z) (id_ pn : Z) (inp : list Z) (hl tid : Z) : list Z :=
  let h := protect inp hl in
  let aes := aes128_init raw128 key in
  let '(nonce, aad) := parameters h hl tid pn in
  let body := sub inp hl (zlen inp - hl) in
  h ++ iv_bytes pn id_ ++ crypt aes nonce body
    ++ masked_tag (ccm_mac aes nonce aad body) (ctr_block aes nonce 0).

Lemma seal_eq k inp cap hl tid :
  header inp = Some (hl, tid) -> installed k <> 0 -> zlen inp <= WIFI_MPDU_MAX - 16 ->
  zlen inp + 16 <= cap -> Z.land (rd inp 1) 0x40 = 0 -> 0 <= tx_pn k < WIFI_CCMP_PN_MAX ->
  wifi_ccmp_seal k inp cap
  = (mkCcmp (tk k) (key_id k) (installed k) (tx_pn k + 1) (rx_pn k),
     Some (sealed (tk k) (key_id k) (tx_pn k + 1) inp hl tid)).
Proof.
  intros Hh Hi Hn Hc Hp Ht. unfold wifi_ccmp_seal. rewrite Hh. unfold WIFI_CCMP_PN_MAX in Ht.
  rewrite Hp, u64_small by lia.
  replace (_ || _) with false; [by unfold sealed, protect; destruct (parameters _ _ _ _) |].
  unfold WIFI_CCMP_PN_MAX. lia.
Qed.

Lemma protect_length inp hl : 0 <= hl <= zlen inp -> zlen (protect inp hl) = hl.
Proof. intros H. unfold protect, zlen. rewrite wr_length. apply (sub_length inp 0 hl); lia. Qed.

Lemma protect_rd inp hl i :
  2 <= hl <= zlen inp -> 0 <= i < hl ->
  rd (protect inp hl) i = if i =? 1 then Z.lor (rd inp 1) 0x40 else rd inp i.
Proof.
  intros Hl Hi. unfold protect. pose proof (sub_length inp 0 hl ltac:(lia) ltac:(lia) ltac:(lia)) as Hs.
  unfold zlen in Hs. case_if.
  - replace i with 1 by lia. rewrite rd_wr_eq by lia. f_equal. apply rd_sub; lia.
  - rewrite rd_wr_ne by lia. rewrite rd_sub by lia. f_equal.
Qed.

Lemma unprotect inp hl :
  2 <= hl <= zlen inp -> is_byte (rd inp 1) -> Z.land (rd inp 1) 0x40 = 0 ->
  wr (protect inp hl) 1 (Z.land (rd (protect inp hl) 1) (!8 (Z.lnot 0x40))) = sub inp 0 hl.
Proof.
  intros Hl Hb Hp. pose proof (protect_length inp hl ltac:(lia)) as Hz.
  pose proof (sub_length inp 0 hl ltac:(lia) ltac:(lia) ltac:(lia)) as Hs. unfold zlen in *.
  apply rd_ext; [rewrite wr_length; lia |]. unfold zlen. rewrite wr_length, Hz. intros i Hi.
  rewrite rd_sub by lia. destruct (decide (i = 1)) as [-> |].
  - rewrite rd_wr_eq, protect_rd by (unfold zlen; lia). change (1 =? 1) with true. cbv iota.
    change (0 + 1) with 1. revert Hb Hp.
    generalize (rd inp 1). intros b Hb Hp.
    assert (E : negb (Z.land b 0x40 =? 0) || (Z.land (Z.lor b 0x40) (!8 (Z.lnot 0x40)) =? b) = true) by by_bytes b Hb.
    rewrite Hp in E. by apply Z.eqb_eq in E.
  - rewrite rd_wr_ne, protect_rd by (unfold zlen; lia). case_if; [lia | done].
Qed.

Lemma zlen_masked tag s0 : zlen (masked_tag tag s0) = 8.
Proof. done. Qed.
Lemma zlen_iv pn id_ : zlen (iv_bytes pn id_) = 8.
Proof. done. Qed.

Lemma diff_masked tag s0 inp o :
  (forall i, 0 <= i < 8 -> rd inp (o + i) = rd (masked_tag tag s0) i) ->
  fold_left (fun d i => Z.lor d (Z.lxor (Z.lxor (rd tag (Z.of_nat i)) (rd s0 (Z.of_nat i)))
                                        (rd inp (o + Z.of_nat i)))) (seq 0 8) 0 = 0.
Proof.
  intros H. assert (E : forall i, In i (seq 0 8) ->
    Z.lxor (Z.lxor (rd tag (Z.of_nat i)) (rd s0 (Z.of_nat i))) (rd inp (o + Z.of_nat i)) = 0).
  { intros i Hi%in_seq. rewrite H by lia. unfold masked_tag, rd at 3. rewrite Nat2Z.id.
    rewrite list_lookup_fmap, lookup_seq_lt by lia. simpl. apply Z.lxor_nilpotent. }
  induction (seq 0 8) as [| i l IH]; [done |]. simpl. rewrite (E i) by by left.
  apply IH. intros j Hj. apply E. by right.
Qed.

Section Sealed.
Context (key inp : list Z) (id_ pn hl tid : Z).
Context (Hh : header inp = Some (hl, tid)) (Hn : zlen inp <= WIFI_MPDU_MAX - 16).

Abbreviation frame := (sealed key id_ pn inp hl tid).
Abbreviation h := (protect inp hl).
Abbreviation nonce := (fst (parameters h hl tid pn)).
Abbreviation aad := (snd (parameters h hl tid pn)).
Abbreviation aes := (aes128_init raw128 key).
Abbreviation body := (sub inp hl (zlen inp - hl)).

Lemma header_len : 24 <= hl <= zlen inp.
Proof. destruct (header_facts _ _ _ Hh) as [[[-> _] | [-> _]] ?]; lia. Qed.

Lemma body_length : zlen body = zlen inp - hl.
Proof. pose proof header_len. apply sub_length; lia. Qed.

(** The four fields of a sealed frame. *)
Definition fields : list (list Z) :=
  [h; iv_bytes pn id_; crypt aes nonce body; masked_tag (ccm_mac aes nonce aad body) (ctr_block aes nonce 0)].

Lemma sealed_fields : frame = concat fields.
Proof.
  unfold sealed, fields. destruct (parameters h hl tid pn) as [nn aa]. cbn [concat fst snd].
  by rewrite app_nil_r.
Qed.

Lemma field_lengths :
  zlen h = hl /\ zlen (crypt aes nonce body) = zlen inp - hl /\ zlen frame = zlen inp + 16.
Proof.
  pose proof header_len. pose proof (protect_length inp hl ltac:(lia)) as Hp.
  destruct (crypt_spec aes nonce body) as [Hc _]. rewrite body_length in Hc.
  split_and!; [done | done |]. rewrite sealed_fields. unfold fields. cbn [concat].
  rewrite !zlen_app, Hp, Hc, zlen_iv, zlen_masked. change (zlen []) with 0. lia.
Qed.

Lemma frame_iv : sub frame hl 8 = iv_bytes pn id_.
Proof.
  destruct field_lengths as (Hp & _ & _). rewrite sealed_fields.
  apply (sub_field _ 1); [done | cbn [fields firstn concat]; rewrite app_nil_r; lia | done].
Qed.

Lemma frame_body : sub frame (hl + 8) (zlen frame - hl - 16) = crypt aes nonce body.
Proof.
  destruct field_lengths as (Hp & Hc & Hz). rewrite Hz, sealed_fields.
  apply (sub_field _ 2); [done | cbn [fields firstn concat]; rewrite !zlen_app, zlen_iv, Hp; change (zlen []) with 0; lia | lia].
Qed.

Lemma frame_tag i :
  0 <= i < 8 -> rd frame (zlen frame - 8 + i)
                = rd (masked_tag (ccm_mac aes nonce aad body) (ctr_block aes nonce 0)) i.
Proof.
  intros Hi. pose proof header_len. destruct field_lengths as (Hp & Hc & Hz).
  rewrite <- (rd_sub frame (zlen frame - 8) 8) by lia. f_equal. rewrite Hz, sealed_fields.
  apply (sub_field _ 3); [done | | done].
  cbn [fields firstn concat]. rewrite !zlen_app, zlen_iv, Hp, Hc. change (zlen []) with 0. lia.
Qed.

Lemma frame_header : sub frame 0 hl = h.
Proof.
  destruct field_lengths as (Hp & _). rewrite sealed_fields. apply (sub_field _ 0); done.
Qed.

Lemma frame_rd i : 0 <= i < hl -> rd frame i = if i =? 1 then Z.lor (rd inp 1) 0x40 else rd inp i.
Proof.
  intros Hi. pose proof header_len. rewrite <- (protect_rd inp hl i) by lia. rewrite <- frame_header at 1.
  by rewrite rd_sub by lia.
Qed.

Lemma frame_parses : header frame = Some (hl, tid).
Proof.
  pose proof header_len. destruct field_lengths as (_ & _ & Hz).
  apply (header_protect inp); [done | lia | |].
  - intros i Hi H1. rewrite frame_rd by lia. by replace (i =? 1) with false by lia.
  - by rewrite frame_rd by lia.
Qed.

Lemma frame_parameters : parameters frame hl tid pn = parameters h hl tid pn.
Proof.
  pose proof header_len. destruct field_lengths as (Hp & _).
  rewrite sealed_fields. unfold fields. cbn [concat]. apply parameters_app. lia.
Qed.

Lemma inp_split : sub inp 0 hl ++ body = inp.
Proof.
  pose proof header_len. transitivity (sub inp 0 (hl + (zlen inp - hl))).
  - by rewrite (sub_split inp 0 hl) by lia.
  - replace (hl + (zlen inp - hl)) with (zlen inp) by lia. apply sub_all.
Qed.

(** Opening the frame under the same key. *)
Lemma open_sealed k cap :
  tk k = key -> key_id k = id_ -> installed k <> 0 -> zlen inp <= cap ->
  is_byte (rd inp 1) -> Z.land (rd inp 1) 0x40 = 0 ->
  0 < pn < 2 ^ 48 -> rd (rx_pn k) tid < pn ->
  wifi_ccmp_open k frame cap
  = (mkCcmp (tk k) (key_id k) (installed k) (tx_pn k) (wr (rx_pn k) tid pn), Some inp).
Proof.
  intros Hk Hid Hi Hc Hb Hp Hpn Hrx. pose proof header_len as Hhl. destruct field_lengths as (Hph & Hcl & Hz).
  unfold wifi_ccmp_open. rewrite frame_parses, frame_iv, frame_body.
  unfold WIFI_MPDU_MAX in *.
  assert (Hbit : Z.land (rd frame 1) 0x40 = 0x40).
  { rewrite frame_rd by lia. change (1 =? 1) with true. cbv iota.
    by rewrite Z.land_lor_distr_l, Hp. }
  rewrite Hbit. replace (_ || _ || _ || _ || _) with false by (change (0x40 =? 0) with false; lia).
  change (rd (iv_bytes pn id_) 2) with 0. change (rd (iv_bytes pn id_) 3) with (!8 (Z.lor 0x20 (Z.shiftl id_ 6))).
  rewrite Hid, !Z.eqb_refl, iv_pn_bytes, frame_parameters by lia. cbn [negb orb].
  replace ((pn =? 0) || (pn <=? rd (rx_pn k) tid)) with false by lia.
  rewrite Hk. destruct (parameters h hl tid pn) as [nn aa] eqn:E.
  pose proof frame_tag as Htag. rewrite E in Htag. cbn [fst snd] in *. rewrite crypt_twice.
  rewrite diff_masked by exact Htag. change (0 =? 0) with true. cbv iota.
  rewrite frame_header, unprotect, inp_split by (done || lia). done.
Qed.
End Sealed.

(** ** Claims *)

(** C31. A receiver that holds the key opens what the sender sealed: the frame comes
    back byte for byte, 16 bytes shorter than what was sent, the sender has used
    the next packet number and the receiver's queue has moved to it. *)
Theorem ccmp_open_seal ks kr inp cap cap' hl tid :
  header inp = Some (hl, tid) -> Forall is_byte inp -> Z.land (rd inp 1) 0x40 = 0 ->
  installed ks <> 0 -> installed kr <> 0 -> tk ks = tk kr -> key_id ks = key_id kr ->
  zlen inp <= WIFI_MPDU_MAX - 16 -> zlen inp + 16 <= cap -> zlen inp <= cap' ->
  0 <= tx_pn ks < WIFI_CCMP_PN_MAX -> rd (rx_pn kr) tid <= tx_pn ks ->
  exists c,
    wifi_ccmp_seal ks inp cap
    = (mkCcmp (tk ks) (key_id ks) (installed ks) (tx_pn ks + 1) (rx_pn ks), Some c) /\
    zlen c = zlen inp + 16 /\
    wifi_ccmp_open kr c cap'
    = (mkCcmp (tk kr) (key_id kr) (installed kr) (tx_pn kr) (wr (rx_pn kr) tid (tx_pn ks + 1)), Some inp).
Proof.
  intros Hh Hb Hp His Hir Htk Hid Hn Hc Hc' Ht Hrx.
  exists (sealed (tk ks) (key_id ks) (tx_pn ks + 1) inp hl tid). unfold WIFI_CCMP_PN_MAX in *.
  split_and!.
  - by apply seal_eq.
  - by apply field_lengths.
  - apply open_sealed; auto with embk; lia.
Qed.

Definition demo_ccmp : wifi_ccmp_key := mkCcmp (demo_key 16) 0 1 0 (replicate 17 0).
Definition demo_frame : list Z :=
  [0x08; 0x01; 0; 0] ++ demo_key 18 ++ [0x30; 0x12; 0xaa; 0xaa; 3; 0; 0; 0; 8; 0] ++ demo_key 20.

Lemma demo_frame_bytes : Forall is_byte demo_frame.
Proof.
  unfold demo_frame, demo_key. simpl. repeat (apply Forall_cons_2; [unfold is_byte; lia |]). apply Forall_nil_2.
Qed.

Lemma ccmp_open_seal_witness :
  exists c, snd (wifi_ccmp_seal demo_ccmp demo_frame 1600) = Some c /\
            snd (wifi_ccmp_open demo_ccmp c 1600) = Some demo_frame.
Proof.
  destruct (ccmp_open_seal demo_ccmp demo_ccmp demo_frame 1600 1600 24 16) as (c & E & _ & E');
    [reflexivity | apply demo_frame_bytes | reflexivity | discriminate | discriminate | reflexivity
    | reflexivity | discriminate | discriminate | discriminate | split; [discriminate | reflexivity]
    | discriminate |].
  exists c. rewrite E, E'. split; reflexivity.
Defined.

(** ** Packet numbers *)

(** The packet number a frame carries, and its queue. *)
Definition frame_pn (c : list Z) : option (Z * Z) :=
  '(hl, tid) ← header c; Some (tid, iv_pn (sub c hl 8)).

Lemma seal_cases k inp cap :
  0 <= tx_pn k <= WIFI_CCMP_PN_MAX ->
  wifi_ccmp_seal k inp cap = (k, None) \/
  installed k <> 0 /\ tx_pn k < WIFI_CCMP_PN_MAX /\
  exists c tid, wifi_ccmp_seal k inp cap
    = (mkCcmp (tk k) (key_id k) (installed k) (tx_pn k + 1) (rx_pn k), Some c) /\
    zlen c = zlen inp + 16 /\ zlen c <= cap /\ frame_pn c = Some (tid, tx_pn k + 1).
Proof.
  intros Ht. destruct (header inp) as [[hl tid] |] eqn:Hh; cycle 1.
  { left. unfold wifi_ccmp_seal. by rewrite Hh. }
  destruct (decide (installed k <> 0 /\ zlen inp <= WIFI_MPDU_MAX - 16 /\ zlen inp + 16 <= cap /\
                    Z.land (rd inp 1) 0x40 = 0 /\ tx_pn k < WIFI_CCMP_PN_MAX)) as [(Hi & Hn & Hc & Hp & Hpn) | Hno].
  - right. split_and!; [done | done |]. exists (sealed (tk k) (key_id k) (tx_pn k + 1) inp hl tid), tid.
    split_and!; [apply seal_eq; done || lia | by apply field_lengths | |].
    + etransitivity; [| exact Hc]. pose proof (field_lengths (tk k) inp (key_id k) (tx_pn k + 1) hl tid Hh) as (_ & _ & ->).
      done.
    + unfold frame_pn. rewrite frame_parses by done. simpl. rewrite frame_iv by done.
      rewrite iv_pn_bytes by (unfold WIFI_CCMP_PN_MAX in *; lia). done.
  - left. unfold wifi_ccmp_seal. rewrite Hh. case_match eqn:E; [done |]. exfalso. apply Hno.
    unfold WIFI_MPDU_MAX in *. b2p. lia.
Qed.

Lemma open_cases k f cap :
  wifi_ccmp_open k f cap = (k, None) \/
  installed k <> 0 /\
  exists tid pn p, frame_pn f = Some (tid, pn) /\ 0 <= tid <= 16 /\ rd (rx_pn k) tid < pn /\
    zlen p = zlen f - 16 /\ zlen p <= cap /\
    wifi_ccmp_open k f cap
    = (mkCcmp (tk k) (key_id k) (installed k) (tx_pn k) (wr (rx_pn k) tid pn), Some p).
Proof.
  unfold wifi_ccmp_open, frame_pn. destruct (header f) as [[hl tid] |] eqn:Hh; [| by left].
  cbn [mbind option_bind].
  destruct (header_facts _ _ _ Hh) as [Hk Hl].
  case_match eqn:E1; [by left |]. case_match eqn:E2; [by left |]. case_match eqn:E3; [by left |].
  destruct (parameters f hl tid _) as [nonce aad]. case_match eqn:E4; [| by left].
  right. split; [b2p; lia |]. eexists tid, _, _.
  assert (Htid : 0 <= tid <= 16).
  { destruct Hk as [[_ ->] | [_ ->]]; [lia |]. change 15 with (2 ^ 4 - 1). rewrite land_ones_mod by lia.
    pose proof (Z.mod_pos_bound (rd f 24) (2 ^ 4)). lia. }
  b2p. assert (Hz : zlen (wr (sub f 0 hl) 1 (Z.land (rd (sub f 0 hl) 1) (!8 (Z.lnot 0x40)))) = hl).
  { unfold zlen. rewrite wr_length. apply (sub_length f 0 hl); lia. }
  destruct (crypt_spec (aes128_init raw128 (tk k)) nonce (sub f (hl + 8) (zlen f - hl - 16))) as [Hc _].
  rewrite sub_length in Hc by lia.
  split_and!; [done | lia | lia | lia | rewrite zlen_app, Hz, Hc; lia | rewrite zlen_app, Hz, Hc; lia | done].
Qed.

(** What happens to a key: it is installed, seals a frame, or opens one. *)
Inductive ccmp_event :=
| Install (tk_ : list Z) (id_ rsc : Z)
| Seal (inp : list Z) (cap : Z)
| Open (inp : list Z) (cap : Z).

(** What leaves: a sealed frame, or the accepted frame. *)
Inductive ccmp_out := Sent (c : list Z) | Accepted (c : list Z).

Definition ccmp_step (k : wifi_ccmp_key) (e : ccmp_event) : wifi_ccmp_key * list ccmp_out :=
  match e with
  | Install tk_ id_ rsc => (fst (wifi_ccmp_install k tk_ id_ rsc), [])
  | Seal inp cap => let '(k, r) := wifi_ccmp_seal k inp cap in
                    (k, match r with Some c => [Sent c] | None => [] end)
  | Open inp cap => let '(k, r) := wifi_ccmp_open k inp cap in
                    (k, match r with Some _ => [Accepted inp] | None => [] end)
  end.

Fixpoint ccmp_run (k : wifi_ccmp_key) (es : list ccmp_event) : wifi_ccmp_key * list ccmp_out :=
  match es with
  | [] => (k, [])
  | e :: es => let '(k, o) := ccmp_step k e in
               let '(k, os) := ccmp_run k es in (k, o ++ os)
  end.

(** The packet numbers sent, and those accepted on a queue, in order. *)
Definition sent_pns (os : list ccmp_out) : list Z :=
  omap (fun o => match o with Sent c => snd <$> frame_pn c | _ => None end) os.
Definition accepted_pns (q : Z) (os : list ccmp_out) : list Z :=
  omap (fun o => match o with
                 | Accepted c => '(tid, pn) ← frame_pn c; if tid =? q then Some pn else None
                 | _ => None
                 end) os.

(** The event does not replace the key. *)
Definition keeps_key (tk_ : list Z) (id_ : Z) (e : ccmp_event) : Prop :=
  match e with Install t i _ => t = tk_ /\ i = id_ | _ => True end.

Record ccmp_wf (k : wifi_ccmp_key) : Prop := {
  wf_installed : installed k <> 0;
  wf_tx : 0 <= tx_pn k <= WIFI_CCMP_PN_MAX;
  wf_rx : zlen (rx_pn k) = 17 }.

Lemma rd_wr_mono l i v q : 0 <= i -> 0 <= q -> rd l i <= v -> rd l q <= rd (wr l i v) q.
Proof.
  intros Hi Hq Hv. destruct (decide (q = i)) as [-> |]; [| by rewrite rd_wr_ne by lia].
  destruct (decide (i < zlen l)); [by rewrite rd_wr_eq by (unfold zlen in *; lia) |].
  unfold rd, wr, zlen in *. rewrite list_insert_ge by lia. lia.
Qed.

Lemma reinstall_cases k rsc :
  ccmp_wf k ->
  let k' := fst (wifi_ccmp_install k (tk k) (key_id k) rsc) in
  ccmp_wf k' /\ tk k' = tk k /\ key_id k' = key_id k /\ tx_pn k' = tx_pn k /\
  forall q, 0 <= q -> rd (rx_pn k) q <= rd (rx_pn k') q.
Proof.
  intros [Hi Ht Hr] k'. unfold k', wifi_ccmp_install. clear k'.
  case_match; [split_and!; done |]. rewrite Z.eqb_refl, bool_decide_true by done.
  replace (installed k =? 0) with false by lia. cbn [negb andb fst tk key_id installed tx_pn rx_pn].
  set (f := fun i rx => _).
  assert (Hm : zlen (for_range 17 0 f (rx_pn k)) = zlen (rx_pn k) /\
               forall q, 0 <= q -> rd (rx_pn k) q <= rd (for_range 17 0 f (rx_pn k)) q).
  { apply (for_range_ind (fun _ rx => zlen rx = zlen (rx_pn k) /\ forall q, 0 <= q -> rd (rx_pn k) q <= rd rx q));
      [split; [done | intros; lia] |].
    intros i rx Hir [Hz Hq]. unfold f. case_match; [| done].
    split; [unfold zlen in *; by rewrite wr_length |]. intros q Hq0.
    etransitivity; [by apply Hq |]. b2p. apply rd_wr_mono; lia. }
  revert Hm. generalize (for_range 17 0 f (rx_pn k)). intros rx [Hz Hq].
  split_and!; [split; [exact Hi | exact Ht | exact (eq_trans Hz Hr)] | reflexivity .. | exact Hq].
Qed.

(** One event: the key stays, at most one number is used and it is the next one,
    and at most one number is accepted and it is beyond its queue's last. *)
Lemma ccmp_step_fresh k e :
  ccmp_wf k -> keeps_key (tk k) (key_id k) e ->
  let '(k', os) := ccmp_step k e in
  ccmp_wf k' /\ tk k' = tk k /\ key_id k' = key_id k /\
  (sent_pns os = [] /\ tx_pn k' = tx_pn k \/ sent_pns os = [tx_pn k + 1] /\ tx_pn k' = tx_pn k + 1) /\
  forall q, 0 <= q ->
    rd (rx_pn k) q <= rd (rx_pn k') q /\
    (accepted_pns q os = [] \/ accepted_pns q os = [rd (rx_pn k') q] /\ rd (rx_pn k) q < rd (rx_pn k') q).
Proof.
  intros Hwf He. destruct e as [t i rsc | inp cap | inp cap]; unfold ccmp_step.
  - destruct He as [-> ->]. destruct (reinstall_cases k rsc Hwf) as (Hw & Ht & Hid & Htx & Hrx).
    split_and!; [done | done | done | by left |]. intros q Hq. split; [by apply Hrx | by left].
  - destruct (seal_cases k inp cap (wf_tx k Hwf)) as [-> | (Hi & Hlt & c & tid & -> & _ & _ & Hpn)].
    + split_and!; [done | done | done | by left |]. intros q _. split; [lia | by left].
    + destruct Hwf as [Hi' Htx Hrx].
      split_and!; [split; simpl; [done | lia | done] | done | done | right |].
      * unfold sent_pns. cbn [omap list_omap]. rewrite Hpn. done.
      * intros q _. split; [simpl; lia | by left].
  - destruct (open_cases k inp cap) as [-> | (Hi & tid & pn & p & Hpn & Htid & Hlt & _ & _ & ->)].
    + split_and!; [done | done | done | by left |]. intros q _. split; [lia | by left].
    + destruct Hwf as [Hi' Htx Hrx].
      split_and!; [split; simpl; [done | lia | unfold zlen in *; by rewrite wr_length] | done | done | by left |].
      intros q Hq. cbn [rx_pn]. split; [apply rd_wr_mono; lia |].
      unfold accepted_pns. cbn [omap list_omap]. rewrite Hpn. cbn [mbind option_bind].
      destruct (tid =? q) eqn:E; [right; b2p; subst q | by left].
      rewrite rd_wr_eq by (unfold zlen in Hrx; lia). done.
Qed.

Lemma sent_pns_app a b : sent_pns (a ++ b) = sent_pns a ++ sent_pns b.
Proof. apply omap_app. Qed.
Lemma accepted_pns_app q a b : accepted_pns q (a ++ b) = accepted_pns q a ++ accepted_pns q b.
Proof. apply omap_app. Qed.

Lemma sorted_below (a b : Z) l : a <= b -> StronglySorted Z.lt (b :: l) -> StronglySorted Z.lt (a :: l).
Proof.
  intros Hab [Hs Hf]%StronglySorted_inv. constructor; [done |].
  eapply Forall_impl; [exact Hf |]. simpl. lia.
Qed.

(** C14. No nonce is used twice and no frame is accepted twice.  Whatever sequence of
    frames is sealed and opened, with the same key installed again at any point,
    the packet numbers of the frames sent are the consecutive ones after the key's
    counter and none passes the 48-bit maximum, and the numbers accepted on each
    queue strictly increase, all beyond the queue's counter at the start. *)
Theorem ccmp_no_reuse k es :
  ccmp_wf k -> Forall (keeps_key (tk k) (key_id k)) es ->
  let os := snd (ccmp_run k es) in
  sent_pns os = seqZ (tx_pn k + 1) (zlen (sent_pns os)) /\
  tx_pn k + zlen (sent_pns os) <= WIFI_CCMP_PN_MAX /\
  forall q, 0 <= q -> StronglySorted Z.lt (rd (rx_pn k) q :: accepted_pns q os).
Proof.
  revert k. induction es as [| e es IH]; intros k Hwf Hes os.
  { unfold os. cbn [ccmp_run snd]. pose proof (wf_tx k Hwf). change (zlen (sent_pns [])) with 0.
    split_and!; [done | lia |]. intros q _. repeat constructor. }
  apply Forall_cons in Hes as [He Hes]. unfold os. cbn [ccmp_run].
  pose proof (ccmp_step_fresh k e Hwf He) as Hstep. destruct (ccmp_step k e) as [k1 o].
  destruct Hstep as (Hwf1 & Ht & Hid & Hs & Hq).
  rewrite <- Ht, <- Hid in Hes. specialize (IH k1 Hwf1 Hes).
  destruct (ccmp_run k1 es) as [k2 os2]. cbn [snd] in *. destruct IH as (IHs & IHm & IHq).
  rewrite sent_pns_app, zlen_app. split_and!.
  - destruct Hs as [[-> E] | [-> E]]; rewrite E in IHs; [exact IHs |].
    change (zlen [tx_pn k + 1]) with 1. rewrite seqZ_cons by (pose proof (zlen_nonneg (sent_pns os2)); lia).
    cbn [app]. apply (f_equal (cons _)). rewrite IHs at 1. f_equal; lia.
  - destruct Hs as [[-> E] | [-> E]]; rewrite E in IHm; [change (zlen []) with 0 | change (zlen [_]) with 1]; lia.
  - intros q Hq0. rewrite accepted_pns_app. specialize (IHq q Hq0).
    destruct (Hq q Hq0) as [Hle [-> | [-> Hlt]]]; [by apply (sorted_below _ (rd (rx_pn k1) q)) |].
    pose proof (StronglySorted_inv IHq) as [_ Hf]. cbn [app]. constructor; [exact IHq |].
    constructor; [done |]. eapply Forall_impl; [exact Hf |]. simpl. lia.
Qed.

Lemma demo_ccmp_wf : ccmp_wf demo_ccmp.
Proof. split; [discriminate | split; discriminate | reflexivity]. Qed.

Definition demo_events : list ccmp_event :=
  [Seal demo_frame 1600; Install (demo_key 16) 0 0; Seal demo_frame 1600].

Lemma ccmp_no_reuse_witness :
  sent_pns (snd (ccmp_run demo_ccmp demo_events))
  = seqZ 1 (zlen (sent_pns (snd (ccmp_run demo_ccmp demo_events)))).
Proof.
  destruct (ccmp_no_reuse demo_ccmp demo_events demo_ccmp_wf) as [E _].
  { constructor; [exact I |]. constructor; [split; reflexivity |]. constructor; [exact I |]. constructor. }
  exact E.
Defined.

Example demo_events_sent : sent_pns (snd (ccmp_run demo_ccmp demo_events)) = [1; 2].
Proof. vm_compute. reflexivity. Qed.
