(* ===== verification/Wpa2.v ===== *)
(** The WPA2 supplicant: a model of kernel/net/wifi/wpa2.c.

    The callbacks of the adapter are the class [WpaOps], operations on a world of
    the adapter's own.  The record [wifi_wpa2] is the structure of the source
    without the callbacks; [reply] holds the bytes of the last response.  Pointers
    are not null, and erasing locals is left out.  A frame is a list of bytes,
    its length is the length argument.

    [recorded] turns any adapter into one that also records the calls, and
    [wpa_run] is a session: frames and ticks in any order. *)
From S2P Require Import Prelude Bytes Aes Sha Kdf KeyWrap.

(** ** Data *)

Definition PAIR_M1 : Z := 0x008a.
Definition PAIR_M2 : Z := 0x010a.
Definition PAIR_M3 : Z := 0x13ca.
Definition PAIR_M4 : Z := 0x030a.
Definition GROUP_M1 : Z := 0x1382.
Definition GROUP_M2 : Z := 0x0302.
Definition KEY_FIXED : Z := 99.
Definition MIC_AT : Z := 81.
Definition RETRY_MS : Z := 1000.
Definition MAX_ATTEMPTS : Z := 4.
Definition WIFI_EAPOL_MAX : Z := 512.
Definition WIFI_RSN_MAX : Z := 257.
Definition wifi_wpa2_station_rsn : list Z :=
  [48; 20; 1; 0; 0; 15; 172; 4; 1; 0; 0; 15; 172; 4; 1; 0; 0; 15; 172; 2; 0; 0].

Inductive wifi_wpa2_state :=
| WIFI_WPA2_IDLE | WIFI_WPA2_M1 | WIFI_WPA2_M3 | WIFI_WPA2_M4
| WIFI_WPA2_CONNECTED | WIFI_WPA2_FAILED.

#[export] Instance wifi_wpa2_state_eq_dec : EqDecision wifi_wpa2_state.
Proof. solve_decision. Defined.

Record wifi_wpa2_keys := mkKeys {
  pairwise : Z; group : Z; gtk_id : Z; k_tk : list Z; k_gtk : list Z; group_rsc : Z }.

Record wifi_wpa2 := mkWpa {
  state : wifi_wpa2_state;
  sta : list Z; ap : list Z; pmk : list Z; ptk : list Z; snonce : list Z; anonce : list Z;
  ap_rsn : list Z; ap_rsn_len : Z;
  last_digest : list Z; reply : list Z; reply_len : Z; attempts : Z;
  replay : Z; deadline : Z;
  have_replay : Z; reply_protected : Z; authorized : Z }.

(** The structure as [memset] and [erase] leave it. *)
Definition zero_wpa : wifi_wpa2 :=
  mkWpa WIFI_WPA2_IDLE (replicate 6 0) (replicate 6 0) (replicate 32 0) (replicate 48 0)
    (replicate 32 0) (replicate 32 0) (replicate (Z.to_nat WIFI_RSN_MAX) 0) 0 (replicate 20 0) [] 0 0 0 0 0 0 0.

(** The callbacks.  [ops_random n] gives [n] bytes with its return value. *)
Class WpaOps (W : Type) := {
  ops_random : Z -> W -> W * (Z * list Z);
  ops_send : list Z -> Z -> W -> W * Z;
  ops_install : wifi_wpa2_keys -> W -> W * Z;
  ops_port : Z -> W -> W }.

Section Setters.
Context (s : wifi_wpa2).
Definition set_state st := mkWpa st (sta s) (ap s) (pmk s) (ptk s) (snonce s) (anonce s) (ap_rsn s) (ap_rsn_len s)
  (last_digest s) (reply s) (reply_len s) (attempts s) (replay s) (deadline s) (have_replay s) (reply_protected s)
  (authorized s).
Definition set_authorized up := mkWpa (state s) (sta s) (ap s) (pmk s) (ptk s) (snonce s) (anonce s) (ap_rsn s)
  (ap_rsn_len s) (last_digest s) (reply s) (reply_len s) (attempts s) (replay s) (deadline s) (have_replay s)
  (reply_protected s) up.
Definition set_timer dl n := mkWpa (state s) (sta s) (ap s) (pmk s) (ptk s) (snonce s) (anonce s) (ap_rsn s)
  (ap_rsn_len s) (last_digest s) (reply s) (reply_len s) n (replay s) dl (have_replay s) (reply_protected s)
  (authorized s).
Definition set_reply r n := mkWpa (state s) (sta s) (ap s) (pmk s) (ptk s) (snonce s) (anonce s) (ap_rsn s)
  (ap_rsn_len s) (last_digest s) r n (attempts s) (replay s) (deadline s) (have_replay s) (reply_protected s)
  (authorized s).
Definition set_protected b := mkWpa (state s) (sta s) (ap s) (pmk s) (ptk s) (snonce s) (anonce s) (ap_rsn s)
  (ap_rsn_len s) (last_digest s) (reply s) (reply_len s) (attempts s) (replay s) (deadline s) (have_replay s) b
  (authorized s).
Definition set_secrets pm pt sn an := mkWpa (state s) (sta s) (ap s) pm pt sn an (ap_rsn s)
  (ap_rsn_len s) (last_digest s) (reply s) (reply_len s) (attempts s) (replay s) (deadline s) (have_replay s)
  (reply_protected s) (authorized s).
Definition set_replay have r d n := mkWpa (state s) (sta s) (ap s) (pmk s) (ptk s) (snonce s) (anonce s) (ap_rsn s)
  (ap_rsn_len s) d (reply s) (reply_len s) n r (deadline s) have (reply_protected s) (authorized s).
End Setters.

(** ** Helpers *)

Definition be16 (p : list Z) (at_ : Z) : Z := rd p at_ * 256 + rd p (at_ + 1).
Definition put16 (v : Z) : list Z := [!8 (Z.shiftr v 8); !8 v].
Definition be64 (p : list Z) (at_ : Z) : Z :=
  fold_left (fun v i => Z.lor (!64 (Z.shiftl v 8)) (rd p (at_ + Z.of_nat i))) (seq 0 8) 0.
Definition equal (a b : list Z) (n : nat) : bool :=
  fold_left (fun d i => Z.lor d (Z.lxor (rd a (Z.of_nat i)) (rd b (Z.of_nat i)))) (seq 0 n) 0 =? 0.
Definition nonzero (p : list Z) (n : nat) : bool :=
  negb (fold_left (fun v i => Z.lor v (rd p (Z.of_nat i))) (seq 0 n) 0 =? 0).

(** The keyed hash, the key derivation and the digest always return, as [hmac_sha1_eq]
    and [sha1_digest] show, so that the defaults are never taken. *)
Definition mic_of (kck packet : list Z) : list Z := default [] (wifi_wpa2_mic kck packet).
Definition ptk_of (pmk sta ap snonce anonce : list Z) : list Z := default [] (wifi_wpa2_ptk pmk sta ap snonce anonce).

Definition response (s : wifi_wpa2) (inp : list Z) (info : Z) (with_rsn : bool) : wifi_wpa2 :=
  let data := if with_rsn then zlen wifi_wpa2_station_rsn else 0 in
  let reply_len := KEY_FIXED + data in
  let r := replicate (Z.to_nat reply_len) 0 in
  let r := wr r 0 (rd inp 0) in
  let r := wr r 1 3 in
  let r := blit r 2 (put16 (reply_len - 4)) in
  let r := wr r 4 2 in
  let r := blit r 5 (put16 info) in
  let r := blit r 9 (sub inp 9 8) in
  let r := if with_rsn then blit (blit r 17 (sub (snonce s) 0 32)) KEY_FIXED wifi_wpa2_station_rsn else r in
  let r := blit r 97 (put16 data) in
  let r := blit r MIC_AT (mic_of (sub (ptk s) 0 16) r) in
  set_reply s r reply_len.

Definition valid_mic (s : wifi_wpa2) (p : list Z) : bool :=
  let copy := blit p MIC_AT (replicate 16 0) in
  equal (mic_of (sub (ptk s) 0 16) copy) (sub p MIC_AT 16) 16.

(** One element after the other; [None] is [goto out] with [result = -1]. *)
Fixpoint key_elements (fuel : nat) (s : wifi_wpa2) (plain : list Z) (at_ rsn_seen gtk_seen : Z) (keys : wifi_wpa2_keys)
  : option (Z * Z * wifi_wpa2_keys) :=
  match fuel with
  | O => None
  | S fuel =>
    let rn := zlen plain in
    if at_ <? rn then
      if (rd plain at_ =? 221) && negb (nonzero (drop (Z.to_nat (at_ + 1)) plain) (Z.to_nat (rn - at_ - 1))) then
        Some (rsn_seen, gtk_seen, keys)
      else if (rn - at_ <? 2) || (rn - at_ - 2 <? rd plain (at_ + 1)) then None
      else
        let len := rd plain (at_ + 1) + 2 in
        let ie := drop (Z.to_nat at_) plain in
        if rd ie 0 =? 48 then
          if negb (rsn_seen =? 0) || negb (len =? ap_rsn_len s) || negb (equal ie (ap_rsn s) (Z.to_nat len)) then None
          else key_elements fuel s plain (at_ + len) (rsn_seen + 1) gtk_seen keys
        else if (rd ie 0 =? 221) && (6 <=? len) && (rd ie 2 =? 0) && (rd ie 3 =? 15) && (rd ie 4 =? 172)
                && (rd ie 5 =? 1) then
          if negb (gtk_seen =? 0) || negb (len =? 24) || negb (Z.land (rd ie 6) 0xfffffff8 =? 0)
             || negb (rd ie 7 =? 0) then None
          else
            let keys := mkKeys (pairwise keys) 1 (Z.land (rd ie 6) 3) (k_tk keys) (sub ie 8 16) (group_rsc keys) in
            key_elements fuel s plain (at_ + len) rsn_seen (gtk_seen + 1) keys
        else key_elements fuel s plain (at_ + len) rsn_seen gtk_seen keys
    else Some (rsn_seen, gtk_seen, keys)
  end.

(** The keys with the group key filled in, or [None] for -1. *)
Definition key_data (s : wifi_wpa2) (p : list Z) (pair_ : bool) (keys : wifi_wpa2_keys) : option wifi_wpa2_keys :=
  plain ← wifi_wpa2_unwrap (sub (ptk s) 16 16) p 256;
  '(rsn_seen, gtk_seen, keys) ← key_elements (S (length plain)) s plain 0 0 0 keys;
  if (gtk_seen =? 1) && (negb pair_ || (rsn_seen =? 1)) then Some keys else None.

(** [group_rsc |= p[65+i] << (i*8)]. *)
Definition frame_rsc (p : list Z) : Z :=
  fold_left (fun v i => Z.lor v (Z.shiftl (rd p (65 + Z.of_nat i)) (Z.of_nat i * 8))) (seq 0 6) 0.

(** The checks that come before everything else. *)
Definition key_frame (p : list Z) : bool :=
  let n := zlen p in
  negb ((n <? KEY_FIXED) || (WIFI_EAPOL_MAX <? n) || (rd p 0 <? 1) || (2 <? rd p 0) || negb (rd p 1 =? 3)
        || negb (be16 p 2 =? n - 4) || negb (rd p 4 =? 2) || negb (be16 p 97 =? n - KEY_FIXED)).

Definition digest_of (p : list Z) : list Z := default [] (Sha1.sha1 p).

Definition live (st : wifi_wpa2_state) : bool :=
  match st with WIFI_WPA2_IDLE | WIFI_WPA2_FAILED => false | _ => true end.

(** ** Operations *)

Section Ops.
Context {W : Type} `{WpaOps W}.

Definition port (s : wifi_wpa2) (up : Z) (w : W) : wifi_wpa2 * W :=
  if authorized s =? up then (s, w) else (set_authorized s up, ops_port up w).

Definition wifi_wpa2_stop (s : wifi_wpa2) (w : W) : wifi_wpa2 * W :=
  (zero_wpa, if negb (authorized s =? 0) then ops_port 0 w else w).

Definition fail (s : wifi_wpa2) (w : W) : wifi_wpa2 * W * Z :=
  let '(s, w) := port s 0 w in
  let s := set_reply (set_state s WIFI_WPA2_FAILED) (reply s) 0 in
  (set_secrets s (replicate 32 0) (replicate 48 0) (replicate 32 0) (anonce s), w, -1).

Definition wifi_wpa2_start (s : wifi_wpa2) (sta ap pmk rsn : list Z) (now : Z) (w : W) : wifi_wpa2 * W * Z :=
  let rn := zlen rsn in
  if (rn <? 2) || (WIFI_RSN_MAX <? rn) || negb (rd rsn 0 =? 48) || negb (rd rsn 1 =? rn - 2)
     || negb (wifi_rsn_ccmp_psk (sub rsn 2 (rn - 2))) then (s, w, -1)
  else
    let z := zero_wpa in
    (mkWpa WIFI_WPA2_M1 sta ap pmk (ptk z) (snonce z) (anonce z) (blit (ap_rsn z) 0 rsn) rn
       (last_digest z) (reply z) (reply_len z) (attempts z) (replay z) (!64 (now + RETRY_MS * MAX_ATTEMPTS))
       (have_replay z) (reply_protected z) (authorized z),
     ops_port 0 w, 0).

Definition send_reply (s : wifi_wpa2) (now : Z) (w : W) : wifi_wpa2 * W * Z :=
  let s := set_timer s (!64 (now + RETRY_MS)) (!32 (attempts s + 1)) in
  let '(w, rc) := ops_send (sub (reply s) 0 (reply_len s)) (reply_protected s) w in
  if (rc =? 0) && bool_decide (state s = WIFI_WPA2_M4) then
    let '(s, w) := port (set_state s WIFI_WPA2_CONNECTED) 1 w in (s, w, rc)
  else (s, w, rc).

(** The end of a call that accepted a new message. *)
Definition accept (s : wifi_wpa2) (p : list Z) (now : Z) (w : W) : wifi_wpa2 * W * Z :=
  let s := set_replay s 1 (be64 p 9) (digest_of p) 0 in
  let '(s, w, _) := send_reply s now w in (s, w, 1).

Definition rx_m1 (s : wifi_wpa2) (p : list Z) (now : Z) (w : W) : wifi_wpa2 * W * Z :=
  if (negb (bool_decide (state s = WIFI_WPA2_M1)) && negb (bool_decide (state s = WIFI_WPA2_M3)))
     || negb (be16 p 7 =? 16) || negb (nonzero (sub p 17 32) 32) then (s, w, 0)
  else
    let '(w, (rc, sn)) := ops_random 32 w in
    let s := set_secrets s (pmk s) (ptk s) sn (anonce s) in
    if negb (rc =? 0) || negb (nonzero (snonce s) 32) then fail s w
    else
      let s := set_secrets s (pmk s) (ptk s) (snonce s) (sub p 17 32) in
      let s := set_secrets s (pmk s) (ptk_of (pmk s) (sta s) (ap s) (snonce s) (anonce s)) (snonce s) (anonce s) in
      let s := set_protected (response s p PAIR_M2 true) 0 in
      let s := set_state s WIFI_WPA2_M3 in
      accept s p now w.

Definition rx_keys (s : wifi_wpa2) (p : list Z) (now : Z) (w : W) : wifi_wpa2 * W * Z :=
  let info := be16 p 5 in
  let data := zlen p - KEY_FIXED in
  let pair_ := info =? PAIR_M3 in
  if (negb pair_ && negb (info =? GROUP_M1)) || negb (be16 p 7 =? 16) || (data <? 24)
     || (pair_ && negb (bool_decide (state s = WIFI_WPA2_M3)))
     || (negb pair_ && negb (bool_decide (state s = WIFI_WPA2_CONNECTED)))
     || (pair_ && negb (equal (sub p 17 32) (anonce s) 32)) || negb (valid_mic s p) then (s, w, 0)
  else if negb (rd p 71 =? 0) || negb (rd p 72 =? 0) then (s, w, 0)
  else
    let keys := mkKeys 0 0 0 (replicate 16 0) (replicate 16 0) (frame_rsc p) in
    match key_data s (sub p KEY_FIXED data) pair_ keys with
    | None => (s, w, 0)
    | Some keys =>
      let keys := mkKeys (Z.b2z pair_) (group keys) (gtk_id keys)
                    (if pair_ then sub (ptk s) 32 16 else k_tk keys) (k_gtk keys) (group_rsc keys) in
      let '(w, rc) := ops_install keys w in
      if negb (rc =? 0) then fail s w
      else
        let s := response s p (if pair_ then PAIR_M4 else GROUP_M2) false in
        let s := set_protected s (Z.b2z (negb pair_)) in
        let s := if pair_ then set_state s WIFI_WPA2_M4 else s in
        accept s p now w
    end.

Definition wifi_wpa2_rx (s : wifi_wpa2) (p : list Z) (now : Z) (w : W) : wifi_wpa2 * W * Z :=
  if negb (live (state s)) || negb (key_frame p) then (s, w, 0)
  else if negb (have_replay s =? 0) && (be64 p 9 <? replay s) then (s, w, 0)
  else if negb (have_replay s =? 0) && (be64 p 9 =? replay s) then
    if (reply_len s =? 0) || negb (equal (digest_of p) (last_digest s) 20) then (s, w, 0)
    else if negb (bool_decide (state s = WIFI_WPA2_CONNECTED)) && (MAX_ATTEMPTS <=? attempts s) then (s, w, 0)
    else let '(s, w, _) := send_reply s now w in (s, w, 1)
  else if be16 p 5 =? PAIR_M1 then rx_m1 s p now w
  else rx_keys s p now w.

Definition wifi_wpa2_tick (s : wifi_wpa2) (now : Z) (w : W) : wifi_wpa2 * W :=
  if negb (live (state s)) || bool_decide (state s = WIFI_WPA2_CONNECTED) || (now <? deadline s) then (s, w)
  else if (reply_len s =? 0) || (MAX_ATTEMPTS <=? attempts s) then
    let '(s, w, _) := fail s w in (s, w)
  else let '(s, w, _) := send_reply s now w in (s, w).
End Ops.

(** ** An adapter that records the calls *)

Inductive wpa_call :=
| CRandom (r : list Z) (rc : Z)
| CSend (p : list Z) (prot rc : Z)
| CInstall (k : wifi_wpa2_keys) (rc : Z)
| CPort (up : Z).

#[export] Instance recorded {W} `{WpaOps W} : WpaOps (W * list wpa_call) := {|
  ops_random n '(w, l) := let '(w, (rc, r)) := ops_random n w in ((w, l ++ [CRandom r rc]), (rc, r));
  ops_send p prot '(w, l) := let '(w, rc) := ops_send p prot w in ((w, l ++ [CSend p prot rc]), rc);
  ops_install k '(w, l) := let '(w, rc) := ops_install k w in ((w, l ++ [CInstall k rc]), rc);
  ops_port up '(w, l) := (ops_port up w, l ++ [CPort up]) |}.

(** What arrives while a session lasts. *)
Inductive wpa_event := Rx (p : list Z) (now : Z) | Tick (now : Z).

Definition wpa_step {W} `{WpaOps W} (e : wpa_event) (sw : wifi_wpa2 * W) : wifi_wpa2 * W :=
  match e with
  | Rx p now => fst (wifi_wpa2_rx (fst sw) p now (snd sw))
  | Tick now => wifi_wpa2_tick (fst sw) now (snd sw)
  end.

Definition wpa_run {W} `{WpaOps W} (es : list wpa_event) (sw : wifi_wpa2 * W) : wifi_wpa2 * W :=
  fold_left (fun sw e => wpa_step e sw) es sw.

(** The adapter of the examples: a fixed nonce, and every call succeeds. *)
#[export] Instance demo_ops : WpaOps unit := {|
  ops_random n _ := (tt, (0, demo_key (Z.to_nat n)));
  ops_send _ _ _ := (tt, 0);
  ops_install _ _ := (tt, 0);
  ops_port _ w := w |}.
