(* ===== verification/Wpa2Safety.v ===== *)
(** Theorems about the WPA2 supplicant of [Wpa2].

    The calls the supplicant makes obey the contract of wpa2.h whatever arrives:
    the pairwise key is installed at most once in a session, and the port opens
    only after that and after message 4 was accepted.  Keys are installed only from
    messages authenticated under the session's key.  The handshake with an honest
    authenticator completes with both sides holding the same keys.  Two theorems
    at the end show what a forged message 1 and a repeated message 3 do. *)
From S2P Require Import Prelude Bytes Aes Sha Kdf KeyWrap Wpa2.

(** ** The contract of wpa2.h *)

(** What a session may do next: nothing was drawn yet; a nonce was drawn; message 2
    was answered; the keys are installed; message 4 was accepted; the port is
    open; a group key could not be installed; nothing more. *)
Inductive phase := Waiting | Drawn | Answered | KeyInstalled | Replied | Opened | Closing | Over.

Definition contract (ph : phase) (c : wpa_call) : option phase :=
  match ph, c with
  | Waiting, CRandom r rc | Answered, CRandom r rc =>
    Some (if (rc =? 0) && nonzero r 32 then Drawn else Over)
  | Drawn, CSend _ 0 _ | Answered, CSend _ 0 _ => Some Answered
  | Answered, CInstall k rc =>
    if (pairwise k =? 1) && (group k =? 1) then Some (if rc =? 0 then KeyInstalled else Over) else None
  | KeyInstalled, CSend _ 0 rc => Some (if rc =? 0 then Replied else KeyInstalled)
  | Replied, CPort 1 => Some Opened
  | Opened, CSend _ _ _ => Some Opened
  | Opened, CInstall k rc =>
    if (pairwise k =? 0) && (group k =? 1) then Some (if rc =? 0 then Opened else Closing) else None
  | Closing, CPort 0 => Some Over
  | _, _ => None
  end.

Definition follows (l : list wpa_call) : option phase :=
  fold_left (fun o c => o ≫= fun ph => contract ph c) l (Some Waiting).

Lemma follows_snoc l c : follows (l ++ [c]) = (follows l ≫= fun ph => contract ph c).
Proof. unfold follows. by rewrite fold_left_app. Qed.

(** Where the state machine stands in a phase. *)
Definition stands (ph : phase) (s : wifi_wpa2) : Prop :=
  match state s with
  | WIFI_WPA2_IDLE => False
  | WIFI_WPA2_M1 => ph = Waiting /\ authorized s = 0 /\ reply_len s = 0
  | WIFI_WPA2_M3 => ph = Answered /\ authorized s = 0 /\ reply_protected s = 0
  | WIFI_WPA2_M4 => ph = KeyInstalled /\ authorized s = 0 /\ reply_protected s = 0
  | WIFI_WPA2_CONNECTED => ph = Opened /\ authorized s = 1
  | WIFI_WPA2_FAILED => ph <> Opened /\ authorized s = 0
  end.

Section Contract.
Context {W : Type} `{WpaOps W}.

Definition obeys (s : wifi_wpa2) (w : W * list wpa_call) : Prop :=
  exists ph, follows (snd w) = Some ph /\ stands ph s.

(** The same with a response ready, which may be the first one. *)
Definition ready (s : wifi_wpa2) (w : W * list wpa_call) : Prop :=
  exists ph, follows (snd w) = Some ph /\
    match state s with
    | WIFI_WPA2_M3 => (ph = Answered \/ ph = Drawn) /\ authorized s = 0 /\ reply_protected s = 0
    | WIFI_WPA2_M1 | WIFI_WPA2_FAILED => False
    | _ => stands ph s
    end.

Lemma send_reply_obeys s now w :
  ready s w -> let '(s', w', _) := send_reply s now w in obeys s' w'.
Proof.
  destruct w as [w l]. intros (ph & Hl & Hs). unfold send_reply, stands in *. cbn [ops_send recorded] in *.
  destruct (ops_send _ _ w) as [w' rc] eqn:E. cbn [state set_timer] in *.
  destruct (state s) eqn:Est; try done.
  - replace ((rc =? 0) && _) with false by (by rewrite bool_decide_false, andb_false_r).
    exists Answered. cbn [snd] in *. rewrite follows_snoc, Hl, bind_some.
    destruct Hs as ([-> | ->] & Ha & Hp); cbn [reply_protected set_timer]; rewrite Hp;
      (split; [done |]); unfold stands; cbn [state set_timer]; rewrite Est; auto.
  - destruct Hs as (-> & Ha & Hp). cbn [snd] in *. destruct (rc =? 0) eqn:Erc.
    + rewrite bool_decide_true by done. cbn [andb]. unfold port. cbn [authorized set_state set_timer].
      rewrite Ha. cbn [Z.eqb ops_port recorded]. exists Opened. cbn [snd].
      rewrite !follows_snoc, Hl, bind_some. cbn [reply_protected set_timer contract]. rewrite Hp, Erc, bind_some.
      split; [done |]. by unfold stands.
    + exists KeyInstalled. cbn [andb snd]. rewrite follows_snoc, Hl, bind_some. cbn [reply_protected set_timer contract].
      rewrite Hp, Erc. split; [done |]. unfold stands. cbn [state set_timer]. rewrite Est. auto.
  - replace ((rc =? 0) && _) with false by (by rewrite bool_decide_false, andb_false_r).
    destruct Hs as (-> & Ha). exists Opened. cbn [snd] in *. rewrite follows_snoc, Hl, bind_some. split; [done |].
    unfold stands. cbn [state set_timer]. rewrite Est. auto.
Qed.

(** Failing is always in order, except that an open port has to be closed in order. *)
Lemma fail_obeys s w ph :
  follows (snd w) = Some ph -> (authorized s = 0 /\ ph <> Opened \/ authorized s <> 0 /\ ph = Closing) ->
  let '(s', w', _) := fail s w in obeys s' w'.
Proof.
  destruct w as [w l]. intros Hl Hp. unfold fail, port. cbn [snd ops_port recorded] in *.
  destruct Hp as [[Ha Hn] | [Ha ->]].
  - rewrite Ha. cbn [Z.eqb]. exists ph. by split.
  - rewrite (proj2 (Z.eqb_neq _ _) Ha). exists Over. cbn [snd]. rewrite follows_snoc, Hl. by split.
Qed.

Lemma obeys_ready s w :
  obeys s w -> state s <> WIFI_WPA2_M1 -> state s <> WIFI_WPA2_FAILED -> ready s w.
Proof. intros (ph & Hl & Hs) H1 H2. exists ph. split; [done |]. unfold stands in *. by destruct (state s) eqn:E; tauto. Qed.

Lemma accept_obeys s p now w :
  ready s w -> let '(s', w', _) := accept s p now w in obeys s' w'.
Proof.
  intros Ho. unfold accept.
  pose proof (send_reply_obeys (set_replay s 1 (be64 p 9) (digest_of p) 0) now w) as Hs.
  destruct (send_reply _ now w) as [[s' w'] rc]. by apply Hs.
Qed.
End Contract.

(** ** What key data can say *)

(** The element that carries a group key. *)
Definition gtk_element (id_ : Z) (gtk : list Z) : list Z := [221; 22; 0; 15; 172; 1; id_; 0] ++ gtk.

Lemma fold_lor_zero {A} (f : A -> Z) l d :
  fold_left (fun d i => Z.lor d (f i)) l d = 0 <-> d = 0 /\ Forall (fun i => f i = 0) l.
Proof.
  revert d. induction l as [| i l IH]; intros d; simpl.
  - split; [intros ->; split; [done | constructor] | tauto].
  - rewrite IH, Z.lor_eq_0_iff, Forall_cons. tauto.
Qed.

Lemma equal_spec a b n :
  equal a b n = true <-> forall i, 0 <= i < Z.of_nat n -> rd a i = rd b i.
Proof.
  unfold equal. rewrite Z.eqb_eq, fold_lor_zero, Forall_forall. split.
  - intros [_ Hf] i Hi. specialize (Hf (Z.to_nat i) ltac:(apply elem_of_seq; lia)). cbv beta in Hf.
    rewrite Z2Nat.id in Hf by lia. by apply Z.lxor_eq.
  - intros Hr. split; [done |]. intros i Hi%elem_of_seq. rewrite Hr by lia. apply Z.lxor_nilpotent.
Qed.

Lemma equal_sub a b n : zlen a = n -> zlen b = n -> equal a b (Z.to_nat n) = true <-> a = b.
Proof.
  intros Ha Hb. rewrite equal_spec. split; [| by intros ->].
  intros Hr. apply rd_ext; [unfold zlen in *; lia |]. intros i Hi. apply Hr. unfold zlen in *. lia.
Qed.

Lemma nonzero_spec p n : nonzero p n = false <-> forall i, 0 <= i < Z.of_nat n -> rd p i = 0.
Proof.
  unfold nonzero. rewrite negb_false_iff, Z.eqb_eq, fold_lor_zero, Forall_forall. split.
  - intros [_ Hf] i Hi. specialize (Hf (Z.to_nat i) ltac:(apply elem_of_seq; lia)). cbv beta in Hf.
    by rewrite Z2Nat.id in Hf by lia.
  - intros Hr. split; [done |]. intros i Hi%elem_of_seq. apply Hr. lia.
Qed.

Lemma rd_drop l o i : 0 <= o -> 0 <= i -> rd (drop (Z.to_nat o) l) i = rd l (o + i).
Proof. intros Ho Hi. unfold rd. rewrite lookup_drop. do 2 f_equal. lia. Qed.

Lemma zlen_drop l o : 0 <= o <= zlen l -> zlen (drop (Z.to_nat o) l) = zlen l - o.
Proof. intros Ho. unfold zlen in *. rewrite length_drop. lia. Qed.

(** The first element of what is left, and the rest. *)
Lemma split_element plain at_ len :
  0 <= at_ -> 0 <= len -> at_ + len <= zlen plain ->
  drop (Z.to_nat at_) plain = sub plain at_ len ++ drop (Z.to_nat (at_ + len)) plain.
Proof.
  intros Ha Hl Hz. unfold sub. rewrite <- (take_drop (Z.to_nat len) (drop (Z.to_nat at_) plain)) at 1.
  rewrite drop_drop. do 2 f_equal. lia.
Qed.

Lemma gtk_element_read plain at_ :
  0 <= at_ -> at_ + 24 <= zlen plain ->
  let ie := drop (Z.to_nat at_) plain in
  rd ie 0 = 221 -> rd ie 1 = 22 -> rd ie 2 = 0 -> rd ie 3 = 15 -> rd ie 4 = 172 -> rd ie 5 = 1 -> rd ie 7 = 0 ->
  sub plain at_ 24 = gtk_element (rd ie 6) (sub ie 8 16).
Proof.
  intros Ha Hz ie R0 R1 R2 R3 R4 R5 R7. unfold ie in *. set (g := drop _ _) in *.
  assert (Hg : zlen g = zlen plain - at_) by (apply zlen_drop; lia).
  assert (E : sub plain at_ 24 = sub g 0 24) by (unfold sub, g; by rewrite drop_0).
  rewrite E. apply rd_ext.
  { rewrite <- Nat2Z.inj_iff. change (zlen (sub g 0 24) = zlen (gtk_element (rd g 6) (sub g 8 16))).
    unfold gtk_element. rewrite zlen_app, !sub_length by lia. done. }
  rewrite sub_length by lia. intros i Hi. rewrite rd_sub by lia.
  destruct (decide (i < 8)).
  - assert (i = 0 \/ i = 1 \/ i = 2 \/ i = 3 \/ i = 4 \/ i = 5 \/ i = 6 \/ i = 7) as Hc by lia.
    destruct Hc as [-> | [-> | [-> | [-> | [-> | [-> | [-> | ->]]]]]]]; done.
  - unfold gtk_element. rewrite rd_app_r by (simpl; lia). rewrite rd_sub by (simpl; lia). f_equal. simpl. lia.
Qed.

Definition rsn_of (s : wifi_wpa2) : list Z := sub (ap_rsn s) 0 (ap_rsn_len s).

Lemma rsn_element s plain at_ len :
  0 <= at_ -> 0 <= len <= zlen plain - at_ -> len = ap_rsn_len s -> 0 <= ap_rsn_len s <= zlen (ap_rsn s) ->
  equal (drop (Z.to_nat at_) plain) (ap_rsn s) (Z.to_nat len) = true -> sub plain at_ len = rsn_of s.
Proof.
  intros Ha Hl E Hr Heq. unfold rsn_of. rewrite <- E.
  pose proof (sub_length plain at_ len) as L1. pose proof (sub_length (ap_rsn s) 0 len) as L2. unfold zlen in L1, L2.
  apply rd_ext; [unfold zlen in *; lia |]. rewrite sub_length by lia. intros i Hi.
  rewrite !rd_sub by lia. rewrite <- rd_drop by lia. apply (proj1 (equal_spec _ _ _) Heq). lia.
Qed.

(** What reading the elements [els] made of the two counters and of the keys. *)
Record says (s : wifi_wpa2) (els : list (list Z)) (rs gs : Z) (keys : wifi_wpa2_keys) (rs' gs' : Z) (k' : wifi_wpa2_keys)
  : Prop := {
  says_rsn : rs' = rs \/ rsn_of s ∈ els;
  says_rsc : group_rsc k' = group_rsc keys;
  says_gtk : gs' = gs /\ k' = keys \/
    group k' = 1 /\ zlen (k_gtk k') = 16 /\
    exists id_, 0 <= id_ < 8 /\ gtk_id k' = Z.land id_ 3 /\ gtk_element id_ (k_gtk k') ∈ els }.

Lemma says_skip s e els rs gs keys rs' gs' k' :
  says s els rs gs keys rs' gs' k' -> says s (e :: els) rs gs keys rs' gs' k'.
Proof.
  intros [H1 H2 H3]. split; [| done |].
  - destruct H1; [by left | right; by right].
  - destruct H3 as [| (? & ? & id_ & ? & ? & ?)]; [by left | right]. split_and!; [done | done |].
    exists id_. split_and!; [lia | lia | done |]. by right.
Qed.

Lemma says_more_rsn s els rs gs keys rs' gs' k' :
  says s els (rs + 1) gs keys rs' gs' k' -> says s (rsn_of s :: els) rs gs keys rs' gs' k'.
Proof. intros Hs. apply (says_skip _ (rsn_of s)) in Hs as [H1 H2 H3]. split; [right; by left | done | done]. Qed.

Lemma says_more_gtk s els rs gs keys id_ gtk rs' gs' k' :
  0 <= id_ < 8 -> zlen gtk = 16 ->
  says s els rs (gs + 1) (mkKeys (pairwise keys) 1 (Z.land id_ 3) (k_tk keys) gtk (group_rsc keys)) rs' gs' k' ->
  says s (gtk_element id_ gtk :: els) rs gs keys rs' gs' k'.
Proof.
  intros Hi Hg Hs. apply (says_skip _ (gtk_element id_ gtk)) in Hs as [H1 H2 H3]. split; [done | done | right].
  destruct H3 as [[-> ->] |]; [| done]. cbn [group k_gtk gtk_id]. split_and!; [done | done |].
  exists id_. split_and!; [lia | lia | done |]. by left.
Qed.

Lemma land_high_zero b : is_byte b -> Z.land b 0xfffffff8 = 0 -> 0 <= b < 8.
Proof.
  intros Hb E. assert (T : negb (Z.land b 0xfffffff8 =? 0) || ((0 <=? b) && (b <? 8)) = true) by by_bytes b Hb.
  rewrite E in T. cbn [Z.eqb negb orb] in T. b2p. lia.
Qed.

Lemma key_elements_sound fuel s plain at_ rs gs keys rs' gs' k' :
  Forall is_byte plain -> 0 <= at_ -> 0 <= ap_rsn_len s <= zlen (ap_rsn s) ->
  key_elements fuel s plain at_ rs gs keys = Some (rs', gs', k') ->
  exists els pad, drop (Z.to_nat at_) plain = concat els ++ pad /\ says s els rs gs keys rs' gs' k'.
Proof.
  intros Hb Ha Hrsn. revert at_ rs gs keys Ha.
  induction fuel as [| fuel IH]; intros at_ rs gs keys Ha; [done |]. cbn [key_elements]. cbv zeta.
  assert (Hstop : Some (rs, gs, keys) = Some (rs', gs', k') -> exists els pad,
    drop (Z.to_nat at_) plain = concat els ++ pad /\ says s els rs gs keys rs' gs' k').
  { intros [= -> -> ->]. exists [], (drop (Z.to_nat at_) plain). split; [done |]. split; [by left | done | by left]. }
  destruct (Z.ltb_spec at_ (zlen plain)); [| done].
  destruct ((rd plain at_ =? 221) && _); [done |].
  destruct ((zlen plain - at_ <? 2) || _) eqn:Elen; [done |]. b2p.
  set (len := rd plain (at_ + 1) + 2) in *.
  assert (Hlen : 2 <= len <= zlen plain - at_) by (pose proof (rd_byte plain (at_ + 1) Hb) as Hby; unfold is_byte in Hby; lia).
  assert (Hnext : forall els pad, drop (Z.to_nat (at_ + len)) plain = concat els ++ pad ->
    drop (Z.to_nat at_) plain = concat (sub plain at_ len :: els) ++ pad).
  { intros els pad E. rewrite (split_element plain at_ len), E by lia. cbn [concat]. by rewrite <- app_assoc. }
  set (ie := drop (Z.to_nat at_) plain) in *.
  assert (Hie : zlen ie = zlen plain - at_) by (apply zlen_drop; lia).
  assert (Hie1 : rd ie 1 = len - 2) by (unfold ie; rewrite rd_drop by lia; unfold len; lia).
  destruct (rd ie 0 =? 48) eqn:E48; [| destruct (_ && _) eqn:Egtk].
  - destruct (_ || _) eqn:Ebad; [done |]. b2p. intros (els & pad & Ed & Hs)%IH; [| lia].
    exists (sub plain at_ len :: els), pad. split; [by apply Hnext |].
    replace (sub plain at_ len) with (rsn_of s); [by apply says_more_rsn |].
    symmetry. apply rsn_element; done || lia.
  - destruct (_ || _) eqn:Ebad; [done |]. b2p. intros (els & pad & Ed & Hs)%IH; [| lia].
    exists (sub plain at_ len :: els), pad. split; [by apply Hnext |].
    replace len with 24 by lia. rewrite (gtk_element_read plain at_) by first [done | lia | change (rd ie 1 = 22); lia].
    fold ie. apply says_more_gtk; [| apply sub_length; lia | exact Hs].
    apply land_high_zero; [apply rd_byte; by apply Forall_drop | done].
  - intros (els & pad & Ed & Hs)%IH; [| lia]. exists (sub plain at_ len :: els), pad. split; [by apply Hnext |].
    by apply says_skip.
Qed.

Lemma key_data_sound s p pair_ keys k :
  Forall is_byte p -> Forall is_byte (ptk s) -> 0 <= ap_rsn_len s <= zlen (ap_rsn s) ->
  key_data s p pair_ keys = Some k ->
  group k = 1 /\ group_rsc k = group_rsc keys /\ zlen (k_gtk k) = 16 /\
  exists els pad, Forall is_byte (concat els ++ pad) /\ p = rfc3394_wrap (sub (ptk s) 16 16) (concat els ++ pad) /\
    (exists id_, 0 <= id_ < 8 /\ gtk_id k = Z.land id_ 3 /\ gtk_element id_ (k_gtk k) ∈ els) /\
    (pair_ = true -> rsn_of s ∈ els).
Proof.
  intros Hp Hk Hr. unfold key_data. destruct (wifi_wpa2_unwrap _ p 256) as [plain |] eqn:Eu; [| done].
  apply unwrap_sound in Eu as (Hb & _ & _ & _ & Ew); [| by apply Bytes.sub_bytes | done].
  rewrite bind_some. destruct (key_elements _ _ _ _ _ _ _) as [[[rs gs] k1] |] eqn:Ee; [| done].
  rewrite bind_some. destruct (_ && _) eqn:Eok; [intros [= <-] | done]. apply andb_true_iff in Eok as [Eg Er]. b2p.
  destruct (key_elements_sound _ _ _ _ _ _ _ _ _ _ Hb (Z.le_refl 0) Hr Ee) as (els & pad & Ed & [H1 H2 H3]).
  change (drop (Z.to_nat 0) plain) with plain in Ed. subst plain.
  destruct H3 as [[? _] | (Hg & Hl & Hid)]; [lia |].
  split_and!; [done | done | done |]. exists els, pad. split_and!; [done | done | done |].
  intros ->. cbn [negb orb] in Er. b2p. destruct H1; [lia | done].
Qed.

Lemma key_elements_group fuel s plain at_ rs gs keys rs' gs' k' :
  key_elements fuel s plain at_ rs gs keys = Some (rs', gs', k') -> gs' = gs \/ group k' = 1.
Proof.
  assert (H : forall at_ rs gs keys, key_elements fuel s plain at_ rs gs keys = Some (rs', gs', k') ->
    gs' = gs /\ k' = keys \/ group k' = 1).
  { induction fuel as [| fuel IH]; intros at0 rs0 gs0 keys0; [done |]. cbn [key_elements]. cbv zeta.
    repeat (case_match; try done); intros E; try (by apply IH in E); try (injection E as -> -> ->; by left).
    apply IH in E as [[_ ->] | ?]; by right. }
  intros E. destruct (H _ _ _ _ E) as [[-> _] |]; [by left | by right].
Qed.

Lemma key_data_group s p pair_ keys k : key_data s p pair_ keys = Some k -> group k = 1.
Proof.
  unfold key_data. destruct (wifi_wpa2_unwrap _ p 256) as [plain |]; [| done]. rewrite bind_some.
  destruct (key_elements _ _ _ _ _ _ _) as [[[rs gs] k1] |] eqn:E; [| done]. rewrite bind_some.
  destruct (_ && _) eqn:Eok; [intros [= <-] | done]. apply andb_true_iff in Eok as [Eg _]. b2p.
  apply key_elements_group in E as [|]; [lia | done].
Qed.

(** The guards of [rx_keys], read back. *)
Lemma rx_keys_guard s p pair_ grp :
  (negb pair_ && negb grp) || negb (be16 p 7 =? 16) || (zlen p - KEY_FIXED <? 24)
  || (pair_ && negb (bool_decide (state s = WIFI_WPA2_M3)))
  || (negb pair_ && negb (bool_decide (state s = WIFI_WPA2_CONNECTED)))
  || (pair_ && negb (equal (sub p 17 32) (anonce s) 32)) || negb (valid_mic s p) = false ->
  valid_mic s p = true /\ state s = (if pair_ then WIFI_WPA2_M3 else WIFI_WPA2_CONNECTED) /\
  (pair_ = true -> equal (sub p 17 32) (anonce s) 32 = true).
Proof.
  generalize (valid_mic s p) (equal (sub p 17 32) (anonce s) 32) (be16 p 7 =? 16) (zlen p - KEY_FIXED <? 24).
  generalize (state s). intros st m n a b E. repeat (apply orb_false_iff in E as [E ?]).
  destruct pair_, m, n; try done; split_and!; try done;
    repeat match goal with H : _ && negb (bool_decide _) = false |- _ =>
      cbn [andb negb] in H; apply negb_false_iff, bool_decide_eq_true in H end; done.
Qed.

Section Contract2.
Context {W : Type} `{WpaOps W}.

Lemma rx_m1_obeys s p now (w : W * list wpa_call) :
  obeys s w -> let '(s', w', _) := rx_m1 s p now w in obeys s' w'.
Proof.
  intros Ho. unfold rx_m1. destruct (_ || _) eqn:Eg; [done |].
  assert (Hst : state s = WIFI_WPA2_M1 \/ state s = WIFI_WPA2_M3).
  { apply orb_false_iff in Eg as [Eg _]. apply orb_false_iff in Eg as [Eg _].
    apply andb_false_iff in Eg as [E | E]; apply negb_false_iff, bool_decide_eq_true in E; auto. }
  destruct w as [w l], Ho as (ph & Hl & Hs). cbn [snd] in Hl.
  assert (Hph : (ph = Waiting \/ ph = Answered) /\ authorized s = 0).
  { unfold stands in Hs. destruct Hst as [E | E]; rewrite E in Hs; destruct Hs as (-> & -> & _); auto. }
  destruct Hph as [Hph Ha]. cbn [ops_random recorded]. destruct (ops_random 32 w) as [w1 [rc sn]]. cbn [snonce set_secrets].
  assert (Hl' : follows (l ++ [CRandom sn rc]) = Some (if (rc =? 0) && nonzero sn 32 then Drawn else Over)).
  { rewrite follows_snoc, Hl, bind_some. by destruct Hph as [-> | ->]. }
  destruct (negb (rc =? 0) || negb (nonzero sn 32)) eqn:Ebad; rewrite <- negb_andb in Ebad.
  - apply negb_true_iff in Ebad. rewrite Ebad in Hl'.
    apply (fail_obeys (set_secrets s (pmk s) (ptk s) sn (anonce s)) (w1, l ++ [CRandom sn rc]) Over Hl'). by left.
  - apply negb_false_iff in Ebad. rewrite Ebad in Hl'. apply accept_obeys. exists Drawn. split; [exact Hl' |].
    cbn [state set_state]. split_and!; [by right | done | done].
Qed.

Lemma rx_keys_obeys s p now (w : W * list wpa_call) :
  obeys s w -> let '(s', w', _) := rx_keys s p now w in obeys s' w'.
Proof.
  intros Ho. unfold rx_keys. cbv zeta. set (pair_ := be16 p 5 =? PAIR_M3).
  destruct (_ || negb (valid_mic s p)) eqn:Eg; [done |].
  apply rx_keys_guard in Eg as (_ & Hst & _).
  destruct (negb (rd p 71 =? 0) || _); [done |].
  destruct (key_data _ _ _ _) as [k |] eqn:Ek; [| done]. apply key_data_group in Ek.
  set (k' := mkKeys _ _ _ _ _ _). destruct w as [w l], Ho as (ph & Hl & Hs). cbn [snd ops_install recorded] in *.
  unfold stands in Hs. rewrite Hst in Hs. destruct (ops_install k' w) as [w1 rc].
  assert (Hl' : follows (l ++ [CInstall k' rc])
                = Some (if rc =? 0 then if pair_ then KeyInstalled else Opened else if pair_ then Over else Closing)).
  { rewrite follows_snoc, Hl, bind_some. subst k'. destruct pair_; destruct Hs as [-> _]; cbn [contract pairwise group Z.b2z];
      rewrite Ek; by destruct (rc =? 0). }
  destruct (rc =? 0); cbn [negb].
  - apply accept_obeys. eexists. split; [exact Hl' |]. destruct pair_; cbn [state set_state set_protected response set_reply negb Z.b2z].
    + unfold stands. cbn [state set_state authorized reply_protected set_protected response set_reply Z.b2z negb]. tauto.
    + rewrite Hst. unfold stands. cbn [state authorized set_protected response set_reply]. rewrite Hst. tauto.
  - apply (fail_obeys s (w1, l ++ [CInstall k' rc]) _ Hl'). destruct pair_; [left | right]; destruct Hs as [_ Hs]; split; try done.
    + tauto.
    + lia.
Qed.

Lemma rx_obeys s p now (w : W * list wpa_call) :
  obeys s w -> let '(s', w', _) := wifi_wpa2_rx s p now w in obeys s' w'.
Proof.
  intros Ho. unfold wifi_wpa2_rx. destruct (negb (live (state s)) || _) eqn:El; [done |].
  apply orb_false_iff in El as [El _]. apply negb_false_iff in El.
  destruct (_ && (be64 p 9 <? replay s)); [done |]. destruct (_ && (be64 p 9 =? replay s)) eqn:Er.
  - destruct ((reply_len s =? 0) || _) eqn:Elen; [done |]. destruct (_ && (MAX_ATTEMPTS <=? _)); [done |].
    assert (ready s w) as Hr.
    { apply obeys_ready; [done | | by intros E; rewrite E in El].
      intros E. destruct Ho as (ph & _ & Hs). unfold stands in Hs. rewrite E in Hs.
      apply orb_false_iff in Elen as [Elen _]. b2p. tauto. }
    pose proof (send_reply_obeys s now w Hr). by destruct (send_reply s now w) as [[s' w'] rc].
  - destruct (be16 p 5 =? PAIR_M1); [by apply rx_m1_obeys | by apply rx_keys_obeys].
Qed.

Lemma tick_obeys s now (w : W * list wpa_call) :
  obeys s w -> let '(s', w') := wifi_wpa2_tick s now w in obeys s' w'.
Proof.
  intros Ho. unfold wifi_wpa2_tick. destruct (negb (live (state s)) || _ || _) eqn:El; [done |].
  apply orb_false_iff in El as [El _]. apply orb_false_iff in El as [El Ec].
  apply negb_false_iff in El. apply bool_decide_eq_false in Ec.
  destruct ((reply_len s =? 0) || _) eqn:Elen.
  - destruct Ho as (ph & Hl & Hs). pose proof (fail_obeys s w ph Hl) as Hf. destruct (fail s w) as [[s' w'] rc].
    apply Hf. left. unfold stands in Hs. destruct (state s); naive_solver.
  - assert (ready s w) as Hr.
    { apply obeys_ready; [done | | by intros E; rewrite E in El].
      intros E. destruct Ho as (ph & _ & Hs). unfold stands in Hs. rewrite E in Hs.
      apply orb_false_iff in Elen as [Elen _]. b2p. tauto. }
    pose proof (send_reply_obeys s now w Hr). by destruct (send_reply s now w) as [[s' w'] rc].
Qed.

Lemma run_obeys es s (w : W * list wpa_call) :
  obeys s w -> obeys (fst (wpa_run es (s, w))) (snd (wpa_run es (s, w))).
Proof.
  unfold wpa_run. revert s w. induction es as [| e es IH]; intros s w Ho; [done |]. cbn [fold_left].
  destruct (wpa_step e (s, w)) as [s' w'] eqn:E. apply IH. destruct e as [p now | now]; cbn [wpa_step fst snd] in E.
  - pose proof (rx_obeys s p now w Ho) as Hx. destruct (wifi_wpa2_rx s p now w) as [[s1 w1] rc]. by injection E as <- <-.
  - pose proof (tick_obeys s now w Ho) as Hx. by rewrite E in Hx.
Qed.
End Contract2.

(** How often the pairwise key is handed to the adapter. *)
Definition is_pairwise (c : wpa_call) : bool := match c with CInstall k _ => pairwise k =? 1 | _ => false end.
Definition pairwise_installs (l : list wpa_call) : nat := length (List.filter is_pairwise l).

Lemma pairwise_installs_snoc l c :
  pairwise_installs (l ++ [c]) = (pairwise_installs l + if is_pairwise c then 1 else 0)%nat.
Proof. unfold pairwise_installs. rewrite List.filter_app, length_app. simpl. by destruct (is_pairwise c). Qed.

Lemma follows_installs l ph :
  follows l = Some ph ->
  match ph with
  | Waiting | Drawn | Answered => pairwise_installs l = 0%nat
  | Over => (pairwise_installs l <= 1)%nat
  | _ => pairwise_installs l = 1%nat /\ exists k, In (CInstall k 0) l /\ pairwise k = 1
  end.
Proof.
  revert ph. induction l as [| c l IH] using rev_ind; intros ph; [by intros [= <-] |].
  rewrite follows_snoc, pairwise_installs_snoc. destruct (follows l) as [ph0 |]; [| done]. rewrite bind_some.
  specialize (IH ph0 eq_refl).
  assert (Hin : forall k, In (CInstall k 0) l -> In (CInstall k 0) (l ++ [c])) by (intros; apply in_app_iff; by left).
  destruct c as [r rc | q prot rc | k rc | up]; cbn [is_pairwise].
  - destruct ph0; cbn [contract]; try done; intros [= <-]; destruct (_ && _); lia.
  - destruct ph0, prot; cbn [contract]; try done; intros [= <-]; try destruct (rc =? 0); try lia; naive_solver lia.
  - destruct ph0; cbn [contract]; try done.
    + destruct (pairwise k =? 1) eqn:Ek; cbn [andb]; [| done]. destruct (group k =? 1); [| done]. intros [= <-].
      b2p. destruct (rc =? 0) eqn:Er; [| lia]. split; [lia |]. exists k. split; [| done]. b2p. subst rc.
      apply in_app_iff. right. by left.
    + destruct (pairwise k =? 0) eqn:Ek; cbn [andb]; [| done]. b2p. rewrite Ek. destruct (group k =? 1); [| done].
      cbn [Z.eqb]. intros [= <-]. destruct (rc =? 0); naive_solver lia.
  - destruct ph0, up as [| [] |]; cbn [contract]; try done; intros [= <-]; try lia; naive_solver lia.
Qed.

(** What a successful start leaves. *)
Lemma started {W} `{WpaOps W} s0 sta_ ap_ pmk_ rsn now w s w1 :
  wifi_wpa2_start s0 sta_ ap_ pmk_ rsn now w = (s, w1, 0) ->
  state s = WIFI_WPA2_M1 /\ authorized s = 0 /\ reply_len s = 0 /\ sta s = sta_ /\ ap s = ap_ /\ pmk s = pmk_ /\
  have_replay s = 0 /\ rsn_of s = rsn /\ 0 <= ap_rsn_len s <= zlen (ap_rsn s) /\ w1 = ops_port 0 w /\
  deadline s = !64 (now + RETRY_MS * MAX_ATTEMPTS).
Proof.
  unfold wifi_wpa2_start. destruct (_ || _) eqn:E; [done |]. intros Es. b2p.
  apply (f_equal fst) in Es as Es1. apply (f_equal fst) in Es1 as Ew. apply (f_equal snd) in Es1. cbn [fst snd] in *.
  unfold WIFI_RSN_MAX in *. assert (Hz : zlen (ap_rsn zero_wpa) = 257) by reflexivity. pose proof (zlen_nonneg rsn).
  subst s. split_and!; try reflexivity; try done.
  - unfold rsn_of. cbn [ap_rsn ap_rsn_len]. apply sub_blit_eq; [lia | rewrite Hz; lia | done].
  - cbn [ap_rsn ap_rsn_len]. rewrite blit_length; rewrite ?Hz; lia.
Qed.

(** C5. The supplicant keeps the contract of wpa2.h whatever arrives.  After a
    successful start, and for any sequence of frames, times, and answers of the
    adapter, the calls it makes follow [contract]: nonces are drawn and sent
    before the keys are installed and never after, the pairwise key is installed
    at most once (a message 3 repeated byte for byte is at most answered again),
    the port opens only after that installation succeeded and message 4 was
    accepted, and a failure closes it; the port is open exactly in that phase. *)
Theorem wpa2_contract {W} `{WpaOps W} s0 sta_ ap_ pmk_ rsn t0 w s w1 es :
  wifi_wpa2_start s0 sta_ ap_ pmk_ rsn t0 w = (s, w1, 0) ->
  let '(s', (_, l)) := wpa_run es (s, (w1, [])) in
  (exists ph, follows l = Some ph /\ (authorized s' = 1 <-> ph = Opened)) /\
  (pairwise_installs l <= 1)%nat /\
  (authorized s' = 1 -> exists k, In (CInstall k 0) l /\ pairwise k = 1).
Proof.
  intros Hs. destruct (started _ _ _ _ _ _ _ _ _ Hs) as (Hst & Ha & Hr & _).
  assert (Ho : obeys s (w1, [])) by (exists Waiting; split; [done |]; unfold stands; by rewrite Hst).
  pose proof (run_obeys es s (w1, []) Ho) as (ph & Hl & Hp). destruct (wpa_run es (s, (w1, []))) as [s' [w' l]].
  cbn [fst snd] in *. assert (Hop : authorized s' = 1 <-> ph = Opened).
  { unfold stands in Hp. destruct (state s'); destruct ph; naive_solver lia. }
  pose proof (follows_installs l ph Hl) as Hc. split_and!.
  - by exists ph.
  - destruct ph; lia.
  - intros ->%Hop. tauto.
Qed.

(** ** Where installed keys come from *)

(** The last nonce the adapter gave. *)
Definition last_random (l : list wpa_call) : option (list Z) :=
  last (omap (fun c => match c with CRandom r _ => Some r | _ => None end) l).

Lemma last_random_other l c :
  match c with CRandom _ _ => False | _ => True end -> last_random (l ++ [c]) = last_random l.
Proof. intros Hc. unfold last_random. rewrite omap_app. destruct c; [done | ..]; cbn; by rewrite app_nil_r. Qed.

Lemma last_random_drawn l r rc : last_random (l ++ [CRandom r rc]) = Some r.
Proof. unfold last_random. rewrite omap_app. cbn. apply last_snoc. Qed.

(** While a session lives it keeps its parties and its master key, and from the
    first message on its transient key is the one of the two nonces. *)
Record bound (s0 s : wifi_wpa2) (l : list wpa_call) : Prop := {
  b_sta : sta s = sta s0; b_ap : ap s = ap s0; b_pmk : pmk s = pmk s0;
  b_rsn : ap_rsn s = ap_rsn s0; b_rsn_len : ap_rsn_len s = ap_rsn_len s0;
  b_ptk : state s <> WIFI_WPA2_M1 ->
    last_random l = Some (snonce s) /\ ptk s = ptk_of (pmk s0) (sta s0) (ap s0) (snonce s) (anonce s) /\
    zlen (anonce s) = 32 }.

Lemma key_frame_length p : key_frame p = true -> KEY_FIXED <= zlen p <= WIFI_EAPOL_MAX.
Proof. unfold key_frame. intros E. apply negb_true_iff in E. b2p. lia. Qed.

Section Bound.
Context {W : Type} `{WpaOps W} (s0 : wifi_wpa2).

Definition is_bound (s : wifi_wpa2) (w : W * list wpa_call) : Prop :=
  state s = WIFI_WPA2_FAILED \/ bound s0 s (snd w).

Lemma fail_bound s w : let '(s', w', _) := fail s w in is_bound s' w'.
Proof. unfold fail. destruct (port s 0 w) as [s1 w1]. by left. Qed.

(** Sending keeps all that matters here. *)
Lemma send_reply_bound s now w :
  bound s0 s (snd w) -> let '(s', w', _) := send_reply s now w in is_bound s' w'.
Proof.
  destruct w as [w l]. intros [H1 H2 H3 H4 H5 H6]. cbn [snd] in H6.
  unfold send_reply, port. cbn [ops_send ops_port recorded authorized state set_timer set_state].
  destruct (ops_send _ _ w) as [w' rc]. destruct (_ && _) eqn:E.
  - apply andb_true_iff in E as [_ E]. apply bool_decide_eq_true in E. specialize (H6 ltac:(congruence)).
    destruct (_ =? 1); right; split; try done; intros _; cbn [snd]; rewrite ?last_random_other by done; done.
  - right. split; try done. intros Hst. cbn [snd]. rewrite last_random_other by done. by apply H6.
Qed.

Lemma accept_bound s p now w :
  bound s0 s (snd w) -> let '(s', w', _) := accept s p now w in is_bound s' w'.
Proof.
  intros [H1 H2 H3 H4 H5 H6]. unfold accept.
  pose proof (send_reply_bound (set_replay s 1 (be64 p 9) (digest_of p) 0) now w) as Hs.
  destruct (send_reply _ now w) as [[s' w'] rc]. by apply Hs.
Qed.

Lemma rx_m1_bound s p now w :
  KEY_FIXED <= zlen p -> bound s0 s (snd w) -> let '(s', w', _) := rx_m1 s p now w in is_bound s' w'.
Proof.
  unfold KEY_FIXED. intros Hl Hb. unfold rx_m1. destruct (_ || _); [by right |].
  destruct w as [w l]. cbn [ops_random recorded]. destruct (ops_random 32 w) as [w1 [rc sn]].
  destruct (_ || _); [apply fail_bound |]. destruct Hb as [H1 H2 H3 H4 H5 _].
  apply accept_bound. split; try done. intros _. cbn [snd snonce ptk anonce pmk sta ap set_state set_protected response set_reply set_secrets].
  rewrite last_random_drawn, H1, H2, H3, sub_length by lia. done.
Qed.

Lemma rx_keys_bound s p now w : bound s0 s (snd w) -> let '(s', w', _) := rx_keys s p now w in is_bound s' w'.
Proof.
  intros Hb. unfold rx_keys. cbv zeta. set (pair_ := be16 p 5 =? PAIR_M3).
  destruct (_ || negb (valid_mic s p)) eqn:Eg; [by right |].
  apply rx_keys_guard in Eg as (_ & Hst & _). assert (Hm1 : state s <> WIFI_WPA2_M1) by (rewrite Hst; by destruct pair_).
  destruct (negb (rd p 71 =? 0) || _); [by right |].
  destruct (key_data _ _ _ _) as [k |]; [| by right].
  set (k' := mkKeys _ _ _ _ _ _). destruct w as [w l]. cbn [ops_install recorded]. destruct (ops_install k' w) as [w1 rc].
  destruct (negb (rc =? 0)); [apply fail_bound |]. destruct Hb as [H1 H2 H3 H4 H5 H6].
  apply accept_bound. cbn [snd] in *.
  destruct pair_; split; try done; intros _; cbn [snd]; rewrite last_random_other by done; by apply H6.
Qed.

Lemma step_bound e s w : is_bound s w -> let '(s', w') := wpa_step e (s, w) in is_bound s' w'.
Proof.
  intros Hi. destruct e as [p now | now]; cbn [wpa_step fst snd].
  - unfold wifi_wpa2_rx. destruct (negb _ || _) eqn:El; [done |].
    destruct Hi as [Hf | Hb]; [by rewrite Hf in El |].
    assert (Hw : is_bound s w) by by right. apply orb_false_iff in El as [_ El].
    apply negb_false_iff, key_frame_length in El.
    destruct (_ && (be64 p 9 <? _)); [done |]. destruct (_ && (be64 p 9 =? _)); [| destruct (be16 p 5 =? PAIR_M1)].
    + destruct (_ || _); [done |]. destruct (_ && _); [done |].
      pose proof (send_reply_bound s now w Hb). by destruct (send_reply s now w) as [[s' w'] rc].
    + pose proof (rx_m1_bound s p now w ltac:(lia) Hb). by destruct (rx_m1 s p now w) as [[s' w'] rc].
    + pose proof (rx_keys_bound s p now w Hb). by destruct (rx_keys s p now w) as [[s' w'] rc].
  - unfold wifi_wpa2_tick. destruct (_ || (now <? _)) eqn:El; [done |].
    destruct Hi as [Hf | Hb]; [by rewrite Hf in El |]. destruct ((reply_len s =? 0) || _).
    + pose proof (fail_bound s w). by destruct (fail s w) as [[s' w'] rc].
    + pose proof (send_reply_bound s now w Hb). by destruct (send_reply s now w) as [[s' w'] rc].
Qed.

Lemma run_bound es s w : is_bound s w -> is_bound (fst (wpa_run es (s, w))) (snd (wpa_run es (s, w))).
Proof.
  unfold wpa_run. revert s w. induction es as [| e es IH]; intros s w Hi; [done |]. cbn [fold_left].
  pose proof (step_bound e s w Hi). destruct (wpa_step e (s, w)) as [s' w']. by apply IH.
Qed.
End Bound.

(** Only a message with keys makes the supplicant install keys. *)
Section Installs.
Context {W : Type} `{WpaOps W}.

Lemma send_reply_installs s now (w : W) l k rc :
  let '(_, (_, l'), _) := send_reply s now (w, l) in In (CInstall k rc) l' -> In (CInstall k rc) l.
Proof.
  unfold send_reply, port. cbn [ops_send ops_port recorded]. destruct (ops_send _ _ w) as [w' r].
  destruct (_ && _); [destruct (_ =? 1) |]; rewrite ?in_app_iff; simpl; naive_solver.
Qed.

Lemma accept_installs s p now (w : W) l k rc :
  let '(_, (_, l'), _) := accept s p now (w, l) in In (CInstall k rc) l' -> In (CInstall k rc) l.
Proof.
  unfold accept. pose proof (send_reply_installs (set_replay s 1 (be64 p 9) (digest_of p) 0) now w l k rc).
  by destruct (send_reply _ now (w, l)) as [[s' [w' l']] r].
Qed.

Lemma fail_installs s (w : W) l k rc :
  let '(_, (_, l'), _) := fail s (w, l) in In (CInstall k rc) l' -> In (CInstall k rc) l.
Proof.
  unfold fail, port. cbn [ops_port recorded]. destruct (_ =? 0); [done |]. rewrite in_app_iff. simpl. naive_solver.
Qed.

Lemma rx_m1_installs s p now (w : W) k rc :
  let '(_, (_, l'), _) := rx_m1 s p now (w, []) in ~ In (CInstall k rc) l'.
Proof.
  unfold rx_m1. destruct (_ || _); [by intros ? |]. cbn [ops_random recorded app]. destruct (ops_random 32 w) as [w1 [r sn]].
  destruct (_ || _).
  - pose proof (fail_installs (set_secrets s (pmk s) (ptk s) sn (anonce s)) w1 [CRandom sn r] k rc) as Hs.
    destruct (fail _ _) as [[s' [w' l']] r']. intros ?%Hs. naive_solver.
  - match goal with |- context [accept ?s1 _ _ _] => pose proof (accept_installs s1 p now w1 [CRandom sn r] k rc) as Hs end.
    destruct (accept _ _ _ _) as [[s' [w' l']] r']. intros ?%Hs. naive_solver.
Qed.

(** The conditions under which keys are installed, and what they are. *)
Record from_message (s : wifi_wpa2) (p : list Z) (k : wifi_wpa2_keys) (pair_ : bool) : Prop := {
  fm_mic : valid_mic s p = true;
  fm_state : state s = if pair_ then WIFI_WPA2_M3 else WIFI_WPA2_CONNECTED;
  fm_nonce : pair_ = true -> equal (sub p 17 32) (anonce s) 32 = true;
  fm_keys : exists k0, key_data s (sub p KEY_FIXED (zlen p - KEY_FIXED)) pair_
               (mkKeys 0 0 0 (replicate 16 0) (replicate 16 0) (frame_rsc p)) = Some k0 /\
    k = mkKeys (Z.b2z pair_) (group k0) (gtk_id k0) (if pair_ then sub (ptk s) 32 16 else k_tk k0) (k_gtk k0) (group_rsc k0) }.

Lemma in_install k k' rc r l : In (CInstall k rc) (l ++ [CInstall k' r]) -> In (CInstall k rc) l \/ k = k'.
Proof. intros [Hl | [E | []]]%in_app_iff; [by left | right]. congruence. Qed.

Lemma rx_keys_installs s p now (w : W) l k rc :
  let '(_, (_, l'), _) := rx_keys s p now (w, l) in
  In (CInstall k rc) l' -> In (CInstall k rc) l \/ from_message s p k (be16 p 5 =? PAIR_M3).
Proof.
  unfold rx_keys. cbv zeta. set (pair_ := be16 p 5 =? PAIR_M3). destruct (_ || negb (valid_mic s p)) eqn:Eg; [by left |].
  apply rx_keys_guard in Eg as (Hm & Hst & Hn).
  destruct (negb (rd p 71 =? 0) || _); [by left |]. destruct (key_data _ _ _ _) as [k0 |] eqn:Ek; [| by left].
  set (k' := mkKeys (Z.b2z pair_) _ _ _ _ _).
  assert (Hk : from_message s p k' pair_) by (split; [done | done | done | by exists k0]). clearbody k'.
  cbn [ops_install recorded]. destruct (ops_install k' w) as [w1 r].
  destruct (negb (r =? 0)).
  - pose proof (fail_installs s w1 (l ++ [CInstall k' r]) k rc) as Hs. destruct (fail _ _) as [[s' [w' l']] r'].
    intros [? | ->]%Hs%in_install; [by left | by right].
  - match goal with |- context [accept ?s1 _ _ _] => pose proof (accept_installs s1 p now w1 (l ++ [CInstall k' r]) k rc) as Hs end.
    destruct (accept _ _ _ _) as [[s' [w' l']] r']. intros [? | ->]%Hs%in_install; [by left | by right].
Qed.

Lemma newer h r c : negb (h =? 0) && (c <? r) = false -> negb (h =? 0) && (c =? r) = false -> h <> 0 -> r < c.
Proof. lia. Qed.

Lemma rx_installs s p now (w : W) k rc :
  let '(_, (_, l'), _) := wifi_wpa2_rx s p now (w, []) in
  In (CInstall k rc) l' ->
  (have_replay s <> 0 -> replay s < be64 p 9) /\ KEY_FIXED <= zlen p /\ from_message s p k (be16 p 5 =? PAIR_M3).
Proof.
  unfold wifi_wpa2_rx. destruct (negb (live _) || _) eqn:El; [done |]. apply orb_false_iff in El as [_ El].
  destruct (_ && (be64 p 9 <? _)) eqn:Elt; [done |]. destruct (_ && (be64 p 9 =? _)) eqn:Eeq.
  { destruct ((reply_len s =? 0) || _); [done |]. destruct (_ && (MAX_ATTEMPTS <=? _)); [done |].
    pose proof (send_reply_installs s now w [] k rc) as Hs.
    destruct (send_reply s now (w, [])) as [[s' [w' l']] r]. by intros ?%Hs. }
  destruct (be16 p 5 =? PAIR_M1).
  { pose proof (rx_m1_installs s p now w k rc) as Hs. by destruct (rx_m1 s p now (w, [])) as [[s' [w' l']] r]. }
  pose proof (rx_keys_installs s p now w [] k rc) as Hs. destruct (rx_keys s p now (w, [])) as [[s' [w' l']] r].
  intros [[] | Hi]%Hs. split_and!; [| | done].
  - by apply newer.
  - apply negb_false_iff, key_frame_length in El. lia.
Qed.
End Installs.

(** The derived key and the code over a message: always returned, of 48 and 16 bytes. *)
Lemma ptk_of_bytes pmk_ sta_ ap_ sn an : Forall is_byte (ptk_of pmk_ sta_ ap_ sn an) /\ zlen (ptk_of pmk_ sta_ ap_ sn an) = 48.
Proof.
  unfold ptk_of, wifi_wpa2_ptk. destruct (if mem_lt sta_ ap_ then _ else _) as [a b].
  destruct (if mem_lt sn an then _ else _) as [c d]. rewrite !hmac_sha1_eq, !bind_some. cbn [from_option id].
  split.
  - repeat (apply Forall_app_2; [apply (rfc2104_bytes Sha1.sha1_ctx) |]). apply Bytes.sub_bytes, (rfc2104_bytes Sha1.sha1_ctx).
  - rewrite !zlen_app, !(rfc2104_size Sha1.sha1_ctx), sub_length; rewrite ?(rfc2104_size Sha1.sha1_ctx); done || lia.
Qed.

Lemma mic_of_eq kck p : mic_of kck p = sub (hmac1 kck p) 0 16.
Proof. unfold mic_of, wifi_wpa2_mic. by rewrite hmac_sha1_eq, bind_some. Qed.

Lemma mic_of_length kck p : zlen (mic_of kck p) = 16.
Proof. rewrite mic_of_eq. apply sub_length; [lia | lia |]. unfold zlen. rewrite hmac1_length. lia. Qed.

Lemma valid_mic_eq s p :
  KEY_FIXED <= zlen p ->
  valid_mic s p = true <-> sub p MIC_AT 16 = sub (hmac1 (sub (ptk s) 0 16) (blit p MIC_AT (replicate 16 0))) 0 16.
Proof.
  intros Hp. unfold valid_mic, MIC_AT, KEY_FIXED in *.
  rewrite <- mic_of_eq. rewrite (equal_sub _ _ 16); [split; congruence | apply mic_of_length | apply sub_length; lia].
Qed.

(** C13. Keys come only from messages of a party that holds the master key.  In any
    state a session can reach, a frame makes the supplicant install keys only if
    its integrity code is the keyed hash under the transient key derived from the
    master key, the two addresses, the supplicant's last nonce and the nonce of
    the authenticator; its counter is beyond the last accepted one; its key data
    is wrapped under that key and holds the installed group key; and if the
    pairwise key is installed, it is part of that transient key, the nonce of the
    frame is the same, and the frame repeats the security element of the beacon. *)
Theorem wpa2_install_authentic {W} `{WpaOps W} s0 sta_ ap_ pmk_ rsn t0 w0 s1 w1 es p now :
  wifi_wpa2_start s0 sta_ ap_ pmk_ rsn t0 w0 = (s1, w1, 0) -> Forall is_byte p ->
  let '(s, (w, l)) := wpa_run es (s1, (w1, [])) in
  let '(_, (_, l'), _) := wifi_wpa2_rx s p now (w, []) in
  forall k rc, In (CInstall k rc) l' ->
  exists sn els pad id_, last_random l = Some sn /\
    let K := ptk_of pmk_ sta_ ap_ sn (anonce s) in
    sub p 81 16 = sub (hmac1 (sub K 0 16) (blit p 81 (replicate 16 0))) 0 16 /\
    (have_replay s <> 0 -> replay s < be64 p 9) /\
    sub p 99 (zlen p - 99) = rfc3394_wrap (sub K 16 16) (concat els ++ pad) /\
    gtk_element id_ (k_gtk k) ∈ els /\ gtk_id k = Z.land id_ 3 /\ group_rsc k = frame_rsc p /\
    (pairwise k = 1 -> k_tk k = sub K 32 16 /\ sub p 17 32 = anonce s /\ rsn ∈ els).
Proof.
  intros Hs Hp. destruct (started _ _ _ _ _ _ _ _ _ Hs) as (_ & _ & _ & <- & <- & <- & _ & <- & Hrl & _).
  assert (Hb : is_bound s1 s1 (w1, [])) by (right; split; try done; intros ?; by destruct (started _ _ _ _ _ _ _ _ _ Hs)).
  apply (run_bound s1 es) in Hb. destruct (wpa_run es (s1, (w1, []))) as [s [w l]].
  destruct (wifi_wpa2_rx s p now (w, [])) as [[s' [w' l']] r] eqn:Erx. intros k rc Hin.
  pose proof (rx_installs s p now w k rc) as Hr. rewrite Erx in Hr. destruct (Hr Hin) as (Hrep & Hlen & [Hmic Hst Hn (k0 & Hk0 & ->)]).
  destruct Hb as [Hf | [B1 B2 B3 B4 B5 B6]]; cbn [fst snd] in *; [rewrite Hf in Hst; by case_match |].
  destruct (B6 ltac:(rewrite Hst; by case_match)) as (Hsn & HK & Han).
  destruct (ptk_of_bytes (pmk s1) (sta s1) (ap s1) (snonce s) (anonce s)) as [HKb HKl]. rewrite <- HK in HKb.
  apply key_data_sound in Hk0 as (_ & Hrsc & _ & els & pad & _ & Hw & (id_ & _ & Hid & Hgtk) & Hrsn);
    [| by apply Bytes.sub_bytes | done | by rewrite B4, B5].
  exists (snonce s), els, pad, id_. cbv zeta. rewrite <- HK. cbn [k_gtk gtk_id group_rsc pairwise k_tk].
  split_and!; try done; [by apply valid_mic_eq |]. destruct (be16 p 5 =? PAIR_M3); [| done]. intros _.
  split_and!; [done | | unfold rsn_of in *; rewrite B4, B5 in Hrsn; by apply Hrsn].
  unfold KEY_FIXED in Hlen. apply (equal_sub _ _ 32); [apply sub_length; lia | done | by apply Hn].
Qed.

(** ** The authenticator, as the reference *)

Definition be64_bytes (c : Z) : list Z := map (fun i => !8 (Z.shiftr c (8 * (7 - Z.of_nat i)))) (seq 0 8).

(** An EAPOL-Key frame as IEEE 802.11 lays it out. *)
Definition eapol_fields (ver info keylen : Z) (counter nonce rsc mic data : list Z) : list (list Z) :=
  [[ver; 3]; put16 (95 + zlen data); [2]; put16 info; put16 keylen; counter; nonce;
   replicate 16 0; rsc; replicate 8 0; mic; put16 (zlen data); data].
Definition eapol_key ver info keylen counter nonce rsc mic data : list Z :=
  concat (eapol_fields ver info keylen counter nonce rsc mic data).

(** A frame with its integrity code under [kck]. *)
Definition with_mic (kck p : list Z) : list Z := blit p MIC_AT (mic_of kck p).

Definition message1 (ver counter : Z) (nonce : list Z) : list Z :=
  eapol_key ver PAIR_M1 16 (be64_bytes counter) nonce (replicate 8 0) (replicate 16 0) [].

(** Message 3 under the transient key [K], with the security element, the group
    key and the padding as wrapped key data. *)
Definition key_data_of (rsn : list Z) (id_ : Z) (gtk pad : list Z) : list Z := rsn ++ gtk_element id_ gtk ++ pad.
Definition message3 (K : list Z) (ver counter : Z) (nonce : list Z) (rsc : Z) (data : list Z) : list Z :=
  with_mic (sub K 0 16)
    (eapol_key ver PAIR_M3 16 (be64_bytes counter) nonce (put_le 8 rsc) (replicate 16 0) (rfc3394_wrap (sub K 16 16) data)).

Lemma mic_of_bytes kck p : Forall is_byte (mic_of kck p).
Proof. rewrite mic_of_eq. apply Bytes.sub_bytes, (rfc2104_bytes Sha1.sha1_ctx). Qed.

Lemma put16_bytes v : Forall is_byte (put16 v).
Proof. unfold put16. repeat (apply Forall_cons_2; [apply u8_range |]). apply Forall_nil_2. Qed.

Lemma message3_bytes K ver counter nonce rsc data :
  is_byte ver -> Forall is_byte K -> Forall is_byte nonce -> Forall is_byte data -> zlen data mod 8 = 0 ->
  Forall is_byte (message3 K ver counter nonce rsc data).
Proof.
  intros Hv HK Hn Hd Hm. destruct (wrap_length (sub K 16 16) data (Bytes.sub_bytes _ _ _ HK) Hd Hm) as [_ Hw].
  unfold message3, with_mic. apply blit_bytes; [| apply mic_of_bytes]. revert Hw. generalize (rfc3394_wrap (sub K 16 16) data). intros w Hw.
  unfold eapol_key, eapol_fields. cbn [concat].
  assert (Hr : forall n, Forall is_byte (replicate n 0)) by (intros n; apply Forall_replicate; unfold is_byte; lia).
  assert (Hc : Forall is_byte (be64_bytes counter)) by (unfold be64_bytes; apply Forall_fmap, Forall_true; intros i; apply u8_range).
  rewrite !Forall_app. split_and!; [| | | | | exact Hc | exact Hn | apply Hr | apply put_le_bytes | apply Hr | apply Hr | apply put16_bytes
                                   | exact Hw | apply Forall_nil_2]; try apply put16_bytes.
  - apply Forall_cons_2; [exact Hv |]. apply Forall_singleton. unfold is_byte. lia.
  - apply Forall_singleton. unfold is_byte. lia.
Qed.

Definition is_padding (pad : list Z) : Prop := pad = [] \/ exists n, pad = 221 :: replicate n 0.

Lemma be16_put16 v : 0 <= v < 65536 -> be16 (put16 v) 0 = v.
Proof.
  intros Hv. unfold be16, put16. change (rd [!8 (Z.shiftr v 8); !8 v] 0) with (!8 (Z.shiftr v 8)).
  change (rd [!8 (Z.shiftr v 8); !8 v] (0 + 1)) with (!8 v). unfold u8. rewrite Z.shiftr_div_pow2 by lia.
  change (2 ^ 8) with 256. Z.div_mod_to_equations. lia.
Qed.

Lemma be16_sub p o : 0 <= o -> be16 p o = be16 (sub p o 2) 0.
Proof. intros Ho. unfold be16. rewrite !rd_sub by lia. f_equal; f_equal; f_equal; lia. Qed.

Lemma be64_step c m : 0 <= c < 2 ^ 64 -> 0 <= m ->
  Z.lor (!64 (Z.shiftl (Z.shiftr c (m + 8)) 8)) (!8 (Z.shiftr c m)) = Z.shiftr c m.
Proof.
  intros Hc Hm. rewrite u64_small.
  - apply Z.bits_inj'. intros j Hj. rewrite Z.lor_spec, Z.shiftl_spec by lia. unfold u8. destruct (decide (j < 8)).
    + rewrite Z.mod_pow2_bits_low, (Z.testbit_neg_r _ (j - 8)) by lia. done.
    + rewrite Z.mod_pow2_bits_high, !Z.shiftr_spec by lia. rewrite orb_false_r. f_equal. lia.
  - rewrite Z.shiftl_mul_pow2, Z.shiftr_div_pow2 by lia. rewrite Z.pow_add_r by lia.
    rewrite <- Z.div_div by lia. assert (0 <= c / 2 ^ m <= c). 
    { split; [apply Z.div_pos; lia |]. apply Z.div_le_upper_bound; [lia |]. nia. }
    change (2 ^ 8) with 256. Z.div_mod_to_equations. lia.
Qed.

Lemma be64_bytes_eq c : 0 <= c < 2 ^ 64 -> be64 (be64_bytes c) 0 = c.
Proof.
  intros Hc. assert (H : forall n, (n <= 8)%nat ->
    fold_left (fun v i => Z.lor (!64 (Z.shiftl v 8)) (rd (be64_bytes c) (0 + Z.of_nat i))) (seq 0 n) 0
    = Z.shiftr c (8 * (8 - Z.of_nat n))).
  { induction n as [| n IH]; intros Hn.
    - rewrite Z.shiftr_div_pow2, Z.div_small by lia. done.
    - rewrite seq_S, fold_left_app, IH by lia. cbn [fold_left].
      assert (rd (be64_bytes c) (0 + Z.of_nat (0 + n)) = !8 (Z.shiftr c (8 * (8 - Z.of_nat (S n))))) as ->.
      { unfold be64_bytes, rd. rewrite list_lookup_fmap, lookup_seq_lt by lia.
        cbn [fmap option_fmap option_map from_option id]. do 2 f_equal. lia. }
      replace (8 * (8 - Z.of_nat n)) with (8 * (8 - Z.of_nat (S n)) + 8) by lia. apply be64_step; lia. }
  unfold be64. rewrite (H 8%nat) by lia. apply Z.shiftr_0_r.
Qed.

Lemma fold_left_agree {A B} (f g : A -> B -> A) l a :
  (forall a x, In x l -> f a x = g a x) -> fold_left f l a = fold_left g l a.
Proof.
  revert a. induction l as [| x l IH]; intros a Hfg; [done |]. simpl. rewrite (Hfg a x) by by left.
  apply IH. intros b y Hy. apply Hfg. by right.
Qed.

Lemma be64_sub p o : 0 <= o -> be64 p o = be64 (sub p o 8) 0.
Proof.
  intros Ho. unfold be64. apply fold_left_agree. intros v i Hi%in_seq.
  by rewrite rd_sub, Z.add_0_l by lia.
Qed.

(** The fields of a frame, wherever they do not meet the integrity code. *)
Section Fields.
Context (ver info keylen : Z) (counter nonce rsc mic data : list Z).
Context (Hc : zlen counter = 8) (Hn : zlen nonce = 32) (Hr : zlen rsc = 8) (Hm : zlen mic = 16).
Abbreviation fs := (eapol_fields ver info keylen counter nonce rsc mic data).
Abbreviation p := (eapol_key ver info keylen counter nonce rsc mic data).

Lemma eapol_field k f off :
  fs !! k = Some f ->
  off = nth k [0; 2; 4; 5; 7; 9; 17; 49; 65; 73; 81; 97; 99] 0 -> sub p off (zlen f) = f.
Proof.
  intros Hk ->. apply (sub_field fs k); [done | | done].
  do 13 (destruct k as [| k]; [cbn [nth eapol_fields firstn take concat]; rewrite ?zlen_app, ?app_nil_r, ?Hc, ?Hn, ?Hr, ?Hm; reflexivity |]).
  done.
Qed.

Lemma eapol_length : zlen p = 99 + zlen data.
Proof.
  unfold eapol_key, eapol_fields. cbn [concat]. rewrite !zlen_app, Hc, Hn, Hr, Hm, zlen_nil.
  change (zlen [ver; 3]) with 2. change (zlen (put16 _)) with 2. change (zlen [2]) with 1.
  change (zlen (replicate 16 0)) with 16. change (zlen (replicate 8 0)) with 8. lia.
Qed.

(** What a frame that agrees with [p] outside the integrity code reads as. *)
Lemma eapol_reads q :
  zlen q = zlen p -> (forall o n, 0 <= o -> 0 <= n -> o + n <= 81 \/ 97 <= o -> sub q o n = sub p o n) ->
  1 <= ver <= 2 -> 0 <= info < 65536 -> 0 <= keylen < 65536 -> zlen data <= 413 ->
  key_frame q = true /\ be16 q 5 = info /\ be16 q 7 = keylen /\ be64 q 9 = be64 counter 0 /\ sub q 9 8 = counter /\
  sub q 17 32 = nonce /\ sub q 65 8 = rsc /\ sub q 99 (zlen q - 99) = data.
Proof.
  intros Hl Hq Hv Hi Hk Hd. pose proof eapol_length as Hp. pose proof (zlen_nonneg data) as Hd0.
  assert (F : forall k f off, fs !! k = Some f -> off = nth k [0; 2; 4; 5; 7; 9; 17; 49; 65; 73; 81; 97; 99] 0 ->
    k <> 10%nat -> sub q off (zlen f) = f).
  { intros k f off Hf Ho Hne. rewrite Hq; [by apply (eapol_field k) | | apply zlen_nonneg |].
    - subst off. do 13 (destruct k as [| k]; [simpl; lia |]). done.
    - subst off. destruct k as [| [| [| [| [| [| [| [| [| [| [| [| [| k]]]]]]]]]]]]]; try done; injection Hf as <-; cbn [nth]; first [rewrite ?Hc, ?Hn, ?Hr; lia | left; unfold zlen; discriminate]. }
  assert (R : forall o b x, sub q o (zlen b) = b -> 0 <= o -> 0 <= x < zlen b -> rd q (o + x) = rd b x).
  { intros o b x E Ho Hx. rewrite <- (rd_sub q o (zlen b)) by lia. by rewrite E. }
  assert (E0 := F 0%nat _ 0 eq_refl eq_refl ltac:(done)). assert (E1 := F 1%nat _ 2 eq_refl eq_refl ltac:(done)).
  assert (E2 := F 2%nat _ 4 eq_refl eq_refl ltac:(done)). assert (E3 := F 3%nat _ 5 eq_refl eq_refl ltac:(done)).
  assert (E4 := F 4%nat _ 7 eq_refl eq_refl ltac:(done)). assert (E5 := F 5%nat _ 9 eq_refl eq_refl ltac:(done)).
  assert (E6 := F 6%nat _ 17 eq_refl eq_refl ltac:(done)). assert (E8 := F 8%nat _ 65 eq_refl eq_refl ltac:(done)).
  assert (E11 := F 11%nat _ 97 eq_refl eq_refl ltac:(done)). assert (E12 := F 12%nat _ 99 eq_refl eq_refl ltac:(done)).
  rewrite Hc in E5. rewrite Hn in E6. rewrite Hr in E8.
  split_and!; [| rewrite be16_sub by lia; change 2 with (zlen (put16 info)); rewrite E3; by apply be16_put16
    | rewrite be16_sub by lia; change 2 with (zlen (put16 keylen)); rewrite E4; by apply be16_put16
    | by rewrite be64_sub, E5 by lia | done
    | done | done | rewrite Hl, Hp; replace (99 + zlen data - 99) with (zlen data) by lia; exact E12].
  unfold key_frame, KEY_FIXED, WIFI_EAPOL_MAX. apply negb_true_iff.
  rewrite (be16_sub q 2), (be16_sub q 97) by lia.
  change (sub q 2 2) with (sub q 2 (zlen (put16 (95 + zlen data)))). rewrite E1.
  change (sub q 97 2) with (sub q 97 (zlen (put16 (zlen data)))). rewrite E11. rewrite !be16_put16 by lia.
  pose proof (R 0 _ 0 E0 ltac:(lia) ltac:(split; [lia | reflexivity])) as R0. pose proof (R 0 _ 1 E0 ltac:(lia) ltac:(split; [lia | reflexivity])) as R1.
  pose proof (R 4 _ 0 E2 ltac:(lia) ltac:(split; [lia | reflexivity])) as R4. change (rd q 0 = ver) in R0. change (rd q 1 = 3) in R1. change (rd q 4 = 2) in R4.
  rewrite R0, R1, R4, Hl, Hp.
  change (3 =? 3) with true. change (2 =? 2) with true. cbn [negb]. lia.
Qed.
End Fields.

(** ** The responses *)

Lemma with_mic_zero kck p :
  97 <= zlen p -> sub p 81 16 = replicate 16 0 ->
  blit (with_mic kck p) 81 (replicate 16 0) = p /\ sub (with_mic kck p) 81 16 = mic_of kck p /\
  zlen (with_mic kck p) = zlen p /\
  forall o n, 0 <= o -> 0 <= n -> o + n <= 81 \/ 97 <= o -> sub (with_mic kck p) o n = sub p o n.
Proof.
  intros Hp Hz. unfold with_mic, MIC_AT. pose proof (mic_of_length kck p) as Hm. split_and!.
  - apply (blit_back 16); done || lia.
  - apply sub_blit_eq; lia.
  - apply blit_length; lia.
  - intros o n Ho Hn Hd. apply sub_blit_ne; lia.
Qed.

Lemma response_eq s inp info b :
  KEY_FIXED <= zlen inp -> zlen (snonce s) = 32 ->
  reply (response s inp info b) =
  with_mic (sub (ptk s) 0 16)
    (eapol_key (rd inp 0) info 0 (sub inp 9 8) (if b then snonce s else replicate 32 0) (replicate 8 0) (replicate 16 0)
       (if b then wifi_wpa2_station_rsn else [])).
Proof.
  unfold KEY_FIXED. intros Hi Hs. unfold response. cbn [reply set_reply]. unfold with_mic.
  assert (E : sub (snonce s) 0 32 = snonce s) by (rewrite <- Hs; apply sub_all). rewrite E. clear E.
  assert (Hc : zlen (sub inp 9 8) = 8) by (apply sub_length; lia). revert Hc. generalize (sub inp 9 8). intros c Hc.
  revert Hs. generalize (snonce s) (rd inp 0). intros n v Hs.
  assert (Lc : length c = 8%nat) by (unfold zlen in Hc; lia). assert (Ln : length n = 32%nat) by (unfold zlen in Hs; lia).
  clear Hc Hs.
  do 8 (destruct c as [| ? c]; [discriminate |]). destruct c; [| discriminate].
  destruct b; [| reflexivity].
  do 32 (destruct n as [| ? n]; [discriminate |]). destruct n; [| discriminate]. reflexivity.
Qed.

(** ** An honest handshake *)

(** Reading the key data of message 3. *)
Lemma nonzero_true p n i : 0 <= i < Z.of_nat n -> rd p i <> 0 -> nonzero p n = true.
Proof.
  intros Hi Hr. destruct (nonzero p n) eqn:E; [done |]. exfalso. apply Hr. by apply (proj1 (nonzero_spec p n) E).
Qed.

Section KeyData.
Context (s : wifi_wpa2) (rsn gtk pad : list Z) (id_ : Z).
Context (Hrsn : rsn_of s = rsn) (Hlen : ap_rsn_len s = zlen rsn) (Hr0 : rd rsn 0 = 48) (Hr1 : rd rsn 1 = zlen rsn - 2)
        (H2 : 2 <= zlen rsn) (Hg : zlen gtk = 16) (Hid : 0 <= id_ < 8) (Hpad : is_padding pad).
Abbreviation plain := (key_data_of rsn id_ gtk pad).

Lemma drop_here (pre q : list Z) : drop (Z.to_nat (zlen pre)) (pre ++ q) = q.
Proof. unfold zlen. by rewrite Nat2Z.id, drop_app_length. Qed.

(** The padding ends the elements. *)
Lemma key_elements_end fuel pre rs gs keys :
  key_elements (S fuel) s (pre ++ pad) (zlen pre) rs gs keys = Some (rs, gs, keys).
Proof.
  cbn [key_elements]. cbv zeta. rewrite zlen_app. destruct Hpad as [-> | [n ->]].
  - rewrite zlen_nil, Z.add_0_r, Z.ltb_irrefl. done.
  - pose proof (zlen_nonneg (replicate n 0)). rewrite zlen_cons, (proj2 (Z.ltb_lt _ _)) by lia.
    replace (rd (pre ++ 221 :: replicate n 0) (zlen pre)) with 221
      by (symmetry; rewrite <- (Z.add_0_r (zlen pre)); rewrite rd_at by lia; done).
    change (221 =? 221) with true.
    replace (nonzero _ _) with false; [done |]. symmetry. apply nonzero_spec. intros i Hi.
    rewrite rd_drop by (pose proof (zlen_nonneg pre); lia). rewrite <- Z.add_assoc, rd_at by lia.
    unfold rd. rewrite Z2Nat.inj_add by lia. change (Z.to_nat 1) with 1%nat. cbn [Nat.add lookup list_lookup].
    destruct (replicate n 0 !! Z.to_nat i) eqn:E; [| done]. by apply lookup_replicate in E as [-> _].
Qed.

Lemma key_elements_gtk fuel pre rs keys :
  key_elements (S (S fuel)) s (pre ++ gtk_element id_ gtk ++ pad) (zlen pre) rs 0 keys
  = Some (rs, 1, mkKeys (pairwise keys) 1 (Z.land id_ 3) (k_tk keys) gtk (group_rsc keys)).
Proof.
  set (e := gtk_element id_ gtk). assert (He : zlen e = 24) by (unfold e, gtk_element; rewrite zlen_app, Hg; done).
  pose proof (zlen_nonneg pre). pose proof (zlen_nonneg pad).
  assert (R : forall i, 0 <= i < 8 -> rd (pre ++ e ++ pad) (zlen pre + i) = rd (gtk_element id_ []) i).
  { intros i Hi. rewrite rd_at by lia. rewrite rd_app_l by (unfold zlen in He; lia). unfold e, gtk_element.
    rewrite rd_app_l by (simpl; lia). by rewrite app_nil_r. }
  remember (S fuel) as fuel'. cbn [key_elements]. cbv zeta. rewrite !zlen_app, He.
  rewrite (proj2 (Z.ltb_lt (zlen pre) _)) by lia.
  replace (rd (pre ++ e ++ pad) (zlen pre)) with 221 by (symmetry; rewrite <- (Z.add_0_r (zlen pre)), R by lia; done).
  rewrite (nonzero_true _ _ 0); cycle 1.
  { lia. } { rewrite rd_drop, Z.add_0_r, R by lia. done. }
  change ((221 =? 221) && negb true) with false. cbv iota. rewrite (R 1) by lia. change (rd (gtk_element id_ []) 1) with 22.
  rewrite (proj2 (Z.ltb_ge _ 2)), (proj2 (Z.ltb_ge _ 22)) by lia. cbn [orb]. rewrite drop_here.
  assert (R' : forall i, 0 <= i < 8 -> rd (e ++ pad) i = rd (gtk_element id_ []) i).
  { intros i Hi. rewrite <- R by lia. by rewrite rd_at by lia. }
  rewrite !R' by lia. change (rd (gtk_element id_ []) 0) with 221. change (rd (gtk_element id_ []) 6) with id_.
  change ((221 =? 48)) with false. cbv iota.
  change ((221 =? 221) && (6 <=? 22 + 2) && _ && _ && _ && _) with true. cbv iota.
  replace (Z.land id_ 0xfffffff8) with 0.
  2: { assert (id_ = 0 \/ id_ = 1 \/ id_ = 2 \/ id_ = 3 \/ id_ = 4 \/ id_ = 5 \/ id_ = 6 \/ id_ = 7) as Hc by lia.
       destruct Hc as [-> | [-> | [-> | [-> | [-> | [-> | [-> | ->]]]]]]]; done. }
  change (negb (0 =? 0) || negb (22 + 2 =? 24) || negb (0 =? 0) || _) with false. cbv iota.
  replace (sub (e ++ pad) 8 16) with gtk.
  2: { unfold e, gtk_element, sub. rewrite <- app_assoc. change (drop (Z.to_nat 8) _) with (gtk ++ pad).
       by rewrite take_app_length' by (unfold zlen in Hg; lia). }
  subst fuel'. replace (zlen pre + (22 + 2)) with (zlen (pre ++ e)) by (rewrite zlen_app; lia).
  rewrite app_assoc. apply key_elements_end.
Qed.

Lemma key_elements_all fuel keys :
  key_elements (S (S (S fuel))) s plain 0 0 0 keys
  = Some (1, 1, mkKeys (pairwise keys) 1 (Z.land id_ 3) (k_tk keys) gtk (group_rsc keys)).
Proof.
  pose proof (key_elements_gtk fuel rsn 1 keys) as Hgtk. unfold key_data_of.
  remember (S (S fuel)) as fuel'. cbn [key_elements]. cbv zeta. set (q := gtk_element id_ gtk ++ pad) in *.
  pose proof (zlen_nonneg q). rewrite zlen_app, (proj2 (Z.ltb_lt 0 _)) by lia.
  change (0 + 1) with 1. rewrite !(rd_app_l rsn q 0), !(rd_app_l rsn q 1) by (unfold zlen in H2; lia).
  rewrite Hr0, Hr1. change (48 =? 221) with false. cbn [andb].
  rewrite (proj2 (Z.ltb_ge _ 2)), (proj2 (Z.ltb_ge _ (zlen rsn - 2))) by lia. cbn [orb]. rewrite drop_0.
  rewrite (rd_app_l rsn q 0), Hr0 by (unfold zlen in H2; lia). change (48 =? 48) with true. cbv iota.
  change (0 =? 0) with true. rewrite Hlen. replace (zlen rsn - 2 + 2) with (zlen rsn) by lia. rewrite Z.eqb_refl. cbn [negb orb].
  assert (equal (rsn ++ q) (ap_rsn s) (Z.to_nat (zlen rsn)) = true) as ->.
  { apply equal_spec. intros i Hi. rewrite Z2Nat.id in Hi by lia. rewrite rd_app_l by (unfold zlen in Hi; lia).
    rewrite <- Hrsn. unfold rsn_of. rewrite rd_sub by lia. done. }
  cbn [negb]. exact Hgtk.
Qed.

Lemma key_data_complete keys :
  Forall is_byte plain -> Forall is_byte (ptk s) -> zlen plain <= 256 -> zlen plain mod 8 = 0 ->
  key_data s (rfc3394_wrap (sub (ptk s) 16 16) plain) true keys
  = Some (mkKeys (pairwise keys) 1 (Z.land id_ 3) (k_tk keys) gtk (group_rsc keys)).
Proof.
  intros Hb Hk Hl Hm.
  assert (Hz : 26 <= zlen plain).
  { pose proof (zlen_nonneg pad). unfold key_data_of, gtk_element. rewrite !zlen_app, Hg. change (zlen [_; _; _; _; _; _; _; _]) with 8. lia. }
  unfold key_data. rewrite unwrap_wrap, bind_some by (done || lia || by apply Bytes.sub_bytes).
  destruct (length plain) as [| [| n]] eqn:E; [unfold zlen in Hz; lia .. |].
  rewrite key_elements_all, bind_some. done.
Qed.
End KeyData.

Lemma frame_rsc_eq p rsc :
  0 <= rsc < 2 ^ 48 -> sub p 65 8 = put_le 8 rsc -> frame_rsc p = rsc /\ rd p 71 = 0 /\ rd p 72 = 0.
Proof.
  intros Hr Hs. assert (R : forall i, 0 <= i < 8 -> rd p (65 + i) = !8 (Z.shiftr rsc (8 * i))).
  { intros i Hi. rewrite <- (rd_sub p 65 8), Hs by lia. by apply put_le_rd. }
  assert (Z0 : forall i, 6 <= i < 8 -> rd p (65 + i) = 0).
  { intros i Hi. rewrite R, Z.shiftr_div_pow2, Z.div_small by lia || (split; [lia |]; apply Z.lt_le_trans with (2 ^ 48); [lia | apply Z.pow_le_mono_r; lia]).
    done. }
  split_and!; [| exact (Z0 6 ltac:(lia)) | exact (Z0 7 ltac:(lia))].
  transitivity (get_le 6 (put_le 6 rsc)); [| rewrite get_le_put_le; by apply Z.mod_small].
  unfold frame_rsc, get_le. apply fold_left_agree. intros v i Hi%in_seq. rewrite R, put_le_rd by lia. do 2 f_equal. lia.
Qed.

(** What the authenticator checks of an answer. *)
Definition mic_ok (K m : list Z) : Prop := sub m 81 16 = mic_of (sub K 0 16) (blit m 81 (replicate 16 0)).

(** A response carries a valid code, the counter, the nonce and the element. *)
Lemma response_reads s inp info (b : bool) :
  KEY_FIXED <= zlen inp -> 1 <= rd inp 0 <= 2 -> zlen (snonce s) = 32 -> 0 <= info < 65536 ->
  let r := reply (response s inp info b) in
  mic_ok (ptk s) r /\ sub r 0 (reply_len (response s inp info b)) = r /\ sub r 9 8 = sub inp 9 8 /\
  (b = true -> sub r 17 32 = snonce s /\ sub r 99 22 = wifi_wpa2_station_rsn).
Proof.
  intros Hi Hv Hs Hf r. unfold r. rewrite response_eq by done. set (d := if b then wifi_wpa2_station_rsn else []).
  assert (Hd : zlen d = if b then 22 else 0) by (unfold d; by destruct b).
  set (n := if b then snonce s else replicate 32 0). assert (Hn : zlen n = 32) by (unfold n; by destruct b).
  assert (Hc : zlen (sub inp 9 8) = 8) by (unfold KEY_FIXED in Hi; apply sub_length; lia).
  set (p := eapol_key _ _ _ _ _ _ _ _).
  assert (Hl : zlen p = 99 + zlen d) by by apply eapol_length.
  assert (Hz : sub p 81 16 = replicate 16 0).
  { change 16 with (zlen (replicate 16 0)) at 1. by apply (eapol_field (rd inp 0) info 0 (sub inp 9 8) n (replicate 8 0) (replicate 16 0) d Hc Hn eq_refl eq_refl 10). }
  destruct (with_mic_zero (sub (ptk s) 0 16) p ltac:(destruct b; lia) Hz) as (W1 & W2 & W3 & W4).
  destruct (eapol_reads (rd inp 0) info 0 (sub inp 9 8) n (replicate 8 0) (replicate 16 0) d Hc Hn eq_refl eq_refl
              (with_mic (sub (ptk s) 0 16) p)) as (_ & _ & _ & _ & E9 & E17 & _ & E99); [done | done | done | done | lia | destruct b; lia |].
  split_and!; [unfold mic_ok; by rewrite W1 | | done |].
  - replace (reply_len (response s inp info b)) with (zlen (with_mic (sub (ptk s) 0 16) p)); [apply sub_all |].
    rewrite W3, Hl, Hd. by destruct b.
  - intros ->. split; [done |]. rewrite W3, Hl, Hd in E99. exact E99.
Qed.

Section Honest.
Context {W : Type} `{WpaOps W}.
Context (Hsend : forall p b w, snd (ops_send p b w) = 0) (Hinst : forall k w, snd (ops_install k w) = 0).
Context (ver : Z) (an : list Z) (Hver : 1 <= ver <= 2) (Han : zlen an = 32) (Hnz : nonzero an 32 = true).

(** With a radio that accepts, a response that is ready is sent, and after message 4 the port opens. *)
Lemma accept_sends s p t (w : W) l :
  exists s' w', accept s p t (w, l)
    = (s', (w', l ++ CSend (sub (reply s) 0 (reply_len s)) (reply_protected s) 0
                   :: if bool_decide (state s = WIFI_WPA2_M4) && negb (authorized s =? 1) then [CPort 1] else []), 1) /\
    state s' = (if bool_decide (state s = WIFI_WPA2_M4) then WIFI_WPA2_CONNECTED else state s) /\
    authorized s' = (if bool_decide (state s = WIFI_WPA2_M4) then 1 else authorized s) /\
    sta s' = sta s /\ ap s' = ap s /\ pmk s' = pmk s /\ ptk s' = ptk s /\ snonce s' = snonce s /\ anonce s' = anonce s /\
    ap_rsn s' = ap_rsn s /\ ap_rsn_len s' = ap_rsn_len s /\ have_replay s' = 1 /\ replay s' = be64 p 9.
Proof.
  unfold accept, send_reply, port. cbn [ops_send ops_port recorded].
  set (s1 := set_timer (set_replay _ _ _ _ _) _ _). pose proof (Hsend (sub (reply s1) 0 (reply_len s1)) (reply_protected s1) w) as Hs.
  destruct (ops_send _ _ w) as [w' rc]. cbn [snd] in Hs. subst rc. change (0 =? 0) with true. cbn [andb].
  change (state s1) with (state s). destruct (bool_decide (state s = WIFI_WPA2_M4)) eqn:E.
  - change (authorized (set_state s1 WIFI_WPA2_CONNECTED)) with (authorized s).
    destruct (authorized s =? 1) eqn:Ea; eexists _, _; (split; [cbn [negb andb]; rewrite <- ?app_assoc; reflexivity |]); split_and!; try done.
    cbn. lia.
  - eexists _, _. split_and!; try done.
Qed.

Lemma message1_reads c :
  0 <= c < 2 ^ 64 ->
  let m := message1 ver c an in
  key_frame m = true /\ be16 m 5 = PAIR_M1 /\ be16 m 7 = 16 /\ be64 m 9 = c /\ sub m 17 32 = an /\ rd m 0 = ver.
Proof.
  intros Hc m. destruct (eapol_reads ver PAIR_M1 16 (be64_bytes c) an (replicate 8 0) (replicate 16 0) [] eq_refl Han eq_refl eq_refl m)
    as (E1 & E2 & E3 & E4 & _ & E5 & _); [done | done | done | done | done | done |].
  rewrite be64_bytes_eq in E4 by done. split_and!; [exact E1 | exact E2 | exact E3 | exact E4 | exact E5 | reflexivity].
Qed.

Lemma message3_reads K c rsc data :
  0 <= c < 2 ^ 64 -> 0 <= rsc < 2 ^ 48 -> Forall is_byte K -> Forall is_byte data -> zlen data <= 256 -> zlen data mod 8 = 0 ->
  let m := message3 K ver c an rsc data in
  key_frame m = true /\ be16 m 5 = PAIR_M3 /\ be16 m 7 = 16 /\ be64 m 9 = c /\ sub m 17 32 = an /\ rd m 0 = ver /\
  sub m 99 (zlen m - 99) = rfc3394_wrap (sub K 16 16) data /\ zlen m = 107 + zlen data /\ mic_ok K m /\
  frame_rsc m = rsc /\ rd m 71 = 0 /\ rd m 72 = 0.
Proof.
  intros Hc Hr HK Hd Hl Hm m. destruct (wrap_length (sub K 16 16) data) as [Hw _]; [by apply Bytes.sub_bytes | done | done |].
  set (w := rfc3394_wrap (sub K 16 16) data) in *. pose proof (zlen_nonneg data).
  set (p := eapol_key ver PAIR_M3 16 (be64_bytes c) an (put_le 8 rsc) (replicate 16 0) w).
  assert (Lr : zlen (put_le 8 rsc) = 8) by by rewrite zlen_put_le.
  assert (Lp : zlen p = 99 + zlen w) by by apply eapol_length.
  assert (Hz : sub p 81 16 = replicate 16 0).
  { change 16 with (zlen (replicate 16 0)) at 1. by apply (eapol_field ver PAIR_M3 16 (be64_bytes c) an (put_le 8 rsc) (replicate 16 0) w eq_refl Han Lr eq_refl 10). }
  destruct (with_mic_zero (sub K 0 16) p ltac:(lia) Hz) as (W1 & W2 & W3 & W4).
  destruct (eapol_reads ver PAIR_M3 16 (be64_bytes c) an (put_le 8 rsc) (replicate 16 0) w eq_refl Han Lr eq_refl
              (with_mic (sub K 0 16) p)) as (E1 & E2 & E3 & E4 & _ & E5 & E6 & E7); [done | done | done | done | done | lia |].
  rewrite be64_bytes_eq in E4 by done. destruct (frame_rsc_eq (with_mic (sub K 0 16) p) rsc Hr E6) as (F1 & F2 & F3).
  change m with (with_mic (sub K 0 16) p).
  split_and!; [exact E1 | exact E2 | exact E3 | exact E4 | exact E5 | | exact E7 | rewrite W3; lia
              | unfold mic_ok; rewrite W1; exact W2 | exact F1 | exact F2 | exact F3].
  change 0 with (0 + 0) at 2. rewrite <- (rd_sub (with_mic (sub K 0 16) p) 0 1) by lia. rewrite W4 by lia. reflexivity.
Qed.

(** Message 1 is answered with message 2. *)
Lemma rx_message1 s c t (w w' : W) l sn :
  state s = WIFI_WPA2_M1 -> have_replay s = 0 -> authorized s = 0 -> 0 <= c < 2 ^ 64 ->
  ops_random 32 w = (w', (0, sn)) -> zlen sn = 32 -> nonzero sn 32 = true ->
  let K := ptk_of (pmk s) (sta s) (ap s) sn an in
  exists s' w'' m2, wifi_wpa2_rx s (message1 ver c an) t (w, l) = (s', (w'', l ++ [CRandom sn 0; CSend m2 0 0]), 1) /\
    mic_ok K m2 /\ be64 m2 9 = c /\ sub m2 17 32 = sn /\ sub m2 99 22 = wifi_wpa2_station_rsn /\
    state s' = WIFI_WPA2_M3 /\ authorized s' = 0 /\ ptk s' = K /\ snonce s' = sn /\ anonce s' = an /\
    ap_rsn s' = ap_rsn s /\ ap_rsn_len s' = ap_rsn_len s /\ replay s' = c /\ have_replay s' = 1.
Proof.
  intros Hst Hh Ha Hc Hrnd Hsn Hnzs K. destruct (message1_reads c Hc) as (E1 & E2 & E3 & E4 & E5 & E6).
  unfold wifi_wpa2_rx. rewrite Hst, E1, Hh, E2. change (negb (live WIFI_WPA2_M1) || negb true) with false.
  change (negb (0 =? 0)) with false. cbn [andb]. rewrite Z.eqb_refl.
  unfold rx_m1. rewrite Hst, E3, E5, Hnz. rewrite (bool_decide_true (WIFI_WPA2_M1 = WIFI_WPA2_M1)) by done.
  change (negb true && _ || negb (16 =? 16) || negb true) with false. cbv iota.
  cbn [ops_random recorded]. rewrite Hrnd. cbn [snonce set_secrets]. rewrite Hnzs. change (negb (0 =? 0) || negb true) with false. cbv iota.
  cbn [pmk sta ap anonce set_secrets]. fold K.
  set (s1 := set_secrets _ (pmk s) K sn an).
  destruct (response_reads s1 (message1 ver c an) PAIR_M2 true) as (R1 & R2 & R3 & R4);
    [apply key_frame_length in E1; lia | lia | done | done |].
  destruct (R4 eq_refl) as [R5 R6].
  destruct (accept_sends (set_state (set_protected (response s1 (message1 ver c an) PAIR_M2 true) 0) WIFI_WPA2_M3)
              (message1 ver c an) t w' (l ++ [CRandom sn 0])) as (s' & w'' & -> & A1 & A2 & _ & _ & _ & A3 & A4 & A5 & A6 & A7 & A9 & A8).
  exists s', w'', (reply (response s1 (message1 ver c an) PAIR_M2 true)).
  split_and!; [| exact R1 | | exact R5 | exact R6 | exact A1 | rewrite A2; exact Ha | exact A3 | exact A4 | exact A5
              | exact A6 | exact A7 | rewrite A8; exact E4 | exact A9].
  - rewrite <- app_assoc. exact (f_equal (fun x => (s', (w'', l ++ [CRandom sn 0; CSend x 0 0]), 1)) R2).
  - rewrite be64_sub, R3, <- be64_sub by lia. exact E4.
Qed.

(** Message 3 installs the keys, is answered with message 4, and the port opens. *)
Lemma rx_message3 s c rsc rsn id_ gtk pad t (w : W) l :
  state s = WIFI_WPA2_M3 -> authorized s = 0 -> replay s < c < 2 ^ 64 -> 0 <= c -> 0 <= rsc < 2 ^ 48 ->
  Forall is_byte (ptk s) -> zlen (snonce s) = 32 -> anonce s = an ->
  rsn_of s = rsn -> ap_rsn_len s = zlen rsn -> rd rsn 0 = 48 -> rd rsn 1 = zlen rsn - 2 -> 2 <= zlen rsn ->
  zlen gtk = 16 -> 0 <= id_ < 8 -> is_padding pad ->
  let data := key_data_of rsn id_ gtk pad in
  Forall is_byte data -> zlen data <= 256 -> zlen data mod 8 = 0 ->
  exists s' w' m4, wifi_wpa2_rx s (message3 (ptk s) ver c an rsc data) t (w, l)
    = (s', (w', l ++ [CInstall (mkKeys 1 1 (Z.land id_ 3) (sub (ptk s) 32 16) gtk rsc) 0; CSend m4 0 0; CPort 1]), 1) /\
    mic_ok (ptk s) m4 /\ be64 m4 9 = c /\ state s' = WIFI_WPA2_CONNECTED /\ authorized s' = 1.
Proof.
  intros Hst Ha Hc Hc0 Hrsc HK Hsn Hans Hrsn Hrl Hr0 Hr1 Hr2 Hg Hid Hpad data Hd Hdl Hdm.
  destruct (message3_reads (ptk s) c rsc data ltac:(lia) Hrsc HK Hd Hdl Hdm)
    as (E1 & E2 & E3 & E4 & E5 & E6 & E7 & E8 & E9 & F1 & F2 & F3).
  set (m := message3 (ptk s) ver c an rsc data) in *. clearbody m.
  assert (Hz : 24 <= zlen data).
  { pose proof (zlen_nonneg pad). unfold data, key_data_of, gtk_element. rewrite !zlen_app, Hg. change (zlen [_; _; _; _; _; _; _; _]) with 8. lia. }
  unfold wifi_wpa2_rx. rewrite Hst, E1, E2, E4. change (negb (live WIFI_WPA2_M3) || negb true) with false.
  rewrite (proj2 (Z.ltb_ge c (replay s))), (proj2 (Z.eqb_neq c (replay s))) by lia. rewrite !andb_false_r.
  change (PAIR_M3 =? PAIR_M1) with false. cbv iota.
  unfold rx_keys. rewrite E2, E3, Hst. cbv zeta. change (PAIR_M3 =? PAIR_M3) with true.
  rewrite (bool_decide_true (WIFI_WPA2_M3 = WIFI_WPA2_M3)) by done.
  assert (Hv : valid_mic s m = true).
  { apply valid_mic_eq; [unfold KEY_FIXED; lia |]. rewrite <- mic_of_eq. exact E9. }
  assert (He : equal (sub m 17 32) (anonce s) 32 = true) by (rewrite E5, Hans; by apply equal_spec).
  rewrite Hv, He, (proj2 (Z.ltb_ge (zlen m - KEY_FIXED) 24)) by (unfold KEY_FIXED; lia).
  change (16 =? 16) with true. cbn [negb andb orb]. rewrite F2, F3, F1. change (negb (0 =? 0) || negb (0 =? 0)) with false. cbv iota.
  replace (sub m KEY_FIXED (zlen m - KEY_FIXED)) with (rfc3394_wrap (sub (ptk s) 16 16) data) by (symmetry; exact E7).
  unfold data at 1. rewrite (key_data_complete s rsn gtk pad id_) by assumption. cbn [group gtk_id k_tk k_gtk group_rsc Z.b2z].
  set (k := mkKeys 1 1 _ _ _ _). cbn [ops_install recorded]. pose proof (Hinst k w) as Hi. destruct (ops_install k w) as [w1 rc].
  cbn [snd] in Hi. subst rc. change (negb (0 =? 0)) with false. cbv iota.
  destruct (response_reads s m PAIR_M4 false) as (R1 & R2 & R3 & _); [unfold KEY_FIXED; lia | lia | done | done |].
  destruct (accept_sends (set_state (set_protected (response s m PAIR_M4 false) 0) WIFI_WPA2_M4) m t w1 (l ++ [CInstall k 0]))
    as (s' & w' & -> & A1 & A2 & _).
  exists s', w', (reply (response s m PAIR_M4 false)).
  split_and!; [| exact R1 | rewrite be64_sub, R3, <- be64_sub by lia; exact E4 | exact A1 | exact A2].
  rewrite <- app_assoc. change (authorized (set_state _ _)) with (authorized s). rewrite Ha.
  exact (f_equal (fun x => (s', (w', l ++ [CInstall k 0; CSend x 0 0; CPort 1]), 1)) R2).
Qed.
End Honest.

Lemma ptk_of_swap pmk_ sta_ ap_ sn an :
  length sta_ = length ap_ -> length sn = length an -> ptk_of pmk_ sta_ ap_ sn an = ptk_of pmk_ ap_ sta_ an sn.
Proof. intros Ha Hn. unfold ptk_of, wifi_wpa2_ptk. by rewrite (sorted_pair sta_ ap_), (sorted_pair sn an). Qed.

(** What an authenticator brings to a handshake: the version it speaks, its nonce,
    the counters of its two messages, and the group key with its number, its
    receive counter and the padding of the key data. *)
Record authenticator := mkAuth {
  a_ver : Z; a_nonce : list Z; a_c1 : Z; a_c2 : Z; a_id : Z; a_gtk : list Z; a_rsc : Z; a_pad : list Z }.

Definition a_data (a : authenticator) (rsn : list Z) : list Z := key_data_of rsn (a_id a) (a_gtk a) (a_pad a).

Record auth_ok (a : authenticator) (rsn : list Z) : Prop := {
  ok_ver : 1 <= a_ver a <= 2;
  ok_nonce : zlen (a_nonce a) = 32 /\ nonzero (a_nonce a) 32 = true;
  ok_counters : 0 <= a_c1 a < a_c2 a /\ a_c2 a < 2 ^ 64;
  ok_gtk : 0 <= a_id a < 8 /\ zlen (a_gtk a) = 16 /\ 0 <= a_rsc a < 2 ^ 48;
  ok_data : is_padding (a_pad a) /\ Forall is_byte (a_data a rsn) /\ zlen (a_data a rsn) <= 256 /\ zlen (a_data a rsn) mod 8 = 0 }.

Lemma start_rsn {W} `{WpaOps W} s0 sta_ ap_ pmk_ rsn now w s w1 :
  wifi_wpa2_start s0 sta_ ap_ pmk_ rsn now w = (s, w1, 0) ->
  2 <= zlen rsn /\ rd rsn 0 = 48 /\ rd rsn 1 = zlen rsn - 2 /\ ap_rsn_len s = zlen rsn.
Proof.
  unfold wifi_wpa2_start. destruct (_ || _) eqn:E; [done |]. intros Es. b2p.
  apply (f_equal fst) in Es as Es1. apply (f_equal fst) in Es1 as Ew. cbn [fst] in Ew. subst s. split_and!; done || lia.
Qed.

(** The handshake, call by call. *)
Lemma handshake_runs {W} `{WpaOps W} s0 sta_ ap_ pmk_ rsn t0 w0 s1 w1 wr sn a t1 t3 :
  (forall p b w, snd (ops_send p b w) = 0) -> (forall k w, snd (ops_install k w) = 0) ->
  wifi_wpa2_start s0 sta_ ap_ pmk_ rsn t0 w0 = (s1, w1, 0) -> length sta_ = length ap_ -> auth_ok a rsn ->
  ops_random 32 w1 = (wr, (0, sn)) -> zlen sn = 32 -> nonzero sn 32 = true ->
  exists m2 m4 s2 w2 s3 w3,
    let K := ptk_of pmk_ ap_ sta_ (a_nonce a) (sub m2 17 32) in
    wifi_wpa2_rx s1 (message1 (a_ver a) (a_c1 a) (a_nonce a)) t1 (w1, [])
    = (s2, (w2, [CRandom sn 0; CSend m2 0 0]), 1) /\
    sub m2 17 32 = sn /\ sub m2 99 22 = wifi_wpa2_station_rsn /\ be64 m2 9 = a_c1 a /\ mic_ok K m2 /\
    wifi_wpa2_rx s2 (message3 K (a_ver a) (a_c2 a) (a_nonce a) (a_rsc a) (a_data a rsn)) t3 (w2, [])
    = (s3, (w3, [CInstall (mkKeys 1 1 (Z.land (a_id a) 3) (sub K 32 16) (a_gtk a) (a_rsc a)) 0; CSend m4 0 0; CPort 1]), 1) /\
    be64 m4 9 = a_c2 a /\ mic_ok K m4 /\ state s3 = WIFI_WPA2_CONNECTED /\ authorized s3 = 1.
Proof.
  intros Hsend Hinst Hs Hsa [Hv [Hn Hnz] Hc (Hid & Hg & Hrsc) (Hpad & Hd & Hdl & Hdm)] Hrnd Hsn Hsz.
  destruct (started _ _ _ _ _ _ _ _ _ Hs) as (I1 & I2 & _ & <- & <- & <- & I3 & I4 & I5 & _).
  destruct (start_rsn _ _ _ _ _ _ _ _ _ Hs) as (J1 & J2 & J3 & J4).
  destruct (rx_message1 Hsend (a_ver a) (a_nonce a) Hv Hn Hnz s1 (a_c1 a) t1 w1 wr [] sn)
    as (s2 & w2 & m2 & E2 & B1 & B2 & B3 & B4 & B5 & B6 & B7 & B8 & B9 & B10 & B11 & B12 & _);
    [exact I1 | exact I3 | exact I2 | lia | exact Hrnd | exact Hsn | exact Hsz |].
  rewrite (ptk_of_swap (pmk s1)) in B1, B7 by (done || unfold zlen in *; lia).
  destruct (ptk_of_bytes (pmk s1) (ap s1) (sta s1) (a_nonce a) sn) as [HKb _].
  destruct (rx_message3 Hsend Hinst (a_ver a) (a_nonce a) Hv Hn s2 (a_c2 a) (a_rsc a) rsn (a_id a) (a_gtk a) (a_pad a) t3 w2 [])
    as (s3 & w3 & m4 & E3 & D1 & D2 & D3 & D4);
    [exact B5 | exact B6 | lia | lia | exact Hrsc | rewrite B7; exact HKb | rewrite B8; exact Hsn | exact B9
    | unfold rsn_of; rewrite B10, B11; exact I4 | rewrite B11; exact J4 | exact J2 | exact J3 | exact J1 | exact Hg
    | exact Hid | exact Hpad | exact Hd | exact Hdl | exact Hdm |].
  rewrite B7 in E3, D1. exists m2, m4, s2, w2, s3, w3. cbv zeta. rewrite B3.
  split_and!; [exact E2 | reflexivity | exact B4 | exact B2 | exact B1 | exact E3 | exact D2 | exact D1 | exact D3 | exact D4].
Qed.

(** C8. The four-way handshake completes.  When the radio and the installation of
    keys succeed and the nonces are not zero, message 1 of an authenticator that
    holds the same master key is answered with message 2, which carries the fresh
    nonce, the supplicant's security element and a code that is valid under the
    key [K] the authenticator derives from it; message 3, coded and wrapped under
    that [K], makes the supplicant install exactly the temporal key of [K] and the
    group key that was sent, answer with a message 4 that is valid under [K], and
    open the port.  No other call is made. *)
Theorem wpa2_handshake_completes {W} `{WpaOps W} s0 sta_ ap_ pmk_ rsn t0 w0 s1 w1 wr sn a t1 t3 :
  (forall p b w, snd (ops_send p b w) = 0) -> (forall k w, snd (ops_install k w) = 0) ->
  wifi_wpa2_start s0 sta_ ap_ pmk_ rsn t0 w0 = (s1, w1, 0) -> length sta_ = length ap_ -> auth_ok a rsn ->
  ops_random 32 w1 = (wr, (0, sn)) -> zlen sn = 32 -> nonzero sn 32 = true ->
  exists m2 m4 s2 w2 s3 w3,
    let K := ptk_of pmk_ ap_ sta_ (a_nonce a) (sub m2 17 32) in
    wifi_wpa2_rx s1 (message1 (a_ver a) (a_c1 a) (a_nonce a)) t1 (w1, [])
    = (s2, (w2, [CRandom sn 0; CSend m2 0 0]), 1) /\
    sub m2 17 32 = sn /\ sub m2 99 22 = wifi_wpa2_station_rsn /\ be64 m2 9 = a_c1 a /\ mic_ok K m2 /\
    wifi_wpa2_rx s2 (message3 K (a_ver a) (a_c2 a) (a_nonce a) (a_rsc a) (a_data a rsn)) t3 (w2, [])
    = (s3, (w3, [CInstall (mkKeys 1 1 (Z.land (a_id a) 3) (sub K 32 16) (a_gtk a) (a_rsc a)) 0; CSend m4 0 0; CPort 1]), 1) /\
    be64 m4 9 = a_c2 a /\ mic_ok K m4 /\ state s3 = WIFI_WPA2_CONNECTED /\ authorized s3 = 1.
Proof. apply handshake_runs. Qed.

(** ** Two weaknesses *)

(** A frame whose counter is below the last accepted one has no effect. *)
Lemma rx_stale {W} `{WpaOps W} s p t (w : W) :
  have_replay s <> 0 -> be64 p 9 < replay s -> wifi_wpa2_rx s p t w = (s, w, 0).
Proof.
  intros Hh Hr. unfold wifi_wpa2_rx. destruct (_ || _); [done |].
  by rewrite (proj2 (Z.eqb_neq _ _) Hh), (proj2 (Z.ltb_lt _ _) Hr).
Qed.

(** Message 1 carries no code, and its counter is kept: after one forged message 1
    with the largest counter, no frame with a smaller counter has any effect, so
    that the handshake with the real network cannot complete. *)
Theorem forged_m1_locks_out {W} `{WpaOps W} s ver an t (w wr : W) sn p t' w' :
  (forall p b w, snd (ops_send p b w) = 0) ->
  state s = WIFI_WPA2_M1 -> have_replay s = 0 -> authorized s = 0 -> 1 <= ver <= 2 -> zlen an = 32 -> nonzero an 32 = true ->
  ops_random 32 w = (wr, (0, sn)) -> zlen sn = 32 -> nonzero sn 32 = true -> be64 p 9 < 2 ^ 64 - 1 ->
  let s' := fst (fst (wifi_wpa2_rx s (message1 ver (2 ^ 64 - 1) an) t (w, []))) in
  wifi_wpa2_rx s' p t' w' = (s', w', 0).
Proof.
  intros Hsend Hst Hh Ha Hv Hn Hnz Hrnd Hsn Hsz Hp.
  destruct (rx_message1 Hsend ver an Hv Hn Hnz s (2 ^ 64 - 1) t w wr [] sn)
    as (s2 & w2 & m2 & E2 & _ & _ & _ & _ & _ & _ & _ & _ & _ & _ & _ & B12 & B13);
    [exact Hst | exact Hh | exact Ha | lia | exact Hrnd | exact Hsn | exact Hsz |].
  rewrite E2. cbn [fst]. apply rx_stale; lia.
Qed.

(** A message 3 that is sent again with a new counter, as the standard demands of
    retransmissions, is dropped once message 4 was prepared: it is not answered. *)
Theorem m3_retry_dropped {W} `{WpaOps W} s p t (w : W) :
  state s = WIFI_WPA2_M4 \/ state s = WIFI_WPA2_CONNECTED -> be16 p 5 = PAIR_M3 -> replay s < be64 p 9 ->
  wifi_wpa2_rx s p t w = (s, w, 0).
Proof.
  intros Hst Hi Hr. unfold wifi_wpa2_rx. destruct (_ || _); [done |].
  rewrite (proj2 (Z.ltb_ge (be64 p 9) (replay s))), (proj2 (Z.eqb_neq (be64 p 9) (replay s))), !andb_false_r by lia. rewrite Hi.
  change (PAIR_M3 =? PAIR_M1) with false. cbv iota. unfold rx_keys. rewrite Hi. cbv zeta. change (PAIR_M3 =? PAIR_M3) with true.
  rewrite (bool_decide_false (state s = WIFI_WPA2_M3)) by (destruct Hst as [-> | ->]; done).
  cbn [negb andb]. by rewrite !orb_true_r.
Qed.

(** ** Examples of the claims *)

Definition demo_start : wifi_wpa2 :=
  fst (fst (wifi_wpa2_start zero_wpa (replicate 6 2) (replicate 6 4) (demo_key 32) wifi_wpa2_station_rsn 0 tt)).
Definition demo_auth : authenticator := mkAuth 2 (replicate 32 7) 1 2 1 (demo_key 16) 9 [221; 0].

Lemma demo_start_eq :
  wifi_wpa2_start zero_wpa (replicate 6 2) (replicate 6 4) (demo_key 32) wifi_wpa2_station_rsn 0 tt = (demo_start, tt, 0).
Proof. reflexivity. Qed.

Definition demo_history : list wpa_event :=
  [Rx (message1 2 1 (replicate 32 7)) 10; Tick 2000; Rx (message1 2 2 (replicate 32 8)) 2500; Tick 9000].

Lemma wpa2_contract_witness :
  let '(_, (_, l)) := wpa_run demo_history (demo_start, (tt, [])) in (pairwise_installs l <= 1)%nat.
Proof.
  pose proof (wpa2_contract zero_wpa (replicate 6 2) (replicate 6 4) (demo_key 32) wifi_wpa2_station_rsn 0 tt demo_start tt
                demo_history demo_start_eq) as Hc.
  destruct (wpa_run demo_history (demo_start, (tt, []))) as [s [w l]]. destruct Hc as (_ & Hc & _). exact Hc.
Defined.

Lemma demo_auth_ok : auth_ok demo_auth wifi_wpa2_station_rsn.
Proof.
  split; [split; discriminate | split; reflexivity | split; [split; discriminate || reflexivity | reflexivity] | | ].
  - split_and!; try reflexivity; discriminate.
  - split_and!; [right; by exists 1%nat | | discriminate | reflexivity].
    repeat (apply Forall_cons_2; [split; reflexivity || discriminate |]). apply Forall_nil_2.
Qed.

(** The session of the example, and message 3 of its authenticator. *)
Definition demo_ptk : list Z := ptk_of (demo_key 32) (replicate 6 4) (replicate 6 2) (replicate 32 7) (demo_key 32).
Definition demo_m3 : list Z := message3 demo_ptk 2 2 (replicate 32 7) 9 (a_data demo_auth wifi_wpa2_station_rsn).
Definition demo_keys : wifi_wpa2_keys := mkKeys 1 1 1 (sub demo_ptk 32 16) (demo_key 16) 9.

Lemma demo_m3_bytes : Forall is_byte demo_m3.
Proof.
  destruct (ok_data _ _ demo_auth_ok) as (_ & Hd & _ & Hm).
  refine (message3_bytes demo_ptk 2 2 (replicate 32 7) 9 _ _ _ _ Hd Hm); [split; reflexivity || discriminate | | ].
  - exact (proj1 (ptk_of_bytes (demo_key 32) (replicate 6 4) (replicate 6 2) (replicate 32 7) (demo_key 32))).
  - apply Forall_replicate. split; reflexivity || discriminate.
Qed.

Lemma wpa2_install_authentic_witness :
  exists s w s' w' l', wpa_run [Rx (message1 2 1 (replicate 32 7)) 10] (demo_start, (tt, [])) = (s, w)
  /\ wifi_wpa2_rx s demo_m3 20 (fst w, []) = (s', (w', l'), 1) /\ In (CInstall demo_keys 0) l'
  /\ exists sn els, last_random (snd w) = Some sn
     /\ sub demo_m3 99 (zlen demo_m3 - 99) = rfc3394_wrap (sub (ptk_of (demo_key 32) (replicate 6 2) (replicate 6 4) sn (anonce s)) 16 16) els
     /\ k_tk demo_keys = sub (ptk_of (demo_key 32) (replicate 6 2) (replicate 6 4) sn (anonce s)) 32 16.
Proof.
  destruct (handshake_runs zero_wpa (replicate 6 2) (replicate 6 4) (demo_key 32) wifi_wpa2_station_rsn 0 tt
              demo_start tt tt (demo_key 32) demo_auth 10 20)
    as (m2 & m4 & s2 & w2 & s3 & w3 & E & E2 & _ & _ & _ & E3 & _);
    [reflexivity | reflexivity | exact demo_start_eq | reflexivity | exact demo_auth_ok | reflexivity | reflexivity | reflexivity |].
  rewrite E2 in E3. change (message1 (a_ver demo_auth) (a_c1 demo_auth) (a_nonce demo_auth)) with (message1 2 1 (replicate 32 7)) in E.
  pose proof (wpa2_install_authentic zero_wpa (replicate 6 2) (replicate 6 4) (demo_key 32) wifi_wpa2_station_rsn 0 tt demo_start tt
                [Rx (message1 2 1 (replicate 32 7)) 10] demo_m3 20 demo_start_eq demo_m3_bytes) as Hc.
  assert (Er : wpa_run [Rx (message1 2 1 (replicate 32 7)) 10] (demo_start, (tt, [])) = (s2, (w2, [CRandom (demo_key 32) 0; CSend m2 0 0]))).
  { unfold wpa_run. cbn [fold_left wpa_step fst snd]. rewrite E. reflexivity. }
  rewrite Er in Hc |- *. change (message3 _ _ _ _ _ _) with demo_m3 in E3. rewrite E3 in Hc.
  destruct (Hc demo_keys 0 ltac:(left; reflexivity)) as (sn & els & pad & id_ & Hl & _ & _ & Hw & _ & _ & _ & Hp).
  eexists _, _, _, _, _. split; [reflexivity |]. split; [exact E3 |]. split; [left; reflexivity |].
  exists sn, (concat els ++ pad). split; [exact Hl |]. split; [exact Hw | exact (proj1 (Hp eq_refl))].
Defined.

Lemma wpa2_handshake_completes_witness :
  exists m2 s2 w2, wifi_wpa2_rx demo_start (message1 2 1 (replicate 32 7)) 10 (tt, [])
    = (s2, (w2, [CRandom (demo_key 32) 0; CSend m2 0 0]), 1) /\ sub m2 17 32 = demo_key 32.
Proof.
  destruct (wpa2_handshake_completes zero_wpa (replicate 6 2) (replicate 6 4) (demo_key 32) wifi_wpa2_station_rsn 0 tt
              demo_start tt tt (demo_key 32) demo_auth 10 20)
    as (m2 & m4 & s2 & w2 & s3 & w3 & E & E2 & _);
    [reflexivity | reflexivity | exact demo_start_eq | reflexivity | exact demo_auth_ok | reflexivity | reflexivity | reflexivity |].
  exists m2, s2, w2. split; [exact E | exact E2].
Defined.
